(* ===== verification/_CoqProject ===== *)
-Q . S2P
Prelude.v
QueueOrder.v
QueueOrderSpec.v
Lifecycle.v
Goal.v
GoalSpec.v
Journal.v
JournalSpec.v
ReplaySpec.v
ModelSettings.v
Configuration.v
SettingsSpec.v
Interrupt.v
InterruptSpec.v
TurnAttempt.v
Frontier.v
FrontierSpec.v
ModelCall.v
Tool.v
ToolSpec.v
ToolAttempt.v
ToolAttemptSpec.v
TurnLifecycle.v
ToolBatch.v
ToolBatchSpec.v
ToolBatchDecisions.v
ToolBatchSteps.v
ProviderEvidence.v
FatalMismatch.v
Delegation.v
DelegationSpec.v
ImportedValue.v
Imported.v
ImportedSpec.v
SemanticEntry.v
ContextCompaction.v
ContextCompactionSpec.v
BatchProjection.v
BatchProjectionSpec.v
UserContent.v
ModelExecution.v
TurnClosure.v
ExecutionSteps.v
InterruptApplication.v
ExecutionReconstitution.v
ToolRoundSpec.v
TurnClosureSpec.v
ToolRoundBatch.v
RunnerNames.v
RunnerCatalog.v
RunnerEnrollment.v
RunnerGrant.v
RunnerLease.v
RunnerPlacement.v
RunnerRecovery.v
RunnerEnrollmentSpec.v
RunnerPlacementSpec.v
RunnerLeaseSpec.v
ReviewValues.v
ReviewTarget.v
ReviewPass.v
ReviewPassSpec.v
ReviewLink.v
ReviewLinkSpec.v
ReviewFinding.v
ReviewFindingSpec.v
SessionPlacement.v
SessionPlacementSpec.v
