(* ===== verification/Prelude.v ===== *)
(** * Signalbox: a verification of the domain core

    Signalbox runs durable agent sessions: users and programs submit inputs,
    each accepted input becomes a turn of its session, a turn is executed by
    attempts that call models and tools, and programs drive sessions through a
    journal that can be replayed. All decisions are made by pure aggregates in
    [src/crates/domain/src]; services, persistence and runners carry out what
    those aggregates permit. This development translates the aggregates at the
    centre of that domain and proves what they promise.

    ** Parts, and how they interact

    - [QueueOrder] models [queue_order.rs]. Accepted input carries an immutable
      order fact (a position and a priority: ordinary, or interrupt immediately
      after a turn). [derive_accepted_input_total_order] is the whole pipeline:
      session check, canonical duplicate detection, predecessor and
      chronology checks, the walk from the ordinary roots, the cycle report
      and the target chronology. [BTreeMap]s are [gmap]s whose iteration goes
      through [btree_iter], so the error an invalid input reports is the one
      the code reports. [QueueOrderSpec] holds the specification and exports
      the class [DerivesTotalOrder], the promise the clients rely on.
    - [Lifecycle] models [session_lifecycle.rs] and [actor.rs]: the session
      states with their typed detail, [admits], checked transitions and
      deadlines.
    - [Goal] models [goal.rs]: the lineage of commissioned goal generations,
      every public transition, and the replay of a stored event history. Its
      actors come from [Lifecycle]. Vector indexing that could panic is kept as
      the third outcome of [exec]; [GoalSpec] proves it never happens.
    - [Journal] models [program_journal.rs]: frames, the single-pass
      construction check, the outcome projections and the replay cursor, with
      its mutating methods as state passing. [JournalSpec] characterises the
      construction and [ReplaySpec] the dialogue of host, program and cursor.
    - [ModelSettings] models [model_settings.rs]: the precedence chain,
      resolution with provenance, capability validation, adjustment on a model
      change, and the recorded evidence. [Configuration] models
      [configuration.rs] and [delivery_request.rs]: versioned session
      defaults, requests derived from them, freezing an origin's configuration
      and reconstituting it. [SettingsSpec] holds their theorems. The catalog
      of model capabilities is data supplied by the caller, an argument.
    - [Interrupt] models [accepted_input.rs] and [applied_interrupt.rs]: the
      disposition of an accepted input, and the correlation of a handled
      interrupt into authority over its predecessor. [InterruptSpec] proves its
      effect on the queue against [DerivesTotalOrder] only.
    - [TurnAttempt] models [turn_attempt.rs]: the stop causes of an attempt,
      fed by the interrupt proofs of [Interrupt], the transitions and the
      matrix of permitted ends.
    - [Frontier] models [context_frontier.rs]: the transcript snapshots calls
      are made from. A snapshot shares its persistent vector with its
      derivations and is compared through the tokens of shared allocations; the
      vector of the rpds crate is the class [Rpds] with its laws in [RpdsLaws],
      and allocation addresses may be reused once nothing holds them.
      [FrontierSpec] proves the shortcuts sound over all histories and exports
      [ContextSnapshots], the interface the clients below use.
    - [ModelCall] models [model_call.rs]: one call, its transitions and its
      reconstitution against a snapshot and a pinned target.
    - [Tool] models the value files of [tool/]: names, proposals, requests,
      rationales, resolutions, decision commands and overrides. [ToolAttempt]
      models [tool_attempt.rs] and [tool/result.rs]: the physical attempts of a
      request, their fences, and the atomic issuance cells attempts share,
      addresses in a store that every operation threads. [ToolSpec] and
      [ToolAttemptSpec] hold their theorems.
    - [TurnLifecycle] models the values of [turn_lifecycle.rs] and
      [credential_availability.rs] the batches and turns exchange.
    - [ToolBatch] models [tool_execution/batch.rs] with its [approval],
      [attempt] and [reconstitution] files: the requests of one call, their
      decisions, their serial attempts and issuance cells. [ToolBatchSpec]
      characterises reconstitution by the declarative [batch_legal],
      [ToolBatchDecisions] the decision commands, and [ToolBatchSteps] all
      transitions as a step relation on the stored inventory.
    - [SemanticEntry] models [semantic_entry.rs], the closed payload of a
      transcript entry. [ContextCompaction] models [context_compaction.rs]: the
      projection of a complete frontier onto what a call sees and the
      reconstitution of a compaction. [BatchProjection] models
      [tool_execution/batch/projection.rs]: the entries a [ToolBatch] closes
      with. Their theorems are in [ContextCompactionSpec], around the step
      relation [sees], and in [BatchProjectionSpec], which composes the two.
    - [UserContent] models [user_content.rs]: bounded attachment texts and the
      admission of ordered content.
    - [ModelExecution] models the values of [model_execution/] and the active
      turn of [turn_eligibility/activated_turn.rs]: target catalog, prepared
      calls, observations of a provider, the identities a transaction brings
      and the turns it commits. The live aggregate composes [TurnAttempt],
      [ModelCall], [Frontier], [Tool] and [UserContent]. [TurnClosure] models
      [turn_closure.rs] and [tool_round.rs]: what one observation does to the
      call, the attempt and the turn. [ExecutionSteps] models the other methods
      of [model_execution.rs], [InterruptApplication] the closures of waits,
      and [ExecutionReconstitution] the validation of stored facts.
      [ToolRoundSpec] treats the loops over a response, [TurnClosureSpec] holds
      the specification [closes] of an observation and its theorems, and
      [ToolRoundBatch] composes a yielded round with [ToolBatch].
    - [ProviderEvidence] models [provider_evidence.rs]: the canonical targets of
      calls, the logs of observed evidence and of invalidations, and the facts
      they yield about a call of [ModelCall]. [FatalMismatch] models
      [fatal_mismatch.rs] with its [lifecycle] and [prepared] files: what such a
      fact does to the owned work of a turn, and the attempt of [TurnAttempt]
      and the phase of [TurnLifecycle] it leads to.
    - The files of [runner/] are modelled by [RunnerNames] and [RunnerCatalog]
      (checked names, the declared catalog, advertisements),
      [RunnerEnrollment] (enrollments and registrations over three shared atomic
      cells, addresses in a store every operation threads), [RunnerGrant]
      (placement data and credential grants), [RunnerLease] (fenced leases, their
      loss and the authority to retry, which goes through [ToolBatch]),
      [RunnerPlacement] (the affinity of a session, which offers the leases) and
      [RunnerRecovery]. Rendering a UUID is an argument, the function of the uuid
      crate. [RunnerEnrollmentSpec] takes preparations and commits apart into
      their atomic steps; [RunnerPlacementSpec] and [RunnerLeaseSpec] hold the
      histories of placements and leases.
    - The files of [review_workflow/] are modelled by [ReviewValues] (references,
      bounded values, the policy, judgments), [ReviewTarget] (stacked targets),
      [ReviewPass] (results, passes, runs and the evidence both give),
      [ReviewLink] (external links with their evidence) and [ReviewFinding]
      (proposals, events, the reference graph). Links and findings take evidence
      of passes and runs as values and never trust two different accounts of one;
      [ReviewPassSpec], [ReviewLinkSpec] and [ReviewFindingSpec] hold the
      histories, the last composes findings with links.
    - [SessionPlacement] models [session_placement.rs]; [SessionPlacementSpec]
      relates its comparisons of texts to the segments of paths.
    - [Delegation] models the files of [session_delegation/]: the content,
      sealed requests and outcomes exchanged between a parent and a child
      session, the relation with its event history and transitions, and the
      validation of a stored history. [DelegationSpec] holds the declarative
      [history_legal] and the theorems.
    - [ImportedValue] and [Imported] model [imported_conversation/]: the
      normalized values with their worklist loops and digests over an abstract
      SHA-256 (the class [Sha256]), the projection of a source record of Claude
      Code or Codex into entries, the two validation loops, the aggregate with
      its frontiers, and display titles. [ImportedSpec] holds the declarative
      [conversation_legal], a step relation of the entry cursor and the
      theorems.

    ** Conventions

    [Result] is [result], a monad with the error first; [?] and early returns
    are its bind, and an early-returning loop is [try_fold]. A method that takes
    [self] and returns it inside its error does so here. Identities are UUID
    values, one type per kind. A [u64] is an [N] and a [NonZeroU64] a
    [positive]; the only arithmetic on them is [checked_add], whose failure at
    [u64::MAX] is modelled and appears in the theorems (exhausted ordinals).
    Strings are their UTF-8 bytes.

    ** What is proved

    - Queue order: the derivation returns a list exactly when the facts are
      admissible and chronological, and that list is the unique order in which
      each interrupt directly follows its target and ordinary work is
      first-in first-out; it is independent of the order of the facts; on
      admissible facts the only possible error is reversed chronology.
    - Goals: the transitions refine a declarative step relation on every
      branch; reachable lineages satisfy a well-formedness invariant; replay
      succeeds exactly on the histories the transitions produce, with the
      lineage that produced them; rejections are justified, closing with the
      session is final, and histories only grow.
    - Journal: construction accepts exactly the legal streams, a rejection
      names the first violated rule, and the outcome projections are exact.
      Replay of a deterministic program reproduces its recorded interleaving
      and then goes live; a divergence is reported at the first differing
      request; no interleaving of calls takes the cursor out of its journal.
    - Settings: frozen settings are supported by the selected model; a model
      change alters only what the new model does not support and records
      evidence from which it is checked; freezing and reconstitution are
      inverse.
    - Interrupts and attempts: authority is granted exactly for consistent
      facts and inserts the successor right after the interrupted turn; a
      pending input settles once; the stop requests of an attempt form a union
      that no order of arrival changes and that its end retains.
    - Frontiers and calls: every comparison shortcut agrees with comparing the
      complete entries, derivation appends exactly, the validation cache
      reports what a full check reports; stored calls are reconstituted exactly
      when transitions produced them.
    - Tools: the end of an attempt is honest about what was authorized, stored
      attempts round-trip, an issuance cell is claimed once in any
      interleaving; a stored batch is reconstituted exactly when it is legal,
      a decision decides exactly the awaited request, and every recorded
      transition leads to a batch that is reconstituted again, but for one
      case: the wait an ambiguous end leaves in a batch with attempts of another
      tenure, as after a foreground child wait, which the loader refuses and
      nothing follows ([batch_history_reconstitutes],
      [ambiguity_recoverable_iff]).
    - Mismatches: recorded evidence gives authority over exactly the calls it
      contradicts, its fact applies to every attempt that owns the call, and the
      outcome of the attempt and the turn is determined by the owned work.
    - Delegation: a stored relation is reconstituted exactly when its history
      is legal, every sequence of transitions leads to a relation that is
      reconstituted again, a child ends once, a parent's termination does what
      the policy says, and stored outcomes round-trip.
    - Imports: a stored conversation is reconstituted exactly when its records
      authenticate themselves and its entries are in order what the records
      project to; converted records satisfy all of it by construction; the
      worklist loops equal their recursive definitions, digest inputs determine
      their content, frontiers denote prefixes and titles are stable.
    - Transcripts: the projection of a frontier never panics, shows the latest
      summary and what follows it, and splits no tool exchange; every way of
      closing a tool batch answers each request once and closes its exchanges,
      a continuation exists exactly when every request is settled, and a batch
      with nothing running can always be closed.
    - Executions: an observation of a provider is applied exactly when it is
      correlated with the issued call, pending steering is settled and the
      identities are of the observation's shape and fresh; it alone decides how
      call, attempt and turn end; what it appends extends the frontier under
      exactly the supplied identities and leaves open exactly the requests of a
      yielded round, which the batch loader then reconstitutes in the phase the
      turn was given.
    - Runners: in every interleaving of the atomic steps of registrations of an
      active, pending or loaded enrollment one preparation is outstanding at most
      and the current registration is the last one issued; stored registrations
      are reconstituted exactly when an admissible advertisement led to them,
      placements before a pin exactly when losses and replacements did, pinned
      ones under the registration of the pin exactly when it has the profile they
      were changed to; a lease is offered only under the current registration and
      never on the authority of the session's blanket, it is lost exactly while
      offered or claimed, its loss is classified by what may have run, and an
      unclaimed one is offered again once.
    - Reviews: a target carries its stack, in which nothing occurs twice; a stored
      pass, run and link is reconstituted exactly when some history of its
      transitions leads to it, whatever the order its claims are stored in; a run
      has the one state its pass calls for, and evidence of a pass takes the results
      bound to it but those that refer to another policy; no pass and no run is evidence for
      two things; a finding is published only above the threshold of its policy,
      after its judgment and through links used once, and what an attached link
      publishes is accepted; the check of the reference graph ends and accepts
      exactly the complete graphs without a cycle.
    - Placement: a session reads another exactly when it has no path, is a root, or
      the other lies in its directory; a delegated child is placed so that it reads
      and is read like its parent; an update has one outcome.
    - Session lifecycle: terminal states are final, work follows a dispatch or
      a park, every open session can close, deadlines fire admitted
      transitions.

    ** Termination and bounds

    [walk_chain] is defined by well-founded recursion on the turns not yet
    visited, so the queue derivation needs no fuel and is total; the worklist
    loops of [ImportedValue] are defined by well-founded recursion on the nodes
    still pending. The walk over a reference graph takes fuel, one more than
    there are findings: a path holds no finding twice, and
    [reference_graph_exact] shows that the fuel suffices. Every other operation
    is structural on its input.
    [host_turns] in [ReplaySpec] counts turns of the host; the replay theorems
    give the count that suffices, the number of recorded frames plus one.

    ** Not modelled

    In the same crate: the eligibility snapshot of [turn_eligibility/] (a
    validation over every record of a session), sessions with their metadata,
    the replacement of defaults, input submission, imported sessions, workspaces
    and repository watches.
    They meet this development at values it defines: the attempts of
    [TurnAttempt], the order of [QueueOrder], the frozen configurations of
    [Configuration], the active turns of [ModelExecution]. The other crates
    are I/O around the domain (SQL, processes, HTTP, wire formats, user
    interfaces), whose behaviour is that of the systems they drive. Within the
    files that are modelled, accessors, formatting and error display are left
    out. *)

(** * Prelude

    Fallible and panicking code, loops, machine integers, text, identities and
    ordered collections, with the lemmas and automation the components share. *)

From stdpp Require Export prelude gmap sorting list fin_maps.
From stdpp Require Import strings.

(** ** Fallible code

    A Rust [Result<A, E>] with the error type first, so that [result E] is a
    monad; [?] and early [return Err(..)] are the monadic bind. *)

Inductive result (E A : Type) : Type :=
| Ok (a : A)
| Err (e : E).
Arguments Ok {E A} a.
Arguments Err {E A} e.

#[export] Instance result_ret {E} : MRet (result E) := fun A a => Ok a.
#[export] Instance result_bind {E} : MBind (result E) := fun A B k m =>
  match m with Ok a => k a | Err e => Err e end.
#[export] Instance result_fmap {E} : FMap (result E) := fun A B f m =>
  match m with Ok a => Ok (f a) | Err e => Err e end.

(** [Result::map_err] *)
Definition map_err {E F A} (f : E -> F) (m : result E A) : result F A :=
  match m with Ok a => Ok a | Err e => Err (f e) end.

(** [Option::ok_or] *)
Definition ok_or {E A} (o : option A) (e : E) : result E A :=
  match o with Some a => Ok a | None => Err e end.

(** A check that returns [Err e] early when its condition fails. *)
Definition ensure {E} (b : bool) (e : E) : result E unit :=
  if b then Ok tt else Err e.

Definition is_ok {E A} (m : result E A) : bool :=
  match m with Ok _ => true | Err _ => false end.

(** A loop over a collection whose body can return early. *)
Fixpoint try_fold {E S A} (f : S -> A -> result E S) (l : list A) (s : S) : result E S :=
  match l with
  | [] => Ok s
  | x :: l => s' ← f s x; try_fold f l s'
  end.

Section result_lemmas.
Context {E F A B : Type}.
Implicit Types (m : result E A).

Lemma bind_Ok m (k : A -> result E B) b :
  (m ≫= k) = Ok b <-> exists a, m = Ok a /\ k a = Ok b.
Proof. destruct m; simpl; naive_solver. Qed.

Lemma bind_Err m (k : A -> result E B) e :
  (m ≫= k) = Err e <-> m = Err e \/ exists a, m = Ok a /\ k a = Err e.
Proof. destruct m; simpl; naive_solver. Qed.

Lemma ok_or_Ok (o : option A) (e : E) a : ok_or o e = Ok a <-> o = Some a.
Proof. destruct o; simpl; naive_solver. Qed.

Lemma ok_or_Err (o : option A) (e e' : E) : ok_or o e = Err e' <-> o = None /\ e = e'.
Proof. destruct o; simpl; naive_solver. Qed.

Lemma map_err_Ok (f : E -> F) m a : map_err f m = Ok a <-> m = Ok a.
Proof. destruct m; simpl; naive_solver. Qed.

(** Guards that return early. *)
Lemma if_false_Ok (b : bool) (e : E) m a : (if b then Err e else m) = Ok a <-> b = false /\ m = Ok a.
Proof. destruct b; naive_solver. Qed.

Lemma if_Ok (P : Prop) `{Decision P} (e : E) m a :
  (if bool_decide P then Err e else m) = Ok a <-> ~ P /\ m = Ok a.
Proof. case_bool_decide; simpl; naive_solver. Qed.

Lemma if_negb_Ok (P : Prop) `{Decision P} (e : E) m a :
  (if negb (bool_decide P) then Err e else m) = Ok a <-> P /\ m = Ok a.
Proof. case_bool_decide; simpl; naive_solver. Qed.

Lemma ensure_Ok b (e : E) u : ensure b e = Ok u <-> b = true.
Proof. destruct b, u; simpl; naive_solver. Qed.

Lemma ensure_Err b (e e' : E) : ensure b e = Err e' <-> b = false /\ e = e'.
Proof. destruct b; simpl; naive_solver. Qed.
End result_lemmas.

Lemma try_fold_app {E S A} (f : S -> A -> result E S) l1 l2 s :
  try_fold f (l1 ++ l2) s = try_fold f l1 s ≫= try_fold f l2.
Proof.
  revert s; induction l1 as [|x l1 IH]; intros s; simpl; [done|].
  destruct (f s x); simpl; auto.
Qed.

(** The iteration at which a loop returned early. *)
Lemma try_fold_Err {E S A} (f : S -> A -> result E S) l s e :
  try_fold f l s = Err e <->
  exists l1 x l2 s1, l = l1 ++ x :: l2 /\ try_fold f l1 s = Ok s1 /\ f s1 x = Err e.
Proof.
  split.
  - revert s. induction l as [|x l IH]; intros s; simpl; [done|].
    rewrite bind_Err. intros [Hf|(s1 & Hf & Hl)]; [by exists [], x, l, s|].
    destruct (IH s1 Hl) as (l1 & y & l2 & s2 & -> & H1 & H2).
    exists (x :: l1), y, l2, s2. simpl. by rewrite Hf.
  - intros (l1 & x & l2 & s1 & -> & H1 & H2). rewrite try_fold_app, H1. simpl. by rewrite H2.
Qed.

(** A loop that only checks succeeds when every element passes. *)
Lemma try_fold_unit {E A} (f : unit -> A -> result E unit) l :
  try_fold f l tt = Ok tt <-> forall x, x ∈ l -> f tt x = Ok tt.
Proof.
  induction l as [|x l IH]; simpl; [split; [set_solver|done]|].
  rewrite bind_Ok. setoid_rewrite elem_of_cons. split.
  - intros ([] & Hx & Hl). naive_solver.
  - intros H. exists tt. naive_solver.
Qed.

(** Invariant rule for an early-returning loop: the invariant relates the
    state to the part of the collection already visited. *)
Lemma try_fold_ind {E S A} (f : S -> A -> result E S) (P : list A -> S -> Prop) l s s' :
  P [] s ->
  (forall l1 x l2 s1 s2, l = l1 ++ x :: l2 -> P l1 s1 -> f s1 x = Ok s2 -> P (l1 ++ [x]) s2) ->
  try_fold f l s = Ok s' -> P l s'.
Proof.
  intros H0 Hstep.
  assert (forall l2 l1 s1, l = l1 ++ l2 -> P l1 s1 -> try_fold f l2 s1 = Ok s' -> P l s') as Hgen.
  { induction l2 as [|x l2 IH]; intros l1 s1 -> HP; simpl.
    - rewrite app_nil_r in *. by intros [= ->].
    - rewrite bind_Ok. intros (s2 & Hf & Hl).
      eapply (IH (l1 ++ [x])); [by rewrite <- app_assoc| |done].
      by eapply Hstep. }
  by apply (Hgen l []).
Qed.

(** The loop succeeds when its body succeeds on every state the invariant
    allows. *)
Lemma try_fold_total {E S A} (f : S -> A -> result E S) (P : list A -> S -> Prop) l s :
  P [] s ->
  (forall l1 x l2 s1, l = l1 ++ x :: l2 -> P l1 s1 -> exists s2, f s1 x = Ok s2 /\ P (l1 ++ [x]) s2) ->
  exists s', try_fold f l s = Ok s' /\ P l s'.
Proof.
  intros H0 Hstep.
  assert (forall l2 l1 s1, l = l1 ++ l2 -> P l1 s1 -> exists s', try_fold f l2 s1 = Ok s' /\ P l s') as Hgen.
  { induction l2 as [|x l2 IH]; intros l1 s1 -> HP; simpl.
    - rewrite app_nil_r in *. eauto.
    - destruct (Hstep l1 x l2 s1) as (s2 & -> & HP2); [done..|]. simpl.
      apply (IH (l1 ++ [x])); [by rewrite <- app_assoc|done]. }
  by apply (Hgen l []).
Qed.

(** A loop whose state is a function of the visited part: it succeeds exactly
    when every element passes its check against the part before it. *)
Definition checked {A} (ok : list A -> A -> Prop) (l : list A) : Prop :=
  forall l1 x l2, l = l1 ++ x :: l2 -> ok l1 x.

Lemma checked_snoc {A} (ok : list A -> A -> Prop) l x :
  checked ok (l ++ [x]) <-> checked ok l /\ ok l x.
Proof.
  split.
  - intros Hc. split; [|by apply (Hc l x [])]. intros l1 y l2 ->.
    apply (Hc l1 y (l2 ++ [x])). by rewrite <- app_assoc.
  - intros [Hc Hx] l1 y l2 Heq. destruct l2 as [|z l2 _] using rev_ind.
    + by apply app_inj_tail in Heq as [-> ->].
    + rewrite app_comm_cons, app_assoc in Heq. apply app_inj_tail in Heq as [-> _]. by eapply Hc.
Qed.

Lemma checked_prefix {A} (ok : list A -> A -> Prop) l1 l2 : checked ok (l1 ++ l2) -> checked ok l1.
Proof. intros Hc l x l' ->. apply (Hc l x (l' ++ l2)). by rewrite <- app_assoc. Qed.

Lemma try_fold_checked {E S A} (f : S -> A -> result E S) (state : list A -> S)
    (ok : list A -> A -> Prop) l s :
  (forall l1 x s', checked ok l1 ->
    (f (state l1) x = Ok s' <-> ok l1 x /\ s' = state (l1 ++ [x]))) ->
  (try_fold f l (state []) = Ok s <-> checked ok l /\ s = state l).
Proof.
  intros Hstep. revert s. induction l as [|x l IH] using rev_ind; intros s; simpl.
  - split; [intros [= <-]; split; [by intros [|??] ??|done]|naive_solver].
  - rewrite try_fold_app, bind_Ok, checked_snoc. split.
    + intros (s1 & Hl & Hx). apply IH in Hl as [Hl ->]. simpl in Hx. apply bind_Ok in Hx as (s2 & Hx & Hs).
      injection Hs as <-. by apply Hstep in Hx as [Hx ->].
    + intros [[Hl Hx] ->]. exists (state l). split; [by apply IH|]. simpl. apply bind_Ok.
      exists (state (l ++ [x])). split; [by apply Hstep|done].
Qed.

(** What common checks amount to. *)
Lemma checked_and {A} (ok1 ok2 : list A -> A -> Prop) l :
  checked (fun l1 x => ok1 l1 x /\ ok2 l1 x) l <-> (checked ok1 l /\ checked ok2 l).
Proof. unfold checked. naive_solver. Qed.

Lemma checked_all {A} (P : A -> Prop) l : checked (fun _ x => P x) l <-> (forall x, x ∈ l -> P x).
Proof.
  split; [|intros H l1 x l2 ->; apply H; set_solver].
  intros H x (l1 & l2 & ->)%list_elem_of_split. by eapply H.
Qed.

Lemma checked_index {A} (P : nat -> A -> Prop) l :
  checked (fun l1 x => P (length l1) x) l <-> (forall i x, l !! i = Some x -> P i x).
Proof.
  split.
  - intros H i x Hi. pose proof (take_drop_middle l i x Hi) as Hl.
    rewrite <- (length_take_le l i); [by eapply H|]. apply lookup_lt_Some in Hi. lia.
  - intros H l1 x l2 ->. apply H. by apply list_lookup_middle.
Qed.

Lemma checked_fresh {A K} (key : A -> K) l :
  checked (fun l1 x => key x ∉ (key <$> l1)) l <-> NoDup (key <$> l).
Proof.
  induction l as [|x l IH] using rev_ind.
  - split; [intros _; constructor|intros _ [|??] ?? [=]].
  - rewrite checked_snoc, IH, fmap_app, NoDup_app. simpl.
    setoid_rewrite list_elem_of_singleton. split.
    + intros [Hl Hx]. split_and!; [done| |apply NoDup_singleton]. by intros y Hy ->.
    + intros (Hl & Hx & _). split; [done|]. intros Hin. by apply (Hx (key x)).
Qed.

Lemma omap_snoc {A B} (f : A -> option B) l x :
  omap f (l ++ [x]) = omap f l ++ (match f x with Some y => [y] | None => [] end).
Proof. rewrite omap_app. simpl. by destruct (f x). Qed.

Lemma checked_omap {A B} (f : A -> option B) (ok : list B -> B -> Prop) l :
  checked (fun l1 x => forall y, f x = Some y -> ok (omap f l1) y) l <-> checked ok (omap f l).
Proof.
  induction l as [|x l IH] using rev_ind.
  - split; intros _ [|??] ?? [=].
  - rewrite checked_snoc, IH, omap_snoc. destruct (f x) as [y|].
    + rewrite checked_snoc. naive_solver.
    + rewrite app_nil_r. naive_solver.
Qed.

Lemma checked_fresh_omap {A K} (key : A -> option K) l :
  checked (fun l1 x => forall k, key x = Some k -> k ∉ omap key l1) l <-> NoDup (omap key l).
Proof.
  rewrite (checked_omap key (fun l k => k ∉ l)), <- (list_fmap_id (omap key l)), <- checked_fresh.
  unfold checked. setoid_rewrite list_fmap_id. done.
Qed.

Lemma omap_bind {A B C} (f : A -> option B) (g : B -> option C) (l : list A) :
  omap (fun x => f x ≫= g) l = omap g (omap f l).
Proof. unfold omap in *. induction l as [|x l IH]; [done|]. simpl. destruct (f x) as [y|]; simpl; by rewrite IH. Qed.

Lemma NoDup_omap_inj {A K} (key : A -> option K) (l : list A) x y k :
  NoDup (omap key l) -> x ∈ l -> y ∈ l -> key x = Some k -> key y = Some k -> x = y.
Proof.
  intros Hnd Hx Hy Hkx Hky. induction l as [|z l IH]; [by apply not_elem_of_nil in Hx|].
  simpl in Hnd. apply elem_of_cons in Hx, Hy.
  assert (forall w, w ∈ l -> key w = Some k -> k ∈ omap key l) as Hin
    by (intros; apply list_elem_of_omap; eauto).
  destruct Hx as [<-|Hx], Hy as [<-|Hy]; [done|..].
  - rewrite Hkx in Hnd. apply NoDup_cons in Hnd as [Hnot _]. by destruct Hnot; eapply Hin.
  - rewrite Hky in Hnd. apply NoDup_cons in Hnd as [Hnot _]. by destruct Hnot; eapply Hin.
  - apply IH; [|done..]. destruct (key z); [by apply NoDup_cons in Hnd as [_ ?]|done].
Qed.

Lemma NoDup_fmap_elem {A K} (key : A -> K) (l : list A) x y :
  NoDup (key <$> l) -> x ∈ l -> y ∈ l -> key x = key y -> x = y.
Proof.
  intros Hnd Hx Hy Hkey. induction l as [|z l IH]; [by apply not_elem_of_nil in Hx|].
  rewrite fmap_cons, NoDup_cons in Hnd. destruct Hnd as [Hz Hnd]. rewrite list_elem_of_fmap in Hz.
  apply elem_of_cons in Hx as [->|Hx], Hy as [->|Hy]; naive_solver.
Qed.

(** [Iterator::find]. *)
Lemma find_None {A} (f : A -> bool) l : find f l = None <-> forall x, x ∈ l -> f x = false.
Proof.
  induction l as [|y l IH]; simpl; [set_solver|]. setoid_rewrite elem_of_cons.
  destruct (f y) eqn:Hy; naive_solver congruence.
Qed.

Lemma find_Some_elem {A} (f : A -> bool) l x : find f l = Some x -> x ∈ l /\ f x = true.
Proof. intros H%find_some. by rewrite list_elem_of_In. Qed.

(** ** Searching *)

(** [Iterator::position] *)
Fixpoint position {A} (f : A -> bool) (l : list A) : option nat :=
  match l with [] => None | x :: l => if f x then Some 0 else S <$> position f l end.

Lemma existsb_false {A} (f : A -> bool) l : existsb f l = false <-> (forall x, x ∈ l -> f x = false).
Proof.
  induction l as [|x l IH]; simpl; [set_solver|]. rewrite orb_false_iff, IH.
  setoid_rewrite elem_of_cons. naive_solver.
Qed.

Lemma position_Some {A} (f : A -> bool) l i :
  position f l = Some i <->
  (exists x, l !! i = Some x /\ f x = true) /\ (forall j x, j < i -> l !! j = Some x -> f x = false).
Proof.
  revert i. induction l as [|x l IH]; intros i; simpl; [naive_solver|].
  destruct (f x) eqn:Hx.
  - split; [intros [= <-]; split; [by exists x|lia]|]. intros [(y & Hy & Hfy) Hlt].
    destruct i; [done|]. specialize (Hlt 0 x). simpl in Hlt. rewrite Hlt in Hx; [done|lia|done].
  - rewrite fmap_Some. destruct i as [|i].
    + split; [naive_solver|]. intros [(y & [= ->] & Hfy) _]. congruence.
    + split.
      * intros (k & Hk & [= <-]). apply IH in Hk as [Hk Hlt]. split; [done|].
        intros [|j] y Hj; simpl; [by intros [= <-]|]. apply Hlt. lia.
      * intros [Hk Hlt]. exists i. split; [|done]. apply IH. split; [done|].
        intros j y Hj Hy. apply (Hlt (S j)); [lia|done].
Qed.

Lemma position_None {A} (f : A -> bool) l : position f l = None <-> (forall x, x ∈ l -> f x = false).
Proof.
  induction l as [|x l IH]; simpl; [set_solver|]. destruct (f x) eqn:Hx.
  - split; [done|]. intros Hf. rewrite Hf in Hx; [done|left].
  - rewrite fmap_None, IH. setoid_rewrite elem_of_cons. naive_solver.
Qed.

(** ** Code that can panic

    Indexing into a vector panics out of range. [exec E A] is the outcome of a
    fallible function that may also panic. *)

Inductive exec (E A : Type) : Type :=
| Returned (a : A)
| Rejected (e : E)
| Panicked.
Arguments Returned {E A} a.
Arguments Rejected {E A} e.
Arguments Panicked {E A}.

#[export] Instance exec_ret {E} : MRet (exec E) := fun A a => Returned a.
#[export] Instance exec_bind {E} : MBind (exec E) := fun A B k m =>
  match m with Returned a => k a | Rejected e => Rejected e | Panicked => Panicked end.

(** The last element of a vector, [v[v.len() - 1]]. *)
Definition last_or_panic {E A} (l : list A) : exec E A :=
  match last l with Some a => Returned a | None => Panicked end.

(** Indexing a map, [m[&key]]. *)
Definition or_panic {E A} (o : option A) : exec E A :=
  match o with Some a => Returned a | None => Panicked end.

(** The slice [v[first..last]]. *)
Definition slice_or_panic {E A} (l : list A) (first last : nat) : exec E (list A) :=
  if (first <=? last)%nat && (last <=? length l)%nat
  then Returned (take (last - first) (drop first l)) else Panicked.

Definition exec_ok_or {E A} (o : option A) (e : E) : exec E A :=
  match o with Some a => Returned a | None => Rejected e end.

Section exec_lemmas.
Context {E A B : Type}.
Implicit Types (m : exec E A).

Lemma exec_returned_bind a (k : A -> exec E B) : (Returned a ≫= k) = k a.
Proof. done. Qed.
Lemma exec_rejected_bind e (k : A -> exec E B) : (Rejected e ≫= k) = Rejected e.
Proof. done. Qed.
Lemma exec_ok_or_Some_eq (a : A) (e : E) : exec_ok_or (Some a) e = Returned a.
Proof. done. Qed.
Lemma exec_ok_or_None_eq (e : E) : exec_ok_or (@None A) e = Rejected e.
Proof. done. Qed.

Lemma exec_bind_Returned m (k : A -> exec E B) b :
  (m ≫= k) = Returned b <-> exists a, m = Returned a /\ k a = Returned b.
Proof. destruct m; simpl; naive_solver. Qed.

Lemma last_or_panic_Returned (l : list A) a :
  @last_or_panic E A l = Returned a <-> last l = Some a.
Proof. unfold last_or_panic. destruct (last l); naive_solver. Qed.

Lemma exec_ok_or_Returned (o : option A) (e : E) a : exec_ok_or o e = Returned a <-> o = Some a.
Proof. destruct o; simpl; naive_solver. Qed.
End exec_lemmas.

(** Rewriting that runs a function to its next undecided branch. *)
Create Rewrite HintDb exec.
#[export] Hint Rewrite @exec_returned_bind @exec_rejected_bind @exec_ok_or_Some_eq
  @exec_ok_or_None_eq : exec.

(** ** Lists *)

Lemma NoDup_fmap_omap {A B C} (f : A -> option B) (g : B -> C) (l : list A) :
  NoDup l ->
  (forall x y a b, x ∈ l -> y ∈ l -> f x = Some a -> f y = Some b -> g a = g b -> x = y) ->
  NoDup (g <$> omap f l).
Proof.
  induction 1 as [|x l Hx Hl IH]; intros Hinj; [constructor|]. simpl.
  assert (NoDup (g <$> omap f l)) as Hnd by (apply IH; intros; eapply Hinj; eauto; by right).
  destruct (f x) as [a|] eqn:Ha; [|done]. rewrite fmap_cons, NoDup_cons. split; [|done].
  intros (b & Hb & (y & Hy & Hfy)%list_elem_of_omap)%list_elem_of_fmap_1.
  assert (x = y) as -> by (eapply Hinj; eauto; [left|by right]). done.
Qed.

(** Membership in a vector after a push. *)
Lemma elem_of_snoc {A} (l : list A) x y : y ∈ l ++ [x] <-> y ∈ l \/ y = x.
Proof. by rewrite elem_of_app, list_elem_of_singleton. Qed.

(** Vectors built by pushing: elements numbered from one, and relations
    between neighbours. *)
Definition numbered {A} (f : A -> positive) (l : list A) : Prop :=
  forall i x, l !! i = Some x -> f x = Pos.of_succ_nat i.

Definition linked {A} (R : relation A) (l : list A) : Prop :=
  forall i x y, l !! i = Some x -> l !! S i = Some y -> R x y.

Section pushing.
Context {A : Type}.
Implicit Types (l : list A).

Lemma lookup_snoc_Some l x i y :
  (l ++ [x]) !! i = Some y <-> l !! i = Some y \/ i = length l /\ y = x.
Proof.
  rewrite lookup_app_Some. split; [|intros [?|[-> ->]]; [by left|]].
  - intros [?|[Hge Hy]]; [by left|right]. apply list_lookup_singleton_Some in Hy as [? ->].
    split; [lia|done].
  - right. by rewrite Nat.sub_diag.
Qed.

Lemma numbered_snoc (f : A -> positive) l x :
  numbered f (l ++ [x]) <-> numbered f l /\ f x = Pos.of_succ_nat (length l).
Proof.
  unfold numbered. setoid_rewrite lookup_snoc_Some. split; [|naive_solver].
  intros H. split; [naive_solver|]. apply H. by right.
Qed.

Lemma linked_snoc (R : relation A) l x y :
  linked R ((l ++ [x]) ++ [y]) <-> linked R (l ++ [x]) /\ R x y.
Proof.
  unfold linked. split.
  - intros H. split.
    + intros i a b Ha Hb. apply (H i); rewrite lookup_snoc_Some; by left.
    + apply (H (length l)).
      * rewrite lookup_snoc_Some. left. rewrite lookup_snoc_Some. by right.
      * rewrite lookup_snoc_Some, length_app. simpl. right. split; [lia|done].
  - intros [H Hxy] i a b. rewrite !(lookup_snoc_Some (l ++ [x])). intros [Ha|[-> ->]] [Hb|[Hi ->]].
    + by apply (H i).
    + rewrite length_app in Hi. simpl in Hi. assert (i = length l) as -> by lia.
      apply lookup_snoc_Some in Ha as [Ha|[_ ->]]; [|done]. apply lookup_lt_Some in Ha. lia.
    + apply lookup_lt_Some in Hb. lia.
    + lia.
Qed.

Lemma linked_replace_last (R : relation A) l x y :
  linked R (l ++ [x]) -> (forall z, R z x -> R z y) -> linked R (l ++ [y]).
Proof.
  intros H Hxy i a b. rewrite !lookup_snoc_Some. intros [Ha|[-> ->]] [Hb|[Hi ->]].
  - apply (H i); rewrite lookup_snoc_Some; by left.
  - apply Hxy. apply (H i); rewrite lookup_snoc_Some; by auto.
  - apply lookup_lt_Some in Hb. lia.
  - lia.
Qed.
End pushing.

(** ** Machine integers

    [u64] values are [N]; [NonZeroU64] values are [positive]. The only
    arithmetic the domain performs on them is [checked_add(1)], which fails at
    [u64::MAX]. *)

Definition u64_max : N := 18446744073709551615.

(** [u64::checked_add] *)
Definition u64_checked_add (a b : N) : option N :=
  if (a + b <=? u64_max)%N then Some (a + b)%N else None.

(** [NonZeroU64::checked_add] *)
Definition nonzero_u64_checked_add (a : positive) (b : N) : option positive :=
  match u64_checked_add (Npos a) b with
  | Some (Npos c) => Some c
  | _ => None
  end.

Section checked_add.
Context (a : positive).

Lemma u64_checked_add_Some x y z :
  u64_checked_add x y = Some z <-> z = (x + y)%N /\ (z <= u64_max)%N.
Proof.
  unfold u64_checked_add. generalize u64_max; intros M.
  destruct (N.leb_spec (x + y) M); split; naive_solver lia.
Qed.

Lemma u64_checked_add_None x y :
  u64_checked_add x y = None <-> (u64_max < x + y)%N.
Proof.
  unfold u64_checked_add. generalize u64_max; intros M.
  destruct (N.leb_spec (x + y) M); split; naive_solver lia.
Qed.

Lemma nonzero_u64_checked_add_1 :
  nonzero_u64_checked_add a 1 =
    if (Npos (Pos.succ a) <=? u64_max)%N then Some (Pos.succ a) else None.
Proof.
  unfold nonzero_u64_checked_add, u64_checked_add. generalize u64_max; intros M.
  replace (N.pos a + 1)%N with (N.pos (Pos.succ a)) by lia.
  by destruct (_ <=? _)%N.
Qed.

Lemma nonzero_u64_checked_add_1_Some c :
  nonzero_u64_checked_add a 1 = Some c <-> c = Pos.succ a /\ (Npos c <= u64_max)%N.
Proof.
  rewrite nonzero_u64_checked_add_1. generalize u64_max; intros M.
  destruct (N.leb_spec (N.pos (Pos.succ a)) M); split; naive_solver lia.
Qed.

Lemma nonzero_u64_checked_add_1_None :
  nonzero_u64_checked_add a 1 = None <-> (u64_max <= Npos a)%N.
Proof.
  rewrite nonzero_u64_checked_add_1. generalize u64_max; intros M.
  destruct (N.leb_spec (N.pos (Pos.succ a)) M); split; naive_solver lia.
Qed.
End checked_add.

(** ** Text

    A Rust string is the sequence of its UTF-8 bytes: [str::contains] for the
    null character and [str::len]. *)

Fixpoint contains_null (value : string) : bool :=
  match value with
  | EmptyString => false
  | String c value => bool_decide (c = Ascii.zero) || contains_null value
  end.

Definition utf8_len (value : string) : N := N.of_nat (String.length value).

(** [sha2::Sha256::digest], third-party code: the 32 bytes of the digest of a
    byte sequence are one 256-bit value. *)
Class Sha256 := sha256_digest : string -> N.

(** ** Identities

    [define_identity!] declares one distinct newtype over a UUID per kind of
    entity. A UUID is its 128-bit value as an [N]: the derived [Ord] compares
    the sixteen big-endian bytes, which is the numeric order. *)

Inductive identity_kind : Set :=
| DurableCommandIdentity | SessionIdentity | AcceptedInputIdentity | TurnIdentity
| TurnAttemptIdentity | ModelCallIdentity | ProviderTargetEvidenceIdentity
| ToolRequestIdentity | ToolAttemptIdentity | ProgramRunIdentity
| RepoWatchDispatchIdentity | CommissionedDispatchIdentity
| DirectModelSelectionIdentity | ModelAliasIdentity | ProviderModelIdentityIdentity
| ContextFrontierIdentity | SemanticTranscriptEntryIdentity | RunnerIdentity
| ImportedTranscriptEntryIdentity | DelegationMessageIdentity
| ImportedConversationIdentity | ContextCompactionIdentity
| RunnerLeaseIdentity | RunnerEnrollmentIdentity | RunnerAuthenticationIdentity
| WorkspaceManifestIdentity | RunnerProvisioningAuthorizationIdentity
| RunnerEnrollmentRequestIdentity | ReviewTargetIdentity | ReviewRunIdentity
| ReviewPassIdentity | ReviewFindingIdentity | ReviewExternalLinkIdentity.

Record identity (k : identity_kind) := from_uuid { as_uuid : N }.
Arguments from_uuid {k} _.
Arguments as_uuid {k} _.

Abbreviation DurableCommandId := (identity DurableCommandIdentity).
Abbreviation SessionId := (identity SessionIdentity).
Abbreviation AcceptedInputId := (identity AcceptedInputIdentity).
Abbreviation TurnId := (identity TurnIdentity).
Abbreviation TurnAttemptId := (identity TurnAttemptIdentity).
Abbreviation ModelCallId := (identity ModelCallIdentity).
Abbreviation ProviderTargetEvidenceId := (identity ProviderTargetEvidenceIdentity).
Abbreviation ToolRequestId := (identity ToolRequestIdentity).
Abbreviation ToolAttemptId := (identity ToolAttemptIdentity).
Abbreviation ProgramRunId := (identity ProgramRunIdentity).
Abbreviation RepoWatchDispatchId := (identity RepoWatchDispatchIdentity).
Abbreviation DirectModelSelection := (identity DirectModelSelectionIdentity).
Abbreviation ModelAlias := (identity ModelAliasIdentity).
Abbreviation ProviderModelIdentity := (identity ProviderModelIdentityIdentity).
Abbreviation CommissionedDispatchId := (identity CommissionedDispatchIdentity).
Abbreviation ContextFrontierId := (identity ContextFrontierIdentity).
Abbreviation SemanticTranscriptEntryId := (identity SemanticTranscriptEntryIdentity).
Abbreviation RunnerId := (identity RunnerIdentity).
Abbreviation ImportedTranscriptEntryId := (identity ImportedTranscriptEntryIdentity).
Abbreviation ImportedConversationId := (identity ImportedConversationIdentity).
Abbreviation ContextCompactionId := (identity ContextCompactionIdentity).
Abbreviation DelegationMessageId := (identity DelegationMessageIdentity).
Abbreviation RunnerLeaseId := (identity RunnerLeaseIdentity).
Abbreviation RunnerEnrollmentId := (identity RunnerEnrollmentIdentity).
Abbreviation RunnerAuthenticationId := (identity RunnerAuthenticationIdentity).
Abbreviation WorkspaceManifestId := (identity WorkspaceManifestIdentity).
Abbreviation RunnerProvisioningAuthorizationId := (identity RunnerProvisioningAuthorizationIdentity).
Abbreviation RunnerEnrollmentRequestId := (identity RunnerEnrollmentRequestIdentity).
Abbreviation ReviewTargetId := (identity ReviewTargetIdentity).
Abbreviation ReviewRunId := (identity ReviewRunIdentity).
Abbreviation ReviewPassId := (identity ReviewPassIdentity).
Abbreviation ReviewFindingId := (identity ReviewFindingIdentity).
Abbreviation ReviewExternalLinkId := (identity ReviewExternalLinkIdentity).

#[export] Instance identity_eq_dec k : EqDecision (identity k).
Proof. solve_decision. Defined.

#[export] Instance identity_countable k : Countable (identity k).
Proof. by apply (inj_countable' as_uuid from_uuid); intros []. Defined.

(** ** Ordered keys and the iteration order of [BTreeMap] and [BTreeSet]

    Every key the domain orders by is an integer newtype, so its derived [Ord]
    is given by an injection into [N]. *)

Class OrdKey (K : Type) := ord_key : K -> N.
Class OrdKeyInj (K : Type) `{OrdKey K} := ord_key_inj :: Inj (=) (=) (@ord_key K _).

#[export] Instance identity_ord_key k : OrdKey (identity k) := as_uuid.
#[export] Instance identity_ord_key_inj k : OrdKeyInj (identity k).
Proof. intros [x] [y]. cbv. congruence. Qed.
#[export] Instance positive_ord_key : OrdKey positive := Npos.
#[export] Instance positive_ord_key_inj : OrdKeyInj positive.
Proof. intros x y. cbv. congruence. Qed.

Definition key_le `{OrdKey K} : relation K := fun x y => (ord_key x <= ord_key y)%N.
Definition key_lt `{OrdKey K} : relation K := fun x y => (ord_key x < ord_key y)%N.

(** Comparison of values through the key they are sorted by. *)
Definition by_key {A K} `{OrdKey K} (f : A -> K) : relation A := fun a b => key_le (f a) (f b).

#[export] Instance by_key_dec {A K} `{OrdKey K} (f : A -> K) : RelDecision (by_key f).
Proof. intros a b. unfold by_key, key_le. apply _. Defined.
#[export] Instance by_key_total {A K} `{OrdKey K} (f : A -> K) : Total (by_key f).
Proof. intros a b. unfold by_key, key_le. lia. Qed.
#[export] Instance by_key_trans {A K} `{OrdKey K} (f : A -> K) : Transitive (by_key f).
Proof. intros a b c. unfold by_key, key_le. lia. Qed.

(** [slice::sort_unstable_by_key] *)
Definition sort_by_key {A K} `{OrdKey K} (f : A -> K) : list A -> list A := merge_sort (by_key f).

(** Iteration over a [BTreeMap], in ascending key order. *)
Definition btree_iter {K V} `{Countable K, OrdKey K} (m : gmap K V) : list (K * V) :=
  sort_by_key fst (map_to_list m).

(** [collect] into a [BTreeMap]: a later entry replaces an earlier one. *)
Definition btree_collect {K V} `{Countable K} (l : list (K * V)) : gmap K V :=
  list_to_map (reverse l).

(** Iteration over a [BTreeSet], in ascending order. *)
Definition btree_set_iter {K} `{Countable K, OrdKey K} (s : gset K) : list K :=
  sort_by_key id (elements s).

Lemma sort_by_key_perm {A K} `{OrdKey K} (f : A -> K) (l : list A) : sort_by_key f l ≡ₚ l.
Proof. apply merge_sort_Permutation. Qed.

Lemma elem_of_sort_by_key {A K} `{OrdKey K} (f : A -> K) (l : list A) x :
  x ∈ sort_by_key f l <-> x ∈ l.
Proof. by rewrite sort_by_key_perm. Qed.

(** Lists strictly ascending by an injective key are determined by their
    elements. *)
Definition ascending {A K} `{OrdKey K} (f : A -> K) (l : list A) : Prop :=
  StronglySorted (fun a b => key_lt (f a) (f b)) l.

Lemma ascending_NoDup {A K} `{OrdKey K} (f : A -> K) l : ascending f l -> NoDup (f <$> l).
Proof.
  unfold ascending. induction 1 as [|a l Hs IH Hall]; [constructor|].
  rewrite fmap_cons, NoDup_cons. split; [|done].
  intros (x & Hx & Hin)%list_elem_of_fmap_1. rewrite Forall_forall in Hall.
  specialize (Hall x Hin). unfold key_lt in Hall. rewrite Hx in Hall. lia.
Qed.

Lemma ascending_lookup {A K} `{OrdKey K} (f : A -> K) l i j a b :
  ascending f l -> l !! i = Some a -> l !! j = Some b -> i < j -> key_lt (f a) (f b).
Proof.
  unfold ascending. intros Hl. revert i j. induction Hl as [|x l Hs IH Hall]; [done|].
  intros [|i] [|j] Hi Hj Hlt; simpl in *; [lia| |lia|by eapply IH; eauto with lia].
  simplify_eq. rewrite Forall_forall in Hall. apply Hall. by eapply list_elem_of_lookup_2.
Qed.

Lemma ascending_unique {A K} `{OrdKey K} (f : A -> K) l1 l2 :
  ascending f l1 -> ascending f l2 -> l1 ≡ₚ l2 -> l1 = l2.
Proof.
  intros H1 H2 Hp.
  assert (AntiSymm (=) (fun a b : A => key_lt (f a) (f b))) by (intros a b; unfold key_lt; lia).
  by eapply StronglySorted_unique.
Qed.

Lemma sort_by_key_ascending {A K} `{OrdKeyInj K} (f : A -> K) l :
  NoDup (f <$> l) -> ascending f (sort_by_key f l).
Proof.
  intros Hnd.
  assert (NoDup (f <$> sort_by_key f l)) as Hnd' by by rewrite sort_by_key_perm.
  pose proof (StronglySorted_merge_sort (by_key f) l) as Hs.
  fold (sort_by_key f l) in Hs. revert Hnd' Hs. unfold ascending.
  generalize (sort_by_key f l). intros l' Hnd' Hs.
  induction Hs as [|a l' Hs IH Hall]; [constructor|].
  rewrite fmap_cons, NoDup_cons in Hnd'. destruct Hnd' as [Hni Hnd'].
  constructor; [by apply IH|]. rewrite Forall_forall in Hall |- *. intros x Hx.
  specialize (Hall x Hx). unfold by_key, key_le, key_lt in *.
  destruct (decide (ord_key (f a) = ord_key (f x))) as [He|]; [|lia].
  apply (inj _) in He. destruct Hni. rewrite He. by apply list_elem_of_fmap_2.
Qed.

Lemma sort_by_key_id {A K} `{OrdKeyInj K} (f : A -> K) l :
  ascending f l -> sort_by_key f l = l.
Proof.
  intros Hl. eapply (ascending_unique f); [|done|apply sort_by_key_perm].
  by apply sort_by_key_ascending, ascending_NoDup.
Qed.

Lemma sort_by_key_proper {A K} `{OrdKeyInj K} (f : A -> K) l1 l2 :
  NoDup (f <$> l1) -> l1 ≡ₚ l2 -> sort_by_key f l1 = sort_by_key f l2.
Proof.
  intros Hnd Hp. apply (ascending_unique f).
  - by apply sort_by_key_ascending.
  - apply sort_by_key_ascending. by rewrite <- Hp.
  - by rewrite !sort_by_key_perm.
Qed.

(** Sorting by a key and projecting the key gives the sorted keys, whatever
    the order of values with equal keys. *)
Lemma sort_by_key_fmap_sorted {A K} `{OrdKey K} (f : A -> K) l :
  StronglySorted key_le (f <$> sort_by_key f l).
Proof.
  apply StronglySorted_fmap with (R1 := by_key f); [by intros|].
  apply StronglySorted_merge_sort; apply _.
Qed.

Lemma sort_by_key_fmap_proper {A K} `{OrdKeyInj K} (f : A -> K) l1 l2 :
  l1 ≡ₚ l2 -> f <$> sort_by_key f l1 = f <$> sort_by_key f l2.
Proof.
  intros Hp. assert (AntiSymm (=) (key_le (K := K))).
  { intros x y Hx Hy. apply (inj ord_key). unfold key_le in *. lia. }
  eapply (StronglySorted_unique key_le); [apply sort_by_key_fmap_sorted..|].
  by rewrite !sort_by_key_perm, Hp.
Qed.

Section btree.
Context {K V : Type} `{Countable K, OrdKeyInj K}.
Implicit Types (m : gmap K V).

Lemma elem_of_btree_iter m k v : (k, v) ∈ btree_iter m <-> m !! k = Some v.
Proof. unfold btree_iter. by rewrite elem_of_sort_by_key, elem_of_map_to_list. Qed.

Lemma btree_iter_keys_NoDup m : NoDup (btree_iter m).*1.
Proof. unfold btree_iter. rewrite sort_by_key_perm. apply NoDup_fst_map_to_list. Qed.

Lemma btree_iter_ascending m : ascending fst (btree_iter m).
Proof. apply sort_by_key_ascending, NoDup_fst_map_to_list. Qed.

Lemma length_btree_iter m : length (btree_iter m) = size m.
Proof. unfold btree_iter. by rewrite sort_by_key_perm, length_map_to_list. Qed.

(** Inserting the entries of a key-ascending vector one by one gives a map
    whose iteration is that vector. *)
Lemma btree_iter_list_to_map (l : list (K * V)) :
  ascending fst l -> btree_iter (list_to_map l) = l.
Proof.
  intros Hl. pose proof (ascending_NoDup _ _ Hl) as Hnd.
  etrans; [|by apply (sort_by_key_id fst)]. unfold btree_iter. apply sort_by_key_proper.
  - apply NoDup_fst_map_to_list.
  - by apply map_to_list_to_map.
Qed.
End btree.
