(* ===== verification/QueueOrder.v ===== *)
(** * Durable accepted-input queue order

    Model of [crates/domain/src/queue_order.rs]: the immutable queue-order
    facts of accepted-input work and the pure derivation of the session's
    total order from the complete fact set. *)

From Equations Require Import Equations.
From S2P Require Import Prelude.

(** ** Data *)

(** [SessionInputPosition(u64)]; zero is refused by [try_from_u64], so the
    ordinal is a [positive]. *)
Record SessionInputPosition := mkPosition { position_ordinal : positive }.

#[export] Instance SessionInputPosition_eq_dec : EqDecision SessionInputPosition.
Proof. solve_decision. Defined.
#[export] Instance SessionInputPosition_countable : Countable SessionInputPosition.
Proof. by apply (inj_countable' position_ordinal mkPosition); intros []. Defined.
#[export] Instance SessionInputPosition_ord_key : OrdKey SessionInputPosition :=
  fun p => Npos (position_ordinal p).
#[export] Instance SessionInputPosition_ord_key_inj : OrdKeyInj SessionInputPosition.
Proof. intros [x] [y]. cbv. congruence. Qed.

Definition try_from_u64 (value : N) : option SessionInputPosition :=
  match value with N0 => None | Npos p => Some (mkPosition p) end.

Definition as_u64 (p : SessionInputPosition) : N := Npos (position_ordinal p).

Definition position_first : SessionInputPosition := mkPosition 1.

Definition checked_next (p : SessionInputPosition) : option SessionInputPosition :=
  u64_checked_add (as_u64 p) 1 ≫= try_from_u64.

Inductive AcceptedInputQueuePriority :=
| Ordinary
| InterruptImmediatelyAfter (predecessor : TurnId).

#[export] Instance AcceptedInputQueuePriority_eq_dec : EqDecision AcceptedInputQueuePriority.
Proof. solve_decision. Defined.

Record AcceptedInputQueueOrder := mkOrder {
  acceptance_position : SessionInputPosition;
  priority : AcceptedInputQueuePriority;
}.

#[export] Instance AcceptedInputQueueOrder_eq_dec : EqDecision AcceptedInputQueueOrder.
Proof. solve_decision. Defined.

Definition ordinary (acceptance_position : SessionInputPosition) : AcceptedInputQueueOrder :=
  mkOrder acceptance_position Ordinary.

Definition interrupt_immediately_after (acceptance_position : SessionInputPosition)
    (predecessor : TurnId) : AcceptedInputQueueOrder :=
  mkOrder acceptance_position (InterruptImmediatelyAfter predecessor).

Record AcceptedInputQueueWork := mkWork {
  work_session : SessionId;
  work_turn : TurnId;
  work_order : AcceptedInputQueueOrder;
}.

#[export] Instance AcceptedInputQueueWork_eq_dec : EqDecision AcceptedInputQueueWork.
Proof. solve_decision. Defined.

Inductive AcceptedInputQueueOrderError :=
| MixedSessions (first_session second_session : SessionId)
| DuplicateTurn (turn : TurnId)
| DuplicateAcceptancePosition (position : SessionInputPosition) (first_turn second_turn : TurnId)
| MissingInterruptPredecessor (turn predecessor : TurnId)
| SelfInterruptPredecessor (turn : TurnId)
| MultipleInterruptSuccessors (predecessor first_successor second_successor : TurnId)
| InterruptCycle (turn : TurnId)
| InterruptPositionNotAfterPredecessor (turn predecessor : TurnId)
    (position predecessor_position : SessionInputPosition)
| InterruptPredecessorChronologyReversed
    (earlier_interrupt earlier_predecessor later_interrupt later_predecessor : TurnId).

Abbreviation order_result := (result AcceptedInputQueueOrderError).

(** ** Derivation of the total order *)

Definition canonical_pair (first second : TurnId) : TurnId * TurnId :=
  if bool_decide (key_le first second) then (first, second) else (second, first).

(** The first two distinct sessions of the fact set, in canonical order. *)
Definition mixed_sessions (works : list AcceptedInputQueueWork) : option (SessionId * SessionId) :=
  match btree_set_iter (list_to_set (work_session <$> works) : gset SessionId) with
  | first_session :: second_session :: _ => Some (first_session, second_session)
  | _ => None
  end.

(** [windows(2).find(|pair| pair[0].turn() == pair[1].turn())] *)
Fixpoint adjacent_duplicate (turns : list TurnId) : option TurnId :=
  match turns with
  | t1 :: ((t2 :: _) as rest) => if bool_decide (t1 = t2) then Some t1 else adjacent_duplicate rest
  | _ => None
  end.

(** The loop that fills [work_by_turn] and [turn_by_position]. *)
Definition index_one
    (maps : gmap TurnId AcceptedInputQueueOrder * gmap SessionInputPosition TurnId)
    (work : AcceptedInputQueueWork) :
    order_result (gmap TurnId AcceptedInputQueueOrder * gmap SessionInputPosition TurnId) :=
  let '(work_by_turn, turn_by_position) := maps in
  let turn := work_turn work in
  let order := work_order work in
  match turn_by_position !! acceptance_position order with
  | Some existing =>
      let '(first_turn, second_turn) := canonical_pair existing turn in
      Err (DuplicateAcceptancePosition (acceptance_position order) first_turn second_turn)
  | None =>
      Ok (<[turn := order]> work_by_turn, <[acceptance_position order := turn]> turn_by_position)
  end.

Definition index_work (works : list AcceptedInputQueueWork) :
    order_result (gmap TurnId AcceptedInputQueueOrder * gmap SessionInputPosition TurnId) :=
  try_fold index_one works (∅, ∅).

(** The loop that fills [successor_by_predecessor]. *)
Definition index_successor (work_by_turn : gmap TurnId AcceptedInputQueueOrder)
    (successors : gmap TurnId TurnId) (entry : TurnId * AcceptedInputQueueOrder) :
    order_result (gmap TurnId TurnId) :=
  let '(turn, order) := entry in
  match priority order with
  | Ordinary => Ok successors
  | InterruptImmediatelyAfter predecessor =>
      if bool_decide (predecessor = turn) then Err (SelfInterruptPredecessor turn)
      else if negb (bool_decide (is_Some (work_by_turn !! predecessor)))
      then Err (MissingInterruptPredecessor turn predecessor)
      else match successors !! predecessor with
           | Some existing =>
               let '(first_successor, second_successor) := canonical_pair existing turn in
               Err (MultipleInterruptSuccessors predecessor first_successor second_successor)
           | None => Ok (<[predecessor := turn]> successors)
           end
  end.

Definition index_successors (work_by_turn : gmap TurnId AcceptedInputQueueOrder) :
    order_result (gmap TurnId TurnId) :=
  try_fold (index_successor work_by_turn) (btree_iter work_by_turn) ∅.

Definition root_entry (entry : TurnId * AcceptedInputQueueOrder) :
    option (SessionInputPosition * TurnId) :=
  if bool_decide (priority entry.2 = Ordinary)
  then Some (acceptance_position entry.2, entry.1) else None.

Definition ordinary_roots (work_by_turn : gmap TurnId AcceptedInputQueueOrder) :
    list (SessionInputPosition * TurnId) :=
  sort_by_key fst (omap root_entry (btree_iter work_by_turn)).

(** A value together with the equation that names it. *)
Definition inspect {A} (x : A) : { y : A | x = y } := exist _ x eq_refl.

(** The inner [loop]: follow the interrupt successors of one root. Every
    iteration marks a turn that was not yet visited, and only turns with a
    successor continue, so the unvisited predecessors decrease. *)
Equations? walk_chain (successors : gmap TurnId TurnId) (visited : gset TurnId)
    (ordered : list TurnId) (current : TurnId) :
    order_result (gset TurnId * list TurnId) by wf (size (dom successors ∖ visited)) lt :=
walk_chain successors visited ordered current with decide (current ∈ visited) := {
  | left _ => Err (InterruptCycle current);
  | right _ with inspect (successors !! current) := {
    | exist _ (Some successor) _ =>
        walk_chain successors ({[current]} ∪ visited) (ordered ++ [current]) successor;
    | exist _ None _ => Ok ({[current]} ∪ visited, ordered ++ [current]) } }.
Proof.
  apply subset_size. assert (current ∈ dom successors) by by apply elem_of_dom_2 in e.
  set_solver.
Qed.

(** The loop over [ordinary_roots]. *)
Definition walk_roots (successors : gmap TurnId TurnId)
    (roots : list (SessionInputPosition * TurnId)) : order_result (gset TurnId * list TurnId) :=
  try_fold (fun '(visited, ordered) '(_, root) => walk_chain successors visited ordered root)
    roots (∅, []).

(** The check that every turn was reached from an ordinary root. *)
Definition check_all_visited (work_by_turn : gmap TurnId AcceptedInputQueueOrder)
    (visited : gset TurnId) (ordered : list TurnId) : order_result unit :=
  if bool_decide (length ordered = size work_by_turn) then Ok tt
  else match list_find (fun turn => turn ∉ visited) (btree_iter work_by_turn).*1 with
       | Some (_, turn) => Err (InterruptCycle turn)
       | None => Ok tt
       end.

(** The loop that checks that an interrupt was accepted after its target. *)
Definition check_position (work_by_turn : gmap TurnId AcceptedInputQueueOrder)
    (_ : unit) (entry : TurnId * AcceptedInputQueueOrder) : order_result unit :=
  let '(turn, order) := entry in
  match priority order with
  | Ordinary => Ok tt
  | InterruptImmediatelyAfter predecessor =>
      match work_by_turn !! predecessor with
      | None => Err (MissingInterruptPredecessor turn predecessor)
      | Some predecessor_order =>
          if bool_decide (key_le (acceptance_position order) (acceptance_position predecessor_order))
          then Err (InterruptPositionNotAfterPredecessor turn predecessor
                      (acceptance_position order) (acceptance_position predecessor_order))
          else Ok tt
      end
  end.

(** The loop, in acceptance order, that checks that interrupt targets advance
    monotonically through the derived order. *)
Definition check_chronology (work_by_turn : gmap TurnId AcceptedInputQueueOrder)
    (order_index_by_turn : gmap TurnId nat) (prior_interrupt : option (TurnId * TurnId * nat))
    (entry : SessionInputPosition * TurnId) : order_result (option (TurnId * TurnId * nat)) :=
  let turn := entry.2 in
  match work_by_turn !! turn with
  | None => Ok prior_interrupt
  | Some order =>
      match priority order with
      | Ordinary => Ok prior_interrupt
      | InterruptImmediatelyAfter predecessor =>
          match order_index_by_turn !! predecessor with
          | None => Ok prior_interrupt
          | Some predecessor_index =>
              match prior_interrupt with
              | Some (earlier_interrupt, earlier_predecessor, earlier_predecessor_index) =>
                  if bool_decide (predecessor_index <= earlier_predecessor_index)
                  then Err (InterruptPredecessorChronologyReversed earlier_interrupt
                              earlier_predecessor turn predecessor)
                  else Ok (Some (turn, predecessor, predecessor_index))
              | None => Ok (Some (turn, predecessor, predecessor_index))
              end
          end
      end
  end.

Definition order_index (ordered : list TurnId) : gmap TurnId nat :=
  btree_collect (imap (fun index turn => (turn, index)) ordered).

Definition derive_accepted_input_total_order (currently_known_work : list AcceptedInputQueueWork) :
    order_result (list TurnId) :=
  match mixed_sessions currently_known_work with
  | Some (first_session, second_session) => Err (MixedSessions first_session second_session)
  | None =>
      let sorted := sort_by_key work_turn currently_known_work in
      match adjacent_duplicate (work_turn <$> sorted) with
      | Some turn => Err (DuplicateTurn turn)
      | None =>
          '(work_by_turn, turn_by_position) ← index_work sorted;
          successors ← index_successors work_by_turn;
          '(visited, ordered) ← walk_roots successors (ordinary_roots work_by_turn);
          _ ← check_all_visited work_by_turn visited ordered;
          _ ← try_fold (check_position work_by_turn) (btree_iter work_by_turn) tt;
          _ ← try_fold (check_chronology work_by_turn (order_index ordered))
                (btree_iter turn_by_position) None;
          Ok ordered
      end
  end.
