(* ===== verification/QueueOrderSpec.v ===== *)
(** * Correctness of the accepted-input queue order

    The abstract specification of the total order (what facts are admissible
    and which list of turns they determine) and the proof that the derivation
    of [QueueOrder] returns exactly that list, or an error that the facts
    justify. *)

From Equations Require Import Equations.
From S2P Require Import Prelude QueueOrder.

(** ** Specification *)

Definition work_position (w : AcceptedInputQueueWork) : SessionInputPosition :=
  acceptance_position (work_order w).
Definition work_priority (w : AcceptedInputQueueWork) : AcceptedInputQueuePriority :=
  priority (work_order w).

(** [a] is placed somewhere before [b]. *)
Definition precedes {A} (l : list A) (a b : A) : Prop :=
  exists i j, l !! i = Some a /\ l !! j = Some b /\ i < j.

(** [b] is placed immediately after [a]. *)
Definition adjacent {A} (l : list A) (a b : A) : Prop :=
  exists i, l !! i = Some a /\ l !! S i = Some b.

(** Facts that valid acceptance can have produced. *)
Record admissible_facts (works : list AcceptedInputQueueWork) : Prop := {
  one_session w1 w2 : w1 ∈ works -> w2 ∈ works -> work_session w1 = work_session w2;
  distinct_turns : NoDup (work_turn <$> works);
  distinct_positions : NoDup (work_position <$> works);
  target_accepted_earlier w p :
    w ∈ works -> work_priority w = InterruptImmediatelyAfter p ->
    exists w', w' ∈ works /\ work_turn w' = p /\ key_lt (work_position w') (work_position w);
  one_interrupt_per_target w1 w2 p :
    w1 ∈ works -> w2 ∈ works ->
    work_priority w1 = InterruptImmediatelyAfter p ->
    work_priority w2 = InterruptImmediatelyAfter p -> w1 = w2;
}.

(** The order the facts determine: every turn once, each interrupt right after
    the turn it interrupted, ordinary work first-in first-out. *)
Record total_order (works : list AcceptedInputQueueWork) (l : list TurnId) : Prop := {
  every_turn_once : l ≡ₚ work_turn <$> works;
  interrupt_adjacent w p :
    w ∈ works -> work_priority w = InterruptImmediatelyAfter p -> adjacent l p (work_turn w);
  ordinary_fifo w1 w2 :
    w1 ∈ works -> w2 ∈ works -> work_priority w1 = Ordinary -> work_priority w2 = Ordinary ->
    key_lt (work_position w1) (work_position w2) -> precedes l (work_turn w1) (work_turn w2);
}.

(** Later accepted interrupts target later turns of the order. *)
Definition targets_advance (works : list AcceptedInputQueueWork) (l : list TurnId) : Prop :=
  forall w1 w2 p1 p2, w1 ∈ works -> w2 ∈ works ->
    work_priority w1 = InterruptImmediatelyAfter p1 ->
    work_priority w2 = InterruptImmediatelyAfter p2 ->
    key_lt (work_position w1) (work_position w2) -> precedes l p1 p2.

(** ** Lists *)

Section lists.
Context {A : Type}.
Implicit Types (l : list A).

Lemma adjacent_app_l l k a b : adjacent l a b -> adjacent (l ++ k) a b.
Proof. intros (i & Ha & Hb). exists i. by split; apply lookup_app_l_Some. Qed.

Lemma adjacent_app_r l k a b : adjacent k a b -> adjacent (l ++ k) a b.
Proof.
  intros (i & Ha & Hb). exists (length l + i).
  by rewrite <- Nat.add_succ_r, !lookup_app_r, !Nat.add_sub' by lia.
Qed.

Lemma adjacent_unique l a b c :
  NoDup l -> adjacent l a b -> adjacent l a c -> b = c.
Proof.
  intros Hnd (i & Hi & Hb) (j & Hj & Hc).
  assert (i = j) as -> by (eapply NoDup_lookup; eauto). congruence.
Qed.

Lemma adjacent_unique_l l a b c :
  NoDup l -> adjacent l a c -> adjacent l b c -> a = b.
Proof.
  intros Hnd (i & Hi & Hb) (j & Hj & Hc).
  assert (S i = S j) as [= ->] by (eapply NoDup_lookup; eauto). congruence.
Qed.

Lemma precedes_app_l l k a b : precedes l a b -> precedes (l ++ k) a b.
Proof. intros (i & j & Ha & Hb & ?). exists i, j. split_and!; [by apply lookup_app_l_Some..|done]. Qed.

Lemma precedes_app l k a b : a ∈ l -> b ∈ k -> precedes (l ++ k) a b.
Proof.
  intros [i Hi]%list_elem_of_lookup [j Hj]%list_elem_of_lookup.
  exists i, (length l + j). split_and!.
  - by apply lookup_app_l_Some.
  - by rewrite lookup_app_r, Nat.add_sub' by lia.
  - apply lookup_lt_Some in Hi. lia.
Qed.

Lemma precedes_irrefl l a : NoDup l -> ~ precedes l a a.
Proof.
  intros Hnd (i & j & Hi & Hj & Hlt).
  assert (i = j) by (eapply NoDup_lookup; eauto). lia.
Qed.

Lemma precedes_asymm l a b : NoDup l -> precedes l a b -> precedes l b a -> False.
Proof.
  intros Hnd (i & j & Hi & Hj & Hlt) (i' & j' & Hi' & Hj' & Hlt').
  assert (i = j') by (eapply NoDup_lookup; eauto).
  assert (j = i') by (eapply NoDup_lookup; eauto). lia.
Qed.

Lemma precedes_trans l a b c : NoDup l -> precedes l a b -> precedes l b c -> precedes l a c.
Proof.
  intros Hnd (i & j & Hi & Hj & Hlt) (i' & j' & Hi' & Hj' & Hlt').
  assert (j = i') by (eapply NoDup_lookup; eauto). exists i, j'. split_and!; [done..|lia].
Qed.
End lists.

(** ** The index of the fact set *)

(** [m] and [pm] are the maps of the facts [works]. *)
Record indexes (works : list AcceptedInputQueueWork)
    (m : gmap TurnId AcceptedInputQueueOrder) (pm : gmap SessionInputPosition TurnId) : Prop := {
  by_turn t o : m !! t = Some o <-> exists w, w ∈ works /\ work_turn w = t /\ work_order w = o;
  by_position q t :
    pm !! q = Some t <-> exists w, w ∈ works /\ work_turn w = t /\ work_position w = q;
  index_size : size m = length works;
}.

Lemma indexes_nil : indexes [] ∅ ∅.
Proof. split; [set_solver..|done]. Qed.

Lemma indexes_snoc works m pm w :
  indexes works m pm -> work_turn w ∉ work_turn <$> works -> pm !! work_position w = None ->
  indexes (works ++ [w]) (<[work_turn w := work_order w]> m) (<[work_position w := work_turn w]> pm).
Proof.
  intros [Ht Hp Hs] Hnew Hpos.
  assert (m !! work_turn w = None) as Hm.
  { apply eq_None_not_Some. intros [o (w' & Hin & Heq & _)%Ht]. apply Hnew.
    rewrite <- Heq. by apply list_elem_of_fmap_2. }
  split.
  - intros t o. rewrite lookup_insert_Some, Ht. setoid_rewrite elem_of_app.
    setoid_rewrite list_elem_of_singleton. split; [naive_solver|].
    intros (w' & [Hin| ->] & <- & <-); [|naive_solver].
    right. split; [|naive_solver]. intros Heq. apply Hnew. rewrite Heq. by apply list_elem_of_fmap_2.
  - intros q t. rewrite lookup_insert_Some, Hp. setoid_rewrite elem_of_app.
    setoid_rewrite list_elem_of_singleton. split; [naive_solver|].
    intros (w' & [Hin| ->] & <- & <-); [|naive_solver].
    right. split; [|naive_solver]. intros Heq.
    assert (pm !! work_position w' = Some (work_turn w')) as Hx by (apply Hp; eauto). congruence.
  - rewrite map_size_insert_None by done. rewrite length_app, Hs. simpl. lia.
Qed.

Lemma index_work_sound works m pm :
  NoDup (work_turn <$> works) -> index_work works = Ok (m, pm) ->
  indexes works m pm /\ NoDup (work_position <$> works).
Proof.
  intros Hnd. unfold index_work.
  apply (try_fold_ind index_one
    (fun l st => indexes l st.1 st.2 /\ NoDup (work_position <$> l)) _ _ (m, pm)).
  - split; [apply indexes_nil|constructor].
  - intros l1 w l2 [m1 pm1] s2 Hl [Hi Hp]. simpl. fold (work_position w).
    destruct (pm1 !! work_position w) as [t|] eqn:Hpos; [by case_match|]. intros [= <-].
    split.
    + apply indexes_snoc; [done| |done]. rewrite Hl, fmap_app, fmap_cons in Hnd.
      apply NoDup_app in Hnd as (_ & Hd & _). intros Hin. apply (Hd _ Hin). by left.
    + rewrite fmap_app. apply NoDup_app. split_and!; [done| |apply NoDup_singleton].
      intros q (w' & -> & Hw')%list_elem_of_fmap_1. simpl. rewrite list_elem_of_singleton. intros Heq.
      assert (pm1 !! work_position w' = Some (work_turn w')) as Hx by (apply Hi; eauto). congruence.
Qed.

Lemma index_work_total works :
  NoDup (work_turn <$> works) -> NoDup (work_position <$> works) ->
  exists m pm, index_work works = Ok (m, pm).
Proof.
  intros Ht Hp. unfold index_work.
  destruct (try_fold_total index_one (fun l st => indexes l st.1 st.2) works (∅, ∅))
    as ([m pm] & -> & _); [apply indexes_nil| |by eauto].
  intros l1 w l2 [m1 pm1] -> Hi. simpl in *. fold (work_position w).
  rewrite fmap_app, fmap_cons in Ht. rewrite fmap_app, fmap_cons in Hp.
  apply NoDup_app in Ht as (_ & Hdt & _). apply NoDup_app in Hp as (_ & Hdp & _).
  destruct (pm1 !! work_position w) as [t|] eqn:Hpos.
  - apply Hi in Hpos as (w' & Hw' & _ & Hq). destruct (Hdp (work_position w')).
    + apply list_elem_of_fmap. eauto.
    + rewrite Hq. left.
  - eexists. split; [done|]. apply indexes_snoc; [done| |done].
    intros Hin. apply (Hdt _ Hin). left.
Qed.

(** ** The successor relation of the interrupts *)

Section chains.
Context (m : gmap TurnId AcceptedInputQueueOrder).

Definition interrupts (t p : TurnId) : Prop :=
  exists o, m !! t = Some o /\ priority o = InterruptImmediatelyAfter p.

Definition rooted (t : TurnId) (q : SessionInputPosition) : Prop :=
  exists o, m !! t = Some o /\ priority o = Ordinary /\ acceptance_position o = q.

(** What [index_successors] checks. *)
Definition well_targeted : Prop :=
  (forall t p, interrupts t p -> p <> t /\ is_Some (m !! p)) /\
  (forall t1 t2 p, interrupts t1 p -> interrupts t2 p -> t1 = t2).

Lemma interrupts_functional t p1 p2 : interrupts t p1 -> interrupts t p2 -> p1 = p2.
Proof. intros (o & ? & ?) (o' & ? & ?). congruence. Qed.

Lemma rooted_not_interrupts t q p : rooted t q -> interrupts t p -> False.
Proof. intros (o & ? & ? & ?) (o' & ? & ?). congruence. Qed.

(** The successor map restricted to the interrupts already visited. *)
Definition successors_of (l : list (TurnId * AcceptedInputQueueOrder)) (s : gmap TurnId TurnId) : Prop :=
  forall p t, s !! p = Some t <->
    exists o, (t, o) ∈ l /\ priority o = InterruptImmediatelyAfter p.

Lemma successors_of_snoc_ordinary l s t o :
  priority o = Ordinary -> successors_of l s -> successors_of (l ++ [(t, o)]) s.
Proof.
  unfold successors_of. intros Ho Hs p t'. rewrite Hs. setoid_rewrite elem_of_app. setoid_rewrite list_elem_of_singleton.
  split; [naive_solver|]. intros (o' & [?|[= -> ->]] & ?); [naive_solver|congruence].
Qed.

Lemma successors_of_snoc_interrupt l s t o p :
  priority o = InterruptImmediatelyAfter p -> s !! p = None ->
  successors_of l s -> successors_of (l ++ [(t, o)]) (<[p := t]> s).
Proof.
  unfold successors_of. intros Ho Hn Hs p' t'. rewrite lookup_insert_Some, Hs. setoid_rewrite elem_of_app.
  setoid_rewrite list_elem_of_singleton. split; [naive_solver|].
  intros (o' & [Hin|[= -> ->]] & Hp'); [|left; split; congruence].
  right. split; [|eauto]. intros ->.
  assert (s !! p' = Some t') as Hx by (apply Hs; eauto). congruence.
Qed.

Lemma interrupts_iter t p :
  interrupts t p <-> exists o, (t, o) ∈ btree_iter m /\ priority o = InterruptImmediatelyAfter p.
Proof. unfold interrupts. by setoid_rewrite elem_of_btree_iter. Qed.

Definition well_targeted_on (l : list (TurnId * AcceptedInputQueueOrder)) : Prop :=
  (forall t p o, (t, o) ∈ l -> priority o = InterruptImmediatelyAfter p ->
     p <> t /\ is_Some (m !! p)) /\
  (forall t1 t2 p o1 o2, (t1, o1) ∈ l -> (t2, o2) ∈ l ->
     priority o1 = InterruptImmediatelyAfter p -> priority o2 = InterruptImmediatelyAfter p -> t1 = t2).

Lemma well_targeted_on_snoc_ordinary l t o :
  priority o = Ordinary -> well_targeted_on l -> well_targeted_on (l ++ [(t, o)]).
Proof.
  intros Ho [Ht Hu]. unfold well_targeted_on.
  setoid_rewrite elem_of_app. setoid_rewrite list_elem_of_singleton.
  split.
  - intros t' p o' [?|[= -> ->]] ?; [eauto|congruence].
  - intros t1 t2 p o1 o2 [?|[= -> ->]] [?|[= -> ->]] ??; solve [eauto|congruence].
Qed.

Lemma well_targeted_on_snoc_interrupt l s t o p :
  priority o = InterruptImmediatelyAfter p -> p <> t -> is_Some (m !! p) ->
  s !! p = None -> successors_of l s -> well_targeted_on l -> well_targeted_on (l ++ [(t, o)]).
Proof.
  intros Ho Hne Hp Hn Hs [Ht Hu].
  assert (forall t' o', (t', o') ∈ l -> priority o' = InterruptImmediatelyAfter p -> False) as Hnone.
  { intros t' o' Hin Ho'. assert (s !! p = Some t') by (apply Hs; eauto). congruence. }
  unfold well_targeted_on. setoid_rewrite elem_of_app. setoid_rewrite list_elem_of_singleton.
  split.
  - intros t' p' o' [?|[= -> ->]] ?; [eauto|]. by assert (p' = p) as -> by congruence.
  - intros t1 t2 p' o1 o2 [?|[= -> ->]] [?|[= -> ->]] ??; [eauto| | |done];
      (assert (p' = p) as -> by congruence); exfalso; eauto.
Qed.

Lemma index_successor_Ok l s1 s2 t o :
  successors_of l s1 -> well_targeted_on l -> index_successor m s1 (t, o) = Ok s2 ->
  well_targeted_on (l ++ [(t, o)]) /\ successors_of (l ++ [(t, o)]) s2.
Proof.
  intros Hs Hw. simpl. destruct (priority o) as [|p] eqn:Hp.
  { intros [= <-]. auto using well_targeted_on_snoc_ordinary, successors_of_snoc_ordinary. }
  case_bool_decide as Hne; [done|]. case_bool_decide as Hsome; [|done]. simpl.
  destruct (s1 !! p) as [e|] eqn:Hs1; [by destruct (canonical_pair e t)|]. intros [= <-].
  eauto using well_targeted_on_snoc_interrupt, successors_of_snoc_interrupt.
Qed.

Lemma index_successors_sound s :
  index_successors m = Ok s -> well_targeted /\ forall p t, s !! p = Some t <-> interrupts t p.
Proof.
  intros Hix. unfold well_targeted. setoid_rewrite interrupts_iter.
  assert (well_targeted_on (btree_iter m) /\ successors_of (btree_iter m) s) as [[H1 H2] H3];
    [|naive_solver].
  revert Hix. apply (try_fold_ind _ (fun l s => well_targeted_on l /\ successors_of l s)).
  { split; [split; set_solver|]. intros p t. set_solver. }
  intros l1 [t o] l2 s1 s2 _ [Hw Hs]. by apply index_successor_Ok.
Qed.

Lemma index_successors_total : well_targeted -> exists s, index_successors m = Ok s.
Proof.
  intros [Ht Hu]. unfold index_successors.
  destruct (try_fold_total (index_successor m) successors_of (btree_iter m) ∅) as (s & -> & _);
    [intros p t; set_solver| |by eauto].
  intros l1 [t o] l2 s1 Hl Hs. simpl. destruct (priority o) as [|p] eqn:Hp.
  { eexists. split; [done|]. by apply successors_of_snoc_ordinary. }
  assert (forall t' o', (t', o') ∈ btree_iter m -> m !! t' = Some o') as Hit
    by (intros t' o'; by rewrite elem_of_btree_iter).
  destruct (Ht t p) as [Hne Hsome]; [exists o; split; [|done]; apply Hit; rewrite Hl; set_solver|].
  rewrite bool_decide_eq_false_2, bool_decide_eq_true_2 by done. simpl.
  destruct (s1 !! p) as [e|] eqn:He.
  - exfalso. apply Hs in He as (o' & Hin & Ho').
    pose proof (btree_iter_keys_NoDup m) as Hnd. rewrite Hl, fmap_app, fmap_cons in Hnd.
    apply NoDup_app in Hnd as (_ & Hd & _).
    assert (e = t) as ->.
    { apply (Hu e t p); [exists o'|exists o]; (split; [|done]); apply Hit; rewrite Hl; set_solver. }
    apply (Hd t); [|left]. apply list_elem_of_fmap. by exists (t, o').
  - eexists. split; [done|]. by apply successors_of_snoc_interrupt.
Qed.

(** ** Walking the successor chains *)

Context (s : gmap TurnId TurnId).
Hypothesis targeted : well_targeted.
Hypothesis successors_spec : forall p t, s !! p = Some t <-> interrupts t p.

(** The complete chain of interrupts that starts at one turn. *)
Inductive chain : TurnId -> list TurnId -> Prop :=
| chain_last t : s !! t = None -> chain t [t]
| chain_next t t' l : s !! t = Some t' -> chain t' l -> chain t (t :: l).

Lemma chain_head t l : chain t l -> exists l', l = t :: l'.
Proof. destruct 1; eauto. Qed.

Lemma chain_adjacent t l a b : chain t l -> a ∈ l -> s !! a = Some b -> adjacent l a b.
Proof.
  induction 1 as [t Hn|t t' l Ht Hc IH].
  - intros ->%list_elem_of_singleton ?. congruence.
  - intros [->|Ha]%elem_of_cons Hab.
    + apply chain_head in Hc as [l' ->]. exists 0. simpl. split; congruence.
    + destruct (IH Ha Hab) as (i & ? & ?). by exists (S i).
Qed.

Lemma chain_tail_interrupts t l a : chain t l -> a ∈ l -> a = t \/ exists p, interrupts a p.
Proof.
  induction 1 as [t Hn|t t' l Ht Hc IH].
  - intros ->%list_elem_of_singleton. by left.
  - intros [->|Ha]%elem_of_cons; [by left|right].
    destruct (IH Ha) as [->|?]; [|done]. exists t. by apply successors_spec.
Qed.

Lemma chain_in_index t l a : chain t l -> is_Some (m !! t) -> a ∈ l -> is_Some (m !! a).
Proof.
  intros Hc Ht Ha. destruct (chain_tail_interrupts _ _ _ Hc Ha) as [->|[p (o & ? & _)]]; [done|by eauto].
Qed.

(** Before a step of the walk: the visited turns are closed under
    interrupt predecessors, and the current turn is next on its chain. *)
Record walkable (visited : gset TurnId) (current : TurnId) : Prop := {
  pred_closed a b : s !! a = Some b -> b ∈ visited -> a ∈ visited;
  current_fresh : current ∉ visited;
  current_pred a : s !! a = Some current -> a ∈ visited;
}.

Lemma walkable_next visited current next :
  walkable visited current -> s !! current = Some next -> walkable ({[current]} ∪ visited) next.
Proof.
  intros [Hcl Hf Hp] Hn. split.
  - intros a b Hab. rewrite !elem_of_union, !elem_of_singleton. intros [->|Hb]; [right; eauto|eauto].
  - rewrite elem_of_union, elem_of_singleton. intros [->|Hnv]; [by apply Hf, Hp|by apply Hf, (Hcl _ _ Hn)].
  - intros a Ha. rewrite elem_of_union, elem_of_singleton. left.
    apply successors_spec in Ha, Hn. by eapply interrupts_functional.
Qed.

(** The inner loop terminates without reporting a cycle and appends exactly
    the chain of its root. *)
Lemma walk_chain_Ok visited ordered current :
  walkable visited current ->
  exists l, chain current l /\ NoDup l /\ list_to_set l ## visited /\
    walk_chain s visited ordered current = Ok (list_to_set l ∪ visited, ordered ++ l) /\
    (forall a b, s !! a = Some b -> b ∈ list_to_set l ∪ visited -> a ∈ list_to_set l ∪ visited).
Proof.
  funelim (walk_chain s visited ordered current); intros Hw.
  - by destruct (current_fresh _ _ Hw).
  - destruct H as (l & Hc & Hnd & Hdis & Hrun & Hcl); [by apply walkable_next|].
    exists (current :: l). split_and!.
    + by econstructor.
    + constructor; [|done]. intros Hin. apply (Hdis current); set_solver.
    + pose proof (current_fresh _ _ Hw). set_solver.
    + rewrite Hrun. f_equal. f_equal; [set_solver|by rewrite <- app_assoc].
    + intros a b. specialize (Hcl a b). set_solver.
  - exists [current]. split_and!.
    + by constructor.
    + apply NoDup_singleton.
    + pose proof (current_fresh _ _ Hw). set_solver.
    + by rewrite list_to_set_singleton_L.
    + intros a b Hab. destruct Hw as [Hcl Hf Hp]. set_solver.
Qed.

(** After the roots [roots] were walked. *)
Record walked (roots : list (SessionInputPosition * TurnId)) (visited : gset TurnId)
    (ordered : list TurnId) : Prop := {
  walked_set : visited = list_to_set ordered;
  walked_NoDup : NoDup ordered;
  walked_index t : t ∈ visited -> is_Some (m !! t);
  walked_pred a b : s !! a = Some b -> b ∈ visited -> a ∈ visited;
  walked_adjacent a b : s !! a = Some b -> a ∈ visited -> adjacent ordered a b;
  walked_origin t : t ∈ visited -> t ∈ roots.*2 \/ exists p, interrupts t p;
  walked_roots t : t ∈ roots.*2 -> t ∈ visited;
  walked_fifo t1 t2 : precedes roots.*2 t1 t2 -> precedes ordered t1 t2;
}.

Lemma walked_nil : walked [] ∅ [].
Proof.
  split; [done|constructor|set_solver..|]. by intros t1 t2 (i & j & [=] & _).
Qed.

Lemma precedes_snoc {A} (l : list A) x a b :
  precedes (l ++ [x]) a b -> precedes l a b \/ (a ∈ l /\ b = x).
Proof.
  intros (i & j & Hi & Hj & Hlt). apply lookup_app_Some in Hj as [Hj|[Hge Hj]].
  - left. exists i, j. split_and!; [|done..]. apply lookup_lt_Some in Hj.
    rewrite lookup_app_l in Hi by lia. done.
  - right. destruct (j - length l) as [|k] eqn:Hk; [|by rewrite lookup_cons, lookup_nil in Hj].
    simpl in Hj. split; [|congruence]. rewrite lookup_app_l in Hi by lia.
    by eapply list_elem_of_lookup_2.
Qed.

Lemma walked_snoc roots visited ordered q t :
  walked roots visited ordered -> rooted t q -> t ∉ roots.*2 ->
  exists visited' ordered', walk_chain s visited ordered t = Ok (visited', ordered') /\
    walked (roots ++ [(q, t)]) visited' ordered'.
Proof.
  intros Hw Hr Hnew. pose proof Hw as [Hset Hnd Hix Hpred Hadj Horig Hroots Hfifo].
  assert (walkable visited t) as Hwalk.
  { split; [done| |].
    - intros Hin. destruct (Horig t Hin) as [?|[p ?]]; [done|by eapply rooted_not_interrupts].
    - intros a Ha%successors_spec. exfalso. by eapply rooted_not_interrupts. }
  destruct (walk_chain_Ok _ ordered _ Hwalk) as (l & Hc & Hndl & Hdis & -> & Hpred').
  exists (list_to_set l ∪ visited), (ordered ++ l). split; [done|].
  pose proof (chain_head _ _ Hc) as [l' Hl']. assert (t ∈ l) as Htl by (rewrite Hl'; left).
  assert (is_Some (m !! t)) as Hmt by (destruct Hr as (o & ? & _); eauto).
  split.
  - rewrite list_to_set_app_L, <- Hset. set_solver.
  - apply NoDup_app. split_and!; [done| |done]. intros x Hx Hxl. apply (Hdis x); set_solver.
  - intros x [Hx%elem_of_list_to_set|Hx]%elem_of_union; [by eapply chain_in_index|by apply Hix].
  - done.
  - intros a b Hab [Ha%elem_of_list_to_set|Ha]%elem_of_union.
    + apply adjacent_app_r. by eapply chain_adjacent.
    + apply adjacent_app_l. by apply Hadj.
  - intros x [Hx%elem_of_list_to_set|Hx]%elem_of_union; rewrite fmap_app, elem_of_app.
    + destruct (chain_tail_interrupts _ _ _ Hc Hx) as [->|?]; [left; right; left|by right].
    + destruct (Horig x Hx); auto.
  - intros x. rewrite fmap_app, elem_of_app. simpl. rewrite list_elem_of_singleton. set_solver.
  - intros t1 t2. rewrite fmap_app. intros [Hp|[H1 ->]]%precedes_snoc.
    + by apply precedes_app_l, Hfifo.
    + apply precedes_app; [|done]. apply Hroots in H1. set_solver.
Qed.

Lemma walk_roots_Ok roots :
  NoDup roots.*2 -> (forall q t, (q, t) ∈ roots -> rooted t q) ->
  exists visited ordered, walk_roots s roots = Ok (visited, ordered) /\ walked roots visited ordered.
Proof.
  intros Hnd Hr. unfold walk_roots.
  edestruct (try_fold_total
    (fun '(visited, ordered) '(_, root) => walk_chain s visited ordered root)
    (fun roots st => walked roots st.1 st.2) roots (∅, [])) as ([visited ordered] & -> & Hw);
    [apply walked_nil| |by eauto].
  intros l1 [q t] l2 [visited ordered] Hl Hw. simpl.
  destruct (walked_snoc l1 visited ordered q t) as (v & o & -> & ?); [done| | |by exists (v, o)].
  - apply Hr. rewrite Hl. set_solver.
  - rewrite Hl, fmap_app, fmap_cons in Hnd. apply NoDup_app in Hnd as (_ & Hd & _).
    intros Hin. apply (Hd _ Hin). left.
Qed.

(** The roots handed to the walk are the ordinary turns, in acceptance order. *)
Lemma elem_of_ordinary_roots q t : (q, t) ∈ ordinary_roots m <-> rooted t q.
Proof.
  unfold ordinary_roots. rewrite elem_of_sort_by_key, list_elem_of_omap. split.
  - intros ([t' o] & Hin & Hr). apply elem_of_btree_iter in Hin. unfold root_entry in Hr. simpl in Hr.
    case_bool_decide; simplify_eq. by exists o.
  - intros (o & Ho & Hp & Hq). exists (t, o). rewrite elem_of_btree_iter. split; [done|].
    unfold root_entry. simpl. rewrite bool_decide_eq_true_2 by done. by rewrite Hq.
Qed.

Hypothesis positions_inj : forall t1 t2 o1 o2,
  m !! t1 = Some o1 -> m !! t2 = Some o2 ->
  acceptance_position o1 = acceptance_position o2 -> t1 = t2.

Lemma ordinary_roots_ascending : ascending fst (ordinary_roots m).
Proof.
  apply sort_by_key_ascending. apply NoDup_fmap_omap.
  - eapply NoDup_fmap_1, btree_iter_keys_NoDup.
  - intros [t1 o1] [t2 o2] a b H1 H2. unfold root_entry.
    apply elem_of_btree_iter in H1, H2. repeat case_bool_decide; [|done..].
    simpl. intros [= <-] [= <-] Heq. simpl in Heq.
    assert (t1 = t2) as -> by eauto. congruence.
Qed.

Lemma ordinary_roots_NoDup : NoDup (ordinary_roots m).*2.
Proof.
  unfold ordinary_roots. rewrite sort_by_key_perm. apply NoDup_fmap_omap.
  - eapply NoDup_fmap_1, btree_iter_keys_NoDup.
  - intros [t1 o1] [t2 o2] a b H1 H2. unfold root_entry.
    apply elem_of_btree_iter in H1, H2. repeat case_bool_decide; [|done..].
    simpl. intros [= <-] [= <-] Heq. simpl in Heq. congruence.
Qed.

Lemma walk_ordinary_roots :
  exists visited ordered, walk_roots s (ordinary_roots m) = Ok (visited, ordered) /\
    walked (ordinary_roots m) visited ordered.
Proof. apply walk_roots_Ok; [apply ordinary_roots_NoDup|]. intros q t. by rewrite elem_of_ordinary_roots. Qed.

Lemma roots_precede t1 t2 q1 q2 :
  rooted t1 q1 -> rooted t2 q2 -> key_lt q1 q2 -> precedes (ordinary_roots m).*2 t1 t2.
Proof.
  intros H1%elem_of_ordinary_roots H2%elem_of_ordinary_roots Hlt.
  pose proof ordinary_roots_ascending as Hasc.
  apply list_elem_of_lookup in H1 as [i Hi], H2 as [j Hj]. exists i, j.
  rewrite !list_lookup_fmap, Hi, Hj. split_and!; [done..|].
  destruct (decide (i < j)) as [|Hge]; [done|]. exfalso.
  destruct (decide (i = j)) as [->|Hne]; [simplify_eq; unfold key_lt in Hlt; lia|].
  pose proof (ascending_lookup fst _ j i _ _ Hasc Hj Hi ltac:(lia)) as Hlt'.
  unfold key_lt in *. simpl in *. lia.
Qed.

(** Targets accepted earlier leave no turn outside the chains of the roots. *)
Lemma walked_complete visited ordered :
  (forall t p o po, interrupts t p -> m !! t = Some o -> m !! p = Some po ->
     key_lt (acceptance_position po) (acceptance_position o)) ->
  walked (ordinary_roots m) visited ordered -> forall t, is_Some (m !! t) -> t ∈ visited.
Proof.
  intros Hearlier Hw t [o Ho].
  remember (ord_key (acceptance_position o)) as n eqn:Hn. revert t o Ho Hn.
  induction (N.lt_wf_0 n) as [n _ IH]. intros t o Ho ->.
  destruct (priority o) as [|p] eqn:Hp.
  - apply (walked_roots _ _ _ Hw). apply list_elem_of_fmap. exists (acceptance_position o, t).
    split; [done|]. apply elem_of_ordinary_roots. by exists o.
  - assert (interrupts t p) as Hi by (by exists o).
    destruct targeted as [Ht _]. destruct (Ht t p Hi) as [_ [po Hpo]].
    assert (p ∈ visited) as Hpv.
    { eapply IH; [|exact Hpo|reflexivity]. by eapply (Hearlier t p). }
    pose proof (walked_adjacent _ _ _ Hw p t) as (i & _ & Hin); [by apply successors_spec|done|].
    rewrite (walked_set _ _ _ Hw). apply elem_of_list_to_set. by eapply list_elem_of_lookup_2.
Qed.

Lemma check_all_visited_Ok visited ordered :
  walked (ordinary_roots m) visited ordered ->
  check_all_visited m visited ordered = Ok tt <-> forall t, is_Some (m !! t) -> t ∈ visited.
Proof.
  intros Hw. unfold check_all_visited.
  assert (length ordered = size visited) as Hlen
    by (rewrite (walked_set _ _ _ Hw), size_list_to_set; [done|apply (walked_NoDup _ _ _ Hw)]).
  assert (visited ⊆ dom m) as Hsub
    by (intros t Ht; apply elem_of_dom; by apply (walked_index _ _ _ Hw)).
  case_bool_decide as Hsz.
  - split; [|done]. intros _ t Ht. assert (visited = dom m) as ->; [|by apply elem_of_dom].
    apply set_subseteq_size_eq; [done|]. rewrite size_dom. lia.
  - destruct (list_find _ _) as [[i t]|] eqn:Hf.
    + apply list_find_Some in Hf as (Hl & Hnv & _). split; [done|]. intros Hall. destruct Hnv.
      apply Hall. rewrite list_lookup_fmap in Hl. apply fmap_Some in Hl as ([t' o] & Hl & ->).
      apply list_elem_of_lookup_2, elem_of_btree_iter in Hl. eauto.
    + split; [|done]. intros _ t [o Ho]. apply list_find_None in Hf. rewrite Forall_forall in Hf.
      destruct (decide (t ∈ visited)) as [|Hn]; [done|]. destruct (Hf t); [|done].
      apply list_elem_of_fmap. exists (t, o). by rewrite elem_of_btree_iter.
Qed.
End chains.

(** ** The remaining checks *)

Lemma mixed_sessions_None works :
  mixed_sessions works = None <->
  forall w1 w2, w1 ∈ works -> w2 ∈ works -> work_session w1 = work_session w2.
Proof.
  unfold mixed_sessions.
  set (ss := list_to_set (work_session <$> works) : gset SessionId).
  assert (forall x, x ∈ btree_set_iter ss <-> exists w, w ∈ works /\ work_session w = x) as Hin.
  { intros x. unfold btree_set_iter. rewrite elem_of_sort_by_key, elem_of_elements.
    unfold ss. rewrite elem_of_list_to_set, list_elem_of_fmap. naive_solver. }
  assert (NoDup (btree_set_iter ss)) as Hnd
    by (unfold btree_set_iter; rewrite sort_by_key_perm; apply NoDup_elements).
  destruct (btree_set_iter ss) as [|a [|b l]].
  - split; [|done]. intros _ w1 w2 H1 _.
    assert (work_session w1 ∈ []) as Hx by (apply Hin; eauto). by apply not_elem_of_nil in Hx.
  - split; [|done]. intros _ w1 w2 H1 H2.
    assert (forall w, w ∈ works -> work_session w = a) as Ha; [|by rewrite !Ha].
    intros w Hw. apply list_elem_of_singleton, Hin. eauto.
  - split; [done|]. intros Hone. exfalso.
    destruct (proj1 (Hin a)) as (w1 & ? & <-); [left|].
    destruct (proj1 (Hin b)) as (w2 & ? & <-); [right; left|].
    apply NoDup_cons in Hnd as [Hn _]. apply Hn. rewrite (Hone w1 w2) by done. left.
Qed.

Lemma adjacent_duplicate_None (l : list TurnId) :
  StronglySorted key_le l -> adjacent_duplicate l = None <-> NoDup l.
Proof.
  induction 1 as [|a l Hs IH Hall]; [by split; [constructor|]|].
  destruct l as [|b l]; [split; [intros _; apply NoDup_singleton|done]|].
  change (adjacent_duplicate (a :: b :: l)) with
    (if bool_decide (a = b) then Some a else adjacent_duplicate (b :: l)).
  case_bool_decide as Hab.
  - subst. split; [done|]. rewrite NoDup_cons. intros [Hn _]. destruct Hn. left.
  - rewrite IH, (NoDup_cons a). split; [|tauto]. intros Hnd. split; [|done].
    intros [->|Hin]%elem_of_cons; [done|]. inversion Hs as [|? ? Hs' Hall']; subst.
    rewrite Forall_forall in Hall'. rewrite Forall_forall in Hall.
    pose proof (Hall b ltac:(left)) as H1. pose proof (Hall' a Hin) as H2.
    apply Hab. apply (inj ord_key). unfold key_le in *. lia.
Qed.

Lemma check_position_Ok m l :
  try_fold (check_position m) l tt = Ok tt <->
  forall t o p, (t, o) ∈ l -> priority o = InterruptImmediatelyAfter p ->
    exists po, m !! p = Some po /\ key_lt (acceptance_position po) (acceptance_position o).
Proof.
  rewrite try_fold_unit. split.
  - intros H t o p Hin Hp. specialize (H (t, o) Hin). simpl in H. rewrite Hp in H.
    destruct (m !! p) as [po|]; [|done]. exists po. split; [done|].
    case_bool_decide as Hle; [done|]. unfold key_le, key_lt in *. lia.
  - intros H [t o] Hin. simpl. destruct (priority o) as [|p] eqn:Hp; [done|].
    destruct (H t o p Hin Hp) as (po & -> & Hlt).
    rewrite bool_decide_eq_false_2; [done|]. unfold key_le, key_lt in *. lia.
Qed.

Lemma order_index_Some ordered t i :
  NoDup ordered -> order_index ordered !! t = Some i <-> ordered !! i = Some t.
Proof.
  intros Hnd. unfold order_index, btree_collect.
  rewrite <- elem_of_list_to_map.
  - rewrite elem_of_reverse, elem_of_lookup_imap. naive_solver.
  - rewrite fmap_reverse, reverse_Permutation, fmap_imap.
    replace (imap _ ordered) with ordered; [done|].
    apply list_eq. intros k. rewrite list_lookup_imap. by destruct (ordered !! k).
Qed.

(** The index of the turn an entry interrupts, when it does. *)
Definition target_index (m : gmap TurnId AcceptedInputQueueOrder) (ix : gmap TurnId nat)
    (entry : SessionInputPosition * TurnId) : option nat :=
  o ← m !! entry.2;
  match priority o with Ordinary => None | InterruptImmediatelyAfter p => ix !! p end.

Definition prior_index (prior : option (TurnId * TurnId * nat)) : list nat :=
  match prior with Some (_, _, k) => [k] | None => [] end.

(** One iteration: entries that interrupt nothing are skipped; the others
    must target a turn beyond the previous target, which they replace. *)
Lemma check_chronology_step m ix prior entry :
  match target_index m ix entry with
  | None => check_chronology m ix prior entry = Ok prior
  | Some k =>
      (Forall (fun j => j < k) (prior_index prior) /\
       exists p, check_chronology m ix prior entry = Ok (Some (entry.2, p, k))) \/
      (~ Forall (fun j => j < k) (prior_index prior) /\
       exists e, check_chronology m ix prior entry = Err e)
  end.
Proof.
  unfold target_index, check_chronology. destruct (m !! entry.2) as [o|]; simpl; [|done].
  destruct (priority o) as [|p]; [done|]. destruct (ix !! p) as [k|]; [|done].
  destruct prior as [[[e ep] ek]|]; simpl; [|left; eauto].
  rewrite Forall_singleton. case_bool_decide; [right|left]; (split; [lia|eauto]).
Qed.

Lemma check_chronology_Ok m ix entries prior :
  (exists r, try_fold (check_chronology m ix) entries prior = Ok r) <->
  StronglySorted lt (prior_index prior ++ omap (target_index m ix) entries).
Proof.
  revert prior. induction entries as [|entry entries IH]; intros prior.
  { simpl. split; [|by eauto]. intros _. destruct prior as [[[? ?] k]|]; repeat constructor. }
  pose proof (check_chronology_step m ix prior entry) as Hstep. simpl.
  destruct (target_index m ix entry) as [k|]; [|by rewrite Hstep; apply IH].
  destruct Hstep as [[Hlt [p ->]]|[Hge [e ->]]]; simpl.
  - rewrite IH. simpl. destruct prior as [[[? ?] ek]|]; simpl in *; [|done].
    rewrite Forall_singleton in Hlt. rewrite !StronglySorted_cons, Forall_cons.
    split; [|tauto]. intros [Hall Hs]. split_and!; try done; try lia.
    eapply Forall_impl; [exact Hall|]. simpl. lia.
  - split; [naive_solver|]. intros Hs. destruct Hge.
    destruct prior as [[[? ?] ek]|]; simpl in *; [|done].
    apply StronglySorted_cons in Hs as [Hall _]. apply Forall_cons in Hall as [? _].
    by apply Forall_singleton.
Qed.

Lemma check_chronology_error m ix entries prior e :
  try_fold (check_chronology m ix) entries prior = Err e ->
  exists a b c d, e = InterruptPredecessorChronologyReversed a b c d.
Proof.
  intros (l1 & [q t] & l2 & s1 & _ & _ & He)%try_fold_Err. revert He. unfold check_chronology.
  repeat case_match; naive_solver.
Qed.

Lemma StronglySorted_omap {A B} (R : relation B) (f : A -> option B) l :
  StronglySorted R (omap f l) <->
  forall i j x y a b, l !! i = Some x -> l !! j = Some y -> i < j -> f x = Some a -> f y = Some b -> R a b.
Proof.
  induction l as [|x l IH]; [split; [done|constructor]|]. simpl. split.
  - intros Hs [|i] [|j] x' y a b Hx Hy Hlt Ha Hb; simpl in *; [lia| |lia|].
    + simplify_eq. rewrite Ha in Hs. apply StronglySorted_cons in Hs as [Hall _].
      rewrite Forall_forall in Hall. apply Hall. apply list_elem_of_omap.
      exists y. split; [by eapply list_elem_of_lookup_2|done].
    + destruct (f x); [apply StronglySorted_cons in Hs as [_ Hs]|];
        eapply (proj1 IH Hs i j); eauto with lia.
  - intros H. assert (StronglySorted R (omap f l)) as Hs.
    { apply IH. intros i j x' y a b Hx Hy Hlt. apply (H (S i) (S j)); simpl; [done..|lia]. }
    destruct (f x) as [a|] eqn:Hfx; [|done]. apply StronglySorted_cons. split; [|done].
    apply Forall_forall. intros b (y & [j Hj]%list_elem_of_lookup & Hb)%list_elem_of_omap.
    eapply (H 0 (S j)); simpl; eauto with lia.
Qed.

(** ** Correctness of the derivation *)

Lemma work_of_turn works w1 w2 :
  NoDup (work_turn <$> works) -> w1 ∈ works -> w2 ∈ works -> work_turn w1 = work_turn w2 -> w1 = w2.
Proof.
  intros Hnd [i Hi]%list_elem_of_lookup [j Hj]%list_elem_of_lookup Heq.
  assert (i = j) as ->; [|congruence].
  eapply (NoDup_lookup (work_turn <$> works)); [done| |]; rewrite list_lookup_fmap.
  - by rewrite Hi.
  - by rewrite Hj, Heq.
Qed.

Lemma work_of_position works w1 w2 :
  NoDup (work_position <$> works) -> w1 ∈ works -> w2 ∈ works ->
  work_position w1 = work_position w2 -> w1 = w2.
Proof.
  intros Hnd [i Hi]%list_elem_of_lookup [j Hj]%list_elem_of_lookup Heq.
  assert (i = j) as ->; [|congruence].
  eapply (NoDup_lookup (work_position <$> works)); [done| |]; rewrite list_lookup_fmap.
  - by rewrite Hi.
  - by rewrite Hj, Heq.
Qed.

Lemma total_order_NoDup works l :
  NoDup (work_turn <$> works) -> total_order works l -> NoDup l.
Proof. intros Hnd Ho. by rewrite (every_turn_once _ _ Ho). Qed.

(** Two total orders that agree on the first [n] turns agree on the next. *)
Lemma total_order_next works l1 l2 n x1 x2 :
  admissible_facts works -> total_order works l1 -> total_order works l2 ->
  take n l1 = take n l2 -> l1 !! n = Some x1 -> l2 !! n = Some x2 -> x1 = x2.
Proof.
  intros Ha H1 H2 Htake Hx1 Hx2.
  pose proof (total_order_NoDup _ _ (distinct_turns _ Ha) H1) as Hnd1.
  pose proof (total_order_NoDup _ _ (distinct_turns _ Ha) H2) as Hnd2.
  assert (forall i, i < n -> l1 !! i = l2 !! i) as Hagree.
  { intros i Hi. by rewrite <- (lookup_take_lt l1 n i), Htake, lookup_take_lt by done. }
  assert (forall l x, total_order works l -> l !! n = Some x -> exists w, w ∈ works /\ x = work_turn w) as Hw.
  { intros l x Hl Hx. apply list_elem_of_lookup_2 in Hx.
    rewrite (every_turn_once _ _ Hl), list_elem_of_fmap in Hx. naive_solver. }
  destruct (Hw l1 x1 H1 Hx1) as (w1 & Hw1 & ->), (Hw l2 x2 H2 Hx2) as (w2 & Hw2 & ->).
  destruct (work_priority w1) as [|p] eqn:Hp1.
  2:{ destruct (interrupt_adjacent _ _ H1 w1 p) as (i & Hi & Hi'); [done..|].
      destruct (interrupt_adjacent _ _ H2 w1 p) as (j & Hj & Hj'); [done..|].
      assert (S i = n) as <- by (eapply NoDup_lookup; [exact Hnd1|..]; eauto).
      rewrite Hagree in Hi by lia.
      assert (i = j) as -> by (eapply NoDup_lookup; [exact Hnd2|..]; eauto). congruence. }
  destruct (work_priority w2) as [|p] eqn:Hp2.
  2:{ destruct (interrupt_adjacent _ _ H2 w2 p) as (i & Hi & Hi'); [done..|].
      destruct (interrupt_adjacent _ _ H1 w2 p) as (j & Hj & Hj'); [done..|].
      assert (S i = n) as <- by (eapply NoDup_lookup; [exact Hnd2|..]; eauto).
      rewrite <- Hagree in Hi by lia.
      assert (i = j) as -> by (eapply NoDup_lookup; [exact Hnd1|..]; eauto). congruence. }
  destruct (N.lt_trichotomy (ord_key (work_position w1)) (ord_key (work_position w2))) as [Hlt|[Heq|Hlt]].
  - exfalso. destruct (ordinary_fifo _ _ H2 w1 w2) as (i & j & Hi & Hj & Hij); [done..|].
    assert (j = n) as -> by (eapply NoDup_lookup; [exact Hnd2|..]; eauto).
    rewrite <- Hagree in Hi by done.
    assert (i = n) by (eapply NoDup_lookup; [exact Hnd1|..]; eauto). lia.
  - apply (inj ord_key) in Heq. f_equal. by eapply (work_of_position works); [apply Ha|..].
  - exfalso. destruct (ordinary_fifo _ _ H1 w2 w1) as (i & j & Hi & Hj & Hij); [done..|].
    assert (j = n) as -> by (eapply NoDup_lookup; [exact Hnd1|..]; eauto).
    rewrite Hagree in Hi by done.
    assert (i = n) by (eapply NoDup_lookup; [exact Hnd2|..]; eauto). lia.
Qed.

Lemma total_order_determined works l1 l2 :
  admissible_facts works -> total_order works l1 -> total_order works l2 -> l1 = l2.
Proof.
  intros Ha H1 H2.
  assert (length l1 = length l2) as Hlen
    by by rewrite (every_turn_once _ _ H1), (every_turn_once _ _ H2).
  assert (forall n, n <= length l1 -> take n l1 = take n l2) as Ht.
  { induction n as [|n IH]; [done|]. intros Hn.
    destruct (lookup_lt_is_Some_2 l1 n) as [x1 Hx1]; [lia|].
    destruct (lookup_lt_is_Some_2 l2 n) as [x2 Hx2]; [lia|].
    rewrite (take_S_r _ _ _ Hx1), (take_S_r _ _ _ Hx2), IH by lia. do 2 f_equal.
    apply (total_order_next works l1 l2 n); [done..|apply IH; lia|done|done]. }
  specialize (Ht (length l1)). rewrite firstn_all, Hlen, firstn_all in Ht. by apply Ht.
Qed.

Lemma indexes_perm works works' m pm : works ≡ₚ works' -> indexes works m pm -> indexes works' m pm.
Proof.
  intros Hp [Ht Hq Hs]. split.
  - intros t o. rewrite Ht. by setoid_rewrite Hp.
  - intros q t. rewrite Hq. by setoid_rewrite Hp.
  - by rewrite Hs, Hp.
Qed.

Section indexed.
Context (works : list AcceptedInputQueueWork).
Context (m : gmap TurnId AcceptedInputQueueOrder) (pm : gmap SessionInputPosition TurnId).
Hypothesis Hix : indexes works m pm.

Lemma interrupts_works t p :
  interrupts m t p <->
  exists w, w ∈ works /\ work_turn w = t /\ work_priority w = InterruptImmediatelyAfter p.
Proof.
  unfold interrupts, work_priority. setoid_rewrite (by_turn _ _ _ Hix). naive_solver.
Qed.

Lemma rooted_works t q :
  rooted m t q <->
  exists w, w ∈ works /\ work_turn w = t /\ work_priority w = Ordinary /\ work_position w = q.
Proof.
  unfold rooted, work_priority, work_position. setoid_rewrite (by_turn _ _ _ Hix). naive_solver.
Qed.

Lemma index_lookup w : w ∈ works -> m !! work_turn w = Some (work_order w).
Proof. intros Hw. apply Hix. eauto. Qed.

Lemma index_positions_inj :
  NoDup (work_position <$> works) ->
  forall t1 t2 o1 o2, m !! t1 = Some o1 -> m !! t2 = Some o2 ->
    acceptance_position o1 = acceptance_position o2 -> t1 = t2.
Proof.
  intros Hnd t1 t2 o1 o2 (w1 & H1 & <- & <-)%Hix (w2 & H2 & <- & <-)%Hix Heq.
  f_equal. by eapply work_of_position.
Qed.

Lemma targets_advance_check l :
  NoDup l -> NoDup (work_turn <$> works) ->
  (forall w p, w ∈ works -> work_priority w = InterruptImmediatelyAfter p -> p ∈ l) ->
  (exists r, try_fold (check_chronology m (order_index l)) (btree_iter pm) None = Ok r) <->
  targets_advance works l.
Proof.
  intros Hnd Hturns Hin. rewrite check_chronology_Ok. simpl. rewrite StronglySorted_omap.
  assert (forall w p k, w ∈ works -> work_priority w = InterruptImmediatelyAfter p ->
    target_index m (order_index l) (work_position w, work_turn w) = Some k <-> l !! k = Some p) as Hti.
  { intros w p k Hw Hp. unfold target_index. simpl. rewrite index_lookup by done. simpl.
    fold (work_priority w). rewrite Hp. by apply order_index_Some. }
  split.
  - intros H w1 w2 p1 p2 H1 H2 Hp1 Hp2 Hlt.
    assert (forall w, w ∈ works -> exists i, btree_iter pm !! i = Some (work_position w, work_turn w)) as Hpos.
    { intros w Hw. apply list_elem_of_lookup, elem_of_btree_iter, Hix. eauto. }
    destruct (Hpos w1 H1) as [i Hi], (Hpos w2 H2) as [j Hj].
    pose proof (Hin w1 p1 H1 Hp1) as [a Hla]%list_elem_of_lookup.
    pose proof (Hin w2 p2 H2 Hp2) as [b Hlb]%list_elem_of_lookup.
    exists a, b. split_and!; [done..|]. eapply (H i j); [done..| |by eapply Hti|by eapply Hti].
    destruct (decide (i < j)) as [|Hge]; [done|]. exfalso.
    destruct (decide (i = j)) as [->|Hne].
    + assert (work_position w1 = work_position w2) as Heq by congruence.
      unfold key_lt in Hlt. rewrite Heq in Hlt. lia.
    + pose proof (ascending_lookup fst _ j i _ _ (btree_iter_ascending pm) Hj Hi ltac:(lia)) as Hlt'.
      unfold key_lt in *. simpl in *. lia.
  - intros H i j [q1 t1] [q2 t2] a b Hi Hj Hij Ha Hb.
    pose proof (ascending_lookup fst _ i j _ _ (btree_iter_ascending pm) Hi Hj Hij) as Hlt.
    apply list_elem_of_lookup_2, elem_of_btree_iter, Hix in Hi as (w1 & Hw1 & <- & <-).
    apply list_elem_of_lookup_2, elem_of_btree_iter, Hix in Hj as (w2 & Hw2 & <- & <-).
    assert (forall w k, w ∈ works ->
      target_index m (order_index l) (work_position w, work_turn w) = Some k ->
      exists p, work_priority w = InterruptImmediatelyAfter p) as Hint.
    { intros w k Hw. unfold target_index. simpl. rewrite index_lookup by done. simpl.
      fold (work_priority w). destruct (work_priority w); [done|eauto]. }
    destruct (Hint w1 a Hw1 Ha) as [p1 Hp1], (Hint w2 b Hw2 Hb) as [p2 Hp2].
    destruct (H w1 w2 p1 p2) as (a' & b' & Ha' & Hb' & Hab); [done..|].
    apply (Hti _ _ _ Hw1 Hp1) in Ha. apply (Hti _ _ _ Hw2 Hp2) in Hb.
    assert (a = a') as -> by by apply (NoDup_lookup l a a' p1).
    by assert (b = b') as -> by by apply (NoDup_lookup l b b' p2).
Qed.
End indexed.

(** The stages a successful derivation passes. *)
Lemma derive_stages works l :
  derive_accepted_input_total_order works = Ok l <->
  mixed_sessions works = None /\ NoDup (work_turn <$> works) /\
  exists m pm s visited,
    index_work (sort_by_key work_turn works) = Ok (m, pm) /\
    index_successors m = Ok s /\
    walk_roots s (ordinary_roots m) = Ok (visited, l) /\
    check_all_visited m visited l = Ok tt /\
    try_fold (check_position m) (btree_iter m) tt = Ok tt /\
    exists r, try_fold (check_chronology m (order_index l)) (btree_iter pm) None = Ok r.
Proof.
  unfold derive_accepted_input_total_order.
  destruct (mixed_sessions works) as [[? ?]|]; [naive_solver|].
  pose proof (sort_by_key_fmap_sorted work_turn works) as Hs.
  pose proof (adjacent_duplicate_None _ Hs) as Hdup.
  assert (NoDup (work_turn <$> sort_by_key work_turn works) <-> NoDup (work_turn <$> works)) as Hp
    by by rewrite sort_by_key_perm.
  rewrite Hp in Hdup. clear Hp.
  destruct (adjacent_duplicate _) as [t|].
  { split; [done|]. intros (_ & Hnd & _). by apply Hdup in Hnd. }
  split.
  - intros ([m pm] & Hi & (s & Hsu & ([visited ordered] & Hw & ([] & Hv & ([] & Hp & (r & Hc & [= ->])
      %bind_Ok)%bind_Ok)%bind_Ok)%bind_Ok)%bind_Ok)%bind_Ok.
    split_and!; [done|by apply Hdup|]. exists m, pm, s, visited. eauto 10.
  - intros (_ & _ & m & pm & s & visited & -> & Hsu & Hw & Hv & Hp & r & Hc). simpl.
    rewrite Hsu. simpl. rewrite Hw. simpl. rewrite Hv. simpl. rewrite Hp. simpl. by rewrite Hc.
Qed.

(** The walk of an indexed fact set gives a total order of the facts. *)
Lemma walked_total_order works m pm s visited l :
  indexes works m pm -> NoDup (work_turn <$> works) -> NoDup (work_position <$> works) ->
  (forall p t, s !! p = Some t <-> interrupts m t p) ->
  walked m s (ordinary_roots m) visited l ->
  (forall t, is_Some (m !! t) -> t ∈ visited) ->
  (forall t p, interrupts m t p -> is_Some (m !! p)) -> total_order works l.
Proof.
  intros Hix Hnd Hpos Hs Hw Hall Htg. pose proof (walked_set _ _ _ _ _ Hw) as Hset. split.
  - apply NoDup_Permutation; [apply Hw|done|]. intros t.
    assert (t ∈ l <-> t ∈ visited) as -> by (rewrite Hset; by rewrite elem_of_list_to_set).
    rewrite list_elem_of_fmap. split.
    + intros [o (w & ? & <- & _)%Hix]%(walked_index _ _ _ _ _ Hw). eauto.
    + intros (w & -> & Hin). apply Hall. rewrite (index_lookup _ _ _ Hix) by done. eauto.
  - intros w p Hin Hp. assert (interrupts m (work_turn w) p) as Hi
      by (apply (interrupts_works _ _ _ Hix); eauto).
    apply (walked_adjacent _ _ _ _ _ Hw); [by apply Hs|]. eapply Hall, Htg, Hi.
  - intros w1 w2 H1 H2 Hp1 Hp2 Hlt. apply (walked_fifo _ _ _ _ _ Hw).
    eapply roots_precede; [by eapply index_positions_inj| | |exact Hlt];
      apply (rooted_works _ _ _ Hix); eauto.
Qed.

(** Admissible facts pass every check before the chronology, and the order
    they walk to is total. *)
Lemma admissible_stages works :
  admissible_facts works ->
  exists m pm s visited l,
    indexes works m pm /\ total_order works l /\
    index_work (sort_by_key work_turn works) = Ok (m, pm) /\
    index_successors m = Ok s /\
    walk_roots s (ordinary_roots m) = Ok (visited, l) /\
    check_all_visited m visited l = Ok tt /\
    try_fold (check_position m) (btree_iter m) tt = Ok tt.
Proof.
  intros Ha. pose proof (sort_by_key_perm work_turn works) as Hperm.
  destruct (index_work_total (sort_by_key work_turn works)) as (m & pm & Hi);
    [by rewrite Hperm; apply Ha..|].
  destruct (index_work_sound (sort_by_key work_turn works) m pm) as [Hix _];
    [by rewrite Hperm; apply Ha|done|].
  apply (indexes_perm _ works) in Hix; [|done].
  pose proof (index_positions_inj _ _ _ Hix (distinct_positions _ Ha)) as Hinj.
  assert (forall t p o, interrupts m t p -> m !! t = Some o ->
    exists po, m !! p = Some po /\ key_lt (acceptance_position po) (acceptance_position o)) as Hearly.
  { intros t p o (w & Hw & <- & Hp)%(interrupts_works _ _ _ Hix) Ho.
    destruct (target_accepted_earlier _ Ha w p Hw Hp) as (w' & Hw' & <- & Hlt).
    exists (work_order w'). split; [by apply (index_lookup _ _ _ Hix)|].
    rewrite (index_lookup _ _ _ Hix w) in Ho by done. by simplify_eq. }
  assert (well_targeted m) as Hwt.
  { split.
    - intros t p Hi'. pose proof Hi' as (o & Ho & _). destruct (Hearly t p o Hi' Ho) as (po & Hpo & Hlt).
      split; [|eauto]. intros ->. assert (po = o) as -> by congruence. unfold key_lt in Hlt. lia.
    - intros t1 t2 p (w1 & ? & <- & ?)%(interrupts_works _ _ _ Hix)
        (w2 & ? & <- & ?)%(interrupts_works _ _ _ Hix).
      f_equal. by eapply one_interrupt_per_target. }
  destruct (index_successors_total m Hwt) as [s Hs].
  destruct (index_successors_sound m s Hs) as [_ Hsp].
  destruct (walk_ordinary_roots m s Hwt Hsp) as (visited & l & Hw & Hwd).
  assert (forall t, is_Some (m !! t) -> t ∈ visited) as Hall.
  { eapply walked_complete; [done|done| |done].
    intros t p o po Hi' Ho Hpo. destruct (Hearly t p o Hi' Ho) as (po' & Hpo' & ?). congruence. }
  exists m, pm, s, visited, l. split_and!; [done| |done..| |].
  - eapply walked_total_order; eauto; [apply Ha..|]. intros t p Hi'. by apply Hwt in Hi' as [_ ?].
  - by eapply check_all_visited_Ok.
  - apply check_position_Ok. intros t o p Hin Hp. apply elem_of_btree_iter in Hin.
    apply (Hearly t); [|done]. by exists o.
Qed.

Lemma total_order_target_in works l w p :
  total_order works l -> w ∈ works -> work_priority w = InterruptImmediatelyAfter p -> p ∈ l.
Proof.
  intros Ho Hw Hp. destruct (interrupt_adjacent _ _ Ho w p Hw Hp) as (i & Hi & _).
  by eapply list_elem_of_lookup_2.
Qed.

Lemma derive_sound works l :
  derive_accepted_input_total_order works = Ok l ->
  admissible_facts works /\ total_order works l /\ targets_advance works l.
Proof.
  intros (Hone & Hnd & m & pm & s & visited & Hi & Hs & Hw & Hv & Hp & Hc)%derive_stages.
  pose proof (sort_by_key_perm work_turn works) as Hperm.
  destruct (index_work_sound (sort_by_key work_turn works) m pm) as [Hix Hpos];
    [by rewrite Hperm|done|].
  apply (indexes_perm _ works) in Hix; [|done]. rewrite Hperm in Hpos.
  pose proof (index_positions_inj _ _ _ Hix Hpos) as Hinj.
  destruct (index_successors_sound m s Hs) as [Hwt Hsp].
  destruct (walk_ordinary_roots m s Hwt Hsp) as (visited' & l' & Hw' & Hwd).
  rewrite Hw in Hw'. simplify_eq.
  assert (total_order works l') as Hord.
  { eapply walked_total_order; eauto; [by eapply check_all_visited_Ok|].
    intros t p Hi'. by apply Hwt in Hi' as [_ ?]. }
  split_and!; [|done|].
  - rewrite check_position_Ok in Hp. split.
    + by apply mixed_sessions_None.
    + done.
    + done.
    + intros w p Hin Hpr. destruct (Hp (work_turn w) (work_order w) p) as (po & Hpo & Hlt); [|done|].
      { apply elem_of_btree_iter. by apply (index_lookup _ _ _ Hix). }
      apply Hix in Hpo as (w' & ? & <- & <-). eauto.
    + intros w1 w2 p H1 H2 Hp1 Hp2. eapply work_of_turn; [done..|].
      apply (proj2 Hwt _ _ p); apply (interrupts_works _ _ _ Hix); eauto.
  - apply (targets_advance_check _ _ _ Hix); [apply Hwd|done| |done].
    intros w p. by apply total_order_target_in.
Qed.

Lemma derive_complete works l :
  admissible_facts works -> total_order works l -> targets_advance works l ->
  derive_accepted_input_total_order works = Ok l.
Proof.
  intros Ha Ho Hadv.
  destruct (admissible_stages works Ha) as (m & pm & s & visited & l' & Hix & Ho' & Hi & Hs & Hw & Hv & Hp).
  assert (l = l') as <- by by eapply total_order_determined.
  apply derive_stages. split_and!; [by apply mixed_sessions_None, Ha|apply Ha|].
  exists m, pm, s, visited. split_and!; [done..|].
  apply (targets_advance_check _ _ _ Hix); [|apply Ha| |done].
  - by eapply total_order_NoDup; [apply Ha|].
  - intros w p. by apply total_order_target_in.
Qed.

(** What the derivation promises to the components that call it. *)
Class DerivesTotalOrder
    (derive : list AcceptedInputQueueWork -> result AcceptedInputQueueOrderError (list TurnId)) : Prop := {
  derives_sound works l :
    derive works = Ok l -> admissible_facts works /\ total_order works l /\ targets_advance works l;
  derives_complete works l :
    admissible_facts works -> total_order works l -> targets_advance works l -> derive works = Ok l;
}.

#[export] Instance derive_accepted_input_derives : DerivesTotalOrder derive_accepted_input_total_order.
Proof. split; [exact derive_sound|exact derive_complete]. Qed.

(** ** Properties *)

(** C1. The derivation returns a list of turns exactly when the facts are
    admissible (one session, distinct turns and positions, every interrupt
    accepted after the one turn it interrupts, at most one interrupt per turn),
    the list is a total order of them (every turn once, each interrupt
    immediately after its target, ordinary work first-in first-out) and
    interrupt targets advance through it in acceptance order. *)
Theorem derive_total_order_correct works l :
  derive_accepted_input_total_order works = Ok l <->
  admissible_facts works /\ total_order works l /\ targets_advance works l.
Proof. split; [apply derive_sound|]. intros (? & ? & ?). by apply derive_complete. Qed.

(** The returned order is the only total order of the facts: no other
    arrangement keeps interrupts adjacent and ordinary work first-in
    first-out. *)
Theorem derive_total_order_unique works l :
  derive_accepted_input_total_order works = Ok l ->
  forall l', total_order works l' <-> l' = l.
Proof.
  intros (Ha & Ho & _)%derive_sound l'. split; [|by intros ->].
  intros Ho'. by eapply total_order_determined.
Qed.

(** The result, error or order, does not depend on the order in which the
    complete fact set is supplied. *)
Theorem derive_order_independent works works' :
  works ≡ₚ works' ->
  derive_accepted_input_total_order works = derive_accepted_input_total_order works'.
Proof.
  intros Hp. unfold derive_accepted_input_total_order.
  assert (mixed_sessions works = mixed_sessions works') as ->.
  { unfold mixed_sessions. do 2 f_equal. by rewrite Hp. }
  destruct (mixed_sessions works') as [[? ?]|]; [done|].
  assert (work_turn <$> sort_by_key work_turn works = work_turn <$> sort_by_key work_turn works') as Ht.
  { by apply sort_by_key_fmap_proper. }
  rewrite Ht. destruct (adjacent_duplicate _) as [t|] eqn:Hd; [done|].
  rewrite (sort_by_key_proper work_turn works works'); [done| |done].
  rewrite <- Ht in Hd. apply adjacent_duplicate_None in Hd; [|apply sort_by_key_fmap_sorted].
  by rewrite sort_by_key_perm in Hd.
Qed.

(** For admissible facts a total order always exists and the derivation
    finds it; the only error it can report is that a later interrupt targets
    an earlier turn of that order, and then it does. *)
Theorem derive_admissible works :
  admissible_facts works ->
  exists l, total_order works l /\
    (derive_accepted_input_total_order works = Ok l \/
     exists a b c d, ~ targets_advance works l /\
       derive_accepted_input_total_order works =
         Err (InterruptPredecessorChronologyReversed a b c d)).
Proof.
  intros Ha.
  destruct (admissible_stages works Ha) as (m & pm & s & visited & l & Hix & Ho & Hi & Hs & Hw & Hv & Hp).
  exists l. split; [done|].
  destruct (derive_accepted_input_total_order works) as [l'|e] eqn:Hd.
  { left. apply derive_sound in Hd as (_ & Ho' & _). f_equal. by eapply total_order_determined. }
  right. assert (~ targets_advance works l) as Hna.
  { intros Hadv. pose proof (derive_complete works l Ha Ho Hadv). congruence. }
  unfold derive_accepted_input_total_order in Hd.
  rewrite (proj2 (mixed_sessions_None works)) in Hd by apply Ha.
  destruct (adjacent_duplicate _) as [t|] eqn:Hdup.
  { exfalso. rewrite (proj2 (adjacent_duplicate_None _ (sort_by_key_fmap_sorted work_turn works))) in Hdup;
      [done|]. rewrite sort_by_key_perm. apply Ha. }
  rewrite Hi in Hd. simpl in Hd. rewrite Hs in Hd. simpl in Hd. rewrite Hw in Hd. simpl in Hd.
  rewrite Hv in Hd. simpl in Hd. rewrite Hp in Hd. simpl in Hd.
  apply bind_Err in Hd as [Hd|(r & _ & [=])].
  destruct (check_chronology_error _ _ _ _ _ Hd) as (a & b & c & d & ->). eauto 10.
Qed.

(** ** Witnesses *)

(** Two ordinary turns; the first is interrupted, and so is the interrupt. *)
Definition sample_works : list AcceptedInputQueueWork :=
  [mkWork (from_uuid 1) (from_uuid 7) (ordinary (mkPosition 1));
   mkWork (from_uuid 1) (from_uuid 3) (ordinary (mkPosition 2));
   mkWork (from_uuid 1) (from_uuid 5) (interrupt_immediately_after (mkPosition 3) (from_uuid 7));
   mkWork (from_uuid 1) (from_uuid 4) (interrupt_immediately_after (mkPosition 4) (from_uuid 5))].

Definition sample_order : list TurnId := [from_uuid 7; from_uuid 5; from_uuid 4; from_uuid 3].

Lemma sample_derives : derive_accepted_input_total_order sample_works = Ok sample_order.
Proof. vm_compute. reflexivity. Qed.

Lemma derive_total_order_unique_witness :
  derive_accepted_input_total_order sample_works = Ok sample_order /\
  (total_order sample_works sample_order <-> sample_order = sample_order).
Proof.
  split; [vm_compute; reflexivity|].
  apply (derive_total_order_unique sample_works sample_order). vm_compute. reflexivity.
Defined.

Lemma derive_order_independent_witness :
  derive_accepted_input_total_order sample_works =
  derive_accepted_input_total_order (reverse sample_works).
Proof. apply (derive_order_independent sample_works (reverse sample_works)). by rewrite reverse_Permutation. Defined.

Lemma derive_admissible_witness :
  exists l, total_order sample_works l /\
    (derive_accepted_input_total_order sample_works = Ok l \/
     exists a b c d, ~ targets_advance sample_works l /\
       derive_accepted_input_total_order sample_works =
         Err (InterruptPredecessorChronologyReversed a b c d)).
Proof. apply (derive_admissible sample_works). apply (derive_sound _ _ sample_derives). Defined.
