(* ===== verification/Lifecycle.v ===== *)
(** * Durable session lifecycle

    Model of [crates/domain/src/session_lifecycle.rs] and of the agency
    algebra of [crates/domain/src/actor.rs]: the eight session states with
    their typed detail, the closed terminal outcomes, the transition algebra
    and the deadlines. *)

From S2P Require Import Prelude.

(** ** Agency *)

Record ProgramActor := mkProgramActor { program_actor_run : ProgramRunId }.

Inductive Actor :=
| User
| Core
| Model (turn : TurnId)
| Program (run : ProgramActor)
| Recovery
| Tool (request : ToolRequestId).

Inductive DispatchingModule :=
| RepositoryWatchModule
| CommissionedDispatchModule.

Inductive ModuleDispatch :=
| RepositoryWatch (dispatch : RepoWatchDispatchId)
| Commissioned (dispatch : CommissionedDispatchId).

Definition dispatch_module (d : ModuleDispatch) : DispatchingModule :=
  match d with
  | RepositoryWatch _ => RepositoryWatchModule
  | Commissioned _ => CommissionedDispatchModule
  end.

Inductive CoreAgency :=
| DaemonAgency
| ModelAgency (turn : TurnId)
| ToolAgency (request : ToolRequestId).

Inductive LifecycleActor :=
| CoreActor (agency : CoreAgency)
| OperatorActor
| ModuleActor (module : DispatchingModule)
| WatchdogActor.

Definition classify (actor : Actor) : option LifecycleActor :=
  match actor with
  | User => Some OperatorActor
  | Core => Some (CoreActor DaemonAgency)
  | Recovery => Some WatchdogActor
  | Model turn => Some (CoreActor (ModelAgency turn))
  | Tool request => Some (CoreActor (ToolAgency request))
  | Program _ => None
  end.

#[export] Instance DispatchingModule_eq_dec : EqDecision DispatchingModule.
Proof. solve_decision. Defined.
#[export] Instance CoreAgency_eq_dec : EqDecision CoreAgency.
Proof. solve_decision. Defined.
#[export] Instance LifecycleActor_eq_dec : EqDecision LifecycleActor.
Proof. solve_decision. Defined.

(** ** Ownership *)

Inductive SessionOwnership := Owned | Unmonitored.

Definition is_owned (o : SessionOwnership) : bool :=
  match o with Owned => true | Unmonitored => false end.

Inductive SessionOwnershipTransition := CreatedOwned | CreatedUnmonitored | Adopted | Released.

Definition ownership (t : SessionOwnershipTransition) : SessionOwnership :=
  match t with
  | CreatedOwned | Adopted => Owned
  | CreatedUnmonitored | Released => Unmonitored
  end.

(** ** State detail *)

Inductive SessionWaitKind :=
| ApprovalKind | ExternalKind | ChildKind | ProviderRetryKind | PipelineKind | SchedulerKind.

Inductive SessionWaker :=
| ApprovalDecision | ExternalRecheck | ChildSettlement | ProviderBackoff | PipelineDrain
| SchedulerSweep.

Inductive SessionWait :=
| ApprovalWait
| ExternalWait
| ChildWait (session : SessionId)
| ProviderRetryWait
| PipelineWait
| SchedulerWait.

Definition wait_kind (w : SessionWait) : SessionWaitKind :=
  match w with
  | ApprovalWait => ApprovalKind
  | ExternalWait => ExternalKind
  | ChildWait _ => ChildKind
  | ProviderRetryWait => ProviderRetryKind
  | PipelineWait => PipelineKind
  | SchedulerWait => SchedulerKind
  end.

Definition waker (w : SessionWait) : SessionWaker :=
  match w with
  | ApprovalWait => ApprovalDecision
  | ExternalWait => ExternalRecheck
  | ChildWait _ => ChildSettlement
  | ProviderRetryWait => ProviderBackoff
  | PipelineWait => PipelineDrain
  | SchedulerWait => SchedulerSweep
  end.

Inductive SessionRecoveryOperation := ModelCallRecovery | ToolRecovery | RunnerRecovery.

Inductive SessionRetryableCause :=
| ProviderTransient | ProviderQuotaExhausted | ProviderOverloaded | InfrastructureFailure
| RetryBudgetExhaustedCause.

Inductive SessionStructuralCause :=
| ContextCompactionWall | ContextHeadroomExhausted | BrokenToolchain | ModerationBlock.

Inductive SessionRetirementCause := AdmissionDeadlineExpired | StrandedQueuedTurn.

Inductive SessionFailureCause :=
| Retryable (cause : SessionRetryableCause)
| Structural (cause : SessionStructuralCause).

Inductive SessionParkCause :=
| RetryBudgetExhausted
| StructuralFailure
| UnknownFailure
| ActiveStallDeadlineExpired
| WaitingDeadlineExpired
| RecoveringDeadlineExpired
| OperatorHold
| ModulePark.

Definition admits_standing (c : SessionParkCause) (standing : option SessionFailureCause) : bool :=
  match c, standing with
  | RetryBudgetExhausted, Some (Retryable _) => true
  | StructuralFailure, Some (Structural _) => true
  | (RetryBudgetExhausted | StructuralFailure), _ => false
  | _, None => true
  | _, Some _ => false
  end.

Inductive SessionParkResponder :=
| OperatorResponder
| ModuleResponder (module : DispatchingModule).

Inductive StopStickiness := Sticky | Redispatchable.

Inductive SessionTerminalOutcome :=
| AchievedVerified
| AchievedDeclared
| FailedRetryable (cause : SessionRetryableCause)
| FailedStructural (cause : SessionStructuralCause)
| FailedUnknown
| Stopped (sticky : StopStickiness)
| SupersededBy (by_session : option SessionId)
| Abandoned
| Retired (cause : SessionRetirementCause).

Inductive SessionClosureOutcome :=
| ClosureFailedRetryable | ClosureFailedStructural | ClosureFailedUnknown | ClosureStopped
| ClosureSuperseded | ClosureAbandoned | ClosureRetired.

Definition closure_outcome (o : SessionTerminalOutcome) : option SessionClosureOutcome :=
  match o with
  | AchievedVerified | AchievedDeclared => None
  | Stopped _ => Some ClosureStopped
  | FailedRetryable _ => Some ClosureFailedRetryable
  | FailedStructural _ => Some ClosureFailedStructural
  | FailedUnknown => Some ClosureFailedUnknown
  | SupersededBy _ => Some ClosureSuperseded
  | Abandoned => Some ClosureAbandoned
  | Retired _ => Some ClosureRetired
  end.

Definition forbids_further_escalation (o : SessionTerminalOutcome) : bool :=
  match o with SupersededBy _ => true | _ => false end.

Definition releases_resources (_ : SessionTerminalOutcome) : bool := true.

(** [GoalBlockedReasonKind] of [goal.rs], which the blocked state carries. *)
Inductive GoalBlockedReasonKind :=
| UserInputRequired
| ExternalChangeRequired
| AuthorizationRequired
| ExecutionFailureReason
| FinishCheckFailed.

#[export] Instance SessionWait_eq_dec : EqDecision SessionWait.
Proof. solve_decision. Defined.
#[export] Instance SessionRecoveryOperation_eq_dec : EqDecision SessionRecoveryOperation.
Proof. solve_decision. Defined.
#[export] Instance SessionRetryableCause_eq_dec : EqDecision SessionRetryableCause.
Proof. solve_decision. Defined.
#[export] Instance SessionStructuralCause_eq_dec : EqDecision SessionStructuralCause.
Proof. solve_decision. Defined.
#[export] Instance SessionRetirementCause_eq_dec : EqDecision SessionRetirementCause.
Proof. solve_decision. Defined.
#[export] Instance SessionFailureCause_eq_dec : EqDecision SessionFailureCause.
Proof. solve_decision. Defined.
#[export] Instance SessionParkCause_eq_dec : EqDecision SessionParkCause.
Proof. solve_decision. Defined.
#[export] Instance SessionParkResponder_eq_dec : EqDecision SessionParkResponder.
Proof. solve_decision. Defined.
#[export] Instance StopStickiness_eq_dec : EqDecision StopStickiness.
Proof. solve_decision. Defined.
#[export] Instance SessionTerminalOutcome_eq_dec : EqDecision SessionTerminalOutcome.
Proof. solve_decision. Defined.
#[export] Instance SessionClosureOutcome_eq_dec : EqDecision SessionClosureOutcome.
Proof. solve_decision. Defined.
#[export] Instance GoalBlockedReasonKind_eq_dec : EqDecision GoalBlockedReasonKind.
Proof. solve_decision. Defined.

(** ** The state machine *)

Inductive SessionLifecycleState :=
| Created
| Dispatched
| Active
| Waiting (wait : SessionWait)
| Recovering (operation : SessionRecoveryOperation)
| Blocked (reason : GoalBlockedReasonKind) (cycle : N)
| Parked (cause : SessionParkCause) (responder : SessionParkResponder)
    (standing : option SessionFailureCause)
| Terminal (outcome : SessionTerminalOutcome).

#[export] Instance SessionLifecycleState_eq_dec : EqDecision SessionLifecycleState.
Proof. solve_decision. Defined.

Definition is_terminal (s : SessionLifecycleState) : bool :=
  match s with Terminal _ => true | _ => false end.

Definition is_parked (s : SessionLifecycleState) : bool :=
  match s with Parked _ _ _ => true | _ => false end.

Definition is_mapped (s : SessionLifecycleState) : bool :=
  match s with
  | Active | Waiting _ | Recovering _ | Blocked _ _ => true
  | Created | Dispatched | Parked _ _ _ | Terminal _ => false
  end.

Definition admits_outcome (s : SessionLifecycleState) (outcome : SessionTerminalOutcome) : bool :=
  match outcome with
  | Retired cause =>
      match s, cause with
      | (Created | Dispatched), AdmissionDeadlineExpired => true
      | Dispatched, StrandedQueuedTurn => true
      | Created, StrandedQueuedTurn => false
      | _, _ => false
      end
  | AchievedVerified | AchievedDeclared | FailedRetryable _ | FailedStructural _ | FailedUnknown
  | Stopped _ | SupersededBy _ | Abandoned => negb (is_terminal s)
  end.

Definition admits (s next : SessionLifecycleState) : bool :=
  match s, next with
  | Parked _ _ _, (Created | Dispatched) => true
  | Terminal _, _ => false
  | _, Created => false
  | _, Terminal outcome => admits_outcome s outcome
  | Created, Dispatched => true
  | (Created | Dispatched), Parked (ModulePark | UnknownFailure) _ _ => true
  | Created, _ => false
  | Dispatched, Parked _ _ _ => false
  | (Dispatched | Parked _ _ _), _ => is_mapped next
  | _, Parked _ _ _ => is_mapped s
  | _, _ => is_mapped s && is_mapped next
  end.

Record SessionLifecycleTransitionError := mkTransitionError {
  error_from : SessionLifecycleState;
  error_to : SessionLifecycleState;
}.

Definition transition (s next : SessionLifecycleState) :
    result SessionLifecycleTransitionError SessionLifecycleState :=
  if admits s next then Ok next else Err (mkTransitionError s next).

(** ** Deadlines *)

Inductive SessionDeadlineExpiry := Retire | Park.

Inductive SessionDeadlineKind := AdmissionDeadline | ActiveStallDeadline | WaitingDeadline.

Definition on_expiry (k : SessionDeadlineKind) : SessionDeadlineExpiry :=
  match k with
  | AdmissionDeadline => Retire
  | ActiveStallDeadline | WaitingDeadline => Park
  end.

Definition for_state (s : SessionLifecycleState) : option SessionDeadlineKind :=
  match s with
  | Created | Dispatched => Some AdmissionDeadline
  | Active | Recovering _ => Some ActiveStallDeadline
  | Waiting _ => Some WaitingDeadline
  | Blocked _ _ | Parked _ _ _ | Terminal _ => None
  end.

(** ** Command principals

    [CommandPrincipal] of [session_lifecycle_command.rs]. *)

Inductive CommandPrincipal :=
| CorePrincipal
| OperatorPrincipal
| ModulePrincipal (module : DispatchingModule)
| WatchdogPrincipal.

Definition for_actor (actor : Actor) : option CommandPrincipal :=
  match actor with
  | User => Some OperatorPrincipal
  | Core => Some CorePrincipal
  | Recovery => Some WatchdogPrincipal
  | Model _ | Tool _ => Some CorePrincipal
  | Program _ => None
  end.

Definition classify_command (p : CommandPrincipal) (actor : option Actor) : option LifecycleActor :=
  match p, actor with
  | ModulePrincipal module, _ => Some (ModuleActor module)
  | _, Some actor => classify actor
  | CorePrincipal, None => Some (CoreActor DaemonAgency)
  | OperatorPrincipal, None => Some OperatorActor
  | WatchdogPrincipal, None => Some WatchdogActor
  end.

(** ** Specification: the edges of the lifecycle *)

Inductive admission_state : SessionLifecycleState -> Prop :=
| admission_created : admission_state Created
| admission_dispatched : admission_state Dispatched.

(** The states the turn and goal machines below decide. *)
Inductive mapped_state : SessionLifecycleState -> Prop :=
| mapped_active : mapped_state Active
| mapped_waiting w : mapped_state (Waiting w)
| mapped_recovering o : mapped_state (Recovering o)
| mapped_blocked r c : mapped_state (Blocked r c).

Inductive retirement : SessionLifecycleState -> SessionRetirementCause -> Prop :=
| retire_admission s : admission_state s -> retirement s AdmissionDeadlineExpired
| retire_stranded : retirement Dispatched StrandedQueuedTurn.

Inductive lifecycle_edge : SessionLifecycleState -> SessionLifecycleState -> Prop :=
| edge_dispatch : lifecycle_edge Created Dispatched
| edge_first_activity s : mapped_state s -> lifecycle_edge Dispatched s
| edge_follow_mapping s s' : mapped_state s -> mapped_state s' -> lifecycle_edge s s'
| edge_park s c r f : mapped_state s -> lifecycle_edge s (Parked c r f)
| edge_park_admission s c r f :
    admission_state s -> c = ModulePark \/ c = UnknownFailure -> lifecycle_edge s (Parked c r f)
| edge_unpark_mapped c r f s : mapped_state s -> lifecycle_edge (Parked c r f) s
| edge_unpark_admission c r f s : admission_state s -> lifecycle_edge (Parked c r f) s
| edge_retire s cause : retirement s cause -> lifecycle_edge s (Terminal (Retired cause))
| edge_close s outcome :
    (forall o, s <> Terminal o) -> (forall c, outcome <> Retired c) ->
    lifecycle_edge s (Terminal outcome).

Create HintDb lifecycle.
#[export] Hint Constructors admission_state mapped_state retirement lifecycle_edge : lifecycle.

Lemma is_mapped_spec s : is_mapped s = true <-> mapped_state s.
Proof. split; [destruct s; simpl; auto with lifecycle; done|by destruct 1]. Qed.

Lemma admits_edge s s' : admits s s' = true <-> lifecycle_edge s s'.
Proof.
  split.
  - destruct s, s' as [| | | | | | |[]]; simpl; try done; auto with lifecycle;
      repeat case_match; simplify_eq/=; auto with lifecycle; try done;
      intros _; apply edge_close; by intros ?.
  - destruct 1 as [|s Hs|s s' Hs Hs'|s c r f Hs|s c r f Hs Hc|c r f s Hs|c r f s Hs|s c Hs|s o Hs Ho];
      try destruct Hs; try destruct Hs'; try done.
    + by destruct Hc as [->| ->].
    + by destruct Hc as [->| ->].
    + by destruct H.
    + destruct s; simpl; try (by destruct o; simpl; try destruct (Ho _ eq_refl)).
      by destruct (Hs _ eq_refl).
Qed.

(** ** Histories: sequences of checked transitions *)

Definition lifecycle_history (nexts : list SessionLifecycleState) :
    result SessionLifecycleTransitionError SessionLifecycleState :=
  try_fold transition nexts Created.

Lemma transition_Ok s next s' : transition s next = Ok s' <-> s' = next /\ lifecycle_edge s next.
Proof. unfold transition. rewrite <- admits_edge. destruct (admits s next); naive_solver. Qed.

Lemma terminal_no_edge o s : ~ lifecycle_edge (Terminal o) s.
Proof. rewrite <- admits_edge. by destruct s. Qed.

(** [s] lets the first activity happen. *)
Definition opens_activity (s : SessionLifecycleState) : Prop :=
  s = Dispatched \/ exists c r f, s = Parked c r f.

(** ** Properties *)

(** The transition algebra is exactly the lifecycle's edges: dispatch,
    first activity, following the turn mapping, parking (from an admission
    state only on a module park or an unclassified failure), unparking,
    retirement from the admission states, and closing any open session. *)
Theorem lifecycle_admits_exactly_edges s s' : admits s s' = true <-> lifecycle_edge s s'.
Proof. apply admits_edge. Qed.

(** A terminal session never moves: in every history of checked
    transitions, a terminal state is the last one. *)
Theorem lifecycle_terminal_is_final before o after s :
  lifecycle_history (before ++ Terminal o :: after) = Ok s -> after = [] /\ s = Terminal o.
Proof.
  unfold lifecycle_history. rewrite try_fold_app, bind_Ok. intros (s1 & _ & H). simpl in H.
  apply bind_Ok in H as (s2 & [-> _]%transition_Ok & H).
  destruct after as [|x after]; by simplify_eq/=.
Qed.

(** A session does no work before it was dispatched or parked: in every
    history, a state the turn mapping decides comes after one of these. *)
Theorem lifecycle_work_follows_dispatch before w after s :
  lifecycle_history (before ++ w :: after) = Ok s -> mapped_state w ->
  Exists opens_activity before.
Proof.
  intros H Hw.
  assert (forall l s0 s1, try_fold transition l s0 = Ok s1 -> s0 = Created ->
    Exists opens_activity l \/ s1 = Created \/ exists o, s1 = Terminal o) as Hinv.
  { induction l as [|x l IH] using rev_ind; intros s0 s1 Hl ->; [simplify_eq/=; auto|].
    rewrite try_fold_app, bind_Ok in Hl. destruct Hl as (s2 & Hl & Hx). simpl in Hx.
    apply bind_Ok in Hx as (s3 & [-> Hx]%transition_Ok & [= <-]).
    rewrite Exists_app, Exists_cons. unfold opens_activity at 2.
    destruct (IH _ _ Hl eq_refl) as [?|[->|[o ->]]]; [auto| |by apply terminal_no_edge in Hx].
    inversion Hx; subst; try (by match goal with Hm : mapped_state Created |- _ => inversion Hm end);
      eauto 10. }
  unfold lifecycle_history in H. rewrite try_fold_app, bind_Ok in H.
  destruct H as (s1 & Hb & H). simpl in H. apply bind_Ok in H as (s2 & [-> Hx]%transition_Ok & _).
  destruct (Hinv _ _ _ Hb eq_refl) as [?|[->|[o ->]]]; [done| |by apply terminal_no_edge in Hx].
  inversion Hx; subst; try (by inversion Hw).
  by match goal with Hm : mapped_state Created |- _ => inversion Hm end.
Qed.

(** Every armed deadline can fire: the state that arms it admits the
    transition its expiry demands, retirement for an admission deadline and
    parking with any cause otherwise; only blocked, parked and terminal states
    arm none. *)
Theorem lifecycle_deadline_can_fire s :
  match for_state s with
  | Some k =>
      match on_expiry k with
      | Retire => transition s (Terminal (Retired AdmissionDeadlineExpired)) =
                    Ok (Terminal (Retired AdmissionDeadlineExpired))
      | Park => forall c r f, transition s (Parked c r f) = Ok (Parked c r f)
      end
  | None => is_terminal s = true \/ is_parked s = true \/ exists r c, s = Blocked r c
  end.
Proof. destruct s; simpl; eauto. Qed.

(** No session is stuck: every state a history reaches is terminal or can
    close with any outcome but retirement. *)
Theorem lifecycle_can_always_close nexts s outcome :
  lifecycle_history nexts = Ok s -> is_terminal s = false -> (forall c, outcome <> Retired c) ->
  lifecycle_history (nexts ++ [Terminal outcome]) = Ok (Terminal outcome).
Proof.
  unfold lifecycle_history. intros H Hs Ho. rewrite try_fold_app, H. simpl.
  rewrite (proj2 (transition_Ok s (Terminal outcome) (Terminal outcome))); [done|].
  split; [done|]. apply edge_close; [|done]. by intros o ->.
Qed.

(** ** Witnesses *)

Definition sample_history : list SessionLifecycleState :=
  [Dispatched; Active; Waiting ApprovalWait; Parked OperatorHold OperatorResponder None; Active].

Lemma lifecycle_terminal_is_final_witness :
  lifecycle_history (sample_history ++ [Terminal AchievedVerified]) = Ok (Terminal AchievedVerified) /\
  @nil SessionLifecycleState = [] /\ Terminal AchievedVerified = Terminal AchievedVerified.
Proof.
  split; [reflexivity|].
  apply (lifecycle_terminal_is_final sample_history AchievedVerified []). reflexivity.
Defined.

Lemma lifecycle_work_follows_dispatch_witness :
  lifecycle_history [Dispatched; Active] = Ok Active /\ Exists opens_activity [Dispatched].
Proof.
  split; [reflexivity|].
  apply (lifecycle_work_follows_dispatch [Dispatched] Active [] Active); [reflexivity|constructor].
Defined.

Lemma lifecycle_can_always_close_witness :
  lifecycle_history (sample_history ++ [Terminal (Stopped Sticky)]) = Ok (Terminal (Stopped Sticky)).
Proof. apply (lifecycle_can_always_close sample_history Active); [reflexivity..|by intros ?]. Defined.
