(* ===== verification/Goal.v ===== *)
(** * Commissioned goals

    Model of [crates/domain/src/goal.rs]: the immutable statement generations
    of a session's goal, the transitions that append events to its lineage,
    and the checked replay of a stored event history. *)

From stdpp Require Import strings.
From S2P Require Import Prelude Lifecycle.

(** ** Text values *)

Definition MAX_GOAL_TEXT_UTF8_BYTES : N := 1048576.

Inductive GoalTextError :=
| GoalTextEmpty
| GoalTextContainsNull
| GoalTextOversized (utf8_byte_length : N).

Definition validate_goal_text (value : string) : result GoalTextError unit :=
  if bool_decide (value = EmptyString) then Err GoalTextEmpty
  else if contains_null value then Err GoalTextContainsNull
  else if (MAX_GOAL_TEXT_UTF8_BYTES <? utf8_len value)%N
  then Err (GoalTextOversized (utf8_len value))
  else Ok tt.

(** [goal_text!] declares one newtype over admitted text per role. *)
Inductive goal_text_role :=
| StatementText | NeedText | GuidanceText | ReportText | FinishConditionText.

Record goal_text (r : goal_text_role) := mkGoalText { goal_text_str : string }.
Arguments mkGoalText {r} _.
Arguments goal_text_str {r} _.

Abbreviation GoalStatement := (goal_text StatementText).
Abbreviation GoalNeed := (goal_text NeedText).
Abbreviation GoalGuidance := (goal_text GuidanceText).
Abbreviation GoalReport := (goal_text ReportText).

Definition goal_text_try_new (r : goal_text_role) (value : string) :
    result GoalTextError (goal_text r) :=
  _ ← validate_goal_text value; Ok (mkGoalText value).

#[export] Instance goal_text_eq_dec r : EqDecision (goal_text r).
Proof. solve_decision. Defined.

(** ** Positions *)

Record GoalGeneration := mkGeneration { generation_get : positive }.
Record GoalEventOrdinal := mkOrdinal { ordinal_get : positive }.

#[export] Instance GoalGeneration_eq_dec : EqDecision GoalGeneration.
Proof. solve_decision. Defined.
#[export] Instance GoalEventOrdinal_eq_dec : EqDecision GoalEventOrdinal.
Proof. solve_decision. Defined.

Definition generation_first : GoalGeneration := mkGeneration 1.
Definition generation_successor (g : GoalGeneration) : option GoalGeneration :=
  mkGeneration <$> nonzero_u64_checked_add (generation_get g) 1.

Definition ordinal_first : GoalEventOrdinal := mkOrdinal 1.
Definition ordinal_successor (o : GoalEventOrdinal) : option GoalEventOrdinal :=
  mkOrdinal <$> nonzero_u64_checked_add (ordinal_get o) 1.

(** ** Provenance *)

Record GoalUserProvenance := mkUserProvenance { provenance_command : DurableCommandId }.

Record GoalReportRef := mkReportRef {
  report_turn : TurnId;
  report_tool_request : option ToolRequestId;
}.

Record GoalModelProvenance := mkModelProvenance {
  model_turn : TurnId;
  model_tool_request : ToolRequestId;
}.

Definition model_report_ref (p : GoalModelProvenance) : GoalReportRef :=
  mkReportRef (model_turn p) (Some (model_tool_request p)).

Record GoalSchedulerProvenance := mkSchedulerProvenance { scheduler_turn : TurnId }.

(** Values of [repo_watch/values.rs] that an achievement only carries. *)
Record CommitSha := mkCommitSha { commit_sha : string }.
Record ReviewThreadId := mkReviewThreadId { review_thread_id : string }.

Inductive GoalAchievementProvenance :=
| AchievedByModel (model : GoalModelProvenance)
| AchievedVerifiedBy (turn : TurnId) (head_sha : CommitSha)
    (resolved_thread_ids : list ReviewThreadId).

Definition achievement_report_ref (p : GoalAchievementProvenance) : GoalReportRef :=
  match p with
  | AchievedByModel model => model_report_ref model
  | AchievedVerifiedBy turn _ _ => mkReportRef turn None
  end.

Inductive GoalModelBlockedReasonKind :=
| ModelUserInputRequired
| ModelExternalChangeRequired
| ModelAuthorizationRequired.

(** [From<GoalModelBlockedReasonKind> for GoalBlockedReasonKind] *)
Definition from_model_reason (r : GoalModelBlockedReasonKind) : GoalBlockedReasonKind :=
  match r with
  | ModelUserInputRequired => UserInputRequired
  | ModelExternalChangeRequired => ExternalChangeRequired
  | ModelAuthorizationRequired => AuthorizationRequired
  end.

Inductive GoalBlockProvenance :=
| BlockByModel (reason : GoalModelBlockedReasonKind) (provenance : GoalModelProvenance)
| BlockExecutionFailure (provenance : GoalSchedulerProvenance)
| BlockFinishCheck (provenance : GoalModelProvenance).

Definition reason_kind (b : GoalBlockProvenance) : GoalBlockedReasonKind :=
  match b with
  | BlockByModel ModelUserInputRequired _ => UserInputRequired
  | BlockByModel ModelExternalChangeRequired _ => ExternalChangeRequired
  | BlockByModel ModelAuthorizationRequired _ => AuthorizationRequired
  | BlockExecutionFailure _ => ExecutionFailureReason
  | BlockFinishCheck _ => FinishCheckFailed
  end.

(** ** States, generations and events *)

Inductive GoalState :=
| GoalPursuing
| GoalBlocked (reason : GoalBlockedReasonKind) (need : GoalNeed)
| GoalAchieved (report : GoalReportRef)
| GoalUserStopped
| GoalSuperseded (by_generation : GoalGeneration)
| GoalSessionClosed (outcome : SessionClosureOutcome).

Definition is_pursuing (s : GoalState) : bool :=
  match s with GoalPursuing => true | _ => false end.

Definition is_blocked (s : GoalState) : bool :=
  match s with GoalBlocked _ _ => true | _ => false end.

Definition is_open (s : GoalState) : bool :=
  match s with GoalPursuing | GoalBlocked _ _ => true | _ => false end.

Definition admits_later_commission (s : GoalState) : bool :=
  match s with GoalAchieved _ | GoalUserStopped => true | _ => false end.

Record GoalGenerationSnapshot := mkSnapshot {
  snapshot_generation : GoalGeneration;
  snapshot_statement : GoalStatement;
  snapshot_state : GoalState;
}.

Inductive GoalEventKind :=
| EventCommissioned (statement : GoalStatement) (provenance : GoalUserProvenance)
| EventBlocked (block : GoalBlockProvenance) (need : GoalNeed)
| EventResumed (guidance : option GoalGuidance) (provenance : GoalUserProvenance)
| EventAchieved (report : GoalReport) (provenance : GoalAchievementProvenance)
| EventUserStopped (provenance : GoalUserProvenance)
| EventSuperseded (replacement_statement : GoalStatement) (provenance : GoalUserProvenance)
| EventSessionClosed (outcome : SessionClosureOutcome) (provenance : LifecycleActor).

Record GoalEvent := mkEvent {
  event_ordinal : GoalEventOrdinal;
  event_generation : GoalGeneration;
  event_kind : GoalEventKind;
}.

Record Goal := mkGoal {
  goal_session : SessionId;
  goal_generations : list GoalGenerationSnapshot;
  goal_events : list GoalEvent;
}.

#[export] Instance GoalUserProvenance_eq_dec : EqDecision GoalUserProvenance.
Proof. solve_decision. Defined.
#[export] Instance GoalModelProvenance_eq_dec : EqDecision GoalModelProvenance.
Proof. solve_decision. Defined.
#[export] Instance GoalSchedulerProvenance_eq_dec : EqDecision GoalSchedulerProvenance.
Proof. solve_decision. Defined.
#[export] Instance CommitSha_eq_dec : EqDecision CommitSha.
Proof. solve_decision. Defined.
#[export] Instance ReviewThreadId_eq_dec : EqDecision ReviewThreadId.
Proof. solve_decision. Defined.
#[export] Instance GoalAchievementProvenance_eq_dec : EqDecision GoalAchievementProvenance.
Proof. solve_decision. Defined.
#[export] Instance GoalModelBlockedReasonKind_eq_dec : EqDecision GoalModelBlockedReasonKind.
Proof. solve_decision. Defined.
#[export] Instance GoalBlockProvenance_eq_dec : EqDecision GoalBlockProvenance.
Proof. solve_decision. Defined.
#[export] Instance GoalEventKind_eq_dec : EqDecision GoalEventKind.
Proof. solve_decision. Defined.
#[export] Instance GoalEvent_eq_dec : EqDecision GoalEvent.
Proof. solve_decision. Defined.

(** ** Transitions *)

Inductive GoalTransitionFailure :=
| RequiresPursuing
| RequiresBlocked
| RequiresPursuingOrBlocked
| RequiresNoActiveGoal
| GenerationExhausted
| EventOrdinalExhausted.

Record GoalTransitionError := mkGoalError {
  error_goal : Goal;
  error_failure : GoalTransitionFailure;
}.

Abbreviation goal_exec := (exec GoalTransitionError).

Definition commission (session : SessionId) (statement : GoalStatement)
    (provenance : GoalUserProvenance) : Goal :=
  {| goal_session := session;
     goal_generations := [mkSnapshot generation_first statement GoalPursuing];
     goal_events := [mkEvent ordinal_first generation_first (EventCommissioned statement provenance)] |}.

Definition current (g : Goal) : goal_exec GoalGenerationSnapshot :=
  last_or_panic (goal_generations g).

Definition next_ordinal (g : Goal) : goal_exec GoalEventOrdinal :=
  event ← last_or_panic (goal_events g);
  exec_ok_or (ordinal_successor (event_ordinal event)) (mkGoalError g EventOrdinalExhausted).

(** [self.current_mut().state = state] *)
Definition set_current_state (state : GoalState) (g : Goal) : Goal :=
  {| goal_session := goal_session g;
     goal_generations :=
       alter (fun s => mkSnapshot (snapshot_generation s) (snapshot_statement s) state)
         (pred (length (goal_generations g))) (goal_generations g);
     goal_events := goal_events g |}.

(** [self.generations.push(snapshot)] *)
Definition push_generation (snapshot : GoalGenerationSnapshot) (g : Goal) : Goal :=
  {| goal_session := goal_session g;
     goal_generations := goal_generations g ++ [snapshot];
     goal_events := goal_events g |}.

(** [self.events.push(event)] *)
Definition push_event (event : GoalEvent) (g : Goal) : Goal :=
  {| goal_session := goal_session g;
     goal_generations := goal_generations g;
     goal_events := goal_events g ++ [event] |}.

Definition commission_successor (g : Goal) (statement : GoalStatement)
    (provenance : GoalUserProvenance) : goal_exec Goal :=
  cur ← current g;
  if negb (admits_later_commission (snapshot_state cur))
  then Rejected (mkGoalError g RequiresNoActiveGoal)
  else
    ordinal ← next_ordinal g;
    cur ← current g;
    generation ← exec_ok_or (generation_successor (snapshot_generation cur))
                   (mkGoalError g GenerationExhausted);
    Returned
      (push_event (mkEvent ordinal generation (EventCommissioned statement provenance))
        (push_generation (mkSnapshot generation statement GoalPursuing) g)).

Definition block (g : Goal) (b : GoalBlockProvenance) (need : GoalNeed) : goal_exec Goal :=
  cur ← current g;
  if negb (is_pursuing (snapshot_state cur)) then Rejected (mkGoalError g RequiresPursuing)
  else
    ordinal ← next_ordinal g;
    Returned
      (push_event (mkEvent ordinal (snapshot_generation cur) (EventBlocked b need))
        (set_current_state (GoalBlocked (reason_kind b) need) g)).

Definition declare_blocked (g : Goal) (reason : GoalModelBlockedReasonKind) (need : GoalNeed)
    (provenance : GoalModelProvenance) : goal_exec Goal :=
  block g (BlockByModel reason provenance) need.

Definition block_execution_failure (g : Goal) (need : GoalNeed)
    (provenance : GoalSchedulerProvenance) : goal_exec Goal :=
  block g (BlockExecutionFailure provenance) need.

Definition block_finish_check (g : Goal) (need : GoalNeed) (provenance : GoalModelProvenance) :
    goal_exec Goal :=
  block g (BlockFinishCheck provenance) need.

Definition resume (g : Goal) (guidance : option GoalGuidance) (provenance : GoalUserProvenance) :
    goal_exec Goal :=
  cur ← current g;
  if negb (is_blocked (snapshot_state cur)) then Rejected (mkGoalError g RequiresBlocked)
  else
    ordinal ← next_ordinal g;
    Returned
      (push_event (mkEvent ordinal (snapshot_generation cur) (EventResumed guidance provenance))
        (set_current_state GoalPursuing g)).

Definition achieve (g : Goal) (report : GoalReport) (provenance : GoalAchievementProvenance) :
    goal_exec Goal :=
  cur ← current g;
  if negb (is_pursuing (snapshot_state cur)) then Rejected (mkGoalError g RequiresPursuing)
  else
    ordinal ← next_ordinal g;
    Returned
      (push_event (mkEvent ordinal (snapshot_generation cur) (EventAchieved report provenance))
        (set_current_state (GoalAchieved (achievement_report_ref provenance)) g)).

Definition declare_achieved (g : Goal) (report : GoalReport) (provenance : GoalModelProvenance) :
    goal_exec Goal :=
  achieve g report (AchievedByModel provenance).

Definition stop (g : Goal) (provenance : GoalUserProvenance) : goal_exec Goal :=
  cur ← current g;
  if negb (is_open (snapshot_state cur)) then Rejected (mkGoalError g RequiresPursuingOrBlocked)
  else
    ordinal ← next_ordinal g;
    Returned
      (push_event (mkEvent ordinal (snapshot_generation cur) (EventUserStopped provenance))
        (set_current_state GoalUserStopped g)).

Definition close_with_session (g : Goal) (outcome : SessionClosureOutcome)
    (provenance : LifecycleActor) : goal_exec Goal :=
  cur ← current g;
  if negb (is_open (snapshot_state cur)) then Rejected (mkGoalError g RequiresPursuingOrBlocked)
  else
    ordinal ← next_ordinal g;
    Returned
      (push_event (mkEvent ordinal (snapshot_generation cur) (EventSessionClosed outcome provenance))
        (set_current_state (GoalSessionClosed outcome) g)).

Definition supersede (g : Goal) (replacement_statement : GoalStatement)
    (provenance : GoalUserProvenance) : goal_exec Goal :=
  cur ← current g;
  if negb (is_open (snapshot_state cur)) then Rejected (mkGoalError g RequiresPursuingOrBlocked)
  else
    ordinal ← next_ordinal g;
    let replaced_generation := snapshot_generation cur in
    replacement_generation ← exec_ok_or (generation_successor replaced_generation)
                               (mkGoalError g GenerationExhausted);
    Returned
      (push_event
        (mkEvent ordinal replaced_generation (EventSuperseded replacement_statement provenance))
        (push_generation (mkSnapshot replacement_generation replacement_statement GoalPursuing)
          (set_current_state (GoalSuperseded replacement_generation) g))).

(** ** Replay *)

Inductive GoalReconstitutionFailure := MissingCommission | EventSequence | InvalidTransition.

Abbreviation replay_exec := (exec GoalReconstitutionFailure).

Definition apply_stored_event (g : Goal) (event : GoalEvent) : goal_exec Goal :=
  match event_kind event with
  | EventCommissioned statement provenance => commission_successor g statement provenance
  | EventBlocked (BlockByModel reason provenance) need => declare_blocked g reason need provenance
  | EventBlocked (BlockExecutionFailure provenance) need => block_execution_failure g need provenance
  | EventBlocked (BlockFinishCheck provenance) need => block_finish_check g need provenance
  | EventResumed guidance provenance => resume g guidance provenance
  | EventAchieved report provenance => achieve g report provenance
  | EventUserStopped provenance => stop g provenance
  | EventSuperseded replacement_statement provenance => supersede g replacement_statement provenance
  | EventSessionClosed outcome provenance => close_with_session g outcome provenance
  end.

(** One iteration of the replay loop. *)
Definition replay_event (g : Goal) (stored : GoalEvent) : replay_exec Goal :=
  match apply_stored_event g stored with
  | Panicked => Panicked
  | Rejected _ => Rejected InvalidTransition
  | Returned transitioned =>
      if bool_decide (last (goal_events transitioned) = Some stored)
      then Returned transitioned else Rejected EventSequence
  end.

Fixpoint replay_events (g : Goal) (events : list GoalEvent) : replay_exec Goal :=
  match events with
  | [] => Returned g
  | stored :: events => g' ← replay_event g stored; replay_events g' events
  end.

(** [GoalReconstitutionInput::reconstitute] *)
Definition reconstitute (session : SessionId) (events : list GoalEvent) : replay_exec Goal :=
  match events with
  | [] => Rejected MissingCommission
  | first :: events =>
      match event_kind first with
      | EventCommissioned statement provenance =>
          if bool_decide (event_ordinal first <> ordinal_first \/
                          event_generation first <> generation_first)
          then Rejected EventSequence
          else replay_events (commission session statement provenance) events
      | _ => Rejected MissingCommission
      end
  end.
