(* ===== verification/GoalSpec.v ===== *)
(** * Correctness of commissioned goals

    A declarative step relation for the goal lineage, the proof that the
    transitions of [Goal] implement it on every branch, the invariant of the
    reachable lineages and the exactness of event replay. *)

From stdpp Require Import strings.
From S2P Require Import Prelude Lifecycle Goal.

(** ** The public transitions *)

Inductive GoalAction :=
| CommissionSuccessor (statement : GoalStatement) (provenance : GoalUserProvenance)
| DeclareBlocked (reason : GoalModelBlockedReasonKind) (need : GoalNeed)
    (provenance : GoalModelProvenance)
| ReportExecutionFailure (need : GoalNeed) (provenance : GoalSchedulerProvenance)
| ReportFinishCheck (need : GoalNeed) (provenance : GoalModelProvenance)
| Resume (guidance : option GoalGuidance) (provenance : GoalUserProvenance)
| DeclareAchieved (report : GoalReport) (provenance : GoalModelProvenance)
| Achieve (report : GoalReport) (provenance : GoalAchievementProvenance)
| Stop (provenance : GoalUserProvenance)
| CloseWithSession (outcome : SessionClosureOutcome) (provenance : LifecycleActor)
| Supersede (replacement_statement : GoalStatement) (provenance : GoalUserProvenance).

Definition perform (g : Goal) (a : GoalAction) : goal_exec Goal :=
  match a with
  | CommissionSuccessor statement provenance => commission_successor g statement provenance
  | DeclareBlocked reason need provenance => declare_blocked g reason need provenance
  | ReportExecutionFailure need provenance => block_execution_failure g need provenance
  | ReportFinishCheck need provenance => block_finish_check g need provenance
  | Resume guidance provenance => resume g guidance provenance
  | DeclareAchieved report provenance => declare_achieved g report provenance
  | Achieve report provenance => achieve g report provenance
  | Stop provenance => stop g provenance
  | CloseWithSession outcome provenance => close_with_session g outcome provenance
  | Supersede statement provenance => supersede g statement provenance
  end.

(** The event an action records. *)
Definition action_event (a : GoalAction) : GoalEventKind :=
  match a with
  | CommissionSuccessor statement provenance => EventCommissioned statement provenance
  | DeclareBlocked reason need provenance => EventBlocked (BlockByModel reason provenance) need
  | ReportExecutionFailure need provenance => EventBlocked (BlockExecutionFailure provenance) need
  | ReportFinishCheck need provenance => EventBlocked (BlockFinishCheck provenance) need
  | Resume guidance provenance => EventResumed guidance provenance
  | DeclareAchieved report provenance => EventAchieved report (AchievedByModel provenance)
  | Achieve report provenance => EventAchieved report provenance
  | Stop provenance => EventUserStopped provenance
  | CloseWithSession outcome provenance => EventSessionClosed outcome provenance
  | Supersede statement provenance => EventSuperseded statement provenance
  end.

(** The lineages a daemon can hold: one commission followed by accepted
    transitions. *)
Inductive reachable_goal : Goal -> Prop :=
| reachable_commission session statement provenance :
    reachable_goal (commission session statement provenance)
| reachable_perform g a g' :
    reachable_goal g -> perform g a = Returned g' -> reachable_goal g'.

(** ** Specification: one step of the lineage *)

(** How an event settles the state of the generation it acts on. *)
Inductive settles : GoalEventKind -> GoalState -> GoalState -> Prop :=
| settles_blocked b need : settles (EventBlocked b need) GoalPursuing (GoalBlocked (reason_kind b) need)
| settles_resumed guidance p reason need :
    settles (EventResumed guidance p) (GoalBlocked reason need) GoalPursuing
| settles_achieved report p :
    settles (EventAchieved report p) GoalPursuing (GoalAchieved (achievement_report_ref p))
| settles_stopped p st : is_open st = true -> settles (EventUserStopped p) st GoalUserStopped
| settles_closed o a st : is_open st = true -> settles (EventSessionClosed o a) st (GoalSessionClosed o).

Inductive goal_step : Goal -> GoalEventKind -> Goal -> Prop :=
| step_settle s gens gen stmt st st' evs e k o :
    settles k st st' -> ordinal_successor (event_ordinal e) = Some o ->
    goal_step (mkGoal s (gens ++ [mkSnapshot gen stmt st]) (evs ++ [e])) k
      (mkGoal s (gens ++ [mkSnapshot gen stmt st']) ((evs ++ [e]) ++ [mkEvent o gen k]))
| step_commission s gens gen stmt st evs e stmt' p o gen' :
    admits_later_commission st = true -> ordinal_successor (event_ordinal e) = Some o ->
    generation_successor gen = Some gen' ->
    goal_step (mkGoal s (gens ++ [mkSnapshot gen stmt st]) (evs ++ [e])) (EventCommissioned stmt' p)
      (mkGoal s ((gens ++ [mkSnapshot gen stmt st]) ++ [mkSnapshot gen' stmt' GoalPursuing])
        ((evs ++ [e]) ++ [mkEvent o gen' (EventCommissioned stmt' p)]))
| step_supersede s gens gen stmt st evs e stmt' p o gen' :
    is_open st = true -> ordinal_successor (event_ordinal e) = Some o ->
    generation_successor gen = Some gen' ->
    goal_step (mkGoal s (gens ++ [mkSnapshot gen stmt st]) (evs ++ [e])) (EventSuperseded stmt' p)
      (mkGoal s ((gens ++ [mkSnapshot gen stmt (GoalSuperseded gen')]) ++
                 [mkSnapshot gen' stmt' GoalPursuing])
        ((evs ++ [e]) ++ [mkEvent o gen (EventSuperseded stmt' p)])).

Create HintDb goal.
#[export] Hint Constructors settles goal_step : goal.

(** The guard each event checks on the current state. *)
Definition guard_failure (k : GoalEventKind) (st : GoalState) : option GoalTransitionFailure :=
  match k with
  | EventCommissioned _ _ => if admits_later_commission st then None else Some RequiresNoActiveGoal
  | EventBlocked _ _ | EventAchieved _ _ => if is_pursuing st then None else Some RequiresPursuing
  | EventResumed _ _ => if is_blocked st then None else Some RequiresBlocked
  | EventUserStopped _ | EventSuperseded _ _ | EventSessionClosed _ _ =>
      if is_open st then None else Some RequiresPursuingOrBlocked
  end.

(** ** The transitions implement the specification *)

Lemma perform_stored g a o gen : perform g a = apply_stored_event g (mkEvent o gen (action_event a)).
Proof. by destruct a. Qed.

Definition event_action (k : GoalEventKind) : GoalAction :=
  match k with
  | EventCommissioned statement provenance => CommissionSuccessor statement provenance
  | EventBlocked (BlockByModel reason provenance) need => DeclareBlocked reason need provenance
  | EventBlocked (BlockExecutionFailure provenance) need => ReportExecutionFailure need provenance
  | EventBlocked (BlockFinishCheck provenance) need => ReportFinishCheck need provenance
  | EventResumed guidance provenance => Resume guidance provenance
  | EventAchieved report provenance => Achieve report provenance
  | EventUserStopped provenance => Stop provenance
  | EventSuperseded statement provenance => Supersede statement provenance
  | EventSessionClosed outcome provenance => CloseWithSession outcome provenance
  end.

Lemma stored_perform g e : apply_stored_event g e = perform g (event_action (event_kind e)).
Proof. by destruct e as [? ? [| [| |] | | | | |]]. Qed.

Lemma action_event_action k : action_event (event_action k) = k.
Proof. by destruct k as [| [| |] | | | | |]. Qed.

Lemma set_current_state_snoc s gens gen stmt st evs st' :
  set_current_state st' (mkGoal s (gens ++ [mkSnapshot gen stmt st]) evs) =
  mkGoal s (gens ++ [mkSnapshot gen stmt st']) evs.
Proof.
  unfold set_current_state. simpl. f_equal. rewrite length_app. simpl.
  replace (pred (length gens + 1)) with (length gens + 0) by lia. by rewrite alter_app_r.
Qed.

Section transitions.
Context (s : SessionId) (gens : list GoalGenerationSnapshot) (gen : GoalGeneration)
  (stmt : GoalStatement) (st : GoalState) (evs : list GoalEvent) (e : GoalEvent).
Abbreviation g := (mkGoal s (gens ++ [mkSnapshot gen stmt st]) (evs ++ [e])).

Lemma current_snoc : current g = Returned (mkSnapshot gen stmt st).
Proof. unfold current, last_or_panic. simpl. by rewrite last_snoc. Qed.

Lemma next_ordinal_snoc :
  next_ordinal g =
    exec_ok_or (ordinal_successor (event_ordinal e)) (mkGoalError g EventOrdinalExhausted).
Proof. unfold next_ordinal, last_or_panic. simpl. by rewrite last_snoc. Qed.


Ltac goal_equation op :=
  unfold op; rewrite current_snoc; autorewrite with exec; cbn [snapshot_state snapshot_generation];
  match goal with |- (if ?b then _ else _) = _ => destruct b; [done|] end;
  rewrite next_ordinal_snoc;
  destruct (ordinal_successor (event_ordinal e)) as [?|]; autorewrite with exec; [|done];
  cbn [snapshot_generation].

(** The transitions that settle the current generation. *)
Definition settle_current (ok : bool) (failure : GoalTransitionFailure) (k : GoalEventKind)
    (st' : GoalState) : goal_exec Goal :=
  if negb ok then Rejected (mkGoalError g failure)
  else
    o ← exec_ok_or (ordinal_successor (event_ordinal e)) (mkGoalError g EventOrdinalExhausted);
    Returned (mkGoal s (gens ++ [mkSnapshot gen stmt st']) ((evs ++ [e]) ++ [mkEvent o gen k])).

Lemma block_equation b need :
  block g b need =
    settle_current (is_pursuing st) RequiresPursuing (EventBlocked b need) (GoalBlocked (reason_kind b) need).
Proof. unfold settle_current. goal_equation block. by rewrite set_current_state_snoc. Qed.

Lemma resume_equation gd p :
  resume g gd p = settle_current (is_blocked st) RequiresBlocked (EventResumed gd p) GoalPursuing.
Proof. unfold settle_current. goal_equation resume. by rewrite set_current_state_snoc. Qed.

Lemma achieve_equation r p :
  achieve g r p =
    settle_current (is_pursuing st) RequiresPursuing (EventAchieved r p)
      (GoalAchieved (achievement_report_ref p)).
Proof. unfold settle_current. goal_equation achieve. by rewrite set_current_state_snoc. Qed.

Lemma stop_equation p :
  stop g p = settle_current (is_open st) RequiresPursuingOrBlocked (EventUserStopped p) GoalUserStopped.
Proof. unfold settle_current. goal_equation stop. by rewrite set_current_state_snoc. Qed.

Lemma close_equation o a :
  close_with_session g o a =
    settle_current (is_open st) RequiresPursuingOrBlocked (EventSessionClosed o a) (GoalSessionClosed o).
Proof. unfold settle_current. goal_equation close_with_session. by rewrite set_current_state_snoc. Qed.

(** The transitions that commission a generation. *)
Definition commission_next (ok : bool) (failure : GoalTransitionFailure)
    (k : GoalEventKind) (stmt' : GoalStatement) (st' : GoalGeneration -> GoalState)
    (acts_on : GoalGeneration -> GoalGeneration) : goal_exec Goal :=
  if negb ok then Rejected (mkGoalError g failure)
  else
    o ← exec_ok_or (ordinal_successor (event_ordinal e)) (mkGoalError g EventOrdinalExhausted);
    gen' ← exec_ok_or (generation_successor gen) (mkGoalError g GenerationExhausted);
    Returned (mkGoal s ((gens ++ [mkSnapshot gen stmt (st' gen')]) ++ [mkSnapshot gen' stmt' GoalPursuing])
                ((evs ++ [e]) ++ [mkEvent o (acts_on gen') k])).

Lemma commission_successor_equation stmt' p :
  commission_successor g stmt' p =
    commission_next (admits_later_commission st) RequiresNoActiveGoal (EventCommissioned stmt' p)
      stmt' (fun _ => st) id.
Proof.
  unfold commission_next. goal_equation commission_successor.
  by destruct (generation_successor gen); autorewrite with exec.
Qed.

Lemma supersede_equation stmt' p :
  supersede g stmt' p =
    commission_next (is_open st) RequiresPursuingOrBlocked (EventSuperseded stmt' p)
      stmt' GoalSuperseded (fun _ => gen).
Proof.
  unfold commission_next. goal_equation supersede.
  destruct (generation_successor gen); autorewrite with exec; [|done].
  by rewrite set_current_state_snoc.
Qed.
End transitions.

(** Every branch of every transition: the guard, the exhausted ordinal, the
    exhausted generation, or the step. *)
Inductive stored_event_outcome (g : Goal) (gen : GoalGeneration) (st : GoalState) (e : GoalEvent)
    (k : GoalEventKind) : goal_exec Goal -> Prop :=
| outcome_guard f :
    guard_failure k st = Some f -> stored_event_outcome g gen st e k (Rejected (mkGoalError g f))
| outcome_ordinal :
    guard_failure k st = None -> ordinal_successor (event_ordinal e) = None ->
    stored_event_outcome g gen st e k (Rejected (mkGoalError g EventOrdinalExhausted))
| outcome_generation :
    guard_failure k st = None -> generation_successor gen = None ->
    stored_event_outcome g gen st e k (Rejected (mkGoalError g GenerationExhausted))
| outcome_step g' :
    guard_failure k st = None -> goal_step g k g' -> stored_event_outcome g gen st e k (Returned g').

Lemma settle_current_outcome s gens gen stmt st evs e ok f k st' :
  guard_failure k st = (if ok : bool then None else Some f) -> (ok = true -> settles k st st') ->
  stored_event_outcome (mkGoal s (gens ++ [mkSnapshot gen stmt st]) (evs ++ [e])) gen st e k
    (settle_current s gens gen stmt st evs e ok f k st').
Proof.
  intros Hg Hs. unfold settle_current. destruct ok; [|by apply outcome_guard]. cbn [negb].
  destruct (ordinal_successor (event_ordinal e)) as [o|] eqn:Ho; autorewrite with exec.
  - apply outcome_step; [done|]. apply step_settle; auto.
  - by apply outcome_ordinal.
Qed.

Lemma stored_event_branches s gens gen stmt st evs e stored :
  stored_event_outcome (mkGoal s (gens ++ [mkSnapshot gen stmt st]) (evs ++ [e])) gen st e
    (event_kind stored)
    (apply_stored_event (mkGoal s (gens ++ [mkSnapshot gen stmt st]) (evs ++ [e])) stored).
Proof.
  unfold apply_stored_event.
  destruct (event_kind stored) as [stmt' p|[r p|p|p] need|gd p|rep p|p|stmt' p|o p].
  - rewrite commission_successor_equation. unfold commission_next.
    destruct (admits_later_commission st) eqn:Hst; cbn [negb];
      [|by apply outcome_guard; simpl; rewrite Hst].
    destruct (ordinal_successor (event_ordinal e)) as [o|] eqn:Ho; autorewrite with exec;
      [|by apply outcome_ordinal; simpl; rewrite ?Hst].
    destruct (generation_successor gen) as [gen'|] eqn:Hg; autorewrite with exec;
      [|by apply outcome_generation; simpl; rewrite ?Hst].
    apply outcome_step; [by simpl; rewrite Hst|]. by apply step_commission.
  - unfold declare_blocked. rewrite block_equation. apply settle_current_outcome; [done|].
    destruct st; [constructor|done..].
  - unfold block_execution_failure. rewrite block_equation. apply settle_current_outcome; [done|].
    destruct st; [constructor|done..].
  - unfold block_finish_check. rewrite block_equation. apply settle_current_outcome; [done|].
    destruct st; [constructor|done..].
  - rewrite resume_equation. apply settle_current_outcome; [done|].
    destruct st; [done|constructor|done..].
  - rewrite achieve_equation. apply settle_current_outcome; [done|].
    destruct st; [constructor|done..].
  - rewrite stop_equation. apply settle_current_outcome; [done|by constructor].
  - rewrite supersede_equation. unfold commission_next.
    destruct (is_open st) eqn:Hst; cbn [negb]; [|by apply outcome_guard; simpl; rewrite Hst].
    destruct (ordinal_successor (event_ordinal e)) as [o|] eqn:Ho; autorewrite with exec;
      [|by apply outcome_ordinal; simpl; rewrite ?Hst].
    destruct (generation_successor gen) as [gen'|] eqn:Hg; autorewrite with exec;
      [|by apply outcome_generation; simpl; rewrite ?Hst].
    apply outcome_step; [by simpl; rewrite Hst|]. by apply step_supersede.
  - rewrite close_equation. apply settle_current_outcome; [done|by constructor].
Qed.

Lemma goal_step_returned g e g' :
  goal_step g (event_kind e) g' -> apply_stored_event g e = Returned g'.
Proof.
  unfold apply_stored_event.
  destruct 1 as [s gens gen stmt st st' evs le k o Hs Ho|s gens gen stmt st evs le stmt' p o gen' Hst Ho Hg
                |s gens gen stmt st evs le stmt' p o gen' Hst Ho Hg].
  - destruct Hs as [[r p|p|p] need|gd p r need|r p|p st Hst|out a st Hst];
      unfold declare_blocked, block_execution_failure, block_finish_check;
      rewrite ?block_equation, ?resume_equation, ?achieve_equation, ?stop_equation, ?close_equation;
      unfold settle_current; rewrite ?Hst; cbn [is_pursuing is_blocked negb];
      rewrite Ho; by autorewrite with exec.
  - rewrite commission_successor_equation. unfold commission_next. rewrite Hst. cbn [negb].
    rewrite Ho. autorewrite with exec. rewrite Hg. by autorewrite with exec.
  - rewrite supersede_equation. unfold commission_next. rewrite Hst. cbn [negb].
    rewrite Ho. autorewrite with exec. rewrite Hg. by autorewrite with exec.
Qed.

(** A lineage that holds at least one generation and one event, decomposed. *)
Lemma nonempty_goal g :
  goal_generations g <> [] -> goal_events g <> [] ->
  exists s gens gen stmt st evs e,
    g = mkGoal s (gens ++ [mkSnapshot gen stmt st]) (evs ++ [e]).
Proof.
  destruct g as [s gens evs]. simpl. intros Hg He.
  destruct gens as [|[gen stmt st] gens _] using rev_ind; [done|].
  destruct evs as [|e evs _] using rev_ind; [done|]. eauto 10.
Qed.

Lemma stored_event_step g e g' :
  goal_generations g <> [] -> goal_events g <> [] ->
  apply_stored_event g e = Returned g' <-> goal_step g (event_kind e) g'.
Proof.
  intros Hg He. split; [|apply goal_step_returned].
  destruct (nonempty_goal g Hg He) as (s & gens & gen & stmt & st & evs & le & ->).
  pose proof (stored_event_branches s gens gen stmt st evs le e) as Hb.
  intros Heq. rewrite Heq in Hb. by inversion Hb.
Qed.

(** ** The invariant of a lineage *)

(** A generation and the one that follows it. *)
Definition succeeded (a b : GoalGenerationSnapshot) : Prop :=
  snapshot_state a = GoalSuperseded (snapshot_generation b) \/
  admits_later_commission (snapshot_state a) = true.

Definition not_superseded (st : GoalState) : Prop := forall g, st <> GoalSuperseded g.

Record goal_wf (g : Goal) : Prop := {
  wf_generations_nonempty : goal_generations g <> [];
  wf_events_nonempty : goal_events g <> [];
  wf_generations_numbered :
    numbered (fun s => generation_get (snapshot_generation s)) (goal_generations g);
  wf_events_numbered : numbered (fun e => ordinal_get (event_ordinal e)) (goal_events g);
  wf_generations_bounded : (N.of_nat (length (goal_generations g)) <= u64_max)%N;
  wf_events_bounded : (N.of_nat (length (goal_events g)) <= u64_max)%N;
  wf_succession : linked succeeded (goal_generations g);
  wf_current s : last (goal_generations g) = Some s -> not_superseded (snapshot_state s);
  wf_event_generation :
    Forall (fun e => (Pos.to_nat (generation_get (event_generation e)) <= length (goal_generations g)))
      (goal_events g);
}.

Lemma ordinal_successor_Some o o' :
  ordinal_successor o = Some o' <->
  ordinal_get o' = Pos.succ (ordinal_get o) /\ (Npos (ordinal_get o') <= u64_max)%N.
Proof.
  unfold ordinal_successor. rewrite fmap_Some.
  setoid_rewrite nonzero_u64_checked_add_1_Some. destruct o' as [p]. simpl. split.
  - intros (c & [-> Hle] & [= ->]). done.
  - intros [-> Hle]. eauto.
Qed.

Lemma generation_successor_Some o o' :
  generation_successor o = Some o' <->
  generation_get o' = Pos.succ (generation_get o) /\ (Npos (generation_get o') <= u64_max)%N.
Proof.
  unfold generation_successor. rewrite fmap_Some.
  setoid_rewrite nonzero_u64_checked_add_1_Some. destruct o' as [p]. simpl. split.
  - intros (c & [-> Hle] & [= ->]). done.
  - intros [-> Hle]. eauto.
Qed.

(** Pushing the event of a step keeps the event history well numbered. *)
Lemma push_event_numbered evs e o gen k :
  numbered (fun e => ordinal_get (event_ordinal e)) (evs ++ [e]) ->
  ordinal_successor (event_ordinal e) = Some o ->
  numbered (fun e => ordinal_get (event_ordinal e)) ((evs ++ [e]) ++ [mkEvent o gen k]) /\
  (N.of_nat (length ((evs ++ [e]) ++ [mkEvent o gen k])) <= u64_max)%N.
Proof.
  intros Hn [Ho Hle]%ordinal_successor_Some. pose proof Hn as [_ He]%numbered_snoc.
  assert (ordinal_get o = Pos.of_succ_nat (length (evs ++ [e]))) as Heq.
  { rewrite length_app. simpl. rewrite Ho. cbv beta in He. rewrite He. lia. }
  split; [by apply numbered_snoc|]. rewrite length_app. simpl. rewrite Heq in Hle.
  revert Hle. generalize u64_max. lia.
Qed.

(** Pushing a successor generation keeps the generations well numbered. *)
Lemma push_generation_numbered gens gen gen' stmt st stmt' st' st'' :
  numbered (fun s => generation_get (snapshot_generation s)) (gens ++ [mkSnapshot gen stmt st]) ->
  generation_successor gen = Some gen' ->
  let gens' := (gens ++ [mkSnapshot gen stmt st'']) ++ [mkSnapshot gen' stmt' st'] in
  numbered (fun s => generation_get (snapshot_generation s)) gens' /\
  (N.of_nat (length gens') <= u64_max)%N /\
  Pos.to_nat (generation_get gen') = length gens'.
Proof.
  intros Hn [Hg Hle]%generation_successor_Some. simpl.
  apply numbered_snoc in Hn as [Hn He]. simpl in He.
  assert (generation_get gen' = Pos.of_succ_nat (length (gens ++ [mkSnapshot gen stmt st'']))) as Heq.
  { rewrite length_app. simpl. rewrite Hg, He. lia. }
  rewrite !length_app in *. simpl in *. split_and!.
  - apply numbered_snoc. rewrite length_app. split; [by apply numbered_snoc|done].
  - rewrite Heq in Hle. revert Hle. generalize u64_max. lia.
  - lia.
Qed.

Lemma event_generations_mono g evs n n' :
  Forall (fun e => Pos.to_nat (generation_get (event_generation e)) <= n) evs ->
  n <= n' -> Pos.to_nat (generation_get (event_generation g)) <= n' ->
  Forall (fun e => Pos.to_nat (generation_get (event_generation e)) <= n') (evs ++ [g]).
Proof.
  intros H Hn Hg. apply Forall_app. split; [|by apply Forall_singleton].
  eapply Forall_impl; [exact H|]. simpl. lia.
Qed.

Lemma settles_not_superseded k st st' : settles k st st' -> not_superseded st'.
Proof. by destruct 1; intros ?. Qed.

Lemma goal_step_wf g k g' : goal_wf g -> goal_step g k g' -> goal_wf g'.
Proof.
  intros Hwf Hstep. destruct Hwf as [_ _ Hgn Hen Hgb Heb Hlk Hcur Heg].
  destruct Hstep as [s gens gen stmt st st' evs e k o Hs Ho
                    |s gens gen stmt st evs e stmt' p o gen' Hst Ho Hg
                    |s gens gen stmt st evs e stmt' p o gen' Hst Ho Hg]; simpl in *.
  - assert (Pos.to_nat (generation_get gen) <= length (gens ++ [mkSnapshot gen stmt st'])) as Hle.
    { apply numbered_snoc in Hgn as [_ Hx]. simpl in Hx. rewrite Hx, length_app. simpl. lia. }
    destruct (push_event_numbered evs e o gen k Hen Ho) as [Hen' Heb'].
    split; simpl; [by intros [_ [=]]%app_nil..| |done| |done| | |].
    + apply numbered_snoc in Hgn as [? ?]. by apply numbered_snoc.
    + by rewrite length_app in *.
    + eapply linked_replace_last; [exact Hlk|]. by intros z.
    + intros x. rewrite last_snoc. intros [= <-]. simpl. by eapply settles_not_superseded.
    + eapply event_generations_mono; [exact Heg| |done]. by rewrite !length_app.
  - destruct (push_event_numbered evs e o gen' (EventCommissioned stmt' p) Hen Ho) as [Hen' Heb'].
    destruct (push_generation_numbered gens gen gen' stmt st stmt' GoalPursuing st Hgn Hg)
      as (Hgn' & Hgb' & Hlen).
    split; simpl; [by intros [_ [=]]%app_nil..|done|done|done|done| | |].
    + apply linked_snoc. split; [done|by right].
    + intros x. rewrite last_snoc. by intros [= <-].
    + eapply event_generations_mono; [exact Heg| |by simpl; lia]. rewrite !length_app. lia.
  - destruct (push_event_numbered evs e o gen (EventSuperseded stmt' p) Hen Ho) as [Hen' Heb'].
    destruct (push_generation_numbered gens gen gen' stmt st stmt' GoalPursuing (GoalSuperseded gen') Hgn Hg)
      as (Hgn' & Hgb' & Hlen).
    split; simpl; [by intros [_ [=]]%app_nil..|done|done|done|done| | |].
    + apply linked_snoc. split; [|by left]. eapply linked_replace_last; [exact Hlk|]. by intros z.
    + intros x. rewrite last_snoc. by intros [= <-].
    + eapply event_generations_mono; [exact Heg| |].
      * rewrite !length_app. simpl. lia.
      * simpl. apply generation_successor_Some in Hg as [Hg _]. rewrite Hg in Hlen. lia.
Qed.

Lemma commission_wf s stmt p : goal_wf (commission s stmt p).
Proof.
  split; simpl; [done..| | |done|done| | |].
  - by intros [|i] x [= <-].
  - by intros [|i] x [= <-].
  - by intros [|i] x y _ [=].
  - by intros x [= <-] ?.
  - by repeat constructor.
Qed.

Lemma perform_step g a g' :
  goal_wf g -> perform g a = Returned g' <-> goal_step g (action_event a) g'.
Proof.
  intros Hwf. rewrite (perform_stored g a ordinal_first generation_first).
  by rewrite stored_event_step by apply Hwf.
Qed.

Lemma reachable_goal_wf g : reachable_goal g -> goal_wf g.
Proof.
  induction 1 as [|g a g' _ IH Hp]; [apply commission_wf|].
  eapply goal_step_wf; [done|]. by apply perform_step in Hp.
Qed.

Lemma goal_step_appends g k g' :
  goal_step g k g' ->
  goal_session g' = goal_session g /\
  (exists o gen, goal_events g' = goal_events g ++ [mkEvent o gen k]) /\
  (snapshot_statement <$> goal_generations g) `prefix_of` (snapshot_statement <$> goal_generations g').
Proof.
  destruct 1; simpl; (split_and!; [done|eauto|]); rewrite !fmap_app; simpl.
  - done.
  - by apply prefix_app_r.
  - by apply prefix_app_r.
Qed.

(** ** Replay is exact *)

Lemma replay_event_Returned g e g' :
  replay_event g e = Returned g' <->
  apply_stored_event g e = Returned g' /\ last (goal_events g') = Some e.
Proof.
  unfold replay_event. destruct (apply_stored_event g e) as [x|x|]; [|naive_solver..].
  case_bool_decide; naive_solver.
Qed.

Lemma replay_events_app g l1 l2 :
  replay_events g (l1 ++ l2) = replay_events g l1 ≫= fun g' => replay_events g' l2.
Proof.
  revert g. induction l1 as [|e l1 IH]; intros g; simpl; [done|].
  destruct (replay_event g e); simpl; auto.
Qed.

Lemma replay_events_sound g events g' :
  reachable_goal g -> replay_events g events = Returned g' ->
  reachable_goal g' /\ goal_session g' = goal_session g /\ goal_events g' = goal_events g ++ events.
Proof.
  revert g. induction events as [|e events IH]; intros g Hr; simpl.
  { intros [= <-]. by rewrite app_nil_r. }
  rewrite exec_bind_Returned. intros (g1 & [Ha Hl]%replay_event_Returned & Hrest).
  pose proof (reachable_goal_wf _ Hr) as Hwf.
  pose proof Ha as (Hs & (o & gen & He) & _)%stored_event_step%goal_step_appends; [|apply Hwf..].
  rewrite He, last_snoc in Hl. injection Hl as Hl. rewrite stored_perform in Ha.
  destruct (IH g1) as (Hr' & Hs' & He'); [by eapply reachable_perform|done|].
  split_and!; [done|congruence|]. rewrite He', He, Hl. by rewrite <- app_assoc.
Qed.

Lemma replay_events_complete g a g' :
  goal_wf g -> perform g a = Returned g' ->
  exists e, goal_events g' = goal_events g ++ [e] /\ replay_event g e = Returned g'.
Proof.
  intros Hwf Hp. pose proof Hp as Hstep%(perform_step _ _ _ Hwf).
  destruct (goal_step_appends _ _ _ Hstep) as (_ & (o & gen & He) & _).
  exists (mkEvent o gen (action_event a)). split; [done|].
  apply replay_event_Returned. split; [by rewrite <- perform_stored|]. by rewrite He, last_snoc.
Qed.

Lemma reconstitute_commissioned s first events :
  reconstitute s (first :: events) =
    match event_kind first with
    | EventCommissioned stmt p =>
        if bool_decide (first = mkEvent ordinal_first generation_first (EventCommissioned stmt p))
        then replay_events (commission s stmt p) events else Rejected EventSequence
    | _ => Rejected MissingCommission
    end.
Proof.
  destruct first as [o gen k]. simpl. destruct k; try done.
  case_bool_decide as H1; case_bool_decide as H2; [|done|done|].
  - injection H2 as -> ->. by destruct H1.
  - destruct H2. f_equal; apply dec_stable; intros ?; apply H1; auto.
Qed.

Lemma reconstitute_reachable g :
  reachable_goal g -> reconstitute (goal_session g) (goal_events g) = Returned g.
Proof.
  induction 1 as [|g a g' Hr IH Hp]; [reflexivity|].
  pose proof (reachable_goal_wf _ Hr) as Hwf.
  destruct (replay_events_complete g a g' Hwf Hp) as (e & He & Hre).
  assert (goal_session g' = goal_session g) as ->
    by (apply perform_step, goal_step_appends in Hp; [by destruct Hp|done]).
  rewrite He. destruct (goal_events g) as [|first events] eqn:Hev; [by destruct Hwf|].
  rewrite reconstitute_commissioned in IH. simpl app. rewrite reconstitute_commissioned.
  destruct (event_kind first); try done. case_bool_decide; [|done].
  rewrite replay_events_app, IH. autorewrite with exec. simpl. by rewrite Hre.
Qed.

Lemma reconstitute_sound s events g :
  reconstitute s events = Returned g ->
  reachable_goal g /\ goal_session g = s /\ goal_events g = events.
Proof.
  destruct events as [|first events]; [done|]. rewrite reconstitute_commissioned.
  destruct (event_kind first) as [stmt p| | | | | |]; try done. case_bool_decide as Hf; [|done].
  intros H. apply replay_events_sound in H as (Hr & Hs & He); [|constructor].
  split_and!; [done..|]. rewrite He, Hf. done.
Qed.

(** ** Further lemmas *)

(** The state an event leaves the current generation in. *)
Definition event_effect (k : GoalEventKind) : GoalState :=
  match k with
  | EventCommissioned _ _ | EventResumed _ _ | EventSuperseded _ _ => GoalPursuing
  | EventBlocked b need => GoalBlocked (reason_kind b) need
  | EventAchieved _ p => GoalAchieved (achievement_report_ref p)
  | EventUserStopped _ => GoalUserStopped
  | EventSessionClosed o _ => GoalSessionClosed o
  end.

Lemma goal_step_effect g k g' :
  goal_step g k g' ->
  snapshot_state <$> last (goal_generations g') = Some (event_effect k) /\
  event_kind <$> last (goal_events g') = Some k.
Proof.
  destruct 1 as [?????????? Hs ?| |]; simpl; rewrite !last_snoc; [by destruct Hs|done..].
Qed.

Lemma goal_step_earlier g k g' i s :
  goal_step g k g' -> goal_generations g !! i = Some s -> S i < length (goal_generations g) ->
  goal_generations g' !! i = Some s.
Proof.
  destruct 1; simpl; rewrite length_app; simpl; intros Hi Hlt;
    rewrite lookup_app_l in Hi by lia; rewrite ?lookup_app_l by (rewrite ?length_app; simpl; lia); done.
Qed.

Lemma perform_outcome g a :
  reachable_goal g ->
  exists gens gen stmt st evs e,
    goal_generations g = gens ++ [mkSnapshot gen stmt st] /\ goal_events g = evs ++ [e] /\
    stored_event_outcome g gen st e (action_event a) (perform g a).
Proof.
  intros Hwf%reachable_goal_wf.
  destruct (nonempty_goal g) as (s & gens & gen & stmt & st & evs & e & ->); [apply Hwf..|].
  exists gens, gen, stmt, st, evs, e. split_and!; [done..|].
  rewrite (perform_stored _ a ordinal_first generation_first).
  apply (stored_event_branches _ _ _ _ _ _ _ (mkEvent ordinal_first generation_first (action_event a))).
Qed.

Lemma ordinal_successor_None o : ordinal_successor o = None <-> (u64_max <= Npos (ordinal_get o))%N.
Proof. unfold ordinal_successor. by rewrite fmap_None, nonzero_u64_checked_add_1_None. Qed.

Lemma generation_successor_None o :
  generation_successor o = None <-> (u64_max <= Npos (generation_get o))%N.
Proof. unfold generation_successor. by rewrite fmap_None, nonzero_u64_checked_add_1_None. Qed.

(** ** Properties *)

(** C2. Replay is exact: a stored history reconstitutes to a lineage exactly
    when that lineage is reachable by transitions in that session and recorded
    exactly these events. *)
Theorem goal_replay_exact s events g :
  reconstitute s events = Returned g <->
  reachable_goal g /\ goal_session g = s /\ goal_events g = events.
Proof.
  split; [apply reconstitute_sound|]. intros (Hr & <- & <-). by apply reconstitute_reachable.
Qed.

(** Every reachable lineage is well formed: generations and event
    ordinals are contiguous from one and fit [u64], every generation but the
    last was achieved, stopped or superseded by exactly the next one, the
    current one is not superseded, and every event names an existing
    generation. *)
Theorem goal_lineage_invariant g : reachable_goal g -> goal_wf g.
Proof. apply reachable_goal_wf. Qed.

(** C15. A transition succeeds exactly when the declarative step relation has
    a step for its event, and then with that step's result. *)
Theorem goal_transition_refines_step g a g' :
  reachable_goal g -> perform g a = Returned g' <-> goal_step g (action_event a) g'.
Proof. intros Hr%reachable_goal_wf. by apply perform_step. Qed.

(** A transition never panics, and a rejected one returns the unchanged
    lineage with a reason that holds: the guard of its event on the current
    state, or a counter at [u64::MAX]. *)
Theorem goal_rejection_justified g a :
  reachable_goal g ->
  match perform g a with
  | Returned _ => True
  | Panicked => False
  | Rejected err =>
      error_goal err = g /\
      match error_failure err with
      | EventOrdinalExhausted => N.of_nat (length (goal_events g)) = u64_max
      | GenerationExhausted => N.of_nat (length (goal_generations g)) = u64_max
      | failure =>
          (s ← last (goal_generations g); guard_failure (action_event a) (snapshot_state s)) = Some failure
      end
  end.
Proof.
  intros Hr. pose proof (reachable_goal_wf _ Hr) as Hwf.
  destruct (perform_outcome g a Hr) as (gens & gen & stmt & st & evs & e & Hg & He & Ho).
  pose proof (wf_events_numbered _ Hwf) as Hen. pose proof (wf_generations_numbered _ Hwf) as Hgn.
  pose proof (wf_events_bounded _ Hwf) as Heb. pose proof (wf_generations_bounded _ Hwf) as Hgb.
  rewrite He in Hen, Heb |- *. rewrite Hg in Hgn, Hgb |- *.
  rewrite length_app in *. apply numbered_snoc in Hen as [_ Hen], Hgn as [_ Hgn]. simpl in *.
  destruct Ho as [f Hf|_ Hx|_ Hx|]; simpl; [..|done]; (split; [done|]).
  - rewrite last_snoc. simpl. by destruct f, (action_event a), st.
  - apply ordinal_successor_None in Hx. rewrite Hen in Hx. rewrite ?length_app. simpl.
    revert Hx Heb. generalize u64_max. lia.
  - apply generation_successor_None in Hx. rewrite Hgn in Hx. rewrite ?length_app. simpl.
    revert Hx Hgb. generalize u64_max. lia.
Qed.

(** A generation closed with its session is final: every later transition
    is rejected and returns the lineage unchanged. *)
Theorem goal_session_closed_final g a s outcome :
  reachable_goal g -> last (goal_generations g) = Some s ->
  snapshot_state s = GoalSessionClosed outcome ->
  exists failure, perform g a = Rejected (mkGoalError g failure).
Proof.
  intros Hr Hs Hst.
  destruct (perform_outcome g a Hr) as (gens & gen & stmt & st & evs & e & Hg & _ & Ho).
  rewrite Hg, last_snoc in Hs. injection Hs as <-. simpl in Hst. subst st.
  destruct Ho as [f Hf|Hf _|Hf _|g' Hf _]; [by eauto|..]; by destruct (action_event a).
Qed.

(** A transition appends exactly the event of its action, keeps every
    statement and every earlier generation, and leaves the session unchanged. *)
Theorem goal_history_append_only g a g' :
  reachable_goal g -> perform g a = Returned g' ->
  goal_session g' = goal_session g /\
  (exists o gen, goal_events g' = goal_events g ++ [mkEvent o gen (action_event a)]) /\
  (snapshot_statement <$> goal_generations g) `prefix_of` (snapshot_statement <$> goal_generations g') /\
  (forall i s, goal_generations g !! i = Some s -> S i < length (goal_generations g) ->
     goal_generations g' !! i = Some s).
Proof.
  intros Hr%reachable_goal_wf Hp%perform_step; [|done].
  destruct (goal_step_appends _ _ _ Hp) as (? & ? & ?). split_and!; [done..|].
  intros i s. by apply goal_step_earlier with (k := action_event a).
Qed.

(** The current state is the effect of the last recorded event; in
    particular a goal is blocked on an execution failure only by the
    scheduler's own event, never by a model declaration. *)
Theorem goal_state_is_last_event_effect g e s :
  reachable_goal g -> last (goal_events g) = Some e -> last (goal_generations g) = Some s ->
  snapshot_state s = event_effect (event_kind e) /\
  (forall need, snapshot_state s = GoalBlocked ExecutionFailureReason need ->
     exists p, event_kind e = EventBlocked (BlockExecutionFailure p) need).
Proof.
  intros Hr He Hs.
  assert (snapshot_state s = event_effect (event_kind e)) as Heff.
  { destruct Hr as [|g a g' Hr Hp]; [by simplify_eq/=|].
    apply perform_step, goal_step_effect in Hp as [H1 H2]; [|by apply reachable_goal_wf].
    rewrite Hs in H1. rewrite He in H2. simpl in *. congruence. }
  split; [done|]. intros need. rewrite Heff.
  destruct (event_kind e) as [|[[] ?|p|p] need'| | | | |]; simpl; try done. intros [= ->]. eauto.
Qed.

(** ** Witnesses *)

Definition sample_statement : GoalStatement := mkGoalText "ship it".
Definition sample_user : GoalUserProvenance := mkUserProvenance (from_uuid 9).
Definition sample_goal : Goal := commission (from_uuid 1) sample_statement sample_user.
Definition sample_block : GoalAction :=
  ReportExecutionFailure (mkGoalText "retry") (mkSchedulerProvenance (from_uuid 2)).

(** The lineage after a sequence of accepted actions. *)
Fixpoint perform_all (g : Goal) (actions : list GoalAction) : goal_exec Goal :=
  match actions with
  | [] => Returned g
  | a :: actions => g' ← perform g a; perform_all g' actions
  end.

Lemma perform_all_reachable g actions g' :
  reachable_goal g -> perform_all g actions = Returned g' -> reachable_goal g'.
Proof.
  revert g. induction actions as [|a actions IH]; intros g Hr; simpl; [by intros [= <-]|].
  rewrite exec_bind_Returned. intros (g1 & Hp & Hrest). eapply (IH g1); [|done].
  by eapply reachable_perform.
Qed.

Definition sample_blocked_goal : Goal :=
  mkGoal (from_uuid 1)
    [mkSnapshot (mkGeneration 1) sample_statement
       (GoalBlocked ExecutionFailureReason (mkGoalText "retry"))]
    [mkEvent (mkOrdinal 1) (mkGeneration 1) (EventCommissioned sample_statement sample_user);
     mkEvent (mkOrdinal 2) (mkGeneration 1) (action_event sample_block)].

Definition sample_closed_goal : Goal :=
  mkGoal (from_uuid 1)
    [mkSnapshot (mkGeneration 1) sample_statement (GoalSessionClosed ClosureAbandoned)]
    [mkEvent (mkOrdinal 1) (mkGeneration 1) (EventCommissioned sample_statement sample_user);
     mkEvent (mkOrdinal 2) (mkGeneration 1) (EventSessionClosed ClosureAbandoned OperatorActor)].

Lemma sample_block_runs : perform sample_goal sample_block = Returned sample_blocked_goal.
Proof. vm_compute. reflexivity. Qed.

Lemma sample_blocked_reachable : reachable_goal sample_blocked_goal.
Proof.
  apply (perform_all_reachable sample_goal [sample_block]); [constructor|]. vm_compute. reflexivity.
Qed.

Lemma sample_closed_reachable : reachable_goal sample_closed_goal.
Proof.
  apply (perform_all_reachable sample_goal [CloseWithSession ClosureAbandoned OperatorActor]);
    [constructor|]. vm_compute. reflexivity.
Qed.

Lemma goal_lineage_invariant_witness : goal_wf sample_blocked_goal.
Proof. apply (goal_lineage_invariant sample_blocked_goal). apply sample_blocked_reachable. Defined.

Lemma goal_transition_refines_step_witness :
  perform sample_goal sample_block = Returned sample_blocked_goal <->
  goal_step sample_goal (action_event sample_block) sample_blocked_goal.
Proof. apply (goal_transition_refines_step sample_goal sample_block). constructor. Defined.

Lemma goal_rejection_justified_witness :
  error_goal (mkGoalError sample_goal RequiresBlocked) = sample_goal /\
  guard_failure (action_event (Resume None sample_user)) GoalPursuing = Some RequiresBlocked.
Proof. apply (goal_rejection_justified sample_goal (Resume None sample_user)). constructor. Defined.

Lemma goal_session_closed_final_witness :
  exists failure,
    perform sample_closed_goal (Stop sample_user) = Rejected (mkGoalError sample_closed_goal failure).
Proof.
  apply (goal_session_closed_final sample_closed_goal (Stop sample_user)
    (mkSnapshot (mkGeneration 1) sample_statement (GoalSessionClosed ClosureAbandoned)) ClosureAbandoned);
    [apply sample_closed_reachable|reflexivity|reflexivity].
Defined.

Lemma goal_history_append_only_witness :
  goal_session sample_blocked_goal = goal_session sample_goal /\
  (exists o gen, goal_events sample_blocked_goal =
     goal_events sample_goal ++ [mkEvent o gen (action_event sample_block)]).
Proof.
  destruct (goal_history_append_only sample_goal sample_block sample_blocked_goal) as (H1 & H2 & _);
    [constructor|vm_compute; reflexivity|]. by split.
Defined.

Lemma goal_state_is_last_event_effect_witness :
  exists p, action_event sample_block = EventBlocked (BlockExecutionFailure p) (mkGoalText "retry").
Proof.
  destruct (goal_state_is_last_event_effect sample_blocked_goal
    (mkEvent (mkOrdinal 2) (mkGeneration 1) (action_event sample_block))
    (mkSnapshot (mkGeneration 1) sample_statement
       (GoalBlocked ExecutionFailureReason (mkGoalText "retry")))) as [_ H];
    [apply sample_blocked_reachable|reflexivity|reflexivity|]. by apply H.
Defined.
