(* ===== verification/Journal.v ===== *)
(** * Program execution journal and deterministic replay

    Model of [crates/domain/src/program_journal.rs]: the frame vocabulary, the
    checked construction of a run's journal, the projections of its outcome,
    and the replay cursor that confronts a re-executed program with it. *)

From stdpp Require Import strings.
From Stdlib Require Import Strings.Byte.
From S2P Require Import Prelude.

(** ** Ordinals

    [positive_position!] declares one newtype over [NonZeroU64] per order. *)

Inductive journal_order := PositionOrder | RequestOrder | DeliveryOrder | ScopeOrder.

Record journal_ordinal (o : journal_order) := mkJournalOrdinal { journal_ordinal_get : positive }.
Arguments mkJournalOrdinal {o} _.
Arguments journal_ordinal_get {o} _.

Abbreviation JournalPosition := (journal_ordinal PositionOrder).
Abbreviation RequestOrdinal := (journal_ordinal RequestOrder).
Abbreviation DeliveryOrdinal := (journal_ordinal DeliveryOrder).
Abbreviation ScopeOrdinal := (journal_ordinal ScopeOrder).

Definition journal_ordinal_try_from_u64 (o : journal_order) (value : N) :
    option (journal_ordinal o) :=
  match value with N0 => None | Npos p => Some (mkJournalOrdinal p) end.

Definition journal_ordinal_as_u64 {o} (n : journal_ordinal o) : N := Npos (journal_ordinal_get n).

#[export] Instance journal_ordinal_eq_dec o : EqDecision (journal_ordinal o).
Proof. solve_decision. Defined.
#[export] Instance journal_ordinal_countable o : Countable (journal_ordinal o).
Proof. by apply (inj_countable' journal_ordinal_get mkJournalOrdinal); intros []. Defined.

(** ** Frames *)

#[export] Instance byte_eq_decision : EqDecision byte := Byte.byte_eq_dec.

Record InlineFramePayload := mkPayload { payload_bytes : list byte }.

#[export] Instance InlineFramePayload_eq_dec : EqDecision InlineFramePayload.
Proof. solve_decision. Defined.

Inductive ProgramCapability :=
| CapTime | CapRandom | CapSleep | CapSubscribe | CapSession | CapJudge | CapExecStage
| CapCorpus | CapEvalRecord | CapBlob | CapRegister | CapRepoWatch.

Inductive ScopeOperation := ScopeOpen | ScopeClose.

Record ScopeRequest := mkScopeRequest {
  scope_operation : ScopeOperation;
  scope_scope : ScopeOrdinal;
  scope_parent : option ScopeOrdinal;
}.

Record EffectRequest := mkEffectRequest {
  effect_capability : ProgramCapability;
  effect_method : string;
  effect_payload : InlineFramePayload;
}.

Inductive RequestKind :=
| Now (payload : InlineFramePayload)
| Random (payload : InlineFramePayload)
| Sleep (payload : InlineFramePayload)
| AwaitEvent (payload : InlineFramePayload)
| Effect (effect : EffectRequest)
| Scope (scope : ScopeRequest)
| Terminal (payload : InlineFramePayload).

Record RequestFrame := mkRequest {
  request_ordinal : RequestOrdinal;
  request_scope : option ScopeOrdinal;
  request_kind : RequestKind;
}.

Inductive RejectReason := OutstandingRequests | CapabilityDenied | UnsupportedOperation.

Inductive FaultCause :=
| TimeoutCause | MemoryCause | NondeterminismCause | ProgramErrorCause | ContractRetiredCause
| JournalBoundCause | PayloadTooLargeCause.

Inductive ProgramFault :=
| Timeout (evidence : InlineFramePayload)
| Memory (evidence : InlineFramePayload)
| Nondeterminism (expected observed : RequestFrame)
| ProgramError (evidence : InlineFramePayload)
| ContractRetired (evidence : InlineFramePayload)
| JournalBound (evidence : InlineFramePayload)
| PayloadTooLarge (evidence : InlineFramePayload).

Definition fault_cause (fault : ProgramFault) : FaultCause :=
  match fault with
  | Timeout _ => TimeoutCause
  | Memory _ => MemoryCause
  | Nondeterminism _ _ => NondeterminismCause
  | ProgramError _ => ProgramErrorCause
  | ContractRetired _ => ContractRetiredCause
  | JournalBound _ => JournalBoundCause
  | PayloadTooLarge _ => PayloadTooLargeCause
  end.

Inductive FaultEvidenceRef :=
| OrdinaryEvidence (evidence : InlineFramePayload)
| NondeterminismEvidence (expected observed : RequestFrame).

Definition fault_evidence (fault : ProgramFault) : FaultEvidenceRef :=
  match fault with
  | Timeout payload | Memory payload | ProgramError payload | ContractRetired payload
  | JournalBound payload | PayloadTooLarge payload => OrdinaryEvidence payload
  | Nondeterminism expected observed => NondeterminismEvidence expected observed
  end.

Inductive DeliveryKind :=
| Answer (resolves : RequestOrdinal) (payload : InlineFramePayload)
| Wake (resolves : RequestOrdinal) (payload : InlineFramePayload)
| Reject (resolves : RequestOrdinal) (reason : RejectReason)
| Cancel (resolves : RequestOrdinal) (payload : InlineFramePayload)
| RunCancel (payload : InlineFramePayload)
| Fault (fault : ProgramFault).

Definition resolves (kind : DeliveryKind) : option RequestOrdinal :=
  match kind with
  | Answer r _ | Wake r _ | Reject r _ | Cancel r _ => Some r
  | RunCancel _ | Fault _ => None
  end.

Record DeliveryFrame := mkDelivery {
  delivery_ordinal : DeliveryOrdinal;
  delivery_kind : DeliveryKind;
}.

Inductive JournalFrame :=
| RequestEntry (request : RequestFrame)
| DeliveryEntry (delivery : DeliveryFrame).

Record JournalEntry := mkEntry {
  entry_position : JournalPosition;
  entry_frame : JournalFrame;
}.

Record ProgramJournal := mkJournal {
  journal_run : ProgramRunId;
  journal_entries : list JournalEntry;
}.

#[export] Instance ScopeRequest_eq_dec : EqDecision ScopeRequest.
Proof. assert (EqDecision ScopeOperation) by solve_decision. solve_decision. Defined.
#[export] Instance EffectRequest_eq_dec : EqDecision EffectRequest.
Proof. assert (EqDecision ProgramCapability) by solve_decision. solve_decision. Defined.
#[export] Instance RequestKind_eq_dec : EqDecision RequestKind.
Proof. solve_decision. Defined.
#[export] Instance RequestFrame_eq_dec : EqDecision RequestFrame.
Proof. solve_decision. Defined.

(** [matches!(kind, RequestKind::Terminal(_))] and
    [matches!(kind, RequestKind::Scope(_))] *)
Definition terminal_payload (kind : RequestKind) : option InlineFramePayload :=
  match kind with Terminal payload => Some payload | _ => None end.
Definition is_terminal_request (kind : RequestKind) : bool :=
  match kind with Terminal _ => true | _ => false end.
Definition is_scope (kind : RequestKind) : bool :=
  match kind with Scope _ => true | _ => false end.

(** ** Checked construction *)

Inductive ProgramJournalError :=
| NoncontiguousPosition
| NoncontiguousRequestOrdinal
| NoncontiguousDeliveryOrdinal
| UnknownResolvedRequest
| RequestResolvedTwice
| OrdinalExhausted
| InvalidTerminalResolution
| FrameAfterSuccess.

(** The locals of [ProgramJournal::try_new]. *)
Record JournalCheck := mkCheck {
  next_position : N;
  next_request : N;
  next_delivery : N;
  answerable : gset RequestOrdinal;
  resolved : gset RequestOrdinal;
  terminals : gmap RequestOrdinal N;
  refused_terminals : gset RequestOrdinal;
  ended : bool;
  succeeded : bool;
}.

Definition check_start : JournalCheck := mkCheck 1 1 1 ∅ ∅ ∅ ∅ false false.

Definition check_request (s : JournalCheck) (position : JournalPosition) (request : RequestFrame) :
    result ProgramJournalError JournalCheck :=
  if negb (journal_ordinal_as_u64 (request_ordinal request) =? next_request s)%N
  then Err NoncontiguousRequestOrdinal else
  next_request' ← ok_or (u64_checked_add (next_request s) 1) OrdinalExhausted;
  let terminal := is_terminal_request (request_kind request) in
  let outstanding := negb (size (answerable s) =? size (resolved s)) in
  Ok (mkCheck (next_position s) next_request' (next_delivery s)
    (if is_scope (request_kind request) then answerable s
     else {[ request_ordinal request ]} ∪ answerable s)
    (resolved s)
    (if terminal
     then <[ request_ordinal request := journal_ordinal_as_u64 position ]> (terminals s)
     else terminals s)
    (if terminal && outstanding
     then {[ request_ordinal request ]} ∪ refused_terminals s
     else refused_terminals s)
    (ended s) (succeeded s)).

(** The resolution of a terminal request: [Ok true] accepts it as success,
    [Ok false] is its refusal. *)
Definition check_terminal_resolution (s : JournalCheck) (position : JournalPosition)
    (kind : DeliveryKind) (request : RequestOrdinal) (terminal_position : N) :
    result ProgramJournalError bool :=
  match kind with
  | Answer _ _ =>
      if negb (ended s)
         && bool_decide (request ∉ refused_terminals s)
         && (journal_ordinal_as_u64 position =? terminal_position + 1)%N
         && (size (answerable s) =? size (resolved s) + 1)
      then Ok true else Err InvalidTerminalResolution
  | Reject _ OutstandingRequests =>
      if bool_decide (request ∈ refused_terminals s)
      then Ok false else Err InvalidTerminalResolution
  | _ => Err InvalidTerminalResolution
  end.

Definition check_resolution (s : JournalCheck) (position : JournalPosition) (kind : DeliveryKind)
    (request : RequestOrdinal) : result ProgramJournalError JournalCheck :=
  accepted ← match terminals s !! request with
             | Some terminal_position =>
                 check_terminal_resolution s position kind request terminal_position
             | None => Ok false
             end;
  if negb (bool_decide (request ∈ answerable s)) then Err UnknownResolvedRequest else
  if bool_decide (request ∈ resolved s) then Err RequestResolvedTwice else
  Ok (mkCheck (next_position s) (next_request s) (next_delivery s) (answerable s)
    ({[ request ]} ∪ resolved s) (terminals s) (refused_terminals s) (ended s)
    (accepted || succeeded s)).

Definition check_delivery (s : JournalCheck) (position : JournalPosition)
    (delivery : DeliveryFrame) : result ProgramJournalError JournalCheck :=
  if negb (journal_ordinal_as_u64 (delivery_ordinal delivery) =? next_delivery s)%N
  then Err NoncontiguousDeliveryOrdinal else
  next_delivery' ← ok_or (u64_checked_add (next_delivery s) 1) OrdinalExhausted;
  let s := mkCheck (next_position s) (next_request s) next_delivery' (answerable s) (resolved s)
             (terminals s) (refused_terminals s)
             (bool_decide (resolves (delivery_kind delivery) = None) || ended s) (succeeded s) in
  match resolves (delivery_kind delivery) with
  | Some request => check_resolution s position (delivery_kind delivery) request
  | None => Ok s
  end.

(** The body of the loop over the entries. *)
Definition check_entry (s : JournalCheck) (entry : JournalEntry) :
    result ProgramJournalError JournalCheck :=
  if succeeded s then Err FrameAfterSuccess else
  if negb (journal_ordinal_as_u64 (entry_position entry) =? next_position s)%N
  then Err NoncontiguousPosition else
  next_position' ← ok_or (u64_checked_add (next_position s) 1) OrdinalExhausted;
  let s := mkCheck next_position' (next_request s) (next_delivery s) (answerable s) (resolved s)
             (terminals s) (refused_terminals s) (ended s) (succeeded s) in
  match entry_frame entry with
  | RequestEntry request => check_request s (entry_position entry) request
  | DeliveryEntry delivery => check_delivery s (entry_position entry) delivery
  end.

Definition journal_try_new (run : ProgramRunId) (entries : list JournalEntry) :
    result ProgramJournalError ProgramJournal :=
  _ ← try_fold check_entry entries check_start;
  Ok (mkJournal run entries).

(** ** Outcome projections *)

Fixpoint terminal_delivery_from (terminals : gset RequestOrdinal) (entries : list JournalEntry) :
    option DeliveryFrame :=
  match entries with
  | [] => None
  | entry :: entries =>
      match entry_frame entry with
      | RequestEntry request =>
          terminal_delivery_from
            (if is_terminal_request (request_kind request)
             then {[ request_ordinal request ]} ∪ terminals else terminals) entries
      | DeliveryEntry delivery =>
          if bool_decide (resolves (delivery_kind delivery) = None)
             || match delivery_kind delivery with
                | Answer r _ => bool_decide (r ∈ terminals)
                | _ => false
                end
          then Some delivery
          else terminal_delivery_from terminals entries
      end
  end.

Definition terminal_delivery (journal : ProgramJournal) : option DeliveryFrame :=
  terminal_delivery_from ∅ (journal_entries journal).

(** [Iterator::find_map] is the head of the filtered image. *)
Definition terminal_request (journal : ProgramJournal) (ordinal : RequestOrdinal) :
    option InlineFramePayload :=
  head (omap (fun entry =>
    match entry_frame entry with
    | RequestEntry request =>
        if bool_decide (request_ordinal request = ordinal)
        then terminal_payload (request_kind request) else None
    | DeliveryEntry _ => None
    end) (journal_entries journal)).

Definition journal_result (journal : ProgramJournal) : option InlineFramePayload :=
  delivery ← terminal_delivery journal;
  match delivery_kind delivery with
  | Answer r _ => terminal_request journal r
  | _ => None
  end.

Definition track_outstanding (outstanding : gset RequestOrdinal) (entry : JournalEntry) :
    gset RequestOrdinal :=
  match entry_frame entry with
  | RequestEntry request =>
      if is_scope (request_kind request) then outstanding
      else {[ request_ordinal request ]} ∪ outstanding
  | DeliveryEntry delivery =>
      match resolves (delivery_kind delivery) with
      | Some ordinal => outstanding ∖ {[ ordinal ]}
      | None => outstanding
      end
  end.

Definition has_outstanding_requests (journal : ProgramJournal) : bool :=
  negb (bool_decide (foldl track_outstanding ∅ (journal_entries journal) = ∅)).

(** ** Replay *)

Inductive ReplayInstruction :=
| AwaitRequest
| Deliver (delivery : DeliveryFrame)
| LiveInstruction.

Inductive ReplayedRequest := Matched | DeliveryPending | LiveRequest.

Record NondeterminismError := mkNondeterminismError {
  nondeterminism_run : ProgramRunId;
  nondeterminism_expected : RequestFrame;
  nondeterminism_observed : RequestFrame;
}.

Definition into_fault (error : NondeterminismError) : ProgramFault :=
  Nondeterminism (nondeterminism_expected error) (nondeterminism_observed error).

Record ReplayCursor := mkCursor {
  cursor_run : ProgramRunId;
  cursor_entries : list JournalEntry;
  cursor_next : nat;
  cursor_live : bool;
}.

Definition cursor_new (journal : ProgramJournal) : ReplayCursor :=
  mkCursor (journal_run journal) (journal_entries journal) 0 false.

Definition set_next (c : ReplayCursor) (next : nat) : ReplayCursor :=
  mkCursor (cursor_run c) (cursor_entries c) next (cursor_live c).
Definition set_live (c : ReplayCursor) : ReplayCursor :=
  mkCursor (cursor_run c) (cursor_entries c) (cursor_next c) true.

Definition next_instruction (c : ReplayCursor) : ReplayInstruction * ReplayCursor :=
  if cursor_live c then (LiveInstruction, c) else
  match entry_frame <$> cursor_entries c !! cursor_next c with
  | Some (RequestEntry _) => (AwaitRequest, c)
  | Some (DeliveryEntry delivery) => (Deliver delivery, set_next c (S (cursor_next c)))
  | None => (LiveInstruction, set_live c)
  end.

(** The predicate of the search for a persisted nondeterminism fault. *)
Definition persists_fault_for (expected : RequestFrame) (entry : JournalEntry) : bool :=
  match entry_frame entry with
  | DeliveryEntry delivery =>
      match delivery_kind delivery with
      | Fault (Nondeterminism persisted_expected _) =>
          bool_decide (persisted_expected = expected)
      | _ => false
      end
  | RequestEntry _ => false
  end.

(** [entries.iter().enumerate().skip(next + 1).find(..)] *)
Definition find_persisted_fault (c : ReplayCursor) (expected : RequestFrame) : option nat :=
  (fun '(i, _) => cursor_next c + 1 + i)
    <$> list_find (fun entry => persists_fault_for expected entry = true)
          (drop (cursor_next c + 1) (cursor_entries c)).

Definition submit_request (c : ReplayCursor) (observed : RequestFrame) :
    result NondeterminismError ReplayedRequest * ReplayCursor :=
  if cursor_live c || (cursor_next c =? length (cursor_entries c))
  then (Ok LiveRequest, set_live c) else
  match entry_frame <$> cursor_entries c !! cursor_next c with
  | Some (RequestEntry expected) =>
      if bool_decide (expected = observed)
      then (Ok Matched, set_next c (S (cursor_next c)))
      else match find_persisted_fault c expected with
           | Some fault_index => (Ok Matched, set_next c fault_index)
           | None => (Err (mkNondeterminismError (cursor_run c) expected observed), c)
           end
  | _ => (Ok DeliveryPending, c)
  end.
