(* ===== verification/JournalSpec.v ===== *)
(** * What the program journal promises

    A declarative definition of legal frame streams, the proof that the
    single-pass check accepts exactly those, the meaning of the outcome
    projections, and the correctness of replay. *)

From stdpp Require Import strings.
From S2P Require Import Prelude Journal.

(** ** Legal frame streams *)

Definition entry_request (e : JournalEntry) : option RequestFrame :=
  match entry_frame e with RequestEntry r => Some r | DeliveryEntry _ => None end.
Definition entry_delivery (e : JournalEntry) : option DeliveryFrame :=
  match entry_frame e with RequestEntry _ => None | DeliveryEntry d => Some d end.
Definition entry_resolves (e : JournalEntry) : option RequestOrdinal :=
  d ← entry_delivery e; resolves (delivery_kind d).

Abbreviation requests := (omap entry_request).
Abbreviation deliveries := (omap entry_delivery).

(** A request that takes an answer was made in [l]; a delivery of [l]
    resolves it; it is waiting at the end of [l]. *)
Definition asked (l : list JournalEntry) (r : RequestOrdinal) : Prop :=
  exists e q, e ∈ l /\ entry_request e = Some q /\ request_ordinal q = r /\
    is_scope (request_kind q) = false.
Definition resolved_in (l : list JournalEntry) (r : RequestOrdinal) : Prop :=
  exists e, e ∈ l /\ entry_resolves e = Some r.
Definition outstanding_in (l : list JournalEntry) (r : RequestOrdinal) : Prop :=
  asked l r /\ ~ resolved_in l r.

(** The run was cancelled or faulted. *)
Definition ended_in (l : list JournalEntry) : Prop :=
  exists e d, e ∈ l /\ entry_delivery e = Some d /\ resolves (delivery_kind d) = None.

(** The terminal request [r] is entry [i] of [l]. *)
Definition terminal_at (l : list JournalEntry) (i : nat) (r : RequestOrdinal) : Prop :=
  exists e q, l !! i = Some e /\ entry_request e = Some q /\ request_ordinal q = r /\
    is_terminal_request (request_kind q) = true.

(** Entry [j] is the answer that accepts the terminal request at entry [i] as
    the run's success: it follows at once, the run has not ended, nothing was
    outstanding when the program asked to finish, and nothing comes after. *)
Definition accepts (l : list JournalEntry) (i j : nat) (d : DeliveryFrame) : Prop :=
  (exists r payload, delivery_kind d = Answer r payload) /\
  j = S i /\ S j = length l /\ ~ ended_in (take i l) /\
  (forall r, ~ outstanding_in (take i l) r).

(** The delivery refuses the terminal request at entry [i], which was made
    while another request was outstanding. *)
Definition refuses (l : list JournalEntry) (i : nat) (d : DeliveryFrame) : Prop :=
  (exists r, delivery_kind d = Reject r OutstandingRequests) /\
  (exists r, outstanding_in (take i l) r).

Record legal_journal (l : list JournalEntry) : Prop := {
  legal_positions : numbered (fun e => journal_ordinal_get (entry_position e)) l;
  legal_requests : numbered (fun q => journal_ordinal_get (request_ordinal q)) (requests l);
  legal_deliveries : numbered (fun d => journal_ordinal_get (delivery_ordinal d)) (deliveries l);
  legal_bounded : (N.of_nat (length l) < u64_max)%N;
  legal_resolution j e r :
    l !! j = Some e -> entry_resolves e = Some r ->
    asked (take j l) r /\ ~ resolved_in (take j l) r;
  legal_terminal i j e d r :
    terminal_at l i r -> l !! j = Some e -> entry_delivery e = Some d ->
    resolves (delivery_kind d) = Some r ->
    accepts l i j d \/ refuses l i d;
}.

(** ** Extending a stream by one entry *)

Section snoc.
Implicit Types (l : list JournalEntry).

Lemma requests_snoc l e : requests (l ++ [e]) = requests l ++ option_list (entry_request e).
Proof. rewrite omap_app. simpl. by destruct (entry_request e). Qed.

Lemma deliveries_snoc l e : deliveries (l ++ [e]) = deliveries l ++ option_list (entry_delivery e).
Proof. rewrite omap_app. simpl. by destruct (entry_delivery e). Qed.

Lemma asked_snoc l e r :
  asked (l ++ [e]) r <-> asked l r \/
    exists q, entry_request e = Some q /\ request_ordinal q = r /\ is_scope (request_kind q) = false.
Proof.
  unfold asked. setoid_rewrite elem_of_snoc. split.
  - intros (x & q & [? | ->] & ?); [left; by exists x, q|right; by exists q].
  - intros [(x & q & ? & ?)|(q & ?)]; [exists x, q; auto|exists e, q; auto].
Qed.

Lemma resolved_snoc l e r :
  resolved_in (l ++ [e]) r <-> resolved_in l r \/ entry_resolves e = Some r.
Proof.
  unfold resolved_in. setoid_rewrite elem_of_snoc. split.
  - intros (x & [? | ->] & ?); [left; by exists x|by right].
  - intros [(x & ? & ?)|?]; [exists x; auto|exists e; auto].
Qed.

Lemma ended_snoc l e :
  ended_in (l ++ [e]) <-> ended_in l \/
    exists d, entry_delivery e = Some d /\ resolves (delivery_kind d) = None.
Proof.
  unfold ended_in. setoid_rewrite elem_of_snoc. split.
  - intros (x & d & [? | ->] & ?); [left; by exists x, d|right; by exists d].
  - intros [(x & d & ? & ?)|(d & ?)]; [exists x, d; auto|exists e, d; auto].
Qed.

Lemma terminal_at_snoc l e i r :
  terminal_at (l ++ [e]) i r <-> terminal_at l i r \/
    i = length l /\ exists q, entry_request e = Some q /\ request_ordinal q = r /\
      is_terminal_request (request_kind q) = true.
Proof.
  unfold terminal_at. setoid_rewrite lookup_snoc_Some. split.
  - intros (x & q & [? | [-> ->]] & ?); [left; by exists x, q|right; split; [done|by exists q]].
  - intros [(x & q & ? & ?)|(-> & q & ?)]; [exists x, q; auto|exists e, q; auto].
Qed.

Lemma take_snoc_le l e i : i <= length l -> take i (l ++ [e]) = take i l.
Proof. apply take_app_le. Qed.

Lemma terminal_at_lt l i r : terminal_at l i r -> i < length l.
Proof. intros (e & q & He & _). by apply lookup_lt_Some in He. Qed.

Lemma asked_take l i r : asked (take i l) r -> asked l r.
Proof. rewrite <- (take_drop i l) at 2. intros (e & q & He & ?). exists e, q. set_solver. Qed.

Lemma resolved_take l i r : resolved_in (take i l) r -> resolved_in l r.
Proof. rewrite <- (take_drop i l) at 2. intros (e & He & ?). exists e. set_solver. Qed.
End snoc.

(** Request frames are determined by their ordinal. *)
Lemma numbered_inj {A} (f : A -> positive) l i j x y :
  numbered f l -> l !! i = Some x -> l !! j = Some y -> f x = f y -> i = j.
Proof. intros H Hi Hj. rewrite (H _ _ Hi), (H _ _ Hj). lia. Qed.

Lemma request_index l i e q :
  numbered (fun q => journal_ordinal_get (request_ordinal q)) (requests l) ->
  l !! i = Some e -> entry_request e = Some q ->
  journal_ordinal_get (request_ordinal q) = Pos.of_succ_nat (length (requests (take i l))).
Proof.
  intros Hn Hi Hq. apply Hn.
  assert (requests l = requests (take i l) ++ q :: requests (drop (S i) l)) as ->.
  { rewrite <- (take_drop_middle l i e Hi) at 1. rewrite omap_app. simpl. by rewrite Hq. }
  by rewrite lookup_app_r, Nat.sub_diag by lia.
Qed.

Lemma request_position_inj l i j ei ej qi qj :
  numbered (fun q => journal_ordinal_get (request_ordinal q)) (requests l) ->
  l !! i = Some ei -> entry_request ei = Some qi ->
  l !! j = Some ej -> entry_request ej = Some qj ->
  request_ordinal qi = request_ordinal qj -> i = j.
Proof.
  assert (forall i j ei ej qi qj,
    numbered (fun q => journal_ordinal_get (request_ordinal q)) (requests l) ->
    l !! i = Some ei -> entry_request ei = Some qi -> l !! j = Some ej ->
    entry_request ej = Some qj -> request_ordinal qi = request_ordinal qj -> ~ i < j) as Hlt.
  { clear. intros i j ei ej qi qj Hn Hi Hqi Hj Hqj Heq Hij.
    pose proof (request_index _ _ _ _ Hn Hi Hqi) as H1.
    pose proof (request_index _ _ _ _ Hn Hj Hqj) as H2. rewrite Heq, H2 in H1.
    assert (take j l !! i = Some ei) as Hti by by rewrite lookup_take_lt.
    rewrite <- (take_drop_middle _ _ _ Hti), take_take, Nat.min_l in H1 by lia.
    rewrite omap_app, length_app in H1. simpl in H1. rewrite Hqi in H1. simpl in H1. lia. }
  intros. destruct (Nat.lt_trichotomy i j) as [?|[?|?]]; [|done|]; exfalso.
  - by eapply (Hlt i j).
  - by eapply (Hlt j i).
Qed.

Lemma terminal_at_inj l i j r :
  legal_journal l -> terminal_at l i r -> terminal_at l j r -> i = j.
Proof.
  intros Hl (ei & qi & ? & ? & Hi & _) (ej & qj & ? & ? & Hj & _).
  eapply (request_position_inj l i j ei ej qi qj); eauto using legal_requests. congruence.
Qed.

(** The stream ends in an accepted success. *)
Definition accepted_in (l : list JournalEntry) : Prop :=
  exists i j e d r payload, terminal_at l i r /\ l !! j = Some e /\
    entry_delivery e = Some d /\ delivery_kind d = Answer r payload.

(** What one more entry must satisfy. *)
Record admissible (l : list JournalEntry) (x : JournalEntry) : Prop := {
  adm_open : ~ accepted_in l;
  adm_position : journal_ordinal_get (entry_position x) = Pos.of_succ_nat (length l);
  adm_bounded : (N.of_nat (S (length l)) < u64_max)%N;
  adm_request q : entry_request x = Some q ->
    journal_ordinal_get (request_ordinal q) = Pos.of_succ_nat (length (requests l));
  adm_delivery d : entry_delivery x = Some d ->
    journal_ordinal_get (delivery_ordinal d) = Pos.of_succ_nat (length (deliveries l));
  adm_resolution r : entry_resolves x = Some r -> asked l r /\ ~ resolved_in l r;
  adm_terminal i d r : terminal_at l i r -> entry_delivery x = Some d ->
    resolves (delivery_kind d) = Some r ->
    accepts (l ++ [x]) i (length l) d \/ refuses (l ++ [x]) i d;
}.

Lemma entry_resolves_Some e r :
  entry_resolves e = Some r <->
  exists d, entry_delivery e = Some d /\ resolves (delivery_kind d) = Some r.
Proof. unfold entry_resolves. by rewrite bind_Some. Qed.

Lemma numbered_omap_snoc {A B} (g : A -> option B) (f : B -> positive) l x :
  numbered f (omap g (l ++ [x])) <->
  numbered f (omap g l) /\
  (forall y, g x = Some y -> f y = Pos.of_succ_nat (length (omap g l))).
Proof.
  rewrite omap_app. simpl. destruct (g x) as [y|].
  - rewrite numbered_snoc. naive_solver.
  - rewrite app_nil_r. naive_solver.
Qed.

Lemma length_omap_le {A B} (f : A -> option B) (l : list A) : length (omap f l) <= length l.
Proof. induction l as [|x l IH]; csimpl; [done|]. destruct (f x); csimpl; lia. Qed.

Lemma request_not_delivery e q d : entry_request e = Some q -> entry_delivery e = Some d -> False.
Proof. unfold entry_request, entry_delivery. by destruct (entry_frame e). Qed.

Lemma refuses_snoc l e i d : i <= length l -> refuses (l ++ [e]) i d <-> refuses l i d.
Proof. intros Hi. unfold refuses. by rewrite take_snoc_le. Qed.

Lemma legal_snoc_prefix l x : legal_journal (l ++ [x]) -> legal_journal l.
Proof.
  intros H. split.
  - by pose proof (proj1 (numbered_snoc _ _ _) (legal_positions _ H)) as [? _].
  - by pose proof (proj1 (numbered_omap_snoc _ _ _ _) (legal_requests _ H)) as [? _].
  - by pose proof (proj1 (numbered_omap_snoc _ _ _ _) (legal_deliveries _ H)) as [? _].
  - pose proof (legal_bounded _ H) as Hb. rewrite length_app in Hb. simpl in Hb.
    revert Hb. generalize u64_max. lia.
  - intros j e r Hj Hr. pose proof (lookup_lt_Some _ _ _ Hj).
    rewrite <- (take_snoc_le l x j) by lia. apply (legal_resolution _ H j e); [|done].
    rewrite lookup_snoc_Some. by left.
  - intros i j e d r Ht Hj Hd Hr. pose proof (lookup_lt_Some _ _ _ Hj).
    pose proof (terminal_at_lt _ _ _ Ht).
    destruct (legal_terminal _ H i j e d r) as [Ha|Hf]; [..|by right; apply (refuses_snoc _ x); [lia|]].
    + rewrite terminal_at_snoc. by left.
    + rewrite lookup_snoc_Some. by left.
    + done.
    + done.
    + exfalso. destruct Ha as (_ & _ & Hlen & _). rewrite length_app in Hlen. simpl in Hlen. lia.
Qed.

Lemma legal_snoc_admissible l x : legal_journal (l ++ [x]) -> admissible l x.
Proof.
  intros H. split.
  - intros (i & j & e & d & r & payload & Ht & Hj & Hd & Hk).
    pose proof (lookup_lt_Some _ _ _ Hj). pose proof (terminal_at_lt _ _ _ Ht).
    destruct (legal_terminal _ H i j e d r) as [(_ & _ & Hlen & _)|((r' & Hk') & _)].
    + rewrite terminal_at_snoc. by left.
    + rewrite lookup_snoc_Some. by left.
    + done.
    + by rewrite Hk.
    + rewrite length_app in Hlen. simpl in Hlen. lia.
    + congruence.
  - by pose proof (proj1 (numbered_snoc _ _ _) (legal_positions _ H)) as [_ ?].
  - pose proof (legal_bounded _ H) as Hb. rewrite length_app in Hb. simpl in Hb.
    revert Hb. generalize u64_max. lia.
  - by pose proof (proj1 (numbered_omap_snoc _ _ _ _) (legal_requests _ H)) as [_ ?].
  - by pose proof (proj1 (numbered_omap_snoc _ _ _ _) (legal_deliveries _ H)) as [_ ?].
  - intros r Hr. rewrite <- (take_app_length l [x]). apply (legal_resolution _ H _ x); [|done].
    rewrite lookup_snoc_Some. by right.
  - intros i d r Ht Hd Hr. apply (legal_terminal _ H i (length l) x d r); [|..|done|done].
    + rewrite terminal_at_snoc. by left.
    + rewrite lookup_snoc_Some. by right.
Qed.

Lemma asked_terminal l i r : terminal_at l i r -> asked l r.
Proof.
  intros (e & q & He & Hq & Hr & Ht). exists e, q. split_and!; [|done..|].
  - by eapply list_elem_of_lookup_2.
  - by destruct (request_kind q).
Qed.

(** A request with the next ordinal was not made before. *)
Lemma fresh_request l q :
  legal_journal l ->
  journal_ordinal_get (request_ordinal q) = Pos.of_succ_nat (length (requests l)) ->
  ~ asked l (request_ordinal q).
Proof.
  intros H Hn (e1 & q1 & He1 & Hq1 & Hr1 & _). apply list_elem_of_lookup in He1 as (k & Hk).
  pose proof (request_index _ _ _ _ (legal_requests _ H) Hk Hq1) as H1.
  rewrite Hr1, Hn in H1. rewrite <- (take_drop_middle _ _ _ Hk) in H1 at 1.
  rewrite omap_app, length_app in H1. simpl in H1. rewrite Hq1 in H1. simpl in H1. lia.
Qed.

Lemma legal_snoc_intro l x : legal_journal l -> admissible l x -> legal_journal (l ++ [x]).
Proof.
  intros H Hx. split.
  - rewrite numbered_snoc. split; [apply H|apply Hx].
  - apply numbered_omap_snoc. split; [apply H|apply Hx].
  - apply numbered_omap_snoc. split; [apply H|apply Hx].
  - pose proof (adm_bounded _ _ Hx) as Hb. rewrite length_app. simpl.
    revert Hb. generalize u64_max. lia.
  - intros j e r [Hj|[-> ->]]%lookup_snoc_Some Hr.
    + pose proof (lookup_lt_Some _ _ _ Hj). rewrite take_snoc_le by lia.
      by apply (legal_resolution _ H j e).
    + rewrite take_app_length. by apply (adm_resolution _ _ Hx).
  - intros i j e d r Ht Hj Hd Hr. apply lookup_snoc_Some in Hj as [Hj|[-> ->]].
    + destruct (proj1 (terminal_at_snoc _ _ _ _) Ht) as [Ht'|[-> (q & Hq & Hqr & Hqt)]].
      * pose proof (terminal_at_lt _ _ _ Ht').
        destruct (legal_terminal _ H i j e d r) as [Ha|Hf]; [done..| |].
        -- destruct Ha as ((r' & payload & Hk) & _). rewrite Hk in Hr. injection Hr as ->.
           destruct (adm_open _ _ Hx). by exists i, j, e, d, r, payload.
        -- right. by apply refuses_snoc; [lia|].
      * exfalso. destruct (legal_resolution _ H j e r) as [Ha _]; [done| |].
        { apply entry_resolves_Some. by exists d. }
        apply asked_take in Ha. rewrite <- Hqr in Ha. revert Ha.
        apply fresh_request; [done|by apply (adm_request _ _ Hx)].
    + apply terminal_at_snoc in Ht as [Ht|[_ (q & Hq & _)]]; [|by destruct (request_not_delivery x q d)].
      by apply (adm_terminal _ _ Hx i d r).
Qed.

Lemma legal_snoc l x : legal_journal (l ++ [x]) <-> legal_journal l /\ admissible l x.
Proof.
  split; [intros H|intros [? ?]; by apply legal_snoc_intro].
  split; [by eapply legal_snoc_prefix|by apply legal_snoc_admissible].
Qed.

(** ** The single-pass check against the declarative definition *)

(** What the sets and flags of the loop hold after the entries [l], and what
    its counters hold. *)
Record tables_inv (l : list JournalEntry) (s : JournalCheck) : Prop := {
  inv_answerable r : r ∈ answerable s <-> asked l r;
  inv_resolved r : r ∈ resolved s <-> resolved_in l r;
  inv_terminals r n : terminals s !! r = Some n <-> exists i, terminal_at l i r /\ n = N.of_nat (S i);
  inv_refused r : r ∈ refused_terminals s <->
    exists i, terminal_at l i r /\ exists r', outstanding_in (take i l) r';
  inv_ended : ended s = true <-> ended_in l;
  inv_succeeded : succeeded s = true <-> accepted_in l;
}.

Record check_inv (l : list JournalEntry) (s : JournalCheck) : Prop := {
  inv_next_position : next_position s = N.of_nat (S (length l));
  inv_next_request : next_request s = N.of_nat (S (length (requests l)));
  inv_next_delivery : next_delivery s = N.of_nat (S (length (deliveries l)));
  inv_tables : tables_inv l s;
}.

Lemma ordinal_as_u64_eq {o} (n : journal_ordinal o) k :
  journal_ordinal_as_u64 n = N.of_nat (S k) <-> journal_ordinal_get n = Pos.of_succ_nat k.
Proof.
  unfold journal_ordinal_as_u64. change (N.of_nat (S k)) with (N.pos (Pos.of_succ_nat k)).
  split; congruence.
Qed.

Lemma resolved_asked l r : legal_journal l -> resolved_in l r -> asked l r.
Proof.
  intros H (e & He & Hr). apply list_elem_of_lookup in He as (j & Hj).
  destruct (legal_resolution _ H j e r Hj Hr) as [? _]. by eapply asked_take.
Qed.

(** Comparing the sizes of the two sets detects an outstanding request. *)
Lemma sizes_outstanding l s :
  legal_journal l -> (forall r, r ∈ answerable s <-> asked l r) ->
  (forall r, r ∈ resolved s <-> resolved_in l r) ->
  size (answerable s) = size (resolved s) <-> forall r, ~ outstanding_in l r.
Proof.
  intros H Ha Hr.
  assert (resolved s ⊆ answerable s) as Hsub.
  { intros r. rewrite Ha, Hr. by apply resolved_asked. }
  split.
  - intros Hsz r [Hask Hres]. apply set_subseteq_size_eq in Hsub; [|lia].
    rewrite <- Ha in Hask. rewrite <- Hr in Hres. set_solver.
  - intros Hno. assert (answerable s ≡ resolved s) as ->; [|done].
    intros r. split; [|apply Hsub]. intros Hin. destruct (decide (r ∈ resolved s)) as [|Hn]; [done|].
    destruct (Hno r). split; [by apply Ha|by rewrite <- Hr].
Qed.

(** The sets after the terminal request of an immediate answer. *)
Lemma sizes_immediate l s i r :
  legal_journal l -> tables_inv l s -> terminal_at l i r -> S i = length l ->
  (forall r', ~ outstanding_in (take i l) r') ->
  size (answerable s) = size (resolved s) + 1 /\ (ended_in l -> ended_in (take i l)).
Proof.
  intros H Hs Ht Hi Hno. destruct Ht as (e & q & He & Hq & Hqr & Hqt).
  assert (l = take i l ++ [e]) as Hl.
  { rewrite <- (take_drop_middle l i e He) at 1. by rewrite drop_ge by lia. }
  assert (legal_journal (take i l)) as Hl'.
  { rewrite Hl in H. by apply legal_snoc_prefix in H. }
  assert (is_scope (request_kind q) = false) as Hsc by by destruct (request_kind q).
  assert (entry_resolves e = None) as Hres.
  { unfold entry_resolves, entry_delivery. unfold entry_request in Hq. by destruct (entry_frame e). }
  assert (~ resolved_in l r) as Hnr.
  { rewrite Hl, resolved_snoc, Hres. intros [Hr|?]; [|done].
    apply resolved_asked in Hr as (e1 & q1 & He1 & Hq1 & Hr1 & _); [|done].
    apply list_elem_of_lookup in He1 as (k & Hk). pose proof (lookup_lt_Some _ _ _ Hk) as Hlt.
    rewrite length_take in Hlt. rewrite lookup_take_lt in Hk by lia.
    assert (i = k); [|lia]. eapply (request_position_inj l); eauto using legal_requests. congruence. }
  split.
  - assert (answerable s ≡ {[ r ]} ∪ resolved s) as ->.
    { intros r'. rewrite elem_of_union, elem_of_singleton, (inv_answerable _ _ Hs), (inv_resolved _ _ Hs).
      rewrite Hl, asked_snoc, resolved_snoc, Hres. split.
      - intros [Ha|(q1 & Hq1 & <- & _)]; [|left; congruence].
        right. left. destruct (decide (r' ∈ resolved s)) as [Hin|Hn].
        + rewrite (inv_resolved _ _ Hs), Hl, resolved_snoc, Hres in Hin. by destruct Hin.
        + exfalso. apply (Hno r'). split; [done|]. intros Hr. apply Hn.
          rewrite (inv_resolved _ _ Hs). by eapply resolved_take.
      - intros [->|[Hr|?]]; [right; by exists q|left; by apply resolved_asked|done]. }
    rewrite size_union, size_singleton; [lia|].
    apply disjoint_singleton_l. by rewrite (inv_resolved _ _ Hs).
  - rewrite Hl at 1. rewrite ended_snoc. intros [?|(d & Hd & _)]; [done|].
    by destruct (request_not_delivery e q d).
Qed.

(** Why an entry is refused. *)
Definition violation (l : list JournalEntry) (x : JournalEntry) (e : ProgramJournalError) : Prop :=
  match e with
  | FrameAfterSuccess => accepted_in l
  | NoncontiguousPosition =>
      journal_ordinal_get (entry_position x) <> Pos.of_succ_nat (length l)
  | OrdinalExhausted => (u64_max <= N.of_nat (S (length l)))%N
  | NoncontiguousRequestOrdinal => exists q, entry_request x = Some q /\
      journal_ordinal_get (request_ordinal q) <> Pos.of_succ_nat (length (requests l))
  | NoncontiguousDeliveryOrdinal => exists d, entry_delivery x = Some d /\
      journal_ordinal_get (delivery_ordinal d) <> Pos.of_succ_nat (length (deliveries l))
  | UnknownResolvedRequest => exists r, entry_resolves x = Some r /\ ~ asked l r
  | RequestResolvedTwice => exists r, entry_resolves x = Some r /\ resolved_in l r
  | InvalidTerminalResolution => exists i d r,
      terminal_at l i r /\ entry_delivery x = Some d /\ resolves (delivery_kind d) = Some r /\
      ~ accepts (l ++ [x]) i (length l) d /\ ~ refuses (l ++ [x]) i d
  end.

Lemma violation_not_admissible l x e : violation l x e -> ~ admissible l x.
Proof.
  intros Hv Hx. destruct e; simpl in Hv.
  - by apply Hv, Hx.
  - destruct Hv as (q & Hq & Hv). by apply Hv, Hx.
  - destruct Hv as (d & Hd & Hv). by apply Hv, Hx.
  - destruct Hv as (r & Hr & Hv). by apply Hv, Hx.
  - destruct Hv as (r & Hr & Hv). by apply (adm_resolution _ _ Hx r Hr).
  - pose proof (adm_bounded _ _ Hx) as Hb. revert Hv Hb. generalize u64_max. lia.
  - destruct Hv as (i & d & r & Ht & Hd & Hr & Ha & Hf).
    by destruct (adm_terminal _ _ Hx i d r Ht Hd Hr).
  - by apply (adm_open _ _ Hx).
Qed.

Lemma accepts_snoc l x i d :
  i < length l ->
  accepts (l ++ [x]) i (length l) d <->
  (exists r payload, delivery_kind d = Answer r payload) /\ S i = length l /\
    ~ ended_in (take i l) /\ (forall r, ~ outstanding_in (take i l) r).
Proof.
  intros Hi. unfold accepts. rewrite take_snoc_le by lia. rewrite length_app. simpl.
  split; intros (? & ? & H); split_and!; try done; try lia; naive_solver.
Qed.

(** The terminal rule, for the delivery that follows the entries [l]. *)
Lemma check_terminal_resolution_spec l s x d i r :
  legal_journal l -> tables_inv l s ->
  journal_ordinal_as_u64 (entry_position x) = N.of_nat (S (length l)) ->
  terminal_at l i r ->
  match check_terminal_resolution s (entry_position x) (delivery_kind d) r (N.of_nat (S i)) with
  | Ok true => accepts (l ++ [x]) i (length l) d
  | Ok false => refuses (l ++ [x]) i d
  | Err e => e = InvalidTerminalResolution /\
      ~ accepts (l ++ [x]) i (length l) d /\ ~ refuses (l ++ [x]) i d
  end.
Proof.
  intros H Hs Hp Ht. pose proof (terminal_at_lt _ _ _ Ht) as Hi.
  assert (r ∈ refused_terminals s <-> exists r', outstanding_in (take i l) r') as Href.
  { rewrite (inv_refused _ _ Hs). split; [|by exists i].
    intros (j & Hj & ?). by rewrite (terminal_at_inj l i j r). }
  pose proof (accepts_snoc l x i d Hi) as Ha.
  pose proof (refuses_snoc l x i d (Nat.lt_le_incl _ _ Hi)) as Hf.
  assert (forall A A' R R' (m : result ProgramJournalError bool), (A <-> A') -> (R <-> R') ->
    match m with Ok true => A' | Ok false => R' | Err e => e = InvalidTerminalResolution /\ ~ A' /\ ~ R' end ->
    match m with Ok true => A | Ok false => R | Err e => e = InvalidTerminalResolution /\ ~ A /\ ~ R end)
    as Htransfer by (intros A A' R R' [[]|]; tauto).
  apply (Htransfer _ _ _ _ _ Ha Hf). clear Ha Hf Htransfer.
  unfold check_terminal_resolution, refuses. rewrite Hp. destruct (delivery_kind d) as [r' payload| |r' []| | |] eqn:Hk;
    try (split; [done|split; [intros ((? & ? & ?) & _)|intros ((? & ?) & _)]; done]).
  - destruct (_ && _) eqn:Hb.
    + rewrite !andb_true_iff, negb_true_iff, bool_decide_eq_true, N.eqb_eq in Hb.
      destruct Hb as [[[He Hnr] Hpos] _]. rewrite Href in Hnr.
      split_and!; [by eauto|lia| |naive_solver].
      intros Hen. assert (ended_in l) as Hen'; [|apply (inv_ended _ _ Hs) in Hen'; congruence].
      destruct Hen as (e & d' & He' & ?). exists e, d'. split; [|done].
      by eapply elem_of_take in He' as (? & ? & _); eapply list_elem_of_lookup_2.
    + split; [done|]. split; [|intros ((? & ?) & _); done]. intros (_ & Hi' & Hne & Hno).
      destruct (sizes_immediate l s i r H Hs Ht Hi' Hno) as [Hsz Hen].
      assert (ended s = false) as He.
      { apply not_true_is_false. rewrite (inv_ended _ _ Hs). auto. }
      rewrite He, Hsz, Nat.eqb_refl, bool_decide_eq_true_2 in Hb; [|rewrite Href; naive_solver].
      rewrite andb_true_r in Hb. apply N.eqb_neq in Hb. lia.
  - case_bool_decide as Hin.
    + split; [by eauto|]. by apply Href.
    + split; [done|]. split; [intros ((? & ? & ?) & _); done|]. intros [_ ?]. by apply Hin, Href.
Qed.

Lemma accepted_snoc_delivery l x d :
  entry_delivery x = Some d ->
  accepted_in (l ++ [x]) <-> accepted_in l \/
    exists i r payload, terminal_at l i r /\ delivery_kind d = Answer r payload.
Proof.
  intros Hd.
  assert (forall i r, terminal_at (l ++ [x]) i r <-> terminal_at l i r) as Ht.
  { intros i r. rewrite terminal_at_snoc. split; [|by left].
    intros [?|(_ & q & Hq & _)]; [done|by destruct (request_not_delivery x q d)]. }
  split.
  - intros (i & j & e & d' & r & payload & Hi & [Hj|[-> ->]]%lookup_snoc_Some & Hd' & Hk);
      rewrite Ht in Hi; simplify_eq.
    + left. by exists i, j, e, d', r, payload.
    + right. by exists i, r, payload.
  - intros [(i & j & e & d' & r & payload & Hi & Hj & Hd' & Hk)|(i & r & payload & Hi & Hk)].
    + exists i, j, e, d', r, payload. rewrite Ht, lookup_snoc_Some. auto.
    + exists i, (length l), x, d, r, payload. rewrite Ht, lookup_snoc_Some. auto.
Qed.

Lemma accepted_snoc_request l x q :
  legal_journal l -> entry_request x = Some q ->
  journal_ordinal_get (request_ordinal q) = Pos.of_succ_nat (length (requests l)) ->
  accepted_in (l ++ [x]) <-> accepted_in l.
Proof.
  intros H Hq Hn. split.
  - intros (i & j & e & d & r & payload & Hi & [Hj|[-> ->]]%lookup_snoc_Some & Hd & Hk);
      [|by destruct (request_not_delivery x q d)].
    apply terminal_at_snoc in Hi as [Hi|(_ & q' & Hq' & Hr & _)]; [by exists i, j, e, d, r, payload|].
    rewrite Hq in Hq'. injection Hq' as <-. rewrite <- Hr in Hk. destruct (fresh_request l q H Hn). apply (asked_take l j).
    apply (legal_resolution _ H j e); [done|]. apply entry_resolves_Some. exists d. by rewrite Hk.
  - intros (i & j & e & d & r & payload & Hi & Hj & Hd & Hk). exists i, j, e, d, r, payload.
    rewrite terminal_at_snoc, lookup_snoc_Some. auto.
Qed.

Lemma refused_snoc l x r :
  (exists i, terminal_at l i r /\ exists r', outstanding_in (take i (l ++ [x])) r') <->
  (exists i, terminal_at l i r /\ exists r', outstanding_in (take i l) r').
Proof.
  split; intros (i & Hi & Ho); exists i; split; try done; pose proof (terminal_at_lt _ _ _ Hi).
  - by rewrite take_snoc_le in Ho by lia.
  - by rewrite take_snoc_le by lia.
Qed.

(** The sets after one more delivery. *)
Lemma tables_inv_delivery l s x d s' :
  tables_inv l s -> entry_delivery x = Some d ->
  answerable s' = answerable s -> terminals s' = terminals s ->
  refused_terminals s' = refused_terminals s ->
  (forall r, r ∈ resolved s' <-> r ∈ resolved s \/ resolves (delivery_kind d) = Some r) ->
  (ended s' = true <-> ended s = true \/ resolves (delivery_kind d) = None) ->
  (succeeded s' = true <-> succeeded s = true \/
    exists i r payload, terminal_at l i r /\ delivery_kind d = Answer r payload) ->
  tables_inv (l ++ [x]) s'.
Proof.
  intros Hs Hd Ha Ht Hf Hr He Hsu.
  assert (entry_request x = None) as Hq.
  { unfold entry_request. unfold entry_delivery in Hd. by destruct (entry_frame x). }
  assert (forall i r, terminal_at (l ++ [x]) i r <-> terminal_at l i r) as Hta.
  { intros i r. rewrite terminal_at_snoc, Hq. split; [|by left]. by intros [?|(_ & ? & ? & _)]. }
  split; intros.
  - rewrite Ha, (inv_answerable _ _ Hs), asked_snoc, Hq. split; [by left|]. by intros [?|(? & ? & _)].
  - rewrite Hr, (inv_resolved _ _ Hs), resolved_snoc, entry_resolves_Some, Hd. naive_solver.
  - rewrite Ht, (inv_terminals _ _ Hs). by setoid_rewrite Hta.
  - rewrite Hf, (inv_refused _ _ Hs), <- (refused_snoc l x). by setoid_rewrite Hta.
  - rewrite He, (inv_ended _ _ Hs), ended_snoc, Hd. naive_solver.
  - rewrite Hsu, (inv_succeeded _ _ Hs). symmetry. by apply accepted_snoc_delivery.
Qed.

Lemma check_resolution_spec l s x d r :
  legal_journal l -> tables_inv l s -> ~ accepted_in l ->
  journal_ordinal_as_u64 (entry_position x) = N.of_nat (S (length l)) ->
  entry_delivery x = Some d -> resolves (delivery_kind d) = Some r ->
  match check_resolution s (entry_position x) (delivery_kind d) r with
  | Ok s' =>
      asked l r /\ ~ resolved_in l r /\
      (forall i, terminal_at l i r ->
         accepts (l ++ [x]) i (length l) d \/ refuses (l ++ [x]) i d) /\
      next_position s' = next_position s /\ next_request s' = next_request s /\
      next_delivery s' = next_delivery s /\ tables_inv (l ++ [x]) s'
  | Err e => violation l x e
  end.
Proof.
  intros H Hs Hopen Hp Hd Hr. unfold check_resolution.
  assert (entry_resolves x = Some r) as Hxr by (apply entry_resolves_Some; eauto).
  assert (forall accepted, 
    (accepted = true <-> exists i r' payload, terminal_at l i r' /\ delivery_kind d = Answer r' payload) ->
    r ∉ resolved s ->
    tables_inv (l ++ [x]) (mkCheck (next_position s) (next_request s) (next_delivery s) (answerable s)
      ({[ r ]} ∪ resolved s) (terminals s) (refused_terminals s) (ended s) (accepted || succeeded s)))
    as Htables.
  { intros accepted Hacc _. apply (tables_inv_delivery l s x d); simpl; try done.
    - intros r'. rewrite Hr. set_solver.
    - rewrite Hr. naive_solver.
    - rewrite orb_true_iff, Hacc. naive_solver. }
  destruct (terminals s !! r) as [n|] eqn:Hn.
  - apply (inv_terminals _ _ Hs) in Hn as (i & Ht & ->).
    pose proof (check_terminal_resolution_spec l s x d i r H Hs Hp Ht) as Hspec.
    pose proof (asked_terminal _ _ _ Ht) as Hask.
    destruct (check_terminal_resolution _ _ _ _ _) as [b|e]; simpl;
      [|destruct Hspec as (-> & ? & ?); by exists i, d, r].
    rewrite bool_decide_eq_true_2 by (by apply (inv_answerable _ _ Hs)). simpl.
    case_bool_decide as Hres; [exists r; split; [done|by apply (inv_resolved _ _ Hs)]|].
    split_and!; [done|by rewrite <- (inv_resolved _ _ Hs)|..|done|done|done|].
    + intros j Hj. rewrite (terminal_at_inj l j i r) by done. destruct b; auto.
    + apply Htables; [|done]. destruct b; split; try done.
      * intros _. destruct Hspec as ((r' & payload & Hk) & _). exists i, r', payload.
        rewrite Hk in Hr. by injection Hr as ->.
      * intros (? & ? & ? & _ & Hk). destruct Hspec as ((? & Hk') & _). congruence.
  - simpl. assert (forall i, ~ terminal_at l i r) as Hnt.
    { intros i Hi. assert (terminals s !! r = Some (N.of_nat (S i))); [|congruence].
      apply (inv_terminals _ _ Hs). eauto. }
    case_bool_decide as Hask; simpl; [|exists r; by rewrite <- (inv_answerable _ _ Hs)].
    case_bool_decide as Hres; [exists r; split; [done|by apply (inv_resolved _ _ Hs)]|].
    split_and!; [by apply (inv_answerable _ _ Hs)|by rewrite <- (inv_resolved _ _ Hs)|..|done|done|done|].
    + intros i Hi. by destruct (Hnt i).
    + apply (Htables false); [|done]. split; [done|]. intros (i & r' & payload & Hi & Hk).
      rewrite Hk in Hr. injection Hr as ->. by destruct (Hnt i).
Qed.

(** The sets after one more request; [outstanding] is the comparison of the
    sizes of the two sets. *)
Lemma tables_inv_request l s x q s' :
  legal_journal l -> tables_inv l s -> entry_request x = Some q ->
  journal_ordinal_get (request_ordinal q) = Pos.of_succ_nat (length (requests l)) ->
  (forall r, r ∈ answerable s' <->
     r ∈ answerable s \/ request_ordinal q = r /\ is_scope (request_kind q) = false) ->
  resolved s' = resolved s -> ended s' = ended s -> succeeded s' = succeeded s ->
  terminals s' = (if is_terminal_request (request_kind q)
                  then <[request_ordinal q := N.of_nat (S (length l))]> (terminals s)
                  else terminals s) ->
  (forall r, r ∈ refused_terminals s' <-> r ∈ refused_terminals s \/
     request_ordinal q = r /\ is_terminal_request (request_kind q) = true /\
     size (answerable s) <> size (resolved s)) ->
  tables_inv (l ++ [x]) s'.
Proof.
  intros H Hs Hq Hn Ha Hr He Hsu Ht Hf.
  assert (entry_delivery x = None) as Hd.
  { unfold entry_delivery. unfold entry_request in Hq. by destruct (entry_frame x). }
  assert (forall i r, terminal_at (l ++ [x]) i r <-> terminal_at l i r \/
    i = length l /\ request_ordinal q = r /\ is_terminal_request (request_kind q) = true) as Hta.
  { intros i r. rewrite terminal_at_snoc, Hq. naive_solver. }
  assert (forall i, ~ terminal_at l i (request_ordinal q)) as Hfresh.
  { intros i Hi. by apply (fresh_request l q H Hn), (asked_terminal l i). }
  split.
  - intros r. rewrite Ha, (inv_answerable _ _ Hs), asked_snoc, Hq. naive_solver.
  - intros r. rewrite Hr, (inv_resolved _ _ Hs), resolved_snoc. unfold entry_resolves. rewrite Hd.
    naive_solver.
  - intros r n. setoid_rewrite Hta. rewrite Ht. destruct (is_terminal_request (request_kind q)).
    + rewrite lookup_insert_Some, (inv_terminals _ _ Hs). split.
      * intros [[<- <-]|[_ (i & Hi & ->)]]; eauto 8.
      * intros (i & [Hi|(-> & <- & _)] & ->); [right|by left].
        split; [|by eauto]. intros <-. by destruct (Hfresh i).
    + rewrite (inv_terminals _ _ Hs). naive_solver.
  - intros r. rewrite Hf, (inv_refused _ _ Hs). setoid_rewrite Hta.
    rewrite <- (refused_snoc l x r), (sizes_outstanding l s H (inv_answerable _ _ Hs) (inv_resolved _ _ Hs)).
    assert ((~ forall r', ~ outstanding_in l r') <-> exists r', outstanding_in l r') as Hex.
    { split; [|naive_solver].
      rewrite <- (sizes_outstanding l s H (inv_answerable _ _ Hs) (inv_resolved _ _ Hs)). intros Hne.
      destruct (set_choose_or_empty (answerable s ∖ resolved s)) as [[r' Hr']|Hemp].
      - exists r'. apply elem_of_difference in Hr' as [H1 H2].
        by rewrite (inv_answerable _ _ Hs), (inv_resolved _ _ Hs) in *.
      - destruct Hne. apply (sizes_outstanding l s H (inv_answerable _ _ Hs) (inv_resolved _ _ Hs)).
        intros r' [H1%(inv_answerable _ _ Hs) H2]. rewrite <- (inv_resolved _ _ Hs) in H2. set_solver. }
    rewrite Hex. split.
    + intros [(i & Hi & Ho)|(<- & ? & Ho)]; [by eauto 6|]. exists (length l).
      rewrite take_app_length. auto.
    + intros (i & [Hi|(-> & <- & ?)] & Ho); [left; eauto|right]. by rewrite take_app_length in Ho.
  - rewrite He, (inv_ended _ _ Hs), ended_snoc, Hd. naive_solver.
  - rewrite Hsu, (inv_succeeded _ _ Hs). symmetry. by apply (accepted_snoc_request l x q).
Qed.

(** One iteration of the loop: it either extends the stream legally and keeps
    the invariant, or reports a rule the entry breaks. *)
Definition iteration_spec (l : list JournalEntry) (x : JournalEntry)
    (m : result ProgramJournalError JournalCheck) : Prop :=
  match m with
  | Ok s' => admissible l x /\ check_inv (l ++ [x]) s'
  | Err e => violation l x e
  end.

Lemma counter_step n s' M :
  u64_checked_add (N.of_nat n) 1 = Some s' -> M = u64_max ->
  s' = N.of_nat (S n) /\ (N.of_nat n < M)%N.
Proof. intros [-> Hle]%u64_checked_add_Some ->. revert Hle. generalize u64_max. lia. Qed.

Lemma counter_exhausted n : u64_checked_add (N.of_nat n) 1 = None -> (u64_max <= N.of_nat n)%N.
Proof. rewrite u64_checked_add_None. generalize u64_max. lia. Qed.

Lemma check_request_spec l s x q :
  legal_journal l -> tables_inv l s -> ~ accepted_in l ->
  next_position s = N.of_nat (S (S (length l))) ->
  next_request s = N.of_nat (S (length (requests l))) ->
  next_delivery s = N.of_nat (S (length (deliveries l))) ->
  journal_ordinal_get (entry_position x) = Pos.of_succ_nat (length l) ->
  (N.of_nat (S (length l)) < u64_max)%N ->
  entry_request x = Some q ->
  iteration_spec l x (check_request s (entry_position x) q).
Proof.
  intros H Hs Hopen Hnp Hnr Hnd Hp Hb Hq. unfold check_request.
  assert (entry_delivery x = None) as Hd.
  { unfold entry_delivery. unfold entry_request in Hq. by destruct (entry_frame x). }
  assert (entry_resolves x = None) as Hxr by (unfold entry_resolves; by rewrite Hd).
  destruct (negb _) eqn:Hord; simpl.
  { exists q. split; [done|]. rewrite negb_true_iff, N.eqb_neq, Hnr, ordinal_as_u64_eq in Hord. done. }
  rewrite negb_false_iff, N.eqb_eq, Hnr, ordinal_as_u64_eq in Hord.
  destruct (u64_checked_add _ _) as [nr'|] eqn:Hadd; simpl; rewrite Hnr in Hadd.
  2: { apply counter_exhausted in Hadd. pose proof (length_omap_le entry_request l). 
       revert Hadd. generalize u64_max. lia. }
  apply (counter_step _ _ u64_max) in Hadd as [-> _]; [|done].
  assert (admissible l x) as Hx.
  { split; try done; [by intros ? [= <-]%(eq_trans (eq_sym Hq))|..]; intros; congruence. }
  split; [done|]. split; simpl.
  - by rewrite length_app, Nat.add_1_r.
  - by rewrite omap_app, length_app; simpl; rewrite Hq, Nat.add_1_r.
  - by rewrite omap_app; simpl; rewrite Hd, app_nil_r.
  - apply (tables_inv_request l s x q); simpl; try done.
    + intros r. destruct (is_scope (request_kind q)); set_solver.
    + assert (journal_ordinal_as_u64 (entry_position x) = N.of_nat (S (length l))) as ->
        by by apply ordinal_as_u64_eq.
      done.
    + intros r. destruct (is_terminal_request (request_kind q)); simpl; [|naive_solver].
      destruct (Nat.eqb_spec (size (answerable s)) (size (resolved s))); simpl; set_solver.
Qed.

Lemma check_delivery_spec l s x d :
  legal_journal l -> tables_inv l s -> ~ accepted_in l ->
  next_position s = N.of_nat (S (S (length l))) ->
  next_request s = N.of_nat (S (length (requests l))) ->
  next_delivery s = N.of_nat (S (length (deliveries l))) ->
  journal_ordinal_get (entry_position x) = Pos.of_succ_nat (length l) ->
  (N.of_nat (S (length l)) < u64_max)%N ->
  entry_delivery x = Some d ->
  iteration_spec l x (check_delivery s (entry_position x) d).
Proof.
  intros H Hs Hopen Hnp Hnr Hnd Hp Hb Hd. unfold check_delivery.
  assert (entry_request x = None) as Hq.
  { unfold entry_request. unfold entry_delivery in Hd. by destruct (entry_frame x). }
  destruct (negb _) eqn:Hord; simpl.
  { exists d. split; [done|]. rewrite negb_true_iff, N.eqb_neq, Hnd, ordinal_as_u64_eq in Hord. done. }
  rewrite negb_false_iff, N.eqb_eq, Hnd, ordinal_as_u64_eq in Hord.
  destruct (u64_checked_add _ _) as [nd'|] eqn:Hadd; simpl; rewrite Hnd in Hadd.
  2: { apply counter_exhausted in Hadd. pose proof (length_omap_le entry_delivery l).
       revert Hadd. generalize u64_max. lia. }
  apply (counter_step _ _ u64_max) in Hadd as [-> _]; [|done].
  assert (forall s', next_position s' = next_position s -> next_request s' = next_request s ->
    next_delivery s' = N.of_nat (S (S (length (deliveries l)))) -> tables_inv (l ++ [x]) s' ->
    check_inv (l ++ [x]) s') as Hinv.
  { intros s' H1 H2 H3 Ht. split; [..|done].
    - by rewrite H1, Hnp, length_app, Nat.add_1_r.
    - by rewrite H2, Hnr, omap_app; simpl; rewrite Hq, app_nil_r.
    - by rewrite H3, omap_app, length_app; simpl; rewrite Hd, Nat.add_1_r. }
  destruct (resolves (delivery_kind d)) as [r|] eqn:Hr; simpl.
  - assert (entry_resolves x = Some r) as Hxr by (apply entry_resolves_Some; eauto).
    match goal with |- iteration_spec _ _ (check_resolution ?s1 _ _ _) =>
      assert (tables_inv l s1) as Hs1 by (destruct Hs; by split);
      pose proof (check_resolution_spec l s1 x d r H Hs1 Hopen) as Hspec end.
    apply ordinal_as_u64_eq in Hp as Hp'. specialize (Hspec Hp' Hd Hr).
    destruct (check_resolution _ _ _ _) as [s'|e]; simpl in Hspec |- *; [|done].
    destruct Hspec as (Hask & Hres & Hterm & H1 & H2 & H3 & Ht).
    split; [|by apply Hinv]. split; try done; [congruence|intros; congruence|..].
    + intros r' Hr'. rewrite Hxr in Hr'. by injection Hr' as <-.
    + intros i d' r' Hi Hd' Hr'. rewrite Hd in Hd'. injection Hd' as <-. rewrite Hr in Hr'.
      injection Hr' as <-. by apply Hterm.
  - assert (entry_resolves x = None) as Hxr by (unfold entry_resolves; by rewrite Hd; simpl).
    split.
    + split; try done; [congruence|intros; congruence|intros; congruence|intros; congruence].
    + apply Hinv; simpl; try done. apply (tables_inv_delivery l s x d); simpl; try done.
      * intros r. rewrite Hr. naive_solver.
      * rewrite Hr. naive_solver.
      * split; [by left|]. intros [?|(i & r & payload & _ & Hk)]; [done|]. by rewrite Hk in Hr.
Qed.

Lemma check_entry_spec l s x :
  legal_journal l -> check_inv l s -> iteration_spec l x (check_entry s x).
Proof.
  intros H Hs. unfold check_entry. destruct (succeeded s) eqn:Hsu.
  { by apply (inv_succeeded _ _ (inv_tables _ _ Hs)). }
  assert (~ accepted_in l) as Hopen.
  { rewrite <- (inv_succeeded _ _ (inv_tables _ _ Hs)). congruence. }
  rewrite (inv_next_position _ _ Hs). destruct (negb _) eqn:Hpos; simpl.
  { by rewrite negb_true_iff, N.eqb_neq, ordinal_as_u64_eq in Hpos. }
  rewrite negb_false_iff, N.eqb_eq, ordinal_as_u64_eq in Hpos.
  destruct (u64_checked_add _ _) as [np'|] eqn:Hadd; simpl; [|by apply counter_exhausted in Hadd].
  apply (counter_step _ _ u64_max) in Hadd as [-> Hb]; [|done].
  destruct (entry_frame x) as [q|d] eqn:Hf.
  - apply check_request_spec; simpl; try done; try apply Hs.
    + destruct (inv_tables _ _ Hs) as [? ? ? ? ? Hx]. split; simpl; done.
    + unfold entry_request. by rewrite Hf.
  - apply check_delivery_spec; simpl; try done; try apply Hs.
    + destruct (inv_tables _ _ Hs) as [? ? ? ? ? Hx]. split; simpl; done.
    + unfold entry_delivery. by rewrite Hf.
Qed.

Lemma legal_nil : legal_journal [].
Proof.
  split; simpl.
  - intros i x. by rewrite lookup_nil.
  - intros i x. by rewrite lookup_nil.
  - intros i x. by rewrite lookup_nil.
  - done.
  - intros j e r. by rewrite lookup_nil.
  - intros i j e d r _. by rewrite lookup_nil.
Qed.

Lemma check_inv_start : check_inv [] check_start.
Proof.
  split; try done. split; simpl.
  - intros r. split; [set_solver|]. intros (e & q & He & _). set_solver.
  - intros r. split; [set_solver|]. intros (e & He & _). set_solver.
  - intros r n. rewrite lookup_empty. split; [done|]. intros (i & (e & q & He & _) & _). by rewrite lookup_nil in He.
  - intros r. split; [set_solver|]. intros (i & (e & q & He & _) & _). by rewrite lookup_nil in He.
  - split; [done|]. intros (e & d & He & _). set_solver.
  - split; [done|]. intros (i & j & e & d & r & p & _ & He & _). by rewrite lookup_nil in He.
Qed.

Lemma check_loop_Ok l s : try_fold check_entry l check_start = Ok s -> legal_journal l /\ check_inv l s.
Proof.
  apply (try_fold_ind check_entry (fun l s => legal_journal l /\ check_inv l s)).
  - split; [apply legal_nil|apply check_inv_start].
  - intros l1 x _ s1 s2 _ [Hl Hs] Hx. pose proof (check_entry_spec l1 s1 x Hl Hs) as Hspec.
    rewrite Hx in Hspec. destruct Hspec as [Ha Hi]. split; [by apply legal_snoc|done].
Qed.

Lemma legal_prefix l1 l2 : legal_journal (l1 ++ l2) -> legal_journal l1.
Proof.
  induction l2 as [|x l2 IH] using rev_ind; [by rewrite app_nil_r|].
  rewrite app_assoc. intros [? _]%legal_snoc. auto.
Qed.

Lemma check_loop_legal l : legal_journal l -> exists s, try_fold check_entry l check_start = Ok s.
Proof.
  induction l as [|x l IH] using rev_ind; [by eexists|]. intros [Hl Hx]%legal_snoc.
  destruct (IH Hl) as (s & Hs). rewrite try_fold_app, Hs. simpl.
  destruct (check_loop_Ok _ _ Hs) as [_ Hi]. pose proof (check_entry_spec l s x Hl Hi) as Hspec.
  destruct (check_entry s x) as [s'|e]; simpl in *; [by eexists|].
  by destruct (violation_not_admissible l x e).
Qed.

(** ** Construction *)

(** C7. A journal is constructed exactly from the legal frame streams:
    contiguous positions, request and delivery ordinals below [u64::MAX],
    every resolution answers an earlier request for the first time, and a
    terminal request is either accepted by the immediately following last
    frame of an unfinished run with nothing outstanding, or refused because
    something was outstanding. *)
Theorem journal_try_new_exact run l j :
  journal_try_new run l = Ok j <-> legal_journal l /\ j = mkJournal run l.
Proof.
  unfold journal_try_new. rewrite bind_Ok. split.
  - intros (s & [Hl _]%check_loop_Ok & [= <-]). done.
  - intros [(s & Hs)%check_loop_legal ->]. by exists s.
Qed.

(** A rejected stream splits into a legal prefix and a first entry that
    breaks the rule the error names. *)
Theorem journal_rejection_justified run l e :
  journal_try_new run l = Err e ->
  exists l1 x l2, l = l1 ++ x :: l2 /\ legal_journal l1 /\ violation l1 x e /\ ~ legal_journal (l1 ++ [x]).
Proof.
  unfold journal_try_new. rewrite bind_Err. intros [Hl|(s & _ & ?)]; [|done].
  apply try_fold_Err in Hl as (l1 & x & l2 & s & -> & Hs%check_loop_Ok & Hx).
  destruct Hs as [Hl Hs]. pose proof (check_entry_spec l1 s x Hl Hs) as Hspec.
  rewrite Hx in Hspec. exists l1, x, l2. split_and!; try done.
  intros [_ Ha]%legal_snoc. by destruct (violation_not_admissible l1 x e).
Qed.

(** ** Outcome *)

Lemma terminal_delivery_from_Some T l d :
  terminal_delivery_from T l = Some d ->
  exists j x, l !! j = Some x /\ entry_delivery x = Some d /\
    (resolves (delivery_kind d) = None \/
     exists r payload, delivery_kind d = Answer r payload /\
       (r ∈ T \/ exists i, terminal_at l i r)).
Proof.
  revert T. induction l as [|e l IH]; intros T; simpl; [done|].
  assert (forall i r, terminal_at l i r -> terminal_at (e :: l) (S i) r) as Hshift by done.
  destruct (entry_frame e) as [q|d'] eqn:Hf.
  - intros (j & x & Hj & Hd & Hcase)%IH. exists (S j), x. split_and!; [done..|].
    destruct Hcase as [?|(r & payload & Hk & Hin)]; [by left|right]. exists r, payload. split; [done|].
    destruct Hin as [Hin|(i & Hi)]; [|right; by exists (S i)].
    destruct (is_terminal_request (request_kind q)) eqn:Ht; [|by left].
    apply elem_of_union in Hin as [->%elem_of_singleton|?]; [|by left]. right. exists 0, e, q.
    unfold entry_request. by rewrite Hf.
  - destruct (_ || _) eqn:Hb.
    + intros [= ->]. exists 0, e. unfold entry_delivery. rewrite Hf. split_and!; [done..|].
      apply orb_true_iff in Hb as [Hb%bool_decide_eq_true|Hb]; [by left|right].
      destruct (delivery_kind d) as [r payload| | | | |]; try done.
      apply bool_decide_eq_true in Hb. eauto 6.
    + intros (j & x & Hj & Hd & Hcase)%IH. exists (S j), x. split_and!; [done..|].
      destruct Hcase as [?|(r & payload & Hk & Hin)]; [by left|right]. exists r, payload. split; [done|].
      destruct Hin as [Hin|(i & Hi)]; [by left|right; by exists (S i)].
Qed.

(** Entries without an ending or accepting delivery only collect terminal
    requests. *)
Lemma terminal_delivery_from_skip T l1 l2 :
  ~ ended_in l1 ->
  (forall e d r payload, e ∈ l1 -> entry_delivery e = Some d ->
     delivery_kind d = Answer r payload -> (r ∉ T) /\ (forall i, ~ terminal_at l1 i r)) ->
  exists T', terminal_delivery_from T (l1 ++ l2) = terminal_delivery_from T' l2 /\ T ⊆ T' /\
    (forall i r, terminal_at l1 i r -> r ∈ T').
Proof.
  revert T. induction l1 as [|e l1 IH]; intros T Hend Hans; simpl.
  { exists T. split_and!; [done..|]. intros i r (x & q & Hx & _). by rewrite lookup_nil in Hx. }
  assert (~ ended_in l1) as Hend'.
  { intros (x & d & Hx & ?). apply Hend. exists x, d. split; [by right|done]. }
  destruct (entry_frame e) as [q|d] eqn:Hf.
  - destruct (IH (if is_terminal_request (request_kind q) then {[ request_ordinal q ]} ∪ T else T))
      as (T' & HT & Hsub & Hin); [done| |].
    { intros x d r payload Hx Hd Hk. destruct (Hans x d r payload) as [HT Hi]; [by right|done..|].
      split; [|intros i; apply (Hi (S i))].
      destruct (is_terminal_request (request_kind q)) eqn:Ht; [|done].
      apply not_elem_of_union. split; [|done]. rewrite elem_of_singleton. intros ->.
      apply (Hi 0). exists e, q. unfold entry_request. by rewrite Hf. }
    exists T'. split_and!; [done| |].
    + etrans; [|exact Hsub]. destruct (is_terminal_request _); set_solver.
    + intros [|i] r (x & q' & Hx & Hq' & Hr & Ht); [|apply (Hin i); by exists x, q'].
      injection Hx as <-. unfold entry_request in Hq'. rewrite Hf in Hq'. injection Hq' as <-.
      apply Hsub. rewrite Ht, <- Hr. set_solver.
  - destruct (IH T) as (T' & HT & Hsub & Hin); [done| |].
    { intros x d' r payload Hx Hd Hk. destruct (Hans x d' r payload) as [HT Hi]; [by right|done..|].
      split; [done|]. intros i. apply (Hi (S i)). }
    exists T'. split_and!; [|done|].
    + destruct (_ || _) eqn:Hb; [exfalso|done]. apply orb_true_iff in Hb as [Hb|Hb].
      * apply bool_decide_eq_true in Hb. apply Hend. exists e, d. unfold entry_delivery. rewrite Hf.
        split; [by left|done].
      * destruct (delivery_kind d) as [r payload| | | | |] eqn:Hk; try done.
        destruct (Hans e d r payload) as [HT' _]; [by left|by unfold entry_delivery; rewrite Hf|done|].
        by apply bool_decide_eq_true in Hb.
    + intros [|i] r (x & q' & Hx & Hq' & Hr & Ht); [|apply (Hin i); by exists x, q'].
      injection Hx as <-. unfold entry_request in Hq'. by rewrite Hf in Hq'.
Qed.

Lemma head_omap_Some {A B} (f : A -> option B) l x y :
  x ∈ l -> f x = Some y -> (forall x' y', x' ∈ l -> f x' = Some y' -> y' = y) ->
  head (omap f l) = Some y.
Proof.
  intros Hx Hy Hall. assert (y ∈ omap f l) as Hin by (apply list_elem_of_omap; eauto).
  destruct (omap f l) as [|z k] eqn:Ho; [by apply not_elem_of_nil in Hin|]. simpl. f_equal.
  assert (z ∈ omap f l) as (x' & Hx' & Hz)%list_elem_of_omap by (rewrite Ho; by left). eauto.
Qed.

Lemma head_omap_inv {A B} (f : A -> option B) l y :
  head (omap f l) = Some y -> exists x, x ∈ l /\ f x = Some y.
Proof.
  destruct (omap f l) as [|z k] eqn:Ho; [done|]. intros [= ->]. apply list_elem_of_omap.
  rewrite Ho. by left.
Qed.

Lemma terminal_request_Some run l i e q payload :
  legal_journal l -> l !! i = Some e -> entry_request e = Some q -> request_kind q = Terminal payload ->
  terminal_request (mkJournal run l) (request_ordinal q) = Some payload.
Proof.
  intros H Hi Hq Hk. unfold terminal_request. simpl.
  apply (head_omap_Some _ _ e); [by eapply list_elem_of_lookup_2|..].
  - unfold entry_request in Hq. destruct (entry_frame e); [|done]. injection Hq as ->.
    rewrite bool_decide_eq_true_2 by done. by rewrite Hk.
  - intros e' payload' (k & Hek)%list_elem_of_lookup Hp'.
    destruct (entry_frame e') as [q'|] eqn:Hf'; [|done]. case_bool_decide as Hord; [|done].
    assert (k = i) as ->.
    { eapply (request_position_inj l k i e' e q' q); eauto using legal_requests.
      unfold entry_request. by rewrite Hf'. }
    rewrite Hi in Hek. injection Hek as ->. unfold entry_request in Hq. rewrite Hf' in Hq.
    injection Hq as ->. rewrite Hk in Hp'. by injection Hp'.
Qed.

(** The run asked to finish with [payload] when nothing was outstanding and it
    had not been cancelled, and the last frame accepted it. *)
Definition finished_with (l : list JournalEntry) (payload : InlineFramePayload) : Prop :=
  exists l1 x q y d answer, l = l1 ++ [x; y] /\
    entry_request x = Some q /\ request_kind q = Terminal payload /\
    entry_delivery y = Some d /\ delivery_kind d = Answer (request_ordinal q) answer /\
    ~ ended_in l1 /\ (forall r, ~ outstanding_in l1 r).

Lemma result_finished run l payload :
  legal_journal l -> journal_result (mkJournal run l) = Some payload -> finished_with l payload.
Proof.
  intros H Hres. unfold journal_result in Hres. apply bind_Some in Hres as (d & Hd & Hres).
  apply terminal_delivery_from_Some in Hd as (j & y & Hj & Hy & Hcase). simpl in Hj.
  destruct (delivery_kind d) as [r answer| | | | |] eqn:Hk; try done.
  destruct Hcase as [?|(r' & answer' & [= <- <-] & [?|(i & Ht)])]; [done|set_solver|]. simpl in Ht.
  destruct (legal_terminal _ H i j y d r) as [(_ & -> & Hlen & Hend & Hout)|((? & ?) & _)];
    [done..|by rewrite Hk| |congruence].
  apply head_omap_inv in Hres as (x' & Hx' & Hp). simpl in Hx'.
  apply list_elem_of_lookup in Hx' as (k & Hx').
  destruct (entry_frame x') as [q|] eqn:Hf; [|done]. case_bool_decide as Hr; [|done].
  destruct (request_kind q) as [| | | | | |p] eqn:Hqk; try done. injection Hp as ->.
  assert (entry_request x' = Some q) as Hq by (unfold entry_request; by rewrite Hf).
  destruct Ht as (x & q' & Hx & Hq' & Hr' & _).
  assert (k = i) as -> by (eapply (request_position_inj l k i x' x q q'); eauto using legal_requests; congruence).
  rewrite Hx in Hx'. injection Hx' as ->.
  exists (take i l), x', q, y, d, answer. split_and!; try done; [|congruence].
  assert (drop (S (S i)) l = []) as Hdrop by (apply drop_ge; lia).
  rewrite <- (take_drop_middle l i x' Hx) at 1. f_equal. f_equal.
  by rewrite (drop_S l y (S i) Hj), Hdrop.
Qed.

Lemma finished_result run l payload :
  legal_journal l -> finished_with l payload -> journal_result (mkJournal run l) = Some payload.
Proof.
  intros H (l1 & x & q & y & d & answer & -> & Hq & Hqk & Hd & Hk & Hend & Hout).
  replace (l1 ++ [x; y]) with ((l1 ++ [x]) ++ [y]) in * by by rewrite <- app_assoc.
  apply legal_snoc in H as Hsnoc. destruct Hsnoc as [Hl Hy].
  assert (terminal_at (l1 ++ [x]) (length l1) (request_ordinal q)) as Ht.
  { exists x, q. rewrite lookup_snoc_Some, Hqk. auto. }
  unfold journal_result, terminal_delivery. simpl.
  destruct (terminal_delivery_from_skip ∅ (l1 ++ [x]) [y]) as (T & -> & _ & HT).
  - rewrite ended_snoc. intros [?|(d' & Hd' & _)]; [done|]. by destruct (request_not_delivery x q d').
  - intros e d' r payload' (j & Hj)%list_elem_of_lookup He Hk'. split; [set_solver|]. intros i Hi.
    destruct (adm_open _ _ Hy). by exists i, j, e, d', r, payload'.
  - simpl. assert (entry_frame y = DeliveryEntry d) as ->.
    { unfold entry_delivery in Hd. destruct (entry_frame y); congruence. }
    rewrite Hk. simpl. rewrite bool_decide_eq_true_2 by eauto. simpl. rewrite Hk.
    apply (terminal_request_Some run _ (length l1) x q payload); try done.
    rewrite lookup_snoc_Some. left. rewrite lookup_snoc_Some. auto.
Qed.

Lemma outstanding_snoc_request l x q r :
  legal_journal l -> entry_request x = Some q -> ~ asked l (request_ordinal q) ->
  outstanding_in (l ++ [x]) r <->
  outstanding_in l r \/ request_ordinal q = r /\ is_scope (request_kind q) = false.
Proof.
  intros H Hq Hfresh. unfold outstanding_in. rewrite asked_snoc, resolved_snoc, Hq.
  assert (entry_resolves x = None) as ->.
  { unfold entry_resolves, entry_delivery. unfold entry_request in Hq. by destruct (entry_frame x). }
  split.
  - intros [[Ha|(q' & [= <-] & Hr & Hs)] Hn]; [left; split; [done|]|by right]. intros Hr. by destruct Hn; left.
  - intros [[Ha Hn]|[<- Hs]].
    + split; [by left|]. by intros [?|?].
    + split; [right; by exists q|]. intros [Hr|?]; [|done]. by apply Hfresh, resolved_asked.
Qed.

Lemma outstanding_snoc_delivery l x d r :
  entry_delivery x = Some d ->
  outstanding_in (l ++ [x]) r <-> outstanding_in l r /\ resolves (delivery_kind d) <> Some r.
Proof.
  intros Hd. unfold outstanding_in. rewrite asked_snoc, resolved_snoc.
  assert (entry_resolves x = resolves (delivery_kind d)) as -> by (unfold entry_resolves; by rewrite Hd).
  assert (forall q, entry_request x <> Some q) as Hq by (intros q Hq; by destruct (request_not_delivery x q d)).
  split.
  - intros [[Ha|(q & ? & _)] Hn]; [|by destruct (Hq q)]. split; [split; [done|]|]; intros ?; apply Hn; auto.
  - intros [[Ha Hn] Hr]. split; [by left|]. by intros [?|?].
Qed.

Lemma track_outstanding_spec l :
  legal_journal l -> forall r, r ∈ foldl track_outstanding ∅ l <-> outstanding_in l r.
Proof.
  induction l as [|x l IH] using rev_ind; intros H r.
  { simpl. split; [set_solver|]. intros [(e & q & He & _) _]. set_solver. }
  apply legal_snoc in H as [Hl Hx]. specialize (IH Hl). rewrite foldl_app. simpl.
  unfold track_outstanding at 1. destruct (entry_frame x) as [q|d] eqn:Hf.
  - assert (entry_request x = Some q) as Hq by (unfold entry_request; by rewrite Hf).
    rewrite (outstanding_snoc_request l x q) by (done || by apply fresh_request, (adm_request _ _ Hx)).
    rewrite <- IH. destruct (is_scope (request_kind q)).
    + split; [by left|]. by intros [?|[_ ?]].
    + rewrite elem_of_union, elem_of_singleton. 
      split; [intros [->|?]; auto|intros [?|[-> _]]; auto].
  - assert (entry_delivery x = Some d) as Hd by (unfold entry_delivery; by rewrite Hf).
    rewrite (outstanding_snoc_delivery l x d) by done. rewrite <- IH.
    destruct (resolves (delivery_kind d)) as [r'|]; [|by split; [|intros [? _]]].
    rewrite elem_of_difference, elem_of_singleton. split; intros [? Hne]; (split; [done|]); congruence.
Qed.

(** For a constructed journal, the result is the payload of the terminal
    request exactly when the run finished with it, and no frame can then be
    appended. *)
Theorem journal_result_exact run l j payload :
  journal_try_new run l = Ok j ->
  (journal_result j = Some payload <-> finished_with l payload) /\
  (journal_result j = Some payload -> forall x, journal_try_new run (l ++ [x]) = Err FrameAfterSuccess).
Proof.
  unfold journal_try_new. rewrite bind_Ok. intros (s & Hloop & [= <-]).
  destruct (check_loop_Ok _ _ Hloop) as [H Hs].
  split; [split; [by apply result_finished|by apply finished_result]|]. intros Hres x.
  apply result_finished in Hres as Hfin; [|done].
  assert (succeeded s = true) as Hsu.
  { apply (inv_succeeded _ _ (inv_tables _ _ Hs)).
    destruct Hfin as (l1 & y & q & z & d & answer & -> & Hq & Hqk & Hd & Hk & _).
    exists (length l1), (S (length l1)), z, d, (request_ordinal q), answer. split_and!; try done.
    - exists y, q. rewrite lookup_app_r, Nat.sub_diag, Hqk by lia. done.
    - rewrite lookup_app_r by lia. by replace (S (length l1) - length l1) with 1 by lia. }
  rewrite try_fold_app, Hloop. simpl. unfold check_entry. by rewrite Hsu.
Qed.

(** For a constructed journal, [has_outstanding_requests] answers whether
    some answerable request has no resolving delivery. *)
Theorem journal_outstanding_exact run l j :
  journal_try_new run l = Ok j ->
  has_outstanding_requests j = true <-> exists r, outstanding_in l r.
Proof.
  unfold journal_try_new. rewrite bind_Ok. intros (s & [H _]%check_loop_Ok & [= <-]).
  pose proof (track_outstanding_spec l H) as Hspec. unfold has_outstanding_requests. simpl.
  rewrite negb_true_iff, bool_decide_eq_false. split.
  - intros Hne. destruct (set_choose_L _ Hne) as [r Hr]. exists r. by apply Hspec.
  - intros (r & Hr) Hemp. apply Hspec in Hr. rewrite Hemp in Hr. set_solver.
Qed.

(** ** Witnesses *)

Definition sample_entry (position : positive) (frame : JournalFrame) : JournalEntry :=
  mkEntry (mkJournalOrdinal position) frame.
Definition sample_request (ordinal : positive) (kind : RequestKind) : JournalFrame :=
  RequestEntry (mkRequest (mkJournalOrdinal ordinal) None kind).
Definition sample_answer (ordinal request : positive) : JournalFrame :=
  DeliveryEntry (mkDelivery (mkJournalOrdinal ordinal) (Answer (mkJournalOrdinal request) (mkPayload []))).
Definition sample_payload : InlineFramePayload := mkPayload [Byte.x01; Byte.x02].

(** A run that reads the clock and finishes with [sample_payload]. *)
Definition sample_run : list JournalEntry :=
  [sample_entry 1 (sample_request 1 (Now (mkPayload [])));
   sample_entry 2 (sample_answer 1 1);
   sample_entry 3 (sample_request 2 (Terminal sample_payload));
   sample_entry 4 (sample_answer 2 2)].

Lemma journal_rejection_justified_witness :
  journal_try_new (from_uuid 5) (sample_run ++ [sample_entry 5 (sample_answer 3 1)]) = Err FrameAfterSuccess /\
  exists l1 x l2, sample_run ++ [sample_entry 5 (sample_answer 3 1)] = l1 ++ x :: l2 /\
    legal_journal l1 /\ violation l1 x FrameAfterSuccess /\ ~ legal_journal (l1 ++ [x]).
Proof.
  assert (journal_try_new (from_uuid 5) (sample_run ++ [sample_entry 5 (sample_answer 3 1)])
    = Err FrameAfterSuccess) as Herr by (vm_compute; reflexivity).
  split; [exact Herr|]. exact (journal_rejection_justified _ _ _ Herr).
Defined.

Lemma journal_result_exact_witness :
  journal_try_new (from_uuid 5) sample_run = Ok (mkJournal (from_uuid 5) sample_run) /\
  finished_with sample_run sample_payload.
Proof.
  assert (journal_try_new (from_uuid 5) sample_run = Ok (mkJournal (from_uuid 5) sample_run)) as Hok
    by (vm_compute; reflexivity).
  split; [exact Hok|]. apply (journal_result_exact _ _ _ sample_payload Hok). vm_compute. reflexivity.
Defined.

Lemma journal_outstanding_exact_witness :
  journal_try_new (from_uuid 5) (take 3 sample_run) = Ok (mkJournal (from_uuid 5) (take 3 sample_run)) /\
  exists r, outstanding_in (take 3 sample_run) r.
Proof.
  assert (journal_try_new (from_uuid 5) (take 3 sample_run) =
    Ok (mkJournal (from_uuid 5) (take 3 sample_run))) as Hok by (vm_compute; reflexivity).
  split; [exact Hok|]. apply (journal_outstanding_exact _ _ _ Hok). vm_compute. reflexivity.
Defined.
