(* ===== verification/ReplaySpec.v ===== *)
(** * What replay promises

    The host alternates [next_instruction] with the requests the re-executed
    program emits. This file states that protocol as a driver over the cursor
    of [Journal.v] and proves that a deterministic program is led back through
    its recorded interleaving to live execution, that a divergence is reported
    at the first differing request with the cursor unmoved, that a recorded
    divergence is re-delivered, and that the cursor stays inside its journal. *)

From stdpp Require Import strings.
From S2P Require Import Prelude Journal.

(** ** The host's protocol *)

(** A deterministic program: the next request as a function of the frames it
    has exchanged so far. *)
Definition program := list JournalFrame -> RequestFrame.

Inductive replay_state :=
| Running (c : ReplayCursor) (history : list JournalFrame)
| WentLive (c : ReplayCursor) (history : list JournalFrame)
| Diverged (c : ReplayCursor) (history : list JournalFrame) (e : NondeterminismError).

(** One turn of the host: ask the cursor, deliver a recorded delivery, or
    submit the program's next request. *)
Definition host_turn (prog : program) (c : ReplayCursor) (history : list JournalFrame) :
    replay_state :=
  match next_instruction c with
  | (Deliver d, c') => Running c' (history ++ [DeliveryEntry d])
  | (LiveInstruction, c') => WentLive c' history
  | (AwaitRequest, c') =>
      match submit_request c' (prog history) with
      | (Ok _, c'') => Running c'' (history ++ [RequestEntry (prog history)])
      | (Err e, c'') => Diverged c'' history e
      end
  end.

Fixpoint host_turns (n : nat) (prog : program) (c : ReplayCursor) (history : list JournalFrame) :
    replay_state :=
  match n with
  | 0 => Running c history
  | S n =>
      match host_turn prog c history with
      | Running c' history' => host_turns n prog c' history'
      | final => final
      end
  end.

Abbreviation frames := (fmap entry_frame).

(** The first [n] entries of [l] record an execution of [prog]. *)
Definition recorded_by (prog : program) (l : list JournalEntry) (n : nat) : Prop :=
  forall i e q, i < n -> l !! i = Some e -> entry_frame e = RequestEntry q ->
    q = prog (frames (take i l)).

(** Some later delivery records the divergence from [expected]. *)
Definition fault_recorded (l : list JournalEntry) (i : nat) (expected : RequestFrame) : Prop :=
  exists k e, i < k /\ l !! k = Some e /\ persists_fault_for expected e = true.

Lemma host_turn_recorded prog c history e :
  cursor_live c = false -> cursor_entries c !! cursor_next c = Some e ->
  (forall q, entry_frame e = RequestEntry q -> q = prog history) ->
  host_turn prog c history = Running (set_next c (S (cursor_next c))) (history ++ [entry_frame e]).
Proof.
  intros Hl He Hq. unfold host_turn, next_instruction. rewrite Hl, He. simpl.
  destruct (entry_frame e) as [q|d] eqn:Hf; [|done].
  unfold submit_request. rewrite Hl, He. simpl. rewrite Hf.
  apply lookup_lt_Some in He. destruct (Nat.eqb_spec (cursor_next c) (length (cursor_entries c))); [lia|].
  by rewrite <- (Hq q), bool_decide_eq_true_2 by done.
Qed.

Lemma host_turns_add n m prog c history :
  host_turns (n + m) prog c history =
    match host_turns n prog c history with
    | Running c' history' => host_turns m prog c' history'
    | final => final
    end.
Proof.
  revert c history. induction n as [|n IH]; intros c history; simpl; [done|].
  by destruct (host_turn prog c history).
Qed.

(** Replay follows a recorded prefix frame by frame. *)
Lemma host_turns_recorded prog j n :
  recorded_by prog (journal_entries j) n -> n <= length (journal_entries j) ->
  host_turns n prog (cursor_new j) [] =
    Running (set_next (cursor_new j) n) (frames (take n (journal_entries j))).
Proof.
  induction n as [|n IH]; intros Hrec Hn; [done|].
  rewrite <- (Nat.add_1_r n), host_turns_add, IH; [|intros i e q ?; apply Hrec; lia|lia].
  destruct (lookup_lt_is_Some_2 (journal_entries j) n) as [e He]; [lia|]. simpl.
  rewrite (host_turn_recorded _ _ _ e); [..|intros q Hq; apply (Hrec n e); [lia|done..]]; [|done..].
  simpl. unfold set_next. simpl. rewrite Nat.add_1_r. f_equal.
  by rewrite (take_S_r _ _ e), fmap_app.
Qed.

(** The search after the cursor finds the first recorded divergence. *)
Lemma find_persisted_fault_Some c expected k :
  find_persisted_fault c expected = Some k ->
  exists e, cursor_next c < k /\ cursor_entries c !! k = Some e /\
    persists_fault_for expected e = true /\
    (forall i e', cursor_next c < i < k -> cursor_entries c !! i = Some e' ->
       persists_fault_for expected e' = false).
Proof.
  unfold find_persisted_fault. intros ([i e] & Hf & ->)%fmap_Some_1.
  apply list_find_Some in Hf as (Hi & He & Hmin). rewrite lookup_drop in Hi.
  exists e. split_and!; [lia|by rewrite <- Hi; f_equal; lia|done|].
  intros i' e' Hi' He'. apply not_true_is_false. apply (Hmin (i' - (cursor_next c + 1))); [|lia].
  rewrite lookup_drop, <- He'. f_equal. lia.
Qed.

Lemma find_persisted_fault_None c expected :
  find_persisted_fault c expected = None ->
  ~ fault_recorded (cursor_entries c) (cursor_next c) expected.
Proof.
  unfold find_persisted_fault. rewrite fmap_None, list_find_None. intros Hall (k & e & Hk & He & Hp).
  rewrite Forall_forall in Hall. apply (Hall e); [|done].
  apply list_elem_of_lookup. exists (k - (cursor_next c + 1)). rewrite lookup_drop, <- He. f_equal. lia.
Qed.

Lemma persists_fault_for_true expected e :
  persists_fault_for expected e = true ->
  exists d o, entry_frame e = DeliveryEntry (mkDelivery d (Fault (Nondeterminism expected o))).
Proof.
  unfold persists_fault_for. destruct (entry_frame e) as [|[d k]]; [done|]. simpl.
  destruct k as [| | | | |[]]; try done. intros ->%bool_decide_eq_true. eauto.
Qed.

Lemma host_turn_diverges prog c history e expected :
  cursor_live c = false -> cursor_entries c !! cursor_next c = Some e ->
  entry_frame e = RequestEntry expected -> expected <> prog history ->
  host_turn prog c history =
    match find_persisted_fault c expected with
    | Some k => Running (set_next c k) (history ++ [RequestEntry (prog history)])
    | None => Diverged c history (mkNondeterminismError (cursor_run c) expected (prog history))
    end.
Proof.
  intros Hl He Hf Hne. unfold host_turn, next_instruction. rewrite Hl, He. simpl. rewrite Hf.
  unfold submit_request. rewrite Hl, He. simpl. rewrite Hf. apply lookup_lt_Some in He.
  destruct (Nat.eqb_spec (cursor_next c) (length (cursor_entries c))); [lia|].
  rewrite bool_decide_eq_false_2 by done. by destruct (find_persisted_fault c expected).
Qed.

(** C11. A deterministic program whose execution the journal records is led
    back through exactly the recorded interleaving of requests and deliveries
    and then goes live; no divergence is reported, and one turn per frame plus
    one is enough. *)
Theorem replay_reproduces_history prog j :
  recorded_by prog (journal_entries j) (length (journal_entries j)) ->
  host_turns (S (length (journal_entries j))) prog (cursor_new j) [] =
    WentLive (set_live (set_next (cursor_new j) (length (journal_entries j))))
      (frames (journal_entries j)).
Proof.
  intros Hrec. rewrite <- Nat.add_1_r, host_turns_add, host_turns_recorded, take_ge by done.
  simpl. unfold host_turn, next_instruction. simpl. by rewrite lookup_ge_None_2 by done.
Qed.

(** The first request that differs from the recorded one is reported with
    both frames and the cursor stays at the recorded request; when the journal
    already records that divergence, the next turn instead delivers the first
    recorded fault for it. *)
Theorem replay_detects_divergence prog j i e expected :
  let l := journal_entries j in
  let observed := prog (frames (take i l)) in
  recorded_by prog l i -> l !! i = Some e -> entry_frame e = RequestEntry expected ->
  expected <> observed ->
  (~ fault_recorded l i expected ->
     host_turns (S i) prog (cursor_new j) [] =
       Diverged (set_next (cursor_new j) i) (frames (take i l))
         (mkNondeterminismError (journal_run j) expected observed)) /\
  (fault_recorded l i expected -> exists k d o,
     i < k /\ entry_frame <$> l !! k = Some (DeliveryEntry (mkDelivery d (Fault (Nondeterminism expected o)))) /\
     (forall k' e', i < k' < k -> l !! k' = Some e' -> persists_fault_for expected e' = false) /\
     host_turns (S (S i)) prog (cursor_new j) [] =
       Running (set_next (cursor_new j) (S k))
         (frames (take i l) ++ [RequestEntry observed;
            DeliveryEntry (mkDelivery d (Fault (Nondeterminism expected o)))])).
Proof.
  intros l observed Hrec He Hf Hne. pose proof (lookup_lt_Some _ _ _ He) as Hlt.
  assert (host_turns i prog (cursor_new j) [] = Running (set_next (cursor_new j) i) (frames (take i l)))
    as Hpre by (apply host_turns_recorded; [done|unfold l in *; lia]).
  pose proof (host_turn_diverges prog (set_next (cursor_new j) i) (frames (take i l)) e expected
    eq_refl He Hf Hne) as Hturn.
  split.
  - intros Hno. rewrite <- (Nat.add_1_r i), host_turns_add, Hpre. simpl. rewrite Hturn.
    destruct (find_persisted_fault _ _) as [k|] eqn:Hk; [|done].
    apply find_persisted_fault_Some in Hk as (e' & ? & ? & ? & _). destruct Hno. by exists k, e'.
  - intros Hyes. destruct (find_persisted_fault _ _) as [k|] eqn:Hk;
      [|by apply find_persisted_fault_None in Hk].
    apply find_persisted_fault_Some in Hk as (e' & Hik & Hke & Hp & Hmin). simpl in Hik, Hke, Hmin.
    apply persists_fault_for_true in Hp as (d & o & Hfr). exists k, d, o.
    split_and!; [done|unfold l; by rewrite Hke; simpl; rewrite Hfr|done|].
    replace (S (S i)) with (i + 2) by lia. rewrite host_turns_add, Hpre. simpl. rewrite Hturn.
    rewrite (host_turn_recorded _ _ _ e'); [|done|done|by rewrite Hfr].
    rewrite Hfr, <- app_assoc. done.
Qed.

(** ** The cursor *)

Inductive cursor_step : relation ReplayCursor :=
| step_instruction c : cursor_step c (next_instruction c).2
| step_submit c observed : cursor_step c (submit_request c observed).2.

(** The cursor is inside its journal, and live only at its end. *)
Definition cursor_wf (j : ProgramJournal) (c : ReplayCursor) : Prop :=
  cursor_run c = journal_run j /\ cursor_entries c = journal_entries j /\
  cursor_next c <= length (journal_entries j) /\
  (cursor_live c = true -> cursor_next c = length (journal_entries j)).

Lemma cursor_step_wf j c c' :
  cursor_step c c' -> cursor_wf j c ->
  cursor_wf j c' /\ cursor_next c <= cursor_next c' /\ (cursor_live c = true -> c' = c).
Proof.
  intros Hstep Hwf. destruct Hstep as [c|c observed]; pose proof Hwf as (Hr & He & Hn & Hl).
  - unfold next_instruction. destruct (cursor_live c) eqn:Hlive; simpl; [done|].
    destruct (_ !! _) as [e|] eqn:Hlk; simpl.
    + pose proof (lookup_lt_Some _ _ _ Hlk). destruct (entry_frame e); simpl; [done|].
      unfold cursor_wf. simpl. rewrite Hlive, He in *. split_and!; try done; lia.
    + apply lookup_ge_None in Hlk. unfold cursor_wf. simpl. rewrite He in *. split_and!; try done; lia.
  - unfold submit_request. destruct (cursor_live c) eqn:Hlive; simpl.
    { assert (set_live c = c) as -> by (destruct c; simpl in *; by subst). done. }
    destruct (Nat.eqb_spec (cursor_next c) (length (cursor_entries c))) as [Hend|_]; simpl.
    { unfold cursor_wf. simpl. by rewrite He in *. }
    assert (forall k, cursor_next c <= k <= length (journal_entries j) ->
      cursor_wf j (set_next c k) /\ cursor_next c <= k /\ (false = true -> set_next c k = c)) as Hset.
    { intros k Hk. unfold cursor_wf. simpl. rewrite Hlive. split_and!; try done; lia. }
    destruct (_ !! _) as [[p [expected|d]]|] eqn:Hlk; simpl; [|done..].
    pose proof (lookup_lt_Some _ _ _ Hlk). rewrite He in *.
    case_bool_decide; simpl; [apply Hset; lia|].
    destruct (find_persisted_fault c expected) as [k|] eqn:Hk; simpl; [|done].
    apply find_persisted_fault_Some in Hk as (e & ? & Hke & _). apply lookup_lt_Some in Hke.
    rewrite He in *. apply Hset. lia.
Qed.

(** C40. However the host interleaves its calls, the cursor keeps the journal
    it was built from, never moves past its end or backwards, is live only at
    the end, and once live answers both calls with live execution forever. *)
Theorem replay_cursor_safe j c :
  rtc cursor_step (cursor_new j) c ->
  cursor_wf j c /\
  (forall c', cursor_step c c' -> cursor_next c <= cursor_next c') /\
  (cursor_live c = true ->
     next_instruction c = (LiveInstruction, c) /\
     forall observed, submit_request c observed = (Ok LiveRequest, c)).
Proof.
  intros Hsteps. assert (cursor_wf j c) as Hwf.
  { cut (cursor_wf j (cursor_new j)); [|by split_and!; simpl; [..|lia|]].
    induction Hsteps; [done|]. intros ?. apply IHHsteps. by eapply cursor_step_wf. }
  split; [done|]. split; [by intros c' Hc'; apply (cursor_step_wf j c c')|]. intros Hl.
  unfold next_instruction, submit_request, set_live. destruct c; simpl in *. by rewrite Hl.
Qed.

(** ** Witnesses *)

Definition replay_ordinal {o} (n : positive) : journal_ordinal o := mkJournalOrdinal n.
Definition replay_request (n : positive) (kind : RequestKind) : RequestFrame :=
  mkRequest (replay_ordinal n) None kind.

(** A program that reads the clock once and then finishes. *)
Definition clock_program : program := fun history =>
  match history with
  | [] => replay_request 1 (Now (mkPayload []))
  | _ => replay_request 2 (Terminal (mkPayload []))
  end.

Definition clock_journal : ProgramJournal := mkJournal (from_uuid 5)
  [mkEntry (replay_ordinal 1) (RequestEntry (replay_request 1 (Now (mkPayload []))));
   mkEntry (replay_ordinal 2) (DeliveryEntry (mkDelivery (replay_ordinal 1)
     (Answer (replay_ordinal 1) (mkPayload []))));
   mkEntry (replay_ordinal 3) (RequestEntry (replay_request 2 (Terminal (mkPayload []))))].

(** The same program after an edit: it sleeps instead of finishing. *)
Definition edited_program : program := fun history =>
  match history with
  | [] => replay_request 1 (Now (mkPayload []))
  | _ => replay_request 2 (Sleep (mkPayload []))
  end.

Lemma clock_journal_recorded : recorded_by clock_program (journal_entries clock_journal) 3.
Proof.
  intros i e q Hi He Hq. destruct i as [|[|[|i]]]; simpl in He; [..|lia];
    injection He as <-; simpl in Hq; try discriminate; injection Hq as <-; reflexivity.
Defined.

Lemma replay_reproduces_history_witness :
  host_turns 4 clock_program (cursor_new clock_journal) [] =
    WentLive (set_live (set_next (cursor_new clock_journal) 3)) (frames (journal_entries clock_journal)).
Proof. exact (replay_reproduces_history clock_program clock_journal clock_journal_recorded). Defined.

Lemma replay_detects_divergence_witness :
  host_turns 3 edited_program (cursor_new clock_journal) [] =
    Diverged (set_next (cursor_new clock_journal) 2) (frames (take 2 (journal_entries clock_journal)))
      (mkNondeterminismError (from_uuid 5) (replay_request 2 (Terminal (mkPayload [])))
         (replay_request 2 (Sleep (mkPayload [])))).
Proof.
  refine (proj1 (replay_detects_divergence edited_program clock_journal 2 _ _ _ eq_refl eq_refl _) _).
  - intros i e q Hi He Hq. destruct i as [|[|i]]; simpl in He; [..|lia];
      injection He as <-; simpl in Hq; try discriminate; injection Hq as <-; reflexivity.
  - discriminate.
  - intros (k & e & Hk & He & _). simpl in He. destruct k as [|[|[|k]]]; [lia|lia|lia|].
    simpl in He. rewrite lookup_nil in He. discriminate.
Defined.

Lemma replay_cursor_safe_witness :
  cursor_wf clock_journal (next_instruction (cursor_new clock_journal)).2.
Proof.
  exact (proj1 (replay_cursor_safe clock_journal _ (rtc_once _ _ (step_instruction (cursor_new clock_journal))))).
Defined.
