(* ===== verification/ModelSettings.v ===== *)
(** * Model settings: precedence, capabilities and model changes

    Model of [crates/domain/src/model_settings.rs] with the model-selection
    values of [crates/domain/src/configuration.rs] it is stated over: the
    four-layer precedence chain, its resolution with per-setting provenance,
    validation against a model's capability record, the adjustment of inherited
    settings when the model changes, and the recorded evidence of both. *)

From S2P Require Import Prelude.

(** ** Model selection *)

Record FrozenAliasDefinition := selecting { alias_selected : DirectModelSelection }.

Inductive ModelSelectionRequest :=
| DirectRequest (selection : DirectModelSelection)
| AliasRequest (alias : ModelAlias).

Inductive FrozenModelSelection :=
| FrozenDirect (selection : DirectModelSelection)
| FrozenAlias (alias : ModelAlias) (definition : FrozenAliasDefinition).

Definition selected_direct (frozen : FrozenModelSelection) : DirectModelSelection :=
  match frozen with
  | FrozenDirect selection => selection
  | FrozenAlias _ definition => alias_selected definition
  end.

(** [SessionConfigurationDefaultsVersion(u64)], positive by construction. *)
Record SessionConfigurationDefaultsVersion := mkDefaultsVersion { defaults_version_get : positive }.

Definition defaults_version_try_from_u64 (value : N) : option SessionConfigurationDefaultsVersion :=
  match value with N0 => None | Npos p => Some (mkDefaultsVersion p) end.
Definition defaults_version_first : SessionConfigurationDefaultsVersion := mkDefaultsVersion 1.
Definition defaults_version_checked_next (v : SessionConfigurationDefaultsVersion) :
    option SessionConfigurationDefaultsVersion :=
  mkDefaultsVersion <$> nonzero_u64_checked_add (defaults_version_get v) 1.

Record ResolvedProviderTarget := naming { target_identity : ProviderModelIdentity }.

#[export] Instance FrozenAliasDefinition_eq_dec : EqDecision FrozenAliasDefinition.
Proof. solve_decision. Defined.
#[export] Instance ModelSelectionRequest_eq_dec : EqDecision ModelSelectionRequest.
Proof. solve_decision. Defined.
#[export] Instance FrozenModelSelection_eq_dec : EqDecision FrozenModelSelection.
Proof. solve_decision. Defined.
#[export] Instance SessionConfigurationDefaultsVersion_eq_dec :
  EqDecision SessionConfigurationDefaultsVersion.
Proof. solve_decision. Defined.
#[export] Instance ResolvedProviderTarget_eq_dec : EqDecision ResolvedProviderTarget.
Proof. solve_decision. Defined.

(** ** Setting values *)

Inductive ReasoningLevel :=
| ReasoningNone | Minimal | Low | Medium | High | XHigh | MaxLevel | Ultra.

Inductive FastMode := FastDisabled | FastEnabled.

Inductive FastModeOverlay :=
| FastInherit
| FastValue (mode : FastMode).

Inductive AnthropicServiceTier := AnthropicAuto | AnthropicStandardOnly.
Inductive OpenAiServiceTier :=
| OpenAiAuto | OpenAiDefault | OpenAiFlex | OpenAiScale | OpenAiPriority | OpenAiFast.
Inductive CodexCliServiceTier := CodexDefault | CodexPriority | CodexFlex.

Inductive ServiceTier :=
| Anthropic (tier : AnthropicServiceTier)
| OpenAi (tier : OpenAiServiceTier)
| CodexCli (tier : CodexCliServiceTier).

Inductive SettingOverlay (T : Type) :=
| Inherit
| ProviderDefault
| Value (value : T).
Arguments Inherit {T}.
Arguments ProviderDefault {T}.
Arguments Value {T} value.

(** The declaration order, by which the derived [Ord] compares levels. *)
Definition reasoning_rank (level : ReasoningLevel) : N :=
  match level with
  | ReasoningNone => 0 | Minimal => 1 | Low => 2 | Medium => 3 | High => 4
  | XHigh => 5 | MaxLevel => 6 | Ultra => 7
  end.

#[export] Instance ReasoningLevel_eq_dec : EqDecision ReasoningLevel.
Proof. solve_decision. Defined.
#[export] Instance ReasoningLevel_ord_key : OrdKey ReasoningLevel := reasoning_rank.
#[export] Instance ReasoningLevel_ord_key_inj : OrdKeyInj ReasoningLevel.
Proof. by intros [] []. Qed.
#[export] Instance ReasoningLevel_countable : Countable ReasoningLevel.
Proof.
  apply (inj_countable reasoning_rank (fun n =>
    match n with
    | 0 => Some ReasoningNone | 1 => Some Minimal | 2 => Some Low | 3 => Some Medium
    | 4 => Some High | 5 => Some XHigh | 6 => Some MaxLevel | 7 => Some Ultra | _ => None
    end%N)). by intros [].
Defined.

Definition service_tier_code (tier : ServiceTier) : nat :=
  match tier with
  | Anthropic AnthropicAuto => 0 | Anthropic AnthropicStandardOnly => 1
  | OpenAi OpenAiAuto => 2 | OpenAi OpenAiDefault => 3 | OpenAi OpenAiFlex => 4
  | OpenAi OpenAiScale => 5 | OpenAi OpenAiPriority => 6 | OpenAi OpenAiFast => 7
  | CodexCli CodexDefault => 8 | CodexCli CodexPriority => 9 | CodexCli CodexFlex => 10
  end.

#[export] Instance ServiceTier_eq_dec : EqDecision ServiceTier.
Proof.
  assert (EqDecision AnthropicServiceTier) by solve_decision.
  assert (EqDecision OpenAiServiceTier) by solve_decision.
  assert (EqDecision CodexCliServiceTier) by solve_decision. solve_decision.
Defined.
#[export] Instance ServiceTier_countable : Countable ServiceTier.
Proof.
  apply (inj_countable service_tier_code (fun n =>
    match n with
    | 0 => Some (Anthropic AnthropicAuto) | 1 => Some (Anthropic AnthropicStandardOnly)
    | 2 => Some (OpenAi OpenAiAuto) | 3 => Some (OpenAi OpenAiDefault)
    | 4 => Some (OpenAi OpenAiFlex) | 5 => Some (OpenAi OpenAiScale)
    | 6 => Some (OpenAi OpenAiPriority) | 7 => Some (OpenAi OpenAiFast)
    | 8 => Some (CodexCli CodexDefault) | 9 => Some (CodexCli CodexPriority)
    | 10 => Some (CodexCli CodexFlex) | _ => None
    end)). by intros [[]|[]|[]].
Defined.
#[export] Instance FastMode_eq_dec : EqDecision FastMode.
Proof. solve_decision. Defined.
#[export] Instance FastModeOverlay_eq_dec : EqDecision FastModeOverlay.
Proof. solve_decision. Defined.
#[export] Instance SettingOverlay_eq_dec `{EqDecision T} : EqDecision (SettingOverlay T).
Proof. solve_decision. Defined.

(** ** Overlays and effective values *)

Record ModelSettingsOverlay := mkOverlay {
  overlay_reasoning_level : SettingOverlay ReasoningLevel;
  overlay_fast_mode : FastModeOverlay;
  overlay_service_tier : SettingOverlay ServiceTier;
}.

Record EffectiveModelSettings := mkEffective {
  effective_reasoning_level : option ReasoningLevel;
  effective_fast_mode : FastMode;
  effective_service_tier : option ServiceTier;
}.

Definition overlay_inherit_all : ModelSettingsOverlay := mkOverlay Inherit FastInherit Inherit.

Definition overlay_of_option {T} (value : option T) : SettingOverlay T :=
  match value with Some value => Value value | None => ProviderDefault end.

Definition overlay_from_effective (settings : EffectiveModelSettings) : ModelSettingsOverlay :=
  mkOverlay (overlay_of_option (effective_reasoning_level settings))
    (FastValue (effective_fast_mode settings))
    (overlay_of_option (effective_service_tier settings)).

Definition inheriting_from (self prior : ModelSettingsOverlay) : ModelSettingsOverlay :=
  mkOverlay
    match overlay_reasoning_level self with
    | Inherit => overlay_reasoning_level prior
    | _ => overlay_reasoning_level self
    end
    match overlay_fast_mode self with
    | FastInherit => overlay_fast_mode prior
    | _ => overlay_fast_mode self
    end
    match overlay_service_tier self with
    | Inherit => overlay_service_tier prior
    | _ => overlay_service_tier self
    end.

Definition effective_provider_defaults : EffectiveModelSettings := mkEffective None FastDisabled None.

Inductive ModelSettingSource := PerCall | SessionLayer | Profile | GlobalDefault.

Record ResolvedModelSettings := mkResolved {
  resolved_effective : EffectiveModelSettings;
  reasoning_source : option ModelSettingSource;
  fast_mode_source : option ModelSettingSource;
  service_tier_source : option ModelSettingSource;
}.

Record ModelSettingsPrecedence := mkPrecedence {
  per_call : ModelSettingsOverlay;
  session_layer : ModelSettingsOverlay;
  profile : ModelSettingsOverlay;
  global_default : ModelSettingsOverlay;
}.

#[export] Instance ModelSettingsOverlay_eq_dec : EqDecision ModelSettingsOverlay.
Proof. solve_decision. Defined.
#[export] Instance EffectiveModelSettings_eq_dec : EqDecision EffectiveModelSettings.
Proof. solve_decision. Defined.
#[export] Instance ModelSettingSource_eq_dec : EqDecision ModelSettingSource.
Proof. solve_decision. Defined.
#[export] Instance ResolvedModelSettings_eq_dec : EqDecision ResolvedModelSettings.
Proof. solve_decision. Defined.
#[export] Instance ModelSettingsPrecedence_eq_dec : EqDecision ModelSettingsPrecedence.
Proof. solve_decision. Defined.

(** ** Precedence *)

Definition precedence_provider_defaults : ModelSettingsPrecedence :=
  mkPrecedence overlay_inherit_all overlay_inherit_all overlay_inherit_all overlay_inherit_all.

Definition with_per_call (self : ModelSettingsPrecedence) (overlay : ModelSettingsOverlay) :
    ModelSettingsPrecedence :=
  mkPrecedence overlay (session_layer self) (profile self) (global_default self).
Definition with_session (self : ModelSettingsPrecedence) (overlay : ModelSettingsOverlay) :
    ModelSettingsPrecedence :=
  mkPrecedence (per_call self) overlay (profile self) (global_default self).

Fixpoint resolve_nullable {T} (layers : list (ModelSettingSource * SettingOverlay T)) :
    option T * option ModelSettingSource :=
  match layers with
  | [] => (None, None)
  | (source, overlay) :: layers =>
      match overlay with
      | Inherit => resolve_nullable layers
      | ProviderDefault => (None, Some source)
      | Value value => (Some value, Some source)
      end
  end.

Fixpoint resolve_fast (layers : list (ModelSettingSource * FastModeOverlay)) :
    FastMode * option ModelSettingSource :=
  match layers with
  | [] => (FastDisabled, None)
  | (source, overlay) :: layers =>
      match overlay with
      | FastInherit => resolve_fast layers
      | FastValue value => (value, Some source)
      end
  end.

Definition precedence_layers (self : ModelSettingsPrecedence) :
    list (ModelSettingSource * ModelSettingsOverlay) :=
  [(PerCall, per_call self); (SessionLayer, session_layer self);
   (Profile, profile self); (GlobalDefault, global_default self)].

Definition resolve (self : ModelSettingsPrecedence) : ResolvedModelSettings :=
  let layers := precedence_layers self in
  let '(reasoning_level, reasoning_source) :=
    resolve_nullable (prod_map id overlay_reasoning_level <$> layers) in
  let '(fast_mode, fast_mode_source) :=
    resolve_fast (prod_map id overlay_fast_mode <$> layers) in
  let '(service_tier, service_tier_source) :=
    resolve_nullable (prod_map id overlay_service_tier <$> layers) in
  mkResolved (mkEffective reasoning_level fast_mode service_tier)
    reasoning_source fast_mode_source service_tier_source.

(** Assignment to one layer of the chain; no layer for [None]. *)
Definition update_layer (self : ModelSettingsPrecedence) (source : option ModelSettingSource)
    (f : ModelSettingsOverlay -> ModelSettingsOverlay) : ModelSettingsPrecedence :=
  match source with
  | Some PerCall => mkPrecedence (f (per_call self)) (session_layer self) (profile self) (global_default self)
  | Some SessionLayer => mkPrecedence (per_call self) (f (session_layer self)) (profile self) (global_default self)
  | Some Profile => mkPrecedence (per_call self) (session_layer self) (f (profile self)) (global_default self)
  | Some GlobalDefault => mkPrecedence (per_call self) (session_layer self) (profile self) (f (global_default self))
  | None => self
  end.

Definition set_reasoning_at_source (self : ModelSettingsPrecedence)
    (source : option ModelSettingSource) (value : option ReasoningLevel) : ModelSettingsPrecedence :=
  update_layer self source (fun o =>
    mkOverlay (overlay_of_option value) (overlay_fast_mode o) (overlay_service_tier o)).

Definition set_fast_mode_at_source (self : ModelSettingsPrecedence)
    (source : option ModelSettingSource) (value : FastMode) : ModelSettingsPrecedence :=
  update_layer self source (fun o =>
    mkOverlay (overlay_reasoning_level o) (FastValue value) (overlay_service_tier o)).

Definition set_service_tier_at_source (self : ModelSettingsPrecedence)
    (source : option ModelSettingSource) (value : option ServiceTier) : ModelSettingsPrecedence :=
  update_layer self source (fun o =>
    mkOverlay (overlay_reasoning_level o) (overlay_fast_mode o) (overlay_of_option value)).

Definition with_effective_adjustment (self : ModelSettingsPrecedence)
    (prior : ResolvedModelSettings) (adjusted : EffectiveModelSettings) : ModelSettingsPrecedence :=
  let before := resolved_effective prior in
  let self :=
    if bool_decide (effective_reasoning_level before = effective_reasoning_level adjusted) then self
    else set_reasoning_at_source self (reasoning_source prior) (effective_reasoning_level adjusted) in
  let self :=
    if bool_decide (effective_fast_mode before = effective_fast_mode adjusted) then self
    else set_fast_mode_at_source self (fast_mode_source prior) (effective_fast_mode adjusted) in
  if bool_decide (effective_service_tier before = effective_service_tier adjusted) then self
  else set_service_tier_at_source self (service_tier_source prior) (effective_service_tier adjusted).

(** ** Validated settings *)

Record ValidatedModelSettings := mkValidated {
  validated_precedence : ModelSettingsPrecedence;
  validated_resolved : ResolvedModelSettings;
  validated_for : option DirectModelSelection;
}.

#[export] Instance ValidatedModelSettings_eq_dec : EqDecision ValidatedModelSettings.
Proof. solve_decision. Defined.

Definition validated_provider_defaults : ValidatedModelSettings :=
  mkValidated precedence_provider_defaults
    (mkResolved effective_provider_defaults None None None) None.

Definition for_selection (precedence : ModelSettingsPrecedence) (resolved : ResolvedModelSettings)
    (selection : DirectModelSelection) : ValidatedModelSettings :=
  mkValidated precedence resolved (Some selection).

Definition validated_reconstitute (precedence : ModelSettingsPrecedence)
    (effective : EffectiveModelSettings)
    (reasoning_source fast_mode_source service_tier_source : option ModelSettingSource)
    (selection : option DirectModelSelection) : option ValidatedModelSettings :=
  let resolved := mkResolved effective reasoning_source fast_mode_source service_tier_source in
  let reconstituted := mkValidated precedence resolved selection in
  if bool_decide (resolve precedence = resolved)
     && (bool_decide (is_Some selection) || bool_decide (reconstituted = validated_provider_defaults))
  then Some reconstituted else None.

(** ** Capabilities *)

Inductive FastModeSupport :=
| FastUnsupported
| RequestControl
| AlternateTarget (target : ResolvedProviderTarget).

#[export] Instance FastModeSupport_eq_dec : EqDecision FastModeSupport.
Proof. solve_decision. Defined.

Record ModelCapabilities := mkCapabilities {
  reasoning_levels : gset ReasoningLevel;
  fast_mode_support : FastModeSupport;
  service_tiers : gset ServiceTier;
}.

Inductive UnsupportedModelSetting :=
| UnsupportedReasoningLevel (selection : DirectModelSelection) (requested : ReasoningLevel)
| UnsupportedFastMode (selection : DirectModelSelection)
| UnsupportedServiceTier (selection : DirectModelSelection) (requested : ServiceTier).

Inductive ModelChangeAdjustment :=
| ReasoningLevelClamped (from to : ReasoningLevel)
| ReasoningLevelCleared (from : ReasoningLevel)
| FastModeDisabled
| ServiceTierCleared (from : ServiceTier).

Record CompatibleModelSettings := mkCompatible {
  compatible_effective : EffectiveModelSettings;
  compatible_adjustments : list ModelChangeAdjustment;
}.

Record AdjustedModelSettings := mkAdjusted {
  adjusted_settings : ValidatedModelSettings;
  adjusted_adjustments : list ModelChangeAdjustment;
}.

#[export] Instance ModelChangeAdjustment_eq_dec : EqDecision ModelChangeAdjustment.
Proof. solve_decision. Defined.

Definition validate_explicit (self : ModelCapabilities) (selection : DirectModelSelection)
    (overlay : ModelSettingsOverlay) : result UnsupportedModelSetting unit :=
  _ ← match overlay_reasoning_level overlay with
      | Value level => ensure (bool_decide (level ∈ reasoning_levels self))
                         (UnsupportedReasoningLevel selection level)
      | _ => Ok tt
      end;
  _ ← ensure (negb (bool_decide (overlay_fast_mode overlay = FastValue FastEnabled)
                    && bool_decide (fast_mode_support self = FastUnsupported)))
        (UnsupportedFastMode selection);
  match overlay_service_tier overlay with
  | Value tier => ensure (bool_decide (tier ∈ service_tiers self))
                    (UnsupportedServiceTier selection tier)
  | _ => Ok tt
  end.

Definition validate_precedence (self : ModelCapabilities) (selection : DirectModelSelection)
    (precedence : ModelSettingsPrecedence) : result UnsupportedModelSetting ValidatedModelSettings :=
  if bool_decide (precedence = precedence_provider_defaults) then Ok validated_provider_defaults else
  let resolved := resolve precedence in
  _ ← validate_explicit self selection (overlay_from_effective (resolved_effective resolved));
  Ok (for_selection precedence resolved selection).

(** [reasoning_levels.range(..=requested).next_back()], else the first. *)
Definition clamp_reasoning (levels : gset ReasoningLevel) (requested : ReasoningLevel) :
    option ReasoningLevel :=
  match last (filter (fun level => key_le level requested) (btree_set_iter levels)) with
  | Some applied => Some applied
  | None => head (btree_set_iter levels)
  end.

Definition adjust_reasoning (self : ModelCapabilities) (inherited : option ReasoningLevel) :
    option ReasoningLevel * list ModelChangeAdjustment :=
  match inherited with
  | Some requested =>
      if bool_decide (requested ∈ reasoning_levels self) then (inherited, []) else
      match clamp_reasoning (reasoning_levels self) requested with
      | Some applied => (Some applied, [ReasoningLevelClamped requested applied])
      | None => (None, [ReasoningLevelCleared requested])
      end
  | None => (inherited, [])
  end.

Definition adjust_fast_mode (self : ModelCapabilities) (inherited : FastMode) :
    FastMode * list ModelChangeAdjustment :=
  if bool_decide (inherited = FastEnabled) && bool_decide (fast_mode_support self = FastUnsupported)
  then (FastDisabled, [FastModeDisabled]) else (inherited, []).

Definition adjust_service_tier (self : ModelCapabilities) (inherited : option ServiceTier) :
    option ServiceTier * list ModelChangeAdjustment :=
  match inherited with
  | Some requested =>
      if bool_decide (requested ∈ service_tiers self) then (inherited, [])
      else (None, [ServiceTierCleared requested])
  | None => (inherited, [])
  end.

Definition adjust_for_model_change (self : ModelCapabilities) (inherited : EffectiveModelSettings) :
    CompatibleModelSettings :=
  let '(reasoning_level, clamped) := adjust_reasoning self (effective_reasoning_level inherited) in
  let '(fast_mode, disabled) := adjust_fast_mode self (effective_fast_mode inherited) in
  let '(service_tier, cleared) := adjust_service_tier self (effective_service_tier inherited) in
  mkCompatible (mkEffective reasoning_level fast_mode service_tier) (clamped ++ disabled ++ cleared).

Definition validate_model_change (self : ModelCapabilities) (selection : DirectModelSelection)
    (precedence : ModelSettingsPrecedence) (caller_overlay : ModelSettingsOverlay) :
    result UnsupportedModelSetting AdjustedModelSettings :=
  _ ← validate_explicit self selection caller_overlay;
  let prior := resolve precedence in
  let compatible := adjust_for_model_change self (resolved_effective prior) in
  let precedence := with_effective_adjustment precedence prior (compatible_effective compatible) in
  Ok (mkAdjusted (for_selection precedence (resolve precedence) selection)
        (compatible_adjustments compatible)).

Definition serving_target (self : ModelCapabilities) (selected : ResolvedProviderTarget)
    (mode : FastMode) : option ResolvedProviderTarget :=
  match mode, fast_mode_support self with
  | FastDisabled, _ | FastEnabled, RequestControl => Some selected
  | FastEnabled, AlternateTarget target =>
      if bool_decide (target = selected) then None else Some target
  | FastEnabled, FastUnsupported => None
  end.

(** ** Recorded evidence *)

(** The locals of [apply_recorded_model_change_adjustments]. *)
Definition apply_adjustment (prior : ResolvedModelSettings)
    (state : EffectiveModelSettings * N) (adjustment : ModelChangeAdjustment) :
    result unit (EffectiveModelSettings * N) :=
  let '(effective, last_knob) := state in
  '(effective, knob) ←
    match adjustment with
    | ReasoningLevelClamped from to =>
        if (1 <? last_knob)%N
           || bool_decide (reasoning_source prior = Some PerCall)
           || negb (bool_decide (effective_reasoning_level effective = Some from))
           || bool_decide (to = from)
        then Err tt
        else Ok (mkEffective (Some to) (effective_fast_mode effective)
                   (effective_service_tier effective), 1%N)
    | ReasoningLevelCleared from =>
        if (1 <? last_knob)%N
           || bool_decide (reasoning_source prior = Some PerCall)
           || negb (bool_decide (effective_reasoning_level effective = Some from))
        then Err tt
        else Ok (mkEffective None (effective_fast_mode effective)
                   (effective_service_tier effective), 1%N)
    | FastModeDisabled =>
        if (2 <? last_knob)%N
           || bool_decide (fast_mode_source prior = Some PerCall)
           || negb (bool_decide (effective_fast_mode effective = FastEnabled))
        then Err tt
        else Ok (mkEffective (effective_reasoning_level effective) FastDisabled
                   (effective_service_tier effective), 2%N)
    | ServiceTierCleared from =>
        if (3 <? last_knob)%N
           || bool_decide (service_tier_source prior = Some PerCall)
           || negb (bool_decide (effective_service_tier effective = Some from))
        then Err tt
        else Ok (mkEffective (effective_reasoning_level effective) (effective_fast_mode effective)
                   None, 3%N)
    end;
  if (knob =? last_knob)%N then Err tt else Ok (effective, knob).

Definition apply_recorded_model_change_adjustments (prior : ResolvedModelSettings)
    (adjustments : list ModelChangeAdjustment) : option EffectiveModelSettings :=
  match try_fold (apply_adjustment prior) adjustments (resolved_effective prior, 0%N) with
  | Ok (effective, _) => Some effective
  | Err _ => None
  end.

Definition unapply_adjustment (settled : ResolvedModelSettings) (prior : EffectiveModelSettings)
    (adjustment : ModelChangeAdjustment) : result unit EffectiveModelSettings :=
  match adjustment with
  | ReasoningLevelClamped from to =>
      if negb (bool_decide (reasoning_source settled = Some PerCall))
         && bool_decide (effective_reasoning_level (resolved_effective settled) = Some to)
      then Ok (mkEffective (Some from) (effective_fast_mode prior) (effective_service_tier prior))
      else Err tt
  | ReasoningLevelCleared from =>
      if negb (bool_decide (reasoning_source settled = Some PerCall))
         && bool_decide (effective_reasoning_level (resolved_effective settled) = None)
      then Ok (mkEffective (Some from) (effective_fast_mode prior) (effective_service_tier prior))
      else Err tt
  | FastModeDisabled =>
      if negb (bool_decide (fast_mode_source settled = Some PerCall))
         && bool_decide (effective_fast_mode (resolved_effective settled) = FastDisabled)
      then Ok (mkEffective (effective_reasoning_level prior) FastEnabled (effective_service_tier prior))
      else Err tt
  | ServiceTierCleared from =>
      if negb (bool_decide (service_tier_source settled = Some PerCall))
         && bool_decide (effective_service_tier (resolved_effective settled) = None)
      then Ok (mkEffective (effective_reasoning_level prior) (effective_fast_mode prior) (Some from))
      else Err tt
  end.

Definition unapply_recorded_model_change_adjustments (settings : ValidatedModelSettings)
    (adjustments : list ModelChangeAdjustment) : option ModelSettingsPrecedence :=
  let settled := validated_resolved settings in
  match try_fold (unapply_adjustment settled) adjustments (resolved_effective settled) with
  | Ok prior => Some (with_effective_adjustment (validated_precedence settings) settled prior)
  | Err _ => None
  end.

Record SessionModelSettingsChanged := mkSettingsChanged {
  changed_session : SessionId;
  changed_command : DurableCommandId;
  changed_prior_defaults_version : SessionConfigurationDefaultsVersion;
  changed_installed_defaults_version : SessionConfigurationDefaultsVersion;
  changed_prior_model : ModelSelectionRequest;
  changed_installed_model : ModelSelectionRequest;
  changed_prior_settings : ValidatedModelSettings;
  changed_installed_settings : ValidatedModelSettings;
  changed_caller_override : ModelSettingsOverlay;
  changed_adjustments : list ModelChangeAdjustment;
}.

Definition request_matches_validation (model : ModelSelectionRequest)
    (validation : option DirectModelSelection) : bool :=
  match model, validation with
  | DirectRequest expected, Some validated => bool_decide (expected = validated)
  | DirectRequest _, None | AliasRequest _, _ => true
  end.

Definition adjustment_targets_inherited (caller_override : ModelSettingsOverlay)
    (adjustment : ModelChangeAdjustment) : bool :=
  match adjustment with
  | ReasoningLevelClamped _ _ | ReasoningLevelCleared _ =>
      bool_decide (overlay_reasoning_level caller_override = Inherit)
  | FastModeDisabled => bool_decide (overlay_fast_mode caller_override = FastInherit)
  | ServiceTierCleared _ => bool_decide (overlay_service_tier caller_override = Inherit)
  end.

Definition settings_changed_try_new (session : SessionId) (command : DurableCommandId)
    (prior_version installed_version : SessionConfigurationDefaultsVersion)
    (prior_model installed_model : ModelSelectionRequest)
    (prior_settings installed_settings : ValidatedModelSettings)
    (caller_override : ModelSettingsOverlay) (adjustments : list ModelChangeAdjustment) :
    option SessionModelSettingsChanged :=
  let is_successor :=
    bool_decide (defaults_version_checked_next prior_version = Some installed_version) in
  let records_change :=
    negb (bool_decide (prior_model = installed_model))
    || negb (bool_decide (prior_settings = installed_settings)) in
  let validation_changed :=
    match validated_for prior_settings, validated_for installed_settings with
    | Some prior, Some installed => negb (bool_decide (prior = installed))
    | _, _ => false
    end in
  let prior_precedence := validated_precedence prior_settings in
  let installed_precedence := validated_precedence installed_settings in
  let no_per_call_layer :=
    bool_decide (per_call prior_precedence = overlay_inherit_all)
    && bool_decide (per_call installed_precedence = overlay_inherit_all) in
  let copied_precedence :=
    mkPrecedence overlay_inherit_all (session_layer prior_precedence)
      (profile installed_precedence) (global_default installed_precedence) in
  let unadjusted_precedence :=
    with_session copied_precedence
      (inheriting_from caller_override (session_layer prior_precedence)) in
  let unadjusted := resolve unadjusted_precedence in
  let provenance_matches :=
    match apply_recorded_model_change_adjustments unadjusted adjustments with
    | Some adjusted =>
        let expected := with_effective_adjustment unadjusted_precedence unadjusted adjusted in
        bool_decide (validated_precedence installed_settings = expected)
        && bool_decide (validated_resolved installed_settings = resolve expected)
    | None => false
    end in
  if is_successor && records_change
     && request_matches_validation prior_model (validated_for prior_settings)
     && request_matches_validation installed_model (validated_for installed_settings)
     && no_per_call_layer && provenance_matches
     && forallb (adjustment_targets_inherited caller_override) adjustments
     && (bool_decide (adjustments = []) || validation_changed)
  then Some (mkSettingsChanged session command prior_version installed_version prior_model
               installed_model prior_settings installed_settings caller_override adjustments)
  else None.

Record TurnModelSettingsResolved := mkSettingsResolved {
  turn_resolved_accepted_input : AcceptedInputId;
  turn_resolved_turn : TurnId;
  turn_resolved_defaults_version : SessionConfigurationDefaultsVersion;
  turn_resolved_selection : FrozenModelSelection;
  turn_resolved_per_call_override : ModelSettingsOverlay;
  turn_resolved_settings : ValidatedModelSettings;
  turn_resolved_adjusted_from : option DirectModelSelection;
  turn_resolved_adjustments : list ModelChangeAdjustment;
}.

Definition settings_resolved_try_new (accepted_input : AcceptedInputId) (turn : TurnId)
    (defaults_version : SessionConfigurationDefaultsVersion) (selection : FrozenModelSelection)
    (per_call_override : ModelSettingsOverlay) (settings : ValidatedModelSettings)
    (adjusted_from : option DirectModelSelection) (adjustments : list ModelChangeAdjustment) :
    option TurnModelSettingsResolved :=
  let selection_matches :=
    bool_decide (validated_for settings = None)
    || bool_decide (validated_for settings = Some (selected_direct selection)) in
  let caller_matches :=
    bool_decide (per_call (validated_precedence settings) = per_call_override) in
  let adjustments_match :=
    match unapply_recorded_model_change_adjustments settings adjustments with
    | Some unadjusted_precedence =>
        let unadjusted := resolve unadjusted_precedence in
        match apply_recorded_model_change_adjustments unadjusted adjustments with
        | Some adjusted =>
            let expected := with_effective_adjustment unadjusted_precedence unadjusted adjusted in
            bool_decide (validated_precedence settings = expected)
            && bool_decide (validated_resolved settings = resolve expected)
        | None => false
        end
    | None => false
    end in
  let adjustments_match_selection :=
    match adjustments, adjusted_from with
    | [], None => true
    | [], Some _ => false
    | _ :: _, Some prior => negb (bool_decide (prior = selected_direct selection))
    | _ :: _, None => false
    end in
  if selection_matches && caller_matches && adjustments_match && adjustments_match_selection
  then Some (mkSettingsResolved accepted_input turn defaults_version selection per_call_override
               settings adjusted_from adjustments)
  else None.

(** ** Catalog *)

Record ModelCapabilityDefinition := mkCapabilityDefinition {
  definition_selection : DirectModelSelection;
  definition_capabilities : ModelCapabilities;
}.

Record ModelCapabilityCatalog := mkCatalog {
  catalog_capabilities : gmap DirectModelSelection ModelCapabilities;
}.

Inductive ModelCapabilityCatalogError := DuplicateSelection (selection : DirectModelSelection).

Definition catalog_insert (capabilities : gmap DirectModelSelection ModelCapabilities)
    (definition : ModelCapabilityDefinition) :
    result ModelCapabilityCatalogError (gmap DirectModelSelection ModelCapabilities) :=
  match capabilities !! definition_selection definition with
  | Some _ => Err (DuplicateSelection (definition_selection definition))
  | None => Ok (<[definition_selection definition := definition_capabilities definition]> capabilities)
  end.

Definition try_from_definitions (definitions : list ModelCapabilityDefinition) :
    result ModelCapabilityCatalogError ModelCapabilityCatalog :=
  capabilities ← try_fold catalog_insert definitions ∅;
  Ok (mkCatalog capabilities).

Definition catalog_resolve (catalog : ModelCapabilityCatalog) (selection : DirectModelSelection) :
    option ModelCapabilities :=
  catalog_capabilities catalog !! selection.
