(* ===== verification/Configuration.v ===== *)
(** * Session defaults and frozen origin configuration

    Model of [crates/domain/src/configuration.rs]: versioned session defaults,
    the version-checked derivation of a configuration request, freezing it
    into an origin turn's provenance, and the reconstitution of stored
    provenance; with the delivery request of
    [crates/domain/src/delivery_request.rs] that carries the caller's choices. *)

From stdpp Require Import strings.
From S2P Require Import Prelude ModelSettings.

Inductive DangerousToolAutoApproval := AutoApprovalDisabled | ApproveAll.

#[export] Instance DangerousToolAutoApproval_eq_dec : EqDecision DangerousToolAutoApproval.
Proof. solve_decision. Defined.

(** ** Effective configuration *)

Inductive ModelParameters := ParametersProviderDefaults.
Inductive KnownProviderFailureRetry := RetryDisabled.
Inductive ModelFallback := FallbackDisabled.

Record EffectiveConfiguration := mkEffectiveConfiguration {
  effective_model : FrozenModelSelection;
  effective_parameters : ModelParameters;
  effective_known_provider_failure_retry : KnownProviderFailureRetry;
  effective_model_fallback : ModelFallback;
  effective_dangerous_tool_auto_approval : DangerousToolAutoApproval;
  effective_model_settings : ValidatedModelSettings;
}.

Definition from_validated_model_settings (model : FrozenModelSelection)
    (approval : DangerousToolAutoApproval) (settings : ValidatedModelSettings) :
    EffectiveConfiguration :=
  mkEffectiveConfiguration model ParametersProviderDefaults RetryDisabled FallbackDisabled
    approval settings.

Definition configuration_baseline (model : FrozenModelSelection) : EffectiveConfiguration :=
  from_validated_model_settings model AutoApprovalDisabled validated_provider_defaults.

Definition configuration_with_model_settings (model : FrozenModelSelection)
    (approval : DangerousToolAutoApproval) (settings : ValidatedModelSettings) :
    option EffectiveConfiguration :=
  if bool_decide (validated_for settings = None)
     || bool_decide (validated_for settings = Some (selected_direct model))
  then Some (from_validated_model_settings model approval settings) else None.

(** ** Session defaults *)

Record SessionSystemPrompt := mkSystemPrompt { system_prompt_str : string }.

Inductive SessionSystemPromptFailure := PromptEmpty | PromptContainsNull.

Record SessionSystemPromptError := mkSystemPromptError {
  prompt_error_value : string;
  prompt_error_failure : SessionSystemPromptFailure;
}.

Definition system_prompt_try_new (value : string) :
    result SessionSystemPromptError SessionSystemPrompt :=
  let failure :=
    if bool_decide (value = EmptyString) then Some PromptEmpty
    else if contains_null value then Some PromptContainsNull
    else None in
  match failure with
  | Some failure => Err (mkSystemPromptError value failure)
  | None => Ok (mkSystemPrompt value)
  end.

Record SessionConfigurationDefaults := mkDefaults {
  defaults_model : ModelSelectionRequest;
  defaults_dangerous_tool_auto_approval : DangerousToolAutoApproval;
  defaults_system_prompt : option SessionSystemPrompt;
  defaults_model_settings : ValidatedModelSettings;
}.

Definition defaults_new (model : ModelSelectionRequest) : SessionConfigurationDefaults :=
  mkDefaults model AutoApprovalDisabled None validated_provider_defaults.

Definition defaults_complete (model : ModelSelectionRequest)
    (approval : DangerousToolAutoApproval) (prompt : option SessionSystemPrompt) :
    SessionConfigurationDefaults :=
  mkDefaults model approval prompt validated_provider_defaults.

Definition complete_with_model_settings (model : ModelSelectionRequest)
    (approval : DangerousToolAutoApproval) (prompt : option SessionSystemPrompt)
    (settings : ValidatedModelSettings) : option SessionConfigurationDefaults :=
  let selection_matches := request_matches_validation model (validated_for settings) in
  let per_call_inherits :=
    bool_decide (per_call (validated_precedence settings) = overlay_inherit_all) in
  if negb selection_matches || negb per_call_inherits then None
  else Some (mkDefaults model approval prompt settings).

Record VersionedSessionConfigurationDefaults := mkVersionedDefaults {
  versioned_version : SessionConfigurationDefaultsVersion;
  versioned_defaults : SessionConfigurationDefaults;
}.

Definition establish (defaults : SessionConfigurationDefaults) :
    VersionedSessionConfigurationDefaults :=
  mkVersionedDefaults defaults_version_first defaults.

Definition versioned_reconstitute (version : SessionConfigurationDefaultsVersion)
    (defaults : SessionConfigurationDefaults) : VersionedSessionConfigurationDefaults :=
  mkVersionedDefaults version defaults.

Definition replace_defaults (self : VersionedSessionConfigurationDefaults)
    (defaults : SessionConfigurationDefaults) : option VersionedSessionConfigurationDefaults :=
  version ← defaults_version_checked_next (versioned_version self);
  Some (mkVersionedDefaults version defaults).

(** ** Derived requests *)

Inductive ModelSelectionOverride :=
| UseSessionDefault
| ReplaceWith (request : ModelSelectionRequest).

#[export] Instance ModelSelectionOverride_eq_dec : EqDecision ModelSelectionOverride.
Proof. solve_decision. Defined.

Record ConfigurationRequest := mkConfigurationRequest {
  request_model : ModelSelectionRequest;
  request_dangerous_tool_auto_approval : DangerousToolAutoApproval;
  request_model_settings : ValidatedModelSettings;
  request_per_call_model_settings : ModelSettingsOverlay;
}.

Record VersionCheckedConfigurationRequest := mkCheckedRequest {
  checked_request : ConfigurationRequest;
  checked_session_defaults_version : SessionConfigurationDefaultsVersion;
}.

Record SessionDefaultsVersionMismatch := mkVersionMismatch {
  mismatch_expected : SessionConfigurationDefaultsVersion;
  mismatch_current : SessionConfigurationDefaultsVersion;
}.

Definition derive_request_with_model_settings (self : VersionedSessionConfigurationDefaults)
    (expected : SessionConfigurationDefaultsVersion) (model : ModelSelectionOverride)
    (per_call_model_settings : ModelSettingsOverlay) :
    result SessionDefaultsVersionMismatch VersionCheckedConfigurationRequest :=
  if negb (bool_decide (expected = versioned_version self))
  then Err (mkVersionMismatch expected (versioned_version self)) else
  let defaults := versioned_defaults self in
  let model :=
    match model with
    | UseSessionDefault => defaults_model defaults
    | ReplaceWith request => request
    end in
  Ok (mkCheckedRequest
        (mkConfigurationRequest model (defaults_dangerous_tool_auto_approval defaults)
           (defaults_model_settings defaults) per_call_model_settings)
        (versioned_version self)).

Definition derive_request (self : VersionedSessionConfigurationDefaults)
    (expected : SessionConfigurationDefaultsVersion) (model : ModelSelectionOverride) :
    result SessionDefaultsVersionMismatch VersionCheckedConfigurationRequest :=
  derive_request_with_model_settings self expected model overlay_inherit_all.

(** ** Origin configuration *)

Record OriginConfiguration := mkOrigin {
  origin_requested : ConfigurationRequest;
  origin_session_defaults_version : SessionConfigurationDefaultsVersion;
  origin_effective : EffectiveConfiguration;
  origin_model_settings_adjusted_from : option DirectModelSelection;
  origin_model_settings_adjustments : list ModelChangeAdjustment;
}.

Record UnknownModelAlias := mkUnknownAlias { unknown_alias : ModelAlias }.

Inductive OriginModelSettingsError :=
| UnknownAlias (error : UnknownModelAlias)
| MissingCapabilities (selection : DirectModelSelection)
| UnsupportedSetting (error : UnsupportedModelSetting).

(** The alias step both freezing paths share: the definition selected at
    acceptance, or the unknown alias. *)
Definition freeze_model (model : ModelSelectionRequest)
    (select_definition : ModelAlias -> option FrozenAliasDefinition) :
    result OriginModelSettingsError FrozenModelSelection :=
  match model with
  | DirectRequest selection => Ok (FrozenDirect selection)
  | AliasRequest alias =>
      match select_definition alias with
      | Some definition => Ok (FrozenAlias alias definition)
      | None => Err (UnknownAlias (mkUnknownAlias alias))
      end
  end.

(** [validated_for().is_some_and(|validated| validated != selection)] *)
Definition validated_for_other (settings : ValidatedModelSettings)
    (selection : DirectModelSelection) : bool :=
  match validated_for settings with
  | Some validated => negb (bool_decide (validated = selection))
  | None => false
  end.

Definition freeze (checked : VersionCheckedConfigurationRequest)
    (select_definition : ModelAlias -> option FrozenAliasDefinition) :
    result OriginModelSettingsError OriginConfiguration :=
  let requested := checked_request checked in
  model ← freeze_model (request_model requested) select_definition;
  let selection := selected_direct model in
  let needs_capabilities :=
    negb (bool_decide (request_per_call_model_settings requested = overlay_inherit_all))
    || validated_for_other (request_model_settings requested) selection in
  if needs_capabilities then Err (MissingCapabilities selection) else
  Ok (mkOrigin requested (checked_session_defaults_version checked)
        (from_validated_model_settings model (request_dangerous_tool_auto_approval requested)
           (request_model_settings requested))
        None []).

(** [request.model_settings = settings] *)
Definition set_request_settings (request : ConfigurationRequest)
    (settings : ValidatedModelSettings) : ConfigurationRequest :=
  mkConfigurationRequest (request_model request) (request_dangerous_tool_auto_approval request)
    settings (request_per_call_model_settings request).

(** [(!adjustments.is_empty()).then_some(prior_validation).flatten()] *)
Definition adjusted_from (adjustments : list ModelChangeAdjustment)
    (prior_validation : option DirectModelSelection) : option DirectModelSelection :=
  match adjustments with [] => None | _ :: _ => prior_validation end.

Definition freeze_with_model_settings (checked : VersionCheckedConfigurationRequest)
    (select_definition : ModelAlias -> option FrozenAliasDefinition)
    (capabilities : ModelCapabilityCatalog) :
    result OriginModelSettingsError OriginConfiguration :=
  let request := checked_request checked in
  model ← freeze_model (request_model request) select_definition;
  let selection := selected_direct model in
  model_capabilities ← ok_or (catalog_resolve capabilities selection) (MissingCapabilities selection);
  let caller_overlay := request_per_call_model_settings request in
  let precedence :=
    with_per_call (validated_precedence (request_model_settings request)) caller_overlay in
  let prior_validation := validated_for (request_model_settings request) in
  '(model_settings, adjustments) ←
    (if validated_for_other (request_model_settings request) selection
     then
       adjusted ← map_err UnsupportedSetting
         (validate_model_change model_capabilities selection precedence caller_overlay);
       Ok (adjusted_settings adjusted, adjusted_adjustments adjusted)
     else
       settings ← map_err UnsupportedSetting
         (validate_precedence model_capabilities selection precedence);
       Ok (settings, []));
  Ok (mkOrigin (set_request_settings request model_settings)
        (checked_session_defaults_version checked)
        (from_validated_model_settings model (request_dangerous_tool_auto_approval request)
           model_settings)
        (adjusted_from adjustments prior_validation) adjustments).

Definition frozen_selection_matches_request (frozen : FrozenModelSelection)
    (requested : ModelSelectionRequest) : bool :=
  match frozen, requested with
  | FrozenDirect stored, DirectRequest requested => bool_decide (stored = requested)
  | FrozenAlias stored _, AliasRequest requested => bool_decide (stored = requested)
  | _, _ => false
  end.

Definition reconstitute_with_model_settings (checked : VersionCheckedConfigurationRequest)
    (frozen_model : FrozenModelSelection) (stored_settings : ValidatedModelSettings)
    (adjustments : list ModelChangeAdjustment) : option OriginConfiguration :=
  let request := checked_request checked in
  if negb (frozen_selection_matches_request frozen_model (request_model request)) then None else
  let selected := selected_direct frozen_model in
  if validated_for_other stored_settings selected then None else
  let prior_validation := validated_for (request_model_settings request) in
  let model_changed := validated_for_other (request_model_settings request) selected in
  if negb (bool_decide (adjustments = [])) && negb model_changed then None else
  let precedence :=
    with_per_call (validated_precedence (request_model_settings request))
      (request_per_call_model_settings request) in
  let prior := resolve precedence in
  adjusted ← apply_recorded_model_change_adjustments prior adjustments;
  let expected_precedence := with_effective_adjustment precedence prior adjusted in
  if negb (bool_decide (validated_precedence stored_settings = expected_precedence))
     || negb (bool_decide (validated_resolved stored_settings = resolve expected_precedence))
  then None else
  Some (mkOrigin (set_request_settings request stored_settings)
          (checked_session_defaults_version checked)
          (from_validated_model_settings frozen_model
             (request_dangerous_tool_auto_approval request) stored_settings)
          (adjusted_from adjustments prior_validation) adjustments).

Record OriginConfigurationReconstitutionInput := mkReconstitutionInput {
  input_defaults_version : SessionConfigurationDefaultsVersion;
  input_defaults : SessionConfigurationDefaults;
  input_requested_model : ModelSelectionRequest;
  input_frozen_model : FrozenModelSelection;
}.

Definition origin_reconstitute (self : OriginConfigurationReconstitutionInput) :
    option OriginConfiguration :=
  let versioned := versioned_reconstitute (input_defaults_version self) (input_defaults self) in
  let model_override :=
    if bool_decide (defaults_model (versioned_defaults versioned) = input_requested_model self)
    then UseSessionDefault else ReplaceWith (input_requested_model self) in
  match derive_request versioned (input_defaults_version self) model_override with
  | Err _ => None
  | Ok checked =>
      if negb (bool_decide (request_model (checked_request checked) = input_requested_model self))
      then None else
      match freeze checked (fun alias =>
              match input_frozen_model self with
              | FrozenAlias stored_alias definition =>
                  if bool_decide (stored_alias = alias) then Some definition else None
              | FrozenDirect _ => None
              end) with
      | Err _ => None
      | Ok origin =>
          if negb (bool_decide (effective_model (origin_effective origin) = input_frozen_model self))
          then None else Some origin
      end
  end.

(** ** Delivery requests *)

Inductive DescendantTerminationScope := ParentAlone | ParentAndDescendants.

Record PerInputConfigurationChoices := mkChoices {
  expected_session_defaults_version : SessionConfigurationDefaultsVersion;
  choices_model : ModelSelectionOverride;
  choices_model_settings : ModelSettingsOverlay;
}.

Definition choices_new (version : SessionConfigurationDefaultsVersion)
    (model : ModelSelectionOverride) : PerInputConfigurationChoices :=
  mkChoices version model overlay_inherit_all.

Inductive DeliveryRequest :=
| StartWhenNoActiveTurn (configuration : PerInputConfigurationChoices)
| InterruptRequest (expected_active_turn : TurnId) (descendant_scope : DescendantTerminationScope)
    (configuration : PerInputConfigurationChoices)
| NextSafePoint (expected_active_turn : TurnId)
| AfterCurrentTurn (expected_active_turn : TurnId) (configuration : PerInputConfigurationChoices).

#[export] Instance PerInputConfigurationChoices_eq_dec : EqDecision PerInputConfigurationChoices.
Proof. solve_decision. Defined.
#[export] Instance DeliveryRequest_eq_dec : EqDecision DeliveryRequest.
Proof. assert (EqDecision DescendantTerminationScope) by solve_decision. solve_decision. Defined.
