(* ===== verification/SettingsSpec.v ===== *)
(** * What model settings promise

    Resolution with provenance, the effect of a model change on inherited
    settings, and the evidence it records; freezing an origin's configuration
    and the reconstitution of what was stored. *)

From S2P Require Import Prelude ModelSettings Configuration.

(** ** Resolution, one setting at a time *)

Definition reasoning_of (p : ModelSettingsPrecedence) : option ReasoningLevel * option ModelSettingSource :=
  resolve_nullable (prod_map id overlay_reasoning_level <$> precedence_layers p).
Definition fast_of (p : ModelSettingsPrecedence) : FastMode * option ModelSettingSource :=
  resolve_fast (prod_map id overlay_fast_mode <$> precedence_layers p).
Definition tier_of (p : ModelSettingsPrecedence) : option ServiceTier * option ModelSettingSource :=
  resolve_nullable (prod_map id overlay_service_tier <$> precedence_layers p).

Lemma resolve_settings p :
  resolve p = mkResolved (mkEffective (reasoning_of p).1 (fast_of p).1 (tier_of p).1)
    (reasoning_of p).2 (fast_of p).2 (tier_of p).2.
Proof.
  unfold resolve. fold (reasoning_of p) (fast_of p) (tier_of p).
  by destruct (reasoning_of p), (fast_of p), (tier_of p).
Qed.

Ltac by_layers p :=
  destruct p as [[? ? ?] [? ? ?] [? ? ?] [? ? ?]]; 
  unfold set_reasoning_at_source, set_service_tier_at_source, overlay_of_option; simpl in *;
  repeat match goal with
  | |- context [match ?o with Inherit => _ | _ => _ end] => is_var o; destruct o; simpl in *
  | |- context [match ?o with FastInherit => _ | _ => _ end] => is_var o; destruct o; simpl in *
  | |- context [match ?o with Some _ => _ | None => _ end] => is_var o; destruct o; simpl in *
  end; intros; done || congruence.

Section settings.
Implicit Types (p : ModelSettingsPrecedence).

(** A setting no layer states takes the provider's default. *)
Lemma reasoning_unstated p : (reasoning_of p).2 = None -> (reasoning_of p).1 = None.
Proof. unfold reasoning_of. by_layers p. Qed.
Lemma fast_unstated p : (fast_of p).2 = None -> (fast_of p).1 = FastDisabled.
Proof. unfold fast_of. by_layers p. Qed.
Lemma tier_unstated p : (tier_of p).2 = None -> (tier_of p).1 = None.
Proof. unfold tier_of. by_layers p. Qed.

(** Stating a setting at the layer that supplied it replaces its value and
    leaves its source and the other settings alone. *)
Lemma reasoning_of_set_reasoning p v :
  (reasoning_of p).2 <> None ->
  reasoning_of (set_reasoning_at_source p (reasoning_of p).2 v) = (v, (reasoning_of p).2).
Proof. unfold reasoning_of. by_layers p. Qed.
Lemma fast_of_set_fast p v :
  (fast_of p).2 <> None ->
  fast_of (set_fast_mode_at_source p (fast_of p).2 v) = (v, (fast_of p).2).
Proof. unfold fast_of. by_layers p. Qed.
Lemma tier_of_set_tier p v :
  (tier_of p).2 <> None ->
  tier_of (set_service_tier_at_source p (tier_of p).2 v) = (v, (tier_of p).2).
Proof. unfold tier_of. by_layers p. Qed.

Lemma fast_of_set_reasoning p s v : fast_of (set_reasoning_at_source p s v) = fast_of p.
Proof. by destruct s as [[]|]. Qed.
Lemma tier_of_set_reasoning p s v : tier_of (set_reasoning_at_source p s v) = tier_of p.
Proof. by destruct s as [[]|]. Qed.
Lemma reasoning_of_set_fast p s v : reasoning_of (set_fast_mode_at_source p s v) = reasoning_of p.
Proof. by destruct s as [[]|]. Qed.
Lemma tier_of_set_fast p s v : tier_of (set_fast_mode_at_source p s v) = tier_of p.
Proof. by destruct s as [[]|]. Qed.
Lemma reasoning_of_set_tier p s v : reasoning_of (set_service_tier_at_source p s v) = reasoning_of p.
Proof. by destruct s as [[]|]. Qed.
Lemma fast_of_set_tier p s v : fast_of (set_service_tier_at_source p s v) = fast_of p.
Proof. by destruct s as [[]|]. Qed.

(** The three independent parts of [with_effective_adjustment]. *)
Definition adjust_reasoning_layer p (v : option ReasoningLevel) : ModelSettingsPrecedence :=
  if bool_decide ((reasoning_of p).1 = v) then p else set_reasoning_at_source p (reasoning_of p).2 v.
Definition adjust_fast_layer p (v : FastMode) : ModelSettingsPrecedence :=
  if bool_decide ((fast_of p).1 = v) then p else set_fast_mode_at_source p (fast_of p).2 v.
Definition adjust_tier_layer p (v : option ServiceTier) : ModelSettingsPrecedence :=
  if bool_decide ((tier_of p).1 = v) then p else set_service_tier_at_source p (tier_of p).2 v.

Lemma with_effective_adjustment_layers p e :
  with_effective_adjustment p (resolve p) e =
    adjust_tier_layer (adjust_fast_layer (adjust_reasoning_layer p (effective_reasoning_level e))
      (effective_fast_mode e)) (effective_service_tier e).
Proof.
  rewrite resolve_settings. unfold with_effective_adjustment. simpl.
  assert (forall v, fast_of (adjust_reasoning_layer p v) = fast_of p) as Hf.
  { intros v. unfold adjust_reasoning_layer. case_bool_decide; [done|]. apply fast_of_set_reasoning. }
  assert (forall v w, tier_of (adjust_fast_layer (adjust_reasoning_layer p v) w) = tier_of p) as Ht.
  { intros v w. unfold adjust_fast_layer. case_bool_decide; rewrite ?tier_of_set_fast;
      unfold adjust_reasoning_layer; case_bool_decide; rewrite ?tier_of_set_reasoning; done. }
  unfold adjust_tier_layer. rewrite Ht. unfold adjust_fast_layer. by rewrite !Hf.
Qed.

(** Every changed setting was stated by some layer. *)
Definition adjustable p (e : EffectiveModelSettings) : Prop :=
  ((reasoning_of p).1 = effective_reasoning_level e \/ (reasoning_of p).2 <> None) /\
  ((fast_of p).1 = effective_fast_mode e \/ (fast_of p).2 <> None) /\
  ((tier_of p).1 = effective_service_tier e \/ (tier_of p).2 <> None).

Lemma reasoning_of_adjust p v :
  (reasoning_of p).1 = v \/ (reasoning_of p).2 <> None ->
  reasoning_of (adjust_reasoning_layer p v) = (v, (reasoning_of p).2).
Proof.
  unfold adjust_reasoning_layer. case_bool_decide as Hv.
  - intros _. rewrite <- Hv. by destruct (reasoning_of p).
  - intros [?|?]; [done|]. by apply reasoning_of_set_reasoning.
Qed.
Lemma fast_of_adjust p v :
  (fast_of p).1 = v \/ (fast_of p).2 <> None -> fast_of (adjust_fast_layer p v) = (v, (fast_of p).2).
Proof.
  unfold adjust_fast_layer. case_bool_decide as Hv.
  - intros _. rewrite <- Hv. by destruct (fast_of p).
  - intros [?|?]; [done|]. by apply fast_of_set_fast.
Qed.
Lemma tier_of_adjust p v :
  (tier_of p).1 = v \/ (tier_of p).2 <> None -> tier_of (adjust_tier_layer p v) = (v, (tier_of p).2).
Proof.
  unfold adjust_tier_layer. case_bool_decide as Hv.
  - intros _. rewrite <- Hv. by destruct (tier_of p).
  - intros [?|?]; [done|]. by apply tier_of_set_tier.
Qed.

Lemma other_of_adjust p r f t :
  fast_of (adjust_reasoning_layer p r) = fast_of p /\
  tier_of (adjust_reasoning_layer p r) = tier_of p /\
  reasoning_of (adjust_fast_layer p f) = reasoning_of p /\
  tier_of (adjust_fast_layer p f) = tier_of p /\
  reasoning_of (adjust_tier_layer p t) = reasoning_of p /\
  fast_of (adjust_tier_layer p t) = fast_of p.
Proof.
  unfold adjust_reasoning_layer, adjust_fast_layer, adjust_tier_layer. repeat case_bool_decide;
    rewrite ?fast_of_set_reasoning, ?tier_of_set_reasoning, ?reasoning_of_set_fast,
      ?tier_of_set_fast, ?reasoning_of_set_tier, ?fast_of_set_tier; done.
Qed.

(** The adjusted chain resolves to the adjusted values from the same sources. *)
Lemma resolve_with_effective_adjustment p e :
  adjustable p e ->
  resolve (with_effective_adjustment p (resolve p) e) =
    mkResolved e (reasoning_of p).2 (fast_of p).2 (tier_of p).2.
Proof.
  intros (Hr & Hf & Ht). rewrite with_effective_adjustment_layers, resolve_settings.
  set (p1 := adjust_reasoning_layer p _). set (p2 := adjust_fast_layer p1 _).
  destruct (other_of_adjust p (effective_reasoning_level e) FastDisabled None) as (Hf1 & Ht1 & _).
  destruct (other_of_adjust p1 None (effective_fast_mode e) None) as (_ & _ & Hr2 & Ht2 & _).
  destruct (other_of_adjust p2 None FastDisabled (effective_service_tier e)) as (_ & _ & _ & _ & Hr3 & Hf3).
  fold p1 in Hf1, Ht1. fold p2 in Hr2, Ht2.
  rewrite Hr3, Hf3, Hr2, tier_of_adjust by by rewrite Ht2, Ht1.
  unfold p2. rewrite fast_of_adjust by by rewrite Hf1. fold p2. rewrite Ht2, Ht1, Hf1.
  unfold p1. rewrite reasoning_of_adjust by done. by destruct e.
Qed.
End settings.

(** ** Support *)

(** The model's capability record admits the effective settings. *)
Record supported (c : ModelCapabilities) (e : EffectiveModelSettings) : Prop := {
  supported_reasoning level : effective_reasoning_level e = Some level -> level ∈ reasoning_levels c;
  supported_fast : effective_fast_mode e = FastEnabled -> fast_mode_support c <> FastUnsupported;
  supported_tier tier : effective_service_tier e = Some tier -> tier ∈ service_tiers c;
}.

(** The overlay states no unsupported value. *)
Record overlay_supported (c : ModelCapabilities) (o : ModelSettingsOverlay) : Prop := {
  overlay_supported_reasoning level : overlay_reasoning_level o = Value level -> level ∈ reasoning_levels c;
  overlay_supported_fast : overlay_fast_mode o = FastValue FastEnabled -> fast_mode_support c <> FastUnsupported;
  overlay_supported_tier tier : overlay_service_tier o = Value tier -> tier ∈ service_tiers c;
}.

Lemma validate_explicit_Ok c selection o :
  validate_explicit c selection o = Ok tt <-> overlay_supported c o.
Proof.
  unfold validate_explicit. rewrite bind_Ok. setoid_rewrite bind_Ok. split.
  - intros ([] & Hr & [] & Hf & Ht). split.
    + intros level Hl. rewrite Hl in Hr. by apply ensure_Ok, bool_decide_eq_true in Hr.
    + intros Ho. apply ensure_Ok in Hf. rewrite Ho in Hf. rewrite bool_decide_eq_true_2 in Hf by done.
      simpl in Hf. by rewrite negb_true_iff, bool_decide_eq_false in Hf.
    + intros tier Hl. rewrite Hl in Ht. by apply ensure_Ok, bool_decide_eq_true in Ht.
  - intros [Hr Hf Ht]. exists tt. split; [|exists tt; split].
    + destruct (overlay_reasoning_level o); [done..|]. apply ensure_Ok, bool_decide_eq_true. auto.
    + apply ensure_Ok. rewrite negb_true_iff, andb_false_iff, !bool_decide_eq_false.
      destruct (decide (overlay_fast_mode o = FastValue FastEnabled)); auto.
    + destruct (overlay_service_tier o); [done..|]. apply ensure_Ok, bool_decide_eq_true. auto.
Qed.

Lemma overlay_supported_from_effective c e :
  overlay_supported c (overlay_from_effective e) <-> supported c e.
Proof.
  split; intros [Hr Hf Ht]; split; simpl in *.
  - intros level Hl. apply Hr. by rewrite Hl.
  - intros Hl. apply Hf. by rewrite Hl.
  - intros tier Hl. apply Ht. by rewrite Hl.
  - intros level. destruct (effective_reasoning_level e) eqn:He; simpl; [|done]. intros [= ->]. auto.
  - intros [= Hl]. auto.
  - intros tier. destruct (effective_service_tier e) eqn:He; simpl; [|done]. intros [= ->]. auto.
Qed.

(** The reasoning level applied for an unsupported one: the greatest supported
    level at or below it, else the least supported one, none if the model has
    no levels. *)
Definition nearest_level (levels : gset ReasoningLevel) (requested : ReasoningLevel)
    (applied : option ReasoningLevel) : Prop :=
  match applied with
  | Some a =>
      a ∈ levels /\
      ((key_le a requested /\ forall l, l ∈ levels -> key_le l requested -> key_le l a) \/
       ((forall l, l ∈ levels -> ~ key_le l requested) /\ forall l, l ∈ levels -> key_le a l))
  | None => levels = ∅
  end.

Lemma StronglySorted_last {A} (R : relation A) `{!Reflexive R} l a :
  StronglySorted R l -> last l = Some a -> forall x, x ∈ l -> R x a.
Proof.
  induction 1 as [|y l Hs IH Hall]; [done|]. intros Hl x.
  destruct l as [|z l]; [simpl in Hl; injection Hl as ->; by intros ->%list_elem_of_singleton|].
  rewrite last_cons_cons in Hl. intros [->|Hx]%elem_of_cons; [|by apply IH].
  rewrite Forall_forall in Hall. apply Hall. by apply last_Some_elem_of.
Qed.

Lemma StronglySorted_filter_list {A} (R : relation A) (P : A -> Prop) `{!forall x, Decision (P x)} l :
  StronglySorted R l -> StronglySorted R (filter P l).
Proof.
  induction 1 as [|x l Hs IH Hall]; [constructor|]. rewrite filter_cons.
  case_decide; [|done]. constructor; [done|]. rewrite Forall_forall in Hall |- *.
  intros y [_ Hy]%list_elem_of_filter. auto.
Qed.

Lemma clamp_reasoning_nearest levels requested :
  nearest_level levels requested (clamp_reasoning levels requested).
Proof.
  assert (forall l, l ∈ btree_set_iter levels <-> l ∈ levels) as Hin.
  { intros l. unfold btree_set_iter. by rewrite elem_of_sort_by_key, elem_of_elements. }
  assert (StronglySorted key_le (btree_set_iter levels)) as Hs.
  { unfold btree_set_iter. pose proof (sort_by_key_fmap_sorted id (elements levels)) as H.
    by rewrite list_fmap_id in H. }
  assert (Reflexive (key_le (K := ReasoningLevel))) by (intros x; unfold key_le; lia).
  unfold clamp_reasoning. destruct (last _) as [a|] eqn:Ha.
  - apply last_Some_elem_of in Ha as Hfil. apply list_elem_of_filter in Hfil as [Hle Hel].
    simpl. split; [by apply Hin|]. left. split; [done|]. intros l Hl Hlr.
    eapply StronglySorted_last; [..|exact Ha|]; [done| |by apply list_elem_of_filter; rewrite Hin].
    by apply StronglySorted_filter_list.
  - apply last_None in Ha.
    assert (forall l, l ∈ levels -> ~ key_le l requested) as Hnone.
    { intros l Hl Hle. apply (not_elem_of_nil l). rewrite <- Ha. apply list_elem_of_filter.
      by rewrite Hin. }
    destruct (btree_set_iter levels) as [|a k] eqn:Hk; simpl.
    + apply set_eq. intros l. rewrite <- Hin. set_solver.
    + split; [apply Hin; by left|]. right. split; [done|]. intros l [->|Hl]%Hin%elem_of_cons; [done|].
      apply StronglySorted_inv in Hs as [_ Hall]. rewrite Forall_forall in Hall. auto.
Qed.

(** ** Model changes *)

(** What becomes of each inherited setting. *)
Record compatible (c : ModelCapabilities) (before after : EffectiveModelSettings) : Prop := {
  compatible_reasoning :
    match effective_reasoning_level before with
    | Some level =>
        (level ∈ reasoning_levels c /\ effective_reasoning_level after = Some level) \/
        ((level ∉ reasoning_levels c) /\
         nearest_level (reasoning_levels c) level (effective_reasoning_level after))
    | None => effective_reasoning_level after = None
    end;
  compatible_fast :
    effective_fast_mode after =
      if bool_decide (fast_mode_support c = FastUnsupported) then FastDisabled
      else effective_fast_mode before;
  compatible_tier tier :
    effective_service_tier after = Some tier <->
    effective_service_tier before = Some tier /\ tier ∈ service_tiers c;
}.

Lemma adjust_compatible c e : compatible c e (compatible_effective (adjust_for_model_change c e)).
Proof.
  unfold adjust_for_model_change, adjust_fast_mode.
  destruct e as [r f t]. simpl. split.
  - destruct (adjust_reasoning c r) as [r' rs] eqn:Hr, (adjust_service_tier c t) as [t' ts].
    destruct (_ && _); simpl; destruct r as [level|]; simpl in Hr; try by injection Hr as <- <-.
    all: case_bool_decide as Hin; [injection Hr as <- <-; by left|right; split; [done|]].
    all: pose proof (clamp_reasoning_nearest (reasoning_levels c) level) as Hc.
    all: destruct (clamp_reasoning _ _); by injection Hr as <- <-.
  - destruct (adjust_reasoning c r), (adjust_service_tier c t).
    destruct f; repeat case_bool_decide; done.
  - destruct (adjust_reasoning c r) as [r' rs], (adjust_service_tier c t) as [t' ts] eqn:Ht.
    intros tier. destruct (_ && _); simpl; destruct t as [t|]; simpl in Ht;
      try (injection Ht as <- <-; naive_solver).
    all: case_bool_decide; injection Ht as <- <-; naive_solver.
Qed.

Lemma compatible_supported c before after : compatible c before after -> supported c after.
Proof.
  intros [Hr Hf Ht]. split.
  - intros level Hl. destruct (effective_reasoning_level before); [|congruence].
    destruct Hr as [[? Hr]|[_ Hr]]; [congruence|]. rewrite Hl in Hr. apply Hr.
  - intros He. rewrite He in Hf. by case_bool_decide.
  - intros tier Hl. by apply Ht in Hl as [_ ?].
Qed.

(** A value no layer states is never adjusted. *)
Lemma compatible_adjustable c p after :
  compatible c (resolved_effective (resolve p)) after -> adjustable p after.
Proof.
  rewrite resolve_settings. intros [Hr Hf Ht]. simpl in *. split_and!.
  - destruct (reasoning_of p).2 eqn:Hs; [by right|left]. apply reasoning_unstated in Hs.
    rewrite Hs in Hr |- *. done.
  - destruct (fast_of p).2 eqn:Hs; [by right|left]. apply fast_unstated in Hs.
    rewrite Hs in Hf |- *. rewrite Hf. by case_bool_decide.
  - destruct (tier_of p).2 eqn:Hs; [by right|left]. apply tier_unstated in Hs.
    rewrite Hs in Ht |- *. destruct (effective_service_tier after) as [t|]; [|done].
    by destruct (proj1 (Ht t) eq_refl).
Qed.

(** A model change keeps every inherited setting the new model supports,
    replaces an unsupported reasoning level by the nearest supported one,
    disables unsupported fast mode and clears an unsupported tier; the result
    is supported, resolves from the adjusted chain and keeps each setting's
    source. *)
Theorem model_change_adjusts_to_supported c selection p caller adjusted :
  validate_model_change c selection p caller = Ok adjusted ->
  let settings := adjusted_settings adjusted in
  let before := resolve p in
  let after := validated_resolved settings in
  validated_for settings = Some selection /\
  after = resolve (validated_precedence settings) /\
  compatible c (resolved_effective before) (resolved_effective after) /\
  supported c (resolved_effective after) /\
  reasoning_source after = reasoning_source before /\
  fast_mode_source after = fast_mode_source before /\
  service_tier_source after = service_tier_source before.
Proof.
  unfold validate_model_change. rewrite bind_Ok. intros ([] & _ & [= <-]). simpl.
  pose proof (adjust_compatible c (resolved_effective (resolve p))) as Hc.
  rewrite resolve_with_effective_adjustment by by eapply compatible_adjustable. simpl.
  split_and!; try done; [by eapply compatible_supported|by rewrite (resolve_settings p)..].
Qed.

(** ** Undoing an adjustment *)

Section undo.
Implicit Types (p : ModelSettingsPrecedence).

Lemma set_reasoning_restore p v :
  (reasoning_of p).2 <> None ->
  set_reasoning_at_source (set_reasoning_at_source p (reasoning_of p).2 v)
    (reasoning_of p).2 (reasoning_of p).1 = p.
Proof. unfold reasoning_of. by_layers p. Qed.
Lemma set_fast_restore p v :
  (fast_of p).2 <> None ->
  set_fast_mode_at_source (set_fast_mode_at_source p (fast_of p).2 v) (fast_of p).2 (fast_of p).1 = p.
Proof. unfold fast_of. by_layers p. Qed.
Lemma set_tier_restore p v :
  (tier_of p).2 <> None ->
  set_service_tier_at_source (set_service_tier_at_source p (tier_of p).2 v)
    (tier_of p).2 (tier_of p).1 = p.
Proof. unfold tier_of. by_layers p. Qed.

Lemma adjust_reasoning_restore p v :
  (reasoning_of p).1 = v \/ (reasoning_of p).2 <> None ->
  adjust_reasoning_layer (adjust_reasoning_layer p v) (reasoning_of p).1 = p.
Proof.
  intros Hv. unfold adjust_reasoning_layer at 1. rewrite reasoning_of_adjust by done. simpl.
  unfold adjust_reasoning_layer. repeat case_bool_decide; try congruence.
  destruct Hv; [congruence|]. by apply set_reasoning_restore.
Qed.
Lemma adjust_fast_restore p v :
  (fast_of p).1 = v \/ (fast_of p).2 <> None ->
  adjust_fast_layer (adjust_fast_layer p v) (fast_of p).1 = p.
Proof.
  intros Hv. unfold adjust_fast_layer at 1. rewrite fast_of_adjust by done. simpl.
  unfold adjust_fast_layer. repeat case_bool_decide; try congruence.
  destruct Hv; [congruence|]. by apply set_fast_restore.
Qed.
Lemma adjust_tier_restore p v :
  (tier_of p).1 = v \/ (tier_of p).2 <> None ->
  adjust_tier_layer (adjust_tier_layer p v) (tier_of p).1 = p.
Proof.
  intros Hv. unfold adjust_tier_layer at 1. rewrite tier_of_adjust by done. simpl.
  unfold adjust_tier_layer. repeat case_bool_decide; try congruence.
  destruct Hv; [congruence|]. by apply set_tier_restore.
Qed.

Lemma adjust_reasoning_fast p r f :
  adjust_reasoning_layer (adjust_fast_layer p f) r = adjust_fast_layer (adjust_reasoning_layer p r) f.
Proof.
  change (adjust_fast_layer (adjust_reasoning_layer p r) f) with
    (if bool_decide ((fast_of (adjust_reasoning_layer p r)).1 = f) then adjust_reasoning_layer p r
     else set_fast_mode_at_source (adjust_reasoning_layer p r) (fast_of (adjust_reasoning_layer p r)).2 f).
  unfold adjust_reasoning_layer at 1. destruct (other_of_adjust p r f None) as (-> & _ & -> & _).
  unfold adjust_reasoning_layer, adjust_fast_layer. repeat case_bool_decide; try done.
  by destruct (reasoning_of p).2 as [[]|], (fast_of p).2 as [[]|].
Qed.
Lemma adjust_reasoning_tier p r t :
  adjust_reasoning_layer (adjust_tier_layer p t) r = adjust_tier_layer (adjust_reasoning_layer p r) t.
Proof.
  change (adjust_tier_layer (adjust_reasoning_layer p r) t) with
    (if bool_decide ((tier_of (adjust_reasoning_layer p r)).1 = t) then adjust_reasoning_layer p r
     else set_service_tier_at_source (adjust_reasoning_layer p r) (tier_of (adjust_reasoning_layer p r)).2 t).
  unfold adjust_reasoning_layer at 1. destruct (other_of_adjust p r FastDisabled t) as (_ & -> & _ & _ & -> & _).
  unfold adjust_reasoning_layer, adjust_tier_layer. repeat case_bool_decide; try done.
  by destruct (reasoning_of p).2 as [[]|], (tier_of p).2 as [[]|].
Qed.
Lemma adjust_fast_tier p f t :
  adjust_fast_layer (adjust_tier_layer p t) f = adjust_tier_layer (adjust_fast_layer p f) t.
Proof.
  change (adjust_tier_layer (adjust_fast_layer p f) t) with
    (if bool_decide ((tier_of (adjust_fast_layer p f)).1 = t) then adjust_fast_layer p f
     else set_service_tier_at_source (adjust_fast_layer p f) (tier_of (adjust_fast_layer p f)).2 t).
  unfold adjust_fast_layer at 1. destruct (other_of_adjust p None f t) as (_ & _ & _ & -> & _ & ->).
  unfold adjust_fast_layer, adjust_tier_layer. repeat case_bool_decide; try done.
  by destruct (fast_of p).2 as [[]|], (tier_of p).2 as [[]|].
Qed.

(** Adjusting the adjusted chain back to the original values restores it. *)
Lemma with_effective_adjustment_restore p e :
  adjustable p e ->
  let q := with_effective_adjustment p (resolve p) e in
  with_effective_adjustment q (resolve q) (resolved_effective (resolve p)) = p.
Proof.
  intros (Hr & Hf & Ht) q. rewrite with_effective_adjustment_layers. unfold q.
  rewrite with_effective_adjustment_layers, (resolve_settings p). simpl.
  rewrite adjust_reasoning_tier, adjust_reasoning_fast, adjust_reasoning_restore by done.
  rewrite adjust_fast_tier, adjust_fast_restore by done. by apply adjust_tier_restore.
Qed.

(** The caller's layer is untouched when it supplied no adjusted setting. *)
Lemma per_call_with_effective_adjustment p e :
  ((reasoning_of p).1 = effective_reasoning_level e \/ (reasoning_of p).2 <> Some PerCall) ->
  ((fast_of p).1 = effective_fast_mode e \/ (fast_of p).2 <> Some PerCall) ->
  ((tier_of p).1 = effective_service_tier e \/ (tier_of p).2 <> Some PerCall) ->
  per_call (with_effective_adjustment p (resolve p) e) = per_call p.
Proof.
  intros Hr Hf Ht. rewrite resolve_settings. unfold with_effective_adjustment. simpl.
  repeat case_bool_decide; try done;
    repeat match goal with H : _ = _ \/ _ |- _ => destruct H as [H|H]; [congruence|] end;
    repeat match goal with |- context [(?f p).2] => destruct (f p) as [? [[]|]]; simpl in * end; done.
Qed.
End undo.

(** ** Recorded evidence *)

Lemma adjust_reasoning_cases c r :
  adjust_reasoning c r = (r, []) \/
  (exists from to, r = Some from /\ (from ∉ reasoning_levels c) /\ to <> from /\
     adjust_reasoning c r = (Some to, [ReasoningLevelClamped from to])) \/
  (exists from, r = Some from /\ (from ∉ reasoning_levels c) /\
     adjust_reasoning c r = (None, [ReasoningLevelCleared from])).
Proof.
  unfold adjust_reasoning. destruct r as [from|]; [|by left]. case_bool_decide as Hin; [by left|right].
  pose proof (clamp_reasoning_nearest (reasoning_levels c) from) as Hc.
  destruct (clamp_reasoning _ from) as [to|]; [left|right].
  - exists from, to. split_and!; [done|done| |done]. intros ->. by destruct Hc.
  - by exists from.
Qed.

Lemma adjust_fast_cases c f :
  adjust_fast_mode c f = (f, []) \/
  (f = FastEnabled /\ fast_mode_support c = FastUnsupported /\
     adjust_fast_mode c f = (FastDisabled, [FastModeDisabled])).
Proof. unfold adjust_fast_mode. repeat case_bool_decide; simpl; auto. Qed.

Lemma adjust_tier_cases c t :
  adjust_service_tier c t = (t, []) \/
  (exists from, t = Some from /\ (from ∉ service_tiers c) /\
     adjust_service_tier c t = (None, [ServiceTierCleared from])).
Proof.
  unfold adjust_service_tier. destruct t as [from|]; [|by left]. case_bool_decide; [by left|right].
  by exists from.
Qed.

(** A supported caller layer supplies no setting that needs adjustment. *)
Lemma reasoning_from_per_call p level :
  reasoning_of p = (Some level, Some PerCall) -> overlay_reasoning_level (per_call p) = Value level.
Proof. unfold reasoning_of. by_layers p. Qed.
Lemma fast_from_per_call p :
  fast_of p = (FastEnabled, Some PerCall) -> overlay_fast_mode (per_call p) = FastValue FastEnabled.
Proof. unfold fast_of. by_layers p. Qed.
Lemma tier_from_per_call p tier :
  tier_of p = (Some tier, Some PerCall) -> overlay_service_tier (per_call p) = Value tier.
Proof. unfold tier_of. by_layers p. Qed.

Lemma unsupported_not_per_call c p :
  overlay_supported c (per_call p) ->
  (forall level, (reasoning_of p).1 = Some level -> (level ∉ reasoning_levels c) ->
     (reasoning_of p).2 <> Some PerCall) /\
  ((fast_of p).1 = FastEnabled -> fast_mode_support c = FastUnsupported ->
     (fast_of p).2 <> Some PerCall) /\
  (forall tier, (tier_of p).1 = Some tier -> (tier ∉ service_tiers c) -> (tier_of p).2 <> Some PerCall).
Proof.
  intros [Hr Hf Ht]. split_and!.
  - intros level H1 Hn H2. apply Hn, Hr, reasoning_from_per_call. by destruct (reasoning_of p); simplify_eq/=.
  - intros H1 Hn H2. apply (Hf (fast_from_per_call p ltac:(by destruct (fast_of p); simplify_eq/=))). done.
  - intros tier H1 Hn H2. apply Hn, Ht, tier_from_per_call. by destruct (tier_of p); simplify_eq/=.
Qed.

(** Rewrites the checks of a recorded adjustment from the facts at hand. *)
Ltac run_checks :=
  repeat (simpl; match goal with
  | |- context [bool_decide ?P] =>
      first [rewrite (bool_decide_eq_true_2 P) by congruence
            |rewrite (bool_decide_eq_false_2 P) by congruence]
  end); simpl.

(** Replaying the recorded adjustments forwards, and backwards. *)
Lemma recorded_adjustments_replay c p :
  overlay_supported c (per_call p) ->
  let adjusted := adjust_for_model_change c (resolved_effective (resolve p)) in
  let after := mkResolved (compatible_effective adjusted) (reasoning_of p).2 (fast_of p).2 (tier_of p).2 in
  apply_recorded_model_change_adjustments (resolve p) (compatible_adjustments adjusted)
    = Some (compatible_effective adjusted) /\
  try_fold (unapply_adjustment after) (compatible_adjustments adjusted) (compatible_effective adjusted)
    = Ok (resolved_effective (resolve p)).
Proof.
  intros (Hr & Hf & Ht)%unsupported_not_per_call. rewrite resolve_settings.
  unfold adjust_for_model_change, apply_recorded_model_change_adjustments. simpl.
  destruct (reasoning_of p) as [r rs], (fast_of p) as [f fs], (tier_of p) as [t ts]. simpl in *.
  destruct (adjust_reasoning_cases c r) as [->|[(from & to & -> & Hn & Hne & ->)|(from & -> & Hn & ->)]];
    [|specialize (Hr from eq_refl Hn)..];
    (destruct (adjust_fast_cases c f) as [->|(-> & Hnf & ->)]; [|specialize (Hf eq_refl Hnf)]);
    (destruct (adjust_tier_cases c t) as [->|(tier & -> & Hnt & ->)]; [|specialize (Ht tier eq_refl Hnt)]);
    unfold apply_adjustment, unapply_adjustment; split; run_checks; done.
Qed.

(** The layers after a model change, when the caller's layer is supported. *)
Lemma model_change_per_call c p :
  overlay_supported c (per_call p) ->
  let after := compatible_effective (adjust_for_model_change c (resolved_effective (resolve p))) in
  per_call (with_effective_adjustment p (resolve p) after) = per_call p.
Proof.
  intros (Hr & Hf & Ht)%unsupported_not_per_call after. apply per_call_with_effective_adjustment;
    unfold after; rewrite resolve_settings; unfold adjust_for_model_change; simpl;
    destruct (adjust_reasoning_cases c (reasoning_of p).1) as [Hr'|[(? & ? & ? & ? & ? & Hr')|(? & ? & ? & Hr')]],
      (adjust_fast_cases c (fast_of p).1) as [Hf'|(? & ? & Hf')],
      (adjust_tier_cases c (tier_of p).1) as [Ht'|(? & ? & ? & Ht')];
    rewrite Hr', Hf', Ht'; simpl; eauto.
Qed.

(** The evidence of a model change is self-validating: when the caller's
    layer is the per-call layer, the turn's settings event is accepted from
    the adjusted settings and the recorded adjustments alone. *)
Theorem model_change_evidence_accepted c p selection frozen prior adjusted input turn version :
  validate_model_change c selection p (per_call p) = Ok adjusted ->
  selected_direct frozen = selection -> prior <> selection ->
  exists event,
    settings_resolved_try_new input turn version frozen (per_call p) (adjusted_settings adjusted)
      (adjusted_from (adjusted_adjustments adjusted) (Some prior)) (adjusted_adjustments adjusted)
    = Some event.
Proof.
  unfold validate_model_change. rewrite bind_Ok.
  intros ([] & Hc%validate_explicit_Ok & [= <-]) Hsel Hprior. simpl.
  destruct (recorded_adjustments_replay c p Hc) as [Happ Hun]. cbv zeta in Happ, Hun.
  pose proof (adjust_compatible c (resolved_effective (resolve p))) as Hcompat.
  apply compatible_adjustable in Hcompat as Hadj.
  pose proof (with_effective_adjustment_restore p _ Hadj) as Hrestore. cbv zeta in Hrestore.
  pose proof (model_change_per_call c p Hc) as Hpc. cbv zeta in Hpc.
  pose proof (resolve_with_effective_adjustment p _ Hadj) as Hres.
  set (compat := adjust_for_model_change c (resolved_effective (resolve p))) in *.
  set (q := with_effective_adjustment p (resolve p) (compatible_effective compat)) in *.
  unfold settings_resolved_try_new, unapply_recorded_model_change_adjustments. simpl.
  rewrite <- Hres in Hun.
  assert (resolved_effective (resolve q) = compatible_effective compat) as -> by by rewrite Hres.
  rewrite Hun, Hrestore, Happ. fold q.
  rewrite Hsel, Hpc, !bool_decide_eq_true_2 by done. rewrite ?orb_true_r. simpl.
  destruct (compatible_adjustments compat); simpl; [by eexists|].
  rewrite bool_decide_eq_false_2 by done. by eexists.
Qed.

(** ** Frozen origins *)

Lemma with_effective_adjustment_same p :
  with_effective_adjustment p (resolve p) (resolved_effective (resolve p)) = p.
Proof. unfold with_effective_adjustment. by rewrite !bool_decide_eq_true_2 by done. Qed.

Lemma freeze_model_matches request select frozen :
  freeze_model request select = Ok frozen -> frozen_selection_matches_request frozen request = true.
Proof.
  unfold freeze_model. destruct request as [selection|alias].
  - intros [= <-]. simpl. by apply bool_decide_eq_true.
  - destruct (select alias); [|done]. intros [= <-]. simpl. by apply bool_decide_eq_true.
Qed.

(** What freezing with a capability record yields. *)
Lemma freeze_settings_inv checked select catalog origin :
  freeze_with_model_settings checked select catalog = Ok origin ->
  let request := checked_request checked in
  let prior := request_model_settings request in
  let p := with_per_call (validated_precedence prior) (request_per_call_model_settings request) in
  exists model c settings adjustments,
    freeze_model (request_model request) select = Ok model /\
    catalog_resolve catalog (selected_direct model) = Some c /\
    origin = mkOrigin (set_request_settings request settings) (checked_session_defaults_version checked)
      (from_validated_model_settings model (request_dangerous_tool_auto_approval request) settings)
      (adjusted_from adjustments (validated_for prior)) adjustments /\
    ((validated_for_other prior (selected_direct model) = true /\
      exists adjusted, validate_model_change c (selected_direct model) p (per_call p) = Ok adjusted /\
        settings = adjusted_settings adjusted /\ adjustments = adjusted_adjustments adjusted) \/
     (validated_for_other prior (selected_direct model) = false /\ adjustments = [] /\
      validate_precedence c (selected_direct model) p = Ok settings)).
Proof.
  intros H request prior p. unfold freeze_with_model_settings in H. fold request prior p in H.
  apply bind_Ok in H as (model & Hm & H). apply bind_Ok in H as (c & Hc%ok_or_Ok & H).
  apply bind_Ok in H as ([settings adjustments] & Hs & H). injection H as <-.
  exists model, c, settings, adjustments. split_and!; [done..|].
  destruct (validated_for_other prior (selected_direct model)); [left|right].
  - apply bind_Ok in Hs as (adjusted & Hv%map_err_Ok & [= <- <-]). eauto.
  - apply bind_Ok in Hs as (v & Hv%map_err_Ok & [= <- <-]). eauto.
Qed.

(** C9. Freezing and reconstitution agree: what is frozen against the
    capability catalog is reconstituted exactly from the stored frozen model,
    settings and adjustments, without the catalog. *)
Theorem freeze_reconstitute_roundtrip checked select catalog origin :
  freeze_with_model_settings checked select catalog = Ok origin ->
  reconstitute_with_model_settings checked (effective_model (origin_effective origin))
    (effective_model_settings (origin_effective origin)) (origin_model_settings_adjustments origin)
  = Some origin.
Proof.
  intros H. destruct (freeze_settings_inv _ _ _ _ H) as
    (model & c & settings & adjustments & Hm & Hc & -> & Hcase). cbv zeta in Hcase.
  unfold reconstitute_with_model_settings. simpl. rewrite (freeze_model_matches _ _ _ Hm). simpl.
  set (prior := request_model_settings (checked_request checked)) in *.
  set (p := with_per_call (validated_precedence prior) _) in *.
  destruct Hcase as [[Hother (adjusted & Hv & -> & ->)]|(Hother & -> & Hv)]; rewrite Hother.
  - unfold validate_model_change in Hv. apply bind_Ok in Hv as ([] & Hs%validate_explicit_Ok & Hv).
    injection Hv as <-. simpl. unfold validated_for_other at 1. simpl.
    rewrite bool_decide_eq_true_2 by done. simpl. rewrite andb_false_r.
    destruct (recorded_adjustments_replay c p Hs) as [Happ _]. rewrite Happ. simpl.
    by rewrite !bool_decide_eq_true_2 by done.
  - simpl. unfold validate_precedence in Hv. case_bool_decide as Hdef.
    + injection Hv as <-. simpl. rewrite with_effective_adjustment_same, Hdef.
      by rewrite !bool_decide_eq_true_2 by done.
    + apply bind_Ok in Hv as ([] & _ & Hv). injection Hv as <-. simpl.
      unfold validated_for_other at 1. simpl. rewrite bool_decide_eq_true_2 by done. simpl.
      rewrite with_effective_adjustment_same. by rewrite !bool_decide_eq_true_2 by done.
Qed.

Lemma supported_provider_defaults c : supported c effective_provider_defaults.
Proof. by split. Qed.

Lemma validate_precedence_supported c selection p settings :
  validate_precedence c selection p = Ok settings ->
  supported c (resolved_effective (validated_resolved settings)) /\
  validated_precedence settings = p /\ validated_resolved settings = resolve p.
Proof.
  unfold validate_precedence. case_bool_decide as Hdef.
  - intros [= <-]. subst p. split_and!; [apply supported_provider_defaults|done..].
  - rewrite bind_Ok. intros ([] & Hs & [= <-]). split; [|done]. simpl.
    by apply validate_explicit_Ok, overlay_supported_from_effective in Hs.
Qed.

(** Frozen settings are supported by the selected model's capability
    record, carry the caller's per-call layer unchanged, and resolve from
    their stored chain; the origin keeps the defaults version the request was
    checked against. *)
Theorem frozen_settings_supported checked select catalog origin c :
  freeze_with_model_settings checked select catalog = Ok origin ->
  catalog_resolve catalog (selected_direct (effective_model (origin_effective origin))) = Some c ->
  let settings := effective_model_settings (origin_effective origin) in
  supported c (resolved_effective (validated_resolved settings)) /\
  validated_resolved settings = resolve (validated_precedence settings) /\
  per_call (validated_precedence settings) = request_per_call_model_settings (checked_request checked) /\
  origin_session_defaults_version origin = checked_session_defaults_version checked.
Proof.
  intros H Hc. destruct (freeze_settings_inv _ _ _ _ H) as
    (model & c' & settings & adjustments & Hm & Hc' & -> & Hcase). cbv zeta in Hcase.
  simpl in Hc |- *. rewrite Hc in Hc'. injection Hc' as <-.
  set (p := with_per_call (validated_precedence (request_model_settings (checked_request checked)))
    (request_per_call_model_settings (checked_request checked))) in *.
  destruct Hcase as [[_ (adjusted & Hv & -> & ->)]|(_ & -> & Hv)].
  - unfold validate_model_change in Hv. apply bind_Ok in Hv as ([] & Hs%validate_explicit_Ok & Hv).
    injection Hv as <-. simpl. pose proof (model_change_per_call c p Hs) as Hpc. cbv zeta in Hpc.
    split_and!; [|done|by rewrite Hpc|done].
    pose proof (adjust_compatible c (resolved_effective (resolve p))) as Hcompat.
    rewrite resolve_with_effective_adjustment by by eapply compatible_adjustable.
    by eapply compatible_supported.
  - apply validate_precedence_supported in Hv as (Hs & Hp & Hr). rewrite Hp, Hr in *. done.
Qed.

(** Settings produced by validation, with or without a model change, are
    reconstituted exactly from their stored chain, values, sources and
    validating selection. *)
Theorem validated_settings_roundtrip c selection p caller settings :
  validate_precedence c selection p = Ok settings \/
  (exists adjusted, validate_model_change c selection p caller = Ok adjusted /\
     settings = adjusted_settings adjusted) ->
  let resolved := validated_resolved settings in
  validated_reconstitute (validated_precedence settings) (resolved_effective resolved)
    (reasoning_source resolved) (fast_mode_source resolved) (service_tier_source resolved)
    (validated_for settings) = Some settings.
Proof.
  intros Hv resolved.
  assert (validated_resolved settings = resolve (validated_precedence settings) /\
    (is_Some (validated_for settings) \/ settings = validated_provider_defaults)) as [Hres Hfor].
  { destruct Hv as [Hv|(adjusted & Hv & ->)].
    - apply validate_precedence_supported in Hv as Hinv. destruct Hinv as (_ & Hp & Hr).
      split; [by rewrite Hp, Hr|]. unfold validate_precedence in Hv. case_bool_decide.
      + injection Hv as <-. by right.
      + apply bind_Ok in Hv as ([] & _ & [= <-]). left. by eexists.
    - unfold validate_model_change in Hv. apply bind_Ok in Hv as ([] & _ & Hv). injection Hv as <-.
      split; [done|left]. by eexists. }
  unfold validated_reconstitute.
  assert (mkResolved (resolved_effective resolved) (reasoning_source resolved)
    (fast_mode_source resolved) (service_tier_source resolved) = resolved) as -> by by destruct resolved.
  rewrite bool_decide_eq_true_2 by done.
  assert (mkValidated (validated_precedence settings) resolved (validated_for settings) = settings) as ->
    by by destruct settings.
  simpl. destruct Hfor as [Hs|Hd].
  - by rewrite bool_decide_eq_true_2 by done.
  - rewrite (bool_decide_eq_true_2 (settings = _)) by done. by rewrite orb_true_r.
Qed.

(** ** Witnesses *)

Definition sample_selection : DirectModelSelection := from_uuid 1.
Definition sample_prior_selection : DirectModelSelection := from_uuid 2.

(** A model with two reasoning levels, no fast mode and one service tier. *)
Definition sample_capabilities : ModelCapabilities :=
  mkCapabilities {[ Low; High ]} FastUnsupported {[ OpenAi OpenAiFlex ]}.

(** A session asking for extra-high reasoning and fast mode, with a per-call
    service tier. *)
Definition sample_precedence : ModelSettingsPrecedence :=
  mkPrecedence (mkOverlay Inherit FastInherit (Value (OpenAi OpenAiFlex)))
    (mkOverlay (Value XHigh) (FastValue FastEnabled) Inherit)
    overlay_inherit_all overlay_inherit_all.

Definition sample_adjusted : AdjustedModelSettings :=
  mkAdjusted
    (for_selection
       (mkPrecedence (mkOverlay Inherit FastInherit (Value (OpenAi OpenAiFlex)))
          (mkOverlay (Value High) (FastValue FastDisabled) Inherit)
          overlay_inherit_all overlay_inherit_all)
       (mkResolved (mkEffective (Some High) FastDisabled (Some (OpenAi OpenAiFlex)))
          (Some SessionLayer) (Some SessionLayer) (Some PerCall))
       sample_selection)
    [ReasoningLevelClamped XHigh High; FastModeDisabled].

Lemma sample_model_change :
  validate_model_change sample_capabilities sample_selection sample_precedence
    (per_call sample_precedence) = Ok sample_adjusted.
Proof. vm_compute. reflexivity. Defined.

Lemma model_change_adjusts_to_supported_witness :
  supported sample_capabilities (resolved_effective (validated_resolved (adjusted_settings sample_adjusted))).
Proof.
  exact (proj1 (proj2 (proj2 (proj2 (model_change_adjusts_to_supported sample_capabilities sample_selection
    sample_precedence (per_call sample_precedence) sample_adjusted sample_model_change))))).
Defined.

Lemma model_change_evidence_accepted_witness :
  exists event, settings_resolved_try_new (from_uuid 7) (from_uuid 8) defaults_version_first
    (FrozenDirect sample_selection) (per_call sample_precedence) (adjusted_settings sample_adjusted)
    (Some sample_prior_selection) (adjusted_adjustments sample_adjusted) = Some event.
Proof.
  apply (model_change_evidence_accepted sample_capabilities sample_precedence sample_selection
    (FrozenDirect sample_selection) sample_prior_selection sample_adjusted (from_uuid 7) (from_uuid 8)
    defaults_version_first sample_model_change eq_refl).
  discriminate.
Defined.

(** A request checked under defaults validated for another model. *)
Definition sample_checked : VersionCheckedConfigurationRequest :=
  mkCheckedRequest
    (mkConfigurationRequest (DirectRequest sample_selection) AutoApprovalDisabled
       (for_selection (with_per_call sample_precedence overlay_inherit_all)
          (resolve (with_per_call sample_precedence overlay_inherit_all)) sample_prior_selection)
       (per_call sample_precedence))
    defaults_version_first.

Definition sample_catalog : ModelCapabilityCatalog :=
  mkCatalog {[ sample_selection := sample_capabilities ]}.

Definition sample_origin : OriginConfiguration :=
  mkOrigin
    (set_request_settings (checked_request sample_checked) (adjusted_settings sample_adjusted))
    defaults_version_first
    (from_validated_model_settings (FrozenDirect sample_selection) AutoApprovalDisabled
       (adjusted_settings sample_adjusted))
    (Some sample_prior_selection) (adjusted_adjustments sample_adjusted).

Lemma sample_freeze :
  freeze_with_model_settings sample_checked (fun _ => None) sample_catalog = Ok sample_origin.
Proof. vm_compute. reflexivity. Defined.

Lemma freeze_reconstitute_roundtrip_witness :
  reconstitute_with_model_settings sample_checked (FrozenDirect sample_selection)
    (adjusted_settings sample_adjusted) (adjusted_adjustments sample_adjusted) = Some sample_origin.
Proof. exact (freeze_reconstitute_roundtrip _ _ _ _ sample_freeze). Defined.

Lemma frozen_settings_supported_witness :
  supported sample_capabilities (mkEffective (Some High) FastDisabled (Some (OpenAi OpenAiFlex))).
Proof.
  exact (proj1 (frozen_settings_supported _ _ _ _ sample_capabilities sample_freeze eq_refl)).
Defined.

Lemma validated_settings_roundtrip_witness :
  validated_reconstitute (validated_precedence (adjusted_settings sample_adjusted))
    (mkEffective (Some High) FastDisabled (Some (OpenAi OpenAiFlex)))
    (Some SessionLayer) (Some SessionLayer) (Some PerCall) (Some sample_selection)
  = Some (adjusted_settings sample_adjusted).
Proof.
  exact (validated_settings_roundtrip sample_capabilities sample_selection sample_precedence
    (per_call sample_precedence) (adjusted_settings sample_adjusted)
    (or_intror (ex_intro _ sample_adjusted (conj sample_model_change eq_refl)))).
Defined.
