(* ===== verification/Interrupt.v ===== *)
(** * Accepted inputs and applied interrupts

    Model of [crates/domain/src/accepted_input.rs] (the disposition lifecycle
    of a durably accepted input) and [crates/domain/src/applied_interrupt.rs]
    (the correlation of a handled interrupt command into cancellation
    authority over its predecessor turn). *)

From S2P Require Import Prelude QueueOrder ModelSettings Configuration.

(** ** Accepted-input dispositions *)

Record SteeringBinding := mkBinding { source_turn : TurnId }.

Inductive SteeringReclassificationReason := NoSafePointBeforeTerminal.

Inductive AcceptedInputDisposition :=
| OriginOf (turn : TurnId)
| PendingSteering (binding : SteeringBinding)
| ConsumedAsSteering (call : ModelCallId)
| ReclassifiedAsTurnOrigin (turn : TurnId) (reason : SteeringReclassificationReason)
| ClosedNotDelivered.

Inductive AcceptedInputDispositionTransitionError :=
| DispositionCannotConsumeAsSteering (current : AcceptedInputDisposition)
| DispositionCannotReclassifyAsTurnOrigin (current : AcceptedInputDisposition)
| DispositionCannotCloseNotDelivered (current : AcceptedInputDisposition).

Definition into_current (error : AcceptedInputDispositionTransitionError) : AcceptedInputDisposition :=
  match error with
  | DispositionCannotConsumeAsSteering current
  | DispositionCannotReclassifyAsTurnOrigin current
  | DispositionCannotCloseNotDelivered current => current
  end.

Definition disposition_consume_as_steering (self : AcceptedInputDisposition) (call : ModelCallId) :
    result AcceptedInputDispositionTransitionError AcceptedInputDisposition :=
  match self with
  | PendingSteering _ => Ok (ConsumedAsSteering call)
  | current => Err (DispositionCannotConsumeAsSteering current)
  end.

Definition disposition_reclassify_as_turn_origin (self : AcceptedInputDisposition) (turn : TurnId)
    (reason : SteeringReclassificationReason) :
    result AcceptedInputDispositionTransitionError AcceptedInputDisposition :=
  match self with
  | PendingSteering _ => Ok (ReclassifiedAsTurnOrigin turn reason)
  | current => Err (DispositionCannotReclassifyAsTurnOrigin current)
  end.

Definition disposition_close_not_delivered (self : AcceptedInputDisposition) :
    result AcceptedInputDispositionTransitionError AcceptedInputDisposition :=
  match self with
  | PendingSteering _ => Ok ClosedNotDelivered
  | current => Err (DispositionCannotCloseNotDelivered current)
  end.

Record AcceptedInputLifecycle := mkLifecycle {
  lifecycle_id : AcceptedInputId;
  lifecycle_disposition : AcceptedInputDisposition;
}.

Inductive AcceptedInputLifecycleTransitionError :=
| CannotConsumeAsSteering (lifecycle : AcceptedInputLifecycle)
| CannotReclassifyAsTurnOrigin (lifecycle : AcceptedInputLifecycle)
| CannotCloseNotDelivered (lifecycle : AcceptedInputLifecycle).

Definition into_lifecycle (error : AcceptedInputLifecycleTransitionError) : AcceptedInputLifecycle :=
  match error with
  | CannotConsumeAsSteering lifecycle | CannotReclassifyAsTurnOrigin lifecycle
  | CannotCloseNotDelivered lifecycle => lifecycle
  end.

Abbreviation lifecycle_result := (result AcceptedInputLifecycleTransitionError AcceptedInputLifecycle).

Definition consume_as_steering (self : AcceptedInputLifecycle) (call : ModelCallId) :
    lifecycle_result :=
  match disposition_consume_as_steering (lifecycle_disposition self) call with
  | Ok disposition => Ok (mkLifecycle (lifecycle_id self) disposition)
  | Err error => Err (CannotConsumeAsSteering (mkLifecycle (lifecycle_id self) (into_current error)))
  end.

Definition reclassify_as_turn_origin (self : AcceptedInputLifecycle) (turn : TurnId)
    (reason : SteeringReclassificationReason) : lifecycle_result :=
  match disposition_reclassify_as_turn_origin (lifecycle_disposition self) turn reason with
  | Ok disposition => Ok (mkLifecycle (lifecycle_id self) disposition)
  | Err error => Err (CannotReclassifyAsTurnOrigin (mkLifecycle (lifecycle_id self) (into_current error)))
  end.

Definition close_not_delivered (self : AcceptedInputLifecycle) : lifecycle_result :=
  match disposition_close_not_delivered (lifecycle_disposition self) with
  | Ok disposition => Ok (mkLifecycle (lifecycle_id self) disposition)
  | Err error => Err (CannotCloseNotDelivered (mkLifecycle (lifecycle_id self) (into_current error)))
  end.

(** ** Applied interrupts *)

Record AppliedInterruptProof := mkProof {
  proof_command : DurableCommandId;
  proof_predecessor : TurnId;
}.

#[export] Instance AppliedInterruptProof_eq_dec : EqDecision AppliedInterruptProof.
Proof. solve_decision. Defined.

Record AppliedInterruptCommandResult := mkInterruptResult {
  interrupt_proof : AppliedInterruptProof;
  interrupt_session : SessionId;
  interrupt_accepted_input : AcceptedInputId;
  interrupt_successor : TurnId;
  interrupt_successor_order : AcceptedInputQueueOrder;
}.

Definition from_correlated_submit (command : DurableCommandId) (session : SessionId)
    (predecessor : TurnId) (accepted_input : AcceptedInputId) (successor : TurnId)
    (successor_order : AcceptedInputQueueOrder) : option AppliedInterruptCommandResult :=
  if bool_decide (successor = predecessor)
     || negb (bool_decide (priority successor_order = InterruptImmediatelyAfter predecessor))
  then None
  else Some (mkInterruptResult (mkProof command predecessor) session accepted_input successor
               successor_order).

Record AppliedSubmitInputFacts := mkFacts {
  facts_command : DurableCommandId;
  facts_command_session : SessionId;
  facts_command_delivery : DeliveryRequest;
  facts_predecessor_session : SessionId;
  facts_predecessor : TurnId;
  facts_accepted_input_session : SessionId;
  facts_accepted_input : AcceptedInputLifecycle;
  facts_accepted_delivery : DeliveryRequest;
  facts_accepted_position : SessionInputPosition;
  facts_successor : AcceptedInputQueueWork;
}.

Inductive HandledSubmitInputProjection :=
| HandledRejected (command : DurableCommandId) (command_session : SessionId)
    (command_delivery : DeliveryRequest)
| HandledApplied (facts : AppliedSubmitInputFacts).

Inductive InterruptSessionAssociation :=
| PredecessorAssociation | AcceptedInputAssociation | SuccessorAssociation.

Inductive AppliedInterruptConstructionError :=
| RejectedCommand (command : DurableCommandId)
| NonInterruptCommand (command : DurableCommandId)
| AcceptedDeliveryMismatch (command_delivery accepted_delivery : DeliveryRequest)
| TargetMismatch (requested authoritative : TurnId)
| SessionMismatch (association : InterruptSessionAssociation)
    (command_session associated_session : SessionId)
| SuccessorMatchesPredecessor (turn : TurnId)
| AcceptedInputNotSuccessorOrigin (disposition : AcceptedInputDisposition) (successor : TurnId)
| AcceptedPositionMismatch (accepted_position successor_position : SessionInputPosition)
| SuccessorHasOrdinaryPriority
| SuccessorTargetsDifferentPredecessor (expected actual : TurnId)
| SuccessorAlreadyKnown (successor : TurnId)
| InvalidQueueOrder (error : AcceptedInputQueueOrderError).

Abbreviation interrupt_result := (result AppliedInterruptConstructionError).

(** The loop over the three associations. *)
Definition check_sessions (facts : AppliedSubmitInputFacts) : interrupt_result unit :=
  try_fold (fun _ '(association, associated_session) =>
      ensure (bool_decide (associated_session = facts_command_session facts))
        (SessionMismatch association (facts_command_session facts) associated_session))
    [(PredecessorAssociation, facts_predecessor_session facts);
     (AcceptedInputAssociation, facts_accepted_input_session facts);
     (SuccessorAssociation, work_session (facts_successor facts))] tt.

Definition check_origin (facts : AppliedSubmitInputFacts) : interrupt_result unit :=
  let successor := work_turn (facts_successor facts) in
  match lifecycle_disposition (facts_accepted_input facts) with
  | OriginOf origin as disposition =>
      ensure (bool_decide (origin = successor))
        (AcceptedInputNotSuccessorOrigin disposition successor)
  | disposition => Err (AcceptedInputNotSuccessorOrigin disposition successor)
  end.

Definition check_priority (facts : AppliedSubmitInputFacts) : interrupt_result unit :=
  match priority (work_order (facts_successor facts)) with
  | Ordinary => Err SuccessorHasOrdinaryPriority
  | InterruptImmediatelyAfter predecessor =>
      ensure (bool_decide (predecessor = facts_predecessor facts))
        (SuccessorTargetsDifferentPredecessor (facts_predecessor facts) predecessor)
  end.

Definition correlate_applied_interrupt (handled : HandledSubmitInputProjection)
    (known_work_before_application : list AcceptedInputQueueWork) :
    interrupt_result AppliedInterruptCommandResult :=
  match handled with
  | HandledRejected command _ _ => Err (RejectedCommand command)
  | HandledApplied facts =>
      match facts_command_delivery facts with
      | InterruptRequest expected_active_turn _ _ =>
          _ ← ensure (bool_decide (facts_accepted_delivery facts = facts_command_delivery facts))
                (AcceptedDeliveryMismatch (facts_command_delivery facts) (facts_accepted_delivery facts));
          _ ← ensure (bool_decide (expected_active_turn = facts_predecessor facts))
                (TargetMismatch expected_active_turn (facts_predecessor facts));
          _ ← check_sessions facts;
          let successor := work_turn (facts_successor facts) in
          _ ← ensure (negb (bool_decide (successor = facts_predecessor facts)))
                (SuccessorMatchesPredecessor successor);
          _ ← check_origin facts;
          let successor_position := acceptance_position (work_order (facts_successor facts)) in
          _ ← ensure (bool_decide (facts_accepted_position facts = successor_position))
                (AcceptedPositionMismatch (facts_accepted_position facts) successor_position);
          _ ← check_priority facts;
          _ ← ensure (negb (existsb (fun work => bool_decide (work_turn work = successor))
                               known_work_before_application))
                (SuccessorAlreadyKnown successor);
          _ ← map_err InvalidQueueOrder
                (derive_accepted_input_total_order
                   (known_work_before_application ++ [facts_successor facts]));
          Ok (mkInterruptResult
                (mkProof (facts_command facts) (facts_predecessor facts))
                (facts_command_session facts) (lifecycle_id (facts_accepted_input facts))
                successor (work_order (facts_successor facts)))
      | _ => Err (NonInterruptCommand (facts_command facts))
      end
  end.
