(* ===== verification/InterruptSpec.v ===== *)
(** * What accepted inputs and applied interrupts promise

    A pending steering input is settled exactly once; correlated interrupt
    authority exists exactly for consistent facts; and applying it changes the
    session's queue order only by inserting the successor immediately after
    the interrupted turn. *)

From S2P Require Import Prelude QueueOrder QueueOrderSpec ModelSettings Configuration Interrupt.

(** ** Dispositions *)

Inductive input_action :=
| Consume (call : ModelCallId)
| Reclassify (turn : TurnId) (reason : SteeringReclassificationReason)
| Close.

Definition perform_input (l : AcceptedInputLifecycle) (a : input_action) : lifecycle_result :=
  match a with
  | Consume call => consume_as_steering l call
  | Reclassify turn reason => reclassify_as_turn_origin l turn reason
  | Close => close_not_delivered l
  end.

Definition settled_disposition (a : input_action) : AcceptedInputDisposition :=
  match a with
  | Consume call => ConsumedAsSteering call
  | Reclassify turn reason => ReclassifiedAsTurnOrigin turn reason
  | Close => ClosedNotDelivered
  end.

Lemma perform_input_pending id binding a :
  perform_input (mkLifecycle id (PendingSteering binding)) a
  = Ok (mkLifecycle id (settled_disposition a)).
Proof. by destruct a. Qed.

Lemma perform_input_settled l a :
  (forall binding, lifecycle_disposition l <> PendingSteering binding) ->
  exists e, perform_input l a = Err e /\ into_lifecycle e = l.
Proof.
  destruct l as [id d]. intros Hd. simpl in Hd.
  destruct a, d; try (by edestruct Hd); simpl; eexists; split; reflexivity.
Qed.

(** A pending input is settled by exactly one action: of any sequence of
    actions the first decides the disposition, every later one is refused with
    the lifecycle unchanged, and the identity is never changed. *)
Theorem pending_input_settles_once id binding a actions :
  let settled := mkLifecycle id (settled_disposition a) in
  perform_input (mkLifecycle id (PendingSteering binding)) a = Ok settled /\
  Forall (fun b => exists e, perform_input settled b = Err e /\ into_lifecycle e = settled) actions.
Proof.
  simpl. split; [apply perform_input_pending|]. apply Forall_forall. intros b _.
  apply perform_input_settled. intros binding'. by destruct a.
Qed.

(** ** Interrupt authority *)

(** The handled facts describe one applied interrupt of [facts_predecessor]. *)
Record coherent (facts : AppliedSubmitInputFacts) (known : list AcceptedInputQueueWork) : Prop := {
  coherent_command : exists scope configuration,
    facts_command_delivery facts = InterruptRequest (facts_predecessor facts) scope configuration;
  coherent_delivery : facts_accepted_delivery facts = facts_command_delivery facts;
  coherent_predecessor_session : facts_predecessor_session facts = facts_command_session facts;
  coherent_input_session : facts_accepted_input_session facts = facts_command_session facts;
  coherent_successor_session : work_session (facts_successor facts) = facts_command_session facts;
  coherent_distinct : work_turn (facts_successor facts) <> facts_predecessor facts;
  coherent_origin :
    lifecycle_disposition (facts_accepted_input facts) = OriginOf (work_turn (facts_successor facts));
  coherent_position :
    facts_accepted_position facts = acceptance_position (work_order (facts_successor facts));
  coherent_priority :
    work_priority (facts_successor facts) = InterruptImmediatelyAfter (facts_predecessor facts);
  coherent_fresh : work_turn (facts_successor facts) ∉ work_turn <$> known;
}.

Definition granted_authority (facts : AppliedSubmitInputFacts) : AppliedInterruptCommandResult :=
  mkInterruptResult (mkProof (facts_command facts) (facts_predecessor facts))
    (facts_command_session facts) (lifecycle_id (facts_accepted_input facts))
    (work_turn (facts_successor facts)) (work_order (facts_successor facts)).

Lemma check_sessions_Ok facts :
  check_sessions facts = Ok tt <->
  facts_predecessor_session facts = facts_command_session facts /\
  facts_accepted_input_session facts = facts_command_session facts /\
  work_session (facts_successor facts) = facts_command_session facts.
Proof.
  unfold check_sessions. simpl. unfold ensure. repeat case_bool_decide; simpl; naive_solver.
Qed.

Lemma check_origin_Ok facts :
  check_origin facts = Ok tt <->
  lifecycle_disposition (facts_accepted_input facts) = OriginOf (work_turn (facts_successor facts)).
Proof.
  unfold check_origin, ensure. destruct (lifecycle_disposition _); try done.
  case_bool_decide; naive_solver.
Qed.

Lemma check_priority_Ok facts :
  check_priority facts = Ok tt <->
  work_priority (facts_successor facts) = InterruptImmediatelyAfter (facts_predecessor facts).
Proof.
  unfold check_priority, work_priority, ensure. destruct (priority _); try done.
  case_bool_decide; naive_solver.
Qed.

Lemma known_existsb known t :
  negb (existsb (fun work => bool_decide (work_turn work = t)) known) = true <->
  t ∉ work_turn <$> known.
Proof.
  rewrite negb_true_iff, <- not_true_iff_false, existsb_exists, list_elem_of_fmap.
  setoid_rewrite bool_decide_eq_true. setoid_rewrite list_elem_of_In. naive_solver.
Qed.

Lemma bind_unit_Ok {E A} (m : result E unit) (k : unit -> result E A) a :
  (m ≫= k) = Ok a <-> m = Ok tt /\ k tt = Ok a.
Proof. destruct m as [[]|]; simpl; naive_solver. Qed.

Lemma correlate_Ok handled known r :
  correlate_applied_interrupt handled known = Ok r <->
  exists facts l, handled = HandledApplied facts /\ coherent facts known /\
    derive_accepted_input_total_order (known ++ [facts_successor facts]) = Ok l /\
    r = granted_authority facts.
Proof.
  unfold correlate_applied_interrupt. split.
  - destruct handled as [|facts]; [done|].
    destruct (facts_command_delivery facts) as [|turn scope configuration| |] eqn:Hd; try done.
    rewrite !bind_unit_Ok, bind_Ok, !ensure_Ok, check_sessions_Ok, check_origin_Ok, check_priority_Ok,
      known_existsb, negb_true_iff, !bool_decide_eq_true, bool_decide_eq_false.
    intros (H1 & H2 & (H3 & H4 & H5) & H6 & H7 & H8 & H9 & H10 & l & H11%map_err_Ok & [= <-]).
    exists facts, l. split_and!; try done. split; try done; [exists scope, configuration; congruence|congruence].
  - intros (facts & l & -> & [(scope & configuration & Hd) H1 H3 H4 H5 H6 H7 H8 H9 H10] & Hl & ->).
    rewrite Hd.
    rewrite !bind_unit_Ok, bind_Ok, !ensure_Ok, check_sessions_Ok, check_origin_Ok, check_priority_Ok,
      known_existsb, negb_true_iff, !bool_decide_eq_true, bool_decide_eq_false.
    split_and!; try done; [congruence|]. exists l. split; [|done]. by apply map_err_Ok.
Qed.

(** Cancellation authority is granted exactly for an applied interrupt
    command whose recorded facts agree (delivery, target, sessions, origin,
    position, priority, a fresh successor) and whose successor extends the
    known work to a derivable queue order; it names the command and the
    interrupted turn. *)
Theorem interrupt_authority_exact handled known r :
  correlate_applied_interrupt handled known = Ok r <->
  exists facts l, handled = HandledApplied facts /\ coherent facts known /\
    derive_accepted_input_total_order (known ++ [facts_successor facts]) = Ok l /\
    r = granted_authority facts.
Proof. apply correlate_Ok. Qed.

(** ** The effect on the queue order *)

(** Where the elements of [l1 ++ p :: l2] are after [x] is inserted behind [p]. *)
Lemma lookup_inserted {A} (l1 l2 : list A) p x i :
  (l1 ++ p :: x :: l2) !! (if decide (i <= length l1) then i else S i) = (l1 ++ p :: l2) !! i.
Proof.
  case_decide as Hi.
  - destruct (decide (i < length l1)); [by rewrite !lookup_app_l by done|].
    assert (i = length l1) as -> by lia. by rewrite !lookup_app_r, Nat.sub_diag by lia.
  - rewrite !lookup_app_r by lia. destruct (i - length l1) as [|k] eqn:Hk; [lia|].
    by replace (S i - length l1) with (S (S k)) by lia.
Qed.

Lemma precedes_inserted {A} (l1 l2 : list A) p x a b :
  precedes (l1 ++ p :: l2) a b -> precedes (l1 ++ p :: x :: l2) a b.
Proof.
  intros (i & j & Hi & Hj & Hlt). rewrite <- (lookup_inserted _ _ _ x) in Hi, Hj.
  eexists _, _. split_and!; [exact Hi|exact Hj|]. repeat case_decide; lia.
Qed.

Lemma adjacent_inserted {A} (l1 l2 : list A) p x a b :
  a <> p -> adjacent (l1 ++ p :: l2) a b -> adjacent (l1 ++ p :: x :: l2) a b.
Proof.
  intros Ha (i & Hi & Hj).
  assert (i <> length l1) as Hne.
  { intros ->. rewrite lookup_app_r, Nat.sub_diag in Hi by lia. simpl in Hi. congruence. }
  rewrite <- (lookup_inserted _ _ _ x) in Hi, Hj. eexists. split; [exact Hi|].
  rewrite <- Hj. f_equal. repeat case_decide; lia.
Qed.

Lemma adjacent_here {A} (l1 l2 : list A) p x : adjacent (l1 ++ p :: x :: l2) p x.
Proof.
  exists (length l1). rewrite !lookup_app_r, Nat.sub_diag by lia.
  by replace (S (length l1) - length l1) with 1 by lia.
Qed.

Lemma total_order_insert known w p l1 l2 :
  admissible_facts (known ++ [w]) -> work_priority w = InterruptImmediatelyAfter p ->
  total_order known (l1 ++ p :: l2) ->
  total_order (known ++ [w]) (l1 ++ p :: work_turn w :: l2).
Proof.
  intros Ha Hw Ho. split.
  - rewrite fmap_app, <- (every_turn_once _ _ Ho). simpl. by solve_Permutation.
  - intros w' p' [Hin| ->]%elem_of_snoc Hp'.
    + apply adjacent_inserted; [|by apply (interrupt_adjacent _ _ Ho)]. intros ->.
      assert (w' = w) as -> by (eapply (one_interrupt_per_target _ Ha); eauto; set_solver).
      pose proof (distinct_turns _ Ha) as Hnd. rewrite fmap_app in Hnd.
      apply NoDup_app in Hnd as (_ & Hnd & _). apply (Hnd (work_turn w)); [|set_solver].
      by apply list_elem_of_fmap_2.
    + rewrite Hw in Hp'. injection Hp' as <-. apply adjacent_here.
  - intros w1 w2 [H1| ->]%elem_of_snoc [H2| ->]%elem_of_snoc Hp1 Hp2 Hlt; try congruence.
    apply precedes_inserted. by apply (ordinary_fifo _ _ Ho).
Qed.

(** Against any derivation that keeps the queue's promise. *)
Section derivation.
Context (derive : list AcceptedInputQueueWork -> result AcceptedInputQueueOrderError (list TurnId)).
Context `{!DerivesTotalOrder derive}.

Lemma derive_inserts known w p l l' :
  derive known = Ok l -> derive (known ++ [w]) = Ok l' ->
  work_priority w = InterruptImmediatelyAfter p ->
  exists l1 l2, l = l1 ++ p :: l2 /\ l' = l1 ++ p :: work_turn w :: l2.
Proof.
  intros (_ & Ho & _)%derives_sound (Ha' & Ho' & _)%derives_sound Hp.
  destruct (target_accepted_earlier _ Ha' w p) as (w' & Hw' & Ht & Hlt); [set_solver|done|].
  assert (p ∈ l) as (l1 & l2 & ->)%list_elem_of_split.
  { rewrite (every_turn_once _ _ Ho). apply list_elem_of_fmap. exists w'. split; [done|].
    apply elem_of_snoc in Hw' as [?| ->]; [done|]. unfold key_lt in Hlt. lia. }
  exists l1, l2. split; [done|].
  eapply total_order_determined; [done..|]. by apply total_order_insert.
Qed.
End derivation.

(** C10. Applying an interrupt leaves the existing order as it is and inserts
    the successor immediately after the interrupted turn. *)
Theorem applied_interrupt_inserts_successor facts known r l :
  correlate_applied_interrupt (HandledApplied facts) known = Ok r ->
  derive_accepted_input_total_order known = Ok l ->
  exists l1 l2, l = l1 ++ proof_predecessor (interrupt_proof r) :: l2 /\
    derive_accepted_input_total_order (known ++ [facts_successor facts])
    = Ok (l1 ++ proof_predecessor (interrupt_proof r) :: interrupt_successor r :: l2).
Proof.
  intros (facts' & l' & [= <-] & Hc & Hl' & ->)%correlate_Ok Hl.
  destruct (derive_inserts _ _ _ _ _ _ Hl Hl' (coherent_priority _ _ Hc)) as (l1 & l2 & -> & ->).
  by exists l1, l2.
Qed.

(** ** Witness *)

Definition sample_session : SessionId := from_uuid 1.
Definition sample_known : list AcceptedInputQueueWork :=
  [mkWork sample_session (from_uuid 10) (ordinary (mkPosition 1));
   mkWork sample_session (from_uuid 11) (ordinary (mkPosition 2))].
Definition sample_delivery : DeliveryRequest :=
  InterruptRequest (from_uuid 10) ParentAlone (choices_new defaults_version_first UseSessionDefault).
Definition sample_facts : AppliedSubmitInputFacts :=
  mkFacts (from_uuid 20) sample_session sample_delivery sample_session (from_uuid 10) sample_session
    (mkLifecycle (from_uuid 30) (OriginOf (from_uuid 12))) sample_delivery (mkPosition 3)
    (mkWork sample_session (from_uuid 12) (interrupt_immediately_after (mkPosition 3) (from_uuid 10))).

Lemma sample_correlates :
  correlate_applied_interrupt (HandledApplied sample_facts) sample_known = Ok (granted_authority sample_facts).
Proof. vm_compute. reflexivity. Defined.

Lemma applied_interrupt_inserts_successor_witness :
  exists l1 l2, [from_uuid 10; from_uuid 11] = l1 ++ from_uuid 10 :: l2 /\
    derive_accepted_input_total_order (sample_known ++ [facts_successor sample_facts])
    = Ok (l1 ++ from_uuid 10 :: from_uuid 12 :: l2).
Proof.
  assert (derive_accepted_input_total_order sample_known = Ok [from_uuid 10; from_uuid 11]) as Hd
    by (vm_compute; reflexivity).
  exact (applied_interrupt_inserts_successor sample_facts sample_known _ _ sample_correlates Hd).
Defined.
