(* ===== verification/TurnAttempt.v ===== *)
(** * Turn attempts and their stop causes

    Model of [crates/domain/src/turn_attempt.rs]: the canonical union of stop
    causes of a live attempt, the attempt-local transitions and the matrix of
    permitted ends; then the properties of any sequence of stop requests. *)

From S2P Require Import Prelude Interrupt.

(** ** Stop causes *)

Inductive ProviderTargetMismatchFailureKind :=
| NonterminalCallObservation (evidence : ProviderTargetEvidenceId)
| TerminalAmbiguityResolution (evidence : ProviderTargetEvidenceId)
| TerminalCallInvalidation (invalidated_call : ModelCallId).

Record ProviderTargetMismatchFailureRef := mkFailureRef {
  failure_kind : ProviderTargetMismatchFailureKind;
}.

#[export] Instance ProviderTargetMismatchFailureKind_eq_dec :
  EqDecision ProviderTargetMismatchFailureKind.
Proof. solve_decision. Defined.
#[export] Instance ProviderTargetMismatchFailureRef_eq_dec :
  EqDecision ProviderTargetMismatchFailureRef.
Proof. solve_decision. Defined.
#[export] Instance ProviderTargetMismatchFailureRef_countable :
  Countable ProviderTargetMismatchFailureRef.
Proof.
  apply (inj_countable' (fun f => match failure_kind f with
      | NonterminalCallObservation e => inl e
      | TerminalAmbiguityResolution e => inr (inl e)
      | TerminalCallInvalidation c => inr (inr c)
      end) (fun s => mkFailureRef match s with
      | inl e => NonterminalCallObservation e
      | inr (inl e) => TerminalAmbiguityResolution e
      | inr (inr c) => TerminalCallInvalidation c
      end)).
  by intros [[]].
Defined.

Inductive AppliedInterruptState :=
| NoAppliedInterrupt
| InterruptApplied (proof : AppliedInterruptProof).

#[export] Instance AppliedInterruptState_eq_dec : EqDecision AppliedInterruptState.
Proof. solve_decision. Defined.

Record FatalMismatchStopCauses := mkFatalCauses {
  fatal_failures : gset ProviderTargetMismatchFailureRef;
  fatal_interrupt : AppliedInterruptState;
}.

#[export] Instance FatalMismatchStopCauses_eq_dec : EqDecision FatalMismatchStopCauses.
Proof. solve_decision. Defined.

Definition fatal_causes_new (failure : ProviderTargetMismatchFailureRef)
    (interrupt : AppliedInterruptState) : FatalMismatchStopCauses :=
  mkFatalCauses {[ failure ]} interrupt.

Definition fatal_contains (causes : FatalMismatchStopCauses)
    (failure : ProviderTargetMismatchFailureRef) : bool :=
  bool_decide (failure ∈ fatal_failures causes).

Definition fatal_add_failure (causes : FatalMismatchStopCauses)
    (failure : ProviderTargetMismatchFailureRef) : FatalMismatchStopCauses :=
  mkFatalCauses ({[ failure ]} ∪ fatal_failures causes) (fatal_interrupt causes).

(** Returns whether the proof was accepted, and the causes after the call. *)
Definition fatal_add_interrupt (causes : FatalMismatchStopCauses) (proof : AppliedInterruptProof) :
    bool * FatalMismatchStopCauses :=
  match fatal_interrupt causes with
  | NoAppliedInterrupt => (true, mkFatalCauses (fatal_failures causes) (InterruptApplied proof))
  | InterruptApplied existing => (bool_decide (existing = proof), causes)
  end.

Inductive TurnAttemptStopCauses :=
| CancellationOnly (interrupt : AppliedInterruptProof)
| FatalMismatch (causes : FatalMismatchStopCauses).

Record TurnAttemptStopCauseUnionError := mkUnionError {
  union_error_current : TurnAttemptStopCauses;
  union_error_requested : AppliedInterruptProof;
}.

Definition cancellation_only (interrupt : AppliedInterruptProof) : TurnAttemptStopCauses :=
  CancellationOnly interrupt.

Definition fatal_mismatch (failure : ProviderTargetMismatchFailureRef) : TurnAttemptStopCauses :=
  FatalMismatch (fatal_causes_new failure NoAppliedInterrupt).

Definition add_fatal_mismatch (self : TurnAttemptStopCauses)
    (failure : ProviderTargetMismatchFailureRef) : TurnAttemptStopCauses :=
  match self with
  | CancellationOnly interrupt => FatalMismatch (fatal_causes_new failure (InterruptApplied interrupt))
  | FatalMismatch causes => FatalMismatch (fatal_add_failure causes failure)
  end.

Definition add_interrupt (self : TurnAttemptStopCauses) (proof : AppliedInterruptProof) :
    result TurnAttemptStopCauseUnionError TurnAttemptStopCauses :=
  let '(accepted, self) :=
    match self with
    | CancellationOnly interrupt => (bool_decide (interrupt = proof), self)
    | FatalMismatch causes =>
        let '(accepted, causes) := fatal_add_interrupt causes proof in
        (accepted, FatalMismatch causes)
    end in
  if accepted : bool then Ok self else Err (mkUnionError self proof).

(** ** Attempts *)

Inductive UnstoppedAttemptDisposition :=
| UnstoppedTurnCompleted | UnstoppedTurnRefused | YieldedToDurableWait
| UnstoppedKnownFailure | UnstoppedLost | UnstoppedAmbiguous.

Inductive CancellationStopDisposition :=
| CancelTurnCompleted | CancelTurnRefused | CancelKnownFailure | CancelLost | CancelCancelled
| CancelAmbiguous.

Inductive FatalMismatchStopDisposition := FatalKnownFailure | FatalLost | FatalAmbiguous.

Inductive AttemptEnd :=
| WithoutStop (disposition : UnstoppedAttemptDisposition)
| AfterCancellation (cause : AppliedInterruptProof) (disposition : CancellationStopDisposition)
| AfterFatalMismatch (causes : FatalMismatchStopCauses) (disposition : FatalMismatchStopDisposition).

Inductive CurrentTurnAttemptState :=
| Prepared
| AttemptRunning
| StopRequested (causes : TurnAttemptStopCauses).

Record CurrentTurnAttempt := mkAttempt {
  attempt_id : TurnAttemptId;
  attempt_state : CurrentTurnAttemptState;
}.

Record EndedTurnAttempt := mkEnded {
  ended_id : TurnAttemptId;
  ended_end : AttemptEnd;
}.

Inductive AttemptedTurnAttemptTransition :=
| BeginRunning
| RequestCancellation (proof : AppliedInterruptProof)
| RequestFatalMismatch (failure : ProviderTargetMismatchFailureRef)
| EndAttempt (attempt_end : AttemptEnd).

Record CurrentTurnAttemptTransitionError := mkTransitionError {
  rejected_current : CurrentTurnAttempt;
  rejected_attempted : AttemptedTurnAttemptTransition;
}.

Abbreviation attempt_result := (result CurrentTurnAttemptTransitionError).

Definition prepared (id : TurnAttemptId) : CurrentTurnAttempt := mkAttempt id Prepared.

Definition begin_running (self : CurrentTurnAttempt) : attempt_result CurrentTurnAttempt :=
  match attempt_state self with
  | Prepared => Ok (mkAttempt (attempt_id self) AttemptRunning)
  | state => Err (mkTransitionError (mkAttempt (attempt_id self) state) BeginRunning)
  end.

Definition request_cancellation (self : CurrentTurnAttempt) (proof : AppliedInterruptProof) :
    attempt_result CurrentTurnAttempt :=
  let attempted := RequestCancellation proof in
  let id := attempt_id self in
  match attempt_state self with
  | AttemptRunning => Ok (mkAttempt id (StopRequested (cancellation_only proof)))
  | StopRequested causes =>
      match add_interrupt causes proof with
      | Ok causes => Ok (mkAttempt id (StopRequested causes))
      | Err error =>
          Err (mkTransitionError (mkAttempt id (StopRequested (union_error_current error))) attempted)
      end
  | state => Err (mkTransitionError (mkAttempt id state) attempted)
  end.

Definition request_fatal_mismatch (self : CurrentTurnAttempt)
    (failure : ProviderTargetMismatchFailureRef) : attempt_result CurrentTurnAttempt :=
  let id := attempt_id self in
  match attempt_state self with
  | AttemptRunning => Ok (mkAttempt id (StopRequested (fatal_mismatch failure)))
  | StopRequested causes => Ok (mkAttempt id (StopRequested (add_fatal_mismatch causes failure)))
  | state => Err (mkTransitionError (mkAttempt id state) (RequestFatalMismatch failure))
  end.

(** The predecessor matrix of [CurrentTurnAttempt::end]. *)
Definition end_allowed (state : CurrentTurnAttemptState) (attempted_end : AttemptEnd) : bool :=
  match state, attempted_end with
  | Prepared, WithoutStop (UnstoppedKnownFailure | UnstoppedLost | YieldedToDurableWait)
  | Prepared, AfterCancellation _ CancelCancelled => true
  | Prepared, AfterFatalMismatch causes (FatalKnownFailure | FatalLost) =>
      bool_decide (fatal_interrupt causes = NoAppliedInterrupt)
  | AttemptRunning, _ => true
  | StopRequested (CancellationOnly interrupt), AfterCancellation cause _ =>
      bool_decide (interrupt = cause)
  | StopRequested (FatalMismatch current), AfterFatalMismatch causes _ =>
      bool_decide (current = causes)
  | _, _ => false
  end.

Definition end_attempt (self : CurrentTurnAttempt) (attempted_end : AttemptEnd) :
    attempt_result EndedTurnAttempt :=
  if end_allowed (attempt_state self) attempted_end
  then Ok (mkEnded (attempt_id self) attempted_end)
  else Err (mkTransitionError self (EndAttempt attempted_end)).

Definition end_without_stop (self : CurrentTurnAttempt) (disposition : UnstoppedAttemptDisposition) :
    attempt_result EndedTurnAttempt :=
  end_attempt self (WithoutStop disposition).
Definition end_after_cancellation (self : CurrentTurnAttempt) (cause : AppliedInterruptProof)
    (disposition : CancellationStopDisposition) : attempt_result EndedTurnAttempt :=
  end_attempt self (AfterCancellation cause disposition).
Definition end_after_fatal_mismatch (self : CurrentTurnAttempt) (causes : FatalMismatchStopCauses)
    (disposition : FatalMismatchStopDisposition) : attempt_result EndedTurnAttempt :=
  end_attempt self (AfterFatalMismatch causes disposition).

Definition reconstitute_yielded (id : TurnAttemptId) : EndedTurnAttempt :=
  mkEnded id (WithoutStop YieldedToDurableWait).

(** ** Sequences of stop requests *)

Inductive stop_request :=
| Interrupted (proof : AppliedInterruptProof)
| Mismatched (failure : ProviderTargetMismatchFailureRef).

Definition request_stop (a : CurrentTurnAttempt) (r : stop_request) : attempt_result CurrentTurnAttempt :=
  match r with
  | Interrupted proof => request_cancellation a proof
  | Mismatched failure => request_fatal_mismatch a failure
  end.

Definition request_failures (rs : list stop_request) : gset ProviderTargetMismatchFailureRef :=
  list_to_set (omap (fun r => match r with Mismatched f => Some f | _ => None end) rs).
Definition request_proofs (rs : list stop_request) : list AppliedInterruptProof :=
  omap (fun r => match r with Interrupted p => Some p | _ => None end) rs.

(** The state a running attempt is in after the requests: fatal as soon as one
    mismatch is among them, with every mismatch and the interrupt retained. *)
Definition stopped_state (rs : list stop_request) : CurrentTurnAttemptState :=
  let interrupt := match request_proofs rs with
                   | proof :: _ => InterruptApplied proof
                   | [] => NoAppliedInterrupt
                   end in
  if bool_decide (request_failures rs = ∅) then
    match interrupt with
    | InterruptApplied proof => StopRequested (CancellationOnly proof)
    | NoAppliedInterrupt => AttemptRunning
    end
  else StopRequested (FatalMismatch (mkFatalCauses (request_failures rs) interrupt)).

(** At most one distinct interrupt is among the requests. *)
Definition one_interrupt (rs : list stop_request) : Prop :=
  forall p q, p ∈ request_proofs rs -> q ∈ request_proofs rs -> p = q.

Lemma request_failures_snoc rs r :
  request_failures (rs ++ [r]) =
    match r with Mismatched f => {[ f ]} ∪ request_failures rs | _ => request_failures rs end.
Proof.
  unfold request_failures. rewrite omap_app, list_to_set_app_L. destruct r; simpl; set_solver.
Qed.

Lemma request_proofs_snoc rs r :
  request_proofs (rs ++ [r]) =
    request_proofs rs ++ match r with Interrupted p => [p] | _ => [] end.
Proof. unfold request_proofs. rewrite omap_app. by destruct r. Qed.

Lemma one_interrupt_prefix rs r : one_interrupt (rs ++ [r]) -> one_interrupt rs.
Proof. intros H p q Hp Hq. apply H; rewrite request_proofs_snoc; set_solver. Qed.

Lemma one_interrupt_snoc rs proof :
  one_interrupt rs ->
  one_interrupt (rs ++ [Interrupted proof]) <->
  match request_proofs rs with [] => True | p :: _ => p = proof end.
Proof.
  intros Hone. unfold one_interrupt in *. rewrite request_proofs_snoc.
  destruct (request_proofs rs) as [|p ps]; simpl.
  - split; [done|]. intros _ p q. rewrite !list_elem_of_singleton. congruence.
  - split.
    + intros H. apply H; [by left|]. right. apply elem_of_app. right. by left.
    + intros <-. assert (forall q, q ∈ p :: ps ++ [p] -> q = p) as Hall.
      { intros q Hq. apply elem_of_cons in Hq as [->|Hq]; [done|].
        apply elem_of_snoc in Hq as [Hq| ->]; [|done]. apply Hone; [by right|by left]. }
      intros q1 q2 H1%Hall H2%Hall. congruence.
Qed.

(** One more request: accepted exactly when it adds no second interrupt. *)
Lemma request_stop_snoc id rs r :
  one_interrupt rs ->
  match request_stop (mkAttempt id (stopped_state rs)) r with
  | Ok a => one_interrupt (rs ++ [r]) /\ a = mkAttempt id (stopped_state (rs ++ [r]))
  | Err e => ~ one_interrupt (rs ++ [r])
  end.
Proof.
  intros Hone. destruct r as [proof|failure]; simpl.
  - pose proof (one_interrupt_snoc rs proof Hone) as Hsnoc.
    unfold stopped_state. rewrite request_failures_snoc, request_proofs_snoc.
    unfold request_cancellation, add_interrupt, fatal_add_interrupt.
    case_bool_decide; destruct (request_proofs rs) as [|p ps]; simpl;
      try (case_bool_decide as Hp; simpl); naive_solver.
  - assert (one_interrupt (rs ++ [Mismatched failure])) as Hone'.
    { intros p q. rewrite request_proofs_snoc, app_nil_r. apply Hone. }
    unfold stopped_state. rewrite request_failures_snoc, request_proofs_snoc, app_nil_r.
    rewrite (bool_decide_eq_false_2 ({[failure]} ∪ _ = ∅)) by set_solver.
    case_bool_decide as He; [|done]. rewrite He, union_empty_r_L.
    by destruct (request_proofs rs).
Qed.

Lemma request_stops_Ok id rs a :
  try_fold request_stop rs (mkAttempt id AttemptRunning) = Ok a <->
  one_interrupt rs /\ a = mkAttempt id (stopped_state rs).
Proof.
  revert a. induction rs as [|r rs IH] using rev_ind; intros a.
  { simpl. split; [intros [= <-]; split; [|done]; by intros p q ?%not_elem_of_nil|by intros [_ ->]]. }
  rewrite try_fold_app. split.
  - intros (b & [Hone ->]%IH & Hr)%bind_Ok. simpl in Hr.
    apply bind_Ok in Hr as (a' & Hr & [= <-]). pose proof (request_stop_snoc id rs r Hone) as Hs.
    by rewrite Hr in Hs.
  - intros [Hone ->]. pose proof (one_interrupt_prefix _ _ Hone) as Hpre.
    rewrite (proj2 (IH _) (conj Hpre eq_refl)). simpl.
    pose proof (request_stop_snoc id rs r Hpre) as Hs.
    destruct (request_stop _ r) as [b|e]; simpl; [by destruct Hs as [_ ->]|done].
Qed.

(** From a running attempt, a sequence of stop requests is accepted
    exactly when it names at most one distinct interrupt; the state is then
    the canonical union of its causes, so repetitions and the order of the
    requests do not matter. *)
Theorem stop_requests_union id rs a :
  try_fold request_stop rs (mkAttempt id AttemptRunning) = Ok a <->
  one_interrupt rs /\ a = mkAttempt id (stopped_state rs).
Proof. apply request_stops_Ok. Qed.

Lemma stopped_state_perm rs rs' :
  rs ≡ₚ rs' -> one_interrupt rs -> one_interrupt rs' /\ stopped_state rs' = stopped_state rs.
Proof.
  intros Hp Hone.
  assert (request_proofs rs ≡ₚ request_proofs rs') as Hpp by (unfold request_proofs; by rewrite Hp).
  assert (request_failures rs = request_failures rs') as Hf.
  { unfold request_failures. apply leibniz_equiv. by rewrite Hp. }
  split; [intros p q; rewrite <- !Hpp; apply Hone|].
  unfold stopped_state. rewrite Hf. unfold one_interrupt in Hone.
  destruct (request_proofs rs) as [|p ps] eqn:H1, (request_proofs rs') as [|q qs] eqn:H2; try done.
  - by apply Permutation_nil_l in Hpp.
  - symmetry in Hpp. by apply Permutation_nil_l in Hpp.
  - assert (p = q) as ->; [|done]. apply Hone; [by left|]. rewrite Hpp. by left.
Qed.

(** The order in which stop requests arrive is irrelevant: a permutation
    of an accepted sequence is accepted and leads to the same attempt. *)
Theorem stop_requests_commute id rs rs' a :
  rs ≡ₚ rs' ->
  try_fold request_stop rs (mkAttempt id AttemptRunning) = Ok a ->
  try_fold request_stop rs' (mkAttempt id AttemptRunning) = Ok a.
Proof.
  intros Hp [Hone ->]%request_stops_Ok. apply request_stops_Ok.
  destruct (stopped_state_perm _ _ Hp Hone) as [? ->]. done.
Qed.

(** An attempt ends with exactly the causes that were requested: after a
    mismatch only as a fatal end that retains every mismatch and the
    interrupt, after an interrupt alone only as a cancellation end naming it,
    and with its identity. *)
Theorem ended_attempt_retains_causes id rs a e ended :
  try_fold request_stop rs (mkAttempt id AttemptRunning) = Ok a ->
  end_attempt a e = Ok ended ->
  ended_id ended = id /\ ended_end ended = e /\
  (request_failures rs <> ∅ -> exists disposition causes,
     e = AfterFatalMismatch causes disposition /\ fatal_failures causes = request_failures rs /\
     forall p, fatal_interrupt causes = InterruptApplied p <-> p ∈ request_proofs rs) /\
  (request_failures rs = ∅ -> request_proofs rs <> [] -> exists disposition p,
     e = AfterCancellation p disposition /\ p ∈ request_proofs rs).
Proof.
  intros [Hone ->]%request_stops_Ok. unfold end_attempt. simpl.
  destruct (end_allowed _ e) eqn:Hall; [|done]. intros [= <-]. simpl.
  unfold stopped_state in Hall. split_and!; [done..| |].
  - intros Hne. rewrite bool_decide_eq_false_2 in Hall by done.
    destruct e as [[]|? []|causes disposition]; try done. simpl in Hall.
    apply bool_decide_eq_true in Hall as <-. exists disposition, (mkFatalCauses (request_failures rs)
      match request_proofs rs with [] => NoAppliedInterrupt | proof :: _ => InterruptApplied proof end).
    split_and!; [done..|]. intros p. simpl. unfold one_interrupt in Hone.
    destruct (request_proofs rs) as [|q qs]; [split; [done|]; by intros ?%not_elem_of_nil|].
    split; [intros [= ->]; by left|]. intros Hp. f_equal. apply Hone; [by left|done].
  - intros He Hne. rewrite bool_decide_eq_true_2 in Hall by done.
    destruct (request_proofs rs) as [|p ps]; [done|].
    destruct e as [[]|cause disposition|? []]; try done. simpl in Hall.
    apply bool_decide_eq_true in Hall as <-. exists disposition, p. split; [done|by left].
Qed.

(** ** Witnesses *)

Definition sample_proof : AppliedInterruptProof := mkProof (from_uuid 1) (from_uuid 2).
Definition sample_failure : ProviderTargetMismatchFailureRef :=
  mkFailureRef (NonterminalCallObservation (from_uuid 3)).
Definition sample_stop : CurrentTurnAttempt :=
  mkAttempt (from_uuid 4)
    (StopRequested (FatalMismatch (mkFatalCauses {[ sample_failure ]} (InterruptApplied sample_proof)))).

Lemma sample_stop_reached :
  try_fold request_stop [Interrupted sample_proof; Mismatched sample_failure]
    (mkAttempt (from_uuid 4) AttemptRunning) = Ok sample_stop.
Proof. vm_compute. reflexivity. Defined.

Lemma stop_requests_commute_witness :
  try_fold request_stop [Mismatched sample_failure; Interrupted sample_proof]
    (mkAttempt (from_uuid 4) AttemptRunning) = Ok sample_stop.
Proof.
  exact (stop_requests_commute _ _ _ _ (perm_swap (Mismatched sample_failure) (Interrupted sample_proof) [])
    sample_stop_reached).
Defined.

Lemma ended_attempt_retains_causes_witness :
  exists disposition causes,
    AfterFatalMismatch (mkFatalCauses {[ sample_failure ]} (InterruptApplied sample_proof)) FatalLost
      = AfterFatalMismatch causes disposition /\
    fatal_failures causes = request_failures [Interrupted sample_proof; Mismatched sample_failure] /\
    forall p, fatal_interrupt causes = InterruptApplied p <->
      p ∈ request_proofs [Interrupted sample_proof; Mismatched sample_failure].
Proof.
  refine (proj1 (proj2 (proj2 (ended_attempt_retains_causes _ _ _
    (AfterFatalMismatch (mkFatalCauses {[ sample_failure ]} (InterruptApplied sample_proof)) FatalLost)
    (mkEnded (from_uuid 4) _) sample_stop_reached _))) _).
  - vm_compute. reflexivity.
  - intros Heq. apply (f_equal size) in Heq. vm_compute in Heq. discriminate.
Defined.
