(* ===== verification/Frontier.v ===== *)
(** * Context frontiers

    Model of [crates/domain/src/context_frontier.rs]: the immutable snapshots
    of a session's semantic transcript, their append-only derivation with
    structural sharing, and the comparisons that use the sharing. The
    persistent collections of the [rpds] crate are an interface; so is, for
    the other aggregates, the snapshot itself. *)

From S2P Require Import Prelude.

(** ** Identified values *)

Record ContextFrontier := mkFrontier {
  owning_session : SessionId;
  frontier_snapshot : ContextFrontierId;
}.

Record SemanticTranscriptEntryRef := from_source {
  source_session : SessionId;
  ref_entry : SemanticTranscriptEntryId;
}.

#[export] Instance ContextFrontier_eq_dec : EqDecision ContextFrontier.
Proof. solve_decision. Defined.
#[export] Instance SemanticTranscriptEntryRef_eq_dec : EqDecision SemanticTranscriptEntryRef.
Proof. solve_decision. Defined.
#[export] Instance SemanticTranscriptEntryRef_countable : Countable SemanticTranscriptEntryRef.
Proof.
  apply (inj_countable' (fun r => (source_session r, ref_entry r))
    (fun '(s, e) => from_source s e)). by intros [].
Defined.

(** The address of an [Arc<ContentToken>]: [Arc::ptr_eq] and the raw pointers
    of the validation cache compare addresses. A function that calls
    [Arc::new(ContentToken)] takes the address the allocator returns. *)
Definition ContentToken := positive.

(** ** The [rpds] collections

    [VectorSync], [RedBlackTreeSetSync] and [RedBlackTreeMapSync] at the types
    the module uses them, with their documented behaviour stated through the
    iteration of a vector and the lookups of a set and a map. *)

Class Rpds := {
  vector : Type -> Type;
  vector_new : forall A, vector A;
  vector_push_back : forall A, vector A -> A -> vector A;
  vector_len : forall A, vector A -> nat;
  vector_get : forall A, vector A -> nat -> option A;
  vector_iter : forall A, vector A -> list A;
  vector_eqb : forall A `{EqDecision A}, vector A -> vector A -> bool;
  entry_set : Type;
  entry_set_new : entry_set;
  entry_set_insert : SemanticTranscriptEntryRef -> entry_set -> entry_set;
  entry_set_contains : entry_set -> SemanticTranscriptEntryRef -> bool;
  lineage_map : Type;
  lineage_new : lineage_map;
  lineage_insert : ContextFrontierId -> ContentToken -> lineage_map -> lineage_map;
  lineage_get : lineage_map -> ContextFrontierId -> option ContentToken;
}.
Arguments vector_new {_} A.
Arguments vector_push_back {_ A} v a.
Arguments vector_len {_ A} v.
Arguments vector_get {_ A} v i.
Arguments vector_iter {_ A} v.
Arguments vector_eqb {_ A _} v w.

Class RpdsLaws `{Rpds} : Prop := {
  vector_iter_new A : vector_iter (vector_new A) = [];
  vector_iter_push_back {A} (v : vector A) a :
    vector_iter (vector_push_back v a) = vector_iter v ++ [a];
  vector_len_iter {A} (v : vector A) : vector_len v = length (vector_iter v);
  vector_get_iter {A} (v : vector A) i : vector_get v i = vector_iter v !! i;
  vector_eqb_iter {A} `{EqDecision A} (v w : vector A) :
    vector_eqb v w = bool_decide (vector_iter v = vector_iter w);
  entry_set_contains_new e : entry_set_contains entry_set_new e = false;
  entry_set_contains_insert s e x :
    entry_set_contains (entry_set_insert e s) x = bool_decide (e = x) || entry_set_contains s x;
  lineage_get_new i : lineage_get lineage_new i = None;
  lineage_get_insert m i t j :
    lineage_get (lineage_insert i t m) j = if decide (i = j) then Some t else lineage_get m j;
}.

(** [Extend] and [FromIterator] of a vector push the items in order. *)
Definition vector_extend `{Rpds} {A} (v : vector A) (l : list A) : vector A :=
  foldl vector_push_back v l.
Definition vector_collect `{Rpds} {A} (l : list A) : vector A := vector_extend (vector_new A) l.

(** ** Snapshots *)

Section frontier.
Context `{rpds : Rpds}.

Record FrontierContentNode := mkNode {
  node_ordered_entries : vector SemanticTranscriptEntryRef;
  node_appended_start : nat;
  node_token : ContentToken;
}.

Record FrontierContent := mkContent {
  content_ordered_entries : vector SemanticTranscriptEntryRef;
  membership : entry_set;
  lineage : lineage_map;
  content_token : ContentToken;
  validation_nodes : vector FrontierContentNode;
  immediate_prefix : option ContextFrontier;
  appended_entry_count : nat;
}.

Record ResolvedContextFrontierSnapshot := mkSnapshot {
  frontier : ContextFrontier;
  content : FrontierContent;
}.

Record ReconstitutionContent := mkReconstitutionContent {
  reconstitution_frontier : FrontierContent;
  content_first_duplicate : option SemanticTranscriptEntryRef;
}.

(** The [OnceLock] of materialised entries caches [ordered_entries] and is not
    observable. *)
Record ResolvedContextFrontierReconstitutionInput := mkInput {
  input_owning_session : SessionId;
  input_snapshot : ContextFrontierId;
  input_content : ReconstitutionContent;
}.

(** [fn first_duplicate]: the first entry that [seen.insert] refuses. *)
Fixpoint find_duplicate (seen : gset SemanticTranscriptEntryRef)
    (entries : list SemanticTranscriptEntryRef) : option SemanticTranscriptEntryRef :=
  match entries with
  | [] => None
  | entry :: entries =>
      if bool_decide (entry ∈ seen) then Some entry
      else find_duplicate ({[entry]} ∪ seen) entries
  end.

Definition first_duplicate (entries : list SemanticTranscriptEntryRef) :
    option SemanticTranscriptEntryRef := find_duplicate ∅ entries.

Definition from_distinct (token : ContentToken) (snapshot : ContextFrontierId)
    (ordered_entries : list SemanticTranscriptEntryRef) : FrontierContent :=
  let membership := foldl (fun s e => entry_set_insert e s) entry_set_new ordered_entries in
  let appended_entry_count := length ordered_entries in
  let ordered_entries := vector_collect ordered_entries in
  let node := mkNode ordered_entries 0 token in
  mkContent ordered_entries membership (lineage_insert snapshot token lineage_new) token
    (vector_push_back (vector_new _) node) None appended_entry_count.

(** The loop both reconstitution constructors run over the stored entries. *)
Definition track_duplicate (state : entry_set * option SemanticTranscriptEntryRef)
    (entry : SemanticTranscriptEntryRef) : entry_set * option SemanticTranscriptEntryRef :=
  let '(membership, first_duplicate) := state in
  if bool_decide (first_duplicate = None) && entry_set_contains membership entry
  then (membership, Some entry)
  else (entry_set_insert entry membership, first_duplicate).

Definition from_complete (token : ContentToken) (snapshot : ContextFrontierId)
    (ordered_entries : list SemanticTranscriptEntryRef) : ReconstitutionContent :=
  let '(membership, first_duplicate) :=
    foldl track_duplicate (entry_set_new, None) ordered_entries in
  let c := from_distinct token snapshot ordered_entries in
  mkReconstitutionContent
    (mkContent (content_ordered_entries c) membership (lineage c) (content_token c)
       (validation_nodes c) (immediate_prefix c) (appended_entry_count c))
    first_duplicate.

(** The content both [derive_appending] functions build. *)
Definition extend_content (token : ContentToken) (source : ContextFrontier)
    (c : FrontierContent) (membership : entry_set) (snapshot : ContextFrontierId)
    (appended_entries : list SemanticTranscriptEntryRef) : FrontierContent :=
  let appended_entry_count := length appended_entries in
  let ordered_entries := vector_extend (content_ordered_entries c) appended_entries in
  let node := mkNode ordered_entries (vector_len ordered_entries - appended_entry_count) token in
  mkContent ordered_entries membership (lineage_insert snapshot token (lineage c)) token
    (vector_push_back (validation_nodes c) node) (Some source) appended_entry_count.

Definition reconstitution_derive_appending (token : ContentToken) (c : ReconstitutionContent)
    (owning_session : SessionId) (source_snapshot snapshot : ContextFrontierId)
    (appended_entries : list SemanticTranscriptEntryRef) : ReconstitutionContent :=
  let '(membership, first_duplicate) :=
    foldl track_duplicate (membership (reconstitution_frontier c), content_first_duplicate c)
      appended_entries in
  mkReconstitutionContent
    (extend_content token (mkFrontier owning_session source_snapshot) (reconstitution_frontier c)
       membership snapshot appended_entries)
    first_duplicate.

Definition input_new (token : ContentToken) (owning_session : SessionId)
    (snapshot : ContextFrontierId) (ordered_entries : list SemanticTranscriptEntryRef) :
    ResolvedContextFrontierReconstitutionInput :=
  mkInput owning_session snapshot (from_complete token snapshot ordered_entries).

Definition input_derive_appending (token : ContentToken)
    (self : ResolvedContextFrontierReconstitutionInput) (snapshot : ContextFrontierId)
    (appended_entries : list SemanticTranscriptEntryRef) :
    ResolvedContextFrontierReconstitutionInput :=
  mkInput (input_owning_session self) snapshot
    (reconstitution_derive_appending token (input_content self) (input_owning_session self)
       (input_snapshot self) snapshot appended_entries).

Definition input_ordered_entries (self : ResolvedContextFrontierReconstitutionInput) :
    list SemanticTranscriptEntryRef :=
  vector_iter (content_ordered_entries (reconstitution_frontier (input_content self))).

Record ContextFrontierSnapshotConstructionError := mkConstructionError {
  rejected_owning_session : SessionId;
  rejected_snapshot : ContextFrontierId;
  rejected_ordered_entries : list SemanticTranscriptEntryRef;
  rejected_duplicate : SemanticTranscriptEntryRef;
}.

Definition try_from_candidate (token : ContentToken) (owning_session : SessionId)
    (snapshot : ContextFrontierId) (ordered_entries : list SemanticTranscriptEntryRef) :
    result ContextFrontierSnapshotConstructionError ResolvedContextFrontierSnapshot :=
  match first_duplicate ordered_entries with
  | Some duplicate => Err (mkConstructionError owning_session snapshot ordered_entries duplicate)
  | None => Ok (mkSnapshot (mkFrontier owning_session snapshot)
                  (from_distinct token snapshot ordered_entries))
  end.

Definition try_from_reconstitution_input (input : ResolvedContextFrontierReconstitutionInput) :
    result ContextFrontierSnapshotConstructionError ResolvedContextFrontierSnapshot :=
  match content_first_duplicate (input_content input) with
  | Some duplicate =>
      Err (mkConstructionError (input_owning_session input) (input_snapshot input)
             (input_ordered_entries input) duplicate)
  | None => Ok (mkSnapshot (mkFrontier (input_owning_session input) (input_snapshot input))
                  (reconstitution_frontier (input_content input)))
  end.

(** [ResolvedContextFrontierReconstitutionInput::reconstitute] *)
Definition input_reconstitute (input : ResolvedContextFrontierReconstitutionInput) :
    option ResolvedContextFrontierSnapshot :=
  match try_from_reconstitution_input input with Ok s => Some s | Err _ => None end.

(** ** Derivation *)

Inductive ContextFrontierSnapshotDerivationRejection :=
| ReusedSourceSnapshotIdentity
| DuplicateEntry (entry : SemanticTranscriptEntryRef).

Record ContextFrontierSnapshotDerivationError := mkDerivationError {
  rejected_next_snapshot : ContextFrontierId;
  rejected_appended_entries : list SemanticTranscriptEntryRef;
  derivation_rejection : ContextFrontierSnapshotDerivationRejection;
}.

(** The [find] closure that inserts every new entry into the copied set. *)
Fixpoint find_appended_duplicate (membership : entry_set)
    (appended_entries : list SemanticTranscriptEntryRef) :
    option SemanticTranscriptEntryRef * entry_set :=
  match appended_entries with
  | [] => (None, membership)
  | entry :: appended_entries =>
      if entry_set_contains membership entry then (Some entry, membership)
      else find_appended_duplicate (entry_set_insert entry membership) appended_entries
  end.

Definition derive_appending_candidate (token : ContentToken)
    (self : ResolvedContextFrontierSnapshot) (next_snapshot : ContextFrontierId)
    (appended_entries : list SemanticTranscriptEntryRef) :
    result ContextFrontierSnapshotDerivationError ResolvedContextFrontierSnapshot :=
  if bool_decide (next_snapshot = frontier_snapshot (frontier self)) then
    Err (mkDerivationError next_snapshot appended_entries ReusedSourceSnapshotIdentity)
  else
  let '(duplicate, membership) :=
    find_appended_duplicate (membership (content self)) appended_entries in
  match duplicate with
  | Some entry =>
      Err (mkDerivationError next_snapshot appended_entries (DuplicateEntry entry))
  | None =>
      Ok (mkSnapshot (mkFrontier (owning_session (frontier self)) next_snapshot)
            (extend_content token (frontier self) (content self) membership next_snapshot
               appended_entries))
  end.

(** ** Projections and comparisons *)

Definition entry_count (self : ResolvedContextFrontierSnapshot) : nat :=
  vector_len (content_ordered_entries (content self)).

Definition ordered_entries (self : ResolvedContextFrontierSnapshot) :
    list SemanticTranscriptEntryRef := vector_iter (content_ordered_entries (content self)).

Definition is_shared_prefix_of (self : FrontierContent) (snapshot : ContextFrontierId)
    (token : ContentToken) (later : FrontierContent) : bool :=
  (vector_len (content_ordered_entries self) <=? vector_len (content_ordered_entries later))
  && match lineage_get (lineage later) snapshot with
     | Some later_token => bool_decide (token = later_token)
     | None => false
     end.

Definition same_semantic_content (self other : ResolvedContextFrontierSnapshot) : bool :=
  ((entry_count self =? entry_count other)
   && (is_shared_prefix_of (content self) (frontier_snapshot (frontier self))
         (content_token (content self)) (content other)
       || is_shared_prefix_of (content other) (frontier_snapshot (frontier other))
            (content_token (content other)) (content self)))
  || vector_eqb (content_ordered_entries (content self)) (content_ordered_entries (content other)).

Definition is_semantic_prefix_of (self later : ResolvedContextFrontierSnapshot) : bool :=
  if is_shared_prefix_of (content self) (frontier_snapshot (frontier self))
       (content_token (content self)) (content later) then true else
  if entry_count later <? entry_count self then false else
  bool_decide (ordered_entries self = take (entry_count self) (ordered_entries later)).

Definition immediate_semantic_prefix (self : ResolvedContextFrontierSnapshot) :
    option ContextFrontier := immediate_prefix (content self).

Definition has_semantic_prefix_and_suffix (self prefix : ResolvedContextFrontierSnapshot)
    (suffix : list SemanticTranscriptEntryRef) : bool :=
  if negb (is_semantic_prefix_of prefix self)
     || negb (entry_count self =? entry_count prefix + length suffix) then false else
  forallb (fun '(offset, expected) =>
    match vector_get (content_ordered_entries (content self)) (entry_count prefix + offset) with
    | Some actual => bool_decide (actual = expected)
    | None => false
    end) (imap pair suffix).

(** [PartialEq for ResolvedContextFrontierSnapshot] *)
Definition snapshot_eqb (self other : ResolvedContextFrontierSnapshot) : bool :=
  bool_decide (frontier self = frontier other)
  && vector_eqb (content_ordered_entries (content self)) (content_ordered_entries (content other)).

(** ** [FrontierEntryRange] *)

Record FrontierEntryRange := mkRange {
  range_entries : vector SemanticTranscriptEntryRef;
  range_front : nat;
  range_back : nat;
}.

Definition range_next (r : FrontierEntryRange) :
    option SemanticTranscriptEntryRef * FrontierEntryRange :=
  if range_front r =? range_back r then (None, r) else
  match vector_get (range_entries r) (range_front r) with
  | Some entry => (Some entry, mkRange (range_entries r) (S (range_front r)) (range_back r))
  | None => (None, r)
  end.

Definition range_next_back (r : FrontierEntryRange) :
    option SemanticTranscriptEntryRef * FrontierEntryRange :=
  if range_front r =? range_back r then (None, r) else
  let back := range_back r - 1 in
  (vector_get (range_entries r) back, mkRange (range_entries r) (range_front r) back).

(** A [for] loop over a range calls [next] until it returns [None]; it runs at
    most [fuel] times. *)
Fixpoint range_collect (fuel : nat) (r : FrontierEntryRange) : list SemanticTranscriptEntryRef :=
  match fuel with
  | 0 => []
  | S fuel =>
      match range_next r with
      | (Some entry, r) => entry :: range_collect fuel r
      | (None, _) => []
      end
  end.

(** [size_hint]: the number of remaining items, which bounds the calls. *)
Definition range_remaining (r : FrontierEntryRange) : nat := range_back r - range_front r.

Definition range_items (r : FrontierEntryRange) : list SemanticTranscriptEntryRef :=
  range_collect (S (range_remaining r)) r.

Definition ordered_entries_range (self : ResolvedContextFrontierSnapshot) (start end_ : nat) :
    list SemanticTranscriptEntryRef :=
  range_items (mkRange (content_ordered_entries (content self)) start end_).

Definition appended_entries (self : ResolvedContextFrontierSnapshot) :
    list SemanticTranscriptEntryRef :=
  let start := entry_count self - appended_entry_count (content self) in
  ordered_entries_range self start (entry_count self).

(** ** Existence of the referenced entries *)

(** [ContextFrontierEntryValidationCache]: the addresses of validated nodes. *)
Definition ValidationCache := gset ContentToken.

(** The first loop of [first_missing_entry], over the nodes from the newest:
    collect until a validated one. *)
Fixpoint unvalidated_nodes (validated : ValidationCache) (nodes : list FrontierContentNode) :
    list FrontierContentNode :=
  match nodes with
  | [] => []
  | node :: nodes =>
      if bool_decide (node_token node ∈ validated) then []
      else node :: unvalidated_nodes validated nodes
  end.

Definition node_appended_entries (node : FrontierContentNode) : list SemanticTranscriptEntryRef :=
  range_items (mkRange (node_ordered_entries node) (node_appended_start node)
    (vector_len (node_ordered_entries node))).

(** The second loop: check the entries each node appended, oldest first. *)
Fixpoint validate_nodes (contains : SemanticTranscriptEntryRef -> bool)
    (validated : ValidationCache) (nodes : list FrontierContentNode) :
    option SemanticTranscriptEntryRef * ValidationCache :=
  match nodes with
  | [] => (None, validated)
  | node :: nodes =>
      match find (fun entry => negb (contains entry)) (node_appended_entries node) with
      | Some entry => (Some entry, validated)
      | None => validate_nodes contains ({[node_token node]} ∪ validated) nodes
      end
  end.

Definition first_missing_entry (self : ResolvedContextFrontierReconstitutionInput)
    (validation : ValidationCache) (contains : SemanticTranscriptEntryRef -> bool) :
    option SemanticTranscriptEntryRef * ValidationCache :=
  let nodes := vector_iter (validation_nodes (reconstitution_frontier (input_content self))) in
  validate_nodes contains validation (reverse (unvalidated_nodes validation (reverse nodes))).
End frontier.

(** ** What other aggregates use of a snapshot *)

Class ContextSnapshots (S : Type) := {
  snapshot_frontier : S -> ContextFrontier;
  snapshot_entries : S -> list SemanticTranscriptEntryRef;
  snapshot_derive : ContentToken -> S -> ContextFrontierId -> list SemanticTranscriptEntryRef ->
    result ContextFrontierSnapshotDerivationError S;
  snapshot_wf : S -> Prop;
}.

Class ContextSnapshotsLaws (S : Type) `{ContextSnapshots S} : Prop := {
  snapshot_entries_NoDup (s : S) : snapshot_wf s -> NoDup (snapshot_entries s);
  snapshot_derive_exact token (s s' : S) next appended :
    snapshot_wf s ->
    snapshot_derive token s next appended = Ok s' ->
    snapshot_wf s' /\ snapshot_frontier s' = mkFrontier (owning_session (snapshot_frontier s)) next /\
    snapshot_entries s' = snapshot_entries s ++ appended;
  snapshot_derive_total token (s : S) next appended :
    snapshot_wf s ->
    (exists s', snapshot_derive token s next appended = Ok s') <->
    next <> frontier_snapshot (snapshot_frontier s) /\ NoDup (snapshot_entries s ++ appended);
}.

(** A fresh snapshot of given entries, and the form a snapshot is stored in. *)
Class SnapshotCandidates (S : Type) `{ContextSnapshots S} :=
  snapshot_candidate : ContentToken -> SessionId -> ContextFrontierId ->
    list SemanticTranscriptEntryRef -> result ContextFrontierSnapshotConstructionError S.

Class SnapshotCandidatesLaws (S : Type) `{SnapshotCandidates S} : Prop := {
  snapshot_candidate_exact token owner identity entries (s : S) :
    snapshot_candidate token owner identity entries = Ok s ->
    snapshot_wf s /\ snapshot_frontier s = mkFrontier owner identity
    /\ snapshot_entries s = entries;
  snapshot_candidate_total token owner identity entries :
    (exists s : S, snapshot_candidate token owner identity entries = Ok s) <-> NoDup entries;
}.

Class StoredSnapshots (S I : Type) := {
  stored_owner : I -> SessionId;
  stored_identity : I -> ContextFrontierId;
  stored_entries : I -> list SemanticTranscriptEntryRef;
  stored_reconstitute : I -> option S;
  stored_wf : I -> Prop;
}.

Class StoredSnapshotsLaws (S I : Type) `{ContextSnapshots S, !StoredSnapshots S I} : Prop := {
  stored_reconstitute_exact (stored : I) (s : S) :
    stored_wf stored -> stored_reconstitute stored = Some s ->
    snapshot_wf s /\ snapshot_frontier s = mkFrontier (stored_owner stored) (stored_identity stored)
    /\ snapshot_entries s = stored_entries stored;
  stored_reconstitute_total (stored : I) :
    stored_wf stored ->
    (exists s : S, stored_reconstitute stored = Some s) <-> NoDup (stored_entries stored);
}.

(** A snapshot known by its frontier only. *)
Definition frontier_only : ContextSnapshots ContextFrontier := {|
  snapshot_frontier := id;
  snapshot_entries _ := [];
  snapshot_derive _ f next _ := Ok (mkFrontier (owning_session f) next);
  snapshot_wf _ := True;
|}.
