(* ===== verification/FrontierSpec.v ===== *)
(** * What context frontiers promise

    The values of the module share structure through reference-counted
    tokens. This file states the histories in which such values are built,
    cloned and dropped while the allocator may reuse the addresses of dropped
    tokens, and proves that the comparisons and the validation cache, which
    look at addresses, agree with the plain comparison of ordered entries. *)

From S2P Require Import Prelude Frontier.

(** ** A reference instance of the collections *)

#[export] Instance reference_rpds : Rpds := {|
  vector := list;
  vector_new A := [];
  vector_push_back A v a := v ++ [a];
  vector_len A v := length v;
  vector_get A v i := v !! i;
  vector_iter A v := v;
  vector_eqb A eqd v w := bool_decide (v = w);
  entry_set := gset SemanticTranscriptEntryRef;
  entry_set_new := ∅;
  entry_set_insert e s := {[e]} ∪ s;
  entry_set_contains s e := bool_decide (e ∈ s);
  lineage_map := gmap ContextFrontierId ContentToken;
  lineage_new := ∅;
  lineage_insert i t m := <[i:=t]> m;
  lineage_get m i := m !! i;
|}.

#[export] Instance reference_rpds_laws : RpdsLaws.
Proof.
  split; simpl; try done.
  - intros s e x. rewrite <- bool_decide_or. apply bool_decide_ext. set_solver.
  - intros m i t j. case_decide as Hij; [subst; apply lookup_insert_eq|by apply lookup_insert_ne].
Qed.

(** ** Lists of distinct entries *)

Lemma find_duplicate_None seen l :
  find_duplicate seen l = None <-> NoDup l /\ (forall x, x ∈ l -> x ∉ seen).
Proof.
  revert seen. induction l as [|y l IH]; intros seen; simpl.
  - split; [|done]. intros _. split; [constructor|set_solver].
  - rewrite NoDup_cons. setoid_rewrite elem_of_cons. case_bool_decide as Hy; [naive_solver|].
    rewrite IH. set_solver.
Qed.

Lemma find_duplicate_Some seen l x :
  find_duplicate seen l = Some x <->
  exists l1 l2, l = l1 ++ x :: l2 /\ NoDup l1 /\ (forall y, y ∈ l1 -> y ∉ seen) /\ (x ∈ seen \/ x ∈ l1).
Proof.
  revert seen. induction l as [|y l IH]; intros seen; simpl.
  - split; [done|]. intros (l1 & l2 & Hl & _). by destruct l1.
  - case_bool_decide as Hy.
    + split.
      * intros [= ->]. exists [], l. split_and!; [done|constructor|set_solver|by left].
      * intros ([|z l1] & l2 & [= -> ->] & _ & Hs & _); [done|]. destruct (Hs z); [left|done].
    + rewrite IH. split.
      * intros (l1 & l2 & -> & Hnd & Hs & Hx). exists (y :: l1), l2. rewrite NoDup_cons. set_solver.
      * intros ([|z l1] & l2 & [= -> ->] & Hnd & Hs & Hx); [set_solver|].
        apply NoDup_cons in Hnd as [Hz Hnd]. exists l1, l2. set_solver.
Qed.

Lemma first_duplicate_None l : first_duplicate l = None <-> NoDup l.
Proof. unfold first_duplicate. rewrite find_duplicate_None. set_solver. Qed.

Definition duplicates (l : list SemanticTranscriptEntryRef) (x : SemanticTranscriptEntryRef) : Prop :=
  exists l1 l2, l = l1 ++ x :: l2 /\ NoDup l1 /\ x ∈ l1.

Lemma first_duplicate_Some l x : first_duplicate l = Some x <-> duplicates l x.
Proof.
  unfold first_duplicate, duplicates. rewrite find_duplicate_Some. split.
  - intros (l1 & l2 & -> & Hnd & _ & [[]%not_elem_of_empty|Hx]). by exists l1, l2.
  - intros (l1 & l2 & -> & Hnd & Hx). exists l1, l2. set_solver.
Qed.

Lemma find_duplicate_app seen l1 l2 :
  find_duplicate seen (l1 ++ l2) =
  match find_duplicate seen l1 with
  | Some x => Some x
  | None => find_duplicate (list_to_set l1 ∪ seen) l2
  end.
Proof.
  revert seen. induction l1 as [|y l1 IH]; intros seen; simpl.
  - f_equal. set_solver.
  - case_bool_decide; [done|]. rewrite IH. destruct (find_duplicate _ l1); [done|].
    f_equal. set_solver.
Qed.

(** ** Vectors and ranges *)

Section collections.
Context {rpds : Rpds} {laws : RpdsLaws}.

Lemma vector_iter_extend {A} (v : vector A) l : vector_iter (vector_extend v l) = vector_iter v ++ l.
Proof.
  unfold vector_extend. revert v. induction l as [|x l IH]; intros v; simpl; [by rewrite app_nil_r|].
  rewrite IH, vector_iter_push_back. by rewrite <- app_assoc.
Qed.

Lemma vector_iter_collect {A} (l : list A) : vector_iter (vector_collect l) = l.
Proof. unfold vector_collect. by rewrite vector_iter_extend, vector_iter_new. Qed.

Lemma range_collect_spec v i j fuel :
  j <= length (vector_iter v) -> j - i < fuel -> i <= j ->
  range_collect fuel (mkRange v i j) = take (j - i) (drop i (vector_iter v)).
Proof.
  revert i. induction fuel as [|fuel IH]; intros i Hj Hf Hij; [lia|]. simpl.
  unfold range_next. simpl. destruct (Nat.eqb_spec i j) as [->|Hne].
  - by rewrite Nat.sub_diag, take_0.
  - rewrite vector_get_iter. destruct (vector_iter v !! i) as [x|] eqn:Hx.
    2: { apply lookup_ge_None in Hx. lia. }
    rewrite IH by lia. rewrite (drop_S _ x i) by done.
    replace (j - i) with (S (j - S i)) by lia. done.
Qed.

(** Iterating a range yields the entries between its ends. *)
Lemma range_items_spec v i j :
  i <= j <= length (vector_iter v) ->
  range_items (mkRange v i j) = take (j - i) (drop i (vector_iter v)).
Proof. intros. apply range_collect_spec; unfold range_remaining; simpl; lia. Qed.

Lemma range_items_suffix v l1 l2 :
  vector_iter v = l1 ++ l2 -> range_items (mkRange v (length l1) (vector_len v)) = l2.
Proof.
  intros Hv. rewrite vector_len_iter, range_items_spec; rewrite Hv, length_app; [|lia].
  rewrite drop_app_length. apply take_ge. lia.
Qed.

(** ** Contents *)

Abbreviation entries_of c := (vector_iter (content_ordered_entries c)).
Abbreviation nodes_of c := (vector_iter (validation_nodes c)).
Abbreviation node_entries n := (vector_iter (node_ordered_entries n)).

(** The nodes partition the entries: each one holds the complete entries up to
    its own and remembers where its own start. *)
Inductive node_chain : list SemanticTranscriptEntryRef -> list FrontierContentNode ->
    list SemanticTranscriptEntryRef -> Prop :=
| chain_nil l : node_chain l [] l
| chain_cons l n ns l' appended :
    node_entries n = l ++ appended -> node_appended_start n = length l ->
    node_chain (node_entries n) ns l' -> node_chain l (n :: ns) l'.

Lemma node_chain_app l ns1 ns2 l' :
  node_chain l (ns1 ++ ns2) l' <-> exists l1, node_chain l ns1 l1 /\ node_chain l1 ns2 l'.
Proof.
  revert l. induction ns1 as [|n ns1 IH]; intros l; simpl.
  - split; [intros H; exists l; split; [constructor|done]|].
    intros (l1 & H1 & H2). by inversion H1; subst.
  - split.
    + inversion 1 as [|? ? ? ? app Ha Hs Hc]; subst. apply IH in Hc as (l1 & H1 & H2).
      exists l1. split; [by eapply chain_cons|done].
    + intros (l1 & H1 & H2). inversion H1 as [|? ? ? ? app Ha Hs Hc]; subst.
      eapply chain_cons; [done..|]. apply IH. eauto.
Qed.

Lemma node_chain_last l ns n l' : node_chain l (ns ++ [n]) l' -> node_entries n = l'.
Proof.
  rewrite node_chain_app. intros (l1 & _ & H).
  inversion H as [|? ? ? ? app Ha Hs Hc]; subst. by inversion Hc.
Qed.

Record content_wf (c : FrontierContent) : Prop := {
  wf_membership x : entry_set_contains (membership c) x = bool_decide (x ∈ entries_of c);
  wf_nodes : node_chain [] (nodes_of c) (entries_of c);
  wf_appended : appended_entry_count c <= length (entries_of c);
}.

Lemma entry_set_contains_foldl s l x :
  entry_set_contains (foldl (fun s e => entry_set_insert e s) s l) x =
  entry_set_contains s x || bool_decide (x ∈ l).
Proof.
  revert s. induction l as [|y l IH]; intros s; cbn [foldl].
  - case_bool_decide; [set_solver|by rewrite orb_false_r].
  - rewrite IH, entry_set_contains_insert.
    rewrite (orb_comm (bool_decide _)), <- orb_assoc, <- bool_decide_or. f_equal.
    apply bool_decide_ext. set_solver.
Qed.

Lemma from_distinct_entries token i l : entries_of (from_distinct token i l) = l.
Proof. apply vector_iter_collect. Qed.

Lemma from_distinct_nodes token i l :
  nodes_of (from_distinct token i l) = [mkNode (vector_collect l) 0 token].
Proof. simpl. by rewrite vector_iter_push_back, vector_iter_new. Qed.

Lemma single_node_chain token l : node_chain [] [mkNode (vector_collect l) 0 token] l.
Proof.
  apply (chain_cons [] _ _ _ l); [apply vector_iter_collect|done|]. simpl.
  rewrite vector_iter_collect. constructor.
Qed.

Lemma from_distinct_wf token i l : content_wf (from_distinct token i l).
Proof.
  split.
  - intros x. rewrite from_distinct_entries. simpl.
    by rewrite entry_set_contains_foldl, entry_set_contains_new.
  - rewrite from_distinct_nodes, from_distinct_entries. apply single_node_chain.
  - by rewrite from_distinct_entries.
Qed.

Lemma extend_content_entries token src c m i l :
  entries_of (extend_content token src c m i l) = entries_of c ++ l.
Proof. apply vector_iter_extend. Qed.

Lemma extend_content_nodes token src c m i l :
  nodes_of (extend_content token src c m i l) =
  nodes_of c ++ [mkNode (vector_extend (content_ordered_entries c) l) (length (entries_of c)) token].
Proof.
  simpl. rewrite vector_iter_push_back, vector_len_iter, vector_iter_extend, length_app.
  by replace (length (entries_of c) + length l - length l) with (length (entries_of c)) by lia.
Qed.

Lemma extend_content_wf token src c m i l :
  content_wf c ->
  (forall x, entry_set_contains m x = bool_decide (x ∈ entries_of c ++ l)) ->
  content_wf (extend_content token src c m i l).
Proof.
  intros Hc Hm. split.
  - intros x. rewrite extend_content_entries. apply Hm.
  - rewrite extend_content_nodes, extend_content_entries. apply node_chain_app.
    exists (entries_of c). split; [apply Hc|]. econstructor; [apply vector_iter_extend|done|].
    simpl. rewrite vector_iter_extend. constructor.
  - rewrite extend_content_entries, length_app. simpl. lia.
Qed.

Lemma find_appended_duplicate_spec m l seen :
  (forall x, entry_set_contains m x = bool_decide (x ∈ seen)) ->
  (find_appended_duplicate m l).1 = find_duplicate seen l /\
  (find_duplicate seen l = None -> forall x,
    entry_set_contains (find_appended_duplicate m l).2 x = bool_decide (x ∈ seen \/ x ∈ l)).
Proof.
  revert m seen. induction l as [|y l IH]; intros m seen Hm; simpl.
  - split; [done|]. intros _ x. rewrite Hm. apply bool_decide_ext. set_solver.
  - rewrite Hm. case_bool_decide as Hy; [done|].
    destruct (IH (entry_set_insert y m) ({[y]} ∪ seen)) as [H1 H2].
    { intros x. rewrite entry_set_contains_insert, Hm, <- bool_decide_or.
      apply bool_decide_ext. set_solver. }
    split; [done|]. intros Hn x. rewrite H2 by done. apply bool_decide_ext. set_solver.
Qed.

Lemma track_duplicate_spec m d l l0 :
  (forall x, entry_set_contains m x = bool_decide (x ∈ l0)) -> d = first_duplicate l0 ->
  (forall x, entry_set_contains (foldl track_duplicate (m, d) l).1 x = bool_decide (x ∈ l0 ++ l)) /\
  (foldl track_duplicate (m, d) l).2 = first_duplicate (l0 ++ l).
Proof.
  revert m d l0. induction l as [|y l IH]; intros m d l0 Hm Hd.
  - by rewrite app_nil_r.
  - replace (l0 ++ y :: l) with ((l0 ++ [y]) ++ l) by by rewrite <- app_assoc.
    assert (first_duplicate (l0 ++ [y]) =
      match d with Some x => Some x
      | None => if entry_set_contains m y then Some y else None end) as Hd'.
    { rewrite Hd. unfold first_duplicate. rewrite find_duplicate_app. simpl.
      destruct (find_duplicate ∅ l0); [done|]. rewrite Hm.
      by rewrite (bool_decide_ext (y ∈ list_to_set l0 ∪ ∅) (y ∈ l0)) by set_solver. }
    simpl. destruct (bool_decide (d = None) && entry_set_contains m y) eqn:Hb.
    + apply andb_prop in Hb as [->%bool_decide_eq_true_1 Hy]. apply IH; [|by rewrite Hd', Hy].
      intros x. rewrite Hm in Hy |- *. apply bool_decide_eq_true_1 in Hy.
      apply bool_decide_ext. set_solver.
    + apply IH.
      * intros x. rewrite entry_set_contains_insert, Hm, <- bool_decide_or.
        apply bool_decide_ext. set_solver.
      * rewrite Hd'. destruct d; [done|]. simpl in Hb. by rewrite Hb.
Qed.

(** ** Histories of live values

    The pool holds the values that are alive. A constructor receives an address
    no live token has, while the addresses of dropped values may return; a
    clone is the same value. *)

Inductive frontier_value :=
| InputValue (i : ResolvedContextFrontierReconstitutionInput)
| SnapshotValue (s : ResolvedContextFrontierSnapshot).

Definition value_content (v : frontier_value) : FrontierContent :=
  match v with
  | InputValue i => reconstitution_frontier (input_content i)
  | SnapshotValue s => content s
  end.
Definition value_identity (v : frontier_value) : ContextFrontierId :=
  match v with
  | InputValue i => input_snapshot i
  | SnapshotValue s => frontier_snapshot (frontier s)
  end.

Abbreviation value_entries v := (entries_of (value_content v)).

Definition token_unused (token : ContentToken) (c : FrontierContent) : Prop :=
  token <> content_token c /\ (forall i, lineage_get (lineage c) i <> Some token) /\
  forall n, n ∈ nodes_of c -> node_token n <> token.

Definition unallocated (token : ContentToken) (pool : list frontier_value) : Prop :=
  forall v, v ∈ pool -> token_unused token (value_content v).

Inductive pool_step : relation (list frontier_value) :=
| step_input_new token owner i l pool :
    unallocated token pool ->
    pool_step pool (InputValue (input_new token owner i l) :: pool)
| step_input_derive token input i l pool :
    unallocated token pool -> InputValue input ∈ pool ->
    pool_step pool (InputValue (input_derive_appending token input i l) :: pool)
| step_reconstitute input s pool :
    InputValue input ∈ pool -> input_reconstitute input = Some s ->
    pool_step pool (SnapshotValue s :: pool)
| step_candidate token owner i l s pool :
    unallocated token pool -> try_from_candidate token owner i l = Ok s ->
    pool_step pool (SnapshotValue s :: pool)
| step_derive token source i l s pool :
    unallocated token pool -> SnapshotValue source ∈ pool ->
    derive_appending_candidate token source i l = Ok s ->
    pool_step pool (SnapshotValue s :: pool)
| step_drop pool1 v pool2 : pool_step (pool1 ++ v :: pool2) (pool1 ++ pool2).

Definition live_pool (pool : list frontier_value) : Prop := rtc pool_step [] pool.

Definition value_wf (v : frontier_value) : Prop :=
  content_wf (value_content v) /\
  match v with
  | InputValue i => content_first_duplicate (input_content i) = first_duplicate (value_entries v)
  | SnapshotValue _ => NoDup (value_entries v)
  end.

Record pool_inv (pool : list frontier_value) : Prop := {
  inv_wf v : v ∈ pool -> value_wf v;
  inv_shared v w : v ∈ pool -> w ∈ pool ->
    lineage_get (lineage (value_content w)) (value_identity v)
    = Some (content_token (value_content v)) ->
    value_entries v `prefix_of` value_entries w;
  inv_nodes v w n m : v ∈ pool -> w ∈ pool ->
    n ∈ nodes_of (value_content v) -> m ∈ nodes_of (value_content w) ->
    node_token n = node_token m -> node_entries n = node_entries m;
}.

(** What is new in a content built with a fresh token. *)
Record grows (pool : list frontier_value) (token : ContentToken) (i : ContextFrontierId)
    (c : FrontierContent) : Prop := {
  grows_token : content_token c = token;
  grows_lineage j t : lineage_get (lineage c) j = Some t ->
    t = token /\ j = i \/
    exists v, v ∈ pool /\ lineage_get (lineage (value_content v)) j = Some t /\
      value_entries v `prefix_of` entries_of c;
  grows_nodes n : n ∈ nodes_of c ->
    node_token n = token /\ node_entries n = entries_of c \/
    exists v, v ∈ pool /\ n ∈ nodes_of (value_content v);
}.

Lemma pool_inv_add token pool u :
  pool_inv pool -> unallocated token pool -> grows pool token (value_identity u) (value_content u) ->
  value_wf u -> pool_inv (u :: pool).
Proof.
  intros Hp Hf Hg Hu. split.
  - intros v [->|Hv]%elem_of_cons; [done|by apply Hp].
  - intros v w [->|Hv]%elem_of_cons [->|Hw]%elem_of_cons Hl; [done| | |by eapply inv_shared].
    + rewrite (grows_token _ _ _ _ Hg) in Hl. destruct (Hf w Hw) as (_ & Hn & _). by destruct (Hn _ Hl).
    + apply (grows_lineage _ _ _ _ Hg) in Hl as [[Ht _]|(x & Hx & Hl & Hpre)].
      * by destruct (Hf v Hv) as [[] _].
      * etrans; [by apply (inv_shared _ Hp v x)|done].
  - assert (forall v n m, v ∈ pool -> n ∈ nodes_of (value_content u) ->
      m ∈ nodes_of (value_content v) -> node_token n = node_token m ->
      node_entries n = node_entries m) as Hold.
    { intros v n m Hv Hn Hm Ht. apply (grows_nodes _ _ _ _ Hg) in Hn as [[Hn _]|(x & Hx & Hn)].
      - destruct (Hf v Hv) as (_ & _ & Hno). destruct (Hno m Hm). by rewrite <- Ht.
      - by apply (inv_nodes _ Hp x v). }
    intros v w n m [->|Hv]%elem_of_cons [->|Hw]%elem_of_cons Hn Hm Ht.
    + apply (grows_nodes _ _ _ _ Hg) in Hn as Hn'. destruct Hn' as [[Hn' He]|(x & Hx & Hn')].
      * apply (grows_nodes _ _ _ _ Hg) in Hm as [[_ He']|(y & Hy & Hm)]; [congruence|].
        by apply (Hold y n m).
      * symmetry. by apply (Hold x m n).
    + by apply (Hold w).
    + symmetry. by apply (Hold v).
    + by apply (inv_nodes _ Hp v w).
Qed.

Lemma grows_distinct pool token i l : grows pool token i (from_distinct token i l).
Proof.
  split; [done| |].
  - intros j t. simpl. rewrite lineage_get_insert, lineage_get_new. case_decide; [|done].
    intros [= <-]. by left.
  - intros n. rewrite from_distinct_nodes, from_distinct_entries, list_elem_of_singleton.
    intros ->. left. split; [done|]. apply vector_iter_collect.
Qed.

Lemma grows_extend pool token src v m i l :
  v ∈ pool -> grows pool token i (extend_content token src (value_content v) m i l).
Proof.
  intros Hv. split; [done| |].
  - intros j t. simpl. rewrite lineage_get_insert. case_decide as Hj; [intros [= <-]; by left|].
    intros Hl. right. exists v. split_and!; [done..|]. rewrite vector_iter_extend. by eexists.
  - intros n. rewrite extend_content_nodes, elem_of_snoc.
    intros [Hn| ->]; [right; by exists v|left]. split; [done|].
    rewrite extend_content_entries. apply vector_iter_extend.
Qed.

Lemma from_complete_wf token owner i l : value_wf (InputValue (input_new token owner i l)).
Proof.
  unfold value_wf, input_new, from_complete. simpl.
  destruct (foldl track_duplicate _ l) as [m d] eqn:Hf.
  destruct (track_duplicate_spec entry_set_new None l []) as [Hm Hd]; [|done|].
  { intros x. apply entry_set_contains_new. }
  rewrite Hf in Hm, Hd. simpl in *. pose proof (from_distinct_wf token i l) as Hc.
  rewrite <- (from_distinct_entries token i l) in Hm, Hd. split; [|done].
  split; [done|apply Hc..].
Qed.

Lemma input_derive_wf token input i l :
  value_wf (InputValue input) -> value_wf (InputValue (input_derive_appending token input i l)).
Proof.
  intros [Hc Hd]. unfold input_derive_appending, reconstitution_derive_appending, value_wf in *.
  simpl in *. destruct (foldl track_duplicate _ l) as [m d] eqn:Hf.
  destruct (track_duplicate_spec _ _ l _ (wf_membership _ Hc) Hd) as [Hm Hd'].
  rewrite Hf in Hm, Hd'. simpl in *. split; [by apply extend_content_wf|].
  by rewrite vector_iter_extend.
Qed.

Lemma derive_candidate_inv token s i l s' :
  derive_appending_candidate token s i l = Ok s' -> value_wf (SnapshotValue s) ->
  (i <> frontier_snapshot (frontier s)) /\ value_wf (SnapshotValue s') /\
  frontier s' = mkFrontier (owning_session (frontier s)) i /\
  exists m, content s' = extend_content token (frontier s) (content s) m i l.
Proof.
  unfold derive_appending_candidate. case_bool_decide as Hi; [done|]. intros H [Hc Hnd]. simpl in *.
  destruct (find_appended_duplicate_spec (membership (content s)) l (list_to_set (ordered_entries s)))
    as [H1 H2].
  { intros x. rewrite (wf_membership _ Hc). apply bool_decide_ext.
    unfold ordered_entries. set_solver. }
  destruct (find_appended_duplicate _ l) as [[e|] m]; [done|]. injection H as <-. simpl in *.
  specialize (H2 (eq_sym H1)). symmetry in H1. apply find_duplicate_None in H1 as [Hl Hdis].
  split_and!; [done| |done|by eexists]. split; simpl.
  - apply extend_content_wf; [done|]. intros x. rewrite H2. apply bool_decide_ext.
    unfold ordered_entries. set_solver.
  - rewrite vector_iter_extend. apply NoDup_app. split_and!; [done| |done].
    intros x Hx Hx'. apply (Hdis x Hx'). unfold ordered_entries. set_solver.
Qed.

Lemma candidate_inv token owner i l s :
  try_from_candidate token owner i l = Ok s ->
  NoDup l /\ s = mkSnapshot (mkFrontier owner i) (from_distinct token i l).
Proof.
  unfold try_from_candidate. destruct (first_duplicate l) eqn:Hd; [done|].
  intros [= <-]. by apply first_duplicate_None in Hd.
Qed.

Lemma reconstitute_inv input s :
  input_reconstitute input = Some s ->
  content_first_duplicate (input_content input) = None /\
  value_content (SnapshotValue s) = value_content (InputValue input) /\
  value_identity (SnapshotValue s) = value_identity (InputValue input) /\
  frontier s = mkFrontier (input_owning_session input) (input_snapshot input).
Proof.
  unfold input_reconstitute, try_from_reconstitution_input.
  destruct (content_first_duplicate _); [done|]. by intros [= <-].
Qed.

Lemma pool_inv_same pool v u :
  pool_inv pool -> v ∈ pool -> value_content u = value_content v ->
  value_identity u = value_identity v -> value_wf u -> pool_inv (u :: pool).
Proof.
  intros Hp Hv Hc Hi Hu.
  assert (forall w, w ∈ u :: pool -> exists w', w' ∈ pool /\
    value_content w = value_content w' /\ value_identity w = value_identity w') as Hold.
  { intros w [->|Hw]%elem_of_cons; [by exists v|by exists w]. }
  split.
  - intros w [->|Hw]%elem_of_cons; [done|by apply Hp].
  - intros w1 w2 (x & Hx & -> & ->)%Hold (y & Hy & -> & _)%Hold. by apply Hp.
  - intros w1 w2 n m (x & Hx & -> & _)%Hold (y & Hy & -> & _)%Hold. by apply Hp.
Qed.

Lemma pool_step_inv pool pool' : pool_step pool pool' -> pool_inv pool -> pool_inv pool'.
Proof.
  intros Hs Hp. destruct Hs as [token owner i l pool Hf|token input i l pool Hf Hin
    |input s pool Hin Hr|token owner i l s pool Hf Hc|token src i l s pool Hf Hin Hd|p1 v p2].
  - apply (pool_inv_add token); [done..| |apply from_complete_wf].
    pose proof (grows_distinct pool token i l) as Hg. unfold input_new, from_complete. simpl.
    destruct (foldl track_duplicate _ l). simpl. by destruct Hg; split.
  - apply (pool_inv_add token); [done..| |by apply input_derive_wf, Hp].
    simpl. unfold reconstitution_derive_appending.
    destruct (foldl track_duplicate _ l). by apply (grows_extend _ _ _ (InputValue input)).
  - apply reconstitute_inv in Hr as (Hd & Hc & Hi & _). apply (pool_inv_same _ (InputValue input));
      [done..|]. destruct (inv_wf _ Hp _ Hin) as [Hwf Hd']. split; [by rewrite Hc|].
    rewrite Hc. rewrite Hd in Hd'. by apply first_duplicate_None.
  - apply candidate_inv in Hc as [Hnd ->]. apply (pool_inv_add token); [done..|apply grows_distinct|].
    split; [apply from_distinct_wf|]. simpl. by rewrite vector_iter_collect.
  - apply derive_candidate_inv in Hd as (_ & Hwf & Hfr & m & Hc); [|by apply Hp].
    apply (pool_inv_add token); [done..| |done]. simpl. rewrite Hfr, Hc. simpl.
    by apply (grows_extend _ _ _ (SnapshotValue src)).
  - assert (forall w, w ∈ p1 ++ p2 -> w ∈ p1 ++ v :: p2) by set_solver.
    destruct Hp; split; intros; eauto.
Qed.

Lemma live_pool_inv pool : live_pool pool -> pool_inv pool.
Proof.
  apply (rtc_ind_r (fun pool => pool_inv pool)); [|intros; by eapply pool_step_inv].
  split; set_solver.
Qed.

Lemma live_snapshot_NoDup pool s : live_pool pool -> SnapshotValue s ∈ pool -> NoDup (ordered_entries s).
Proof. intros Hp%live_pool_inv Hs. by destruct (inv_wf _ Hp _ Hs). Qed.

(** ** Comparisons *)

Lemma is_shared_prefix_sound pool a b :
  live_pool pool -> SnapshotValue a ∈ pool -> SnapshotValue b ∈ pool ->
  is_shared_prefix_of (content a) (frontier_snapshot (frontier a)) (content_token (content a))
    (content b) = true ->
  ordered_entries a `prefix_of` ordered_entries b.
Proof.
  intros Hp%live_pool_inv Ha Hb. unfold is_shared_prefix_of. intros [_ Hl]%andb_prop.
  apply (inv_shared _ Hp _ _ Ha Hb). simpl.
  destruct (lineage_get _ _); [|done]. by apply bool_decide_eq_true_1 in Hl as ->.
Qed.

Lemma prefix_take {A} (l k : list A) : l `prefix_of` k <-> l = take (length l) k.
Proof.
  split; [intros [k' ->]; by rewrite take_app_length|].
  intros ->. exists (drop (length l) k). by rewrite take_drop.
Qed.

Lemma prefix_same_length {A} (l k : list A) : l `prefix_of` k -> length l = length k -> l = k.
Proof. intros [k' ->]. rewrite length_app. intros. destruct k'; [by rewrite app_nil_r|simpl in *; lia]. Qed.

Lemma suffix_check (v : vector SemanticTranscriptEntryRef) l suffix :
  length (vector_iter v) = length l + length suffix -> l `prefix_of` vector_iter v ->
  forallb (fun '(offset, expected) =>
    match vector_get v (length l + offset) with
    | Some actual => bool_decide (actual = expected)
    | None => false
    end) (imap pair suffix) = true <-> vector_iter v = l ++ suffix.
Proof.
  intros Hlen [k Hk]. rewrite Hk, length_app in Hlen. rewrite <- Is_true_true, forallb_True, Forall_forall. split.
  - intros Hall. rewrite Hk. f_equal. apply list_eq. intros i.
    destruct (suffix !! i) as [x|] eqn:Hx.
    + assert ((i, x) ∈ imap pair suffix) as Hin.
      { apply list_elem_of_lookup. exists i. by rewrite list_lookup_imap, Hx. }
      specialize (Hall _ Hin). simpl in Hall. rewrite vector_get_iter, Hk in Hall.
      rewrite lookup_app_r in Hall by lia.
      replace (length l + i - length l) with i in Hall by lia.
      destruct (k !! i); [|done]. by apply bool_decide_unpack in Hall as ->.
    + apply lookup_ge_None in Hx. apply lookup_ge_None. lia.
  - intros Hv [i x] (j & Hj)%list_elem_of_lookup. rewrite list_lookup_imap in Hj.
    apply fmap_Some in Hj as (y & Hy & [= -> ->]).
    rewrite vector_get_iter, Hv, lookup_app_r by lia.
    replace (length l + j - length l) with j by lia. rewrite Hy. by apply bool_decide_pack.
Qed.

(** ** The validation cache *)

(** A run of [first_missing_entry] over several inputs with one cache, as the
    scheduling reconstitution performs it. *)
Fixpoint validate_inputs (contains : SemanticTranscriptEntryRef -> bool)
    (validation : ValidationCache) (inputs : list ResolvedContextFrontierReconstitutionInput) :
    list (option SemanticTranscriptEntryRef) :=
  match inputs with
  | [] => []
  | input :: inputs =>
      let '(missing, validation) := first_missing_entry input validation contains in
      missing :: validate_inputs contains validation inputs
  end.

Definition first_missing (contains : SemanticTranscriptEntryRef -> bool)
    (l : list SemanticTranscriptEntryRef) : option SemanticTranscriptEntryRef :=
  find (fun entry => negb (contains entry)) l.

Lemma first_missing_app contains l1 l2 :
  first_missing contains (l1 ++ l2) =
  match first_missing contains l1 with Some x => Some x | None => first_missing contains l2 end.
Proof. induction l1 as [|x l1 IH]; simpl; [done|]. by destruct (negb (contains x)). Qed.

Lemma node_appended_entries_spec n l l' :
  node_entries n = l ++ l' -> node_appended_start n = length l -> node_appended_entries n = l'.
Proof. unfold node_appended_entries. intros Hn ->. by apply range_items_suffix. Qed.

Lemma node_chain_missing contains l ns l' x :
  node_chain l ns l' -> first_missing contains l = Some x -> first_missing contains l' = Some x.
Proof.
  induction 1 as [|l n ns l' app Ha _ _ IH]; [done|]. intros Hl. apply IH.
  by rewrite Ha, first_missing_app, Hl.
Qed.

Section cache.
Context (contains : SemanticTranscriptEntryRef -> bool) (pool : list frontier_value).
Context (Hlive : live_pool pool).

Definition cache_sound (validation : ValidationCache) : Prop :=
  forall v n, v ∈ pool -> n ∈ nodes_of (value_content v) -> node_token n ∈ validation ->
    first_missing contains (node_entries n) = None.

Lemma cache_sound_add v n validation :
  v ∈ pool -> n ∈ nodes_of (value_content v) -> first_missing contains (node_entries n) = None ->
  cache_sound validation -> cache_sound ({[node_token n]} ∪ validation).
Proof.
  intros Hv Hn Hm Hc w m Hw Hmw [Ht%elem_of_singleton|Ht]%elem_of_union; [|by eapply Hc].
  by rewrite (inv_nodes _ (live_pool_inv _ Hlive) w v m n).
Qed.

Lemma validate_nodes_spec v l ns l' validation :
  v ∈ pool -> (forall n, n ∈ ns -> n ∈ nodes_of (value_content v)) ->
  node_chain l ns l' -> first_missing contains l = None -> cache_sound validation ->
  (validate_nodes contains validation ns).1 = first_missing contains l' /\
  cache_sound (validate_nodes contains validation ns).2.
Proof.
  intros Hv. revert l validation. induction ns as [|n ns IH]; intros l validation Hns Hch Hl Hc.
  - by inversion Hch; subst.
  - inversion Hch as [|? ? ? ? app Ha Hs Hch']; subst. simpl.
    rewrite (node_appended_entries_spec n l app Ha Hs).
    assert (first_missing contains (node_entries n) = first_missing contains app) as Hn
      by by rewrite Ha, first_missing_app, Hl.
    fold (first_missing contains app). destruct (first_missing contains app) as [x|] eqn:Hx.
    + split; [|done]. symmetry. by eapply node_chain_missing.
    + apply (IH (node_entries n)); [set_solver|done..|].
      apply (cache_sound_add v); [done|apply Hns; left|done..].
Qed.

Lemma unvalidated_nodes_suffix validation ns :
  exists done_, reverse ns = done_ ++ reverse (unvalidated_nodes validation ns) /\
    (done_ = [] \/ exists p n, done_ = p ++ [n] /\ node_token n ∈ validation).
Proof.
  induction ns as [|n ns IH]; [by exists []; auto|]. simpl. case_bool_decide as Hn.
  - exists (reverse (n :: ns)). split; [by rewrite app_nil_r|]. right.
    exists (reverse ns), n. by rewrite reverse_cons.
  - destruct IH as (d & Hd & Hcase). exists d. split; [|done].
    by rewrite !reverse_cons, Hd, app_assoc.
Qed.

Lemma first_missing_entry_spec input validation :
  InputValue input ∈ pool -> cache_sound validation ->
  (first_missing_entry input validation contains).1
    = first_missing contains (input_ordered_entries input) /\
  cache_sound (first_missing_entry input validation contains).2.
Proof.
  intros Hin Hc. unfold first_missing_entry.
  destruct (inv_wf _ (live_pool_inv _ Hlive) _ Hin) as [[_ Hch _] _]. simpl in Hch.
  set (ns := nodes_of (reconstitution_frontier (input_content input))) in *.
  destruct (unvalidated_nodes_suffix validation (reverse ns)) as (d & Hd & Hcase).
  rewrite reverse_involutive in Hd. rewrite Hd in Hch. apply node_chain_app in Hch as (l & H1 & H2).
  apply (validate_nodes_spec (InputValue input) l); [done| |done| |done].
  { intros n Hn. simpl. fold ns. rewrite Hd. set_solver. }
  destruct Hcase as [->|(p & n & -> & Hn)]; [by inversion H1|].
  rewrite <- (node_chain_last _ _ _ _ H1). apply (Hc (InputValue input)); [done| |done].
  simpl. fold ns. rewrite Hd. set_solver.
Qed.
End cache.

(** ** Properties *)

(** In every history of constructions, derivations, reconstitutions and
    drops, with addresses reused after a drop, the comparisons that look at
    shared tokens agree with the comparison of the ordered entries: prefix,
    equal content, and prefix followed by a suffix. *)
Theorem frontier_comparisons_exact pool a b suffix :
  live_pool pool -> SnapshotValue a ∈ pool -> SnapshotValue b ∈ pool ->
  is_semantic_prefix_of a b = bool_decide (ordered_entries a `prefix_of` ordered_entries b) /\
  same_semantic_content a b = bool_decide (ordered_entries a = ordered_entries b) /\
  has_semantic_prefix_and_suffix b a suffix
    = bool_decide (ordered_entries b = ordered_entries a ++ suffix).
Proof.
  intros Hp Ha Hb. assert (is_semantic_prefix_of a b
    = bool_decide (ordered_entries a `prefix_of` ordered_entries b)) as Hpre.
  { unfold is_semantic_prefix_of. destruct (is_shared_prefix_of _ _ _ _) eqn:Hs.
    - symmetry. apply bool_decide_eq_true. by eapply is_shared_prefix_sound.
    - rewrite (bool_decide_ext _ _ (prefix_take (ordered_entries a) (ordered_entries b))).
      unfold entry_count. rewrite !vector_len_iter. unfold ordered_entries.
      destruct (Nat.ltb_spec (length (vector_iter (content_ordered_entries (content b))))
        (length (vector_iter (content_ordered_entries (content a))))) as [Hlt|]; [|done].
      symmetry. apply bool_decide_eq_false. intros Heq%(f_equal length).
      rewrite length_take in Heq. lia. }
  split_and!; [done| |].
  - unfold same_semantic_content. rewrite vector_eqb_iter. fold (ordered_entries a) (ordered_entries b).
    apply eq_bool_prop_intro. rewrite orb_True, andb_True, orb_True, !Is_true_true, Nat.eqb_eq.
    unfold entry_count. rewrite !vector_len_iter. fold (ordered_entries a) (ordered_entries b).
    split; [|by right]. intros [[Hlen [Hs|Hs]]|?]; [..|done]; apply bool_decide_eq_true_2.
    + apply prefix_same_length; [|done]. by eapply is_shared_prefix_sound.
    + symmetry. apply prefix_same_length; [|done]. by eapply is_shared_prefix_sound.
  - unfold has_semantic_prefix_and_suffix. rewrite Hpre. unfold entry_count.
    rewrite !vector_len_iter. fold (ordered_entries a) (ordered_entries b).
    apply eq_bool_prop_intro. rewrite Is_true_true, Is_true_true, bool_decide_eq_true.
    case_bool_decide as Hab; simpl;
      [|split; [done|]; intros Heq; destruct Hab; rewrite Heq; by eexists].
    destruct (Nat.eqb_spec (length (ordered_entries b)) (length (ordered_entries a) + length suffix))
      as [Hlen|Hlen]; simpl; [by apply suffix_check|].
    split; [done|]. intros Heq. destruct Hlen. by rewrite Heq, length_app.
Qed.

(** A derivation from a live snapshot succeeds exactly when the identity
    differs and no entry repeats, and then retains the owner and the complete
    prefix, appends exactly the new entries and reports both; a rejection
    returns its inputs and names the reused identity or the first repeated
    entry. *)
Theorem frontier_derivation_exact pool token s next l :
  live_pool pool -> SnapshotValue s ∈ pool ->
  match derive_appending_candidate token s next l with
  | Ok s' =>
      next <> frontier_snapshot (frontier s) /\ NoDup (ordered_entries s ++ l) /\
      frontier s' = mkFrontier (owning_session (frontier s)) next /\
      ordered_entries s' = ordered_entries s ++ l /\
      immediate_semantic_prefix s' = Some (frontier s) /\ appended_entries s' = l
  | Err e =>
      rejected_next_snapshot e = next /\ rejected_appended_entries e = l /\
      match derivation_rejection e with
      | ReusedSourceSnapshotIdentity => next = frontier_snapshot (frontier s)
      | DuplicateEntry x =>
          next <> frontier_snapshot (frontier s) /\
          exists l1 l2, l = l1 ++ x :: l2 /\ NoDup (ordered_entries s ++ l1) /\
            x ∈ ordered_entries s ++ l1
      end
  end.
Proof.
  intros Hp Hs. pose proof (inv_wf _ (live_pool_inv _ Hp) _ Hs) as Hwf.
  destruct (derive_appending_candidate token s next l) as [s'|e] eqn:Hd.
  - apply derive_candidate_inv in Hd as (Hne & [_ Hnd] & Hfr & m & Hc); [|done].
    assert (ordered_entries s' = ordered_entries s ++ l) as He.
    { unfold ordered_entries at 1. rewrite Hc. apply vector_iter_extend. }
    simpl in Hnd. fold (ordered_entries s') in Hnd. rewrite He in Hnd.
    split_and!; [done..| |].
    + unfold immediate_semantic_prefix. by rewrite Hc.
    + unfold appended_entries, ordered_entries_range, entry_count.
      rewrite vector_len_iter. fold (ordered_entries s'). rewrite He, length_app, Hc. simpl.
      replace (length (ordered_entries s) + length l - length l)
        with (length (ordered_entries s)) by lia.
      rewrite range_items_spec; rewrite vector_iter_extend; fold (ordered_entries s).
      * rewrite drop_app_length. apply take_ge. lia.
      * rewrite length_app. lia.
  - unfold derive_appending_candidate in Hd. case_bool_decide as Hi; [by injection Hd as <-|].
    destruct Hwf as [Hc Hnd]. simpl in Hnd. fold (ordered_entries s) in Hnd.
    destruct (find_appended_duplicate_spec (membership (content s)) l
      (list_to_set (ordered_entries s))) as [H1 _].
    { intros x. rewrite (wf_membership _ Hc). apply bool_decide_ext.
      unfold ordered_entries. set_solver. }
    destruct (find_appended_duplicate _ l) as [[x|] m]; [|done]. injection Hd as <-. simpl in *.
    split_and!; [done..|]. symmetry in H1. apply find_duplicate_Some in H1
      as (l1 & l2 & -> & Hl1 & Hdis & Hx). exists l1, l2. split_and!; [done| |set_solver].
    apply NoDup_app. set_solver.
Qed.

(** Validating stored snapshots in sequence with one cache of validated
    nodes reports, for each of them, exactly the first referenced entry that
    does not exist, as if every entry were checked. *)
Theorem frontier_validation_cache_exact pool contains inputs :
  live_pool pool -> (forall input, input ∈ inputs -> InputValue input ∈ pool) ->
  validate_inputs contains ∅ inputs
  = (fun input => first_missing contains (input_ordered_entries input)) <$> inputs.
Proof.
  intros Hp. assert (cache_sound contains pool ∅) as Hc by (intros ? ? ? ? []%not_elem_of_empty).
  revert Hc. generalize (∅ : ValidationCache). induction inputs as [|i inputs IH];
    intros validation Hc Hin; [done|]. simpl.
  destruct (first_missing_entry_spec contains pool Hp i validation) as [H1 H2]; [apply Hin; left|done|].
  destruct (first_missing_entry i validation contains) as [missing validation']. simpl in *.
  rewrite H1, IH; [done..|]. intros input Hi. apply Hin. by right.
Qed.

(** The snapshot interface the other aggregates use. *)
#[export] Instance resolved_snapshots : ContextSnapshots ResolvedContextFrontierSnapshot := {|
  snapshot_frontier := frontier;
  snapshot_entries := ordered_entries;
  snapshot_derive := derive_appending_candidate;
  snapshot_wf s := value_wf (SnapshotValue s);
|}.

Lemma derive_candidate_total token s next l :
  value_wf (SnapshotValue s) -> next <> frontier_snapshot (frontier s) ->
  NoDup (ordered_entries s ++ l) -> exists s', derive_appending_candidate token s next l = Ok s'.
Proof.
  intros [Hc _] Hn Hnd. unfold derive_appending_candidate. rewrite bool_decide_eq_false_2 by done.
  destruct (find_appended_duplicate_spec (membership (content s)) l
    (list_to_set (ordered_entries s))) as [H1 _].
  { intros x. rewrite (wf_membership _ Hc). apply bool_decide_ext. unfold ordered_entries. set_solver. }
  destruct (find_appended_duplicate _ l) as [[x|] m]; [|by eexists]. simpl in H1. symmetry in H1.
  apply find_duplicate_Some in H1 as (l1 & l2 & -> & _ & _ & Hx).
  apply NoDup_app in Hnd as (_ & Hdis & [_ [Hno _]]%NoDup_app). exfalso.
  destruct Hx as [Hx|Hx]; [apply (Hdis x); set_solver|]. by apply (Hno x Hx); left.
Qed.

#[export] Instance resolved_snapshots_laws : ContextSnapshotsLaws ResolvedContextFrontierSnapshot.
Proof.
  split; simpl.
  - intros s [_ Hnd]. done.
  - intros token s s' next l Hs Hd. apply derive_candidate_inv in Hd as (_ & Hwf & Hfr & m & Hc); [|done].
    split_and!; [done..|]. unfold ordered_entries at 1. rewrite Hc. apply vector_iter_extend.
  - intros token s next l Hs. split.
    + intros [s' Hd]. apply derive_candidate_inv in Hd as (Hn & [_ Hnd] & _ & m & Hc); [|done].
      split; [done|]. simpl in Hnd. rewrite Hc in Hnd. simpl in Hnd.
      by rewrite vector_iter_extend in Hnd.
    + intros [Hn Hnd]. by apply derive_candidate_total.
Qed.

#[export] Instance resolved_candidates : SnapshotCandidates ResolvedContextFrontierSnapshot :=
  try_from_candidate.

#[export] Instance resolved_candidates_laws :
  SnapshotCandidatesLaws ResolvedContextFrontierSnapshot.
Proof.
  split; unfold snapshot_candidate, resolved_candidates.
  - intros token owner identity entries s [Hnd ->]%candidate_inv. simpl.
    split_and!; [|done|apply from_distinct_entries].
    split; [apply from_distinct_wf|]. change (NoDup (entries_of (from_distinct token identity entries))). by rewrite from_distinct_entries.
  - intros token owner identity entries. unfold try_from_candidate. rewrite <- first_duplicate_None.
    destruct (first_duplicate entries); naive_solver.
Qed.

#[export] Instance resolved_stored :
  StoredSnapshots ResolvedContextFrontierSnapshot ResolvedContextFrontierReconstitutionInput := {|
  stored_owner := input_owning_session;
  stored_identity := input_snapshot;
  stored_entries := input_ordered_entries;
  stored_reconstitute := input_reconstitute;
  stored_wf stored := value_wf (InputValue stored);
|}.

#[export] Instance resolved_stored_laws :
  StoredSnapshotsLaws ResolvedContextFrontierSnapshot ResolvedContextFrontierReconstitutionInput.
Proof.
  split; simpl; unfold input_reconstitute, try_from_reconstitution_input.
  - intros stored s [Hwf Hdup]. destruct (content_first_duplicate _) eqn:Hd; [done|]. intros [= <-].
    split_and!; [|done|done]. split; [done|]. simpl in Hdup.
    symmetry in Hdup. by apply first_duplicate_None in Hdup.
  - intros stored [Hwf Hdup]. simpl in Hdup. rewrite Hdup.
    change (input_ordered_entries stored) with (value_entries (InputValue stored)).
    rewrite <- first_duplicate_None. destruct (first_duplicate _); naive_solver.
Qed.
End collections.

(** ** Witnesses *)

Definition sample_ref (n : N) : SemanticTranscriptEntryRef := from_source (from_uuid 1) (from_uuid n).
Definition sample_input : ResolvedContextFrontierReconstitutionInput :=
  input_new 1%positive (from_uuid 1) (from_uuid 10) [sample_ref 1; sample_ref 2].
Definition sample_snapshot : ResolvedContextFrontierSnapshot :=
  mkSnapshot (mkFrontier (from_uuid 1) (from_uuid 10)) (reconstitution_frontier (input_content sample_input)).
Definition sample_derived_input : ResolvedContextFrontierReconstitutionInput :=
  input_derive_appending 2%positive sample_input (from_uuid 11) [sample_ref 3].
Definition sample_derived : ResolvedContextFrontierSnapshot :=
  mkSnapshot (mkFrontier (from_uuid 1) (from_uuid 11))
    (reconstitution_frontier (input_content sample_derived_input)).
Definition sample_pool : list frontier_value :=
  [SnapshotValue sample_derived; SnapshotValue sample_snapshot; InputValue sample_derived_input;
   InputValue sample_input].

Lemma sample_live : live_pool sample_pool.
Proof.
  unfold live_pool, sample_pool. eapply rtc_l.
  { apply (step_input_new 1%positive (from_uuid 1) (from_uuid 10) [sample_ref 1; sample_ref 2]).
    intros v []%not_elem_of_nil. }
  eapply rtc_l.
  { apply (step_input_derive 2%positive sample_input (from_uuid 11) [sample_ref 3]); [|left].
    intros v ->%list_elem_of_singleton. split_and!; [done| |].
    - intros i Hi. assert (({[from_uuid 10 := 1%positive]} : gmap ContextFrontierId ContentToken) !! i
        = Some 2%positive) as Hi' by exact Hi.
      by apply lookup_singleton_Some in Hi' as [_ ?].
    - by intros n ->%list_elem_of_singleton. }
  eapply rtc_l; [by apply (step_reconstitute sample_input sample_snapshot); [right; left|]|].
  eapply rtc_l; [by apply (step_reconstitute sample_derived_input sample_derived); [right; left|]|].
  apply rtc_refl.
Qed.

Lemma frontier_comparisons_exact_witness :
  is_semantic_prefix_of sample_snapshot sample_derived = true /\
  same_semantic_content sample_snapshot sample_derived = false /\
  has_semantic_prefix_and_suffix sample_derived sample_snapshot [sample_ref 3] = true.
Proof.
  destruct (frontier_comparisons_exact sample_pool sample_snapshot sample_derived [sample_ref 3]
    sample_live) as (H1 & H2 & H3); [right; left|left|].
  split_and!; [rewrite H1|rewrite H2|rewrite H3]; vm_compute; reflexivity.
Defined.

Definition sample_rejection : ContextFrontierSnapshotDerivationError :=
  mkDerivationError (from_uuid 12) [sample_ref 4; sample_ref 1] (DuplicateEntry (sample_ref 1)).

Lemma sample_derive_rejected :
  derive_appending_candidate 3%positive sample_derived (from_uuid 12) [sample_ref 4; sample_ref 1]
  = Err sample_rejection.
Proof. vm_compute. reflexivity. Defined.

Lemma frontier_derivation_exact_witness :
  exists l1 l2, [sample_ref 4; sample_ref 1] = l1 ++ sample_ref 1 :: l2 /\
    NoDup (ordered_entries sample_derived ++ l1) /\
    sample_ref 1 ∈ ordered_entries sample_derived ++ l1.
Proof.
  pose proof (frontier_derivation_exact sample_pool 3%positive sample_derived (from_uuid 12)
    [sample_ref 4; sample_ref 1] sample_live ltac:(left)) as H.
  rewrite sample_derive_rejected in H. exact (proj2 (proj2 (proj2 H))).
Defined.

Lemma frontier_validation_cache_exact_witness :
  validate_inputs (fun e => negb (bool_decide (e = sample_ref 3))) ∅
    [sample_input; sample_derived_input; sample_input]
  = [None; Some (sample_ref 3); None].
Proof.
  rewrite (frontier_validation_cache_exact sample_pool _ _ sample_live).
  - vm_compute. reflexivity.
  - unfold sample_pool. set_solver.
Defined.
