(* ===== verification/ModelCall.v ===== *)
(** * Model calls

    Model of [crates/domain/src/model_call.rs]: the provider target pinned to
    a turn, the transitions of one model call against it, and the
    reconstitution of stored call facts; then the proof that reconstitution
    accepts exactly the facts of calls the transitions can produce. *)

From S2P Require Import Prelude ModelSettings Interrupt Frontier.

(** ** The pinned target *)

Record PinnedProviderTarget := mkPinned {
  pinned_turn : TurnId;
  pinned_target : ResolvedProviderTarget;
}.

Record PinnedProviderTargetReconstitutionInput := mkPinnedInput {
  stored_pinned_turn : TurnId;
  stored_pinned_target : ResolvedProviderTarget;
}.

Definition reconstitute_for_turn (self : PinnedProviderTargetReconstitutionInput)
    (expected_turn : TurnId) : option PinnedProviderTarget :=
  if bool_decide (stored_pinned_turn self = expected_turn)
  then Some (mkPinned (stored_pinned_turn self) (stored_pinned_target self)) else None.

(** ** Calls *)

Inductive ModelCallDisposition :=
| CallCompleted | CallKnownFailed | CallRefused | CallCancelled | CallAmbiguous.

#[export] Instance ModelCallDisposition_eq_dec : EqDecision ModelCallDisposition.
Proof. solve_decision. Defined.

Inductive CurrentModelCallState := CallPrepared | CallInFlight | CallCancellationRequested.

#[export] Instance CurrentModelCallState_eq_dec : EqDecision CurrentModelCallState.
Proof. solve_decision. Defined.

Record CurrentModelCall := mkCall {
  call_id : ModelCallId;
  call_attempt : TurnAttemptId;
  call_selection : FrozenModelSelection;
  call_pinned : PinnedProviderTarget;
  call_frontier : ContextFrontier;
  call_state : CurrentModelCallState;
}.

Record EndedModelCall := mkEndedCall {
  ended_call_id : ModelCallId;
  ended_call_attempt : TurnAttemptId;
  ended_call_selection : FrozenModelSelection;
  ended_call_pinned : PinnedProviderTarget;
  ended_call_frontier : ContextFrontier;
  ended_call_disposition : ModelCallDisposition;
}.

Inductive AttemptedModelCallTransition :=
| BeginInFlight
| RequestCallCancellation
| EndClassified (disposition : ModelCallDisposition)
| EndCancelledUnsent (proof : AppliedInterruptProof).

Record CurrentModelCallTransitionError := mkCallError {
  call_rejected_current : CurrentModelCall;
  call_rejected_attempted : AttemptedModelCallTransition;
}.

Abbreviation call_result := (result CurrentModelCallTransitionError).

Definition set_call_state (self : CurrentModelCall) (state : CurrentModelCallState) :
    CurrentModelCall :=
  mkCall (call_id self) (call_attempt self) (call_selection self) (call_pinned self)
    (call_frontier self) state.

Definition end_call_with (self : CurrentModelCall) (disposition : ModelCallDisposition) :
    EndedModelCall :=
  mkEndedCall (call_id self) (call_attempt self) (call_selection self) (call_pinned self)
    (call_frontier self) disposition.

Definition begin_in_flight (self : CurrentModelCall) : call_result CurrentModelCall :=
  match call_state self with
  | CallPrepared => Ok (set_call_state self CallInFlight)
  | _ => Err (mkCallError self BeginInFlight)
  end.

Definition request_call_cancellation (self : CurrentModelCall) : call_result CurrentModelCall :=
  match call_state self with
  | CallInFlight => Ok (set_call_state self CallCancellationRequested)
  | CallPrepared | CallCancellationRequested => Err (mkCallError self RequestCallCancellation)
  end.

Definition end_classified (self : CurrentModelCall) (disposition : ModelCallDisposition) :
    call_result EndedModelCall :=
  let allowed :=
    match call_state self with
    | CallInFlight | CallCancellationRequested => true
    | CallPrepared => bool_decide (disposition = CallKnownFailed)
    end in
  if allowed then Ok (end_call_with self disposition)
  else Err (mkCallError self (EndClassified disposition)).

Definition end_cancelled_unsent (self : CurrentModelCall) (proof : AppliedInterruptProof) :
    call_result EndedModelCall :=
  if bool_decide (call_state self = CallPrepared)
     && bool_decide (proof_predecessor proof = pinned_turn (call_pinned self))
  then Ok (end_call_with self CallCancelled)
  else Err (mkCallError self (EndCancelledUnsent proof)).

(** ** Reconstitution *)

Inductive ModelCallReconstitutionState :=
| StoredPrepared | StoredInFlight | StoredCancellationRequested
| StoredTerminal (disposition : ModelCallDisposition).

Record ModelCallReconstitutionInput := mkCallInput {
  stored_call_id : ModelCallId;
  stored_call_turn : TurnId;
  stored_call_attempt : TurnAttemptId;
  stored_call_selection : FrozenModelSelection;
  stored_call_target : ResolvedProviderTarget;
  stored_call_frontier : ContextFrontierId;
  stored_call_state : ModelCallReconstitutionState;
}.

Inductive ReconstitutedModelCall :=
| CurrentCall (call : CurrentModelCall)
| EndedCall (call : EndedModelCall).

Inductive ModelCallReconstitutionFailure :=
| CallFrontierMismatch | PinnedTargetMismatch | InvalidCallTransition.

Section snapshots.
Context {Snap : Type} `{ContextSnapshots Snap}.

Definition call_prepared (id : ModelCallId) (attempt : TurnAttemptId)
    (selection : FrozenModelSelection) (pinned : PinnedProviderTarget) (snapshot : Snap) :
    CurrentModelCall :=
  mkCall id attempt selection pinned (snapshot_frontier snapshot) CallPrepared.

Definition call_reconstitute (self : ModelCallReconstitutionInput) (snapshot : Snap)
    (pinned : PinnedProviderTarget) :
    result ModelCallReconstitutionFailure ReconstitutedModelCall :=
  if negb (bool_decide (stored_call_frontier self = frontier_snapshot (snapshot_frontier snapshot)))
  then Err CallFrontierMismatch else
  if negb (bool_decide (stored_call_turn self = pinned_turn pinned))
     || negb (bool_decide (stored_call_target self = pinned_target pinned))
  then Err PinnedTargetMismatch else
  let prepared :=
    call_prepared (stored_call_id self) (stored_call_attempt self) (stored_call_selection self)
      pinned snapshot in
  match stored_call_state self with
  | StoredPrepared => Ok (CurrentCall prepared)
  | StoredInFlight =>
      map_err (fun _ => InvalidCallTransition) (CurrentCall <$> begin_in_flight prepared)
  | StoredCancellationRequested =>
      map_err (fun _ => InvalidCallTransition)
        (CurrentCall <$> (in_flight ← begin_in_flight prepared; request_call_cancellation in_flight))
  | StoredTerminal disposition =>
      predecessor ←
        (if bool_decide (disposition = CallKnownFailed) then Ok prepared
         else map_err (fun _ => InvalidCallTransition) (begin_in_flight prepared));
      map_err (fun _ => InvalidCallTransition) (EndedCall <$> end_classified predecessor disposition)
  end.
End snapshots.

(** ** The histories of a call *)

Inductive call_action :=
| Authorize
| Cancel
| Classify (disposition : ModelCallDisposition)
| CancelUnsent (proof : AppliedInterruptProof).

(** One operation on a call; a terminal call has none. *)
Definition perform_call_action (call : ReconstitutedModelCall) (action : call_action) :
    option ReconstitutedModelCall :=
  match call, action with
  | EndedCall _, _ => None
  | CurrentCall c, Authorize =>
      match begin_in_flight c with Ok c => Some (CurrentCall c) | Err _ => None end
  | CurrentCall c, Cancel =>
      match request_call_cancellation c with Ok c => Some (CurrentCall c) | Err _ => None end
  | CurrentCall c, Classify disposition =>
      match end_classified c disposition with Ok e => Some (EndedCall e) | Err _ => None end
  | CurrentCall c, CancelUnsent proof =>
      match end_cancelled_unsent c proof with Ok e => Some (EndedCall e) | Err _ => None end
  end.

Fixpoint run_call (call : ReconstitutedModelCall) (actions : list call_action) :
    option ReconstitutedModelCall :=
  match actions with
  | [] => Some call
  | action :: actions => call ← perform_call_action call action; run_call call actions
  end.

(** The stored facts of a call: what its accessors report. *)
Definition call_facts (call : ReconstitutedModelCall) : ModelCallReconstitutionInput :=
  match call with
  | CurrentCall c =>
      mkCallInput (call_id c) (pinned_turn (call_pinned c)) (call_attempt c) (call_selection c)
        (pinned_target (call_pinned c)) (frontier_snapshot (call_frontier c))
        (match call_state c with
         | CallPrepared => StoredPrepared
         | CallInFlight => StoredInFlight
         | CallCancellationRequested => StoredCancellationRequested
         end)
  | EndedCall e =>
      mkCallInput (ended_call_id e) (pinned_turn (ended_call_pinned e)) (ended_call_attempt e)
        (ended_call_selection e) (pinned_target (ended_call_pinned e))
        (frontier_snapshot (ended_call_frontier e)) (StoredTerminal (ended_call_disposition e))
  end.

(** The complete table of accepted histories from a prepared call. *)
Inductive call_history (p : CurrentModelCall) : list call_action -> ReconstitutedModelCall -> Prop :=
| history_prepared : call_history p [] (CurrentCall p)
| history_failed_unsent :
    call_history p [Classify CallKnownFailed] (EndedCall (end_call_with p CallKnownFailed))
| history_cancelled_unsent proof :
    proof_predecessor proof = pinned_turn (call_pinned p) ->
    call_history p [CancelUnsent proof] (EndedCall (end_call_with p CallCancelled))
| history_in_flight : call_history p [Authorize] (CurrentCall (set_call_state p CallInFlight))
| history_cancellation :
    call_history p [Authorize; Cancel] (CurrentCall (set_call_state p CallCancellationRequested))
| history_ended d : call_history p [Authorize; Classify d] (EndedCall (end_call_with p d))
| history_ended_cancelling d :
    call_history p [Authorize; Cancel; Classify d] (EndedCall (end_call_with p d)).

Lemma run_call_ended e actions c :
  run_call (EndedCall e) actions = Some c -> actions = [] /\ c = EndedCall e.
Proof. destruct actions; simpl; [by intros [= <-]|done]. Qed.

Lemma run_call_step c action actions r :
  run_call c (action :: actions) = Some r ->
  exists c', perform_call_action c action = Some c' /\ run_call c' actions = Some r.
Proof. simpl. intros (c' & H1 & H2)%bind_Some. by exists c'. Qed.

Lemma run_call_history p actions c :
  call_state p = CallPrepared ->
  run_call (CurrentCall p) actions = Some c <-> call_history p actions c.
Proof.
  intros Hp. split.
  - destruct actions as [|a1 l1]; [intros [= <-]; constructor|].
    intros (c1 & H1 & H)%run_call_step. revert H1.
    destruct a1 as [| |d|proof]; simpl;
      unfold begin_in_flight, request_call_cancellation, end_classified, end_cancelled_unsent;
      rewrite Hp; try done.
    + intros [= <-]. destruct l1 as [|a2 l2]; [injection H as <-; constructor|].
      apply run_call_step in H as (c2 & H2 & H). revert H2.
      destruct a2 as [| |d|proof]; simpl; try done.
      * intros [= <-]. destruct l2 as [|a3 l3]; [injection H as <-; exact (history_cancellation p)|].
        apply run_call_step in H as (c3 & H3 & H). revert H3.
        destruct a3 as [| |d|proof]; simpl; try done.
        intros [= <-]. apply run_call_ended in H as [-> ->]. exact (history_ended_cancelling p d).
      * intros [= <-]. apply run_call_ended in H as [-> ->]. exact (history_ended p d).
    + case_bool_decide; [|done]. intros [= <-]. apply run_call_ended in H as [-> ->]. subst.
      constructor.
    + rewrite bool_decide_eq_true_2 by done. simpl. case_bool_decide; [|done].
      intros [= <-]. apply run_call_ended in H as [-> ->]. by apply history_cancelled_unsent.
  - destruct 1; simpl; unfold begin_in_flight, request_call_cancellation, end_classified,
      end_cancelled_unsent; rewrite ?Hp; simpl; try done.
    by rewrite !bool_decide_eq_true_2.
Qed.

Section roundtrip.
Context {Snap : Type} `{ContextSnapshots Snap}.

(** The calls a turn can hold for its pinned target and a resolved snapshot. *)
Definition call_of (snapshot : Snap) (pinned : PinnedProviderTarget) (c : ReconstitutedModelCall) :
    Prop :=
  exists id attempt selection actions,
    run_call (CurrentCall (call_prepared id attempt selection pinned snapshot)) actions = Some c.

Lemma call_of_history snapshot pinned id attempt selection actions c :
  call_history (call_prepared id attempt selection pinned snapshot) actions c ->
  call_of snapshot pinned c.
Proof. intros Hh. exists id, attempt, selection, actions. by apply run_call_history. Qed.

Lemma call_facts_owner snapshot pinned c :
  call_of snapshot pinned c ->
  stored_call_frontier (call_facts c) = frontier_snapshot (snapshot_frontier snapshot) /\
  stored_call_turn (call_facts c) = pinned_turn pinned /\
  stored_call_target (call_facts c) = pinned_target pinned.
Proof.
  intros (id & attempt & selection & actions & Hr). apply run_call_history in Hr; [|done].
  by destruct Hr.
Qed.

Lemma call_reconstitute_facts snapshot pinned c :
  call_of snapshot pinned c -> call_reconstitute (call_facts c) snapshot pinned = Ok c.
Proof.
  intros Hc. destruct (call_facts_owner _ _ _ Hc) as (Hf & Ht & Hg).
  unfold call_reconstitute. rewrite Hf, Ht, Hg, !bool_decide_eq_true_2 by done.
  destruct Hc as (id & attempt & selection & actions & Hr). apply run_call_history in Hr; [|done].
  destruct Hr as [| | | | |d|d]; try done; simpl; (case_bool_decide; [by subst|done]).
Qed.

Lemma call_reconstitute_sound input snapshot pinned :
  stored_call_frontier input = frontier_snapshot (snapshot_frontier snapshot) ->
  stored_call_turn input = pinned_turn pinned -> stored_call_target input = pinned_target pinned ->
  exists c, call_reconstitute input snapshot pinned = Ok c /\ call_of snapshot pinned c /\
    call_facts c = input.
Proof.
  intros Hf Ht Hg. unfold call_reconstitute. rewrite Hf, Ht, Hg, !bool_decide_eq_true_2 by done.
  destruct input as [id turn attempt selection target fr st]. simpl in *. subst.
  pose (p := call_prepared id attempt selection pinned snapshot).
  destruct st as [| | |d]; simpl; [| | |case_bool_decide; subst];
    (eexists; split_and!; [reflexivity| |reflexivity]);
    eapply (call_of_history snapshot pinned id attempt selection);
    [exact (history_prepared p)|exact (history_in_flight p)|exact (history_cancellation p)
    |exact (history_failed_unsent p)|exact (history_ended p d)].
Qed.

(** Stored call facts are reconstituted exactly when they are the facts of
    a call that some history of accepted transitions produced for the turn's
    pinned target and the resolved snapshot, and then as that call. *)
Theorem model_call_reconstitution_exact input snapshot pinned c :
  call_reconstitute input snapshot pinned = Ok c <->
  call_of snapshot pinned c /\ call_facts c = input.
Proof.
  split; [|intros [Hc <-]; by apply call_reconstitute_facts]. intros Hr.
  assert (stored_call_frontier input = frontier_snapshot (snapshot_frontier snapshot) /\
    stored_call_turn input = pinned_turn pinned /\
    stored_call_target input = pinned_target pinned) as (Hf & Ht & Hg).
  { revert Hr. unfold call_reconstitute. repeat case_bool_decide; done. }
  destruct (call_reconstitute_sound input snapshot pinned Hf Ht Hg) as (c' & Hc' & Hof & Hfacts).
  rewrite Hr in Hc'. by injection Hc' as <-.
Qed.

(** Reconstitution rejects stored call facts only for a foreign snapshot,
    or else for a foreign turn or target; no stored state is rejected. *)
Theorem model_call_rejection_justified input snapshot pinned e :
  call_reconstitute input snapshot pinned = Err e ->
  match e with
  | CallFrontierMismatch =>
      stored_call_frontier input <> frontier_snapshot (snapshot_frontier snapshot)
  | PinnedTargetMismatch =>
      stored_call_frontier input = frontier_snapshot (snapshot_frontier snapshot) /\
      (stored_call_turn input, stored_call_target input)
        <> (pinned_turn pinned, pinned_target pinned)
  | InvalidCallTransition => False
  end.
Proof.
  intros Hr. destruct (decide (stored_call_frontier input
    = frontier_snapshot (snapshot_frontier snapshot))) as [Hf|Hf].
  - destruct (decide ((stored_call_turn input, stored_call_target input)
      = (pinned_turn pinned, pinned_target pinned))) as [[= Ht Hg]|Hn].
    + destruct (call_reconstitute_sound input snapshot pinned Hf Ht Hg) as (c & Hc & _).
      by rewrite Hc in Hr.
    + revert Hr. unfold call_reconstitute. rewrite Hf, bool_decide_eq_true_2 by done. simpl.
      case_bool_decide as Ht; [case_bool_decide as Hg|]; simpl; [|by intros [= <-]..].
      destruct Hn. by rewrite Ht, Hg.
  - revert Hr. unfold call_reconstitute. rewrite bool_decide_eq_false_2 by done. by intros [= <-].
Qed.
End roundtrip.

(** ** Witness *)

Definition sample_call_input : ModelCallReconstitutionInput :=
  mkCallInput (from_uuid 1) (from_uuid 2) (from_uuid 3) (FrozenDirect (from_uuid 4))
    (naming (from_uuid 5)) (from_uuid 6) (StoredTerminal CallCompleted).

Lemma model_call_rejection_justified_witness :
  (stored_call_turn sample_call_input, stored_call_target sample_call_input)
  <> (from_uuid 9, naming (from_uuid 5)).
Proof.
  exact (proj2 (model_call_rejection_justified (H := frontier_only) sample_call_input
    (mkFrontier (from_uuid 7) (from_uuid 6)) (mkPinned (from_uuid 9) (naming (from_uuid 5)))
    PinnedTargetMismatch eq_refl)).
Defined.
