(* ===== verification/Tool.v ===== *)
(** * Tool requests and approvals

    Model of [crates/domain/src/tool/]: checked tool text, the immutable
    logical requests, the approval algebra with the provenance of every
    decision, the user's decision and override commands, and the
    reconstitution of stored approval evidence. *)

From stdpp Require Import strings pretty.
From S2P Require Import Prelude Configuration.

(** ** Text

    Tool text is inspected by Unicode scalar value ([str::chars]) and measured
    in UTF-8 bytes ([str::len]): a string is the sequence of its scalars. *)

Definition text := list N.

Definition utf8_width (c : N) : N :=
  if (c <? 128)%N then 1 else if (c <? 2048)%N then 2 else if (c <? 65536)%N then 3 else 4.

Fixpoint text_len (value : text) : N :=
  match value with [] => 0 | c :: value => utf8_width c + text_len value end%N.

(** An ASCII string literal. *)
Fixpoint lit (s : string) : text :=
  match s with EmptyString => [] | String a s => Ascii.N_of_ascii a :: lit s end.

(** [char::is_control] *)
Definition is_control (c : N) : bool := (c <? 32)%N || ((127 <=? c)%N && (c <=? 159)%N).

Definition text_contains_null (value : text) : bool := existsb (N.eqb 0) value.

(** The bytes [b' '], [b'\t'], [b'\n'], [0x0b], [0x0c] and [b'\r']. A byte of
    a multi-byte scalar is none of them. *)
Definition is_posix_whitespace (c : N) : bool := (c =? 32)%N || ((9 <=? c)%N && (c <=? 13)%N).

Definition has_surrounding_posix_whitespace (value : text) : bool :=
  match head value with Some c => is_posix_whitespace c | None => false end
  || match last value with Some c => is_posix_whitespace c | None => false end.

(** [str::trim_matches] *)
Fixpoint trim_start (drop_ : N -> bool) (value : text) : text :=
  match value with
  | [] => []
  | c :: rest => if drop_ c then trim_start drop_ rest else value
  end.
Definition trim_matches (drop_ : N -> bool) (value : text) : text :=
  reverse (trim_start drop_ (reverse (trim_start drop_ value))).

(** ** Tool names and arguments *)

Record ToolName := mkToolName { tool_name_value : text }.

Inductive ToolNameFailure :=
| ToolNameEmpty
| ToolNameTooLong (bytes : N)
| InvalidCharacter (byte_index : N) (character : N).

Definition is_tool_name_character (c : N) : bool :=
  ((48 <=? c) && (c <=? 57))%N || ((65 <=? c) && (c <=? 90))%N || ((97 <=? c) && (c <=? 122))%N
  || (c =? 95)%N || (c =? 45)%N.

(** [char_indices().find(..)] *)
Fixpoint invalid_character (byte_index : N) (value : text) : option (N * N) :=
  match value with
  | [] => None
  | c :: rest =>
      if is_tool_name_character c then invalid_character (byte_index + utf8_width c) rest
      else Some (byte_index, c)
  end.

Definition tool_name_try_new (value : text) : result (text * ToolNameFailure) ToolName :=
  let failure :=
    match value with
    | [] => Some ToolNameEmpty
    | _ =>
        if (64 <? text_len value)%N then Some (ToolNameTooLong (text_len value))
        else (fun '(byte_index, character) => InvalidCharacter byte_index character)
               <$> invalid_character 0 value
    end in
  match failure with
  | Some failure => Err (value, failure)
  | None => Ok (mkToolName value)
  end.

Inductive ToolArgumentsKind := JsonArguments | UndecodableArguments.

Record NormalizedToolArguments := mkArguments {
  arguments_kind : ToolArgumentsKind;
  arguments_value : text;
}.

#[export] Instance ToolName_eq_dec : EqDecision ToolName.
Proof. solve_decision. Defined.
#[export] Instance ToolArgumentsKind_eq_dec : EqDecision ToolArgumentsKind.
Proof. solve_decision. Defined.
#[export] Instance NormalizedToolArguments_eq_dec : EqDecision NormalizedToolArguments.
Proof. solve_decision. Defined.

(** ** Policy vocabulary *)

Inductive ToolPermissionDefault := PermissionAuto | PermissionConfirm | PermissionAlwaysConfirm.
Inductive ToolApprovalPosture := PostureAuto | PostureDelegated | PostureHuman.
Inductive ToolEffectClass := EffectFree | ExternalEffect.
Inductive ToolDecisionSource :=
| SourceUserCommand | SourcePolicyAuto | SourceSessionBlanket | SourceSessionOverride
| SourceDelegate | SourceRuntimeSafety | SourceLifecycleClosure | SourceUserOverride.

#[export] Instance ToolApprovalPosture_eq_dec : EqDecision ToolApprovalPosture.
Proof. solve_decision. Defined.
#[export] Instance ToolEffectClass_eq_dec : EqDecision ToolEffectClass.
Proof. solve_decision. Defined.
#[export] Instance ToolDecisionSource_eq_dec : EqDecision ToolDecisionSource.
Proof. solve_decision. Defined.

Definition requires_ordered_prefix (source : ToolDecisionSource) : bool :=
  match source with
  | SourceUserCommand | SourceDelegate => true
  | SourcePolicyAuto | SourceSessionBlanket | SourceSessionOverride | SourceRuntimeSafety
  | SourceLifecycleClosure | SourceUserOverride => false
  end.

Inductive ToolApprovalDecider :=
| DeciderUser (command : DurableCommandId)
| DeciderDelegate (model : DirectModelSelection) (call : ModelCallId)
| DeciderUserOverride (command : DurableCommandId) (denied_request : ToolRequestId).

(** ** Rationales and denial reasons *)

Record ToolDecisionRationale := mkRationale { rationale_text : text }.

Definition MAX_RATIONALE_UTF8_BYTES : N := 4096.

Definition rationale_try_new (value : text) : result text ToolDecisionRationale :=
  if bool_decide (value = []) || (MAX_RATIONALE_UTF8_BYTES <? text_len value)%N
     || text_contains_null value
  then Err value else Ok (mkRationale value).

Record ToolDenialReason := mkDenialReason { denial_reason_text : text }.

#[export] Instance ToolDecisionRationale_eq_dec : EqDecision ToolDecisionRationale.
Proof. solve_decision. Defined.
#[export] Instance ToolDenialReason_eq_dec : EqDecision ToolDenialReason.
Proof. solve_decision. Defined.

Inductive ToolDenialReasonFailure :=
| ReasonEmpty | ReasonTooLong (bytes : N) | ReasonSurroundingWhitespace | ReasonContainsControl.

Definition is_forbidden_control (c : N) : bool := negb (c =? 10)%N && is_control c.

Definition denial_reason_try_new (value : text) :
    result (text * ToolDenialReasonFailure) ToolDenialReason :=
  let failure :=
    if bool_decide (value = []) then Some ReasonEmpty
    else if (MAX_RATIONALE_UTF8_BYTES <? text_len value)%N then Some (ReasonTooLong (text_len value))
    else if has_surrounding_posix_whitespace value then Some ReasonSurroundingWhitespace
    else if existsb is_forbidden_control value then Some ReasonContainsControl
    else None in
  match failure with
  | Some failure => Err (value, failure)
  | None => Ok (mkDenialReason value)
  end.

Definition is_space_or_line_feed (c : N) : bool := (c =? 32)%N || (c =? 10)%N.

Definition from_rationale (rationale : ToolDecisionRationale) : option ToolDenialReason :=
  let sanitized := (fun c => if is_forbidden_control c then 32%N else c) <$> rationale_text rationale in
  let trimmed := trim_matches is_space_or_line_feed sanitized in
  if bool_decide (trimmed = []) then None else Some (mkDenialReason trimmed).

(** ** Requests *)

(** [ToolRequestOrdinal(u32)] *)
Definition u32_max : N := 4294967295.
Record ToolRequestOrdinal := mkToolOrdinal { tool_ordinal : N }.
Definition tool_ordinal_try_from_usize (value : nat) : option ToolRequestOrdinal :=
  if (N.of_nat value <=? u32_max)%N then Some (mkToolOrdinal (N.of_nat value)) else None.

Inductive ToolInadmissibleReason :=
| ProposalLimitExceeded (limit : N)
| ArgumentBytesExceeded (limit bytes : N)
| PlacementLost.

#[export] Instance ToolRequestOrdinal_eq_dec : EqDecision ToolRequestOrdinal.
Proof. solve_decision. Defined.
#[export] Instance ToolInadmissibleReason_eq_dec : EqDecision ToolInadmissibleReason.
Proof. solve_decision. Defined.

Record ToolCallProposal := mkProposal {
  proposal_name : ToolName;
  proposal_arguments : NormalizedToolArguments;
  proposal_suppressed : bool;
  proposal_inadmissible_reason : option ToolInadmissibleReason;
}.

Record ToolRequest := mkToolRequest {
  request_id : ToolRequestId;
  request_session : SessionId;
  request_turn : TurnId;
  request_producing_call : ModelCallId;
  request_tool_ordinal : ToolRequestOrdinal;
  request_name : ToolName;
  request_arguments : NormalizedToolArguments;
  request_posture : ToolApprovalPosture;
  request_inadmissible_reason : option ToolInadmissibleReason;
}.

#[export] Instance ToolRequest_eq_dec : EqDecision ToolRequest.
Proof. solve_decision. Defined.

(** ** Resolutions *)

Inductive ToolApprovalDecision :=
| Approve
| Deny (reason : option ToolDenialReason).

Record ToolApprovalResolution := mkResolution {
  resolution_request : ToolRequestId;
  resolution_decision : ToolApprovalDecision;
  resolution_source : ToolDecisionSource;
  resolution_decider : option ToolApprovalDecider;
  resolution_rationale : option ToolDecisionRationale;
}.

#[export] Instance ToolApprovalDecision_eq_dec : EqDecision ToolApprovalDecision.
Proof. solve_decision. Defined.
#[export] Instance ToolApprovalDecider_eq_dec : EqDecision ToolApprovalDecider.
Proof. solve_decision. Defined.
#[export] Instance ToolApprovalResolution_eq_dec : EqDecision ToolApprovalResolution.
Proof. solve_decision. Defined.

Definition SUPPRESSED_TOOL_DENIAL_REASON : text :=
  lit "Tool arguments were suppressed by the credential boundary".

Definition policy_auto (request : ToolRequestId) : ToolApprovalResolution :=
  mkResolution request Approve SourcePolicyAuto None None.
Definition session_blanket (request : ToolRequestId) : ToolApprovalResolution :=
  mkResolution request Approve SourceSessionBlanket None None.
Definition runtime_safety (request : ToolRequestId) : ToolApprovalResolution :=
  mkResolution request (Deny (Some (mkDenialReason SUPPRESSED_TOOL_DENIAL_REASON)))
    SourceRuntimeSafety None None.
Definition approval_timeout (request : ToolRequestId) : ToolApprovalResolution :=
  mkResolution request (Deny (Some (mkDenialReason (lit "approval_wait_timeout"))))
    SourceRuntimeSafety None None.
Definition lifecycle_closure (request : ToolRequestId) : ToolApprovalResolution :=
  mkResolution request (Deny None) SourceLifecycleClosure None None.
Definition user_resolution (command : DurableCommandId) (request : ToolRequestId)
    (decision : ToolApprovalDecision) : ToolApprovalResolution :=
  mkResolution request decision SourceUserCommand (Some (DeciderUser command)) None.
Definition user_override (request : ToolRequestId) (command : DurableCommandId)
    (denied_request : ToolRequestId) : ToolApprovalResolution :=
  mkResolution request Approve SourceUserOverride (Some (DeciderUserOverride command denied_request))
    None.

Definition is_approved (r : ToolApprovalResolution) : bool :=
  match resolution_decision r with Approve => true | Deny _ => false end.

(** ** Delegates *)

Inductive DelegateApprovalRecommendation := RecommendApprove | RecommendDeny | EscalateToHuman.

#[export] Instance DelegateApprovalRecommendation_eq_dec : EqDecision DelegateApprovalRecommendation.
Proof. solve_decision. Defined.

Record DelegateToolApproval := mkDelegateApproval {
  delegate_request : ToolRequestId;
  delegate_posture : ToolApprovalPosture;
  delegate_model : DirectModelSelection;
  delegate_call : ModelCallId;
  delegate_recommendation : DelegateApprovalRecommendation;
  delegate_rationale : ToolDecisionRationale;
}.

Record DelegateToolApprovalError := mkDelegateError {
  rejected_posture : ToolApprovalPosture;
  rejected_recommendation : DelegateApprovalRecommendation;
}.

Definition delegate_try_new (request : ToolRequest) (model : DirectModelSelection)
    (call : ModelCallId) (recommendation : DelegateApprovalRecommendation)
    (rationale : ToolDecisionRationale) :
    result DelegateToolApprovalError DelegateToolApproval :=
  let permitted :=
    match request_posture request with
    | PostureDelegated => true
    | PostureHuman => bool_decide (recommendation = EscalateToHuman)
    | PostureAuto => false
    end in
  if negb permitted then Err (mkDelegateError (request_posture request) recommendation) else
  Ok (mkDelegateApproval (request_id request) (request_posture request) model call recommendation
        rationale).

(** [ToolApprovalResolution::delegate] *)
Definition delegate_resolution (approval : DelegateToolApproval) : option ToolApprovalResolution :=
  decision ←
    match delegate_recommendation approval with
    | RecommendApprove => Some Approve
    | RecommendDeny => Some (Deny (from_rationale (delegate_rationale approval)))
    | EscalateToHuman => None
    end;
  Some (mkResolution (delegate_request approval) decision SourceDelegate
          (Some (DeciderDelegate (delegate_model approval) (delegate_call approval)))
          (Some (delegate_rationale approval))).

(** ** Initial policy outcomes *)

Inductive InitialToolApproval :=
| InitialInadmissible | InitialConfirm | InitialAlwaysConfirm | InitialHuman | InitialDelegated
| InitialPolicyAuto | InitialSessionBlanket | InitialRuntimeSafetyDeny
| InitialUserOverride (command : DurableCommandId) (denied_request : ToolRequestId).

Definition initial_resolution (self : InitialToolApproval) (request : ToolRequestId) :
    option ToolApprovalResolution :=
  match self with
  | InitialConfirm | InitialAlwaysConfirm | InitialHuman | InitialDelegated | InitialInadmissible => None
  | InitialPolicyAuto => Some (policy_auto request)
  | InitialSessionBlanket => Some (session_blanket request)
  | InitialRuntimeSafetyDeny => Some (runtime_safety request)
  | InitialUserOverride command denied_request => Some (user_override request command denied_request)
  end.

Definition initial_posture (self : InitialToolApproval) : ToolApprovalPosture :=
  match self with
  | InitialConfirm | InitialAlwaysConfirm | InitialHuman | InitialInadmissible => PostureHuman
  | InitialDelegated | InitialUserOverride _ _ => PostureDelegated
  | InitialPolicyAuto | InitialSessionBlanket | InitialRuntimeSafetyDeny => PostureAuto
  end.

Definition requires_decision (self : InitialToolApproval) : bool :=
  match self with
  | InitialConfirm | InitialAlwaysConfirm | InitialHuman | InitialDelegated => true
  | InitialInadmissible | InitialPolicyAuto | InitialSessionBlanket | InitialRuntimeSafetyDeny
  | InitialUserOverride _ _ => false
  end.

Definition from_model_proposal (id : ToolRequestId) (session : SessionId) (turn : TurnId)
    (producing_call : ModelCallId) (ordinal : ToolRequestOrdinal) (proposal : ToolCallProposal)
    (approval : InitialToolApproval) : ToolRequest :=
  mkToolRequest id session turn producing_call ordinal (proposal_name proposal)
    (proposal_arguments proposal) (initial_posture approval) (proposal_inadmissible_reason proposal).

(** ** User decisions *)

(** [Uuid::is_nil] and [Uuid::is_max] *)
Definition is_reserved_uuid (uuid : N) : bool := (uuid =? 0)%N || (uuid =? 2 ^ 128 - 1)%N.

Record DecideToolRequest := mkDecide {
  decide_command : DurableCommandId;
  decide_request : ToolRequestId;
  decide_decision : ToolApprovalDecision;
}.

Definition decide_try_new (command : DurableCommandId) (request : ToolRequestId)
    (decision : ToolApprovalDecision) : result DurableCommandId DecideToolRequest :=
  if is_reserved_uuid (as_uuid command) then Err command else Ok (mkDecide command request decision).

Inductive DecideToolRequestRejectedResult :=
| AwaitingApprovalJudge (request : ToolRequestId)
| RequestNotFound (request : ToolRequestId)
| AlreadyResolved (request : ToolRequestId)
| NotEarliestUndecided (request earliest : ToolRequestId).

Inductive DecideToolRequestResult :=
| DecisionApplied (resolution : ToolApprovalResolution)
| DecisionRejected (rejection : DecideToolRequestRejectedResult).

Record PreparedDecideToolRequest := mkPreparedDecide {
  prepared_decide_command : DecideToolRequest;
  prepared_decide_result : DecideToolRequestResult;
}.

Record DecideToolRequestPreparationError := mkDecideError {
  decide_error_command : DecideToolRequest;
  decide_error_request : ToolRequestId;
}.

Definition prepare_applied (self : DecideToolRequest) (request : ToolRequest) :
    result DecideToolRequestPreparationError PreparedDecideToolRequest :=
  if negb (bool_decide (request_id request = decide_request self))
  then Err (mkDecideError self (request_id request)) else
  Ok (mkPreparedDecide self
        (DecisionApplied (user_resolution (decide_command self) (decide_request self)
           (decide_decision self)))).

Definition prepare_lifecycle_closure_applied (self : DecideToolRequest) (request : ToolRequest) :
    result DecideToolRequestPreparationError PreparedDecideToolRequest :=
  if negb (bool_decide (request_id request = decide_request self))
     || negb (bool_decide (decide_decision self = Deny None))
  then Err (mkDecideError self (request_id request)) else
  Ok (mkPreparedDecide self (DecisionApplied (lifecycle_closure (decide_request self)))).

Definition prepare_approval_timeout_applied (self : DecideToolRequest) (request : ToolRequest) :
    result DecideToolRequestPreparationError PreparedDecideToolRequest :=
  let resolution := approval_timeout (decide_request self) in
  if negb (bool_decide (request_id request = decide_request self))
     || negb (bool_decide (decide_decision self = resolution_decision resolution))
  then Err (mkDecideError self (request_id request)) else
  Ok (mkPreparedDecide self (DecisionApplied resolution)).

Definition prepare_request_not_found (self : DecideToolRequest) : PreparedDecideToolRequest :=
  mkPreparedDecide self (DecisionRejected (RequestNotFound (decide_request self))).
Definition prepare_already_resolved (self : DecideToolRequest) : PreparedDecideToolRequest :=
  mkPreparedDecide self (DecisionRejected (AlreadyResolved (decide_request self))).
Definition prepare_awaiting_approval_judge (self : DecideToolRequest) : PreparedDecideToolRequest :=
  mkPreparedDecide self (DecisionRejected (AwaitingApprovalJudge (decide_request self))).
Definition prepare_not_earliest (self : DecideToolRequest) (earliest : ToolRequestId) :
    PreparedDecideToolRequest :=
  mkPreparedDecide self (DecisionRejected (NotEarliestUndecided (decide_request self) earliest)).

(** ** Stored approval evidence *)

Inductive StoredToolApprovalEvidence :=
| StoredUserCommand (command : PreparedDecideToolRequest)
| StoredDelegate (approval : DelegateToolApproval) (stored_denial_reason : option ToolDenialReason)
| StoredPolicyAuto (request : ToolRequestId)
| StoredSessionBlanket (request : ToolRequestId) (frozen_posture : DangerousToolAutoApproval)
| StoredRuntimeSafety (request : ToolRequestId)
| StoredLifecycleClosure (request : ToolRequestId)
| StoredUserOverride (request : ToolRequestId) (command : DurableCommandId)
    (denied_request : ToolRequestId) (frozen_posture : ToolApprovalPosture).

Definition approval_reconstitute (evidence : StoredToolApprovalEvidence) :
    result StoredToolApprovalEvidence ToolApprovalResolution :=
  let resolution :=
    match evidence with
    | StoredUserCommand command =>
        match prepared_decide_result command with
        | DecisionApplied resolution =>
            if bool_decide (decide_request (prepared_decide_command command)
                            = resolution_request resolution)
               && bool_decide (resolution_source resolution = SourceUserCommand)
            then Some resolution else None
        | DecisionRejected _ => None
        end
    | StoredDelegate approval stored_denial_reason =>
        resolution ← delegate_resolution approval;
        match resolution_decision resolution with
        | Approve => if bool_decide (stored_denial_reason = None) then Some resolution else None
        | Deny reason => if bool_decide (reason = stored_denial_reason) then Some resolution else None
        end
    | StoredPolicyAuto request => Some (policy_auto request)
    | StoredSessionBlanket request ApproveAll => Some (session_blanket request)
    | StoredSessionBlanket _ AutoApprovalDisabled => None
    | StoredRuntimeSafety request => Some (runtime_safety request)
    | StoredLifecycleClosure request => Some (lifecycle_closure request)
    | StoredUserOverride request command denied_request PostureDelegated =>
        Some (user_override request command denied_request)
    | StoredUserOverride _ _ _ (PostureAuto | PostureHuman) => None
    end in
  match resolution with Some resolution => Ok resolution | None => Err evidence end.

(** ** Overrides of delegate denials *)

Inductive ToolRequestResolution :=
| ResolvedExecuted (attempt : ToolAttemptId)
| ResolvedDenied (request : ToolRequestId)
| ClosedInadmissible (request : ToolRequestId)
| ClosedByTurnEnd (request : ToolRequestId).

#[export] Instance ToolRequestResolution_eq_dec : EqDecision ToolRequestResolution.
Proof. solve_decision. Defined.

Record RecordedUserOverride := mkRecordedOverride {
  recorded_command : DurableCommandId;
  recorded_session : SessionId;
  recorded_denied_request : ToolRequestId;
  recorded_judge_call : ModelCallId;
  recorded_tool : ToolName;
  recorded_arguments : NormalizedToolArguments;
}.

Definition matches_proposal (self : RecordedUserOverride) (proposal : ToolCallProposal) : bool :=
  bool_decide (recorded_tool self = proposal_name proposal)
  && bool_decide (recorded_arguments self = proposal_arguments proposal).

Record OverrideDeniedToolRequest := mkOverride {
  override_command : DurableCommandId;
  override_session : SessionId;
  override_denied_request : ToolRequestId;
}.

Definition override_try_new (command : DurableCommandId) (session : SessionId)
    (denied_request : ToolRequestId) : result DurableCommandId OverrideDeniedToolRequest :=
  if is_reserved_uuid (as_uuid command) then Err command
  else Ok (mkOverride command session denied_request).

Inductive OverrideDeniedToolRequestRejectedResult :=
| OverrideRequestNotFound (denied_request : ToolRequestId)
| RequestNotInSession (session : SessionId) (denied_request : ToolRequestId)
| NotDelegateDenied (denied_request : ToolRequestId)
| NotTerminallyDenied (denied_request : ToolRequestId)
| AlreadyOverridden (denied_request : ToolRequestId).

Inductive OverrideDeniedToolRequestResult :=
| OverrideApplied (recorded : RecordedUserOverride)
| OverrideRejected (rejection : OverrideDeniedToolRequestRejectedResult).

Record PreparedOverrideDeniedToolRequest := mkPreparedOverride {
  prepared_override_command : OverrideDeniedToolRequest;
  prepared_override_result : OverrideDeniedToolRequestResult;
}.

Record OverrideDeniedToolRequestPreparationError := mkOverrideError {
  override_error_command : OverrideDeniedToolRequest;
  override_error_request : ToolRequestId;
}.

(** The judge call of a delegate denial. *)
Definition delegate_denial_call (approval : option ToolApprovalResolution) : option ModelCallId :=
  match approval with
  | Some approval =>
      match resolution_decision approval, resolution_decider approval with
      | Deny _, Some (DeciderDelegate _ call) => Some call
      | _, _ => None
      end
  | None => None
  end.

(** [OverrideDeniedToolRequest::prepare] *)
Definition override_prepare (self : OverrideDeniedToolRequest) (request : ToolRequest)
    (approval : option ToolApprovalResolution) (terminal_resolution : option ToolRequestResolution)
    (existing_override_command : option DurableCommandId) :
    result OverrideDeniedToolRequestPreparationError PreparedOverrideDeniedToolRequest :=
  let denied_request := override_denied_request self in
  let rejected rejection := Ok (mkPreparedOverride self (OverrideRejected rejection)) in
  if negb (bool_decide (request_id request = denied_request))
  then Err (mkOverrideError self (request_id request)) else
  _ ← match approval with
      | Some approval =>
          if negb (bool_decide (resolution_request approval = denied_request))
          then Err (mkOverrideError self (resolution_request approval)) else Ok tt
      | None => Ok tt
      end;
  if negb (bool_decide (request_session request = override_session self))
  then rejected (RequestNotInSession (override_session self) denied_request) else
  match delegate_denial_call approval with
  | None => rejected (NotDelegateDenied denied_request)
  | Some judge_call =>
      if negb (bool_decide (terminal_resolution = Some (ResolvedDenied denied_request)))
      then rejected (NotTerminallyDenied denied_request) else
      match existing_override_command with
      | Some _ => rejected (AlreadyOverridden denied_request)
      | None =>
          Ok (mkPreparedOverride self
                (OverrideApplied
                   (mkRecordedOverride (override_command self) (override_session self)
                      denied_request judge_call (request_name request) (request_arguments request))))
      end
  end.

Definition override_reconstitute_applied (self : OverrideDeniedToolRequest)
    (recorded : RecordedUserOverride) :
    result OverrideDeniedToolRequestPreparationError PreparedOverrideDeniedToolRequest :=
  if negb (bool_decide (recorded_command recorded = override_command self))
     || negb (bool_decide (recorded_session recorded = override_session self))
     || negb (bool_decide (recorded_denied_request recorded = override_denied_request self))
  then Err (mkOverrideError self (recorded_denied_request recorded))
  else Ok (mkPreparedOverride self (OverrideApplied recorded)).

Definition override_prepare_request_not_found (self : OverrideDeniedToolRequest) :
    PreparedOverrideDeniedToolRequest :=
  mkPreparedOverride self (OverrideRejected (OverrideRequestNotFound (override_denied_request self))).
