(* ===== verification/ToolAttempt.v ===== *)
(** * Physical tool attempts

    Model of [crates/domain/src/tool_attempt.rs] with the result content of
    [crates/domain/src/tool/result.rs] and [crates/domain/src/tool/media.rs]:
    one authorized physical effort of an approved request, its dispatch fence,
    the evidence that ends it, crash classification and reconstitution. *)

From stdpp Require Import strings pretty.
From S2P Require Import Prelude Configuration Tool.

(** ** Dispatch generations *)

(** [ToolDispatchGeneration(u64)], positive by construction. *)
Record ToolDispatchGeneration := mkGeneration { generation_ordinal : positive }.
Definition generation_try_from_u64 (value : N) : option ToolDispatchGeneration :=
  match value with N0 => None | Npos p => Some (mkGeneration p) end.
Definition dispatch_generation_first : ToolDispatchGeneration := mkGeneration 1.
Definition dispatch_generation_checked_next (g : ToolDispatchGeneration) :
    option ToolDispatchGeneration :=
  mkGeneration <$> nonzero_u64_checked_add (generation_ordinal g) 1.

#[export] Instance ToolDispatchGeneration_eq_dec : EqDecision ToolDispatchGeneration.
Proof. solve_decision. Defined.

(** ** Result content *)

Inductive MediaValidationEvidence := StrongSignature | StructuralValidation.

(** [BlobDigest([u8; 32])] as its value. *)
Record MediaValidationIdentity := mkMediaIdentity {
  media_digest : N;
  media_type : text;
  media_provider : text;
  media_reader : text;
  media_revision : text;
  media_evidence : MediaValidationEvidence;
}.

Inductive ToolMediaKind := MediaImage | MediaDocument.

Record ToolMediaReference := mkMediaReference {
  media_kind : ToolMediaKind;
  media_presented : MediaValidationIdentity;
  media_source : MediaValidationIdentity;
  media_byte_length : positive;
}.

Record ToolResultText := mkResultText { result_text : text }.

Definition MAX_RESULT_UTF8_BYTES : N := 1048576.

Inductive ToolResultTextFailure := ResultTooLargeFailure (bytes : N) | ResultContainsNullFailure.

Definition result_text_try_new (value : text) : result (text * ToolResultTextFailure) ToolResultText :=
  if (MAX_RESULT_UTF8_BYTES <? text_len value)%N
  then Err (value, ResultTooLargeFailure (text_len value)) else
  if text_contains_null value then Err (value, ResultContainsNullFailure) else
  Ok (mkResultText value).

Inductive ToolResultContent :=
| TextResult (content : ToolResultText)
| MediaResult (content : ToolResultText) (reference : ToolMediaReference).

(** ** Execution errors *)

Inductive ToolExecutionErrorKind :=
| UnknownTool | InvalidArguments | PreauthorizationRejected | ExecutionFailed | ResultTooLarge
| ResultContainsNull | CrashLost.

Record ToolExecutionErrorDetail := mkDetail { detail_text : text }.

Inductive ToolExecutionErrorDetailFailure :=
| DetailEmpty | DetailTooLong (bytes : N) | DetailSurroundingWhitespace | DetailContainsControl.

Definition MAX_TOOL_ERROR_DETAIL_BYTES : N := 4096.

Definition detail_try_new (value : text) :
    result (text * ToolExecutionErrorDetailFailure) ToolExecutionErrorDetail :=
  let failure :=
    if bool_decide (value = []) then Some DetailEmpty
    else if (MAX_TOOL_ERROR_DETAIL_BYTES <? text_len value)%N
    then Some (DetailTooLong (text_len value))
    else if has_surrounding_posix_whitespace value then Some DetailSurroundingWhitespace
    else if existsb is_control value then Some DetailContainsControl
    else None in
  match failure with
  | Some failure => Err (value, failure)
  | None => Ok (mkDetail value)
  end.

Record ToolExecutionError := mkExecutionError {
  error_kind : ToolExecutionErrorKind;
  error_detail : option ToolExecutionErrorDetail;
}.

#[export] Instance ToolExecutionErrorKind_eq_dec : EqDecision ToolExecutionErrorKind.
Proof. solve_decision. Defined.
#[export] Instance ToolExecutionErrorDetail_eq_dec : EqDecision ToolExecutionErrorDetail.
Proof. solve_decision. Defined.
#[export] Instance ToolExecutionError_eq_dec : EqDecision ToolExecutionError.
Proof. solve_decision. Defined.
#[export] Instance MediaValidationEvidence_eq_dec : EqDecision MediaValidationEvidence.
Proof. solve_decision. Defined.
#[export] Instance MediaValidationIdentity_eq_dec : EqDecision MediaValidationIdentity.
Proof. solve_decision. Defined.
#[export] Instance ToolMediaKind_eq_dec : EqDecision ToolMediaKind.
Proof. solve_decision. Defined.
#[export] Instance ToolMediaReference_eq_dec : EqDecision ToolMediaReference.
Proof. solve_decision. Defined.
#[export] Instance ToolResultText_eq_dec : EqDecision ToolResultText.
Proof. solve_decision. Defined.
#[export] Instance ToolResultContent_eq_dec : EqDecision ToolResultContent.
Proof. solve_decision. Defined.

(** [ToolInadmissibleReason::execution_error] *)
Definition execution_error (reason : ToolInadmissibleReason) : ToolExecutionError :=
  match reason with
  | ProposalLimitExceeded limit =>
      mkExecutionError ExecutionFailed
        (Some (mkDetail (lit "proposal_limit_exceeded: maximum " ++ lit (pretty limit)
                           ++ lit " proposals per response")))
  | ArgumentBytesExceeded limit bytes =>
      mkExecutionError InvalidArguments
        (Some (mkDetail (lit "argument payload has " ++ lit (pretty bytes) ++ lit " bytes; maximum "
                           ++ lit (pretty limit) ++ lit " bytes")))
  | PlacementLost => mkExecutionError ExecutionFailed (Some (mkDetail (lit "placement_lost")))
  end.

(** ** Attempts *)

Inductive CurrentToolAttemptState := ToolPrepared | ToolInFlight.

Record ChildWait := mkChildWait {
  awaiting_request : ToolRequestId;
  spawning_request : ToolRequestId;
  wait_child : SessionId;
}.

Inductive ToolAttemptEnd :=
| EndCompleted (content : ToolResultContent)
| EndKnownFailed (error : ToolExecutionError)
| EndAwaitingChild (spawning_request : ToolRequestId) (child : SessionId)
| EndAmbiguous.

Inductive ToolAttemptDisposition :=
| DispositionCompleted | DispositionKnownFailed | DispositionAwaitingChild | DispositionAmbiguous.

Definition end_disposition (e : ToolAttemptEnd) : ToolAttemptDisposition :=
  match e with
  | EndCompleted _ => DispositionCompleted
  | EndKnownFailed _ => DispositionKnownFailed
  | EndAwaitingChild _ _ => DispositionAwaitingChild
  | EndAmbiguous => DispositionAmbiguous
  end.

Inductive ToolAttemptObservation :=
| ObservedCompleted (content : ToolResultContent)
| ObservedKnownFailed (error : ToolExecutionError)
| ObservedAmbiguous.

#[export] Instance CurrentToolAttemptState_eq_dec : EqDecision CurrentToolAttemptState.
Proof. solve_decision. Defined.
#[export] Instance ToolAttemptEnd_eq_dec : EqDecision ToolAttemptEnd.
Proof. solve_decision. Defined.

Record ToolAttemptDispatchCorrelation := mkCorrelation {
  correlation_session : SessionId;
  correlation_turn : TurnId;
  correlation_issuing_attempt : TurnAttemptId;
  correlation_request : ToolRequestId;
  correlation_attempt : ToolAttemptId;
  correlation_generation : ToolDispatchGeneration;
}.

#[export] Instance ToolAttemptDispatchCorrelation_eq_dec :
  EqDecision ToolAttemptDispatchCorrelation.
Proof. solve_decision. Defined.

(** Minted only by authorized attempts. *)
Record IssuedExecutorFence := mkFence { fence_correlation : ToolAttemptDispatchCorrelation }.

Record CorrelatedToolAttemptObservation := mkObservation {
  observation_correlation : ToolAttemptDispatchCorrelation;
  observation : ToolAttemptObservation;
}.

Definition bind_observation (fence : IssuedExecutorFence) (observation : ToolAttemptObservation) :
    CorrelatedToolAttemptObservation := mkObservation (fence_correlation fence) observation.

Record CurrentToolAttempt := mkToolAttempt {
  tool_attempt_id : ToolAttemptId;
  tool_attempt_request : ToolRequestId;
  tool_attempt_session : SessionId;
  tool_attempt_turn : TurnId;
  tool_attempt_issuing : TurnAttemptId;
  tool_attempt_effect_class : ToolEffectClass;
  tool_attempt_generation : ToolDispatchGeneration;
  tool_attempt_state : CurrentToolAttemptState;
}.

Record EndedToolAttempt := mkEndedToolAttempt {
  ended_tool_id : ToolAttemptId;
  ended_tool_request : ToolRequestId;
  ended_tool_session : SessionId;
  ended_tool_turn : TurnId;
  ended_tool_issuing : TurnAttemptId;
  ended_tool_effect_class : ToolEffectClass;
  ended_tool_generation : ToolDispatchGeneration;
  ended_tool_end : ToolAttemptEnd;
}.

Inductive ReconstitutedToolAttempt :=
| CurrentAttempt (attempt : CurrentToolAttempt)
| EndedAttempt (attempt : EndedToolAttempt).

#[export] Instance CurrentToolAttempt_eq_dec : EqDecision CurrentToolAttempt.
Proof. solve_decision. Defined.
#[export] Instance EndedToolAttempt_eq_dec : EqDecision EndedToolAttempt.
Proof. solve_decision. Defined.
#[export] Instance ReconstitutedToolAttempt_eq_dec : EqDecision ReconstitutedToolAttempt.
Proof. solve_decision. Defined.

(** ** Approved requests *)

Record ApprovedToolRequest := mkApproved {
  approved_request : ToolRequest;
  approved_approval : ToolApprovalResolution;
}.

Definition try_from_resolution (request : ToolRequest) (approval : ToolApprovalResolution) :
    result (ToolRequest * ToolApprovalResolution) ApprovedToolRequest :=
  if negb (bool_decide (request_inadmissible_reason request = None))
     || negb (bool_decide (request_id request = resolution_request approval))
     || negb (bool_decide (resolution_decision approval = Approve))
  then Err (request, approval) else Ok (mkApproved request approval).

Definition prepare_attempt (self : ApprovedToolRequest) (attempt : ToolAttemptId)
    (issuing_attempt : TurnAttemptId) (effect_class : ToolEffectClass) : CurrentToolAttempt :=
  mkToolAttempt attempt (request_id (approved_request self)) (request_session (approved_request self))
    (request_turn (approved_request self)) issuing_attempt effect_class dispatch_generation_first
    ToolPrepared.

(** ** Issuance cells

    [Arc<AtomicU8>]: the address of a shared cell. Cells live in a store that
    the operations on them thread; every access is one atomic step. *)

Abbreviation IssuanceCell := positive (only parsing).
Abbreviation IssuanceStore := (gmap positive N).

Definition RUNNER_ISSUANCE_AVAILABLE : N := 0.
Definition RUNNER_ISSUANCE_ISSUED : N := 1.
Definition RUNNER_ISSUANCE_RETIRED : N := 2.

(** [AtomicU8::compare_exchange(expected, new).is_ok()] *)
Definition compare_exchange (store : IssuanceStore) (cell : IssuanceCell) (expected new : N) :
    bool * IssuanceStore :=
  if bool_decide (store !! cell = Some expected) then (true, <[cell := new]> store)
  else (false, store).

Record AuthorizedToolAttempt := mkAuthorized {
  authorized_attempt : CurrentToolAttempt;
  authorized_correlation : ToolAttemptDispatchCorrelation;
  authorized_runner_issuance : IssuanceCell;
}.

Definition executor_fence (self : AuthorizedToolAttempt) : IssuedExecutorFence :=
  mkFence (authorized_correlation self).

Definition claim_runner_issuance (store : IssuanceStore) (self : AuthorizedToolAttempt) :
    bool * IssuanceStore :=
  compare_exchange store (authorized_runner_issuance self) RUNNER_ISSUANCE_AVAILABLE
    RUNNER_ISSUANCE_ISSUED.

(** ** Transitions *)

Inductive ToolAttemptTransitionFailure :=
| InvalidState | CorrelationMismatch | InvalidPreflightError | InvalidObservationError
| EffectFreeCannotBeAmbiguous | InvalidChildWait.

Record ToolAttemptTransitionError := mkToolAttemptError {
  error_attempt : CurrentToolAttempt;
  error_failure : ToolAttemptTransitionFailure;
}.

Abbreviation tool_result := (result ToolAttemptTransitionError).

Definition attempt_correlation (self : CurrentToolAttempt) : ToolAttemptDispatchCorrelation :=
  mkCorrelation (tool_attempt_session self) (tool_attempt_turn self) (tool_attempt_issuing self)
    (tool_attempt_request self) (tool_attempt_id self) (tool_attempt_generation self).

Definition end_tool_attempt (self : CurrentToolAttempt) (e : ToolAttemptEnd) : EndedToolAttempt :=
  mkEndedToolAttempt (tool_attempt_id self) (tool_attempt_request self) (tool_attempt_session self)
    (tool_attempt_turn self) (tool_attempt_issuing self) (tool_attempt_effect_class self)
    (tool_attempt_generation self) e.

(** [authorize] with the cell the caller supplies; [authorize] alone allocates
    a fresh available cell. *)
Definition authorize_with_runner_issuance (self : CurrentToolAttempt) (cell : IssuanceCell) :
    tool_result AuthorizedToolAttempt :=
  if negb (bool_decide (tool_attempt_state self = ToolPrepared))
  then Err (mkToolAttemptError self InvalidState) else
  Ok (mkAuthorized
        (mkToolAttempt (tool_attempt_id self) (tool_attempt_request self) (tool_attempt_session self)
           (tool_attempt_turn self) (tool_attempt_issuing self) (tool_attempt_effect_class self)
           (tool_attempt_generation self) ToolInFlight)
        (attempt_correlation self) cell).

Definition resume_in_flight_with_runner_issuance (self : CurrentToolAttempt) (cell : IssuanceCell) :
    tool_result AuthorizedToolAttempt :=
  if negb (bool_decide (tool_attempt_state self = ToolInFlight))
  then Err (mkToolAttemptError self InvalidState) else
  Ok (mkAuthorized self (attempt_correlation self) cell).

Definition is_preflight_error (kind : ToolExecutionErrorKind) : bool :=
  match kind with
  | UnknownTool | InvalidArguments | PreauthorizationRejected => true
  | ExecutionFailed | ResultTooLarge | ResultContainsNull | CrashLost => false
  end.

Definition end_preflight_error (self : CurrentToolAttempt) (error : ToolExecutionError) :
    tool_result EndedToolAttempt :=
  if negb (bool_decide (tool_attempt_state self = ToolPrepared))
  then Err (mkToolAttemptError self InvalidState) else
  if negb (is_preflight_error (error_kind error))
  then Err (mkToolAttemptError self InvalidPreflightError) else
  Ok (end_tool_attempt self (EndKnownFailed error)).

Definition end_placement_lost (self : CurrentToolAttempt) : tool_result EndedToolAttempt :=
  if negb (bool_decide (tool_attempt_state self = ToolPrepared))
  then Err (mkToolAttemptError self InvalidState) else
  Ok (end_tool_attempt self (EndKnownFailed (execution_error PlacementLost))).

Definition is_observed_error (kind : ToolExecutionErrorKind) : bool :=
  match kind with
  | ExecutionFailed | ResultTooLarge | ResultContainsNull => true
  | UnknownTool | InvalidArguments | PreauthorizationRejected | CrashLost => false
  end.

Definition apply_terminal_observation (self : CurrentToolAttempt)
    (observed : CorrelatedToolAttemptObservation) : tool_result EndedToolAttempt :=
  if negb (bool_decide (tool_attempt_state self = ToolInFlight))
  then Err (mkToolAttemptError self InvalidState) else
  if negb (bool_decide (observation_correlation observed = attempt_correlation self))
  then Err (mkToolAttemptError self CorrelationMismatch) else
  e ← match observation observed with
      | ObservedCompleted content => Ok (EndCompleted content)
      | ObservedKnownFailed error =>
          if is_observed_error (error_kind error) then Ok (EndKnownFailed error)
          else Err (mkToolAttemptError self InvalidObservationError)
      | ObservedAmbiguous =>
          if bool_decide (tool_attempt_effect_class self = ExternalEffect) then Ok EndAmbiguous
          else Err (mkToolAttemptError self EffectFreeCannotBeAmbiguous)
      end;
  Ok (end_tool_attempt self e).

Definition end_foreground_child_wait (self : CurrentToolAttempt) (wait : ChildWait) :
    tool_result EndedToolAttempt :=
  if negb (bool_decide (tool_attempt_state self = ToolInFlight))
  then Err (mkToolAttemptError self InvalidState) else
  if negb (bool_decide (tool_attempt_effect_class self = EffectFree))
     || negb (bool_decide (tool_attempt_request self = awaiting_request wait))
  then Err (mkToolAttemptError self InvalidChildWait) else
  Ok (end_tool_attempt self (EndAwaitingChild (spawning_request wait) (wait_child wait))).

Inductive ToolAttemptCrashOutcome :=
| CrashKnownFailed (attempt : EndedToolAttempt)
| CrashAmbiguous (attempt : EndedToolAttempt).

Definition classify_crash_loss (self : CurrentToolAttempt) : ToolAttemptCrashOutcome :=
  match tool_attempt_state self, tool_attempt_effect_class self with
  | ToolInFlight, ExternalEffect => CrashAmbiguous (end_tool_attempt self EndAmbiguous)
  | ToolPrepared, EffectFree | ToolInFlight, EffectFree | ToolPrepared, ExternalEffect =>
      CrashKnownFailed (end_tool_attempt self (EndKnownFailed (mkExecutionError CrashLost None)))
  end.

(** ** Dispatch authority *)

Record ToolDispatchAuthority := mkDispatchAuthority {
  authority_request : ToolRequest;
  authority_attempt : CurrentToolAttempt;
  authority_fence : IssuedExecutorFence;
}.

Definition dispatch_authority_try_new (request : ToolRequest) (authorized : AuthorizedToolAttempt) :
    option ToolDispatchAuthority :=
  let attempt := authorized_attempt authorized in
  if bool_decide (request_id request = tool_attempt_request attempt)
     && bool_decide (request_session request = tool_attempt_session attempt)
     && bool_decide (request_turn request = tool_attempt_turn attempt)
  then Some (mkDispatchAuthority request attempt (executor_fence authorized)) else None.

(** ** Reconstitution *)

Inductive ToolAttemptReconstitutionState :=
| StoredToolPrepared | StoredToolInFlight | StoredToolEnded (e : ToolAttemptEnd).

Record ToolAttemptReconstitutionInput := mkToolAttemptInput {
  stored_tool_attempt : ToolAttemptId;
  stored_tool_request : ToolRequestId;
  stored_tool_session : SessionId;
  stored_tool_turn : TurnId;
  stored_tool_issuing : TurnAttemptId;
  stored_tool_effect_class : ToolEffectClass;
  stored_tool_generation : ToolDispatchGeneration;
  stored_tool_state : ToolAttemptReconstitutionState;
}.

Definition effect_class_allows_reconstituted_state (effect_class : ToolEffectClass)
    (state : ToolAttemptReconstitutionState) : bool :=
  match effect_class, state with
  | ExternalEffect, StoredToolEnded (EndAwaitingChild _ _) => false
  | _, (StoredToolPrepared | StoredToolInFlight
       | StoredToolEnded (EndCompleted _ | EndKnownFailed _ | EndAmbiguous))
  | EffectFree, StoredToolEnded (EndAwaitingChild _ _) => true
  end.

Definition tool_attempt_reconstitute (self : ToolAttemptReconstitutionInput) :
    result ToolAttemptReconstitutionInput ReconstitutedToolAttempt :=
  if negb (bool_decide (stored_tool_generation self = dispatch_generation_first))
     || negb (effect_class_allows_reconstituted_state (stored_tool_effect_class self)
                (stored_tool_state self))
  then Err self else
  let current state :=
    CurrentAttempt (mkToolAttempt (stored_tool_attempt self) (stored_tool_request self)
      (stored_tool_session self) (stored_tool_turn self) (stored_tool_issuing self)
      (stored_tool_effect_class self) (stored_tool_generation self) state) in
  Ok match stored_tool_state self with
     | StoredToolPrepared => current ToolPrepared
     | StoredToolInFlight => current ToolInFlight
     | StoredToolEnded e =>
         EndedAttempt (mkEndedToolAttempt (stored_tool_attempt self) (stored_tool_request self)
           (stored_tool_session self) (stored_tool_turn self) (stored_tool_issuing self)
           (stored_tool_effect_class self) (stored_tool_generation self) e)
     end.
