(* ===== verification/ToolAttemptSpec.v ===== *)
(** * What tool attempts promise

    The evidence that ends an attempt is honest about what was authorized, the
    stored facts of every attempt are reconstituted exactly, and the dispatch
    authority of a shared issuance cell is claimed at most once. *)

From stdpp Require Import strings.
From S2P Require Import Prelude Configuration Tool ToolAttempt.

(** ** Histories of one attempt *)

Inductive attempt_action :=
| DoAuthorize (cell : IssuanceCell)
| DoResume (cell : IssuanceCell)
| DoPreflightError (error : ToolExecutionError)
| DoPlacementLost
| DoObserve (observed : CorrelatedToolAttemptObservation)
| DoChildWait (wait : ChildWait)
| DoCrash.

Definition ok_option {E A} (m : result E A) : option A :=
  match m with Ok a => Some a | Err _ => None end.

Definition perform_attempt_action (a : ReconstitutedToolAttempt) (action : attempt_action) :
    option ReconstitutedToolAttempt :=
  match a with
  | EndedAttempt _ => None
  | CurrentAttempt c =>
      match action with
      | DoAuthorize cell =>
          CurrentAttempt ∘ authorized_attempt <$> ok_option (authorize_with_runner_issuance c cell)
      | DoResume cell =>
          CurrentAttempt ∘ authorized_attempt
            <$> ok_option (resume_in_flight_with_runner_issuance c cell)
      | DoPreflightError error => EndedAttempt <$> ok_option (end_preflight_error c error)
      | DoPlacementLost => EndedAttempt <$> ok_option (end_placement_lost c)
      | DoObserve observed => EndedAttempt <$> ok_option (apply_terminal_observation c observed)
      | DoChildWait wait => EndedAttempt <$> ok_option (end_foreground_child_wait c wait)
      | DoCrash =>
          Some match classify_crash_loss c with
               | CrashKnownFailed e | CrashAmbiguous e => EndedAttempt e
               end
      end
  end.

Fixpoint run_attempt (a : ReconstitutedToolAttempt) (actions : list attempt_action) :
    option ReconstitutedToolAttempt :=
  match actions with
  | [] => Some a
  | action :: actions => a ← perform_attempt_action a action; run_attempt a actions
  end.

Definition set_attempt_state (p : CurrentToolAttempt) (state : CurrentToolAttemptState) :
    CurrentToolAttempt :=
  mkToolAttempt (tool_attempt_id p) (tool_attempt_request p) (tool_attempt_session p)
    (tool_attempt_turn p) (tool_attempt_issuing p) (tool_attempt_effect_class p)
    (tool_attempt_generation p) state.

(** The evidence that may end a dispatched attempt, and one that never was. *)
Inductive dispatched_end (p : CurrentToolAttempt) : attempt_action -> ToolAttemptEnd -> Prop :=
| dispatched_completed content :
    dispatched_end p (DoObserve (mkObservation (attempt_correlation p) (ObservedCompleted content)))
      (EndCompleted content)
| dispatched_failed error :
    is_observed_error (error_kind error) = true ->
    dispatched_end p (DoObserve (mkObservation (attempt_correlation p) (ObservedKnownFailed error)))
      (EndKnownFailed error)
| dispatched_ambiguous :
    tool_attempt_effect_class p = ExternalEffect ->
    dispatched_end p (DoObserve (mkObservation (attempt_correlation p) ObservedAmbiguous)) EndAmbiguous
| dispatched_child spawning child :
    tool_attempt_effect_class p = EffectFree ->
    dispatched_end p (DoChildWait (mkChildWait (tool_attempt_request p) spawning child))
      (EndAwaitingChild spawning child)
| dispatched_lost :
    tool_attempt_effect_class p = EffectFree ->
    dispatched_end p DoCrash (EndKnownFailed (mkExecutionError CrashLost None))
| dispatched_lost_ambiguous :
    tool_attempt_effect_class p = ExternalEffect -> dispatched_end p DoCrash EndAmbiguous.

Inductive undispatched_end : attempt_action -> ToolAttemptEnd -> Prop :=
| undispatched_preflight error :
    is_preflight_error (error_kind error) = true ->
    undispatched_end (DoPreflightError error) (EndKnownFailed error)
| undispatched_placement :
    undispatched_end DoPlacementLost (EndKnownFailed (execution_error PlacementLost))
| undispatched_lost : undispatched_end DoCrash (EndKnownFailed (mkExecutionError CrashLost None)).

Definition is_resume (action : attempt_action) : Prop := exists cell, action = DoResume cell.

Lemma run_attempt_ended e actions a :
  run_attempt (EndedAttempt e) actions = Some a -> actions = [] /\ a = EndedAttempt e.
Proof. destruct actions; simpl; [by intros [= <-]|done]. Qed.

Lemma in_flight_step p action a :
  tool_attempt_state p = ToolInFlight ->
  perform_attempt_action (CurrentAttempt p) action = Some a ->
  is_resume action /\ a = CurrentAttempt p \/
  exists e, dispatched_end p action e /\ a = EndedAttempt (end_tool_attempt p e).
Proof.
  intros Hp. destruct action as [cell|cell|error| |[c o]|[w s k]|]; simpl.
  - unfold authorize_with_runner_issuance. by rewrite Hp.
  - unfold resume_in_flight_with_runner_issuance. rewrite Hp. simpl. intros [= <-]. left.
    split; [by eexists|done].
  - unfold end_preflight_error. by rewrite Hp.
  - unfold end_placement_lost. by rewrite Hp.
  - unfold apply_terminal_observation. rewrite Hp. simpl. case_bool_decide as Hc; [subst c|done].
    simpl. intros H. right. destruct o as [content|error|]; simpl in H.
    + injection H as <-. eexists. split; [constructor|done].
    + destruct (is_observed_error _) eqn:He; [|done]. injection H as <-.
      eexists. split; [by constructor|done].
    + case_bool_decide; [|done]. injection H as <-. eexists. split; [by constructor|done].
  - unfold end_foreground_child_wait. rewrite Hp. simpl.
    case_bool_decide; [|done]. case_bool_decide as Hw; [|done]. simpl in *. subst w.
    intros [= <-]. right. eexists. split; [by constructor|done].
  - unfold classify_crash_loss. rewrite Hp. intros [= <-]. right.
    destruct (tool_attempt_effect_class p) eqn:He; eexists; (split; [by constructor|done]).
Qed.

Lemma prepared_step p action a :
  tool_attempt_state p = ToolPrepared ->
  perform_attempt_action (CurrentAttempt p) action = Some a ->
  (exists cell, action = DoAuthorize cell) /\ a = CurrentAttempt (set_attempt_state p ToolInFlight) \/
  exists e, undispatched_end action e /\ a = EndedAttempt (end_tool_attempt p e).
Proof.
  intros Hp. destruct action as [cell|cell|error| |o|w|]; simpl.
  - unfold authorize_with_runner_issuance. rewrite Hp. simpl. intros [= <-]. left.
    split; [by eexists|done].
  - unfold resume_in_flight_with_runner_issuance. by rewrite Hp.
  - unfold end_preflight_error. rewrite Hp. simpl. destruct (is_preflight_error _) eqn:He; [|done].
    intros [= <-]. right. eexists. split; [by constructor|done].
  - unfold end_placement_lost. rewrite Hp. simpl. intros [= <-]. right.
    eexists. split; [constructor|done].
  - unfold apply_terminal_observation. by rewrite Hp.
  - unfold end_foreground_child_wait. by rewrite Hp.
  - unfold classify_crash_loss. rewrite Hp. intros [= <-]. right. eexists. split; [constructor|].
    by destruct (tool_attempt_effect_class p).
Qed.

Lemma run_in_flight p actions a :
  tool_attempt_state p = ToolInFlight ->
  run_attempt (CurrentAttempt p) actions = Some a ->
  Forall is_resume actions /\ a = CurrentAttempt p \/
  exists resumes action e, actions = resumes ++ [action] /\ Forall is_resume resumes /\
    dispatched_end p action e /\ a = EndedAttempt (end_tool_attempt p e).
Proof.
  intros Hp. induction actions as [|action actions IH]; simpl; [intros [= <-]; left; auto|].
  intros (b & Hb & H)%bind_Some. apply in_flight_step in Hb as [[Hr ->]|(e & He & ->)]; [..|done].
  - destruct (IH H) as [[Hall ->]|(rs & last_ & e & -> & Hall & Hd & ->)].
    + left. by auto.
    + right. exists (action :: rs), last_, e. by auto.
  - apply run_attempt_ended in H as [-> ->]. right. by exists [], action, e.
Qed.

(** The evidence depends on the authorized facts alone, not on the state. *)
Lemma dispatched_end_state p state action e :
  dispatched_end (set_attempt_state p state) action e -> dispatched_end p action e.
Proof.
  intros Hd. destruct Hd as [content|error He|He|spawning child He|He|He].
  - exact (dispatched_completed p content).
  - exact (dispatched_failed p error He).
  - exact (dispatched_ambiguous p He).
  - exact (dispatched_child p spawning child He).
  - exact (dispatched_lost p He).
  - exact (dispatched_lost_ambiguous p He).
Qed.

(** C19. Whatever is done to a prepared attempt, its end keeps every authorized
    fact, and the evidence is honest: without a dispatch authorization only
    preflight errors, a lost placement or a crash end it, as known failures;
    after one, results, errors and ambiguity come only from an observation
    bound to exactly this attempt's fence, child waits only from effect-free
    work on this request, and a crash is ambiguous exactly for external
    effects. *)
Theorem tool_attempt_end_honest p actions ended :
  tool_attempt_state p = ToolPrepared ->
  run_attempt (CurrentAttempt p) actions = Some (EndedAttempt ended) ->
  exists e, ended = end_tool_attempt p e /\
    ((exists action, actions = [action] /\ undispatched_end action e) \/
     (exists cell resumes action, actions = DoAuthorize cell :: resumes ++ [action] /\
       Forall is_resume resumes /\ dispatched_end p action e)).
Proof.
  intros Hp. destruct actions as [|action actions]; simpl; [done|].
  intros (b & Hb & H)%bind_Some.
  apply prepared_step in Hb as [[[cell ->] ->]|(e & He & ->)]; [..|done].
  - apply run_in_flight in H as [[_ [=]]|(rs & last_ & e & -> & Hall & Hd & [= ->])]; [|done].
    exists e. split; [done|]. right. exists cell, rs, last_. split_and!; [done..|].
    exact (dispatched_end_state _ _ _ _ Hd).
  - apply run_attempt_ended in H as [-> [= ->]]. exists e. split; [done|]. left. by exists action.
Qed.

(** ** Stored facts *)

Definition attempt_facts_input (a : ReconstitutedToolAttempt) : ToolAttemptReconstitutionInput :=
  match a with
  | CurrentAttempt c =>
      mkToolAttemptInput (tool_attempt_id c) (tool_attempt_request c) (tool_attempt_session c)
        (tool_attempt_turn c) (tool_attempt_issuing c) (tool_attempt_effect_class c)
        (tool_attempt_generation c)
        (match tool_attempt_state c with
         | ToolPrepared => StoredToolPrepared
         | ToolInFlight => StoredToolInFlight
         end)
  | EndedAttempt e =>
      mkToolAttemptInput (ended_tool_id e) (ended_tool_request e) (ended_tool_session e)
        (ended_tool_turn e) (ended_tool_issuing e) (ended_tool_effect_class e)
        (ended_tool_generation e) (StoredToolEnded (ended_tool_end e))
  end.

(** The stored facts of every attempt prepared for an approved request,
    after any history, are reconstituted to exactly that attempt. *)
Theorem tool_attempt_roundtrip approved id issuing effect_class actions a :
  run_attempt (CurrentAttempt (prepare_attempt approved id issuing effect_class)) actions = Some a ->
  tool_attempt_reconstitute (attempt_facts_input a) = Ok a.
Proof.
  set (p := prepare_attempt approved id issuing effect_class). intros Hr.
  assert (a = CurrentAttempt p \/ a = CurrentAttempt (set_attempt_state p ToolInFlight) \/
    exists e, a = EndedAttempt (end_tool_attempt p e) /\
      effect_class_allows_reconstituted_state effect_class (StoredToolEnded e) = true) as Ha.
  { destruct actions as [|action actions]; [injection Hr as <-; by left|].
    cbn [run_attempt] in Hr. apply bind_Some in Hr as (b & Hb & H).
    apply prepared_step in Hb as [[[cell ->] ->]|(e & He & ->)]; [..|done].
    - apply run_in_flight in H as [[_ ->]|(rs & last_ & e & -> & _ & Hd & ->)]; [..|done].
      + right; by left.
      + right; right. exists e. split; [done|].
        by destruct Hd, effect_class.
    - apply run_attempt_ended in H as [-> ->]. right; right. exists e. split; [done|].
      by destruct He, effect_class. }
  destruct Ha as [->|[->|(e & -> & He)]]; unfold tool_attempt_reconstitute; simpl.
  - by destruct effect_class.
  - by destruct effect_class.
  - by rewrite He.
Qed.

(** ** Issuance cells *)

(** Any interleaving of claims and other atomic accesses to the store: a claim
    may come from any clone of an authority that holds the cell. *)
Inductive issuance_access :=
| Claim (cell : IssuanceCell)
| Retire (cell : IssuanceCell)
| Allocate (cell : IssuanceCell).

Definition access (store : IssuanceStore) (a : issuance_access) : bool * IssuanceStore :=
  match a with
  | Claim cell => compare_exchange store cell RUNNER_ISSUANCE_AVAILABLE RUNNER_ISSUANCE_ISSUED
  | Retire cell => compare_exchange store cell RUNNER_ISSUANCE_ISSUED RUNNER_ISSUANCE_RETIRED
  | Allocate cell =>
      match store !! cell with
      | None => (true, <[cell := RUNNER_ISSUANCE_AVAILABLE]> store)
      | Some _ => (false, store)
      end
  end.

(** Runs a schedule and returns, in order, the successful accesses. *)
Fixpoint run_accesses (store : IssuanceStore) (schedule : list issuance_access) :
    list issuance_access * IssuanceStore :=
  match schedule with
  | [] => ([], store)
  | a :: schedule =>
      let '(won, store) := access store a in
      let '(winners, store) := run_accesses store schedule in
      ((if won then [a] else []) ++ winners, store)
  end.

Definition is_claim_of (cell : IssuanceCell) (a : issuance_access) : bool :=
  match a with Claim c => bool_decide (c = cell) | _ => false end.
Definition touches (cell : IssuanceCell) (a : issuance_access) : bool :=
  match a with Claim c | Retire c | Allocate c => bool_decide (c = cell) end.

(** An access to one cell leaves the others alone. *)
Lemma access_other store a cell :
  touches cell a = false -> snd (access store a) !! cell = store !! cell.
Proof.
  intros Ht. destruct a as [c|c|c]; simpl in Ht; apply bool_decide_eq_false in Ht;
    unfold access, compare_exchange; case_match; cbn [snd]; rewrite ?lookup_insert_ne by done; done.
Qed.

Lemma touches_claim cell a : touches cell a = false -> is_claim_of cell a = false.
Proof. by destruct a. Qed.

Lemma filter_claims_touching cell l :
  List.filter (is_claim_of cell) (List.filter (touches cell) l) = List.filter (is_claim_of cell) l.
Proof.
  induction l as [|a l IH]; [done|]. simpl. destruct (touches cell a) eqn:Ht; simpl.
  - by rewrite IH.
  - by rewrite (touches_claim _ _ Ht).
Qed.

Lemma run_accesses_cons store a schedule :
  run_accesses store (a :: schedule) =
    ((if fst (access store a) then [a] else []) ++ fst (run_accesses (snd (access store a)) schedule),
     snd (run_accesses (snd (access store a)) schedule)).
Proof. simpl. destruct (access store a). by destruct (run_accesses _ schedule). Qed.

(** The successful accesses to a cell that is not available any more. *)
Lemma run_accesses_claimed store cell schedule :
  (store !! cell = Some RUNNER_ISSUANCE_ISSUED ->
    List.filter (touches cell) (fst (run_accesses store schedule)) `prefix_of` [Retire cell]) /\
  (store !! cell = Some RUNNER_ISSUANCE_RETIRED ->
    List.filter (touches cell) (fst (run_accesses store schedule)) = []).
Proof.
  revert store. induction schedule as [|a schedule IH]; intros store.
  { split; [intros; apply prefix_nil|done]. }
  rewrite run_accesses_cons. destruct (touches cell a) eqn:Ht; simpl.
  - destruct a as [c|c|c]; simpl in Ht; apply bool_decide_eq_true in Ht as ->; simpl;
      unfold compare_exchange; split; intros Hs; rewrite Hs; simpl; try by apply IH.
    rewrite bool_decide_eq_true_2 by done.
    rewrite (proj2 (IH _)); [done|]. by rewrite lookup_insert_eq.
  - pose proof (access_other store a cell Ht) as Hl. rewrite List.filter_app.
    destruct (IH (snd (access store a))) as [IH1 IH2]. rewrite Hl in IH1, IH2.
    destruct (fst (access store a)); simpl; [rewrite Ht|]; simpl; auto.
Qed.

(** However claims, retirements and allocations of any number of cells
    interleave, an available cell is claimed exactly by the first claim that
    reaches it and by no other, and everything that ever succeeds on it is that
    claim followed by at most one retirement. *)
Theorem issuance_claimed_once store cell schedule :
  store !! cell = Some RUNNER_ISSUANCE_AVAILABLE ->
  List.filter (is_claim_of cell) (fst (run_accesses store schedule))
    = take 1 (List.filter (is_claim_of cell) schedule) /\
  List.filter (touches cell) (fst (run_accesses store schedule))
    `prefix_of` [Claim cell; Retire cell].
Proof.
  revert store. induction schedule as [|a schedule IH]; intros store Hs.
  { split; [done|apply prefix_nil]. }
  rewrite run_accesses_cons. destruct (touches cell a) eqn:Ht; simpl.
  - destruct a as [c|c|c]; simpl in Ht; apply bool_decide_eq_true in Ht as ->;
      simpl; unfold compare_exchange.
    + rewrite bool_decide_true by done. simpl. rewrite bool_decide_true by done. simpl.
      destruct (run_accesses_claimed (<[cell:=RUNNER_ISSUANCE_ISSUED]> store) cell schedule)
        as [Hp _]. specialize (Hp (lookup_insert_eq _ _ _)).
      split; [|by apply prefix_cons]. rewrite take_0. f_equal.
      rewrite <- filter_claims_touching. destruct (List.filter (touches cell) _) as [|a [|b l]];
        [done|..]; by destruct Hp as [k [= <-]].
    + rewrite Hs. simpl. by apply IH.
    + rewrite Hs. simpl. by apply IH.
  - rewrite (touches_claim _ _ Ht). pose proof (access_other store a cell Ht) as Hl.
    rewrite !List.filter_app. destruct (IH (snd (access store a))) as [IH1 IH2]; [by rewrite Hl|].
    destruct (fst (access store a)); simpl; [rewrite Ht, (touches_claim _ _ Ht)|]; simpl; auto.
Qed.

(** ** Concrete inputs *)

Definition sample_request : ToolRequest :=
  mkToolRequest (from_uuid 11) (from_uuid 21) (from_uuid 31) (from_uuid 41) (mkToolOrdinal 0)
    (mkToolName (lit "clock")) (mkArguments JsonArguments (lit "{}")) PostureHuman None.
Definition sample_approved : ApprovedToolRequest :=
  mkApproved sample_request (user_resolution (from_uuid 51) (from_uuid 11) Approve).
Definition sample_prepared : CurrentToolAttempt :=
  prepare_attempt sample_approved (from_uuid 61) (from_uuid 71) ExternalEffect.
Definition sample_completed : ToolAttemptEnd := EndCompleted (TextResult (mkResultText (lit "ok"))).
Definition sample_actions : list attempt_action :=
  [DoAuthorize 1%positive; DoResume 2%positive;
   DoObserve (mkObservation (attempt_correlation sample_prepared)
     (ObservedCompleted (TextResult (mkResultText (lit "ok")))))].

Lemma tool_attempt_end_honest_witness :
  exists e, end_tool_attempt sample_prepared sample_completed = end_tool_attempt sample_prepared e /\
    ((exists action, sample_actions = [action] /\ undispatched_end action e) \/
     (exists cell resumes action, sample_actions = DoAuthorize cell :: resumes ++ [action] /\
       Forall is_resume resumes /\ dispatched_end sample_prepared action e)).
Proof. exact (tool_attempt_end_honest sample_prepared sample_actions _ eq_refl eq_refl). Defined.

Lemma tool_attempt_roundtrip_witness :
  tool_attempt_reconstitute (attempt_facts_input (EndedAttempt (end_tool_attempt sample_prepared sample_completed)))
    = Ok (EndedAttempt (end_tool_attempt sample_prepared sample_completed)).
Proof.
  exact (tool_attempt_roundtrip sample_approved (from_uuid 61) (from_uuid 71) ExternalEffect
    sample_actions _ eq_refl).
Defined.

Definition sample_schedule : list issuance_access :=
  [Retire 1%positive; Claim 1%positive; Allocate 2%positive; Claim 2%positive; Claim 1%positive;
   Retire 1%positive; Claim 1%positive].

Lemma issuance_claimed_once_witness :
  List.filter (is_claim_of 1%positive)
    (fst (run_accesses {[ 1%positive := RUNNER_ISSUANCE_AVAILABLE ]} sample_schedule))
    = take 1 (List.filter (is_claim_of 1%positive) sample_schedule) /\
  List.filter (touches 1%positive)
    (fst (run_accesses {[ 1%positive := RUNNER_ISSUANCE_AVAILABLE ]} sample_schedule))
    `prefix_of` [Claim 1%positive; Retire 1%positive].
Proof.
  exact (issuance_claimed_once {[ 1%positive := RUNNER_ISSUANCE_AVAILABLE ]} 1%positive sample_schedule eq_refl).
Defined.
