(* ===== verification/TurnLifecycle.v ===== *)
(** * Turn lifecycle values

    Model of [crates/domain/src/turn_lifecycle.rs] with the credential wait of
    [crates/domain/src/credential_availability.rs] and the runner generation of
    [crates/domain/src/runner/names.rs]: starting lineage, ambiguity sets,
    reconciliation markers, active phases and dispositions; then the proof that
    an ambiguity set is canonical. *)

From S2P Require Import Prelude Interrupt Frontier TurnAttempt ToolAttempt.

(** ** Runner generations *)

(** [RunnerGeneration(NonZeroU64)] *)
Record RunnerGeneration := mkRunnerGeneration { runner_generation : positive }.
Definition runner_generation_one : RunnerGeneration := mkRunnerGeneration 1.
Definition runner_generation_try_from_u64 (value : N) : option RunnerGeneration :=
  match value with N0 => None | Npos p => Some (mkRunnerGeneration p) end.
Definition runner_generation_checked_next (g : RunnerGeneration) : option RunnerGeneration :=
  mkRunnerGeneration <$> nonzero_u64_checked_add (runner_generation g) 1.

(** ** Starting lineage *)

Inductive AcceptedInputStartingLineage :=
| FirstInSession
| After (immediate_predecessor : TurnId).

Record AcceptedInputTurnStart := mkTurnStart {
  start_lineage : AcceptedInputStartingLineage;
  start_frontier : ContextFrontier;
}.

(** [AcceptedInputTurnStart::from_validated_eligibility] *)
Definition from_validated_eligibility (lineage : AcceptedInputStartingLineage)
    (frontier : ContextFrontier) : AcceptedInputTurnStart := mkTurnStart lineage frontier.

(** ** Issued operations *)

Inductive IssuedOperationRef :=
| OperationModelCall (call : ModelCallId)
| OperationToolAttempt (attempt : ToolAttemptId).

#[export] Instance IssuedOperationRef_eq_dec : EqDecision IssuedOperationRef.
Proof. solve_decision. Defined.
#[export] Instance IssuedOperationRef_countable : Countable IssuedOperationRef.
Proof.
  refine (inj_countable' (A := ModelCallId + ToolAttemptId)
    (fun o => match o with OperationModelCall c => inl c | OperationToolAttempt a => inr a end)
    (fun s => match s with inl c => OperationModelCall c | inr a => OperationToolAttempt a end) _).
  by intros [].
Defined.

(** The derived [Ord]: model calls before tool attempts, each by identity. *)
Definition operation_le (a b : IssuedOperationRef) : bool :=
  match a, b with
  | OperationModelCall x, OperationModelCall y => (as_uuid x <=? as_uuid y)%N
  | OperationModelCall _, OperationToolAttempt _ => true
  | OperationToolAttempt _, OperationModelCall _ => false
  | OperationToolAttempt x, OperationToolAttempt y => (as_uuid x <=? as_uuid y)%N
  end.

Definition operation_ord : relation IssuedOperationRef := fun a b => operation_le a b = true.
#[export] Instance operation_ord_dec : RelDecision operation_ord.
Proof. intros a b. unfold operation_ord. apply _. Defined.

(** Nonempty by construction. *)
Record NonEmptyIssuedOperationRefs := mkOperations { operations : gset IssuedOperationRef }.

Definition operations_singleton (operation : IssuedOperationRef) : NonEmptyIssuedOperationRefs :=
  mkOperations {[operation]}.

Inductive NonEmptyIssuedOperationRefsError :=
| OperationsEmpty
| OperationsDuplicate (operation : IssuedOperationRef).

Definition insert_operation (canonical : gset IssuedOperationRef) (operation : IssuedOperationRef) :
    result NonEmptyIssuedOperationRefsError (gset IssuedOperationRef) :=
  if bool_decide (operation ∈ canonical) then Err (OperationsDuplicate operation)
  else Ok ({[operation]} ∪ canonical).

Definition try_from_operations (operations : list IssuedOperationRef) :
    result NonEmptyIssuedOperationRefsError NonEmptyIssuedOperationRefs :=
  canonical ← try_fold insert_operation operations ∅;
  if bool_decide (canonical = ∅) then Err OperationsEmpty else Ok (mkOperations canonical).

Definition operation_count (self : NonEmptyIssuedOperationRefs) : nat := size (operations self).

Definition operations_contains (self : NonEmptyIssuedOperationRefs)
    (operation : IssuedOperationRef) : bool := bool_decide (operation ∈ operations self).

Definition operations_iter (self : NonEmptyIssuedOperationRefs) : list IssuedOperationRef :=
  merge_sort operation_ord (elements (operations self)).

(** ** Reconciliation *)

Record AppliedStopForReconciliationProof := mkStopProof {
  decision_command : DurableCommandId;
  stop_turn : TurnId;
}.

Inductive ReconciliationReason :=
| UserChoseReconciliation (decision : AppliedStopForReconciliationProof)
| InterruptRequiresReconciliation (interrupt : AppliedInterruptProof)
| FatalMismatchRequiresReconciliation (causes : FatalMismatchStopCauses)
| AutomaticRecovery (attempt : positive).

Record ReconciliationMarker := mkMarker {
  ambiguous_operations : NonEmptyIssuedOperationRefs;
  reconciliation_reason : ReconciliationReason;
}.

Definition from_interrupt_ambiguity (ambiguous_operations : NonEmptyIssuedOperationRefs)
    (interrupt : AppliedInterruptProof) : ReconciliationMarker :=
  mkMarker ambiguous_operations (InterruptRequiresReconciliation interrupt).

Definition from_automatic_recovery (ambiguous_operations : NonEmptyIssuedOperationRefs)
    (attempt : positive) : ReconciliationMarker :=
  mkMarker ambiguous_operations (AutomaticRecovery attempt).

(** ** Phases and dispositions *)

Inductive CredentialAvailabilityWaitCause := Contended | Exhausted | NetworkUnavailable.

Record CredentialAvailabilityWait := mkCredentialWait {
  credential_wait_attempt : TurnAttemptId;
  credential_wait_frontier : ContextFrontierId;
  credential_wait_cause : CredentialAvailabilityWaitCause;
}.

Inductive ActiveTurnPhase :=
| AwaitingCredentialAvailability (wait : CredentialAvailabilityWait)
| Running (current_attempt : CurrentTurnAttempt)
| AwaitingApproval (request : ToolRequestId)
| AwaitingChild (wait : ChildWait)
| AwaitingRecoveryDecision (ambiguous_operations : NonEmptyIssuedOperationRefs)
    (applied_interrupt : option AppliedInterruptProof)
| AwaitingRunnerRecovery (runner : RunnerId) (placement_revision : RunnerGeneration)
    (optional_tool_attempt : option ToolAttemptId).

Definition retains_progressing_slot (self : ActiveTurnPhase) : bool := true.

Inductive TurnDisposition :=
| TurnCompletedDisposition | TurnRefused | TurnFailedDisposition
| TurnCancelledDisposition (cause : AppliedInterruptProof)
| ReconciliationRequired (marker : ReconciliationMarker)
| TurnRetired.

Inductive TurnTerminalCause :=
| CauseCompleted | ModelRefusal | InterruptApplied | ModelCallAmbiguous | ToolAttemptAmbiguous
| ModelCallFailed | ModelTargetUnavailable | AttachmentPreparationFailed
| CapabilityPreparationFailed | ToolRoundLimitReached | ToolAttemptLost | CredentialPoolExhausted
| HeadlessApprovalEscalation | AbandonedAtRestart | WatchdogStaleTurn | ContextHeadroomExhausted
| ContextCompactionWall | ContextCompactionFailed | ReportedUsageContextCompactionExhausted
| ReportedUsageContextStillExceeded | UnclassifiedFailure | GoalTurnIneligible
| CauseSessionClosed.

(** ** An ambiguity set is canonical *)

Lemma insert_operations_Ok l s s' :
  try_fold insert_operation l s = Ok s' <->
  NoDup l /\ (forall o, o ∈ l -> o ∉ s) /\ s' = s ∪ list_to_set l.
Proof.
  revert s. induction l as [|o l IH]; intros s; simpl.
  - rewrite (right_id_L ∅ (∪) s). split; [intros [= ->]|naive_solver].
    split_and!; [constructor|set_solver|done].
  - rewrite bind_Ok. unfold insert_operation at 1. rewrite NoDup_cons. split.
    + intros (s1 & Hs1 & H). case_bool_decide; [done|]. injection Hs1 as <-.
      apply IH in H as (Hl & Hd & ->). split_and!; [set_solver|done|set_solver|set_solver].
    + intros ([Ho Hl] & Hd & ->). exists ({[o]} ∪ s).
      rewrite bool_decide_eq_false_2 by set_solver. split; [done|]. apply IH.
      split_and!; [done|set_solver|set_solver].
Qed.

#[export] Instance operation_le_total : Total operation_ord.
Proof. unfold operation_ord. intros [x|x] [y|y]; simpl; rewrite ?N.leb_le; auto; lia. Qed.
#[export] Instance operation_le_trans : Transitive operation_ord.
Proof. unfold operation_ord. intros [x|x] [y|y] [z|z]; simpl; rewrite ?N.leb_le; try done; lia. Qed.

(** C39. An ambiguity set is built exactly from nonempty sequences of distinct
    operations, a rejection names the first repeated operation, and the set is
    canonical: it iterates over the operations of any arrival order in one
    ascending order. *)
Theorem ambiguity_set_canonical l :
  match try_from_operations l with
  | Ok s => l <> [] /\ NoDup l /\ operations_iter s ≡ₚ l /\
      StronglySorted operation_ord (operations_iter s) /\
      forall l', l ≡ₚ l' -> try_from_operations l' = Ok s
  | Err OperationsEmpty => l = []
  | Err (OperationsDuplicate o) =>
      exists before after, l = before ++ o :: after /\ NoDup before /\ o ∈ before
  end.
Proof.
  unfold try_from_operations at 1. destruct (try_fold _ l ∅) as [s|e] eqn:H; simpl.
  - apply insert_operations_Ok in H as (Hl & _ & ->). rewrite (left_id_L ∅ (∪)).
    case_bool_decide as He; [by destruct l; [|set_solver]|].
    split_and!; [by intros ->|done| | |].
    + unfold operations_iter. simpl. by rewrite merge_sort_Permutation, elements_list_to_set.
    + apply StronglySorted_merge_sort; apply _.
    + intros l' Hp. unfold try_from_operations.
      rewrite (proj2 (insert_operations_Ok l' ∅ (list_to_set l))); simpl.
      * by rewrite bool_decide_eq_false_2.
      * rewrite <- Hp. split_and!; [done|set_solver|set_solver].
  - apply try_fold_Err in H as (l1 & o & l2 & s & -> & H1 & H2).
    apply insert_operations_Ok in H1 as (Hl & _ & ->). unfold insert_operation in H2.
    case_bool_decide; [|done]. injection H2 as <-. exists l1, l2. split_and!; [done..|set_solver].
Qed.
