(* ===== verification/ToolBatch.v ===== *)
(** * Tool batches

    Model of [crates/domain/src/tool_execution/]: [batch.rs],
    [batch/reconstitution.rs], [batch/approval.rs] and [batch/attempt.rs], with
    [RunnerToolAttemptAuthorization] of [crates/domain/src/runner/lease.rs].
    One batch holds the requests of one producing call, their decisions, their
    serial physical attempts and the issuance cells of those attempts. *)

From S2P Require Import Prelude Configuration Tool ToolAttempt Frontier TurnAttempt TurnLifecycle.

#[export] Instance tool_ordinal_key : OrdKey ToolRequestOrdinal := tool_ordinal.
#[export] Instance tool_ordinal_key_inj : OrdKeyInj ToolRequestOrdinal.
Proof. intros [x] [y]. cbv. congruence. Qed.

(** ** Phases *)

Inductive ToolBatchPhase :=
| BatchAwaitingApproval (request : ToolRequestId)
| BatchExecuting (turn_attempt : TurnAttemptId)
| BatchAwaitingRecovery (attempt : ToolAttemptId)
| BatchAwaitingChild (request spawning_request : ToolRequestId) (child : SessionId).

Inductive ToolBatchPhaseReconstitutionInput :=
| StoredAwaitingApproval (request : ToolRequestId)
| StoredExecuting (turn_attempt : TurnAttemptId)
| StoredAwaitingRecovery (attempt : ToolAttemptId)
| StoredAwaitingChild (request spawning_request : ToolRequestId) (child : SessionId).

#[export] Instance ToolBatchPhase_eq_dec : EqDecision ToolBatchPhase.
Proof. solve_decision. Defined.

(** ** Facts of one attempt *)

(** The tuple [fn attempt_facts] returns. *)
Record AttemptFacts := mkFacts {
  fact_attempt : ToolAttemptId;
  fact_request : ToolRequestId;
  fact_session : SessionId;
  fact_turn : TurnId;
  fact_issuing : TurnAttemptId;
  fact_live : bool;
}.

Definition attempt_facts (attempt : ReconstitutedToolAttempt) : AttemptFacts :=
  match attempt with
  | CurrentAttempt c =>
      mkFacts (tool_attempt_id c) (tool_attempt_request c) (tool_attempt_session c)
        (tool_attempt_turn c) (tool_attempt_issuing c) true
  | EndedAttempt e =>
      mkFacts (ended_tool_id e) (ended_tool_request e) (ended_tool_session e) (ended_tool_turn e)
        (ended_tool_issuing e) false
  end.

Definition is_current (attempt : ReconstitutedToolAttempt) : bool := fact_live (attempt_facts attempt).

Definition ended_ambiguous (attempt : ReconstitutedToolAttempt) : bool :=
  match attempt with
  | EndedAttempt e => bool_decide (ended_tool_end e = EndAmbiguous)
  | CurrentAttempt _ => false
  end.

Definition ended_crash_lost (attempt : ReconstitutedToolAttempt) : bool :=
  match attempt with
  | EndedAttempt e =>
      match ended_tool_end e with
      | EndKnownFailed error => bool_decide (error_kind error = CrashLost)
      | _ => false
      end
  | CurrentAttempt _ => false
  end.

(** The child wait an attempt ended with. *)
Definition child_wait_of (attempt : ReconstitutedToolAttempt) :
    option (ToolRequestId * ToolRequestId * SessionId) :=
  match attempt with
  | EndedAttempt e =>
      match ended_tool_end e with
      | EndAwaitingChild spawning_request child => Some (ended_tool_request e, spawning_request, child)
      | EndCompleted _ | EndKnownFailed _ | EndAmbiguous => None
      end
  | CurrentAttempt _ => None
  end.

Definition is_child_wait (attempt : ReconstitutedToolAttempt) : bool :=
  bool_decide (is_Some (child_wait_of attempt)).

(** The external-effect ambiguity an attempt ended with. *)
Definition external_ambiguity (attempt : ReconstitutedToolAttempt) : option ToolAttemptId :=
  match attempt with
  | EndedAttempt e =>
      if bool_decide (ended_tool_end e = EndAmbiguous)
         && bool_decide (ended_tool_effect_class e = ExternalEffect)
      then Some (ended_tool_id e) else None
  | CurrentAttempt _ => None
  end.

Section batch.
Context {Snap : Type} `{ContextSnapshots Snap}.

(** ** The batch *)

Record ToolBatch := mkBatch {
  batch_session : SessionId;
  batch_turn : TurnId;
  batch_producing_call : ModelCallId;
  batch_yielded : Snap;
  batch_requests : list ToolRequest;
  batch_approvals : gmap ToolRequestId ToolApprovalResolution;
  batch_attempts : gmap ToolRequestId ReconstitutedToolAttempt;
  batch_retired : gset ToolAttemptId;
  batch_issuance : gmap ToolAttemptId IssuanceCell;
  batch_phase : ToolBatchPhase;
}.

(** [attempts.values()] *)
Definition attempt_values (attempts : gmap ToolRequestId ReconstitutedToolAttempt) :
    list ReconstitutedToolAttempt := (btree_iter attempts).*2.

(** [runner_authorized_attempts], reading the cells of the batch. *)
Definition runner_authorized_attempts (store : IssuanceStore) (self : ToolBatch) : list ToolAttemptId :=
  omap (fun '(attempt, cell) =>
    if bool_decide (store !! cell = Some RUNNER_ISSUANCE_AVAILABLE) then None else Some attempt)
    (btree_iter (batch_issuance self)).

(** The requests with neither a decision nor an inadmissible reason. *)
Definition is_undecided (approvals : gmap ToolRequestId ToolApprovalResolution)
    (request : ToolRequest) : bool :=
  bool_decide (request_inadmissible_reason request = None)
  && bool_decide (approvals !! request_id request = None).

Definition earliest_undecided (requests : list ToolRequest)
    (approvals : gmap ToolRequestId ToolApprovalResolution) : option ToolRequestId :=
  request_id <$> find (is_undecided approvals) requests.

Definition find_request (requests : list ToolRequest) (id : ToolRequestId) : option ToolRequest :=
  find (fun candidate => bool_decide (request_id candidate = id)) requests.

Record AwaitingToolApproval := mkAwaitingApproval {
  approval_wait_session : SessionId;
  approval_wait_turn : TurnId;
  approval_wait_request : ToolRequestId;
}.

Definition awaiting_approval (self : ToolBatch) : option AwaitingToolApproval :=
  match batch_phase self with
  | BatchAwaitingApproval request =>
      Some (mkAwaitingApproval (batch_session self) (batch_turn self) request)
  | BatchExecuting _ | BatchAwaitingRecovery _ | BatchAwaitingChild _ _ _ => None
  end.

Record AwaitingToolRecovery := mkAwaitingRecovery {
  recovery_session : SessionId;
  recovery_turn : TurnId;
  recovery_producing_call : ModelCallId;
  recovery_yielded_frontier : ContextFrontierId;
  recovery_issuing_attempt : TurnAttemptId;
  recovery_attempt : ToolAttemptId;
}.

Definition awaiting_recovery (self : ToolBatch) : option AwaitingToolRecovery :=
  match batch_phase self with
  | BatchAwaitingRecovery attempt =>
      candidate ← find (fun candidate =>
        bool_decide (fact_attempt (attempt_facts candidate) = attempt) && ended_ambiguous candidate)
        (attempt_values (batch_attempts self));
      Some (mkAwaitingRecovery (batch_session self) (batch_turn self) (batch_producing_call self)
              (frontier_snapshot (snapshot_frontier (batch_yielded self)))
              (fact_issuing (attempt_facts candidate)) attempt)
  | BatchAwaitingApproval _ | BatchExecuting _ | BatchAwaitingChild _ _ _ => None
  end.

(** ** Reconstitution *)

Record ToolBatchReconstitutionInput := mkBatchInput {
  stored_session : SessionId;
  stored_turn : TurnId;
  stored_producing_call : ModelCallId;
  stored_yielded : Snap;
  stored_requests : list ToolRequest;
  stored_approvals : list ToolApprovalResolution;
  stored_attempts : list ReconstitutedToolAttempt;
  stored_retired : list ToolAttemptId;
  stored_runner_authorized : list ToolAttemptId;
  stored_recovery_predecessors : list TurnAttemptId;
  stored_phase : ToolBatchPhaseReconstitutionInput;
}.

Inductive ToolBatchReconstitutionFailure :=
| EmptyRequestBatch | RequestOwnershipMismatch | RequestOrderMismatch
| YieldedSnapshotSessionMismatch | ApprovalInventoryMismatch | AttemptInventoryMismatch
| AttemptAuthorizationMismatch | MultipleLiveAttempts | AttemptOrderMismatch
| ApprovalPhaseMismatch | ExecutionPhaseMismatch | RecoveryPhaseMismatch | ChildWaitPhaseMismatch.

Abbreviation batch_check := (result ToolBatchReconstitutionFailure).

(** The loop over the sorted requests: the next index and the identities. *)
Definition check_batch_request (input : ToolBatchReconstitutionInput) (state : nat * gset ToolRequestId)
    (request : ToolRequest) : batch_check (nat * gset ToolRequestId) :=
  let '(index, request_ids) := state in
  if negb (bool_decide (request_session request = stored_session input))
     || negb (bool_decide (request_turn request = stored_turn input))
     || negb (bool_decide (request_producing_call request = stored_producing_call input))
  then Err RequestOwnershipMismatch else
  if bool_decide (request_id request ∈ request_ids)
     || negb (bool_decide (Some (request_tool_ordinal request) = tool_ordinal_try_from_usize index))
  then Err RequestOrderMismatch else
  Ok (S index, {[request_id request]} ∪ request_ids).

Definition collect_approval (requests : list ToolRequest) (request_ids : gset ToolRequestId)
    (approvals : gmap ToolRequestId ToolApprovalResolution) (approval : ToolApprovalResolution) :
    batch_check (gmap ToolRequestId ToolApprovalResolution) :=
  if existsb (fun request => bool_decide (request_id request = resolution_request approval)
                && negb (bool_decide (request_inadmissible_reason request = None))) requests
     || negb (bool_decide (resolution_request approval ∈ request_ids))
     || bool_decide (is_Some (approvals !! resolution_request approval))
  then Err ApprovalInventoryMismatch
  else Ok (<[resolution_request approval := approval]> approvals).

(** The two checks over the complete approvals. *)
Definition delegate_posture_mismatch (approvals : gmap ToolRequestId ToolApprovalResolution)
    (request : ToolRequest) : bool :=
  match approvals !! request_id request with
  | Some approval => bool_decide (resolution_source approval = SourceDelegate)
                     && negb (bool_decide (request_posture request = PostureDelegated))
  | None => false
  end.

Definition ordered_prefix_broken (requests : list ToolRequest)
    (approvals : gmap ToolRequestId ToolApprovalResolution) : bool :=
  match position (is_undecided approvals) requests with
  | Some first_undecided =>
      existsb (fun request =>
        match approvals !! request_id request with
        | Some approval => requires_ordered_prefix (resolution_source approval)
        | None => false
        end) (drop (first_undecided + 1) requests)
  | None => false
  end.

Definition expected_issuing_attempt (input : ToolBatchReconstitutionInput) : option TurnAttemptId :=
  match stored_phase input with
  | StoredExecuting turn_attempt =>
      if negb (existsb is_child_wait (stored_attempts input))
         && bool_decide (stored_recovery_predecessors input = [])
      then Some turn_attempt else None
  | StoredAwaitingRecovery attempt =>
      fact_issuing ∘ attempt_facts
        <$> find (fun candidate => bool_decide (fact_attempt (attempt_facts candidate) = attempt))
              (stored_attempts input)
  | StoredAwaitingChild _ _ _ | StoredAwaitingApproval _ => None
  end.

Record AttemptInventory := mkInventory {
  inventory_attempts : gmap ToolRequestId ReconstitutedToolAttempt;
  inventory_ids : gset ToolAttemptId;
  inventory_live : nat;
}.

Definition collect_attempt (input : ToolBatchReconstitutionInput) (request_ids : gset ToolRequestId)
    (approvals : gmap ToolRequestId ToolApprovalResolution) (expected : option TurnAttemptId)
    (state : AttemptInventory) (attempt : ReconstitutedToolAttempt) : batch_check AttemptInventory :=
  let f := attempt_facts attempt in
  if ended_ambiguous attempt && bool_decide (external_ambiguity attempt = None)
  then Err AttemptAuthorizationMismatch else
  if bool_decide (fact_attempt f ∈ inventory_ids state)
     || negb (bool_decide (fact_request f ∈ request_ids))
     || bool_decide (is_Some (inventory_attempts state !! fact_request f))
  then Err AttemptInventoryMismatch else
  if negb (bool_decide (fact_session f = stored_session input))
     || negb (bool_decide (fact_turn f = stored_turn input))
     || negb match approvals !! fact_request f with
             | Some approval => is_approved approval
             | None => false
             end
  then Err AttemptAuthorizationMismatch else
  if match expected with
     | Some expected => negb (bool_decide (fact_issuing f = expected))
     | None => false
     end
     && (fact_live f
         || negb (bool_decide (fact_issuing f ∈ stored_recovery_predecessors input)))
  then Err AttemptAuthorizationMismatch else
  Ok (mkInventory (<[fact_request f := attempt]> (inventory_attempts state))
        ({[fact_attempt f]} ∪ inventory_ids state)
        (if fact_live f then S (inventory_live state) else inventory_live state)).

Definition collect_retired (attempt_ids retired_attempts : gset ToolAttemptId)
    (retired : ToolAttemptId) : batch_check (gset ToolAttemptId) :=
  if bool_decide (retired ∈ attempt_ids) || bool_decide (retired ∈ retired_attempts)
  then Err AttemptInventoryMismatch else Ok ({[retired]} ∪ retired_attempts).

Definition collect_authorized (attempt_ids retired_attempts authorized_attempts : gset ToolAttemptId)
    (authorized : ToolAttemptId) : batch_check (gset ToolAttemptId) :=
  if negb (bool_decide (authorized ∈ attempt_ids) || bool_decide (authorized ∈ retired_attempts))
     || bool_decide (authorized ∈ authorized_attempts)
  then Err AttemptInventoryMismatch else Ok ({[authorized]} ∪ authorized_attempts).

(** The loop that checks serial execution in proposal order. *)
Record OrderState := mkOrder {
  missing_approved_attempt : bool;
  terminal_blocker_seen : bool;
  live_attempt_seen : bool;
}.

Definition blocks_later (phase : ToolBatchPhaseReconstitutionInput) (request : ToolRequestId)
    (attempt : ReconstitutedToolAttempt) : bool :=
  ended_ambiguous attempt
  || (is_child_wait attempt
      && match phase with
         | StoredAwaitingChild waiting _ _ => bool_decide (waiting = request)
         | _ => false
         end)
  || ended_crash_lost attempt.

Definition check_order (phase : ToolBatchPhaseReconstitutionInput)
    (approvals : gmap ToolRequestId ToolApprovalResolution)
    (attempts : gmap ToolRequestId ReconstitutedToolAttempt) (state : OrderState)
    (request : ToolRequest) : batch_check OrderState :=
  if match approvals !! request_id request with
     | Some approval => is_approved approval
     | None => false
     end
  then
    match attempts !! request_id request with
    | Some attempt =>
        if missing_approved_attempt state || terminal_blocker_seen state || live_attempt_seen state
        then Err AttemptOrderMismatch
        else Ok (mkOrder false (blocks_later phase (request_id request) attempt)
                   (is_current attempt))
    | None => Ok (mkOrder true (terminal_blocker_seen state) (live_attempt_seen state))
    end
  else if bool_decide (is_Some (attempts !! request_id request))
  then Err AttemptAuthorizationMismatch else Ok state.

(** The loop of the executing phase over the requests. *)
Definition check_tenure (predecessors : list TurnAttemptId) (turn_attempt : TurnAttemptId)
    (attempts : gmap ToolRequestId ReconstitutedToolAttempt) (requests : list ToolRequest)
    (child_wait_position : option nat) (state : bool * gset TurnAttemptId) (request : ToolRequest) :
    batch_check (bool * gset TurnAttemptId) :=
  let '(successor_seen, recovery_predecessors_seen) := state in
  match attempts !! request_id request with
  | None => Ok state
  | Some attempt =>
      let issuing_attempt := fact_issuing (attempt_facts attempt) in
      let live := fact_live (attempt_facts attempt) in
      let request_position :=
        position (fun candidate => bool_decide (request_id candidate = request_id request)) requests in
      let foreign := negb (bool_decide (issuing_attempt = turn_attempt)) in
      let retained_recovery :=
        bool_decide (issuing_attempt ∈ predecessors) && foreign && negb successor_seen && negb live in
      let recovery_predecessors_seen :=
        if retained_recovery then {[issuing_attempt]} ∪ recovery_predecessors_seen
        else recovery_predecessors_seen in
      let successor_seen := successor_seen || negb foreign in
      if negb retained_recovery
         && ((live && foreign)
             || (bool_decide (child_wait_position = None) && foreign)
             || match child_wait_position, request_position with
                | Some wait, Some request => (wait <? request) && foreign
                | _, _ => false
                end)
      then Err ExecutionPhaseMismatch
      else Ok (successor_seen, recovery_predecessors_seen)
  end.

Definition reconstitute_phase (input : ToolBatchReconstitutionInput) (requests : list ToolRequest)
    (approvals : gmap ToolRequestId ToolApprovalResolution) (inventory : AttemptInventory) :
    batch_check ToolBatchPhase :=
  let attempts := inventory_attempts inventory in
  let undecided := earliest_undecided requests approvals in
  let ambiguous_attempts := omap external_ambiguity (attempt_values attempts) in
  let child_waits :=
    omap child_wait_of (omap (fun request => attempts !! request_id request) requests) in
  match stored_phase input with
  | StoredAwaitingApproval request =>
      if bool_decide (undecided = Some request) && bool_decide (attempts = ∅)
      then Ok (BatchAwaitingApproval request) else Err ApprovalPhaseMismatch
  | StoredExecuting turn_attempt =>
      if bool_decide (undecided = None) && bool_decide (ambiguous_attempts = []) then
        let child_wait_position :=
          '(request, _, _) ← last child_waits;
          position (fun candidate => bool_decide (request_id candidate = request)) requests in
        state ← try_fold (check_tenure (stored_recovery_predecessors input) turn_attempt attempts
                            requests child_wait_position) requests (false, ∅);
        if bool_decide (size (snd state) = length (stored_recovery_predecessors input))
        then Ok (BatchExecuting turn_attempt) else Err ExecutionPhaseMismatch
      else Err ExecutionPhaseMismatch
  | StoredAwaitingRecovery attempt =>
      if bool_decide (undecided = None) && (inventory_live inventory =? 0)
         && bool_decide (ambiguous_attempts = [attempt])
      then Ok (BatchAwaitingRecovery attempt) else Err RecoveryPhaseMismatch
  | StoredAwaitingChild request spawning_request child =>
      if bool_decide (undecided = None) && (inventory_live inventory =? 0)
         && bool_decide (ambiguous_attempts = [])
         && bool_decide (last child_waits = Some (request, spawning_request, child))
      then Ok (BatchAwaitingChild request spawning_request child) else Err ChildWaitPhaseMismatch
  end.

(** [Arc::new(AtomicU8::new(value))] *)
Definition new_cell (store : IssuanceStore) (value : N) : IssuanceCell * IssuanceStore :=
  let cell := fresh (dom store) in (cell, <[cell := value]> store).

Fixpoint allocate_cells (store : IssuanceStore) (authorized : gset ToolAttemptId)
    (ids : list ToolAttemptId) : gmap ToolAttemptId IssuanceCell * IssuanceStore :=
  match ids with
  | [] => (∅, store)
  | id :: ids =>
      let '(cell, store) :=
        new_cell store (if bool_decide (id ∈ authorized) then RUNNER_ISSUANCE_ISSUED
                        else RUNNER_ISSUANCE_AVAILABLE) in
      let '(cells, store) := allocate_cells store authorized ids in
      (<[id := cell]> cells, store)
  end.

Definition validate_batch (input : ToolBatchReconstitutionInput) :
    batch_check (list ToolRequest * gmap ToolRequestId ToolApprovalResolution * AttemptInventory
                 * gset ToolAttemptId * gset ToolAttemptId * ToolBatchPhase) :=
  if bool_decide (stored_requests input = []) then Err EmptyRequestBatch else
  if negb (bool_decide (owning_session (snapshot_frontier (stored_yielded input))
                        = stored_session input))
  then Err YieldedSnapshotSessionMismatch else
  let requests := sort_by_key request_tool_ordinal (stored_requests input) in
  '(_, request_ids) ← try_fold (check_batch_request input) requests (0, ∅);
  approvals ← try_fold (collect_approval requests request_ids) (stored_approvals input) ∅;
  if existsb (delegate_posture_mismatch approvals) requests then Err ApprovalInventoryMismatch else
  if ordered_prefix_broken requests approvals then Err ApprovalInventoryMismatch else
  inventory ← try_fold (collect_attempt input request_ids approvals (expected_issuing_attempt input))
                (stored_attempts input) (mkInventory ∅ ∅ 0);
  retired ← try_fold (collect_retired (inventory_ids inventory)) (stored_retired input) ∅;
  authorized ← try_fold (collect_authorized (inventory_ids inventory) retired)
                 (stored_runner_authorized input) ∅;
  if (1 <? inventory_live inventory) then Err MultipleLiveAttempts else
  _ ← try_fold (check_order (stored_phase input) approvals (inventory_attempts inventory)) requests
        (mkOrder false false false);
  phase ← reconstitute_phase input requests approvals inventory;
  Ok (requests, approvals, inventory, retired, authorized, phase).

(** [fn reconstitute_batch]: the failure keeps the whole input. *)
Definition reconstitute_batch (store : IssuanceStore) (input : ToolBatchReconstitutionInput) :
    result (ToolBatchReconstitutionInput * ToolBatchReconstitutionFailure)
      (ToolBatch * IssuanceStore) :=
  '(requests, approvals, inventory, retired, authorized, phase)
    ← map_err (pair input) (validate_batch input);
  let '(cells, store) :=
    allocate_cells store authorized
      (btree_set_iter (inventory_ids inventory) ++ btree_set_iter retired) in
  Ok (mkBatch (stored_session input) (stored_turn input) (stored_producing_call input)
        (stored_yielded input) requests approvals (inventory_attempts inventory) retired cells phase,
      store).

(** ** Decisions *)

Inductive ToolBatchDecisionFailure :=
| DecisionNoUndecidedRequest | CommandCorrelationMismatch | DecisionContinuationMismatch.

Record ToolBatchDecisionError := mkDecisionError {
  decision_error_batch : ToolBatch;
  decision_error_command : DecideToolRequest;
  decision_error_failure : ToolBatchDecisionFailure;
}.

Record PreparedToolBatchDecision := mkPreparedDecision {
  decided_batch : ToolBatch;
  decided_command : PreparedDecideToolRequest;
  decided_active_phase : ActiveTurnPhase;
}.

(** [PreparedToolBatchDecision::rejected] *)
Definition decision_rejected (batch : ToolBatch) (prepared_command : PreparedDecideToolRequest)
    (waiting_on : ToolRequestId) : PreparedToolBatchDecision :=
  mkPreparedDecision batch prepared_command (AwaitingApproval waiting_on).

(** The successor phases both decision paths choose: the next wait when one
    remains, execution by the continuation attempt when none does. *)
Definition decision_successor (requests : list ToolRequest)
    (approvals : gmap ToolRequestId ToolApprovalResolution)
    (continuation_attempt : option TurnAttemptId) : option (ToolBatchPhase * ActiveTurnPhase) :=
  match earliest_undecided requests approvals, continuation_attempt with
  | Some next, None => Some (BatchAwaitingApproval next, AwaitingApproval next)
  | None, Some turn_attempt => Some (BatchExecuting turn_attempt, Running (prepared turn_attempt))
  | Some _, Some _ | None, None => None
  end.

Definition set_approvals_phase (self : ToolBatch)
    (approvals : gmap ToolRequestId ToolApprovalResolution) (phase : ToolBatchPhase) : ToolBatch :=
  mkBatch (batch_session self) (batch_turn self) (batch_producing_call self) (batch_yielded self)
    (batch_requests self) approvals (batch_attempts self) (batch_retired self) (batch_issuance self)
    phase.

Definition prepare_decision (self : ToolBatch) (command : DecideToolRequest)
    (continuation_attempt : option TurnAttemptId)
    (prepare : DecideToolRequest -> ToolRequest ->
      result DecideToolRequestPreparationError PreparedDecideToolRequest) :
    result ToolBatchDecisionError PreparedToolBatchDecision :=
  match batch_phase self with
  | BatchAwaitingApproval waiting_on =>
      let request := decide_request command in
      match find_request (batch_requests self) request with
      | None => Err (mkDecisionError self command CommandCorrelationMismatch)
      | Some request_record =>
          if negb (bool_decide (request_inadmissible_reason request_record = None))
             || bool_decide (is_Some (batch_approvals self !! request))
          then Ok (decision_rejected self (prepare_already_resolved command) waiting_on) else
          let earliest := earliest_undecided (batch_requests self) (batch_approvals self) in
          if negb (bool_decide (earliest = Some request)) then
            earliest ← ok_or earliest (mkDecisionError self command DecisionNoUndecidedRequest);
            Ok (decision_rejected self (prepare_not_earliest command earliest) waiting_on)
          else
          prepared_command ←
            map_err (fun error => mkDecisionError self (decide_error_command error)
                                    CommandCorrelationMismatch)
              (prepare command request_record);
          match prepared_decide_result prepared_command with
          | DecisionRejected _ =>
              Err (mkDecisionError self (prepared_decide_command prepared_command)
                     CommandCorrelationMismatch)
          | DecisionApplied resolution =>
              let approvals := <[request := resolution]> (batch_approvals self) in
              match decision_successor (batch_requests self) approvals continuation_attempt with
              | None =>
                  Err (mkDecisionError self (prepared_decide_command prepared_command)
                         DecisionContinuationMismatch)
              | Some (phase, active_phase) =>
                  Ok (mkPreparedDecision (set_approvals_phase self approvals phase) prepared_command
                        active_phase)
              end
          end
      end
  | BatchExecuting _ | BatchAwaitingRecovery _ | BatchAwaitingChild _ _ _ =>
      Err (mkDecisionError self command DecisionNoUndecidedRequest)
  end.

Definition prepare_user_decision (self : ToolBatch) (command : DecideToolRequest)
    (continuation_attempt : option TurnAttemptId) :=
  prepare_decision self command continuation_attempt prepare_applied.
Definition prepare_lifecycle_closure_denial (self : ToolBatch) (command : DecideToolRequest)
    (continuation_attempt : option TurnAttemptId) :=
  prepare_decision self command continuation_attempt prepare_lifecycle_closure_applied.
Definition prepare_approval_timeout (self : ToolBatch) (command : DecideToolRequest)
    (continuation_attempt : option TurnAttemptId) :=
  prepare_decision self command continuation_attempt prepare_approval_timeout_applied.

Inductive DelegateToolApprovalTransitionFailure :=
| DelegateNoUndecidedRequest | RequestMismatch | DelegateContinuationMismatch.

Record DelegateToolApprovalTransitionError := mkDelegateTransitionError {
  delegate_error_batch : ToolBatch;
  delegate_error_approval : DelegateToolApproval;
  delegate_error_failure : DelegateToolApprovalTransitionFailure;
}.

Record PreparedDelegateToolApproval := mkPreparedDelegate {
  delegated_batch : ToolBatch;
  delegated_approval : DelegateToolApproval;
  delegated_resolution : option ToolApprovalResolution;
  delegated_active_phase : ActiveTurnPhase;
}.

Definition prepare_delegate_decision (self : ToolBatch) (approval : DelegateToolApproval)
    (continuation_attempt : option TurnAttemptId) :
    result DelegateToolApprovalTransitionError PreparedDelegateToolApproval :=
  let fail := mkDelegateTransitionError self approval in
  match batch_phase self with
  | BatchAwaitingApproval waiting_on =>
      match find_request (batch_requests self) (delegate_request approval) with
      | None => Err (fail RequestMismatch)
      | Some request =>
          if negb (bool_decide (waiting_on = delegate_request approval))
             || bool_decide (is_Some (batch_approvals self !! delegate_request approval))
             || negb (bool_decide (request_posture request = delegate_posture approval))
          then Err (fail RequestMismatch) else
          match delegate_resolution approval, continuation_attempt with
          | None, None =>
              Ok (mkPreparedDelegate self approval None (AwaitingApproval waiting_on))
          | None, Some _ => Err (fail DelegateContinuationMismatch)
          | Some resolution, _ =>
              let approvals := <[delegate_request approval := resolution]> (batch_approvals self) in
              match decision_successor (batch_requests self) approvals continuation_attempt with
              | None => Err (fail DelegateContinuationMismatch)
              | Some (phase, active_phase) =>
                  Ok (mkPreparedDelegate (set_approvals_phase self approvals phase) approval
                        (Some resolution) active_phase)
              end
          end
      end
  | BatchExecuting _ | BatchAwaitingRecovery _ | BatchAwaitingChild _ _ _ =>
      Err (fail DelegateNoUndecidedRequest)
  end.

(** ** Attempts *)

Inductive ToolBatchExecutionFailure :=
| NotExecuting | LiveAttemptPresent | AttemptMissing | AttemptStageMismatch | ReadyForContinuation
| ExecutionTurnLevelFailure | AttemptIdentityReuse | ApprovalMismatch.

Abbreviation execution_result := (result ToolBatchExecutionFailure).

(** Whether the batch already used an attempt identity. *)
Definition attempt_identity_used (self : ToolBatch) (attempt : ToolAttemptId) : bool :=
  bool_decide (attempt ∈ batch_retired self)
  || existsb (fun candidate => bool_decide (fact_attempt (attempt_facts candidate) = attempt))
       (attempt_values (batch_attempts self)).

Record PreparedToolAttempt := mkPreparedAttempt { prepared_tool_attempt : CurrentToolAttempt }.

Definition prepare_next_attempt (self : ToolBatch) (attempt : ToolAttemptId)
    (effect_class : ToolEffectClass) : execution_result PreparedToolAttempt :=
  match batch_phase self with
  | BatchExecuting turn_attempt =>
      if existsb is_current (attempt_values (batch_attempts self)) then Err LiveAttemptPresent else
      if existsb ended_crash_lost (attempt_values (batch_attempts self))
      then Err ExecutionTurnLevelFailure else
      if attempt_identity_used self attempt then Err AttemptIdentityReuse else
      let next := find (fun request =>
        match batch_approvals self !! request_id request with
        | Some approval => is_approved approval
        | None => false
        end && bool_decide (batch_attempts self !! request_id request = None)) (batch_requests self) in
      match next with
      | None => Err ReadyForContinuation
      | Some request =>
          (* The indexing cannot panic: the search found this decision. *)
          approval ← ok_or (batch_approvals self !! request_id request) ApprovalMismatch;
          approved ← map_err (fun _ => ApprovalMismatch) (try_from_resolution request approval);
          Ok (mkPreparedAttempt (prepare_attempt approved attempt turn_attempt effect_class))
      end
  | BatchAwaitingApproval _ | BatchAwaitingRecovery _ | BatchAwaitingChild _ _ _ => Err NotExecuting
  end.

(** The current attempt of an identity, as the code searches it. *)
Definition find_current (self : ToolBatch) (attempt : ToolAttemptId) : option CurrentToolAttempt :=
  head (omap (fun candidate =>
    match candidate with
    | CurrentAttempt c => if bool_decide (tool_attempt_id c = attempt) then Some c else None
    | EndedAttempt _ => None
    end) (attempt_values (batch_attempts self))).

(** The same search for an in-flight attempt, with the request it is keyed by. *)
Definition find_in_flight (self : ToolBatch) (attempt : ToolAttemptId) :
    option (ToolRequestId * CurrentToolAttempt) :=
  head (omap (fun '(request, candidate) =>
    match candidate with
    | CurrentAttempt c =>
        if bool_decide (tool_attempt_id c = attempt) && bool_decide (tool_attempt_state c = ToolInFlight)
        then Some (request, c) else None
    | EndedAttempt _ => None
    end) (btree_iter (batch_attempts self))).

Definition is_executing (self : ToolBatch) : bool :=
  match batch_phase self with BatchExecuting _ => true | _ => false end.

Definition authorize_attempt (self : ToolBatch) (attempt : ToolAttemptId) :
    execution_result AuthorizedToolAttempt :=
  if negb (is_executing self) then Err NotExecuting else
  current ← ok_or (find_current self attempt) AttemptMissing;
  runner_issuance ← ok_or (batch_issuance self !! attempt) AttemptMissing;
  map_err (fun _ => AttemptStageMismatch) (authorize_with_runner_issuance current runner_issuance).

Definition resume_in_flight_attempt (self : ToolBatch) (attempt : ToolAttemptId) :
    execution_result AuthorizedToolAttempt :=
  if negb (is_executing self) then Err NotExecuting else
  current ← ok_or (find_current self attempt) AttemptMissing;
  runner_issuance ← ok_or (batch_issuance self !! attempt) AttemptMissing;
  map_err (fun _ => AttemptStageMismatch)
    (resume_in_flight_with_runner_issuance current runner_issuance).

(** The authority both dispatch paths bind to the canonical request. *)
Definition bind_dispatch (self : ToolBatch) (authorized : AuthorizedToolAttempt) :
    execution_result ToolDispatchAuthority :=
  request ← ok_or (find_request (batch_requests self)
                     (tool_attempt_request (authorized_attempt authorized))) AttemptMissing;
  ok_or (dispatch_authority_try_new request authorized) AttemptStageMismatch.

Definition authorize_dispatch (self : ToolBatch) (attempt : ToolAttemptId) :
    execution_result ToolDispatchAuthority :=
  authorized ← authorize_attempt self attempt; bind_dispatch self authorized.

Definition resume_in_flight_dispatch (self : ToolBatch) (attempt : ToolAttemptId) :
    execution_result ToolDispatchAuthority :=
  authorized ← resume_in_flight_attempt self attempt; bind_dispatch self authorized.

(** [RunnerToolAttemptAuthorization]; the retry evidence runner leases add to
    it later is not modelled, the constructor leaves it absent. *)
Record RunnerToolAttemptAuthorization := mkRunnerAuthorization {
  runner_approved : ApprovedToolRequest;
  runner_authorized : AuthorizedToolAttempt;
}.

Inductive RunnerAuthorizationError := RunnerCorrelationMismatch | RunnerInvalidState.

Definition runner_authorization_try_new (store : IssuanceStore) (approved : ApprovedToolRequest)
    (authorized : AuthorizedToolAttempt) :
    result RunnerAuthorizationError RunnerToolAttemptAuthorization * IssuanceStore :=
  let request := approved_request approved in
  let correlation := authorized_correlation authorized in
  if negb (bool_decide (request_id request = correlation_request correlation))
     || negb (bool_decide (request_session request = correlation_session correlation))
     || negb (bool_decide (request_turn request = correlation_turn correlation))
  then (Err RunnerCorrelationMismatch, store) else
  let '(claimed, store) := claim_runner_issuance store authorized in
  if claimed then (Ok (mkRunnerAuthorization approved authorized), store)
  else (Err RunnerInvalidState, store).

Definition bind_runner_authorization (store : IssuanceStore) (self : ToolBatch)
    (authorized : AuthorizedToolAttempt) :
    execution_result RunnerToolAttemptAuthorization * IssuanceStore :=
  match
    request ← ok_or (find_request (batch_requests self)
                       (correlation_request (authorized_correlation authorized))) AttemptMissing;
    approval ← ok_or (batch_approvals self !! request_id request) ApprovalMismatch;
    map_err (fun _ => ApprovalMismatch) (try_from_resolution request approval)
  with
  | Err failure => (Err failure, store)
  | Ok approved =>
      let '(r, store) := runner_authorization_try_new store approved authorized in
      (map_err (fun _ => AttemptStageMismatch) r, store)
  end.

Definition authorize_runner_attempt (store : IssuanceStore) (self : ToolBatch)
    (attempt : ToolAttemptId) : execution_result RunnerToolAttemptAuthorization * IssuanceStore :=
  match authorize_attempt self attempt with
  | Err failure => (Err failure, store)
  | Ok authorized => bind_runner_authorization store self authorized
  end.

Definition resume_runner_attempt (store : IssuanceStore) (self : ToolBatch)
    (attempt : ToolAttemptId) : execution_result RunnerToolAttemptAuthorization * IssuanceStore :=
  match resume_in_flight_attempt self attempt with
  | Err failure => (Err failure, store)
  | Ok authorized => bind_runner_authorization store self authorized
  end.

Definition set_issuance (self : ToolBatch) (issuance : gmap ToolAttemptId IssuanceCell) : ToolBatch :=
  mkBatch (batch_session self) (batch_turn self) (batch_producing_call self) (batch_yielded self)
    (batch_requests self) (batch_approvals self) (batch_attempts self) (batch_retired self) issuance
    (batch_phase self).

(** The cell of the prior issuance is retired and a fresh one issued even when
    a later check rejects the call. *)
Definition reauthorize_unclaimed_runner_attempt (store : IssuanceStore) (self : ToolBatch)
    (attempt : ToolAttemptId) :
    execution_result (ToolBatch * RunnerToolAttemptAuthorization) * IssuanceStore :=
  if negb (is_executing self) then (Err NotExecuting, store) else
  match find_in_flight self attempt, batch_issuance self !! attempt with
  | None, _ | Some _, None => (Err AttemptMissing, store)
  | Some (_, current), Some prior_issuance =>
      let '(retired, store) :=
        compare_exchange store prior_issuance RUNNER_ISSUANCE_ISSUED RUNNER_ISSUANCE_RETIRED in
      if negb retired then (Err AttemptStageMismatch, store) else
      let '(successor_issuance, store) := new_cell store RUNNER_ISSUANCE_AVAILABLE in
      let self := set_issuance self (<[attempt := successor_issuance]> (batch_issuance self)) in
      match resume_in_flight_with_runner_issuance current successor_issuance with
      | Err _ => (Err AttemptStageMismatch, store)
      | Ok authorized =>
          let '(r, store) := bind_runner_authorization store self authorized in
          (pair self <$> r, store)
      end
  end.

Record PreparedClaimedToolAttemptReplacement := mkReplacement {
  replacement_batch : ToolBatch;
  replacement_retired : EndedToolAttempt;
  replacement_approved : ApprovedToolRequest;
  replacement_authorized : AuthorizedToolAttempt;
}.

Definition replace_claimed_attempt (store : IssuanceStore) (self : ToolBatch)
    (claimed_attempt replacement_attempt : ToolAttemptId) :
    execution_result PreparedClaimedToolAttemptReplacement * IssuanceStore :=
  match batch_phase self with
  | BatchExecuting turn_attempt =>
      if attempt_identity_used self replacement_attempt then (Err AttemptIdentityReuse, store) else
      match
        '(request, current) ← ok_or (find_in_flight self claimed_attempt) AttemptMissing;
        request_record ← ok_or (find_request (batch_requests self) request) AttemptMissing;
        approval ← ok_or (batch_approvals self !! request) ApprovalMismatch;
        approved ← map_err (fun _ => ApprovalMismatch) (try_from_resolution request_record approval);
        Ok (request, current, approved)
      with
      | Err failure => (Err failure, store)
      | Ok (request, current, approved) =>
          let retired :=
            match classify_crash_loss current with
            | CrashKnownFailed retired | CrashAmbiguous retired => retired
            end in
          let '(replacement_runner_issuance, store) := new_cell store RUNNER_ISSUANCE_AVAILABLE in
          match authorize_with_runner_issuance
                  (prepare_attempt approved replacement_attempt turn_attempt
                     (tool_attempt_effect_class current)) replacement_runner_issuance with
          | Err _ => (Err AttemptStageMismatch, store)
          | Ok authorized =>
              (Ok (mkReplacement
                     (mkBatch (batch_session self) (batch_turn self) (batch_producing_call self)
                        (batch_yielded self) (batch_requests self) (batch_approvals self)
                        (<[request := CurrentAttempt (authorized_attempt authorized)]>
                           (batch_attempts self))
                        ({[ended_tool_id retired]} ∪ batch_retired self)
                        (<[replacement_attempt := replacement_runner_issuance]> (batch_issuance self))
                        (batch_phase self))
                     retired approved authorized),
               store)
          end
      end
  | BatchAwaitingApproval _ | BatchAwaitingRecovery _ | BatchAwaitingChild _ _ _ =>
      (Err NotExecuting, store)
  end.

End batch.
Arguments ToolBatch Snap : clear implicits.
Arguments ToolBatchReconstitutionInput Snap : clear implicits.
