(* ===== verification/ToolBatchSpec.v ===== *)
(** * What tool batches promise

    The inventories a batch is reconstituted from are characterised
    declaratively: numbered requests of one call, decisions that respect the
    proposal order, attempts that execute the approved requests one after the
    other, and the phase their evidence determines. Every transition of a
    batch leads to an inventory that is reconstituted again. *)

From S2P Require Import Prelude Configuration Tool ToolAttempt Frontier TurnAttempt TurnLifecycle ToolBatch.

(** ** Lookup in the maps the loops build *)

Lemma bool_decide_in_set {K} `{Countable K} (x : K) (l : list K) :
  bool_decide (x ∈ (list_to_set l : gset K)) = bool_decide (x ∈ l).
Proof. apply bool_decide_ext, elem_of_list_to_set. Qed.

Lemma insert_into_set {K} `{Countable K} (x : K) (l : list K) :
  ({[x]} ∪ list_to_set l : gset K) = list_to_set (l ++ [x]).
Proof. rewrite list_to_set_app_L. simpl. by rewrite (right_id_L ∅ (∪) {[x]}), (comm_L (∪)). Qed.

Section keyed.
Context {A : Type} (key : A -> ToolRequestId).

Definition keyed (l : list A) : gmap ToolRequestId A := foldl (fun m a => <[key a := a]> m) ∅ l.

Lemma keyed_snoc l a : keyed (l ++ [a]) = <[key a := a]> (keyed l).
Proof. unfold keyed. by rewrite foldl_app. Qed.

Lemma keyed_lookup_Some l k a :
  NoDup (key <$> l) -> (keyed l !! k = Some a <-> a ∈ l /\ key a = k).
Proof.
  induction l as [|b l IH] using rev_ind; intros Hnd; [unfold keyed; simpl; rewrite lookup_empty; set_solver|].
  rewrite keyed_snoc. rewrite fmap_app, NoDup_app in Hnd. destruct Hnd as (Hl & Hd & _).
  rewrite lookup_insert_Some, (IH Hl), elem_of_snoc. split; [naive_solver|].
  intros [[Ha| ->] <-]; [right|by left]. split; [|done]. intros Heq.
  apply (Hd (key a)); [by apply list_elem_of_fmap_2|]. rewrite <- Heq. by left.
Qed.

Lemma keyed_lookup_None l k : keyed l !! k = None <-> k ∉ key <$> l.
Proof.
  induction l as [|b l IH] using rev_ind; [unfold keyed; simpl; rewrite lookup_empty; set_solver|].
  rewrite keyed_snoc, lookup_insert_None, IH, fmap_app, elem_of_app. simpl. set_solver.
Qed.

Lemma keyed_lookup_is_Some l k : is_Some (keyed l !! k) <-> k ∈ key <$> l.
Proof.
  rewrite <- not_eq_None_Some, keyed_lookup_None. split; [apply dec_stable|naive_solver].
Qed.
End keyed.

Abbreviation fact_key := (fun a => fact_request (attempt_facts a)).
Abbreviation decisions := (keyed resolution_request).
Abbreviation fact_id := (fun a => fact_attempt (attempt_facts a)).
Abbreviation attempts_by_request := (keyed fact_key).
Abbreviation sorted_requests input := (sort_by_key request_tool_ordinal (stored_requests input)).
Abbreviation stored_decisions input := (decisions (stored_approvals input)).
Abbreviation stored_by_request input := (attempts_by_request (stored_attempts input)).
Abbreviation stored_ids input := (fact_id <$> stored_attempts input).

Section spec.
Context {Snap : Type} `{ContextSnapshots Snap}.
Implicit Types (input : ToolBatchReconstitutionInput Snap).

(** ** The requests *)

Definition owned input (request : ToolRequest) : Prop :=
  request_session request = stored_session input /\ request_turn request = stored_turn input /\
  request_producing_call request = stored_producing_call input.

Definition requests_legal input (requests : list ToolRequest) : Prop :=
  NoDup (request_id <$> requests) /\
  (forall i request, requests !! i = Some request ->
    owned input request /\ tool_ordinal_try_from_usize i = Some (request_tool_ordinal request)).

Definition request_state (l : list ToolRequest) : nat * gset ToolRequestId :=
  (length l, list_to_set (request_id <$> l)).

Lemma check_request_step input l1 request s :
  check_batch_request input (request_state l1) request = Ok s <->
  (request_id request ∉ (request_id <$> l1) /\ owned input request /\
   tool_ordinal_try_from_usize (length l1) = Some (request_tool_ordinal request)) /\
  s = request_state (l1 ++ [request]).
Proof.
  unfold check_batch_request, request_state, owned. rewrite insert_into_set, fmap_app, length_app.
  simpl. rewrite Nat.add_1_r.
  rewrite bool_decide_in_set.
  repeat case_bool_decide; simpl; naive_solver.
Qed.

Lemma check_requests_Ok input requests s :
  try_fold (check_batch_request input) requests (0, ∅) = Ok s <->
  requests_legal input requests /\ s = request_state requests.
Proof.
  change (0, ∅) with (request_state []).
  rewrite (try_fold_checked _ _ _ _ _ (fun l1 x s' _ => check_request_step input l1 x s')).
  by rewrite checked_and, checked_fresh, (checked_index (fun i request => owned input request /\
    tool_ordinal_try_from_usize i = Some (request_tool_ordinal request))).
Qed.

(** ** The decisions *)

Definition approvable (requests : list ToolRequest) (approval : ToolApprovalResolution) : Prop :=
  (exists request, request ∈ requests /\ request_id request = resolution_request approval) /\
  forall request, request ∈ requests -> request_id request = resolution_request approval ->
    request_inadmissible_reason request = None.

Definition delegates_legal (requests : list ToolRequest)
    (approvals : gmap ToolRequestId ToolApprovalResolution) : Prop :=
  forall request approval, request ∈ requests -> approvals !! request_id request = Some approval ->
    resolution_source approval = SourceDelegate -> request_posture request = PostureDelegated.

Definition prefix_legal (requests : list ToolRequest)
    (approvals : gmap ToolRequestId ToolApprovalResolution) : Prop :=
  forall i j request later approval, i < j -> requests !! i = Some request ->
    is_undecided approvals request = true -> requests !! j = Some later ->
    approvals !! request_id later = Some approval ->
    requires_ordered_prefix (resolution_source approval) = false.

Lemma collect_approval_step requests l1 approval m :
  collect_approval requests (list_to_set (request_id <$> requests)) (decisions l1) approval = Ok m <->
  ((resolution_request approval ∉ (resolution_request <$> l1)) /\ approvable requests approval) /\
  m = decisions (l1 ++ [approval]).
Proof.
  unfold collect_approval. rewrite bool_decide_in_set, keyed_snoc.
  rewrite (bool_decide_ext _ _ (keyed_lookup_is_Some resolution_request l1 _)).
  assert (resolution_request approval ∈ request_id <$> requests <->
    exists request, request ∈ requests /\ request_id request = resolution_request approval) as Hin.
  { rewrite list_elem_of_fmap. naive_solver. }
  destruct (existsb _ requests) eqn:He; simpl.
  - apply existsb_exists in He as (r & Hr & Hc). apply andb_prop in Hc as [Hc1 Hc2].
    apply bool_decide_eq_true in Hc1. apply negb_true_iff, bool_decide_eq_false in Hc2.
    split; [done|]. intros [[_ [_ Ha]] _]. destruct Hc2. apply Ha; [by apply list_elem_of_In|done].
  - assert (forall request, request ∈ requests -> request_id request = resolution_request approval ->
      request_inadmissible_reason request = None) as Hadm.
    { intros r Hr Heq. destruct (decide (request_inadmissible_reason r = None)) as [|Hn]; [done|].
      enough (existsb (fun request => bool_decide (request_id request = resolution_request approval)
        && negb (bool_decide (request_inadmissible_reason request = None))) requests = true) by congruence.
      apply existsb_exists. exists r. split; [by apply list_elem_of_In|].
      by rewrite bool_decide_eq_true_2, bool_decide_eq_false_2. }
    unfold approvable. rewrite <- Hin. repeat case_bool_decide; simpl; naive_solver.
Qed.

Lemma collect_approvals_Ok requests approvals m :
  try_fold (collect_approval requests (list_to_set (request_id <$> requests))) approvals ∅ = Ok m <->
  (NoDup (resolution_request <$> approvals) /\ forall a, a ∈ approvals -> approvable requests a) /\
  m = decisions approvals.
Proof.
  change ∅ with (decisions []).
  rewrite (try_fold_checked _ _ _ _ _ (fun l1 x m' _ => collect_approval_step requests l1 x m')).
  by rewrite checked_and, checked_fresh, (checked_all (approvable requests)).
Qed.

Lemma delegate_mismatch_exact requests approvals :
  existsb (delegate_posture_mismatch approvals) requests = false <-> delegates_legal requests approvals.
Proof.
  rewrite existsb_false. unfold delegates_legal, delegate_posture_mismatch. split.
  - intros Hf r a Hr Ha Hs. specialize (Hf r Hr). rewrite Ha, Hs in Hf.
    rewrite bool_decide_eq_true_2 in Hf by done. by apply negb_false_iff, bool_decide_eq_true in Hf.
  - intros Hd r Hr. destruct (approvals !! request_id r) as [a|] eqn:Ha; [|done].
    destruct (bool_decide (resolution_source a = SourceDelegate)) eqn:Hs; [|done].
    apply bool_decide_eq_true in Hs. simpl. by rewrite bool_decide_eq_true_2 by eauto.
Qed.

Lemma ordered_prefix_exact requests approvals :
  ordered_prefix_broken requests approvals = false <-> prefix_legal requests approvals.
Proof.
  unfold ordered_prefix_broken, prefix_legal.
  destruct (position (is_undecided approvals) requests) as [k|] eqn:Hk.
  - apply position_Some in Hk as [(r & Hr & Hu) Hlt]. rewrite existsb_false. split.
    + intros Hf i j r1 r2 a Hij H1 Hu1 H2 Ha.
      assert (k <= i) as Hki. { destruct (decide (i < k)); [|lia]. by rewrite (Hlt i r1) in Hu1. }
      assert (r2 ∈ drop (k + 1) requests) as Hin.
      { apply (list_elem_of_lookup_2 _ (j - (k + 1))). rewrite lookup_drop.
        by replace (k + 1 + (j - (k + 1))) with j by lia. }
      specialize (Hf r2 Hin). by rewrite Ha in Hf.
    + intros Hp r2 (j & Hj)%list_elem_of_lookup_1. rewrite lookup_drop in Hj.
      destruct (approvals !! request_id r2) as [a|] eqn:Ha; [|done].
      by eapply (Hp k (k + 1 + j)); eauto; lia.
  - rewrite position_None in Hk. split; [|done]. intros _ i j r1 r2 a _ H1 Hu1.
    apply list_elem_of_lookup_2 in H1. by rewrite Hk in Hu1.
Qed.

(** ** The attempts *)

Definition decided_approve (approvals : gmap ToolRequestId ToolApprovalResolution)
    (request : ToolRequestId) : bool :=
  match approvals !! request with Some approval => is_approved approval | None => false end.

(** An attempt keeps to the tenure a stored phase expects. *)
Definition issued_as input (expected : option TurnAttemptId) (f : AttemptFacts) : Prop :=
  forall e, expected = Some e ->
    fact_issuing f = e \/ fact_live f = false /\ fact_issuing f ∈ stored_recovery_predecessors input.

Definition attempt_legal input (requests : list ToolRequest)
    (approvals : gmap ToolRequestId ToolApprovalResolution) (expected : option TurnAttemptId)
    (attempt : ReconstitutedToolAttempt) : Prop :=
  let f := attempt_facts attempt in
  (ended_ambiguous attempt = true -> is_Some (external_ambiguity attempt)) /\
  fact_request f ∈ request_id <$> requests /\
  fact_session f = stored_session input /\ fact_turn f = stored_turn input /\
  decided_approve approvals (fact_request f) = true /\ issued_as input expected f.

Definition inventory_of (l : list ReconstitutedToolAttempt) : AttemptInventory :=
  mkInventory (attempts_by_request l) (list_to_set (fact_id <$> l))
    (length (List.filter is_current l)).

Lemma inventory_snoc l a :
  inventory_of (l ++ [a]) =
    mkInventory (<[fact_key a := a]> (attempts_by_request l))
      ({[fact_id a]} ∪ list_to_set (fact_id <$> l))
      (if is_current a then S (length (List.filter is_current l))
       else length (List.filter is_current l)).
Proof.
  unfold inventory_of. rewrite keyed_snoc, insert_into_set, fmap_app, List.filter_app, length_app.
  simpl. f_equal. destruct (is_current a); simpl; lia.
Qed.

Lemma collect_attempt_step input requests approvals expected l1 a s :
  collect_attempt input (list_to_set (request_id <$> requests)) approvals expected
    (inventory_of l1) a = Ok s <->
  ((fact_id a ∉ (fact_id <$> l1)) /\ (fact_key a ∉ (fact_key <$> l1)) /\
   attempt_legal input requests approvals expected a) /\
  s = inventory_of (l1 ++ [a]).
Proof.
  unfold collect_attempt, attempt_legal. rewrite inventory_snoc. cbn [inventory_of inventory_ids
    inventory_attempts inventory_live]. rewrite !bool_decide_in_set.
  rewrite (bool_decide_ext _ _ (keyed_lookup_is_Some fact_key l1 _)).
  fold (decided_approve approvals (fact_key a)).
  assert (ended_ambiguous a && bool_decide (external_ambiguity a = None) = false <->
    (ended_ambiguous a = true -> is_Some (external_ambiguity a))) as Hamb.
  { rewrite andb_false_iff, bool_decide_eq_false, not_eq_None_Some.
    destruct (ended_ambiguous a); naive_solver. }
  set (foreign := match expected with
    | Some e => negb (bool_decide (fact_issuing (attempt_facts a) = e)) | None => false end).
  assert (foreign && (fact_live (attempt_facts a) || negb (bool_decide
      (fact_issuing (attempt_facts a) ∈ stored_recovery_predecessors input))) = false <->
    issued_as input expected (attempt_facts a)) as Hten.
  { unfold foreign, issued_as. destruct expected as [e|]; [|naive_solver].
    rewrite andb_false_iff, orb_false_iff, !negb_false_iff, !bool_decide_eq_true. naive_solver. }
  destruct (ended_ambiguous a && _); [naive_solver|].
  destruct (foreign && _);
    repeat case_bool_decide; destruct (decided_approve approvals (fact_key a)); simpl; naive_solver.
Qed.

Definition attempts_legal input (requests : list ToolRequest)
    (approvals : gmap ToolRequestId ToolApprovalResolution) (expected : option TurnAttemptId) : Prop :=
  NoDup (fact_id <$> stored_attempts input) /\ NoDup (fact_key <$> stored_attempts input) /\
  forall a, a ∈ stored_attempts input -> attempt_legal input requests approvals expected a.

Lemma collect_attempts_Ok input requests approvals expected s :
  try_fold (collect_attempt input (list_to_set (request_id <$> requests)) approvals expected)
    (stored_attempts input) (mkInventory ∅ ∅ 0) = Ok s <->
  attempts_legal input requests approvals expected /\ s = inventory_of (stored_attempts input).
Proof.
  change (mkInventory ∅ ∅ 0) with (inventory_of []).
  rewrite (try_fold_checked _ _ _ _ _ (fun l1 x s' _ =>
    collect_attempt_step input requests approvals expected l1 x s')).
  unfold attempts_legal. rewrite !checked_and, !checked_fresh.
  by rewrite (checked_all (attempt_legal input requests approvals expected)).
Qed.

(** ** Retired and authorized identities *)

Lemma collect_retired_Ok ids l s :
  try_fold (collect_retired ids) l ∅ = Ok s <->
  (NoDup l /\ forall x, x ∈ l -> x ∉ ids) /\ s = list_to_set l.
Proof.
  change ∅ with (list_to_set (C := gset ToolAttemptId) []).
  rewrite (try_fold_checked _ _ (fun l1 x => x ∉ (id <$> l1) /\ x ∉ ids)).
  - by rewrite checked_and, (checked_fresh id), (checked_all (fun x => x ∉ ids)), list_fmap_id.
  - intros l1 x s' _. unfold collect_retired. rewrite bool_decide_in_set, insert_into_set, list_fmap_id.
    repeat case_bool_decide; simpl; naive_solver.
Qed.

Lemma collect_authorized_Ok ids retired l s :
  try_fold (collect_authorized ids retired) l ∅ = Ok s <->
  (NoDup l /\ forall x, x ∈ l -> x ∈ ids \/ x ∈ retired) /\ s = list_to_set l.
Proof.
  change ∅ with (list_to_set (C := gset ToolAttemptId) []).
  rewrite (try_fold_checked _ _ (fun l1 x => x ∉ (id <$> l1) /\ (x ∈ ids \/ x ∈ retired))).
  - by rewrite checked_and, (checked_fresh id), (checked_all (fun x => x ∈ ids \/ x ∈ retired)),
      list_fmap_id.
  - intros l1 x s' _. unfold collect_authorized.
    rewrite bool_decide_in_set, insert_into_set, list_fmap_id.
    repeat case_bool_decide; simpl; naive_solver.
Qed.

(** ** Serial execution *)

Definition finished_before (phase : ToolBatchPhaseReconstitutionInput) (request : ToolRequest)
    (attempt : ReconstitutedToolAttempt) : Prop :=
  is_current attempt = false /\ blocks_later phase (request_id request) attempt = false.

(** Attempts belong to approved requests, and every approved request before an
    attempted one was attempted and lets later work proceed. *)
Definition serial (phase : ToolBatchPhaseReconstitutionInput) (requests : list ToolRequest)
    (approvals : gmap ToolRequestId ToolApprovalResolution)
    (attempts : gmap ToolRequestId ReconstitutedToolAttempt) : Prop :=
  forall j later attempt, requests !! j = Some later -> attempts !! request_id later = Some attempt ->
    decided_approve approvals (request_id later) = true /\
    forall i request, i < j -> requests !! i = Some request ->
      decided_approve approvals (request_id request) = true ->
      exists prior, attempts !! request_id request = Some prior /\ finished_before phase request prior.

Definition missing_at (approvals : gmap ToolRequestId ToolApprovalResolution)
    (attempts : gmap ToolRequestId ReconstitutedToolAttempt) (request : ToolRequest) : bool :=
  decided_approve approvals (request_id request)
  && bool_decide (attempts !! request_id request = None).

Definition attempt_at (attempts : gmap ToolRequestId ReconstitutedToolAttempt)
    (test : ToolRequestId -> ReconstitutedToolAttempt -> bool) (request : ToolRequest) : bool :=
  match attempts !! request_id request with Some a => test (request_id request) a | None => false end.

Definition order_state (phase : ToolBatchPhaseReconstitutionInput)
    (approvals : gmap ToolRequestId ToolApprovalResolution)
    (attempts : gmap ToolRequestId ReconstitutedToolAttempt) (l : list ToolRequest) : OrderState :=
  mkOrder (existsb (missing_at approvals attempts) l)
    (existsb (attempt_at attempts (blocks_later phase)) l)
    (existsb (attempt_at attempts (fun _ a => is_current a)) l).

Definition order_ok (phase : ToolBatchPhaseReconstitutionInput)
    (approvals : gmap ToolRequestId ToolApprovalResolution)
    (attempts : gmap ToolRequestId ReconstitutedToolAttempt) (l1 : list ToolRequest)
    (request : ToolRequest) : Prop :=
  is_Some (attempts !! request_id request) ->
  decided_approve approvals (request_id request) = true /\
  order_state phase approvals attempts l1 = mkOrder false false false.

Lemma order_state_snoc phase approvals attempts l request :
  order_state phase approvals attempts (l ++ [request]) =
    let st := order_state phase approvals attempts l in
    mkOrder (missing_approved_attempt st || missing_at approvals attempts request)
      (terminal_blocker_seen st || attempt_at attempts (blocks_later phase) request)
      (live_attempt_seen st || attempt_at attempts (fun _ a => is_current a) request).
Proof. unfold order_state. rewrite !existsb_app. simpl. by rewrite !orb_false_r. Qed.

Lemma check_order_step phase approvals attempts l1 request s :
  check_order phase approvals attempts (order_state phase approvals attempts l1) request = Ok s <->
  order_ok phase approvals attempts l1 request /\
  s = order_state phase approvals attempts (l1 ++ [request]).
Proof.
  unfold check_order, order_ok. fold (decided_approve approvals (request_id request)).
  rewrite order_state_snoc. generalize (order_state phase approvals attempts l1); intros [m b c].
  unfold missing_at, attempt_at. cbn [missing_approved_attempt terminal_blocker_seen live_attempt_seen].
  destruct (decided_approve approvals (request_id request)), (attempts !! request_id request) as [a|];
    simpl; rewrite ?orb_true_r, ?orb_false_r; try naive_solver.
  destruct m, b, c; simpl; naive_solver.
Qed.

Lemma order_state_clear phase approvals attempts l :
  order_state phase approvals attempts l = mkOrder false false false <->
  forall request, request ∈ l -> decided_approve approvals (request_id request) = true \/
      is_Some (attempts !! request_id request) ->
    exists prior, attempts !! request_id request = Some prior /\ finished_before phase request prior.
Proof.
  unfold order_state. split.
  - intros [= Hm Hb Hc] r Hr Hd. rewrite existsb_false in Hm, Hb, Hc.
    specialize (Hm r Hr). specialize (Hb r Hr). specialize (Hc r Hr).
    unfold missing_at, attempt_at in Hm, Hb, Hc.
    destruct (attempts !! request_id r) as [a|]; [by exists a|].
    destruct Hd as [Hd|[? [=]]]. by rewrite Hd in Hm.
  - intros Hl. f_equal; apply existsb_false; intros r Hr; specialize (Hl r Hr).
    + unfold missing_at. destruct (decided_approve _ _) eqn:Hd; [|done].
      destruct Hl as (a & -> & _); [by left|done].
    + unfold attempt_at. destruct (attempts !! request_id r) as [a|]; [|done].
      destruct Hl as (b & [= ->] & _ & Hb); [by right|done].
    + unfold attempt_at. destruct (attempts !! request_id r) as [a|]; [|done].
      destruct Hl as (b & [= ->] & Hb & _); [by right|done].
Qed.

Lemma check_order_Ok phase requests approvals attempts s :
  try_fold (check_order phase approvals attempts) requests (mkOrder false false false) = Ok s <->
  serial phase requests approvals attempts /\ s = order_state phase approvals attempts requests.
Proof.
  change (mkOrder false false false) with (order_state phase approvals attempts []).
  rewrite (try_fold_checked _ _ _ _ _ (fun l1 x s' _ =>
    check_order_step phase approvals attempts l1 x s')).
  enough (checked (order_ok phase approvals attempts) requests <->
    serial phase requests approvals attempts) as -> by done.
  unfold order_ok, serial. split.
  - intros Hc j later a Hj Ha.
    destruct (Hc (take j requests) later (drop (S j) requests)) as [Hd Hall];
      [by rewrite take_drop_middle|by eexists|].
    rewrite order_state_clear in Hall. split; [done|]. intros i r Hij Hi Hr. apply Hall; [|by left].
    apply list_elem_of_lookup. exists i. by rewrite lookup_take_lt.
  - intros Hs l1 later l2 -> [a Ha].
    destruct (Hs (length l1) later a) as [Hd Hall]; [by apply list_lookup_middle|done|].
    split; [done|]. apply order_state_clear. intros r (i & Hi)%list_elem_of_lookup Hr.
    assert ((l1 ++ later :: l2) !! i = Some r) as Hi' by by apply lookup_app_l_Some.
    apply Hall with i; [by apply lookup_lt_Some in Hi|done|].
    destruct Hr as [Hr|[b Hb]]; [done|]. by apply (Hs i r b).
Qed.

(** ** Tenure of the executing phase *)

Section tenure.
Context (predecessors : list TurnAttemptId) (turn_attempt : TurnAttemptId)
  (attempts : gmap ToolRequestId ReconstitutedToolAttempt).

Abbreviation fact_issuer := (fun a => fact_issuing (attempt_facts a)).

Definition issued_here : ToolRequest -> bool :=
  attempt_at attempts (fun _ a => bool_decide (fact_issuer a = turn_attempt)).

Fixpoint before_tenure (l : list ToolRequest) : list ToolRequest :=
  match l with [] => [] | r :: l => if issued_here r then [] else r :: before_tenure l end.

Definition retained_at (request : ToolRequest) : option TurnAttemptId :=
  a ← attempts !! request_id request;
  if negb (is_current a) && bool_decide (fact_issuer a ∈ predecessors)
  then Some (fact_issuer a) else None.

Definition tenure_state (l : list ToolRequest) : bool * gset TurnAttemptId :=
  (existsb issued_here l, list_to_set (omap retained_at (before_tenure l))).

Lemma before_tenure_snoc l r :
  before_tenure (l ++ [r]) =
    if existsb issued_here l then before_tenure l
    else if issued_here r then before_tenure l else before_tenure l ++ [r].
Proof.
  induction l as [|x l IH]; simpl; [by destruct (issued_here r)|].
  destruct (issued_here x); simpl; [done|]. rewrite IH. by destruct (existsb _ l), (issued_here r).
Qed.

Definition tenure_ok (requests : list ToolRequest) (child_wait : option nat) (l1 : list ToolRequest)
    (request : ToolRequest) : Prop :=
  forall a, attempts !! request_id request = Some a -> fact_issuer a <> turn_attempt ->
    is_current a = false /\
    (fact_issuer a ∈ predecessors /\ existsb issued_here l1 = false \/
     exists wait, child_wait = Some wait /\ forall p,
       position (fun c => bool_decide (request_id c = request_id request)) requests = Some p ->
       p <= wait).

Lemma check_tenure_step requests child_wait l1 request s :
  check_tenure predecessors turn_attempt attempts requests child_wait (tenure_state l1) request = Ok s <->
  tenure_ok requests child_wait l1 request /\ s = tenure_state (l1 ++ [request]).
Proof.
  unfold check_tenure, tenure_ok, tenure_state. rewrite existsb_app, before_tenure_snoc. simpl.
  rewrite orb_false_r. destruct (attempts !! request_id request) as [a|] eqn:Ha.
  - assert (issued_here request = bool_decide (fact_issuer a = turn_attempt)) as Hi
      by by unfold issued_here, attempt_at; rewrite Ha.
    assert (retained_at request = if negb (is_current a) && bool_decide (fact_issuer a ∈ predecessors)
      then Some (fact_issuer a) else None) as Hr by by unfold retained_at; rewrite Ha.
    rewrite Hi. unfold is_current in *.
    destruct (decide (fact_issuer a = turn_attempt)) as [Ht|Ht];
      [rewrite (bool_decide_eq_true_2 _ Ht)|rewrite (bool_decide_eq_false_2 _ Ht)]; simpl.
    + rewrite !andb_false_r, orb_true_r. simpl.
      replace (match child_wait with Some _ => _ | None => false end) with false
        by by destruct child_wait; [destruct (position _ _)|]; rewrite ?andb_false_r.
      destruct (existsb issued_here l1); split; [intros [= <-]; split; [|done]|by intros [_ ->]|
        intros [= <-]; split; [|done]|by intros [_ ->]]; by intros b [= <-].
    + rewrite !andb_true_r, !orb_false_r.
      assert (forall Q : ReconstitutedToolAttempt -> Prop,
        (forall b, Some a = Some b -> fact_issuer b <> turn_attempt -> Q b) <-> Q a) as ->
        by (intros Q; split; [auto|by intros HQ b [= <-] _]).
      destruct (fact_live (attempt_facts a)) eqn:Hl; simpl.
      { rewrite !andb_false_r. simpl. naive_solver. }
      rewrite andb_true_r. destruct (existsb issued_here l1) eqn:He; simpl.
      * rewrite andb_false_r. simpl. destruct child_wait as [w|]; simpl; [|naive_solver].
        destruct (position _ requests) as [p|]; [|naive_solver].
        destruct (Nat.ltb_spec w p); simpl; [|naive_solver].
        split; [done|]. intros [[_ [[_ ?]|(? & [= <-] & Hp)]] _]; [done|].
        specialize (Hp p eq_refl). lia.
      * rewrite andb_true_r, omap_app, list_to_set_app_L. simpl. rewrite Hr. simpl.
        destruct (bool_decide (fact_issuer a ∈ predecessors)) eqn:Hb; simpl.
        -- rewrite (right_id_L ∅ (∪)), (comm_L (∪)). apply bool_decide_eq_true in Hb. naive_solver.
        -- rewrite !(right_id_L ∅ (∪)). apply bool_decide_eq_false in Hb.
           destruct child_wait as [w|]; simpl; [|naive_solver].
           destruct (position _ requests) as [p|]; [|naive_solver].
           destruct (Nat.ltb_spec w p); simpl; [|naive_solver].
           split; [done|]. intros [[_ [[? _]|(? & [= <-] & Hp)]] _]; [done|].
           specialize (Hp p eq_refl). lia.
  - assert (issued_here request = false) as -> by by unfold issued_here, attempt_at; rewrite Ha.
    assert (retained_at request = None) as Hr by by unfold retained_at; rewrite Ha.
    rewrite orb_false_r. destruct (existsb issued_here l1); [naive_solver|].
    rewrite omap_app. simpl. rewrite Hr. simpl. rewrite app_nil_r. naive_solver.
Qed.
End tenure.

Lemma last_omap_Some {A B} (f : A -> option B) l y :
  last (omap f l) = Some y <->
  exists i x, l !! i = Some x /\ f x = Some y /\
    forall j z, i < j -> l !! j = Some z -> f z = None.
Proof.
  induction l as [|x l IH] using rev_ind; [naive_solver|].
  rewrite omap_app. simpl. setoid_rewrite lookup_snoc_Some. destruct (f x) as [b|] eqn:Hx.
  - rewrite last_snoc. split.
    + intros [= <-]. exists (length l), x. split_and!; [by right|done|].
      intros j z Hj [Hz|[-> _]]; [apply lookup_lt_Some in Hz; lia|lia].
    + intros (i & z & [Hz|[-> ->]] & Hf & Hlater); [|congruence].
      rewrite (Hlater (length l) x) in Hx; [done| |by right]. by apply lookup_lt_Some in Hz.
  - rewrite app_nil_r, IH. split.
    + intros (i & z & Hz & Hf & Hlater). exists i, z. split_and!; [by left|done|].
      intros j w Hj [Hw|[-> ->]]; [by eapply Hlater|done].
    + intros (i & z & [Hz|[-> ->]] & Hf & Hlater); [|congruence].
      exists i, z. split_and!; [done..|]. intros j w Hj Hw. eapply Hlater; eauto.
Qed.

Lemma last_omap_None {A B} (f : A -> option B) l :
  last (omap f l) = None <-> (forall x, x ∈ l -> f x = None).
Proof.
  rewrite last_None. split.
  - intros Ho x Hx. destruct (f x) as [y|] eqn:Hf; [|done].
    assert (y ∈ omap f l) by (apply list_elem_of_omap; eauto). rewrite Ho in *. set_solver.
  - intros Hl. destruct (omap f l) as [|y k] eqn:Ho; [done|].
    assert (y ∈ omap f l) as (x & Hx & Hf)%list_elem_of_omap by (rewrite Ho; left).
    by rewrite Hl in Hf.
Qed.

Lemma position_of_request requests i request :
  NoDup (request_id <$> requests) -> requests !! i = Some request ->
  position (fun c => bool_decide (request_id c = request_id request)) requests = Some i.
Proof.
  intros Hnd Hi. apply position_Some. split; [exists request; by rewrite bool_decide_eq_true_2|].
  intros j x Hj Hx. apply bool_decide_eq_false. intros Heq.
  assert (j = i); [|lia]. apply (NoDup_lookup (request_id <$> requests) j i (request_id request));
    [done|rewrite list_lookup_fmap, Hx; simpl; by rewrite Heq|by rewrite list_lookup_fmap, Hi].
Qed.

(** The wait at a position is the last one of the batch. *)
Definition last_child_wait (requests : list ToolRequest)
    (attempts : gmap ToolRequestId ReconstitutedToolAttempt) (i : nat)
    (wait : ToolRequestId * ToolRequestId * SessionId) : Prop :=
  (exists request a, requests !! i = Some request /\ attempts !! request_id request = Some a /\
    child_wait_of a = Some wait) /\
  forall j request a, i < j -> requests !! j = Some request ->
    attempts !! request_id request = Some a -> child_wait_of a = None.

Definition well_keyed (attempts : gmap ToolRequestId ReconstitutedToolAttempt) : Prop :=
  forall k a, attempts !! k = Some a -> fact_key a = k.

Section child_waits.
Context (requests : list ToolRequest) (attempts : gmap ToolRequestId ReconstitutedToolAttempt).

Abbreviation waits_of :=
  (omap child_wait_of (omap (fun request => attempts !! request_id request) requests)).

Lemma child_waits_compose :
  waits_of = omap (fun request => attempts !! request_id request ≫= child_wait_of) requests.
Proof.
  induction requests as [|r l IH]; [done|]. csimpl.
  destruct (attempts !! request_id r) as [a|]; csimpl; [|done]. destruct (child_wait_of a); by rewrite IH.
Qed.

Lemma last_child_waits_Some wait :
  last waits_of = Some wait <-> exists i, last_child_wait requests attempts i wait.
Proof.
  rewrite child_waits_compose, last_omap_Some. unfold last_child_wait. split.
  - intros (i & r & Hr & (a & Ha & Hw)%bind_Some & Hlater). exists i. split; [eauto|].
    intros j r' a' Hj Hr' Ha'. specialize (Hlater j r' Hj Hr'). by rewrite Ha' in Hlater.
  - intros (i & (r & a & Hr & Ha & Hw) & Hlater). exists i, r. rewrite Ha. split_and!; [done..|].
    intros j r' Hj Hr'. destruct (attempts !! request_id r') as [a'|] eqn:Ha'; [|done].
    simpl. by eapply Hlater.
Qed.

Definition later_child_wait (i : nat) : Prop :=
  exists j request a, i <= j /\ requests !! j = Some request /\
    attempts !! request_id request = Some a /\ is_child_wait a = true.

Lemma child_wait_request a wait : child_wait_of a = Some wait -> wait.1.1 = fact_key a.
Proof. destruct a as [c|e]; simpl; [done|]. destruct (ended_tool_end e); naive_solver. Qed.

(** What the position of the last child wait is used for. *)
Lemma child_wait_position_spec i request :
  NoDup (request_id <$> requests) -> well_keyed attempts -> requests !! i = Some request ->
  (exists wait, ('(q, _, _) ← last waits_of;
      position (fun c => bool_decide (request_id c = q)) requests) = Some wait /\
    forall p, position (fun c => bool_decide (request_id c = request_id request)) requests = Some p ->
      p <= wait) <-> later_child_wait i.
Proof.
  intros Hnd Hk Hi. rewrite (position_of_request requests i request Hnd Hi). unfold later_child_wait.
  split.
  - intros (w & ([[q s] c] & Hlast & Hp)%bind_Some & Hle). specialize (Hle i eq_refl).
    apply last_child_waits_Some in Hlast as (k & (r & a & Hr & Ha & Hw) & _).
    pose proof (child_wait_request _ _ Hw) as Hq. simpl in Hq. rewrite (Hk _ _ Ha) in Hq. subst q.
    rewrite (position_of_request requests k r Hnd Hr) in Hp. injection Hp as ->.
    exists w, r, a. split_and!; [done..|]. unfold is_child_wait. rewrite Hw.
    apply bool_decide_eq_true. by eexists.
  - intros (j & r & a & Hij & Hr & Ha & Hw).
    destruct (last waits_of) as [[[q s] c]|] eqn:Hlast.
    + apply last_child_waits_Some in Hlast as (k & (r' & a' & Hr' & Ha' & Hw') & Hlater).
      pose proof (child_wait_request _ _ Hw') as Hq. simpl in Hq. rewrite (Hk _ _ Ha') in Hq. subst q.
      exists k. simpl. rewrite (position_of_request requests k r' Hnd Hr'). split; [done|].
      intros p [= <-]. destruct (decide (k < j)) as [Hkj|]; [|lia].
      unfold is_child_wait in Hw. by rewrite (Hlater j r a Hkj Hr Ha) in Hw.
    + rewrite child_waits_compose, last_omap_None in Hlast.
      specialize (Hlast r (list_elem_of_lookup_2 _ _ _ Hr)). rewrite Ha in Hlast. simpl in Hlast.
      unfold is_child_wait in Hw. by rewrite Hlast in Hw.
Qed.
End child_waits.

Lemma size_list_to_set_le {K} `{Countable K} (l : list K) :
  size (list_to_set l : gset K) <= length l /\
  (size (list_to_set l : gset K) = length l -> NoDup l).
Proof.
  induction l as [|x l [IH1 IH2]]; simpl; [split; [reflexivity|constructor]|].
  rewrite size_union_alt, size_singleton.
  assert (size (list_to_set l ∖ {[x]} : gset K) <= size (list_to_set l : gset K)) as Hd
    by (apply subseteq_size; set_solver).
  split; [lia|]. intros Hs. assert (x ∉ l) as Hx.
  { intros Hin. assert (list_to_set l = ({[x]} ∪ list_to_set l ∖ {[x]} : gset K)) as Heq.
    { apply set_eq. intros y. destruct (decide (y = x)); set_solver. }
    apply (f_equal size) in Heq. rewrite size_union, size_singleton in Heq by set_solver. lia. }
  constructor; [done|]. apply IH2. lia.
Qed.

Lemma size_covers {K} `{Countable K} (s : gset K) (l : list K) :
  (forall x, x ∈ s -> x ∈ l) ->
  (size s = length l <-> NoDup l /\ forall x, x ∈ l -> x ∈ s).
Proof.
  intros Hsub. assert (s ⊆ list_to_set l) as Hs by set_solver.
  destruct (size_list_to_set_le l) as [Hle Hnd]. split.
  - intros Hsize. assert (s = list_to_set l) as -> by (apply set_subseteq_size_eq; [done|lia]).
    split; [auto|set_solver].
  - intros [Hl Hall]. rewrite <- (size_list_to_set (C := gset K) l) by done. f_equal.
    apply set_eq. set_solver.
Qed.

Section tenures.
Context (predecessors : list TurnAttemptId) (turn_attempt : TurnAttemptId)
  (requests : list ToolRequest) (attempts : gmap ToolRequestId ReconstitutedToolAttempt).

Abbreviation issuer := (fun a => fact_issuing (attempt_facts a)).

(** No request of a range of positions was attempted in this tenure. *)
Definition no_tenure_until (i : nat) : Prop :=
  forall j request a, j <= i -> requests !! j = Some request ->
    attempts !! request_id request = Some a -> issuer a <> turn_attempt.

(** Attempts of other tenures are over: they precede this tenure and belong to
    a checked predecessor, or a later child wait separates them. Every
    predecessor is justified by an attempt. *)
Definition tenure_legal : Prop :=
  (forall i request a, requests !! i = Some request -> attempts !! request_id request = Some a ->
    issuer a <> turn_attempt ->
    is_current a = false /\
    (issuer a ∈ predecessors /\ no_tenure_until i \/ later_child_wait requests attempts i)) /\
  NoDup predecessors /\
  forall p, p ∈ predecessors -> exists i request a, requests !! i = Some request /\
    attempts !! request_id request = Some a /\ issuer a = p /\ is_current a = false /\
    no_tenure_until i.

Lemma issued_here_false request :
  issued_here turn_attempt attempts request = false <->
  (forall a, attempts !! request_id request = Some a -> issuer a <> turn_attempt).
Proof.
  unfold issued_here, attempt_at. destruct (attempts !! request_id request) as [a|]; [|naive_solver].
  rewrite bool_decide_eq_false. naive_solver.
Qed.

Lemma elem_of_before_tenure request :
  request ∈ before_tenure turn_attempt attempts requests <->
  exists i, requests !! i = Some request /\ no_tenure_until i.
Proof.
  unfold no_tenure_until. induction requests as [|x l IH]; simpl; [set_solver|].
  destruct (issued_here turn_attempt attempts x) eqn:Hx.
  - split; [set_solver|]. intros (i & _ & Hi).
    assert (issued_here turn_attempt attempts x = false); [|congruence].
    apply issued_here_false. intros a. by apply (Hi 0); [lia|].
  - rewrite issued_here_false in Hx. rewrite elem_of_cons, IH. split.
    + intros [->|(i & Hi & Hno)]; [exists 0|exists (S i)]; (split; [done|]).
      * intros j r a Hj. assert (j = 0) as -> by lia. intros [= <-]. by apply Hx.
      * intros [|j] r a Hj; simpl; [intros [= <-]; by apply Hx|]. apply Hno. lia.
    + intros ([|i] & Hi & Hno); simpl in Hi; [left; congruence|right]. exists i. split; [done|].
      intros j r a Hj Hr. apply (Hno (S j)); [lia|done].
Qed.

Lemma check_tenures_Ok wait s :
  NoDup (request_id <$> requests) -> well_keyed attempts ->
  wait = ('(q, _, _) ← last (omap child_wait_of
      (omap (fun request => attempts !! request_id request) requests));
    position (fun c => bool_decide (request_id c = q)) requests) ->
  (try_fold (check_tenure predecessors turn_attempt attempts requests wait) requests (false, ∅) = Ok s /\
   size s.2 = length predecessors) <->
  tenure_legal /\ s = tenure_state predecessors turn_attempt attempts requests.
Proof.
  intros Hnd Hk Hw. change (false, ∅) with (tenure_state predecessors turn_attempt attempts []).
  rewrite (try_fold_checked _ _ _ _ _ (fun l1 x s' _ =>
    check_tenure_step predecessors turn_attempt attempts requests wait l1 x s')).
  set (state := tenure_state predecessors turn_attempt attempts requests).
  assert (forall p, p ∈ state.2 <-> p ∈ predecessors /\ exists i request a,
    requests !! i = Some request /\ attempts !! request_id request = Some a /\ issuer a = p /\
    is_current a = false /\ no_tenure_until i) as Hst.
  { intros p. unfold state. simpl. rewrite elem_of_list_to_set, list_elem_of_omap.
    setoid_rewrite elem_of_before_tenure. unfold retained_at. split.
    - intros (r & (i & Hi & Hno) & (a & Ha & Hret)%bind_Some).
      destruct (is_current a) eqn:Hc, (bool_decide (issuer a ∈ predecessors)) eqn:Hp; try done.
      apply bool_decide_eq_true in Hp. injection Hret as <-. split; [done|]. by exists i, r, a.
    - intros (Hp & i & r & a & Hi & Ha & <- & Hc & Hno). exists r. split; [by exists i|].
      rewrite Ha. simpl. by rewrite Hc, bool_decide_eq_true_2. }
  assert (size state.2 = length predecessors <-> NoDup predecessors /\ forall p, p ∈ predecessors ->
    exists i request a, requests !! i = Some request /\ attempts !! request_id request = Some a /\
    issuer a = p /\ is_current a = false /\ no_tenure_until i) as Hsize.
  { rewrite size_covers; [|intros x Hx; by apply Hst in Hx as [? _]]. naive_solver. }
  assert (checked (tenure_ok predecessors turn_attempt attempts requests wait) requests <->
    forall i request a, requests !! i = Some request -> attempts !! request_id request = Some a ->
    issuer a <> turn_attempt -> is_current a = false /\
    (issuer a ∈ predecessors /\ no_tenure_until i \/ later_child_wait requests attempts i)) as Hch.
  { assert (forall i, existsb (issued_here turn_attempt attempts) (take i requests) = false <->
      forall j r a, j < i -> requests !! j = Some r -> attempts !! request_id r = Some a ->
        issuer a <> turn_attempt) as Htake.
    { intros i. rewrite existsb_false. split.
      - intros Hf j r a Hj Hr. apply issued_here_false, Hf. apply list_elem_of_lookup. exists j.
        by rewrite lookup_take_lt.
      - intros Hno r (j & Hj)%list_elem_of_lookup. apply lookup_take_Some in Hj as [Hj Hlt].
        apply issued_here_false. intros a. by eapply Hno. }
    unfold tenure_ok. split.
    - intros Hc i r a Hr Ha Ht.
      destruct (Hc (take i requests) r (drop (S i) requests)) with a as [Hcur Hd];
        [by rewrite take_drop_middle|done|done|]. split; [done|]. destruct Hd as [[Hp Hno]|Hwait].
      + left. split; [done|]. intros j r' a' Hj Hr' Ha'. rewrite Htake in Hno.
        destruct (decide (j = i)) as [->|]; [congruence|]. apply (Hno j r'); [lia|done..].
      + right. apply (child_wait_position_spec requests attempts i r Hnd Hk Hr). by rewrite <- Hw.
    - intros Hall l1 r l2 Heq a Ha Ht.
      assert (requests !! length l1 = Some r) as Hr by (rewrite Heq; by apply list_lookup_middle).
      destruct (Hall _ _ _ Hr Ha Ht) as [Hcur Hd]. split; [done|]. destruct Hd as [[Hp Hno]|Hl].
      + left. split; [done|]. replace l1 with (take (length l1) requests)
          by (rewrite Heq; apply take_app_length). apply Htake. intros j r' a' Hj. apply Hno. lia.
      + right. rewrite Hw. by apply (child_wait_position_spec requests attempts (length l1) r Hnd Hk Hr). }
  unfold tenure_legal. rewrite Hch. naive_solver.
Qed.
End tenures.

(** ** The phase *)

Definition loaded_phase (phase : ToolBatchPhaseReconstitutionInput) : ToolBatchPhase :=
  match phase with
  | StoredAwaitingApproval request => BatchAwaitingApproval request
  | StoredExecuting turn_attempt => BatchExecuting turn_attempt
  | StoredAwaitingRecovery attempt => BatchAwaitingRecovery attempt
  | StoredAwaitingChild request spawning_request child =>
      BatchAwaitingChild request spawning_request child
  end.

Definition phase_legal input (requests : list ToolRequest)
    (approvals : gmap ToolRequestId ToolApprovalResolution)
    (attempts : gmap ToolRequestId ReconstitutedToolAttempt) : Prop :=
  match stored_phase input with
  | StoredAwaitingApproval request =>
      earliest_undecided requests approvals = Some request /\ stored_attempts input = []
  | StoredExecuting turn_attempt =>
      earliest_undecided requests approvals = None /\
      (forall a, a ∈ stored_attempts input -> external_ambiguity a = None) /\
      tenure_legal (stored_recovery_predecessors input) turn_attempt requests attempts
  | StoredAwaitingRecovery attempt =>
      earliest_undecided requests approvals = None /\
      (forall a, a ∈ stored_attempts input -> is_current a = false) /\
      omap external_ambiguity (stored_attempts input) = [attempt]
  | StoredAwaitingChild request spawning_request child =>
      earliest_undecided requests approvals = None /\
      (forall a, a ∈ stored_attempts input -> is_current a = false) /\
      (forall a, a ∈ stored_attempts input -> external_ambiguity a = None) /\
      exists i, last_child_wait requests attempts i (request, spawning_request, child)
  end.

Lemma keyed_perm {A} (key : A -> ToolRequestId) (l : list A) :
  NoDup (key <$> l) -> (map_to_list (keyed key l)).*2 ≡ₚ l.
Proof.
  induction l as [|a l IH] using rev_ind; intros Hnd; [done|].
  rewrite fmap_app, NoDup_app in Hnd. destruct Hnd as (Hl & Hd & _).
  rewrite keyed_snoc, map_to_list_insert; simpl.
  - rewrite (IH Hl). apply Permutation_cons_append.
  - apply keyed_lookup_None. intros Hin. apply (Hd _ Hin). left.
Qed.

Lemma attempt_values_perm l : NoDup (fact_key <$> l) -> attempt_values (attempts_by_request l) ≡ₚ l.
Proof.
  intros Hnd. unfold attempt_values, btree_iter. rewrite sort_by_key_perm. by apply keyed_perm.
Qed.

Lemma keyed_well_keyed l : NoDup (fact_key <$> l) -> well_keyed (attempts_by_request l).
Proof. intros Hnd k a Ha. by apply (keyed_lookup_Some fact_key) in Ha as [_ Ha]. Qed.

Lemma omap_nil {A B} (f : A -> option B) l : omap f l = [] <-> (forall x, x ∈ l -> f x = None).
Proof. by rewrite <- last_omap_None, last_None. Qed.

Lemma live_count_zero l :
  (length (List.filter is_current l) =? 0) = true <-> (forall a, a ∈ l -> is_current a = false).
Proof.
  rewrite Nat.eqb_eq, length_zero_iff_nil. induction l as [|a l IH]; simpl; [set_solver|].
  setoid_rewrite elem_of_cons. destruct (is_current a) eqn:Ha; [|naive_solver].
  split; [done|]. intros Hl. rewrite Hl in Ha by auto. done.
Qed.

Lemma keyed_empty {A} (key : A -> ToolRequestId) (l : list A) : keyed key l = ∅ <-> l = [].
Proof.
  split; [|by intros ->]. destruct l as [|a l _] using rev_ind; [done|].
  rewrite keyed_snoc. intros Hm. by apply insert_non_empty in Hm.
Qed.

Lemma reconstitute_phase_Ok input requests approvals phase :
  NoDup (request_id <$> requests) -> NoDup (fact_key <$> stored_attempts input) ->
  (reconstitute_phase input requests approvals (inventory_of (stored_attempts input)) = Ok phase <->
   phase_legal input requests approvals (attempts_by_request (stored_attempts input)) /\
   phase = loaded_phase (stored_phase input)).
Proof.
  intros Hnd Hkeys. unfold reconstitute_phase, phase_legal.
  cbn [inventory_of inventory_attempts inventory_live].
  pose proof (attempt_values_perm _ Hkeys) as Hperm.
  assert (omap external_ambiguity (attempt_values (attempts_by_request (stored_attempts input))) = []
    <-> forall a, a ∈ stored_attempts input -> external_ambiguity a = None) as Hnone.
  { rewrite omap_nil. by setoid_rewrite Hperm. }
  destruct (stored_phase input) as [r|ta|x|q s c]; simpl.
  - rewrite andb_comm. rewrite <- (keyed_empty fact_key).
    repeat case_bool_decide; simpl; naive_solver.
  - destruct (check_tenures_Ok (stored_recovery_predecessors input) ta requests
      (attempts_by_request (stored_attempts input)) _
      (tenure_state (stored_recovery_predecessors input) ta
        (attempts_by_request (stored_attempts input)) requests) Hnd (keyed_well_keyed _ Hkeys) eq_refl)
      as [_ Hback].
    pose proof (fun st => proj1 (check_tenures_Ok (stored_recovery_predecessors input) ta requests
      (attempts_by_request (stored_attempts input)) _ st Hnd (keyed_well_keyed _ Hkeys) eq_refl)) as Hfwd.
    rewrite <- Hnone. clear Hnone Hperm.
    case_bool_decide; [|naive_solver]. case_bool_decide; simpl; [|naive_solver].
    rewrite bind_Ok. split.
    + intros (st & Hst & Hsize). case_bool_decide; [|done]. injection Hsize as <-.
      destruct (Hfwd st) as [Hl _]; [done|]. done.
    + intros [(_ & _ & Hl) ->]. destruct (Hback (conj Hl eq_refl)) as [Hf Hsz].
      eexists. split; [exact Hf|]. by rewrite bool_decide_eq_true_2.
  - rewrite <- live_count_zero.
    destruct (length _ =? 0); simpl; [|rewrite andb_false_r; simpl; naive_solver].
    assert (omap external_ambiguity (attempt_values (attempts_by_request (stored_attempts input))) = [x]
      <-> omap external_ambiguity (stored_attempts input) = [x]) as <-.
    { rewrite <- !Permutation_singleton_r. by rewrite Hperm. }
    repeat case_bool_decide; simpl; naive_solver.
  - rewrite <- live_count_zero, <- Hnone, <- last_child_waits_Some. destruct (length _ =? 0); simpl;
      [|rewrite andb_false_r; simpl; naive_solver]. repeat case_bool_decide; simpl; naive_solver.
Qed.

(** ** Complete inventories *)

Record batch_legal input : Prop := {
  legal_nonempty : stored_requests input <> [];
  legal_session : owning_session (snapshot_frontier (stored_yielded input)) = stored_session input;
  legal_requests : requests_legal input (sorted_requests input);
  legal_decisions : NoDup (resolution_request <$> stored_approvals input) /\
    forall a, a ∈ stored_approvals input -> approvable (sorted_requests input) a;
  legal_delegates : delegates_legal (sorted_requests input) (stored_decisions input);
  legal_prefix : prefix_legal (sorted_requests input) (stored_decisions input);
  legal_attempts : attempts_legal input (sorted_requests input) (stored_decisions input)
    (expected_issuing_attempt input);
  legal_retired : NoDup (stored_retired input) /\
    forall x, x ∈ stored_retired input -> x ∉ stored_ids input;
  legal_authorized : NoDup (stored_runner_authorized input) /\
    forall x, x ∈ stored_runner_authorized input -> x ∈ stored_ids input \/ x ∈ stored_retired input;
  legal_serial : serial (stored_phase input) (sorted_requests input) (stored_decisions input)
    (stored_by_request input);
  legal_phase : phase_legal input (sorted_requests input) (stored_decisions input)
    (stored_by_request input);
}.

(** Serial execution leaves at most one attempt running. *)
Lemma serial_live input requests approvals expected :
  attempts_legal input requests approvals expected ->
  serial (stored_phase input) requests approvals (stored_by_request input) ->
  (1 <? length (List.filter is_current (stored_attempts input))) = false.
Proof.
  intros (_ & Hkeys & Hall) Hs. apply Nat.ltb_ge.
  assert (forall l : list ReconstitutedToolAttempt, (forall a b, a ∈ l -> b ∈ l -> a = b) -> NoDup l -> length l <= 1) as Hone.
  { intros [|a [|b l]] Heq Hnd; simpl; [lia..|]. apply NoDup_cons in Hnd as [Hn _]. destruct Hn.
    rewrite (Heq a b); set_solver. }
  assert (forall a, a ∈ List.filter is_current (stored_attempts input) <->
    a ∈ stored_attempts input /\ is_current a = true) as Hf.
  { intros a. rewrite !list_elem_of_In. apply List.filter_In. }
  apply Hone.
  - intros a b [Ha Hca]%Hf [Hb Hcb]%Hf.
    assert (forall x, x ∈ stored_attempts input -> exists i r, requests !! i = Some r /\
      stored_by_request input !! request_id r = Some x) as Hpos.
    { intros x Hx. destruct (Hall x Hx) as (_ & Hin & _).
      apply list_elem_of_fmap in Hin as (r & Hr & (i & Hi)%list_elem_of_lookup). exists i, r.
      split; [done|]. rewrite <- Hr. by apply (keyed_lookup_Some fact_key). }
    destruct (Hpos a Ha) as (i & r & Hi & Hra), (Hpos b Hb) as (j & q & Hj & Hqb).
    destruct (Nat.lt_total i j) as [Hlt|[->|Hlt]].
    + destruct (Hs j q b Hj Hqb) as [_ Hprior]. destruct (Hs i r a Hi Hra) as [Hap _].
      destruct (Hprior i r Hlt Hi Hap) as (p & Hp & Hcp & _). congruence.
    + congruence.
    + destruct (Hs i r a Hi Hra) as [_ Hprior]. destruct (Hs j q b Hj Hqb) as [Hap _].
      destruct (Hprior j q Hlt Hj Hap) as (p & Hp & Hcp & _). congruence.
  - apply NoDup_fmap_1 in Hkeys. by apply NoDup_ListNoDup, List.NoDup_filter, NoDup_ListNoDup.
Qed.

Lemma validate_batch_Ok input r :
  validate_batch input = Ok r <->
  batch_legal input /\
  r = (sorted_requests input, stored_decisions input, inventory_of (stored_attempts input),
       list_to_set (stored_retired input), list_to_set (stored_runner_authorized input),
       loaded_phase (stored_phase input)).
Proof.
  unfold validate_batch. split.
  - case_bool_decide; [done|]. case_bool_decide; [|done]. cbn [negb].
    rewrite bind_Ok. intros ([n ids] & [Hreq [= -> ->]]%check_requests_Ok & Hr).
    apply bind_Ok in Hr as (? & [Hdec ->]%collect_approvals_Ok & Hr).
    destruct (existsb _ _) eqn:Hdel; [done|]. apply delegate_mismatch_exact in Hdel.
    destruct (ordered_prefix_broken _ _) eqn:Hpre; [done|]. apply ordered_prefix_exact in Hpre.
    apply bind_Ok in Hr as (? & [Hatt ->]%collect_attempts_Ok & Hr).
    apply bind_Ok in Hr as (? & [Hret ->]%collect_retired_Ok & Hr).
    apply bind_Ok in Hr as (? & [Haut ->]%collect_authorized_Ok & Hr).
    destruct (1 <? _); [done|]. apply bind_Ok in Hr as (? & [Hser ->]%check_order_Ok & Hr).
    apply bind_Ok in Hr as (ph & Hph & [= <-]).
    apply reconstitute_phase_Ok in Hph as [Hph ->]; [|apply Hreq|apply Hatt].
    split; [|done]. cbn [inventory_of inventory_ids] in *.
    constructor; try done; split; try apply Hret; try apply Haut.
    + destruct Hret as [_ Hret]. intros x Hx Hin. apply (Hret x Hx). by apply elem_of_list_to_set.
    + destruct Haut as [_ Haut]. intros x Hx. destruct (Haut x Hx) as [Hin|Hin];
        apply elem_of_list_to_set in Hin; auto.
  - intros [[] ->]. rewrite bool_decide_eq_false_2, bool_decide_eq_true_2 by done. cbn [negb].
    apply bind_Ok. eexists. split; [by apply check_requests_Ok|].
    unfold request_state. cbv beta iota.
    apply bind_Ok. eexists. split; [by apply collect_approvals_Ok|].
    rewrite (proj2 (delegate_mismatch_exact _ _)), (proj2 (ordered_prefix_exact _ _)) by done.
    apply bind_Ok. eexists. split; [by apply collect_attempts_Ok|].
    apply bind_Ok. eexists. split.
    { apply collect_retired_Ok. split; [|done]. destruct legal_retired0 as [? Hr]. split; [done|].
      intros x Hx Hin. apply (Hr x Hx). by apply elem_of_list_to_set in Hin. }
    apply bind_Ok. eexists. split.
    { apply collect_authorized_Ok. split; [|done]. destruct legal_authorized0 as [? Hr].
      split; [done|]. intros x Hx. cbn. rewrite !elem_of_list_to_set. by apply Hr. }
    cbn [inventory_of inventory_live inventory_attempts].
    rewrite (serial_live input _ _ _ legal_attempts0 legal_serial0).
    apply bind_Ok. eexists. split; [by apply check_order_Ok|].
    apply bind_Ok. eexists. split; [|done].
    apply reconstitute_phase_Ok; [apply legal_requests0|apply legal_attempts0|done].
Qed.

(** ** Issuance cells *)

(** Cells added to a store: one fresh cell per identity, holding its state;
    nothing else of the store changes. *)
Definition fresh_cells (store store' : IssuanceStore) (ids : list ToolAttemptId)
    (value : ToolAttemptId -> N) (cells : gmap ToolAttemptId IssuanceCell) : Prop :=
  (forall id, is_Some (cells !! id) <-> id ∈ ids) /\
  (forall id cell, cells !! id = Some cell -> store !! cell = None /\ store' !! cell = Some (value id)) /\
  (forall id1 id2 cell, cells !! id1 = Some cell -> cells !! id2 = Some cell -> id1 = id2) /\
  store ⊆ store'.

Definition issuance_value (authorized : gset ToolAttemptId) (id : ToolAttemptId) : N :=
  if bool_decide (id ∈ authorized) then RUNNER_ISSUANCE_ISSUED else RUNNER_ISSUANCE_AVAILABLE.

Lemma new_cell_fresh (store : IssuanceStore) : store !! fresh (dom store) = None.
Proof. apply not_elem_of_dom, is_fresh. Qed.

Lemma allocate_cells_fresh store authorized ids :
  NoDup ids ->
  fresh_cells store (allocate_cells store authorized ids).2 ids (issuance_value authorized)
    (allocate_cells store authorized ids).1.
Proof.
  intros Hnd. revert store. induction Hnd as [|id ids Hid Hnd IH]; intros store; simpl.
  - split_and!; [|done..|done]. intros id. split; [intros [? [=]]|set_solver].
  - fold (issuance_value authorized id). set (cell := fresh (dom store)).
    set (store1 := <[cell := issuance_value authorized id]> store).
    destruct (IH store1) as (Hdom & Hval & Hinj & Hsub).
    destruct (allocate_cells store1 authorized ids) as [cells store2]. simpl in *.
    assert (store !! cell = None) as Hc by apply new_cell_fresh.
    assert (forall i c, cells !! i = Some c -> c <> cell) as Hne.
    { intros i c Hi ->. destruct (Hval i cell Hi) as [Hn _]. unfold store1 in Hn.
      by rewrite lookup_insert_eq in Hn. }
    assert (store2 !! cell = Some (issuance_value authorized id)) as Hcell.
    { eapply lookup_weaken; [|done]. apply lookup_insert_eq. }
    split_and!.
    + intros i. rewrite lookup_insert_is_Some, Hdom, elem_of_cons. destruct (decide (i = id)); naive_solver.
    + intros i c [[<- <-]|[_ Hi]]%lookup_insert_Some; [done|]. destruct (Hval i c Hi) as [Hn Hv].
      split; [|done]. unfold store1 in Hn. by apply lookup_insert_None in Hn as [Hn _].
    + intros i1 i2 c [[<- <-]|[_ H1]]%lookup_insert_Some [[<- ?]|[_ H2]]%lookup_insert_Some;
        [done|by apply Hne in H2|subst; by apply Hne in H1|by eapply Hinj].
    + etrans; [|done]. by apply insert_subseteq.
Qed.

(** The batch of a legal inventory, over given cells. *)
Definition batch_of input (cells : gmap ToolAttemptId IssuanceCell) : ToolBatch Snap :=
  mkBatch (stored_session input) (stored_turn input) (stored_producing_call input)
    (stored_yielded input) (sorted_requests input) (stored_decisions input) (stored_by_request input)
    (list_to_set (stored_retired input)) cells (loaded_phase (stored_phase input)).

Definition inventory_cells input (store store' : IssuanceStore)
    (cells : gmap ToolAttemptId IssuanceCell) : Prop :=
  fresh_cells store store' (stored_ids input ++ stored_retired input)
    (issuance_value (list_to_set (stored_runner_authorized input))) cells.

Lemma fresh_cells_perm store store' ids ids' value cells :
  (forall x, x ∈ ids <-> x ∈ ids') ->
  fresh_cells store store' ids value cells -> fresh_cells store store' ids' value cells.
Proof. unfold fresh_cells. intros Hp (H1 & H2). split; [|done]. intros id. by rewrite H1. Qed.

Lemma elem_of_btree_set_iter {K} `{Countable K, OrdKey K} (x : K) (s : gset K) :
  x ∈ btree_set_iter s <-> x ∈ s.
Proof. unfold btree_set_iter. by rewrite elem_of_sort_by_key, elem_of_elements. Qed.

Lemma reconstitute_batch_legal store input :
  batch_legal input -> exists cells store',
    reconstitute_batch store input = Ok (batch_of input cells, store') /\
    inventory_cells input store store' cells.
Proof.
  intros Hl. unfold reconstitute_batch.
  rewrite (proj2 (validate_batch_Ok input _) (conj Hl eq_refl)). simpl.
  set (authorized := list_to_set (stored_runner_authorized input)).
  set (ids := _ ++ _).
  pose proof (allocate_cells_fresh store authorized ids) as Hf.
  destruct (allocate_cells store authorized ids) as [cells store'] eqn:Ha. exists cells, store'.
  split; [done|]. simpl in Hf. eapply fresh_cells_perm; [|apply Hf].
  - intros x. unfold ids. by rewrite !elem_of_app, !elem_of_btree_set_iter, !elem_of_list_to_set.
  - unfold ids. apply NoDup_app. destruct Hl as [_ _ _ _ _ _ _ [_ Hr] _ _ _].
    split_and!; [| |]; [unfold btree_set_iter; rewrite sort_by_key_perm; apply NoDup_elements| |
      unfold btree_set_iter; rewrite sort_by_key_perm; apply NoDup_elements].
    intros x. rewrite !elem_of_btree_set_iter, !elem_of_list_to_set. intros Hx Hx'. by apply (Hr x).
Qed.

(** C12. A stored batch inventory is reconstituted exactly when it is legal:
    contiguous distinct requests of one call, one decision per admissible
    request in proposal order, attempts that execute approved requests serially
    within their tenure, and the phase the evidence determines. The batch is
    that inventory with one fresh issuance cell per attempt, marked for the
    authorized ones; a rejection returns the whole input. *)
Theorem batch_reconstitution_exact store input :
  match reconstitute_batch store input with
  | Ok (b, store') => batch_legal input /\
      exists cells, b = batch_of input cells /\ inventory_cells input store store' cells
  | Err (input', _) => ~ batch_legal input /\ input' = input
  end.
Proof.
  destruct (reconstitute_batch store input) as [[b store']|[input' f]] eqn:Hr.
  - assert (batch_legal input) as Hl.
    { unfold reconstitute_batch in Hr. destruct (validate_batch input) as [r|] eqn:Hv; [|done].
      by apply validate_batch_Ok in Hv as [Hl _]. }
    split; [done|]. destruct (reconstitute_batch_legal store input Hl) as (cells & store1 & Hok & Hc).
    rewrite Hr in Hok. injection Hok as -> ->. by exists cells.
  - split.
    + intros Hl. destruct (reconstitute_batch_legal store input Hl) as (? & ? & Hok & _). congruence.
    + unfold reconstitute_batch in Hr. destruct (validate_batch input) as [[[[[[??]?]?]?]?]|]; simpl in Hr.
      * by destruct (allocate_cells _ _ _).
      * by injection Hr as <- _.
Qed.
End spec.
