(* ===== verification/ToolBatchDecisions.v ===== *)
(** * Decisions on a tool batch

    A reconstituted batch answers every decision command of a user, a closed
    turn or an expired wait: the request it waits on is decided, recorded and
    followed by the next wait or by execution; every other command is refused
    for a reason that holds. *)

From stdpp Require Import strings.
From S2P Require Import Prelude Configuration Tool ToolAttempt ToolAttemptSpec Frontier TurnAttempt TurnLifecycle ToolBatch ToolBatchSpec.

(** The three commands that decide a request. *)
Inductive decision_kind := UserDecision | ClosureDenial | TimeoutDenial.

Section steps.
Context {Snap : Type} `{ContextSnapshots Snap}.
Implicit Types (input : ToolBatchReconstitutionInput Snap).

Definition decide_by (kind : decision_kind) (batch : ToolBatch Snap) (command : DecideToolRequest)
    (continuation : option TurnAttemptId) :=
  match kind with
  | UserDecision => prepare_user_decision batch command continuation
  | ClosureDenial => prepare_lifecycle_closure_denial batch command continuation
  | TimeoutDenial => prepare_approval_timeout batch command continuation
  end.

(** The resolution a command records, when it may record one. *)
Definition kind_resolution (kind : decision_kind) (command : DecideToolRequest) :
    option ToolApprovalResolution :=
  match kind with
  | UserDecision =>
      Some (user_resolution (decide_command command) (decide_request command)
              (decide_decision command))
  | ClosureDenial =>
      if bool_decide (decide_decision command = Deny None)
      then Some (lifecycle_closure (decide_request command)) else None
  | TimeoutDenial =>
      if bool_decide (decide_decision command
                      = resolution_decision (approval_timeout (decide_request command)))
      then Some (approval_timeout (decide_request command)) else None
  end.

Definition stored_of (phase : ToolBatchPhase) : ToolBatchPhaseReconstitutionInput :=
  match phase with
  | BatchAwaitingApproval request => StoredAwaitingApproval request
  | BatchExecuting turn_attempt => StoredExecuting turn_attempt
  | BatchAwaitingRecovery attempt => StoredAwaitingRecovery attempt
  | BatchAwaitingChild request spawning_request child =>
      StoredAwaitingChild request spawning_request child
  end.

Lemma loaded_stored phase : loaded_phase (stored_of phase) = phase.
Proof. by destruct phase. Qed.
Lemma stored_loaded phase : stored_of (loaded_phase phase) = phase.
Proof. by destruct phase. Qed.

(** ** Changes of a stored inventory *)

(** A decision is recorded; no attempt exists yet, so none has predecessors. *)
Definition record_decision input (resolution : ToolApprovalResolution)
    (phase : ToolBatchPhaseReconstitutionInput) : ToolBatchReconstitutionInput Snap :=
  mkBatchInput (stored_session input) (stored_turn input) (stored_producing_call input)
    (stored_yielded input) (stored_requests input) (stored_approvals input ++ [resolution])
    (stored_attempts input) (stored_retired input) (stored_runner_authorized input) [] phase.

(** ** Decisions *)

Lemma find_Some_first {A} (f : A -> bool) l x :
  find f l = Some x <->
  exists i, l !! i = Some x /\ f x = true /\ forall j y, j < i -> l !! j = Some y -> f y = false.
Proof.
  induction l as [|a l IH]; simpl; [naive_solver|]. destruct (f a) eqn:Ha.
  - split; [intros [= <-]; exists 0; split_and!; [done..|lia]|].
    intros ([|i] & Hi & Hf & Hlt); simpl in Hi; [congruence|].
    rewrite (Hlt 0 a) in Ha; [done|lia|done].
  - rewrite IH. split.
    + intros (i & Hi & Hf & Hlt). exists (S i). split_and!; [done..|].
      intros [|j] y Hj; simpl; [by intros [= <-]|]. apply Hlt. lia.
    + intros ([|i] & Hi & Hf & Hlt); simpl in Hi; [congruence|]. exists i. split_and!; [done..|].
      intros j y Hj Hy. apply (Hlt (S j)); [lia|done].
Qed.

Lemma earliest_undecided_Some requests approvals id :
  earliest_undecided requests approvals = Some id <->
  exists i request, requests !! i = Some request /\ request_id request = id /\
    is_undecided approvals request = true /\
    forall j earlier, j < i -> requests !! j = Some earlier -> is_undecided approvals earlier = false.
Proof.
  unfold earliest_undecided. rewrite fmap_Some. setoid_rewrite find_Some_first. naive_solver.
Qed.

Lemma find_request_Some requests i request :
  NoDup (request_id <$> requests) -> requests !! i = Some request ->
  find_request requests (request_id request) = Some request.
Proof.
  intros Hnd Hi. apply find_Some_first. exists i. split_and!; [done|by apply bool_decide_eq_true|].
  intros j y Hj Hy. apply bool_decide_eq_false. intros Heq.
  assert (j = i); [|lia]. apply (NoDup_lookup (request_id <$> requests) j i (request_id request));
    [done|rewrite list_lookup_fmap, Hy; simpl; by rewrite Heq|by rewrite list_lookup_fmap, Hi].
Qed.

Lemma find_request_elem requests id request :
  find_request requests id = Some request -> request ∈ requests /\ request_id request = id.
Proof.
  intros Hf. apply find_Some_first in Hf as (i & Hi & He & _). apply bool_decide_eq_true in He.
  split; [by eapply list_elem_of_lookup_2|done].
Qed.

Lemma is_undecided_spec approvals request :
  is_undecided approvals request = true <->
  request_inadmissible_reason request = None /\ approvals !! request_id request = None.
Proof. unfold is_undecided. by rewrite andb_true_iff, !bool_decide_eq_true. Qed.

Lemma undecided_insert approvals id resolution request :
  is_undecided (<[id := resolution]> approvals) request = true <->
  is_undecided approvals request = true /\ request_id request <> id.
Proof. rewrite !is_undecided_spec, lookup_insert_None. naive_solver. Qed.

(** The inventory a decision on the awaited request leads to. *)
Lemma request_position requests i j r q :
  NoDup (request_id <$> requests) -> requests !! i = Some r -> requests !! j = Some q ->
  request_id r = request_id q -> i = j.
Proof.
  intros Hnd Hi Hj Heq. apply (NoDup_lookup (request_id <$> requests) i j (request_id r)); [done|..].
  - by rewrite list_lookup_fmap, Hi.
  - by rewrite list_lookup_fmap, Hj, Heq.
Qed.

Lemma request_unique requests r q :
  NoDup (request_id <$> requests) -> r ∈ requests -> q ∈ requests ->
  request_id r = request_id q -> r = q.
Proof.
  intros Hnd (i & Hi)%list_elem_of_lookup (j & Hj)%list_elem_of_lookup Heq.
  rewrite (request_position requests i j r q Hnd Hi Hj Heq) in Hi. congruence.
Qed.

Lemma record_decision_legal input awaited resolution request continuation phase active :
  batch_legal input -> stored_phase input = StoredAwaitingApproval awaited ->
  resolution_request resolution = awaited ->
  request ∈ sorted_requests input -> request_id request = awaited ->
  (resolution_source resolution = SourceDelegate -> request_posture request = PostureDelegated) ->
  decision_successor (sorted_requests input) (<[awaited := resolution]> (stored_decisions input))
    continuation = Some (phase, active) ->
  batch_legal (record_decision input resolution (stored_of phase)).
Proof.
  intros Hl Hphase Hres Hin Hid Hdel Hnext. destruct Hl as [Hne Hses Hreq Hdecs Hdels Hpre Hatt Hret Haut Hser Hph].
  unfold phase_legal in Hph. rewrite Hphase in Hph.
  destruct Hph as [Hearliest Hnone]. pose proof Hearliest as Hearliest0.
  apply earliest_undecided_Some in Hearliest as (k & r & Hk & Hrid & Hund & Hbefore).
  assert (NoDup (request_id <$> sorted_requests input)) as Hnd by apply Hreq.
  assert (r ∈ sorted_requests input) as Hr by by eapply list_elem_of_lookup_2.
  assert (request = r) as -> by (eapply request_unique; eauto; congruence).
  assert (decisions (stored_approvals input ++ [resolution])
    = <[awaited := resolution]> (stored_decisions input)) as Hdec by by rewrite keyed_snoc, Hres.
  apply is_undecided_spec in Hund as [Hadm Hund].
  constructor; simpl; rewrite ?Hdec; try done.
  - destruct Hdecs as [Hdnd Hall]. split.
    + rewrite fmap_app. apply NoDup_app. split_and!; [done| |apply NoDup_singleton].
      intros x Hx [->|Hf]%elem_of_cons; [|by apply not_elem_of_nil in Hf].
      rewrite Hrid in Hund. apply keyed_lookup_None in Hund. by rewrite Hres in Hx.
    + intros a [Ha|Ha]%elem_of_app; [by apply Hall|]. apply list_elem_of_singleton in Ha as ->.
      split; [exists r; split; [done|congruence]|]. intros q Hq Hqid.
      assert (q = r) as ->; [eapply request_unique; eauto; congruence|done].
  - intros q a Hq [[Heq <-]|[_ Ha]]%lookup_insert_Some Hs; [|by eapply Hdels].
    assert (q = r) as ->; [eapply request_unique; eauto; congruence|by apply Hdel].
  - intros i j q later a Hij Hi [Hu Hnk]%undecided_insert Hj Ha.
    apply lookup_insert_Some in Ha as [[Heq <-]|[_ Ha]]; [|by eapply (Hpre i j)].
    assert (j = k) as -> by (eapply request_position; eauto; congruence).
    by rewrite (Hbefore i q Hij Hi) in Hu.
  - unfold attempts_legal. simpl. rewrite Hnone. split_and!; [constructor..|set_solver].
  - rewrite Hnone. intros j later a _ Ha. unfold keyed in Ha. simpl in Ha. by rewrite lookup_empty in Ha.
  - unfold decision_successor in Hnext. unfold phase_legal. simpl. rewrite ?Hnone.
    destruct (earliest_undecided _ _) eqn:He, continuation; try done; injection Hnext as <- <-; simpl.
    + done.
    + split_and!; [done|set_solver|]. unfold tenure_legal. split_and!; [|constructor|set_solver].
      intros p q a _ Ha. unfold keyed in Ha. simpl in Ha. by rewrite lookup_empty in Ha.
Qed.

Lemma batch_of_record_decision input resolution phase cells :
  batch_of (record_decision input resolution (stored_of phase)) cells =
    set_approvals_phase (batch_of input cells)
      (<[resolution_request resolution := resolution]> (stored_decisions input)) phase.
Proof. unfold batch_of, set_approvals_phase. simpl. by rewrite keyed_snoc, loaded_stored. Qed.

(** The phases that follow a decision. *)
Definition decision_follow_up (continuation : option TurnAttemptId) (phase : ToolBatchPhase)
    (active : ActiveTurnPhase) : Prop :=
  match continuation with
  | Some turn_attempt =>
      phase = BatchExecuting turn_attempt /\ active = Running (prepared turn_attempt)
  | None => exists next, phase = BatchAwaitingApproval next /\ active = AwaitingApproval next
  end.

Lemma decision_successor_follow_up requests approvals continuation phase active :
  decision_successor requests approvals continuation = Some (phase, active) ->
  decision_follow_up continuation phase active.
Proof.
  unfold decision_successor, decision_follow_up.
  destruct (earliest_undecided _ _), continuation; naive_solver.
Qed.

(** What [prepare] does on the awaited request. *)
Definition kind_prepare (kind : decision_kind) :=
  match kind with
  | UserDecision => prepare_applied
  | ClosureDenial => prepare_lifecycle_closure_applied
  | TimeoutDenial => prepare_approval_timeout_applied
  end.

Lemma kind_prepare_spec kind command request :
  request_id request = decide_request command ->
  kind_prepare kind command request =
    match kind_resolution kind command with
    | Some resolution => Ok (mkPreparedDecide command (DecisionApplied resolution))
    | None => Err (mkDecideError command (request_id request))
    end.
Proof.
  intros Heq. destruct kind; simpl; unfold prepare_applied, prepare_lifecycle_closure_applied,
    prepare_approval_timeout_applied; rewrite bool_decide_eq_true_2 by done; simpl;
    [done|by case_bool_decide..].
Qed.

Lemma kind_resolution_spec kind command resolution :
  kind_resolution kind command = Some resolution ->
  resolution_request resolution = decide_request command /\
  resolution_source resolution <> SourceDelegate.
Proof. destruct kind; simpl; repeat case_bool_decide; naive_solver. Qed.

Lemma reconstituted_batch store store' input b :
  reconstitute_batch store input = Ok (b, store') ->
  batch_legal input /\ b = batch_of input (batch_issuance b).
Proof.
  intros Hr. assert (batch_legal input) as Hl.
  { unfold reconstitute_batch in Hr. destruct (validate_batch input) as [r|] eqn:Hv; [|done].
    by apply validate_batch_Ok in Hv as [Hl _]. }
  split; [done|]. destruct (reconstitute_batch_legal store input Hl) as (cells & store1 & Hok & _).
  rewrite Hr in Hok. by injection Hok as -> _.
Qed.

Definition applied_decision input cells (kind : decision_kind) (command : DecideToolRequest)
    (continuation : option TurnAttemptId) (d : PreparedToolBatchDecision) : Prop :=
  exists resolution phase,
    stored_phase input = StoredAwaitingApproval (decide_request command) /\
    kind_resolution kind command = Some resolution /\
    decided_command d = mkPreparedDecide command (DecisionApplied resolution) /\
    batch_legal (record_decision input resolution (stored_of phase)) /\
    decided_batch d = batch_of (record_decision input resolution (stored_of phase)) cells /\
    decision_follow_up continuation phase (decided_active_phase d).

Definition rejected_decision input cells (command : DecideToolRequest)
    (d : PreparedToolBatchDecision) : Prop :=
  exists awaited request,
    stored_phase input = StoredAwaitingApproval awaited /\ decide_request command <> awaited /\
    request ∈ stored_requests input /\ request_id request = decide_request command /\
    decided_batch d = batch_of input cells /\ decided_active_phase d = AwaitingApproval awaited /\
    decided_command d =
      if is_undecided (stored_decisions input) request then prepare_not_earliest command awaited
      else prepare_already_resolved command.

Definition decision_failure_holds input (kind : decision_kind) (command : DecideToolRequest)
    (continuation : option TurnAttemptId) (failure : ToolBatchDecisionFailure) : Prop :=
  match failure with
  | DecisionNoUndecidedRequest => forall awaited, stored_phase input <> StoredAwaitingApproval awaited
  | CommandCorrelationMismatch =>
      decide_request command ∉ request_id <$> stored_requests input \/
      stored_phase input = StoredAwaitingApproval (decide_request command) /\
      kind_resolution kind command = None
  | DecisionContinuationMismatch =>
      stored_phase input = StoredAwaitingApproval (decide_request command) /\
      exists resolution, kind_resolution kind command = Some resolution /\
        (is_Some continuation <-> is_Some (earliest_undecided (sorted_requests input)
           (<[decide_request command := resolution]> (stored_decisions input))))
  end.

Lemma decide_by_exact input cells kind command continuation :
  batch_legal input ->
  match decide_by kind (batch_of input cells) command continuation with
  | Ok d => applied_decision input cells kind command continuation d \/
            rejected_decision input cells command d
  | Err e => decision_error_batch e = batch_of input cells /\ decision_error_command e = command /\
             decision_failure_holds input kind command continuation (decision_error_failure e)
  end.
Proof.
  intros Hl.
  replace (decide_by kind (batch_of input cells) command continuation) with
    (prepare_decision (batch_of input cells) command continuation (kind_prepare kind))
    by by destruct kind.
  unfold prepare_decision. cbn [batch_of batch_phase batch_requests batch_approvals].
  destruct (stored_phase input) as [awaited| | |] eqn:Hphase; cbn [loaded_phase];
    try (split_and!; [done..|]; simpl; rewrite Hphase; naive_solver).
  pose proof (legal_phase _ Hl) as Hph. unfold phase_legal in Hph. rewrite Hphase in Hph.
  destruct Hph as [Hearliest _]. pose proof (proj1 (legal_requests _ Hl)) as Hnd.
  pose proof Hearliest as (k & r & Hk & Hr & Hu & Hbefore)%earliest_undecided_Some.
  destruct (find_request _ _) as [q|] eqn:Hq.
  2: { split_and!; [done..|]. simpl. left. intros (q & Hqid & Hin)%list_elem_of_fmap.
       apply (elem_of_sort_by_key request_tool_ordinal), list_elem_of_lookup in Hin as (j & Hj).
       rewrite Hqid, (find_request_Some _ _ _ Hnd Hj) in Hq. done. }
  apply find_request_elem in Hq as [Hq Hqid].
  pose proof (is_undecided_spec (stored_decisions input) q) as Huq.
  destruct (negb _ || _) eqn:Hcond.
  - right. exists awaited, q. assert (is_undecided (stored_decisions input) q = false) as Hf.
    { apply not_true_iff_false. rewrite Huq, Hqid. intros [Hadm Hnone].
      by rewrite Hadm, Hnone in Hcond. }
    split_and!; [done| |by apply (elem_of_sort_by_key request_tool_ordinal)|done..|by rewrite Hf].
    intros Heq. assert (q = r) as ->; [|by rewrite Hu in Hf].
    eapply request_unique; [done..|by eapply list_elem_of_lookup_2|congruence].
  - apply orb_false_iff in Hcond as [Hadm Hnone].
    apply negb_false_iff, bool_decide_eq_true in Hadm. apply bool_decide_eq_false in Hnone.
    assert (is_undecided (stored_decisions input) q = true) as Hut.
    { apply Huq. split; [done|]. rewrite Hqid. by apply eq_None_not_Some. }
    rewrite Hearliest. case_bool_decide as Heq; cbn [negb ok_or].
    + injection Heq as ->. rewrite (kind_prepare_spec kind command q Hqid).
      destruct (kind_resolution kind command) as [resolution|] eqn:Hkind; simpl.
      2: { split_and!; [done..|]. right. auto. }
      destruct (kind_resolution_spec _ _ _ Hkind) as [Hres Hsrc].
      destruct (decision_successor _ _ _) as [[phase active]|] eqn:Hsucc.
      * left. exists resolution, phase. split_and!; [done..| | |by eapply decision_successor_follow_up].
        -- eapply (record_decision_legal input (decide_request command) resolution q); eauto; naive_solver.
        -- rewrite batch_of_record_decision. by rewrite Hres.
      * split_and!; [done..|]. simpl. split; [done|]. exists resolution. split; [done|].
        unfold decision_successor in Hsucc. revert Hsucc.
        destruct (earliest_undecided _ (<[_ := _]> _)), continuation; done.
    + right. exists awaited, q. split_and!; [done|congruence|
        by apply (elem_of_sort_by_key request_tool_ordinal)|done..|by rewrite Hut].
Qed.

(** C14. On a reconstituted batch a command decides exactly the request the
    batch waits on: the recorded inventory is legal again, the returned batch
    is that inventory's batch, and it waits on the next undecided request or
    starts to execute as the continuation attempt says. A command for another
    request of the batch is answered with the reason that holds and changes
    nothing; every error returns its inputs and names a condition that holds. *)
Theorem batch_decision_exact store store' input b kind command continuation :
  reconstitute_batch store input = Ok (b, store') ->
  match decide_by kind b command continuation with
  | Ok d => applied_decision input (batch_issuance b) kind command continuation d \/
            rejected_decision input (batch_issuance b) command d
  | Err e => decision_error_batch e = b /\ decision_error_command e = command /\
             decision_failure_holds input kind command continuation (decision_error_failure e)
  end.
Proof.
  intros Hr. destruct (reconstituted_batch _ _ _ _ Hr) as [Hl ->].
  apply (decide_by_exact input _ kind command continuation Hl).
Qed.
End steps.

(** ** Concrete inputs

    A batch whose first request waited for a child under one turn attempt and
    whose second request runs under the attempt that continued it. *)

#[local] Existing Instance frontier_only.

Definition sample_tool (n : N) : ToolRequest :=
  mkToolRequest (from_uuid n) (from_uuid 21) (from_uuid 31) (from_uuid 41) (mkToolOrdinal (n - 11))
    (mkToolName (lit "clock")) (mkArguments JsonArguments (lit "{}")) PostureHuman None.
Definition sample_decision (n : N) : ToolApprovalResolution :=
  user_resolution (from_uuid (40 + n)) (from_uuid n) Approve.
Definition sample_attempt (n turn_attempt : N) : CurrentToolAttempt :=
  mkToolAttempt (from_uuid (50 + n)) (from_uuid n) (from_uuid 21) (from_uuid 31)
    (from_uuid turn_attempt) ExternalEffect dispatch_generation_first ToolInFlight.
Definition sample_wait : ReconstitutedToolAttempt :=
  EndedAttempt (end_tool_attempt (sample_attempt 11 71)
    (EndAwaitingChild (from_uuid 15) (from_uuid 22))).

Definition sample_batch (attempts : list ReconstitutedToolAttempt)
    (phase : ToolBatchPhaseReconstitutionInput) : ToolBatchReconstitutionInput ContextFrontier :=
  mkBatchInput (from_uuid 21) (from_uuid 31) (from_uuid 41) (mkFrontier (from_uuid 21) (from_uuid 81))
    [sample_tool 11; sample_tool 12] [sample_decision 11; sample_decision 12] attempts [] [] [] phase.

Definition sample_executing : ToolBatchReconstitutionInput ContextFrontier :=
  sample_batch [sample_wait; CurrentAttempt (sample_attempt 12 72)] (StoredExecuting (from_uuid 72)).

Definition sample_command : DecideToolRequest := mkDecide (from_uuid 90) (from_uuid 11) Approve.
Definition sample_awaiting : ToolBatchReconstitutionInput ContextFrontier :=
  mkBatchInput (from_uuid 21) (from_uuid 31) (from_uuid 41) (mkFrontier (from_uuid 21) (from_uuid 81))
    [sample_tool 11; sample_tool 12] [] [] [] [] [] (StoredAwaitingApproval (from_uuid 11)).
Definition batch_of_result (r : result (ToolBatchReconstitutionInput ContextFrontier * ToolBatchReconstitutionFailure)
    (ToolBatch ContextFrontier * IssuanceStore)) (default : ToolBatch ContextFrontier) :=
  match r with Ok (b, _) => b | Err _ => default end.

Lemma batch_decision_exact_witness :
  exists b store', reconstitute_batch ∅ sample_awaiting = Ok (b, store') /\
    match decide_by UserDecision b sample_command None with
    | Ok d => applied_decision sample_awaiting (batch_issuance b) UserDecision
                sample_command None d \/
              rejected_decision sample_awaiting (batch_issuance b) sample_command d
    | Err e => decision_error_batch e = b /\ decision_error_command e = sample_command /\
               decision_failure_holds sample_awaiting UserDecision sample_command
                 None (decision_error_failure e)
    end.
Proof.
  eexists _, _. split; [reflexivity|].
  exact (batch_decision_exact ∅ _ sample_awaiting _ UserDecision sample_command None
    eq_refl).
Defined.
