(* ===== verification/ToolBatchSteps.v ===== *)
(** * The transitions of a tool batch

    Every transition a batch authorizes (decisions of users, deadlines,
    closures and judges, the next attempt, runner authorization, the actions on
    a running attempt, the replacement of a claimed one, the resumption after a
    child) leads from a legal stored inventory to a legal one, but for an ambiguous end
    over the attempts of several tenures, which strands the batch. *)

From stdpp Require Import strings.
From S2P Require Import Prelude Configuration Tool ToolAttempt ToolAttemptSpec Frontier TurnAttempt TurnLifecycle ToolBatch ToolBatchSpec ToolBatchDecisions.

Section steps.
Context {Snap : Type} `{ContextSnapshots Snap}.
Implicit Types (input : ToolBatchReconstitutionInput Snap).

Definition record_attempts input (attempts : list ReconstitutedToolAttempt)
    (retired : list ToolAttemptId) (predecessors : list TurnAttemptId)
    (phase : ToolBatchPhaseReconstitutionInput) : ToolBatchReconstitutionInput Snap :=
  mkBatchInput (stored_session input) (stored_turn input) (stored_producing_call input)
    (stored_yielded input) (stored_requests input) (stored_approvals input) attempts retired
    (stored_runner_authorized input) predecessors phase.

Lemma split_unique {A B} (f : A -> B) (l1 l2 : list A) x y r1 r2 :
  NoDup (f <$> l1 ++ x :: r1) -> f x = f y -> l1 ++ x :: r1 = l2 ++ y :: r2 ->
  l1 = l2 /\ x = y /\ r1 = r2.
Proof.
  revert l2. induction l1 as [|a l1 IH]; intros [|b l2] Hnd Hf; simpl; intros [= Heq Ht].
  - done.
  - subst b r1. apply NoDup_cons in Hnd. destruct Hnd as [Hn _]. destruct Hn.
    rewrite Hf. apply (list_elem_of_fmap_2 f). set_solver.
  - subst a. apply NoDup_cons in Hnd. destruct Hnd as [Hn _]. destruct Hn.
    rewrite <- Hf. apply (list_elem_of_fmap_2 f). set_solver.
  - subst b. apply NoDup_cons in Hnd. destruct Hnd as [_ Hnd].
    destruct (IH l2 Hnd Hf Ht) as (-> & ? & ?). done.
Qed.

(** ** Changes of the attempts *)

Lemma keyed_replace {A} (key : A -> ToolRequestId) before a a' after :
  NoDup (key <$> before ++ a :: after) -> key a' = key a ->
  keyed key (before ++ a' :: after) = <[key a := a']> (keyed key (before ++ a :: after)).
Proof.
  intros Hnd Hkey. apply map_eq. intros k. apply option_eq. intros x.
  assert (NoDup (key <$> before ++ a' :: after)) as Hnd'
    by by rewrite fmap_app, fmap_cons, Hkey, <- fmap_cons, <- fmap_app.
  rewrite lookup_insert_Some, !keyed_lookup_Some, !elem_of_app, !elem_of_cons by done.
  rewrite fmap_app, fmap_cons, NoDup_app, NoDup_cons in Hnd.
  destruct Hnd as (_ & Hd & Ha & _). split.
  - intros [[Hx|[->|Hx]] <-]; [right|by left|right]; (split; [intros Heq|by auto]).
    + apply (Hd (key x)); [by apply list_elem_of_fmap_2|]. rewrite <- Heq. left.
    + apply Ha. rewrite Heq. by apply list_elem_of_fmap_2.
  - intros [[<- <-]|[Hk [[Hx|[->|Hx]] Hkx]]]; [split; [by auto|done]|by auto|congruence|by auto].
Qed.

Section change.
Context (requests : list ToolRequest) (approvals : gmap ToolRequestId ToolApprovalResolution)
  (attempts : gmap ToolRequestId ReconstitutedToolAttempt) (k : nat) (r : ToolRequest)
  (a' : ReconstitutedToolAttempt).
Hypothesis distinct : NoDup (request_id <$> requests).
Hypothesis position_k : requests !! k = Some r.

(** Nothing was attempted after the changed request. *)
Definition frontier_at : Prop :=
  forall j later, k < j -> requests !! j = Some later -> attempts !! request_id later = None.

Lemma other_request j q : j <> k -> requests !! j = Some q -> request_id q <> request_id r.
Proof using distinct position_k.
  intros Hj Hq Heq. apply Hj. by eapply request_position.
Qed.

Lemma serial_change phase phase' :
  serial phase requests approvals attempts ->
  decided_approve approvals (request_id r) = true ->
  frontier_at ->
  (forall i request, i < k -> requests !! i = Some request ->
    decided_approve approvals (request_id request) = true ->
    exists prior, attempts !! request_id request = Some prior /\ finished_before phase' request prior) ->
  serial phase' requests approvals (<[request_id r := a']> attempts).
Proof using distinct position_k.
  intros Hs Hr Hafter Hbefore j later a Hj Ha.
  destruct (Nat.lt_total j k) as [Hlt|[->|Hlt]].
  - rewrite lookup_insert_ne in Ha by (intros Heq; by apply (other_request j later); [lia|..]).
    destruct (Hs j later a Hj Ha) as [Hd Hprior]. split; [done|]. intros i q Hi Hq Hap.
    destruct (Hbefore i q) as (p & Hp & Hf); [lia|done..|]. exists p. split; [|done].
    rewrite lookup_insert_ne by (intros Heq; by apply (other_request i q); [lia|..]). done.
  - rewrite position_k in Hj. injection Hj as <-. split; [done|]. intros i q Hi Hq Hap.
    destruct (Hbefore i q) as (p & Hp & Hf); [done..|]. exists p. split; [|done].
    rewrite lookup_insert_ne by (intros Heq; by apply (other_request i q); [lia|..]). done.
  - rewrite lookup_insert_ne in Ha by (intros Heq; by apply (other_request j later); [lia|..]).
    by rewrite (Hafter j later Hlt Hj) in Ha.
Qed.

Lemma tenure_change predecessors turn_attempt :
  tenure_legal predecessors turn_attempt requests attempts ->
  frontier_at ->
  fact_issuing (attempt_facts a') = turn_attempt ->
  (forall a, attempts !! request_id r = Some a ->
    fact_issuing (attempt_facts a) = turn_attempt /\ is_child_wait a = false) ->
  tenure_legal predecessors turn_attempt requests (<[request_id r := a']> attempts).
Proof using distinct position_k.
  intros (Hall & Hnd & Hpre) Hafter Ha' Hold.
  assert (forall i q a, requests !! i = Some q -> attempts !! request_id q = Some a ->
    no_tenure_until turn_attempt requests attempts i ->
    no_tenure_until turn_attempt requests (<[request_id r := a']> attempts) i) as Hno.
  { intros i q a Hi Ha Hno j p b Hj Hp Hb.
    apply lookup_insert_Some in Hb as [[Heq <-]|[_ Hb]]; [|by eapply Hno].
    assert (j = k) as -> by by eapply request_position.
    destruct (decide (i = k)) as [->|].
    - rewrite position_k in Hi. injection Hi as <-.
      destruct (Hold a Ha) as [Hta _]. by destruct (Hno k r a).
    - rewrite (Hafter i q) in Ha; [done|lia|done]. }
  unfold tenure_legal. split_and!; [|done|].
  - intros i q a Hi Ha Hne. apply lookup_insert_Some in Ha as [[_ <-]|[Hk Ha]]; [done|].
    destruct (Hall i q a Hi Ha Hne) as [Hcur Hd]. split; [done|].
    destruct Hd as [[Hp Hn]|(j & p & b & Hij & Hj & Hb & Hw)]; [left; eauto|right].
    exists j, p, b. split_and!; [done..| |done].
    rewrite lookup_insert_ne; [done|]. intros Heq. rewrite <- Heq in Hb.
    destruct (Hold b Hb) as [_ Hw']. congruence.
  - intros p Hp. destruct (Hpre p Hp) as (i & q & a & Hi & Ha & Hiss & Hcur & Hn).
    exists i, q, a. split_and!; [done| |done..|by eauto].
    rewrite lookup_insert_ne; [done|]. intros Heq.
    assert (k = i) as <- by by eapply request_position.
    rewrite <- Heq in Ha. destruct (Hold a Ha) as [Hta _]. rewrite Heq in Ha. by destruct (Hn k q a).
Qed.
End change.

(** The stored phase that follows the new state of an attempt. *)
Definition phase_after (turn_attempt : TurnAttemptId) (a : ReconstitutedToolAttempt) :
    ToolBatchPhaseReconstitutionInput :=
  match a with
  | EndedAttempt e =>
      match ended_tool_end e with
      | EndAmbiguous => StoredAwaitingRecovery (ended_tool_id e)
      | EndAwaitingChild spawning_request child =>
          StoredAwaitingChild (ended_tool_request e) spawning_request child
      | EndCompleted _ | EndKnownFailed _ => StoredExecuting turn_attempt
      end
  | CurrentAttempt _ => StoredExecuting turn_attempt
  end.

Definition one_tenure input (turn_attempt : TurnAttemptId) : Prop :=
  forall b, b ∈ stored_attempts input -> fact_issuing (attempt_facts b) = turn_attempt \/
    fact_issuing (attempt_facts b) ∈ stored_recovery_predecessors input.

Section attempts_change.
Context (input : ToolBatchReconstitutionInput Snap) (turn_attempt : TurnAttemptId)
  (before middle after : list ReconstitutedToolAttempt) (a' : ReconstitutedToolAttempt)
  (retired' : list ToolAttemptId) (k : nat) (r : ToolRequest).
Abbreviation attempts' := (before ++ a' :: after).
Abbreviation changed := (record_attempts input attempts' retired'
  (stored_recovery_predecessors input) (phase_after turn_attempt a')).

Hypothesis legal : batch_legal input.
Hypothesis executing : stored_phase input = StoredExecuting turn_attempt.
Hypothesis shape : stored_attempts input = before ++ middle ++ after.
Hypothesis replaces_current : forall b, b ∈ middle -> is_current b = true.
Hypothesis ids_distinct : NoDup (fact_id <$> attempts').
Hypothesis keys_distinct : NoDup (fact_key <$> attempts').
Hypothesis map_change : keyed fact_key attempts' = <[request_id r := a']> (stored_by_request input).
Hypothesis position_r : sorted_requests input !! k = Some r.
Hypothesis approved_r : decided_approve (stored_decisions input) (request_id r) = true.
Hypothesis key_a' : fact_key a' = request_id r.
Hypothesis session_a' : fact_session (attempt_facts a') = stored_session input.
Hypothesis turn_a' : fact_turn (attempt_facts a') = stored_turn input.
Hypothesis issuing_a' : fact_issuing (attempt_facts a') = turn_attempt.
Hypothesis ambiguity_a' : ended_ambiguous a' = true ->
  external_ambiguity a' = Some (fact_id a') /\ one_tenure input turn_attempt.
Hypothesis nothing_after : frontier_at (sorted_requests input) (stored_by_request input) k.
Hypothesis finished : forall i request, i < k -> sorted_requests input !! i = Some request ->
  decided_approve (stored_decisions input) (request_id request) = true ->
  exists prior, stored_by_request input !! request_id request = Some prior /\
    finished_before (stored_phase input) request prior.
Hypothesis retired_legal : NoDup retired' /\ forall x, x ∈ retired' -> x ∉ (fact_id <$> attempts').
Hypothesis authorized_legal : forall x, x ∈ stored_runner_authorized input ->
  x ∈ (fact_id <$> attempts') \/ x ∈ retired'.

Let distinct : NoDup (request_id <$> sorted_requests input) := proj1 (legal_requests _ legal).

Lemma old_attempt_current b : stored_by_request input !! request_id r = Some b -> is_current b = true.
Proof using All.
  intros Hb. apply (keyed_lookup_Some fact_key) in Hb as [Hb Hkb]; [|apply (legal_attempts _ legal)].
  rewrite shape, !elem_of_app in Hb. rewrite fmap_app, fmap_cons, NoDup_app, NoDup_cons in keys_distinct.
  destruct keys_distinct as (_ & Hd & Ha & _). destruct Hb as [Hb|[Hb|Hb]]; [|by apply replaces_current|].
  - destruct (Hd (fact_key b)); [by apply (list_elem_of_fmap_2 fact_key)|]. rewrite Hkb, <- key_a'. left.
  - destruct Ha. rewrite key_a', <- Hkb. by apply (list_elem_of_fmap_2 fact_key).
Qed.

Lemma executing_facts :
  earliest_undecided (sorted_requests input) (stored_decisions input) = None /\
  (forall a, a ∈ stored_attempts input -> external_ambiguity a = None) /\
  tenure_legal (stored_recovery_predecessors input) turn_attempt (sorted_requests input)
    (stored_by_request input).
Proof using All.
  pose proof (legal_phase _ legal) as Hp. unfold phase_legal in Hp. by rewrite executing in Hp.
Qed.

Lemma old_attempt_tenure b :
  stored_by_request input !! request_id r = Some b ->
  fact_issuing (attempt_facts b) = turn_attempt /\ is_child_wait b = false.
Proof using All.
  intros Hb. pose proof (old_attempt_current b Hb) as Hc.
  destruct executing_facts as (_ & _ & Hten & _). split.
  - destruct (decide (fact_issuing (attempt_facts b) = turn_attempt)) as [|Hne]; [done|].
    destruct (Hten k r b position_r Hb Hne) as [Hn _]. congruence.
  - by destruct b.
Qed.

(** Every other attempt is an old one at an earlier request, and is over. *)
Lemma other_attempt b :
  b ∈ before ++ after -> b ∈ stored_attempts input /\ is_current b = false.
Proof using All.
  intros Hb. assert (b ∈ stored_attempts input) as Hin by (rewrite shape; set_solver).
  split; [done|]. destruct (legal_attempts _ legal) as (_ & Hkeys & Hall).
  destruct (Hall b Hin) as (_ & Hreq & _).
  apply list_elem_of_fmap in Hreq as (q & Hq & (i & Hi)%list_elem_of_lookup).
  assert (stored_by_request input !! request_id q = Some b) as Hm
    by by apply (keyed_lookup_Some fact_key).
  destruct (legal_serial _ legal i q b Hi Hm) as [Hap _].
  destruct (Nat.lt_total i k) as [Hlt|[->|Hlt]].
  - destruct (finished i q Hlt Hi Hap) as (p & Hp & Hc & _). congruence.
  - rewrite position_r in Hi. injection Hi as <-. exfalso.
    rewrite fmap_app, fmap_cons, NoDup_app, NoDup_cons in keys_distinct.
    destruct keys_distinct as (_ & Hd & Ha & _). apply elem_of_app in Hb as [Hb|Hb].
    + apply (Hd (fact_key b)); [by apply (list_elem_of_fmap_2 fact_key)|]. rewrite Hq, <- key_a'. left.
    + apply Ha. rewrite key_a', <- Hq. by apply (list_elem_of_fmap_2 fact_key).
  - by rewrite (nothing_after i q Hlt Hi) in Hm.
Qed.

Lemma phase_after_cases :
  (phase_after turn_attempt a' = StoredExecuting turn_attempt /\ external_ambiguity a' = None /\
   is_child_wait a' = false) \/
  (phase_after turn_attempt a' = StoredAwaitingRecovery (fact_id a') /\ is_current a' = false /\
   ended_ambiguous a' = true) \/
  (exists spawning_request child,
     phase_after turn_attempt a' = StoredAwaitingChild (request_id r) spawning_request child /\
     is_current a' = false /\ external_ambiguity a' = None /\
     child_wait_of a' = Some (request_id r, spawning_request, child)).
Proof using All.
  destruct a' as [c|e]; [by left|]. simpl in key_a'. unfold is_child_wait, external_ambiguity,
    ended_ambiguous. simpl. destruct (ended_tool_end e) eqn:He; simpl; rewrite ?key_a'; try by left.
  - right; right. by exists spawning_request, child.
  - by right; left.
Qed.

Lemma changed_serial phase' :
  (forall q b, q ∈ sorted_requests input -> request_id q <> request_id r ->
    blocks_later (StoredExecuting turn_attempt) (request_id q) b = false ->
    blocks_later phase' (request_id q) b = false) ->
  serial phase' (sorted_requests input) (stored_decisions input) (keyed fact_key attempts').
Proof using All.
  intros Hph. rewrite map_change. apply (serial_change _ _ _ k r a' distinct position_r (stored_phase input)).
  - apply (legal_serial _ legal).
  - done.
  - done.
  - intros i q Hi Hq Hap. destruct (finished i q Hi Hq Hap) as (p & Hp & Hc & Hb). exists p.
    split; [done|]. split; [done|]. rewrite executing in Hb. apply Hph; [|..|done].
    + by eapply list_elem_of_lookup_2.
    + apply (other_request (sorted_requests input) k r distinct position_r i); [lia|done].
Qed.

Lemma changed_attempt_elem b : b ∈ attempts' <-> b = a' \/ b ∈ before ++ after.
Proof using All. rewrite !elem_of_app, elem_of_cons. naive_solver. Qed.

Lemma changed_attempts_legal expected :
  (forall b, b ∈ attempts' -> issued_as changed expected (attempt_facts b)) ->
  attempts_legal changed (sorted_requests input) (stored_decisions input) expected.
Proof using All.
  intros Hexp. split_and!; [done..|]. simpl. intros b Hb. pose proof Hb as Hb'.
  apply changed_attempt_elem in Hb' as [->|Hb'].
  - split_and!; [intros Ha; by rewrite (proj1 (ambiguity_a' Ha))| |done|done| |by apply Hexp].
    + rewrite key_a'. apply (list_elem_of_fmap_2 request_id). by eapply list_elem_of_lookup_2.
    + by rewrite key_a'.
  - destruct (other_attempt b Hb') as [Hin _].
    destruct (legal_attempts _ legal) as (_ & _ & Hall).
    destruct (Hall b Hin) as (H1 & H2 & H3 & H4 & H5 & _). split_and!; [done..|by apply Hexp].
Qed.

Lemma no_other_ambiguity l : l ⊆ before ++ after -> omap external_ambiguity l = [].
Proof using All.
  intros Hl. apply omap_nil. intros b Hb. destruct executing_facts as (_ & Hnone & _).
  apply Hnone. by apply other_attempt, Hl.
Qed.

Lemma attempts_change_legal : batch_legal changed.
Proof using All.
  destruct executing_facts as (Hund & Hamb & Hten).
  pose proof (legal_nonempty _ legal). pose proof (legal_session _ legal).
  pose proof (legal_requests _ legal). pose proof (legal_decisions _ legal).
  pose proof (legal_delegates _ legal). pose proof (legal_prefix _ legal).
  pose proof (conj (proj1 (legal_authorized _ legal)) authorized_legal).
  assert (tenure_legal (stored_recovery_predecessors input) turn_attempt (sorted_requests input)
    (keyed fact_key attempts')) as Hten'.
  { rewrite map_change. apply (tenure_change _ _ k r a' distinct position_r); [done..|].
    apply old_attempt_tenure. }
  destruct phase_after_cases as [(Hph & Hext & Hcw)|[(Hph & Hcur & Ha)|(s & c & Hph & Hcur & Hext & Hw)]].
  - constructor; simpl; try done.
    + apply changed_attempts_legal.
      intros b Hb e He. unfold expected_issuing_attempt in He. simpl in He. rewrite Hph in He.
      destruct (existsb is_child_wait attempts') eqn:Hex; [done|].
      case_bool_decide as Hpre; [|done]. injection He as <-. left.
      apply changed_attempt_elem in Hb as [->|Hb]; [done|].
      destruct (other_attempt b Hb) as [Hin _].
      destruct (legal_attempts _ legal) as (_ & _ & Hall).
      destruct (Hall b Hin) as (_ & _ & _ & _ & _ & Hiss).
      destruct (Hiss turn_attempt) as [|[_ Hp]]; [|done|rewrite Hpre in Hp; set_solver].
      unfold expected_issuing_attempt. rewrite executing, (bool_decide_eq_true_2 _ Hpre).
      assert (existsb is_child_wait (stored_attempts input) = false) as ->; [|done].
      rewrite existsb_false in Hex. apply existsb_false. intros x Hx. rewrite shape in Hx.
      rewrite !elem_of_app in Hx. destruct Hx as [Hx|[Hx|Hx]]; [|by apply replaces_current in Hx; destruct x|];
        apply Hex; set_solver.
    + rewrite Hph. apply changed_serial. done.
    + unfold phase_legal. simpl. rewrite Hph. split_and!; [done| |done].
      intros b [->|Hb]%changed_attempt_elem; [done|]. apply Hamb. by apply other_attempt.
  - destruct (ambiguity_a' Ha) as [Hext Hone].
    constructor; simpl; try done.
    + apply changed_attempts_legal. intros b Hb e He.
      unfold expected_issuing_attempt in He. simpl in He. rewrite Hph in He. apply fmap_Some in He as (x & Hx & ->).
      apply find_Some_first in Hx as (i & Hi & Hid & _). apply bool_decide_eq_true in Hid.
      assert (x = a') as ->.
      { apply list_elem_of_lookup_2 in Hi as Hin. apply list_elem_of_lookup in Hb as _.
        assert (a' ∈ attempts') as Ha'in by (apply changed_attempt_elem; by left).
        apply list_elem_of_lookup in Ha'in as (j & Hj).
        assert (i = j) as ->; [|congruence]. apply (NoDup_lookup (fact_id <$> attempts') i j (fact_id a'));
          [done|rewrite list_lookup_fmap, Hi; simpl; by rewrite Hid|by rewrite list_lookup_fmap, Hj]. }
      cbn [compose]. rewrite issuing_a'. apply changed_attempt_elem in Hb as [->|Hb]; [by left|].
      destruct (other_attempt b Hb) as [Hin Hcb]. destruct (Hone b Hin) as [Ht|Ht]; [by left|right; done].
    + rewrite Hph. apply changed_serial. intros q b _ _ Hb. unfold blocks_later in *. simpl in *. done.
    + unfold phase_legal. simpl. rewrite Hph. split_and!; [done| |].
      * intros b [->|Hb]%changed_attempt_elem; [done|]. by apply other_attempt.
      * rewrite omap_app. simpl. rewrite Hext, !no_other_ambiguity by set_solver. done.
  - constructor; simpl; try done.
    + apply changed_attempts_legal. intros b Hb e He.
      unfold expected_issuing_attempt in He. simpl in He. by rewrite Hph in He.
    + rewrite Hph. apply changed_serial. intros q b _ Hq Hb. unfold blocks_later in *. simpl in *.
      rewrite bool_decide_eq_false_2 by done. done.
    + unfold phase_legal. simpl. rewrite Hph. split_and!; [done|..].
      * intros b [->|Hb]%changed_attempt_elem; [done|]. by apply other_attempt.
      * intros b [->|Hb]%changed_attempt_elem; [done|]. apply Hamb. by apply other_attempt.
      * exists k. split.
        -- exists r, a'. split_and!; [done| |done]. by rewrite map_change, lookup_insert_eq.
        -- intros j q b Hj Hq Hb. rewrite map_change in Hb.
           apply lookup_insert_Some in Hb as [[Heq _]|[_ Hb]].
           ++ assert (k = j) by by eapply request_position. lia.
           ++ by rewrite (nothing_after j q Hj Hq) in Hb.
Qed.
End attempts_change.

(** Where a current attempt stands in a legal inventory. *)
Lemma current_position input before c after :
  batch_legal input -> stored_attempts input = before ++ CurrentAttempt c :: after ->
  exists turn_attempt k r, stored_phase input = StoredExecuting turn_attempt /\
    sorted_requests input !! k = Some r /\ tool_attempt_request c = request_id r /\
    decided_approve (stored_decisions input) (request_id r) = true /\
    tool_attempt_issuing c = turn_attempt /\ tool_attempt_session c = stored_session input /\
    tool_attempt_turn c = stored_turn input /\
    stored_by_request input !! request_id r = Some (CurrentAttempt c) /\
    frontier_at (sorted_requests input) (stored_by_request input) k /\
    (forall i request, i < k -> sorted_requests input !! i = Some request ->
      decided_approve (stored_decisions input) (request_id request) = true ->
      exists prior, stored_by_request input !! request_id request = Some prior /\
        finished_before (stored_phase input) request prior).
Proof.
  intros Hl Hshape. assert (CurrentAttempt c ∈ stored_attempts input) as Hin by (rewrite Hshape; set_solver).
  destruct (legal_attempts _ Hl) as (_ & Hkeys & Hall).
  destruct (Hall _ Hin) as (_ & Hreq & Hses & Hturn & _ & _). simpl in *.
  apply list_elem_of_fmap in Hreq as (r & Hr & (k & Hk)%list_elem_of_lookup).
  assert (stored_by_request input !! request_id r = Some (CurrentAttempt c)) as Hm
    by (apply (keyed_lookup_Some fact_key); [done|split; [done|by simpl]]).
  destruct (legal_serial _ Hl k r _ Hk Hm) as [Hap Hfin].
  pose proof (legal_phase _ Hl) as Hp. unfold phase_legal in Hp.
  destruct (stored_phase input) as [q|ta|x|q s child] eqn:Hphase.
  - destruct Hp as [_ Hp]. rewrite Hp in Hin. set_solver.
  - exists ta, k, r. split_and!; [done..| | |done|done|done| |done].
    + done.
    + destruct Hp as (_ & _ & Hten & _). destruct (decide (tool_attempt_issuing c = ta)) as [|Hne]; [done|].
      by destruct (Hten k r _ Hk Hm Hne) as [Hc _].
    + intros j q Hj Hq. destruct (stored_by_request input !! request_id q) as [b|] eqn:Hb; [|done].
      destruct (legal_serial _ Hl j q b Hq Hb) as [_ Hprior].
      destruct (Hprior k r Hj Hk Hap) as (p & Hpm & Hc & _). rewrite Hm in Hpm. by injection Hpm as <-.
  - destruct Hp as (_ & Hp & _). by specialize (Hp _ Hin).
  - destruct Hp as (_ & Hp & _). by specialize (Hp _ Hin).
Qed.

(** An action keeps every fact but the state, and is ambiguous only about
    external effects. *)
Lemma perform_facts a action a' :
  perform_attempt_action a action = Some a' ->
  is_current a = true /\ fact_id a' = fact_id a /\ fact_key a' = fact_key a /\
  fact_session (attempt_facts a') = fact_session (attempt_facts a) /\
  fact_turn (attempt_facts a') = fact_turn (attempt_facts a) /\
  fact_issuing (attempt_facts a') = fact_issuing (attempt_facts a) /\
  (ended_ambiguous a' = true -> external_ambiguity a' = Some (fact_id a')).
Proof.
  destruct a as [c|e]; [|done]. intros Hp.
  assert (a' = CurrentAttempt c \/ a' = CurrentAttempt (set_attempt_state c ToolInFlight) \/
    exists e, a' = EndedAttempt (end_tool_attempt c e) /\
      (e = EndAmbiguous -> tool_attempt_effect_class c = ExternalEffect)) as [->|[->|(e & -> & He)]].
  { destruct (tool_attempt_state c) eqn:Hs.
    - apply (prepared_step _ _ _ Hs) in Hp as [[_ ->]|(e & Hd & ->)]; [by right; left|].
      right; right. exists e. split; [done|]. by destruct Hd.
    - apply (in_flight_step _ _ _ Hs) in Hp as [[_ ->]|(e & Hd & ->)]; [by left|].
      right; right. exists e. split; [done|]. by destruct Hd. }
  - split_and!; done.
  - split_and!; done.
  - split_and!; try done. unfold ended_ambiguous, external_ambiguity. simpl.
    intros Ha%bool_decide_eq_true. by rewrite (bool_decide_eq_true_2 _ Ha), (bool_decide_eq_true_2 _ (He Ha)).
Qed.

Lemma attempt_action_legal input before a after action a' turn_attempt :
  batch_legal input -> stored_phase input = StoredExecuting turn_attempt ->
  stored_attempts input = before ++ a :: after ->
  perform_attempt_action a action = Some a' ->
  (ended_ambiguous a' = true -> one_tenure input turn_attempt) ->
  batch_legal (record_attempts input (before ++ a' :: after) (stored_retired input)
    (stored_recovery_predecessors input) (phase_after turn_attempt a')).
Proof.
  intros Hl Hphase Hshape Hp Hone.
  destruct (perform_facts _ _ _ Hp) as (Hcur & Hid & Hkey & Hses & Hturn & Hiss & Hamb).
  destruct a as [c|e]; [|done].
  destruct (current_position input before c after Hl Hshape) as
    (ta & k & r & Hph & Hk & Hreq & Hap & Hta & Hs & Ht & Hm & Hfr & Hfin).
  rewrite Hph in Hphase. injection Hphase as <-. simpl in *.
  destruct (legal_attempts _ Hl) as (Hids & Hkeys & _). rewrite Hshape in Hids, Hkeys.
  assert (fact_id <$> before ++ a' :: after = fact_id <$> before ++ CurrentAttempt c :: after) as Hids'
    by by rewrite !fmap_app, !fmap_cons, Hid.
  assert (fact_key <$> before ++ a' :: after = fact_key <$> before ++ CurrentAttempt c :: after) as Hkeys'
    by by rewrite !fmap_app, !fmap_cons, Hkey.
  apply (attempts_change_legal input ta before [CurrentAttempt c] after a' (stored_retired input) k r);
    try done; try congruence.
  - intros b ->%list_elem_of_singleton. done.
  - rewrite Hshape, (keyed_replace fact_key before (CurrentAttempt c) a' after Hkeys Hkey). simpl.
    by rewrite Hreq.
  - intros Ha. split; [by apply Hamb|by apply Hone].
  - rewrite Hids', <- Hshape. apply (legal_retired _ Hl).
  - rewrite Hids', <- Hshape. apply (legal_authorized _ Hl).
Qed.

Lemma existsb_attempt_values (test : ReconstitutedToolAttempt -> bool) l :
  NoDup (fact_key <$> l) ->
  (existsb test (attempt_values (attempts_by_request l)) = false <->
   forall a, a ∈ l -> test a = false).
Proof. intros Hnd. rewrite existsb_false. by setoid_rewrite (attempt_values_perm l Hnd). Qed.

Lemma attempt_identity_unused input cells id :
  NoDup (fact_key <$> stored_attempts input) ->
  attempt_identity_used (batch_of input cells) id = false ->
  id ∉ stored_retired input /\ id ∉ stored_ids input.
Proof.
  intros Hnd. unfold attempt_identity_used. cbn [batch_of batch_retired batch_attempts].
  rewrite bool_decide_in_set, orb_false_iff, bool_decide_eq_false, existsb_attempt_values by done.
  intros [Hr Hids]. split; [done|]. intros (a & -> & Ha)%list_elem_of_fmap. specialize (Hids a Ha).
  by apply bool_decide_eq_false in Hids.
Qed.

Lemma try_from_resolution_Ok request approval approved :
  try_from_resolution request approval = Ok approved -> approved_request approved = request.
Proof. unfold try_from_resolution. destruct (_ || _ || _); [done|]. by intros [= <-]. Qed.

Lemma prepare_next_legal input cells id effect_class p :
  batch_legal input ->
  prepare_next_attempt (batch_of input cells) id effect_class = Ok p ->
  batch_legal (record_attempts input (stored_attempts input ++ [CurrentAttempt (prepared_tool_attempt p)])
    (stored_retired input) (stored_recovery_predecessors input) (stored_phase input)).
Proof.
  intros Hl. unfold prepare_next_attempt. cbn [batch_of batch_phase batch_attempts batch_approvals
    batch_requests]. destruct (stored_phase input) as [|ta| |] eqn:Hphase; cbn [loaded_phase]; try done.
  destruct (legal_attempts _ Hl) as (Hids & Hkeys & Hall).
  destruct (existsb is_current _) eqn:Hlive; [done|]. rewrite existsb_attempt_values in Hlive by done.
  destruct (existsb ended_crash_lost _) eqn:Hcrash; [done|]. rewrite existsb_attempt_values in Hcrash by done.
  destruct (attempt_identity_used _ _) eqn:Hid; [done|].
  apply attempt_identity_unused in Hid as [Hretired Hfresh]; [|done].
  destruct (find _ _) as [r|] eqn:Hfind; [|done].
  apply find_Some_first in Hfind as (k & Hk & Hr & Hbefore).
  apply andb_prop in Hr as [Hap Hnone]. apply bool_decide_eq_true in Hnone.
  rewrite bind_Ok. intros (approval & Happ & Hp). apply ok_or_Ok in Happ.
  apply bind_Ok in Hp as (approved & Htry & Hp). apply map_err_Ok, try_from_resolution_Ok in Htry.
  injection Hp as <-. pose proof (legal_phase _ Hl) as Hph. unfold phase_legal in Hph.
  rewrite Hphase in Hph. destruct Hph as (_ & Hamb & _).
  destruct (proj2 (legal_requests _ Hl) k r Hk) as [(Hses & Hturn & _) _].
  cbn [prepared_tool_attempt]. set (c := prepare_attempt approved id ta effect_class).
  assert (fact_key (CurrentAttempt c) = request_id r) as Hck by (simpl; by rewrite Htry).
  assert (fact_key (CurrentAttempt c) ∉ (fact_key <$> stored_attempts input)) as Hnk.
  { rewrite Hck. by apply keyed_lookup_None. }
  change (StoredExecuting ta) with (phase_after ta (CurrentAttempt c)).
  apply (attempts_change_legal input ta (stored_attempts input) [] [] (CurrentAttempt c)
    (stored_retired input) k r); try done.
  - by rewrite app_nil_r.
  - intros b Hb. by apply not_elem_of_nil in Hb.
  - rewrite fmap_app. apply NoDup_app. split_and!; [done| |apply NoDup_singleton].
    intros x Hx ->%list_elem_of_singleton. done.
  - rewrite fmap_app. apply NoDup_app. split_and!; [done| |apply NoDup_singleton].
    intros x Hx ->%list_elem_of_singleton. done.
  - by rewrite keyed_snoc, Hck.
  - simpl. by rewrite Htry.
  - simpl. by rewrite Htry.
  - intros j later Hj Hlater. destruct (stored_by_request input !! request_id later) eqn:Hm; [|done].
    destruct (legal_serial _ Hl j later _ Hlater Hm) as [_ Hprior].
    destruct (Hprior k r Hj Hk Hap) as (q & Hq & _). congruence.
  - intros i q Hi Hq Hapq. specialize (Hbefore i q Hi Hq). unfold decided_approve in Hapq.
    rewrite Hapq in Hbefore. simpl in Hbefore. apply bool_decide_eq_false, not_eq_None_Some in Hbefore.
    destruct Hbefore as [b Hb]. exists b. split; [done|].
    pose proof Hb as [Hin _]%(keyed_lookup_Some fact_key); [|done].
    split; [by apply Hlive|]. unfold blocks_later. rewrite Hphase, (Hcrash b Hin), andb_false_r.
    destruct (Hall b Hin) as [Hext _]. destruct (ended_ambiguous b); [|done].
    rewrite (Hamb b Hin) in Hext. by destruct Hext as [? [=]].
  - rewrite fmap_app. destruct (legal_retired _ Hl) as [Hrn Hrd]. split; [done|].
    intros x Hx [Hin|Hin]%elem_of_app; [by apply (Hrd x)|]. apply list_elem_of_singleton in Hin.
    change (x = id) in Hin. by subst x.
  - intros x Hx. rewrite fmap_app, elem_of_app.
    destruct (proj2 (legal_authorized _ Hl) x Hx); auto.
Qed.

Lemma find_in_flight_Some (b : ToolBatch Snap) id request c :
  find_in_flight b id = Some (request, c) ->
  batch_attempts b !! request = Some (CurrentAttempt c) /\ tool_attempt_id c = id /\
  tool_attempt_state c = ToolInFlight.
Proof.
  unfold find_in_flight. intros Hf. apply head_Some_elem_of in Hf.
  apply list_elem_of_omap in Hf as ([q a] & Hin & Hc). apply elem_of_btree_iter in Hin.
  destruct a as [c'|]; [|done].
  destruct (bool_decide (tool_attempt_id c' = id) && bool_decide (tool_attempt_state c' = ToolInFlight)) eqn:Ht;
    [|done]. injection Hc as -> ->. by apply andb_prop in Ht as [?%bool_decide_eq_true ?%bool_decide_eq_true].
Qed.

(** What a replacement returns: the batch of the changed inventory. *)
Lemma replace_claimed_legal input cells store store' claimed replacement rep :
  batch_legal input ->
  replace_claimed_attempt store (batch_of input cells) claimed replacement = (Ok rep, store') ->
  exists before c after,
    stored_attempts input = before ++ CurrentAttempt c :: after /\ tool_attempt_id c = claimed /\
    let input' := record_attempts input
      (before ++ CurrentAttempt (authorized_attempt (replacement_authorized rep)) :: after)
      (stored_retired input ++ [claimed]) (stored_recovery_predecessors input) (stored_phase input) in
    batch_legal input' /\
    exists cells', replacement_batch rep = batch_of input' cells'.
Proof.
  intros Hl. unfold replace_claimed_attempt. cbn [batch_of batch_phase].
  destruct (stored_phase input) as [|ta| |] eqn:Hphase; cbn [loaded_phase]; try done.
  destruct (legal_attempts _ Hl) as (Hids & Hkeys & Hall).
  destruct (attempt_identity_used _ _) eqn:Hid; [done|].
  apply attempt_identity_unused in Hid as [Hretired Hfresh]; [|done].
  destruct (find_in_flight _ _) as [[q c]|] eqn:Hfind; [|done].
  apply find_in_flight_Some in Hfind as (Hm & Hcid & Hst). cbn [batch_of batch_attempts] in Hm.
  apply (keyed_lookup_Some fact_key) in Hm as [Hin Hq]; [|done]. simpl in Hq. subst q.
  simpl. destruct (find_request _ _) as [rr|] eqn:Hrr; [|done]. simpl.
  destruct (stored_decisions input !! tool_attempt_request c) as [approval|]; [|done]. simpl.
  destruct (try_from_resolution rr approval) as [approved|] eqn:Htry; [|done]. simpl.
  apply try_from_resolution_Ok in Htry. intros [= <- <-].
  apply find_request_elem in Hrr as [Hrr Hrid].
  apply list_elem_of_split in Hin as (before & after & Hshape). exists before, c, after.
  split; [done|]. split; [done|].
  destruct (current_position input before c after Hl Hshape) as
    (ta' & k & r & Hph & Hk & Hreq & Hap & Hta & Hs & Ht & Hm & Hfr & Hfin).
  rewrite Hphase in Hph. injection Hph as <-.
  destruct (proj2 (legal_requests _ Hl) k r Hk) as [(Hses & Hturn & _) _].
  assert (rr = r) as -> by (eapply request_unique; [apply (legal_requests _ Hl)|done|
    by eapply list_elem_of_lookup_2|congruence]).
  cbn [replacement_authorized authorized_attempt replacement_batch].
  match goal with |- context [CurrentAttempt ?x :: after] => set (c' := x) end.
  assert (fact_key (CurrentAttempt c') = fact_key (CurrentAttempt c)) as Hck by (simpl; congruence).
  rewrite Hshape in Hids, Hkeys, Hfresh.
  assert (fact_key <$> before ++ CurrentAttempt c' :: after
    = fact_key <$> before ++ CurrentAttempt c :: after) as Hkeys' by by rewrite !fmap_app, !fmap_cons, Hck.
  assert (keyed fact_key (before ++ CurrentAttempt c' :: after)
    = <[request_id r := CurrentAttempt c']> (stored_by_request input)) as Hmap.
  { rewrite Hshape, (keyed_replace fact_key before (CurrentAttempt c) _ after Hkeys Hck). simpl.
    by rewrite Hreq. }
  rewrite fmap_app, fmap_cons in Hids, Hfresh. split.
  - change (StoredExecuting ta) with (phase_after ta (CurrentAttempt c')).
    apply (attempts_change_legal input ta before [CurrentAttempt c] after (CurrentAttempt c')
      (stored_retired input ++ [claimed]) k r); try done; try (simpl; congruence).
    + intros b ->%list_elem_of_singleton. done.
    + rewrite fmap_app, fmap_cons. revert Hids. rewrite !NoDup_app, !NoDup_cons. simpl.
      set_solver.
    + destruct (legal_retired _ Hl) as [Hrn Hrd]. split.
      * apply NoDup_app. split_and!; [done| |apply NoDup_singleton].
        intros x Hx ->%list_elem_of_singleton. apply (Hrd claimed Hx). rewrite Hshape, fmap_app, fmap_cons.
        simpl. rewrite Hcid. set_solver.
      * intros x Hx. rewrite fmap_app, fmap_cons. simpl.
        destruct (decide (x = replacement)) as [->|Hne].
        -- apply elem_of_app in Hx as [Hx|Hx]; [done|]. apply list_elem_of_singleton in Hx as <-.
           exfalso. apply Hfresh. simpl. rewrite Hcid. set_solver.
        -- apply elem_of_app in Hx as [Hx|Hx].
           ++ specialize (Hrd x Hx). rewrite Hshape, fmap_app, fmap_cons in Hrd. set_solver.
           ++ apply list_elem_of_singleton in Hx as ->. rewrite NoDup_app, NoDup_cons in Hids.
              destruct Hids as (_ & Hd & Ha & _). simpl in Hd, Ha. rewrite Hcid in Hd, Ha. set_solver.
    + intros x Hx. destruct (proj2 (legal_authorized _ Hl) x Hx) as [Hx'|Hx'].
      * rewrite Hshape, fmap_app, fmap_cons in Hx'. rewrite fmap_app, fmap_cons. simpl in *.
        rewrite Hcid in Hx'. set_solver.
      * right. set_solver.
  - eexists. unfold batch_of. simpl. rewrite Hmap. simpl. f_equal.
    + by rewrite Hreq.
    + unfold classify_crash_loss. rewrite Hst.
      destruct (tool_attempt_effect_class c); simpl; by rewrite Hcid, insert_into_set.
Qed.

Lemma resume_legal input request spawning_request child turn_attempt predecessors :
  batch_legal input -> stored_phase input = StoredAwaitingChild request spawning_request child ->
  (forall a, a ∈ stored_attempts input -> fact_issuing (attempt_facts a) <> turn_attempt) ->
  NoDup predecessors ->
  (forall p, p ∈ predecessors -> exists a, a ∈ stored_attempts input /\
    fact_issuing (attempt_facts a) = p) ->
  batch_legal (record_attempts input (stored_attempts input) (stored_retired input) predecessors
    (StoredExecuting turn_attempt)).
Proof.
  intros Hl Hphase Hfresh Hnd Hpre. pose proof (legal_phase _ Hl) as Hp. unfold phase_legal in Hp.
  rewrite Hphase in Hp. destruct Hp as (Hund & Hcur & Hamb & w & (r & a & Hr & Ha & Hw) & _).
  destruct (legal_attempts _ Hl) as (Hids & Hkeys & Hall).
  pose proof (child_wait_request _ _ Hw) as Hq. simpl in Hq.
  pose proof Ha as [Hain Hak]%(keyed_lookup_Some fact_key); [|done].
  assert (is_child_wait a = true) as Hcw
    by (unfold is_child_wait; rewrite Hw; by apply bool_decide_eq_true_2).
  assert (forall b, b ∈ stored_attempts input -> exists i q, sorted_requests input !! i = Some q /\
    stored_by_request input !! request_id q = Some b) as Hpos.
  { intros b Hb. destruct (Hall b Hb) as (_ & Hreq & _).
    apply list_elem_of_fmap in Hreq as (q & Hqq & (i & Hi)%list_elem_of_lookup). exists i, q.
    split; [done|]. by apply (keyed_lookup_Some fact_key). }
  constructor; simpl; try apply Hl.
  - split_and!; [done..|]. simpl. intros b Hb. destruct (Hall b Hb) as (? & ? & ? & ? & ? & _).
    split_and!; [done..|]. intros e He. unfold expected_issuing_attempt in He. simpl in He.
    assert (existsb is_child_wait (stored_attempts input) = true) as Hex.
    { apply existsb_exists. exists a. split; [by apply list_elem_of_In|done]. }
    by rewrite Hex in He.
  - intros j q b Hj Hb. destruct (legal_serial _ Hl j q b Hj Hb) as [Hap Hprior]. split; [done|].
    intros i p Hi Hpi Hapi. destruct (Hprior i p Hi Hpi Hapi) as (x & Hx & Hc & Hbl). exists x.
    split; [done|]. split; [done|]. unfold blocks_later in *.
    apply orb_false_iff in Hbl as [[Hb1 _]%orb_false_iff Hb2].
    by rewrite Hb1, Hb2, andb_false_r.
  - unfold phase_legal. simpl. split_and!; [done..|]. unfold tenure_legal. split_and!; [|done|].
    + intros i q b Hi Hb Hne. pose proof Hb as [Hbin _]%(keyed_lookup_Some fact_key); [|done].
      split; [by apply Hcur|]. right. exists w, r, a. split_and!; [|done..].
      destruct (decide (i <= w)) as [|Hlt]; [done|]. exfalso.
      destruct (legal_serial _ Hl i q b Hi Hb) as [_ Hprior].
      destruct (legal_serial _ Hl w r a Hr Ha) as [Hap _].
      destruct (Hprior w r) as (x & Hx & _ & Hbl); [lia|done..|].
      rewrite Ha in Hx. injection Hx as <-. unfold blocks_later in Hbl.
      rewrite Hphase, Hcw in Hbl. rewrite bool_decide_eq_true_2 in Hbl by congruence.
      simpl in Hbl. by rewrite orb_true_r in Hbl.
    + intros p Hpp. destruct (Hpre p Hpp) as (b & Hb & <-).
      destruct (Hpos b Hb) as (i & q & Hi & Hm). exists i, q, b. split_and!; [done..|by apply Hcur|].
      intros j x y _ _ Hy. apply Hfresh. by apply (keyed_lookup_Some fact_key) in Hy as [Hy _].
Qed.

Lemma delegate_try_new_posture request model call recommendation rationale approval resolution :
  delegate_try_new request model call recommendation rationale = Ok approval ->
  delegate_resolution approval = Some resolution ->
  delegate_posture approval = PostureDelegated /\
  resolution_request resolution = delegate_request approval.
Proof.
  unfold delegate_try_new. destruct (request_posture request) eqn:Hp; simpl; [done| |].
  - intros [= <-]. unfold delegate_resolution. simpl.
    destruct recommendation; simpl; try done; by intros [= <-].
  - case_bool_decide as Hr; [|done]. subst. simpl. intros [= <-]. unfold delegate_resolution. done.
Qed.

Lemma delegate_decision_legal input cells request model call recommendation rationale approval
    continuation d resolution :
  batch_legal input ->
  delegate_try_new request model call recommendation rationale = Ok approval ->
  prepare_delegate_decision (batch_of input cells) approval continuation = Ok d ->
  delegated_resolution d = Some resolution ->
  batch_legal (record_decision input resolution (stored_of (batch_phase (delegated_batch d)))).
Proof.
  intros Hl Hnew. unfold prepare_delegate_decision. cbn [batch_of batch_phase batch_requests batch_approvals].
  destruct (stored_phase input) as [awaited| | |] eqn:Hphase; cbn [loaded_phase]; try done.
  destruct (find_request _ _) as [q|] eqn:Hq; [|done]. apply find_request_elem in Hq as [Hq Hqid].
  destruct (_ || _ || _) eqn:Hc; [done|]. apply orb_false_iff in Hc as [[Hw _]%orb_false_iff Hpost].
  apply negb_false_iff, bool_decide_eq_true in Hw. apply negb_false_iff, bool_decide_eq_true in Hpost.
  destruct (delegate_resolution approval) as [res|] eqn:Hres.
  2: { destruct continuation; [done|]. by intros [= <-]. }
  destruct (decision_successor _ _ _) as [[phase active]|] eqn:Hsucc; [|done].
  intros [= <-] [= <-]. destruct (delegate_try_new_posture _ _ _ _ _ _ _ Hnew Hres) as [Hdp Hrr].
  simpl. subst awaited. eapply (record_decision_legal input _ res q); eauto; try congruence.
Qed.

(** A runner authorization is recorded at most once per attempt: the cell of a
    recorded one is already claimed. *)
Definition record_authorized input (attempt : ToolAttemptId) : ToolBatchReconstitutionInput Snap :=
  mkBatchInput (stored_session input) (stored_turn input) (stored_producing_call input)
    (stored_yielded input) (stored_requests input) (stored_approvals input) (stored_attempts input)
    (stored_retired input) (stored_runner_authorized input ++ [attempt])
    (stored_recovery_predecessors input) (stored_phase input).

Lemma find_current_Some (b : ToolBatch Snap) id c :
  find_current b id = Some c ->
  CurrentAttempt c ∈ attempt_values (batch_attempts b) /\ tool_attempt_id c = id.
Proof.
  unfold find_current. intros Hf. apply head_Some_elem_of in Hf.
  apply list_elem_of_omap in Hf as (a & Ha & Hc). destruct a as [c'|]; [|done].
  case_bool_decide; [|done]. by injection Hc as ->.
Qed.

Lemma authorize_attempt_Ok (b : ToolBatch Snap) id authorized :
  authorize_attempt b id = Ok authorized \/ resume_in_flight_attempt b id = Ok authorized ->
  exists c, find_current b id = Some c /\
    batch_issuance b !! id = Some (authorized_runner_issuance authorized).
Proof.
  unfold authorize_attempt, resume_in_flight_attempt, authorize_with_runner_issuance,
    resume_in_flight_with_runner_issuance.
  destruct (is_executing b); simpl; [|naive_solver].
  destruct (find_current b id) as [c|]; simpl; [|naive_solver].
  destruct (batch_issuance b !! id); simpl; [|naive_solver].
  intros [Ha|Ha]; exists c; (split; [done|]); revert Ha; case_bool_decide; simpl; try done;
    by intros [= <-].
Qed.

Lemma bind_runner_Ok store (b : ToolBatch Snap) authorized a store' :
  bind_runner_authorization store b authorized = (Ok a, store') ->
  store !! authorized_runner_issuance authorized = Some RUNNER_ISSUANCE_AVAILABLE.
Proof.
  unfold bind_runner_authorization. case_match; [|done].
  unfold runner_authorization_try_new. destruct (_ || _ || _); [done|].
  unfold claim_runner_issuance, compare_exchange. case_bool_decide; done.
Qed.

Lemma runner_authorization_legal input cells store0 store store' attempt a :
  batch_legal input -> inventory_cells input store0 store cells ->
  authorize_runner_attempt store (batch_of input cells) attempt = (Ok a, store') \/
  resume_runner_attempt store (batch_of input cells) attempt = (Ok a, store') ->
  batch_legal (record_authorized input attempt).
Proof.
  intros Hl (_ & Hval & _) Hrun.
  assert (exists authorized, (authorize_attempt (batch_of input cells) attempt = Ok authorized \/
      resume_in_flight_attempt (batch_of input cells) attempt = Ok authorized) /\
    bind_runner_authorization store (batch_of input cells) authorized = (Ok a, store'))
    as (authorized & Hauth & Hbind).
  { destruct Hrun as [Hrun|Hrun]; revert Hrun;
      [unfold authorize_runner_attempt|unfold resume_runner_attempt];
      (case_match; [|done]); eauto. }
  apply bind_runner_Ok in Hbind. apply authorize_attempt_Ok in Hauth as (c & Hfind & Hcell).
  apply find_current_Some in Hfind as [Hin Hid]. cbn [batch_of batch_issuance batch_attempts] in *.
  destruct (legal_attempts _ Hl) as (_ & Hkeys & _).
  rewrite (attempt_values_perm _ Hkeys) in Hin. destruct (Hval _ _ Hcell) as [_ Hv].
  assert (attempt ∉ stored_runner_authorized input) as Hnew.
  { intros Hmem. rewrite Hv in Hbind. unfold issuance_value in Hbind.
    rewrite bool_decide_eq_true_2 in Hbind by by apply elem_of_list_to_set. done. }
  constructor; simpl; try apply Hl. split.
  - apply NoDup_app. split_and!; [apply Hl| |apply NoDup_singleton].
    intros x Hx ->%list_elem_of_singleton. done.
  - intros x [Hx| ->%list_elem_of_singleton]%elem_of_app; [by apply (legal_authorized _ Hl)|].
    left. rewrite <- Hid. by apply (list_elem_of_fmap_2 fact_id) in Hin.
Qed.

(** ** The store as the domain lets it change

    One step records what one transition of the domain returned; [step_attempt]
    any end of an attempt, ambiguous ones included. [step_resume] is the one step
    that only the store takes, in [resume_child_wait] of
    [crates/persistence/src/tool_loop.rs]: once the awaited child is delivered, a
    waiting batch executes again under a turn attempt inserted as new; the
    predecessors are what [load_runner_recovery_predecessors] of that file
    selects, distinct issuers of attempts of the batch. *)
Inductive inventory_step input : ToolBatchReconstitutionInput Snap -> Prop :=
| step_decide cells kind command continuation d resolution :
    decide_by kind (batch_of input cells) command continuation = Ok d ->
    prepared_decide_result (decided_command d) = DecisionApplied resolution ->
    inventory_step input
      (record_decision input resolution (stored_of (batch_phase (decided_batch d))))
| step_delegate cells request model call recommendation rationale approval continuation d resolution :
    delegate_try_new request model call recommendation rationale = Ok approval ->
    prepare_delegate_decision (batch_of input cells) approval continuation = Ok d ->
    delegated_resolution d = Some resolution ->
    inventory_step input
      (record_decision input resolution (stored_of (batch_phase (delegated_batch d))))
| step_prepare cells id effect_class p :
    prepare_next_attempt (batch_of input cells) id effect_class = Ok p ->
    inventory_step input
      (record_attempts input (stored_attempts input ++ [CurrentAttempt (prepared_tool_attempt p)])
         (stored_retired input) (stored_recovery_predecessors input) (stored_phase input))
| step_authorize cells store0 store store' attempt a :
    inventory_cells input store0 store cells ->
    authorize_runner_attempt store (batch_of input cells) attempt = (Ok a, store') \/
    resume_runner_attempt store (batch_of input cells) attempt = (Ok a, store') ->
    inventory_step input (record_authorized input attempt)
| step_attempt before a after action a' turn_attempt :
    stored_phase input = StoredExecuting turn_attempt ->
    stored_attempts input = before ++ a :: after ->
    perform_attempt_action a action = Some a' ->
    inventory_step input
      (record_attempts input (before ++ a' :: after) (stored_retired input)
         (stored_recovery_predecessors input) (phase_after turn_attempt a'))
| step_replace cells store store' claimed replacement rep before c after :
    replace_claimed_attempt store (batch_of input cells) claimed replacement = (Ok rep, store') ->
    stored_attempts input = before ++ CurrentAttempt c :: after -> tool_attempt_id c = claimed ->
    inventory_step input
      (record_attempts input
         (before ++ CurrentAttempt (authorized_attempt (replacement_authorized rep)) :: after)
         (stored_retired input ++ [claimed]) (stored_recovery_predecessors input) (stored_phase input))
| step_resume request spawning_request child turn_attempt predecessors :
    stored_phase input = StoredAwaitingChild request spawning_request child ->
    (forall a, a ∈ stored_attempts input -> fact_issuing (attempt_facts a) <> turn_attempt) ->
    NoDup predecessors ->
    (forall p, p ∈ predecessors -> exists a, a ∈ stored_attempts input /\
      fact_issuing (attempt_facts a) = p) ->
    inventory_step input
      (record_attempts input (stored_attempts input) (stored_retired input) predecessors
         (StoredExecuting turn_attempt)).

Lemma decide_step_legal input cells kind command continuation d resolution :
  batch_legal input ->
  decide_by kind (batch_of input cells) command continuation = Ok d ->
  prepared_decide_result (decided_command d) = DecisionApplied resolution ->
  batch_legal (record_decision input resolution (stored_of (batch_phase (decided_batch d)))).
Proof.
  intros Hl Hd Hr. pose proof (decide_by_exact input cells kind command continuation Hl) as He.
  rewrite Hd in He. destruct He as [(res & phase & _ & _ & Hc & Hlegal & Hb & _)|He].
  - rewrite Hc in Hr. injection Hr as <-. rewrite Hb. cbn [batch_of batch_phase record_decision stored_phase].
    by rewrite stored_loaded.
  - destruct He as (awaited & q & _ & _ & _ & _ & _ & _ & Hc). rewrite Hc in Hr.
    destruct (is_undecided _ _); by simpl in Hr.
Qed.

(** The wait for a recovery is over the tenure of its attempt. *)
Definition tenure_recoverable input : Prop :=
  forall id a, stored_phase input = StoredAwaitingRecovery id -> a ∈ stored_attempts input ->
    fact_id a = id -> one_tenure input (fact_issuing (attempt_facts a)).

Lemma legal_tenure_recoverable input : batch_legal input -> tenure_recoverable input.
Proof.
  intros Hl id a Hphase Ha Hid x Hx. destruct (legal_attempts _ Hl) as (Hnd & _ & Hall).
  destruct (Hall x Hx) as (_ & _ & _ & _ & _ & Hexp).
  destruct (Hexp (fact_issuing (attempt_facts a))) as [Heq|[_ Hp]]; [|by left|by right].
  unfold expected_issuing_attempt. rewrite Hphase. apply fmap_Some. exists a. split; [|done].
  apply list_elem_of_lookup in Ha as [k Hk]. apply find_Some_first. exists k.
  split_and!; [done|by apply bool_decide_eq_true_2|]. intros j y Hj Hy. apply bool_decide_eq_false_2. intros Heq.
  assert (j = k); [|lia].
  apply (NoDup_lookup (fact_id <$> stored_attempts input) j k id); [done|..]; rewrite list_lookup_fmap.
  - rewrite Hy. simpl. by rewrite Heq.
  - rewrite Hk. simpl. by rewrite Hid.
Qed.

Lemma one_tenure_dec input turn_attempt : one_tenure input turn_attempt \/ ~ one_tenure input turn_attempt.
Proof.
  unfold one_tenure. setoid_rewrite <- Forall_forall.
  destruct (decide (Forall (fun b => fact_issuing (attempt_facts b) = turn_attempt \/
    fact_issuing (attempt_facts b) ∈ stored_recovery_predecessors input) (stored_attempts input))); auto.
Qed.

(** An ambiguous end over several tenures: a wait no loader accepts. *)
Definition stranded input : Prop :=
  (exists id, stored_phase input = StoredAwaitingRecovery id) /\ ~ tenure_recoverable input.

Lemma attempt_step_legal input before a after action a' turn_attempt :
  batch_legal input -> stored_phase input = StoredExecuting turn_attempt ->
  stored_attempts input = before ++ a :: after ->
  perform_attempt_action a action = Some a' ->
  let input' := record_attempts input (before ++ a' :: after) (stored_retired input)
    (stored_recovery_predecessors input) (phase_after turn_attempt a') in
  batch_legal input' \/ stranded input'.
Proof.
  intros Hl Hphase Hshape Hp input'.
  destruct (ended_ambiguous a') eqn:Hamb; [|left; eapply attempt_action_legal; [done..|congruence]].
  destruct (one_tenure_dec input turn_attempt) as [Hone|Hone]; [left; by eapply attempt_action_legal|].
  destruct (perform_facts _ _ _ Hp) as (Hcur & _ & _ & _ & _ & Hiss & _). destruct a as [c|]; [|done].
  destruct (current_position input before c after Hl Hshape) as (ta & k & r & Hph & _ & _ & _ & Hta & _).
  rewrite Hph in Hphase. injection Hphase as ->.
  destruct a' as [|e]; [done|]. simpl in Hamb. apply bool_decide_eq_true in Hamb.
  assert (stored_phase input' = StoredAwaitingRecovery (ended_tool_id e)) as Hwait by (simpl; by rewrite Hamb).
  right. split; [by eexists|]. intros Hrec. destruct Hone. intros b Hb.
  specialize (Hrec _ (EndedAttempt e) Hwait (ltac:(simpl; set_solver)) eq_refl).
  assert (fact_issuing (attempt_facts (EndedAttempt e)) = turn_attempt) as He by (simpl in *; congruence).
  rewrite He in Hrec. rewrite Hshape, elem_of_app, elem_of_cons in Hb.
  assert (b = CurrentAttempt c \/ b ∈ before ++ EndedAttempt e :: after) as [->|Hin] by set_solver; [by left|].
  exact (Hrec b Hin).
Qed.

(** Nothing follows a wait for a recovery. *)
Lemma recovery_final input input' id :
  stored_phase input = StoredAwaitingRecovery id -> ~ inventory_step input input'.
Proof.
  intros Hphase Hstep. destruct Hstep as [cells kind command continuation d resolution Hd|
    cells request model call recommendation rationale approval continuation d resolution _ Hd|
    cells next effect_class p Hp|cells store0 store store' attempt a _ Hrun|
    before a after action a' turn_attempt Hph|
    cells store store' claimed replacement rep before c after Hrep|
    request spawning_request child turn_attempt predecessors Hph]; try congruence.
  - destruct kind; simpl in Hd; revert Hd;
      unfold prepare_user_decision, prepare_lifecycle_closure_denial, prepare_approval_timeout,
        prepare_decision; cbn [batch_of batch_phase]; rewrite Hphase; done.
  - revert Hd. unfold prepare_delegate_decision. cbn [batch_of batch_phase]. by rewrite Hphase.
  - revert Hp. unfold prepare_next_attempt. cbn [batch_of batch_phase]. by rewrite Hphase.
  - revert Hrun. unfold authorize_runner_attempt, resume_runner_attempt, authorize_attempt,
      resume_in_flight_attempt, is_executing. cbn [batch_of batch_phase]. rewrite Hphase. by intros [].
  - revert Hrep. unfold replace_claimed_attempt. cbn [batch_of batch_phase]. by rewrite Hphase.
Qed.

Lemma inventory_step_legal input input' :
  batch_legal input -> inventory_step input input' -> batch_legal input' \/ stranded input'.
Proof.
  intros Hl Hstep.
  destruct Hstep as [ | | | | |cells store store' claimed replacement rep before c after Hrep Hshape Hid| ];
    [left; by eapply decide_step_legal|left; by eapply delegate_decision_legal|left; by eapply prepare_next_legal
    |left; by eapply runner_authorization_legal|by eapply attempt_step_legal|left|left; by eapply resume_legal].
  destruct (replace_claimed_legal _ _ _ _ _ _ _ Hl Hrep) as (before' & c' & after' & Hs' & Hid' & Hr & _).
  destruct (legal_attempts _ Hl) as (Hnd & _).
  rewrite Hshape in Hnd, Hs'.
  destruct (split_unique fact_id before before' (CurrentAttempt c) (CurrentAttempt c') after after')
    as (-> & _ & ->); [done|simpl; congruence|done|done].
Qed.

Lemma inventory_run_legal input input' :
  batch_legal input -> rtc inventory_step input input' -> batch_legal input' \/ stranded input'.
Proof.
  intros Hl Hrun. induction Hrun as [input|input middle input' Hstep Hrun IH]; [by left|].
  destruct (inventory_step_legal _ _ Hl Hstep) as [Hm|[[id Hphase] Hm]]; [by auto|].
  inversion Hrun as [|? next ? Hnext]; subst; [right; split; [by eexists|done]|].
  by destruct (recovery_final middle next id Hphase).
Qed.

(** C13. A stored inventory that reconstitutes keeps reconstituting, whatever
    sequence of transitions the domain authorizes and the store records:
    decisions, attempts, runner authorizations, all ends, replacements and
    resumptions. The one inventory the loader refuses is the wait an ambiguous
    end leaves in a batch with attempts of another tenure, which are not those of
    a recorded recovery predecessor; nothing follows such a wait. *)
Theorem batch_history_reconstitutes store input input' :
  (exists r, reconstitute_batch store input = Ok r) ->
  rtc inventory_step input input' ->
  forall store',
    ((exists r, reconstitute_batch store' input' = Ok r) <-> tenure_recoverable input')
    /\ ((forall id, stored_phase input' <> StoredAwaitingRecovery id) ->
         exists r, reconstitute_batch store' input' = Ok r)
    /\ (~ tenure_recoverable input' -> forall later, ~ inventory_step input' later).
Proof.
  intros [[b st] Hr] Hrun store'. apply reconstituted_batch in Hr as [Hl _].
  assert (batch_legal input' -> exists r, reconstitute_batch store' input' = Ok r) as Hload
    by (intros Hl'; destruct (reconstitute_batch_legal store' input' Hl') as (? & ? & Hok & _); eauto).
  assert ((exists r, reconstitute_batch store' input' = Ok r) -> tenure_recoverable input') as Hloaded.
  { intros [[b' st'] Hr]. apply reconstituted_batch in Hr as [Hl' _]. by apply legal_tenure_recoverable. }
  destruct (inventory_run_legal _ _ Hl Hrun) as [Hl'|[[id Hphase] Hstranded]]; split_and!; auto.
  - split; auto.
  - by split.
  - intros Hno. by destruct (Hno id).
  - intros _ later. by eapply recovery_final.
Qed.

(** C38. When an external attempt of an executing batch ends ambiguous, the
    recovery wait it moves to reconstitutes exactly when every attempt of the
    batch was issued by the same turn attempt or by a recorded recovery
    predecessor; an earlier foreground child wait of the batch is issued by
    another turn attempt, so a batch with one cannot be loaded any more. *)
Theorem ambiguity_recoverable_iff store input b before a after action a' turn_attempt :
  reconstitute_batch store input = Ok b -> stored_phase input = StoredExecuting turn_attempt ->
  stored_attempts input = before ++ a :: after ->
  perform_attempt_action a action = Some a' -> ended_ambiguous a' = true ->
  (exists r, reconstitute_batch store
     (record_attempts input (before ++ a' :: after) (stored_retired input)
        (stored_recovery_predecessors input) (phase_after turn_attempt a')) = Ok r) <->
  one_tenure input turn_attempt.
Proof.
  intros Hr Hphase Hshape Hact Hamb. destruct b as [b st]. apply reconstituted_batch in Hr as [Hl _].
  destruct (perform_facts _ _ _ Hact) as (Hcur & Hid & _ & _ & _ & Hiss & _).
  split.
  - intros [[b' st'] Hr]. apply reconstituted_batch in Hr as [Hl' _].
    destruct a as [c|e]; [|done].
    destruct (current_position input before c after Hl Hshape) as (ta & k & r & Hph & _ & _ & _ & Hta & _).
    rewrite Hph in Hphase. injection Hphase as <-. destruct a' as [|e]; [done|].
    simpl in Hamb. apply bool_decide_eq_true in Hamb. intros x Hx. rewrite Hshape, elem_of_app, elem_of_cons in Hx.
    assert (x = CurrentAttempt c \/ x ∈ before ++ EndedAttempt e :: after) as [->|Hin] by set_solver; [by left|].
    assert (fact_issuing (attempt_facts (EndedAttempt e)) = ta) as <- by (simpl in *; congruence).
    apply (legal_tenure_recoverable _ Hl' (ended_tool_id e) (EndedAttempt e)); simpl; [by rewrite Hamb|set_solver|done|done].
  - intros Hone. destruct (reconstitute_batch_legal store (record_attempts input (before ++ a' :: after)
      (stored_retired input) (stored_recovery_predecessors input) (phase_after turn_attempt a')))
      as (cells & store1 & Hok & _); [by eapply attempt_action_legal|eauto].
Qed.
End steps.

(** ** Concrete inputs *)

#[local] Existing Instance frontier_only.

Definition sample_ambiguous : ReconstitutedToolAttempt :=
  EndedAttempt (end_tool_attempt (sample_attempt 12 72) EndAmbiguous).
Definition sample_recovery : ToolBatchReconstitutionInput ContextFrontier :=
  record_attempts sample_executing [sample_wait; sample_ambiguous] [] []
    (StoredAwaitingRecovery (from_uuid 62)).

Lemma sample_end_step observation end_ :
  perform_attempt_action (CurrentAttempt (sample_attempt 12 72))
    (DoObserve (mkObservation (attempt_correlation (sample_attempt 12 72)) observation))
  = Some (EndedAttempt (end_tool_attempt (sample_attempt 12 72) end_)) ->
  inventory_step sample_executing (record_attempts sample_executing
    [sample_wait; EndedAttempt (end_tool_attempt (sample_attempt 12 72) end_)] [] []
    (phase_after (from_uuid 72) (EndedAttempt (end_tool_attempt (sample_attempt 12 72) end_)))).
Proof.
  intros Hact. by apply (step_attempt sample_executing [sample_wait]
    (CurrentAttempt (sample_attempt 12 72)) [] _ _ (from_uuid 72) eq_refl eq_refl Hact).
Qed.

(** A completed end loads; an ambiguous one, after the wait of another tenure,
    strands the batch. *)
Lemma batch_history_reconstitutes_witness :
  (exists r, reconstitute_batch ∅ sample_executing = Ok r) /\
  (exists r, reconstitute_batch ∅ (record_attempts sample_executing
    [sample_wait; EndedAttempt (end_tool_attempt (sample_attempt 12 72) sample_completed)] [] []
    (StoredExecuting (from_uuid 72))) = Ok r) /\
  inventory_step sample_executing sample_recovery /\ ~ tenure_recoverable sample_recovery.
Proof.
  assert (exists r, reconstitute_batch ∅ sample_executing = Ok r) as Hr
    by (eexists; vm_compute; reflexivity).
  pose proof (sample_end_step ObservedAmbiguous EndAmbiguous eq_refl) as Hlost.
  split; [exact Hr|]. split; [|split; [exact Hlost|]].
  - eapply (batch_history_reconstitutes ∅ sample_executing _ Hr); [apply rtc_once|discriminate].
    exact (sample_end_step (ObservedCompleted (TextResult (mkResultText (lit "ok")))) sample_completed eq_refl).
  - intros Hrec.
    apply (batch_history_reconstitutes ∅ sample_executing _ Hr (rtc_once _ _ Hlost) ∅) in Hrec.
    destruct Hrec as [r Hrec]. vm_compute in Hrec. discriminate.
Defined.

(** The wait after the child cannot be loaded: its batch has two tenures. *)
Lemma ambiguity_recoverable_iff_witness :
  (exists b, reconstitute_batch ∅ sample_executing = Ok b) /\
  ((exists r, reconstitute_batch ∅ sample_recovery = Ok r) <->
   one_tenure sample_executing (from_uuid 72)) /\
  reconstitute_batch ∅ sample_recovery
    = Err (sample_recovery, AttemptAuthorizationMismatch).
Proof.
  destruct (reconstitute_batch ∅ sample_executing) as [b|] eqn:Hb;
    [|vm_compute in Hb; discriminate].
  split; [by exists b|]. split; [|vm_compute; reflexivity].
  exact (ambiguity_recoverable_iff ∅ sample_executing b [sample_wait]
    (CurrentAttempt (sample_attempt 12 72)) []
    (DoObserve (mkObservation (attempt_correlation (sample_attempt 12 72)) ObservedAmbiguous))
    sample_ambiguous (from_uuid 72) Hb eq_refl eq_refl eq_refl eq_refl).
Defined.
