(* ===== verification/ProviderEvidence.v ===== *)
(** * Provider-target evidence

    Model of [crates/domain/src/provider_evidence.rs]: the recorded
    observations of provider targets, their correlation with a call into one
    sealed fatal-mismatch fact, and the invalidation of completed calls; then
    the proofs that both logs keep their first valid entry and that a call's
    state alone decides which fact its evidence may produce. *)

From S2P Require Import Prelude ModelSettings Interrupt Frontier TurnAttempt ModelCall.

Inductive ProviderTargetObservation :=
| MatchesResolvedTarget (reported : ProviderModelIdentity)
| Mismatch (reported : ProviderModelIdentity).

#[export] Instance ProviderTargetObservation_eq_dec : EqDecision ProviderTargetObservation.
Proof. solve_decision. Defined.

Inductive ProviderTargetMismatchEffectView :=
| ClassifyNonterminalKnownFailed
| ResolveTerminalAmbiguity
| PreserveCompletedInvalidation.

(** ** Sealed facts *)

Record AppliedProviderTargetMismatch := mkAppliedMismatch {
  mismatch_failure : ProviderTargetMismatchFailureRef;
  mismatch_affected_call : ModelCallId;
  mismatch_effect : ProviderTargetMismatchEffectView;
}.

Definition nonterminal_call_observation (evidence : ProviderTargetEvidenceId) :
    ProviderTargetMismatchFailureRef := mkFailureRef (NonterminalCallObservation evidence).
Definition terminal_ambiguity_resolution (evidence : ProviderTargetEvidenceId) :
    ProviderTargetMismatchFailureRef := mkFailureRef (TerminalAmbiguityResolution evidence).
Definition terminal_call_invalidation (invalidated_call : ModelCallId) :
    ProviderTargetMismatchFailureRef := mkFailureRef (TerminalCallInvalidation invalidated_call).

Definition mismatch_nonterminal (evidence : ProviderTargetEvidenceId) (call : ModelCallId) :
    AppliedProviderTargetMismatch :=
  mkAppliedMismatch (nonterminal_call_observation evidence) call ClassifyNonterminalKnownFailed.
Definition mismatch_ambiguity_resolution (evidence : ProviderTargetEvidenceId) (call : ModelCallId) :
    AppliedProviderTargetMismatch :=
  mkAppliedMismatch (terminal_ambiguity_resolution evidence) call ResolveTerminalAmbiguity.
Definition mismatch_completed_invalidation (call : ModelCallId) : AppliedProviderTargetMismatch :=
  mkAppliedMismatch (terminal_call_invalidation call) call PreserveCompletedInvalidation.

(** ** Canonical targets and evidence *)

Record CanonicalCallTarget := mkCanonical {
  canonical_call : ModelCallId;
  canonical_target : ResolvedProviderTarget;
}.

(** [From<&CurrentModelCall>] and [From<&EndedModelCall>] *)
Definition canonical_of_current (call : CurrentModelCall) : CanonicalCallTarget :=
  mkCanonical (call_id call) (pinned_target (call_pinned call)).
Definition canonical_of_ended (call : EndedModelCall) : CanonicalCallTarget :=
  mkCanonical (ended_call_id call) (pinned_target (ended_call_pinned call)).

Record ProviderTargetEvidence := mkEvidence {
  evidence_id : ProviderTargetEvidenceId;
  evidence_call : ModelCallId;
  evidence_observation : ProviderTargetObservation;
}.

#[export] Instance ProviderTargetEvidence_eq_dec : EqDecision ProviderTargetEvidence.
Proof. solve_decision. Defined.

Inductive ProviderTargetMismatchCorrelationError :=
| EvidenceForDifferentCall (evidence_call call : ModelCallId)
| ObservationIsNotMismatch (observation : ProviderTargetObservation)
| ReportedIdentityMatchesTarget (reported : ProviderModelIdentity)
| CallIsNotAmbiguous (disposition : ModelCallDisposition)
| CallIsUnsent.

Abbreviation correlation := (result ProviderTargetMismatchCorrelationError).

Definition correlated_mismatch (self : ProviderTargetEvidence) (call : ModelCallId)
    (target : ResolvedProviderTarget) : correlation ProviderModelIdentity :=
  if negb (bool_decide (evidence_call self = call))
  then Err (EvidenceForDifferentCall (evidence_call self) call) else
  match evidence_observation self with
  | MatchesResolvedTarget _ => Err (ObservationIsNotMismatch (evidence_observation self))
  | Mismatch reported =>
      if bool_decide (reported = target_identity target)
      then Err (ReportedIdentityMatchesTarget reported) else Ok reported
  end.

Definition nonterminal_call_mismatch_fact (self : ProviderTargetEvidence) (call : CurrentModelCall) :
    correlation AppliedProviderTargetMismatch :=
  if bool_decide (call_state call = CallPrepared) then Err CallIsUnsent else
  _ ← correlated_mismatch self (call_id call) (pinned_target (call_pinned call));
  Ok (mismatch_nonterminal (evidence_id self) (call_id call)).

Definition terminal_ambiguity_resolution_fact (self : ProviderTargetEvidence)
    (call : EndedModelCall) : correlation AppliedProviderTargetMismatch :=
  if negb (bool_decide (ended_call_disposition call = CallAmbiguous))
  then Err (CallIsNotAmbiguous (ended_call_disposition call)) else
  _ ← correlated_mismatch self (ended_call_id call) (pinned_target (ended_call_pinned call));
  Ok (mismatch_ambiguity_resolution (evidence_id self) (ended_call_id call)).

(** ** The evidence log *)

Record ProviderTargetEvidenceLog := mkEvidenceLog {
  evidence_records : gmap ProviderTargetEvidenceId ProviderTargetEvidence;
}.

Definition evidence_log_new : ProviderTargetEvidenceLog := mkEvidenceLog ∅.

Definition evidence_lookup (self : ProviderTargetEvidenceLog) (id : ProviderTargetEvidenceId) :
    option ProviderTargetEvidence := evidence_records self !! id.

Record ProviderTargetEvidenceReuseError := mkReuse {
  reuse_existing : ProviderTargetEvidence;
  reuse_requested_call : ModelCallId;
  reuse_requested_observation : ProviderTargetObservation;
}.

Inductive ProviderTargetEvidenceRecordingError :=
| IdentifierReuse (error : ProviderTargetEvidenceReuseError)
| ObservationContradictsTarget (target : ResolvedProviderTarget)
    (observation : ProviderTargetObservation).

Inductive ProviderTargetEvidenceRecording :=
| RecordedFirst (evidence : ProviderTargetEvidence)
| RecordedReplayed (evidence : ProviderTargetEvidence).

Definition recording_evidence (self : ProviderTargetEvidenceRecording) : ProviderTargetEvidence :=
  match self with RecordedFirst evidence | RecordedReplayed evidence => evidence end.

(** The claimed variant agrees with the exact target. *)
Definition observation_consistent (target : ResolvedProviderTarget)
    (observation : ProviderTargetObservation) : bool :=
  match observation with
  | MatchesResolvedTarget reported => bool_decide (reported = target_identity target)
  | Mismatch reported => negb (bool_decide (reported = target_identity target))
  end.

Definition record_evidence (self : ProviderTargetEvidenceLog) (id : ProviderTargetEvidenceId)
    (canonical : CanonicalCallTarget) (observation : ProviderTargetObservation) :
    result ProviderTargetEvidenceRecordingError ProviderTargetEvidenceRecording
    * ProviderTargetEvidenceLog :=
  let call := canonical_call canonical in
  let target := canonical_target canonical in
  match evidence_records self !! id with
  | Some existing =>
      (if bool_decide (evidence_call existing = call)
          && bool_decide (evidence_observation existing = observation)
       then Ok (RecordedReplayed existing)
       else Err (IdentifierReuse (mkReuse existing call observation)), self)
  | None =>
      if negb (observation_consistent target observation)
      then (Err (ObservationContradictsTarget target observation), self) else
      let evidence := mkEvidence id call observation in
      (Ok (RecordedFirst evidence), mkEvidenceLog (<[id := evidence]> (evidence_records self)))
  end.

(** ** Invalidations of completed calls *)

Record ProviderTargetMismatchInvalidation := mkInvalidation {
  invalidated_call : ModelCallId;
  first_mismatch_evidence : ProviderTargetEvidenceId;
}.

Inductive ProviderTargetMismatchInvalidationError :=
| CallNotCompleted (disposition : ModelCallDisposition)
| Correlation (error : ProviderTargetMismatchCorrelationError)
| ExistingInvalidationForDifferentCall (existing : ProviderTargetMismatchInvalidation)
    (call : ModelCallId)
| LaterObservationCannotReplace (existing : ProviderTargetMismatchInvalidation)
    (later_evidence : ProviderTargetEvidenceId).

Inductive AdmittedProviderTargetMismatchInvalidation :=
| AdmittedFirst (invalidation : ProviderTargetMismatchInvalidation)
| AdmittedReplayed (invalidation : ProviderTargetMismatchInvalidation).

Definition admitted_invalidation (self : AdmittedProviderTargetMismatchInvalidation) :
    ProviderTargetMismatchInvalidation :=
  match self with AdmittedFirst invalidation | AdmittedReplayed invalidation => invalidation end.

Definition admit_invalidation (existing : option ProviderTargetMismatchInvalidation)
    (call : EndedModelCall) (evidence : ProviderTargetEvidence) :
    result ProviderTargetMismatchInvalidationError AdmittedProviderTargetMismatchInvalidation :=
  if negb (bool_decide (ended_call_disposition call = CallCompleted))
  then Err (CallNotCompleted (ended_call_disposition call)) else
  _ ← map_err Correlation
        (correlated_mismatch evidence (ended_call_id call) (pinned_target (ended_call_pinned call)));
  match existing with
  | None => Ok (AdmittedFirst (mkInvalidation (ended_call_id call) (evidence_id evidence)))
  | Some existing =>
      if negb (bool_decide (invalidated_call existing = ended_call_id call))
      then Err (ExistingInvalidationForDifferentCall existing (ended_call_id call)) else
      if bool_decide (first_mismatch_evidence existing = evidence_id evidence)
      then Ok (AdmittedReplayed existing)
      else Err (LaterObservationCannotReplace existing (evidence_id evidence))
  end.

Definition fatal_mismatch_fact (self : ProviderTargetMismatchInvalidation) :
    AppliedProviderTargetMismatch := mismatch_completed_invalidation (invalidated_call self).

Record ProviderTargetMismatchInvalidationLog := mkInvalidationLog {
  invalidations : gmap ModelCallId ProviderTargetMismatchInvalidation;
}.

Definition invalidation_log_new : ProviderTargetMismatchInvalidationLog := mkInvalidationLog ∅.

Definition invalidation_lookup (self : ProviderTargetMismatchInvalidationLog) (call : ModelCallId) :
    option ProviderTargetMismatchInvalidation := invalidations self !! call.

Definition invalidation_admit (self : ProviderTargetMismatchInvalidationLog)
    (call : EndedModelCall) (evidence : ProviderTargetEvidence) :
    result ProviderTargetMismatchInvalidationError AdmittedProviderTargetMismatchInvalidation
    * ProviderTargetMismatchInvalidationLog :=
  match admit_invalidation (invalidations self !! ended_call_id call) call evidence with
  | Err error => (Err error, self)
  | Ok (AdmittedFirst invalidation) =>
      (Ok (AdmittedFirst invalidation),
       mkInvalidationLog (<[ended_call_id call := invalidation]> (invalidations self)))
  | Ok (AdmittedReplayed invalidation) => (Ok (AdmittedReplayed invalidation), self)
  end.

(** ** Histories of the logs *)

Record evidence_request := mkEvidenceRequest {
  requested_id : ProviderTargetEvidenceId;
  requested_canonical : CanonicalCallTarget;
  requested_observation : ProviderTargetObservation;
}.

Definition record_request (log : ProviderTargetEvidenceLog) (r : evidence_request) :=
  record_evidence log (requested_id r) (requested_canonical r) (requested_observation r).

Definition run_records (l : list evidence_request) : ProviderTargetEvidenceLog :=
  foldl (fun log r => snd (record_request log r)) evidence_log_new l.

Definition requested_evidence (r : evidence_request) : ProviderTargetEvidence :=
  mkEvidence (requested_id r) (canonical_call (requested_canonical r)) (requested_observation r).

Definition request_consistent (r : evidence_request) : bool :=
  observation_consistent (canonical_target (requested_canonical r)) (requested_observation r).

(** The first consistent request that names an identifier. *)
Definition first_recorded (l : list evidence_request) (id : ProviderTargetEvidenceId) :
    option ProviderTargetEvidence :=
  head (omap (fun r => if bool_decide (requested_id r = id) && request_consistent r
                       then Some (requested_evidence r) else None) l).

Record invalidation_request := mkInvalidationRequest {
  offered_call : EndedModelCall;
  offered_evidence : ProviderTargetEvidence;
}.

Definition admit_request (log : ProviderTargetMismatchInvalidationLog) (r : invalidation_request) :=
  invalidation_admit log (offered_call r) (offered_evidence r).

Definition run_admissions (l : list invalidation_request) : ProviderTargetMismatchInvalidationLog :=
  foldl (fun log r => snd (admit_request log r)) invalidation_log_new l.

(** The reason an offer is refused on its own, whatever the log holds. *)
Definition offer_refused (r : invalidation_request) : option ProviderTargetMismatchInvalidationError :=
  if bool_decide (ended_call_disposition (offered_call r) = CallCompleted) then
    match correlated_mismatch (offered_evidence r) (ended_call_id (offered_call r))
            (pinned_target (ended_call_pinned (offered_call r))) with
    | Ok _ => None
    | Err error => Some (Correlation error)
    end
  else Some (CallNotCompleted (ended_call_disposition (offered_call r))).

Definition offered_invalidation (r : invalidation_request) : ProviderTargetMismatchInvalidation :=
  mkInvalidation (ended_call_id (offered_call r)) (evidence_id (offered_evidence r)).

Definition first_invalidation (l : list invalidation_request) (call : ModelCallId) :
    option ProviderTargetMismatchInvalidation :=
  head (omap (fun r => if bool_decide (ended_call_id (offered_call r) = call)
                          && match offer_refused r with None => true | Some _ => false end
                       then Some (offered_invalidation r) else None) l).


Lemma head_app {A} (l1 l2 : list A) :
  head (l1 ++ l2) = match head l1 with Some x => Some x | None => head l2 end.
Proof. by destruct l1. Qed.

Lemma first_recorded_snoc l r id :
  first_recorded (l ++ [r]) id =
    match first_recorded l id with
    | Some evidence => Some evidence
    | None => if bool_decide (requested_id r = id) && request_consistent r
              then Some (requested_evidence r) else None
    end.
Proof. unfold first_recorded. rewrite omap_app, head_app. simpl. by destruct (_ && _). Qed.

Lemma run_records_first l id : evidence_lookup (run_records l) id = first_recorded l id.
Proof.
  unfold evidence_lookup, run_records. revert id. induction l as [|r l IH] using rev_ind; intros id.
  { apply lookup_empty. }
  rewrite foldl_app. simpl. rewrite first_recorded_snoc, <- IH.
  set (log := foldl _ _ l) in *. unfold record_request, record_evidence.
  fold (request_consistent r).
  destruct (evidence_records log !! requested_id r) as [existing|] eqn:He; simpl.
  - destruct (evidence_records log !! id) eqn:Hid; [done|].
    case_bool_decide; [|done]. congruence.
  - destruct (request_consistent r); simpl; [|by destruct (_ !! id); rewrite ?andb_false_r].
    rewrite andb_true_r. case_bool_decide as Hr.
    + subst id. by rewrite lookup_insert_eq, He.
    + rewrite lookup_insert_ne by done. by destruct (_ !! id).
Qed.

(** The evidence log is the first consistent observation per identifier:
    after any sequence of requests, accepted or refused, an identifier holds
    the first request that agreed with its call's target; the same request is
    answered with that record, a different one with the conflict, and a fresh
    identifier is recorded exactly when the observation agrees with the
    target. *)
Theorem evidence_log_exact l r :
  (forall id, evidence_lookup (run_records l) id = first_recorded l id) /\
  fst (record_request (run_records l) r) =
    match first_recorded l (requested_id r) with
    | Some existing =>
        if decide (existing = requested_evidence r) then Ok (RecordedReplayed existing)
        else Err (IdentifierReuse (mkReuse existing (canonical_call (requested_canonical r))
                                     (requested_observation r)))
    | None =>
        if request_consistent r then Ok (RecordedFirst (requested_evidence r))
        else Err (ObservationContradictsTarget (canonical_target (requested_canonical r))
                    (requested_observation r))
    end.
Proof.
  split; [apply run_records_first|]. rewrite <- run_records_first.
  unfold record_request, record_evidence, evidence_lookup. fold (request_consistent r).
  destruct (_ !! _) as [existing|] eqn:He; [|by destruct (request_consistent r)].
  assert (evidence_id existing = requested_id r) as Hid.
  { assert (first_recorded l (requested_id r) = Some existing) as Hf
      by by rewrite <- run_records_first.
    apply head_Some_elem_of, list_elem_of_omap in Hf as (q & _ & Hq). revert Hq.
    case_bool_decide; simpl; [|done]. destruct (request_consistent q); [|done]. by intros [= <-]. }
  simpl. unfold requested_evidence. destruct existing as [i c o]. simpl in *. subst i.
  repeat case_bool_decide; case_decide; simpl; naive_solver.
Qed.

Lemma first_invalidation_snoc l r call :
  first_invalidation (l ++ [r]) call =
    match first_invalidation l call with
    | Some i => Some i
    | None => if bool_decide (ended_call_id (offered_call r) = call)
                 && match offer_refused r with None => true | Some _ => false end
              then Some (offered_invalidation r) else None
    end.
Proof. unfold first_invalidation. rewrite omap_app, head_app. simpl. by destruct (_ && _). Qed.

Lemma first_invalidation_call l call i :
  first_invalidation l call = Some i -> invalidated_call i = call.
Proof.
  intros (q & _ & Hq)%head_Some_elem_of%list_elem_of_omap. revert Hq.
  case_bool_decide as Hc; simpl; [|done]. destruct (offer_refused q); [done|]. by intros [= <-].
Qed.

(** One admission against what a log holds for the call. *)
Definition admission_answer (existing : option ProviderTargetMismatchInvalidation)
    (r : invalidation_request) :
    result ProviderTargetMismatchInvalidationError AdmittedProviderTargetMismatchInvalidation :=
  match offer_refused r, existing with
  | Some error, _ => Err error
  | None, None => Ok (AdmittedFirst (offered_invalidation r))
  | None, Some first =>
      if decide (first_mismatch_evidence first = evidence_id (offered_evidence r))
      then Ok (AdmittedReplayed first)
      else Err (LaterObservationCannotReplace first (evidence_id (offered_evidence r)))
  end.

Lemma admit_invalidation_answer existing r :
  (forall i, existing = Some i -> invalidated_call i = ended_call_id (offered_call r)) ->
  admit_invalidation existing (offered_call r) (offered_evidence r) = admission_answer existing r.
Proof.
  intros He. unfold admit_invalidation, admission_answer, offer_refused.
  case_bool_decide; [|done]. destruct (correlated_mismatch _ _ _); [|done]. simpl.
  destruct existing as [i|]; [|done]. rewrite bool_decide_eq_true_2 by by apply He. simpl.
  case_bool_decide; case_decide; done.
Qed.

Lemma run_admissions_first l call : invalidation_lookup (run_admissions l) call = first_invalidation l call.
Proof.
  unfold invalidation_lookup, run_admissions. revert call.
  induction l as [|r l IH] using rev_ind; intros call. { apply lookup_empty. }
  rewrite foldl_app. simpl. rewrite first_invalidation_snoc, <- IH.
  set (log := foldl _ _ l) in *. unfold admit_request, invalidation_admit.
  rewrite admit_invalidation_answer
    by (intros i Hi; rewrite IH in Hi; by apply first_invalidation_call in Hi).
  unfold admission_answer. destruct (offer_refused r) eqn:Hr.
  { simpl. rewrite andb_false_r. by destruct (_ !! call). }
  rewrite andb_true_r. destruct (invalidations log !! ended_call_id (offered_call r)) as [i|] eqn:Hi.
  - case_decide; simpl; (destruct (_ !! call) eqn:Hc; [done|]); (case_bool_decide; [congruence|done]).
  - simpl. case_bool_decide as Hc.
    + subst call. by rewrite lookup_insert_eq, Hi.
    + rewrite lookup_insert_ne by done. by destruct (_ !! call).
Qed.

(** Each completed call is invalidated at most once and by its first
    valid mismatch: after any sequence of admissions a call holds the first
    accepted offer for it, an offer that does not stand on its own is refused
    for its own reason, a replay returns the fixed invalidation and any later
    evidence is refused with it. *)
Theorem invalidation_log_exact l r :
  (forall call, invalidation_lookup (run_admissions l) call = first_invalidation l call) /\
  fst (admit_request (run_admissions l) r)
    = admission_answer (first_invalidation l (ended_call_id (offered_call r))) r.
Proof.
  split; [apply run_admissions_first|]. unfold admit_request, invalidation_admit.
  change (invalidations (run_admissions l) !! ended_call_id (offered_call r))
    with (invalidation_lookup (run_admissions l) (ended_call_id (offered_call r))).
  rewrite run_admissions_first, admit_invalidation_answer.
  - by destruct (admission_answer _ _) as [[]|].
  - intros i Hi. by apply first_invalidation_call in Hi.
Qed.

(** ** The fact a call's state permits *)

Definition is_mismatch (observation : ProviderTargetObservation) : bool :=
  match observation with Mismatch _ => true | MatchesResolvedTarget _ => false end.

Definition call_identity (call : ReconstitutedModelCall) : ModelCallId :=
  match call with CurrentCall c => call_id c | EndedCall e => ended_call_id e end.
Definition call_target (call : ReconstitutedModelCall) : ResolvedProviderTarget :=
  match call with
  | CurrentCall c => pinned_target (call_pinned c)
  | EndedCall e => pinned_target (ended_call_pinned e)
  end.

(** Every sealed fact the three boundaries produce for a call, given the
    invalidations admitted so far. *)
Definition mismatch_facts (call : ReconstitutedModelCall) (evidence : ProviderTargetEvidence)
    (log : ProviderTargetMismatchInvalidationLog) : list AppliedProviderTargetMismatch :=
  match call with
  | CurrentCall c =>
      match nonterminal_call_mismatch_fact evidence c with Ok fact => [fact] | Err _ => [] end
  | EndedCall e =>
      match terminal_ambiguity_resolution_fact evidence e with Ok fact => [fact] | Err _ => [] end
      ++ match fst (invalidation_admit log e evidence) with
         | Ok admitted => [fatal_mismatch_fact (admitted_invalidation admitted)]
         | Err _ => []
         end
  end.

(** The one fact a state permits. *)
Definition permitted_fact (call : ReconstitutedModelCall) (evidence : ProviderTargetEvidence)
    (first : option ProviderTargetMismatchInvalidation) : option AppliedProviderTargetMismatch :=
  match call with
  | CurrentCall c =>
      if decide (call_state c = CallPrepared) then None
      else Some (mismatch_nonterminal (evidence_id evidence) (call_id c))
  | EndedCall e =>
      match ended_call_disposition e with
      | CallAmbiguous => Some (mismatch_ambiguity_resolution (evidence_id evidence) (ended_call_id e))
      | CallCompleted =>
          match first with
          | Some first =>
              if decide (first_mismatch_evidence first = evidence_id evidence)
              then Some (mismatch_completed_invalidation (ended_call_id e)) else None
          | None => Some (mismatch_completed_invalidation (ended_call_id e))
          end
      | CallKnownFailed | CallRefused | CallCancelled => None
      end
  end.

(** A log whose requests carried the targets of the calls they name. *)
Definition canonical_requests (targets : ModelCallId -> ResolvedProviderTarget)
    (l : list evidence_request) : Prop :=
  forall r, r ∈ l ->
    canonical_target (requested_canonical r) = targets (canonical_call (requested_canonical r)).

Lemma recorded_consistent targets l id evidence :
  canonical_requests targets l -> evidence_lookup (run_records l) id = Some evidence ->
  observation_consistent (targets (evidence_call evidence)) (evidence_observation evidence) = true.
Proof.
  intros Hc. rewrite run_records_first. intros (r & Hr & Hq)%head_Some_elem_of%list_elem_of_omap.
  revert Hq. case_bool_decide; simpl; [|done]. destruct (request_consistent r) eqn:Hrc; [|done].
  intros [= <-]. simpl. by rewrite <- (Hc r Hr).
Qed.

Lemma correlated_recorded targets l id evidence call :
  canonical_requests targets l -> evidence_lookup (run_records l) id = Some evidence ->
  is_ok (correlated_mismatch evidence call (targets call))
    = bool_decide (evidence_call evidence = call) && is_mismatch (evidence_observation evidence).
Proof.
  intros Hc Hl. pose proof (recorded_consistent _ _ _ _ Hc Hl) as Hok.
  unfold correlated_mismatch. case_bool_decide as He; [|done]. subst call. simpl.
  destruct (evidence_observation evidence) as [reported|reported]; [done|]. simpl in Hok.
  case_bool_decide; [done|]. done.
Qed.

(** Recorded evidence gives authority over a call exactly when it is a
    mismatch observed for that call, and then the state of the call decides
    which: an authorized call that has not ended is classified failed, an
    ambiguous end is resolved, a completed end is invalidated (by its first
    evidence only), and an unsent, failed, refused or cancelled call permits
    nothing. *)
Theorem mismatch_authority_exact targets l id evidence admissions call :
  canonical_requests targets l -> evidence_lookup (run_records l) id = Some evidence ->
  call_target call = targets (call_identity call) ->
  mismatch_facts call evidence (run_admissions admissions) =
    if bool_decide (evidence_call evidence = call_identity call)
       && is_mismatch (evidence_observation evidence)
    then option_list (permitted_fact call evidence
                        (first_invalidation admissions (call_identity call)))
    else [].
Proof.
  intros Hc Hl Ht. rewrite <- (correlated_recorded targets l id evidence (call_identity call) Hc Hl).
  rewrite <- Ht. destruct call as [c|e]; simpl in *.
  - unfold nonterminal_call_mismatch_fact. case_bool_decide; case_decide; try done.
    + by destruct (is_ok _).
    + by destruct (correlated_mismatch _ _ _).
  - unfold terminal_ambiguity_resolution_fact, invalidation_admit.
    change (invalidations (run_admissions admissions) !! ended_call_id e)
      with (invalidation_lookup (run_admissions admissions) (ended_call_id e)).
    rewrite run_admissions_first.
    rewrite (admit_invalidation_answer _ (mkInvalidationRequest e evidence))
      by (intros i Hi; by apply first_invalidation_call in Hi).
    unfold admission_answer, offer_refused. simpl.
    destruct (ended_call_disposition e); simpl; try by destruct (is_ok _).
    + destruct (correlated_mismatch _ _ _); simpl; [|done].
      destruct (first_invalidation _ _) as [i|] eqn:Hi; [|done].
      case_decide; [|done]. simpl. unfold fatal_mismatch_fact.
      by rewrite (first_invalidation_call _ _ _ Hi).
    + by destruct (correlated_mismatch _ _ _).
Qed.

(** ** Concrete inputs *)

Definition sample_observed : evidence_request :=
  mkEvidenceRequest (from_uuid 1) (mkCanonical (from_uuid 2) (naming (from_uuid 3)))
    (Mismatch (from_uuid 4)).
Definition sample_ambiguous_call : ReconstitutedModelCall :=
  EndedCall (mkEndedCall (from_uuid 2) (from_uuid 5) (FrozenDirect (from_uuid 6))
    (mkPinned (from_uuid 7) (naming (from_uuid 3))) (mkFrontier (from_uuid 8) (from_uuid 9))
    CallAmbiguous).

Lemma mismatch_authority_exact_witness :
  mismatch_facts sample_ambiguous_call (requested_evidence sample_observed) (run_admissions [])
    = [mismatch_ambiguity_resolution (from_uuid 1) (from_uuid 2)].
Proof.
  refine (eq_trans (mismatch_authority_exact (fun _ => naming (from_uuid 3)) [sample_observed]
    (from_uuid 1) (requested_evidence sample_observed) [] sample_ambiguous_call _ _ _) _).
  - by intros r ->%list_elem_of_singleton.
  - reflexivity.
  - reflexivity.
  - reflexivity.
Defined.
