(* ===== verification/FatalMismatch.v ===== *)
(** * Fatal mismatches

    Model of [crates/domain/src/fatal_mismatch.rs] with its [lifecycle] and
    [prepared] modules: one trusted mismatch is applied to the complete
    projection of a turn's owned work, and the derived facts are bound to a
    candidate for the attempt and the turn; then the proofs that the facts are
    exact and that the bindings choose the one outcome the owned work permits. *)

From S2P Require Import Prelude ModelSettings Interrupt Frontier TurnAttempt ModelCall TurnLifecycle ProviderEvidence.

(** ** Owned work *)

Inductive OwnedLogicalDependencyRef :=
| DependencyToolRequest (request : ToolRequestId)
| DependencyApproval (request : ToolRequestId).

Inductive LogicalDependencyClosure := DependencyOpen | TerminallyNonDispatchable.

Inductive AmbiguousOperationTurnTreatment := Blocking | ResolvedByEvidence | DuplicateRiskAccepted.

Inductive IssuedOperationClosure :=
| Unclassified
| ClassifiedNonAmbiguous
| PhysicallyAmbiguous (turn_treatment : AmbiguousOperationTurnTreatment).

Inductive FatalMismatchOwnedWorkBlocker :=
| LogicalDependency (dependency : OwnedLogicalDependencyRef)
| UnclassifiedOperation (operation : IssuedOperationRef).

#[export] Instance OwnedLogicalDependencyRef_eq_dec : EqDecision OwnedLogicalDependencyRef.
Proof. solve_decision. Defined.
#[export] Instance OwnedLogicalDependencyRef_countable : Countable OwnedLogicalDependencyRef.
Proof.
  apply (inj_countable' (fun d => match d with
      | DependencyToolRequest r => inl r | DependencyApproval r => inr r end)
    (fun s => match s with inl r => DependencyToolRequest r | inr r => DependencyApproval r end)).
  by intros [].
Defined.
#[export] Instance LogicalDependencyClosure_eq_dec : EqDecision LogicalDependencyClosure.
Proof. solve_decision. Defined.
#[export] Instance IssuedOperationClosure_eq_dec : EqDecision IssuedOperationClosure.
Proof.
  assert (EqDecision AmbiguousOperationTurnTreatment) by solve_decision. solve_decision.
Defined.
#[export] Instance FatalMismatchOwnedWorkBlocker_eq_dec : EqDecision FatalMismatchOwnedWorkBlocker.
Proof. solve_decision. Defined.
#[export] Instance FatalMismatchOwnedWorkBlocker_countable : Countable FatalMismatchOwnedWorkBlocker.
Proof.
  apply (inj_countable' (fun b => match b with
      | LogicalDependency d => inl d | UnclassifiedOperation o => inr o end)
    (fun s => match s with inl d => LogicalDependency d | inr o => UnclassifiedOperation o end)).
  by intros [].
Defined.
#[export] Instance TurnAttemptStopCauses_eq_dec : EqDecision TurnAttemptStopCauses.
Proof. solve_decision. Defined.
#[export] Instance CurrentTurnAttemptState_eq_dec : EqDecision CurrentTurnAttemptState.
Proof. solve_decision. Defined.
#[export] Instance CurrentTurnAttempt_eq_dec : EqDecision CurrentTurnAttempt.
Proof. solve_decision. Defined.

Record CompleteFatalMismatchProjection := mkProjection {
  projected_attempt : CurrentTurnAttempt;
  projected_dependencies : gmap OwnedLogicalDependencyRef LogicalDependencyClosure;
  projected_operations : gmap IssuedOperationRef IssuedOperationClosure;
}.

Record PostEvidenceFatalMismatchFacts := mkMismatchFacts {
  facts_projection : CompleteFatalMismatchProjection;
  facts_applied_mismatch : AppliedProviderTargetMismatch;
  facts_causes : FatalMismatchStopCauses;
  facts_unfinished : gset FatalMismatchOwnedWorkBlocker;
  facts_blocking : option NonEmptyIssuedOperationRefs;
}.

Definition facts_attempt (self : PostEvidenceFatalMismatchFacts) : CurrentTurnAttempt :=
  projected_attempt (facts_projection self).

Inductive FatalMismatchProjectionRejection :=
| PreparedRequiresCompletedInvalidation
| AffectedCallIsNotOwned (call : ModelCallId)
| AffectedCallStateMismatch (call : ModelCallId) (effect : ProviderTargetMismatchEffectView)
    (current : IssuedOperationClosure).

(** The boxed triple of [FatalMismatchProjectionError]. *)
Definition FatalMismatchProjectionError : Type :=
  CompleteFatalMismatchProjection * AppliedProviderTargetMismatch * FatalMismatchProjectionRejection.

(** [FatalMismatchStopCauses::with_failure] *)
Definition fatal_with_failure (causes : FatalMismatchStopCauses)
    (failure : ProviderTargetMismatchFailureRef) : FatalMismatchStopCauses :=
  fatal_add_failure causes failure.

(** The causes of the first match; [None] is the rejected prepared attempt. *)
Definition derived_causes (state : CurrentTurnAttemptState) (fact : AppliedProviderTargetMismatch) :
    option FatalMismatchStopCauses :=
  match state, mismatch_effect fact with
  | Prepared, PreserveCompletedInvalidation | AttemptRunning, _ =>
      Some (fatal_causes_new (mismatch_failure fact) NoAppliedInterrupt)
  | Prepared, _ => None
  | StopRequested (CancellationOnly interrupt), _ =>
      Some (fatal_causes_new (mismatch_failure fact) (TurnAttempt.InterruptApplied interrupt))
  | StopRequested (FatalMismatch causes), _ =>
      Some (fatal_with_failure causes (mismatch_failure fact))
  end.

(** The affected operation after the fact, from the second match. *)
Definition updated_closure (effect : ProviderTargetMismatchEffectView)
    (current : IssuedOperationClosure) : option IssuedOperationClosure :=
  match effect, current with
  | ClassifyNonterminalKnownFailed, Unclassified => Some ClassifiedNonAmbiguous
  | ResolveTerminalAmbiguity, PhysicallyAmbiguous (Blocking | ResolvedByEvidence) =>
      Some (PhysicallyAmbiguous ResolvedByEvidence)
  | PreserveCompletedInvalidation, ClassifiedNonAmbiguous => Some ClassifiedNonAmbiguous
  | _, _ => None
  end.

(** The bodies of the loops over the owned work. Both only insert into sets,
    so the order of the maps does not matter. *)
Definition block_dependency (blockers : gset FatalMismatchOwnedWorkBlocker)
    (entry : OwnedLogicalDependencyRef * LogicalDependencyClosure) :
    gset FatalMismatchOwnedWorkBlocker :=
  if bool_decide (snd entry = DependencyOpen)
  then {[LogicalDependency (fst entry)]} ∪ blockers else blockers.

Definition block_operation (state : gset FatalMismatchOwnedWorkBlocker * gset IssuedOperationRef)
    (entry : IssuedOperationRef * IssuedOperationClosure) :
    gset FatalMismatchOwnedWorkBlocker * gset IssuedOperationRef :=
  let '(blockers, ambiguities) := state in
  match snd entry with
  | Unclassified => ({[UnclassifiedOperation (fst entry)]} ∪ blockers, ambiguities)
  | PhysicallyAmbiguous Blocking => (blockers, {[fst entry]} ∪ ambiguities)
  | ClassifiedNonAmbiguous | PhysicallyAmbiguous (ResolvedByEvidence | DuplicateRiskAccepted) =>
      (blockers, ambiguities)
  end.

Definition apply_mismatch (self : CompleteFatalMismatchProjection)
    (fact : AppliedProviderTargetMismatch) :
    result FatalMismatchProjectionError PostEvidenceFatalMismatchFacts :=
  causes ← ok_or (derived_causes (attempt_state (projected_attempt self)) fact)
             (self, fact, PreparedRequiresCompletedInvalidation);
  let call := mismatch_affected_call fact in
  let operation := OperationModelCall call in
  current ← ok_or (projected_operations self !! operation) (self, fact, AffectedCallIsNotOwned call);
  updated ← ok_or (updated_closure (mismatch_effect fact) current)
              (self, fact, AffectedCallStateMismatch call (mismatch_effect fact) current);
  let operations := <[operation := updated]> (projected_operations self) in
  let blockers := foldl block_dependency ∅ (map_to_list (projected_dependencies self)) in
  let '(blockers, ambiguities) := foldl block_operation (blockers, ∅) (map_to_list operations) in
  let blocking :=
    match try_from_operations (operations_iter (mkOperations ambiguities)) with
    | Ok refs => Some refs
    | Err _ => None
    end in
  Ok (mkMismatchFacts (mkProjection (projected_attempt self) (projected_dependencies self) operations)
        fact causes blockers blocking).

(** ** Running and stopped attempts *)

Record FatalMismatchReconciliationMarkerCandidate := mkMarkerCandidate {
  candidate_operations : NonEmptyIssuedOperationRefs;
  candidate_causes : FatalMismatchStopCauses;
}.

(** [ReconciliationMarker::from_fatal_mismatch_candidate] *)
Definition from_fatal_mismatch_candidate (candidate : FatalMismatchReconciliationMarkerCandidate) :
    ReconciliationMarker :=
  mkMarker (candidate_operations candidate)
    (FatalMismatchRequiresReconciliation (candidate_causes candidate)).

Record FatalMismatchClosedTerminalCandidate := mkClosed {
  closed_ended_attempt : EndedTurnAttempt;
  closed_turn_disposition : TurnDisposition;
  fatal_stop_fallback : ActiveTurnPhase;
}.

Inductive FatalMismatchLifecycleOutcome :=
| OutcomeStopRequested (active_phase : ActiveTurnPhase)
| ClosedTerminalCandidate (candidate : FatalMismatchClosedTerminalCandidate).

Record FatalMismatchLifecycleBinding := mkBinding {
  binding_facts : PostEvidenceFatalMismatchFacts;
  binding_source_phase : ActiveTurnPhase;
  binding_outcome : FatalMismatchLifecycleOutcome;
}.

Inductive FatalMismatchLifecycleBindingRejection :=
| SourcePhaseIsNotRunning
| SourceAttemptMismatch
| AttemptRejected (error : CurrentTurnAttemptTransitionError)
| DerivedFatalCausesMismatch (actual : FatalMismatchStopCauses)
| FatalStopNotEstablished (actual : CurrentTurnAttempt)
| LifecycleAttemptEndRejected (error : CurrentTurnAttemptTransitionError).

Definition FatalMismatchLifecycleBindingError : Type :=
  PostEvidenceFatalMismatchFacts * ActiveTurnPhase * FatalMismatchLifecycleBindingRejection.

(** The attempt of the only phase that carries one. *)
Definition running_attempt (phase : ActiveTurnPhase) : option CurrentTurnAttempt :=
  match phase with
  | Running current_attempt => Some current_attempt
  | AwaitingApproval _ | AwaitingChild _ | AwaitingRecoveryDecision _ _
  | AwaitingRunnerRecovery _ _ _ | AwaitingCredentialAvailability _ => None
  end.

Definition bind_lifecycle_candidate (self : PostEvidenceFatalMismatchFacts)
    (source_phase : ActiveTurnPhase) :
    result FatalMismatchLifecycleBindingError FatalMismatchLifecycleBinding :=
  let fail rejection := (self, source_phase, rejection) in
  source_attempt ← ok_or (running_attempt source_phase) (fail SourcePhaseIsNotRunning);
  if negb (bool_decide (source_attempt = facts_attempt self))
  then Err (fail SourceAttemptMismatch) else
  stopped_attempt ←
    map_err (fun error => fail (AttemptRejected error))
      (request_fatal_mismatch (facts_attempt self)
         (mismatch_failure (facts_applied_mismatch self)));
  match attempt_state stopped_attempt with
  | StopRequested (FatalMismatch actual_causes) =>
      if negb (bool_decide (actual_causes = facts_causes self))
      then Err (fail (DerivedFatalCausesMismatch actual_causes)) else
      terminal_source_attempt ←
        match attempt_state source_attempt with
        | AttemptRunning => Ok source_attempt
        | StopRequested _ => Ok stopped_attempt
        | Prepared => Err (fail SourceAttemptMismatch)
        end;
      let fallback := Running stopped_attempt in
      outcome ←
        match bool_decide (facts_unfinished self = ∅), facts_blocking self with
        | false, _ => Ok (OutcomeStopRequested fallback)
        | true, None =>
            ended ← map_err (fun error => fail (LifecycleAttemptEndRejected error))
                      (end_after_fatal_mismatch terminal_source_attempt (facts_causes self)
                         FatalKnownFailure);
            Ok (ClosedTerminalCandidate (mkClosed ended TurnFailedDisposition fallback))
        | true, Some blocking =>
            ended ← map_err (fun error => fail (LifecycleAttemptEndRejected error))
                      (end_after_fatal_mismatch terminal_source_attempt (facts_causes self)
                         FatalAmbiguous);
            let marker := from_fatal_mismatch_candidate
                            (mkMarkerCandidate blocking (facts_causes self)) in
            Ok (ClosedTerminalCandidate (mkClosed ended (ReconciliationRequired marker) fallback))
        end;
      Ok (mkBinding self source_phase outcome)
  | _ => Err (fail (FatalStopNotEstablished stopped_attempt))
  end.

(** ** Prepared attempts *)

Record PreparedFatalMismatchAtomicCandidate := mkAtomic {
  atomic_ended_attempt : EndedTurnAttempt;
  atomic_turn_disposition : TurnDisposition;
  required_logical_closures : gset OwnedLogicalDependencyRef;
}.

Record PreparedFatalMismatchAtomicBinding := mkAtomicBinding {
  atomic_facts : PostEvidenceFatalMismatchFacts;
  atomic_source_phase : ActiveTurnPhase;
  atomic_candidate : PreparedFatalMismatchAtomicCandidate;
}.

Inductive PreparedFatalMismatchBindingRejection :=
| PreparedSourcePhaseIsNotRunning
| PreparedSourceAttemptMismatch
| SourceAttemptIsNotPrepared
| PhysicalClosureIsIncomplete
| PreparedAttemptEndRejected (error : CurrentTurnAttemptTransitionError).

Definition PreparedFatalMismatchBindingError : Type :=
  PostEvidenceFatalMismatchFacts * ActiveTurnPhase * PreparedFatalMismatchBindingRejection.

(** The body of the loop over the blockers; an unclassified operation ends it. *)
Definition require_closure (closures : gset OwnedLogicalDependencyRef)
    (blocker : FatalMismatchOwnedWorkBlocker) : result unit (gset OwnedLogicalDependencyRef) :=
  match blocker with
  | LogicalDependency dependency => Ok ({[dependency]} ∪ closures)
  | UnclassifiedOperation _ => Err tt
  end.

Definition bind_prepared_atomic_candidate (self : PostEvidenceFatalMismatchFacts)
    (source_phase : ActiveTurnPhase) :
    result PreparedFatalMismatchBindingError PreparedFatalMismatchAtomicBinding :=
  let fail rejection := (self, source_phase, rejection) in
  source_attempt ← ok_or (running_attempt source_phase) (fail PreparedSourcePhaseIsNotRunning);
  if negb (bool_decide (source_attempt = facts_attempt self))
  then Err (fail PreparedSourceAttemptMismatch) else
  if negb (bool_decide (attempt_state source_attempt = Prepared))
  then Err (fail SourceAttemptIsNotPrepared) else
  closures ← map_err (fun _ => fail PhysicalClosureIsIncomplete)
               (try_fold require_closure (elements (facts_unfinished self)) ∅);
  match facts_blocking self with
  | Some _ => Err (fail PhysicalClosureIsIncomplete)
  | None =>
      ended ← map_err (fun error => fail (PreparedAttemptEndRejected error))
                (end_after_fatal_mismatch source_attempt (facts_causes self) FatalKnownFailure);
      Ok (mkAtomicBinding self source_phase (mkAtomic ended TurnFailedDisposition closures))
  end.

(** ** The derived facts are exact *)

Lemma block_dependencies_spec l acc b :
  b ∈ foldl block_dependency acc l <->
  b ∈ acc \/ exists d, b = LogicalDependency d /\ (d, DependencyOpen) ∈ l.
Proof.
  revert acc. induction l as [|[d c] l IH]; intros acc; simpl; [set_solver|].
  rewrite IH. unfold block_dependency at 1. simpl. setoid_rewrite elem_of_cons.
  case_bool_decide; subst; set_solver.
Qed.

Lemma block_operations_spec l blockers ambiguities :
  let state := foldl block_operation (blockers, ambiguities) l in
  (forall b, b ∈ fst state <-> b ∈ blockers \/
     exists o, b = UnclassifiedOperation o /\ (o, Unclassified) ∈ l) /\
  (forall o, o ∈ snd state <-> o ∈ ambiguities \/ (o, PhysicallyAmbiguous Blocking) ∈ l).
Proof.
  revert blockers ambiguities. induction l as [|[o c] l IH]; intros blockers ambiguities; simpl.
  { split; set_solver. }
  setoid_rewrite elem_of_cons.
  destruct c as [| |[]]; simpl; destruct (IH) with (blockers := blockers) (ambiguities := ambiguities)
    as [H1 H2]; try (split; [intros b; rewrite H1|intros x; rewrite H2]; naive_solver).
  - destruct (IH ({[UnclassifiedOperation o]} ∪ blockers) ambiguities) as [H3 H4].
    split; [intros b; rewrite H3|intros x; rewrite H4]; set_solver.
  - destruct (IH blockers ({[o]} ∪ ambiguities)) as [H3 H4].
    split; [intros b; rewrite H3|intros x; rewrite H4]; set_solver.
Qed.

Lemma blocking_refs (s : gset IssuedOperationRef) :
  match try_from_operations (operations_iter (mkOperations s)) with
  | Ok refs => refs = mkOperations s /\ s <> ∅
  | Err _ => s = ∅
  end.
Proof.
  unfold try_from_operations, operations_iter. simpl.
  assert (merge_sort operation_ord (elements s) ≡ₚ elements s) as Hp by apply merge_sort_Permutation.
  assert (try_fold insert_operation (merge_sort operation_ord (elements s)) ∅ = Ok s) as ->.
  { apply insert_operations_Ok. split_and!; [rewrite Hp; apply NoDup_elements|set_solver|].
    rewrite (left_id_L ∅ (∪)), Hp. by rewrite list_to_set_elements_L. }
  simpl. by case_bool_decide.
Qed.

(** The turn's owned work once the affected call has its new closure. *)
Definition closed_projection (p : CompleteFatalMismatchProjection)
    (fact : AppliedProviderTargetMismatch) (updated : IssuedOperationClosure) :
    CompleteFatalMismatchProjection :=
  mkProjection (projected_attempt p) (projected_dependencies p)
    (<[OperationModelCall (mismatch_affected_call fact) := updated]> (projected_operations p)).

(** The work that keeps a projection from closing. *)
Definition unfinished_in (p : CompleteFatalMismatchProjection) (b : FatalMismatchOwnedWorkBlocker) :
    Prop :=
  match b with
  | LogicalDependency d => projected_dependencies p !! d = Some DependencyOpen
  | UnclassifiedOperation o => projected_operations p !! o = Some Unclassified
  end.

Definition blocking_in (p : CompleteFatalMismatchProjection) (o : IssuedOperationRef) : Prop :=
  projected_operations p !! o = Some (PhysicallyAmbiguous Blocking).

(** Complete facts of a closed projection. *)
Definition facts_of (p : CompleteFatalMismatchProjection) (facts : PostEvidenceFatalMismatchFacts) :
    Prop :=
  facts_projection facts = p /\
  (forall b, b ∈ facts_unfinished facts <-> unfinished_in p b) /\
  match facts_blocking facts with
  | Some refs => operations refs <> ∅ /\ forall o, o ∈ operations refs <-> blocking_in p o
  | None => forall o, ~ blocking_in p o
  end.

Lemma apply_facts p fact causes current updated :
  derived_causes (attempt_state (projected_attempt p)) fact = Some causes ->
  projected_operations p !! OperationModelCall (mismatch_affected_call fact) = Some current ->
  updated_closure (mismatch_effect fact) current = Some updated ->
  exists facts, apply_mismatch p fact = Ok facts /\ facts_of (closed_projection p fact updated) facts /\
    facts_applied_mismatch facts = fact /\ facts_causes facts = causes.
Proof.
  intros Hc Ho Hu. unfold apply_mismatch. rewrite Hc. simpl. rewrite Ho. simpl. rewrite Hu. simpl.
  set (ops := <[_ := updated]> _).
  pose proof (block_operations_spec (map_to_list ops)
    (foldl block_dependency ∅ (map_to_list (projected_dependencies p))) ∅) as Hs.
  destruct (foldl block_operation _ _) as [blockers ambiguities]. simpl in Hs. destruct Hs as [Hb Ha].
  eexists. split; [done|]. simpl. split_and!; [|done..]. unfold facts_of. simpl. split_and!; [done| |].
  - intros b. rewrite Hb, block_dependencies_spec. setoid_rewrite elem_of_map_to_list.
    rewrite elem_of_empty. subst ops. destruct b as [d|o]; simpl.
    + split; [intros [[[]|(? & [= ->] & ?)]|(? & [=] & _)]; done|]. left. right. by exists d.
    + split; [intros [[[]|(? & [=] & _)]|(? & [= ->] & ?)]; done|]. right. by exists o.
  - pose proof (blocking_refs ambiguities) as Hr. unfold blocking_in. simpl.
    fold ops. destruct (try_from_operations _) as [refs|].
    + destruct Hr as [-> Hne]. split; [done|]. intros o. simpl. rewrite Ha, elem_of_map_to_list. set_solver.
    + subst ambiguities. intros o Hin. apply (not_elem_of_empty (C := gset IssuedOperationRef) o).
      apply Ha. right. by apply elem_of_map_to_list.
Qed.

Lemma fatal_facts p fact facts :
  apply_mismatch p fact = Ok facts ->
  exists updated, facts_of (closed_projection p fact updated) facts /\
    facts_applied_mismatch facts = fact /\
    derived_causes (attempt_state (projected_attempt p)) fact = Some (facts_causes facts).
Proof.
  intros Ha.
  destruct (derived_causes (attempt_state (projected_attempt p)) fact) as [causes|] eqn:Hc;
    [|unfold apply_mismatch in Ha; by rewrite Hc in Ha].
  destruct (projected_operations p !! OperationModelCall (mismatch_affected_call fact)) as [current|] eqn:Ho;
    [|unfold apply_mismatch in Ha; rewrite Hc in Ha; simpl in Ha; by rewrite Ho in Ha].
  destruct (updated_closure (mismatch_effect fact) current) as [updated|] eqn:Hu;
    [|unfold apply_mismatch in Ha; rewrite Hc in Ha; simpl in Ha; rewrite Ho in Ha; simpl in Ha;
      by rewrite Hu in Ha].
  destruct (apply_facts p fact causes current updated Hc Ho Hu) as (facts' & Ha' & Hf & Hm & Hcs).
  rewrite Ha in Ha'. injection Ha' as <-. exists updated. by rewrite Hcs.
Qed.

(** A trusted mismatch is applied to a turn's owned work exactly when the
    attempt may stop for it and the affected call is owned and in the physical
    state the fact was validated for; then only that call's closure changes,
    the causes are those of the attempt with this failure added, and the
    blockers and blocking ambiguities are exactly the open, unclassified and
    ambiguous work that remains. A rejection returns its inputs with a reason
    that holds. *)
Theorem fatal_projection_exact p fact :
  match apply_mismatch p fact with
  | Ok facts =>
      exists current updated,
        projected_operations p !! OperationModelCall (mismatch_affected_call fact) = Some current /\
        updated_closure (mismatch_effect fact) current = Some updated /\
        facts_of (closed_projection p fact updated) facts /\
        facts_applied_mismatch facts = fact /\
        derived_causes (attempt_state (projected_attempt p)) fact = Some (facts_causes facts)
  | Err (p', fact', rejection) =>
      p' = p /\ fact' = fact /\
      match rejection with
      | PreparedRequiresCompletedInvalidation =>
          attempt_state (projected_attempt p) = Prepared /\
          mismatch_effect fact <> PreserveCompletedInvalidation
      | AffectedCallIsNotOwned call =>
          call = mismatch_affected_call fact /\
          projected_operations p !! OperationModelCall call = None
      | AffectedCallStateMismatch call effect current =>
          call = mismatch_affected_call fact /\ effect = mismatch_effect fact /\
          projected_operations p !! OperationModelCall call = Some current /\
          updated_closure effect current = None
      end
  end.
Proof.
  destruct (derived_causes (attempt_state (projected_attempt p)) fact) as [causes|] eqn:Hc.
  2: { unfold apply_mismatch. rewrite Hc. simpl. split; [done|]. split; [done|].
       revert Hc. unfold derived_causes. destruct (attempt_state _) as [| |[]]; try done.
       by destruct (mismatch_effect fact). }
  destruct (projected_operations p !! OperationModelCall (mismatch_affected_call fact)) as [current|] eqn:Ho.
  2: { unfold apply_mismatch. rewrite Hc. simpl. rewrite Ho. by split_and!. }
  destruct (updated_closure (mismatch_effect fact) current) as [updated|] eqn:Hu.
  - destruct (apply_facts p fact causes current updated Hc Ho Hu) as (facts & -> & Hf & Hm & ->).
    eauto 10.
  - unfold apply_mismatch. rewrite Hc. simpl. rewrite Ho. simpl. rewrite Hu. by split_and!.
Qed.

(** ** The candidates are determined by the owned work *)

(** The stop a fact leaves, as the attempt itself computes it. *)
Lemma stopped_with_causes a fact causes :
  derived_causes (attempt_state a) fact = Some causes -> attempt_state a <> Prepared ->
  request_fatal_mismatch a (mismatch_failure fact)
    = Ok (mkAttempt (attempt_id a) (StopRequested (FatalMismatch causes))).
Proof.
  unfold derived_causes, request_fatal_mismatch.
  destruct (attempt_state a) as [| |[i|c]]; try done; intros [= <-] _; done.
Qed.

Definition fatal_stop (a : CurrentTurnAttempt) (causes : FatalMismatchStopCauses) :
    CurrentTurnAttempt := mkAttempt (attempt_id a) (StopRequested (FatalMismatch causes)).

(** The outcome for a stopped attempt: stop while work is unfinished, end as a
    known failure when all of it is settled, and as ambiguous with exactly the
    blocking operations otherwise. *)
Definition outcome_for (p : CompleteFatalMismatchProjection) (causes : FatalMismatchStopCauses)
    (outcome : FatalMismatchLifecycleOutcome) : Prop :=
  let a := projected_attempt p in
  let ended d := mkEnded (attempt_id a) (AfterFatalMismatch causes d) in
  let fallback := Running (fatal_stop a causes) in
  match outcome with
  | OutcomeStopRequested phase => phase = fallback /\ exists b, unfinished_in p b
  | ClosedTerminalCandidate c =>
      fatal_stop_fallback c = fallback /\ (forall b, ~ unfinished_in p b) /\
      ((forall o, ~ blocking_in p o) /\ closed_turn_disposition c = TurnFailedDisposition /\
         closed_ended_attempt c = ended FatalKnownFailure \/
       exists refs, (exists o, blocking_in p o) /\ (forall o, o ∈ operations refs <-> blocking_in p o) /\
         closed_ended_attempt c = ended FatalAmbiguous /\
         closed_turn_disposition c
           = ReconciliationRequired (mkMarker refs (FatalMismatchRequiresReconciliation causes)))
  end.

Lemma end_stopped a causes disposition :
  attempt_state a <> Prepared ->
  (attempt_state a <> AttemptRunning -> attempt_state a = StopRequested (FatalMismatch causes)) ->
  end_after_fatal_mismatch a causes disposition
    = Ok (mkEnded (attempt_id a) (AfterFatalMismatch causes disposition)).
Proof.
  intros Hp Hs. unfold end_after_fatal_mismatch, end_attempt.
  destruct (attempt_state a) as [| |c] eqn:Ha; [done|done|].
  rewrite Hs by done. simpl. by rewrite bool_decide_eq_true_2.
Qed.

Lemma facts_unfinished_empty p facts :
  facts_of p facts -> (facts_unfinished facts = ∅ <-> forall b, ~ unfinished_in p b).
Proof.
  intros (_ & Hu & _). setoid_rewrite <- Hu. split; [intros ->; apply not_elem_of_empty|].
  intros H. apply set_eq. intros b. split; [by intros ?%H|by intros ?%not_elem_of_empty].
Qed.

Lemma bind_running_outcome p facts causes :
  facts_of p facts -> facts_causes facts = causes ->
  derived_causes (attempt_state (projected_attempt p)) (facts_applied_mismatch facts) = Some causes ->
  attempt_state (projected_attempt p) <> Prepared ->
  exists outcome, bind_lifecycle_candidate facts (Running (projected_attempt p))
      = Ok (mkBinding facts (Running (projected_attempt p)) outcome) /\
    outcome_for p causes outcome.
Proof.
  intros Hf Hc Hd Hp. pose proof (facts_unfinished_empty p facts Hf) as Hempty.
  destruct Hf as (Hproj & Hu & Hb). unfold bind_lifecycle_candidate, facts_attempt. simpl.
  rewrite Hproj, bool_decide_eq_true_2 by done. cbn [negb].
  rewrite (stopped_with_causes _ _ _ Hd Hp). simpl. rewrite Hc, bool_decide_eq_true_2 by done. cbn [negb].
  set (stop := mkAttempt _ _).
  assert (exists t, (match attempt_state (projected_attempt p) with
      | Prepared => Err (facts, Running (projected_attempt p), SourceAttemptMismatch)
      | AttemptRunning => Ok (projected_attempt p)
      | StopRequested _ => Ok stop end) = Ok t /\ attempt_id t = attempt_id (projected_attempt p) /\
      forall d, end_after_fatal_mismatch t causes d
        = Ok (mkEnded (attempt_id t) (AfterFatalMismatch causes d))) as (t & -> & Ht & He).
  { destruct (attempt_state (projected_attempt p)) as [| |c] eqn:Ha; [done|..];
      (eexists; split_and!; [done|done|intros d; apply end_stopped; simpl; congruence]). }
  simpl. destruct (bool_decide (facts_unfinished facts = ∅)) eqn:Hun.
  - apply bool_decide_eq_true in Hun. pose proof (proj1 Hempty Hun) as Hclosed.
    destruct (facts_blocking facts) as [refs|]; rewrite He; simpl; (eexists; split; [done|]);
      simpl; rewrite Ht; (split_and!; [done|done|]).
    + right. exists refs. destruct Hb as [Hne Hb]. split_and!; [|done..].
      destruct (set_choose_L _ Hne) as [o Ho]. exists o. by apply Hb.
    + by left.
  - apply bool_decide_eq_false in Hun. eexists. split; [done|]. simpl. split; [done|].
    destruct (set_choose_L _ Hun) as [b Hin]. exists b. by apply Hu.
Qed.

(** The facts of an applied mismatch bind to a source phase exactly when
    it is the running phase of the projected attempt and that attempt has
    started; the candidate is then decided by the owned work alone: the fatal
    stop while work is unfinished, the failed turn when everything is settled,
    and the reconciliation of exactly the blocking operations otherwise, each
    with the exact causes. The other rejections of the code cannot happen. *)
Theorem fatal_lifecycle_exact p fact facts phase :
  apply_mismatch p fact = Ok facts ->
  match bind_lifecycle_candidate facts phase with
  | Ok binding =>
      phase = Running (projected_attempt p) /\ attempt_state (projected_attempt p) <> Prepared /\
      binding_facts binding = facts /\ binding_source_phase binding = phase /\
      outcome_for (facts_projection facts) (facts_causes facts) (binding_outcome binding)
  | Err (facts', phase', rejection) =>
      facts' = facts /\ phase' = phase /\
      match rejection with
      | SourcePhaseIsNotRunning => forall a, phase <> Running a
      | SourceAttemptMismatch => exists a, phase = Running a /\ a <> projected_attempt p
      | AttemptRejected _ =>
          phase = Running (projected_attempt p) /\ attempt_state (projected_attempt p) = Prepared
      | _ => False
      end
  end.
Proof.
  intros Ha. pose proof (fatal_facts p fact facts Ha) as (updated & Hf & Hfact & Hd).
  destruct (running_attempt phase) as [a|] eqn:Hr.
  2: { unfold bind_lifecycle_candidate. rewrite Hr. simpl. split_and!; [done..|]. by intros a ->. }
  assert (phase = Running a) as -> by (destruct phase; simpl in Hr; congruence).
  destruct Hf as (Hproj & Hrest). destruct (decide (a = projected_attempt p)) as [->|Hne].
  2: { unfold bind_lifecycle_candidate, facts_attempt. rewrite Hproj. simpl.
       rewrite bool_decide_eq_false_2 by done. simpl. eauto. }
  destruct (decide (attempt_state (projected_attempt p) = Prepared)) as [Hp|Hp].
  - unfold bind_lifecycle_candidate, facts_attempt. rewrite Hproj. simpl.
    rewrite bool_decide_eq_true_2 by done. cbn [negb].
    unfold request_fatal_mismatch. rewrite Hp. by split_and!.
  - destruct (bind_running_outcome (closed_projection p fact updated) facts (facts_causes facts))
      as (outcome & Hb & Ho); [done|done|by rewrite Hfact|done|].
    change (projected_attempt (closed_projection p fact updated)) with (projected_attempt p) in Hb.
    rewrite Hb. simpl. by rewrite Hproj.
Qed.

Lemma require_closures_spec l acc :
  match try_fold require_closure l acc with
  | Ok closures => (forall d, d ∈ closures <-> d ∈ acc \/ LogicalDependency d ∈ l) /\
      forall o, UnclassifiedOperation o ∉ l
  | Err _ => exists o, UnclassifiedOperation o ∈ l
  end.
Proof.
  revert acc. induction l as [|b l IH]; intros acc; simpl; [set_solver|].
  destruct b as [d|o]; simpl; [|set_solver]. specialize (IH ({[d]} ∪ acc)).
  destruct (try_fold _ l _); [|set_solver]. destruct IH as [IH1 IH2]. split; [|set_solver].
  intros x. rewrite IH1, elem_of_cons. set_solver.
Qed.

(** The facts of an applied mismatch bind to a prepared attempt exactly
    when it is the running phase of the projected attempt, that attempt has
    not started, and no physical operation is unclassified or blocking; the
    candidate then fails the turn with the exact causes and requires exactly
    the open logical dependencies to be closed. Its known-failure end is never
    rejected. *)
Theorem fatal_prepared_exact p fact facts phase :
  apply_mismatch p fact = Ok facts ->
  match bind_prepared_atomic_candidate facts phase with
  | Ok binding =>
      phase = Running (projected_attempt p) /\ attempt_state (projected_attempt p) = Prepared /\
      (forall o, ~ unfinished_in (facts_projection facts) (UnclassifiedOperation o) /\
         ~ blocking_in (facts_projection facts) o) /\
      atomic_facts binding = facts /\ atomic_source_phase binding = phase /\
      (forall d, d ∈ required_logical_closures (atomic_candidate binding) <->
         projected_dependencies p !! d = Some DependencyOpen) /\
      atomic_turn_disposition (atomic_candidate binding) = TurnFailedDisposition /\
      atomic_ended_attempt (atomic_candidate binding)
        = mkEnded (attempt_id (projected_attempt p))
            (AfterFatalMismatch (facts_causes facts) FatalKnownFailure)
  | Err (facts', phase', rejection) =>
      facts' = facts /\ phase' = phase /\
      match rejection with
      | PreparedSourcePhaseIsNotRunning => forall a, phase <> Running a
      | PreparedSourceAttemptMismatch => exists a, phase = Running a /\ a <> projected_attempt p
      | SourceAttemptIsNotPrepared =>
          phase = Running (projected_attempt p) /\ attempt_state (projected_attempt p) <> Prepared
      | PhysicalClosureIsIncomplete => exists o,
          unfinished_in (facts_projection facts) (UnclassifiedOperation o) \/
          blocking_in (facts_projection facts) o
      | PreparedAttemptEndRejected _ => False
      end
  end.
Proof.
  intros Ha. pose proof (fatal_facts p fact facts Ha) as (updated & (Hproj & Hu & Hb) & Hfact & Hd).
  unfold bind_prepared_atomic_candidate, facts_attempt. rewrite Hproj.
  destruct (running_attempt phase) as [a|] eqn:Hr; simpl; [|split_and!; [done..|by intros a ->]].
  assert (phase = Running a) as -> by (destruct phase; simpl in Hr; congruence).
  case_bool_decide as Hsame; simpl; [subst a|eauto].
  case_bool_decide as Hp; simpl; [|by split_and!].
  pose proof (require_closures_spec (elements (facts_unfinished facts)) ∅) as Hl.
  destruct (try_fold require_closure _ _) as [closures|]; simpl.
  2: { split_and!; [done..|]. destruct Hl as (o & Ho%elem_of_elements%Hu). exists o. by left. }
  destruct Hl as [Hcl Hno]. destruct (facts_blocking facts) as [refs|].
  { split_and!; [done..|]. destruct Hb as [Hne Hb]. destruct (set_choose_L _ Hne) as [o Ho].
    exists o. right. by apply Hb. }
  assert (fatal_interrupt (facts_causes facts) = NoAppliedInterrupt) as Hi.
  { unfold derived_causes in Hd. rewrite Hp in Hd. by destruct (mismatch_effect fact); [..|injection Hd as <-]. }
  unfold end_after_fatal_mismatch, end_attempt. rewrite Hp. simpl.
  rewrite bool_decide_eq_true_2 by done. simpl. split_and!; try done.
  - intros o. split; [|by apply Hb]. intros Ho. apply (Hno o). apply elem_of_elements.
    apply (Hu (UnclassifiedOperation o)). exact Ho.
  - intros d. rewrite Hcl, elem_of_elements, Hu. set_solver.
Qed.

(** ** From evidence to closure *)

(** The physical state of a call as the projection of its turn shows it. *)
Definition closure_of_call (call : ReconstitutedModelCall) (closure : IssuedOperationClosure) : Prop :=
  match call with
  | CurrentCall c => closure = Unclassified
  | EndedCall e =>
      match ended_call_disposition e with
      | CallAmbiguous => closure = PhysicallyAmbiguous Blocking \/
                         closure = PhysicallyAmbiguous ResolvedByEvidence
      | _ => closure = ClassifiedNonAmbiguous
      end
  end.

(** A fact that recorded evidence yields for a call is never refused for
    the call's physical state: if the projection owns the call and shows it as
    it is, the mismatch is applied to every started attempt, and a fact about
    a completed call to a prepared one as well. *)
Theorem sealed_fact_applies p call evidence admissions fact closure :
  fact ∈ mismatch_facts call evidence (run_admissions admissions) ->
  projected_operations p !! OperationModelCall (call_identity call) = Some closure ->
  closure_of_call call closure ->
  attempt_state (projected_attempt p) <> Prepared \/
    (exists e, call = EndedCall e /\ ended_call_disposition e = CallCompleted) ->
  exists facts, apply_mismatch p fact = Ok facts.
Proof.
  intros Hin Ho Hc Hp. set (log := run_admissions admissions) in *.
  assert (forall call i, invalidations log !! call = Some i -> invalidated_call i = call) as Hlog.
  { intros x i Hi. apply (first_invalidation_call admissions). by rewrite <- run_admissions_first. }
  assert (mismatch_affected_call fact = call_identity call /\
    (exists updated, updated_closure (mismatch_effect fact) closure = Some updated) /\
    (mismatch_effect fact = PreserveCompletedInvalidation \/
     attempt_state (projected_attempt p) <> Prepared)) as (Hcall & [updated Hu] & Heff).
  { destruct call as [c|e]; simpl in *.
    - revert Hin. unfold nonterminal_call_mismatch_fact. case_bool_decide; [by intros ?%not_elem_of_nil|].
      destruct (correlated_mismatch _ _ _); simpl; [|by intros ?%not_elem_of_nil].
      intros ->%list_elem_of_singleton. subst closure. destruct Hp as [|(e & [=] & _)]; eauto.
    - apply elem_of_app in Hin as [Hin|Hin]; revert Hin.
      + unfold terminal_ambiguity_resolution_fact. case_bool_decide as Ha; simpl; [|by intros ?%not_elem_of_nil].
        destruct (correlated_mismatch _ _ _); simpl; [|by intros ?%not_elem_of_nil].
        intros ->%list_elem_of_singleton. rewrite Ha in Hc. destruct Hp as [|(? & [= <-] & ?)]; [|congruence].
        split; [done|]. split; [destruct Hc; subst; simpl; eauto|by right].
      + unfold invalidation_admit, admit_invalidation. case_bool_decide as Ha; simpl; [|by intros ?%not_elem_of_nil].
        destruct (correlated_mismatch _ _ _); simpl; [|by intros ?%not_elem_of_nil].
        rewrite Ha in Hc. destruct (invalidations log !! ended_call_id e) as [i|] eqn:Hi.
        * case_bool_decide; simpl; [|by intros ?%not_elem_of_nil]. case_bool_decide; simpl; [|by intros ?%not_elem_of_nil].
          intros ->%list_elem_of_singleton. simpl. subst closure. rewrite (Hlog _ _ Hi). split_and!; eauto.
        * simpl. intros ->%list_elem_of_singleton. subst closure. split_and!; eauto. }
  assert (exists causes, derived_causes (attempt_state (projected_attempt p)) fact = Some causes) as [causes Hd].
  { unfold derived_causes. destruct (attempt_state (projected_attempt p)) as [| |[]]; eauto.
    destruct Heff as [->|]; [eauto|done]. }
  destruct (apply_facts p fact causes closure updated Hd) as (facts & Hf & _); [by rewrite Hcall|done|eauto].
Qed.

(** ** Concrete inputs

    The call of [sample_ambiguous_call] resolved by evidence while a tool
    attempt of the turn is still ambiguous. *)

Definition sample_work (state : CurrentTurnAttemptState) : CompleteFatalMismatchProjection :=
  mkProjection (mkAttempt (from_uuid 5) state) {[ DependencyToolRequest (from_uuid 1) := TerminallyNonDispatchable ]}
    {[ OperationModelCall (from_uuid 2) := PhysicallyAmbiguous Blocking;
       OperationToolAttempt (from_uuid 3) := PhysicallyAmbiguous Blocking ]}.
Definition sample_fact : AppliedProviderTargetMismatch :=
  mismatch_ambiguity_resolution (from_uuid 1) (from_uuid 2).
Definition sample_facts : PostEvidenceFatalMismatchFacts :=
  match apply_mismatch (sample_work AttemptRunning) sample_fact with
  | Ok facts => facts
  | Err (p, fact, _) => mkMismatchFacts p fact (fatal_causes_new (mismatch_failure fact) NoAppliedInterrupt) ∅ None
  end.

Lemma fatal_lifecycle_exact_witness :
  exists binding,
    bind_lifecycle_candidate sample_facts (Running (mkAttempt (from_uuid 5) AttemptRunning)) = Ok binding /\
    outcome_for (facts_projection sample_facts) (facts_causes sample_facts) (binding_outcome binding).
Proof.
  assert (apply_mismatch (sample_work AttemptRunning) sample_fact = Ok sample_facts) as Ha
    by (vm_compute; reflexivity).
  pose proof (fatal_lifecycle_exact (sample_work AttemptRunning) sample_fact sample_facts
    (Running (mkAttempt (from_uuid 5) AttemptRunning)) Ha) as Hb.
  destruct (bind_lifecycle_candidate sample_facts _) as [binding|[[? ?] r]] eqn:Hr.
  - exists binding. split; [reflexivity|]. apply Hb.
  - vm_compute in Hr. discriminate.
Defined.

Definition sample_invalidation : AppliedProviderTargetMismatch :=
  mismatch_completed_invalidation (from_uuid 2).
Definition sample_prepared_work : CompleteFatalMismatchProjection :=
  mkProjection (mkAttempt (from_uuid 5) Prepared) {[ DependencyToolRequest (from_uuid 1) := DependencyOpen ]}
    {[ OperationModelCall (from_uuid 2) := ClassifiedNonAmbiguous ]}.

Lemma fatal_prepared_exact_witness :
  exists facts binding, apply_mismatch sample_prepared_work sample_invalidation = Ok facts /\
    bind_prepared_atomic_candidate facts (Running (mkAttempt (from_uuid 5) Prepared)) = Ok binding /\
    atomic_turn_disposition (atomic_candidate binding) = TurnFailedDisposition.
Proof.
  destruct (apply_mismatch sample_prepared_work sample_invalidation) as [facts|] eqn:Ha;
    [|vm_compute in Ha; discriminate].
  pose proof (fatal_prepared_exact sample_prepared_work sample_invalidation facts
    (Running (mkAttempt (from_uuid 5) Prepared)) Ha) as Hb.
  vm_compute in Ha. injection Ha as Ha.
  destruct (bind_prepared_atomic_candidate facts _) as [binding|[[? ?] r]] eqn:Hr.
  - exists facts, binding. split; [reflexivity|]. split; [exact Hr|]. apply Hb.
  - rewrite <- Ha in Hr. vm_compute in Hr. discriminate.
Defined.

Lemma sealed_fact_applies_witness :
  exists facts, apply_mismatch (sample_work AttemptRunning) sample_fact = Ok facts.
Proof.
  apply (sealed_fact_applies (sample_work AttemptRunning) sample_ambiguous_call
    (requested_evidence sample_observed) [] sample_fact (PhysicallyAmbiguous Blocking)).
  - left.
  - reflexivity.
  - by left.
  - by left.
Defined.
