(* ===== verification/Delegation.v ===== *)
(** * Delegated sessions

    Model of [crates/domain/src/session_delegation/]: the content exchanged
    between a parent and a child session, the sealed tool requests, the
    outcomes of a child with their provenance, the relation with its ordered
    event history and transitions, and the reconstitution of a stored history.
    The text of [user_content.rs] it is made of comes first.

    JSON and the printing of a UUID are third-party code: the class [SerdeJson]
    is what the code calls of them. *)

From stdpp Require Import strings.
From S2P Require Import Prelude Goal Configuration Tool ToolAttempt.

(** ** Text *)

Record NonEmptyUnicodeText := mkUnicodeText { unicode_text : string }.

Inductive NonEmptyUnicodeTextFailure := UnicodeEmpty | UnicodeContainsNull | UnicodeTooLong.

#[export] Instance NonEmptyUnicodeText_eq_dec : EqDecision NonEmptyUnicodeText.
Proof. solve_decision. Defined.

Definition unicode_text_try_new (value : string) :
    result (string * NonEmptyUnicodeTextFailure) NonEmptyUnicodeText :=
  let failure :=
    if bool_decide (value = EmptyString) then Some UnicodeEmpty
    else if contains_null value then Some UnicodeContainsNull else None in
  match failure with
  | Some failure => Err (value, failure)
  | None => Ok (mkUnicodeText value)
  end.

(** [AssistantText] of semantic_entry.rs *)
Record AssistantText := mkAssistantText { assistant_text : NonEmptyUnicodeText }.

#[export] Instance AssistantText_eq_dec : EqDecision AssistantText.
Proof. solve_decision. Defined.

Definition assistant_text_try_new (value : string) :
    result (string * NonEmptyUnicodeTextFailure) AssistantText :=
  mkAssistantText <$> unicode_text_try_new value.

Definition assistant_text_str (self : AssistantText) : string := unicode_text (assistant_text self).

(** ** Content *)

Record DelegationContent := mkDelegationContent { delegation_text : NonEmptyUnicodeText }.

#[export] Instance DelegationContent_eq_dec : EqDecision DelegationContent.
Proof. solve_decision. Defined.

Definition MAX_CONTENT_UTF8_BYTES : N := 1048576.

Inductive DelegationContentFailure :=
| ContentInvalid (failure : NonEmptyUnicodeTextFailure)
| ContentOversized (utf8_byte_length : N).

(** [DelegationContentError]: the rejected string and the failure. *)
Definition DelegationContentError : Type := string * DelegationContentFailure.

Definition delegation_content_try_new (value : string) :
    result DelegationContentError DelegationContent :=
  if (MAX_CONTENT_UTF8_BYTES <? utf8_len value)%N
  then Err (value, ContentOversized (utf8_len value)) else
  map_err (fun '(value, failure) => (value, ContentInvalid failure))
    (mkDelegationContent <$> unicode_text_try_new value).

Definition delegation_content_str (self : DelegationContent) : string :=
  unicode_text (delegation_text self).

(** The loop that pushes every part onto one string. *)
Definition push_parts (parts : list AssistantText) : string :=
  foldl (fun value part => value +:+ assistant_text_str part) EmptyString parts.

(** [iter().sum()] of the byte lengths; the sum is an address-space size and
    stays far below [usize::MAX]. *)
Definition parts_len (parts : list AssistantText) : N :=
  foldl (fun total part => total + utf8_len (assistant_text_str part))%N 0%N parts.

Definition from_assistant_text (parts : list AssistantText) :
    result DelegationContentError DelegationContent :=
  let utf8_byte_length := parts_len parts in
  if (MAX_CONTENT_UTF8_BYTES <? utf8_byte_length)%N
  then Err (push_parts parts, ContentOversized utf8_byte_length)
  else delegation_content_try_new (push_parts parts).

Definition delegation_content_digest `{Sha256} (content : DelegationContent) : N :=
  sha256_digest (delegation_content_str content).

(** ** Vocabulary *)

Inductive BoundChildAction := KeepRunning | StopChild | CancelChild.

Inductive ChildRelationshipPolicy :=
| BackgroundPolicy
| BoundPolicy (on_parent_stopped on_parent_cancelled : BoundChildAction).

Inductive DelegationWaitMode := ForegroundWait | BackgroundWait.

Inductive ParentTerminationKind := KindStopped | KindCancelled.

Inductive ParentTerminationCommandSource :=
| SourceTurn (turn : TurnId)
| SourceGoal (generation : GoalGeneration)
| SourceLifecycle.

Record ParentTerminationAuthority := mkTermination {
  termination_parent : SessionId;
  termination_source : ParentTerminationCommandSource;
  termination_command : DurableCommandId;
  termination_kind : ParentTerminationKind;
  termination_scope : DescendantTerminationScope;
}.

#[export] Instance DescendantTerminationScope_eq_dec : EqDecision DescendantTerminationScope.
Proof. solve_decision. Defined.
#[export] Instance BoundChildAction_eq_dec : EqDecision BoundChildAction.
Proof. solve_decision. Defined.
#[export] Instance ChildRelationshipPolicy_eq_dec : EqDecision ChildRelationshipPolicy.
Proof. solve_decision. Defined.
#[export] Instance DelegationWaitMode_eq_dec : EqDecision DelegationWaitMode.
Proof. solve_decision. Defined.
#[export] Instance ParentTerminationKind_eq_dec : EqDecision ParentTerminationKind.
Proof. solve_decision. Defined.
#[export] Instance ParentTerminationCommandSource_eq_dec : EqDecision ParentTerminationCommandSource.
Proof. solve_decision. Defined.
#[export] Instance ParentTerminationAuthority_eq_dec : EqDecision ParentTerminationAuthority.
Proof. solve_decision. Defined.

(** ** Sealed tool requests *)

(** [serde_json] with the [to_string] of a UUID: a parsed value, [json!] of a
    string and of an object literal, and the parser. *)
Class SerdeJson := {
  json : Type;
  json_eq_dec :: EqDecision json;
  json_from_str : text -> option json;
  json_string : string -> json;
  json_object : list (string * json) -> json;
  uuid_to_string : N -> string;
}.

Inductive DelegationRequestFailure :=
| InvalidToolRequestPurpose
| InvalidContent (error : DelegationContentError).

Definition DelegationRequestError : Type := ToolRequest * DelegationRequestFailure.

Record DelegatedSpawnRequest := mkSpawnRequest {
  spawn_tool_request : ToolRequest;
  spawn_task : DelegationContent;
  spawn_policy : ChildRelationshipPolicy;
}.

Record DelegationAwaitRequest := mkAwaitRequest {
  await_tool_request : ToolRequest;
  await_child : SessionId;
  await_mode : DelegationWaitMode;
}.

Record DelegationMessageRequest := mkMessageRequest {
  message_tool_request : ToolRequest;
  message_request_peer : SessionId;
  message_request_content : DelegationContent;
}.

#[export] Instance DelegatedSpawnRequest_eq_dec : EqDecision DelegatedSpawnRequest.
Proof. solve_decision. Defined.

Section requests.
Context `{SerdeJson}.
Local Open Scope string_scope.

Definition invalid_request (request : ToolRequest) : DelegationRequestError :=
  (request, InvalidToolRequestPurpose).

Definition parse_arguments (request : ToolRequest) (expected_name : string) :
    result DelegationRequestError json :=
  if negb (bool_decide (tool_name_value (request_name request) = lit expected_name))
  then Err (invalid_request request)
  else ok_or (json_from_str (arguments_value (request_arguments request))) (invalid_request request).

Definition action_argument (action : BoundChildAction) : string :=
  match action with
  | KeepRunning => "keep_running"
  | StopChild => "stop"
  | CancelChild => "cancel"
  end.

Definition relationship_argument (policy : ChildRelationshipPolicy) : json :=
  match policy with
  | BackgroundPolicy => json_object [("kind", json_string "background")]
  | BoundPolicy on_parent_stopped on_parent_cancelled =>
      json_object
        [("kind", json_string "bound");
         ("on_parent_cancelled", json_string (action_argument on_parent_cancelled));
         ("on_parent_stopped", json_string (action_argument on_parent_stopped))]
  end.

Definition wait_mode_argument (mode : DelegationWaitMode) : string :=
  match mode with ForegroundWait => "foreground" | BackgroundWait => "background" end.

Definition spawn_request_parse (request : ToolRequest) (task : string)
    (policy : ChildRelationshipPolicy) : result DelegationRequestError DelegatedSpawnRequest :=
  value ← parse_arguments request "spawn_session";
  task ← map_err (fun failure => (request, InvalidContent failure)) (delegation_content_try_new task);
  if negb (bool_decide (value = json_object
       [("relationship", relationship_argument policy);
        ("task", json_string (delegation_content_str task))]))
  then Err (invalid_request request)
  else Ok (mkSpawnRequest request task policy).

Definition await_request_parse (request : ToolRequest) (child : SessionId)
    (mode : DelegationWaitMode) : result DelegationRequestError DelegationAwaitRequest :=
  value ← parse_arguments request "await_session";
  if negb (bool_decide (value = json_object
       [("child_session_id", json_string (uuid_to_string (as_uuid child)));
        ("mode", json_string (wait_mode_argument mode))]))
  then Err (invalid_request request)
  else Ok (mkAwaitRequest request child mode).

Definition message_request_parse (request : ToolRequest) (peer : SessionId) (content : string) :
    result DelegationRequestError DelegationMessageRequest :=
  value ← parse_arguments request "send_session_message";
  content ← map_err (fun failure => (request, InvalidContent failure))
              (delegation_content_try_new content);
  if negb (bool_decide (value = json_object
       [("content", json_string (delegation_content_str content));
        ("peer_session_id", json_string (uuid_to_string (as_uuid peer)))]))
  then Err (invalid_request request)
  else Ok (mkMessageRequest request peer content).
End requests.

(** ** Outcomes *)

Inductive DelegationOutcomeReason :=
| ReasonChildCompleted
| ReasonChildExecutionFailed
| ReasonChildResultUnavailable
| ReasonChildCancelled
| ParentStopped (scope : DescendantTerminationScope)
| ParentCancelled (scope : DescendantTerminationScope).

Inductive DelegationOutcomeKind :=
| ResultReturned | ChildFailed | ChildStopped | ChildCancelled | AlreadyTerminal | ContinueRunning.

Inductive TerminalChildTurnKind := TerminalReturned | TerminalFailed | TerminalCancelled.

Record TerminalChildTurn := mkTerminalChild {
  terminal_session : SessionId;
  terminal_turn : TurnId;
  terminal_kind : TerminalChildTurnKind;
  terminal_reason : DelegationOutcomeReason;
  terminal_result_digest : option N;
}.

Inductive DelegationToolRequestPurpose := PurposeSpawn | PurposeAwait | PurposeSendMessage.

Inductive DelegationProvenanceKind :=
| ProvenanceToolRequest (source_session : SessionId) (source_turn : TurnId)
    (request : ToolRequestId) (purpose : DelegationToolRequestPurpose)
| ProvenanceChildTurn (terminal : TerminalChildTurn)
| ProvenanceParentCommand (authority : ParentTerminationAuthority).

Record DelegationProvenance := mkProvenance { provenance_kind : DelegationProvenanceKind }.

#[export] Instance DelegationOutcomeReason_eq_dec : EqDecision DelegationOutcomeReason.
Proof. solve_decision. Defined.
#[export] Instance DelegationOutcomeKind_eq_dec : EqDecision DelegationOutcomeKind.
Proof. solve_decision. Defined.
#[export] Instance TerminalChildTurnKind_eq_dec : EqDecision TerminalChildTurnKind.
Proof. solve_decision. Defined.
#[export] Instance TerminalChildTurn_eq_dec : EqDecision TerminalChildTurn.
Proof. solve_decision. Defined.
#[export] Instance DelegationToolRequestPurpose_eq_dec : EqDecision DelegationToolRequestPurpose.
Proof. solve_decision. Defined.
#[export] Instance DelegationProvenanceKind_eq_dec : EqDecision DelegationProvenanceKind.
Proof. solve_decision. Defined.
#[export] Instance DelegationProvenance_eq_dec : EqDecision DelegationProvenance.
Proof. solve_decision. Defined.

Definition from_request (request : ToolRequest) (purpose : DelegationToolRequestPurpose) :
    DelegationProvenance :=
  mkProvenance (ProvenanceToolRequest (request_session request) (request_turn request)
                  (request_id request) purpose).
Definition from_spawn (request : DelegatedSpawnRequest) : DelegationProvenance :=
  from_request (spawn_tool_request request) PurposeSpawn.
Definition from_await (request : DelegationAwaitRequest) : DelegationProvenance :=
  from_request (await_tool_request request) PurposeAwait.
Definition from_message (request : DelegationMessageRequest) : DelegationProvenance :=
  from_request (message_tool_request request) PurposeSendMessage.
Definition from_terminal_child_provenance (terminal : TerminalChildTurn) : DelegationProvenance :=
  mkProvenance (ProvenanceChildTurn terminal).
Definition from_parent_termination (authority : ParentTerminationAuthority) : DelegationProvenance :=
  mkProvenance (ProvenanceParentCommand authority).

(** [DelegationProvenance::tool_request] *)
Definition provenance_tool_request (self : DelegationProvenance) :
    option (SessionId * TurnId * ToolRequestId) :=
  match provenance_kind self with
  | ProvenanceToolRequest source_session source_turn request _ =>
      Some (source_session, source_turn, request)
  | _ => None
  end.
(** [DelegationProvenance::child_turn] *)
Definition provenance_child_turn (self : DelegationProvenance) : option (SessionId * TurnId) :=
  match provenance_kind self with
  | ProvenanceChildTurn terminal => Some (terminal_session terminal, terminal_turn terminal)
  | _ => None
  end.
(** [DelegationProvenance::parent_command] *)
Definition parent_command (self : DelegationProvenance) : option ParentTerminationAuthority :=
  match provenance_kind self with
  | ProvenanceParentCommand authority => Some authority
  | _ => None
  end.

Inductive DelegationOutcomeProvenance :=
| OutcomeChildTurn (terminal : TerminalChildTurn)
| OutcomeParentCommand (authority : ParentTerminationAuthority).

#[export] Instance DelegationOutcomeProvenance_eq_dec : EqDecision DelegationOutcomeProvenance.
Proof. solve_decision. Defined.

Record DelegationOutcome := mkOutcome {
  outcome_kind : DelegationOutcomeKind;
  outcome_content : option DelegationContent;
  outcome_reason : DelegationOutcomeReason;
  outcome_sealed : DelegationOutcomeProvenance;
}.

#[export] Instance DelegationOutcome_eq_dec : EqDecision DelegationOutcome.
Proof. solve_decision. Defined.

(** [DelegationOutcome::provenance] *)
Definition outcome_provenance (self : DelegationOutcome) : DelegationProvenance :=
  match outcome_sealed self with
  | OutcomeChildTurn terminal => from_terminal_child_provenance terminal
  | OutcomeParentCommand authority => from_parent_termination authority
  end.

(** The terminal turns of model_execution.rs are read through their session
    and turn. *)
Definition terminal_from_failed (session : SessionId) (turn : TurnId) : TerminalChildTurn :=
  mkTerminalChild session turn TerminalFailed ReasonChildExecutionFailed None.
Definition terminal_from_reconciliation_required (session : SessionId) (turn : TurnId) :
    TerminalChildTurn :=
  mkTerminalChild session turn TerminalFailed ReasonChildResultUnavailable None.
Definition terminal_from_cancelled (session : SessionId) (turn : TurnId) : TerminalChildTurn :=
  mkTerminalChild session turn TerminalCancelled ReasonChildCancelled None.
Definition terminal_from_cancelled_tool_round (session : SessionId) (turn : TurnId) :
    TerminalChildTurn :=
  mkTerminalChild session turn TerminalCancelled ReasonChildCancelled None.
Definition terminal_from_refused (session : SessionId) (turn : TurnId) : TerminalChildTurn :=
  mkTerminalChild session turn TerminalFailed ReasonChildExecutionFailed None.

Definition terminal_from_completed_content `{Sha256} (session : SessionId) (turn : TurnId)
    (content : option DelegationContent) : TerminalChildTurn :=
  let '(kind, reason, result_digest) :=
    match content with
    | Some content =>
        (TerminalReturned, ReasonChildCompleted, Some (delegation_content_digest content))
    | None => (TerminalFailed, ReasonChildResultUnavailable, None)
    end in
  mkTerminalChild session turn kind reason result_digest.

(** [DelegationOutcome::from_completed_child], from the content of the live turn. *)
Definition from_completed_child `{Sha256} (session : SessionId) (turn : TurnId)
    (content : option DelegationContent) : DelegationOutcome :=
  let terminal := terminal_from_completed_content session turn content in
  mkOutcome (match content with Some _ => ResultReturned | None => ChildFailed end) content
    (terminal_reason terminal) (OutcomeChildTurn terminal).

Definition failed_child (terminal : TerminalChildTurn) : DelegationOutcome :=
  mkOutcome ChildFailed None (terminal_reason terminal) (OutcomeChildTurn terminal).
Definition cancelled_child (terminal : TerminalChildTurn) : DelegationOutcome :=
  mkOutcome ChildCancelled None (terminal_reason terminal) (OutcomeChildTurn terminal).

(** [DelegationOutcome::from_terminal_child] *)
Definition from_terminal_child `{Sha256} (terminal : TerminalChildTurn)
    (content : option DelegationContent) : option DelegationOutcome :=
  kind ←
    match terminal_kind terminal with
    | TerminalReturned =>
        match terminal_reason terminal, content with
        | ReasonChildCompleted, Some content =>
            if bool_decide (terminal_result_digest terminal = Some (delegation_content_digest content))
            then Some ResultReturned else None
        | _, _ => None
        end
    | TerminalFailed =>
        match terminal_reason terminal, content with
        | ReasonChildExecutionFailed, None | ReasonChildResultUnavailable, None => Some ChildFailed
        | _, _ => None
        end
    | TerminalCancelled =>
        match terminal_reason terminal, content with
        | ReasonChildCancelled, None => Some ChildCancelled
        | _, _ => None
        end
    end;
  Some (mkOutcome kind content (terminal_reason terminal) (OutcomeChildTurn terminal)).

(** The reason both constructors derive from the authority's kind. *)
Definition termination_reason (authority : ParentTerminationAuthority) : DelegationOutcomeReason :=
  match termination_kind authority with
  | KindStopped => ParentStopped ParentAndDescendants
  | KindCancelled => ParentCancelled ParentAndDescendants
  end.

Definition from_parent_policy (authority : ParentTerminationAuthority) (action : BoundChildAction) :
    option DelegationOutcome :=
  match termination_scope authority with
  | ParentAlone => None
  | ParentAndDescendants =>
      let kind :=
        match action with
        | KeepRunning => ContinueRunning
        | StopChild => ChildStopped
        | CancelChild => ChildCancelled
        end in
      Some (mkOutcome kind None (termination_reason authority) (OutcomeParentCommand authority))
  end.

Definition from_parent_already_terminal (authority : ParentTerminationAuthority) :
    option DelegationOutcome :=
  match termination_scope authority with
  | ParentAlone => None
  | ParentAndDescendants =>
      Some (mkOutcome AlreadyTerminal None (termination_reason authority)
              (OutcomeParentCommand authority))
  end.

Inductive DelegationProvenanceReconstitutionInput :=
| StoredChildTurn (session : SessionId) (turn : TurnId)
| StoredParentTurnCommand (session : SessionId) (turn : TurnId) (command : DurableCommandId)
| StoredParentGoalCommand (session : SessionId) (generation : GoalGeneration)
    (command : DurableCommandId)
| StoredParentLifecycleCommand (session : SessionId) (command : DurableCommandId).

(** [DelegationOutcome::reconstitution_provenance] *)
Definition reconstitution_provenance (self : DelegationOutcome) :
    DelegationProvenanceReconstitutionInput :=
  match outcome_sealed self with
  | OutcomeChildTurn terminal => StoredChildTurn (terminal_session terminal) (terminal_turn terminal)
  | OutcomeParentCommand authority =>
      match termination_source authority with
      | SourceTurn turn =>
          StoredParentTurnCommand (termination_parent authority) turn (termination_command authority)
      | SourceGoal generation =>
          StoredParentGoalCommand (termination_parent authority) generation
            (termination_command authority)
      | SourceLifecycle =>
          StoredParentLifecycleCommand (termination_parent authority) (termination_command authority)
      end
  end.

Definition reconstitute_parent_outcome (kind : DelegationOutcomeKind)
    (content : option DelegationContent) (reason : DelegationOutcomeReason) (parent : SessionId)
    (source : ParentTerminationCommandSource) (command : DurableCommandId) :
    option DelegationOutcome :=
  if bool_decide (is_Some content) then None else
  termination_kind ←
    match reason with
    | ParentStopped ParentAndDescendants => Some KindStopped
    | ParentCancelled ParentAndDescendants => Some KindCancelled
    | _ => None
    end;
  let authority := mkTermination parent source command termination_kind ParentAndDescendants in
  match kind with
  | AlreadyTerminal => from_parent_already_terminal authority
  | ContinueRunning => from_parent_policy authority KeepRunning
  | ChildStopped => from_parent_policy authority StopChild
  | ChildCancelled => from_parent_policy authority CancelChild
  | ResultReturned | ChildFailed => None
  end.

(** [DelegationOutcome::reconstitute] *)
Definition outcome_reconstitute `{Sha256} (kind : DelegationOutcomeKind)
    (content : option DelegationContent) (reason : DelegationOutcomeReason)
    (provenance : DelegationProvenanceReconstitutionInput) : option DelegationOutcome :=
  match provenance with
  | StoredChildTurn session turn =>
      '(terminal_kind, result_digest) ←
        match kind, reason, content with
        | ResultReturned, ReasonChildCompleted, Some content =>
            Some (TerminalReturned, Some (delegation_content_digest content))
        | ChildFailed, ReasonChildExecutionFailed, None
        | ChildFailed, ReasonChildResultUnavailable, None => Some (TerminalFailed, None)
        | ChildCancelled, ReasonChildCancelled, None => Some (TerminalCancelled, None)
        | _, _, _ => None
        end;
      from_terminal_child (mkTerminalChild session turn terminal_kind reason result_digest) content
  | StoredParentTurnCommand session turn command =>
      reconstitute_parent_outcome kind content reason session (SourceTurn turn) command
  | StoredParentGoalCommand session generation command =>
      reconstitute_parent_outcome kind content reason session (SourceGoal generation) command
  | StoredParentLifecycleCommand session command =>
      reconstitute_parent_outcome kind content reason session SourceLifecycle command
  end.

(** ** Events *)

Record DelegationEventOrdinal := mkEventOrdinal { event_ordinal_get : positive }.

Definition event_ordinal_first : DelegationEventOrdinal := mkEventOrdinal 1.
Definition event_ordinal_successor (self : DelegationEventOrdinal) : option DelegationEventOrdinal :=
  mkEventOrdinal <$> nonzero_u64_checked_add (event_ordinal_get self) 1.

Inductive DelegationMessageDirection := ParentToChild | ChildToParent.

Record DelegationMessage := mkMessage {
  message_id : DelegationMessageId;
  message_direction : DelegationMessageDirection;
  message_peer : SessionId;
  message_content : DelegationContent;
  message_provenance : DelegationProvenance;
}.

(** [DelegationMessage::reconstitute] with its [DelegationMessageEndpoints]. *)
Definition message_reconstitute (request : DelegationMessageRequest) (id : DelegationMessageId)
    (direction : DelegationMessageDirection) (parent child : SessionId) :
    option DelegationMessage :=
  let session := request_session (message_tool_request request) in
  let endpoints_match :=
    match direction with
    | ParentToChild =>
        bool_decide (session = parent) && bool_decide (message_request_peer request = child)
    | ChildToParent =>
        bool_decide (session = child) && bool_decide (message_request_peer request = parent)
    end in
  if endpoints_match
  then Some (mkMessage id direction (message_request_peer request)
               (message_request_content request) (from_message request))
  else None.

Inductive DelegationEvent :=
| EventSpawned (ordinal : DelegationEventOrdinal) (provenance : DelegationProvenance)
| EventMessageDelivered (ordinal : DelegationEventOrdinal) (message : DelegationMessage)
| EventOutcomeRecorded (ordinal : DelegationEventOrdinal) (outcome : DelegationOutcome).

Inductive DelegationLifecycle := LifecycleActive | LifecycleTerminal.

#[export] Instance DelegationEventOrdinal_eq_dec : EqDecision DelegationEventOrdinal.
Proof. solve_decision. Defined.
#[export] Instance DelegationMessageDirection_eq_dec : EqDecision DelegationMessageDirection.
Proof. solve_decision. Defined.
#[export] Instance DelegationMessage_eq_dec : EqDecision DelegationMessage.
Proof. solve_decision. Defined.
#[export] Instance DelegationEvent_eq_dec : EqDecision DelegationEvent.
Proof. solve_decision. Defined.
#[export] Instance DelegationLifecycle_eq_dec : EqDecision DelegationLifecycle.
Proof. solve_decision. Defined.

(** [DelegationEvent::ordinal], [::message] and [::outcome] *)
Definition delegation_event_ordinal (self : DelegationEvent) : DelegationEventOrdinal :=
  match self with
  | EventSpawned ordinal _ | EventMessageDelivered ordinal _ | EventOutcomeRecorded ordinal _ =>
      ordinal
  end.
Definition event_message (self : DelegationEvent) : option DelegationMessage :=
  match self with EventMessageDelivered _ message => Some message | _ => None end.
Definition event_outcome (self : DelegationEvent) : option DelegationOutcome :=
  match self with EventOutcomeRecorded _ outcome => Some outcome | _ => None end.

(** ** The relation *)

Record SessionDelegation := mkDelegation {
  delegation_spawning_request : ToolRequestId;
  delegation_parent : SessionId;
  delegation_child : SessionId;
  delegation_child_turn : TurnId;
  delegation_task : DelegationContent;
  delegation_policy : ChildRelationshipPolicy;
  delegation_lifecycle : DelegationLifecycle;
  delegation_events : list DelegationEvent;
}.

Record DelegationRelationIdentity := mkRelationIdentity {
  identity_spawning_request : ToolRequestId;
  identity_parent : SessionId;
  identity_child : SessionId;
  identity_child_turn : TurnId;
  identity_policy : ChildRelationshipPolicy;
}.

Definition from_relation (relation : SessionDelegation) : DelegationRelationIdentity :=
  mkRelationIdentity (delegation_spawning_request relation) (delegation_parent relation)
    (delegation_child relation) (delegation_child_turn relation) (delegation_policy relation).

Definition parent_evaluation_matches (relation : DelegationRelationIdentity)
    (outcome : DelegationOutcome) (reason : DelegationOutcomeReason) : bool :=
  match provenance_kind (outcome_provenance outcome), reason with
  | ProvenanceParentCommand authority, ParentStopped ParentAndDescendants =>
      bool_decide (termination_parent authority = identity_parent relation)
      && bool_decide (termination_kind authority = KindStopped)
      && bool_decide (termination_scope authority = ParentAndDescendants)
  | ProvenanceParentCommand authority, ParentCancelled ParentAndDescendants =>
      bool_decide (termination_parent authority = identity_parent relation)
      && bool_decide (termination_kind authority = KindCancelled)
      && bool_decide (termination_scope authority = ParentAndDescendants)
  | _, _ => false
  end.

Definition descendant_action (policy : ChildRelationshipPolicy) (reason : DelegationOutcomeReason) :
    option BoundChildAction :=
  match policy, reason with
  | BackgroundPolicy, (ParentStopped ParentAndDescendants | ParentCancelled ParentAndDescendants) =>
      Some KeepRunning
  | BoundPolicy on_parent_stopped _, ParentStopped ParentAndDescendants => Some on_parent_stopped
  | BoundPolicy _ on_parent_cancelled, ParentCancelled ParentAndDescendants =>
      Some on_parent_cancelled
  | _, _ => None
  end.

Definition parent_outcome_matches (relation : DelegationRelationIdentity)
    (outcome : DelegationOutcome) (reason : DelegationOutcomeReason)
    (expected_action : BoundChildAction) : bool :=
  parent_evaluation_matches relation outcome reason
  && bool_decide (descendant_action (identity_policy relation) reason = Some expected_action).

Definition child_matches (relation : DelegationRelationIdentity) (outcome : DelegationOutcome) :
    bool :=
  match provenance_child_turn (outcome_provenance outcome) with
  | Some (child, turn) =>
      bool_decide (child = identity_child relation)
      && bool_decide (turn = identity_child_turn relation)
  | None => false
  end.

Definition outcome_matches_relation (relation : DelegationRelationIdentity)
    (outcome : DelegationOutcome) : bool :=
  let reason := outcome_reason outcome in
  match outcome_kind outcome with
  | ResultReturned => bool_decide (reason = ReasonChildCompleted) && child_matches relation outcome
  | ChildFailed =>
      match reason with
      | ReasonChildExecutionFailed | ReasonChildResultUnavailable => child_matches relation outcome
      | _ => false
      end
  | ChildStopped => parent_outcome_matches relation outcome reason StopChild
  | ChildCancelled =>
      if bool_decide (reason = ReasonChildCancelled) then child_matches relation outcome
      else parent_outcome_matches relation outcome reason CancelChild
  | ContinueRunning => parent_outcome_matches relation outcome reason KeepRunning
  | AlreadyTerminal => parent_evaluation_matches relation outcome reason
  end.

(** The kinds that are the child's own end. *)
Definition is_child_terminal (outcome : DelegationOutcome) : bool :=
  match outcome_kind outcome with
  | ResultReturned | ChildFailed | ChildStopped | ChildCancelled => true
  | AlreadyTerminal | ContinueRunning => false
  end.

Definition recorded_outcomes (events : list DelegationEvent) : list DelegationOutcome :=
  omap event_outcome events.
Definition delivered_messages (events : list DelegationEvent) : list DelegationMessage :=
  omap event_message events.

Definition has_child_terminal_outcome (relation : SessionDelegation) : bool :=
  existsb is_child_terminal (recorded_outcomes (delegation_events relation)).

Definition dispatch_matches (request : ToolRequest) (dispatch : ToolDispatchAuthority) : bool :=
  bool_decide (authority_request dispatch = request).

(** *** Transitions *)

Inductive DelegationTransitionFailure :=
| TransitionSameSession
| TransitionAlreadyTerminal
| TransitionMissingSpawnEvent
| TransitionInvalidProvenance
| TransitionDescendantsNotSelected
| TransitionDuplicateMessageIdentity
| ConflictingMessageReplay
| TransitionDuplicateOutcomeAuthority
| TransitionOutcomeReasonMismatch
| EventOrdinalExhausted.

Inductive RejectedDelegationTransition :=
| RejectedSpawn (request : DelegatedSpawnRequest) (child : SessionId) (child_turn : TurnId)
| RejectedDeliverMessage (relation : SessionDelegation) (request : DelegationMessageRequest)
    (id : DelegationMessageId)
| RejectedRecordOutcome (relation : SessionDelegation) (outcome : DelegationOutcome)
| RejectedRecordParentTermination (relation : SessionDelegation)
    (authority : ParentTerminationAuthority).

Record DelegationTransitionError := mkTransitionError {
  transition_spawning_request : ToolRequestId;
  transition_failure : DelegationTransitionFailure;
  transition_rejected : option RejectedDelegationTransition;
}.

Abbreviation transition := (result DelegationTransitionError).

Definition delegation_fail (self : SessionDelegation) (failure : DelegationTransitionFailure) :
    DelegationTransitionError :=
  mkTransitionError (delegation_spawning_request self) failure None.
Definition reject_message (relation : SessionDelegation) (request : DelegationMessageRequest)
    (id : DelegationMessageId) (failure : DelegationTransitionFailure) : DelegationTransitionError :=
  mkTransitionError (delegation_spawning_request relation) failure
    (Some (RejectedDeliverMessage relation request id)).
Definition reject_outcome (relation : SessionDelegation) (outcome : DelegationOutcome)
    (failure : DelegationTransitionFailure) : DelegationTransitionError :=
  mkTransitionError (delegation_spawning_request relation) failure
    (Some (RejectedRecordOutcome relation outcome)).
Definition reject_parent_termination (relation : SessionDelegation)
    (authority : ParentTerminationAuthority) (failure : DelegationTransitionFailure) :
    DelegationTransitionError :=
  mkTransitionError (delegation_spawning_request relation) failure
    (Some (RejectedRecordParentTermination relation authority)).

Record DelegationWait := mkWait {
  delegation_wait_awaiting_request : ToolRequestId;
  delegation_wait_spawning_request : ToolRequestId;
  delegation_wait_parent : SessionId;
  delegation_wait_child : SessionId;
  delegation_wait_mode : DelegationWaitMode;
}.

Definition register_wait (self : SessionDelegation) (awaiting_request : DelegationAwaitRequest)
    (dispatch : ToolDispatchAuthority) : transition DelegationWait :=
  let request := await_tool_request awaiting_request in
  if negb (dispatch_matches request dispatch)
     || negb (bool_decide (request_session request = delegation_parent self))
     || bool_decide (request_id request = delegation_spawning_request self)
     || negb (bool_decide (await_child awaiting_request = delegation_child self))
  then Err (delegation_fail self TransitionInvalidProvenance)
  else Ok (mkWait (request_id request) (delegation_spawning_request self) (delegation_parent self)
             (delegation_child self) (await_mode awaiting_request)).

(** [DelegationWait::reconstitute_stored] and [::reconstitute] *)
Definition wait_reconstitute_stored (awaiting_request : DelegationAwaitRequest)
    (spawning_request : ToolRequestId) (parent child : SessionId) (mode : DelegationWaitMode) :
    option DelegationWait :=
  let request := await_tool_request awaiting_request in
  if bool_decide (request_session request = parent)
     && negb (bool_decide (parent = child))
     && negb (bool_decide (request_id request = spawning_request))
     && bool_decide (await_child awaiting_request = child)
     && bool_decide (await_mode awaiting_request = mode)
  then Some (mkWait (request_id request) spawning_request parent child mode)
  else None.
Definition wait_reconstitute (relation : SessionDelegation)
    (awaiting_request : DelegationAwaitRequest) : option DelegationWait :=
  wait_reconstitute_stored awaiting_request (delegation_spawning_request relation)
    (delegation_parent relation) (delegation_child relation) (await_mode awaiting_request).

Definition foreground_subject (self : DelegationWait) : option ChildWait :=
  match delegation_wait_mode self with
  | ForegroundWait =>
      Some (mkChildWait (delegation_wait_awaiting_request self)
              (delegation_wait_spawning_request self) (delegation_wait_child self))
  | BackgroundWait => None
  end.

(** [SessionDelegation::next_ordinal] *)
Definition delegation_next_ordinal (self : SessionDelegation) :
    result DelegationTransitionFailure DelegationEventOrdinal :=
  last_event ← ok_or (last (delegation_events self)) TransitionMissingSpawnEvent;
  ok_or (event_ordinal_successor (delegation_event_ordinal last_event)) EventOrdinalExhausted.

(** The pushes of an event, with the lifecycle that results. *)
Definition push_delegation_event (self : SessionDelegation) (event : DelegationEvent)
    (lifecycle : DelegationLifecycle) : SessionDelegation :=
  mkDelegation (delegation_spawning_request self) (delegation_parent self) (delegation_child self)
    (delegation_child_turn self) (delegation_task self) (delegation_policy self) lifecycle
    (delegation_events self ++ [event]).

(** The sender's direction, when it is an endpoint that addresses the other. *)
Definition sender_direction (self : SessionDelegation) (source peer : SessionId) :
    option DelegationMessageDirection :=
  if bool_decide (source = delegation_parent self) && bool_decide (peer = delegation_child self)
  then Some ParentToChild
  else if bool_decide (source = delegation_child self) && bool_decide (peer = delegation_parent self)
  then Some ChildToParent else None.

(** The message of this event was sent by this request. *)
Definition sent_by (request : ToolRequestId) (event : DelegationEvent) : bool :=
  match event_message event with
  | Some message =>
      match provenance_tool_request (message_provenance message) with
      | Some (_, _, sender) => bool_decide (sender = request)
      | None => false
      end
  | None => false
  end.

Definition deliver_message (self : SessionDelegation) (sending_request : DelegationMessageRequest)
    (id : DelegationMessageId) (dispatch : ToolDispatchAuthority) :
    transition (SessionDelegation * DelegationEvent) :=
  let reject failure := reject_message self sending_request id failure in
  let request := message_tool_request sending_request in
  if negb (dispatch_matches request dispatch) then Err (reject TransitionInvalidProvenance) else
  direction ← ok_or (sender_direction self (request_session request)
                       (message_request_peer sending_request))
                (reject TransitionInvalidProvenance);
  if bool_decide (request_id request = delegation_spawning_request self)
  then Err (reject TransitionInvalidProvenance) else
  let provenance := from_message sending_request in
  match find (sent_by (request_id request)) (delegation_events self) with
  | Some existing =>
      match event_message existing with
      | Some message =>
          if bool_decide (message_direction message = direction)
             && bool_decide (message_content message = message_request_content sending_request)
             && bool_decide (message_provenance message = provenance)
          then Ok (self, existing) else Err (reject ConflictingMessageReplay)
      | None => Err (reject ConflictingMessageReplay)
      end
  | None =>
      if existsb (fun message => bool_decide (message_id message = id))
           (delivered_messages (delegation_events self))
      then Err (reject TransitionDuplicateMessageIdentity) else
      ordinal ←
        match delegation_next_ordinal self with
        | Ok ordinal =>
            if bool_decide (delegation_lifecycle self = LifecycleTerminal)
               || (N.pos (event_ordinal_get ordinal) <? u64_max)%N
            then Ok ordinal else Err (reject EventOrdinalExhausted)
        | Err failure => Err (reject failure)
        end;
      let event := EventMessageDelivered ordinal
        (mkMessage id direction (message_request_peer sending_request)
           (message_request_content sending_request) provenance) in
      Ok (push_delegation_event self event (delegation_lifecycle self), event)
  end.

(** The outcome already recorded under the same command, or under the same
    provenance. *)
Definition same_command (authority : ParentTerminationAuthority) (existing : DelegationOutcome) :
    bool :=
  match parent_command (outcome_provenance existing) with
  | Some other => bool_decide (termination_command other = termination_command authority)
  | None => false
  end.
Definition existing_outcome (events : list DelegationEvent) (provenance : DelegationProvenance) :
    option DelegationOutcome :=
  match parent_command provenance ≫= fun authority =>
          find (same_command authority) (recorded_outcomes events) with
  | Some existing => Some existing
  | None =>
      find (fun existing => bool_decide (outcome_provenance existing = provenance))
        (recorded_outcomes events)
  end.

Definition remains_active (outcome : DelegationOutcome) : bool :=
  bool_decide (outcome_kind outcome = ContinueRunning).

Definition record_outcome (self : SessionDelegation) (outcome : DelegationOutcome) :
    transition SessionDelegation :=
  let reject failure := reject_outcome self outcome failure in
  match existing_outcome (delegation_events self) (outcome_provenance outcome) with
  | Some existing =>
      if bool_decide (existing = outcome) then Ok self
      else Err (reject TransitionDuplicateOutcomeAuthority)
  | None =>
      let records_terminal_evaluation := bool_decide (outcome_kind outcome = AlreadyTerminal) in
      if negb (bool_decide (delegation_lifecycle self = LifecycleActive))
         && (negb records_terminal_evaluation || negb (has_child_terminal_outcome self))
      then Err (reject TransitionAlreadyTerminal) else
      if bool_decide (delegation_lifecycle self = LifecycleActive) && records_terminal_evaluation
      then Err (reject TransitionOutcomeReasonMismatch) else
      if negb (outcome_matches_relation (from_relation self) outcome)
      then Err (reject TransitionOutcomeReasonMismatch) else
      ordinal ← map_err reject (delegation_next_ordinal self);
      Ok (push_delegation_event self (EventOutcomeRecorded ordinal outcome)
            (if remains_active outcome then delegation_lifecycle self else LifecycleTerminal))
  end.

Definition policy_action (policy : ChildRelationshipPolicy) (kind : ParentTerminationKind) :
    BoundChildAction :=
  match policy, kind with
  | BackgroundPolicy, _ => KeepRunning
  | BoundPolicy on_parent_stopped _, KindStopped => on_parent_stopped
  | BoundPolicy _ on_parent_cancelled, KindCancelled => on_parent_cancelled
  end.

Definition record_parent_termination (self : SessionDelegation)
    (authority : ParentTerminationAuthority) : transition SessionDelegation :=
  let reject failure := reject_parent_termination self authority failure in
  if negb (bool_decide (termination_parent authority = delegation_parent self))
  then Err (reject TransitionInvalidProvenance) else
  if bool_decide (termination_scope authority = ParentAlone)
  then Err (reject TransitionDescendantsNotSelected) else
  if existsb (fun outcome => bool_decide (parent_command (outcome_provenance outcome) = Some authority))
       (recorded_outcomes (delegation_events self))
  then Ok self else
  outcome ← ok_or
    (if bool_decide (delegation_lifecycle self = LifecycleTerminal)
     then from_parent_already_terminal authority
     else from_parent_policy authority
            (policy_action (delegation_policy self) (termination_kind authority)))
    (reject TransitionDescendantsNotSelected);
  record_outcome self outcome.

(** ** Reconstitution *)

Record SessionDelegationReconstitutionInput := mkDelegationInput {
  input_spawning_request : DelegatedSpawnRequest;
  input_child : SessionId;
  input_child_turn : TurnId;
  reconciliation_required_child : bool;
  input_events : list DelegationEvent;
}.

Definition with_reconciliation_required_child (self : SessionDelegationReconstitutionInput) :
    SessionDelegationReconstitutionInput :=
  mkDelegationInput (input_spawning_request self) (input_child self) (input_child_turn self) true
    (input_events self).

Inductive SessionDelegationReconstitutionFailure :=
| SameSession
| MissingSpawnEvent
| NoncontiguousEventOrdinal
| InvalidSpawnEvent
| InvalidMessageProvenance
| DuplicateMessageIdentity
| DuplicateMessageRequest
| DuplicateOutcomeAuthority
| OutcomeReasonMismatch
| EventAfterTerminal.

(** The identity the validation checks against. *)
Definition identity_of_input (input : SessionDelegationReconstitutionInput) :
    DelegationRelationIdentity :=
  let request := spawn_tool_request (input_spawning_request input) in
  mkRelationIdentity (request_id request) (request_session request) (input_child input)
    (input_child_turn input) (spawn_policy (input_spawning_request input)).

(** The mutable locals of the loop. The hash sets are lists of what was
    inserted: only membership is observed. *)
Record HistoryState := mkHistory {
  history_index : nat;
  history_lifecycle : DelegationLifecycle;
  seen_message_ids : list DelegationMessageId;
  seen_message_requests : list ToolRequestId;
  seen_parent_commands : list DurableCommandId;
  seen_outcome_provenance : list DelegationProvenance;
  seen_child_terminal : bool;
}.

Definition endpoints_match (relation : DelegationRelationIdentity)
    (direction : DelegationMessageDirection) (source peer : SessionId) : bool :=
  match direction with
  | ParentToChild =>
      bool_decide (source = identity_parent relation) && bool_decide (peer = identity_child relation)
  | ChildToParent =>
      bool_decide (source = identity_child relation) && bool_decide (peer = identity_parent relation)
  end.

Definition validate_reconstituted_message (relation : DelegationRelationIdentity)
    (message : DelegationMessage) (s : HistoryState) :
    result SessionDelegationReconstitutionFailure HistoryState :=
  match provenance_kind (message_provenance message) with
  | ProvenanceToolRequest source _ request purpose =>
      if negb (bool_decide (purpose = PurposeSendMessage))
         || bool_decide (request = identity_spawning_request relation)
         || negb (endpoints_match relation (message_direction message) source (message_peer message))
      then Err InvalidMessageProvenance else
      if bool_decide (message_id message ∈ seen_message_ids s) then Err DuplicateMessageIdentity else
      if bool_decide (request ∈ seen_message_requests s) then Err DuplicateMessageRequest else
      Ok (mkHistory (history_index s) (history_lifecycle s)
            (message_id message :: seen_message_ids s) (request :: seen_message_requests s)
            (seen_parent_commands s) (seen_outcome_provenance s) (seen_child_terminal s))
  | ProvenanceChildTurn _ | ProvenanceParentCommand _ => Err InvalidMessageProvenance
  end.

Definition validate_reconstituted_outcome (relation : DelegationRelationIdentity)
    (outcome : DelegationOutcome) (s : HistoryState) :
    result SessionDelegationReconstitutionFailure HistoryState :=
  let provenance := outcome_provenance outcome in
  commands ←
    match parent_command provenance with
    | Some authority =>
        if bool_decide (termination_command authority ∈ seen_parent_commands s)
        then Err DuplicateOutcomeAuthority
        else Ok (termination_command authority :: seen_parent_commands s)
    | None => Ok (seen_parent_commands s)
    end;
  if bool_decide (provenance ∈ seen_outcome_provenance s) then Err DuplicateOutcomeAuthority else
  let records_terminal_evaluation := bool_decide (outcome_kind outcome = AlreadyTerminal) in
  if bool_decide (history_lifecycle s = LifecycleTerminal)
     && (negb records_terminal_evaluation || negb (seen_child_terminal s))
  then Err EventAfterTerminal else
  if bool_decide (history_lifecycle s = LifecycleActive) && records_terminal_evaluation
     && negb (seen_child_terminal s)
  then Err OutcomeReasonMismatch else
  if negb (outcome_matches_relation relation outcome) then Err OutcomeReasonMismatch else
  Ok (mkHistory (history_index s)
        (if remains_active outcome then LifecycleActive else LifecycleTerminal)
        (seen_message_ids s) (seen_message_requests s) commands
        (provenance :: seen_outcome_provenance s)
        (is_child_terminal outcome || seen_child_terminal s)).

Definition next_history (s : HistoryState) : HistoryState :=
  mkHistory (S (history_index s)) (history_lifecycle s) (seen_message_ids s)
    (seen_message_requests s) (seen_parent_commands s) (seen_outcome_provenance s)
    (seen_child_terminal s).

(** One iteration of the loop. *)
Definition validate_event (relation : DelegationRelationIdentity) (s : HistoryState)
    (event : DelegationEvent) : result SessionDelegationReconstitutionFailure HistoryState :=
  let expected := u64_checked_add (N.of_nat (history_index s)) 1 in
  if negb (bool_decide
       (expected = Some (N.pos (event_ordinal_get (delegation_event_ordinal event)))))
  then Err NoncontiguousEventOrdinal else
  s ←
    match event with
    | EventSpawned _ _ =>
        if bool_decide (history_index s = 0%nat) then Ok s else Err InvalidSpawnEvent
    | EventMessageDelivered _ message => validate_reconstituted_message relation message s
    | EventOutcomeRecorded _ outcome => validate_reconstituted_outcome relation outcome s
    end;
  Ok (next_history s).

Definition validate_reconstituted_history (input : SessionDelegationReconstitutionInput) :
    result SessionDelegationReconstitutionFailure DelegationLifecycle :=
  let identity := identity_of_input input in
  if bool_decide (identity_parent identity = identity_child identity) then Err SameSession else
  first ← ok_or (head (input_events input)) MissingSpawnEvent;
  if negb (bool_decide (first = EventSpawned event_ordinal_first
                                 (from_spawn (input_spawning_request input))))
  then Err InvalidSpawnEvent else
  s ← try_fold (validate_event identity) (input_events input)
        (mkHistory 0 LifecycleActive [] [] [] [] (reconciliation_required_child input));
  Ok (history_lifecycle s).

(** [SessionDelegationReconstitutionError]: the rejected input and the failure. *)
Definition SessionDelegationReconstitutionError : Type :=
  SessionDelegationReconstitutionInput * SessionDelegationReconstitutionFailure.

(** [SessionDelegation::reconstitute] *)
Definition delegation_reconstitute (input : SessionDelegationReconstitutionInput) :
    result SessionDelegationReconstitutionError SessionDelegation :=
  lifecycle ← map_err (fun failure => (input, failure)) (validate_reconstituted_history input);
  let request := spawn_tool_request (input_spawning_request input) in
  Ok (mkDelegation (request_id request) (request_session request) (input_child input)
        (input_child_turn input) (spawn_task (input_spawning_request input))
        (spawn_policy (input_spawning_request input)) lifecycle (input_events input)).
