(* ===== verification/DelegationSpec.v ===== *)
(** * The promises of delegated sessions

    The histories a relation may have, declaratively; reconstitution accepts
    exactly those, and the transitions extend a history exactly by the events
    it may be extended with. *)

From Stdlib Require Import Btauto.
From stdpp Require Import strings.
From S2P Require Import Prelude Goal Configuration Tool ToolAttempt Delegation.

(** ** Legal histories *)

(** A message is a peer message of one endpoint to the other, sent by a request
    other than the one that spawned the child. *)
Definition message_legal (id : DelegationRelationIdentity) (m : DelegationMessage) : Prop :=
  exists source turn request,
    provenance_kind (message_provenance m)
      = ProvenanceToolRequest source turn request PurposeSendMessage
    /\ request <> identity_spawning_request id
    /\ endpoints_match id (message_direction m) source (message_peer m) = true.

(** The keys that occur once. *)
Definition event_message_id (e : DelegationEvent) : option DelegationMessageId :=
  message_id <$> event_message e.
Definition event_message_request (e : DelegationEvent) : option ToolRequestId :=
  event_message e ≫= fun m => snd <$> provenance_tool_request (message_provenance m).
Definition event_provenance (e : DelegationEvent) : option DelegationProvenance :=
  outcome_provenance <$> event_outcome e.
Definition event_command (e : DelegationEvent) : option DurableCommandId :=
  event_outcome e ≫= fun o => termination_command <$> parent_command (outcome_provenance o).

(** Outcomes let the child run until one closes the relation: the child's own
    end, or the evaluation of a child known to need reconciliation; later
    outcomes only evaluate the closed edge. *)
Definition outcome_course (reconciled : bool) (l : list DelegationOutcome)
    (lifecycle : DelegationLifecycle) : Prop :=
  exists running closing, l = running ++ closing
    /\ (forall o, o ∈ running -> outcome_kind o = ContinueRunning)
    /\ match closing with
       | [] => lifecycle = LifecycleActive
       | o :: evaluations =>
           lifecycle = LifecycleTerminal
           /\ (is_child_terminal o = true \/ outcome_kind o = AlreadyTerminal /\ reconciled = true)
           /\ forall e, e ∈ evaluations -> outcome_kind e = AlreadyTerminal
       end.

Record history_legal (id : DelegationRelationIdentity) (spawn : DelegationProvenance)
    (reconciled : bool) (events : list DelegationEvent) (lifecycle : DelegationLifecycle) : Prop := {
  legal_endpoints : identity_parent id <> identity_child id;
  legal_spawn : exists later, events = EventSpawned event_ordinal_first spawn :: later
    /\ forall e, e ∈ later -> is_Some (event_message e) \/ is_Some (event_outcome e);
  legal_ordinals : numbered (event_ordinal_get ∘ delegation_event_ordinal) events;
  legal_bound : (N.of_nat (length events) <= u64_max)%N;
  legal_messages : forall m, m ∈ delivered_messages events -> message_legal id m;
  legal_message_ids : NoDup (omap event_message_id events);
  legal_message_requests : NoDup (omap event_message_request events);
  legal_outcomes : forall o, o ∈ recorded_outcomes events -> outcome_matches_relation id o = true;
  legal_provenances : NoDup (omap event_provenance events);
  legal_commands : NoDup (omap event_command events);
  legal_course : outcome_course reconciled (recorded_outcomes events) lifecycle;
}.

(** ** The loop *)

Definition is_closing (o : DelegationOutcome) : bool := negb (remains_active o).
Definition course_lifecycle (l : list DelegationOutcome) : DelegationLifecycle :=
  if existsb is_closing l then LifecycleTerminal else LifecycleActive.

(** The guards on one outcome after others. *)
Definition course_ok (reconciled : bool) (l : list DelegationOutcome) (o : DelegationOutcome) : Prop :=
  if existsb is_closing l
  then outcome_kind o = AlreadyTerminal /\ (existsb is_child_terminal l = true \/ reconciled = true)
  else outcome_kind o = AlreadyTerminal -> reconciled = true.

Lemma closing_kind o : is_closing o = true <-> outcome_kind o <> ContinueRunning.
Proof. unfold is_closing, remains_active. rewrite negb_true_iff, bool_decide_eq_false. done. Qed.

Lemma closing_split o :
  is_closing o = true <-> is_child_terminal o = true \/ outcome_kind o = AlreadyTerminal.
Proof. rewrite closing_kind. unfold is_child_terminal. destruct (outcome_kind o); naive_solver. Qed.

Lemma existsb_snoc {A} (f : A -> bool) l x : existsb f (l ++ [x]) = existsb f l || f x.
Proof. rewrite existsb_app. simpl. by rewrite orb_false_r. Qed.

Lemma existsb_true {A} (f : A -> bool) l : existsb f l = true <-> exists x, x ∈ l /\ f x = true.
Proof.
  rewrite existsb_exists. by setoid_rewrite <- list_elem_of_In.
Qed.

Lemma no_existsb {A} (f : A -> bool) l : existsb f l = false <-> forall x, x ∈ l -> f x = false.
Proof.
  rewrite <- not_true_iff_false, existsb_true. setoid_rewrite <- not_true_iff_false. naive_solver.
Qed.

Lemma course_open l :
  (forall o, o ∈ l -> outcome_kind o = ContinueRunning) ->
  existsb is_closing l = false /\ existsb is_child_terminal l = false.
Proof.
  intros Hl. split; apply no_existsb; intros x Hx%Hl.
  - unfold is_closing, remains_active. by rewrite bool_decide_eq_true_2.
  - unfold is_child_terminal. by rewrite Hx.
Qed.

Lemma course_closed running c evaluations :
  is_child_terminal c = true \/ outcome_kind c = AlreadyTerminal ->
  existsb is_closing (running ++ c :: evaluations) = true.
Proof. intros Hc. rewrite existsb_app. simpl. rewrite (proj2 (closing_split c) Hc). by btauto. Qed.

Lemma course_lifecycle_eq reconciled l lifecycle :
  outcome_course reconciled l lifecycle -> lifecycle = course_lifecycle l.
Proof.
  intros (running & closing & -> & Hrun & Hcl). unfold course_lifecycle.
  destruct closing as [|c evaluations].
  - rewrite app_nil_r. by rewrite (proj1 (course_open _ Hrun)).
  - rewrite course_closed by naive_solver. naive_solver.
Qed.

Lemma course_snoc_inv reconciled l o lifecycle :
  outcome_course reconciled (l ++ [o]) lifecycle ->
  outcome_course reconciled l (course_lifecycle l) /\ course_ok reconciled l o.
Proof.
  intros (running & closing & Heq & Hrun & Hcl).
  destruct closing as [|e closing _] using rev_ind.
  { rewrite app_nil_r in Heq. subst running.
    assert (forall x, x ∈ l -> outcome_kind x = ContinueRunning) as Hl by (intros; apply Hrun; set_solver).
    unfold course_ok, course_lifecycle. rewrite (proj1 (course_open _ Hl)). split.
    - exists l, []. by rewrite app_nil_r.
    - rewrite (Hrun o); [done|set_solver]. }
  rewrite app_assoc in Heq. apply app_inj_tail in Heq as [-> ->].
  destruct closing as [|c evaluations]; simpl in Hcl; destruct Hcl as (_ & Hc & Hev).
  - rewrite app_nil_r. unfold course_ok, course_lifecycle. rewrite (proj1 (course_open _ Hrun)). split.
    + exists running, []. by rewrite app_nil_r.
    + intros Ha. unfold is_child_terminal in Hc. rewrite Ha in Hc. naive_solver.
  - unfold course_ok, course_lifecycle. rewrite course_closed by naive_solver. split_and!.
    + exists running, (c :: evaluations). split_and!; [done..|]. intros x Hx. apply Hev. set_solver.
    + apply Hev. set_solver.
    + rewrite existsb_app. simpl. destruct Hc as [->|[_ ?]]; [left; by btauto|by right].
Qed.

Lemma course_snoc_intro reconciled l lifecycle o :
  outcome_course reconciled l lifecycle -> course_ok reconciled l o ->
  outcome_course reconciled (l ++ [o]) (course_lifecycle (l ++ [o])).
Proof.
  intros (running & closing & -> & Hrun & Hcl). unfold course_ok, course_lifecycle.
  destruct closing as [|c evaluations].
  - rewrite app_nil_r, existsb_snoc, (proj1 (course_open _ Hrun)). simpl. intros Ha.
    destruct (is_closing o) eqn:Ho.
    + exists running, [o]. split_and!; [done..| |set_solver].
      apply closing_split in Ho as [?|?]; naive_solver.
    + exists (running ++ [o]), []. rewrite app_nil_r. split_and!; [done| |done].
      intros x [Hx| ->]%elem_of_snoc; [auto|]. apply not_true_iff_false in Ho.
      rewrite closing_kind in Ho. by apply dec_stable.
  - destruct Hcl as (-> & Hc & Hev). rewrite existsb_snoc, course_closed by naive_solver.
    simpl. intros [Ha _]. exists running, (c :: evaluations ++ [o]).
    split_and!; [by rewrite <- app_assoc|done..|].
    intros x [Hx| ->]%elem_of_snoc; auto.
Qed.

(** Outcomes form a course exactly when each passes its guards. *)
Lemma course_checked reconciled l lifecycle :
  outcome_course reconciled l lifecycle <->
  checked (course_ok reconciled) l /\ lifecycle = course_lifecycle l.
Proof.
  split.
  - intros H. pose proof (course_lifecycle_eq _ _ _ H) as ->. split; [|done]. revert H.
    induction l as [|o l IH] using rev_ind; intros H; [by intros [|??] ?? [=]|].
    apply course_snoc_inv in H as [H Ho]. apply checked_snoc. auto.
  - intros [H ->]. induction l as [|o l IH] using rev_ind.
    { exists [], []. split_and!; [done|set_solver|done]. }
    apply checked_snoc in H as [H Ho]. by eapply course_snoc_intro; [apply IH|].
Qed.

Lemma recorded_outcomes_snoc l e :
  recorded_outcomes (l ++ [e]) =
    recorded_outcomes l ++ match event_outcome e with Some o => [o] | None => [] end.
Proof. apply omap_snoc. Qed.

Lemma course_lifecycle_snoc l o :
  course_lifecycle (l ++ [o]) = if remains_active o then course_lifecycle l else LifecycleTerminal.
Proof.
  unfold course_lifecycle. rewrite existsb_snoc. unfold is_closing at 2.
  destruct (remains_active o); simpl; [by rewrite orb_false_r|by rewrite orb_true_r].
Qed.

(** The guards of the transition: what the course admits, an evaluation only
    after the child's own end. *)
Lemma course_guarded reconciled l o :
  ((outcome_kind o = AlreadyTerminal -> existsb is_child_terminal l = true)
   /\ course_ok reconciled l o) <->
  match course_lifecycle l with
  | LifecycleTerminal => outcome_kind o = AlreadyTerminal /\ existsb is_child_terminal l = true
  | LifecycleActive => outcome_kind o <> AlreadyTerminal
  end.
Proof.
  unfold course_ok, course_lifecycle. destruct (existsb is_closing l) eqn:Hc; [naive_solver|].
  assert (existsb is_child_terminal l = false) as ->; [|naive_solver].
  rewrite no_existsb in Hc. apply no_existsb. intros x Hx. specialize (Hc x Hx).
  apply not_true_iff_false. intros Ht. apply not_true_iff_false in Hc.
  apply Hc, closing_split. by left.
Qed.

(** The guards on one event after others. *)
Definition event_ok (id : DelegationRelationIdentity) (reconciled : bool)
    (l : list DelegationEvent) (e : DelegationEvent) : Prop :=
  event_ordinal_get (delegation_event_ordinal e) = Pos.of_succ_nat (length l)
  /\ (N.of_nat (length l) < u64_max)%N
  /\ (event_message e = None -> event_outcome e = None -> l = [])
  /\ (forall m, event_message e = Some m -> message_legal id m)
  /\ (forall k, event_message_id e = Some k -> k ∉ omap event_message_id l)
  /\ (forall k, event_message_request e = Some k -> k ∉ omap event_message_request l)
  /\ (forall o, event_outcome e = Some o -> outcome_matches_relation id o = true)
  /\ (forall k, event_provenance e = Some k -> k ∉ omap event_provenance l)
  /\ (forall k, event_command e = Some k -> k ∉ omap event_command l)
  /\ (forall o, event_outcome e = Some o -> course_ok reconciled (recorded_outcomes l) o).

(** The locals after a visited part of the history. *)
Definition history_after (reconciled : bool) (l : list DelegationEvent) : HistoryState :=
  mkHistory (length l) (course_lifecycle (recorded_outcomes l))
    (reverse (omap event_message_id l)) (reverse (omap event_message_request l))
    (reverse (omap event_command l)) (reverse (omap event_provenance l))
    (existsb is_child_terminal (recorded_outcomes l) || reconciled).

Lemma expected_ordinal (n : nat) (ordinal : DelegationEventOrdinal) :
  u64_checked_add (N.of_nat n) 1 = Some (N.pos (event_ordinal_get ordinal)) <->
  event_ordinal_get ordinal = Pos.of_succ_nat n /\ (N.of_nat n < u64_max)%N.
Proof. rewrite u64_checked_add_Some. generalize u64_max; intros M. lia. Qed.

Lemma history_after_snoc reconciled l e :
  history_after reconciled (l ++ [e]) =
    mkHistory (S (length l)) (course_lifecycle (recorded_outcomes (l ++ [e])))
      (match event_message_id e with
       | Some k => k :: reverse (omap event_message_id l) | None => reverse (omap event_message_id l) end)
      (match event_message_request e with
       | Some k => k :: reverse (omap event_message_request l)
       | None => reverse (omap event_message_request l) end)
      (match event_command e with
       | Some k => k :: reverse (omap event_command l) | None => reverse (omap event_command l) end)
      (match event_provenance e with
       | Some k => k :: reverse (omap event_provenance l) | None => reverse (omap event_provenance l) end)
      (match event_outcome e with
       | Some o => is_child_terminal o || (existsb is_child_terminal (recorded_outcomes l) || reconciled)
       | None => existsb is_child_terminal (recorded_outcomes l) || reconciled end).
Proof.
  unfold history_after, recorded_outcomes. rewrite !omap_snoc, length_app. simpl. f_equal.
  - lia.
  - destruct (event_message_id e); [by rewrite reverse_snoc|by rewrite app_nil_r].
  - destruct (event_message_request e); [by rewrite reverse_snoc|by rewrite app_nil_r].
  - destruct (event_command e); [by rewrite reverse_snoc|by rewrite app_nil_r].
  - destruct (event_provenance e); [by rewrite reverse_snoc|by rewrite app_nil_r].
  - destruct (event_outcome e) as [o|]; [|by rewrite app_nil_r].
    rewrite existsb_snoc. btauto.
Qed.

Lemma validate_message_ok id m s s' :
  validate_reconstituted_message id m s = Ok s' <->
  message_legal id m /\ message_id m ∉ seen_message_ids s /\
  exists request, (snd <$> provenance_tool_request (message_provenance m)) = Some request
    /\ request ∉ seen_message_requests s
    /\ s' = mkHistory (history_index s) (history_lifecycle s) (message_id m :: seen_message_ids s)
              (request :: seen_message_requests s) (seen_parent_commands s)
              (seen_outcome_provenance s) (seen_child_terminal s).
Proof.
  unfold validate_reconstituted_message, message_legal, provenance_tool_request.
  destruct (provenance_kind (message_provenance m)) as [source turn request purpose|t|a];
    [|split; [done|intros ((? & ? & ? & [=] & _) & _)]..].
  destruct (negb (bool_decide (purpose = PurposeSendMessage))) eqn:Hp; simpl.
  { apply negb_true_iff, bool_decide_eq_false in Hp. split; [done|].
    intros ((? & ? & ? & [= -> -> -> ->] & _) & _). done. }
  apply negb_false_iff, bool_decide_eq_true in Hp as ->.
  case_bool_decide as Hs; simpl; [split; [done|naive_solver]|].
  destruct (endpoints_match id (message_direction m) source (message_peer m)) eqn:He; simpl;
    [|split; [done|naive_solver congruence]].
  case_bool_decide as Hid; [naive_solver|]. case_bool_decide as Hreq; [naive_solver|].
  split; [intros [= <-]|naive_solver]. split_and!; [by eexists _, _, _|done|by exists request].
Qed.

Lemma validate_outcome_ok id o s s' :
  validate_reconstituted_outcome id o s = Ok s' <->
  outcome_matches_relation id o = true
  /\ outcome_provenance o ∉ seen_outcome_provenance s
  /\ (forall c, (termination_command <$> parent_command (outcome_provenance o)) = Some c ->
        c ∉ seen_parent_commands s)
  /\ (if bool_decide (history_lifecycle s = LifecycleTerminal)
      then outcome_kind o = AlreadyTerminal /\ seen_child_terminal s = true
      else outcome_kind o = AlreadyTerminal -> seen_child_terminal s = true)
  /\ s' = mkHistory (history_index s)
            (if remains_active o then LifecycleActive else LifecycleTerminal)
            (seen_message_ids s) (seen_message_requests s)
            (match termination_command <$> parent_command (outcome_provenance o) with
             | Some c => c :: seen_parent_commands s | None => seen_parent_commands s end)
            (outcome_provenance o :: seen_outcome_provenance s)
            (is_child_terminal o || seen_child_terminal s).
Proof.
  unfold validate_reconstituted_outcome. rewrite bind_Ok.
  assert (forall commands,
    match parent_command (outcome_provenance o) with
    | Some authority =>
        if bool_decide (termination_command authority ∈ seen_parent_commands s)
        then Err DuplicateOutcomeAuthority
        else Ok (termination_command authority :: seen_parent_commands s)
    | None => Ok (seen_parent_commands s)
    end = Ok commands <->
    (forall c, (termination_command <$> parent_command (outcome_provenance o)) = Some c ->
        c ∉ seen_parent_commands s)
    /\ commands = match termination_command <$> parent_command (outcome_provenance o) with
                 | Some c => c :: seen_parent_commands s | None => seen_parent_commands s end)
    as Hcommands.
  { intros commands. destruct (parent_command _) as [a|]; simpl; [|naive_solver].
    case_bool_decide; naive_solver. }
  setoid_rewrite Hcommands. clear Hcommands.
  destruct (outcome_matches_relation id o), (seen_child_terminal s), (history_lifecycle s);
    destruct (decide (outcome_kind o = AlreadyTerminal)) as [Ha|Ha];
    rewrite ?(bool_decide_eq_true_2 _ Ha), ?(bool_decide_eq_false_2 _ Ha); simpl;
    destruct (decide (outcome_provenance o ∈ seen_outcome_provenance s)) as [Hp|Hp];
    rewrite ?(bool_decide_eq_true_2 _ Hp), ?(bool_decide_eq_false_2 _ Hp); simpl; naive_solver.
Qed.

Lemma closing_keeps o l :
  course_ok true l o \/ course_ok false l o ->
  (if remains_active o then LifecycleActive else LifecycleTerminal) = course_lifecycle (l ++ [o]).
Proof.
  unfold course_ok, course_lifecycle. rewrite existsb_snoc.
  assert (is_closing o = negb (remains_active o)) as -> by done.
  intros H. destruct (remains_active o) eqn:Ho; simpl; [|by rewrite orb_true_r].
  rewrite orb_false_r. destruct (existsb is_closing l); [|done].
  apply bool_decide_eq_true in Ho. rewrite Ho in H. naive_solver.
Qed.

(** The lifecycle guard of the loop is the guard of the course. *)
Lemma course_guard reconciled l o :
  (if bool_decide (course_lifecycle l = LifecycleTerminal)
   then outcome_kind o = AlreadyTerminal /\ existsb is_child_terminal l || reconciled = true
   else outcome_kind o = AlreadyTerminal -> existsb is_child_terminal l || reconciled = true)
  <-> course_ok reconciled l o.
Proof.
  unfold course_ok, course_lifecycle.
  destruct (existsb is_closing l) eqn:Hc; simpl; [by rewrite orb_true_iff|].
  assert (existsb is_child_terminal l = false) as ->; [|done].
  apply no_existsb. intros x Hx. apply not_true_iff_false. intros Ht.
  pose proof (proj1 (no_existsb _ _) Hc x Hx) as Hx'.
  apply not_true_iff_false in Hx'. apply Hx', closing_split. by left.
Qed.

Lemma validate_event_step id reconciled l e s' :
  validate_event id (history_after reconciled l) e = Ok s' <->
  event_ok id reconciled l e /\ s' = history_after reconciled (l ++ [e]).
Proof.
  rewrite history_after_snoc. unfold validate_event, event_ok. simpl history_index.
  case_bool_decide as Hn; rewrite expected_ordinal in Hn; simpl; [|naive_solver].
  rewrite bind_Ok, recorded_outcomes_snoc.
  destruct e as [o p|o m|o oc]; simpl.
  - rewrite app_nil_r. case_bool_decide as Hl.
    + apply nil_length_inv in Hl as ->. split; [|naive_solver].
      intros (a & [= <-] & [= <-]). split; [|done]. split_and!; naive_solver.
    + assert (l <> []) by (by intros ->). naive_solver.
  - setoid_rewrite validate_message_ok. rewrite app_nil_r.
    unfold event_message_request, event_message_id, event_provenance, event_command. simpl.
    setoid_rewrite elem_of_reverse. split.
    + intros (s1 & (Hm & Hid & request & Hr & Hfresh & ->) & [= <-]). rewrite Hr. simpl.
      split; [|done]. split_and!; naive_solver.
    + intros [(? & ? & _ & Hm & Hid & Hreq & _) ->]. pose proof (Hm m eq_refl) as Hlegal.
      destruct Hlegal as (source & turn & request & Hk & Hrest).
      unfold provenance_tool_request in *. rewrite Hk in *. simpl in *.
      eexists. split; [split_and!|]; [| |exists request; split_and!; [done|by apply Hreq|reflexivity]|reflexivity].
      * exists source, turn, request. by split.
      * by apply Hid.
  - setoid_rewrite validate_outcome_ok. simpl. setoid_rewrite course_guard.
    unfold event_message_request, event_message_id, event_provenance, event_command. simpl.
    setoid_rewrite elem_of_reverse. split.
    + intros (s1 & (Hm & Hp & Hc & Hok & ->) & [= <-]). unfold next_history. simpl.
      rewrite (closing_keeps oc (recorded_outcomes l)) by (destruct reconciled; auto).
      split; [|done]. split_and!; naive_solver.
    + intros [(? & ? & _ & _ & _ & _ & Hm & Hp & Hc & Hok) ->].
      eexists. split; [split_and!; [by apply Hm|by apply Hp|by apply Hc|by apply Hok|reflexivity]|].
      unfold next_history. simpl.
      rewrite (closing_keeps oc (recorded_outcomes l)); [done|]. destruct reconciled; auto.
Qed.

Lemma checked_bound {A} (l : list A) :
  checked (fun l1 _ => (N.of_nat (length l1) < u64_max)%N) l <-> (N.of_nat (length l) <= u64_max)%N.
Proof.
  rewrite (checked_index (fun i _ => (N.of_nat i < u64_max)%N)). generalize u64_max; intros M. split.
  - intros H. destruct l as [|x l _] using rev_ind; [simpl; lia|]. rewrite length_app. simpl.
    assert (N.of_nat (length l) < M)%N by (apply (H _ x), lookup_snoc_Some; auto). lia.
  - intros H i x Hi%lookup_lt_Some. lia.
Qed.

Lemma checked_spawn spawn l :
  head l = Some spawn -> event_message spawn = None -> event_outcome spawn = None ->
  checked (fun l1 e => event_message e = None -> event_outcome e = None -> l1 = []) l <->
  forall e, e ∈ tail l -> is_Some (event_message e) \/ is_Some (event_outcome e).
Proof.
  destruct l as [|e0 later]; [done|]. intros [= ->] Hm Ho. simpl. split.
  - intros H e (l1 & l2 & ->)%list_elem_of_split. specialize (H (spawn :: l1) e l2 eq_refl).
    simpl in H. destruct (event_message e); [eauto|]. destruct (event_outcome e); [eauto|].
    by specialize (H eq_refl eq_refl).
  - intros H [|x l1] e l2 Heq Hm' Ho'; [done|]. injection Heq as <- ->.
    assert (e ∈ l1 ++ e :: l2) as [[??]|[??]]%H by set_solver; congruence.
Qed.

Lemma checked_values {A B} (f : A -> option B) (P : B -> Prop) l :
  checked (fun _ x => forall y, f x = Some y -> P y) l <-> forall y, y ∈ omap f l -> P y.
Proof.
  rewrite (checked_all (fun x => forall y, f x = Some y -> P y)).
  setoid_rewrite list_elem_of_omap. naive_solver.
Qed.

(** A history is legal exactly when every event passes its guards. *)
Lemma legal_checked id spawn reconciled events lifecycle :
  history_legal id spawn reconciled events lifecycle <->
  identity_parent id <> identity_child id
  /\ head events = Some (EventSpawned event_ordinal_first spawn)
  /\ checked (event_ok id reconciled) events
  /\ lifecycle = course_lifecycle (recorded_outcomes events).
Proof.
  unfold event_ok. rewrite !checked_and, checked_bound, !checked_fresh_omap, !checked_values.
  rewrite (checked_index (fun i e =>
             event_ordinal_get (delegation_event_ordinal e) = Pos.of_succ_nat i)).
  rewrite (checked_omap event_outcome (course_ok reconciled)).
  split.
  - intros [He (later & -> & Hlater) Hn Hb Hm Hid Hreq Ho Hp Hc Hcourse].
    apply course_checked in Hcourse as [Hcourse ->].
    rewrite (checked_spawn (EventSpawned event_ordinal_first spawn)
               (EventSpawned event_ordinal_first spawn :: later)) by done.
    split_and!; done.
  - intros (He & Hhd & (Hn & Hb & Hs & Hm & Hid & Hreq & Ho & Hp & Hc & Hcourse) & ->).
    rewrite (checked_spawn _ _ Hhd eq_refl eq_refl) in Hs. destruct events as [|e later]; [done|].
    injection Hhd as ->. split; try done; [by exists later|by apply course_checked].
Qed.

(** ** Reconstitution *)

Definition relation_of (input : SessionDelegationReconstitutionInput)
    (lifecycle : DelegationLifecycle) : SessionDelegation :=
  let request := spawn_tool_request (input_spawning_request input) in
  mkDelegation (request_id request) (request_session request) (input_child input)
    (input_child_turn input) (spawn_task (input_spawning_request input))
    (spawn_policy (input_spawning_request input)) lifecycle (input_events input).

Definition input_legal (input : SessionDelegationReconstitutionInput) :
    DelegationLifecycle -> Prop :=
  history_legal (identity_of_input input) (from_spawn (input_spawning_request input))
    (reconciliation_required_child input) (input_events input).

Lemma validate_history_exact input lifecycle :
  validate_reconstituted_history input = Ok lifecycle <-> input_legal input lifecycle.
Proof.
  unfold validate_reconstituted_history, input_legal. rewrite legal_checked.
  case_bool_decide as He; [naive_solver|].
  destruct (head (input_events input)) as [first|]; simpl; [|naive_solver].
  case_bool_decide as Hf; simpl.
  - subst first. rewrite bind_Ok.
    change (mkHistory 0 LifecycleActive [] [] [] [] (reconciliation_required_child input))
      with (history_after (reconciliation_required_child input) []).
    setoid_rewrite (try_fold_checked _ _ _ _ _ (fun l1 x s' _ =>
      validate_event_step (identity_of_input input) (reconciliation_required_child input) l1 x s')).
    split; [intros (? & [? ->] & [= <-]); done|]. intros (_ & _ & Hc & ->). eexists. by split.
  - split; [naive_solver|]. intros (_ & [= ->] & _). done.
Qed.

Lemma reconstitute_exact input relation :
  delegation_reconstitute input = Ok relation <->
  exists lifecycle, input_legal input lifecycle /\ relation = relation_of input lifecycle.
Proof.
  unfold delegation_reconstitute. rewrite bind_Ok. setoid_rewrite map_err_Ok.
  setoid_rewrite validate_history_exact. naive_solver.
Qed.

(** ** Extending a history *)

Definition with_events (input : SessionDelegationReconstitutionInput) (events : list DelegationEvent) :
    SessionDelegationReconstitutionInput :=
  mkDelegationInput (input_spawning_request input) (input_child input) (input_child_turn input)
    (reconciliation_required_child input) events.

Definition outcome_command (o : DelegationOutcome) : option DurableCommandId :=
  termination_command <$> parent_command (outcome_provenance o).

Lemma event_commands l : omap event_command l = omap outcome_command (recorded_outcomes l).
Proof. apply omap_bind. Qed.

Lemma event_provenances l : omap event_provenance l = outcome_provenance <$> recorded_outcomes l.
Proof.
  unfold recorded_outcomes, event_provenance, omap. induction l as [|e l IH]; [done|]. simpl.
  destruct (event_outcome e); simpl; by rewrite IH.
Qed.

(** A relation that has been loaded from its stored history. *)
Section loaded.
Context (input : SessionDelegationReconstitutionInput) (r : SessionDelegation).
Context (Hr : delegation_reconstitute input = Ok r).

Let id := identity_of_input input.
Let reconciled := reconciliation_required_child input.
Let events := delegation_events r.

Lemma loaded_relation :
  events = input_events input /\ from_relation r = id
  /\ delegation_lifecycle r = course_lifecycle (recorded_outcomes events)
  /\ r = relation_of input (delegation_lifecycle r)
  /\ history_legal id (from_spawn (input_spawning_request input)) reconciled events
       (delegation_lifecycle r).
Proof using All.
  apply reconstitute_exact in Hr as (lifecycle & Hl & Heq). unfold events. rewrite Heq. simpl.
  split_and!; [done..| |done|done]. by apply legal_checked in Hl as (_ & _ & _ & ->).
Qed.

Lemma loaded_extends e r' :
  delegation_reconstitute (with_events input (events ++ [e])) = Ok r' <->
  event_ok id reconciled events e
  /\ r' = push_delegation_event r e (course_lifecycle (recorded_outcomes (events ++ [e]))).
Proof using All.
  destruct loaded_relation as (He & _ & _ & Hrel & Hl%legal_checked).
  destruct Hl as (Hends & Hhd & Hc & Hlife).
  rewrite reconstitute_exact. unfold input_legal. setoid_rewrite legal_checked. simpl.
  setoid_rewrite checked_snoc. split.
  - intros (lifecycle & (_ & _ & [_ Hok] & ->) & ->). split; [done|].
    unfold push_delegation_event. rewrite Hrel. simpl. unfold relation_of. simpl. by rewrite He.
  - intros [Hok ->]. eexists. split; [split_and!; [done| |done..|reflexivity]|].
    + rewrite <- Hhd. by destruct events.
    + unfold push_delegation_event. rewrite Hrel. simpl. unfold relation_of. simpl. by rewrite He.
Qed.

Lemma loaded_next_ordinal ordinal :
  delegation_next_ordinal r = Ok ordinal <->
  ordinal = mkEventOrdinal (Pos.of_succ_nat (length events)) /\ (N.of_nat (length events) < u64_max)%N.
Proof using All.
  destruct loaded_relation as (_ & _ & _ & _ & [_ (later & Hs & _) Hn _ _ _ _ _ _ _ _]).
  unfold delegation_next_ordinal. rewrite bind_Ok. setoid_rewrite ok_or_Ok. fold events.
  destruct events as [|x l _] eqn:Hev using rev_ind; [done|]. rewrite last_snoc.
  assert (event_ordinal_get (delegation_event_ordinal x) = Pos.of_succ_nat (length l)) as Hx
    by (apply (Hn (length l) x), lookup_snoc_Some; auto).
  unfold event_ordinal_successor. rewrite length_app. simpl. split.
  - intros (? & [= <-] & Ho). rewrite Hx in Ho.
    destruct (nonzero_u64_checked_add _ 1) as [p|] eqn:Hp; [|done]. injection Ho as <-.
    apply nonzero_u64_checked_add_1_Some in Hp as [-> Hle]. revert Hle. generalize u64_max; intros M Hle.
    split; [f_equal|]; lia.
  - intros [-> Hlt]. exists x. split; [done|]. rewrite Hx.
    assert (nonzero_u64_checked_add (Pos.of_succ_nat (length l)) 1
            = Some (Pos.of_succ_nat (length l + 1))) as ->; [|done].
    apply nonzero_u64_checked_add_1_Some. revert Hlt. generalize u64_max; intros M Hlt. lia.
Qed.

(** *** Outcomes *)

Lemma existing_outcome_None provenance :
  existing_outcome events provenance = None <->
  provenance ∉ outcome_provenance <$> recorded_outcomes events
  /\ forall c, (termination_command <$> parent_command provenance) = Some c ->
       c ∉ omap outcome_command (recorded_outcomes events).
Proof.
  assert (forall a, find (same_command a) (recorded_outcomes events) = None <->
    termination_command a ∉ omap outcome_command (recorded_outcomes events)) as Hcommand.
  { intros a. rewrite find_None, list_elem_of_omap. unfold same_command, outcome_command. split.
    - intros H (o & Ho & Hc). specialize (H o Ho). destruct (parent_command _); [|done].
      apply bool_decide_eq_false in H. simpl in Hc. congruence.
    - intros H o Ho. destruct (parent_command (outcome_provenance o)) as [b|] eqn:Hb; [|done].
      apply bool_decide_eq_false. intros Heq. apply H. exists o. by rewrite Hb, <- Heq. }
  assert (find (fun o => bool_decide (outcome_provenance o = provenance)) (recorded_outcomes events)
          = None <-> provenance ∉ outcome_provenance <$> recorded_outcomes events) as Hprov.
  { rewrite find_None. setoid_rewrite bool_decide_eq_false. rewrite list_elem_of_fmap. naive_solver. }
  unfold existing_outcome. destruct (parent_command provenance) as [a|]; simpl.
  - specialize (Hcommand a). destruct (find (same_command a) _).
    + split; [done|]. intros [_ H]. exfalso. specialize (H _ eq_refl). by apply Hcommand in H.
    + rewrite Hprov. split; [|naive_solver]. intros ?. split; [done|]. intros ? [= <-]. by apply Hcommand.
  - rewrite Hprov. naive_solver.
Qed.

(** What is recorded under an outcome's authority is that outcome, once it is
    recorded. *)
Lemma existing_outcome_recorded o :
  o ∈ recorded_outcomes events -> existing_outcome events (outcome_provenance o) = Some o.
Proof using All.
  intros Ho. destruct (loaded_relation) as (_ & _ & _ & _ & [_ _ _ _ _ _ _ _ Hp Hc _]).
  rewrite event_commands in Hc. rewrite event_provenances in Hp.
  unfold existing_outcome.
  destruct (parent_command (outcome_provenance o) ≫= _) as [x|] eqn:Hx.
  - apply bind_Some in Hx as (a & Ha & [Hin Hsame]%find_Some_elem). f_equal.
    unfold same_command in Hsame. destruct (parent_command (outcome_provenance x)) as [b|] eqn:Hb;
      [|done]. apply bool_decide_eq_true in Hsame.
    eapply (NoDup_omap_inj _ _ _ _ _ Hc Hin Ho); unfold outcome_command; rewrite ?Hb, ?Ha; simpl;
      by rewrite ?Hsame.
  - destruct (find _ _) as [x|] eqn:Hf.
    + apply find_Some_elem in Hf as [Hin Heq%bool_decide_eq_true]. f_equal.
      by eapply (NoDup_fmap_elem outcome_provenance).
    + rewrite find_None in Hf. specialize (Hf o Ho). by rewrite bool_decide_eq_true_2 in Hf.
Qed.

Lemma existing_outcome_elem provenance o :
  existing_outcome events provenance = Some o -> o ∈ recorded_outcomes events.
Proof.
  unfold existing_outcome. destruct (parent_command provenance ≫= _) as [x|] eqn:Hx.
  - intros [= <-]. apply bind_Some in Hx as (a & _ & [Hin _]%find_Some_elem). done.
  - by intros [? _]%find_Some_elem.
Qed.

Definition outcome_event (o : DelegationOutcome) : DelegationEvent :=
  EventOutcomeRecorded (mkEventOrdinal (Pos.of_succ_nat (length events))) o.

Lemma outcome_event_ok o :
  event_ok id reconciled events (outcome_event o) <->
  (N.of_nat (length events) < u64_max)%N /\ outcome_matches_relation id o = true
  /\ course_ok reconciled (recorded_outcomes events) o
  /\ outcome_provenance o ∉ outcome_provenance <$> recorded_outcomes events
  /\ (forall c, outcome_command o = Some c -> c ∉ omap outcome_command (recorded_outcomes events)).
Proof.
  rewrite <- event_provenances, <- event_commands.
  unfold event_ok, outcome_event, event_message_id, event_message_request. simpl.
  split.
  - intros (_ & ? & _ & _ & _ & _ & Hm & Hp & Hc & Hk).
    split_and!; [done|by apply Hm|by apply Hk|by apply Hp|]. intros c Ho. by apply Hc.
  - intros (Hlt & Hm & Hk & Hp & Hc). split_and!; try done; intros ? [= <-]; done.
Qed.

(** A new outcome passes the guards of the transition exactly when the history
    may be extended by it; a terminal evaluation needs the child's own end. *)
Lemma record_fresh_exact o r' :
  existing_outcome events (outcome_provenance o) = None ->
  (record_outcome r o = Ok r' <->
   (outcome_kind o = AlreadyTerminal -> has_child_terminal_outcome r = true)
   /\ delegation_reconstitute (with_events input (events ++ [outcome_event o])) = Ok r').
Proof using All.
  intros Hnone. rewrite loaded_extends.
  destruct loaded_relation as (Hev & Hid & Hlife & _ & _).
  pose proof (proj1 (existing_outcome_None _) Hnone) as [Hp Hc].
  assert (event_ok id reconciled events (outcome_event o) <->
    (N.of_nat (length events) < u64_max)%N /\ outcome_matches_relation id o = true
    /\ course_ok reconciled (recorded_outcomes events) o) as ->.
  { rewrite outcome_event_ok. naive_solver. }
  unfold record_outcome. fold events. rewrite Hnone, Hid, recorded_outcomes_snoc. simpl.
  rewrite course_lifecycle_snoc, <- Hlife.
  assert (forall s, map_err (reject_outcome r o) (delegation_next_ordinal r)
      ≫= (fun ordinal => Ok (push_delegation_event r (EventOutcomeRecorded ordinal o) s)) = Ok r' <->
    (N.of_nat (length events) < u64_max)%N /\ r' = push_delegation_event r (outcome_event o) s) as Hpush.
  { intros s. rewrite bind_Ok. setoid_rewrite map_err_Ok. setoid_rewrite loaded_next_ordinal.
    unfold outcome_event. naive_solver. }
  pose proof (course_guarded reconciled (recorded_outcomes events) o) as Hg.
  rewrite <- Hlife in Hg. unfold has_child_terminal_outcome. fold events.
  assert (forall A B C D E : Prop, (A /\ (B /\ C /\ D) /\ E <-> (A /\ D) /\ B /\ C /\ E)) as Hperm by tauto.
  rewrite Hperm, Hg. clear Hg Hperm.
  destruct (delegation_lifecycle r), (decide (outcome_kind o = AlreadyTerminal)) as [Ha|Ha];
    rewrite ?(bool_decide_eq_true_2 _ Ha), ?(bool_decide_eq_false_2 _ Ha); simpl.
  1,4: split; [done|tauto].
  - destruct (outcome_matches_relation id o); simpl; [rewrite Hpush|split; [done|]]; naive_solver.
  - destruct (existsb is_child_terminal _); simpl; [|split; [done|naive_solver]].
    destruct (outcome_matches_relation id o); simpl; [rewrite Hpush|split; [done|]]; naive_solver.
Qed.

(** Recording an outcome repeats a recorded one or extends the history. *)
Lemma loaded_record o r' :
  record_outcome r o = Ok r' <->
  (o ∈ recorded_outcomes events /\ r' = r)
  \/ ((outcome_kind o = AlreadyTerminal -> has_child_terminal_outcome r = true)
      /\ delegation_reconstitute (with_events input (events ++ [outcome_event o])) = Ok r').
Proof using All.
  destruct (existing_outcome events (outcome_provenance o)) as [x|] eqn:Hx.
  - pose proof (existing_outcome_elem _ _ Hx) as Hin.
    assert (~ event_ok id reconciled events (outcome_event o)) as Hno.
    { intros (_ & _ & _ & _ & _ & _ & _ & Hp & Hc & _).
      assert (existing_outcome events (outcome_provenance o) = None) as Hnone; [|congruence].
      apply existing_outcome_None. rewrite <- event_provenances, <- event_commands.
      split; [by apply Hp|]. intros c Hoc. by apply Hc. }
    unfold record_outcome. fold events. rewrite Hx, loaded_extends. case_bool_decide as Heq.
    + subst x. naive_solver.
    + split; [done|]. intros [[Ho ->]|(_ & ? & _)]; [|done].
      apply existing_outcome_recorded in Ho. congruence.
  - rewrite (record_fresh_exact o r' Hx). split; [by right|]. intros [[Ho _]|?]; [|done].
    apply existing_outcome_recorded in Ho. congruence.
Qed.

Lemma record_rejection o e :
  record_outcome r o = Err e ->
  transition_spawning_request e = delegation_spawning_request r
  /\ transition_rejected e = Some (RejectedRecordOutcome r o).
Proof.
  unfold record_outcome. destruct (existing_outcome _ _) as [x|]; [case_bool_decide; naive_solver|].
  destruct (_ && (_ || _)); [naive_solver|]. destruct (_ && _); [naive_solver|].
  destruct (negb _); [naive_solver|]. rewrite bind_Err. intros [He|(? & _ & [=])].
  destruct (delegation_next_ordinal r); naive_solver.
Qed.

(** *** Messages *)

Definition sent_message (request : DelegationMessageRequest) (id : DelegationMessageId)
    (direction : DelegationMessageDirection) : DelegationMessage :=
  mkMessage id direction (message_request_peer request) (message_request_content request)
    (from_message request).
Definition message_event (m : DelegationMessage) : DelegationEvent :=
  EventMessageDelivered (mkEventOrdinal (Pos.of_succ_nat (length events))) m.

Lemma sender_direction_exact source peer direction :
  sender_direction r source peer = Some direction <->
  endpoints_match id direction source peer = true.
Proof using All.
  destruct loaded_relation as (_ & Hid & _ & _ & [Hends _ _ _ _ _ _ _ _ _ _]).
  assert (identity_parent id = delegation_parent r) as Hp by (by rewrite <- Hid).
  assert (identity_child id = delegation_child r) as Hc by (by rewrite <- Hid).
  unfold sender_direction, endpoints_match. rewrite Hp, Hc in *.
  destruct direction; rewrite andb_true_iff, !bool_decide_eq_true; split;
    repeat case_bool_decide; simpl; naive_solver congruence.
Qed.

Lemma sent_by_request q e : sent_by q e = true <-> event_message_request e = Some q.
Proof.
  unfold sent_by, event_message_request. destruct (event_message e) as [m|]; simpl; [|done].
  destruct (provenance_tool_request _) as [[[??] q']|]; simpl; [|done].
  rewrite bool_decide_eq_true. naive_solver.
Qed.

Lemma find_sent_None q :
  find (sent_by q) events = None <-> q ∉ omap event_message_request events.
Proof.
  rewrite find_None, list_elem_of_omap. setoid_rewrite <- not_true_iff_false.
  setoid_rewrite sent_by_request. naive_solver.
Qed.

Lemma sent_message_ok req mid direction :
  let request := message_tool_request req in
  event_ok id reconciled events (message_event (sent_message req mid direction)) <->
  (N.of_nat (length events) < u64_max)%N
  /\ endpoints_match id direction (request_session request) (message_request_peer req) = true
  /\ request_id request <> identity_spawning_request id
  /\ mid ∉ omap event_message_id events
  /\ request_id request ∉ omap event_message_request events.
Proof.
  unfold event_ok, event_message_id, event_message_request, event_provenance, event_command. simpl.
  split.
  - intros (_ & Hlt & _ & Hm & Hid & Hreq & _).
    destruct (Hm _ eq_refl) as (? & ? & ? & [= <- <- <-] & Hne & Hends).
    split_and!; [done..|by apply Hid|by apply Hreq].
  - intros (Hlt & Hends & Hne & Hid & Hreq). split_and!; try naive_solver.
    intros ? [= <-]. by eexists _, _, _.
Qed.

(** A message delivered before under the same request. *)
Lemma sent_message_replay e req direction :
  e ∈ events -> event_message_request e = Some (request_id (message_tool_request req)) ->
  endpoints_match id direction (request_session (message_tool_request req))
    (message_request_peer req) = true ->
  exists m, event_message e = Some m /\
    (message_direction m = direction /\ message_content m = message_request_content req
     /\ message_provenance m = from_message req <-> m = sent_message req (message_id m) direction).
Proof using All.
  intros He Hq Hends. destruct loaded_relation as (_ & _ & _ & _ & Hl).
  destruct (event_message e) as [m|] eqn:Hm.
  2: { unfold event_message_request in Hq. by rewrite Hm in Hq. }
  exists m. split; [done|]. split; [|by intros ->].
  intros (Hd & Hc & Hp). destruct m as [mid d peer content prov]; simpl in *. subst.
  unfold sent_message. f_equal.
  destruct (legal_messages _ _ _ _ _ Hl
      (mkMessage mid direction peer (message_request_content req) (from_message req)))
    as (source & turn & q & Hk & _ & Hends').
  { apply list_elem_of_omap. by exists e. }
  simpl in Hk, Hends'. injection Hk as <- <- <-. revert Hends Hends'. unfold endpoints_match.
  destruct direction; rewrite !andb_true_iff, !bool_decide_eq_true; naive_solver congruence.
Qed.

(** The two ways to deliver, once the direction is known. *)
Definition delivered_replay (req : DelegationMessageRequest) (direction : DelegationMessageDirection)
    (r' : SessionDelegation) (e : DelegationEvent) : Prop :=
  exists ordinal mid, e = EventMessageDelivered ordinal (sent_message req mid direction)
    /\ e ∈ events /\ r' = r.
Definition delivered_new (req : DelegationMessageRequest) (mid : DelegationMessageId)
    (direction : DelegationMessageDirection) (r' : SessionDelegation) (e : DelegationEvent) : Prop :=
  e = message_event (sent_message req mid direction)
  /\ (delegation_lifecycle r = LifecycleTerminal \/ (N.of_nat (S (length events)) < u64_max)%N)
  /\ delegation_reconstitute (with_events input (events ++ [e])) = Ok r'.

Lemma replay_request req direction r' e :
  delivered_replay req direction r' e ->
  request_id (message_tool_request req) <> identity_spawning_request id
  /\ request_id (message_tool_request req) ∈ omap event_message_request events.
Proof using All.
  intros (ordinal & mid & -> & Hin & _). destruct loaded_relation as (_ & _ & _ & _ & Hl). split.
  - destruct (legal_messages _ _ _ _ _ Hl (sent_message req mid direction))
      as (? & ? & ? & [= <- <- <-] & Hne & _); [|done].
    apply list_elem_of_omap. by eexists.
  - apply list_elem_of_omap. by eexists.
Qed.

Lemma new_request req mid direction r' e :
  delivered_new req mid direction r' e ->
  request_id (message_tool_request req) <> identity_spawning_request id
  /\ request_id (message_tool_request req) ∉ omap event_message_request events.
Proof using All.
  intros (-> & _ & Hx). by apply loaded_extends, proj1, sent_message_ok in Hx as (_ & _ & ? & _ & ?).
Qed.

Lemma find_sent_replay req direction existing r' e m :
  endpoints_match id direction (request_session (message_tool_request req))
    (message_request_peer req) = true ->
  find (sent_by (request_id (message_tool_request req))) events = Some existing ->
  event_message existing = Some m ->
  (message_direction m = direction /\ message_content m = message_request_content req
    /\ message_provenance m = from_message req) /\ e = existing /\ r' = r <->
  delivered_replay req direction r' e.
Proof using All.
  intros Hends [Hin Hsent%sent_by_request]%find_Some_elem Hm.
  destruct (sent_message_replay existing req direction Hin Hsent Hends) as (m' & Hm' & Hsame).
  rewrite Hm in Hm'. injection Hm' as <-. rewrite Hsame. split.
  - intros (Heq & -> & ->). destruct existing as [|ordinal m'|]; [done| |done].
    injection Hm as ->. exists ordinal, (message_id m). by rewrite <- Heq.
  - intros (ordinal & mid & -> & He & ->).
    destruct loaded_relation as (_ & _ & _ & _ & [_ _ _ _ _ _ Hreq _ _ _ _]).
    assert (EventMessageDelivered ordinal (sent_message req mid direction) = existing) as <-
      by (by eapply (NoDup_omap_inj _ _ _ _ _ Hreq)).
    by injection Hm as <-.
Qed.

Lemma deliver_fresh req mid direction r' e :
  let event ordinal := EventMessageDelivered ordinal (sent_message req mid direction) in
  endpoints_match id direction (request_session (message_tool_request req))
    (message_request_peer req) = true ->
  request_id (message_tool_request req) <> identity_spawning_request id ->
  request_id (message_tool_request req) ∉ omap event_message_request events ->
  mid ∉ omap event_message_id events ->
  (ordinal ← match delegation_next_ordinal r with
             | Ok ordinal =>
                 if bool_decide (delegation_lifecycle r = LifecycleTerminal)
                    || (N.pos (event_ordinal_get ordinal) <? u64_max)%N
                 then Ok ordinal else Err (reject_message r req mid EventOrdinalExhausted)
             | Err failure => Err (reject_message r req mid failure)
             end;
   Ok (push_delegation_event r (event ordinal) (delegation_lifecycle r), event ordinal)) = Ok (r', e)
  <-> delivered_new req mid direction r' e.
Proof using All.
  intros event Hends Hne Hreq Hmid. unfold delivered_new.
  destruct loaded_relation as (_ & _ & Hlife & _ & _).
  assert (forall e, event_message e <> None -> event_outcome e = None ->
    course_lifecycle (recorded_outcomes (events ++ [e])) = delegation_lifecycle r) as Hkeep.
  { intros e' _ Ho. rewrite recorded_outcomes_snoc, Ho, app_nil_r. done. }
  rewrite bind_Ok. split.
  - intros (ordinal & Ho & [= <- <-]).
    destruct (delegation_next_ordinal r) as [n|] eqn:Hn; [|done].
    apply loaded_next_ordinal in Hn as [-> Hlt].
    destruct (bool_decide _ || _) eqn:Hroom; [|done]. injection Ho as <-.
    split_and!; [done| |].
    + apply orb_true_iff in Hroom as [?%bool_decide_eq_true|?%N.ltb_lt]; [by left|right].
      revert H. generalize u64_max; intros M. simpl. lia.
    + apply loaded_extends. rewrite Hkeep by done. split; [|done]. by apply sent_message_ok.
  - intros (-> & Hroom & Hx%loaded_extends). destruct Hx as [Hok ->].
    apply sent_message_ok in Hok as (Hlt & _). rewrite Hkeep by done.
    exists (mkEventOrdinal (Pos.of_succ_nat (length events))). split; [|done].
    rewrite (proj2 (loaded_next_ordinal _) (conj eq_refl Hlt)).
    assert (bool_decide (delegation_lifecycle r = LifecycleTerminal)
      || (N.pos (event_ordinal_get (mkEventOrdinal (Pos.of_succ_nat (length events)))) <? u64_max)%N
      = true) as ->; [|done].
    apply orb_true_iff. destruct Hroom as [?|Hroom]; [left; by apply bool_decide_eq_true|right].
    apply N.ltb_lt. revert Hroom. generalize u64_max; intros M. simpl. lia.
Qed.

Lemma loaded_deliver req mid dispatch r' e :
  let request := message_tool_request req in
  deliver_message r req mid dispatch = Ok (r', e) <->
  dispatch_matches request dispatch = true /\
  exists direction,
    endpoints_match id direction (request_session request) (message_request_peer req) = true /\
    (delivered_replay req direction r' e \/ delivered_new req mid direction r' e).
Proof using All.
  intros request. destruct loaded_relation as (_ & Hid & _ & _ & _).
  assert (identity_spawning_request id = delegation_spawning_request r) as Hsp by (by rewrite <- Hid).
  unfold deliver_message. fold request events.
  destruct (dispatch_matches request dispatch); simpl; [|naive_solver].
  transitivity (exists direction, sender_direction r (request_session request)
      (message_request_peer req) = Some direction /\
    (delivered_replay req direction r' e \/ delivered_new req mid direction r' e)).
  2: { setoid_rewrite sender_direction_exact. naive_solver. }
  destruct (sender_direction r _ _) as [direction|] eqn:Hends; simpl; [|naive_solver].
  apply sender_direction_exact in Hends. rewrite <- Hsp.
  transitivity (delivered_replay req direction r' e \/ delivered_new req mid direction r' e);
    [|naive_solver].
  case_bool_decide as Hq.
  { split; [done|]. intros [[H _]%replay_request|[H _]%new_request]; done. }
  destruct (find _ _) as [existing|] eqn:Hf.
  - assert (delivered_replay req direction r' e \/ delivered_new req mid direction r' e <->
      delivered_replay req direction r' e) as ->.
    { split; [|by left]. intros [?|[_ Hn]%new_request]; [done|]. exfalso.
      apply find_sent_None in Hn. unfold request in Hf. congruence. }
    pose proof Hf as [Hin Hs%sent_by_request]%find_Some_elem. unfold event_message_request in Hs.
    destruct (event_message existing) as [m|] eqn:Hm; [|done].
    rewrite <- (find_sent_replay req direction existing r' e m) by done.
    repeat case_bool_decide; naive_solver.
  - apply find_sent_None in Hf.
    assert (delivered_replay req direction r' e \/ delivered_new req mid direction r' e <->
      delivered_new req mid direction r' e) as ->.
    { split; [|by right]. intros [[_ Hn]%replay_request|?]; done. }
    destruct (existsb _ _) eqn:Hmid.
    + split; [done|]. intros (-> & _ & Hx%loaded_extends).
      apply proj1, sent_message_ok in Hx as (_ & _ & _ & Hnot & _). exfalso. apply Hnot.
      apply existsb_true in Hmid as (m & Hm & <-%bool_decide_eq_true).
      apply list_elem_of_omap in Hm as (e' & He' & Hm). apply list_elem_of_omap. exists e'.
      unfold event_message_id. by rewrite Hm.
    + apply deliver_fresh; [done..|]. rewrite list_elem_of_omap. intros (e' & He' & Hk).
      unfold event_message_id in Hk. destruct (event_message e') as [m|] eqn:Hm; [|done].
      injection Hk as <-. rewrite no_existsb in Hmid.
      assert (m ∈ delivered_messages events) as Hin by (apply list_elem_of_omap; eauto).
      specialize (Hmid m Hin). by rewrite bool_decide_eq_true_2 in Hmid.
Qed.

(** *** Terminations of the parent *)

Definition action_kind (action : BoundChildAction) : DelegationOutcomeKind :=
  match action with
  | KeepRunning => ContinueRunning
  | StopChild => ChildStopped
  | CancelChild => ChildCancelled
  end.

(** What a descendant-scoped termination records: the action of the policy on a
    running child, an evaluation of a closed edge. *)
Definition termination_outcome (a : ParentTerminationAuthority) : DelegationOutcome :=
  mkOutcome
    (match delegation_lifecycle r with
     | LifecycleActive => action_kind (policy_action (delegation_policy r) (termination_kind a))
     | LifecycleTerminal => AlreadyTerminal
     end) None (termination_reason a) (OutcomeParentCommand a).

Lemma termination_outcome_derived a failure :
  termination_scope a = ParentAndDescendants ->
  ok_or (if bool_decide (delegation_lifecycle r = LifecycleTerminal)
         then from_parent_already_terminal a
         else from_parent_policy a (policy_action (delegation_policy r) (termination_kind a)))
    failure = (Ok (termination_outcome a) : transition DelegationOutcome).
Proof.
  intros Hs. unfold termination_outcome, from_parent_already_terminal, from_parent_policy.
  rewrite Hs. by destruct (delegation_lifecycle r), (policy_action _ _).
Qed.

Lemma termination_outcome_matches a :
  termination_parent a = delegation_parent r -> termination_scope a = ParentAndDescendants ->
  outcome_matches_relation id (termination_outcome a) = true.
Proof using All.
  intros Hp Hs. destruct loaded_relation as (_ & <- & _ & _ & _). clear Hr reconciled events.
  destruct a as [parent source command kind scope]; simpl in *. subst.
  unfold outcome_matches_relation, termination_outcome, parent_outcome_matches,
    parent_evaluation_matches, termination_reason, policy_action, descendant_action, from_relation,
    child_matches. simpl.
  destruct (delegation_lifecycle r), kind; simpl;
    [destruct (delegation_policy r) as [|[] []]; simpl..| |];
    repeat (rewrite bool_decide_eq_true_2 by done); done.
Qed.

Lemma loaded_termination a r' :
  record_parent_termination r a = Ok r' <->
  termination_parent a = delegation_parent r /\ termination_scope a = ParentAndDescendants /\
  ((exists o, o ∈ recorded_outcomes events /\ parent_command (outcome_provenance o) = Some a /\ r' = r)
   \/ ((forall o, o ∈ recorded_outcomes events -> outcome_command o <> Some (termination_command a))
       /\ (N.of_nat (length events) < u64_max)%N
       /\ (delegation_lifecycle r = LifecycleTerminal -> has_child_terminal_outcome r = true)
       /\ r' = push_delegation_event r (outcome_event (termination_outcome a))
                 (if remains_active (termination_outcome a)
                  then LifecycleActive else LifecycleTerminal))).
Proof using All.
  destruct loaded_relation as (_ & _ & Hlife & _ & _). unfold record_parent_termination.
  case_bool_decide as Hp; simpl; [|naive_solver]. case_bool_decide as Hs; [naive_solver congruence|].
  assert (termination_scope a = ParentAndDescendants) as Hscope by (by destruct (termination_scope a)).
  rewrite (termination_outcome_derived a _ Hscope). fold events.
  set (o := termination_outcome a).
  assert (parent_command (outcome_provenance o) = Some a) as Hpc by done.
  destruct (existsb _ _) eqn:Hex.
  - apply existsb_true in Hex as (x & Hx & Hxa%bool_decide_eq_true). split.
    + intros [= <-]. split_and!; [done..|]. left. by exists x.
    + intros (_ & _ & [(_ & _ & _ & ->)|(Hfresh & _)]); [done|]. exfalso. apply (Hfresh x Hx).
      unfold outcome_command. by rewrite Hxa.
  - assert (forall x, x ∈ recorded_outcomes events -> parent_command (outcome_provenance x) <> Some a)
      as Hnew.
    { intros x Hx Ha. rewrite no_existsb in Hex. specialize (Hex x Hx).
      by rewrite bool_decide_eq_true_2 in Hex. }
    assert (o ∈ recorded_outcomes events -> False) as Hnot by (intros Ho; by apply (Hnew o)).
    simpl. rewrite loaded_record, loaded_extends, outcome_event_ok, recorded_outcomes_snoc. simpl.
    rewrite course_lifecycle_snoc, <- Hlife.
    pose proof (course_guarded reconciled (recorded_outcomes events) o) as Hg.
    rewrite <- Hlife in Hg. unfold has_child_terminal_outcome. fold events.
    assert ((match delegation_lifecycle r with
      | LifecycleTerminal => outcome_kind o = AlreadyTerminal /\
          existsb is_child_terminal (recorded_outcomes events) = true
      | LifecycleActive => outcome_kind o <> AlreadyTerminal end) <->
      (delegation_lifecycle r = LifecycleTerminal ->
       existsb is_child_terminal (recorded_outcomes events) = true)) as Hl.
    { unfold o, termination_outcome. simpl. destruct (delegation_lifecycle r); [|naive_solver].
      destruct (policy_action _ _); naive_solver. }
    rewrite Hl in Hg. clear Hl.
    assert ((if remains_active o then delegation_lifecycle r else LifecycleTerminal) =
      (if remains_active o then LifecycleActive else LifecycleTerminal)) as ->.
    { unfold o, remains_active, termination_outcome. simpl. by destruct (delegation_lifecycle r). }
    pose proof (termination_outcome_matches a Hp Hscope) as Hmatch. fold o in Hmatch.
    assert (outcome_provenance o ∉ outcome_provenance <$> recorded_outcomes events) as Hprov.
    { intros (x & Hx & Hin)%list_elem_of_fmap. apply (Hnew x Hin). by rewrite <- Hx. }
    assert ((forall c, outcome_command o = Some c -> c ∉ omap outcome_command (recorded_outcomes events))
      <-> (forall x, x ∈ recorded_outcomes events -> outcome_command x <> Some (termination_command a)))
      as Hcmd.
    { assert (outcome_command o = Some (termination_command a)) as -> by (unfold outcome_command; by rewrite Hpc).
      split.
      - intros H x Hx Hc. apply (H _ eq_refl), list_elem_of_omap. by exists x.
      - intros H ? [= <-] (x & Hx & Hc)%list_elem_of_omap. by apply (H x). }
    rewrite Hcmd. split.
    + intros [[??]|(Hat & (Hlt & _ & Hk & _ & Hc) & ->)]; [done|]. split_and!; [done..|]. right.
      split_and!; [done..| |done]. by apply Hg.
    + intros (_ & _ & [(x & Hx & Ha & _)|(Hc & Hlt & Hside & ->)]); [by destruct (Hnew x Hx)|]. right.
      apply Hg in Hside as [? ?]. done.
Qed.
End loaded.

(** ** Histories of transitions *)

Inductive delegation_action :=
| Deliver (request : DelegationMessageRequest) (id : DelegationMessageId)
    (dispatch : ToolDispatchAuthority)
| Record (outcome : DelegationOutcome)
| Terminate (authority : ParentTerminationAuthority).

(** The relation after an action: its successor, or the relation as it was. *)
Definition perform (r : SessionDelegation) (action : delegation_action) : SessionDelegation :=
  match action with
  | Deliver request id dispatch =>
      match deliver_message r request id dispatch with Ok (r', _) => r' | Err _ => r end
  | Record outcome => match record_outcome r outcome with Ok r' => r' | Err _ => r end
  | Terminate authority =>
      match record_parent_termination r authority with Ok r' => r' | Err _ => r end
  end.

Lemma with_own_events input r :
  delegation_reconstitute input = Ok r ->
  delegation_reconstitute (with_events input (delegation_events r)) = Ok r.
Proof.
  intros Hr. destruct (loaded_relation input r Hr) as (-> & _). by destruct input.
Qed.

Lemma pushed_events r e lifecycle :
  delegation_events (push_delegation_event r e lifecycle) = delegation_events r ++ [e].
Proof. done. Qed.

(** Any action keeps the relation or extends its history by one event the
    loader accepts. *)
Lemma perform_loaded input r action :
  delegation_reconstitute input = Ok r ->
  perform r action = r \/
  exists e, delegation_events (perform r action) = delegation_events r ++ [e] /\
    delegation_reconstitute (with_events input (delegation_events r ++ [e])) = Ok (perform r action).
Proof.
  intros Hr.
  assert (forall e r', delegation_reconstitute (with_events input (delegation_events r ++ [e])) = Ok r' ->
    exists e, delegation_events r' = delegation_events r ++ [e] /\
    delegation_reconstitute (with_events input (delegation_events r ++ [e])) = Ok r') as Hext.
  { intros e r' Hx. exists e. split; [|done]. by apply (loaded_extends input r Hr) in Hx as [_ ->]. }
  destruct action as [req mid dispatch|o|a]; simpl.
  - destruct (deliver_message r req mid dispatch) as [[r' e]|] eqn:Hd; [|by left].
    apply (loaded_deliver input r Hr) in Hd as (_ & d & _ & [(? & ? & _ & _ & ->)|(_ & _ & Hx)]);
      [by left|right; eauto].
  - destruct (record_outcome r o) as [r'|] eqn:Ho; [|by left].
    apply (loaded_record input r Hr) in Ho as [[_ ->]|[_ Hx]]; [by left|right; eauto].
  - destruct (record_parent_termination r a) as [r'|] eqn:Ht; [|by left].
    assert (r' = r \/ record_outcome r (termination_outcome r a) = Ok r') as [->|Ho]; [|by left|].
    { pose proof (proj1 (loaded_termination input r Hr a r') Ht) as (Hp & Hs & _). revert Ht.
      unfold record_parent_termination. rewrite bool_decide_eq_true_2 by done. simpl.
      rewrite bool_decide_eq_false_2 by (by rewrite Hs).
      destruct (existsb _ _); [intros [= <-]; by left|].
      rewrite (termination_outcome_derived r a _ Hs). by right. }
    apply (loaded_record input r Hr) in Ho as [[_ ->]|[_ Hx]]; [by left|right; eauto].
Qed.

Lemma run_loaded input r actions :
  delegation_reconstitute input = Ok r ->
  let r' := foldl perform r actions in
  delegation_reconstitute (with_events input (delegation_events r')) = Ok r'
  /\ exists later, delegation_events r' = delegation_events r ++ later.
Proof.
  revert input r. induction actions as [|action actions IH]; intros input r Hr; simpl.
  { split; [by apply with_own_events|]. exists []. by rewrite app_nil_r. }
  destruct (perform_loaded input r action Hr) as [->|(e & He & Hx)]; [by apply IH|].
  destruct (IH _ _ Hx) as [Hload (later & Hlater)]. split; [done|].
  exists (e :: later). rewrite Hlater, He, <- app_assoc. done.
Qed.

(** C21. Whatever is delivered, recorded and terminated on a relation loaded from
    its stored history, accepted or not, the history only grows and the grown
    history is reconstituted, without the transitions, to exactly the relation
    they led to. *)
Theorem delegation_history_reconstitutes input r actions :
  delegation_reconstitute input = Ok r ->
  let r' := foldl perform r actions in
  (exists later, delegation_events r' = delegation_events r ++ later)
  /\ delegation_reconstitute (with_events input (delegation_events r')) = Ok r'.
Proof. intros Hr. destruct (run_loaded input r actions Hr) as [? ?]. by split. Qed.

(** The child's own end. *)
Definition child_end (r : SessionDelegation) : list DelegationOutcome :=
  List.filter is_child_terminal (recorded_outcomes (delegation_events r)).

Lemma course_child_end reconciled l lifecycle :
  outcome_course reconciled l lifecycle ->
  (length (List.filter is_child_terminal l) <= 1)%nat
  /\ (lifecycle = LifecycleActive -> List.filter is_child_terminal l = []).
Proof.
  assert (forall l', (forall o, o ∈ l' -> is_child_terminal o = false) ->
    List.filter is_child_terminal l' = []) as Hnone.
  { induction l' as [|o l' IH]; intros H; [done|]. simpl. rewrite (H o) by set_solver.
    apply IH. set_solver. }
  intros (running & closing & -> & Hrun & Hcl). rewrite List.filter_app.
  rewrite (Hnone running) by (intros o Ho%Hrun; unfold is_child_terminal; by rewrite Ho). simpl.
  destruct closing as [|c evaluations]; simpl; [split; [lia|done]|].
  destruct Hcl as (-> & _ & Hev).
  rewrite (Hnone evaluations) by (intros o Ho%Hev; unfold is_child_terminal; by rewrite Ho).
  split; [destruct (is_child_terminal c); simpl; lia|done].
Qed.

(** A child ends at most once, and its end is never revised: in every
    history the end recorded for a child is the one that stays, and a relation
    that is still active has none. *)
Theorem delegation_ends_once input r actions :
  delegation_reconstitute input = Ok r ->
  let r' := foldl perform r actions in
  (length (child_end r') <= 1)%nat
  /\ (forall o, child_end r = [o] -> child_end r' = [o])
  /\ (delegation_lifecycle r' = LifecycleActive -> child_end r' = [])
  /\ (delegation_lifecycle r = LifecycleTerminal -> delegation_lifecycle r' = LifecycleTerminal).
Proof.
  intros Hr r'. destruct (run_loaded input r actions Hr) as [Hload (later & Hlater)]. fold r' in Hload, Hlater.
  destruct (loaded_relation _ _ Hload) as (_ & _ & Hlife' & _ & Hl').
  destruct (loaded_relation _ _ Hr) as (_ & _ & Hlife & _ & _).
  destruct (course_child_end _ _ _ (legal_course _ _ _ _ _ Hl')) as [Hone Hactive].
  unfold child_end in *. split_and!; [done| |done|].
  - intros o Ho. revert Hone. rewrite Hlater. unfold recorded_outcomes in *.
    rewrite omap_app, List.filter_app, Ho. destruct (List.filter _ (omap _ later)); simpl; [done|lia].
  - rewrite Hlife, Hlife', Hlater. unfold course_lifecycle, recorded_outcomes.
    rewrite omap_app, existsb_app. by destruct (existsb is_closing (omap event_outcome (delegation_events r))).
Qed.

(** C22. A stored relation is reconstituted exactly when its history is legal:
    one spawn of two distinct sessions first, contiguous ordinals, messages
    between the endpoints under distinct requests and identities, outcomes the
    policy and the child admit under distinct authorities, and the child running
    until one outcome closes the relation. A rejection returns the input. *)
Theorem delegation_reconstitution_exact input :
  (forall relation, delegation_reconstitute input = Ok relation <->
     exists lifecycle, history_legal (identity_of_input input)
         (from_spawn (input_spawning_request input)) (reconciliation_required_child input)
         (input_events input) lifecycle
       /\ relation = relation_of input lifecycle)
  /\ (forall rejected failure, delegation_reconstitute input = Err (rejected, failure) ->
       rejected = input /\ forall lifecycle, ~ input_legal input lifecycle).
Proof.
  split; [intros relation; apply reconstitute_exact|]. intros rejected failure He.
  unfold delegation_reconstitute in He. apply bind_Err in He as [He|(? & _ & [=])].
  destruct (validate_reconstituted_history input) as [|f] eqn:Hv; [done|]. injection He as <- <-.
  split; [done|]. intros lifecycle Hl%validate_history_exact. congruence.
Qed.

(** C37. A termination of the parent that selects descendants repeats its earlier
    evaluation, or records exactly what the relationship policy says: a running
    child is kept, stopped or cancelled, a closed edge only evaluated, and the
    loader accepts the grown history. *)
Theorem parent_termination_exact input r a r' :
  delegation_reconstitute input = Ok r ->
  (record_parent_termination r a = Ok r' <->
   termination_parent a = delegation_parent r /\ termination_scope a = ParentAndDescendants /\
   ((exists o, o ∈ recorded_outcomes (delegation_events r)
       /\ parent_command (outcome_provenance o) = Some a /\ r' = r)
    \/ ((forall o, o ∈ recorded_outcomes (delegation_events r) ->
          outcome_command o <> Some (termination_command a))
        /\ (N.of_nat (length (delegation_events r)) < u64_max)%N
        /\ (delegation_lifecycle r = LifecycleTerminal -> has_child_terminal_outcome r = true)
        /\ r' = push_delegation_event r (outcome_event r (termination_outcome r a))
                  (if remains_active (termination_outcome r a)
                   then LifecycleActive else LifecycleTerminal)))).
Proof. intros Hr. apply (loaded_termination input r Hr). Qed.

(** An outcome is recorded exactly when it is recorded already, or the
    history extended by it is one the loader accepts; an evaluation of a closed
    edge also needs the child's own end. A rejection returns the relation and
    the outcome. *)
Theorem outcome_record_exact input r o :
  delegation_reconstitute input = Ok r ->
  (forall r', record_outcome r o = Ok r' <->
    (o ∈ recorded_outcomes (delegation_events r) /\ r' = r)
    \/ ((outcome_kind o = AlreadyTerminal -> has_child_terminal_outcome r = true)
        /\ delegation_reconstitute
             (with_events input (delegation_events r ++ [outcome_event r o])) = Ok r'))
  /\ (forall e, record_outcome r o = Err e ->
        transition_rejected e = Some (RejectedRecordOutcome r o)).
Proof.
  intros Hr. split; [intros r'; apply (loaded_record input r Hr)|].
  intros e He. by apply (record_rejection r) in He as [_ ?].
Qed.

(** A message is delivered exactly when its request is the one dispatched,
    an endpoint addresses the other, and it is either the recorded message of
    that request or extends the history as the loader accepts it; an active
    relation keeps the last ordinal free. *)
Theorem message_delivery_exact input r req mid dispatch r' e :
  delegation_reconstitute input = Ok r ->
  (deliver_message r req mid dispatch = Ok (r', e) <->
   authority_request dispatch = message_tool_request req /\
   exists direction,
     endpoints_match (identity_of_input input) direction
       (request_session (message_tool_request req)) (message_request_peer req) = true /\
     (delivered_replay r req direction r' e \/ delivered_new input r req mid direction r' e)).
Proof.
  intros Hr. rewrite (loaded_deliver input r Hr). unfold dispatch_matches.
  by rewrite bool_decide_eq_true.
Qed.

(** ** Outcomes and their stored facts *)

Section outcomes.
Context `{Sha256}.

(** The outcomes the constructors produce, from sealed terminal turns and
    applied parent commands. *)
Inductive constructed : DelegationOutcome -> Prop :=
| constructed_completed session turn content :
    constructed (from_completed_child session turn content)
| constructed_failed session turn :
    constructed (failed_child (terminal_from_failed session turn))
| constructed_unavailable session turn :
    constructed (failed_child (terminal_from_reconciliation_required session turn))
| constructed_cancelled session turn :
    constructed (cancelled_child (terminal_from_cancelled session turn))
| constructed_policy authority action o :
    from_parent_policy authority action = Some o -> constructed o
| constructed_evaluation authority o :
    from_parent_already_terminal authority = Some o -> constructed o.

Definition stored_outcome (o : DelegationOutcome) : option DelegationOutcome :=
  outcome_reconstitute (outcome_kind o) (outcome_content o) (outcome_reason o)
    (reconstitution_provenance o).

Lemma constructed_stored o : constructed o -> stored_outcome o = Some o.
Proof.
  intros [session turn content|session turn|session turn|session turn|a action o' Ho|a o' Ho];
    unfold stored_outcome.
  - destruct content as [content|]; [|done]. cbn. unfold from_terminal_child. simpl.
    by rewrite bool_decide_eq_true_2.
  - done.
  - done.
  - done.
  - unfold from_parent_policy in Ho. destruct a as [p [] c k []], k, action;
      simplify_eq/=; reflexivity.
  - unfold from_parent_already_terminal in Ho. destruct a as [p [] c k []], k;
      simplify_eq/=; reflexivity.
Qed.

Lemma parent_outcome_constructed kind content reason parent source command o :
  reconstitute_parent_outcome kind content reason parent source command = Some o ->
  constructed o /\ outcome_kind o = kind /\ outcome_content o = content /\ outcome_reason o = reason
  /\ exists termination, outcome_sealed o
       = OutcomeParentCommand (mkTermination parent source command termination ParentAndDescendants).
Proof.
  unfold reconstitute_parent_outcome. case_bool_decide as Hc; [done|].
  destruct content; [by destruct Hc|].
  intros (termination & Ht & Ho)%bind_Some.
  set (a := mkTermination parent source command termination ParentAndDescendants) in *.
  assert (reason = termination_reason a) as ->.
  { destruct reason as [| | | |[]|[]]; try done; by injection Ht as <-. }
  assert (constructed o) as Hco.
  { destruct kind; try done;
      [eapply constructed_policy|eapply constructed_policy|eapply constructed_evaluation
      |eapply constructed_policy]; exact Ho. }
  destruct kind; try done; simpl in Ho; injection Ho as <-; split_and!; try done; by eexists.
Qed.

(** Stored facts of an outcome are reconstituted exactly when they are the
    facts of an outcome that a sealed child turn or an applied parent command
    produced, and then as that outcome. *)
Theorem outcome_roundtrip kind content reason provenance o :
  outcome_reconstitute kind content reason provenance = Some o <->
  constructed o /\ kind = outcome_kind o /\ content = outcome_content o
  /\ reason = outcome_reason o /\ provenance = reconstitution_provenance o.
Proof.
  split; [|intros (Ho%constructed_stored & -> & -> & -> & ->); done].
  destruct provenance as [session turn|session turn command|session generation command|session command];
    simpl.
  2,3,4: intros (Ho & <- & <- & <- & termination & Hs)%parent_outcome_constructed;
    split_and!; [done..|]; unfold reconstitution_provenance; by rewrite Hs.
  destruct kind, reason as [| | | |scope|scope], content as [content|]; try done; simpl;
    unfold from_terminal_child; simpl; rewrite ?bool_decide_eq_true_2 by done; simpl; intros [= <-];
    (split_and!; [|done..]).
  - apply (constructed_completed session turn (Some content)).
  - apply (constructed_failed session turn).
  - apply (constructed_unavailable session turn).
  - apply (constructed_cancelled session turn).
Qed.
End outcomes.

(** ** Witnesses *)

Definition sample_tool_request (id session : N) : ToolRequest :=
  mkToolRequest (from_uuid id) (from_uuid session) (from_uuid 31) (from_uuid 41) (mkToolOrdinal 0)
    (mkToolName (lit "spawn_session")) (mkArguments JsonArguments (lit "{}")) PostureAuto None.
Definition sample_dispatch (request : ToolRequest) : ToolDispatchAuthority :=
  let attempt := prepare_attempt
    (mkApproved request (user_resolution (from_uuid 51) (request_id request) Approve))
    (from_uuid 61) (from_uuid 71) EffectFree in
  mkDispatchAuthority request attempt (mkFence (attempt_correlation attempt)).
Definition sample_content : DelegationContent := mkDelegationContent (mkUnicodeText "report").
Definition sample_spawn : DelegatedSpawnRequest :=
  mkSpawnRequest (sample_tool_request 11 1) sample_content (BoundPolicy StopChild CancelChild).
Definition sample_input : SessionDelegationReconstitutionInput :=
  mkDelegationInput sample_spawn (from_uuid 2) (from_uuid 3) false
    [EventSpawned event_ordinal_first (from_spawn sample_spawn)].
Definition sample_relation : SessionDelegation := relation_of sample_input LifecycleActive.
Definition sample_message : DelegationMessageRequest :=
  mkMessageRequest (sample_tool_request 12 2) (from_uuid 1) sample_content.
Definition sample_termination : ParentTerminationAuthority :=
  mkTermination (from_uuid 1) SourceLifecycle (from_uuid 81) KindStopped ParentAndDescendants.
Definition sample_actions : list delegation_action :=
  [Deliver sample_message (from_uuid 91) (sample_dispatch (message_tool_request sample_message));
   Terminate sample_termination;
   Record (failed_child (terminal_from_failed (from_uuid 2) (from_uuid 3)));
   Terminate (mkTermination (from_uuid 1) (SourceTurn (from_uuid 4)) (from_uuid 82) KindCancelled
                ParentAndDescendants)].

Lemma sample_loaded : delegation_reconstitute sample_input = Ok sample_relation.
Proof. vm_compute. reflexivity. Qed.

(** The message and the two terminations are recorded, the late end is not. *)
Example sample_history :
  outcome_kind <$> recorded_outcomes (delegation_events (foldl perform sample_relation sample_actions))
    = [ChildStopped; AlreadyTerminal]
  /\ length (delegation_events (foldl perform sample_relation sample_actions)) = 4%nat.
Proof. vm_compute. split; reflexivity. Qed.

Lemma delegation_history_reconstitutes_witness :
  let r' := foldl perform sample_relation sample_actions in
  (exists later, delegation_events r' = delegation_events sample_relation ++ later)
  /\ delegation_reconstitute (with_events sample_input (delegation_events r')) = Ok r'.
Proof. exact (delegation_history_reconstitutes sample_input sample_relation sample_actions sample_loaded). Defined.

Lemma delegation_ends_once_witness :
  (length (child_end (foldl perform sample_relation sample_actions)) <= 1)%nat.
Proof.
  exact (proj1 (delegation_ends_once sample_input sample_relation sample_actions sample_loaded)).
Defined.

Lemma parent_termination_exact_witness :
  exists r', record_parent_termination sample_relation sample_termination = Ok r'
    /\ termination_scope sample_termination = ParentAndDescendants.
Proof.
  eexists. split; [reflexivity|].
  exact (proj1 (proj2 (proj1 (parent_termination_exact sample_input sample_relation
    sample_termination _ sample_loaded) eq_refl))).
Defined.

Lemma outcome_record_exact_witness :
  forall e, record_outcome sample_relation
      (mkOutcome AlreadyTerminal None ReasonChildCancelled (OutcomeParentCommand sample_termination))
    = Err e ->
  transition_rejected e = Some (RejectedRecordOutcome sample_relation
      (mkOutcome AlreadyTerminal None ReasonChildCancelled (OutcomeParentCommand sample_termination))).
Proof. exact (proj2 (outcome_record_exact sample_input sample_relation _ sample_loaded)). Defined.

Lemma message_delivery_exact_witness :
  authority_request (sample_dispatch (message_tool_request sample_message))
    = message_tool_request sample_message.
Proof.
  exact (proj1 (proj1 (message_delivery_exact sample_input sample_relation sample_message
    (from_uuid 91) (sample_dispatch (message_tool_request sample_message)) _ _ sample_loaded) eq_refl)).
Defined.
