(* ===== verification/ImportedValue.v ===== *)
(** * Imported structured values

    Model of [crates/domain/src/imported_conversation/structured_value.rs],
    [structured_field.rs], the depth bound of [validation.rs] and the digest
    framing of [digest.rs]. The traversals of a value are loops over an explicit
    stack, so that deep values cannot exhaust the machine's; they are modelled
    as those loops and proved to be what they stand for: cloning is the
    identity, the comparison decides equality, the depth check is the depth, and
    the bytes fed to the digest determine the value. A stack is the list of its
    elements from the top. *)

From Stdlib Require Import Ascii.
From Equations Require Import Equations.
From stdpp Require Import strings.
From S2P Require Import Prelude.

Record ImportedText := mkImportedText { imported_text : string }.
Record ImportedJsonNumber := mkImportedNumber { imported_number : string }.

Inductive ImportedSourceAttestation (Value : Type) :=
| Attested (value : Value)
| AttestedAbsent
| NotAttested.
Arguments Attested {Value} value.
Arguments AttestedAbsent {Value}.
Arguments NotAttested {Value}.

#[export] Instance ImportedText_eq_dec : EqDecision ImportedText.
Proof. solve_decision. Defined.
#[export] Instance ImportedJsonNumber_eq_dec : EqDecision ImportedJsonNumber.
Proof. solve_decision. Defined.
#[export] Instance ImportedSourceAttestation_eq_dec `{EqDecision V} :
  EqDecision (ImportedSourceAttestation V).
Proof. solve_decision. Defined.

Inductive ImportedStructuredValue :=
| SvNull
| SvBoolean (value : bool)
| SvNumber (value : ImportedJsonNumber)
| SvString (value : ImportedText)
| SvArray (values : list ImportedStructuredValue)
| SvObject (members : list (ImportedText * ImportedStructuredValue)).

(** A member is its name and its value. *)
Definition ImportedStructuredObjectMember : Type := ImportedText * ImportedStructuredValue.

Lemma structured_ind (P : ImportedStructuredValue -> Prop) :
  P SvNull -> (forall b, P (SvBoolean b)) -> (forall n, P (SvNumber n)) -> (forall t, P (SvString t)) ->
  (forall values, (forall v, v ∈ values -> P v) -> P (SvArray values)) ->
  (forall members, (forall v, v ∈ snd <$> members -> P v) -> P (SvObject members)) ->
  forall v, P v.
Proof.
  intros Hn Hb Hnum Hs Ha Ho. fix IH 1. intros [|b|n|t|values|members]; [done|auto..| |].
  - apply Ha. induction values as [|v values IHl]; [set_solver|].
    intros x [->|Hx]%elem_of_cons; [apply IH|by apply IHl].
  - apply Ho. induction members as [|[name v] members IHl]; [set_solver|].
    intros x [->|Hx]%elem_of_cons; [apply IH|by apply IHl].
Qed.

(** The number of nodes, names of members included, bounds every traversal. *)
Fixpoint node_count (v : ImportedStructuredValue) : nat :=
  match v with
  | SvArray values => S (sum_list_with node_count values)
  | SvObject members => S (sum_list_with (fun member => S (node_count (snd member))) members)
  | _ => 1
  end.

(** The nesting of containers. *)
Fixpoint container_depth (v : ImportedStructuredValue) : N :=
  match v with
  | SvArray values => N.succ (foldr (fun v depth => N.max (container_depth v) depth) 0 values)%N
  | SvObject members =>
      N.succ (foldr (fun member depth => N.max (container_depth (snd member)) depth) 0 members)%N
  | _ => 0%N
  end.

Lemma sum_with_app {A} (f : A -> nat) l1 l2 :
  sum_list_with f (l1 ++ l2) = sum_list_with f l1 + sum_list_with f l2.
Proof. induction l1; simpl; lia. Qed.

Lemma sum_with_map {A B} (f : B -> nat) (g : A -> B) l :
  sum_list_with f (map g l) = sum_list_with (fun x => f (g x)) l.
Proof. induction l as [|x l IHl]; simpl; [done|]. by rewrite IHl. Qed.

Lemma sum_with_double {A} (f : A -> nat) l :
  sum_list_with (fun x => 2 * f x) l = 2 * sum_list_with f l.
Proof. induction l; simpl in *; lia. Qed.

Lemma sum_with_reverse {A} (f : A -> nat) l : sum_list_with f (reverse l) = sum_list_with f l.
Proof. induction l as [|x l IH]; [done|]. rewrite reverse_cons, sum_with_app, IH. simpl. lia. Qed.

Lemma sum_with_le {A} (f g : A -> nat) l :
  (forall x, f x <= g x) -> sum_list_with f l <= sum_list_with g l.
Proof. intros Hle. induction l as [|x l IH]; simpl; [lia|]. specialize (Hle x). lia. Qed.

(** ** Clone *)

Inductive CloneTask :=
| VisitValue (value : ImportedStructuredValue)
| FinishArray (value_count : nat)
| FinishObject (members : list ImportedStructuredObjectMember).

Definition clone_weight (task : CloneTask) : nat :=
  match task with
  | VisitValue value => 2 * node_count value
  | FinishArray _ | FinishObject _ => 1
  end.

(** [while let Some(task) = tasks.pop()] *)
Equations? clone_loop (tasks : list CloneTask) (built : list ImportedStructuredValue) :
    list ImportedStructuredValue by wf (sum_list_with clone_weight tasks) lt :=
  clone_loop [] built := built;
  clone_loop (VisitValue (SvArray values) :: tasks) built :=
    clone_loop (map VisitValue values ++ FinishArray (length values) :: tasks) built;
  clone_loop (VisitValue (SvObject members) :: tasks) built :=
    clone_loop (map (fun member => VisitValue (snd member)) members ++ FinishObject members :: tasks)
      built;
  clone_loop (VisitValue value :: tasks) built := clone_loop tasks (built ++ [value]);
  clone_loop (FinishArray value_count :: tasks) built :=
    let start := length built - value_count in
    clone_loop tasks (take start built ++ [SvArray (drop start built)]);
  clone_loop (FinishObject members :: tasks) built :=
    let start := length built - length members in
    let cloned_members := zip_with (fun member value => (fst member, value)) members (drop start built) in
    clone_loop tasks (take start built ++ [SvObject cloned_members]).
Proof.
  all: rewrite ?sum_with_app, ?sum_with_map; simpl; rewrite ?Nat.add_0_r; try lia.
  - pose proof (sum_with_double node_count values). simpl in *. lia.
  - pose proof (sum_with_double (fun member : ImportedStructuredObjectMember => node_count (snd member)) members).
    pose proof (sum_with_le (fun member => node_count (snd member))
                  (fun member : ImportedStructuredObjectMember => S (node_count (snd member))) members
                  ltac:(intros; simpl; lia)).
    unfold ImportedStructuredObjectMember in *. simpl in *. lia.
Qed.

Definition structured_clone (self : ImportedStructuredValue) : ImportedStructuredValue :=
  default SvNull (last (clone_loop [VisitValue self] [])).

Lemma clone_visits values tasks built :
  (forall v, v ∈ values -> forall tasks built,
     clone_loop (VisitValue v :: tasks) built = clone_loop tasks (built ++ [v])) ->
  clone_loop (map VisitValue values ++ tasks) built = clone_loop tasks (built ++ values).
Proof.
  revert built. induction values as [|v values IH]; intros built Hv; simpl; [by rewrite app_nil_r|].
  rewrite Hv by set_solver. rewrite IH by set_solver. by rewrite <- app_assoc.
Qed.

Lemma rebuilt_members (members : list ImportedStructuredObjectMember) :
  zip_with (fun member value => (fst member, value)) members (map snd members) = members.
Proof. induction members as [|[name v] members IH]; simpl; [done|]. by f_equal. Qed.

Lemma clone_visit v tasks built :
  clone_loop (VisitValue v :: tasks) built = clone_loop tasks (built ++ [v]).
Proof.
  revert tasks built. induction v as [|b|n|t|values IH|members IH] using structured_ind;
    intros tasks built; simp clone_loop; [done..| |].
  - rewrite clone_visits by done. simp clone_loop. simpl. rewrite length_app, Nat.add_sub.
    by rewrite take_app_length, drop_app_length.
  - rewrite <- (map_map snd VisitValue), clone_visits by done. simp clone_loop. simpl.
    rewrite length_app, length_map, Nat.add_sub, take_app_length, drop_app_length.
    by rewrite rebuilt_members.
Qed.

(** ** Equality *)

Definition pair_weight (compared : ImportedStructuredValue * ImportedStructuredValue) : nat :=
  node_count (fst compared).

(** The loop over the members of two objects of the same length: it compares
    the names and pushes the values, or returns early. *)
Fixpoint push_members (lefts rights : list ImportedStructuredObjectMember)
    (pending : list (ImportedStructuredValue * ImportedStructuredValue)) :
    option (list (ImportedStructuredValue * ImportedStructuredValue)) :=
  match lefts, rights with
  | (left_name, left_value) :: lefts, (right_name, right_value) :: rights =>
      if negb (bool_decide (left_name = right_name)) then None
      else push_members lefts rights ((left_value, right_value) :: pending)
  | _, _ => Some pending
  end.

Lemma push_members_Some lefts rights pending pushed :
  length lefts = length rights ->
  push_members lefts rights pending = Some pushed <->
  map fst lefts = map fst rights /\ pushed = reverse (zip (map snd lefts) (map snd rights)) ++ pending.
Proof.
  revert rights pending. induction lefts as [|[ln lv] lefts IH]; intros [|[rn rv] rights] pending Hlen;
    try done; simpl in *; [split; [by intros [= <-]|by intros [_ ->]]|].
  case_bool_decide as Hname; simpl; [|split; [done|by intros [[= ? ?] _]]].
  rewrite IH by lia. rewrite reverse_cons, <- app_assoc. simpl. subst rn.
  split; intros [? ->]; split; congruence.
Qed.

Lemma push_members_weight lefts rights pending pushed :
  push_members lefts rights pending = Some pushed ->
  sum_list_with pair_weight pushed
  <= sum_list_with (fun member => S (node_count (snd member))) lefts + sum_list_with pair_weight pending.
Proof.
  revert rights pending. induction lefts as [|[ln lv] lefts IH]; intros [|[rn rv] rights] pending;
    simpl; try (intros [= <-]; lia).
  destruct (negb _); [done|]. intros Hp%IH. simpl in Hp. unfold pair_weight at 2 in Hp. simpl in Hp. lia.
Qed.

Lemma zip_weight (lefts rights : list ImportedStructuredValue) :
  sum_list_with pair_weight (zip lefts rights) <= sum_list_with node_count lefts.
Proof.
  revert rights. induction lefts as [|l lefts IH]; intros [|r rights]; simpl; try lia.
  specialize (IH rights). unfold pair_weight at 1. simpl. lia.
Qed.

(** One iteration of the loop: the pending pairs after it, or an early return. *)
Definition eq_step (compared : ImportedStructuredValue * ImportedStructuredValue)
    (pending : list (ImportedStructuredValue * ImportedStructuredValue)) :
    option (list (ImportedStructuredValue * ImportedStructuredValue)) :=
  match compared with
  | (SvNull, SvNull) => Some pending
  | (SvBoolean l, SvBoolean r) => if bool_decide (l = r) then Some pending else None
  | (SvNumber l, SvNumber r) => if bool_decide (l = r) then Some pending else None
  | (SvString l, SvString r) => if bool_decide (l = r) then Some pending else None
  | (SvArray lefts, SvArray rights) =>
      if bool_decide (length lefts = length rights)
      then Some (reverse (zip lefts rights) ++ pending) else None
  | (SvObject lefts, SvObject rights) =>
      if bool_decide (length lefts = length rights) then push_members lefts rights pending else None
  | _ => None
  end.

Lemma eq_step_weight compared pending pushed :
  eq_step compared pending = Some pushed ->
  sum_list_with pair_weight pushed < pair_weight compared + sum_list_with pair_weight pending.
Proof.
  unfold eq_step. intros Hs. repeat case_match; simplify_eq; unfold pair_weight at 2; simpl; try lia.
  - rewrite sum_with_app, sum_with_reverse.
    match goal with |- context [zip ?l ?r] => pose proof (zip_weight l r) end. lia.
  - apply push_members_weight in Hs. unfold ImportedStructuredObjectMember in *. lia.
Qed.

(** [while let Some((left, right)) = pending.pop()] *)
Equations? eq_loop (pending : list (ImportedStructuredValue * ImportedStructuredValue)) : bool
    by wf (sum_list_with pair_weight pending) lt :=
  eq_loop [] := true;
  eq_loop (compared :: pending) :=
    match eq_step compared pending as pushed return eq_step compared pending = pushed -> bool with
    | Some pushed => fun Hpushed => eq_loop pushed
    | None => fun _ => false
    end eq_refl.
Proof. simpl. by apply eq_step_weight. Qed.

Lemma eq_loop_cons compared pending :
  eq_loop (compared :: pending) =
  match eq_step compared pending with Some pushed => eq_loop pushed | None => false end.
Proof. simp eq_loop. by destruct (eq_step compared pending). Qed.

(** [PartialEq::eq] *)
Definition structured_eq (self other : ImportedStructuredValue) : bool := eq_loop [(self, other)].

Lemma eq_pairs ls rs pending :
  (forall l, l ∈ ls -> forall r pending,
     eq_loop ((l, r) :: pending) = true <-> l = r /\ eq_loop pending = true) ->
  length ls = length rs ->
  eq_loop (reverse (zip ls rs) ++ pending) = true <-> ls = rs /\ eq_loop pending = true.
Proof.
  revert rs pending. induction ls as [|l ls IH]; intros [|r rs] pending Hl Hlen; simpl in *; try done.
  - split; [done|by intros [_ ?]].
  - rewrite reverse_cons, <- app_assoc. simpl. rewrite IH by (set_solver || lia).
    rewrite Hl by set_solver. split; [by intros (-> & -> & ?)|by intros [[= -> ->] ?]].
Qed.

Lemma members_eq (ls rs : list ImportedStructuredObjectMember) :
  ls = rs <-> map fst ls = map fst rs /\ map snd ls = map snd rs.
Proof.
  split; [by intros ->|]. revert rs.
  induction ls as [|[ln lv] ls IH]; intros [|[rn rv] rs] [[=] [=]]; [done|]. subst. f_equal. auto.
Qed.

Lemma eq_pair l r pending :
  eq_loop ((l, r) :: pending) = true <-> l = r /\ eq_loop pending = true.
Proof.
  revert r pending. induction l as [|b|n|t|values IH|members IH] using structured_ind;
    intros r pending; rewrite eq_loop_cons; destruct r as [|b'|n'|t'|values'|members']; simpl;
    try (split; [done|by intros [[=] _]]); try (split; [done|by intros [_ ?]]);
    try (case_bool_decide as Hb; [subst|split; [done|intros [[= ?] _]; congruence]]);
    try (split; [done|by intros [_ ?]]).
  - rewrite eq_pairs by done. split; [by intros [-> ?]|by intros [[= ->] ?]].
  - destruct (push_members members members' pending) as [pushed|] eqn:Hp.
    + apply push_members_Some in Hp as [Hnames ->]; [|done]. rewrite eq_pairs by (rewrite ?length_map; done).
      split; intros [Heq ?]; (split; [|done]).
      * f_equal. by apply members_eq.
      * by injection Heq as ->.
    + split; [done|]. intros [[= ->] _]. exfalso.
      assert (is_Some (push_members members' members' pending)) as [? ?]; [|congruence].
      eexists. by apply push_members_Some.
Qed.

Lemma structured_eq_spec v w : structured_eq v w = true <-> v = w.
Proof. unfold structured_eq. rewrite eq_pair. simp eq_loop. naive_solver. Qed.

#[export] Instance ImportedStructuredValue_eq_dec : EqDecision ImportedStructuredValue.
Proof.
  intros v w. destruct (structured_eq v w) eqn:He.
  - left. by apply structured_eq_spec.
  - right. intros Hvw%structured_eq_spec. congruence.
Defined.

(** ** Depth *)

Definition MAX_STRUCTURED_CONTAINER_DEPTH : N := 128.

(** One iteration: the values to visit after it, or an early return. *)
Definition depth_step (visited : ImportedStructuredValue * N)
    (pending : list (ImportedStructuredValue * N)) : option (list (ImportedStructuredValue * N)) :=
  let '(value, depth) := visited in
  match value with
  | SvArray values =>
      depth ← u64_checked_add depth 1;
      if (MAX_STRUCTURED_CONTAINER_DEPTH <? depth)%N then None
      else Some (reverse (map (fun value => (value, depth)) values) ++ pending)
  | SvObject members =>
      depth ← u64_checked_add depth 1;
      if (MAX_STRUCTURED_CONTAINER_DEPTH <? depth)%N then None
      else Some (reverse (map (fun member => (snd member, depth)) members) ++ pending)
  | _ => Some pending
  end.

Definition depth_weight (visited : ImportedStructuredValue * N) : nat := node_count (fst visited).

Lemma depth_step_weight visited pending pushed :
  depth_step visited pending = Some pushed ->
  sum_list_with depth_weight pushed < depth_weight visited + sum_list_with depth_weight pending.
Proof.
  destruct visited as [value depth]. unfold depth_step.
  change (depth_weight (value, depth)) with (node_count value).
  destruct value as [| | | |values|members]; try (intros [= <-]; simpl; lia);
    destruct (u64_checked_add depth 1) as [next|]; simpl; try done;
    case_match; try done; intros [= <-]; rewrite sum_with_app, sum_with_reverse, sum_with_map.
  - change (fun x => depth_weight (x, next)) with node_count. lia.
  - pose proof (sum_with_le (fun member => depth_weight (snd member, next))
                  (fun member : ImportedText * ImportedStructuredValue => S (node_count (snd member)))
                  members ltac:(unfold depth_weight; simpl; lia)).
    unfold ImportedStructuredObjectMember in *. lia.
Qed.

Equations? depth_loop (pending : list (ImportedStructuredValue * N)) : bool
    by wf (sum_list_with depth_weight pending) lt :=
  depth_loop [] := true;
  depth_loop (visited :: pending) :=
    match depth_step visited pending as pushed return depth_step visited pending = pushed -> bool with
    | Some pushed => fun Hpushed => depth_loop pushed
    | None => fun _ => false
    end eq_refl.
Proof. simpl. by apply depth_step_weight. Qed.

Lemma depth_loop_cons visited pending :
  depth_loop (visited :: pending) =
  match depth_step visited pending with Some pushed => depth_loop pushed | None => false end.
Proof. simp depth_loop. by destruct (depth_step visited pending). Qed.

Definition structured_value_within_depth (value : ImportedStructuredValue) : bool :=
  depth_loop [(value, 0%N)].

Lemma depth_children values depth pending :
  (forall v, v ∈ values -> forall pending, (depth <= MAX_STRUCTURED_CONTAINER_DEPTH)%N ->
     depth_loop ((v, depth) :: pending) = true <->
     (container_depth v + depth <= MAX_STRUCTURED_CONTAINER_DEPTH)%N /\ depth_loop pending = true) ->
  (depth <= MAX_STRUCTURED_CONTAINER_DEPTH)%N ->
  depth_loop (reverse (map (fun value => (value, depth)) values) ++ pending) = true <->
  (foldr (fun v deepest => N.max (container_depth v) deepest) 0 values + depth
   <= MAX_STRUCTURED_CONTAINER_DEPTH)%N /\ depth_loop pending = true.
Proof.
  revert pending. induction values as [|v values IH]; intros pending Hv Hd; simpl.
  - split; [|by intros [_ ?]]. intros ?. split; [lia|done].
  - rewrite reverse_cons, <- app_assoc. simpl. rewrite IH by (set_solver || done).
    rewrite Hv by (set_solver || done).
    split; [intros (? & ? & ?)|intros (? & ?)]; repeat split; try done; lia.
Qed.

Lemma deepest_member (members : list ImportedStructuredObjectMember) :
  foldr (fun v deepest => N.max (container_depth v) deepest) 0%N (map snd members)
  = foldr (fun member deepest => N.max (container_depth (snd member)) deepest) 0%N members.
Proof. induction members as [|member members IH]; simpl; [done|]. by rewrite IH. Qed.

Lemma depth_visit v depth pending :
  (depth <= MAX_STRUCTURED_CONTAINER_DEPTH)%N ->
  depth_loop ((v, depth) :: pending) = true <->
  (container_depth v + depth <= MAX_STRUCTURED_CONTAINER_DEPTH)%N /\ depth_loop pending = true.
Proof.
  revert depth pending.
  induction v as [| | | |values IH|members IH] using structured_ind; intros depth pending Hd;
    rewrite depth_loop_cons; simpl; try (split; [intros ?; split; [lia|done]|by intros [_ ?]]);
    rewrite (proj2 (u64_checked_add_Some depth 1 (depth + 1)))
      by (unfold u64_max, MAX_STRUCTURED_CONTAINER_DEPTH in *; lia); simpl;
    destruct (N.ltb_spec MAX_STRUCTURED_CONTAINER_DEPTH (depth + 1)) as [Hlt|Hle];
    try (split; [done|intros [? _]; lia]).
  - rewrite depth_children by (intros; auto). split; intros [? ?]; (split; [lia|done]).
  - rewrite <- (map_map snd (fun value => (value, depth + 1)%N)).
    rewrite depth_children by (intros; auto). rewrite deepest_member.
    split; intros [? ?]; (split; [lia|done]).
Qed.

Lemma within_depth_spec v :
  structured_value_within_depth v = true <-> (container_depth v <= MAX_STRUCTURED_CONTAINER_DEPTH)%N.
Proof.
  unfold structured_value_within_depth. rewrite depth_visit by (unfold MAX_STRUCTURED_CONTAINER_DEPTH; lia).
  rewrite N.add_0_r. simp depth_loop. naive_solver.
Qed.

(** ** Digests

    A digest is fed with bytes, the characters of a string; finishing it hashes
    all of them. The fixed 32 bytes of a digest are its big-endian value. *)

Abbreviation bytes := (list ascii).

(** [to_be_bytes] *)
Fixpoint be_bytes (width : nat) (n : N) : bytes :=
  match width with
  | 0%nat => []
  | S width => be_bytes width (n / 256) ++ [ascii_of_N (n mod 256)]
  end.

Definition str_bytes (s : string) : bytes := String.list_ascii_of_string s.
Definition sha256_bytes `{Sha256} (input : bytes) : N :=
  sha256_digest (String.string_of_list_ascii input).

(** [u64::try_from(len).unwrap_or(u64::MAX).to_be_bytes()] *)
Definition count_bytes (count : nat) : bytes := be_bytes 8 (N.min (N.of_nat count) u64_max).

Definition update_length_framed (digest : bytes) (value : bytes) : bytes :=
  digest ++ count_bytes (length value) ++ value.

Inductive DigestPart :=
| PartValue (value : ImportedStructuredValue)
| PartObjectMemberName (name : ImportedText).

Definition part_weight (part : DigestPart) : nat :=
  match part with PartValue value => node_count value | PartObjectMemberName _ => 1 end.

Definition member_parts (member : ImportedStructuredObjectMember) : list DigestPart :=
  [PartObjectMemberName (fst member); PartValue (snd member)].

Definition tag (n : N) : bytes := [ascii_of_N n].

(** [while let Some(part) = pending.pop()] *)
Equations? digest_loop (pending : list DigestPart) (digest : bytes) : bytes
    by wf (sum_list_with part_weight pending) lt :=
  digest_loop [] digest := digest;
  digest_loop (PartValue SvNull :: pending) digest := digest_loop pending (digest ++ tag 0);
  digest_loop (PartValue (SvBoolean false) :: pending) digest := digest_loop pending (digest ++ tag 1);
  digest_loop (PartValue (SvBoolean true) :: pending) digest := digest_loop pending (digest ++ tag 2);
  digest_loop (PartValue (SvNumber value) :: pending) digest :=
    digest_loop pending (update_length_framed (digest ++ tag 3) (str_bytes (imported_number value)));
  digest_loop (PartValue (SvString value) :: pending) digest :=
    digest_loop pending (update_length_framed (digest ++ tag 4) (str_bytes (imported_text value)));
  digest_loop (PartValue (SvArray values) :: pending) digest :=
    digest_loop (map PartValue values ++ pending) (digest ++ tag 5 ++ count_bytes (length values));
  digest_loop (PartValue (SvObject members) :: pending) digest :=
    digest_loop (flat_map member_parts members ++ pending)
      (digest ++ tag 6 ++ count_bytes (length members));
  digest_loop (PartObjectMemberName name :: pending) digest :=
    digest_loop pending (update_length_framed digest (str_bytes (imported_text name))).
Proof.
  all: rewrite ?sum_with_app, ?sum_with_map; try (simpl; lia).
  - change (fun x => part_weight (PartValue x)) with node_count. simpl. lia.
  - simpl. assert (sum_list_with part_weight (flat_map member_parts members)
          = sum_list_with (fun member => S (node_count (snd member))) members) as ->; [|lia].
    clear. induction members as [|member members IH]; simpl; [done|]. by rewrite IH.
Qed.

Definition update_structured_digest (digest : bytes) (value : ImportedStructuredValue) : bytes :=
  digest_loop [PartValue value] digest.

(** What the loop appends. *)
Definition framed (value : bytes) : bytes := count_bytes (length value) ++ value.

Fixpoint encoding (v : ImportedStructuredValue) : bytes :=
  match v with
  | SvNull => tag 0
  | SvBoolean b => tag (if b then 2 else 1)
  | SvNumber n => tag 3 ++ framed (str_bytes (imported_number n))
  | SvString t => tag 4 ++ framed (str_bytes (imported_text t))
  | SvArray values => tag 5 ++ count_bytes (length values) ++ concat (map encoding values)
  | SvObject members =>
      tag 6 ++ count_bytes (length members)
      ++ concat (map (fun member =>
                   framed (str_bytes (imported_text (fst member))) ++ encoding (snd member)) members)
  end.

Definition part_encoding (part : DigestPart) : bytes :=
  match part with
  | PartValue value => encoding value
  | PartObjectMemberName name => framed (str_bytes (imported_text name))
  end.

Lemma digest_parts (parts : list DigestPart) pending digest :
  (forall part, part ∈ parts -> forall pending digest,
     digest_loop (part :: pending) digest = digest_loop pending (digest ++ part_encoding part)) ->
  digest_loop (parts ++ pending) digest
  = digest_loop pending (digest ++ concat (map part_encoding parts)).
Proof.
  revert digest. induction parts as [|part parts IH]; intros digest Hp; simpl; [by rewrite app_nil_r|].
  rewrite Hp by set_solver. rewrite IH by set_solver. by rewrite app_assoc.
Qed.

Lemma digest_name name pending digest :
  digest_loop (PartObjectMemberName name :: pending) digest
  = digest_loop pending (digest ++ framed (str_bytes (imported_text name))).
Proof. by simp digest_loop. Qed.

Lemma member_encodings members :
  concat (map part_encoding (flat_map member_parts members))
  = concat (map (fun member =>
       framed (str_bytes (imported_text (fst member))) ++ encoding (snd member)) members).
Proof.
  induction members as [|member members IH]; simpl; [done|].
  by rewrite IH, app_assoc.
Qed.

Lemma digest_value v pending digest :
  digest_loop (PartValue v :: pending) digest = digest_loop pending (digest ++ encoding v).
Proof.
  revert pending digest. induction v as [|[]|n|t|values IH|members IH] using structured_ind;
    intros pending digest; simp digest_loop; try done;
    unfold update_length_framed; try by rewrite <- app_assoc.
  - rewrite digest_parts, map_map by (intros part (v & <- & Hv)%list_elem_of_In%in_map_iff;
      intros; apply IH; by apply list_elem_of_In).
    by rewrite <- !app_assoc.
  - rewrite digest_parts.
    + rewrite member_encodings. cbn [encoding]. by rewrite <- !app_assoc.
    + intros part (member & Hm & Hpart)%list_elem_of_In%in_flat_map pend dig.
      destruct Hpart as [<-|[<-|[]]]; [apply digest_name|]. apply IH.
      apply list_elem_of_In, in_map. done.
Qed.

Lemma update_structured_digest_spec digest v :
  update_structured_digest digest v = digest ++ encoding v.
Proof. unfold update_structured_digest. rewrite digest_value. by simp digest_loop. Qed.

(** *** The encoding determines the value *)

Lemma length_be_bytes width n : length (be_bytes width n) = width.
Proof. revert n. induction width as [|width IH]; intros n; simpl; [done|]. rewrite length_app, IH. simpl. lia. Qed.

Lemma be_bytes_inj width n m :
  (n < 256 ^ N.of_nat width)%N -> (m < 256 ^ N.of_nat width)%N ->
  be_bytes width n = be_bytes width m -> n = m.
Proof.
  revert n m. induction width as [|width IH]; intros n m Hn Hm; [simpl in *; lia|].
  rewrite Nat2N.inj_succ, N.pow_succ_r' in Hn, Hm. cbn [be_bytes].
  intros [Hdiv [= Hmod]]%app_inj_2; [|done].
  apply IH in Hdiv; [|apply N.Div0.div_lt_upper_bound; lia..].
  apply (f_equal N_of_ascii) in Hmod. rewrite !N_ascii_embedding in Hmod by (apply N.mod_lt; lia).
  rewrite (N.div_mod' n 256), (N.div_mod' m 256). lia.
Qed.

Definition countable (n : nat) : Prop := (N.of_nat n <= u64_max)%N.

Lemma count_bytes_inj n m : countable n -> countable m -> count_bytes n = count_bytes m -> n = m.
Proof.
  unfold countable, count_bytes. intros Hn Hm. rewrite !N.min_l by done.
  intros Hb%be_bytes_inj; [lia|unfold u64_max in *; simpl; lia..].
Qed.

Lemma framed_inj a b s t :
  countable (length a) -> countable (length b) -> framed a ++ s = framed b ++ t -> a = b /\ s = t.
Proof.
  unfold framed. intros Ha Hb. rewrite <- !app_assoc.
  intros [Hc%count_bytes_inj Hrest]%app_inj_1; [|done..|by unfold count_bytes; rewrite !length_be_bytes].
  by apply app_inj_1 in Hrest.
Qed.

Lemma str_bytes_inj s t : str_bytes s = str_bytes t -> s = t.
Proof.
  intros Hst. rewrite <- (String.string_of_list_ascii_of_string s), <- (String.string_of_list_ascii_of_string t).
  unfold str_bytes in Hst. by rewrite Hst.
Qed.

Definition text_countable (s : string) : Prop := countable (length (str_bytes s)).

(** Every length in the value is a [u64], as every length in memory is. *)
Fixpoint representable (v : ImportedStructuredValue) : Prop :=
  match v with
  | SvNull | SvBoolean _ => True
  | SvNumber n => text_countable (imported_number n)
  | SvString t => text_countable (imported_text t)
  | SvArray values =>
      countable (length values) /\ foldr (fun v rest => representable v /\ rest) True values
  | SvObject members =>
      countable (length members) /\
      foldr (fun member rest =>
        (text_countable (imported_text (fst member)) /\ representable (snd member)) /\ rest)
        True members
  end.

Lemma foldr_and {A} (P : A -> Prop) l : foldr (fun x rest => P x /\ rest) True l <-> forall x, x ∈ l -> P x.
Proof. induction l as [|x l IH]; simpl; [set_solver|]. rewrite IH. set_solver. Qed.

(** Items whose encodings are prefix free have prefix-free sequences. *)
Lemma concat_inj {A} (f : A -> bytes) (P : A -> Prop) l1 l2 s t :
  (forall x, x ∈ l1 -> forall y s t, P x -> P y -> f x ++ s = f y ++ t -> x = y /\ s = t) ->
  (forall x, x ∈ l1 -> P x) -> (forall x, x ∈ l2 -> P x) -> length l1 = length l2 ->
  concat (map f l1) ++ s = concat (map f l2) ++ t -> l1 = l2 /\ s = t.
Proof.
  revert l2. induction l1 as [|x l1 IH]; intros [|y l2] Hf H1 H2 Hlen; try done.
  simpl. rewrite <- !app_assoc. intros [-> Hrest]%Hf; [|set_solver..].
  apply IH in Hrest as [-> ->]; [done|set_solver..|simpl in Hlen; lia].
Qed.

Lemma text_framed_inj a b s t :
  text_countable a -> text_countable b ->
  framed (str_bytes a) ++ s = framed (str_bytes b) ++ t -> a = b /\ s = t.
Proof. intros Ha Hb [Hab ->]%framed_inj; [|done..]. split; [by apply str_bytes_inj|done]. Qed.

Lemma encoding_inj v w s t :
  representable v -> representable w -> encoding v ++ s = encoding w ++ t -> v = w /\ s = t.
Proof.
  revert w s t. induction v as [|b|n|u|values IH|members IH] using structured_ind;
    intros [|b'|n'|u'|values'|members'] s t Hv Hw Henc;
    try (destruct b; discriminate Henc); try (destruct b'; discriminate Henc); try discriminate Henc.
  - by injection Henc as ->.
  - destruct b, b'; try discriminate Henc; by injection Henc as ->.
  - destruct n as [n], n' as [n']. cbn [encoding] in Henc. rewrite <- !app_assoc in Henc.
    apply app_inj_1 in Henc as [_ Henc]; [|done]. by apply text_framed_inj in Henc as [[= ->] ->].
  - destruct u as [u], u' as [u']. cbn [encoding] in Henc. rewrite <- !app_assoc in Henc.
    apply app_inj_1 in Henc as [_ Henc]; [|done]. by apply text_framed_inj in Henc as [[= ->] ->].
  - simpl in Hv, Hw. rewrite foldr_and in Hv, Hw. destruct Hv as [Hc Hv], Hw as [Hc' Hw].
    cbn [encoding] in Henc. rewrite <- !app_assoc in Henc.
    apply app_inj_1 in Henc as [_ Henc]; [|done].
    apply app_inj_1 in Henc as [Hlen%count_bytes_inj Henc]; [|done..|by unfold count_bytes; rewrite !length_be_bytes].
    apply (concat_inj _ representable) in Henc as [-> ->]; [done|by intros; eapply IH|done..].
  - simpl in Hv, Hw.
    rewrite (foldr_and (fun member : ImportedStructuredObjectMember =>
      text_countable (imported_text (fst member)) /\ representable (snd member))) in Hv, Hw.
    destruct Hv as [Hc Hv], Hw as [Hc' Hw]. cbn [encoding] in Henc. rewrite <- !app_assoc in Henc.
    apply app_inj_1 in Henc as [_ Henc]; [|done].
    apply app_inj_1 in Henc as [Hlen%count_bytes_inj Henc]; [|done..|by unfold count_bytes; rewrite !length_be_bytes].
    apply (concat_inj _ (fun member : ImportedStructuredObjectMember =>
      text_countable (imported_text (fst member)) /\ representable (snd member))) in Henc as [-> ->];
      [done| |done..].
    intros [[name] v] Hm [[name'] v'] s' t' [Hn Hr] [Hn' Hr']. simpl in *. rewrite <- !app_assoc.
    intros [-> Hrest]%text_framed_inj; [|done..].
    apply (IH v) in Hrest as [-> ->]; [done| |done..].
    apply (list_elem_of_fmap_2 snd) in Hm. done.
Qed.

(** ** Digest values *)

Inductive ImportedConversationFormat :=
| ClaudeCodeSessionJsonlV1
| ClaudeCodeSessionJsonlV2
| ClaudeCodeSessionJsonlV3
| CodexRolloutJsonlV1
| CodexRolloutJsonlV2.

Record ImportedRawRecordHash := mkRawHash { raw_hash_value : N }.
Record ImportedRawRecordConversionDigest := mkConversionDigest { conversion_digest_value : N }.
Record ImportedConversationSourceDigest := mkSourceDigest { source_digest_value : N }.

#[export] Instance ImportedConversationFormat_eq_dec : EqDecision ImportedConversationFormat.
Proof. solve_decision. Defined.
#[export] Instance ImportedRawRecordHash_eq_dec : EqDecision ImportedRawRecordHash.
Proof. solve_decision. Defined.
#[export] Instance ImportedRawRecordConversionDigest_eq_dec : EqDecision ImportedRawRecordConversionDigest.
Proof. solve_decision. Defined.
#[export] Instance ImportedConversationSourceDigest_eq_dec : EqDecision ImportedConversationSourceDigest.
Proof. solve_decision. Defined.

(** The 32 bytes of a digest. *)
Definition raw_hash_bytes (self : ImportedRawRecordHash) : bytes := be_bytes 32 (raw_hash_value self).

Definition SOURCE_DIGEST_DOMAIN : bytes :=
  str_bytes "signalbox.imported-conversation.source-digest.v1".
Definition RAW_RECORD_CONVERSION_DIGEST_DOMAIN : bytes :=
  str_bytes "signalbox.imported-conversation.raw-record-conversion.v1".

Definition digest_tag (self : ImportedConversationFormat) : bytes :=
  str_bytes
    match self with
    | ClaudeCodeSessionJsonlV1 => "claude-code-session-jsonl-v1"
    | ClaudeCodeSessionJsonlV2 => "claude-code-session-jsonl-v2"
    | ClaudeCodeSessionJsonlV3 => "claude-code-session-jsonl-v3"
    | CodexRolloutJsonlV1 => "codex-rollout-jsonl-v1"
    | CodexRolloutJsonlV2 => "codex-rollout-jsonl-v2"
    end.

(** What [ImportedRawRecordConversionDigest::derive] feeds its digest. *)
Definition conversion_input (raw_hash : ImportedRawRecordHash) (normalized : ImportedStructuredValue) :
    bytes :=
  let digest := update_length_framed [] RAW_RECORD_CONVERSION_DIGEST_DOMAIN in
  let digest := update_length_framed digest (raw_hash_bytes raw_hash) in
  update_structured_digest digest normalized.

(** What [ImportedConversationSourceDigest::derive] feeds its digest, from the
    stored hashes of the records. *)
Definition source_input (format : ImportedConversationFormat) (hashes : list ImportedRawRecordHash) :
    bytes :=
  let digest := update_length_framed [] SOURCE_DIGEST_DOMAIN in
  let digest := update_length_framed digest (digest_tag format) in
  let digest := digest ++ count_bytes (length hashes) in
  foldl (fun digest hash => update_length_framed digest (raw_hash_bytes hash)) digest hashes.

Record ImportedConversationSourceDigestBuilder := mkDigestBuilder {
  builder_digest : bytes;
  builder_expected_records : N;
  builder_observed_records : N;
}.

Definition framed_hash (hash : ImportedRawRecordHash) : bytes := framed (raw_hash_bytes hash).

#[local] Arguments raw_hash_bytes : simpl never.
#[local] Arguments framed_hash : simpl never.

Section digests.
Context `{Sha256}.

Definition raw_hash_digest (input : bytes) : ImportedRawRecordHash := mkRawHash (sha256_bytes input).

Definition conversion_digest_derive (raw_hash : ImportedRawRecordHash)
    (normalized : ImportedStructuredValue) : ImportedRawRecordConversionDigest :=
  mkConversionDigest (sha256_bytes (conversion_input raw_hash normalized)).

Definition source_digest_derive (format : ImportedConversationFormat)
    (hashes : list ImportedRawRecordHash) : ImportedConversationSourceDigest :=
  mkSourceDigest (sha256_bytes (source_input format hashes)).

(** [ImportedConversationSourceDigestBuilder::new], [::push] and [::finish] *)
Definition digest_builder_new (format : ImportedConversationFormat) (expected_records : N) :
    ImportedConversationSourceDigestBuilder :=
  let digest := update_length_framed [] SOURCE_DIGEST_DOMAIN in
  let digest := update_length_framed digest (digest_tag format) in
  mkDigestBuilder (digest ++ be_bytes 8 expected_records) expected_records 0.

Definition digest_builder_push (self : ImportedConversationSourceDigestBuilder)
    (hash : ImportedRawRecordHash) : bool * ImportedConversationSourceDigestBuilder :=
  match u64_checked_add (builder_observed_records self) 1 with
  | None => (false, self)
  | Some observed =>
      if (builder_expected_records self <? observed)%N then (false, self)
      else
        (true, mkDigestBuilder (update_length_framed (builder_digest self) (raw_hash_bytes hash))
                 (builder_expected_records self) observed)
  end.

Definition digest_builder_finish (self : ImportedConversationSourceDigestBuilder) :
    option ImportedConversationSourceDigest :=
  if (builder_observed_records self =? builder_expected_records self)%N
  then Some (mkSourceDigest (sha256_bytes (builder_digest self))) else None.

(** Every push of a sequence, with its answers. *)
Definition push_all (builder : ImportedConversationSourceDigestBuilder)
    (hashes : list ImportedRawRecordHash) : list bool * ImportedConversationSourceDigestBuilder :=
  foldl (fun '(answers, builder) hash =>
           let '(answer, builder) := digest_builder_push builder hash in (answers ++ [answer], builder))
    ([], builder) hashes.

Definition source_header (format : ImportedConversationFormat) : bytes :=
  framed SOURCE_DIGEST_DOMAIN ++ framed (digest_tag format).

Lemma foldl_framed hashes digest :
  foldl (fun digest hash => update_length_framed digest (raw_hash_bytes hash)) digest hashes
  = digest ++ concat (map framed_hash hashes).
Proof.
  revert digest. induction hashes as [|hash hashes IH]; intros digest; cbn [foldl map concat]; [by rewrite app_nil_r|].
  rewrite IH. unfold update_length_framed. by rewrite <- app_assoc.
Qed.

Lemma source_input_spec format hashes :
  source_input format hashes
  = source_header format ++ count_bytes (length hashes) ++ concat (map framed_hash hashes).
Proof.
  unfold source_input. rewrite foldl_framed. unfold source_header, update_length_framed, framed.
  generalize (digest_tag format), SOURCE_DIGEST_DOMAIN. intros format_tag domain.
  by rewrite <- !app_assoc.
Qed.

Lemma push_all_spec digest expected hashes :
  (expected <= u64_max)%N ->
  push_all (mkDigestBuilder digest expected 0) hashes
  = (map (fun i => (N.of_nat i <? expected)%N) (seq 0 (length hashes)),
     mkDigestBuilder (digest ++ concat (map framed_hash (take (N.to_nat expected) hashes)))
       expected (N.min expected (N.of_nat (length hashes)))).
Proof.
  intros He. induction hashes as [|hash hashes IH] using rev_ind.
  - unfold push_all. simpl. by rewrite take_nil, N.min_0_r, app_nil_r.
  - unfold push_all in *. rewrite foldl_app, IH. simpl. unfold digest_builder_push. simpl.
    rewrite length_app, seq_app, map_app. simpl.
    destruct (N.ltb_spec (N.of_nat (length hashes)) expected) as [Hlt|Hle].
    + rewrite (proj2 (u64_checked_add_Some _ 1 (N.min expected (N.of_nat (length hashes)) + 1)))
        by (split; [done|]; unfold u64_max in *; lia).
      rewrite (proj2 (N.ltb_ge _ _)) by lia. do 2 f_equal; [|lia]. unfold update_length_framed.
      rewrite (take_ge hashes) by lia. rewrite (take_ge (hashes ++ [hash])) by (rewrite length_app; simpl; lia).
      rewrite map_app, concat_app. cbn [map concat]. by rewrite app_nil_r, <- app_assoc.
    + rewrite take_app_le by lia. rewrite !N.min_l by lia.
      destruct (u64_checked_add expected 1) as [observed|] eqn:Ho; [|done].
      apply u64_checked_add_Some in Ho as [-> _]. by rewrite (proj2 (N.ltb_lt _ _)) by lia.
Qed.
End digests.

(** ** Fields of an object *)

Inductive ImportedStructuredFieldError := StructuredFieldError.

(** The loop's body: the member found so far. *)
Definition select_field (name : string) (found : option ImportedStructuredValue)
    (member : ImportedStructuredObjectMember) :
    result ImportedStructuredFieldError (option ImportedStructuredValue) :=
  if bool_decide (imported_text (fst member) = name) then
    match found with Some _ => Err StructuredFieldError | None => Ok (Some (snd member)) end
  else Ok found.

Definition unique_imported_structured_field (members : list ImportedStructuredObjectMember)
    (name : string) : result ImportedStructuredFieldError (option ImportedStructuredValue) :=
  try_fold (select_field name) members None.

Definition imported_text_attestation (members : list ImportedStructuredObjectMember) (name : string) :
    result ImportedStructuredFieldError (ImportedSourceAttestation ImportedText) :=
  field ← unique_imported_structured_field members name;
  match field with
  | None => Ok NotAttested
  | Some SvNull => Ok AttestedAbsent
  | Some (SvString value) => Ok (Attested value)
  | Some _ => Err StructuredFieldError
  end.

Definition imported_bool_attestation (members : list ImportedStructuredObjectMember) (name : string) :
    result ImportedStructuredFieldError (ImportedSourceAttestation bool) :=
  field ← unique_imported_structured_field members name;
  match field with
  | None => Ok NotAttested
  | Some SvNull => Ok AttestedAbsent
  | Some (SvBoolean value) => Ok (Attested value)
  | Some _ => Err StructuredFieldError
  end.

Definition imported_structured_attestation (members : list ImportedStructuredObjectMember)
    (name : string) :
    result ImportedStructuredFieldError (ImportedSourceAttestation ImportedStructuredValue) :=
  field ← unique_imported_structured_field members name;
  match field with
  | None => Ok NotAttested
  | Some SvNull => Ok AttestedAbsent
  | Some value => Ok (Attested value)
  end.

Definition imported_string_structured_attestation (members : list ImportedStructuredObjectMember)
    (name : string) :
    result ImportedStructuredFieldError (ImportedSourceAttestation ImportedStructuredValue) :=
  field ← unique_imported_structured_field members name;
  match field with
  | None => Ok NotAttested
  | Some SvNull => Ok AttestedAbsent
  | Some (SvString value) => Ok (Attested (SvString value))
  | Some _ => Err StructuredFieldError
  end.

(** The projections drop the error. *)
Definition silent {A} (m : result ImportedStructuredFieldError A) : result unit A :=
  map_err (fun _ => tt) m.
Definition projected_text_attestation members name :=
  silent (imported_text_attestation members name).
Definition projected_bool_attestation members name :=
  silent (imported_bool_attestation members name).
Definition projected_structured_attestation members name :=
  silent (imported_structured_attestation members name).
Definition projected_string_structured_attestation members name :=
  silent (imported_string_structured_attestation members name).
Definition unique_structured_field members name :=
  silent (unique_imported_structured_field members name).

(** ** What the traversals and the digests promise *)

(** The explicit-stack traversals of a structured value are what they stand
    for: cloning returns the value, the comparison decides equality, and the
    depth check accepts exactly the values whose containers nest at most 128
    deep. They return on every value. *)
Theorem structured_loops_exact v w :
  structured_clone v = v
  /\ (structured_eq v w = true <-> v = w)
  /\ (structured_value_within_depth v = true <->
      (container_depth v <= MAX_STRUCTURED_CONTAINER_DEPTH)%N).
Proof.
  split_and!; [|apply structured_eq_spec|apply within_depth_spec].
  unfold structured_clone. rewrite clone_visit. by simp clone_loop.
Qed.

Definition hash_sized (hash : ImportedRawRecordHash) : Prop :=
  (raw_hash_value hash < 256 ^ N.of_nat 32)%N.

Lemma raw_hash_bytes_inj h k : hash_sized h -> hash_sized k -> raw_hash_bytes h = raw_hash_bytes k -> h = k.
Proof. destruct h, k. intros Hh Hk Hb. f_equal. by apply (be_bytes_inj 32). Qed.

Lemma raw_hash_countable h : countable (length (raw_hash_bytes h)).
Proof. unfold raw_hash_bytes. rewrite length_be_bytes. done. Qed.

#[local] Opaque raw_hash_bytes.

Lemma framed_hash_inj h k s t :
  hash_sized h -> hash_sized k -> framed_hash h ++ s = framed_hash k ++ t -> h = k /\ s = t.
Proof.
  unfold framed_hash. intros Hh Hk Heq.
  apply (framed_inj (raw_hash_bytes h) (raw_hash_bytes k)) in Heq as [Hb ->];
    [|apply raw_hash_countable..].
  split; [by apply raw_hash_bytes_inj|done].
Qed.

Lemma digest_tag_inj f g : digest_tag f = digest_tag g -> f = g.
Proof.
  unfold digest_tag. intros Hfg%str_bytes_inj. destruct f, g; (reflexivity || discriminate Hfg).
Qed.

Lemma digest_tag_countable f : countable (length (digest_tag f)).
Proof. destruct f; vm_compute; discriminate. Qed.

(** C20. The bytes hashed for a record conversion determine its raw hash and its
    normalised value, and the bytes hashed for a source determine its format and
    its records in order: no two of them feed a digest alike. *)
Theorem digest_inputs_determine h k v w f g hs ks :
  hash_sized h -> hash_sized k -> representable v -> representable w ->
  Forall hash_sized hs -> Forall hash_sized ks -> countable (length hs) -> countable (length ks) ->
  (conversion_input h v = conversion_input k w -> h = k /\ v = w)
  /\ (source_input f hs = source_input g ks -> f = g /\ hs = ks).
Proof.
  rewrite !Forall_forall. intros Hh Hk Hv Hw Hhs Hks Hnh Hnk. split.
  - unfold conversion_input. rewrite !update_structured_digest_spec. unfold update_length_framed.
    rewrite <- !app_assoc. intros Heq. do 3 apply app_inv_head in Heq. rewrite !app_assoc in Heq.
    apply framed_hash_inj in Heq as [-> Heq]; [|done..]. split; [done|].
    by apply (encoding_inj v w [] []); [..|rewrite !app_nil_r].
  - rewrite !source_input_spec. unfold source_header. rewrite <- !app_assoc. intros Heq%app_inv_head.
    apply framed_inj in Heq as [->%digest_tag_inj Heq]; [|apply digest_tag_countable..].
    apply app_inj_1 in Heq as [Hlen%count_bytes_inj Heq];
      [|done..|by unfold count_bytes; rewrite !length_be_bytes].
    split; [done|]. rewrite <- (app_nil_r (concat (map framed_hash hs))) in Heq.
    rewrite <- (app_nil_r (concat (map framed_hash ks))) in Heq.
    apply (concat_inj _ hash_sized) in Heq as [-> _]; [done|intros; by apply framed_hash_inj|done..].
Qed.

Lemma declared_source_input format expected hashes :
  (expected <= u64_max)%N -> expected = N.of_nat (length hashes) ->
  (update_length_framed (update_length_framed [] SOURCE_DIGEST_DOMAIN) (digest_tag format)
   ++ be_bytes 8 expected) ++ concat (map framed_hash hashes) = source_input format hashes.
Proof.
  intros He ->. rewrite source_input_spec. unfold count_bytes, source_header, framed, update_length_framed.
  rewrite (N.min_l (N.of_nat (length hashes)) u64_max) by done.
  generalize (digest_tag format), SOURCE_DIGEST_DOMAIN. intros format_tag domain.
  by rewrite <- !app_assoc.
Qed.

(** The incremental source digest accepts exactly the declared number of
    hashes, refusing every later one without an effect; it finishes exactly when
    that many were supplied, with the digest derived from them at once. *)
Theorem source_digest_builder_exact `{Sha256} format expected hashes :
  (expected <= u64_max)%N ->
  exists builder,
    push_all (digest_builder_new format expected) hashes
    = (map (fun i => (N.of_nat i <? expected)%N) (seq 0 (length hashes)), builder)
    /\ digest_builder_finish builder
       = if (expected <=? N.of_nat (length hashes))%N
         then Some (source_digest_derive format (take (N.to_nat expected) hashes)) else None.
Proof.
  intros He. unfold digest_builder_new. rewrite push_all_spec by done. eexists. split; [done|].
  unfold digest_builder_finish.
  cbn [builder_observed_records builder_expected_records builder_digest].
  destruct (N.leb_spec expected (N.of_nat (length hashes))) as [Hle|Hlt].
  - rewrite N.min_l by lia. rewrite N.eqb_refl. unfold source_digest_derive.
    by rewrite (declared_source_input format expected) by (rewrite ?length_take_le; lia).
  - rewrite N.min_r by lia. by rewrite (proj2 (N.eqb_neq _ _)) by lia.
Qed.

(** A record with a nested array, and a number named twice. *)
Definition sample_value : ImportedStructuredValue :=
  SvObject [(mkImportedText "type", SvString (mkImportedText "user"));
            (mkImportedText "items", SvArray [SvNull; SvBoolean true; SvArray []]);
            (mkImportedText "items", SvNumber (mkImportedNumber "1e3"))].

Example sample_value_depth : container_depth sample_value = 3%N.
Proof. reflexivity. Qed.

Lemma digest_inputs_determine_witness :
  (conversion_input (mkRawHash 7) sample_value = conversion_input (mkRawHash 7) sample_value ->
     mkRawHash 7 = mkRawHash 7 /\ sample_value = sample_value)
  /\ (source_input CodexRolloutJsonlV1 [mkRawHash 7] = source_input CodexRolloutJsonlV1 [mkRawHash 7] ->
     CodexRolloutJsonlV1 = CodexRolloutJsonlV1 /\ [mkRawHash 7] = [mkRawHash 7]).
Proof.
  apply (digest_inputs_determine (mkRawHash 7) (mkRawHash 7) sample_value sample_value
           CodexRolloutJsonlV1 CodexRolloutJsonlV1 [mkRawHash 7] [mkRawHash 7]);
    try (repeat constructor; vm_compute; discriminate || reflexivity).
Defined.

Definition sample_sha256 : Sha256 := fun input => N.of_nat (String.length input).

Lemma source_digest_builder_exact_witness :
  exists builder,
    push_all (digest_builder_new CodexRolloutJsonlV2 1) [mkRawHash 3; mkRawHash 4]
    = ([true; false], builder)
    /\ @digest_builder_finish sample_sha256 builder
       = Some (@source_digest_derive sample_sha256 CodexRolloutJsonlV2 [mkRawHash 3]).
Proof.
  destruct (@source_digest_builder_exact sample_sha256 CodexRolloutJsonlV2 1 [mkRawHash 3; mkRawHash 4])
    as (b & Hb & Hf); [vm_compute; discriminate|].
  exists b. split; [exact Hb|exact Hf].
Defined.
