(* ===== verification/Imported.v ===== *)
(** * Imported conversations

    Model of [crates/domain/src/imported_conversation/]: the normalized content
    (content.rs), entries, positions and records (entry.rs, position.rs,
    record.rs), the projection of a source record into entries
    (projection.rs, projection/claude_code.rs, projection/codex.rs), the
    validation of a stored conversation (validation.rs, reconstitution.rs) and
    the aggregate with its frontiers and display title (conversation.rs).
    Structured values and digests are in [ImportedValue]. *)

From stdpp Require Import strings.
From S2P Require Import Prelude ImportedValue.

Local Open Scope string_scope.
Local Open Scope list_scope.

(** ** Content *)

Inductive ImportedSpeaker := SpeakerUser | SpeakerAssistant.

#[export] Instance ImportedSpeaker_eq_dec : EqDecision ImportedSpeaker.
Proof. solve_decision. Defined.

Record ImportedSourceMetadata := mkSourceMetadata {
  metadata_record_id : ImportedSourceAttestation ImportedText;
  metadata_parent_record_id : ImportedSourceAttestation ImportedText;
  metadata_source_session_id : ImportedSourceAttestation ImportedText;
  metadata_timestamp : ImportedSourceAttestation ImportedText;
  metadata_sidechain : ImportedSourceAttestation bool;
  metadata_metadata : ImportedSourceAttestation bool;
  metadata_message_role : ImportedSourceAttestation ImportedSpeaker;
}.

Inductive ImportedMessageContentAbsence :=
| MessageNotAttested
| MessageAttestedAbsent
| ContentNotAttested
| ContentAttestedAbsent
| EmptyBlockArray.

Record ImportedMediaSource := mkMediaSource {
  media_kind : ImportedSourceAttestation ImportedText;
  media_type : ImportedSourceAttestation ImportedText;
  media_data : ImportedSourceAttestation ImportedText;
}.

Inductive ImportedToolResultBlock :=
| BlockText (text : ImportedSourceAttestation ImportedText)
| BlockImage (source : ImportedSourceAttestation ImportedMediaSource)
| BlockToolReference (tool_name : ImportedSourceAttestation ImportedText)
| SourceResultBlock (source_type : ImportedSourceAttestation ImportedText).

Inductive ImportedToolResultValue :=
| ResultText (value : ImportedText)
| ResultBlocks (blocks : list ImportedToolResultBlock).

Inductive ImportedTranscriptContent :=
| SourceEvent (source_type : ImportedSourceAttestation ImportedText)
| SourceMessageBlock (source_type : ImportedSourceAttestation ImportedText)
| ContentText (value : ImportedSourceAttestation ImportedText)
| ContentToolCall (source_call_id name : ImportedSourceAttestation ImportedText)
    (input caller : ImportedSourceAttestation ImportedStructuredValue)
| ContentToolResult (source_call_id : ImportedSourceAttestation ImportedText)
    (content : ImportedSourceAttestation ImportedToolResultValue)
    (is_error : ImportedSourceAttestation bool)
| ContentThinking (thinking signature : ImportedSourceAttestation ImportedText)
| ContentRedactedThinking (data : ImportedSourceAttestation ImportedText)
| ContentDocument (source : ImportedSourceAttestation ImportedMediaSource)
| MessageContentAbsent (absence : ImportedMessageContentAbsence).

#[export] Instance ImportedSourceMetadata_eq_dec : EqDecision ImportedSourceMetadata.
Proof. solve_decision. Defined.
#[export] Instance ImportedMessageContentAbsence_eq_dec : EqDecision ImportedMessageContentAbsence.
Proof. solve_decision. Defined.
#[export] Instance ImportedMediaSource_eq_dec : EqDecision ImportedMediaSource.
Proof. solve_decision. Defined.
#[export] Instance ImportedToolResultBlock_eq_dec : EqDecision ImportedToolResultBlock.
Proof. solve_decision. Defined.
#[export] Instance ImportedToolResultValue_eq_dec : EqDecision ImportedToolResultValue.
Proof. solve_decision. Defined.
#[export] Instance ImportedTranscriptContent_eq_dec : EqDecision ImportedTranscriptContent.
Proof. solve_decision. Defined.

(** [projected_media_source_attestation] of structured_field.rs *)
Definition projected_media_source_attestation (members : list ImportedStructuredObjectMember)
    (name : string) : result unit (ImportedSourceAttestation ImportedMediaSource) :=
  field ← unique_structured_field members name;
  match field with
  | None => Ok NotAttested
  | Some SvNull => Ok AttestedAbsent
  | Some (SvObject source) =>
      kind ← projected_text_attestation source "type";
      media_type ← projected_text_attestation source "media_type";
      data ← projected_text_attestation source "data";
      Ok (Attested (mkMediaSource kind media_type data))
  | Some _ => Err tt
  end.

(** ** Projection *)

Record ProjectedEntry := mkProjectedEntry {
  projected_source_speaker : ImportedSourceAttestation ImportedSpeaker;
  projected_content : ImportedTranscriptContent;
  projected_source : ImportedSourceMetadata;
}.

Inductive ClaudeCodeProjectionVersion := VersionOne | VersionTwo.

(** The attestation is this exact text. *)
Definition is_text (attestation : ImportedSourceAttestation ImportedText) (text : string) : bool :=
  match attestation with
  | Attested value => bool_decide (imported_text value = text)
  | AttestedAbsent | NotAttested => false
  end.

(** [collect::<Result<Vec<_>, _>>()] *)
Fixpoint collect {A B} (f : A -> result unit B) (l : list A) : result unit (list B) :=
  match l with
  | [] => Ok []
  | x :: l => y ← f x; ys ← collect f l; Ok (y :: ys)
  end.

(** The role or record type that names a speaker. *)
Definition speaker_of (attestation : ImportedSourceAttestation ImportedText) : option ImportedSpeaker :=
  if is_text attestation "user" then Some SpeakerUser
  else if is_text attestation "assistant" then Some SpeakerAssistant
  else None.

(** *** Claude Code *)

Definition projected_required_type (members : list ImportedStructuredObjectMember) :
    result unit string :=
  field ← unique_structured_field members "type";
  match field with Some (SvString value) => Ok (imported_text value) | _ => Err tt end.

Definition projected_source_metadata (record : list ImportedStructuredObjectMember)
    (message_role : ImportedSourceAttestation ImportedSpeaker) : result unit ImportedSourceMetadata :=
  uuid ← projected_text_attestation record "uuid";
  parent_uuid ← projected_text_attestation record "parentUuid";
  session_id ← projected_text_attestation record "sessionId";
  timestamp ← projected_text_attestation record "timestamp";
  is_sidechain ← projected_bool_attestation record "isSidechain";
  is_meta ← projected_bool_attestation record "isMeta";
  Ok (mkSourceMetadata uuid parent_uuid session_id timestamp is_sidechain is_meta message_role).

Definition projected_message_role (message : list ImportedStructuredObjectMember) :
    result unit (ImportedSourceAttestation ImportedSpeaker) :=
  field ← unique_structured_field message "role";
  match field with
  | None => Ok NotAttested
  | Some SvNull => Ok AttestedAbsent
  | Some (SvString value) =>
      if bool_decide (imported_text value = "user") then Ok (Attested SpeakerUser)
      else if bool_decide (imported_text value = "assistant") then Ok (Attested SpeakerAssistant)
      else Err tt
  | Some _ => Err tt
  end.

Definition projected_tool_result_block_v1 (value : ImportedStructuredValue) :
    result unit ImportedToolResultBlock :=
  match value with
  | SvObject members =>
      required ← projected_required_type members;
      if bool_decide (required = "text") then
        text ← projected_text_attestation members "text"; Ok (BlockText text)
      else if bool_decide (required = "image") then
        source ← projected_media_source_attestation members "source"; Ok (BlockImage source)
      else if bool_decide (required = "tool_reference") then
        tool_name ← projected_text_attestation members "tool_name"; Ok (BlockToolReference tool_name)
      else Err tt
  | _ => Err tt
  end.

Definition projected_tool_result_block_v2 (value : ImportedStructuredValue) :
    result unit ImportedToolResultBlock :=
  match value with
  | SvObject members =>
      source_type ← projected_text_attestation members "type";
      if is_text source_type "text" then
        text ← projected_text_attestation members "text"; Ok (BlockText text)
      else if is_text source_type "image" then
        source ← projected_media_source_attestation members "source"; Ok (BlockImage source)
      else if is_text source_type "tool_reference" then
        tool_name ← projected_text_attestation members "tool_name"; Ok (BlockToolReference tool_name)
      else Ok (SourceResultBlock source_type)
  | _ => Err tt
  end.

Definition projected_tool_result (members : list ImportedStructuredObjectMember)
    (version : ClaudeCodeProjectionVersion) : result unit ImportedTranscriptContent :=
  field ← unique_structured_field members "content";
  content ←
    match field with
    | None => Ok NotAttested
    | Some SvNull => Ok AttestedAbsent
    | Some (SvString value) => Ok (Attested (ResultText value))
    | Some (SvArray blocks) =>
        blocks ← collect (fun block =>
                    match version with
                    | VersionOne => projected_tool_result_block_v1 block
                    | VersionTwo => projected_tool_result_block_v2 block
                    end) blocks;
        Ok (Attested (ResultBlocks blocks))
    | Some _ => Err tt
    end;
  source_call_id ← projected_text_attestation members "tool_use_id";
  is_error ← projected_bool_attestation members "is_error";
  Ok (ContentToolResult source_call_id content is_error).

Definition projected_tool_use (members : list ImportedStructuredObjectMember) :
    result unit ImportedTranscriptContent :=
  source_call_id ← projected_text_attestation members "id";
  name ← projected_text_attestation members "name";
  input ← projected_structured_attestation members "input";
  caller ← projected_structured_attestation members "caller";
  Ok (ContentToolCall source_call_id name input caller).

Definition projected_thinking (members : list ImportedStructuredObjectMember) :
    result unit ImportedTranscriptContent :=
  thinking ← projected_text_attestation members "thinking";
  signature ← projected_text_attestation members "signature";
  Ok (ContentThinking thinking signature).

Definition projected_content_block_v1 (value : ImportedStructuredValue) :
    result unit ImportedTranscriptContent :=
  match value with
  | SvObject members =>
      required ← projected_required_type members;
      if bool_decide (required = "text") then
        ContentText <$> projected_text_attestation members "text"
      else if bool_decide (required = "tool_use") then projected_tool_use members
      else if bool_decide (required = "tool_result") then projected_tool_result members VersionOne
      else if bool_decide (required = "thinking") then projected_thinking members
      else if bool_decide (required = "redacted_thinking") then
        ContentRedactedThinking <$> projected_text_attestation members "data"
      else if bool_decide (required = "document") then
        ContentDocument <$> projected_media_source_attestation members "source"
      else if bool_decide (required = "fallback") then
        SourceMessageBlock <$> projected_text_attestation members "type"
      else Err tt
  | _ => Err tt
  end.

Definition projected_content_block_v2 (value : ImportedStructuredValue) :
    result unit ImportedTranscriptContent :=
  match value with
  | SvObject members =>
      source_type ← projected_text_attestation members "type";
      if is_text source_type "text" then
        ContentText <$> projected_text_attestation members "text"
      else if is_text source_type "tool_use" then projected_tool_use members
      else if is_text source_type "tool_result" then projected_tool_result members VersionTwo
      else if is_text source_type "thinking" then projected_thinking members
      else if is_text source_type "redacted_thinking" then
        ContentRedactedThinking <$> projected_text_attestation members "data"
      else if is_text source_type "document" then
        ContentDocument <$> projected_media_source_attestation members "source"
      else Ok (SourceMessageBlock source_type)
  | _ => Err tt
  end.

(** The contents of a message's [content] field, whose blocks [block] projects. *)
Definition projected_blocks (message : list ImportedStructuredObjectMember)
    (block : ImportedStructuredValue -> result unit ImportedTranscriptContent) :
    result unit (list ImportedTranscriptContent) :=
  field ← unique_structured_field message "content";
  match field with
  | None => Ok [MessageContentAbsent ContentNotAttested]
  | Some SvNull => Ok [MessageContentAbsent ContentAttestedAbsent]
  | Some (SvString value) => Ok [ContentText (Attested value)]
  | Some (SvArray []) => Ok [MessageContentAbsent EmptyBlockArray]
  | Some (SvArray blocks) => collect block blocks
  | Some _ => Err tt
  end.

Definition projected_message_content (message : list ImportedStructuredObjectMember)
    (version : ClaudeCodeProjectionVersion) : result unit (list ImportedTranscriptContent) :=
  projected_blocks message
    match version with
    | VersionOne => projected_content_block_v1
    | VersionTwo => projected_content_block_v2
    end.

(** One entry per content, of one speaker and one source. *)
Definition spoken_entries (speaker : ImportedSourceAttestation ImportedSpeaker)
    (source : ImportedSourceMetadata) (content : list ImportedTranscriptContent) : list ProjectedEntry :=
  map (fun content => mkProjectedEntry speaker content source) content.

Definition project_claude_code_record (normalized : ImportedStructuredValue)
    (version : ClaudeCodeProjectionVersion) : result unit (list ProjectedEntry) :=
  match normalized with
  | SvObject record =>
      source_type ← projected_text_attestation record "type";
      match speaker_of source_type with
      | None =>
          source ← projected_source_metadata record NotAttested;
          Ok [mkProjectedEntry NotAttested (SourceEvent source_type) source]
      | Some speaker =>
          message ← unique_structured_field record "message";
          '(content, message_role) ←
            match message with
            | None => Ok ([MessageContentAbsent MessageNotAttested], NotAttested)
            | Some SvNull => Ok ([MessageContentAbsent MessageAttestedAbsent], NotAttested)
            | Some (SvObject message) =>
                role ← projected_message_role message;
                _ ← ensure match role with
                           | Attested role => bool_decide (role = speaker)
                           | _ => true
                           end tt;
                content ← projected_message_content message version;
                Ok (content, role)
            | Some _ => Err tt
            end;
          source ← projected_source_metadata record message_role;
          Ok (spoken_entries (Attested speaker) source content)
      end
  | _ => Err tt
  end.

(** *** Codex *)

(** [payload.map(..).transpose()?.unwrap_or(NotAttested)] *)
Definition optional_text_attestation (payload : option (list ImportedStructuredObjectMember))
    (name : string) : result unit (ImportedSourceAttestation ImportedText) :=
  match payload with
  | Some payload => projected_text_attestation payload name
  | None => Ok NotAttested
  end.

Definition projected_codex_source_metadata (record : list ImportedStructuredObjectMember)
    (payload : option (list ImportedStructuredObjectMember))
    (message_role : ImportedSourceAttestation ImportedSpeaker) : result unit ImportedSourceMetadata :=
  record_id ← optional_text_attestation payload "id";
  source_session_id ← optional_text_attestation payload "session_id";
  timestamp ← projected_text_attestation record "timestamp";
  Ok (mkSourceMetadata record_id NotAttested source_session_id timestamp NotAttested NotAttested
        message_role).

Definition projected_codex_source_event (record : list ImportedStructuredObjectMember)
    (payload : option (list ImportedStructuredObjectMember))
    (source_type : ImportedSourceAttestation ImportedText)
    (message_role : ImportedSourceAttestation ImportedSpeaker) : result unit ProjectedEntry :=
  source ← projected_codex_source_metadata record payload message_role;
  Ok (mkProjectedEntry NotAttested (SourceEvent source_type) source).

Definition projected_codex_typed_entry (record payload : list ImportedStructuredObjectMember)
    (content : ImportedTranscriptContent) : result unit ProjectedEntry :=
  source ← projected_codex_source_metadata record (Some payload) NotAttested;
  Ok (mkProjectedEntry NotAttested content source).

Definition projected_codex_optional_object (members : list ImportedStructuredObjectMember)
    (name : string) : result unit (option (list ImportedStructuredObjectMember)) :=
  field ← unique_structured_field members name;
  match field with Some (SvObject value) => Ok (Some value) | _ => Ok None end.

Definition projected_codex_image_attestation (members : list ImportedStructuredObjectMember)
    (source_type : ImportedSourceAttestation ImportedText) :
    result unit (ImportedSourceAttestation ImportedMediaSource) :=
  image_url ← projected_text_attestation members "image_url";
  Ok (Attested (mkMediaSource source_type NotAttested image_url)).

Definition projected_codex_role_for_metadata (role : ImportedSourceAttestation ImportedText) :
    ImportedSourceAttestation ImportedSpeaker :=
  match role with
  | Attested value =>
      if bool_decide (imported_text value = "user") then Attested SpeakerUser
      else if bool_decide (imported_text value = "assistant") then Attested SpeakerAssistant
      else NotAttested
  | AttestedAbsent => AttestedAbsent
  | NotAttested => NotAttested
  end.

Definition projected_codex_message_block (value : ImportedStructuredValue) :
    result unit ImportedTranscriptContent :=
  match value with
  | SvObject members =>
      source_type ← projected_text_attestation members "type";
      if is_text source_type "input_text" || is_text source_type "output_text" then
        ContentText <$> projected_text_attestation members "text"
      else Ok (SourceMessageBlock source_type)
  | _ => Err tt
  end.

Definition project_codex_message (record payload : list ImportedStructuredObjectMember)
    (source_type : ImportedSourceAttestation ImportedText) : result unit (list ProjectedEntry) :=
  role ← projected_text_attestation payload "role";
  match speaker_of role with
  | None =>
      event ← projected_codex_source_event record (Some payload) source_type
                (projected_codex_role_for_metadata role);
      Ok [event]
  | Some speaker =>
      content ← projected_blocks payload projected_codex_message_block;
      source ← projected_codex_source_metadata record (Some payload) (Attested speaker);
      Ok (spoken_entries (Attested speaker) source content)
  end.

(** One block of a [summary] or [content] array. *)
Definition projected_codex_reasoning_block (block : ImportedStructuredValue) :
    result unit ImportedTranscriptContent :=
  match block with
  | SvObject members =>
      source_type ← projected_text_attestation members "type";
      if is_text source_type "summary_text" || is_text source_type "reasoning_text"
         || is_text source_type "text" then
        thinking ← projected_text_attestation members "text";
        Ok (ContentThinking thinking NotAttested)
      else Ok (SourceMessageBlock source_type)
  | _ => Err tt
  end.

(** What the loop pushes onto [content]. *)
Definition projected_codex_reasoning_blocks (payload : list ImportedStructuredObjectMember)
    (field : string) (content : list ImportedTranscriptContent) :
    result unit (list ImportedTranscriptContent) :=
  value ← unique_structured_field payload field;
  match value with
  | None | Some SvNull => Ok content
  | Some (SvArray blocks) =>
      blocks ← collect projected_codex_reasoning_block blocks;
      Ok (content ++ blocks)
  | Some _ => Err tt
  end.

Definition project_codex_reasoning (record payload : list ImportedStructuredObjectMember)
    (source_type : ImportedSourceAttestation ImportedText) : result unit (list ProjectedEntry) :=
  content ← projected_codex_reasoning_blocks payload "summary" [];
  content ← projected_codex_reasoning_blocks payload "content" content;
  encrypted ← unique_structured_field payload "encrypted_content";
  content ←
    match encrypted with
    | None => Ok content
    | Some SvNull => Ok (content ++ [ContentRedactedThinking AttestedAbsent])
    | Some (SvString value) => Ok (content ++ [ContentRedactedThinking (Attested value)])
    | Some _ => Err tt
    end;
  match content with
  | [] =>
      event ← projected_codex_source_event record (Some payload) source_type NotAttested;
      Ok [event]
  | _ =>
      source ← projected_codex_source_metadata record (Some payload) NotAttested;
      Ok (spoken_entries NotAttested source content)
  end.

(** A projection to exactly one entry. *)
Definition single (entry : result unit ProjectedEntry) : result unit (list ProjectedEntry) :=
  (fun entry => [entry]) <$> entry.

Definition project_codex_named_tool_call (record payload : list ImportedStructuredObjectMember) :
    result unit (list ProjectedEntry) :=
  payload_type ← projected_text_attestation payload "type";
  input_field ←
    (if is_text payload_type "function_call" then Ok "arguments"
     else if is_text payload_type "custom_tool_call" then Ok "input"
     else Err tt);
  source_call_id ← projected_text_attestation payload "call_id";
  name ← projected_text_attestation payload "name";
  input ← projected_string_structured_attestation payload input_field;
  single (projected_codex_typed_entry record payload
            (ContentToolCall source_call_id name input NotAttested)).

Definition project_codex_structured_tool_call (record payload : list ImportedStructuredObjectMember)
    (input_field : string) : result unit (list ProjectedEntry) :=
  source_call_id ← projected_text_attestation payload "call_id";
  input ← projected_structured_attestation payload input_field;
  single (projected_codex_typed_entry record payload
            (ContentToolCall source_call_id NotAttested input NotAttested)).

Definition project_codex_web_search_call (record payload : list ImportedStructuredObjectMember) :
    result unit (list ProjectedEntry) :=
  source_call_id ← projected_text_attestation payload "id";
  input ← projected_structured_attestation payload "action";
  single (projected_codex_typed_entry record payload
            (ContentToolCall source_call_id NotAttested input NotAttested)).

Definition projected_codex_tool_result_block (value : ImportedStructuredValue) :
    result unit ImportedToolResultBlock :=
  match value with
  | SvObject members =>
      source_type ← projected_text_attestation members "type";
      if is_text source_type "input_text" then
        BlockText <$> projected_text_attestation members "text"
      else if is_text source_type "input_image" then
        BlockImage <$> projected_codex_image_attestation members source_type
      else Ok (SourceResultBlock source_type)
  | _ => Err tt
  end.

Definition project_codex_tool_result (record payload : list ImportedStructuredObjectMember) :
    result unit (list ProjectedEntry) :=
  field ← unique_structured_field payload "output";
  content ←
    match field with
    | None => Ok NotAttested
    | Some SvNull => Ok AttestedAbsent
    | Some (SvString value) => Ok (Attested (ResultText value))
    | Some (SvArray blocks) =>
        blocks ← collect projected_codex_tool_result_block blocks;
        Ok (Attested (ResultBlocks blocks))
    | Some _ => Err tt
    end;
  source_call_id ← projected_text_attestation payload "call_id";
  single (projected_codex_typed_entry record payload
            (ContentToolResult source_call_id content NotAttested)).

(** One element of a [tools] array. *)
Definition projected_codex_tool (tool : ImportedStructuredValue) : result unit ImportedToolResultBlock :=
  source_type ←
    match tool with
    | SvObject members => projected_text_attestation members "type"
    | _ => Ok NotAttested
    end;
  Ok (SourceResultBlock source_type).

Definition project_codex_tool_search_result (record payload : list ImportedStructuredObjectMember) :
    result unit (list ProjectedEntry) :=
  field ← unique_structured_field payload "tools";
  content ←
    match field with
    | None => Ok NotAttested
    | Some SvNull => Ok AttestedAbsent
    | Some (SvArray tools) =>
        blocks ← collect projected_codex_tool tools;
        Ok (Attested (ResultBlocks blocks))
    | Some _ => Err tt
    end;
  source_call_id ← projected_text_attestation payload "call_id";
  single (projected_codex_typed_entry record payload
            (ContentToolResult source_call_id content NotAttested)).

Definition project_codex_record (normalized : ImportedStructuredValue) :
    result unit (list ProjectedEntry) :=
  match normalized with
  | SvObject record =>
      source_type ← projected_text_attestation record "type";
      if negb (is_text source_type "response_item") then
        payload ← projected_codex_optional_object record "payload";
        event ← projected_codex_source_event record payload source_type NotAttested;
        Ok [event]
      else
        field ← unique_structured_field record "payload";
        match field with
        | Some (SvObject payload) =>
            payload_type ← projected_text_attestation payload "type";
            if is_text payload_type "message" then project_codex_message record payload source_type
            else if is_text payload_type "reasoning" then
              project_codex_reasoning record payload source_type
            else if is_text payload_type "function_call" || is_text payload_type "custom_tool_call" then
              project_codex_named_tool_call record payload
            else if is_text payload_type "tool_search_call" then
              project_codex_structured_tool_call record payload "arguments"
            else if is_text payload_type "local_shell_call" then
              project_codex_structured_tool_call record payload "action"
            else if is_text payload_type "web_search_call" then
              project_codex_web_search_call record payload
            else if is_text payload_type "function_call_output"
                    || is_text payload_type "custom_tool_call_output" then
              project_codex_tool_result record payload
            else if is_text payload_type "tool_search_output" then
              project_codex_tool_search_result record payload
            else
              event ← projected_codex_source_event record (Some payload) source_type NotAttested;
              Ok [event]
        | _ => Err tt
        end
  | _ => Err tt
  end.

Definition projected_entries (format : ImportedConversationFormat)
    (normalized : ImportedStructuredValue) : result unit (list ProjectedEntry) :=
  match format with
  | ClaudeCodeSessionJsonlV1 => project_claude_code_record normalized VersionOne
  | ClaudeCodeSessionJsonlV2 => project_claude_code_record normalized VersionTwo
  | ClaudeCodeSessionJsonlV3 => project_claude_code_record normalized VersionTwo
  | CodexRolloutJsonlV1 | CodexRolloutJsonlV2 => project_codex_record normalized
  end.

(** ** Positions, records and entries *)

(** [positive_position!]: a positive [u64] per kind. *)
Record ImportedRawRecordPosition := mkRawPosition { raw_position : positive }.
Record ImportedRecordEntryPosition := mkWithinPosition { within_position : positive }.
Record ImportedTranscriptPosition := mkTranscriptPosition { transcript_position : positive }.

#[export] Instance ImportedRawRecordPosition_eq_dec : EqDecision ImportedRawRecordPosition.
Proof. solve_decision. Defined.
#[export] Instance ImportedRecordEntryPosition_eq_dec : EqDecision ImportedRecordEntryPosition.
Proof. solve_decision. Defined.
#[export] Instance ImportedTranscriptPosition_eq_dec : EqDecision ImportedTranscriptPosition.
Proof. solve_decision. Defined.

Definition raw_position_first : ImportedRawRecordPosition := mkRawPosition 1.
Definition within_position_first : ImportedRecordEntryPosition := mkWithinPosition 1.
Definition transcript_position_first : ImportedTranscriptPosition := mkTranscriptPosition 1.
Definition raw_position_next (self : ImportedRawRecordPosition) : option ImportedRawRecordPosition :=
  mkRawPosition <$> nonzero_u64_checked_add (raw_position self) 1.
Definition within_position_next (self : ImportedRecordEntryPosition) :
    option ImportedRecordEntryPosition :=
  mkWithinPosition <$> nonzero_u64_checked_add (within_position self) 1.
Definition transcript_position_next (self : ImportedTranscriptPosition) :
    option ImportedTranscriptPosition :=
  mkTranscriptPosition <$> nonzero_u64_checked_add (transcript_position self) 1.

Record ImportedRawSourceRecord := mkRawRecord {
  record_content_hash : ImportedRawRecordHash;
  record_conversion_digest : ImportedRawRecordConversionDigest;
  record_bytes : bytes;
  record_normalized : ImportedStructuredValue;
}.

Record ImportedRawSourceRecordReconstitutionInput := mkRawInput {
  raw_input_position : ImportedRawRecordPosition;
  raw_input_stored_hash : ImportedRawRecordHash;
  raw_input_stored_conversion_digest : ImportedRawRecordConversionDigest;
  raw_input_bytes : bytes;
  raw_input_normalized : ImportedStructuredValue;
}.

Record ImportedTranscriptEntryInput := mkEntryInput {
  entry_input_identity : ImportedTranscriptEntryId;
  entry_input_conversation : ImportedConversationId;
  entry_input_position : ImportedTranscriptPosition;
  entry_input_raw_position : ImportedRawRecordPosition;
  entry_input_within_position : ImportedRecordEntryPosition;
  entry_input_source_speaker : ImportedSourceAttestation ImportedSpeaker;
  entry_input_content : ImportedTranscriptContent;
  entry_input_source : ImportedSourceMetadata;
}.

Record ImportedTranscriptEntry := mkImportedEntry {
  imported_entry_identity : ImportedTranscriptEntryId;
  imported_entry_conversation : ImportedConversationId;
  imported_entry_position : ImportedTranscriptPosition;
  imported_entry_raw_position : ImportedRawRecordPosition;
  imported_entry_within_position : ImportedRecordEntryPosition;
  imported_entry_source_speaker : ImportedSourceAttestation ImportedSpeaker;
  imported_entry_content : ImportedTranscriptContent;
  imported_entry_source : ImportedSourceMetadata;
}.

(** ** Reconstitution *)

Record ImportedConversationReconstitutionInput := mkConversationInput {
  conversation_requested : ImportedConversationId;
  conversation_stored : ImportedConversationId;
  conversation_input_format : ImportedConversationFormat;
  stored_source_digest : ImportedConversationSourceDigest;
  declared_raw_record_count : N;
  input_raw_records : list ImportedRawSourceRecordReconstitutionInput;
  declared_entry_count : N;
  input_entries : list ImportedTranscriptEntryInput;
}.

Inductive ImportedConversationReconstitutionFailure :=
| RequestedConversationMismatch
| EmptyRawRecords
| EmptyEntries
| DeclaredRawRecordCountMismatch (declared : N) (actual : nat)
| DeclaredEntryCountMismatch (declared : N) (actual : nat)
| RawRecordPositionMismatch (expected actual : ImportedRawRecordPosition)
| RawRecordHashMismatch (position : ImportedRawRecordPosition)
| EmptyRawRecord (position : ImportedRawRecordPosition)
| RawRecordHashCollision (position : ImportedRawRecordPosition)
| RawRecordConversionDigestMismatch (position : ImportedRawRecordPosition)
| RawRecordNormalizedValueNotObject (position : ImportedRawRecordPosition)
| RawRecordStructuredValueDepthExceeded (position : ImportedRawRecordPosition)
| RawRecordProjectionInvalid (position : ImportedRawRecordPosition)
| SourceDigestMismatch (expected actual : ImportedConversationSourceDigest)
| EntryConversationMismatch (entry : ImportedTranscriptEntryId)
| EntryPositionMismatch (entry : ImportedTranscriptEntryId)
    (expected actual : ImportedTranscriptPosition)
| DuplicateEntry (entry : ImportedTranscriptEntryId)
| EntryRawRecordPositionMismatch (entry : ImportedTranscriptEntryId)
    (expected actual : ImportedRawRecordPosition)
| EntryRawRecordNotFound (entry : ImportedTranscriptEntryId) (position : ImportedRawRecordPosition)
| EntryWithinRecordPositionMismatch (entry : ImportedTranscriptEntryId)
    (expected actual : ImportedRecordEntryPosition)
| RawRecordWithoutEntry (position : ImportedRawRecordPosition)
| SourceEventSpeakerMismatch (entry : ImportedTranscriptEntryId)
| SourceRecordTypeMismatch (entry : ImportedTranscriptEntryId)
| MessageSpeakerUnavailable (entry : ImportedTranscriptEntryId)
| MessageRoleMismatch (entry : ImportedTranscriptEntryId)
| EntryProjectionMismatch (entry : ImportedTranscriptEntryId)
| RawRecordEntryProjectionMismatch (position : ImportedRawRecordPosition)
| EntryStructuredValueDepthExceeded (entry : ImportedTranscriptEntryId)
| PositionExhausted.

Abbreviation validation := (result ImportedConversationReconstitutionFailure).

(** [u64::try_from] of a length *)
Definition u64_try_from_len (len : nat) : option N :=
  if (N.of_nat len <=? u64_max)%N then Some (N.of_nat len) else None.

Definition normalized_record_type (normalized : ImportedStructuredValue) :
    result unit (ImportedSourceAttestation ImportedText) :=
  match normalized with
  | SvObject members => silent (imported_text_attestation members "type")
  | _ => Err tt
  end.

Definition normalized_codex_record_speaker (normalized : ImportedStructuredValue) :
    result unit (option ImportedSpeaker) :=
  match normalized with
  | SvObject record =>
      source_type ← projected_text_attestation record "type";
      if negb (is_text source_type "response_item") then Ok None else
      field ← unique_structured_field record "payload";
      match field with
      | Some (SvObject payload) =>
          payload_type ← projected_text_attestation payload "type";
          if negb (is_text payload_type "message") then Ok None else
          role ← projected_text_attestation payload "role";
          Ok (speaker_of role)
      | _ => Err tt
      end
  | _ => Err tt
  end.

Definition normalized_record_speaker (format : ImportedConversationFormat)
    (normalized : ImportedStructuredValue) : result unit (option ImportedSpeaker) :=
  match format with
  | CodexRolloutJsonlV1 | CodexRolloutJsonlV2 => normalized_codex_record_speaker normalized
  | _ => record_type ← normalized_record_type normalized; Ok (speaker_of record_type)
  end.

Definition structured_attestation_within_depth
    (value : ImportedSourceAttestation ImportedStructuredValue) : bool :=
  match value with
  | Attested value => structured_value_within_depth value
  | AttestedAbsent | NotAttested => true
  end.

Definition validate_entry_depth (entry : ImportedTranscriptEntryInput) : validation unit :=
  let within_bound :=
    match entry_input_content entry with
    | ContentToolCall _ _ input caller =>
        structured_attestation_within_depth input && structured_attestation_within_depth caller
    | _ => true
    end in
  ensure within_bound (EntryStructuredValueDepthExceeded (entry_input_identity entry)).

(** The raw record at a position, [raw_records.get(position - 1)]. *)
Definition raw_record_at (records : list ImportedRawSourceRecordReconstitutionInput)
    (position : ImportedRawRecordPosition) : option ImportedRawSourceRecordReconstitutionInput :=
  records !! pred (Pos.to_nat (raw_position position)).

Definition validate_speaker (input : ImportedConversationReconstitutionInput)
    (entry : ImportedTranscriptEntryInput) : validation unit :=
  let identity := entry_input_identity entry in
  record ← ok_or (raw_record_at (input_raw_records input) (entry_input_raw_position entry))
             (EntryRawRecordNotFound identity (entry_input_raw_position entry));
  record_speaker ← map_err (fun _ => SourceRecordTypeMismatch identity)
    (normalized_record_speaker (conversation_input_format input) (raw_input_normalized record));
  match entry_input_content entry with
  | SourceEvent source_type =>
      if negb (bool_decide (entry_input_source_speaker entry = NotAttested))
      then Err (SourceEventSpeakerMismatch identity) else
      record_type ← map_err (fun _ => SourceRecordTypeMismatch identity)
        (normalized_record_type (raw_input_normalized record));
      if bool_decide (is_Some record_speaker) || negb (bool_decide (source_type = record_type))
      then Err (SourceRecordTypeMismatch identity) else Ok tt
  | _ =>
      match record_speaker, entry_input_source_speaker entry with
      | Some record_speaker, Attested entry_speaker =>
          if bool_decide (record_speaker = entry_speaker) then
            match metadata_message_role (entry_input_source entry) with
            | Attested message_role =>
                if negb (bool_decide (message_role = entry_speaker))
                then Err (MessageRoleMismatch identity) else Ok tt
            | _ => Ok tt
            end
          else Err (SourceRecordTypeMismatch identity)
      | None, NotAttested => Ok tt
      | Some _, (NotAttested | AttestedAbsent) | None, (Attested _ | AttestedAbsent) =>
          Err (MessageSpeakerUnavailable identity)
      end
  end.

(** The mutable locals of the loop over the raw records. [bytes_by_hash] is
    only written and read by key. *)
Record RawRecordsState := mkRawState {
  expected_raw_record : ImportedRawRecordPosition;
  bytes_by_hash : gmap N bytes;
}.

Definition is_object (value : ImportedStructuredValue) : bool :=
  match value with SvObject _ => true | _ => false end.

(** The mutable locals of the loop over the entries; of the set of identities
    only membership is observed. *)
Record EntriesState := mkEntriesState {
  entries_index : nat;
  expected_position : ImportedTranscriptPosition;
  expected_raw_position : ImportedRawRecordPosition;
  expected_within_position : ImportedRecordEntryPosition;
  seen_identities : list ImportedTranscriptEntryId;
  projected_raw_position : ImportedRawRecordPosition;
  expected_entries : list ProjectedEntry;
  projected_entry_index : nat;
}.

Section validation.
Context `{Sha256}.

(** One iteration; [more] tells whether another record follows. *)
Definition validate_raw_record (state : RawRecordsState)
    (record : ImportedRawSourceRecordReconstitutionInput) (more : bool) : validation RawRecordsState :=
  let position := raw_input_position record in
  let expected := expected_raw_record state in
  if negb (bool_decide (position = expected))
  then Err (RawRecordPositionMismatch expected position) else
  if negb (bool_decide (raw_hash_digest (raw_input_bytes record) = raw_input_stored_hash record))
  then Err (RawRecordHashMismatch position) else
  if bool_decide (raw_input_bytes record = []) then Err (EmptyRawRecord position) else
  let key := raw_hash_value (raw_input_stored_hash record) in
  if match bytes_by_hash state !! key with
     | Some existing_bytes => negb (bool_decide (existing_bytes = raw_input_bytes record))
     | None => false
     end
  then Err (RawRecordHashCollision position) else
  if negb (is_object (raw_input_normalized record))
  then Err (RawRecordNormalizedValueNotObject position) else
  if negb (structured_value_within_depth (raw_input_normalized record))
  then Err (RawRecordStructuredValueDepthExceeded position) else
  if negb (bool_decide (raw_input_stored_conversion_digest record =
       conversion_digest_derive (raw_input_stored_hash record) (raw_input_normalized record)))
  then Err (RawRecordConversionDigestMismatch position) else
  expected ← (if more then ok_or (raw_position_next expected) PositionExhausted else Ok expected);
  Ok (mkRawState expected (<[key := raw_input_bytes record]> (bytes_by_hash state))).

Fixpoint validate_raw_records_loop (state : RawRecordsState)
    (records : list ImportedRawSourceRecordReconstitutionInput) : validation unit :=
  match records with
  | [] => Ok tt
  | record :: records =>
      state ← validate_raw_record state record (match records with [] => false | _ => true end);
      validate_raw_records_loop state records
  end.

Definition validate_raw_records (input : ImportedConversationReconstitutionInput) : validation unit :=
  let records := input_raw_records input in
  if bool_decide (records = []) then Err EmptyRawRecords else
  if negb (bool_decide (u64_try_from_len (length records) = Some (declared_raw_record_count input)))
  then Err (DeclaredRawRecordCountMismatch (declared_raw_record_count input) (length records)) else
  _ ← validate_raw_records_loop (mkRawState raw_position_first ∅) records;
  let expected_digest :=
    source_digest_derive (conversation_input_format input) (raw_input_stored_hash <$> records) in
  if negb (bool_decide (stored_source_digest input = expected_digest))
  then Err (SourceDigestMismatch expected_digest (stored_source_digest input)) else Ok tt.


(** The checks of one entry's place: the conversation, the positions and the
    identity. *)
Definition check_entry_place (input : ImportedConversationReconstitutionInput)
    (last_raw_position : ImportedRawRecordPosition) (state : EntriesState)
    (entry : ImportedTranscriptEntryInput) :
    validation (ImportedRawRecordPosition * ImportedRecordEntryPosition) :=
  let identity := entry_input_identity entry in
  let raw := entry_input_raw_position entry in
  if negb (bool_decide (entry_input_conversation entry = conversation_stored input))
  then Err (EntryConversationMismatch identity) else
  if negb (bool_decide (entry_input_position entry = expected_position state))
  then Err (EntryPositionMismatch identity (expected_position state) (entry_input_position entry)) else
  if bool_decide (identity ∈ seen_identities state) then Err (DuplicateEntry identity) else
  if (raw_position last_raw_position <? raw_position raw)%positive
  then Err (EntryRawRecordNotFound identity raw) else
  if bool_decide (entries_index state = 0%nat)
     && negb (bool_decide (raw = expected_raw_position state))
  then Err (RawRecordWithoutEntry (expected_raw_position state)) else
  '(raw_expected, within_expected) ←
    (if bool_decide (raw = expected_raw_position state)
     then Ok (expected_raw_position state, expected_within_position state)
     else
       let next_raw := raw_position_next (expected_raw_position state) in
       if bool_decide (next_raw = Some raw) then Ok (raw, within_position_first)
       else Err (EntryRawRecordPositionMismatch identity
                   (default (expected_raw_position state) next_raw) raw));
  if negb (bool_decide (entry_input_within_position entry = within_expected))
  then Err (EntryWithinRecordPositionMismatch identity within_expected
              (entry_input_within_position entry))
  else Ok (raw_expected, within_expected).

(** The projection the entry is compared with: the current one, or that of its
    own record once the current one is used up. *)
Definition advance_projection (input : ImportedConversationReconstitutionInput) (state : EntriesState)
    (entry : ImportedTranscriptEntryInput) :
    validation (ImportedRawRecordPosition * list ProjectedEntry * nat) :=
  let raw := entry_input_raw_position entry in
  if bool_decide (raw = projected_raw_position state)
  then Ok (projected_raw_position state, expected_entries state, projected_entry_index state)
  else if negb (bool_decide (projected_entry_index state = length (expected_entries state)))
  then Err (RawRecordEntryProjectionMismatch (projected_raw_position state))
  else
    record ← ok_or (raw_record_at (input_raw_records input) raw)
               (EntryRawRecordNotFound (entry_input_identity entry) raw);
    expected ← map_err (fun _ => RawRecordProjectionInvalid (raw_input_position record))
      (projected_entries (conversation_input_format input) (raw_input_normalized record));
    Ok (raw_input_position record, expected, 0%nat).

(** The modeled fields of an entry. *)
Definition entry_projection (entry : ImportedTranscriptEntryInput) : ProjectedEntry :=
  mkProjectedEntry (entry_input_source_speaker entry) (entry_input_content entry)
    (entry_input_source entry).

#[export] Instance ProjectedEntry_eq_dec : EqDecision ProjectedEntry.
Proof. solve_decision. Defined.

(** One iteration; [next] is the entry that follows. An index into a vector
    stays below [usize::MAX], so its increment is exact. *)
Definition validate_entry (input : ImportedConversationReconstitutionInput)
    (last_raw_position : ImportedRawRecordPosition) (state : EntriesState)
    (entry : ImportedTranscriptEntryInput) (next : option ImportedTranscriptEntryInput) :
    validation EntriesState :=
  '(raw, within) ← check_entry_place input last_raw_position state entry;
  _ ← validate_speaker input entry;
  _ ← validate_entry_depth entry;
  '(projected_raw, expected, index) ← advance_projection input state entry;
  expected_entry ← ok_or (expected !! index) (RawRecordEntryProjectionMismatch projected_raw);
  if negb (bool_decide (expected_entry = entry_projection entry))
  then Err (EntryProjectionMismatch (entry_input_identity entry)) else
  '(position, within) ←
    match next with
    | None => Ok (expected_position state, within)
    | Some next_entry =>
        position ← ok_or (transcript_position_next (expected_position state)) PositionExhausted;
        within ←
          (if bool_decide (entry_input_raw_position next_entry = raw)
           then ok_or (within_position_next within) PositionExhausted else Ok within);
        Ok (position, within)
    end;
  Ok (mkEntriesState (S (entries_index state)) position raw within
        (entry_input_identity entry :: seen_identities state) projected_raw expected (S index)).

Fixpoint validate_entries_loop (input : ImportedConversationReconstitutionInput)
    (last_raw_position : ImportedRawRecordPosition) (state : EntriesState)
    (entries : list ImportedTranscriptEntryInput) : validation EntriesState :=
  match entries with
  | [] => Ok state
  | entry :: entries =>
      state ← validate_entry input last_raw_position state entry (head entries);
      validate_entries_loop input last_raw_position state entries
  end.

Definition validate_entries (input : ImportedConversationReconstitutionInput) : validation unit :=
  let entries := input_entries input in
  if bool_decide (entries = []) then Err EmptyEntries else
  if negb (bool_decide (u64_try_from_len (length entries) = Some (declared_entry_count input)))
  then Err (DeclaredEntryCountMismatch (declared_entry_count input) (length entries)) else
  last_raw ← ok_or (last (input_raw_records input)) EmptyRawRecords;
  let last_raw_position := raw_input_position last_raw in
  first_raw ← ok_or (head (input_raw_records input)) EmptyRawRecords;
  expected ← map_err (fun _ => RawRecordProjectionInvalid (raw_input_position first_raw))
    (projected_entries (conversation_input_format input) (raw_input_normalized first_raw));
  state ← validate_entries_loop input last_raw_position
    (mkEntriesState 0 transcript_position_first raw_position_first within_position_first []
       (raw_input_position first_raw) expected 0)
    entries;
  if negb (bool_decide (expected_raw_position state = last_raw_position)) then
    position ← ok_or (raw_position_next (expected_raw_position state)) PositionExhausted;
    Err (RawRecordWithoutEntry position)
  else if negb (bool_decide (projected_entry_index state = length (expected_entries state)))
  then Err (RawRecordEntryProjectionMismatch (projected_raw_position state))
  else Ok tt.

Definition validate_reconstitution (input : ImportedConversationReconstitutionInput) :
    validation unit :=
  if negb (bool_decide (conversation_requested input = conversation_stored input))
  then Err RequestedConversationMismatch else
  _ ← validate_raw_records input;
  validate_entries input.

(** ** The aggregate *)

Record ImportedConversation := mkConversation {
  conversation_id : ImportedConversationId;
  conversation_format : ImportedConversationFormat;
  conversation_source_digest : ImportedConversationSourceDigest;
  conversation_raw_records : list ImportedRawSourceRecord;
  conversation_entries : list ImportedTranscriptEntry;
}.

Definition build_conversation (input : ImportedConversationReconstitutionInput) :
    ImportedConversation :=
  mkConversation (conversation_stored input) (conversation_input_format input)
    (stored_source_digest input)
    ((fun record =>
        mkRawRecord (raw_input_stored_hash record) (raw_input_stored_conversion_digest record)
          (raw_input_bytes record) (raw_input_normalized record)) <$> input_raw_records input)
    ((fun entry =>
        mkImportedEntry (entry_input_identity entry) (entry_input_conversation entry)
          (entry_input_position entry) (entry_input_raw_position entry)
          (entry_input_within_position entry) (entry_input_source_speaker entry)
          (entry_input_content entry) (entry_input_source entry)) <$> input_entries input).

(** [ImportedConversationReconstitutionError]: the rejected input and the failure. *)
Definition ImportedConversationReconstitutionError : Type :=
  ImportedConversationReconstitutionInput * ImportedConversationReconstitutionFailure.

(** [ImportedConversationReconstitutionInput::reconstitute] *)
Definition conversation_reconstitute (input : ImportedConversationReconstitutionInput) :
    result ImportedConversationReconstitutionError ImportedConversation :=
  match validate_reconstitution input with
  | Err failure => Err (input, failure)
  | Ok _ => Ok (build_conversation input)
  end.

(** [ImportedRawSourceRecord::from_converted] *)
Definition raw_record_from_converted (input : bytes) (normalized : ImportedStructuredValue) :
    ImportedRawSourceRecord :=
  let content_hash := raw_hash_digest input in
  mkRawRecord content_hash (conversion_digest_derive content_hash normalized) input normalized.

(** [u64::try_from(len).unwrap_or(u64::MAX)] *)
Definition saturating_len (len : nat) : N := N.min (N.of_nat len) u64_max.

(** The input both paths of [from_converted_records] supply. *)
Definition converted_input (id : ImportedConversationId) (format : ImportedConversationFormat)
    (records : list ImportedRawSourceRecordReconstitutionInput)
    (entries : list ImportedTranscriptEntryInput) : ImportedConversationReconstitutionInput :=
  mkConversationInput id id format (source_digest_derive format (raw_input_stored_hash <$> records))
    (saturating_len (length records)) records (saturating_len (length entries)) entries.

Definition conversion_error (id : ImportedConversationId) (format : ImportedConversationFormat)
    (records : list ImportedRawSourceRecordReconstitutionInput)
    (entries : list ImportedTranscriptEntryInput)
    (failure : ImportedConversationReconstitutionFailure) : ImportedConversationReconstitutionError :=
  (converted_input id format records entries, failure).

Definition raw_input_of (position : ImportedRawRecordPosition) (record : ImportedRawSourceRecord) :
    ImportedRawSourceRecordReconstitutionInput :=
  mkRawInput position (record_content_hash record) (record_conversion_digest record)
    (record_bytes record) (record_normalized record).

(** The loop that places the records: the records placed, and the failure when
    the positions run out. *)
Fixpoint place_records (position : ImportedRawRecordPosition) (records : list ImportedRawSourceRecord)
    (placed : list ImportedRawSourceRecordReconstitutionInput) :
    result (list ImportedRawSourceRecordReconstitutionInput)
           (list ImportedRawSourceRecordReconstitutionInput) :=
  match records with
  | [] => Ok placed
  | record :: records =>
      let placed := placed ++ [raw_input_of position record] in
      match records with
      | [] => Ok placed
      | _ =>
          match raw_position_next position with
          | Some next => place_records next records placed
          | None => Err placed
          end
      end
  end.

Definition from_converted_records (id : ImportedConversationId) (format : ImportedConversationFormat)
    (raw_records : list ImportedRawSourceRecord) (entries : list ImportedTranscriptEntryInput) :
    result ImportedConversationReconstitutionError ImportedConversation :=
  match place_records raw_position_first raw_records [] with
  | Err placed => Err (conversion_error id format placed entries PositionExhausted)
  | Ok placed => conversation_reconstitute (converted_input id format placed entries)
  end.
End validation.

(** *** Frontiers *)

Record ImportedTranscriptFrontier := mkImportedFrontier {
  frontier_conversation : ImportedConversationId;
  frontier_through_entry : ImportedTranscriptEntryId;
  frontier_through_position : ImportedTranscriptPosition;
}.

Definition frontier_of (self : ImportedConversation) (entry : ImportedTranscriptEntry) :
    ImportedTranscriptFrontier :=
  mkImportedFrontier (conversation_id self) (imported_entry_identity entry) (imported_entry_position entry).

(** [ImportedConversation::frontiers], [::frontier_for_entry] and [::prefix] *)
Definition frontiers (self : ImportedConversation) : list ImportedTranscriptFrontier :=
  frontier_of self <$> conversation_entries self.

Definition frontier_for_entry (self : ImportedConversation) (entry : ImportedTranscriptEntryId) :
    option ImportedTranscriptFrontier :=
  frontier_of self <$>
    find (fun candidate => bool_decide (imported_entry_identity candidate = entry))
      (conversation_entries self).

(** The slice [get(..length)] exists when the length does not pass the end. *)
Definition imported_prefix (self : ImportedConversation) (frontier : ImportedTranscriptFrontier) :
    option (list ImportedTranscriptEntry) :=
  if negb (bool_decide (frontier_conversation frontier = conversation_id self)) then None else
  let length := Pos.to_nat (transcript_position (frontier_through_position frontier)) in
  entry ← conversation_entries self !! pred length;
  if negb (bool_decide (imported_entry_identity entry = frontier_through_entry frontier)) then None
  else if (length <=? Datatypes.length (conversation_entries self))%nat
  then Some (take length (conversation_entries self)) else None.

(** *** Display titles

    A title is UTF-8; a byte that continues a character is [0b10xxxxxx], so the
    characters are counted by the other bytes, and the first characters end
    before the byte that starts the next one. *)

Definition continues_character (byte : Ascii.ascii) : bool :=
  let n := Ascii.N_of_ascii byte in (128 <=? n)%N && (n <? 192)%N.

(** [chars().count()] and [chars().take(count)] *)
Fixpoint count_characters (value : bytes) : nat :=
  match value with
  | [] => 0
  | byte :: value =>
      if continues_character byte then count_characters value else S (count_characters value)
  end.
Fixpoint take_characters (count : nat) (value : bytes) : bytes :=
  match value with
  | [] => []
  | byte :: value =>
      if continues_character byte then byte :: take_characters count value
      else match count with 0%nat => [] | S count => byte :: take_characters count value end
  end.

Record ImportedConversationDisplayTitle := mkDisplayTitle { title_text : bytes }.

Inductive ImportedConversationDisplayTitleError :=
| TitleEmpty
| TitleContainsNul
| TitleContainsLineBreak
| TitleExceedsMaxScalars (scalars : nat)
| TitleUntrimmedEdgeWhitespace.

Definition TITLE_MAX_SCALARS : nat := 256.

Definition char_code (code : N) (byte : Ascii.ascii) : bool := (Ascii.N_of_ascii byte =? code)%N.
Definition is_nul : Ascii.ascii -> bool := char_code 0.
Definition is_line_break (byte : Ascii.ascii) : bool := char_code 10 byte || char_code 13 byte.
Definition is_edge_space (byte : Ascii.ascii) : bool := char_code 32 byte || char_code 9 byte.

(** [trim_start_matches], [trim_end_matches] and [trim_matches] of space and tab *)
Fixpoint trim_start_bytes (value : bytes) : bytes :=
  match value with
  | [] => []
  | byte :: rest => if is_edge_space byte then trim_start_bytes rest else value
  end.
Definition trim_end_bytes (value : bytes) : bytes := reverse (trim_start_bytes (reverse value)).

Definition title_try_new (value : bytes) :
    result ImportedConversationDisplayTitleError ImportedConversationDisplayTitle :=
  if bool_decide (value = []) then Err TitleEmpty else
  if existsb is_nul value then Err TitleContainsNul else
  if existsb is_line_break value then Err TitleContainsLineBreak else
  if (TITLE_MAX_SCALARS <? count_characters value)%nat
  then Err (TitleExceedsMaxScalars (count_characters value)) else
  if match head value with Some byte => is_edge_space byte | None => false end
     || match last value with Some byte => is_edge_space byte | None => false end
  then Err TitleUntrimmedEdgeWhitespace
  else Ok (mkDisplayTitle value).

(** [split(['\n', '\r', '\0']).next()] *)
Fixpoint first_line (value : bytes) : bytes :=
  match value with
  | [] => []
  | byte :: rest => if is_nul byte || is_line_break byte then [] else byte :: first_line rest
  end.

Definition shape_candidate (candidate : bytes) : option ImportedConversationDisplayTitle :=
  let trimmed := trim_end_bytes (trim_start_bytes (first_line candidate)) in
  let shaped := trim_end_bytes (take_characters TITLE_MAX_SCALARS trimmed) in
  match shaped with [] => None | _ => Some (mkDisplayTitle shaped) end.

Definition first_member (members : list ImportedStructuredObjectMember) (name : string) :
    option ImportedStructuredValue :=
  snd <$> find (fun member => bool_decide (imported_text (fst member) = name)) members.

(** The lookups of a path, starting at a value. *)
Fixpoint walk_path (value : ImportedStructuredValue) (path : list string) :
    option ImportedStructuredValue :=
  match path with
  | [] => Some value
  | step :: path =>
      match value with
      | SvObject members => value ← first_member members step; walk_path value path
      | _ => None
      end
  end.

(** The closure of [typed_record_string_candidates]. *)
Definition record_string_candidate (record_type : string) (path : list string)
    (record : ImportedRawSourceRecord) : option ImportedText :=
  match record_normalized record with
  | SvObject members =>
      found_type ← first_member members "type";
      match found_type with
      | SvString found_type =>
          if negb (bool_decide (imported_text found_type = record_type)) then None else
          value ← walk_path (record_normalized record) path;
          match value with SvString text => Some text | _ => None end
      | _ => None
      end
  | _ => None
  end.

Definition typed_record_string_candidates (conversation : ImportedConversation) (record_type : string)
    (path : list string) : list ImportedText :=
  omap (record_string_candidate record_type path) (conversation_raw_records conversation).

Definition attested_user_text (entry : ImportedTranscriptEntry) : option ImportedText :=
  if negb (bool_decide (imported_entry_source_speaker entry = Attested SpeakerUser)) then None else
  match imported_entry_content entry with ContentText (Attested text) => Some text | _ => None end.

Definition attested_user_text_candidates (conversation : ImportedConversation) : list ImportedText :=
  omap attested_user_text (conversation_entries conversation).

(** [find_map(Self::shape_candidate)] *)
Definition first_title (candidates : list ImportedText) : option ImportedConversationDisplayTitle :=
  head (omap (fun text => shape_candidate (str_bytes (imported_text text))) candidates).

Definition derive_candidates (conversation : ImportedConversation) :
    list (option ImportedConversationDisplayTitle) :=
  match conversation_format conversation with
  | ClaudeCodeSessionJsonlV1 | ClaudeCodeSessionJsonlV2 | ClaudeCodeSessionJsonlV3 =>
      [first_title (typed_record_string_candidates conversation "summary" ["summary"]);
       first_title (attested_user_text_candidates conversation);
       None]
  | CodexRolloutJsonlV1 | CodexRolloutJsonlV2 =>
      [first_title (typed_record_string_candidates conversation "session_meta" ["payload"; "title"]);
       first_title
         (typed_record_string_candidates conversation "session_meta" ["payload"; "instructions"]);
       first_title (attested_user_text_candidates conversation)]
  end.

(** [ImportedConversationDisplayTitle::derive] *)
Definition title_derive (conversation : ImportedConversation) :
    option ImportedConversationDisplayTitle :=
  head (omap id (derive_candidates conversation)).
