(* ===== verification/ImportedSpec.v ===== *)
(** * Imported conversations: theorems

    A stored conversation is legal when its records are placed, hashed and
    authenticated as stored and its entries are, in order, what the records
    project to. Reconstitution accepts exactly those; conversations converted
    from records are among them; frontiers denote prefixes and display titles
    are stable. *)

From stdpp Require Import strings.
From S2P Require Import Prelude ImportedValue Imported.

(** ** Projections *)

Lemma select_field_from found members v name :
  try_fold (select_field name) members found = Ok (Some v) ->
  found = Some v \/ v ∈ (snd <$> members).
Proof.
  revert found. induction members as [|[n w] members IH]; intros found; simpl; [intros [= ->]; by left|].
  intros (s & Hs & Hf)%bind_Ok. unfold select_field in Hs. simpl in Hs.
  apply IH in Hf as [->|Hin]; [|right; set_solver].
  case_bool_decide; [|left; by injection Hs as ->].
  destruct found; [done|]. injection Hs as ->. right. set_solver.
Qed.

Lemma unique_field_member members name v :
  unique_structured_field members name = Ok (Some v) -> v ∈ (snd <$> members).
Proof.
  unfold unique_structured_field, silent, unique_imported_structured_field.
  intros Hf%map_err_Ok. apply select_field_from in Hf as [?|?]; [done|done].
Qed.

Lemma deepest_elem {A} (f : A -> N) l x :
  x ∈ l -> (f x <= foldr (fun y deepest => N.max (f y) deepest) 0 l)%N.
Proof. induction l as [|y l IH]; [set_solver|]. intros [->|Hx%IH]%elem_of_cons; simpl; lia. Qed.

Lemma member_depth members v :
  v ∈ (snd <$> members) -> (container_depth v < container_depth (SvObject members))%N.
Proof.
  intros ((n & w) & -> & Hm)%list_elem_of_fmap. simpl.
  pose proof (deepest_elem (fun member : ImportedStructuredObjectMember => container_depth (snd member))
                members (n, w) Hm). unfold ImportedStructuredObjectMember in *. simpl in *. lia.
Qed.

Lemma element_depth values v :
  v ∈ values -> (container_depth v < container_depth (SvArray values))%N.
Proof. intros Hv. simpl. pose proof (deepest_elem container_depth values v Hv). lia. Qed.

Lemma field_depth members name v :
  unique_structured_field members name = Ok (Some v) ->
  (container_depth v < container_depth (SvObject members))%N.
Proof. intros Hf%unique_field_member. by apply member_depth. Qed.

Lemma collect_Ok {A B} (f : A -> result unit B) l ys :
  collect f l = Ok ys <-> Forall2 (fun x y => f x = Ok y) l ys.
Proof.
  revert ys. induction l as [|x l IH]; intros ys; simpl.
  - split; [by intros [= <-]|]. by intros ->%Forall2_nil_inv_l.
  - rewrite bind_Ok. setoid_rewrite bind_Ok. setoid_rewrite IH. split.
    + intros (y & Hy & ys' & Hys & [= <-]). by constructor.
    + intros (y & ys' & Hy & Hys & ->)%Forall2_cons_inv_l. eauto 6.
Qed.

Lemma collect_elem {A B} (f : A -> result unit B) l ys y :
  collect f l = Ok ys -> y ∈ ys -> exists x, x ∈ l /\ f x = Ok y.
Proof.
  intros Hc%collect_Ok. induction Hc as [|x z l ys Hxz Hl IH]; [set_solver|].
  intros [->|(x' & ? & ?)%IH]%elem_of_cons; [exists x|exists x']; set_solver.
Qed.

Lemma object_depth_positive members : (0 < container_depth (SvObject members))%N.
Proof. simpl. lia. Qed.

Definition attested_depth (value : ImportedSourceAttestation ImportedStructuredValue) : N :=
  match value with Attested value => container_depth value | _ => 0%N end.

Lemma structured_attestation_depth members name a :
  projected_structured_attestation members name = Ok a ->
  (attested_depth a < container_depth (SvObject members))%N.
Proof.
  unfold projected_structured_attestation, imported_structured_attestation, silent.
  intros (field & Hf & Ha)%map_err_Ok%bind_Ok.
  assert (forall v, field = Some v -> (container_depth v < container_depth (SvObject members))%N) as Hd.
  { intros v ->. apply (field_depth members name). unfold unique_structured_field, silent. by rewrite Hf. }
  destruct field as [v|]; [|injection Ha as <-; apply object_depth_positive].
  specialize (Hd v eq_refl). destruct v; injection Ha as <-; done || apply object_depth_positive.
Qed.

Lemma string_attestation_depth members name a :
  projected_string_structured_attestation members name = Ok a ->
  (attested_depth a < container_depth (SvObject members))%N.
Proof.
  unfold projected_string_structured_attestation, imported_string_structured_attestation, silent.
  intros (field & Hf & Ha)%map_err_Ok%bind_Ok.
  destruct field as [[]|]; simplify_eq; apply object_depth_positive.
Qed.

(** How deep the structured values of an entry nest. *)
Definition content_depth (content : ImportedTranscriptContent) : N :=
  match content with
  | ContentToolCall _ _ input caller => N.max (attested_depth input) (attested_depth caller)
  | _ => 0%N
  end.

Definition is_source_event (content : ImportedTranscriptContent) : bool :=
  match content with SourceEvent _ => true | _ => false end.

(** A content that a block of at most this depth projects to. *)
Definition block_content (bound : N) (content : ImportedTranscriptContent) : Prop :=
  is_source_event content = false /\ (content_depth content < bound)%N.

(** Opens the steps of a projection that returned. *)
Ltac open_projection H :=
  repeat (simpl in H;
    first
      [ discriminate H
      | apply bind_Ok in H as (? & ? & H)
      | case_match; simplify_eq
      | injection H as <- ]).

Lemma result_fmap_Ok {E A B} (f : A -> B) (m : result E A) b :
  f <$> m = Ok b <-> exists a, m = Ok a /\ b = f a.
Proof. destruct m; simpl; naive_solver. Qed.

Lemma tool_use_content members c :
  projected_tool_use members = Ok c -> block_content (container_depth (SvObject members)) c.
Proof.
  unfold projected_tool_use.
  intros (? & _ & (? & _ & (input & Hi & (caller & Hc & [= <-])%bind_Ok)%bind_Ok)%bind_Ok)%bind_Ok.
  apply structured_attestation_depth in Hi, Hc. split; [done|]. cbn [content_depth]. lia.
Qed.

Lemma flat_content members c :
  is_source_event c = false -> content_depth c = 0%N ->
  block_content (container_depth (SvObject members)) c.
Proof. intros Hs Hd. split; [done|]. rewrite Hd. apply object_depth_positive. Qed.

Lemma tool_result_content members version c :
  projected_tool_result members version = Ok c -> is_source_event c = false /\ content_depth c = 0%N.
Proof.
  unfold projected_tool_result.
  by intros (? & _ & (? & _ & (? & _ & (? & _ & [= <-])%bind_Ok)%bind_Ok)%bind_Ok)%bind_Ok.
Qed.

Lemma thinking_content members c :
  projected_thinking members = Ok c -> is_source_event c = false /\ content_depth c = 0%N.
Proof. unfold projected_thinking. by intros (? & _ & (? & _ & [= <-])%bind_Ok)%bind_Ok. Qed.

(** Blocks whose projection is one of the cases above. *)
Ltac block_cases Hc members :=
  repeat case_match; try discriminate Hc;
  first
    [ by apply tool_use_content in Hc
    | by apply tool_result_content in Hc as [? ?]; apply flat_content
    | by apply thinking_content in Hc as [? ?]; apply flat_content
    | apply result_fmap_Ok in Hc as (? & _ & ->); by apply flat_content
    | injection Hc as <-; by apply flat_content
    | apply bind_Ok in Hc as (? & _ & [= <-]); by apply flat_content ].

Lemma block_v1_content b c :
  projected_content_block_v1 b = Ok c -> block_content (container_depth b) c.
Proof.
  destruct b as [| | | | |members]; try done. unfold projected_content_block_v1.
  intros (required & _ & Hc)%bind_Ok. block_cases Hc members.
Qed.

Lemma block_v2_content b c :
  projected_content_block_v2 b = Ok c -> block_content (container_depth b) c.
Proof.
  destruct b as [| | | | |members]; try done. unfold projected_content_block_v2.
  intros (source_type & _ & Hc)%bind_Ok. block_cases Hc members.
Qed.

Lemma codex_block_content b c :
  projected_codex_message_block b = Ok c -> block_content (container_depth b) c.
Proof.
  destruct b as [| | | | |members]; try done. unfold projected_codex_message_block.
  intros (source_type & _ & Hc)%bind_Ok. block_cases Hc members.
Qed.

Lemma reasoning_block_content b c :
  projected_codex_reasoning_block b = Ok c -> block_content (container_depth b) c.
Proof.
  destruct b as [| | | | |members]; try done. unfold projected_codex_reasoning_block.
  intros (source_type & _ & Hc)%bind_Ok. block_cases Hc members.
Qed.

Lemma block_content_le bound bound' c :
  (bound <= bound')%N -> block_content bound c -> block_content bound' c.
Proof. intros Hle [? ?]. split; [done|lia]. Qed.

(** Contents of the message whose members these are. *)
Definition message_contents (members : list ImportedStructuredObjectMember)
    (contents : list ImportedTranscriptContent) : Prop :=
  contents <> [] /\ Forall (block_content (container_depth (SvObject members))) contents.

Lemma one_flat_content members c :
  is_source_event c = false -> content_depth c = 0%N -> message_contents members [c].
Proof. intros ? ?. split; [done|]. constructor; [by apply flat_content|constructor]. Qed.

Lemma collected_blocks members field block values contents :
  unique_structured_field members field = Ok (Some (SvArray values)) ->
  (forall b c, block b = Ok c -> block_content (container_depth b) c) ->
  collect block values = Ok contents ->
  Forall (block_content (container_depth (SvObject members))) contents
  /\ length contents = length values.
Proof.
  intros Hfield Hblock Hcollect. split.
  - apply Forall_forall. intros c Hc. destruct (collect_elem _ _ _ _ Hcollect Hc) as (b & Hb & Hbc).
    eapply block_content_le; [|by apply Hblock].
    pose proof (element_depth values b Hb). pose proof (field_depth _ _ _ Hfield). lia.
  - apply collect_Ok, Forall2_length in Hcollect. done.
Qed.

Lemma blocks_contents members block contents :
  (forall b c, block b = Ok c -> block_content (container_depth b) c) ->
  projected_blocks members block = Ok contents -> message_contents members contents.
Proof.
  intros Hblock. unfold projected_blocks. intros (field & Hfield & Hc)%bind_Ok.
  destruct field as [[| | |t|[|v values]|]|]; try discriminate Hc;
    try (injection Hc as <-; by apply one_flat_content).
  destruct (collected_blocks _ _ _ _ _ Hfield Hblock Hc) as [? Hlen].
  split; [by intros ->|done].
Qed.

(** *** Speakers *)

(** What validation asks of an entry projected from a record. *)
Definition entry_admissible (format : ImportedConversationFormat) (normalized : ImportedStructuredValue)
    (e : ProjectedEntry) : Prop :=
  (content_depth (projected_content e) <= container_depth normalized)%N /\
  exists speaker, normalized_record_speaker format normalized = Ok speaker /\
    match projected_content e with
    | SourceEvent source_type =>
        projected_source_speaker e = NotAttested /\ speaker = None
        /\ normalized_record_type normalized = Ok source_type
    | _ =>
        match speaker with
        | Some speaker =>
            projected_source_speaker e = Attested speaker /\
            match metadata_message_role (projected_source e) with
            | Attested role => role = speaker
            | _ => True
            end
        | None => projected_source_speaker e = NotAttested
        end
    end.

Lemma spoken_admissible format members speaker role contents source e :
  normalized_record_speaker format (SvObject members) = Ok (Some speaker) ->
  match role with Attested role => role = speaker | _ => True end ->
  metadata_message_role source = role ->
  Forall (block_content (container_depth (SvObject members))) contents ->
  e ∈ spoken_entries (Attested speaker) source contents -> entry_admissible format (SvObject members) e.
Proof.
  intros Hspeaker Hrole Hsource Hcontents He. unfold spoken_entries in He.
  apply list_elem_of_In, in_map_iff in He as (c & <- & Hc%list_elem_of_In).
  rewrite Forall_forall in Hcontents. destruct (Hcontents c Hc) as [Hevent Hdepth].
  split; [cbn [projected_content]; lia|]. exists (Some speaker). split; [done|]. cbn [projected_content].
  destruct c; try done; (split; [done|]); simpl; by rewrite Hsource.
Qed.

Lemma silent_admissible format members contents source e :
  normalized_record_speaker format (SvObject members) = Ok None ->
  Forall (block_content (container_depth (SvObject members))) contents ->
  e ∈ spoken_entries NotAttested source contents -> entry_admissible format (SvObject members) e.
Proof.
  intros Hspeaker Hcontents He. unfold spoken_entries in He.
  apply list_elem_of_In, in_map_iff in He as (c & <- & Hc%list_elem_of_In).
  rewrite Forall_forall in Hcontents. destruct (Hcontents c Hc) as [Hevent Hdepth].
  split; [cbn [projected_content]; lia|]. exists None. split; [done|]. cbn [projected_content]. by destruct c.
Qed.

Lemma event_admissible format members source_type source e :
  normalized_record_speaker format (SvObject members) = Ok None ->
  projected_text_attestation members "type" = Ok source_type ->
  e = mkProjectedEntry NotAttested (SourceEvent source_type) source ->
  entry_admissible format (SvObject members) e.
Proof.
  intros Hspeaker Htype ->. split; [simpl; lia|]. exists None. split; [done|]. by split_and!.
Qed.

Lemma claude_metadata_role record role source :
  projected_source_metadata record role = Ok source -> metadata_message_role source = role.
Proof.
  unfold projected_source_metadata.
  by intros (? & _ & (? & _ & (? & _ & (? & _ & (? & _ & (? & _ & [= <-])%bind_Ok)%bind_Ok)%bind_Ok)%bind_Ok)%bind_Ok)%bind_Ok.
Qed.

Lemma codex_metadata_role record payload role source :
  projected_codex_source_metadata record payload role = Ok source -> metadata_message_role source = role.
Proof.
  unfold projected_codex_source_metadata.
  by intros (? & _ & (? & _ & (? & _ & [= <-])%bind_Ok)%bind_Ok)%bind_Ok.
Qed.

Lemma spoken_nonempty speaker source contents : contents <> [] -> spoken_entries speaker source contents <> [].
Proof. by destruct contents. Qed.

Definition projection_admissible (format : ImportedConversationFormat)
    (normalized : ImportedStructuredValue) (es : list ProjectedEntry) : Prop :=
  es <> [] /\ forall e, e ∈ es -> entry_admissible format normalized e.

Lemma single_admissible format normalized e :
  entry_admissible format normalized e -> projection_admissible format normalized [e].
Proof. intros He. split; [done|]. by intros e' ->%list_elem_of_singleton. Qed.

Lemma claude_admissible format version normalized es :
  (forall v, normalized_record_speaker format v
             = (record_type ← normalized_record_type v; Ok (speaker_of record_type))) ->
  project_claude_code_record normalized version = Ok es ->
  projection_admissible format normalized es.
Proof.
  intros Hformat. destruct normalized as [| | | | |record]; try done. unfold project_claude_code_record.
  intros (source_type & Htype & Hes)%bind_Ok.
  assert (normalized_record_speaker format (SvObject record) = Ok (speaker_of source_type)) as Hspeaker.
  { rewrite Hformat. unfold normalized_record_type. unfold projected_text_attestation in Htype.
    by rewrite Htype. }
  destruct (speaker_of source_type) as [speaker|].
  - apply bind_Ok in Hes as (message & Hmessage & Hes).
    apply bind_Ok in Hes as ([contents role] & Hcontents & (source & Hsource & [= <-])%bind_Ok).
    assert (message_contents record contents
            /\ match role with Attested role => role = speaker | _ => True end) as [[Hne Hall] Hrole].
    { destruct message as [[| | | | |message]|]; try discriminate Hcontents.
      - injection Hcontents as <- <-. split; [by apply one_flat_content|done].
      - apply bind_Ok in Hcontents as (role' & _ & Hcontents).
        apply bind_Ok in Hcontents as ([] & Hensure%ensure_Ok & (contents' & Hc & [= <- <-])%bind_Ok).
        split; [|by destruct role'; [apply bool_decide_eq_true in Hensure|..]].
        unfold projected_message_content in Hc.
        apply blocks_contents in Hc as [Hne Hall];
          [|destruct version; [apply block_v1_content|apply block_v2_content]].
        split; [done|]. eapply Forall_impl; [done|]. intros c Hc. eapply block_content_le; [|done].
        pose proof (field_depth _ _ _ Hmessage). lia.
      - injection Hcontents as <- <-. split; [by apply one_flat_content|done]. }
    split; [by apply spoken_nonempty|]. intros e He.
    eapply spoken_admissible; [done|done|by eapply claude_metadata_role|done|done].
  - apply bind_Ok in Hes as (source & _ & [= <-]).
    apply single_admissible. by eapply event_admissible.
Qed.

Definition codex_format (format : ImportedConversationFormat) : Prop :=
  forall v, normalized_record_speaker format v = normalized_codex_record_speaker v.

Lemma codex_event_admissible format record payload source_type role e :
  normalized_record_speaker format (SvObject record) = Ok None ->
  projected_text_attestation record "type" = Ok source_type ->
  projected_codex_source_event record payload source_type role = Ok e ->
  entry_admissible format (SvObject record) e.
Proof.
  unfold projected_codex_source_event. intros Hspeaker Htype (source & _ & [= <-])%bind_Ok.
  by eapply event_admissible.
Qed.

Lemma codex_typed_admissible format record payload content e :
  normalized_record_speaker format (SvObject record) = Ok None ->
  block_content (container_depth (SvObject record)) content ->
  projected_codex_typed_entry record payload content = Ok e ->
  entry_admissible format (SvObject record) e.
Proof.
  unfold projected_codex_typed_entry. intros Hspeaker Hcontent (source & _ & [= <-])%bind_Ok.
  eapply (silent_admissible _ _ [content] source); [done|by constructor|]. by apply list_elem_of_singleton.
Qed.

Lemma single_Ok entry es : single entry = Ok es <-> exists e, entry = Ok e /\ es = [e].
Proof. apply result_fmap_Ok. Qed.

Lemma payload_content record payload c :
  unique_structured_field record "payload" = Ok (Some (SvObject payload)) ->
  block_content (container_depth (SvObject payload)) c ->
  block_content (container_depth (SvObject record)) c.
Proof. intros Hp%field_depth. apply block_content_le. lia. Qed.

Lemma codex_message_admissible format record payload source_type es :
  codex_format format ->
  projected_text_attestation record "type" = Ok source_type ->
  is_text source_type "response_item" = true ->
  unique_structured_field record "payload" = Ok (Some (SvObject payload)) ->
  (exists payload_type, projected_text_attestation payload "type" = Ok payload_type
     /\ is_text payload_type "message" = true) ->
  project_codex_message record payload source_type = Ok es ->
  projection_admissible format (SvObject record) es.
Proof.
  intros Hformat Htype Hitem Hpayload (payload_type & Hptype & Hmessage). unfold project_codex_message.
  intros (role & Hrole & Hes)%bind_Ok.
  assert (normalized_record_speaker format (SvObject record) = Ok (speaker_of role)) as Hspeaker.
  { rewrite Hformat. simpl. rewrite Htype. simpl. rewrite Hitem. simpl. rewrite Hpayload. simpl.
    rewrite Hptype. simpl. rewrite Hmessage. simpl. by rewrite Hrole. }
  destruct (speaker_of role) as [speaker|].
  - apply bind_Ok in Hes as (contents & Hc & (source & Hsource & [= <-])%bind_Ok).
    apply blocks_contents in Hc as [Hne Hall]; [|apply codex_block_content].
    split; [by apply spoken_nonempty|]. intros e He.
    eapply spoken_admissible; [done| |by eapply codex_metadata_role| |done]; [done|].
    eapply Forall_impl; [done|]. intros c. by apply payload_content.
  - apply bind_Ok in Hes as (e & He & [= <-]). apply single_admissible. by eapply codex_event_admissible.
Qed.

Lemma reasoning_blocks_content payload field contents contents' :
  projected_codex_reasoning_blocks payload field contents = Ok contents' ->
  Forall (block_content (container_depth (SvObject payload))) contents ->
  Forall (block_content (container_depth (SvObject payload))) contents'.
Proof.
  unfold projected_codex_reasoning_blocks. intros (value & Hv & Hc)%bind_Ok Hcontents.
  destruct value as [[| | | |values|]|]; try discriminate Hc; try (by injection Hc as <-).
  apply bind_Ok in Hc as (blocks & Hblocks & [= <-]). apply Forall_app. split; [done|].
  by apply (collected_blocks _ _ _ _ _ Hv reasoning_block_content Hblocks).
Qed.

Lemma codex_reasoning_admissible format record payload source_type es :
  normalized_record_speaker format (SvObject record) = Ok None ->
  projected_text_attestation record "type" = Ok source_type ->
  unique_structured_field record "payload" = Ok (Some (SvObject payload)) ->
  project_codex_reasoning record payload source_type = Ok es ->
  projection_admissible format (SvObject record) es.
Proof.
  intros Hspeaker Htype Hpayload. unfold project_codex_reasoning.
  intros (c1 & Hc1 & (c2 & Hc2 & (encrypted & _ & (c3 & Hc3 & Hes)%bind_Ok)%bind_Ok)%bind_Ok)%bind_Ok.
  apply reasoning_blocks_content in Hc1; [|constructor]. apply reasoning_blocks_content in Hc2; [|done].
  assert (Forall (block_content (container_depth (SvObject payload))) c3) as Hall.
  { destruct encrypted as [[]|]; try discriminate Hc3; injection Hc3 as <-; try done;
      apply Forall_app; (split; [done|]); (constructor; [by apply flat_content|constructor]). }
  destruct c3 as [|c c3].
  - apply bind_Ok in Hes as (e & He & [= <-]). apply single_admissible. by eapply codex_event_admissible.
  - apply bind_Ok in Hes as (source & _ & [= <-]). split; [done|].
    intros e He. apply (silent_admissible _ _ (c :: c3) source); [done| |exact He].
    eapply Forall_impl; [done|]. intros c'. by apply payload_content.
Qed.

Lemma codex_typed_projection format record payload content es :
  normalized_record_speaker format (SvObject record) = Ok None ->
  unique_structured_field record "payload" = Ok (Some (SvObject payload)) ->
  block_content (container_depth (SvObject payload)) content ->
  single (projected_codex_typed_entry record payload content) = Ok es ->
  projection_admissible format (SvObject record) es.
Proof.
  intros Hspeaker Hpayload Hcontent (e & He & ->)%single_Ok. apply single_admissible.
  eapply codex_typed_admissible; [done| |done]. by eapply payload_content.
Qed.

(** Opens the steps before the content of a projection to one typed entry. *)
Ltac typed_projection Hes :=
  repeat lazymatch type of Hes with
         | single _ = _ => fail
         | _ => apply bind_Ok in Hes as (? & ? & Hes)
         end;
  eapply codex_typed_projection; [eassumption..| |exact Hes].

Lemma call_content members source_call_id name input :
  (attested_depth input < container_depth (SvObject members))%N ->
  block_content (container_depth (SvObject members))
    (ContentToolCall source_call_id name input NotAttested).
Proof. intros Hi. split; [done|]. cbn [content_depth attested_depth]. lia. Qed.

Lemma codex_admissible format normalized es :
  codex_format format -> project_codex_record normalized = Ok es ->
  projection_admissible format normalized es.
Proof.
  intros Hformat. destruct normalized as [| | | | |record]; try done. unfold project_codex_record.
  intros (source_type & Htype & Hes)%bind_Ok.
  assert (is_text source_type "response_item" = false ->
          normalized_record_speaker format (SvObject record) = Ok None) as Hevent.
  { intros Hitem. rewrite Hformat. simpl. rewrite Htype. simpl. by rewrite Hitem. }
  destruct (is_text source_type "response_item") eqn:Hitem; simpl in Hes.
  2: { apply bind_Ok in Hes as (payload & _ & (e & He & [= <-])%bind_Ok).
       apply single_admissible. eapply codex_event_admissible; [by apply Hevent|done|done]. }
  apply bind_Ok in Hes as (field & Hpayload & Hes).
  destruct field as [[| | | | |payload]|]; try discriminate Hes.
  apply bind_Ok in Hes as (payload_type & Hptype & Hes).
  destruct (is_text payload_type "message") eqn:Hmessage.
  { eapply codex_message_admissible; [done..| |done]. by eexists. }
  assert (normalized_record_speaker format (SvObject record) = Ok None) as Hspeaker.
  { rewrite Hformat. simpl. rewrite Htype. simpl. rewrite Hitem. simpl. rewrite Hpayload. simpl.
    rewrite Hptype. simpl. by rewrite Hmessage. }
  clear Hevent. repeat case_match.
  - by eapply codex_reasoning_admissible.
  - unfold project_codex_named_tool_call in Hes. typed_projection Hes.
    apply call_content. by eapply string_attestation_depth.
  - unfold project_codex_structured_tool_call in Hes. typed_projection Hes.
    apply call_content. by eapply structured_attestation_depth.
  - unfold project_codex_structured_tool_call in Hes. typed_projection Hes.
    apply call_content. by eapply structured_attestation_depth.
  - unfold project_codex_web_search_call in Hes. typed_projection Hes.
    apply call_content. by eapply structured_attestation_depth.
  - unfold project_codex_tool_result in Hes. typed_projection Hes. by apply flat_content.
  - unfold project_codex_tool_search_result in Hes. typed_projection Hes. by apply flat_content.
  - apply bind_Ok in Hes as (e & He & [= <-]). apply single_admissible. by eapply codex_event_admissible.
Qed.

(** Every projection of a record has an entry, names the record's speaker and
    nests no deeper than the record. *)
Lemma projected_admissible format normalized es :
  projected_entries format normalized = Ok es -> projection_admissible format normalized es.
Proof.
  destruct format; simpl; (by apply claude_admissible) || (by apply codex_admissible).
Qed.

(** ** Raw records *)

Lemma raw_position_next_Some p :
  (N.pos p < u64_max)%N -> raw_position_next (mkRawPosition p) = Some (mkRawPosition (Pos.succ p)).
Proof.
  intros Hp. unfold raw_position_next. simpl.
  rewrite (proj2 (nonzero_u64_checked_add_1_Some p (Pos.succ p))); [done|]. split; [done|lia].
Qed.

Lemma raw_position_next_inv p q :
  raw_position_next (mkRawPosition p) = Some q ->
  q = mkRawPosition (Pos.succ p) /\ (N.pos p < u64_max)%N.
Proof.
  unfold raw_position_next. rewrite fmap_Some. intros (q' & Hq & ->). cbn [raw_position] in Hq.
  apply nonzero_u64_checked_add_1_Some in Hq as [-> Hq]. split; [done|lia].
Qed.

Lemma within_position_next_Some p :
  (N.pos p < u64_max)%N ->
  within_position_next (mkWithinPosition p) = Some (mkWithinPosition (Pos.succ p)).
Proof.
  intros Hp. unfold within_position_next. simpl.
  rewrite (proj2 (nonzero_u64_checked_add_1_Some p (Pos.succ p))); [done|]. split; [done|lia].
Qed.

Lemma transcript_position_next_Some p :
  (N.pos p < u64_max)%N ->
  transcript_position_next (mkTranscriptPosition p) = Some (mkTranscriptPosition (Pos.succ p)).
Proof.
  intros Hp. unfold transcript_position_next. simpl.
  rewrite (proj2 (nonzero_u64_checked_add_1_Some p (Pos.succ p))); [done|]. split; [done|lia].
Qed.

Section spec.
Context `{Sha256}.

(** A stored record that is its own bytes' record at this position. *)
Definition record_legal (position : positive) (record : ImportedRawSourceRecordReconstitutionInput) :
    Prop :=
  raw_input_position record = mkRawPosition position
  /\ raw_input_stored_hash record = raw_hash_digest (raw_input_bytes record)
  /\ raw_input_bytes record <> []
  /\ is_object (raw_input_normalized record) = true
  /\ (container_depth (raw_input_normalized record) <= MAX_STRUCTURED_CONTAINER_DEPTH)%N
  /\ raw_input_stored_conversion_digest record
     = conversion_digest_derive (raw_input_stored_hash record) (raw_input_normalized record).

Definition record_key (record : ImportedRawSourceRecordReconstitutionInput) : N :=
  raw_hash_value (raw_input_stored_hash record).

(** The bytes recorded for the hash of a record are its bytes. *)
Definition bytes_agree (m : gmap N bytes) (record : ImportedRawSourceRecordReconstitutionInput) : Prop :=
  forall b, m !! record_key record = Some b -> b = raw_input_bytes record.

Definition no_collision (records : list ImportedRawSourceRecordReconstitutionInput) : Prop :=
  forall r s, r ∈ records -> s ∈ records -> record_key r = record_key s ->
    raw_input_bytes r = raw_input_bytes s.

Fixpoint placed (position : positive) (records : list ImportedRawSourceRecordReconstitutionInput) : Prop :=
  match records with
  | [] => True
  | record :: records => record_legal position record /\ placed (Pos.succ position) records
  end.

Lemma placed_lookup position records i record :
  placed position records -> records !! i = Some record ->
  record_legal (Pos.of_nat (Pos.to_nat position + i)) record.
Proof.
  revert position i. induction records as [|r records IH]; intros position [|i]; try done; simpl.
  - intros [Hr _] [= <-]. by rewrite Nat.add_0_r, Pos2Nat.id.
  - intros [_ Hp] Hi. specialize (IH _ _ Hp Hi). rewrite Pos2Nat.inj_succ in IH.
    by replace (Pos.to_nat position + S i) with (S (Pos.to_nat position) + i) by lia.
Qed.

Lemma validate_raw_record_Ok position m record more state :
  (more = true -> (N.pos position < u64_max)%N) ->
  validate_raw_record (mkRawState (mkRawPosition position) m) record more = Ok state <->
  record_legal position record /\ bytes_agree m record
  /\ state = mkRawState (mkRawPosition (if more then Pos.succ position else position))
               (<[record_key record := raw_input_bytes record]> m).
Proof.
  intros Hmore. unfold validate_raw_record. cbn [expected_raw_record bytes_by_hash].
  rewrite if_negb_Ok, if_negb_Ok, if_Ok, if_false_Ok.
  rewrite (if_false_Ok (negb (is_object _))), (if_false_Ok (negb (structured_value_within_depth _))).
  rewrite if_negb_Ok, !negb_false_iff, within_depth_spec, bind_Ok.
  assert (match m !! raw_hash_value (raw_input_stored_hash record) with
          | Some existing => negb (bool_decide (existing = raw_input_bytes record))
          | None => false
          end = false <-> bytes_agree m record) as ->.
  { unfold bytes_agree, record_key. destruct (m !! _) as [b|]; [|naive_solver].
    rewrite negb_false_iff, bool_decide_eq_true. naive_solver. }
  unfold record_legal. split.
  - intros (-> & Hhash & Hne & Hagree & Hobj & Hdepth & -> & expected & Hnext & [= <-]).
    split_and!; try done. f_equal. destruct more; [|by injection Hnext as ->].
    rewrite raw_position_next_Some in Hnext by auto. by injection Hnext as ->.
  - intros ((-> & Hhash & Hne & Hobj & Hdepth & ->) & Hagree & ->). split_and!; try done.
    exists (mkRawPosition (if more then Pos.succ position else position)). split; [|done].
    destruct more; [|done]. by rewrite raw_position_next_Some by auto.
Qed.

Lemma agree_insert m record records :
  bytes_agree m record ->
  (forall r, r ∈ records -> bytes_agree (<[record_key record := raw_input_bytes record]> m) r) ->
  no_collision records ->
  (forall r, r ∈ record :: records -> bytes_agree m r) /\ no_collision (record :: records).
Proof.
  intros Hrecord Hrecords Hnone.
  assert (forall r, r ∈ records -> record_key r = record_key record ->
          raw_input_bytes r = raw_input_bytes record) as Hsame.
  { intros r Hr Hk. symmetry. apply (Hrecords r Hr). by rewrite Hk, lookup_insert_eq. }
  split.
  - intros r [->|Hr]%elem_of_cons; [done|]. intros b Hb.
    destruct (decide (record_key r = record_key record)) as [Hk|Hk].
    + rewrite (Hsame r Hr Hk). apply Hrecord. by rewrite <- Hk.
    + apply (Hrecords r Hr). by rewrite lookup_insert_ne.
  - intros r s [->|Hr]%elem_of_cons [->|Hs]%elem_of_cons Hk; [done| | |by apply Hnone].
    + symmetry. by apply Hsame.
    + by apply Hsame.
Qed.

Lemma agree_cons m record records :
  (forall r, r ∈ record :: records -> bytes_agree m r) -> no_collision (record :: records) ->
  bytes_agree m record
  /\ (forall r, r ∈ records -> bytes_agree (<[record_key record := raw_input_bytes record]> m) r)
  /\ no_collision records.
Proof.
  intros Hagree Hnone. split_and!; [apply Hagree; set_solver| |].
  - intros r Hr b. destruct (decide (record_key record = record_key r)) as [Hk|Hk].
    + rewrite <- Hk, lookup_insert_eq. intros [= <-]. apply Hnone; set_solver.
    + rewrite lookup_insert_ne by done. apply Hagree. set_solver.
  - intros r s Hr Hs. apply Hnone; set_solver.
Qed.

Lemma validate_raw_records_loop_Ok position m records :
  (N.pos position + N.of_nat (length records) <= N.succ u64_max)%N ->
  validate_raw_records_loop (mkRawState (mkRawPosition position) m) records = Ok tt <->
  placed position records /\ (forall r, r ∈ records -> bytes_agree m r) /\ no_collision records.
Proof.
  revert position m. induction records as [|record records IH]; intros position m Hlen.
  { split; [|done]. intros _. split_and!; [done|set_solver|]. intros r s Hr. set_solver. }
  cbn [validate_raw_records_loop placed]. simpl in Hlen. rewrite bind_Ok.
  set (more := match records with [] => false | _ => true end).
  assert (more = true -> (N.pos position < u64_max)%N) as Hmore.
  { subst more. destruct records; simpl in *; [done|]. lia. }
  setoid_rewrite (validate_raw_record_Ok position m record more _ Hmore). split.
  - intros (state & (Hr & Hagree & ->) & Hloop).
    destruct records as [|next records]; cbn in more; subst more.
    + destruct (agree_insert m record [] Hagree) as [? ?]; [set_solver|intros r s Hs; set_solver|].
      by split_and!.
    + apply IH in Hloop as (Hp & Ha & Hn); [|simpl in *; lia].
      destruct (agree_insert m record (next :: records) Hagree Ha Hn). by split_and!.
  - intros ((Hr & Hp) & Ha & Hn). apply agree_cons in Ha as (Hagree & Ha & Hn'); [|done].
    eexists. split; [by split_and!|]. destruct records as [|next records]; [done|].
    cbn in more; subst more. apply IH; [simpl in *; lia|]. by split_and!.
Qed.

(** Records that validation accepts under this header. *)
Definition records_legal (input : ImportedConversationReconstitutionInput) : Prop :=
  let records := input_raw_records input in
  records <> [] /\ N.of_nat (length records) = declared_raw_record_count input
  /\ (N.of_nat (length records) <= u64_max)%N
  /\ placed 1 records /\ no_collision records
  /\ stored_source_digest input
     = source_digest_derive (conversation_input_format input) (raw_input_stored_hash <$> records).

Lemma u64_try_from_len_Some len n :
  u64_try_from_len len = Some n <-> n = N.of_nat len /\ (N.of_nat len <= u64_max)%N.
Proof. unfold u64_try_from_len. destruct (N.leb_spec (N.of_nat len) u64_max); naive_solver lia. Qed.

Lemma validate_raw_records_Ok input :
  validate_raw_records input = Ok tt <-> records_legal input.
Proof.
  unfold validate_raw_records, records_legal.
  rewrite if_Ok, if_negb_Ok, u64_try_from_len_Some, bind_Ok.
  setoid_rewrite if_negb_Ok. split.
  - intros (Hne & [Hc Hlen] & [] & Hloop & Hd & _).
    apply validate_raw_records_loop_Ok in Hloop as (Hp & _ & Hn); [|lia]. by split_and!.
  - intros (Hne & Hc & Hlen & Hp & Hn & Hd). split_and!; try done.
    exists tt. split; [|done]. apply validate_raw_records_loop_Ok; [lia|].
    split_and!; [done| |done]. intros r Hr b Hb. by rewrite lookup_empty in Hb.
Qed.

(** ** Entries *)

(** The record at a position projects to these entries. *)
Definition projects_at (input : ImportedConversationReconstitutionInput) (r : positive)
    (es : list ProjectedEntry) : Prop :=
  exists record, raw_record_at (input_raw_records input) (mkRawPosition r) = Some record
    /\ projected_entries (conversation_input_format input) (raw_input_normalized record) = Ok es.

Lemma entry_depth_within entry bound :
  (bound <= MAX_STRUCTURED_CONTAINER_DEPTH)%N ->
  (content_depth (entry_input_content entry) <= bound)%N -> validate_entry_depth entry = Ok tt.
Proof.
  intros Hb Hd. unfold validate_entry_depth.
  assert (forall a, (attested_depth a <= MAX_STRUCTURED_CONTAINER_DEPTH)%N ->
                    structured_attestation_within_depth a = true) as Ha.
  { intros [v| |] Hv; [|done|done]. by apply within_depth_spec. }
  destruct (entry_input_content entry); try done. cbn [content_depth] in Hd.
  rewrite !Ha by lia. done.
Qed.

(** An entry that its record projects to passes the checks of its speaker and
    of its depth. *)
Lemma projected_entry_checks input r es w entry :
  placed 1 (input_raw_records input) ->
  entry_input_raw_position entry = mkRawPosition r ->
  projects_at input r es -> es !! w = Some (entry_projection entry) ->
  validate_speaker input entry = Ok tt /\ validate_entry_depth entry = Ok tt.
Proof.
  intros Hplaced Hraw (record & Hat & Hes) Hw.
  destruct (projected_admissible _ _ _ Hes) as [_ Hall].
  destruct (Hall (entry_projection entry)) as (Hdepth & speaker & Hspeaker & Hcontent).
  { by eapply list_elem_of_lookup_2. }
  destruct (placed_lookup _ _ _ _ Hplaced Hat) as (_ & _ & _ & _ & Hbound & _). split.
  - unfold validate_speaker. rewrite Hraw, Hat. cbn [ok_or mbind result_bind]. rewrite Hspeaker.
    simpl in *. destruct (entry_input_content entry) eqn:Hc.
    1: { destruct Hcontent as (-> & -> & ->). simpl. by rewrite !bool_decide_eq_true_2 by done. }
    all: destruct speaker as [speaker|]; [|by rewrite Hcontent];
      destruct Hcontent as [-> Hrole]; rewrite bool_decide_eq_true_2 by done;
      case_match; try done; by rewrite bool_decide_eq_true_2.
  - eapply entry_depth_within; [exact Hbound|]. exact Hdepth.
Qed.

(** The state after [k] entries, the last of which is entry [w] of record [r]. *)
Definition at_cursor (k : nat) (v r : positive) (w : nat) (seen : list ImportedTranscriptEntryId)
    (es : list ProjectedEntry) : EntriesState :=
  mkEntriesState k (mkTranscriptPosition (Pos.of_succ_nat k)) (mkRawPosition r) (mkWithinPosition v)
    seen (mkRawPosition r) es w.

(** Where the next entry is: in the same record, or first in the next one. *)
Inductive cursor_moves (input : ImportedConversationReconstitutionInput) (k : nat) (r : positive)
    (es : list ProjectedEntry) (w : nat) : positive -> list ProjectedEntry -> nat -> Prop :=
| same_record : cursor_moves input k r es w r es w
| next_record es' :
    k <> 0 -> w = length es -> projects_at input (Pos.succ r) es' ->
    cursor_moves input k r es w (Pos.succ r) es' 0.

Lemma place_Ok input last k v r w seen es entry raw within :
  (r <= last)%positive -> (N.pos last <= u64_max)%N ->
  check_entry_place input (mkRawPosition last) (at_cursor k v r w seen es) entry = Ok (raw, within) <->
  entry_input_conversation entry = conversation_stored input
  /\ entry_input_position entry = mkTranscriptPosition (Pos.of_succ_nat k)
  /\ (entry_input_identity entry ∉ seen)
  /\ entry_input_raw_position entry = raw /\ entry_input_within_position entry = within
  /\ (raw_position raw <= last)%positive
  /\ ((raw = mkRawPosition r /\ within = mkWithinPosition v)
      \/ (k <> 0 /\ raw = mkRawPosition (Pos.succ r) /\ within = within_position_first)).
Proof.
  intros Hr Hlast. unfold check_entry_place, at_cursor.
  cbn [expected_position seen_identities raw_position entries_index expected_raw_position
       expected_within_position].
  rewrite if_negb_Ok, if_negb_Ok, if_Ok, if_false_Ok, Pos.ltb_ge, if_false_Ok, andb_false_iff,
    negb_false_iff, bool_decide_eq_false, bool_decide_eq_true, bind_Ok.
  split.
  - intros (Hc & Hp & Hs & Hle & Hk & [raw' within'] & Hexp & Hw).
    apply if_negb_Ok in Hw as [Hw [= -> ->]].
    destruct (decide (entry_input_raw_position entry = mkRawPosition r)) as [Hraw|Hraw].
    + rewrite bool_decide_eq_true_2 in Hexp by done. injection Hexp as <- <-.
      split_and!; try done. by left.
    + rewrite bool_decide_eq_false_2 in Hexp by done. case_bool_decide as Hn; [|done].
      injection Hexp as <- <-. split_and!; try done. right.
      destruct Hk as [Hk|Hk]; [|done]. split_and!; try done.
      by apply raw_position_next_inv in Hn as [Hn _].
  - intros (Hc & Hp & Hs & Hraw & Hw & Hle & Hmove). rewrite Hraw. split_and!; try done.
    { destruct Hmove as [(-> & _)|(? & _)]; [by right|by left]. }
    exists (raw, within). rewrite Hw, (bool_decide_eq_true_2 (within = within)) by done. split; [|done].
    destruct Hmove as [(-> & ->)|(Hk & -> & ->)]; [by rewrite bool_decide_eq_true_2|].
    rewrite bool_decide_eq_false_2 by (intros [=]; lia). simpl in Hle.
    rewrite raw_position_next_Some by lia. by rewrite bool_decide_eq_true_2.
Qed.

(** The state after an entry of record [r] is accepted. *)
Definition after_entry (k : nat) (r : positive) (w : nat) (seen : list ImportedTranscriptEntryId)
    (es : list ProjectedEntry) (entry : ImportedTranscriptEntryInput)
    (next : option ImportedTranscriptEntryInput) : EntriesState :=
  match next with
  | None =>
      mkEntriesState (S k) (mkTranscriptPosition (Pos.of_succ_nat k)) (mkRawPosition r)
        (mkWithinPosition (Pos.of_succ_nat w)) (entry_input_identity entry :: seen)
        (mkRawPosition r) es (S w)
  | Some next =>
      at_cursor (S k)
        (if bool_decide (entry_input_raw_position next = mkRawPosition r)
         then Pos.of_succ_nat (S w) else Pos.of_succ_nat w)
        r (S w) (entry_input_identity entry :: seen) es
  end.

Lemma record_at_position records p record :
  placed 1 records -> raw_record_at records p = Some record -> raw_input_position record = p.
Proof.
  intros Hplaced Hat. destruct (placed_lookup _ _ _ _ Hplaced Hat) as [-> _].
  destruct p as [p]. f_equal. simpl. lia.
Qed.

Lemma advance_Ok input k v r w seen es entry x :
  placed 1 (input_raw_records input) ->
  (k <> 0 \/ entry_input_raw_position entry = mkRawPosition r) ->
  (entry_input_raw_position entry = mkRawPosition r
   \/ entry_input_raw_position entry = mkRawPosition (Pos.succ r)) ->
  advance_projection input (at_cursor k v r w seen es) entry = Ok x <->
  exists r' es' w', cursor_moves input k r es w r' es' w'
    /\ entry_input_raw_position entry = mkRawPosition r' /\ x = (mkRawPosition r', es', w').
Proof.
  intros Hplaced Hk Hraw. unfold advance_projection, at_cursor.
  cbn [projected_raw_position expected_entries projected_entry_index].
  destruct (decide (entry_input_raw_position entry = mkRawPosition r)) as [He|He].
  - rewrite bool_decide_eq_true_2 by done. split.
    + intros [= <-]. exists r, es, w. by split_and!; [constructor|..].
    + intros (r' & es' & w' & Hm & He' & ->). destruct Hm; [done|].
      rewrite He in He'. injection He'. lia.
  - destruct Hraw as [?|Hraw]; [done|]. destruct Hk as [Hk|?]; [|done].
    rewrite bool_decide_eq_false_2, if_negb_Ok, bind_Ok by done. setoid_rewrite ok_or_Ok.
    setoid_rewrite bind_Ok. setoid_rewrite map_err_Ok. rewrite Hraw. split.
    + intros (Hw & record & Hat & es' & Hes & [= <-]).
      rewrite (record_at_position _ _ _ Hplaced Hat).
      exists (Pos.succ r), es', 0. split_and!; [|done..]. constructor; [done..|by exists record].
    + intros (r' & es' & w' & Hm & He' & ->). destruct Hm as [|es' _ Hw (record & Hat & Hes)].
      { injection He'. lia. }
      split; [done|]. exists record. split; [done|]. exists es'. split; [done|].
      by rewrite (record_at_position _ _ _ Hplaced Hat).
Qed.
(** The positions expected after an entry. *)
Lemma after_entry_Ok k v r0 w0 es0 r w seen es entry next state :
  w <= k -> (is_Some next -> (N.of_nat (S (S k)) <= u64_max)%N) ->
  ('(position, within) ←
     match next with
     | None => Ok (expected_position (at_cursor k v r0 w0 seen es0), mkWithinPosition (Pos.of_succ_nat w))
     | Some next_entry =>
         position ← ok_or (transcript_position_next (expected_position (at_cursor k v r0 w0 seen es0)))
                      PositionExhausted;
         within ←
           (if bool_decide (entry_input_raw_position next_entry = mkRawPosition r)
            then ok_or (within_position_next (mkWithinPosition (Pos.of_succ_nat w))) PositionExhausted
            else Ok (mkWithinPosition (Pos.of_succ_nat w)));
         Ok (position, within)
     end;
   Ok (mkEntriesState (S (entries_index (at_cursor k v r0 w0 seen es0))) position (mkRawPosition r) within
         (entry_input_identity entry :: seen_identities (at_cursor k v r0 w0 seen es0)) (mkRawPosition r) es (S w))) = Ok state <->
  state = after_entry k r w seen es entry next.
Proof.
  intros Hw Hbound. unfold after_entry, at_cursor. cbn [entries_index expected_position seen_identities].
  destruct next as [next|]; [|simpl; split; congruence].
  specialize (Hbound (mk_is_Some _ _ eq_refl)).
  rewrite transcript_position_next_Some by lia. cbn [ok_or].
  case_bool_decide.
  - rewrite within_position_next_Some by lia. simpl. split; congruence.
  - simpl. split; congruence.
Qed.

(** What accepting one entry means. *)
Lemma validate_entry_Ok input last k v r w seen es entry next state :
  placed 1 (input_raw_records input) ->
  (r <= last)%positive -> (N.pos last <= u64_max)%N ->
  (forall p es, projects_at input p es -> (p <= last)%positive) ->
  projects_at input r es ->
  (entry_input_raw_position entry = mkRawPosition r -> v = Pos.of_succ_nat w) ->
  w <= k ->
  (is_Some next -> (N.of_nat (S (S k)) <= u64_max)%N) ->
  validate_entry input (mkRawPosition last) (at_cursor k v r w seen es) entry next = Ok state <->
  exists r' es' w',
    cursor_moves input k r es w r' es' w'
    /\ entry_input_conversation entry = conversation_stored input
    /\ entry_input_position entry = mkTranscriptPosition (Pos.of_succ_nat k)
    /\ (entry_input_identity entry ∉ seen)
    /\ entry_input_raw_position entry = mkRawPosition r'
    /\ entry_input_within_position entry = mkWithinPosition (Pos.of_succ_nat w')
    /\ es' !! w' = Some (entry_projection entry)
    /\ state = after_entry k r' w' seen es' entry next.
Proof.
  intros Hplaced Hr Hlast Hexists Hes Hv Hwk Hbound. unfold validate_entry.
  assert (forall r' es' w', cursor_moves input k r es w r' es' w' ->
          projects_at input r' es' /\ w' <= k) as Hmove.
  { intros r' es' w' []; [done|]. split; [done|lia]. }
  rewrite bind_Ok. split.
  - intros ([raw within] & Hplace & (_ & _ & (_ & _ & (x & Hadv & Hrest)%bind_Ok)%bind_Ok)%bind_Ok).
    apply place_Ok in Hplace as (Hc & Hp & Hs & Hraw & Hwithin & Hle & Hcase); [|done..].
    apply advance_Ok in Hadv as (r' & es' & w' & Hm & Hraw' & ->); [|done|naive_solver..].
    apply bind_Ok in Hrest as (e & He%ok_or_Ok & [-> Hrest]%if_negb_Ok).
    exists r', es', w'. destruct (Hmove _ _ _ Hm) as [Hes' Hwk'].
    assert (raw = mkRawPosition r') as -> by congruence.
    assert (within = mkWithinPosition (Pos.of_succ_nat w')) as ->.
    { destruct Hm as [|es' Hk Hw Hes1].
      - destruct Hcase as [[_ ->]|(_ & [=] & _)]; [|lia]. by rewrite Hv.
      - destruct Hcase as [[[=] _]|(_ & _ & ->)]; [lia|done]. }
    apply after_entry_Ok in Hrest; [|done..]. by split_and!.
  - intros (r' & es' & w' & Hm & Hc & Hp & Hs & Hraw & Hwithin & He & ->).
    destruct (Hmove _ _ _ Hm) as [Hes' Hwk'].
    destruct (projected_entry_checks _ _ _ _ _ Hplaced Hraw Hes' He) as [Hspeaker Hdepth].
    exists (mkRawPosition r', mkWithinPosition (Pos.of_succ_nat w')). split.
    { apply place_Ok; [done..|]. split_and!; try done; [by eapply Hexists|].
      destruct Hm as [|es' Hk Hw Hes1]; [left|by right]. by rewrite Hv. }
    rewrite Hspeaker, Hdepth. cbn [mbind result_bind].
    assert (advance_projection input (at_cursor k v r w seen es) entry
            = Ok (mkRawPosition r', es', w')) as ->.
    { apply advance_Ok; [done| |  |by eauto 6].
      - destruct Hm; [by right|by left].
      - destruct Hm; [by left|by right]. }
    cbn [mbind result_bind]. rewrite He. cbn [ok_or mbind result_bind]. rewrite bool_decide_eq_true_2 by done. cbn [negb].
    by apply after_entry_Ok.
Qed.

(** *** The entries of all records *)

(** The places of the entries of record [r], from entry [w] on. *)
Fixpoint record_places (r : positive) (w : nat) (es : list ProjectedEntry) :
    list (positive * positive * ProjectedEntry) :=
  match es with
  | [] => []
  | e :: es => (r, Pos.of_succ_nat w, e) :: record_places r (S w) es
  end.

(** The places of the entries of the records from [r] on. *)
Fixpoint places (r : positive) (projections : list (list ProjectedEntry)) :
    list (positive * positive * ProjectedEntry) :=
  match projections with
  | [] => []
  | es :: projections => record_places r 0 es ++ places (Pos.succ r) projections
  end.

Definition entry_place (entry : ImportedTranscriptEntryInput) : positive * positive * ProjectedEntry :=
  (raw_position (entry_input_raw_position entry), within_position (entry_input_within_position entry),
   entry_projection entry).

(** These are the projections of these records. *)
Definition projections_of (format : ImportedConversationFormat)
    (records : list ImportedRawSourceRecordReconstitutionInput)
    (projections : list (list ProjectedEntry)) : Prop :=
  Forall2 (fun record es => projected_entries format (raw_input_normalized record) = Ok es)
    records projections.

(** The entries complete record [r] from entry [w], and all later records. *)
Definition remaining (input : ImportedConversationReconstitutionInput) (r : positive) (w : nat)
    (es : list ProjectedEntry) (entries : list ImportedTranscriptEntryInput) : Prop :=
  exists later,
    projections_of (conversation_input_format input)
      (drop (Pos.to_nat r) (input_raw_records input)) later
    /\ entry_place <$> entries = record_places r w (drop w es) ++ places (Pos.succ r) later.

Lemma projection_nonempty format normalized es : projected_entries format normalized = Ok es -> es <> [].
Proof. by intros [? _]%projected_admissible. Qed.

Lemma places_nil format records projections r :
  projections_of format records projections -> places r projections = [] -> records = [].
Proof.
  intros Hp. destruct Hp as [|record es records projections Hes _]; [done|].
  apply projection_nonempty in Hes. by destruct es.
Qed.

Lemma remaining_nil input r w es :
  w <= length es ->
  remaining input r w es [] <-> drop (Pos.to_nat r) (input_raw_records input) = [] /\ w = length es.
Proof.
  intros Hw. split.
  - intros (later & Hlater & Hplaces). symmetry in Hplaces. apply app_eq_nil in Hplaces as [Hd Hp].
    split; [by eapply places_nil|].
    destruct (drop w es) as [|e rest] eqn:Hdrop; [|done].
    pose proof (length_drop es w) as Hlen. rewrite Hdrop in Hlen. simpl in Hlen. lia.
  - intros [Hd ->]. exists []. rewrite Hd, drop_all. split; [constructor|done].
Qed.

Lemma entry_place_eq entry r w e :
  entry_place entry = (r, w, e) <->
  entry_input_raw_position entry = mkRawPosition r
  /\ entry_input_within_position entry = mkWithinPosition w /\ entry_projection entry = e.
Proof.
  unfold entry_place. destruct (entry_input_raw_position entry), (entry_input_within_position entry).
  simpl. naive_solver.
Qed.

Lemma drop_cons_inv {A} i (l : list A) x rest :
  drop i l = x :: rest -> l !! i = Some x /\ rest = drop (S i) l.
Proof.
  intros Hd. assert (l !! i = Some x) as Hi by (rewrite <- (Nat.add_0_r i), <- lookup_drop, Hd; done).
  split; [done|]. rewrite (drop_S _ _ _ Hi) in Hd. congruence.
Qed.

Lemma remaining_cons input k r w es entry entries :
  w <= length es -> (k <> 0 \/ w <> length es) ->
  remaining input r w es (entry :: entries) <->
  exists r' es' w',
    cursor_moves input k r es w r' es' w'
    /\ entry_input_raw_position entry = mkRawPosition r'
    /\ entry_input_within_position entry = mkWithinPosition (Pos.of_succ_nat w')
    /\ es' !! w' = Some (entry_projection entry)
    /\ remaining input r' (S w') es' entries.
Proof.
  intros Hw Hk. unfold remaining. rewrite fmap_cons. split.
  - intros (later & Hlater & Hplaces). destruct (drop w es) as [|e rest] eqn:Hdrop.
    + assert (w = length es) as Hend.
      { pose proof (length_drop es w) as Hlen. rewrite Hdrop in Hlen. simpl in Hlen. lia. }
      unfold projections_of in Hlater.
      destruct (drop (Pos.to_nat r) _) as [|record records] eqn:Hr.
      { by apply Forall2_nil_inv_l in Hlater as ->. }
      apply Forall2_cons_inv_l in Hlater as (es' & later' & Hes & Hlater & ->).
      apply drop_cons_inv in Hr as [Hat ->].
      pose proof (projection_nonempty _ _ _ Hes). destruct es' as [|e' es']; [done|].
      cbn [record_places places app] in Hplaces. apply (inj2 cons) in Hplaces as [Hentry Hplaces].
      apply entry_place_eq in Hentry as (Hraw & Hwithin & Hproj).
      exists (Pos.succ r), (e' :: es'), 0. rewrite Hproj. split_and!; try done.
      * constructor; [by destruct Hk|done|]. exists record. split; [|done].
        unfold raw_record_at. simpl. by replace (pred _) with (Pos.to_nat r) by lia.
      * exists later'. by rewrite Pos2Nat.inj_succ.
    + apply drop_cons_inv in Hdrop as [He ->].
      cbn [record_places app] in Hplaces. apply (inj2 cons) in Hplaces as [Hentry Hplaces].
      apply entry_place_eq in Hentry as (Hraw & Hwithin & Hproj).
      exists r, es, w. rewrite Hproj. split_and!; try done; [constructor|by exists later].
  - intros (r' & es' & w' & Hm & Hraw & Hwithin & He & later & Hlater & Hplaces).
    assert (entry_place entry = (r', Pos.of_succ_nat w', entry_projection entry)) as Hentry
      by by apply entry_place_eq.
    destruct Hm as [|es' Hk' Hend (record & Hat & Hes)].
    + exists later. split; [done|]. by rewrite (drop_S _ _ _ He), Hplaces, Hentry.
    + exists (es' :: later). subst w. rewrite drop_all. split.
      * unfold raw_record_at in Hat. simpl in Hat.
        replace (pred (Pos.to_nat (Pos.succ r))) with (Pos.to_nat r) in Hat by lia.
        rewrite (drop_S _ _ _ Hat). constructor; [done|]. by rewrite <- Pos2Nat.inj_succ.
      * destruct es' as [|e es']; [done|]. injection He as ->.
        cbn [record_places places app]. by rewrite Hplaces, Hentry.
Qed.

(** The headers of the entries after [k] entries of these identities. *)
Fixpoint headers (input : ImportedConversationReconstitutionInput) (k : nat)
    (seen : list ImportedTranscriptEntryId) (entries : list ImportedTranscriptEntryInput) : Prop :=
  match entries with
  | [] => True
  | entry :: entries =>
      entry_input_conversation entry = conversation_stored input
      /\ entry_input_position entry = mkTranscriptPosition (Pos.of_succ_nat k)
      /\ (entry_input_identity entry ∉ seen)
      /\ headers input (S k) (entry_input_identity entry :: seen) entries
  end.

Lemma headers_cons input k seen entry entries :
  headers input k seen (entry :: entries)
  = (entry_input_conversation entry = conversation_stored input
     /\ entry_input_position entry = mkTranscriptPosition (Pos.of_succ_nat k)
     /\ (entry_input_identity entry ∉ seen)
     /\ headers input (S k) (entry_input_identity entry :: seen) entries).
Proof. done. Qed.

Lemma headers_spec input entries k seen :
  headers input k seen entries <->
  Forall (fun entry => entry_input_conversation entry = conversation_stored input) entries
  /\ (forall i entry, entries !! i = Some entry ->
        entry_input_position entry = mkTranscriptPosition (Pos.of_succ_nat (k + i)))
  /\ NoDup (entry_input_identity <$> entries)
  /\ (forall entry, entry ∈ entries -> entry_input_identity entry ∉ seen).
Proof.
  revert k seen. induction entries as [|entry entries IH]; intros k seen.
  { split; [|done]. intros _. split_and!; [constructor|done|constructor|set_solver]. }
  rewrite headers_cons, IH, fmap_cons, NoDup_cons, Forall_cons. split.
  - intros (Hc & Hp & Hs & Hcs & Hps & Hnd & Hfresh). split_and!; try done.
    + intros [|i] e He; [injection He as <-; by rewrite Nat.add_0_r|].
      rewrite <- Nat.add_succ_comm. by apply Hps.
    + intros (e & He & Hin)%list_elem_of_fmap. apply (Hfresh e); [done|]. rewrite He. set_solver.
    + intros e [->|He]%elem_of_cons; [done|]. specialize (Hfresh e He). set_solver.
  - intros ((Hc & Hcs) & Hps & (Hnin & Hnd) & Hfresh). split_and!; try done.
    + rewrite <- (Nat.add_0_r k). by apply Hps.
    + apply Hfresh. set_solver.
    + intros i e He. rewrite Nat.add_succ_comm. by apply Hps.
    + intros e He. apply not_elem_of_cons. split; [|apply Hfresh; set_solver].
      intros Heq. apply Hnin. rewrite <- Heq. apply list_elem_of_fmap. by exists e.
Qed.
(** The state that the checks after the loop accept. *)
Definition finished (last : positive) (state : EntriesState) : Prop :=
  expected_raw_position state = mkRawPosition last
  /\ projected_entry_index state = length (expected_entries state).

Section entries_loop.
Context (input : ImportedConversationReconstitutionInput).
Let records := input_raw_records input.
Let last := Pos.of_nat (length records).
Hypothesis records_placed : placed 1 records.
Hypothesis records_nonempty : records <> [].
Hypothesis records_bound : (N.of_nat (length records) <= u64_max)%N.

Lemma records_length : 0 < length records.
Proof. destruct records; [done|simpl; lia]. Qed.

Lemma projects_at_last r es : projects_at input r es -> (r <= last)%positive.
Proof.
  intros (record & Hat%lookup_lt_Some & _). fold records in Hat. subst last. simpl in Hat. lia.
Qed.

Lemma last_record r : (r <= last)%positive -> drop (Pos.to_nat r) records = [] <-> r = last.
Proof.
  pose proof records_length. subst last. intros Hr. split; intros Hd.
  - apply (f_equal length) in Hd. rewrite length_drop in Hd. simpl in Hd. lia.
  - apply length_zero_iff_nil. rewrite length_drop. lia.
Qed.

Lemma entry_step entry next k v r w seen es (K : EntriesState -> validation EntriesState) F :
  projects_at input r es ->
  (entry_input_raw_position entry = mkRawPosition r -> v = Pos.of_succ_nat w) ->
  w <= k -> (is_Some next -> (N.of_nat (S (S k)) <= u64_max)%N) ->
  (exists state,
     (state ← validate_entry input (mkRawPosition last) (at_cursor k v r w seen es) entry next; K state)
     = Ok state /\ F state) <->
  exists r' es' w',
    cursor_moves input k r es w r' es' w'
    /\ (entry_input_conversation entry = conversation_stored input
        /\ entry_input_position entry = mkTranscriptPosition (Pos.of_succ_nat k)
        /\ (entry_input_identity entry ∉ seen))
    /\ entry_input_raw_position entry = mkRawPosition r'
    /\ entry_input_within_position entry = mkWithinPosition (Pos.of_succ_nat w')
    /\ es' !! w' = Some (entry_projection entry)
    /\ exists state, K (after_entry k r' w' seen es' entry next) = Ok state /\ F state.
Proof.
  intros Hes Hv Hwk Hnext.
  assert (N.pos last <= u64_max)%N as Hlast by (pose proof records_length; subst last; lia).
  pose proof (fun state => validate_entry_Ok input last k v r w seen es entry next state records_placed
                (projects_at_last _ _ Hes) Hlast projects_at_last Hes Hv Hwk Hnext) as Hstep.
  split.
  - intros (state & (state' & Hentry & HK)%bind_Ok & HF).
    apply Hstep in Hentry as (r' & es' & w' & ? & ? & ? & ? & ? & ? & ? & ->).
    exists r', es', w'. by eauto 10.
  - intros (r' & es' & w' & Hm & (Hc & Hp & Hs) & Hraw & Hwithin & He & state & HK & HF).
    exists state. split; [|done]. apply bind_Ok. eexists. split; [|exact HK].
    apply Hstep. exists r', es', w'. by split_and!.
Qed.

Lemma cursor_moves_bound k r es w r' es' w' :
  cursor_moves input k r es w r' es' w' -> projects_at input r es -> w <= length es -> w <= k ->
  projects_at input r' es' /\ w' <= length es' /\ w' <= k.
Proof. intros []; intros; split_and!; try done; lia. Qed.

Lemma loop_cons position state entry entries :
  validate_entries_loop input position state (entry :: entries)
  = (state ← validate_entry input position state entry (head entries);
     validate_entries_loop input position state entries).
Proof. done. Qed.

Lemma entries_loop_Ok entries entry k v r w seen es :
  projects_at input r es ->
  (entry_input_raw_position entry = mkRawPosition r -> v = Pos.of_succ_nat w) ->
  w <= length es -> w <= k -> (k <> 0 \/ w <> length es) ->
  (N.of_nat (k + length (entry :: entries)) <= u64_max)%N ->
  (exists state,
     validate_entries_loop input (mkRawPosition last) (at_cursor k v r w seen es) (entry :: entries)
     = Ok state /\ finished last state) <->
  remaining input r w es (entry :: entries) /\ headers input k seen (entry :: entries).
Proof.
  revert entry k v r w seen es. induction entries as [|next entries IH];
    intros entry k v r w seen es Hes Hv Hw Hwk Hk Hlen; rewrite (remaining_cons _ k) by done;
    rewrite loop_cons, headers_cons;
    (rewrite entry_step; [|try done; (by intros []) || (intros _; simpl in Hlen; lia)..]).
  - split.
    + intros (r' & es' & w' & Hm & (? & ? & ?) & Hraw & Hwithin & He & state & [= <-] & Hlast & Hend).
      split; [|by split_and!]. exists r', es', w'. split_and!; try done.
      pose proof (lookup_lt_Some _ _ _ He). apply remaining_nil; [lia|].
      injection Hlast as ->. split; [by apply last_record|done].
    + intros [(r' & es' & w' & Hm & Hraw & Hwithin & He & Hrem) (? & ? & ? & _)].
      exists r', es', w'. split_and!; try done.
      pose proof (lookup_lt_Some _ _ _ He). apply remaining_nil in Hrem as [Hd Hend]; [|lia].
      eexists. split; [done|]. split; [|done]. simpl. f_equal. apply last_record; [|done].
      eapply projects_at_last. by eapply cursor_moves_bound.
  - assert (forall r' es' w', cursor_moves input k r es w r' es' w' ->
              es' !! w' = Some (entry_projection entry) ->
              (exists state, validate_entries_loop input (mkRawPosition last)
                 (after_entry k r' w' seen es' entry (Some next)) (next :: entries) = Ok state
                 /\ finished last state)
              <-> remaining input r' (S w') es' (next :: entries)
                 /\ headers input (S k) (entry_input_identity entry :: seen) (next :: entries)) as Hstep.
    { intros r' es' w' Hm He. pose proof (lookup_lt_Some _ _ _ He).
      destruct (cursor_moves_bound _ _ _ _ _ _ _ Hm Hes Hw Hwk) as (Hes' & ? & ?).
      apply IH; [done| |lia|lia|by left|simpl in *; lia].
      intros ->. by rewrite bool_decide_eq_true_2. }
    split.
    + intros (r' & es' & w' & Hm & (? & ? & ?) & Hraw & Hwithin & He & [Hrem Hh]%Hstep); [|done..].
      split; [|by split_and!]. by exists r', es', w'.
    + intros [(r' & es' & w' & Hm & Hraw & Hwithin & He & Hrem) (? & ? & ? & Hh)].
      exists r', es', w'. split_and!; try done. by apply Hstep.
Qed.

End entries_loop.

(** Entries that validation accepts with legal records: the declared number of
    entries of this conversation, numbered from one, of distinct identities,
    that are in order what the records project to. *)
Definition entries_legal (input : ImportedConversationReconstitutionInput) : Prop :=
  let entries := input_entries input in
  entries <> [] /\ N.of_nat (length entries) = declared_entry_count input
  /\ (N.of_nat (length entries) <= u64_max)%N
  /\ Forall (fun entry => entry_input_conversation entry = conversation_stored input) entries
  /\ (forall i entry, entries !! i = Some entry ->
        entry_input_position entry = mkTranscriptPosition (Pos.of_succ_nat i))
  /\ NoDup (entry_input_identity <$> entries)
  /\ exists projections,
       projections_of (conversation_input_format input) (input_raw_records input) projections
       /\ entry_place <$> entries = places 1 projections.

Lemma placed_last record records :
  placed 1 (record :: records) ->
  exists last_raw, last (record :: records) = Some last_raw
    /\ raw_input_position last_raw = mkRawPosition (Pos.of_nat (length (record :: records))).
Proof.
  intros Hp. destruct (proj2 (last_is_Some (record :: records))) as [last_raw Hlast]; [done|].
  exists last_raw. split; [done|]. rewrite last_lookup in Hlast.
  destruct (placed_lookup _ _ _ _ Hp Hlast) as [-> _]. f_equal.
Qed.

(** The checks after the loop. *)
Lemma finished_Ok last state :
  (if negb (bool_decide (expected_raw_position state = mkRawPosition last)) then
     position ← ok_or (raw_position_next (expected_raw_position state)) PositionExhausted;
     Err (RawRecordWithoutEntry position)
   else if negb (bool_decide (projected_entry_index state = length (expected_entries state)))
   then Err (RawRecordEntryProjectionMismatch (projected_raw_position state))
   else Ok tt) = Ok tt <-> finished last state.
Proof.
  unfold finished. case_bool_decide as Hlast; cbn [negb]; [rewrite if_negb_Ok; naive_solver|].
  destruct (raw_position_next _); simpl; split; naive_solver.
Qed.

Lemma validate_entries_unfold input :
  records_legal input ->
  validate_entries input = Ok tt <->
  exists entry entries es,
    input_entries input = entry :: entries
    /\ N.of_nat (length (input_entries input)) = declared_entry_count input
    /\ (N.of_nat (length (input_entries input)) <= u64_max)%N
    /\ projects_at input 1 es
    /\ exists state,
         validate_entries_loop input (mkRawPosition (Pos.of_nat (length (input_raw_records input))))
           (at_cursor 0 1 1 0 [] es) (entry :: entries) = Ok state
         /\ finished (Pos.of_nat (length (input_raw_records input))) state.
Proof.
  intros (Hne & _ & _ & Hp & _). unfold validate_entries, projects_at, raw_record_at.
  rewrite if_Ok, if_negb_Ok, u64_try_from_len_Some.
  destruct (input_raw_records input) as [|first records] eqn:Hrecords; [done|].
  destruct (placed_last first records Hp) as (last_raw & -> & Hlast). destruct Hp as [(Hfirst & _) _].
  cbn [head ok_or mbind result_bind]. rewrite Hlast, Hfirst, bind_Ok. setoid_rewrite map_err_Ok.
  destruct (input_entries input) as [|entry entries]; [naive_solver|]. split.
  - intros (_ & [Hd Hlen] & es & Hes & (state & Hloop & Hend%finished_Ok)%bind_Ok).
    exists entry, entries, es. split_and!; try done; [|by exists state].
    exists first. by split.
  - intros (e & entries' & es & [= <- <-] & Hd & Hlen & (record & Hat & Hes) & state & Hloop & Hend).
    simpl in Hat. injection Hat as ->. split_and!; try done. exists es. split; [done|].
    apply bind_Ok. exists state. split; [done|]. by apply finished_Ok.
Qed.

Lemma remaining_first input es entries :
  projects_at input 1 es ->
  remaining input 1 0 es entries <->
  exists projections,
    projections_of (conversation_input_format input) (input_raw_records input) projections
    /\ entry_place <$> entries = places 1 projections.
Proof.
  intros (record & Hat & Hes). unfold raw_record_at in Hat. simpl in Hat. unfold remaining, projections_of.
  destruct (input_raw_records input) as [|first records]; [done|]. injection Hat as ->. simpl drop.
  split.
  - intros (later & Hlater & Hplaces). exists (es :: later). split; [by constructor|done].
  - intros (projections & Hall & Hplaces). apply Forall2_cons_inv_l in Hall as (es' & later & He & Hlater & ->).
    assert (es' = es) as -> by congruence. by exists later.
Qed.

Lemma validate_entries_Ok input :
  records_legal input -> validate_entries input = Ok tt <-> entries_legal input.
Proof.
  intros Hlegal. rewrite validate_entries_unfold by done. destruct Hlegal as (Hne & _ & Hlen & Hp & _).
  assert (forall entry entries es, input_entries input = entry :: entries -> projects_at input 1 es ->
            (N.of_nat (length (entry :: entries)) <= u64_max)%N -> es <> [] ->
            (exists state,
               validate_entries_loop input (mkRawPosition (Pos.of_nat (length (input_raw_records input))))
                 (at_cursor 0 1 1 0 [] es) (entry :: entries) = Ok state
               /\ finished (Pos.of_nat (length (input_raw_records input))) state)
            <-> remaining input 1 0 es (entry :: entries) /\ headers input 0 [] (entry :: entries)) as Hloop.
  { intros entry entries es Hentries Hes Hbound Hnone.
    apply entries_loop_Ok; try done; [simpl; lia|]. right. by destruct es. }
  unfold entries_legal. split.
  - intros (entry & entries & es & Hentries & Hd & Hbound & Hes & Hrun). rewrite Hentries in *.
    assert (es <> []) as Hnone by (destruct Hes as (? & _ & He); by eapply projection_nonempty).
    apply Hloop in Hrun as [Hrem Hh]; [|done..].
    apply remaining_first in Hrem; [|done]. apply headers_spec in Hh as (Hc & Hps & Hnd & _).
    by split_and!.
  - intros (Hne' & Hd & Hbound & Hc & Hps & Hnd & projections & Hall & Hplaces).
    destruct (input_entries input) as [|entry entries] eqn:Hentries; [done|].
    assert (exists es, projects_at input 1 es) as [es Hes].
    { unfold projects_at, raw_record_at. destruct Hall as [|first es records later He _]; [done|].
      by exists es, first. }
    assert (es <> []) as Hnone by (destruct Hes as (? & _ & He); by eapply projection_nonempty).
    exists entry, entries, es. split_and!; try done. apply Hloop; try done. split.
    + apply remaining_first; [done|]. by exists projections.
    + apply headers_spec. split_and!; try done. set_solver.
Qed.

(** ** Reconstitution *)

(** A stored conversation that describes itself correctly. *)
Definition conversation_legal (input : ImportedConversationReconstitutionInput) : Prop :=
  conversation_requested input = conversation_stored input
  /\ records_legal input /\ entries_legal input.

Lemma validate_reconstitution_Ok input : validate_reconstitution input = Ok tt <-> conversation_legal input.
Proof.
  unfold validate_reconstitution, conversation_legal. rewrite if_negb_Ok, bind_Ok. split.
  - intros (Heq & [] & Hr%validate_raw_records_Ok & He). split_and!; try done.
    by apply validate_entries_Ok.
  - intros (Heq & Hr & He). split; [done|]. exists tt. split; [by apply validate_raw_records_Ok|].
    by apply validate_entries_Ok.
Qed.

Lemma reconstitute_legal input :
  conversation_legal input -> conversation_reconstitute input = Ok (build_conversation input).
Proof. intros Hl%validate_reconstitution_Ok. unfold conversation_reconstitute. by rewrite Hl. Qed.

Lemma imported_reconstitution_accepts input conversation :
  conversation_reconstitute input = Ok conversation <->
  conversation_legal input /\ conversation = build_conversation input.
Proof.
  split; [|intros [Hl ->]; by apply reconstitute_legal].
  unfold conversation_reconstitute. destruct (validate_reconstitution input) as [[]|] eqn:Hv; [|done].
  intros [= <-]. split; [|done]. by apply validate_reconstitution_Ok.
Qed.

(** C8. Reconstitution accepts exactly the stored conversations that describe
    themselves correctly: the requested identity is the stored one; the
    declared number of nonempty records, placed from one, whose hashes and
    conversion digests are those of their bytes and normalized objects, without
    two different contents under one hash, and whose source digest is the
    stored one; and the declared number of entries of this conversation,
    numbered from one, of distinct identities, that are in order, record by
    record, what the records project to. A rejected input is handed back. *)
Theorem imported_reconstitution_exact input :
  (forall conversation,
     conversation_reconstitute input = Ok conversation <->
     conversation_legal input /\ conversation = build_conversation input)
  /\ (forall rejected failure,
        conversation_reconstitute input = Err (rejected, failure) ->
        rejected = input /\ validate_reconstitution input = Err failure).
Proof.
  split.
  - intros conversation. apply imported_reconstitution_accepts.
  - intros rejected failure. unfold conversation_reconstitute.
    destruct (validate_reconstitution input); [done|]. by intros [= <- <-].
Qed.

(** ** Conversations converted from records *)

(** The records of a converter, in order, at their positions. *)
Fixpoint numbered_inputs (position : positive) (records : list ImportedRawSourceRecord) :
    list ImportedRawSourceRecordReconstitutionInput :=
  match records with
  | [] => []
  | record :: records =>
      raw_input_of (mkRawPosition position) record :: numbered_inputs (Pos.succ position) records
  end.

Lemma place_records_Ok position records acc result :
  (N.pos position <= u64_max)%N ->
  place_records (mkRawPosition position) records acc = Ok result <->
  (N.pos position + N.of_nat (length records) <= N.succ u64_max)%N
  /\ result = acc ++ numbered_inputs position records.
Proof.
  revert position acc. induction records as [|record [|next records] IH]; intros position acc Hp.
  - cbn [place_records numbered_inputs length]. rewrite app_nil_r. split; [intros [= ->]|intros [_ ->]; done].
    split; [lia|done].
  - cbn [place_records numbered_inputs length]. split; [intros [= <-]; split; [lia|done]|by intros [_ ->]].
  - change (place_records (mkRawPosition position) (record :: next :: records) acc) with
      (match raw_position_next (mkRawPosition position) with
       | Some p => place_records p (next :: records) (acc ++ [raw_input_of (mkRawPosition position) record])
       | None => Err (acc ++ [raw_input_of (mkRawPosition position) record])
       end).
    destruct (decide (N.pos position < u64_max)%N) as [Hlt|Hge].
    + rewrite raw_position_next_Some, IH by lia. cbn [numbered_inputs length]. rewrite <- app_assoc.
      split; intros [? ->]; (split; [lia|done]).
    + destruct (raw_position_next _) as [q|] eqn:Hq.
      * apply raw_position_next_inv in Hq as [_ Hq]. lia.
      * split; [done|]. cbn [length]. intros [Hlen _]. lia.
Qed.

Lemma numbered_length position records : length (numbered_inputs position records) = length records.
Proof. revert position. induction records; intros; simpl; auto. Qed.

Lemma numbered_hashes position records :
  raw_input_stored_hash <$> numbered_inputs position records = record_content_hash <$> records.
Proof. revert position. induction records; intros; simpl; f_equal; auto. Qed.

Lemma numbered_elem position records r :
  r ∈ numbered_inputs position records ->
  exists p record, record ∈ records /\ r = raw_input_of p record.
Proof.
  revert position. induction records as [|record records IH]; intros position; simpl; [set_solver|].
  intros [->|Hr]%elem_of_cons; [exists (mkRawPosition position), record; set_solver|].
  destruct (IH _ Hr) as (p & record' & ? & ->). exists p, record'. set_solver.
Qed.

Lemma numbered_elem_2 position records record :
  record ∈ records -> exists p, raw_input_of p record ∈ numbered_inputs position records.
Proof.
  revert position. induction records as [|r records IH]; intros position; simpl; [set_solver|].
  intros [->|Hr]%elem_of_cons; [eexists; left|].
  destruct (IH (Pos.succ position) Hr) as [p Hp]. exists p. by right.
Qed.

(** A source record as a converter reads it: its bytes and their object. *)
Definition converted_source (source : bytes * ImportedStructuredValue) : ImportedRawSourceRecord :=
  raw_record_from_converted (fst source) (snd source).

Definition source_legal (source : bytes * ImportedStructuredValue) : Prop :=
  fst source <> [] /\ is_object (snd source) = true
  /\ (container_depth (snd source) <= MAX_STRUCTURED_CONTAINER_DEPTH)%N.

Definition sources_legal (sources : list (bytes * ImportedStructuredValue)) : Prop :=
  sources <> [] /\ (N.of_nat (length sources) <= u64_max)%N /\ Forall source_legal sources
  /\ forall s t, s ∈ sources -> t ∈ sources ->
       raw_hash_digest (fst s) = raw_hash_digest (fst t) -> fst s = fst t.

Lemma converted_placed position sources :
  placed position (numbered_inputs position (converted_source <$> sources)) <-> Forall source_legal sources.
Proof.
  revert position. induction sources as [|s sources IH]; intros position; [by split|].
  rewrite fmap_cons, Forall_cons. cbn [numbered_inputs placed]. rewrite IH.
  unfold record_legal, source_legal, converted_source, raw_record_from_converted, raw_input_of. simpl.
  naive_solver.
Qed.

Lemma converted_collisions position sources :
  no_collision (numbered_inputs position (converted_source <$> sources)) <->
  forall s t, s ∈ sources -> t ∈ sources ->
    raw_hash_digest (fst s) = raw_hash_digest (fst t) -> fst s = fst t.
Proof.
  unfold no_collision, record_key. split.
  - intros Hnone s t Hs Ht Heq.
    destruct (numbered_elem_2 position (converted_source <$> sources) (converted_source s)) as [p Hp];
      [set_solver|].
    destruct (numbered_elem_2 position (converted_source <$> sources) (converted_source t)) as [q Hq];
      [set_solver|].
    apply (Hnone _ _ Hp Hq). cbn [raw_input_of raw_input_stored_hash converted_source
      raw_record_from_converted record_content_hash]. by rewrite Heq.
  - intros Hnone r r' Hr Hr' Heq.
    apply numbered_elem in Hr as (p & ? & (s & -> & Hs)%list_elem_of_fmap & ->).
    apply numbered_elem in Hr' as (q & ? & (t & -> & Ht)%list_elem_of_fmap & ->).
    apply (Hnone s t Hs Ht). cbn [raw_input_of raw_input_stored_hash converted_source
      raw_record_from_converted record_content_hash] in Heq.
    destruct (raw_hash_digest (fst s)), (raw_hash_digest (fst t)). simpl in Heq. by f_equal.
Qed.

(** The input that [from_converted_records] validates. *)
Definition converter_input (id : ImportedConversationId) (format : ImportedConversationFormat)
    (sources : list (bytes * ImportedStructuredValue)) (entries : list ImportedTranscriptEntryInput) :
    ImportedConversationReconstitutionInput :=
  converted_input id format (numbered_inputs 1 (converted_source <$> sources)) entries.

Lemma converted_legal id format sources entries :
  conversation_legal (converter_input id format sources entries) <->
  sources_legal sources /\ entries_legal (converter_input id format sources entries).
Proof.
  unfold conversation_legal, records_legal, sources_legal, converter_input, converted_input.
  cbn [conversation_requested conversation_stored input_raw_records declared_raw_record_count
       stored_source_digest conversation_input_format].
  rewrite numbered_length, length_fmap, converted_placed, converted_collisions.
  assert (numbered_inputs 1 (converted_source <$> sources) <> [] <-> sources <> []) as ->.
  { by destruct sources. }
  unfold saturating_len. split; intros; destruct_and!; split_and!; try done; lia.
Qed.

(** Converting source records yields a conversation exactly when there is a
    record, every record has bytes and a bounded object, no two different
    contents share a hash, and the entries are in order what the records
    project to. The hashes, conversion digests, positions, counts and source
    digest that reconstitution checks are then those the conversion computed. *)
Theorem converted_conversation_exact id format sources entries conversation :
  from_converted_records id format (converted_source <$> sources) entries = Ok conversation <->
  sources_legal sources /\ entries_legal (converter_input id format sources entries)
  /\ conversation = build_conversation (converter_input id format sources entries).
Proof.
  unfold from_converted_records, raw_position_first.
  destruct (place_records (mkRawPosition 1) (converted_source <$> sources) []) as [result|result] eqn:Hplace.
  - apply place_records_Ok in Hplace as [Hlen ->]; [|unfold u64_max; lia]. rewrite app_nil_l.
    fold (converter_input id format sources entries).
    rewrite (and_assoc (sources_legal sources)), <- converted_legal, <- validate_reconstitution_Ok.
    unfold conversation_reconstitute. destruct (validate_reconstitution _) as [[]|]; naive_solver.
  - split; [done|]. intros ((_ & Hlen & _) & _).
    assert (place_records (mkRawPosition 1) (converted_source <$> sources) []
            = Ok (numbered_inputs 1 (converted_source <$> sources))) as Hok; [|congruence].
    apply place_records_Ok; [unfold u64_max; lia|]. rewrite length_fmap. split; [lia|done].
Qed.

(** ** Frontiers *)

Lemma entry_of_conversation input i entry :
  conversation_entries (build_conversation input) !! i = Some entry ->
  exists stored, input_entries input !! i = Some stored
    /\ imported_entry_identity entry = entry_input_identity stored
    /\ imported_entry_position entry = entry_input_position stored.
Proof.
  simpl. rewrite list_lookup_fmap_Some.
  intros (stored & ? & ?). exists stored. simplify_eq. by split_and!.
Qed.

Lemma conversation_identities input :
  imported_entry_identity <$> conversation_entries (build_conversation input)
  = entry_input_identity <$> input_entries input.
Proof. simpl. rewrite <- list_fmap_compose. by apply list_fmap_ext. Qed.

Lemma find_unique {A B} `{EqDecision B} (f : A -> B) l i x :
  NoDup (f <$> l) -> l !! i = Some x ->
  find (fun y => bool_decide (f y = f x)) l = Some x.
Proof.
  revert i. induction l as [|y l IH]; intros i Hnd Hi; [done|]. simpl.
  rewrite fmap_cons, NoDup_cons in Hnd. destruct Hnd as [Hy Hnd].
  destruct i as [|i]; simpl in Hi; [injection Hi as ->; by rewrite bool_decide_eq_true_2|].
  rewrite bool_decide_eq_false_2; [by eapply IH|].
  intros Heq. apply Hy. rewrite Heq. apply list_elem_of_fmap. exists x.
  split; [done|]. by eapply list_elem_of_lookup_2.
Qed.

(** The frontiers of a reconstituted conversation denote its nonempty
    prefixes: the [k]-th entry has the [k]-th frontier, which its identity finds
    and whose prefix is the first [k + 1] entries; and any frontier that has a
    prefix is the frontier of one of the entries. *)
Theorem imported_prefix_exact input conversation
    (Hlegal : conversation_reconstitute input = Ok conversation) :
  (forall k entry, conversation_entries conversation !! k = Some entry ->
     exists frontier, frontiers conversation !! k = Some frontier
       /\ frontier_for_entry conversation (imported_entry_identity entry) = Some frontier
       /\ imported_prefix conversation frontier = Some (take (S k) (conversation_entries conversation)))
  /\ (forall frontier entries, imported_prefix conversation frontier = Some entries ->
        exists k, frontiers conversation !! k = Some frontier
          /\ entries = take (S k) (conversation_entries conversation)).
Proof.
  apply imported_reconstitution_accepts in Hlegal as [(_ & _ & Hentries) ->].
  destruct Hentries as (_ & _ & _ & _ & Hposition & Hnd & _).
  rewrite <- conversation_identities in Hnd.
  assert (forall k entry, conversation_entries (build_conversation input) !! k = Some entry ->
          imported_entry_position entry = mkTranscriptPosition (Pos.of_succ_nat k)) as Hp.
  { intros k entry (stored & Hs & _ & ->)%entry_of_conversation. by apply Hposition. }
  remember (build_conversation input) as c eqn:Hc. clear Hc Hposition. split.
  - intros k entry Hk. exists (frontier_of c entry).
    pose proof (lookup_lt_Some _ _ _ Hk) as Hlen. split_and!.
    + unfold frontiers. by rewrite list_lookup_fmap, Hk.
    + unfold frontier_for_entry. by rewrite (find_unique imported_entry_identity _ k entry).
    + unfold imported_prefix, frontier_of. cbn [frontier_conversation frontier_through_position
        frontier_through_entry]. rewrite bool_decide_eq_true_2, (Hp k entry Hk) by done.
      cbn [negb transcript_position]. rewrite SuccNat2Pos.id_succ. cbn [pred]. rewrite Hk.
      cbn [mbind option_bind]. rewrite bool_decide_eq_true_2 by done. cbn [negb].
      by rewrite (proj2 (Nat.leb_le _ _)) by lia.
  - intros [cid eid [p]] entries. unfold imported_prefix. cbn [frontier_conversation
      frontier_through_position frontier_through_entry transcript_position].
    case_bool_decide as Hcid; [|done]. cbn [negb].
    destruct (conversation_entries c !! pred (Pos.to_nat p)) as [entry|] eqn:Hk; [|done].
    cbn [mbind option_bind]. case_bool_decide as Heid; [|done]. cbn [negb].
    destruct (Nat.leb_spec (Pos.to_nat p) (length (conversation_entries c))); [|done].
    intros [= <-]. exists (pred (Pos.to_nat p)). split; [|f_equal; lia].
    unfold frontiers. rewrite list_lookup_fmap, Hk. simpl. unfold frontier_of.
    rewrite (Hp _ _ Hk), Heid, Hcid. do 3 f_equal. lia.
Qed.
End spec.

(** A record that a user spoke and one that is an event. *)
Definition sample_text (s : string) : ImportedStructuredValue := SvString (mkImportedText s).
Definition sample_member (name : string) (value : ImportedStructuredValue) : ImportedStructuredObjectMember :=
  (mkImportedText name, value).
Definition sample_sources : list (bytes * ImportedStructuredValue) :=
  [(str_bytes "first", SvObject [sample_member "type" (sample_text "user");
      sample_member "message" (SvObject [sample_member "role" (sample_text "user");
        sample_member "content" (SvArray
          [SvObject [sample_member "type" (sample_text "text"); sample_member "text" (sample_text "hi")];
           SvObject [sample_member "type" (sample_text "thinking")]])])]);
   (str_bytes "second record", SvObject [sample_member "type" (sample_text "summary")])].

Definition sample_metadata (role : ImportedSourceAttestation ImportedSpeaker) : ImportedSourceMetadata :=
  mkSourceMetadata NotAttested NotAttested NotAttested NotAttested NotAttested NotAttested role.

Definition imported_sample_entry (position raw within : positive) (speaker : ImportedSourceAttestation ImportedSpeaker)
    (content : ImportedTranscriptContent) : ImportedTranscriptEntryInput :=
  mkEntryInput (from_uuid (Npos position)) (from_uuid 7) (mkTranscriptPosition position)
    (mkRawPosition raw) (mkWithinPosition within) speaker content (sample_metadata speaker).

Definition imported_sample_entries : list ImportedTranscriptEntryInput :=
  [imported_sample_entry 1 1 1 (Attested SpeakerUser) (ContentText (Attested (mkImportedText "hi")));
   imported_sample_entry 2 1 2 (Attested SpeakerUser) (ContentThinking NotAttested NotAttested);
   imported_sample_entry 3 2 1 NotAttested (SourceEvent (Attested (mkImportedText "summary")))].

Definition sample_conversation_input : ImportedConversationReconstitutionInput :=
  @converter_input sample_sha256 (from_uuid 7) ClaudeCodeSessionJsonlV1 sample_sources imported_sample_entries.

Example sample_conversation :
  @conversation_reconstitute sample_sha256 sample_conversation_input
  = Ok (build_conversation sample_conversation_input).
Proof. vm_compute. reflexivity. Qed.

Lemma imported_prefix_exact_witness :
  exists frontier,
    imported_prefix (build_conversation sample_conversation_input) frontier
    = Some (take 2 (conversation_entries (build_conversation sample_conversation_input))).
Proof.
  destruct (@imported_prefix_exact sample_sha256 sample_conversation_input
              (build_conversation sample_conversation_input)) as [Hprefix _].
  { vm_compute. reflexivity. }
  destruct (Hprefix 1 (mkImportedEntry (from_uuid 2) (from_uuid 7) (mkTranscriptPosition 2)
              (mkRawPosition 1) (mkWithinPosition 2) (Attested SpeakerUser)
              (ContentThinking NotAttested NotAttested) (sample_metadata (Attested SpeakerUser))))
    as (frontier & _ & _ & Hp); [reflexivity|].
  exists frontier. exact Hp.
Defined.

(** ** Display titles *)

Definition spaces (value : bytes) : Prop := Forall (fun byte => is_edge_space byte = true) value.

Definition spoken_first (value : bytes) : Prop :=
  forall byte, head value = Some byte -> is_edge_space byte = false.
Definition spoken_last (value : bytes) : Prop :=
  forall byte, last value = Some byte -> is_edge_space byte = false.

Lemma trim_start_bytes_spec value :
  (exists before, spaces before /\ value = before ++ trim_start_bytes value)
  /\ spoken_first (trim_start_bytes value).
Proof.
  induction value as [|byte value [(before & Hb & Hv) Hh]]; simpl.
  { split; [exists []; split; [constructor|done]|done]. }
  destruct (is_edge_space byte) eqn:Hbyte.
  - split; [|done]. exists (byte :: before). split; [by constructor|]. simpl. by f_equal.
  - split; [exists []; split; [constructor|done]|]. by intros b [= <-].
Qed.

Lemma trim_end_spec value :
  (exists after, spaces after /\ value = trim_end_bytes value ++ after)
  /\ spoken_last (trim_end_bytes value).
Proof.
  destruct (trim_start_bytes_spec (reverse value)) as [(before & Hb & Hv) Hh]. unfold trim_end_bytes. split.
  - exists (reverse before). split; [by apply Forall_reverse|].
    by rewrite <- reverse_app, <- Hv, reverse_involutive.
  - intros byte. rewrite last_reverse. apply Hh.
Qed.

Lemma spaces_spoken before value :
  spaces before -> spoken_first (before ++ value) -> before = [].
Proof. intros [|byte before' Hbyte]; [done|]. intros Hf. by specialize (Hf byte eq_refl) as ?; congruence. Qed.

Lemma trim_start_id value : spoken_first value -> trim_start_bytes value = value.
Proof. destruct value as [|byte value]; [done|]. intros Hf. simpl. by rewrite (Hf byte eq_refl). Qed.

Lemma trim_end_id value : spoken_last value -> trim_end_bytes value = value.
Proof.
  intros Hl. unfold trim_end_bytes. rewrite trim_start_id, reverse_involutive; [done|].
  intros byte. rewrite head_reverse. apply Hl.
Qed.

Lemma trim_end_first value : spoken_first value -> spoken_first (trim_end_bytes value).
Proof.
  destruct (trim_end_spec value) as [(after & _ & Hv) _]. intros Hf byte Hb. apply Hf.
  rewrite Hv. by destruct (trim_end_bytes value).
Qed.

(** Only spaces are trimmed to nothing. *)
Lemma trim_end_nil value : spoken_first value -> trim_end_bytes value = [] -> value = [].
Proof.
  intros Hf Hnil. destruct (trim_end_spec value) as [(after & Hafter & Hv) _]. rewrite Hnil in Hv. simpl in Hv.
  rewrite Hv. rewrite Hv, <- (app_nil_r after) in Hf. by eapply spaces_spoken.
Qed.

Lemma take_characters_prefix count value : take_characters count value `prefix_of` value.
Proof.
  revert count. induction value as [|byte value IH]; intros count; simpl; [done|].
  destruct (continues_character byte); [by apply prefix_cons|].
  destruct count; [apply prefix_nil|]. by apply prefix_cons.
Qed.

Lemma take_characters_count count value : count_characters (take_characters count value) <= count.
Proof.
  revert count. induction value as [|byte value IH]; intros count; simpl; [lia|].
  destruct (continues_character byte) eqn:Hb; [simpl; by rewrite Hb|].
  destruct count; simpl; [lia|]. rewrite Hb. specialize (IH count). lia.
Qed.

Lemma take_characters_id count value : count_characters value <= count -> take_characters count value = value.
Proof.
  revert count. induction value as [|byte value IH]; intros count Hc; simpl in *; [done|].
  destruct (continues_character byte); [by rewrite IH|].
  destruct count; [lia|]. rewrite IH; [done|lia].
Qed.

Lemma count_characters_app v w : count_characters (v ++ w) = count_characters v + count_characters w.
Proof. induction v as [|b v IH]; simpl; [done|]. destruct (continues_character b); simpl; lia. Qed.

Definition line_byte (byte : Ascii.ascii) : Prop := is_nul byte = false /\ is_line_break byte = false.

Lemma first_line_spec value :
  Forall line_byte (first_line value)
  /\ (Forall line_byte value -> first_line value = value)
  /\ exists rest, value = first_line value ++ rest.
Proof.
  induction value as [|byte value (Hl & Hid & rest & Hv)]; simpl.
  { split_and!; [constructor|done|by exists []]. }
  unfold line_byte in *. destruct (is_nul byte) eqn:Hn; simpl.
  { split_and!; [constructor| |by eexists]. intros [[? _] _]%Forall_cons. congruence. }
  destruct (is_line_break byte) eqn:Hb.
  { split_and!; [constructor| |by eexists]. intros [[_ ?] _]%Forall_cons. congruence. }
  split_and!; [by constructor| |exists rest; by rewrite <- app_comm_cons, <- Hv].
  intros [_ Hv']%Forall_cons. f_equal. by apply Hid.
Qed.

Lemma existsb_none {A} (f : A -> bool) l : existsb f l = false <-> Forall (fun x => f x = false) l.
Proof.
  induction l as [|x l IH]; simpl; [by split|]. rewrite orb_false_iff, Forall_cons, IH. done.
Qed.

(** What makes a title. *)
Definition title_legal (value : bytes) : Prop :=
  value <> [] /\ Forall line_byte value /\ count_characters value <= TITLE_MAX_SCALARS
  /\ spoken_first value /\ spoken_last value.

Lemma edge_false (byte : option Ascii.ascii) :
  match byte with Some byte => is_edge_space byte | None => false end = false <->
  forall b, byte = Some b -> is_edge_space b = false.
Proof. destruct byte; naive_solver. Qed.

Lemma title_try_new_Ok value title :
  title_try_new value = Ok title <-> title_legal value /\ title = mkDisplayTitle value.
Proof.
  unfold title_try_new, title_legal, spoken_first, spoken_last.
  rewrite if_Ok, !if_false_Ok, !existsb_none, Nat.ltb_ge, orb_false_iff, !edge_false.
  unfold line_byte. rewrite Forall_and. naive_solver.
Qed.

Lemma prefix_Forall {A} (P : A -> Prop) l k : l `prefix_of` k -> Forall P k -> Forall P l.
Proof. intros [rest ->] [? _]%Forall_app. done. Qed.

Lemma trim_end_prefix value : trim_end_bytes value `prefix_of` value.
Proof. destruct (trim_end_spec value) as [(after & _ & Hv) _]. by exists after. Qed.

Lemma take_spoken_first count value : spoken_first value -> spoken_first (take_characters count value).
Proof.
  intros Hf byte Hb. apply Hf. destruct (take_characters_prefix count value) as [rest Hv].
  rewrite Hv. by destruct (take_characters count value).
Qed.

Lemma take_characters_nil count value : 0 < count -> take_characters count value = [] -> value = [].
Proof.
  destruct value as [|byte value]; [done|]. simpl. destruct (continues_character byte); [done|].
  destruct count; [lia|done].
Qed.

Lemma shape_legal candidate title :
  shape_candidate candidate = Some title -> title_legal (title_text title).
Proof.
  unfold shape_candidate.
  set (trimmed := trim_end_bytes (trim_start_bytes (first_line candidate))).
  set (shaped := trim_end_bytes (take_characters TITLE_MAX_SCALARS trimmed)).
  assert (spoken_first trimmed) as Hfirst by (apply trim_end_first, trim_start_bytes_spec).
  assert (Forall line_byte trimmed) as Hline.
  { eapply prefix_Forall; [apply trim_end_prefix|].
    destruct (trim_start_bytes_spec (first_line candidate)) as [(before & _ & Hv) _].
    destruct (first_line_spec candidate) as [Hl _]. rewrite Hv in Hl. by apply Forall_app in Hl as [_ ?]. }
  assert (title_legal shaped \/ shaped = []) as Hshaped.
  { destruct (decide (shaped = [])) as [|Hne]; [by right|left]. split_and!; [done| | | |].
    - eapply prefix_Forall; [|exact Hline]. etrans; [apply trim_end_prefix|apply take_characters_prefix].
    - pose proof (take_characters_count TITLE_MAX_SCALARS trimmed).
      destruct (trim_end_prefix (take_characters TITLE_MAX_SCALARS trimmed)) as [rest Hv].
      apply (f_equal count_characters) in Hv. rewrite count_characters_app in Hv. subst shaped. lia.
    - by apply trim_end_first, take_spoken_first.
    - apply trim_end_spec. }
  intros Hs. destruct shaped as [|b shaped']; [done|]. injection Hs as <-. by destruct Hshaped.
Qed.

Lemma shape_fixed value : title_legal value -> shape_candidate value = Some (mkDisplayTitle value).
Proof.
  intros (Hne & Hline & Hcount & Hfirst & Hlast). unfold shape_candidate.
  destruct (first_line_spec value) as (_ & -> & _); [|done].
  rewrite trim_start_id, (trim_end_id value), take_characters_id, trim_end_id by done.
  by destruct value.
Qed.

Lemma shape_none candidate : shape_candidate candidate = None <-> spaces (first_line candidate).
Proof.
  unfold shape_candidate. destruct (trim_start_bytes_spec (first_line candidate)) as [(before & Hb & Hv) Hh].
  split.
  - intros Hnone. destruct (trim_end_bytes (take_characters _ _)) eqn:Hs; [|done].
    apply trim_end_nil in Hs; [|by apply take_spoken_first, trim_end_first].
    apply take_characters_nil in Hs; [|unfold TITLE_MAX_SCALARS; lia].
    apply trim_end_nil in Hs; [|done]. rewrite Hv, Hs, app_nil_r. done.
  - intros Hs. rewrite Hv in Hs. apply Forall_app in Hs as [_ Hs].
    destruct (trim_start_bytes (first_line candidate)) as [|b rest]; [done|].
    apply Forall_cons in Hs as [Hs _]. specialize (Hh b eq_refl). congruence.
Qed.

Lemma head_omap_id {A} (l : list (option A)) x : head (omap id l) = Some x -> Some x ∈ l.
Proof.
  induction l as [|[y|] l IH]; simpl; [done| |].
  - intros [= ->]. left.
  - intros Hx. right. by apply IH.
Qed.

Lemma first_title_shaped candidates title :
  first_title candidates = Some title -> exists candidate, shape_candidate candidate = Some title.
Proof.
  unfold first_title. intros Hh. apply head_Some_elem_of in Hh.
  apply list_elem_of_omap in Hh as (text & _ & Hs). by eexists.
Qed.

(** Display titles: shaping a candidate fails exactly when its first line is
    only spaces and tabs; a shaped title is one that loading accepts unchanged,
    and a title that loading accepts shapes to itself; a title derived from a
    conversation is therefore stored and loaded unchanged. *)
Theorem display_title_exact :
  (forall candidate, shape_candidate candidate = None <-> spaces (first_line candidate))
  /\ (forall candidate title, shape_candidate candidate = Some title ->
        title_try_new (title_text title) = Ok title)
  /\ (forall value title, title_try_new value = Ok title -> shape_candidate value = Some title)
  /\ (forall conversation title, title_derive conversation = Some title ->
        title_try_new (title_text title) = Ok title).
Proof.
  assert (forall candidate title, shape_candidate candidate = Some title ->
            title_try_new (title_text title) = Ok title) as Hshape.
  { intros candidate title Hs. apply title_try_new_Ok. split; [by eapply shape_legal|by destruct title]. }
  split_and!; [apply shape_none|done| |].
  - intros value title [Hl ->]%title_try_new_Ok. by apply shape_fixed.
  - intros conversation title Hd. apply head_omap_id in Hd. unfold derive_candidates in Hd.
    assert (exists candidate, shape_candidate candidate = Some title) as [candidate Hc]; [|by eapply Hshape].
    destruct (conversation_format conversation); set_unfold; destruct_or?; try done;
      eapply first_title_shaped; by symmetry.
Qed.
