(* ===== verification/SemanticEntry.v ===== *)
(** * Semantic transcript entries

    Model of [crates/domain/src/semantic_entry.rs]: the closed payload of a
    transcript entry, the identified entry with its frontier reference, and the
    provider JSON that two payloads retain; with the range of
    [context_compaction.rs] a summary names, and the content that
    [session_delegation/terminal_turn.rs] assembles from the assistant's text. *)

From stdpp Require Import strings.
From S2P Require Import Prelude ModelSettings Configuration TurnLifecycle Delegation Frontier ImportedValue Imported.

Local Open Scope string_scope.
Local Open Scope list_scope.

(** ** Provider JSON

    [serde_json::Value] is third-party code: the parser, which accepts one
    complete document, and what the checks ask of a value. *)

Class SerdeValue := {
  serde_value : Type;
  value_from_str : string -> option serde_value;
  value_get : serde_value -> string -> option serde_value;
  value_as_str : serde_value -> option string;
  value_is_null : serde_value -> bool;
  value_is_object : serde_value -> bool;
}.

Record ProviderCompactionBlock := mkCompactionBlock { compaction_json : string }.
Record ProviderReasoningItem := mkReasoningItem { reasoning_json : string }.

#[export] Instance ProviderCompactionBlock_eq_dec : EqDecision ProviderCompactionBlock.
Proof. solve_decision. Defined.
#[export] Instance ProviderReasoningItem_eq_dec : EqDecision ProviderReasoningItem.
Proof. solve_decision. Defined.

Section provider_json.
Context `{SerdeValue}.

(** [parsed.get(..).and_then(Value::as_str)] *)
Definition str_field (parsed : serde_value) (name : string) : option string :=
  value ← value_get parsed name; value_as_str value.

(** [ProviderCompactionBlock::try_new] *)
Definition compaction_block_try_new (value : string) : result unit ProviderCompactionBlock :=
  parsed ← ok_or (value_from_str value) tt;
  if negb (bool_decide (str_field parsed "type" = Some "compaction")) then Err tt else
  _ ← match value_get parsed "content" with
      | Some content =>
          match value_as_str content with
          | Some content => ensure (negb (bool_decide (content = ""))) tt
          | None => ensure (value_is_null content) tt
          end
      | None => Err tt
      end;
  if match value_get parsed "encrypted_content" with
     | None => true
     | Some encrypted =>
         bool_decide (is_Some (value_as_str encrypted)) || value_is_null encrypted
     end
  then Ok (mkCompactionBlock value) else Err tt.

(** [ProviderReasoningItem::try_new] *)
Definition reasoning_item_try_new (value : string) : result unit ProviderReasoningItem :=
  parsed ← ok_or (value_from_str value) tt;
  if negb (value_is_object parsed)
     || negb (bool_decide (str_field parsed "type" = Some "reasoning"))
     || negb match str_field parsed "id" with
             | Some id => negb (bool_decide (id = ""))
             | None => false
             end
     || negb (bool_decide (is_Some (str_field parsed "encrypted_content")))
  then Err tt else Ok (mkReasoningItem value).
End provider_json.

(** ** Payloads *)

(** [ContextCompactionRange] of context_compaction.rs *)
Record ContextCompactionRange := inclusive {
  range_first : SemanticTranscriptEntryRef;
  range_through : SemanticTranscriptEntryRef;
}.

#[export] Instance ContextCompactionRange_eq_dec : EqDecision ContextCompactionRange.
Proof. solve_decision. Defined.

#[export] Instance RunnerGeneration_eq_dec : EqDecision RunnerGeneration.
Proof. solve_decision. Defined.

Inductive SemanticTranscriptEntryPayload :=
| RunnerPlacementChanged (placement_revision : RunnerGeneration)
| ImportedEntry (imported_entry : ImportedTranscriptEntryId)
    (source_speaker : ImportedSourceAttestation ImportedSpeaker) (content : ImportedTranscriptContent)
| OriginAcceptedInput (accepted_input : AcceptedInputId)
| SteeringAcceptedInput (accepted_input : AcceptedInputId) (source_turn : TurnId)
| DelegatedTask (spawning_request : ToolRequestId) (parent_session : SessionId)
    (parent_turn : TurnId) (content : DelegationContent)
| DelegationMessageEntry (spawning_request : ToolRequestId) (message : DelegationMessageId)
    (sender recipient : SessionId) (delivery_sequence : positive) (content : DelegationContent)
| DelegationResult (awaiting_request spawning_request : ToolRequestId) (child : SessionId)
    (mode : DelegationWaitMode) (delivery_sequence : option positive) (outcome : DelegationOutcome)
| ModelIdentityChanged (turn : TurnId) (defaults_version : SessionConfigurationDefaultsVersion)
    (selected : DirectModelSelection)
| ContextSummary (producing_call : ModelCallId) (summarized : ContextCompactionRange)
    (value : AssistantText)
| TurnFailed (turn : TurnId)
| AssistantTextEntry (producing_call : ModelCallId) (value : AssistantText)
| ProviderCompaction (producing_call : ModelCallId) (block : ProviderCompactionBlock)
| ProviderReasoning (producing_call : ModelCallId) (item : ProviderReasoningItem)
| AssistantToolUse (producing_call : ModelCallId) (request : ToolRequestId)
| ToolExecutionResult (attempt : ToolAttemptId)
| ToolDenied (request : ToolRequestId)
| ToolInadmissible (request : ToolRequestId)
| ToolClosed (request : ToolRequestId)
| TurnCompleted (turn : TurnId)
| TurnCancelled (turn : TurnId).

#[export] Instance SemanticTranscriptEntryPayload_eq_dec : EqDecision SemanticTranscriptEntryPayload.
Proof. solve_decision. Defined.

(** ** Entries *)

Record SemanticTranscriptEntry := from_validated_parts {
  semantic_identity : SemanticTranscriptEntryId;
  semantic_source_session : SessionId;
  semantic_payload : SemanticTranscriptEntryPayload;
}.

#[export] Instance SemanticTranscriptEntry_eq_dec : EqDecision SemanticTranscriptEntry.
Proof. solve_decision. Defined.

Definition reference (self : SemanticTranscriptEntry) : SemanticTranscriptEntryRef :=
  from_source (semantic_source_session self) (semantic_identity self).

(** ** The content of a completed child

    [delegation_content_from_live_completed] reads the session, the call and
    the assistant's entries of a completed turn. *)

(** One iteration of the loop: the texts collected so far. *)
Definition collect_assistant_text (session : SessionId) (call : ModelCallId)
    (texts : list AssistantText) (entry : SemanticTranscriptEntry) : option (list AssistantText) :=
  let owned producing_call :=
    bool_decide (semantic_source_session entry = session) && bool_decide (producing_call = call) in
  match semantic_payload entry with
  | AssistantTextEntry producing_call value =>
      if owned producing_call then Some (texts ++ [value]) else None
  | ProviderCompaction producing_call _ | ProviderReasoning producing_call _ =>
      if owned producing_call then Some texts else None
  | _ => None
  end.

Fixpoint collect_assistant_texts (session : SessionId) (call : ModelCallId)
    (texts : list AssistantText) (entries : list SemanticTranscriptEntry) : option (list AssistantText) :=
  match entries with
  | [] => Some texts
  | entry :: entries =>
      texts ← collect_assistant_text session call texts entry;
      collect_assistant_texts session call texts entries
  end.

(** The [try_fold] over the lengths. *)
Fixpoint add_lengths (total : N) (texts : list AssistantText) : option N :=
  match texts with
  | [] => Some total
  | value :: texts =>
      total ← u64_checked_add total (utf8_len (assistant_text_str value));
      add_lengths total texts
  end.

Definition delegation_content_from_live_completed (session : SessionId) (call : ModelCallId)
    (assistant_entries : list SemanticTranscriptEntry) : option DelegationContent :=
  texts ← collect_assistant_texts session call [] assistant_entries;
  utf8_byte_length ← add_lengths 0 texts;
  if (MAX_CONTENT_UTF8_BYTES <? utf8_byte_length)%N then None else
  match delegation_content_try_new (push_parts texts) with
  | Ok content => Some content
  | Err _ => None
  end.

(** ** What the content of a completed child is *)

(** An entry that the completed call of this session produced and that carries
    no request. *)
Definition call_output (session : SessionId) (call : ModelCallId) (entry : SemanticTranscriptEntry) :
    Prop :=
  semantic_source_session entry = session
  /\ match semantic_payload entry with
     | AssistantTextEntry producing_call _ | ProviderCompaction producing_call _
     | ProviderReasoning producing_call _ => producing_call = call
     | _ => False
     end.

Definition text_of_entry (entry : SemanticTranscriptEntry) : option AssistantText :=
  match semantic_payload entry with AssistantTextEntry _ value => Some value | _ => None end.

Lemma collect_assistant_text_Some session call texts entry collected :
  collect_assistant_text session call texts entry = Some collected <->
  call_output session call entry /\ collected = texts ++ option_list (text_of_entry entry).
Proof.
  unfold collect_assistant_text, call_output, text_of_entry.
  destruct (semantic_payload entry); try (split; [done|by intros [[_ []] _]]);
    do 2 case_bool_decide; simpl; rewrite ?app_nil_r; naive_solver.
Qed.

Lemma collect_assistant_texts_Some session call entries texts collected :
  collect_assistant_texts session call texts entries = Some collected <->
  Forall (call_output session call) entries /\ collected = texts ++ omap text_of_entry entries.
Proof.
  revert texts. induction entries as [|e entries IH]; intros texts; simpl.
  { rewrite app_nil_r. split; [intros [= ->]; by split|by intros [_ ->]]. }
  rewrite bind_Some, Forall_cons. setoid_rewrite IH. setoid_rewrite collect_assistant_text_Some.
  assert (forall l, (texts ++ option_list (text_of_entry e)) ++ l
            = texts ++ match text_of_entry e with Some y => y :: l | None => l end) as Happ.
  { intros l. rewrite <- app_assoc. by destruct (text_of_entry e). }
  split.
  - intros (? & [Ho ->] & Hall & ->). by rewrite Happ.
  - intros [[Ho Hall] ->]. eexists. split; [by split|]. by rewrite Happ.
Qed.

Lemma utf8_len_app a b : utf8_len (a +:+ b) = (utf8_len a + utf8_len b)%N.
Proof.
  unfold utf8_len. rewrite <- Nat2N.inj_add. f_equal.
  induction a as [|c a IH]; [done|]. simpl. by f_equal.
Qed.

Lemma push_parts_len texts : utf8_len (push_parts texts) = parts_len texts.
Proof.
  unfold push_parts, parts_len. change 0%N with (utf8_len EmptyString).
  generalize EmptyString as value. induction texts as [|text texts IH]; intros value; simpl; [done|].
  by rewrite IH, utf8_len_app.
Qed.

Lemma parts_grow texts total :
  (total <= foldl (fun total part => total + utf8_len (assistant_text_str part)) total texts)%N.
Proof.
  revert total. induction texts as [|text texts IH]; intros total; simpl; [lia|].
  specialize (IH (total + utf8_len (assistant_text_str text))%N). lia.
Qed.

Lemma add_lengths_Some texts total sum :
  (total <= u64_max)%N ->
  add_lengths total texts = Some sum <->
  sum = foldl (fun total part => total + utf8_len (assistant_text_str part))%N total texts
  /\ (sum <= u64_max)%N.
Proof.
  revert total. induction texts as [|text texts IH]; intros total Htotal.
  { simpl. split; [by intros [= <-]|by intros [-> _]]. }
  cbn [add_lengths foldl]. rewrite bind_Some. setoid_rewrite u64_checked_add_Some. split.
  - intros (next & [-> Hnext] & Hrest). by apply IH in Hrest.
  - intros [Hsum Hbound]. pose proof (parts_grow texts (total + utf8_len (assistant_text_str text))).
    eexists. split; [split; [done|lia]|]. apply IH; [lia|done].
Qed.

(** The content of a completed child is the concatenation of its assistant
    texts, and exists exactly when every entry is output of that call in that
    session without a tool request and the concatenation is valid content; the
    length that is checked before the texts are joined refuses nothing else. *)
Theorem completed_content_exact session call entries content :
  delegation_content_from_live_completed session call entries = Some content <->
  Forall (call_output session call) entries
  /\ delegation_content_try_new (push_parts (omap text_of_entry entries)) = Ok content.
Proof.
  unfold delegation_content_from_live_completed. rewrite bind_Some.
  setoid_rewrite collect_assistant_texts_Some. cbn [app]. split.
  - intros (texts & [Hall ->] & (len & _ & Hrest)%bind_Some). split; [done|].
    destruct (_ <? _)%N; [done|]. destruct (delegation_content_try_new _); [by injection Hrest as ->|done].
  - intros [Hall Hcontent]. eexists. split; [by split|]. apply bind_Some.
    assert (parts_len (omap text_of_entry entries) <= MAX_CONTENT_UTF8_BYTES)%N as Hlen.
    { rewrite <- push_parts_len. unfold delegation_content_try_new in Hcontent.
      destruct (N.ltb_spec MAX_CONTENT_UTF8_BYTES (utf8_len (push_parts (omap text_of_entry entries))));
        [done|lia]. }
    exists (parts_len (omap text_of_entry entries)). split.
    + apply add_lengths_Some; [unfold u64_max; lia|]. split; [done|].
      unfold MAX_CONTENT_UTF8_BYTES, u64_max in *. lia.
    + rewrite (proj2 (N.ltb_ge _ _)) by done. by rewrite Hcontent.
Qed.
