(* ===== verification/ContextCompaction.v ===== *)
(** * Context compaction

    Model of [crates/domain/src/context_compaction.rs]: the dedicated model call
    of a compaction, the projection of a complete frontier onto the entries a
    later call sees, and the reconstitution of a stored compaction. Ranges are
    in [SemanticEntry]. *)

From S2P Require Import Prelude ModelSettings ModelCall Delegation Frontier SemanticEntry.

(** ** The dedicated call *)

Record ContextCompactionTokenUsage := mkUsage {
  input_tokens : option N;
  output_tokens : option N;
  cache_creation_input_tokens : option N;
  cache_read_input_tokens : option N;
}.

Definition unreported : ContextCompactionTokenUsage := mkUsage None None None None.

Definition with_input_tokens (self : ContextCompactionTokenUsage) (value : option N) :
    ContextCompactionTokenUsage :=
  mkUsage value (output_tokens self) (cache_creation_input_tokens self) (cache_read_input_tokens self).
Definition with_output_tokens (self : ContextCompactionTokenUsage) (value : option N) :
    ContextCompactionTokenUsage :=
  mkUsage (input_tokens self) value (cache_creation_input_tokens self) (cache_read_input_tokens self).
Definition with_cache_creation_input_tokens (self : ContextCompactionTokenUsage) (value : option N) :
    ContextCompactionTokenUsage :=
  mkUsage (input_tokens self) (output_tokens self) value (cache_read_input_tokens self).
Definition with_cache_read_input_tokens (self : ContextCompactionTokenUsage) (value : option N) :
    ContextCompactionTokenUsage :=
  mkUsage (input_tokens self) (output_tokens self) (cache_creation_input_tokens self) value.

Definition is_unreported (self : ContextCompactionTokenUsage) : bool :=
  bool_decide (input_tokens self = None) && bool_decide (output_tokens self = None)
  && bool_decide (cache_creation_input_tokens self = None)
  && bool_decide (cache_read_input_tokens self = None).

Inductive ContextCompactionModelCallState :=
| CompactionPrepared
| CompactionInFlight
| CompactionTerminal (disposition : ModelCallDisposition).

#[export] Instance ContextCompactionModelCallState_eq_dec : EqDecision ContextCompactionModelCallState.
Proof. solve_decision. Defined.

Record ContextCompactionModelCall := mkCompactionCall {
  compaction_call_id : ModelCallId;
  compaction_call_session : SessionId;
  compaction_call_selection : DirectModelSelection;
  compaction_call_target : ResolvedProviderTarget;
  compaction_call_source_frontier : ContextFrontier;
  compaction_call_state : ContextCompactionModelCallState;
  compaction_call_usage : ContextCompactionTokenUsage;
}.

Record ContextCompactionModelCallReconstitutionInput := mkCompactionCallInput {
  input_call : ContextCompactionModelCall;
}.

(** [ContextCompactionModelCallReconstitutionInput::new] *)
Definition compaction_call_input_new (id : ModelCallId) (session : SessionId)
    (selection : DirectModelSelection) (target : ResolvedProviderTarget)
    (source_frontier : ContextFrontierId) (state : ContextCompactionModelCallState)
    (usage : ContextCompactionTokenUsage) : ContextCompactionModelCallReconstitutionInput :=
  mkCompactionCallInput
    (mkCompactionCall id session selection target (mkFrontier session source_frontier) state usage).

Inductive ContextCompactionModelCallReconstitutionFailure := CallFrontierMismatch | UsageBeforeTerminal.

(** ** Tool exchanges *)

(** One iteration: the open requests after an entry, [None] for [return false]. *)
Definition exchange_step (open_requests : N) (entry : SemanticTranscriptEntry) : option N :=
  match semantic_payload entry with
  | AssistantToolUse _ _ => Some (N.min (open_requests + 1) u64_max)
  | ToolExecutionResult _ | ToolDenied _ | ToolInadmissible _ | ToolClosed _
  | DelegationResult _ _ _ ForegroundWait _ _ =>
      if (open_requests =? 0)%N then None else Some (open_requests - 1)%N
  | _ => Some open_requests
  end.

Fixpoint exchange_loop (open_requests : N) (entries : list SemanticTranscriptEntry) : option N :=
  match entries with
  | [] => Some open_requests
  | entry :: entries =>
      open_requests ← exchange_step open_requests entry; exchange_loop open_requests entries
  end.

Definition range_closes_tool_exchanges (entries : list SemanticTranscriptEntry) : bool :=
  bool_decide (exchange_loop 0 entries = Some 0%N).

(** ** The projection *)

Record ContextFrontierProjection := mkProjection {
  projection_ordered_entries : list SemanticTranscriptEntryRef;
}.

Inductive ContextFrontierProjectionFailure :=
| ProjectionRangeStartMismatch
| ProjectionRangeEndpointMissing
| ProjectionRangeOrderInvalid
| ProjectionUnsafeToolExchangeBoundary
| SummaryNotAfterBoundary.

Definition references_is (wanted : SemanticTranscriptEntryRef) (entry : SemanticTranscriptEntry) : bool :=
  bool_decide (reference entry = wanted).

(** The map collected from [(reference, index)]: a later entry replaces an
    earlier one. *)
Definition physical_positions (entries : list SemanticTranscriptEntry) :
    gmap SemanticTranscriptEntryRef nat :=
  list_to_map (reverse (imap (fun index entry => (reference entry, index)) entries)).

(** One iteration of the loop over the entries. *)
Definition apply_entry (positions : gmap SemanticTranscriptEntryRef nat) (summary_index : nat)
    (summary : SemanticTranscriptEntry) (visible : list SemanticTranscriptEntry) :
    exec ContextFrontierProjectionFailure (list SemanticTranscriptEntry) :=
  match semantic_payload summary with
  | ContextSummary _ summarized _ =>
      first ← exec_ok_or (position (references_is (range_first summarized)) visible)
                ProjectionRangeEndpointMissing;
      if negb (bool_decide (first = 0)) then Rejected ProjectionRangeStartMismatch else
      through ← exec_ok_or (position (references_is (range_through summarized)) visible)
                  ProjectionRangeEndpointMissing;
      if (through <? first)%nat then Rejected ProjectionRangeOrderInvalid else
      range ← slice_or_panic visible first (through + 1);
      if negb (range_closes_tool_exchanges range) then Rejected ProjectionUnsafeToolExchangeBoundary else
      physical_through ← or_panic (positions !! range_through summarized);
      visible_summary ← exec_ok_or (position (references_is (reference summary)) visible)
                          ProjectionRangeEndpointMissing;
      if (summary_index <=? physical_through)%nat || (visible_summary <=? through)%nat
      then Rejected SummaryNotAfterBoundary else
      rest ← slice_or_panic visible (through + 1) (length visible);
      Returned (summary :: filter (fun entry => reference entry <> reference summary) rest)
  | _ => Returned visible
  end.

Fixpoint apply_entries (positions : gmap SemanticTranscriptEntryRef nat) (index : nat)
    (entries visible : list SemanticTranscriptEntry) :
    exec ContextFrontierProjectionFailure (list SemanticTranscriptEntry) :=
  match entries with
  | [] => Returned visible
  | entry :: entries =>
      visible ← apply_entry positions index entry visible;
      apply_entries positions (S index) entries visible
  end.

(** [ContextFrontierProjection::from_complete_entries] *)
Definition from_complete_entries (entries : list SemanticTranscriptEntry) :
    exec ContextFrontierProjectionFailure ContextFrontierProjection :=
  visible ← apply_entries (physical_positions entries) 0 entries entries;
  Returned (mkProjection (reference <$> visible)).

(** ** Reconstitution *)

Record ContextCompaction := mkCompaction {
  compaction_id : ContextCompactionId;
  compaction_session : SessionId;
  compaction_predecessor : option ContextCompactionId;
  compaction_source_frontier : ContextFrontier;
  compaction_result_frontier : ContextFrontier;
  compaction_producing_call : ModelCallId;
  compaction_range : ContextCompactionRange;
  compaction_summary_entry : SemanticTranscriptEntryId;
}.

Record ContextCompactionReconstitutionInput := mkCompactionInput {
  stored_compaction_id : ContextCompactionId;
  stored_compaction_session : SessionId;
  stored_predecessor : option ContextCompactionId;
  stored_source_frontier : ContextFrontier;
  stored_result_frontier : ContextFrontier;
  stored_compaction_call : ModelCallId;
  stored_range : ContextCompactionRange;
  stored_summary_entry : SemanticTranscriptEntryId;
}.

(** [ContextCompactionReconstitutionInput::new] *)
Definition compaction_input_new (id : ContextCompactionId) (session : SessionId)
    (predecessor : option ContextCompactionId) (source_frontier result_frontier : ContextFrontierId)
    (producing_call : ModelCallId) (range : ContextCompactionRange)
    (summary_entry : SemanticTranscriptEntryId) : ContextCompactionReconstitutionInput :=
  mkCompactionInput id session predecessor (mkFrontier session source_frontier)
    (mkFrontier session result_frontier) producing_call range summary_entry.

Inductive ContextCompactionReconstitutionFailure :=
| FrontierSessionMismatch
| FrontierIdentityMismatch
| FrontierEntryMismatch
| SourceProjectionInvalid
| SummaryEntryMismatch
| SummaryPayloadMismatch
| CompactionRangeEndpointMissing
| CompactionRangeStartMismatch
| CompactionRangeOrderInvalid
| CompactionUnsafeToolExchangeBoundary
| ResultIsNotSummaryAppend
| ProducingCallMismatch.

(** [map_err] and [?] over code that may panic *)
Definition exec_map_err {E F A} (f : E -> F) (m : exec E A) : exec F A :=
  match m with Returned a => Returned a | Rejected e => Rejected (f e) | Panicked => Panicked end.

(** [entries_by_reference], collected as [physical_positions] is. *)
Definition entries_by_reference (entries : list SemanticTranscriptEntry) :
    gmap SemanticTranscriptEntryRef SemanticTranscriptEntry :=
  list_to_map (reverse ((fun entry => (reference entry, entry)) <$> entries)).

(** [map(|reference| entries_by_reference[&reference]).collect()] *)
Fixpoint index_all {E} (by_reference : gmap SemanticTranscriptEntryRef SemanticTranscriptEntry)
    (references : list SemanticTranscriptEntryRef) : exec E (list SemanticTranscriptEntry) :=
  match references with
  | [] => Returned []
  | wanted :: references =>
      entry ← or_panic (by_reference !! wanted);
      entries ← index_all by_reference references;
      Returned (entry :: entries)
  end.

Section reconstitute.
Context {Snap : Type} `{ContextSnapshots Snap}.

(** [ContextCompactionModelCallReconstitutionInput::reconstitute] *)
Definition compaction_call_reconstitute (self : ContextCompactionModelCallReconstitutionInput)
    (source : Snap) :
    result ContextCompactionModelCallReconstitutionFailure ContextCompactionModelCall :=
  let call := input_call self in
  if negb (bool_decide (owning_session (compaction_call_source_frontier call)
                        = compaction_call_session call))
     || negb (bool_decide (snapshot_frontier source = compaction_call_source_frontier call))
  then Err CallFrontierMismatch else
  if match compaction_call_state call with CompactionTerminal _ => false | _ => true end
     && negb (is_unreported (compaction_call_usage call))
  then Err UsageBeforeTerminal else Ok call.

(** The checks before the range: sessions, frontiers, the producing call, the
    summary and the entries of both snapshots. *)
Definition check_compaction_facts (self : ContextCompactionReconstitutionInput) (source appended : Snap)
    (source_entries result_entries : list SemanticTranscriptEntry) (summary : SemanticTranscriptEntry)
    (call : ContextCompactionModelCall) : exec ContextCompactionReconstitutionFailure unit :=
  if negb (bool_decide (owning_session (stored_source_frontier self) = stored_compaction_session self))
     || negb (bool_decide (owning_session (stored_result_frontier self) = stored_compaction_session self))
  then Rejected FrontierSessionMismatch else
  if negb (bool_decide (snapshot_frontier source = stored_source_frontier self))
     || negb (bool_decide (snapshot_frontier appended = stored_result_frontier self))
  then Rejected FrontierIdentityMismatch else
  if negb (bool_decide (compaction_call_id call = stored_compaction_call self))
     || negb (bool_decide (compaction_call_session call = stored_compaction_session self))
     || negb (bool_decide (compaction_call_source_frontier call = stored_source_frontier self))
     || negb (bool_decide (compaction_call_state call = CompactionTerminal CallCompleted))
  then Rejected ProducingCallMismatch else
  if negb (bool_decide (semantic_source_session summary = stored_compaction_session self))
     || negb (bool_decide (semantic_identity summary = stored_summary_entry self))
  then Rejected SummaryEntryMismatch else
  match semantic_payload summary with
  | ContextSummary producing_call summarized _ =>
      if negb (bool_decide (producing_call = stored_compaction_call self))
         || negb (bool_decide (summarized = stored_range self))
      then Rejected SummaryPayloadMismatch else
      if negb (bool_decide (length source_entries = length (snapshot_entries source)))
         || negb (bool_decide (length result_entries = length (snapshot_entries appended)))
         || negb (bool_decide (reference <$> source_entries = snapshot_entries source))
         || negb (bool_decide (reference <$> result_entries = snapshot_entries appended))
      then Rejected FrontierEntryMismatch else Returned tt
  | _ => Rejected SummaryPayloadMismatch
  end.

(** [ContextCompactionReconstitutionInput::reconstitute] *)
Definition compaction_reconstitute (self : ContextCompactionReconstitutionInput) (source appended : Snap)
    (source_entries result_entries : list SemanticTranscriptEntry) (summary : SemanticTranscriptEntry)
    (call : ContextCompactionModelCall) :
    exec ContextCompactionReconstitutionFailure ContextCompaction :=
  _ ← check_compaction_facts self source appended source_entries result_entries summary call;
  source_projection ← exec_map_err (fun _ => SourceProjectionInvalid)
                        (from_complete_entries source_entries);
  visible_entries ← index_all (entries_by_reference source_entries)
                      (projection_ordered_entries source_projection);
  first ← exec_ok_or (position (references_is (range_first (stored_range self))) visible_entries)
            CompactionRangeEndpointMissing;
  through ← exec_ok_or (position (references_is (range_through (stored_range self))) visible_entries)
              CompactionRangeEndpointMissing;
  if negb (bool_decide (first = 0)) then Rejected CompactionRangeStartMismatch else
  if (through <? first)%nat then Rejected CompactionRangeOrderInvalid else
  range ← slice_or_panic visible_entries first (through + 1);
  if negb (range_closes_tool_exchanges range) then Rejected CompactionUnsafeToolExchangeBoundary else
  if negb (bool_decide (length result_entries = length source_entries + 1)) then
    Rejected ResultIsNotSummaryAppend
  else
    prefix ← slice_or_panic result_entries 0 (length source_entries);
    if negb (bool_decide (prefix = source_entries))
       || negb (bool_decide (last result_entries = Some summary))
    then Rejected ResultIsNotSummaryAppend else
    Returned
      (mkCompaction (stored_compaction_id self) (stored_compaction_session self)
         (stored_predecessor self) (stored_source_frontier self) (stored_result_frontier self)
         (stored_compaction_call self) (stored_range self) (stored_summary_entry self)).
End reconstitute.
