(* ===== verification/ContextCompactionSpec.v ===== *)
(** * Context compaction: theorems

    What a call sees of a complete frontier is defined entry by entry: an entry
    is appended, and a summary replaces the prefix it names. The projection
    computes exactly that, never panics and never splits a tool exchange, and a
    stored compaction is reconstituted exactly when its summary extends the
    projection of its source. *)

From stdpp Require Import strings.
From S2P Require Import Prelude ModelSettings ModelCall Delegation Frontier FrontierSpec SemanticEntry ContextCompaction.

(** ** Tool exchanges *)

Lemma exchange_loop_app n a b :
  exchange_loop n (a ++ b) = (m ← exchange_loop n a; exchange_loop m b).
Proof.
  revert n. induction a as [|e a IH]; intros n; [done|]. simpl.
  destruct (exchange_step n e); [apply IH|done].
Qed.

Lemma closes_spec entries : range_closes_tool_exchanges entries = true <-> exchange_loop 0 entries = Some 0%N.
Proof. apply bool_decide_eq_true. Qed.

(** ** The entries a call sees *)

Definition summary_of (entry : SemanticTranscriptEntry) : option ContextCompactionRange :=
  match semantic_payload entry with ContextSummary _ summarized _ => Some summarized | _ => None end.

(** A summary names this visible prefix, which leaves no exchange open. *)
Definition summarizes (range : ContextCompactionRange) (prefix : list SemanticTranscriptEntry) : Prop :=
  reference <$> head prefix = Some (range_first range)
  /\ reference <$> last prefix = Some (range_through range)
  /\ exchange_loop 0 prefix = Some 0%N.

(** How one entry changes what is visible. *)
Inductive sees (visible : list SemanticTranscriptEntry) (entry : SemanticTranscriptEntry) :
    list SemanticTranscriptEntry -> Prop :=
| sees_entry : summary_of entry = None -> sees visible entry (visible ++ [entry])
| sees_summary range prefix suffix :
    summary_of entry = Some range -> visible = prefix ++ suffix -> summarizes range prefix ->
    sees visible entry (entry :: suffix).

Inductive sees_all : list SemanticTranscriptEntry -> list SemanticTranscriptEntry ->
    list SemanticTranscriptEntry -> Prop :=
| sees_nil visible : sees_all visible [] visible
| sees_cons visible entry visible' entries visible'' :
    sees visible entry visible' -> sees_all visible' entries visible'' ->
    sees_all visible (entry :: entries) visible''.

Lemma sees_all_app visible a b visible'' :
  sees_all visible (a ++ b) visible'' <->
  exists visible', sees_all visible a visible' /\ sees_all visible' b visible''.
Proof.
  revert visible. induction a as [|e a IH]; intros visible; simpl.
  - split; [intros Hb; exists visible; split; [constructor|done]|].
    intros (v & Hv & Hb). by inversion Hv; subst.
  - split.
    + inversion 1 as [|? ? v ? ? Hs Hall]; subst. apply IH in Hall as (v' & Ha & Hb).
      exists v'. split; [by econstructor|done].
    + intros (v' & Ha & Hb). inversion Ha as [|? ? v ? ? Hs Hall]; subst.
      econstructor; [done|]. apply IH. by exists v'.
Qed.

(** ** Positions *)

Lemma position_reference l i e :
  NoDup (reference <$> l) -> l !! i = Some e -> position (references_is (reference e)) l = Some i.
Proof.
  intros Hnd Hi. apply position_Some. unfold references_is. split.
  - exists e. split; [done|]. by apply bool_decide_eq_true.
  - intros j x Hj Hx. apply bool_decide_eq_false. intros Heq.
    assert (j = i); [|lia]. eapply (NoDup_lookup _ _ _ (reference e) Hnd); rewrite list_lookup_fmap.
    + by rewrite Hx, <- Heq.
    + by rewrite Hi.
Qed.

Lemma position_reference_Some l r i :
  position (references_is r) l = Some i -> exists e, l !! i = Some e /\ reference e = r.
Proof.
  intros [(e & He & Hr) _]%position_Some. exists e. split; [done|]. by apply bool_decide_eq_true in Hr.
Qed.

Lemma fmap_reference_imap entries :
  (imap (fun index entry => (reference entry, index)) entries).*1 = reference <$> entries.
Proof.
  rewrite fmap_imap. rewrite <- (imap_const reference). apply imap_ext. done.
Qed.

Lemma reverse_keys {B} (l : list (SemanticTranscriptEntryRef * B)) :
  NoDup l.*1 -> NoDup (reverse l).*1.
Proof. intros Hnd. rewrite fmap_reverse. by rewrite reverse_Permutation. Qed.

Lemma physical_positions_lookup entries i e :
  NoDup (reference <$> entries) -> entries !! i = Some e ->
  physical_positions entries !! reference e = Some i.
Proof.
  intros Hnd Hi. unfold physical_positions. apply elem_of_list_to_map_1.
  - apply reverse_keys. by rewrite fmap_reference_imap.
  - apply elem_of_reverse. apply elem_of_lookup_imap. by exists i, e.
Qed.

Lemma entries_by_reference_lookup entries e :
  NoDup (reference <$> entries) -> e ∈ entries -> entries_by_reference entries !! reference e = Some e.
Proof.
  intros Hnd He. unfold entries_by_reference. apply elem_of_list_to_map_1.
  - apply reverse_keys. rewrite <- list_fmap_compose. done.
  - apply elem_of_reverse. apply list_elem_of_fmap. by exists e.
Qed.

Lemma filter_all {A} (P : A -> Prop) `{forall x, Decision (P x)} (l : list A) :
  (forall x, x ∈ l -> P x) -> filter P l = l.
Proof.
  induction l as [|x l IH]; intros Hall; [done|]. rewrite filter_cons_True by (apply Hall; left).
  f_equal. apply IH. intros y Hy. apply Hall. by right.
Qed.

Lemma filter_reference a e b :
  NoDup (reference <$> a ++ e :: b) ->
  filter (fun entry => reference entry <> reference e) (a ++ e :: b) = a ++ b.
Proof.
  rewrite fmap_app, fmap_cons, NoDup_app, NoDup_cons. intros (_ & Hab & He & _).
  rewrite filter_app, filter_cons_False by naive_solver.
  f_equal; apply filter_all; intros x Hx Heq.
  - apply (Hab (reference e)); [rewrite <- Heq; by apply list_elem_of_fmap_2|left].
  - apply He. rewrite <- Heq. by apply list_elem_of_fmap_2.
Qed.

(** ** One entry *)

Lemma exec_if_Rejected {E A} (b : bool) (e : E) (m : exec E A) a :
  (if b then Rejected e else m) = Returned a <-> b = false /\ m = Returned a.
Proof. destruct b; naive_solver. Qed.

Lemma or_panic_Returned {E A} (o : option A) a : @or_panic E A o = Returned a <-> o = Some a.
Proof. destruct o; simpl; naive_solver. Qed.

Lemma slice_Returned {E A} (l : list A) i j s :
  @slice_or_panic E A l i j = Returned s <-> i <= j /\ j <= length l /\ s = take (j - i) (drop i l).
Proof.
  unfold slice_or_panic. destruct (Nat.leb_spec i j), (Nat.leb_spec j (length l)); simpl;
    (split; [intros [=]; subst; done || lia|]); intros (? & ? & ->); done || lia.
Qed.

(** The state of the loop before an entry: the rest is still visible. *)
Record loop_state (done_ : list SemanticTranscriptEntry) (visible : list SemanticTranscriptEntry)
    (rest : list SemanticTranscriptEntry) : Prop := {
  loop_entries_NoDup : NoDup (reference <$> done_ ++ rest);
  loop_visible_NoDup : NoDup (reference <$> visible ++ rest);
  loop_visible_done e : e ∈ visible -> e ∈ done_;
}.

Lemma summary_payload entry range :
  summary_of entry = Some range <->
  exists call value, semantic_payload entry = ContextSummary call range value.
Proof. unfold summary_of. destruct (semantic_payload entry); naive_solver. Qed.

Lemma apply_entry_plain positions index entry visible :
  summary_of entry = None -> apply_entry positions index entry visible = Returned visible.
Proof. unfold summary_of, apply_entry. by destruct (semantic_payload entry). Qed.

(** The prefix of a range in a list of distinct entries. *)
Lemma summarizes_take l range t :
  position (references_is (range_first range)) l = Some 0 ->
  position (references_is (range_through range)) l = Some t ->
  exchange_loop 0 (take (t + 1) l) = Some 0%N -> summarizes range (take (t + 1) l).
Proof.
  unfold summarizes.
  intros (f & Hf & <-)%position_reference_Some (e & He & <-)%position_reference_Some Hcloses.
  pose proof (lookup_lt_Some _ _ _ He). split_and!; [| |done].
  - rewrite head_lookup, lookup_take_lt by lia. by rewrite Hf.
  - rewrite last_lookup, length_take, Nat.min_l by lia. rewrite lookup_take_lt by lia.
    replace (pred (t + 1)) with t by lia. by rewrite He.
Qed.

Lemma summarizes_positions prefix suffix range :
  NoDup (reference <$> prefix ++ suffix) -> summarizes range prefix ->
  exists e, e ∈ prefix /\ reference e = range_through range /\ 0 < length prefix
    /\ position (references_is (range_first range)) (prefix ++ suffix) = Some 0
    /\ position (references_is (range_through range)) (prefix ++ suffix) = Some (length prefix - 1).
Proof.
  intros Hnd ((f & Hf & ->)%fmap_Some & (t & Ht & ->)%fmap_Some & _).
  rewrite head_lookup in Hf. rewrite last_lookup in Ht.
  pose proof (lookup_lt_Some _ _ _ Hf). exists t. split_and!; [by eapply list_elem_of_lookup_2|done|lia|..].
  - apply position_reference; [done|]. by rewrite lookup_app_l by lia.
  - apply position_reference; [done|]. rewrite lookup_app_l by lia.
    by replace (length prefix - 1) with (pred (length prefix)) by lia.
Qed.

Lemma slice_prefix {E A} (prefix suffix : list A) :
  @slice_or_panic E A (prefix ++ suffix) 0 (length prefix) = Returned prefix.
Proof.
  apply slice_Returned. rewrite length_app, drop_0, Nat.sub_0_r, take_app_length. split_and!; [lia..|done].
Qed.

Lemma slice_suffix {E A} (prefix suffix : list A) :
  @slice_or_panic E A (prefix ++ suffix) (length prefix) (length (prefix ++ suffix)) = Returned suffix.
Proof.
  apply slice_Returned. rewrite length_app, drop_app_length, take_ge by lia. split_and!; [lia..|done].
Qed.

(** What remains of a summary's checks, once the prefix is found. *)
Lemma apply_summary_iff done_ visible entry rest range visible' :
  loop_state done_ visible (entry :: rest) -> summary_of entry = Some range ->
  apply_entry (physical_positions (done_ ++ entry :: rest)) (length done_) entry
    (visible ++ entry :: rest) = Returned visible' <->
  exists prefix suffix, visible = prefix ++ suffix /\ summarizes range prefix
    /\ visible' = (entry :: suffix) ++ rest.
Proof.
  intros [Hnd Hvnd Hsub] (call & value & Hpayload)%summary_payload. unfold apply_entry. rewrite Hpayload.
  set (l := visible ++ entry :: rest).
  assert (l !! length visible = Some entry) as Hentry by (by subst l; rewrite list_lookup_middle).
  pose proof (position_reference l _ entry Hvnd Hentry) as Hpos.
  rewrite exec_bind_Returned. setoid_rewrite exec_ok_or_Returned. split.
  - intros (first & Hfirst & Hrun). apply exec_if_Rejected in Hrun as [Hzero Hrun].
    apply negb_false_iff, bool_decide_eq_true in Hzero as ->.
    apply exec_bind_Returned in Hrun as (through & Hthrough%exec_ok_or_Returned & Hrun).
    apply exec_if_Rejected in Hrun as [_ Hrun].
    apply exec_bind_Returned in Hrun as (slice & Hslice%slice_Returned & Hrun).
    apply exec_if_Rejected in Hrun as [Hcloses%negb_false_iff%closes_spec Hrun].
    apply exec_bind_Returned in Hrun as (physical & _ & Hrun).
    apply exec_bind_Returned in Hrun as (at_ & Hat%exec_ok_or_Returned & Hrun).
    rewrite Hpos in Hat. injection Hat as <-.
    apply exec_if_Rejected in Hrun as [[_ Hbound%Nat.leb_gt]%orb_false_iff Hrun].
    apply exec_bind_Returned in Hrun as (after & Hafter%slice_Returned & [= <-]).
    destruct Hslice as (_ & _ & ->). destruct Hafter as (_ & _ & ->).
    rewrite drop_0, Nat.sub_0_r in Hcloses.
    pose proof (summarizes_take l range through Hfirst Hthrough Hcloses) as Hprefix. subst l.
    rewrite take_app_le in Hprefix by lia.
    rewrite (take_ge (drop _ _)) by (rewrite length_drop; lia). rewrite drop_app_le by lia.
    exists (take (through + 1) visible), (drop (through + 1) visible).
    split_and!; [by rewrite take_drop|done|]. simpl. f_equal. apply filter_reference.
    rewrite <- (take_drop (through + 1) visible), <- app_assoc, fmap_app in Hvnd.
    by apply NoDup_app in Hvnd as (_ & _ & ?).
  - intros (prefix & suffix & -> & Hprefix & ->). subst l. rewrite <- app_assoc in *.
    destruct (summarizes_positions _ _ _ Hvnd Hprefix) as (t & Ht & Href & Hlen & Hfirst & Hthrough).
    exists 0. split; [done|]. rewrite bool_decide_eq_true_2 by done. cbn [negb].
    rewrite Hthrough. cbn [exec_ok_or mbind exec_bind]. rewrite (proj2 (Nat.ltb_ge _ _)) by lia.
    replace (length prefix - 1 + 1) with (length prefix) by lia.
    rewrite slice_prefix. cbn [mbind exec_bind]. destruct Hprefix as (_ & _ & Hcloses).
    rewrite (proj2 (closes_spec prefix)) by done. cbn [negb].
    assert (t ∈ done_) as [k Hk]%list_elem_of_lookup by (apply Hsub; set_solver).
    rewrite <- Href, (physical_positions_lookup _ k t Hnd) by (by apply lookup_app_l_Some).
    cbn [or_panic mbind exec_bind]. rewrite Hpos. cbn [exec_ok_or mbind exec_bind].
    rewrite (proj2 (Nat.leb_gt _ _)) by (by eapply lookup_lt_Some).
    rewrite (proj2 (Nat.leb_gt _ _)) by (rewrite length_app; lia). cbn [orb].
    rewrite slice_suffix. cbn [mbind exec_bind]. f_equal. simpl. f_equal. apply filter_reference.
    rewrite fmap_app in Hvnd. by apply NoDup_app in Hvnd as (_ & _ & ?).
Qed.

Lemma sees_subset visible entry visible' x :
  sees visible entry visible' -> x ∈ visible' -> x ∈ visible \/ x = entry.
Proof. destruct 1 as [|range prefix suffix _ -> _]; set_solver. Qed.

Lemma sees_NoDup visible entry visible' rest :
  sees visible entry visible' -> NoDup (reference <$> visible ++ entry :: rest) ->
  NoDup (reference <$> visible' ++ rest).
Proof.
  destruct 1 as [|range prefix suffix _ -> _]; [by rewrite <- app_assoc|].
  rewrite <- app_assoc, fmap_app. intros (_ & _ & Hnd)%NoDup_app. simpl.
  revert Hnd. rewrite !fmap_app, fmap_cons. by rewrite <- Permutation_middle.
Qed.

Lemma loop_state_step done_ visible entry rest visible' :
  loop_state done_ visible (entry :: rest) -> sees visible entry visible' ->
  loop_state (done_ ++ [entry]) visible' rest.
Proof.
  intros [Hnd Hvnd Hsub] Hs. split.
  - by rewrite <- app_assoc.
  - by eapply sees_NoDup.
  - intros x Hx. destruct (sees_subset _ _ _ _ Hs Hx) as [Hx'| ->]; set_solver.
Qed.

Lemma apply_entry_iff done_ visible entry rest visible' :
  loop_state done_ visible (entry :: rest) ->
  apply_entry (physical_positions (done_ ++ entry :: rest)) (length done_) entry
    (visible ++ entry :: rest) = Returned visible' <->
  exists seen, sees visible entry seen /\ visible' = seen ++ rest.
Proof.
  intros Hstate. destruct (summary_of entry) as [range|] eqn:Hsummary.
  - rewrite (apply_summary_iff _ _ _ _ _ _ Hstate Hsummary). split.
    + intros (prefix & suffix & Hv & Hs & ->). exists (entry :: suffix). split; [by econstructor|done].
    + intros (seen & Hs & ->). destruct Hs as [|range' prefix suffix Hr Hv Hp]; [congruence|].
      exists prefix, suffix. replace range with range' by congruence. done.
  - rewrite apply_entry_plain by done. split.
    + intros [= <-]. exists (visible ++ [entry]). split; [by constructor|]. by rewrite <- app_assoc.
    + intros (seen & Hs & ->). destruct Hs as [|range' prefix suffix Hr Hv Hp]; [|congruence].
      by rewrite <- app_assoc.
Qed.

Lemma apply_entries_iff entries done_ visible visible' :
  loop_state done_ visible entries ->
  apply_entries (physical_positions (done_ ++ entries)) (length done_) entries (visible ++ entries)
  = Returned visible' <-> sees_all visible entries visible'.
Proof.
  revert done_ visible. induction entries as [|e entries IH]; intros done_ visible Hstate.
  - cbn [apply_entries]. rewrite app_nil_r. split; [intros [= <-]; constructor|]. by inversion 1; subst.
  - cbn [apply_entries]. rewrite exec_bind_Returned. setoid_rewrite (apply_entry_iff _ _ _ _ _ Hstate).
    replace (S (length done_)) with (length (done_ ++ [e])) by (rewrite length_app; simpl; lia).
    replace (done_ ++ e :: entries) with ((done_ ++ [e]) ++ entries) by by rewrite <- app_assoc.
    split.
    + intros (v & (seen & Hs & ->) & Hrun). econstructor; [done|].
      apply IH in Hrun; [done|by eapply loop_state_step].
    + inversion 1 as [|? ? seen ? ? Hs Hall]; subst. exists (seen ++ entries). split; [by exists seen|].
      apply IH; [by eapply loop_state_step|done].
Qed.

Lemma from_complete_entries_iff entries p :
  NoDup (reference <$> entries) ->
  from_complete_entries entries = Returned p <->
  exists visible, sees_all [] entries visible /\ p = mkProjection (reference <$> visible).
Proof.
  intros Hnd. unfold from_complete_entries. rewrite exec_bind_Returned.
  assert (loop_state [] [] entries) as Hstate by (split; [done..|set_solver]).
  setoid_rewrite (apply_entries_iff entries [] [] _ Hstate). naive_solver.
Qed.

(** ** Panics *)

Lemma slice_not_Panicked {E A} (l : list A) i j : i <= j -> j <= length l -> @slice_or_panic E A l i j <> Panicked.
Proof. intros ? ?. unfold slice_or_panic. by rewrite !(proj2 (Nat.leb_le _ _)). Qed.

Lemma exec_bind_not_Panicked {E A B} (m : exec E A) (k : A -> exec E B) :
  m <> Panicked -> (forall a, m = Returned a -> k a <> Panicked) -> (m ≫= k) <> Panicked.
Proof. destruct m; simpl; naive_solver. Qed.

Lemma exec_ok_or_not_Panicked {E A} (o : option A) (e : E) : exec_ok_or o e <> Panicked.
Proof. by destruct o. Qed.

Lemma exec_if_not_Panicked {E A} (b : bool) (e : E) (m : exec E A) :
  (b = false -> m <> Panicked) -> (if b then Rejected e else m) <> Panicked.
Proof. destruct b; naive_solver. Qed.

Lemma apply_entry_not_Panicked positions index entry visible :
  (forall e, e ∈ visible -> is_Some (positions !! reference e)) ->
  apply_entry positions index entry visible <> Panicked.
Proof.
  intros Hpositions. unfold apply_entry. destruct (semantic_payload entry); try done.
  apply exec_bind_not_Panicked; [apply exec_ok_or_not_Panicked|]. intros first _.
  apply exec_if_not_Panicked. intros ->%negb_false_iff%bool_decide_eq_true.
  apply exec_bind_not_Panicked; [apply exec_ok_or_not_Panicked|].
  intros through (t & Ht & Href)%exec_ok_or_Returned%position_reference_Some.
  pose proof (lookup_lt_Some _ _ _ Ht) as Hlt.
  apply exec_if_not_Panicked. intros _.
  apply exec_bind_not_Panicked; [apply slice_not_Panicked; lia|]. intros slice _.
  apply exec_if_not_Panicked. intros _.
  apply exec_bind_not_Panicked.
  { rewrite <- Href. destruct (Hpositions t) as [k ->]; [by eapply list_elem_of_lookup_2|done]. }
  intros physical _. apply exec_bind_not_Panicked; [apply exec_ok_or_not_Panicked|]. intros at_ _.
  apply exec_if_not_Panicked. intros _.
  apply exec_bind_not_Panicked; [apply slice_not_Panicked; lia|done].
Qed.

Lemma physical_positions_is_Some entries e :
  e ∈ entries -> is_Some (physical_positions entries !! reference e).
Proof.
  intros [i Hi]%list_elem_of_lookup.
  destruct (physical_positions entries !! reference e) as [k|] eqn:Hk; [by exists k|].
  apply not_elem_of_list_to_map_2 in Hk. destruct Hk.
  rewrite fmap_reverse, elem_of_reverse, fmap_reference_imap. apply list_elem_of_fmap_2.
  by eapply list_elem_of_lookup_2.
Qed.

Lemma apply_entry_subset positions index entry visible visible' x :
  apply_entry positions index entry visible = Returned visible' ->
  x ∈ visible' -> x ∈ visible \/ x = entry.
Proof.
  unfold apply_entry. destruct (semantic_payload entry); try (by intros [= <-]; left).
  intros (? & _ & [_ H1]%exec_if_Rejected)%exec_bind_Returned.
  apply exec_bind_Returned in H1 as (? & _ & [_ H1]%exec_if_Rejected).
  apply exec_bind_Returned in H1 as (? & _ & [_ H1]%exec_if_Rejected).
  apply exec_bind_Returned in H1 as (? & _ & H1).
  apply exec_bind_Returned in H1 as (? & _ & [_ H1]%exec_if_Rejected).
  apply exec_bind_Returned in H1 as (after & (_ & _ & ->)%slice_Returned & [= <-]).
  intros [->|Hx]%elem_of_cons; [by right|left].
  apply list_elem_of_filter in Hx as [_ Hx].
  apply list_elem_of_lookup in Hx as [i Hi]. apply lookup_take_Some in Hi as [Hi _].
  rewrite lookup_drop in Hi. by eapply list_elem_of_lookup_2.
Qed.

Lemma apply_entries_not_Panicked positions index entries visible :
  (forall e, e ∈ visible ++ entries -> is_Some (positions !! reference e)) ->
  apply_entries positions index entries visible <> Panicked.
Proof.
  revert index visible. induction entries as [|e entries IH]; intros index visible Hpositions; [done|].
  cbn [apply_entries]. apply exec_bind_not_Panicked.
  - apply apply_entry_not_Panicked. intros x Hx. apply Hpositions. set_solver.
  - intros visible' Hv. apply IH. intros x [Hx|Hx]%elem_of_app; [|apply Hpositions; set_solver].
    destruct (apply_entry_subset _ _ _ _ _ _ Hv Hx) as [Hx'| ->]; apply Hpositions; set_solver.
Qed.

Lemma from_complete_entries_not_Panicked entries : from_complete_entries entries <> Panicked.
Proof.
  apply exec_bind_not_Panicked; [|done]. apply apply_entries_not_Panicked.
  intros e He. apply physical_positions_is_Some. set_solver.
Qed.

(** ** What is visible *)

Lemma sees_exchanges visible entry visible' :
  sees visible entry visible' ->
  exchange_loop 0 visible' = exchange_loop 0 (visible ++ [entry]).
Proof.
  destruct 1 as [|range prefix suffix Hs -> (_ & _ & Hcloses)]; [done|].
  apply summary_payload in Hs as (call & value & Hp).
  rewrite <- app_assoc, !exchange_loop_app, Hcloses. cbn [mbind option_bind].
  rewrite exchange_loop_app. cbn [exchange_loop]. unfold exchange_step. rewrite Hp.
  cbn [mbind option_bind]. by destruct (exchange_loop 0 suffix).
Qed.

Lemma sees_all_exchanges visible entries visible' :
  sees_all visible entries visible' ->
  exchange_loop 0 visible' = exchange_loop 0 (visible ++ entries).
Proof.
  induction 1 as [|visible entry visible' entries visible'' Hs _ IH]; [by rewrite app_nil_r|].
  rewrite IH, exchange_loop_app, (sees_exchanges _ _ _ Hs), <- exchange_loop_app, <- app_assoc. done.
Qed.

Definition is_summary (entry : SemanticTranscriptEntry) : Prop := is_Some (summary_of entry).

#[export] Instance is_summary_dec entry : Decision (is_summary entry).
Proof. unfold is_summary. apply _. Defined.

Definition plain (entries : list SemanticTranscriptEntry) : list SemanticTranscriptEntry :=
  filter (fun entry => ~ is_summary entry) entries.

Definition latest_summary (entries : list SemanticTranscriptEntry) : option SemanticTranscriptEntry :=
  last (filter is_summary entries).

(** The latest summary and the plain entries after some boundary; every entry
    when there is no summary. *)
Definition compacted_view (entries visible : list SemanticTranscriptEntry) : Prop :=
  match latest_summary entries with
  | None => visible = entries
  | Some summary => exists boundary, visible = summary :: plain (drop boundary entries)
  end.

Lemma plain_suffix entries a b : plain entries = a ++ b -> exists k, k <= length entries /\ plain (drop k entries) = b.
Proof.
  unfold plain. revert a. induction entries as [|e entries IH]; intros a Heq.
  { exists 0. destruct a, b; simpl in *; done || (split; [lia|done]). }
  destruct a as [|x a]; [exists 0; split; [lia|done]|].
  destruct (decide (is_summary e)) as [Hs|Hs].
  - rewrite filter_cons_False in Heq by tauto. destruct (IH (x :: a) Heq) as (k & Hk & Hb).
    exists (S k). simpl. split; [lia|done].
  - rewrite filter_cons_True in Heq by done. injection Heq as -> Heq.
    destruct (IH a Heq) as (k & Hk & Hb). exists (S k). simpl. split; [lia|done].
Qed.

Lemma latest_none entries : latest_summary entries = None -> plain entries = entries.
Proof.
  unfold latest_summary. intros Hn%last_None. apply filter_all. intros x Hx Hs.
  assert (x ∈ filter is_summary entries) as Hin by (by apply list_elem_of_filter).
  rewrite Hn in Hin. set_solver.
Qed.

Lemma latest_snoc entries entry :
  latest_summary (entries ++ [entry])
  = if decide (is_summary entry) then Some entry else latest_summary entries.
Proof.
  unfold latest_summary. rewrite filter_app. case_decide as Hs.
  - rewrite filter_cons_True, filter_nil by done. by rewrite last_snoc.
  - rewrite filter_cons_False, filter_nil by done. by rewrite app_nil_r.
Qed.

Lemma plain_drop_snoc boundary entries entry :
  boundary <= length entries ->
  plain (drop boundary (entries ++ [entry]))
  = plain (drop boundary entries) ++ (if decide (is_summary entry) then [] else [entry]).
Proof.
  intros Hb. unfold plain. rewrite drop_app_le by done. rewrite filter_app. f_equal. case_decide as Hs.
  - by rewrite filter_cons_False, filter_nil by tauto.
  - by rewrite filter_cons_True, filter_nil by done.
Qed.

Definition bounded_view (entries visible : list SemanticTranscriptEntry) : Prop :=
  match latest_summary entries with
  | None => visible = entries
  | Some summary =>
      exists boundary, boundary <= length entries /\ visible = summary :: plain (drop boundary entries)
  end.

Lemma sees_view entries visible entry visible' :
  bounded_view entries visible -> sees visible entry visible' -> bounded_view (entries ++ [entry]) visible'.
Proof.
  intros Hview Hs. unfold bounded_view in *. rewrite latest_snoc.
  destruct Hs as [Hplain|range prefix suffix Hsummary -> (Hfirst & _)].
  - assert (~ is_summary entry) as Hn by (unfold is_summary; rewrite Hplain; by intros []).
    rewrite decide_False by done. destruct (latest_summary entries); [|by subst].
    destruct Hview as (b & Hb & ->). exists b. split; [rewrite length_app; lia|].
    rewrite plain_drop_snoc, decide_False by done. done.
  - assert (is_summary entry) as Hy by (unfold is_summary; rewrite Hsummary; by eexists).
    rewrite decide_True by done.
    assert (exists k, k <= length entries /\ plain (drop k entries) = suffix) as (k & Hk & Hsuffix).
    { destruct (latest_summary entries) eqn:Hl.
      - destruct Hview as (b & Hb & Heq). destruct prefix as [|p prefix]; [done|].
        injection Heq as -> Heq. symmetry in Heq.
        destruct (plain_suffix _ _ _ Heq) as (k & Hk & Hsuf). exists (b + k).
        rewrite length_drop in Hk. rewrite <- drop_drop. split; [lia|done].
      - subst entries. eapply (plain_suffix _ prefix). by apply latest_none. }
    exists k. split; [rewrite length_app; lia|].
    rewrite plain_drop_snoc, decide_True, app_nil_r by done. by rewrite Hsuffix.
Qed.

Lemma sees_all_view entries done_ visible visible' :
  bounded_view done_ visible -> sees_all visible entries visible' ->
  bounded_view (done_ ++ entries) visible'.
Proof.
  revert done_ visible. induction entries as [|e entries IH]; intros done_ visible Hv Hall.
  - inversion Hall; subst. by rewrite app_nil_r.
  - inversion Hall as [|? ? seen ? ? Hs Hrest]; subst.
    replace (done_ ++ e :: entries) with ((done_ ++ [e]) ++ entries) by by rewrite <- app_assoc.
    eapply IH; [|done]. by eapply sees_view.
Qed.

(** C16. The projection of a complete frontier never panics; it succeeds exactly
    when every summary names a prefix of what was visible before it that leaves
    no tool exchange open, and then an entry is seen in its order and a summary
    in place of the prefix it names. *)
Theorem projection_exact entries (Hdistinct : NoDup (reference <$> entries)) :
  from_complete_entries entries <> Panicked
  /\ forall projection,
       from_complete_entries entries = Returned projection <->
       exists visible, sees_all [] entries visible
         /\ projection = mkProjection (reference <$> visible).
Proof.
  split; [apply from_complete_entries_not_Panicked|]. intros p. by apply from_complete_entries_iff.
Qed.

(** A projection shows the latest summary and after it only entries that are
    no summaries, those after one boundary of the complete frontier, in their
    order; without a summary it shows everything. It leaves open exactly the
    tool exchanges the complete frontier leaves open, so no result is shown
    without its request. *)
Theorem projection_latest_summary entries projection
    (Hdistinct : NoDup (reference <$> entries))
    (Hprojection : from_complete_entries entries = Returned projection) :
  exists visible, projection = mkProjection (reference <$> visible)
    /\ compacted_view entries visible
    /\ exchange_loop 0 visible = exchange_loop 0 entries.
Proof.
  apply from_complete_entries_iff in Hprojection as (visible & Hall & ->); [|done].
  exists visible. split; [done|]. split; [|by apply sees_all_exchanges in Hall].
  assert (bounded_view ([] ++ entries) visible) as Hview by (by eapply sees_all_view).
  unfold bounded_view, compacted_view in *. simpl in Hview.
  destruct (latest_summary entries); [|done]. destruct Hview as (b & _ & ->). by exists b.
Qed.

(** ** Reconstitution *)

Lemma sees_all_subset visible entries visible' x :
  sees_all visible entries visible' -> x ∈ visible' -> x ∈ visible ++ entries.
Proof.
  induction 1 as [|visible entry visible' entries visible'' Hs _ IH]; [set_solver|].
  intros [Hx|Hx]%IH%elem_of_app; [|set_solver].
  destruct (sees_subset _ _ _ _ Hs Hx) as [?| ->]; set_solver.
Qed.

Lemma sees_all_NoDup visible entries visible' :
  sees_all visible entries visible' -> NoDup (reference <$> visible ++ entries) ->
  NoDup (reference <$> visible').
Proof.
  induction 1 as [|visible entry visible' entries visible'' Hs _ IH]; [by rewrite app_nil_r|].
  intros Hnd. apply IH. by eapply sees_NoDup.
Qed.

Lemma visible_entries entries visible :
  sees_all [] entries visible -> forall e, e ∈ visible -> e ∈ entries.
Proof. intros Hall e He. by apply (sees_all_subset [] entries visible). Qed.

Lemma visible_NoDup entries visible :
  sees_all [] entries visible -> NoDup (reference <$> entries) -> NoDup (reference <$> visible).
Proof. intros Hall Hnd. by apply (sees_all_NoDup [] entries visible). Qed.

Lemma index_all_Returned {E} entries visible :
  NoDup (reference <$> entries) -> (forall e, e ∈ visible -> e ∈ entries) ->
  @index_all E (entries_by_reference entries) (reference <$> visible) = Returned visible.
Proof.
  intros Hnd. induction visible as [|e visible IH]; intros Hsub; [done|]. rewrite fmap_cons.
  cbn [index_all]. rewrite entries_by_reference_lookup by (done || (apply Hsub; left)).
  cbn [or_panic mbind exec_bind]. rewrite IH; [done|]. intros x Hx. apply Hsub. by right.
Qed.

Lemma exec_if_or {E A} (b c : bool) (e : E) (m : exec E A) a :
  (if b || c then Rejected e else m) = Returned a <-> b = false /\ c = false /\ m = Returned a.
Proof. destruct b, c; naive_solver. Qed.

Section reconstitution.
Context {Snap : Type} `{ContextSnapshotsLaws Snap}.
Implicit Types (self : ContextCompactionReconstitutionInput) (source appended : Snap)
  (summary : SemanticTranscriptEntry) (call : ContextCompactionModelCall).

(** The stored facts agree with the snapshots, the call and the summary. *)
Record facts_agree self source appended (source_entries result_entries : list SemanticTranscriptEntry)
    summary call : Prop := {
  agree_source_session : owning_session (stored_source_frontier self) = stored_compaction_session self;
  agree_result_session : owning_session (stored_result_frontier self) = stored_compaction_session self;
  agree_source : snapshot_frontier source = stored_source_frontier self;
  agree_result : snapshot_frontier appended = stored_result_frontier self;
  agree_call : compaction_call_id call = stored_compaction_call self;
  agree_call_session : compaction_call_session call = stored_compaction_session self;
  agree_call_frontier : compaction_call_source_frontier call = stored_source_frontier self;
  agree_call_state : compaction_call_state call = CompactionTerminal CallCompleted;
  agree_summary :
    reference summary = from_source (stored_compaction_session self) (stored_summary_entry self);
  agree_payload : exists value,
    semantic_payload summary = ContextSummary (stored_compaction_call self) (stored_range self) value;
  agree_source_entries : reference <$> source_entries = snapshot_entries source;
  agree_result_entries : reference <$> result_entries = snapshot_entries appended;
}.

Lemma check_compaction_facts_Returned self source appended source_entries result_entries summary call u :
  check_compaction_facts self source appended source_entries result_entries summary call = Returned u <->
  facts_agree self source appended source_entries result_entries summary call.
Proof.
  unfold check_compaction_facts. rewrite !exec_if_or.
  rewrite !orb_false_iff, !negb_false_iff, !bool_decide_eq_true. destruct u. split.
  - intros (? & ? & ? & ? & ((? & ?) & ?) & ? & ? & ? & Hpayload).
    destruct (semantic_payload summary) eqn:Hp; try done.
    rewrite exec_if_or, exec_if_or, !orb_false_iff, !negb_false_iff, !bool_decide_eq_true in Hpayload.
    destruct Hpayload as (-> & -> & ((_ & _) & ?) & ? & _).
    split; try done; [unfold reference; congruence|by eexists].
  - intros []. destruct agree_payload0 as [value Hp]. rewrite Hp.
    unfold reference in agree_summary0. injection agree_summary0 as ? ?.
    rewrite exec_if_or, exec_if_or, !orb_false_iff, !negb_false_iff, !bool_decide_eq_true.
    split_and!; try done; by rewrite <- (length_fmap reference); congruence.
Qed.

(** A stored compaction that its snapshots and its call bear out: the result is
    the source and the summary of a closed visible prefix. *)
Definition compaction_legal self source appended source_entries result_entries summary call : Prop :=
  facts_agree self source appended source_entries result_entries summary call
  /\ result_entries = source_entries ++ [summary]
  /\ exists prefix suffix, sees_all [] source_entries (prefix ++ suffix)
       /\ summarizes (stored_range self) prefix.

Definition compaction_of self : ContextCompaction :=
  mkCompaction (stored_compaction_id self) (stored_compaction_session self) (stored_predecessor self)
    (stored_source_frontier self) (stored_result_frontier self) (stored_compaction_call self)
    (stored_range self) (stored_summary_entry self).

(** The last check: the result is the source and the summary. *)
Lemma summary_append_Returned self source_entries result_entries summary c :
  (if negb (bool_decide (length result_entries = length source_entries + 1)) then
     Rejected ResultIsNotSummaryAppend
   else
     prefix ← slice_or_panic result_entries 0 (length source_entries);
     if negb (bool_decide (prefix = source_entries))
        || negb (bool_decide (last result_entries = Some summary))
     then Rejected ResultIsNotSummaryAppend else Returned (compaction_of self)) = Returned c <->
  result_entries = source_entries ++ [summary] /\ c = compaction_of self.
Proof.
  rewrite exec_if_Rejected, negb_false_iff, bool_decide_eq_true, exec_bind_Returned. split.
  - intros (Hlen & prefix & (_ & _ & ->)%slice_Returned & Hrun).
    rewrite exec_if_or, !negb_false_iff, !bool_decide_eq_true in Hrun. destruct Hrun as (Hp & Hl & [= <-]).
    split; [|done]. rewrite drop_0, Nat.sub_0_r in Hp.
    apply last_Some in Hl as [init ->]. rewrite length_app in Hlen. simpl in Hlen.
    rewrite take_app_le, take_ge in Hp by lia. by subst.
  - intros [-> ->]. rewrite length_app. split; [done|]. exists source_entries.
    split; [apply slice_prefix|]. by rewrite last_snoc, !bool_decide_eq_true_2.
Qed.

Lemma snapshot_references source entries :
  snapshot_wf source -> reference <$> entries = snapshot_entries source -> NoDup (reference <$> entries).
Proof. intros Hwf ->. by apply snapshot_entries_NoDup. Qed.

(** What the checks of the range accept, once the projection is known. *)
Lemma range_checks_Returned {A} range visible (next : exec ContextCompactionReconstitutionFailure A) a :
  NoDup (reference <$> visible) ->
  (first ← exec_ok_or (position (references_is (range_first range)) visible)
             CompactionRangeEndpointMissing;
   through ← exec_ok_or (position (references_is (range_through range)) visible)
               CompactionRangeEndpointMissing;
   if negb (bool_decide (first = 0)) then Rejected CompactionRangeStartMismatch else
   if (through <? first)%nat then Rejected CompactionRangeOrderInvalid else
   slice ← slice_or_panic visible first (through + 1);
   if negb (range_closes_tool_exchanges slice) then Rejected CompactionUnsafeToolExchangeBoundary
   else next) = Returned a <->
  (exists prefix suffix, visible = prefix ++ suffix /\ summarizes range prefix) /\ next = Returned a.
Proof.
  intros Hnd. rewrite exec_bind_Returned. setoid_rewrite exec_ok_or_Returned. split.
  - intros (first & Hfirst & (through & Hthrough%exec_ok_or_Returned & Hrun)%exec_bind_Returned).
    apply exec_if_Rejected in Hrun as [->%negb_false_iff%bool_decide_eq_true [_ Hrun]%exec_if_Rejected].
    apply exec_bind_Returned in Hrun as (slice & (_ & _ & ->)%slice_Returned & Hrun).
    apply exec_if_Rejected in Hrun as [Hcloses%negb_false_iff%closes_spec Hnext]. split; [|done].
    rewrite drop_0, Nat.sub_0_r in Hcloses.
    exists (take (through + 1) visible), (drop (through + 1) visible).
    split; [by rewrite take_drop|by apply summarizes_take].
  - intros [(prefix & suffix & -> & Hprefix) Hnext].
    destruct (summarizes_positions _ _ _ Hnd Hprefix) as (t & _ & _ & Hlen & Hfirst & Hthrough).
    exists 0. split; [done|]. rewrite Hthrough. cbn [exec_ok_or mbind exec_bind].
    rewrite bool_decide_eq_true_2 by done. cbn [negb]. rewrite (proj2 (Nat.ltb_ge _ _)) by lia.
    replace (length prefix - 1 + 1) with (length prefix) by lia. rewrite slice_prefix.
    cbn [mbind exec_bind]. destruct Hprefix as (_ & _ & Hcloses).
    by rewrite (proj2 (closes_spec prefix)).
Qed.

Lemma compaction_reconstitute_Returned self source appended source_entries result_entries summary call c :
  snapshot_wf source ->
  compaction_reconstitute self source appended source_entries result_entries summary call = Returned c <->
  compaction_legal self source appended source_entries result_entries summary call
  /\ c = compaction_of self.
Proof.
  intros Hwf. unfold compaction_reconstitute. rewrite exec_bind_Returned. unfold compaction_legal. split.
  - intros (u & Hfacts%check_compaction_facts_Returned & Hrun).
    assert (NoDup (reference <$> source_entries)) as Hnd
      by (eapply snapshot_references; [exact Hwf|apply Hfacts]).
    apply exec_bind_Returned in Hrun as (projection & Hprojection & Hrun).
    destruct (from_complete_entries source_entries) as [p| |] eqn:Hp; try done.
    injection Hprojection as <-. apply from_complete_entries_iff in Hp as (visible & Hall & ->); [|done].
    cbn [projection_ordered_entries] in Hrun.
    rewrite index_all_Returned in Hrun; [|done|by apply visible_entries].
    cbn [mbind exec_bind] in Hrun. apply range_checks_Returned in Hrun as [(prefix & suffix & -> & Hpre) Hrun];
      [|by eapply visible_NoDup].
    apply summary_append_Returned in Hrun as [-> ->]. split_and!; try done. by exists prefix, suffix.
  - intros ((Hfacts & -> & prefix & suffix & Hall & Hprefix) & ->).
    assert (NoDup (reference <$> source_entries)) as Hnd
      by (eapply snapshot_references; [exact Hwf|apply Hfacts]).
    exists tt. split; [by apply check_compaction_facts_Returned|].
    rewrite (proj2 (from_complete_entries_iff _ _ Hnd) (ex_intro _ _ (conj Hall eq_refl))).
    cbn [exec_map_err mbind exec_bind projection_ordered_entries].
    rewrite index_all_Returned; [|done|by apply visible_entries].
    cbn [mbind exec_bind]. apply range_checks_Returned; [by eapply sees_all_NoDup|].
    split; [by exists prefix, suffix|]. by apply summary_append_Returned.
Qed.

(** C18. Reconstituting a stored compaction never panics, and succeeds exactly when
    its facts agree with both snapshots, the completed call and the summary, the
    result is the source with the summary appended, and the summarized range is
    a prefix of what the source shows that leaves no tool exchange open. *)
Theorem compaction_reconstitution_exact self source appended source_entries result_entries summary call
    (Hsource : snapshot_wf source) :
  compaction_reconstitute self source appended source_entries result_entries summary call <> Panicked
  /\ forall compaction,
       compaction_reconstitute self source appended source_entries result_entries summary call
       = Returned compaction <->
       compaction_legal self source appended source_entries result_entries summary call
       /\ compaction = compaction_of self.
Proof.
  split; [|intros c; by apply compaction_reconstitute_Returned].
  unfold compaction_reconstitute. apply exec_bind_not_Panicked.
  { unfold check_compaction_facts. do 4 (apply exec_if_not_Panicked; intros _).
    destruct (semantic_payload summary); try done. do 2 (apply exec_if_not_Panicked; intros _). done. }
  intros u Hfacts%check_compaction_facts_Returned.
  assert (NoDup (reference <$> source_entries)) as Hnd
    by (eapply snapshot_references; [exact Hsource|apply Hfacts]).
  apply exec_bind_not_Panicked.
  { pose proof (from_complete_entries_not_Panicked source_entries).
    by destruct (from_complete_entries source_entries). }
  intros projection Hprojection.
  destruct (from_complete_entries source_entries) as [p| |] eqn:Hp; try done.
  injection Hprojection as <-. apply from_complete_entries_iff in Hp as (visible & Hall & ->); [|done].
  cbn [projection_ordered_entries]. rewrite index_all_Returned; [|done|by apply visible_entries].
  cbn [mbind exec_bind]. apply exec_bind_not_Panicked; [apply exec_ok_or_not_Panicked|].
  intros first _. apply exec_bind_not_Panicked; [apply exec_ok_or_not_Panicked|].
  intros through (t & Ht & _)%exec_ok_or_Returned%position_reference_Some.
  pose proof (lookup_lt_Some _ _ _ Ht). apply exec_if_not_Panicked.
  intros ->%negb_false_iff%bool_decide_eq_true. apply exec_if_not_Panicked. intros _.
  apply exec_bind_not_Panicked; [apply slice_not_Panicked; lia|]. intros slice _.
  apply exec_if_not_Panicked. intros _. apply exec_if_not_Panicked.
  intros Hlen%negb_false_iff%bool_decide_eq_true.
  apply exec_bind_not_Panicked; [apply slice_not_Panicked; lia|]. intros prefix _.
  by apply exec_if_not_Panicked.
Qed.

(** A reconstituted compaction does to the projection what its record says:
    the source shows the summarized range and then some entries, and the result
    shows the summary and then the same entries. *)
Theorem compaction_result_projects self source appended source_entries result_entries summary call
    compaction (Hsource : snapshot_wf source) (Hresult : snapshot_wf appended)
    (Hcompaction : compaction_reconstitute self source appended source_entries result_entries summary call
                   = Returned compaction) :
  exists range rest,
    from_complete_entries source_entries = Returned (mkProjection (reference <$> range ++ rest))
    /\ summarizes (compaction_range compaction) range
    /\ from_complete_entries result_entries
       = Returned (mkProjection (reference <$> summary :: rest)).
Proof.
  apply compaction_reconstitute_Returned in Hcompaction
    as ((Hfacts & -> & prefix & suffix & Hall & Hprefix) & ->); [|done].
  exists prefix, suffix. split_and!; [|done|].
  - apply from_complete_entries_iff; [|by eexists].
    eapply snapshot_references; [exact Hsource|apply Hfacts].
  - apply from_complete_entries_iff.
    { eapply snapshot_references; [exact Hresult|apply Hfacts]. }
    exists (summary :: suffix). split; [|done]. apply sees_all_app. exists (prefix ++ suffix).
    split; [done|]. destruct (agree_payload _ _ _ _ _ _ _ Hfacts) as [value Hpayload].
    econstructor; [|constructor]. eapply sees_summary; [|done|exact Hprefix].
    unfold summary_of. by rewrite Hpayload.
Qed.
End reconstitution.

(** ** Witnesses *)

Definition compaction_entry (n : N) (payload : SemanticTranscriptEntryPayload) : SemanticTranscriptEntry :=
  from_validated_parts (from_uuid n) (from_uuid 1) payload.

Definition sample_source_entries : list SemanticTranscriptEntry :=
  [compaction_entry 1 (AssistantToolUse (from_uuid 8) (from_uuid 9));
   compaction_entry 2 (ToolDenied (from_uuid 9));
   compaction_entry 3 (TurnCompleted (from_uuid 7))].

Definition sample_range : ContextCompactionRange :=
  inclusive (from_source (from_uuid 1) (from_uuid 1)) (from_source (from_uuid 1) (from_uuid 2)).

Definition sample_summary : SemanticTranscriptEntry :=
  compaction_entry 4 (ContextSummary (from_uuid 20) sample_range
    (mkAssistantText (mkUnicodeText "compact history"%string))).

Definition sample_appended_entries : list SemanticTranscriptEntry :=
  sample_source_entries ++ [sample_summary].

Lemma projection_exact_witness :
  NoDup (reference <$> sample_appended_entries)
  /\ from_complete_entries sample_appended_entries <> Panicked.
Proof.
  assert (NoDup (reference <$> sample_appended_entries)) as Hnd by (by apply (bool_decide_unpack _)).
  split; [exact Hnd|]. exact (proj1 (projection_exact sample_appended_entries Hnd)).
Defined.

Lemma projection_latest_summary_witness :
  exists visible,
    mkProjection [reference sample_summary; from_source (from_uuid 1) (from_uuid 3)]
    = mkProjection (reference <$> visible)
    /\ exchange_loop 0 visible = exchange_loop 0 sample_appended_entries.
Proof.
  destruct (projection_latest_summary sample_appended_entries
              (mkProjection [reference sample_summary; from_source (from_uuid 1) (from_uuid 3)]))
    as (visible & Hv & _ & He).
  - by apply (bool_decide_unpack _).
  - vm_compute. reflexivity.
  - exists visible. split; [exact Hv|exact He].
Defined.

Definition snapshot_from (n : N) (entries : list SemanticTranscriptEntry) :
    @ResolvedContextFrontierSnapshot reference_rpds :=
  mkSnapshot (mkFrontier (from_uuid 1) (from_uuid n))
    (from_distinct 1%positive (from_uuid n) (reference <$> entries)).

Definition sample_compaction_call : ContextCompactionModelCall :=
  mkCompactionCall (from_uuid 20) (from_uuid 1) (from_uuid 30) (naming (from_uuid 31))
    (mkFrontier (from_uuid 1) (from_uuid 10)) (CompactionTerminal CallCompleted) unreported.

Definition sample_compaction_input : ContextCompactionReconstitutionInput :=
  compaction_input_new (from_uuid 40) (from_uuid 1) None (from_uuid 10) (from_uuid 11) (from_uuid 20)
    sample_range (from_uuid 4).

Lemma snapshot_from_wf n entries :
  bool_decide (NoDup (reference <$> entries)) = true -> snapshot_wf (snapshot_from n entries).
Proof.
  intros Hnd%bool_decide_eq_true. pose proof (from_distinct_wf 1%positive (from_uuid n) (reference <$> entries)) as Hwf.
  split; [exact Hwf|]. by rewrite <- from_distinct_entries with (token := 1%positive) (i := from_uuid n) in Hnd.
Qed.

Lemma compaction_reconstitution_exact_witness :
  compaction_reconstitute sample_compaction_input (snapshot_from 10 sample_source_entries)
    (snapshot_from 11 sample_appended_entries) sample_source_entries sample_appended_entries
    sample_summary sample_compaction_call <> Panicked.
Proof.
  apply (compaction_reconstitution_exact sample_compaction_input (snapshot_from 10 sample_source_entries)
    (snapshot_from 11 sample_appended_entries) sample_source_entries sample_appended_entries
    sample_summary sample_compaction_call).
  apply snapshot_from_wf. vm_compute. reflexivity.
Defined.

Lemma compaction_result_projects_witness :
  exists range rest,
    from_complete_entries sample_source_entries = Returned (mkProjection (reference <$> range ++ rest))
    /\ from_complete_entries sample_appended_entries
       = Returned (mkProjection (reference <$> sample_summary :: rest)).
Proof.
  destruct (compaction_result_projects sample_compaction_input (snapshot_from 10 sample_source_entries)
    (snapshot_from 11 sample_appended_entries) sample_source_entries sample_appended_entries
    sample_summary sample_compaction_call (compaction_of sample_compaction_input))
    as (range & rest & Hsource & _ & Hresult).
  - apply snapshot_from_wf. vm_compute. reflexivity.
  - apply snapshot_from_wf. vm_compute. reflexivity.
  - vm_compute. reflexivity.
  - exists range, rest. split; [exact Hsource|exact Hresult].
Defined.
