(* ===== verification/BatchProjection.v ===== *)
(** * Tool result projections

    Model of [crates/domain/src/tool_execution/batch/projection.rs] and of
    [PreparedToolResultProjection] in [tool_execution/batch.rs]: the transcript
    entries a tool batch closes with, one per request in proposal order, for a
    continuation, a failure, a cancellation and a reconciliation. *)

From S2P Require Import Prelude Configuration Tool ToolAttempt Frontier TurnAttempt TurnLifecycle ToolBatch Delegation SemanticEntry.

(** [RunnerToolEffectClass] of runner/catalog.rs *)
Inductive RunnerToolEffectClass := EffectPure | EffectIdempotent | EffectSideEffecting.

#[export] Instance RunnerToolEffectClass_eq_dec : EqDecision RunnerToolEffectClass.
Proof. solve_decision. Defined.

(** [ToolResultProjectionError] carries only its failure. *)
Inductive ToolResultProjectionFailure :=
| BatchNotResolved
| TurnLevelFailure
| EntryIdentityReuse
| FrontierDerivationFailed.

Abbreviation projection := (result ToolResultProjectionFailure).

(** The [any] over the identities, whose closure inserts each into [used]. *)
Fixpoint any_identity_reused (used : gset SemanticTranscriptEntryId)
    (entry_ids : list SemanticTranscriptEntryId) : bool :=
  match entry_ids with
  | [] => false
  | identity :: entry_ids =>
      bool_decide (identity ∈ used) || any_identity_reused ({[identity]} ∪ used) entry_ids
  end.

Section projection.
Context {Snap : Type} `{ContextSnapshots Snap}.

Record PreparedToolResultProjection := mkResultProjection {
  projected_source_frontier : ContextFrontierId;
  projected_turn : TurnId;
  projected_producing_call : ModelCallId;
  projected_result_entries : list SemanticTranscriptEntry;
  projected_snapshot : Snap;
}.

Abbreviation outcomes := (gmap ToolRequestId DelegationOutcome).

Definition used_identities (self : ToolBatch Snap) : gset SemanticTranscriptEntryId :=
  list_to_set (ref_entry <$> snapshot_entries (batch_yielded self)).

Definition child_wait_count (self : ToolBatch Snap) : nat :=
  length (List.filter is_child_wait (attempt_values (batch_attempts self))).

(** The payload of a delivered foreground child result. *)
Definition delegation_result (request : ToolRequest) (spawning_request : ToolRequestId)
    (child : SessionId) (outcome : DelegationOutcome) : SemanticTranscriptEntryPayload :=
  DelegationResult (request_id request) spawning_request child ForegroundWait None outcome.

(** The payload of one request of a continuation, and the outcomes left. *)
Definition result_payload (self : ToolBatch Snap) (delegation_outcomes : outcomes) (request : ToolRequest) :
    projection (SemanticTranscriptEntryPayload * outcomes) :=
  if bool_decide (is_Some (request_inadmissible_reason request))
  then Ok (ToolInadmissible (request_id request), delegation_outcomes) else
  match batch_approvals self !! request_id request with
  | Some resolution =>
      if is_approved resolution then
        match batch_attempts self !! request_id request with
        | Some (EndedAttempt attempt) =>
            match ended_tool_end attempt with
            | EndCompleted _ => Ok (ToolExecutionResult (ended_tool_id attempt), delegation_outcomes)
            | EndKnownFailed error =>
                if negb (bool_decide (error_kind error = CrashLost))
                then Ok (ToolExecutionResult (ended_tool_id attempt), delegation_outcomes)
                else Err TurnLevelFailure
            | EndAwaitingChild spawning_request child =>
                match delegation_outcomes !! request_id request with
                | Some outcome =>
                    Ok (delegation_result request spawning_request child outcome,
                        delete (request_id request) delegation_outcomes)
                | None => Err BatchNotResolved
                end
            | EndAmbiguous => Err TurnLevelFailure
            end
        | _ => Err BatchNotResolved
        end
      else Ok (ToolDenied (request_id request), delegation_outcomes)
  | None => Err BatchNotResolved
  end.

(** The payload of one request of a cancellation. *)
Definition cancellation_payload (self : ToolBatch Snap) (delegation_outcomes : outcomes)
    (request : ToolRequest) : projection (SemanticTranscriptEntryPayload * outcomes) :=
  if bool_decide (is_Some (request_inadmissible_reason request))
  then Ok (ToolInadmissible (request_id request), delegation_outcomes) else
  match batch_approvals self !! request_id request with
  | Some resolution =>
      if is_approved resolution then
        match batch_attempts self !! request_id request with
        | Some (EndedAttempt attempt) =>
            match ended_tool_end attempt with
            | EndCompleted _ | EndKnownFailed _ =>
                Ok (ToolExecutionResult (ended_tool_id attempt), delegation_outcomes)
            | EndAwaitingChild spawning_request child =>
                match delegation_outcomes !! request_id request with
                | Some outcome =>
                    Ok (delegation_result request spawning_request child outcome,
                        delete (request_id request) delegation_outcomes)
                | None => Ok (ToolClosed (request_id request), delegation_outcomes)
                end
            | EndAmbiguous => Err TurnLevelFailure
            end
        | Some (CurrentAttempt _) => Err BatchNotResolved
        | None => Ok (ToolClosed (request_id request), delegation_outcomes)
        end
      else Ok (ToolDenied (request_id request), delegation_outcomes)
  | None => Ok (ToolClosed (request_id request), delegation_outcomes)
  end.

(** The payload of one request of a reconciliation, which uses no outcomes. *)
Definition reconciliation_payload (self : ToolBatch Snap) (delegation_outcomes : outcomes)
    (request : ToolRequest) : projection (SemanticTranscriptEntryPayload * outcomes) :=
  if bool_decide (is_Some (request_inadmissible_reason request))
  then Ok (ToolInadmissible (request_id request), delegation_outcomes) else
  match batch_approvals self !! request_id request with
  | Some resolution =>
      if is_approved resolution then
        match batch_attempts self !! request_id request with
        | Some (EndedAttempt attempt) =>
            let result := (ToolExecutionResult (ended_tool_id attempt), delegation_outcomes) in
            let closed := (ToolClosed (request_id request), delegation_outcomes) in
            match ended_tool_end attempt with
            | EndCompleted _ => Ok result
            | EndKnownFailed error =>
                if negb (bool_decide (error_kind error = CrashLost)) then Ok result else Ok closed
            | EndAwaitingChild _ _ | EndAmbiguous => Ok closed
            end
        | None => Ok (ToolClosed (request_id request), delegation_outcomes)
        | Some (CurrentAttempt _) => Err BatchNotResolved
        end
      else Ok (ToolDenied (request_id request), delegation_outcomes)
  | None => Ok (ToolClosed (request_id request), delegation_outcomes)
  end.

(** The loop over the requests zipped with the entry identities. *)
Fixpoint project_requests (session : SessionId)
    (payload : outcomes -> ToolRequest -> projection (SemanticTranscriptEntryPayload * outcomes))
    (delegation_outcomes : outcomes) (requests : list (ToolRequest * SemanticTranscriptEntryId)) :
    projection (list SemanticTranscriptEntry * outcomes) :=
  match requests with
  | [] => Ok ([], delegation_outcomes)
  | (request, identity) :: requests =>
      '(value, delegation_outcomes) ← payload delegation_outcomes request;
      '(entries, delegation_outcomes) ← project_requests session payload delegation_outcomes requests;
      Ok (from_validated_parts identity session value :: entries, delegation_outcomes)
  end.

(** The end every projection shares: the snapshot derived from the yielded one. *)
Definition finish_projection (token : ContentToken) (self : ToolBatch Snap)
    (frontier : ContextFrontierId) (entries : list SemanticTranscriptEntry) :
    projection PreparedToolResultProjection :=
  snapshot ← map_err (fun _ => FrontierDerivationFailed)
    (snapshot_derive token (batch_yielded self) frontier (reference <$> entries));
  Ok (mkResultProjection (frontier_snapshot (snapshot_frontier (batch_yielded self))) (batch_turn self)
        (batch_producing_call self) entries snapshot).

Definition batch_executing (self : ToolBatch Snap) : bool :=
  match batch_phase self with BatchExecuting _ => true | _ => false end.

(** [prepare_result_projection_with_delegation] *)
Definition prepare_result_projection_with_delegation (token : ContentToken) (self : ToolBatch Snap)
    (entry_ids : list SemanticTranscriptEntryId) (continuation_frontier : ContextFrontierId)
    (delegation_outcomes : outcomes) : projection PreparedToolResultProjection :=
  if negb (batch_executing self) || negb (bool_decide (length entry_ids = length (batch_requests self)))
  then Err BatchNotResolved else
  if any_identity_reused (used_identities self) entry_ids then Err EntryIdentityReuse else
  if negb (bool_decide (size delegation_outcomes = child_wait_count self)) then Err BatchNotResolved else
  '(entries, left_over) ← project_requests (batch_session self) (result_payload self)
                            delegation_outcomes (zip (batch_requests self) entry_ids);
  if negb (bool_decide (left_over = ∅)) then Err BatchNotResolved else
  finish_projection token self continuation_frontier entries.

(** [prepare_result_projection] *)
Definition prepare_result_projection (token : ContentToken) (self : ToolBatch Snap)
    (entry_ids : list SemanticTranscriptEntryId) (continuation_frontier : ContextFrontierId) :
    projection PreparedToolResultProjection :=
  prepare_result_projection_with_delegation token self entry_ids continuation_frontier ∅.

(** [prepare_delegation_result_projection] *)
Definition prepare_delegation_result_projection (token : ContentToken) (self : ToolBatch Snap)
    (entry_ids : list SemanticTranscriptEntryId) (continuation_frontier : ContextFrontierId)
    (delegation_outcomes : outcomes) : projection PreparedToolResultProjection :=
  prepare_result_projection_with_delegation token self entry_ids continuation_frontier
    delegation_outcomes.

(** [prepare_cancellation_projection_with_delegation] *)
Definition prepare_cancellation_projection_with_delegation (token : ContentToken) (self : ToolBatch Snap)
    (entry_ids : list SemanticTranscriptEntryId) (result_frontier : ContextFrontierId)
    (closes_delegation_wait : bool) (delegation_outcomes : outcomes) :
    projection PreparedToolResultProjection :=
  let phase_can_close :=
    batch_executing self
    || (closes_delegation_wait
        && match batch_phase self with BatchAwaitingChild _ _ _ => true | _ => false end) in
  if negb phase_can_close || negb (bool_decide (length entry_ids = length (batch_requests self)))
     || existsb is_current (attempt_values (batch_attempts self))
  then Err BatchNotResolved else
  if any_identity_reused (used_identities self) entry_ids then Err EntryIdentityReuse else
  if negb (eqb closes_delegation_wait (0 <? child_wait_count self)%nat) then Err BatchNotResolved else
  '(entries, left_over) ← project_requests (batch_session self) (cancellation_payload self)
                            delegation_outcomes (zip (batch_requests self) entry_ids);
  if negb (bool_decide (left_over = ∅)) then Err BatchNotResolved else
  finish_projection token self result_frontier entries.

(** [prepare_cancellation_projection] *)
Definition prepare_cancellation_projection (token : ContentToken) (self : ToolBatch Snap)
    (entry_ids : list SemanticTranscriptEntryId) (result_frontier : ContextFrontierId) :
    projection PreparedToolResultProjection :=
  prepare_cancellation_projection_with_delegation token self entry_ids result_frontier false ∅.

(** [prepare_delegation_cancellation_projection] *)
Definition prepare_delegation_cancellation_projection (token : ContentToken) (self : ToolBatch Snap)
    (entry_ids : list SemanticTranscriptEntryId) (result_frontier : ContextFrontierId)
    (delegation_outcomes : outcomes) : projection PreparedToolResultProjection :=
  prepare_cancellation_projection_with_delegation token self entry_ids result_frontier true
    delegation_outcomes.

(** [prepare_failure_projection] *)
Definition prepare_failure_projection (token : ContentToken) (self : ToolBatch Snap)
    (entry_ids : list SemanticTranscriptEntryId) (result_frontier : ContextFrontierId) :
    projection PreparedToolResultProjection :=
  let attempts := attempt_values (batch_attempts self) in
  if negb (bool_decide (length (List.filter ended_crash_lost attempts) = 1))
     || existsb (fun attempt => is_current attempt || ended_ambiguous attempt) attempts
  then Err TurnLevelFailure else
  prepare_cancellation_projection token self entry_ids result_frontier.

(** The ended attempt of this identity, in the order of the map. *)
Definition find_ended (attempt : ToolAttemptId) (attempts : list ReconstitutedToolAttempt) :
    option EndedToolAttempt :=
  head (omap (fun candidate =>
    match candidate with
    | EndedAttempt ended => if bool_decide (ended_tool_id ended = attempt) then Some ended else None
    | CurrentAttempt _ => None
    end) attempts).

Definition effect_matches (effect : RunnerToolEffectClass) (class : ToolEffectClass) : bool :=
  match effect, class with
  | EffectPure, EffectFree => true
  | (EffectIdempotent | EffectSideEffecting), ExternalEffect => true
  | _, _ => false
  end.

(** [prepare_runner_retry_cancellation_projection] *)
Definition prepare_runner_retry_cancellation_projection (token : ContentToken) (self : ToolBatch Snap)
    (attempt : ToolAttemptId) (effect : RunnerToolEffectClass)
    (entry_ids : list SemanticTranscriptEntryId) (result_frontier : ContextFrontierId) :
    projection PreparedToolResultProjection :=
  stopped ← ok_or (find_ended attempt (attempt_values (batch_attempts self))) BatchNotResolved;
  let known_loss :=
    match ended_tool_end stopped with
    | EndKnownFailed error =>
        bool_decide (error_kind error = CrashLost) && bool_decide (error_detail error = None)
    | _ => false
    end in
  if negb (effect_matches effect (ended_tool_effect_class stopped))
     || negb (known_loss
              || (bool_decide (effect = EffectIdempotent)
                  && bool_decide (ended_tool_end stopped = EndAmbiguous)))
     || negb (batch_executing self
              || match batch_phase self with
                 | BatchAwaitingRecovery waiting => bool_decide (waiting = attempt)
                 | _ => false
                 end)
  then Err BatchNotResolved else
  prepare_cancellation_projection token
    (mkBatch (batch_session self) (batch_turn self) (batch_producing_call self) (batch_yielded self)
       (batch_requests self) (batch_approvals self)
       (delete (ended_tool_request stopped) (batch_attempts self)) (batch_retired self)
       (batch_issuance self) (BatchExecuting (ended_tool_issuing stopped)))
    entry_ids result_frontier.

(** [prepare_reconciliation_projection] *)
Definition prepare_reconciliation_projection (token : ContentToken) (self : ToolBatch Snap)
    (entry_ids : list SemanticTranscriptEntryId) (terminal_frontier : ContextFrontierId) :
    projection PreparedToolResultProjection :=
  if negb match batch_phase self with BatchAwaitingRecovery _ => true | _ => false end
     || negb (bool_decide (length entry_ids = length (batch_requests self)))
     || existsb is_current (attempt_values (batch_attempts self))
  then Err BatchNotResolved else
  if any_identity_reused (used_identities self) entry_ids then Err EntryIdentityReuse else
  '(entries, _) ← project_requests (batch_session self) (reconciliation_payload self) ∅
                    (zip (batch_requests self) entry_ids);
  finish_projection token self terminal_frontier entries.

(** [is_semantic_prefix_of], at the entries the two snapshots hold; the
    shortcut on shared content agrees with it ([FrontierSpec]). *)
Definition prefix_of_snapshot (self later : Snap) : bool :=
  bool_decide (snapshot_entries self = take (length (snapshot_entries self)) (snapshot_entries later)).

(** [with_context_boundary] *)
Definition with_context_boundary (self : PreparedToolResultProjection) (entry : SemanticTranscriptEntry)
    (snapshot : Snap) : projection PreparedToolResultProjection :=
  if negb match semantic_payload entry with
          | ContextSummary _ _ _ | RunnerPlacementChanged _ => true
          | _ => false
          end
     || negb (prefix_of_snapshot (projected_snapshot self) snapshot)
     || negb (bool_decide (length (snapshot_entries snapshot)
                           = length (snapshot_entries (projected_snapshot self)) + 1))
     || negb (bool_decide (last (snapshot_entries snapshot) = Some (reference entry)))
  then Err FrontierDerivationFailed else
  Ok (mkResultProjection (projected_source_frontier self) (projected_turn self)
        (projected_producing_call self) (projected_result_entries self ++ [entry]) snapshot).
End projection.
