(* ===== verification/BatchProjectionSpec.v ===== *)
(** * Tool result projections: theorems

    Every projection gives one entry per request, in proposal order, and closes
    exactly the tool exchanges of the batch. A continuation exists exactly when
    every request is resolved and the delivered outcomes are those awaited; a
    batch without a running attempt can always be closed. *)

From stdpp Require Import sets.
From S2P Require Import Prelude Configuration Tool ToolAttempt ToolAttemptSpec Frontier FrontierSpec TurnAttempt TurnLifecycle ToolBatch ToolBatchSpec ToolBatchDecisions ToolBatchSteps Delegation SemanticEntry ContextCompaction ContextCompactionSpec BatchProjection.

Section spec.
Context {Snap : Type} `{ContextSnapshotsLaws Snap}.
Implicit Types (self : ToolBatch Snap) (outcomes : gmap ToolRequestId DelegationOutcome)
  (request : ToolRequest) (p : PreparedToolResultProjection (Snap := Snap)).

(** ** Identities *)

Lemma any_identity_reused_false used ids :
  any_identity_reused used ids = false <-> NoDup ids /\ forall id, id ∈ ids -> id ∉ used.
Proof.
  revert used. induction ids as [|id ids IH]; intros used; simpl.
  { split; [|done]. intros _. split; [constructor|set_solver]. }
  rewrite orb_false_iff, IH, NoDup_cons, bool_decide_eq_false. set_solver.
Qed.

(** ** The loop over the requests *)

(** What a request closes with, and whether the outcome delivered for it is
    used; the three projections differ only in this function. *)
Abbreviation closing := (option DelegationOutcome -> ToolRequest ->
  projection (SemanticTranscriptEntryPayload * bool)).

Definition continuation_at self : closing := fun outcome request =>
  if bool_decide (is_Some (request_inadmissible_reason request))
  then Ok (ToolInadmissible (request_id request), false) else
  match batch_approvals self !! request_id request with
  | Some resolution =>
      if negb (is_approved resolution) then Ok (ToolDenied (request_id request), false) else
      match batch_attempts self !! request_id request with
      | Some (EndedAttempt attempt) =>
          match ended_tool_end attempt, outcome with
          | EndCompleted _, _ => Ok (ToolExecutionResult (ended_tool_id attempt), false)
          | EndKnownFailed error, _ =>
              if bool_decide (error_kind error = CrashLost) then Err TurnLevelFailure
              else Ok (ToolExecutionResult (ended_tool_id attempt), false)
          | EndAwaitingChild spawning child, Some outcome =>
              Ok (delegation_result request spawning child outcome, true)
          | EndAwaitingChild _ _, None => Err BatchNotResolved
          | EndAmbiguous, _ => Err TurnLevelFailure
          end
      | _ => Err BatchNotResolved
      end
  | None => Err BatchNotResolved
  end.

Definition cancellation_at self : closing := fun outcome request =>
  if bool_decide (is_Some (request_inadmissible_reason request))
  then Ok (ToolInadmissible (request_id request), false) else
  match batch_approvals self !! request_id request with
  | Some resolution =>
      if negb (is_approved resolution) then Ok (ToolDenied (request_id request), false) else
      match batch_attempts self !! request_id request with
      | Some (EndedAttempt attempt) =>
          match ended_tool_end attempt, outcome with
          | EndCompleted _, _ | EndKnownFailed _, _ =>
              Ok (ToolExecutionResult (ended_tool_id attempt), false)
          | EndAwaitingChild spawning child, Some outcome =>
              Ok (delegation_result request spawning child outcome, true)
          | EndAwaitingChild _ _, None => Ok (ToolClosed (request_id request), false)
          | EndAmbiguous, _ => Err TurnLevelFailure
          end
      | Some (CurrentAttempt _) => Err BatchNotResolved
      | None => Ok (ToolClosed (request_id request), false)
      end
  | None => Ok (ToolClosed (request_id request), false)
  end.

Definition reconciliation_at self : closing := fun _ request =>
  '(payload, _) ← reconciliation_payload self ∅ request; Ok (payload, false).

(** The loop's function reads and uses only the outcome of its own request. *)
Definition local (payload : gmap ToolRequestId DelegationOutcome -> ToolRequest ->
    projection (SemanticTranscriptEntryPayload * gmap ToolRequestId DelegationOutcome))
    (at_ : closing) : Prop :=
  forall outcomes request,
    payload outcomes request
    = ('(value, uses) ← at_ (outcomes !! request_id request) request;
       Ok (value, if (uses : bool) then delete (request_id request) outcomes else outcomes)).

Lemma continuation_local self : local (result_payload self) (continuation_at self).
Proof. intros outcomes request. unfold result_payload, continuation_at. repeat case_match; by simplify_eq/=. Qed.

Lemma cancellation_local self : local (cancellation_payload self) (cancellation_at self).
Proof. intros outcomes request. unfold cancellation_payload, cancellation_at. repeat case_match; by simplify_eq/=. Qed.

Lemma reconciliation_local self : local (reconciliation_payload self) (reconciliation_at self).
Proof.
  intros outcomes request. unfold reconciliation_at, reconciliation_payload.
  repeat case_match; by simplify_eq/=.
Qed.

Abbreviation zipped := (list (ToolRequest * SemanticTranscriptEntryId)).

(** The requests whose delivered outcome was used. *)
Definition used_requests (requests : zipped) (values : list (SemanticTranscriptEntryPayload * bool)) :
    list ToolRequestId :=
  omap (fun '((request, _), (_, uses)) => if (uses : bool) then Some (request_id request) else None)
    (zip requests values).

Definition entries_with (session : SessionId) (requests : zipped)
    (values : list (SemanticTranscriptEntryPayload * bool)) : list SemanticTranscriptEntry :=
  zip_with (fun pair value => from_validated_parts pair.2 session value.1) requests values.

Lemma Forall2_impl_elem {A B} (P Q : A -> B -> Prop) l k :
  Forall2 P l k -> (forall x y, x ∈ l -> P x y -> Q x y) -> Forall2 Q l k.
Proof.
  induction 1 as [|x y l k Hxy _ IH]; intros Himp; constructor; [apply Himp; [left|done]|].
  apply IH. intros a b Ha. apply Himp. by right.
Qed.

Lemma project_requests_spec session payload at_ outcomes requests entries left_over :
  local payload at_ -> NoDup (request_id ∘ fst <$> requests) ->
  project_requests session payload outcomes requests = Ok (entries, left_over) <->
  exists values,
    Forall2 (fun pair value => at_ (outcomes !! request_id pair.1) pair.1 = Ok value)
      requests values
    /\ entries = entries_with session requests values
    /\ forall q, left_over !! q = if decide (q ∈ used_requests requests values) then None else outcomes !! q.
Proof.
  intros Hlocal. revert outcomes entries left_over.
  induction requests as [|[request id] requests IH]; intros outcomes entries left_over Hnd.
  - cbn [project_requests]. split.
    + intros [= <- <-]. exists []. split_and!; [constructor|done|]. intros q. by rewrite decide_False by set_solver.
    + intros (values & Hall & -> & Hleft). apply Forall2_nil_inv_l in Hall as ->.
      cbn. do 2 f_equal. apply map_eq. intros q. rewrite Hleft. by rewrite decide_False by set_solver.
  - rewrite fmap_cons, NoDup_cons in Hnd. destruct Hnd as [Hfresh Hnd].
    cbn [project_requests]. rewrite Hlocal.
    set (next uses := if (uses : bool) then delete (request_id request) outcomes else outcomes).
    assert (forall uses r, r ∈ requests -> next uses !! request_id r.1 = outcomes !! request_id r.1) as Hnext.
    { intros uses r Hr. unfold next. destruct uses; [|done]. apply lookup_delete_ne. intros Heq.
      apply Hfresh. apply list_elem_of_fmap. by exists r. }
    assert (forall uses values,
      Forall2 (fun r value => at_ (next uses !! request_id r.1) r.1 = Ok value) requests values <->
      Forall2 (fun r value => at_ (outcomes !! request_id r.1) r.1 = Ok value) requests values) as Hsame.
    { intros uses values. split; intros Hall; (eapply Forall2_impl_elem; [exact Hall|]);
        intros r v Hr; cbv beta; rewrite Hnext by done; done. }
    destruct (at_ (outcomes !! request_id request) request) as [[value uses]|] eqn:Hat; cycle 1.
    { split; [done|]. intros (values & Hall & _). apply Forall2_cons_inv_l in Hall as (? & ? & Hv & _).
      simpl in Hv. congruence. }
    assert (forall q values,
      (if decide (q ∈ used_requests requests values) then None else next uses !! q)
      = if decide (q ∈ used_requests ((request, id) :: requests) ((value, uses) :: values)) then None
        else outcomes !! q) as Hlookup.
    { intros q values. unfold used_requests. cbn [zip zip_with omap list_omap].
      fold (used_requests requests values). unfold next.
      destruct uses; [|done]. rewrite lookup_delete.
      repeat case_decide; set_solver. }
    cbn [mbind result_bind]. fold (next uses). rewrite bind_Ok. split.
    + intros ([rest left_] & Hrest & [= <- <-]). apply IH in Hrest as (values & Hall & -> & Hleft); [|done].
      exists ((value, uses) :: values). split_and!; [constructor; [done|by apply (Hsame uses)]|done|].
      intros q. rewrite Hleft. apply Hlookup.
    + intros (values & Hall & -> & Hleft).
      apply Forall2_cons_inv_l in Hall as (v & values' & Hv & Hall & ->).
      simpl in Hv. assert (v = (value, uses)) as -> by congruence.
      exists (entries_with session requests values', left_over). split; [|done].
      apply IH; [done|]. exists values'. split_and!; [by apply (Hsame uses)|done|].
      intros q. rewrite Hleft. symmetry. apply Hlookup.
Qed.
(** ** What one request closes with *)

(** The payload answers the request: with the result of its ended attempt, with
    the outcome of the child it waited for, or with the reason it never ran. *)
Definition answers self request (payload : SemanticTranscriptEntryPayload) : Prop :=
  match payload with
  | ToolInadmissible id => id = request_id request /\ is_Some (request_inadmissible_reason request)
  | ToolDenied id => id = request_id request /\ decided_approve (batch_approvals self) id = false
  | ToolClosed id => id = request_id request
  | ToolExecutionResult attempt => exists ended,
      batch_attempts self !! request_id request = Some (EndedAttempt ended)
      /\ ended_tool_id ended = attempt
  | DelegationResult id spawning child ForegroundWait None _ => exists ended,
      id = request_id request
      /\ batch_attempts self !! id = Some (EndedAttempt ended)
      /\ ended_tool_end ended = EndAwaitingChild spawning child
  | _ => False
  end.

Definition answering self (at_ : closing) : Prop :=
  forall outcome request payload uses, at_ outcome request = Ok (payload, uses) -> answers self request payload.

Ltac answering_cases :=
  repeat (case_match; simplify_eq/=); try done; unfold decided_approve;
  repeat match goal with Heq : _ !! _ = _ |- _ => rewrite Heq end;
  rewrite ?bool_decide_eq_true, ?negb_true_iff in *; naive_solver.

Lemma continuation_answers self : answering self (continuation_at self).
Proof. intros outcome request payload uses. unfold continuation_at. intros. answering_cases. Qed.

Lemma cancellation_answers self : answering self (cancellation_at self).
Proof. intros outcome request payload uses. unfold cancellation_at. intros. answering_cases. Qed.

Lemma reconciliation_answers self : answering self (reconciliation_at self).
Proof.
  intros outcome request payload uses. unfold reconciliation_at, reconciliation_payload.
  intros. answering_cases.
Qed.

(** ** The common end *)

Lemma identities_fresh self ids :
  any_identity_reused (used_identities self) ids = false <->
  NoDup ids /\ forall id, id ∈ ids -> id ∉ ref_entry <$> snapshot_entries (batch_yielded self).
Proof.
  rewrite any_identity_reused_false. unfold used_identities. by setoid_rewrite elem_of_list_to_set.
Qed.

(** The projection of these entries, over a snapshot that extends the yielded one. *)
Definition extends_yielded self (frontier : ContextFrontierId) (entries : list SemanticTranscriptEntry) p :
    Prop :=
  projected_source_frontier p = frontier_snapshot (snapshot_frontier (batch_yielded self))
  /\ projected_turn p = batch_turn self /\ projected_producing_call p = batch_producing_call self
  /\ projected_result_entries p = entries /\ snapshot_wf (projected_snapshot p)
  /\ snapshot_frontier (projected_snapshot p)
     = mkFrontier (owning_session (snapshot_frontier (batch_yielded self))) frontier
  /\ snapshot_entries (projected_snapshot p)
     = snapshot_entries (batch_yielded self) ++ (reference <$> entries).

Lemma finish_Ok token self frontier entries p :
  snapshot_wf (batch_yielded self) -> finish_projection token self frontier entries = Ok p ->
  extends_yielded self frontier entries p.
Proof.
  intros Hwf. unfold finish_projection. rewrite bind_Ok. intros (snapshot & Hderive & [= <-]).
  apply map_err_Ok in Hderive. apply snapshot_derive_exact in Hderive as (Hwf' & Hfrontier & Hentries); [|done].
  by split_and!.
Qed.

Lemma finish_total token self frontier entries :
  snapshot_wf (batch_yielded self) ->
  frontier <> frontier_snapshot (snapshot_frontier (batch_yielded self)) ->
  NoDup (semantic_identity <$> entries) ->
  (forall id, id ∈ semantic_identity <$> entries -> id ∉ ref_entry <$> snapshot_entries (batch_yielded self)) ->
  exists p, finish_projection token self frontier entries = Ok p.
Proof.
  intros Hwf Hne Hnd Hfresh.
  destruct (proj2 (snapshot_derive_total token (batch_yielded self) frontier (reference <$> entries) Hwf))
    as [snapshot Hderive].
  - split; [done|]. apply NoDup_app. split_and!; [by apply snapshot_entries_NoDup| |].
    + intros r Hr (entry & -> & Hentry)%list_elem_of_fmap.
      apply (Hfresh (semantic_identity entry)); [by apply list_elem_of_fmap_2|].
      apply list_elem_of_fmap. by exists (reference entry).
    + apply (NoDup_fmap_1 ref_entry). by rewrite <- list_fmap_compose.
  - unfold finish_projection. rewrite Hderive. by eexists.
Qed.

(** ** The entries of a batch *)

Lemma zipped_requests {A} (requests : list ToolRequest) (ids : list A) :
  length ids = length requests -> (zip requests ids).*1 = requests.
Proof. intros Hlen. apply fst_zip. lia. Qed.

Lemma zipped_NoDup (requests : list ToolRequest) (ids : list SemanticTranscriptEntryId) :
  length ids = length requests -> NoDup (request_id <$> requests) ->
  NoDup (request_id ∘ fst <$> zip requests ids).
Proof. intros Hlen Hnd. by rewrite list_fmap_compose, zipped_requests. Qed.

Lemma entries_with_answers session self at_ f requests ids values :
  answering self at_ -> length ids = length requests ->
  Forall2 (fun pair value => at_ (f pair.1) pair.1 = Ok value) (zip requests ids) values ->
  Forall2 (fun request entry => answers self request (semantic_payload entry)) requests
    (entries_with session (zip requests ids) values)
  /\ semantic_identity <$> entries_with session (zip requests ids) values = ids
  /\ Forall (fun entry => semantic_source_session entry = session)
       (entries_with session (zip requests ids) values).
Proof.
  intros Hanswers. revert ids values. induction requests as [|request requests IH]; intros [|id ids] values Hlen Hall;
    simplify_eq/=.
  - apply Forall2_nil_inv_l in Hall as ->. split_and!; [constructor|done|constructor].
  - apply Forall2_cons_inv_l in Hall as ([payload uses] & rest & Hvalue & Hrest & ->).
    destruct (IH _ _ Hlen Hrest) as (Hans & Hids & Hown). simpl.
    split_and!; [constructor; [by eapply Hanswers|done]|by f_equal|by constructor].
Qed.

Lemma answers_closes self request entry n :
  answers self request (semantic_payload entry) ->
  exchange_step n entry = if (n =? 0)%N then None else Some (n - 1)%N.
Proof. unfold answers, exchange_step. by repeat case_match. Qed.

Lemma answers_close self requests entries n :
  Forall2 (fun request entry => answers self request (semantic_payload entry)) requests entries ->
  exchange_loop n entries
  = if (n <? N.of_nat (length requests))%N then None else Some (n - N.of_nat (length requests))%N.
Proof.
  intros Hall. revert n. induction Hall as [|request entry requests entries Hans _ IH]; intros n.
  { cbn [length]. rewrite (proj2 (N.ltb_ge _ _)) by lia. by rewrite N.sub_0_r. }
  cbn [exchange_loop length]. rewrite (answers_closes _ _ _ _ Hans).
  destruct (N.eqb_spec n 0) as [->|Hn]; simpl; [done|]. rewrite IH.
  destruct (N.ltb_spec (n - 1) (N.of_nat (length requests))), (N.ltb_spec n (N.of_nat (S (length requests))));
    [done|lia..|]. f_equal. lia.
Qed.
(** ** Every projection *)

Inductive closes_batch (token : ContentToken) self (ids : list SemanticTranscriptEntryId)
    (frontier : ContextFrontierId) : PreparedToolResultProjection (Snap := Snap) -> Prop :=
| by_continuation outcomes p :
    prepare_result_projection_with_delegation token self ids frontier outcomes = Ok p ->
    closes_batch token self ids frontier p
| by_cancellation waits outcomes p :
    prepare_cancellation_projection_with_delegation token self ids frontier waits outcomes = Ok p ->
    closes_batch token self ids frontier p
| by_failure p :
    prepare_failure_projection token self ids frontier = Ok p -> closes_batch token self ids frontier p
| by_runner_retry attempt effect p :
    prepare_runner_retry_cancellation_projection token self attempt effect ids frontier = Ok p ->
    closes_batch token self ids frontier p
| by_reconciliation p :
    prepare_reconciliation_projection token self ids frontier = Ok p ->
    closes_batch token self ids frontier p.

(** The projection answers each request in proposal order under the given
    identities, and its snapshot appends exactly these entries. *)
Record closes_requests self (ids : list SemanticTranscriptEntryId) (frontier : ContextFrontierId) p :
    Prop := {
  closing_answers : Forall2 (fun request entry => answers self request (semantic_payload entry))
    (batch_requests self) (projected_result_entries p);
  closing_identities : semantic_identity <$> projected_result_entries p = ids;
  closing_owner : Forall (fun entry => semantic_source_session entry = batch_session self)
    (projected_result_entries p);
  closing_distinct : NoDup ids;
  closing_snapshot : extends_yielded self frontier (projected_result_entries p) p;
}.

Lemma projection_closes token self ids frontier p payload at_ outcomes entries left_over :
  local payload at_ -> answering self at_ -> snapshot_wf (batch_yielded self) ->
  NoDup (request_id <$> batch_requests self) -> length ids = length (batch_requests self) ->
  any_identity_reused (used_identities self) ids = false ->
  project_requests (batch_session self) payload outcomes (zip (batch_requests self) ids)
    = Ok (entries, left_over) ->
  finish_projection token self frontier entries = Ok p ->
  closes_requests self ids frontier p.
Proof.
  intros Hlocal Hanswers Hwf Hnd Hlen [Hdistinct _]%identities_fresh Hloop Hfinish.
  apply finish_Ok in Hfinish as Hext; [|done]. destruct Hext as (_ & _ & _ & Hentries & _).
  apply (project_requests_spec _ _ _ _ _ _ _ Hlocal) in Hloop as (values & Hall & -> & _);
    [|by apply zipped_NoDup].
  destruct (entries_with_answers (batch_session self) self at_ (fun r => outcomes !! request_id r)
    (batch_requests self) ids values Hanswers Hlen Hall) as (Hans & Hids & Hown).
  constructor; rewrite ?Hentries; try done. by apply finish_Ok in Hfinish.
Qed.

Lemma continuation_closes token self ids frontier outcomes p :
  snapshot_wf (batch_yielded self) -> NoDup (request_id <$> batch_requests self) ->
  prepare_result_projection_with_delegation token self ids frontier outcomes = Ok p ->
  closes_requests self ids frontier p.
Proof.
  intros Hwf Hnd. unfold prepare_result_projection_with_delegation.
  destruct (_ || _) eqn:Hguard; [done|]. apply orb_false_iff in Hguard as [_ Hlen%negb_false_iff%bool_decide_eq_true].
  destruct (any_identity_reused _ _) eqn:Hids; [done|]. destruct (negb _); [done|].
  rewrite bind_Ok. intros ([entries left_over] & Hloop & Hrest). destruct (negb _) in Hrest; [done|].
  eapply projection_closes; eauto using continuation_local, continuation_answers.
Qed.

Lemma cancellation_closes token self ids frontier waits outcomes p :
  snapshot_wf (batch_yielded self) -> NoDup (request_id <$> batch_requests self) ->
  prepare_cancellation_projection_with_delegation token self ids frontier waits outcomes = Ok p ->
  closes_requests self ids frontier p.
Proof.
  intros Hwf Hnd. unfold prepare_cancellation_projection_with_delegation.
  destruct (_ || _ || _) eqn:Hguard; [done|].
  apply orb_false_iff in Hguard as [[_ Hlen%negb_false_iff%bool_decide_eq_true]%orb_false_iff _].
  destruct (any_identity_reused _ _) eqn:Hids; [done|]. destruct (negb _) in |- *; [done|].
  rewrite bind_Ok. intros ([entries left_over] & Hloop & Hrest). destruct (negb _) in Hrest; [done|].
  eapply projection_closes; eauto using cancellation_local, cancellation_answers.
Qed.

Lemma reconciliation_closes token self ids frontier p :
  snapshot_wf (batch_yielded self) -> NoDup (request_id <$> batch_requests self) ->
  prepare_reconciliation_projection token self ids frontier = Ok p ->
  closes_requests self ids frontier p.
Proof.
  intros Hwf Hnd. unfold prepare_reconciliation_projection.
  destruct (_ || _ || _) eqn:Hguard; [done|].
  apply orb_false_iff in Hguard as [[_ Hlen%negb_false_iff%bool_decide_eq_true]%orb_false_iff _].
  destruct (any_identity_reused _ _) eqn:Hids; [done|].
  rewrite bind_Ok. intros ([entries left_over] & Hloop & Hrest).
  eapply projection_closes; eauto using reconciliation_local, reconciliation_answers.
Qed.

(** Taking one attempt away only takes results away. *)
Lemma answers_without self request payload q turn_attempt :
  answers (mkBatch (batch_session self) (batch_turn self) (batch_producing_call self) (batch_yielded self)
             (batch_requests self) (batch_approvals self) (delete q (batch_attempts self))
             (batch_retired self) (batch_issuance self) (BatchExecuting turn_attempt)) request payload ->
  answers self request payload.
Proof.
  unfold answers. destruct payload; try done; cbn [batch_attempts].
  - destruct mode, delivery_sequence; try done.
    intros (ended & Hid & [_ Hended]%lookup_delete_Some & Hend). eauto.
  - intros (ended & [_ Hended]%lookup_delete_Some & Hid). eauto.
Qed.

Lemma retry_closes token self attempt effect ids frontier p :
  snapshot_wf (batch_yielded self) -> NoDup (request_id <$> batch_requests self) ->
  prepare_runner_retry_cancellation_projection token self attempt effect ids frontier = Ok p ->
  closes_requests self ids frontier p.
Proof.
  intros Hwf Hnd. unfold prepare_runner_retry_cancellation_projection. rewrite bind_Ok.
  intros (stopped & _ & Hrun). destruct (_ || _ || _) in Hrun; [done|].
  apply cancellation_closes in Hrun as []; [|done..]. cbn in *.
  constructor; try done. eapply Forall2_impl; [done|]. intros ? ? Hans. exact (answers_without _ _ _ _ _ Hans).
Qed.

(** ** When the loop succeeds *)

Lemma elem_of_used_requests (at_ : closing) (f : ToolRequest -> option DelegationOutcome) (requests : zipped) values q :
  Forall2 (fun pair value => at_ (f pair.1) pair.1 = Ok value) requests values ->
  q ∈ used_requests requests values <->
  exists request payload, request ∈ requests.*1 /\ request_id request = q
    /\ at_ (f request) request = Ok (payload, true).
Proof.
  induction 1 as [|[request id] [payload uses] requests values Hat _ IH]; simpl in *.
  { split; [set_solver|]. intros (? & ? & ?%elem_of_nil & _). done. }
  unfold used_requests in *. cbn [zip zip_with omap list_omap]. split.
  - intros Hq. assert (uses = true /\ q = request_id request \/ q ∈ used_requests requests values) as [[-> ->]|Hin].
    { unfold used_requests. destruct uses; set_solver. }
    + exists request, payload. split_and!; [by left|done|done].
    + apply IH in Hin as (r & v & Hr & Heq & Hv). exists r, v. split_and!; [by right|done|done].
  - intros (r & v & [->|Hr]%elem_of_cons & Heq & Hv).
    + rewrite Hat in Hv. injection Hv as -> ->. rewrite <- Heq. by left.
    + assert (q ∈ used_requests requests values) as Hin by (apply IH; eauto).
      unfold used_requests in Hin. destruct uses; set_solver.
Qed.

Lemma loop_exact session payload (at_ : closing) outcomes requests ids :
  local payload at_ -> NoDup (request_id <$> requests) -> length ids = length requests ->
  (exists entries, project_requests session payload outcomes (zip requests ids) = Ok (entries, ∅)) <->
  (forall request, request ∈ requests -> exists value, at_ (outcomes !! request_id request) request = Ok value)
  /\ forall q, is_Some (outcomes !! q) -> exists request payload, request ∈ requests
       /\ request_id request = q /\ at_ (outcomes !! q) request = Ok (payload, true).
Proof.
  intros Hlocal Hnd Hlen. pose proof (zipped_NoDup _ _ Hlen Hnd) as Hzip.
  setoid_rewrite (project_requests_spec _ _ _ _ _ _ _ Hlocal Hzip). split.
  - intros (entries & values & Hall & _ & Hleft). split.
    + intros request Hr. rewrite <- (zipped_requests _ _ Hlen) in Hr.
      apply list_elem_of_fmap in Hr as (pair & -> & (i & Hi)%list_elem_of_lookup).
      destruct (Forall2_lookup_l _ _ _ _ _ Hall Hi) as (value & _ & Hvalue). eauto.
    + intros q [o Ho]. specialize (Hleft q). rewrite lookup_empty in Hleft.
      case_decide as Hin; [|congruence].
      apply (elem_of_used_requests at_ (fun r => outcomes !! request_id r)) in Hin
        as (r & v & Hr & <- & Hv); [|done]. rewrite (zipped_requests _ _ Hlen) in Hr. eauto.
  - intros [Hvalues Hused].
    assert (exists values, Forall2 (fun pair value => at_ (outcomes !! request_id pair.1) pair.1 = Ok value)
              (zip requests ids) values) as [values Hall].
    { apply Forall_exists_Forall2_l, Forall_forall. intros pair Hpair. apply Hvalues.
      rewrite <- (zipped_requests _ _ Hlen). by apply list_elem_of_fmap_2. }
    exists (entries_with session (zip requests ids) values), values. split_and!; [done..|].
    intros q. rewrite lookup_empty. case_decide as Hin; [done|].
    destruct (outcomes !! q) as [o|] eqn:Ho; [|done]. destruct Hin.
    apply (elem_of_used_requests at_ (fun r => outcomes !! request_id r) _ _ _ Hall).
    destruct (Hused q) as (r & v & Hr & <- & Hv); [by eexists|].
    exists r, v. by rewrite (zipped_requests _ _ Hlen).
Qed.

(** ** Batches of legal inventories *)

Lemma list_filter_perm {A} (test : A -> bool) l l' : l ≡ₚ l' -> List.filter test l ≡ₚ List.filter test l'.
Proof.
  induction 1 as [|a l l' _ IH|a b l|l l' l'' _ IH _ IH']; simpl; [done|..].
  - by destruct (test a); [apply perm_skip|].
  - destruct (test a), (test b); try done. apply perm_swap.
  - by etrans.
Qed.

Section legal.
Context (input : ToolBatchReconstitutionInput Snap) (cells : gmap ToolAttemptId IssuanceCell).
Hypothesis Hlegal : batch_legal input.
Hypothesis Hwf : snapshot_wf (stored_yielded input).

Abbreviation batch := (batch_of input cells).
Abbreviation requests := (sorted_requests input).

(** The identities a projection needs: one per request, distinct and new, and
    a new identity for the frontier. *)
Definition fresh_identities (ids : list SemanticTranscriptEntryId) (frontier : ContextFrontierId) : Prop :=
  length ids = length requests /\ NoDup ids
  /\ (forall id, id ∈ ids -> id ∉ ref_entry <$> snapshot_entries (stored_yielded input))
  /\ frontier <> frontier_snapshot (snapshot_frontier (stored_yielded input)).

Lemma legal_distinct : NoDup (request_id <$> requests).
Proof. by destruct (legal_requests _ Hlegal). Qed.

Lemma legal_keys : NoDup (fact_key <$> stored_attempts input).
Proof. by destruct (legal_attempts _ Hlegal) as (_ & Hkeys & _). Qed.

Lemma stored_attempt_lookup a : a ∈ stored_attempts input <-> stored_by_request input !! fact_key a = Some a.
Proof. rewrite (keyed_lookup_Some fact_key) by apply legal_keys. naive_solver. Qed.

(** Once no request is undecided each is inadmissible or decided, not both. *)
Lemma decided_cases request :
  earliest_undecided requests (stored_decisions input) = None -> request ∈ requests ->
  (is_Some (request_inadmissible_reason request) /\ stored_decisions input !! request_id request = None)
  \/ (request_inadmissible_reason request = None
      /\ is_Some (stored_decisions input !! request_id request)).
Proof.
  unfold earliest_undecided. rewrite fmap_None. intros Hnone Hr.
  apply List.find_none with (x := request) in Hnone; [|by apply list_elem_of_In].
  unfold is_undecided in Hnone. apply andb_false_iff in Hnone as [Hn%bool_decide_eq_false|Hn%bool_decide_eq_false].
  - left. split; [by apply not_eq_None_Some|]. apply eq_None_not_Some. intros [approval Happ].
    destruct (legal_decisions _ Hlegal) as [Hnd Hall].
    apply (keyed_lookup_Some resolution_request) in Happ as [Hin Hkey]; [|done].
    destruct (Hall _ Hin) as [_ Hreason]. apply Hn. by apply Hreason.
  - apply not_eq_None_Some in Hn as [approval Happ]. right. split; [|by eexists].
    destruct (legal_decisions _ Hlegal) as [Hnd Hall].
    apply (keyed_lookup_Some resolution_request) in Happ as [Hin Hkey]; [|done].
    destruct (Hall _ Hin) as [_ Hreason]. by apply Hreason.
Qed.

(** The requests whose attempt waits for a child. *)
Definition awaited (q : ToolRequestId) : Prop :=
  exists a, a ∈ stored_attempts input /\ is_child_wait a = true /\ fact_key a = q.

Lemma child_wait_count_size outcomes :
  (forall q, is_Some (outcomes !! q) <-> awaited q) -> size outcomes = child_wait_count batch.
Proof.
  intros Hdom. set (waits := List.filter is_child_wait (stored_attempts input)).
  assert (NoDup (fact_key <$> waits)) as Hnd.
  { eapply sublist_NoDup; [apply legal_keys|]. apply fmap_sublist. unfold waits.
    clear. induction (stored_attempts input) as [|a l IH]; simpl; [constructor|].
    destruct (is_child_wait a); by constructor. }
  assert (dom outcomes = list_to_set (fact_key <$> waits)) as Hset.
  { apply set_eq. intros q. rewrite elem_of_dom, Hdom, elem_of_list_to_set, list_elem_of_fmap.
    unfold awaited, waits. setoid_rewrite list_elem_of_In. setoid_rewrite List.filter_In. naive_solver. }
  rewrite <- size_dom, Hset, size_list_to_set, length_fmap by done.
  unfold child_wait_count, waits. cbn [batch_of batch_attempts].
  symmetry. apply Permutation_length, list_filter_perm, attempt_values_perm, legal_keys.
Qed.
(** When a continuation knows what a request closes with. *)
Lemma continuation_at_Ok turn_attempt outcome request :
  stored_phase input = StoredExecuting turn_attempt -> request ∈ requests ->
  (exists value, continuation_at batch outcome request = Ok value) <->
  (decided_approve (stored_decisions input) (request_id request) = true -> exists ended,
     stored_by_request input !! request_id request = Some (EndedAttempt ended)
     /\ ended_crash_lost (EndedAttempt ended) = false
     /\ (is_child_wait (EndedAttempt ended) = true -> is_Some outcome)).
Proof.
  intros Hphase Hr. pose proof (legal_phase _ Hlegal) as Hp. unfold phase_legal in Hp.
  rewrite Hphase in Hp. destruct Hp as (Hnone & Hamb & _).
  unfold continuation_at, decided_approve. cbn [batch_of batch_approvals batch_attempts].
  destruct (decided_cases request Hnone Hr) as [[Hreason ->]|[Hreason [approval Happ]]].
  { rewrite bool_decide_eq_true_2 by done. split; [done|]. intros _. by eexists. }
  rewrite bool_decide_eq_false_2 by (rewrite Hreason; by intros [? ?]). rewrite Happ.
  destruct (is_approved approval); cbn [negb]; [|split; [done|by eexists]].
  destruct (stored_by_request input !! request_id request) as [[current|ended]|] eqn:Ha;
    [split; [by intros [? ?]|intros Hex; by destruct (Hex eq_refl) as (? & ? & _)]| |
     split; [by intros [? ?]|intros Hex; by destruct (Hex eq_refl) as (? & ? & _)]].
  assert (ended_tool_end ended <> EndAmbiguous) as Hna.
  { intros Heq. apply (keyed_lookup_Some fact_key) in Ha as [Ha _]; [|apply legal_keys].
    destruct (legal_attempts _ Hlegal) as (_ & _ & Hall). destruct (Hall _ Ha) as [Hex _].
    destruct Hex as [? Hex]; [simpl; by rewrite bool_decide_eq_true|]. rewrite Hamb in Hex by done. done. }
  unfold is_child_wait, ended_crash_lost, child_wait_of.
  destruct (ended_tool_end ended) eqn:Hend.
  - split; [intros _ _; exists ended; split_and!; rewrite ?Hend; done|intros _; by eexists].
  - case_bool_decide.
    + split; [by intros [? ?]|]. intros Hex. destruct (Hex eq_refl) as (? & [= <-] & Hcrash & _).
      rewrite Hend, bool_decide_eq_false in Hcrash. done.
    + split; [|by eexists]. intros _ _. exists ended. rewrite Hend.
      rewrite bool_decide_eq_false_2 by done. done.
  - split.
    + intros [value Hvalue] _. exists ended. rewrite Hend. split_and!; [done..|]. intros _.
      by destruct outcome.
    + intros Hex. destruct (Hex eq_refl) as (? & [= <-] & _ & Ho). rewrite Hend in Ho.
      destruct Ho as [o ->]; [done|]. by eexists.
  - done.
Qed.

Lemma continuation_uses outcome request payload :
  continuation_at batch outcome request = Ok (payload, true) -> awaited (request_id request).
Proof.
  unfold continuation_at. cbn [batch_of batch_approvals batch_attempts].
  repeat (case_match; simplify_eq/=); try done. intros _.
  match goal with Ha : _ !! request_id request = Some (EndedAttempt ?ended) |- _ =>
    apply (keyed_lookup_Some fact_key) in Ha as [Hin Hkey]; [|apply legal_keys];
    exists (EndedAttempt ended) end.
  split_and!; [done| |done]. unfold is_child_wait, child_wait_of.
  by match goal with Hend : ended_tool_end _ = _ |- _ => rewrite Hend end.
Qed.

(** An awaited request is approved, admissible, and ended in its wait. *)
Lemma awaited_request q :
  earliest_undecided requests (stored_decisions input) = None -> awaited q ->
  exists request approval ended spawning child, request ∈ requests /\ request_id request = q
    /\ request_inadmissible_reason request = None
    /\ stored_decisions input !! q = Some approval /\ is_approved approval = true
    /\ stored_by_request input !! q = Some (EndedAttempt ended)
    /\ ended_tool_end ended = EndAwaitingChild spawning child.
Proof.
  intros Hnone (a & Ha & Hwait & <-).
  destruct (legal_attempts _ Hlegal) as (_ & _ & Hall). destruct (Hall a Ha) as (_ & Hin & _ & _ & Hdec & _).
  apply list_elem_of_fmap in Hin as (request & Hkey & Hr). unfold decided_approve in Hdec.
  apply stored_attempt_lookup in Ha. simpl in *. rewrite Hkey in *.
  destruct (decided_cases request Hnone Hr) as [[_ Hn]|[Hreason [approval Happ]]]; [by rewrite Hn in Hdec|].
  rewrite Happ in Hdec. unfold is_child_wait, child_wait_of in Hwait. destruct a as [|ended]; [done|].
  destruct (ended_tool_end ended) eqn:Hend; try done. by eexists request, approval, ended, _, _.
Qed.

Lemma awaited_uses q outcome :
  earliest_undecided requests (stored_decisions input) = None -> awaited q ->
  exists request payload, request ∈ requests /\ request_id request = q
    /\ continuation_at batch (Some outcome) request = Ok (payload, true).
Proof.
  intros Hnone Hq. destruct (awaited_request q Hnone Hq)
    as (request & approval & ended & spawning & child & Hr & <- & Hreason & Happ & Hok & Ha & Hend).
  exists request. unfold continuation_at. cbn [batch_of batch_approvals batch_attempts].
  rewrite Hreason, Happ, Hok, Ha, Hend. by eexists.
Qed.

(** The snapshot of a complete projection derives exactly under a new identity. *)
Lemma finish_exact token ids frontier entries :
  NoDup ids -> (forall id, id ∈ ids -> id ∉ ref_entry <$> snapshot_entries (stored_yielded input)) ->
  semantic_identity <$> entries = ids ->
  (exists p, finish_projection token batch frontier entries = Ok p) <->
  frontier <> frontier_snapshot (snapshot_frontier (stored_yielded input)).
Proof.
  intros Hnd Hfresh <-. split; [|intros; by apply finish_total].
  intros (p & Hp) . unfold finish_projection in Hp. apply bind_Ok in Hp as (snapshot & Hderive & _).
  apply map_err_Ok in Hderive.
  by apply (snapshot_derive_total token (stored_yielded input) frontier (reference <$> entries)); eauto.
Qed.

(** The end of a projection whose loop left no outcome. *)
Lemma projection_total token payload (at_ : closing) outcomes ids frontier :
  local payload at_ -> answering batch at_ -> fresh_identities ids frontier ->
  (exists entries, project_requests (stored_session input) payload outcomes (zip requests ids)
                   = Ok (entries, ∅)) ->
  exists entries p, project_requests (stored_session input) payload outcomes (zip requests ids)
                    = Ok (entries, ∅) /\ finish_projection token batch frontier entries = Ok p.
Proof.
  intros Hlocal Hanswers (Hlen & Hnd & Hfresh & Hne) (entries & Hloop).
  apply (project_requests_spec _ _ _ _ _ _ _ Hlocal) in Hloop as Hvalues;
    [|by apply zipped_NoDup, legal_distinct].
  destruct Hvalues as (values & Hall & Hentries & _).
  destruct (entries_with_answers (stored_session input) batch at_ (fun r => outcomes !! request_id r)
    requests ids values Hanswers Hlen Hall) as (_ & Hids & _). rewrite <- Hentries in Hids.
  destruct (proj2 (finish_exact token ids frontier entries Hnd Hfresh Hids) Hne) as [p Hp]. eauto.
Qed.

(** Every approved request has ended, and none by a crash. *)
Definition settled : Prop := forall request, request ∈ requests ->
  decided_approve (stored_decisions input) (request_id request) = true -> exists ended,
    stored_by_request input !! request_id request = Some (EndedAttempt ended)
    /\ ended_crash_lost (EndedAttempt ended) = false.

(** The loop of a continuation delivers exactly the awaited outcomes. *)
Lemma continuation_loop ids outcomes turn_attempt :
  stored_phase input = StoredExecuting turn_attempt -> length ids = length requests ->
  (exists entries, project_requests (stored_session input) (result_payload batch) outcomes
     (zip requests ids) = Ok (entries, ∅)) <->
  settled /\ forall q, is_Some (outcomes !! q) <-> awaited q.
Proof.
  intros Hphase Hlen. pose proof (legal_phase _ Hlegal) as Hp. unfold phase_legal in Hp.
  rewrite Hphase in Hp. destruct Hp as (Hnone & _ & _).
  rewrite (loop_exact _ _ _ _ _ _ (continuation_local batch) legal_distinct Hlen). split.
  - intros [Hvalues Hused]. split.
    + intros request Hr Hdec. destruct (proj1 (continuation_at_Ok _ _ _ Hphase Hr) (Hvalues _ Hr) Hdec)
        as (ended & Ha & Hcrash & _). eauto.
    + intros q. split.
      * intros (request & payload & _ & <- & Hat)%Hused. by eapply continuation_uses.
      * intros Hq. destruct (awaited_request q Hnone Hq)
          as (request & approval & ended & spawning & child & Hr & <- & _ & Happ & Hok & Ha & Hend).
        destruct (proj1 (continuation_at_Ok _ _ _ Hphase Hr) (Hvalues _ Hr)) as (e & He & _ & Ho).
        { unfold decided_approve. by rewrite Happ. }
        apply Ho. unfold is_child_wait, child_wait_of. by simplify_eq; rewrite Hend.
  - intros [Hsettled Hdom]. split.
    + intros request Hr. apply (continuation_at_Ok _ _ _ Hphase Hr). intros Hdec.
      destruct (Hsettled _ Hr Hdec) as (ended & Ha & Hcrash). exists ended. split_and!; [done..|].
      intros Hwait. apply Hdom. exists (EndedAttempt ended).
      by apply (keyed_lookup_Some fact_key) in Ha as [Hin Hkey]; [|apply legal_keys].
    + intros q [outcome Ho]. rewrite Ho. apply awaited_uses; [done|]. apply Hdom. by eexists.
Qed.

(** A continuation of a batch can be projected exactly when the batch is
    executing, every approved request has ended without a crash, the delivered
    outcomes are exactly those of the requests that wait for a child, and the
    identities are distinct and new, one per request, with a new frontier. *)
Theorem result_projection_exact token ids frontier outcomes :
  (exists p, prepare_result_projection_with_delegation token batch ids frontier outcomes = Ok p) <->
  (exists turn_attempt, stored_phase input = StoredExecuting turn_attempt) /\ settled
  /\ (forall q, is_Some (outcomes !! q) <-> awaited q) /\ fresh_identities ids frontier.
Proof.
  unfold prepare_result_projection_with_delegation. split.
  - intros (p & Hp). apply if_false_Ok in Hp as [[Hexec Hlen%negb_false_iff%bool_decide_eq_true]%orb_false_iff Hp].
    apply if_false_Ok in Hp as [[Hnd Hfresh]%identities_fresh [_ Hp]%if_negb_Ok].
    apply bind_Ok in Hp as ([entries left_over] & Hloop & [-> Hfinish]%if_negb_Ok).
    assert (exists turn_attempt, stored_phase input = StoredExecuting turn_attempt) as [turn_attempt Hphase].
    { unfold batch_executing in Hexec. cbn [batch_of batch_phase] in Hexec.
      destruct (stored_phase input); try done. by eexists. }
    destruct (proj1 (continuation_loop ids outcomes turn_attempt Hphase Hlen)) as [Hsettled Hdom]; [by eexists|].
    split_and!; [by eexists|done|done|]. split_and!; [done..|].
    apply (project_requests_spec _ _ _ _ _ _ _ (continuation_local batch)) in Hloop
      as (values & Hall & -> & _); [|by apply zipped_NoDup, legal_distinct].
    assert (exists q, finish_projection token batch frontier
      (entries_with (stored_session input) (zip requests ids) values) = Ok q) as Hq by (by exists p).
    apply (finish_exact token ids frontier) in Hq; [done..|].
    by apply (entries_with_answers _ batch _ (fun r => outcomes !! request_id r) requests ids values
                (continuation_answers batch) Hlen).
  - intros ([turn_attempt Hphase] & Hsettled & Hdom & Hids). destruct Hids as (Hlen & Hnd & Hfresh & Hne).
    destruct (projection_total token _ _ outcomes ids frontier (continuation_local batch)
      (continuation_answers batch)) as (entries & p & Hloop & Hfinish); [done| |].
    { by apply (continuation_loop _ _ turn_attempt). }
    exists p. apply if_false_Ok. split.
    { unfold batch_executing. cbn [batch_of batch_phase]. rewrite Hphase. simpl.
      by rewrite bool_decide_eq_true_2. }
    apply if_false_Ok. split; [by apply identities_fresh|]. apply if_negb_Ok.
    split; [by apply child_wait_count_size|]. apply bind_Ok. exists (entries, ∅). split; [done|].
    by apply if_negb_Ok.
Qed.

(** ** A batch can always be closed *)

Lemma legal_no_ambiguity a :
  (forall a, a ∈ stored_attempts input -> external_ambiguity a = None) ->
  a ∈ stored_attempts input -> ended_ambiguous a = false.
Proof.
  intros Hnone Ha. apply not_true_iff_false. intros Hamb.
  destruct (legal_attempts _ Hlegal) as (_ & _ & Hall). destruct (Hall a Ha) as [Hex _].
  destruct (Hex Hamb) as [? Hx]. by rewrite (Hnone a Ha) in Hx.
Qed.

Lemma none_running : (forall a, a ∈ stored_attempts input -> is_current a = false) ->
  existsb is_current (attempt_values (batch_attempts batch)) = false.
Proof. intros Hall. by apply (existsb_attempt_values _ _ legal_keys). Qed.

Lemma cancellation_at_Ok request :
  (forall a, a ∈ stored_attempts input -> is_current a = false /\ ended_ambiguous a = false) ->
  exists value, cancellation_at batch None request = Ok value.
Proof.
  intros Hall. unfold cancellation_at. cbn [batch_of batch_approvals batch_attempts].
  repeat case_match; try (by eexists).
  - match goal with Ha : _ !! _ = Some (CurrentAttempt _) |- _ =>
      apply (keyed_lookup_Some fact_key) in Ha as [Ha _]; [|apply legal_keys];
      by destruct (Hall _ Ha) as [? _] end.
  - match goal with Ha : _ !! _ = Some (EndedAttempt _), Hend : ended_tool_end _ = _ |- _ =>
      apply (keyed_lookup_Some fact_key) in Ha as [Ha _]; [|apply legal_keys];
      destruct (Hall _ Ha) as [_ Hamb]; simpl in Hamb; by rewrite Hend in Hamb end.
Qed.

Lemma reconciliation_at_Ok request :
  (forall a, a ∈ stored_attempts input -> is_current a = false) ->
  exists value, reconciliation_at batch None request = Ok value.
Proof.
  intros Hall. unfold reconciliation_at, reconciliation_payload. cbn [batch_of batch_approvals batch_attempts].
  repeat case_match; simplify_eq/=; try (by eexists).
  match goal with Ha : _ !! _ = Some (CurrentAttempt _) |- _ =>
    apply (keyed_lookup_Some fact_key) in Ha as [Ha _]; [|apply legal_keys];
    by specialize (Hall _ Ha) end.
Qed.

(** A loop that needs no outcome. *)
Lemma loop_without_outcomes payload (at_ : closing) ids :
  local payload at_ -> length ids = length requests ->
  (forall request, request ∈ requests -> exists value, at_ None request = Ok value) ->
  exists entries, project_requests (stored_session input) payload ∅ (zip requests ids) = Ok (entries, ∅).
Proof.
  intros Hlocal Hlen Hall. apply (loop_exact _ _ _ _ _ _ Hlocal legal_distinct Hlen). split.
  - intros request Hr. rewrite lookup_empty. by apply Hall.
  - intros q [o Ho]. by rewrite lookup_empty in Ho.
Qed.

Lemma cancellation_total token ids frontier waits :
  (forall a, a ∈ stored_attempts input -> is_current a = false /\ ended_ambiguous a = false) ->
  fresh_identities ids frontier ->
  batch_executing batch
    || (waits && match batch_phase batch with BatchAwaitingChild _ _ _ => true | _ => false end) = true ->
  waits = (0 <? child_wait_count batch)%nat ->
  exists p, prepare_cancellation_projection_with_delegation token batch ids frontier waits ∅ = Ok p.
Proof.
  intros Hall Hids Hphase Hwaits.
  destruct (projection_total token _ _ ∅ ids frontier (cancellation_local batch)
    (cancellation_answers batch) Hids) as (entries & p & Hloop & Hfinish).
  { apply (loop_without_outcomes _ _ _ (cancellation_local batch)); [by destruct Hids|].
    intros request _. by apply cancellation_at_Ok. }
  destruct Hids as (Hlen & Hnd & Hfresh & Hne). exists p.
  unfold prepare_cancellation_projection_with_delegation. apply if_false_Ok. split.
  { rewrite Hphase, none_running by (intros; by apply Hall). simpl.
    rewrite orb_false_r. by rewrite bool_decide_eq_true_2. }
  apply if_false_Ok. split; [by apply identities_fresh|]. apply if_false_Ok.
  split; [by rewrite Hwaits, eqb_reflx|]. apply bind_Ok. exists (entries, ∅). split; [done|].
  by apply if_negb_Ok.
Qed.

Lemma child_wait_counted a : a ∈ stored_attempts input -> is_child_wait a = true -> 0 < child_wait_count batch.
Proof.
  intros Ha Hwait. unfold child_wait_count. cbn [batch_of batch_attempts].
  destruct (List.filter _ _) as [|b l] eqn:Hf; [|simpl; lia].
  assert (a ∈ List.filter is_child_wait (attempt_values (stored_by_request input))) as Hin.
  { apply list_elem_of_In, List.filter_In. split; [|done]. apply list_elem_of_In.
    by rewrite (attempt_values_perm _ legal_keys). }
  rewrite Hf in Hin. by apply elem_of_nil in Hin.
Qed.

(** A legal batch with no attempt running can always be closed under fresh
    identities: an executing one or one that waits for a child by cancelling,
    without any outcome, one that waits for recovery by reconciling; only the
    wait for a decision admits no projection at all. *)
Theorem batch_always_closes token ids frontier
    (Hidle : forall a, a ∈ stored_attempts input -> is_current a = false)
    (Hids : fresh_identities ids frontier) :
  match stored_phase input with
  | StoredExecuting _ | StoredAwaitingChild _ _ _ =>
      exists p, prepare_cancellation_projection_with_delegation token batch ids frontier
                  (0 <? child_wait_count batch)%nat ∅ = Ok p
  | StoredAwaitingRecovery _ =>
      exists p, prepare_reconciliation_projection token batch ids frontier = Ok p
  | StoredAwaitingApproval _ => forall p, ~ closes_batch token batch ids frontier p
  end.
Proof.
  pose proof (legal_phase _ Hlegal) as Hp. unfold phase_legal in Hp.
  destruct (stored_phase input) as [request|turn_attempt|attempt|request spawning child] eqn:Hphase.
  - destruct Hp as [_ Hnone]. intros p Hc.
    assert (batch_phase batch = BatchAwaitingApproval request) as Hb by (simpl; by rewrite Hphase).
    assert (batch_attempts batch = ∅) as Ha by (simpl; by rewrite Hnone).
    destruct Hc as [? ? Hc|waits ? ? Hc|? Hc|? ? ? Hc|? Hc].
    + unfold prepare_result_projection_with_delegation, batch_executing in Hc. by rewrite Hb in Hc.
    + unfold prepare_cancellation_projection_with_delegation, batch_executing in Hc. rewrite Hb in Hc.
      by destruct waits.
    + unfold prepare_failure_projection in Hc. by rewrite Ha in Hc.
    + unfold prepare_runner_retry_cancellation_projection in Hc. by rewrite Ha in Hc.
    + unfold prepare_reconciliation_projection in Hc. by rewrite Hb in Hc.
  - destruct Hp as (_ & Hamb & _). apply cancellation_total; [|done| |done].
    + intros a Ha. split; [by apply Hidle|]. by apply legal_no_ambiguity.
    + unfold batch_executing. simpl. by rewrite Hphase.
  - destruct (projection_total token _ _ ∅ ids frontier (reconciliation_local batch)
      (reconciliation_answers batch) Hids) as (entries & p & Hloop & Hfinish).
    { apply (loop_without_outcomes _ _ _ (reconciliation_local batch)); [by destruct Hids|].
      intros request _. by apply reconciliation_at_Ok. }
    destruct Hids as (Hlen & Hnd & Hfresh & Hne). exists p. unfold prepare_reconciliation_projection.
    apply if_false_Ok. split.
    { rewrite none_running by done. simpl. by rewrite Hphase, bool_decide_eq_true_2. }
    apply if_false_Ok. split; [by apply identities_fresh|]. apply bind_Ok. by exists (entries, ∅).
  - destruct Hp as (_ & _ & Hamb & i & (r & a & _ & Ha & Hwait) & _).
    apply (keyed_lookup_Some fact_key) in Ha as [Ha _]; [|apply legal_keys].
    pose proof (child_wait_counted a Ha) as Hpos.
    apply cancellation_total; [|done| |done].
    + intros b Hb. split; [by apply Hidle|]. by apply legal_no_ambiguity.
    + rewrite (proj2 (Nat.ltb_lt _ _)); [simpl; by rewrite Hphase, orb_true_r|]. apply Hpos.
      unfold is_child_wait. rewrite Hwait. by apply bool_decide_eq_true.
Qed.
End legal.

(** C17. However a batch is closed (a continuation with or without the results of
    children, a cancellation, a failure, the loss of a runner or a
    reconciliation), its projection holds one entry per request in proposal
    order, each answering its request, under the given distinct identities; the
    new snapshot appends exactly these entries to the yielded one, and a range
    that ends with them closes its tool exchanges exactly when the requests of
    the batch were all it left open. *)
Theorem projections_close_exchanges token self ids frontier p before
    (Hwf : snapshot_wf (batch_yielded self)) (Hnd : NoDup (request_id <$> batch_requests self))
    (Hcloses : closes_batch token self ids frontier p) :
  closes_requests self ids frontier p
  /\ (range_closes_tool_exchanges (before ++ projected_result_entries p) = true <->
      exchange_loop 0 before = Some (N.of_nat (length (batch_requests self)))).
Proof.
  assert (closes_requests self ids frontier p) as Hc.
  { destruct Hcloses as [? ? Hp|? ? ? Hp|? Hp|? ? ? Hp|? Hp];
      eauto using continuation_closes, cancellation_closes, retry_closes, reconciliation_closes.
    unfold prepare_failure_projection in Hp. destruct (_ || _) in Hp; [done|].
    by eapply cancellation_closes. }
  split; [done|]. rewrite closes_spec, exchange_loop_app.
  destruct (exchange_loop 0 before) as [n|]; simpl; [|done].
  rewrite (answers_close self (batch_requests self)) by apply Hc.
  destruct (N.ltb_spec n (N.of_nat (length (batch_requests self)))).
  - split; [done|]. intros [= ->]. lia.
  - split; intros [= ?]; f_equal; lia.
Qed.
End spec.

(** ** Concrete inputs

    Two requests of one call: the first waited for a child, the second ran to
    its result or ended ambiguous. *)

Definition projected_snapshot_of (n : N) (entries : list SemanticTranscriptEntry) :
    @ResolvedContextFrontierSnapshot reference_rpds :=
  mkSnapshot (mkFrontier (from_uuid 21) (from_uuid n))
    (from_distinct 1%positive (from_uuid n) (reference <$> entries)).

Definition yielding_entries : list SemanticTranscriptEntry :=
  [from_validated_parts (from_uuid 1) (from_uuid 21) (AssistantToolUse (from_uuid 41) (from_uuid 11));
   from_validated_parts (from_uuid 2) (from_uuid 21) (AssistantToolUse (from_uuid 41) (from_uuid 12))].

Definition sample_projected (attempts : list ReconstitutedToolAttempt)
    (phase : ToolBatchPhaseReconstitutionInput) :
    ToolBatchReconstitutionInput (@ResolvedContextFrontierSnapshot reference_rpds) :=
  mkBatchInput (from_uuid 21) (from_uuid 31) (from_uuid 41) (projected_snapshot_of 81 yielding_entries)
    [sample_tool 11; sample_tool 12] [sample_decision 11; sample_decision 12] attempts [] [] [] phase.

Definition sample_finished :=
  sample_projected [sample_wait; EndedAttempt (end_tool_attempt (sample_attempt 12 72) sample_completed)]
    (StoredExecuting (from_uuid 72)).

Definition sample_child : DelegationOutcome :=
  mkOutcome ChildFailed None ReasonChildExecutionFailed
    (OutcomeChildTurn (mkTerminalChild (from_uuid 22) (from_uuid 95) TerminalFailed
                         ReasonChildExecutionFailed None)).

Lemma sample_projected_wf attempts phase : snapshot_wf (stored_yielded (sample_projected attempts phase)).
Proof.
  pose proof (from_distinct_wf 1%positive (from_uuid 81) (reference <$> yielding_entries)) as Hwf.
  assert (NoDup (reference <$> yielding_entries)) as Hnd by (by apply (bool_decide_unpack _)).
  split; [exact Hwf|].
  by rewrite <- from_distinct_entries with (token := 1%positive) (i := from_uuid 81) in Hnd.
Qed.

Lemma sample_finished_legal : batch_legal sample_finished.
Proof.
  assert (is_ok (reconstitute_batch ∅ sample_finished) = true) as Hok by (vm_compute; reflexivity).
  destruct (reconstitute_batch ∅ sample_finished) as [[b store]|] eqn:Hr; [|discriminate].
  exact (proj1 (reconstituted_batch _ _ _ _ Hr)).
Qed.

Definition sample_ids : list SemanticTranscriptEntryId := [from_uuid 3; from_uuid 4].

Lemma sample_fresh attempts phase : fresh_identities (sample_projected attempts phase) sample_ids (from_uuid 82).
Proof.
  split_and!; [done|by apply (bool_decide_unpack _)| |done].
  assert (forallb (fun id => bool_decide (id ∉ ref_entry <$> snapshot_entries
    (stored_yielded (sample_projected attempts phase)))) sample_ids = true) as Hall by (vm_compute; done).
  intros id Hid. rewrite List.forallb_forall in Hall. apply list_elem_of_In in Hid.
  by apply Hall, bool_decide_eq_true in Hid.
Qed.

Definition sample_continuation :=
  prepare_result_projection_with_delegation 2%positive (batch_of sample_finished ∅) sample_ids
    (from_uuid 82) {[from_uuid 11 := sample_child]}.

Lemma projections_close_exchanges_witness :
  exists p, sample_continuation = Ok p
    /\ closes_requests (batch_of sample_finished ∅) sample_ids (from_uuid 82) p
    /\ range_closes_tool_exchanges (yielding_entries ++ projected_result_entries p) = true.
Proof.
  assert (is_ok sample_continuation = true) as Hok by (vm_compute; reflexivity).
  destruct sample_continuation as [p|] eqn:Hp; [|discriminate]. exists p. split; [reflexivity|].
  destruct (projections_close_exchanges 2%positive (batch_of sample_finished ∅) sample_ids (from_uuid 82) p
    yielding_entries (sample_projected_wf _ _) (legal_distinct _ sample_finished_legal)
    (by_continuation 2%positive (batch_of sample_finished ∅) sample_ids (from_uuid 82) _ p Hp)) as [Hc Hr].
  split; [exact Hc|]. apply Hr. vm_compute. reflexivity.
Defined.

Lemma result_projection_exact_witness :
  settled sample_finished
  /\ (forall q, is_Some (({[from_uuid 11 := sample_child]} : gmap ToolRequestId DelegationOutcome) !! q)
       <-> awaited sample_finished q)
  /\ ~ (exists p, prepare_result_projection 2%positive (batch_of sample_finished ∅) sample_ids
               (from_uuid 82) = Ok p).
Proof.
  destruct (proj1 (result_projection_exact sample_finished ∅ sample_finished_legal
    (sample_projected_wf _ _) 2%positive sample_ids (from_uuid 82) {[from_uuid 11 := sample_child]}))
    as (_ & Hsettled & Hawaited & _).
  - assert (is_ok sample_continuation = true) as Hok by (vm_compute; reflexivity).
    unfold sample_continuation in Hok.
    destruct (prepare_result_projection_with_delegation _ _ _ _ _) as [p|]; [by exists p|discriminate].
  - split; [exact Hsettled|]. split; [exact Hawaited|]. intros [p Hp].
    assert (is_ok (prepare_result_projection 2%positive (batch_of sample_finished ∅) sample_ids
      (from_uuid 82)) = false) as Hno by (vm_compute; reflexivity).
    rewrite Hp in Hno. discriminate.
Defined.

Definition sample_unrecovered :=
  sample_projected [EndedAttempt (end_tool_attempt (sample_attempt 11 72) EndAmbiguous)]
    (StoredAwaitingRecovery (from_uuid 61)).

Lemma batch_always_closes_witness :
  exists p, prepare_reconciliation_projection 2%positive (batch_of sample_unrecovered ∅) sample_ids
    (from_uuid 82) = Ok p.
Proof.
  assert (batch_legal sample_unrecovered) as Hlegal.
  { assert (is_ok (reconstitute_batch ∅ sample_unrecovered) = true) as Hok by (vm_compute; reflexivity).
    destruct (reconstitute_batch ∅ sample_unrecovered) as [[b store]|] eqn:Hr; [|discriminate].
    exact (proj1 (reconstituted_batch _ _ _ _ Hr)). }
  apply (batch_always_closes sample_unrecovered ∅ Hlegal (sample_projected_wf _ _) 2%positive
    sample_ids (from_uuid 82)); [|apply sample_fresh].
  intros a Ha. apply elem_of_cons in Ha as [->|Ha]; [reflexivity|by apply elem_of_nil in Ha].
Defined.
