(* ===== verification/UserContent.v ===== *)
(** * User content

    Model of [crates/domain/src/user_content.rs]: the bounded values of an
    attachment, the ordered parts of an accepted input and their admission. The
    nonempty text is that of [Delegation]; a blob digest is its bytes. *)

From stdpp Require Import strings.
From S2P Require Import Prelude Delegation.

Local Open Scope string_scope.
Local Open Scope list_scope.

Definition MAX_USER_CONTENT_PARTS : nat := 256.
Definition MAX_USER_CONTENT_TEXT_BYTES : N := 1048576.
Definition MAX_DECLARED_MEDIA_TYPE_BYTES : N := 255.
Definition MAX_ATTACHMENT_DISPLAY_FILENAME_BYTES : N := 255.

(** [BlobDigest] of blob.rs, the 32 bytes as one value *)
Record BlobDigest := mkBlobDigest { blob_digest : N }.

#[export] Instance BlobDigest_eq_dec : EqDecision BlobDigest.
Proof. solve_decision. Defined.
#[export] Instance BlobDigest_countable : Countable BlobDigest.
Proof. by apply (inj_countable' blob_digest mkBlobDigest); intros []. Defined.

Inductive AttachmentKind := KindImage | KindDocument | KindFile.

#[export] Instance AttachmentKind_eq_dec : EqDecision AttachmentKind.
Proof. solve_decision. Defined.

Record AttachmentBlobFact := mkBlobFact {
  blob_fact_digest : BlobDigest;
  blob_fact_byte_length : positive;
}.

(** ** The bounded texts of an attachment *)

Record DeclaredMediaType := mkMediaType { media_type_str : string }.
Inductive DeclaredMediaTypeFailure := MediaTypeEmpty | MediaTypeTooLong | MediaTypeNotVisibleAscii.

#[export] Instance DeclaredMediaType_eq_dec : EqDecision DeclaredMediaType.
Proof. solve_decision. Defined.

(** [bytes().all] and [contains(char)] of an ASCII character *)
Fixpoint string_forallb (test : Ascii.ascii -> bool) (value : string) : bool :=
  match value with
  | EmptyString => true
  | String byte value => test byte && string_forallb test value
  end.

(** [(0x21..=0x7e).contains(&byte)] *)
Definition is_visible_ascii (byte : Ascii.ascii) : bool :=
  let code := Ascii.N_of_ascii byte in (33 <=? code)%N && (code <=? 126)%N.

Definition media_type_try_new (value : string) :
    result (string * DeclaredMediaTypeFailure) DeclaredMediaType :=
  let failure :=
    if bool_decide (value = "") then Some MediaTypeEmpty
    else if (MAX_DECLARED_MEDIA_TYPE_BYTES <? utf8_len value)%N then Some MediaTypeTooLong
    else if negb (string_forallb is_visible_ascii value) then Some MediaTypeNotVisibleAscii
    else None in
  match failure with
  | Some failure => Err (value, failure)
  | None => Ok (mkMediaType value)
  end.

Record AttachmentDisplayFilename := mkFilename { filename_str : string }.
Inductive AttachmentDisplayFilenameFailure :=
| FilenameEmpty | FilenameTooLong | FilenameReservedBasename | FilenameContainsPathSeparator
| FilenameContainsNull.

#[export] Instance AttachmentDisplayFilename_eq_dec : EqDecision AttachmentDisplayFilename.
Proof. solve_decision. Defined.

(** ['/'] and ['\\'] *)
Definition is_path_separator (byte : Ascii.ascii) : bool :=
  let code := Ascii.N_of_ascii byte in (code =? 47)%N || (code =? 92)%N.

Definition filename_try_new (value : string) :
    result (string * AttachmentDisplayFilenameFailure) AttachmentDisplayFilename :=
  let failure :=
    if bool_decide (value = "") then Some FilenameEmpty
    else if (MAX_ATTACHMENT_DISPLAY_FILENAME_BYTES <? utf8_len value)%N then Some FilenameTooLong
    else if bool_decide (value = ".") || bool_decide (value = "..") then Some FilenameReservedBasename
    else if negb (string_forallb (fun byte => negb (is_path_separator byte)) value)
    then Some FilenameContainsPathSeparator
    else if contains_null value then Some FilenameContainsNull else None in
  match failure with
  | Some failure => Err (value, failure)
  | None => Ok (mkFilename value)
  end.

(** ** Parts *)

Inductive UserContentPart :=
| PartText (value : NonEmptyUnicodeText)
| PartAttachment (digest : BlobDigest) (kind : AttachmentKind) (media_type : DeclaredMediaType)
    (display_filename : option AttachmentDisplayFilename).

#[export] Instance UserContentPart_eq_dec : EqDecision UserContentPart.
Proof. solve_decision. Defined.

Definition part_try_text (value : string) :
    result (string * NonEmptyUnicodeTextFailure) UserContentPart :=
  PartText <$> unicode_text_try_new value.

Record UserContent := mkUserContent { content_parts : list UserContentPart }.

#[export] Instance UserContent_eq_dec : EqDecision UserContent.
Proof. solve_decision. Defined.

Definition content_try_text (value : string) :
    result (string * NonEmptyUnicodeTextFailure) UserContent :=
  value ← unicode_text_try_new value;
  if (MAX_USER_CONTENT_TEXT_BYTES <? utf8_len (unicode_text value))%N
  then Err (unicode_text value, UnicodeTooLong)
  else Ok (mkUserContent [PartText value]).

Inductive UserContentFailure := ContentEmpty | TooManyParts | AdjacentTextParts | TextTooLarge.

(** One iteration: the bytes of text so far, and whether the last part was text. *)
Definition admit_part (state : N * bool) (part : UserContentPart) : result UserContentFailure (N * bool) :=
  let '(aggregate_text_bytes, previous_was_text) := state in
  match part with
  | PartText value =>
      if previous_was_text then Err AdjacentTextParts else
      aggregate_text_bytes ←
        ok_or (u64_checked_add aggregate_text_bytes (utf8_len (unicode_text value))) TextTooLarge;
      if (MAX_USER_CONTENT_TEXT_BYTES <? aggregate_text_bytes)%N then Err TextTooLarge
      else Ok (aggregate_text_bytes, true)
  | PartAttachment _ _ _ _ => Ok (aggregate_text_bytes, false)
  end.

Definition user_content_failure (parts : list UserContentPart) : option UserContentFailure :=
  if bool_decide (parts = []) then Some ContentEmpty else
  if (MAX_USER_CONTENT_PARTS <? length parts)%nat then Some TooManyParts else
  match try_fold admit_part parts (0%N, false) with
  | Ok _ => None
  | Err failure => Some failure
  end.

Definition content_try_parts (parts : list UserContentPart) :
    result (list UserContentPart * UserContentFailure) UserContent :=
  match user_content_failure parts with
  | Some failure => Err (parts, failure)
  | None => Ok (mkUserContent parts)
  end.

Definition single_text (self : UserContent) : option NonEmptyUnicodeText :=
  match content_parts self with [PartText value] => Some value | _ => None end.

(** ** What is admitted *)

Definition part_bytes (part : UserContentPart) : N :=
  match part with PartText value => utf8_len (unicode_text value) | PartAttachment _ _ _ _ => 0%N end.
Definition text_bytes (parts : list UserContentPart) : N := foldr (fun part sum => part_bytes part + sum)%N 0%N parts.
Definition part_is_text (part : UserContentPart) : bool :=
  match part with PartText _ => true | PartAttachment _ _ _ _ => false end.

(** No two texts follow each other, and the texts together fit. *)
Definition parts_fit (parts : list UserContentPart) : Prop :=
  (forall before a b after, parts = before ++ a :: b :: after -> part_is_text a && part_is_text b = false)
  /\ (text_bytes parts <= MAX_USER_CONTENT_TEXT_BYTES)%N.

Lemma text_bytes_app a b : text_bytes (a ++ b) = (text_bytes a + text_bytes b)%N.
Proof. induction a as [|p a IH]; simpl; [done|]. rewrite IH. lia. Qed.

Lemma parts_fit_snoc parts part :
  parts_fit (parts ++ [part]) <->
  parts_fit parts /\ ~ (part_is_text part = true /\ part_is_text <$> last parts = Some true)
  /\ (text_bytes parts + part_bytes part <= MAX_USER_CONTENT_TEXT_BYTES)%N.
Proof.
  unfold parts_fit. rewrite text_bytes_app. simpl. rewrite N.add_0_r. split.
  - intros [Hadj Hsum]. split_and!; [|lia| |done].
    + intros before a b after ->. apply (Hadj before a b (after ++ [part])). by rewrite <- app_assoc.
    + intros [Hp Hl]. destruct (last parts) as [a|] eqn:Ha; [|done]. injection Hl as Hl.
      apply last_Some in Ha as [before ->]. specialize (Hadj before a part []).
      rewrite <- app_assoc, Hp, Hl in Hadj. by specialize (Hadj eq_refl).
  - intros ([Hadj Hsum] & Hlast & Hbytes). split; [|done]. intros before a b after Heq.
    destruct after as [|c after _] using rev_ind.
    + change (before ++ [a; b]) with (before ++ [a] ++ [b]) in Heq. rewrite app_assoc in Heq.
      apply app_inj_tail in Heq as [-> ->]. apply not_true_iff_false. intros [Ha Hb]%andb_true_iff.
      apply Hlast. split; [done|]. rewrite last_snoc. by simpl; rewrite Ha.
    + rewrite (app_assoc before [a]), (app_assoc _ [b]) in Heq || idtac.
      assert (parts ++ [part] = (before ++ a :: b :: after) ++ [c]) as Heq'
        by (by rewrite Heq, <- app_assoc).
      apply app_inj_tail in Heq' as [-> _]. by eapply Hadj.
Qed.

Definition ends_in_text (parts : list UserContentPart) : bool := from_option part_is_text false (last parts).

Lemma admit_part_Ok sum was part state :
  (sum <= MAX_USER_CONTENT_TEXT_BYTES)%N ->
  admit_part (sum, was) part = Ok state <->
  ~ (part_is_text part = true /\ was = true) /\ (sum + part_bytes part <= MAX_USER_CONTENT_TEXT_BYTES)%N
  /\ state = ((sum + part_bytes part)%N, part_is_text part).
Proof.
  intros Hsum. destruct part as [value|]; simpl.
  - destruct was; [naive_solver|].
    rewrite bind_Ok. setoid_rewrite ok_or_Ok. setoid_rewrite u64_checked_add_Some.
    setoid_rewrite if_false_Ok. setoid_rewrite N.ltb_ge.
    assert (MAX_USER_CONTENT_TEXT_BYTES <= u64_max)%N by (unfold MAX_USER_CONTENT_TEXT_BYTES, u64_max; lia).
    split; [intros (? & [-> _] & ? & [= <-])|intros (_ & ? & ->)]; naive_solver lia.
  - rewrite N.add_0_r. naive_solver.
Qed.

Lemma admit_parts_Ok parts state :
  try_fold admit_part parts (0%N, false) = Ok state <->
  parts_fit parts /\ state = (text_bytes parts, ends_in_text parts).
Proof.
  revert state. induction parts as [|part parts IH] using rev_ind; intros state.
  { simpl. split; [intros [= <-]|by intros [_ ->]]. split; [|done]. split; [|done].
    by intros [|? ?]. }
  rewrite try_fold_app, bind_Ok, parts_fit_snoc, text_bytes_app. setoid_rewrite IH.
  unfold ends_in_text at 2. rewrite last_snoc. cbn [from_option text_bytes foldr].
  assert (forall s, try_fold admit_part [part] s = admit_part s part) as Hone.
  { intros s. simpl. by destruct (admit_part s part). }
  assert (ends_in_text parts = true <-> part_is_text <$> last parts = Some true) as Hend.
  { unfold ends_in_text. destruct (last parts) as [p|]; simpl; [|done]. split; [by intros ->|by intros [= ->]]. }
  setoid_rewrite Hone. rewrite N.add_0_r. split.
  - intros (? & [Hfit ->] & Hstep). apply admit_part_Ok in Hstep as (Hno & Hle & ->); [|apply Hfit].
    rewrite Hend in Hno. by split_and!.
  - intros ((Hfit & Hno & Hle) & ->). eexists. split; [by split|].
    apply admit_part_Ok; [apply Hfit|]. rewrite Hend. by split_and!.
Qed.

(** Content is admitted unchanged exactly when it has between one and 256
    parts, no two texts in a row and at most a mebibyte of text; a rejection
    returns the parts and names the first rule, in order of the parts, that
    fails. *)
Theorem user_content_exact parts :
  match content_try_parts parts with
  | Ok content =>
      content = mkUserContent parts /\ parts <> [] /\ length parts <= MAX_USER_CONTENT_PARTS
      /\ parts_fit parts
  | Err (rejected, failure) =>
      rejected = parts
      /\ match failure with
         | ContentEmpty => parts = []
         | TooManyParts => MAX_USER_CONTENT_PARTS < length parts
         | AdjacentTextParts => exists before a b after,
             parts = before ++ PartText a :: PartText b :: after /\ parts_fit (before ++ [PartText a])
         | TextTooLarge => exists before part after, parts = before ++ part :: after /\ parts_fit before
             /\ (MAX_USER_CONTENT_TEXT_BYTES < text_bytes before + part_bytes part)%N
         end
  end.
Proof.
  unfold content_try_parts, user_content_failure.
  case_bool_decide as Hempty; [done|]. destruct (Nat.ltb_spec MAX_USER_CONTENT_PARTS (length parts)); [done|].
  destruct (try_fold admit_part parts (0%N, false)) as [state|failure] eqn:Hfold.
  { apply admit_parts_Ok in Hfold as [Hfit _]. by split_and!. }
  split; [done|]. apply try_fold_Err in Hfold as (before & part & after & state & -> & Hbefore & Hpart).
  apply admit_parts_Ok in Hbefore as [Hfit ->]. destruct part as [value|]; simpl in Hpart; [|done].
  destruct (ends_in_text before) eqn:Hend.
  - injection Hpart as <-. unfold ends_in_text in Hend. destruct (last before) as [p|] eqn:Hlast; [|done].
    apply last_Some in Hlast as [prefix ->]. destruct p as [a|]; [|done].
    exists prefix, a, value, after. by rewrite <- app_assoc.
  - assert (failure = TextTooLarge) as ->.
    { apply bind_Err in Hpart as [[_ <-]%ok_or_Err|(? & _ & Hrest)]; [done|].
      destruct (_ <? _)%N in Hrest; [by injection Hrest|done]. }
    exists before, (PartText value), after. split_and!; [done..|]. apply N.nle_gt. intros Hle.
    assert (admit_part (text_bytes before, false) (PartText value)
            = Ok ((text_bytes before + part_bytes (PartText value))%N, true)) as Hok.
    { apply admit_part_Ok; [apply Hfit|]. split_and!; [by intros [_ [=]]|done|done]. }
    simpl in Hok. by rewrite Hok in Hpart.
Qed.
