(* ===== verification/ModelExecution.v ===== *)
(** * Model execution: data

    The values of [crates/domain/src/model_execution/]: the active turn of
    [turn_eligibility/activated_turn.rs] it runs, the target catalog, the
    observations of a provider, the identities a transaction brings, the
    candidates it commits, and the live aggregate. The transitions over them
    are in [TurnClosure], [ExecutionSteps] and [InterruptApplication]. *)

From stdpp Require Import strings.
From S2P Require Import Prelude QueueOrder ModelSettings Configuration Interrupt TurnAttempt Frontier ModelCall Tool ToolAttempt TurnLifecycle Delegation SemanticEntry UserContent.

Local Open Scope list_scope.

(** ** The active turn *)

(** [PendingSteeringInput] and [ConsumedSteeringInput] of
    turn_eligibility/projection.rs *)
Record PendingSteeringInput := mkPendingSteering {
  pending_lifecycle : AcceptedInputLifecycle;
  pending_position : SessionInputPosition;
}.

Record ConsumedSteeringInput := mkConsumedSteering {
  consumed_lifecycle : AcceptedInputLifecycle;
  consumed_position : SessionInputPosition;
  consumed_source_turn : TurnId;
}.

Record ConsumedSteeringReconstitutionInput := mkStoredConsumed {
  stored_consumed_session : SessionId;
  stored_consumed_lifecycle : AcceptedInputLifecycle;
  stored_consumed_position : SessionInputPosition;
  stored_consumed_source_turn : TurnId;
}.

Definition pending_accepted_input (self : PendingSteeringInput) : AcceptedInputId :=
  lifecycle_id (pending_lifecycle self).
Definition consumed_accepted_input (self : ConsumedSteeringInput) : AcceptedInputId :=
  lifecycle_id (consumed_lifecycle self).

Inductive TurnConfigurationProvenance :=
| ExplicitOrigin (origin : OriginConfiguration)
| InheritedForReclassifiedSteering (binding : SteeringBinding).

Record ActivatedAcceptedInputTurn := mkAcceptedTurn {
  accepted_session : SessionId;
  accepted_turn : TurnId;
  accepted_origin_input : AcceptedInputLifecycle;
  accepted_order : AcceptedInputQueueOrder;
  accepted_configuration : OriginConfiguration;
  accepted_configuration_provenance : TurnConfigurationProvenance;
  accepted_start : AcceptedInputTurnStart;
  accepted_phase : ActiveTurnPhase;
  accepted_pending_steering : list PendingSteeringInput;
  accepted_consumed_steering : list ConsumedSteeringInput;
}.

Inductive ActivatedDelegatedTurnOrigin :=
| InitialTask (spawning_request : ToolRequestId) (task : DelegationContent)
| PendingDeliveries (first through : positive).

Record ActivatedDelegatedTurn := mkDelegatedTurn {
  delegated_session : SessionId;
  delegated_turn : TurnId;
  delegated_origin : ActivatedDelegatedTurnOrigin;
  delegated_configuration : OriginConfiguration;
  delegated_start : AcceptedInputTurnStart;
  delegated_phase : ActiveTurnPhase;
  delegated_pending_steering : list PendingSteeringInput;
  delegated_consumed_steering : list ConsumedSteeringInput;
}.

(** The disposition names this turn as the one it steers. *)
Definition steers (turn : TurnId) (lifecycle : AcceptedInputLifecycle) : bool :=
  match lifecycle_disposition lifecycle with
  | PendingSteering binding => bool_decide (source_turn binding = turn)
  | _ => false
  end.

Definition is_consumed (lifecycle : AcceptedInputLifecycle) : bool :=
  match lifecycle_disposition lifecycle with ConsumedAsSteering _ => true | _ => false end.

Definition with_pending_steering (self : ActivatedDelegatedTurn)
    (pending_steering : list PendingSteeringInput) : option ActivatedDelegatedTurn :=
  if existsb (fun pending => negb (steers (delegated_turn self) (pending_lifecycle pending)))
       pending_steering
  then None
  else Some (mkDelegatedTurn (delegated_session self) (delegated_turn self) (delegated_origin self)
               (delegated_configuration self) (delegated_start self) (delegated_phase self)
               pending_steering (delegated_consumed_steering self)).

Definition admit_consumed (self : ActivatedDelegatedTurn)
    (consumed : ConsumedSteeringReconstitutionInput) : option ConsumedSteeringInput :=
  if bool_decide (stored_consumed_session consumed = delegated_session self)
     && bool_decide (stored_consumed_source_turn consumed = delegated_turn self)
     && is_consumed (stored_consumed_lifecycle consumed)
  then Some (mkConsumedSteering (stored_consumed_lifecycle consumed)
               (stored_consumed_position consumed) (stored_consumed_source_turn consumed))
  else None.

Definition with_consumed_steering (self : ActivatedDelegatedTurn)
    (consumed_steering : list ConsumedSteeringReconstitutionInput) : option ActivatedDelegatedTurn :=
  consumed_steering ← mapM (admit_consumed self) consumed_steering;
  Some (mkDelegatedTurn (delegated_session self) (delegated_turn self) (delegated_origin self)
          (delegated_configuration self) (delegated_start self) (delegated_phase self)
          (delegated_pending_steering self) consumed_steering).

Inductive ActivatedTurn :=
| ActivatedAccepted (turn : ActivatedAcceptedInputTurn)
| ActivatedDelegated (turn : ActivatedDelegatedTurn).

Definition active_session (self : ActivatedTurn) : SessionId :=
  match self with
  | ActivatedAccepted turn => accepted_session turn
  | ActivatedDelegated turn => delegated_session turn
  end.
Definition active_turn_id (self : ActivatedTurn) : TurnId :=
  match self with
  | ActivatedAccepted turn => accepted_turn turn
  | ActivatedDelegated turn => delegated_turn turn
  end.
Definition active_configuration (self : ActivatedTurn) : OriginConfiguration :=
  match self with
  | ActivatedAccepted turn => accepted_configuration turn
  | ActivatedDelegated turn => delegated_configuration turn
  end.
Definition active_configuration_provenance (self : ActivatedTurn) : TurnConfigurationProvenance :=
  match self with
  | ActivatedAccepted turn => accepted_configuration_provenance turn
  | ActivatedDelegated turn => ExplicitOrigin (delegated_configuration turn)
  end.
Definition active_start (self : ActivatedTurn) : AcceptedInputTurnStart :=
  match self with
  | ActivatedAccepted turn => accepted_start turn
  | ActivatedDelegated turn => delegated_start turn
  end.
Definition active_phase (self : ActivatedTurn) : ActiveTurnPhase :=
  match self with
  | ActivatedAccepted turn => accepted_phase turn
  | ActivatedDelegated turn => delegated_phase turn
  end.
Definition active_pending_steering (self : ActivatedTurn) : list PendingSteeringInput :=
  match self with
  | ActivatedAccepted turn => accepted_pending_steering turn
  | ActivatedDelegated turn => delegated_pending_steering turn
  end.
Definition active_consumed_steering (self : ActivatedTurn) : list ConsumedSteeringInput :=
  match self with
  | ActivatedAccepted turn => accepted_consumed_steering turn
  | ActivatedDelegated turn => delegated_consumed_steering turn
  end.

(** [reconstitute_frontier_entries]; a stored entry has the three parts of one. *)
Definition reconstitute_frontier_entries (self : ActivatedTurn)
    (entries : list SemanticTranscriptEntry) : option (list SemanticTranscriptEntry) :=
  mapM (fun entry =>
    if bool_decide (semantic_source_session entry = active_session self)
    then Some (from_validated_parts (semantic_identity entry) (semantic_source_session entry)
                 (semantic_payload entry))
    else None) entries.

(** ** The target catalog *)

Record ModelTargetDefinition := mkTargetDefinition {
  definition_selection : DirectModelSelection;
  definition_target : ResolvedProviderTarget;
}.

Record ModelTargetCatalog := mkTargetCatalog {
  catalog_targets : gmap DirectModelSelection ResolvedProviderTarget;
}.

Inductive ModelTargetCatalogError := DuplicateSelection (selection : DirectModelSelection).

(** One iteration: [insert(..).is_some()] is whether the key was present. *)
Definition insert_definition (targets : gmap DirectModelSelection ResolvedProviderTarget)
    (definition : ModelTargetDefinition) :
    result ModelTargetCatalogError (gmap DirectModelSelection ResolvedProviderTarget) :=
  if bool_decide (is_Some (targets !! definition_selection definition))
  then Err (DuplicateSelection (definition_selection definition))
  else Ok (<[definition_selection definition := definition_target definition]> targets).

Definition targets_try_from_definitions (definitions : list ModelTargetDefinition) :
    result ModelTargetCatalogError ModelTargetCatalog :=
  mkTargetCatalog <$> try_fold insert_definition definitions ∅.

Record ResolvedModelSelection := mkResolvedSelection {
  resolved_selection : FrozenModelSelection;
  resolved_target : ResolvedProviderTarget;
}.

Record ModelTargetResolutionError := mkResolutionError {
  unresolved_selection : FrozenModelSelection;
  unresolved_direct : DirectModelSelection;
}.

#[export] Instance ModelTargetResolutionError_eq_dec : EqDecision ModelTargetResolutionError.
Proof. solve_decision. Defined.

Definition resolve_target (self : ModelTargetCatalog) (selection : FrozenModelSelection) :
    result ModelTargetResolutionError ResolvedModelSelection :=
  let direct :=
    match selection with
    | FrozenDirect direct => direct
    | FrozenAlias _ definition => alias_selected definition
    end in
  target ← ok_or (catalog_targets self !! direct) (mkResolutionError selection direct);
  Ok (mkResolvedSelection selection target).

(** ** Response parts (tool/proposal.rs) *)

Inductive AssistantResponsePart :=
| ResponseText (value : AssistantText)
| ResponseCompaction (block : ProviderCompactionBlock)
| ResponseReasoning (item : ProviderReasoningItem)
| ResponseToolCall (proposal : ToolCallProposal).

#[export] Instance ToolCallProposal_eq_dec : EqDecision ToolCallProposal.
Proof. solve_decision. Defined.
#[export] Instance AssistantResponsePart_eq_dec : EqDecision AssistantResponsePart.
Proof. solve_decision. Defined.

Record ToolUsingAssistantResponse := mkToolResponse {
  tool_response_parts : list AssistantResponsePart;
  tool_response_count : nat;
}.

#[export] Instance ToolUsingAssistantResponse_eq_dec : EqDecision ToolUsingAssistantResponse.
Proof. solve_decision. Defined.

Definition is_tool_call (part : AssistantResponsePart) : bool :=
  match part with ResponseToolCall _ => true | _ => false end.
Definition is_compaction_part (part : AssistantResponsePart) : bool :=
  match part with ResponseCompaction _ => true | _ => false end.

(** [try_from_parts]; the error returns the parts. *)
Definition tool_response_try_from_parts (parts : list AssistantResponsePart) :
    result (list AssistantResponsePart) ToolUsingAssistantResponse :=
  let tool_count := length (List.filter is_tool_call parts) in
  if (tool_count =? 0)%nat then Err parts else Ok (mkToolResponse parts tool_count).

(** ** Observations (provider_call.rs) *)

Inductive ModelCallTerminalObservation :=
| ObservedCompleted (assistant_text : list AssistantText)
| ObservedWithReasoning (response : list AssistantResponsePart)
| ObservedWithCompaction (response : list AssistantResponsePart)
    (retained_input_tokens retained_output_tokens : N)
| ObservedWithTools (response : ToolUsingAssistantResponse)
    (retained_input_tokens retained_output_tokens : option N)
| ObservedKnownFailed
| ObservedRefused
| ObservedRefusedWithCompaction (provider_compaction : list ProviderCompactionBlock)
    (retained_input_tokens retained_output_tokens : N)
| ObservedCancelled
| ObservedAmbiguous.

#[export] Instance ModelCallTerminalObservation_eq_dec : EqDecision ModelCallTerminalObservation.
Proof. solve_decision. Defined.

Definition retained_input_tokens (self : ModelCallTerminalObservation) : option N :=
  match self with
  | ObservedWithCompaction _ input _ | ObservedRefusedWithCompaction _ input _ => Some input
  | ObservedWithTools _ input _ => input
  | _ => None
  end.

Definition retained_output_tokens (self : ModelCallTerminalObservation) : option N :=
  match self with
  | ObservedWithCompaction _ _ output | ObservedRefusedWithCompaction _ _ output => Some output
  | ObservedWithTools _ _ output => output
  | _ => None
  end.

Definition observation_disposition (self : ModelCallTerminalObservation) : ModelCallDisposition :=
  match self with
  | ObservedCompleted _ | ObservedWithCompaction _ _ _ | ObservedWithReasoning _
  | ObservedWithTools _ _ _ => CallCompleted
  | ObservedKnownFailed => CallKnownFailed
  | ObservedRefused | ObservedRefusedWithCompaction _ _ _ => CallRefused
  | ObservedCancelled => CallCancelled
  | ObservedAmbiguous => CallAmbiguous
  end.

Definition is_tool_round (self : ModelCallTerminalObservation) : bool :=
  match self with ObservedWithTools _ _ _ => true | _ => false end.

Record IssuedModelCallCorrelation := mkCorrelation {
  issued_session : SessionId;
  issued_turn : TurnId;
  issued_attempt : TurnAttemptId;
  issued_call : ModelCallId;
  issued_target : ResolvedProviderTarget;
  issued_frontier : ContextFrontierId;
}.

#[export] Instance IssuedModelCallCorrelation_eq_dec : EqDecision IssuedModelCallCorrelation.
Proof. solve_decision. Defined.

Record ProviderReportedTokenUsage := mkReportedUsage {
  reported_input_tokens : option N;
  reported_output_tokens : option N;
  reported_cache_creation_input_tokens : option N;
  reported_cache_read_input_tokens : option N;
}.

(** [ProviderReportedTokenUsage::unreported] *)
Definition usage_unreported : ProviderReportedTokenUsage := mkReportedUsage None None None None.

Inductive ProviderModelCallFailureCause :=
| CredentialRejected | PermissionDenied | InvalidRequest | TargetNotFound | RequestTooLarge
| RateLimited | QuotaExhausted | Overloaded | ProviderInternal | Unrecognized.

Inductive CredentialRejectionRecovery := CredentialRefreshed | CredentialUnavailable.

(** [ProviderRateLimitWindow] and [ProviderRateLimitSnapshot] of rate_limit.rs;
    durations and instants in nanoseconds. *)
Record ProviderRateLimitWindow := mkRateWindow {
  rate_remaining_percent : Z;
  rate_window_duration : option N;
  rate_resets_at : option Z;
}.
Record ProviderRateLimitSnapshot := mkRateSnapshot {
  rate_observed_at : Z;
  rate_windows : list ProviderRateLimitWindow;
}.

Record ModelCallAmbiguityEvidence := mkAmbiguityEvidence {
  evidence_summary : string;
  evidence_original_bytes : N;
}.

(** A byte [0b10xxxxxx], which continues a character. *)
Definition is_continuation_byte (byte : Ascii.ascii) : bool :=
  let code := Ascii.N_of_ascii byte in (128 <=? code)%N && (code <? 192)%N.

(** [str::is_char_boundary] and [str::floor_char_boundary] of the standard
    library: the largest boundary that is not beyond the index. *)
Definition is_char_boundary (value : string) (index : nat) : bool :=
  match String.get index value with
  | Some byte => negb (is_continuation_byte byte)
  | None => (index =? String.length value)%nat
  end || (index =? 0)%nat.

Fixpoint floor_char_boundary (value : string) (index : nat) : nat :=
  match index with
  | O => O
  | S below => if is_char_boundary value index then index else floor_char_boundary value below
  end.

Definition AMBIGUITY_SUMMARY_BYTES : nat := 4096.

(** [ModelCallAmbiguityEvidence::new] *)
Definition ambiguity_evidence_new (summary : string) : ModelCallAmbiguityEvidence :=
  let end_ := floor_char_boundary summary (Nat.min (String.length summary) AMBIGUITY_SUMMARY_BYTES) in
  mkAmbiguityEvidence (String.substring 0 end_ summary) (utf8_len summary).

Record CorrelatedModelCallTerminalObservation := mkObservation {
  observed_ambiguity_evidence : option ModelCallAmbiguityEvidence;
  observed_credential_recovery : option CredentialRejectionRecovery;
  observed_rate_limits : option ProviderRateLimitSnapshot;
  observed_correlation : IssuedModelCallCorrelation;
  observed_observation : ModelCallTerminalObservation;
  observed_usage : ProviderReportedTokenUsage;
  observed_provider_failure_cause : option ProviderModelCallFailureCause;
  observed_retry_after : option N;
  observed_non_acceptance_proven : bool;
}.

Definition bind_terminal_observation_with_usage (self : IssuedModelCallCorrelation)
    (observation : ModelCallTerminalObservation) (usage : ProviderReportedTokenUsage) :
    CorrelatedModelCallTerminalObservation :=
  mkObservation None None None self observation usage None None false.

Definition bind_terminal_observation (self : IssuedModelCallCorrelation)
    (observation : ModelCallTerminalObservation) : CorrelatedModelCallTerminalObservation :=
  bind_terminal_observation_with_usage self observation usage_unreported.

Definition bind_provider_failure_observation_with_retry_after (self : IssuedModelCallCorrelation)
    (cause : ProviderModelCallFailureCause) (usage : ProviderReportedTokenUsage)
    (retry_after : option N) (non_acceptance_proven : bool) :
    CorrelatedModelCallTerminalObservation :=
  mkObservation None None None self ObservedKnownFailed usage (Some cause) retry_after
    non_acceptance_proven.

Definition bind_provider_failure_observation_with_usage (self : IssuedModelCallCorrelation)
    (cause : ProviderModelCallFailureCause) (usage : ProviderReportedTokenUsage) :
    CorrelatedModelCallTerminalObservation :=
  bind_provider_failure_observation_with_retry_after self cause usage None false.

(** [with_ambiguity_evidence]: kept by an ambiguous observation only. *)
Definition with_ambiguity_evidence (self : CorrelatedModelCallTerminalObservation)
    (evidence : option ModelCallAmbiguityEvidence) : CorrelatedModelCallTerminalObservation :=
  if bool_decide (observed_observation self = ObservedAmbiguous)
  then mkObservation evidence (observed_credential_recovery self) (observed_rate_limits self)
         (observed_correlation self) (observed_observation self) (observed_usage self)
         (observed_provider_failure_cause self) (observed_retry_after self)
         (observed_non_acceptance_proven self)
  else self.

(** ** Identities a transaction brings (terminal_identities.rs) *)

Record PendingSteeringReclassificationIdentity := mkReclassification {
  reclassified_input : AcceptedInputId;
  reclassified_turn : TurnId;
}.

Abbreviation reclassifications := (list PendingSteeringReclassificationIdentity).

Record CompletedModelCallIdentities := mkCompletedIdentities {
  completed_assistant_entries : list SemanticTranscriptEntryId;
  completed_completion_entry : SemanticTranscriptEntryId;
  completed_terminal_frontier : ContextFrontierId;
  completed_reclassifications : reclassifications;
}.

Inductive ToolResponsePartIdentity :=
| TextIdentity (entry : SemanticTranscriptEntryId)
| CompactionIdentity (entry : SemanticTranscriptEntryId)
| ReasoningIdentity (entry : SemanticTranscriptEntryId)
| ToolCallIdentity (entry : SemanticTranscriptEntryId) (request : ToolRequestId)
    (approval : InitialToolApproval).

Record ToolRoundModelCallIdentities := mkToolRoundIdentities {
  round_response_parts : list ToolResponsePartIdentity;
  round_yielded_frontier : ContextFrontierId;
  round_continuation_attempt : option TurnAttemptId;
}.

Inductive StoppedToolResponsePartIdentity :=
| StoppedTextIdentity (entry : SemanticTranscriptEntryId)
| StoppedCompactionIdentity (entry : SemanticTranscriptEntryId)
| StoppedReasoningIdentity (entry : SemanticTranscriptEntryId)
| StoppedToolCallIdentity (entry : SemanticTranscriptEntryId) (request : ToolRequestId)
    (closed_result_entry : SemanticTranscriptEntryId) (approval : InitialToolApproval).

Record StoppedToolRoundModelCallIdentities := mkStoppedRoundIdentities {
  stopped_response_parts : list StoppedToolResponsePartIdentity;
  stopped_cancellation_entry : SemanticTranscriptEntryId;
  stopped_terminal_frontier : ContextFrontierId;
  stopped_reclassifications : reclassifications;
}.

Record FailedModelCallTurnIdentities := mkFailedIdentities {
  failed_failure_entry : SemanticTranscriptEntryId;
  failed_terminal_frontier : ContextFrontierId;
  failed_reclassifications : reclassifications;
}.

Record CancelledModelCallTurnIdentities := mkCancelledIdentities {
  cancelled_cancellation_entry : SemanticTranscriptEntryId;
  cancelled_terminal_frontier : ContextFrontierId;
  cancelled_reclassifications : reclassifications;
}.

Record PhysicalCancellationModelCallTurnIdentities := mkPhysicalIdentities {
  physical_terminal_entry : SemanticTranscriptEntryId;
  physical_terminal_frontier : ContextFrontierId;
  physical_reclassifications : reclassifications;
}.

Record AmbiguousModelCallTurnIdentities := mkAmbiguousIdentities {
  ambiguous_terminal_frontier : ContextFrontierId;
  ambiguous_reclassifications : reclassifications;
}.

Record RefusedModelCallTurnIdentities := mkRefusedIdentities {
  refused_compaction_entries : list SemanticTranscriptEntryId;
  refused_terminal_frontier : ContextFrontierId;
  refused_reclassifications : reclassifications;
}.

(** [CancelledModelCallTurnIdentities::into_ambiguous] *)
Definition into_ambiguous (self : CancelledModelCallTurnIdentities) : AmbiguousModelCallTurnIdentities :=
  mkAmbiguousIdentities (cancelled_terminal_frontier self) (cancelled_reclassifications self).

Inductive ModelCallTerminalIdentities :=
| IdentitiesCompleted (identities : CompletedModelCallIdentities)
| IdentitiesToolRound (identities : ToolRoundModelCallIdentities)
| IdentitiesStoppedToolRound (identities : StoppedToolRoundModelCallIdentities)
| IdentitiesFailed (identities : FailedModelCallTurnIdentities)
| IdentitiesPhysicalCancellation (identities : PhysicalCancellationModelCallTurnIdentities)
| IdentitiesRefused (identities : RefusedModelCallTurnIdentities)
| IdentitiesAmbiguous (identities : AmbiguousModelCallTurnIdentities).

Definition tool_part_entry (part : ToolResponsePartIdentity) : SemanticTranscriptEntryId :=
  match part with
  | TextIdentity entry | CompactionIdentity entry | ReasoningIdentity entry
  | ToolCallIdentity entry _ _ => entry
  end.

Definition stopped_part_entries (part : StoppedToolResponsePartIdentity) :
    list SemanticTranscriptEntryId :=
  match part with
  | StoppedTextIdentity entry | StoppedCompactionIdentity entry
  | StoppedReasoningIdentity entry => [entry]
  | StoppedToolCallIdentity entry _ closed_result_entry _ => [entry; closed_result_entry]
  end.

Definition frontier_identity_candidates (self : ModelCallTerminalIdentities) :
    list SemanticTranscriptEntryId * ContextFrontierId :=
  match self with
  | IdentitiesCompleted identities =>
      (completed_assistant_entries identities ++ [completed_completion_entry identities],
       completed_terminal_frontier identities)
  | IdentitiesToolRound identities =>
      (tool_part_entry <$> round_response_parts identities, round_yielded_frontier identities)
  | IdentitiesStoppedToolRound identities =>
      (concat (stopped_part_entries <$> stopped_response_parts identities)
         ++ [stopped_cancellation_entry identities],
       stopped_terminal_frontier identities)
  | IdentitiesFailed identities =>
      ([failed_failure_entry identities], failed_terminal_frontier identities)
  | IdentitiesPhysicalCancellation identities =>
      ([physical_terminal_entry identities], physical_terminal_frontier identities)
  | IdentitiesRefused identities =>
      (refused_compaction_entries identities, refused_terminal_frontier identities)
  | IdentitiesAmbiguous identities => ([], ambiguous_terminal_frontier identities)
  end.

Definition pending_steering_reclassifications (self : ModelCallTerminalIdentities) :
    reclassifications :=
  match self with
  | IdentitiesCompleted identities => completed_reclassifications identities
  | IdentitiesToolRound _ => []
  | IdentitiesStoppedToolRound identities => stopped_reclassifications identities
  | IdentitiesFailed identities => failed_reclassifications identities
  | IdentitiesPhysicalCancellation identities => physical_reclassifications identities
  | IdentitiesRefused identities => refused_reclassifications identities
  | IdentitiesAmbiguous identities => ambiguous_reclassifications identities
  end.

(** ** Candidates to commit (terminal_turns.rs) *)

Inductive ModelCallClosureError :=
| UnexpectedProviderCompaction
| IdentityShapeMismatch
| CallStateMismatch
| ObservationCorrelationMismatch
| InterruptCorrelationMismatch
| AttemptStateMismatch
| TargetResolutionMismatch
| AssistantIdentityCountMismatch
| ToolResponseIdentityMismatch
| ToolRequestOrdinalOverflow
| InitialToolApprovalMismatch
| ContinuationAttemptIdentityMismatch
| PendingSteeringReclassificationMismatch
| TurnFrontierDerivationFailed
| AmbiguityConstructionFailed.

Abbreviation closing := (result ModelCallClosureError).

Record ReclassifiedPendingSteeringTurn := mkReclassified {
  steered_session : SessionId;
  steered_source_turn : TurnId;
  steered_accepted_input : AcceptedInputLifecycle;
  steered_turn : TurnId;
  steered_order : AcceptedInputQueueOrder;
  steered_binding : SteeringBinding;
  steered_effective_configuration : EffectiveConfiguration;
}.

Record AvailabilitySuccessorModelCallTurn := mkAvailabilitySuccessor {
  successor_non_acceptance_proven : bool;
  successor_session : SessionId;
  successor_turn : TurnId;
  successor_predecessor_call : EndedModelCall;
  successor_predecessor_attempt : EndedTurnAttempt;
  successor_attempt : CurrentTurnAttempt;
}.

Record StopRequestedModelCallTurn := mkStopRequested {
  stop_requested_session : SessionId;
  stop_requested_turn : TurnId;
  stop_requested_call : CurrentModelCall;
  stop_requested_attempt : CurrentTurnAttempt;
  stop_requested_interrupt : AppliedInterruptProof;
}.

Record AmbiguousModelCallTurn := mkAmbiguousTurn {
  ambiguous_session : SessionId;
  ambiguous_turn : TurnId;
  ambiguous_call : EndedModelCall;
  ambiguous_attempt : EndedTurnAttempt;
  ambiguous_turn_operations : NonEmptyIssuedOperationRefs;
}.

Section candidates.
Context {Snap : Type} `{ContextSnapshots Snap}.

Record CompletedModelCallTurn := mkCompletedTurn {
  completed_session : SessionId;
  completed_turn : TurnId;
  completed_call : EndedModelCall;
  completed_attempt : EndedTurnAttempt;
  completed_disposition : TurnDisposition;
  completed_turn_assistant_entries : list SemanticTranscriptEntry;
  completed_turn_completion_entry : SemanticTranscriptEntry;
  completed_terminal_snapshot : Snap;
  completed_steering : list ReclassifiedPendingSteeringTurn;
}.

Record ToolRoundModelCallTurn := mkToolRoundTurn {
  round_session : SessionId;
  round_turn : TurnId;
  round_call : EndedModelCall;
  round_attempt : EndedTurnAttempt;
  round_assistant_entries : list SemanticTranscriptEntry;
  round_requests : list ToolRequest;
  round_automatic_approvals : list ToolApprovalResolution;
  round_yielded_snapshot : Snap;
  round_next_phase : ActiveTurnPhase;
}.

Record CancelledToolRoundModelCallTurn := mkCancelledRound {
  stopped_session : SessionId;
  stopped_turn : TurnId;
  stopped_call : EndedModelCall;
  stopped_attempt : EndedTurnAttempt;
  stopped_disposition : TurnDisposition;
  stopped_assistant_entries : list SemanticTranscriptEntry;
  stopped_requests : list ToolRequest;
  stopped_closed_result_entries : list SemanticTranscriptEntry;
  stopped_turn_cancellation_entry : SemanticTranscriptEntry;
  stopped_terminal_snapshot : Snap;
  stopped_steering : list ReclassifiedPendingSteeringTurn;
}.

Record FailedModelCallTurn := mkFailedTurn {
  failed_session : SessionId;
  failed_turn : TurnId;
  failed_call : option EndedModelCall;
  failed_attempt : EndedTurnAttempt;
  failed_disposition : TurnDisposition;
  failed_turn_failure_entry : SemanticTranscriptEntry;
  failed_terminal_snapshot : Snap;
  failed_steering : list ReclassifiedPendingSteeringTurn;
}.

Record CredentialPoolExhaustedModelCallTurn := mkPoolExhausted {
  exhausted_pool_name : string;
  exhausted_failed : FailedModelCallTurn;
}.

Record ContextHeadroomExhaustedModelCallTurn := mkHeadroomExhausted {
  headroom_producing_call : ModelCallId;
  headroom_failed : FailedModelCallTurn;
}.

Record CancelledModelCallTurn := mkCancelledTurn {
  cancelled_session : SessionId;
  cancelled_turn : TurnId;
  cancelled_call : option EndedModelCall;
  cancelled_attempt : option EndedTurnAttempt;
  cancelled_disposition : TurnDisposition;
  cancelled_tool_result_entries : list SemanticTranscriptEntry;
  cancelled_turn_cancellation_entry : SemanticTranscriptEntry;
  cancelled_terminal_snapshot : Snap;
  cancelled_steering : list ReclassifiedPendingSteeringTurn;
}.

Record RefusedModelCallTurn := mkRefusedTurn {
  refused_session : SessionId;
  refused_turn : TurnId;
  refused_call : EndedModelCall;
  refused_attempt : EndedTurnAttempt;
  refused_disposition : TurnDisposition;
  refused_turn_compaction_entries : list SemanticTranscriptEntry;
  refused_terminal_snapshot : Snap;
  refused_steering : list ReclassifiedPendingSteeringTurn;
}.

Record ReconciliationRequiredModelCallTurn := mkReconciliationTurn {
  reconciling_session : SessionId;
  reconciling_turn : TurnId;
  reconciling_call : EndedModelCall;
  reconciling_attempt : EndedTurnAttempt;
  reconciling_disposition : TurnDisposition;
  reconciling_terminal_snapshot : Snap;
  reconciling_steering : list ReclassifiedPendingSteeringTurn;
}.

Record ReconciliationRequiredToolTurn := mkToolReconciliationTurn {
  tool_reconciling_session : SessionId;
  tool_reconciling_turn : TurnId;
  tool_reconciling_tool_attempt : EndedToolAttempt;
  tool_reconciling_attempt : EndedTurnAttempt;
  tool_reconciling_disposition : TurnDisposition;
  tool_reconciling_result_entries : list SemanticTranscriptEntry;
  tool_reconciling_terminal_snapshot : Snap;
  tool_reconciling_steering : list ReclassifiedPendingSteeringTurn;
}.

Inductive ModelCallTerminalOutcome :=
| OutcomeCompleted (turn : CompletedModelCallTurn)
| OutcomeToolRound (turn : ToolRoundModelCallTurn)
| OutcomeCancelledWithToolResponse (turn : CancelledToolRoundModelCallTurn)
| OutcomeFailed (turn : FailedModelCallTurn)
| OutcomeCancelled (turn : CancelledModelCallTurn)
| OutcomeRefused (turn : RefusedModelCallTurn)
| OutcomeReconciliationRequired (turn : ReconciliationRequiredModelCallTurn)
| OutcomeAwaitingRecovery (turn : AmbiguousModelCallTurn).

Inductive ModelCallInterruptOutcome :=
| InterruptCancelled (turn : CancelledModelCallTurn)
| InterruptCancellationRequested (turn : StopRequestedModelCallTurn)
| InterruptReconciliationRequired (turn : ReconciliationRequiredModelCallTurn)
| InterruptToolReconciliationRequired (turn : ReconciliationRequiredToolTurn).

(** ** The live aggregate (model_execution.rs) *)

Record ModelCallExecution := mkExecution {
  execution_active_turn : ActivatedTurn;
  execution_session : SessionId;
  execution_turn : TurnId;
  execution_configuration : OriginConfiguration;
  execution_start : AcceptedInputTurnStart;
  execution_targets : ModelTargetCatalog;
  execution_current_attempt : CurrentTurnAttempt;
  execution_starting_snapshot : Snap;
  execution_current_snapshot : Snap;
  execution_frontier_entries : list SemanticTranscriptEntry;
  execution_origin_contents : gmap AcceptedInputId UserContent;
  execution_attachment_blob_facts : gmap BlobDigest positive;
  execution_pinned_target : option PinnedProviderTarget;
  execution_current_call : option CurrentModelCall;
  execution_tool_continuation_frontier : bool;
}.

(** ** Prepared calls (prepared_call.rs) *)

Inductive ModelCallPreparationFailure :=
| TargetUnavailable | CallAlreadyExists | PreparationAttemptIsNotPrepared
| SteeringIdentityCountMismatch | SteeringFrontierIdentityMismatch | SteeringCorrelationMismatch.

Record ModelCallPreparationError := mkPreparationError {
  preparation_execution : ModelCallExecution;
  preparation_failure : ModelCallPreparationFailure;
  preparation_target_resolution_error : option ModelTargetResolutionError;
}.

(** [ModelCallPreparationError::new] and [::target_unavailable] *)
Definition preparation_error_new (execution : ModelCallExecution)
    (failure : ModelCallPreparationFailure) : ModelCallPreparationError :=
  mkPreparationError execution failure None.
Definition target_unavailable (execution : ModelCallExecution)
    (target_resolution_error : ModelTargetResolutionError) : ModelCallPreparationError :=
  mkPreparationError execution TargetUnavailable (Some target_resolution_error).

Record PreparedSteeringConsumption := mkConsumption {
  consumption_accepted_input : AcceptedInputLifecycle;
  consumption_semantic_entry : SemanticTranscriptEntry;
}.

Record PreparedInitialModelCall := mkPreparedInitial {
  initial_session : SessionId;
  initial_turn : TurnId;
  initial_attempt : TurnAttemptId;
  initial_call : CurrentModelCall;
  initial_consumed_steering : list PreparedSteeringConsumption;
  initial_steering_snapshot : option Snap;
}.

Inductive ModelCallResumeFailure :=
| ResumeCallMissing | ResumeCallIsNotPrepared | ResumeAttemptIsNotPrepared.

Inductive ModelCallAuthorizationFailure :=
| AuthorizationCallMissing | AuthorizationCallIsNotPrepared | AuthorizationAttemptIsNotPrepared.

Record ModelCallAuthorizationError := mkAuthorizationError {
  authorization_execution : ModelCallExecution;
  authorization_failure : ModelCallAuthorizationFailure;
}.
End candidates.

(** [RunnerSandboxProfile] of runner/catalog.rs *)
Inductive RunnerSandboxProfile := SandboxAmbient | SandboxWorkspaceRestricted.

Record PreparedModelCallRequest := mkCallRequest {
  call_request_session : SessionId;
  call_request_turn : TurnId;
  call_request_attempt : TurnAttemptId;
  call_request_auto_approval : DangerousToolAutoApproval;
  call_request_model_settings : ValidatedModelSettings;
  call_request_call : CurrentModelCall;
  call_request_frontier_entries : list SemanticTranscriptEntry;
  call_request_origin_contents : gmap AcceptedInputId UserContent;
  call_request_attachment_blob_facts : gmap BlobDigest positive;
  call_request_runner_placements :
    gmap SemanticTranscriptEntryRef (RunnerGeneration * RunnerSandboxProfile);
}.

Record AuthorizedModelCall := mkAuthorizedCall {
  authorized_session : SessionId;
  authorized_turn : TurnId;
  authorized_attempt : CurrentTurnAttempt;
  authorized_call : CurrentModelCall;
  authorized_frontier_entries : list SemanticTranscriptEntry;
  authorized_origin_contents : gmap AcceptedInputId UserContent;
}.

(** [observation_correlation] of an authorized and of a stopped call *)
Definition observation_correlation (self : AuthorizedModelCall) : IssuedModelCallCorrelation :=
  mkCorrelation (authorized_session self) (authorized_turn self) (attempt_id (authorized_attempt self))
    (call_id (authorized_call self)) (pinned_target (call_pinned (authorized_call self)))
    (frontier_snapshot (call_frontier (authorized_call self))).
Definition stopped_observation_correlation (self : StopRequestedModelCallTurn) :
    IssuedModelCallCorrelation :=
  mkCorrelation (stop_requested_session self) (stop_requested_turn self)
    (attempt_id (stop_requested_attempt self)) (call_id (stop_requested_call self))
    (pinned_target (call_pinned (stop_requested_call self)))
    (frontier_snapshot (call_frontier (stop_requested_call self))).

Arguments CompletedModelCallTurn : clear implicits.
Arguments ToolRoundModelCallTurn : clear implicits.
Arguments CancelledToolRoundModelCallTurn : clear implicits.
Arguments FailedModelCallTurn : clear implicits.
Arguments CredentialPoolExhaustedModelCallTurn : clear implicits.
Arguments ContextHeadroomExhaustedModelCallTurn : clear implicits.
Arguments CancelledModelCallTurn : clear implicits.
Arguments RefusedModelCallTurn : clear implicits.
Arguments ReconciliationRequiredModelCallTurn : clear implicits.
Arguments ReconciliationRequiredToolTurn : clear implicits.
Arguments ModelCallTerminalOutcome : clear implicits.
Arguments ModelCallInterruptOutcome : clear implicits.
Arguments ModelCallExecution : clear implicits.
Arguments ModelCallPreparationError : clear implicits.
Arguments PreparedInitialModelCall : clear implicits.
Arguments ModelCallAuthorizationError : clear implicits.
