(* ===== verification/TurnClosure.v ===== *)
(** * Turn closure

    Model of [crates/domain/src/model_execution/turn_closure.rs] and
    [tool_round.rs] with the closures of [model_execution.rs] and the
    reclassification of [interrupt_application.rs]: what one observation of a
    provider does to a call, its attempt and its turn. Every new snapshot is
    built from the frontier entries and extended; the tokens of the two
    allocations are variables. *)

From S2P Require Import Prelude QueueOrder ModelSettings Configuration Interrupt TurnAttempt Frontier ModelCall Tool ToolAttempt TurnLifecycle ToolBatch Delegation SemanticEntry BatchProjection ModelExecution.

Local Open Scope list_scope.

Record ModelCallTurnScope := mkScope {
  scope_session : SessionId;
  scope_turn : TurnId;
}.

Record ModelCallTerminalContext := mkContext {
  context_reclassified : list ReclassifiedPendingSteeringTurn;
  context_auto_approval : DangerousToolAutoApproval;
}.

(** ** Reclassification of pending steering (interrupt_application.rs) *)

(** One iteration: the turns named so far and the inputs reclassified. *)
Definition reclassify_step (session : SessionId) (source : TurnId)
    (effective_configuration : EffectiveConfiguration)
    (state : gset TurnId * list ReclassifiedPendingSteeringTurn)
    (item : PendingSteeringInput * PendingSteeringReclassificationIdentity) :
    closing (gset TurnId * list ReclassifiedPendingSteeringTurn) :=
  let '(turns, reclassified) := state in
  let '(pending, identity) := item in
  match lifecycle_disposition (pending_lifecycle pending) with
  | PendingSteering binding =>
      if negb (bool_decide (pending_accepted_input pending = reclassified_input identity))
         || negb (bool_decide (source_turn binding = source))
         || bool_decide (reclassified_turn identity = source)
         || bool_decide (reclassified_turn identity ∈ turns)
      then Err PendingSteeringReclassificationMismatch else
      accepted_input ← map_err (fun _ => PendingSteeringReclassificationMismatch)
        (reclassify_as_turn_origin (pending_lifecycle pending) (reclassified_turn identity)
           NoSafePointBeforeTerminal);
      Ok ({[reclassified_turn identity]} ∪ turns,
          reclassified ++
          [mkReclassified session source accepted_input (reclassified_turn identity)
             (ordinary (pending_position pending)) binding effective_configuration])
  | _ => Err PendingSteeringReclassificationMismatch
  end.

Definition reclassify_pending_steering_inputs (session : SessionId) (source : TurnId)
    (pending : list PendingSteeringInput) (identities : reclassifications)
    (effective_configuration : EffectiveConfiguration) :
    closing (list ReclassifiedPendingSteeringTurn) :=
  if negb (bool_decide (length pending = length identities))
  then Err PendingSteeringReclassificationMismatch else
  snd <$> try_fold (reclassify_step session source effective_configuration)
            (zip pending identities) (∅, []).

Definition reclassify_pending_steering (active_turn : ActivatedTurn) (identities : reclassifications) :
    closing (list ReclassifiedPendingSteeringTurn) :=
  reclassify_pending_steering_inputs (active_session active_turn) (active_turn_id active_turn)
    (active_pending_steering active_turn) identities
    (origin_effective (active_configuration active_turn)).

(** ** Parts of a response *)

(** The payload of a part that is no tool call. *)
Definition plain_payload (call : ModelCallId) (part : AssistantResponsePart) :
    closing SemanticTranscriptEntryPayload :=
  match part with
  | ResponseText value => Ok (AssistantTextEntry call value)
  | ResponseCompaction block => Ok (ProviderCompaction call block)
  | ResponseReasoning item => Ok (ProviderReasoning call item)
  | ResponseToolCall _ => Err AssistantIdentityCountMismatch
  end.

Definition frontier_identities (entries : list SemanticTranscriptEntry) :
    gset SemanticTranscriptEntryId := list_to_set (semantic_identity <$> entries).

Definition tool_use_request (entry : SemanticTranscriptEntry) : option ToolRequestId :=
  match semantic_payload entry with AssistantToolUse _ request => Some request | _ => None end.

Definition frontier_requests (entries : list SemanticTranscriptEntry) : gset ToolRequestId :=
  list_to_set (omap tool_use_request entries).

Definition is_safety_deny (approval : InitialToolApproval) : bool :=
  match approval with InitialRuntimeSafetyDeny => true | _ => false end.
Definition is_inadmissible (approval : InitialToolApproval) : bool :=
  match approval with InitialInadmissible => true | _ => false end.

Definition initial_tool_approval_matches_posture (posture : DangerousToolAutoApproval)
    (approval : InitialToolApproval) : bool :=
  match posture, approval with
  | ApproveAll, InitialConfirm | AutoApprovalDisabled, InitialSessionBlanket => false
  | _, _ => true
  end.

(** The approval the proposal and the posture of the turn call for. *)
Definition initial_approval_admitted (posture : DangerousToolAutoApproval)
    (proposal : ToolCallProposal) (approval : InitialToolApproval) : bool :=
  eqb (proposal_suppressed proposal) (is_safety_deny approval)
  && eqb (bool_decide (is_Some (proposal_inadmissible_reason proposal))) (is_inadmissible approval)
  && initial_tool_approval_matches_posture posture approval.

(** ** A tool round *)

Record ToolRoundState := mkRoundState {
  used_entries : gset SemanticTranscriptEntryId;
  used_requests : gset ToolRequestId;
  round_entries_so_far : list SemanticTranscriptEntry;
  round_requests_so_far : list ToolRequest;
  round_approvals_so_far : list ToolApprovalResolution;
  round_closed_so_far : list SemanticTranscriptEntry;
  round_earliest_undecided : option ToolRequestId;
  round_tool_ordinal : nat;
}.

Definition push_plain (session : SessionId) (state : ToolRoundState)
    (entry : SemanticTranscriptEntryId) (payload : SemanticTranscriptEntryPayload) :
    closing ToolRoundState :=
  if bool_decide (entry ∈ used_entries state) then Err TurnFrontierDerivationFailed else
  Ok (mkRoundState ({[entry]} ∪ used_entries state) (used_requests state)
        (round_entries_so_far state ++ [from_validated_parts entry session payload])
        (round_requests_so_far state) (round_approvals_so_far state) (round_closed_so_far state)
        (round_earliest_undecided state) (round_tool_ordinal state)).

(** One iteration of [assemble_tool_round]. *)
Definition round_step (scope : ModelCallTurnScope) (call : ModelCallId)
    (posture : DangerousToolAutoApproval) (state : ToolRoundState)
    (item : AssistantResponsePart * ToolResponsePartIdentity) : closing ToolRoundState :=
  let session := scope_session scope in
  match item with
  | (ResponseText value, TextIdentity entry) =>
      push_plain session state entry (AssistantTextEntry call value)
  | (ResponseCompaction block, CompactionIdentity entry) =>
      push_plain session state entry (ProviderCompaction call block)
  | (ResponseReasoning item, ReasoningIdentity entry) =>
      push_plain session state entry (ProviderReasoning call item)
  | (ResponseToolCall proposal, ToolCallIdentity entry request approval) =>
      if bool_decide (entry ∈ used_entries state) || bool_decide (request ∈ used_requests state)
      then Err TurnFrontierDerivationFailed else
      if negb (initial_approval_admitted posture proposal approval)
      then Err InitialToolApprovalMismatch else
      ordinal ← ok_or (tool_ordinal_try_from_usize (round_tool_ordinal state))
        ToolRequestOrdinalOverflow;
      let request_record :=
        from_model_proposal request session (scope_turn scope) call ordinal proposal approval in
      let '(approvals, earliest) :=
        match initial_resolution approval request with
        | Some resolution =>
            (round_approvals_so_far state ++ [resolution], round_earliest_undecided state)
        | None =>
            (round_approvals_so_far state,
             if bool_decide (request_inadmissible_reason request_record = None)
             then Some (default request (round_earliest_undecided state))
             else round_earliest_undecided state)
        end in
      Ok (mkRoundState ({[entry]} ∪ used_entries state) ({[request]} ∪ used_requests state)
            (round_entries_so_far state
             ++ [from_validated_parts entry session (AssistantToolUse call request)])
            (round_requests_so_far state ++ [request_record]) approvals
            (round_closed_so_far state) earliest (S (round_tool_ordinal state)))
  | _ => Err ToolResponseIdentityMismatch
  end.

(** One iteration of [assemble_stopped_tool_round]. *)
Definition stopped_round_step (scope : ModelCallTurnScope) (call : ModelCallId)
    (posture : DangerousToolAutoApproval) (state : ToolRoundState)
    (item : AssistantResponsePart * StoppedToolResponsePartIdentity) : closing ToolRoundState :=
  let session := scope_session scope in
  match item with
  | (ResponseText value, StoppedTextIdentity entry) =>
      push_plain session state entry (AssistantTextEntry call value)
  | (ResponseCompaction block, StoppedCompactionIdentity entry) =>
      push_plain session state entry (ProviderCompaction call block)
  | (ResponseReasoning item, StoppedReasoningIdentity entry) =>
      push_plain session state entry (ProviderReasoning call item)
  | (ResponseToolCall proposal, StoppedToolCallIdentity entry request closed_result_entry approval) =>
      if bool_decide (entry ∈ used_entries state)
         || bool_decide (closed_result_entry ∈ ({[entry]} ∪ used_entries state))
         || bool_decide (request ∈ used_requests state)
      then Err TurnFrontierDerivationFailed else
      if negb (initial_approval_admitted posture proposal approval)
      then Err InitialToolApprovalMismatch else
      ordinal ← ok_or (tool_ordinal_try_from_usize (round_tool_ordinal state))
        ToolRequestOrdinalOverflow;
      Ok (mkRoundState ({[closed_result_entry]} ∪ ({[entry]} ∪ used_entries state))
            ({[request]} ∪ used_requests state)
            (round_entries_so_far state
             ++ [from_validated_parts entry session (AssistantToolUse call request)])
            (round_requests_so_far state
             ++ [from_model_proposal request session (scope_turn scope) call ordinal proposal approval])
            (round_approvals_so_far state)
            (round_closed_so_far state
             ++ [from_validated_parts closed_result_entry session
                   (if bool_decide (is_Some (proposal_inadmissible_reason proposal))
                    then ToolInadmissible request else ToolClosed request)])
            (round_earliest_undecided state) (S (round_tool_ordinal state)))
  | _ => Err ToolResponseIdentityMismatch
  end.

Definition round_initial (entries : gset SemanticTranscriptEntryId) (requests : gset ToolRequestId) :
    ToolRoundState := mkRoundState entries requests [] [] [] [] None 0.

Section closure.
Context {Snap : Type} `{ContextSnapshots Snap, !SnapshotCandidates Snap}.
Context (source_token derived_token : ContentToken).

(** [try_from_candidate] over the frontier entries of a call. *)
Definition source_snapshot (session : SessionId) (frontier : ContextFrontierId)
    (entries : list SemanticTranscriptEntry) : closing Snap :=
  map_err (fun _ => TurnFrontierDerivationFailed)
    (snapshot_candidate source_token session frontier (reference <$> entries)).

(** [derive_appending_candidate] by the references of new entries. *)
Definition append_entries (source : Snap) (next : ContextFrontierId)
    (entries : list SemanticTranscriptEntry) : closing Snap :=
  map_err (fun _ => TurnFrontierDerivationFailed)
    (snapshot_derive derived_token source next (reference <$> entries)).

Definition ended_frontier (call : EndedModelCall) : ContextFrontierId :=
  frontier_snapshot (ended_call_frontier call).

(** ** Closures of model_execution.rs *)

Definition complete_turn (scope : ModelCallTurnScope) (call : EndedModelCall)
    (attempt : EndedTurnAttempt) (frontier_entries : list SemanticTranscriptEntry)
    (response : list AssistantResponsePart) (identities : CompletedModelCallIdentities)
    (reclassified : list ReclassifiedPendingSteeringTurn) : closing (CompletedModelCallTurn Snap) :=
  let session := scope_session scope in
  let turn := scope_turn scope in
  if negb (bool_decide (length response = length (completed_assistant_entries identities)))
     || existsb is_tool_call response
  then Err AssistantIdentityCountMismatch else
  if any_identity_reused (frontier_identities frontier_entries)
       (completed_assistant_entries identities ++ [completed_completion_entry identities])
  then Err TurnFrontierDerivationFailed else
  assistant_entries ← mapM (fun '(identity, part) =>
      from_validated_parts identity session <$> plain_payload (ended_call_id call) part)
    (zip (completed_assistant_entries identities) response);
  let completion_entry :=
    from_validated_parts (completed_completion_entry identities) session (TurnCompleted turn) in
  source ← source_snapshot session (ended_frontier call) frontier_entries;
  terminal_snapshot ← append_entries source (completed_terminal_frontier identities)
    (assistant_entries ++ [completion_entry]);
  Ok (mkCompletedTurn session turn call attempt TurnCompletedDisposition assistant_entries
        completion_entry terminal_snapshot reclassified).

Definition assemble_failed_turn (scope : ModelCallTurnScope) (ended_attempt : EndedTurnAttempt)
    (call : option EndedModelCall) (source : Snap) (identities : FailedModelCallTurnIdentities)
    (reclassified : list ReclassifiedPendingSteeringTurn) : closing (FailedModelCallTurn Snap) :=
  let failure_entry :=
    from_validated_parts (failed_failure_entry identities) (scope_session scope)
      (TurnFailed (scope_turn scope)) in
  terminal_snapshot ← append_entries source (failed_terminal_frontier identities) [failure_entry];
  Ok (mkFailedTurn (scope_session scope) (scope_turn scope) call ended_attempt TurnFailedDisposition
        failure_entry terminal_snapshot reclassified).

Definition close_failed_turn (scope : ModelCallTurnScope) (attempt : CurrentTurnAttempt)
    (call : option EndedModelCall) (source : Snap) (identities : FailedModelCallTurnIdentities)
    (attempt_disposition : UnstoppedAttemptDisposition)
    (reclassified : list ReclassifiedPendingSteeringTurn) : closing (FailedModelCallTurn Snap) :=
  ended_attempt ← map_err (fun _ => AttemptStateMismatch)
    (end_without_stop attempt attempt_disposition);
  assemble_failed_turn scope ended_attempt call source identities reclassified.

Definition close_failed_turn_after_cancellation (scope : ModelCallTurnScope)
    (attempt : CurrentTurnAttempt) (call : EndedModelCall) (source : Snap)
    (proof : AppliedInterruptProof) (identities : FailedModelCallTurnIdentities)
    (reclassified : list ReclassifiedPendingSteeringTurn) : closing (FailedModelCallTurn Snap) :=
  ended_attempt ← map_err (fun _ => AttemptStateMismatch)
    (end_after_cancellation attempt proof CancelKnownFailure);
  assemble_failed_turn scope ended_attempt (Some call) source identities reclassified.

(** [Option::map(..).transpose()] of the end of an attempt. *)
Definition end_optional_cancelled (attempt : option CurrentTurnAttempt)
    (proof : AppliedInterruptProof) : closing (option EndedTurnAttempt) :=
  match attempt with
  | Some attempt =>
      Some <$> map_err (fun _ => AttemptStateMismatch)
                 (end_after_cancellation attempt proof CancelCancelled)
  | None => Ok None
  end.

(** [close_cancelled_turn]; the frontier source is a snapshot and the entries
    that go before the cancellation. *)
Definition close_cancelled_turn (scope : ModelCallTurnScope) (attempt : option CurrentTurnAttempt)
    (call : option EndedModelCall) (source : Snap)
    (entries_before_cancellation : list SemanticTranscriptEntry) (proof : AppliedInterruptProof)
    (identities : CancelledModelCallTurnIdentities)
    (reclassified : list ReclassifiedPendingSteeringTurn) : closing (CancelledModelCallTurn Snap) :=
  let turn := scope_turn scope in
  if negb (bool_decide (proof_predecessor proof = turn)) then Err InterruptCorrelationMismatch else
  ended_attempt ← end_optional_cancelled attempt proof;
  let cancellation_entry :=
    from_validated_parts (cancelled_cancellation_entry identities) (scope_session scope)
      (TurnCancelled turn) in
  terminal_snapshot ← append_entries source (cancelled_terminal_frontier identities)
    (entries_before_cancellation ++ [cancellation_entry]);
  Ok (mkCancelledTurn (scope_session scope) turn call ended_attempt (TurnCancelledDisposition proof) []
        cancellation_entry terminal_snapshot reclassified).

(** ** Tool rounds (tool_round.rs) *)

Definition round_phase (earliest_undecided : option ToolRequestId)
    (continuation_attempt : option TurnAttemptId) (yielded : TurnAttemptId) :
    closing ActiveTurnPhase :=
  match earliest_undecided, continuation_attempt with
  | Some request, None => Ok (AwaitingApproval request)
  | None, Some continuation =>
      if negb (bool_decide (continuation = yielded)) then Ok (Running (prepared continuation))
      else Err ContinuationAttemptIdentityMismatch
  | _, _ => Err ContinuationAttemptIdentityMismatch
  end.

Definition assemble_tool_round (scope : ModelCallTurnScope) (call : EndedModelCall)
    (attempt : EndedTurnAttempt) (frontier_entries : list SemanticTranscriptEntry)
    (response : ToolUsingAssistantResponse) (identities : ToolRoundModelCallIdentities)
    (posture : DangerousToolAutoApproval) : closing (ToolRoundModelCallTurn Snap) :=
  let session := scope_session scope in
  if negb (bool_decide (length (tool_response_parts response)
                        = length (round_response_parts identities)))
  then Err ToolResponseIdentityMismatch else
  state ← try_fold (round_step scope (ended_call_id call) posture)
    (zip (tool_response_parts response) (round_response_parts identities))
    (round_initial (frontier_identities frontier_entries) (frontier_requests frontier_entries));
  next_phase ← round_phase (round_earliest_undecided state) (round_continuation_attempt identities)
    (ended_id attempt);
  source ← source_snapshot session (ended_frontier call) frontier_entries;
  yielded_snapshot ← append_entries source (round_yielded_frontier identities)
    (round_entries_so_far state);
  Ok (mkToolRoundTurn session (scope_turn scope) call attempt (round_entries_so_far state)
        (round_requests_so_far state) (round_approvals_so_far state) yielded_snapshot next_phase).

Definition assemble_stopped_tool_round (scope : ModelCallTurnScope) (call : EndedModelCall)
    (attempt : EndedTurnAttempt) (frontier_entries : list SemanticTranscriptEntry)
    (response : ToolUsingAssistantResponse) (proof : AppliedInterruptProof)
    (identities : StoppedToolRoundModelCallIdentities) (posture : DangerousToolAutoApproval)
    (reclassified : list ReclassifiedPendingSteeringTurn) :
    closing (CancelledToolRoundModelCallTurn Snap) :=
  let session := scope_session scope in
  let turn := scope_turn scope in
  if negb (bool_decide (proof_predecessor proof = turn))
     || negb (bool_decide (length (tool_response_parts response)
                           = length (stopped_response_parts identities)))
  then Err ToolResponseIdentityMismatch else
  if bool_decide (stopped_cancellation_entry identities ∈ frontier_identities frontier_entries)
  then Err TurnFrontierDerivationFailed else
  state ← try_fold (stopped_round_step scope (ended_call_id call) posture)
    (zip (tool_response_parts response) (stopped_response_parts identities))
    (round_initial ({[stopped_cancellation_entry identities]} ∪ frontier_identities frontier_entries)
       (frontier_requests frontier_entries));
  let cancellation_entry :=
    from_validated_parts (stopped_cancellation_entry identities) session (TurnCancelled turn) in
  source ← source_snapshot session (ended_frontier call) frontier_entries;
  terminal_snapshot ← append_entries source (stopped_terminal_frontier identities)
    (round_entries_so_far state ++ round_closed_so_far state ++ [cancellation_entry]);
  Ok (mkCancelledRound session turn call attempt (TurnCancelledDisposition proof)
        (round_entries_so_far state) (round_requests_so_far state) (round_closed_so_far state)
        cancellation_entry terminal_snapshot reclassified).

(** ** The observation (turn_closure.rs) *)

Definition cancellation_proof (attempt : CurrentTurnAttempt) : option AppliedInterruptProof :=
  match attempt_state attempt with
  | StopRequested (CancellationOnly interrupt) => Some interrupt
  | Prepared | AttemptRunning | StopRequested (FatalMismatch _) => None
  end.

Definition end_observed (attempt : CurrentTurnAttempt) (proof : option AppliedInterruptProof)
    (after_cancellation : CancellationStopDisposition)
    (without_stop : UnstoppedAttemptDisposition) : closing EndedTurnAttempt :=
  map_err (fun _ => AttemptStateMismatch)
    match proof with
    | Some proof => end_after_cancellation attempt proof after_cancellation
    | None => end_without_stop attempt without_stop
    end.

(** The two arms of a completion without tools. *)
Definition close_completed (scope : ModelCallTurnScope) (attempt : CurrentTurnAttempt)
    (ended_call : EndedModelCall) (frontier_entries : list SemanticTranscriptEntry)
    (response : list AssistantResponsePart) (identities : ModelCallTerminalIdentities)
    (reclassified : list ReclassifiedPendingSteeringTurn) :
    closing (ModelCallTerminalOutcome Snap) :=
  match identities with
  | IdentitiesCompleted identities =>
      ended_attempt ← end_observed attempt (cancellation_proof attempt) CancelTurnCompleted
        UnstoppedTurnCompleted;
      OutcomeCompleted <$> complete_turn scope ended_call ended_attempt frontier_entries response
        identities reclassified
  | _ => Err IdentityShapeMismatch
  end.

Definition close_with_tools (scope : ModelCallTurnScope) (attempt : CurrentTurnAttempt)
    (ended_call : EndedModelCall) (frontier_entries : list SemanticTranscriptEntry)
    (response : ToolUsingAssistantResponse) (identities : ModelCallTerminalIdentities)
    (context : ModelCallTerminalContext) : closing (ModelCallTerminalOutcome Snap) :=
  match cancellation_proof attempt, identities with
  | Some proof, IdentitiesStoppedToolRound identities =>
      ended_attempt ← map_err (fun _ => AttemptStateMismatch)
        (end_after_cancellation attempt proof CancelCancelled);
      OutcomeCancelledWithToolResponse <$>
        assemble_stopped_tool_round scope ended_call ended_attempt frontier_entries response proof
          identities (context_auto_approval context) (context_reclassified context)
  | None, IdentitiesToolRound identities =>
      ended_attempt ← map_err (fun _ => AttemptStateMismatch)
        (end_without_stop attempt YieldedToDurableWait);
      OutcomeToolRound <$> assemble_tool_round scope ended_call ended_attempt frontier_entries response
        identities (context_auto_approval context)
  | _, _ => Err IdentityShapeMismatch
  end.

Definition close_known_failed (scope : ModelCallTurnScope) (attempt : CurrentTurnAttempt)
    (ended_call : EndedModelCall) (frontier_entries : list SemanticTranscriptEntry)
    (identities : ModelCallTerminalIdentities) (reclassified : list ReclassifiedPendingSteeringTurn) :
    closing (ModelCallTerminalOutcome Snap) :=
  match identities with
  | IdentitiesFailed identities =>
      source ← source_snapshot (scope_session scope) (ended_frontier ended_call) frontier_entries;
      OutcomeFailed <$>
        match cancellation_proof attempt with
        | Some proof =>
            close_failed_turn_after_cancellation scope attempt ended_call source proof identities
              reclassified
        | None =>
            close_failed_turn scope attempt (Some ended_call) source identities UnstoppedKnownFailure
              reclassified
        end
  | _ => Err IdentityShapeMismatch
  end.

Definition close_physically_cancelled (scope : ModelCallTurnScope) (attempt : CurrentTurnAttempt)
    (ended_call : EndedModelCall) (frontier_entries : list SemanticTranscriptEntry)
    (identities : ModelCallTerminalIdentities) (reclassified : list ReclassifiedPendingSteeringTurn) :
    closing (ModelCallTerminalOutcome Snap) :=
  match identities with
  | IdentitiesPhysicalCancellation identities =>
      source ← source_snapshot (scope_session scope) (ended_frontier ended_call) frontier_entries;
      match cancellation_proof attempt with
      | Some proof =>
          OutcomeCancelled <$>
            close_cancelled_turn scope (Some attempt) (Some ended_call) source [] proof
              (mkCancelledIdentities (physical_terminal_entry identities)
                 (physical_terminal_frontier identities) (physical_reclassifications identities))
              reclassified
      | None =>
          OutcomeFailed <$>
            close_failed_turn scope attempt (Some ended_call) source
              (mkFailedIdentities (physical_terminal_entry identities)
                 (physical_terminal_frontier identities) (physical_reclassifications identities))
              UnstoppedKnownFailure reclassified
      end
  | _ => Err IdentityShapeMismatch
  end.

Definition close_refused (scope : ModelCallTurnScope) (attempt : CurrentTurnAttempt)
    (ended_call : EndedModelCall) (frontier_entries : list SemanticTranscriptEntry)
    (provider_compaction : list ProviderCompactionBlock) (identities : ModelCallTerminalIdentities)
    (reclassified : list ReclassifiedPendingSteeringTurn) :
    closing (ModelCallTerminalOutcome Snap) :=
  let session := scope_session scope in
  match identities with
  | IdentitiesRefused identities =>
      ended_attempt ← end_observed attempt (cancellation_proof attempt) CancelTurnRefused
        UnstoppedTurnRefused;
      source ← source_snapshot session (ended_frontier ended_call) frontier_entries;
      if negb (bool_decide (length provider_compaction
                            = length (refused_compaction_entries identities)))
      then Err AssistantIdentityCountMismatch else
      if any_identity_reused (frontier_identities frontier_entries)
           (refused_compaction_entries identities)
      then Err TurnFrontierDerivationFailed else
      let provider_compaction_entries :=
        (fun '(identity, block) =>
           from_validated_parts identity session (ProviderCompaction (ended_call_id ended_call) block))
          <$> zip (refused_compaction_entries identities) provider_compaction in
      terminal_snapshot ← append_entries source (refused_terminal_frontier identities)
        provider_compaction_entries;
      Ok (OutcomeRefused
            (mkRefusedTurn session (scope_turn scope) ended_call ended_attempt TurnRefused
               provider_compaction_entries terminal_snapshot reclassified))
  | _ => Err IdentityShapeMismatch
  end.

Definition close_ambiguous (scope : ModelCallTurnScope) (attempt : CurrentTurnAttempt)
    (ended_call : EndedModelCall) (frontier_entries : list SemanticTranscriptEntry)
    (identities : ModelCallTerminalIdentities) (reclassified : list ReclassifiedPendingSteeringTurn) :
    closing (ModelCallTerminalOutcome Snap) :=
  match identities with
  | IdentitiesAmbiguous identities =>
      ended_attempt ← end_observed attempt (cancellation_proof attempt) CancelAmbiguous
        UnstoppedAmbiguous;
      ambiguous_operations ← map_err (fun _ => AmbiguityConstructionFailed)
        (try_from_operations [OperationModelCall (ended_call_id ended_call)]);
      match cancellation_proof attempt with
      | Some proof =>
          source ← source_snapshot (scope_session scope) (ended_frontier ended_call) frontier_entries;
          terminal_snapshot ← append_entries source (ambiguous_terminal_frontier identities) [];
          Ok (OutcomeReconciliationRequired
                (mkReconciliationTurn (scope_session scope) (scope_turn scope) ended_call ended_attempt
                   (ReconciliationRequired (from_interrupt_ambiguity ambiguous_operations proof))
                   terminal_snapshot reclassified))
      | None =>
          Ok (OutcomeAwaitingRecovery
                (mkAmbiguousTurn (scope_session scope) (scope_turn scope) ended_call ended_attempt
                   ambiguous_operations))
      end
  | _ => Err IdentityShapeMismatch
  end.

(** [apply_terminal_observation] *)
Definition close_observed (scope : ModelCallTurnScope) (attempt : CurrentTurnAttempt)
    (call : CurrentModelCall) (frontier_entries : list SemanticTranscriptEntry)
    (observation : ModelCallTerminalObservation) (identities : ModelCallTerminalIdentities)
    (context : ModelCallTerminalContext) : closing (ModelCallTerminalOutcome Snap) :=
  let reclassified := context_reclassified context in
  if match observation with
     | ObservedWithReasoning response => existsb is_compaction_part response
     | _ => false
     end
  then Err UnexpectedProviderCompaction else
  ended_call ← map_err (fun _ => CallStateMismatch)
    (end_classified call (observation_disposition observation));
  match observation with
  | ObservedCompleted assistant_text =>
      close_completed scope attempt ended_call frontier_entries (ResponseText <$> assistant_text)
        identities reclassified
  | ObservedWithCompaction response _ _ | ObservedWithReasoning response =>
      close_completed scope attempt ended_call frontier_entries response identities reclassified
  | ObservedWithTools response _ _ =>
      close_with_tools scope attempt ended_call frontier_entries response identities context
  | ObservedKnownFailed =>
      close_known_failed scope attempt ended_call frontier_entries identities reclassified
  | ObservedCancelled =>
      close_physically_cancelled scope attempt ended_call frontier_entries identities reclassified
  | ObservedRefused =>
      close_refused scope attempt ended_call frontier_entries [] identities reclassified
  | ObservedRefusedWithCompaction provider_compaction _ _ =>
      close_refused scope attempt ended_call frontier_entries provider_compaction identities
        reclassified
  | ObservedAmbiguous =>
      close_ambiguous scope attempt ended_call frontier_entries identities reclassified
  end.
End closure.
