(* ===== verification/ExecutionSteps.v ===== *)
(** * The steps of a model execution

    Model of the methods of [ModelCallExecution] in
    [crates/domain/src/model_execution.rs]: preparing and resuming a call,
    authorizing its dispatch, applying an interrupt or a provider observation,
    and the closures without an observation. *)

From stdpp Require Import strings.
From S2P Require Import Prelude QueueOrder ModelSettings Configuration Interrupt TurnAttempt Frontier ModelCall Tool ToolAttempt TurnLifecycle ToolBatch Delegation SemanticEntry BatchProjection UserContent ModelExecution TurnClosure.

Local Open Scope list_scope.

(** The interrupt was applied to this turn and names its successor. *)
Definition interrupt_correlates (interrupt : AppliedInterruptCommandResult) (session : SessionId)
    (turn : TurnId) : bool :=
  bool_decide (interrupt_session interrupt = session)
  && bool_decide (proof_predecessor (interrupt_proof interrupt) = turn)
  && negb (bool_decide (interrupt_successor interrupt = turn))
  && bool_decide (priority (interrupt_successor_order interrupt) = InterruptImmediatelyAfter turn).

(** The accepted input an entry delivers. *)
Definition delivered_input (entry : SemanticTranscriptEntry) : option AcceptedInputId :=
  match semantic_payload entry with
  | OriginAcceptedInput accepted_input | SteeringAcceptedInput accepted_input _ => Some accepted_input
  | _ => None
  end.

(** A tool use or a logical result of one. *)
Definition is_tool_entry (entry : SemanticTranscriptEntry) : bool :=
  match semantic_payload entry with
  | AssistantToolUse _ _ | ToolExecutionResult _ | ToolDenied _ | ToolInadmissible _
  | ToolClosed _ => true
  | _ => false
  end.

Definition attempt_is_prepared (attempt : CurrentTurnAttempt) : bool :=
  match attempt_state attempt with Prepared => true | _ => false end.
Definition attempt_is_running (attempt : CurrentTurnAttempt) : bool :=
  match attempt_state attempt with AttemptRunning => true | _ => false end.

(** ** Requests of prepared calls (prepared_call.rs) *)

(** [resolve_runner_placement]; the request is unchanged by an error. *)
Definition resolve_runner_placement (self : PreparedModelCallRequest)
    (source : SemanticTranscriptEntryRef) (revision : RunnerGeneration)
    (sandbox : RunnerSandboxProfile) : result unit PreparedModelCallRequest :=
  if negb (existsb (fun entry =>
        bool_decide (reference entry = source)
        && match semantic_payload entry with
           | RunnerPlacementChanged placement_revision => bool_decide (placement_revision = revision)
           | _ => false
           end) (call_request_frontier_entries self))
     || bool_decide (is_Some (call_request_runner_placements self !! source))
  then Err tt else
  Ok (mkCallRequest (call_request_session self) (call_request_turn self) (call_request_attempt self)
        (call_request_auto_approval self) (call_request_model_settings self) (call_request_call self)
        (call_request_frontier_entries self) (call_request_origin_contents self)
        (call_request_attachment_blob_facts self)
        (<[source := (revision, sandbox)]> (call_request_runner_placements self))).

Definition runner_placement_sandbox (self : PreparedModelCallRequest)
    (source : SemanticTranscriptEntryRef) (revision : RunnerGeneration) :
    option RunnerSandboxProfile :=
  '(recorded, sandbox) ← call_request_runner_placements self !! source;
  if bool_decide (recorded = revision) then Some sandbox else None.

Section steps.
Context {Snap : Type} `{ContextSnapshots Snap, !SnapshotCandidates Snap}.
Context (source_token derived_token : ContentToken).

Abbreviation execution := (ModelCallExecution Snap).

Definition entry_count_of (snapshot : Snap) : nat := length (snapshot_entries snapshot).

Definition frontier_contains_tool_round (starting_snapshot : Snap)
    (frontier_entries : list SemanticTranscriptEntry) : bool :=
  existsb is_tool_entry (drop (entry_count_of starting_snapshot) frontier_entries).

(** ** Phases of the attempt *)

Definition is_running_tool_continuation (self : execution) : bool :=
  attempt_is_running (execution_current_attempt self) && execution_tool_continuation_frontier self.

Definition attempt_accepts_prepared_call (self : execution) : bool :=
  (attempt_is_prepared (execution_current_attempt self)
   && (negb (frontier_contains_tool_round (execution_starting_snapshot self)
               (execution_frontier_entries self))
       || execution_tool_continuation_frontier self))
  || is_running_tool_continuation self.

Definition has_call (self : execution) : bool := bool_decide (is_Some (execution_current_call self)).

Definition execution_scope (self : execution) : ModelCallTurnScope :=
  mkScope (execution_session self) (execution_turn self).

Definition yield_to_credential_availability (self : execution) : closing EndedTurnAttempt :=
  if has_call self || negb (attempt_accepts_prepared_call self) then Err CallStateMismatch else
  map_err (fun _ => CallStateMismatch)
    (end_without_stop (execution_current_attempt self) YieldedToDurableWait).

(** ** Preparing a call *)

(** One iteration over the pending inputs: the entry identities in use, and
    what is consumed so far. *)
Definition consume_step (self : execution) (call : ModelCallId)
    (state : gset SemanticTranscriptEntryId * list PreparedSteeringConsumption)
    (item : PendingSteeringInput * SemanticTranscriptEntryId) :
    result unit (gset SemanticTranscriptEntryId * list PreparedSteeringConsumption) :=
  let '(distinct_entries, consumed) := state in
  let '(pending, entry) := item in
  match lifecycle_disposition (pending_lifecycle pending) with
  | PendingSteering binding =>
      if negb (bool_decide (source_turn binding = execution_turn self))
         || bool_decide (entry ∈ distinct_entries)
         || negb (bool_decide (is_Some (execution_origin_contents self
                                          !! pending_accepted_input pending)))
      then Err tt else
      lifecycle ← map_err (fun _ => tt) (consume_as_steering (pending_lifecycle pending) call);
      Ok ({[entry]} ∪ distinct_entries,
          consumed ++
          [mkConsumption lifecycle
             (from_validated_parts entry (execution_session self)
                (SteeringAcceptedInput (pending_accepted_input pending) (execution_turn self)))])
  | _ => Err tt
  end.

Definition prepare_initial_call_consuming_steering (self : execution) (call : ModelCallId)
    (steering_entries : list SemanticTranscriptEntryId)
    (steering_frontier : option ContextFrontierId) :
    result (ModelCallPreparationError Snap) (PreparedInitialModelCall Snap) :=
  let frozen := effective_model (origin_effective (execution_configuration self)) in
  let fail := preparation_error_new self in
  if has_call self then Err (fail CallAlreadyExists) else
  if negb (attempt_accepts_prepared_call self) then Err (fail PreparationAttemptIsNotPrepared) else
  let pending := active_pending_steering (execution_active_turn self) in
  if negb (bool_decide (length pending = length steering_entries))
  then Err (fail SteeringIdentityCountMismatch) else
  if negb (eqb (bool_decide (pending = [])) (bool_decide (steering_frontier = None)))
  then Err (fail SteeringFrontierIdentityMismatch) else
  pinned ←
    match execution_pinned_target self with
    | Some pinned => Ok pinned
    | None =>
        match resolve_target (execution_targets self) frozen with
        | Ok resolution => Ok (mkPinned (execution_turn self) (resolved_target resolution))
        | Err error => Err (target_unavailable self error)
        end
    end;
  '(_, consumed_steering) ← map_err (fun _ => fail SteeringCorrelationMismatch)
    (try_fold (consume_step self call) (zip pending steering_entries)
       (frontier_identities (execution_frontier_entries self), []));
  let semantic_entries := consumption_semantic_entry <$> consumed_steering in
  call_snapshot ←
    (if bool_decide (consumed_steering = []) then Ok (execution_current_snapshot self) else
     match steering_frontier with
     | Some frontier =>
         map_err (fun _ => fail SteeringFrontierIdentityMismatch)
           (snapshot_derive derived_token (execution_current_snapshot self) frontier
              (reference <$> semantic_entries))
     | None => Err (fail SteeringFrontierIdentityMismatch)
     end);
  let attempt := attempt_id (execution_current_attempt self) in
  Ok (mkPreparedInitial (execution_session self) (execution_turn self) attempt
        (call_prepared call attempt frozen pinned call_snapshot) consumed_steering
        (if bool_decide (consumed_steering = []) then None else Some call_snapshot)).

Definition prepare_initial_call (self : execution) (call : ModelCallId) :
    result (ModelCallPreparationError Snap) (PreparedInitialModelCall Snap) :=
  prepare_initial_call_consuming_steering self call [] None.

(** The request both previews and resumptions describe. *)
Definition call_request (self : execution) (attempt : TurnAttemptId) (call : CurrentModelCall)
    (frontier_entries : list SemanticTranscriptEntry)
    (origin_contents : gmap AcceptedInputId UserContent) : PreparedModelCallRequest :=
  let effective := origin_effective (execution_configuration self) in
  mkCallRequest (execution_session self) (execution_turn self) attempt
    (effective_dangerous_tool_auto_approval effective) (effective_model_settings effective) call
    frontier_entries origin_contents (execution_attachment_blob_facts self) ∅.

Definition preview_initial_call_consuming_steering (self : execution) (call : ModelCallId)
    (steering_entries : list SemanticTranscriptEntryId)
    (steering_frontier : option ContextFrontierId) :
    result (ModelCallPreparationError Snap) PreparedModelCallRequest :=
  prepared ← prepare_initial_call_consuming_steering self call steering_entries steering_frontier;
  Ok (call_request self (initial_attempt prepared) (initial_call prepared)
        (execution_frontier_entries self
         ++ (consumption_semantic_entry <$> initial_consumed_steering prepared))
        (execution_origin_contents self)).

Definition preview_initial_call (self : execution) (call : ModelCallId) :
    result (ModelCallPreparationError Snap) PreparedModelCallRequest :=
  preview_initial_call_consuming_steering self call [] None.

(** The contents of the inputs the frontier delivers. *)
Definition frontier_origin_contents (self : execution) : gmap AcceptedInputId UserContent :=
  btree_collect (omap (fun entry =>
    accepted_input ← delivered_input entry;
    content ← execution_origin_contents self !! accepted_input;
    Some (accepted_input, content)) (execution_frontier_entries self)).

Definition resume_prepared_call (self : execution) :
    result ModelCallResumeFailure PreparedModelCallRequest :=
  if negb (attempt_accepts_prepared_call self) then Err ResumeAttemptIsNotPrepared else
  match execution_current_call self with
  | None => Err ResumeCallMissing
  | Some call =>
      if negb (bool_decide (call_state call = CallPrepared)) then Err ResumeCallIsNotPrepared else
      Ok (call_request self (attempt_id (execution_current_attempt self)) call
            (execution_frontier_entries self) (frontier_origin_contents self))
  end.

(** ** Dispatch *)

Definition authorize_send (self : execution) :
    result (ModelCallAuthorizationError Snap) AuthorizedModelCall :=
  let fail := mkAuthorizationError self in
  match execution_current_call self with
  | None => Err (fail AuthorizationCallMissing)
  | Some call =>
      if negb (bool_decide (call_state call = CallPrepared))
      then Err (fail AuthorizationCallIsNotPrepared) else
      attempt ←
        match attempt_state (execution_current_attempt self) with
        | Prepared =>
            map_err (fun _ => fail AuthorizationAttemptIsNotPrepared)
              (begin_running (execution_current_attempt self))
        | AttemptRunning =>
            if is_running_tool_continuation self then Ok (execution_current_attempt self)
            else Err (fail AuthorizationAttemptIsNotPrepared)
        | StopRequested _ => Err (fail AuthorizationAttemptIsNotPrepared)
        end;
      call ← map_err (fun _ => fail AuthorizationCallIsNotPrepared) (begin_in_flight call);
      Ok (mkAuthorizedCall (execution_session self) (execution_turn self) attempt call
            (execution_frontier_entries self) (execution_origin_contents self))
  end.

Definition resume_in_flight_call (self : execution) : option AuthorizedModelCall :=
  call ← execution_current_call self;
  if negb (attempt_is_running (execution_current_attempt self))
     || negb (bool_decide (call_state call = CallInFlight))
  then None else
  Some (mkAuthorizedCall (execution_session self) (execution_turn self)
          (execution_current_attempt self) call (execution_frontier_entries self)
          (execution_origin_contents self)).

Definition resume_cancellation_requested_call (self : execution) : option StopRequestedModelCallTurn :=
  call ← execution_current_call self;
  match attempt_state (execution_current_attempt self) with
  | StopRequested (CancellationOnly interrupt) =>
      if negb (bool_decide (call_state call = CallCancellationRequested)) then None else
      Some (mkStopRequested (execution_session self) (execution_turn self) call
              (execution_current_attempt self) interrupt)
  | _ => None
  end.

(** ** Interrupts *)

(** The call has not left the process: there is none or it is prepared. *)
Definition call_unsent (self : execution) : bool :=
  match execution_current_call self with
  | None => true
  | Some call => bool_decide (call_state call = CallPrepared)
  end.

(** [Option::map(..).transpose()] of the end of a call. *)
Definition end_optional_unsent (call : option CurrentModelCall) (proof : AppliedInterruptProof) :
    closing (option EndedModelCall) :=
  match call with
  | Some call => Some <$> map_err (fun _ => CallStateMismatch) (end_cancelled_unsent call proof)
  | None => Ok None
  end.

Definition apply_interrupt (self : execution) (interrupt : AppliedInterruptCommandResult)
    (identities : CancelledModelCallTurnIdentities) : closing (ModelCallInterruptOutcome Snap) :=
  let proof := interrupt_proof interrupt in
  let attempt := execution_current_attempt self in
  if negb (interrupt_correlates interrupt (execution_session self) (execution_turn self))
  then Err InterruptCorrelationMismatch else
  let unsent_call :=
    (attempt_is_prepared attempt && call_unsent self)
    || (is_running_tool_continuation self && call_unsent self) in
  if unsent_call then
    reclassified ← reclassify_pending_steering (execution_active_turn self)
      (cancelled_reclassifications identities);
    ended_call ← end_optional_unsent (execution_current_call self) proof;
    InterruptCancelled <$>
      close_cancelled_turn derived_token (execution_scope self) (Some attempt) ended_call
        (execution_current_snapshot self) [] proof identities reclassified
  else
    match attempt_state attempt, execution_current_call self with
    | AttemptRunning, Some call =>
        if bool_decide (call_state call = CallInFlight) then
          attempt ← map_err (fun _ => AttemptStateMismatch) (request_cancellation attempt proof);
          call ← map_err (fun _ => CallStateMismatch) (request_call_cancellation call);
          Ok (InterruptCancellationRequested
                (mkStopRequested (execution_session self) (execution_turn self) call attempt proof))
        else Err AttemptStateMismatch
    | _, _ => Err AttemptStateMismatch
    end.

(** [cancelled.tool_result_entries = entries] *)
Definition set_result_entries (self : CancelledModelCallTurn Snap)
    (entries : list SemanticTranscriptEntry) : CancelledModelCallTurn Snap :=
  mkCancelledTurn (cancelled_session self) (cancelled_turn self) (cancelled_call self)
    (cancelled_attempt self) (cancelled_disposition self) entries
    (cancelled_turn_cancellation_entry self) (cancelled_terminal_snapshot self)
    (cancelled_steering self).

(** The projection extends this snapshot of the turn by its entries. *)
Definition projection_extends (projection : PreparedToolResultProjection) (session : SessionId)
    (turn : TurnId) (source : Snap) : bool :=
  bool_decide (projected_turn projection = turn)
  && bool_decide (owning_session (snapshot_frontier (projected_snapshot projection)) = session)
  && bool_decide (projected_source_frontier projection = frontier_snapshot (snapshot_frontier source))
  && prefix_of_snapshot source (projected_snapshot projection)
  && bool_decide (entry_count_of (projected_snapshot projection)
                  = entry_count_of source + length (projected_result_entries projection)).

Definition apply_interrupt_to_tool_batch (self : execution) (interrupt : AppliedInterruptCommandResult)
    (result_projection : PreparedToolResultProjection)
    (identities : CancelledModelCallTurnIdentities) : closing (CancelledModelCallTurn Snap) :=
  if has_call self
     || negb (interrupt_correlates interrupt (execution_session self) (execution_turn self))
     || negb (projection_extends result_projection (execution_session self) (execution_turn self)
                (execution_current_snapshot self))
  then Err InterruptCorrelationMismatch else
  reclassified ← reclassify_pending_steering (execution_active_turn self)
    (cancelled_reclassifications identities);
  let result_entries := projected_result_entries result_projection in
  cancelled ← close_cancelled_turn derived_token (execution_scope self)
    (Some (execution_current_attempt self)) None (execution_current_snapshot self) result_entries
    (interrupt_proof interrupt) identities reclassified;
  Ok (set_result_entries cancelled result_entries).

(** ** Observations *)

(** The issued facts of the current call. *)
Definition current_correlation (self : execution) (call : CurrentModelCall) :
    IssuedModelCallCorrelation :=
  mkCorrelation (execution_session self) (execution_turn self)
    (attempt_id (execution_current_attempt self)) (call_id call) (pinned_target (call_pinned call))
    (frontier_snapshot (call_frontier call)).

Definition observation_lifecycle_valid (attempt : CurrentTurnAttempt) (call : CurrentModelCall) :
    bool :=
  match attempt_state attempt, call_state call with
  | AttemptRunning, CallInFlight => true
  | StopRequested (CancellationOnly _), CallCancellationRequested => true
  | _, _ => false
  end.

Definition execution_apply_terminal_observation (self : execution)
    (observation : CorrelatedModelCallTerminalObservation)
    (identities : ModelCallTerminalIdentities) : closing (ModelCallTerminalOutcome Snap) :=
  let attempt := execution_current_attempt self in
  let observed := observed_observation observation in
  match execution_current_call self with
  | None => Err CallStateMismatch
  | Some call =>
      if negb (bool_decide (observed_correlation observation = current_correlation self call))
      then Err ObservationCorrelationMismatch else
      if negb (observation_lifecycle_valid attempt call) then Err CallStateMismatch else
      let cancellation_requested := bool_decide (is_Some (cancellation_proof attempt)) in
      reclassified ←
        (if (is_tool_round observed && negb cancellation_requested)
            || (bool_decide (observation_disposition observed = CallAmbiguous)
                && negb cancellation_requested)
         then Ok []
         else reclassify_pending_steering (execution_active_turn self)
                (pending_steering_reclassifications identities));
      close_observed source_token derived_token (execution_scope self) attempt call
        (execution_frontier_entries self) observed identities
        (mkContext reclassified
           (effective_dangerous_tool_auto_approval
              (origin_effective (execution_configuration self))))
  end.

(** The causes after which another attempt may be made. *)
Definition is_availability_cause (cause : option ProviderModelCallFailureCause) : bool :=
  match cause with
  | Some (CredentialRejected | RateLimited | QuotaExhausted | Overloaded | ProviderInternal) => true
  | _ => false
  end.

Definition apply_availability_successor (self : execution)
    (observation : CorrelatedModelCallTerminalObservation) (successor_attempt : TurnAttemptId) :
    closing AvailabilitySuccessorModelCallTurn :=
  let attempt := execution_current_attempt self in
  match execution_current_call self with
  | None => Err CallStateMismatch
  | Some call =>
      if negb (bool_decide (observed_correlation observation = current_correlation self call))
         || negb (bool_decide (observed_observation observation = ObservedKnownFailed))
         || negb (is_availability_cause (observed_provider_failure_cause observation))
         || negb (attempt_is_running attempt)
         || negb (bool_decide (call_state call = CallInFlight))
         || bool_decide (successor_attempt = attempt_id attempt)
      then Err ObservationCorrelationMismatch else
      ended_call ← map_err (fun _ => CallStateMismatch) (end_classified call CallKnownFailed);
      ended_attempt ← map_err (fun _ => AttemptStateMismatch)
        (end_without_stop attempt UnstoppedKnownFailure);
      Ok (mkAvailabilitySuccessor (observed_non_acceptance_proven observation)
            (execution_session self) (execution_turn self) ended_call ended_attempt
            (prepared successor_attempt))
  end.

(** ** Failures without an observation *)

(** The end of every failure below: the pending inputs are reclassified and the
    turn closes after the given call at the given snapshot. *)
Definition fail_turn (self : execution) (call : option EndedModelCall) (source : Snap)
    (identities : FailedModelCallTurnIdentities) (disposition : UnstoppedAttemptDisposition) :
    closing (FailedModelCallTurn Snap) :=
  reclassified ← reclassify_pending_steering (execution_active_turn self)
    (failed_reclassifications identities);
  close_failed_turn derived_token (execution_scope self) (execution_current_attempt self) call source
    identities disposition reclassified.

Definition fail_target_resolution (self : execution) (resolution_error : ModelTargetResolutionError)
    (identities : FailedModelCallTurnIdentities) : closing (FailedModelCallTurn Snap) :=
  if has_call self then Err CallStateMismatch else
  let frozen := effective_model (origin_effective (execution_configuration self)) in
  if negb (bool_decide (unresolved_selection resolution_error = frozen))
     || negb match resolve_target (execution_targets self) frozen with
             | Err expected => bool_decide (expected = resolution_error)
             | Ok _ => false
             end
  then Err TargetResolutionMismatch else
  fail_turn self None (execution_starting_snapshot self) identities UnstoppedKnownFailure.

Definition fail_credential_pool_exhausted (self : execution) (pool_name : string)
    (identities : FailedModelCallTurnIdentities) :
    closing (CredentialPoolExhaustedModelCallTurn Snap) :=
  if has_call self || negb (attempt_accepts_prepared_call self) then Err CallStateMismatch else
  mkPoolExhausted pool_name <$>
    fail_turn self None (execution_current_snapshot self) identities UnstoppedKnownFailure.

Definition fail_automatic_context_compaction (self : execution)
    (identities : FailedModelCallTurnIdentities) : closing (FailedModelCallTurn Snap) :=
  if has_call self || negb (attempt_accepts_prepared_call self) then Err CallStateMismatch else
  fail_turn self None (execution_current_snapshot self) identities UnstoppedKnownFailure.

(** The call is ended after the pending inputs are reclassified. *)
Definition fail_call (self : execution) (call : CurrentModelCall)
    (identities : FailedModelCallTurnIdentities) (disposition : UnstoppedAttemptDisposition) :
    closing (FailedModelCallTurn Snap) :=
  reclassified ← reclassify_pending_steering (execution_active_turn self)
    (failed_reclassifications identities);
  ended_call ← map_err (fun _ => CallStateMismatch) (end_classified call CallKnownFailed);
  close_failed_turn derived_token (execution_scope self) (execution_current_attempt self)
    (Some ended_call) (execution_current_snapshot self) identities disposition reclassified.

Definition fail_prepared_call (self : execution) (identities : FailedModelCallTurnIdentities) :
    closing (FailedModelCallTurn Snap) :=
  match execution_current_call self with
  | None => Err CallStateMismatch
  | Some call =>
      if negb (bool_decide (call_state call = CallPrepared)) then Err CallStateMismatch else
      fail_call self call identities UnstoppedKnownFailure
  end.

(** ** Recovery after a restart *)

Definition recover_after_restart (self : execution)
    (failure_identities : FailedModelCallTurnIdentities) : closing (ModelCallTerminalOutcome Snap) :=
  let attempt := execution_current_attempt self in
  match execution_current_call self with
  | None => Err CallStateMismatch
  | Some call =>
      match call_state call with
      | CallPrepared => OutcomeFailed <$> fail_call self call failure_identities UnstoppedLost
      | CallInFlight =>
          call ← map_err (fun _ => CallStateMismatch) (end_classified call CallAmbiguous);
          attempt ← map_err (fun _ => AttemptStateMismatch) (end_without_stop attempt UnstoppedLost);
          ambiguous_operations ← map_err (fun _ => AmbiguityConstructionFailed)
            (try_from_operations [OperationModelCall (ended_call_id call)]);
          Ok (OutcomeAwaitingRecovery
                (mkAmbiguousTurn (execution_session self) (execution_turn self) call attempt
                   ambiguous_operations))
      | CallCancellationRequested =>
          match cancellation_proof attempt with
          | None => Err AttemptStateMismatch
          | Some proof =>
              call ← map_err (fun _ => CallStateMismatch) (end_classified call CallAmbiguous);
              reclassified ← reclassify_pending_steering (execution_active_turn self)
                (failed_reclassifications failure_identities);
              terminal_snapshot ← append_entries derived_token (execution_current_snapshot self)
                (failed_terminal_frontier failure_identities) [];
              attempt ← map_err (fun _ => AttemptStateMismatch)
                (end_after_cancellation attempt proof CancelLost);
              ambiguous_operations ← map_err (fun _ => AmbiguityConstructionFailed)
                (try_from_operations [OperationModelCall (ended_call_id call)]);
              Ok (OutcomeReconciliationRequired
                    (mkReconciliationTurn (execution_session self) (execution_turn self) call attempt
                       (ReconciliationRequired (from_interrupt_ambiguity ambiguous_operations proof))
                       terminal_snapshot reclassified))
          end
      end
  end.

Definition recover_evidence_free_after_restart (self : execution)
    (failure_identities : FailedModelCallTurnIdentities) : closing (FailedModelCallTurn Snap) :=
  if has_call self then Err CallStateMismatch else
  fail_turn self None (execution_starting_snapshot self) failure_identities UnstoppedLost.

Definition recover_tool_crash_after_restart (self : execution)
    (failure_identities : FailedModelCallTurnIdentities) : closing (FailedModelCallTurn Snap) :=
  if has_call self
     || negb (frontier_contains_tool_round (execution_starting_snapshot self)
                (execution_frontier_entries self))
  then Err CallStateMismatch else
  fail_turn self None (execution_current_snapshot self) failure_identities UnstoppedLost.

Definition require_context_compaction_after_tool_results (self : execution)
    (producing_call : ModelCallId) (failure_identities : FailedModelCallTurnIdentities) :
    closing (ContextHeadroomExhaustedModelCallTurn Snap) :=
  if has_call self
     || negb (frontier_contains_tool_round (execution_starting_snapshot self)
                (execution_frontier_entries self))
  then Err CallStateMismatch else
  mkHeadroomExhausted producing_call <$>
    fail_turn self None (execution_current_snapshot self) failure_identities UnstoppedKnownFailure.
End steps.
