(* ===== verification/InterruptApplication.v ===== *)
(** * Closing waits

    Model of [crates/domain/src/model_execution/interrupt_application.rs]: an
    interrupt, or the daemon's automatic reconciliation, applied to an active
    turn that waits for recovery, for a runner, for a child or for its tools. *)

From S2P Require Import Prelude QueueOrder Configuration Interrupt TurnAttempt Frontier ModelCall Tool ToolAttempt TurnLifecycle ToolBatch Delegation SemanticEntry BatchProjection ModelExecution TurnClosure ExecutionSteps.

Local Open Scope list_scope.

(** The attempt lost sight of its call, without a stop. *)
Definition ended_unresolved (attempt_end : AttemptEnd) : bool :=
  match attempt_end with
  | WithoutStop (UnstoppedAmbiguous | UnstoppedLost) => true
  | _ => false
  end.

Definition closes_request (request : ToolRequestId) (entry : SemanticTranscriptEntry) : bool :=
  bool_decide (semantic_payload entry = ToolClosed request).

Section application.
Context {Snap : Type} `{ContextSnapshots Snap, !SnapshotCandidates Snap}.
Context (derived_token : ContentToken).

Definition active_scope (self : ActivatedTurn) : ModelCallTurnScope :=
  mkScope (active_session self) (active_turn_id self).

Definition interrupt_correlates_active (interrupt : AppliedInterruptCommandResult)
    (active_turn : ActivatedTurn) : bool :=
  interrupt_correlates interrupt (active_session active_turn) (active_turn_id active_turn).

(** ** Recovery of a call *)

(** The wait is for exactly this call, made from this snapshot by this attempt. *)
Definition recovery_call_matches (active_turn : ActivatedTurn)
    (ambiguous_operations : NonEmptyIssuedOperationRefs) (call : EndedModelCall)
    (attempt : EndedTurnAttempt) (source_snapshot : Snap) : bool :=
  bool_decide (operation_count ambiguous_operations = 1)
  && operations_contains ambiguous_operations (OperationModelCall (ended_call_id call))
  && bool_decide (pinned_turn (ended_call_pinned call) = active_turn_id active_turn)
  && bool_decide (ended_call_attempt call = ended_id attempt)
  && bool_decide (ended_call_disposition call = CallAmbiguous)
  && bool_decide (ended_call_frontier call = snapshot_frontier source_snapshot)
  && bool_decide (owning_session (snapshot_frontier source_snapshot) = active_session active_turn).

(** What both closures of the wait do once it is recognised. *)
Definition reconcile_call (active_turn : ActivatedTurn) (call : EndedModelCall)
    (attempt : EndedTurnAttempt) (source_snapshot : Snap) (marker : ReconciliationMarker)
    (identities : AmbiguousModelCallTurnIdentities) :
    closing (ReconciliationRequiredModelCallTurn Snap) :=
  reclassified ← reclassify_pending_steering active_turn (ambiguous_reclassifications identities);
  terminal_snapshot ← append_entries derived_token source_snapshot
    (ambiguous_terminal_frontier identities) [];
  if negb (ended_unresolved (ended_end attempt)) then Err AttemptStateMismatch else
  Ok (mkReconciliationTurn (active_session active_turn) (active_turn_id active_turn) call attempt
        (ReconciliationRequired marker) terminal_snapshot reclassified).

Definition apply_interrupt_to_recovery_wait (active_turn : ActivatedTurn) (call : EndedModelCall)
    (attempt : EndedTurnAttempt) (source_snapshot : Snap)
    (interrupt : AppliedInterruptCommandResult) (identities : AmbiguousModelCallTurnIdentities) :
    closing (ReconciliationRequiredModelCallTurn Snap) :=
  match active_phase active_turn with
  | AwaitingRecoveryDecision ambiguous_operations None =>
      if negb (interrupt_correlates_active interrupt active_turn)
         || negb (recovery_call_matches active_turn ambiguous_operations call attempt source_snapshot)
      then Err InterruptCorrelationMismatch else
      reconcile_call active_turn call attempt source_snapshot
        (from_interrupt_ambiguity ambiguous_operations (interrupt_proof interrupt)) identities
  | _ => Err AttemptStateMismatch
  end.

(** The reason of an automatic reconciliation: an interrupt that was applied
    while waiting, or the recovery attempt. *)
Definition automatic_marker (ambiguous_operations : NonEmptyIssuedOperationRefs)
    (applied_interrupt : option AppliedInterruptProof) (recovery_attempt : positive) :
    ReconciliationMarker :=
  match applied_interrupt with
  | Some proof => from_interrupt_ambiguity ambiguous_operations proof
  | None => from_automatic_recovery ambiguous_operations recovery_attempt
  end.

Definition apply_automatic_reconciliation (active_turn : ActivatedTurn) (call : EndedModelCall)
    (attempt : EndedTurnAttempt) (source_snapshot : Snap) (recovery_attempt : positive)
    (identities : AmbiguousModelCallTurnIdentities) :
    closing (ReconciliationRequiredModelCallTurn Snap) :=
  match active_phase active_turn with
  | AwaitingRecoveryDecision ambiguous_operations applied_interrupt =>
      if negb (recovery_call_matches active_turn ambiguous_operations call attempt source_snapshot)
      then Err InterruptCorrelationMismatch else
      reconcile_call active_turn call attempt source_snapshot
        (automatic_marker ambiguous_operations applied_interrupt recovery_attempt) identities
  | _ => Err AttemptStateMismatch
  end.

(** ** Recovery of a tool attempt *)

(** The wait, the ambiguous tool attempt and the projection that closes its
    batch belong to this turn and to the turn attempt that yielded. *)
Definition tool_recovery_matches (active_turn : ActivatedTurn) (wait : AwaitingToolRecovery)
    (tool_attempt : EndedToolAttempt) (issuing_attempt : TurnAttemptId)
    (result_projection : PreparedToolResultProjection)
    (identities : AmbiguousModelCallTurnIdentities) : bool :=
  let session := active_session active_turn in
  let turn := active_turn_id active_turn in
  bool_decide (recovery_session wait = session)
  && bool_decide (recovery_turn wait = turn)
  && bool_decide (recovery_producing_call wait = projected_producing_call result_projection)
  && bool_decide (recovery_issuing_attempt wait = issuing_attempt)
  && bool_decide (recovery_attempt wait = ended_tool_id tool_attempt)
  && bool_decide (projected_turn result_projection = turn)
  && bool_decide (recovery_yielded_frontier wait = projected_source_frontier result_projection)
  && bool_decide (owning_session (snapshot_frontier (projected_snapshot result_projection)) = session)
  && bool_decide (frontier_snapshot (snapshot_frontier (projected_snapshot result_projection))
                  = ambiguous_terminal_frontier identities)
  && existsb (closes_request (ended_tool_request tool_attempt))
       (projected_result_entries result_projection)
  && bool_decide (ended_tool_session tool_attempt = session)
  && bool_decide (ended_tool_turn tool_attempt = turn)
  && bool_decide (ended_tool_issuing tool_attempt = issuing_attempt)
  && bool_decide (ended_tool_end tool_attempt = EndAmbiguous).

Definition reconcile_tool (active_turn : ActivatedTurn) (tool_attempt : EndedToolAttempt)
    (attempt : EndedTurnAttempt) (result_projection : PreparedToolResultProjection)
    (marker : ReconciliationMarker) (identities : AmbiguousModelCallTurnIdentities) :
    closing (ReconciliationRequiredToolTurn Snap) :=
  reclassified ← reclassify_pending_steering active_turn (ambiguous_reclassifications identities);
  Ok (mkToolReconciliationTurn (active_session active_turn) (active_turn_id active_turn) tool_attempt
        attempt (ReconciliationRequired marker) (projected_result_entries result_projection)
        (projected_snapshot result_projection) reclassified).

(** The end of the attempt fits the interrupt the wait recorded. *)
Definition tool_recovery_end_matches (attempt_end : AttemptEnd)
    (applied_interrupt : option AppliedInterruptProof) : bool :=
  match attempt_end with
  | WithoutStop disposition =>
      bool_decide (applied_interrupt = None)
      && match disposition with
         | UnstoppedAmbiguous | UnstoppedLost | YieldedToDurableWait => true
         | _ => false
         end
  | AfterCancellation cause disposition =>
      bool_decide (applied_interrupt = Some cause)
      && match disposition with CancelAmbiguous | CancelLost => true | _ => false end
  | AfterFatalMismatch _ _ => false
  end.

(** The end fits and, after a cancellation, the cause is this interrupt. *)
Definition tool_recovery_end_of (attempt_end : AttemptEnd)
    (applied_interrupt : option AppliedInterruptProof) (proof : AppliedInterruptProof) : bool :=
  tool_recovery_end_matches attempt_end applied_interrupt
  && match attempt_end with
     | AfterCancellation cause _ => bool_decide (cause = proof)
     | _ => true
     end.

Definition waits_for_tool (ambiguous_operations : NonEmptyIssuedOperationRefs)
    (wait : AwaitingToolRecovery) : bool :=
  bool_decide (operation_count ambiguous_operations = 1)
  && operations_contains ambiguous_operations (OperationToolAttempt (recovery_attempt wait)).

Definition apply_interrupt_to_tool_recovery_wait (active_turn : ActivatedTurn)
    (wait : AwaitingToolRecovery) (tool_attempt : EndedToolAttempt) (attempt : EndedTurnAttempt)
    (result_projection : PreparedToolResultProjection) (interrupt : AppliedInterruptCommandResult)
    (identities : AmbiguousModelCallTurnIdentities) : closing (ReconciliationRequiredToolTurn Snap) :=
  let proof := interrupt_proof interrupt in
  match active_phase active_turn with
  | AwaitingRecoveryDecision ambiguous_operations applied_interrupt =>
      if negb (interrupt_correlates_active interrupt active_turn)
         || negb (waits_for_tool ambiguous_operations wait)
         || negb (tool_recovery_matches active_turn wait tool_attempt (ended_id attempt)
                    result_projection identities)
         || negb (tool_recovery_end_of (ended_end attempt) applied_interrupt proof)
      then Err InterruptCorrelationMismatch else
      reconcile_tool active_turn tool_attempt attempt result_projection
        (from_interrupt_ambiguity ambiguous_operations proof) identities
  | _ => Err AttemptStateMismatch
  end.

Definition apply_automatic_tool_reconciliation (active_turn : ActivatedTurn)
    (wait : AwaitingToolRecovery) (tool_attempt : EndedToolAttempt) (attempt : EndedTurnAttempt)
    (result_projection : PreparedToolResultProjection) (recovery_attempt : positive)
    (identities : AmbiguousModelCallTurnIdentities) : closing (ReconciliationRequiredToolTurn Snap) :=
  match active_phase active_turn with
  | AwaitingRecoveryDecision ambiguous_operations applied_interrupt =>
      if negb (waits_for_tool ambiguous_operations wait)
         || negb (tool_recovery_matches active_turn wait tool_attempt (ended_id attempt)
                    result_projection identities)
         || negb (tool_recovery_end_matches (ended_end attempt) applied_interrupt)
      then Err InterruptCorrelationMismatch else
      reconcile_tool active_turn tool_attempt attempt result_projection
        (automatic_marker ambiguous_operations applied_interrupt recovery_attempt) identities
  | _ => Err AttemptStateMismatch
  end.

(** ** Runner recovery *)

Definition apply_interrupt_to_runner_tool_recovery_wait (active_turn : ActivatedTurn)
    (wait : AwaitingToolRecovery) (tool_attempt : EndedToolAttempt)
    (yielded_attempt : TurnAttemptId) (result_projection : PreparedToolResultProjection)
    (interrupt : AppliedInterruptCommandResult) (identities : AmbiguousModelCallTurnIdentities) :
    closing (ReconciliationRequiredToolTurn Snap) :=
  match active_phase active_turn with
  | AwaitingRunnerRecovery _ _ (Some interrupted_tool_attempt) =>
      let attempt := reconstitute_yielded yielded_attempt in
      if negb (interrupt_correlates_active interrupt active_turn)
         || negb (bool_decide (interrupted_tool_attempt = recovery_attempt wait))
         || negb (tool_recovery_matches active_turn wait tool_attempt yielded_attempt
                    result_projection identities)
      then Err InterruptCorrelationMismatch else
      ambiguous_operations ← map_err (fun _ => InterruptCorrelationMismatch)
        (try_from_operations [OperationToolAttempt (recovery_attempt wait)]);
      reconcile_tool active_turn tool_attempt attempt result_projection
        (from_interrupt_ambiguity ambiguous_operations (interrupt_proof interrupt)) identities
  | _ => Err AttemptStateMismatch
  end.

(** Cancels a turn that has no live attempt, after these result entries. *)
Definition cancel_wait (active_turn : ActivatedTurn) (attempt : option CurrentTurnAttempt)
    (source_snapshot : Snap) (tool_result_entries : list SemanticTranscriptEntry)
    (proof : AppliedInterruptProof) (identities : CancelledModelCallTurnIdentities) :
    closing (CancelledModelCallTurn Snap) :=
  reclassified ← reclassify_pending_steering active_turn (cancelled_reclassifications identities);
  cancelled ← close_cancelled_turn derived_token (active_scope active_turn) attempt None
    source_snapshot tool_result_entries proof identities reclassified;
  Ok (set_result_entries cancelled tool_result_entries).

(** The projection continues this snapshot of the turn. *)
Definition projection_continues (result_projection : PreparedToolResultProjection)
    (active_turn : ActivatedTurn) (source_snapshot : Snap) : bool :=
  bool_decide (projected_turn result_projection = active_turn_id active_turn)
  && bool_decide (projected_source_frontier result_projection
                  = frontier_snapshot (snapshot_frontier source_snapshot))
  && bool_decide (owning_session (snapshot_frontier (projected_snapshot result_projection))
                  = active_session active_turn)
  && prefix_of_snapshot source_snapshot (projected_snapshot result_projection).

Definition apply_interrupt_to_runner_recovery_wait (active_turn : ActivatedTurn)
    (starting_snapshot source_snapshot : Snap)
    (result_projection : option PreparedToolResultProjection)
    (interrupt : AppliedInterruptCommandResult) (identities : CancelledModelCallTurnIdentities) :
    closing (CancelledModelCallTurn Snap) :=
  if negb match active_phase active_turn with
          | AwaitingRunnerRecovery _ _ None => true
          | _ => false
          end
     || negb (interrupt_correlates_active interrupt active_turn)
     || negb (bool_decide (snapshot_frontier starting_snapshot
                           = start_frontier (active_start active_turn)))
     || negb (bool_decide (owning_session (snapshot_frontier source_snapshot)
                           = active_session active_turn))
     || negb (prefix_of_snapshot starting_snapshot source_snapshot)
  then Err InterruptCorrelationMismatch else
  tool_result_entries ←
    match result_projection with
    | Some projection =>
        if projection_continues projection active_turn source_snapshot
        then Ok (projected_result_entries projection) else Err InterruptCorrelationMismatch
    | None => Ok []
    end;
  cancel_wait active_turn None source_snapshot tool_result_entries (interrupt_proof interrupt)
    identities.

(** The ended attempt of this identity, searched in the order of the requests. *)
Definition find_stopped (batch : ToolBatch Snap) (attempt : ToolAttemptId) : option EndedToolAttempt :=
  head (omap (fun request =>
    match batch_attempts batch !! request_id request with
    | Some (EndedAttempt ended) =>
        if bool_decide (ended_tool_id ended = attempt) then Some ended else None
    | Some (CurrentAttempt _) | None => None
    end) (batch_requests batch)).

Definition known_crash_loss (attempt : EndedToolAttempt) : bool :=
  match ended_tool_end attempt with
  | EndKnownFailed error =>
      bool_decide (error_kind error = CrashLost) && bool_decide (error_detail error = None)
  | _ => false
  end.

(** The turn attempt a retryable loss belongs to. *)
Definition retryable_turn_attempt (batch : ToolBatch Snap) (interrupted : ToolAttemptId)
    (stopped : EndedToolAttempt) (closed_retry : bool) : option TurnAttemptId :=
  match batch_phase batch with
  | BatchExecuting turn_attempt => Some turn_attempt
  | BatchAwaitingRecovery attempt =>
      if bool_decide (attempt = interrupted) && closed_retry
      then Some (ended_tool_issuing stopped) else None
  | _ => None
  end.

Definition apply_interrupt_to_retryable_runner_tool_recovery_wait (active_turn : ActivatedTurn)
    (starting_snapshot : Snap) (batch : ToolBatch Snap)
    (result_projection : PreparedToolResultProjection) (interrupt : AppliedInterruptCommandResult)
    (identities : CancelledModelCallTurnIdentities) : closing (CancelledModelCallTurn Snap) :=
  let session := active_session active_turn in
  let turn := active_turn_id active_turn in
  match active_phase active_turn with
  | AwaitingRunnerRecovery _ _ (Some interrupted) =>
      stopped ← ok_or (find_stopped batch interrupted) AttemptStateMismatch;
      let closed_retry :=
        existsb (closes_request (ended_tool_request stopped))
          (projected_result_entries result_projection) in
      turn_attempt ← ok_or (retryable_turn_attempt batch interrupted stopped closed_retry)
        AttemptStateMismatch;
      if negb (bool_decide (batch_session batch = session))
         || negb (bool_decide (batch_turn batch = turn))
         || negb (bool_decide (ended_tool_session stopped = session))
         || negb (bool_decide (ended_tool_turn stopped = turn))
         || negb (bool_decide (ended_tool_issuing stopped = turn_attempt))
         || negb (known_crash_loss stopped
                  || (closed_retry && bool_decide (ended_tool_end stopped = EndAmbiguous)))
         || negb (interrupt_correlates_active interrupt active_turn)
         || negb (bool_decide (snapshot_frontier starting_snapshot
                               = start_frontier (active_start active_turn)))
      then Err InterruptCorrelationMismatch else
      let source_snapshot := batch_yielded batch in
      if negb (prefix_of_snapshot starting_snapshot source_snapshot)
         || negb (bool_decide (projected_producing_call result_projection
                               = batch_producing_call batch))
         || negb (projection_continues result_projection active_turn source_snapshot)
         || negb (closed_retry
                  || existsb (fun entry =>
                       bool_decide (semantic_payload entry = ToolExecutionResult interrupted))
                       (projected_result_entries result_projection))
      then Err InterruptCorrelationMismatch else
      cancel_wait active_turn None source_snapshot (projected_result_entries result_projection)
        (interrupt_proof interrupt) identities
  | _ => Err AttemptStateMismatch
  end.

(** ** An executing batch *)

(** The attempt that executes the batch; a wait for a child has none. *)
Definition executing_attempt (active_turn : ActivatedTurn) (batch : ToolBatch Snap) :
    closing (option CurrentTurnAttempt) :=
  match active_phase active_turn, batch_phase batch with
  | Running current_attempt, BatchExecuting turn_attempt =>
      if bool_decide (turn_attempt = attempt_id current_attempt) then Ok (Some current_attempt)
      else Err InterruptCorrelationMismatch
  | AwaitingChild wait, BatchAwaitingChild request spawning child =>
      if bool_decide (request = awaiting_request wait)
         && bool_decide (spawning = spawning_request wait)
         && bool_decide (child = wait_child wait)
      then Ok None else Err AttemptStateMismatch
  | _, _ => Err AttemptStateMismatch
  end.

Definition apply_interrupt_to_executing_tool_batch (active_turn : ActivatedTurn)
    (batch : ToolBatch Snap) (result_projection : PreparedToolResultProjection)
    (interrupt : AppliedInterruptCommandResult) (identities : CancelledModelCallTurnIdentities) :
    closing (CancelledModelCallTurn Snap) :=
  attempt ← executing_attempt active_turn batch;
  if negb (bool_decide (batch_session batch = active_session active_turn))
     || negb (bool_decide (batch_turn batch = active_turn_id active_turn))
     || negb (interrupt_correlates_active interrupt active_turn)
  then Err InterruptCorrelationMismatch else
  let source_snapshot := batch_yielded batch in
  if negb (projection_extends result_projection (active_session active_turn)
             (active_turn_id active_turn) source_snapshot)
  then Err InterruptCorrelationMismatch else
  cancel_wait active_turn attempt source_snapshot (projected_result_entries result_projection)
    (interrupt_proof interrupt) identities.
End application.
