(* ===== verification/ExecutionReconstitution.v ===== *)
(** * Reconstitution of a model execution

    Model of [ModelCallExecutionReconstitutionInput::reconstitute] in
    [crates/domain/src/model_execution.rs]: the facts of one live turn are
    checked against its frontier, its contents, its pinned target and its call
    before the aggregate exists again. The slice of the frontier behind the
    start of the turn could panic and is kept as such. *)

From S2P Require Import Prelude QueueOrder ModelSettings Configuration Interrupt TurnAttempt Frontier ModelCall Tool ToolAttempt TurnLifecycle ToolBatch Delegation SemanticEntry ContextCompaction BatchProjection UserContent ModelExecution TurnClosure ExecutionSteps.

Local Open Scope list_scope.

(** ** Stored correlations *)

Record ToolDenialCorrelation := mkDenialCorrelation {
  denial_request : ToolRequestId;
  denial_denied : bool;
}.

(** [From<ToolApprovalResolution>] *)
Definition denial_correlation (resolution : ToolApprovalResolution) : ToolDenialCorrelation :=
  mkDenialCorrelation (resolution_request resolution)
    match resolution_decision resolution with Deny _ => true | Approve => false end.

Record ToolInadmissibleCorrelation := mkInadmissibleCorrelation {
  inadmissible_request : ToolRequestId;
  inadmissible_session : SessionId;
  inadmissible_turn : TurnId;
  inadmissible_producing_call : ModelCallId;
  inadmissible_inadmissible : bool;
}.

Record ToolResultAttemptCorrelation := mkResultCorrelation {
  result_correlation_attempt : ToolAttemptId;
  result_correlation_request : ToolRequestId;
  result_correlation_producing_call : ModelCallId;
}.

(** [ModelCallOriginContent] of origin_content.rs *)
Record ModelCallOriginContent := mkOriginContent {
  origin_accepted_input : AcceptedInputId;
  origin_content : UserContent;
}.

Inductive ModelCallExecutionReconstitutionFailure :=
| TurnIsNotRunning
| StartingSnapshotSessionMismatch
| StartingSnapshotMismatch
| CallSnapshotMissing
| ContinuationSnapshotUnexpected
| ContinuationSnapshotMismatch
| CallSnapshotUnexpected
| CallSnapshotMismatch
| ExecutionFrontierEntryMismatch
| ToolResultCorrelationMismatch
| ToolDenialCorrelationMismatch
| MultipleCalls
| DuplicateOriginContent
| MissingOriginContent
| UnreferencedOriginContent
| AttachmentBlobFactMismatch
| ConsumedSteeringMismatch
| CallOwnershipMismatch
| CallSelectionMismatch
| CallTargetMismatch
| PinnedTargetMissing
| PinnedTargetUnexpected
| PinnedTargetTurnMismatch
| InvalidCall
| LifecycleMismatch.

Abbreviation loading := (exec ModelCallExecutionReconstitutionFailure).

Section reconstitution.
Context {Snap Stored : Type} `{ContextSnapshots Snap, !StoredSnapshots Snap Stored}.

Record ModelCallExecutionReconstitutionInput := mkExecutionInput {
  input_active_turn : ActivatedTurn;
  input_targets : ModelTargetCatalog;
  input_starting_snapshot : Snap;
  input_continuation_snapshot : option Stored;
  input_call_snapshot : option Stored;
  input_frontier_entries : list SemanticTranscriptEntry;
  input_origin_contents : list ModelCallOriginContent;
  input_attachment_blob_facts : list AttachmentBlobFact;
  input_pinned_target : option PinnedProviderTargetReconstitutionInput;
  input_calls : list ModelCallReconstitutionInput;
  input_tool_result_correlations : list ToolResultAttemptCorrelation;
  input_tool_denial_correlations : list ToolDenialCorrelation;
  input_tool_inadmissible_correlations : list ToolInadmissibleCorrelation;
  input_uncommitted_projection : option (@PreparedToolResultProjection Snap);
  input_availability_successor : bool;
}.

(** ** The frontier of the turn *)

(** The snapshot the turn continues from. *)
Definition load_current_snapshot (input : ModelCallExecutionReconstitutionInput) : loading Snap :=
  let session := active_session (input_active_turn input) in
  let starting := input_starting_snapshot input in
  match head (input_calls input), input_call_snapshot input, input_continuation_snapshot input with
  | None, None, None => Returned starting
  | None, Some _, _ => Rejected CallSnapshotUnexpected
  | None, None, Some stored =>
      current ← exec_ok_or (stored_reconstitute stored) ContinuationSnapshotMismatch;
      if negb (bool_decide (owning_session (snapshot_frontier current) = session))
         || bool_decide (snapshot_frontier current = snapshot_frontier starting)
         || negb (prefix_of_snapshot starting current)
      then Rejected ContinuationSnapshotMismatch else Returned current
  | Some _, _, Some _ => Rejected ContinuationSnapshotUnexpected
  | Some call, None, None =>
      if bool_decide (stored_call_frontier call = frontier_snapshot (snapshot_frontier starting))
      then Returned starting else Rejected CallSnapshotMissing
  | Some call, Some stored, None =>
      if bool_decide (stored_call_frontier call = frontier_snapshot (snapshot_frontier starting))
      then Rejected CallSnapshotUnexpected else
      current ← exec_ok_or (stored_reconstitute stored) CallSnapshotMismatch;
      if negb (bool_decide (stored_owner stored = session))
         || negb (bool_decide (stored_identity stored = stored_call_frontier call))
         || bool_decide (entry_count_of current = entry_count_of starting)
         || negb (prefix_of_snapshot starting current)
      then Rejected CallSnapshotMismatch else Returned current
  end.

(** ** Contents and attachments *)

(** One iteration: [insert(..).is_some()] is whether the key was present. *)
Definition insert_origin (contents : gmap AcceptedInputId UserContent)
    (origin : ModelCallOriginContent) : result unit (gmap AcceptedInputId UserContent) :=
  if bool_decide (is_Some (contents !! origin_accepted_input origin)) then Err tt
  else Ok (<[origin_accepted_input origin := origin_content origin]> contents).

Definition pending_inputs (input : ModelCallExecutionReconstitutionInput) : gset AcceptedInputId :=
  list_to_set (pending_accepted_input <$> active_pending_steering (input_active_turn input)).

Definition has_content (contents : gmap AcceptedInputId UserContent) (accepted : AcceptedInputId) : bool :=
  bool_decide (is_Some (contents !! accepted)).

Definition load_origin_contents (input : ModelCallExecutionReconstitutionInput) :
    loading (gmap AcceptedInputId UserContent) :=
  let delivered := omap delivered_input (input_frontier_entries input) in
  match try_fold insert_origin (input_origin_contents input) ∅ with
  | Err _ => Rejected DuplicateOriginContent
  | Ok contents =>
      if existsb (fun accepted => negb (has_content contents accepted)) delivered
      then Rejected MissingOriginContent else
      if existsb (fun accepted => negb (has_content contents accepted))
           (elements (pending_inputs input))
      then Rejected MissingOriginContent else
      if existsb (fun accepted =>
           negb (bool_decide (accepted ∈ delivered))
           && negb (bool_decide (accepted ∈ pending_inputs input)))
           (map_to_list contents).*1
      then Rejected UnreferencedOriginContent else Returned contents
  end.

Definition part_attachment (part : UserContentPart) : option BlobDigest :=
  match part with PartAttachment digest _ _ _ => Some digest | PartText _ => None end.

Definition insert_blob_fact (facts : gmap BlobDigest positive) (fact : AttachmentBlobFact) :
    result unit (gmap BlobDigest positive) :=
  if bool_decide (is_Some (facts !! blob_fact_digest fact)) then Err tt
  else Ok (<[blob_fact_digest fact := blob_fact_byte_length fact]> facts).

(** The attachments of the contents that the projection of the frontier shows,
    and of the pending inputs. *)
Definition referenced_attachments (input : ModelCallExecutionReconstitutionInput)
    (contents : gmap AcceptedInputId UserContent) (projected : gset SemanticTranscriptEntryRef) :
    gset BlobDigest :=
  let rendered : gset AcceptedInputId :=
    list_to_set (omap delivered_input
      (filter (fun entry => reference entry ∈ projected) (input_frontier_entries input))) in
  list_to_set (omap part_attachment (concat
    ((fun item : AcceptedInputId * UserContent => content_parts item.2) <$>
       filter (fun item : AcceptedInputId * UserContent =>
                 item.1 ∈ rendered \/ item.1 ∈ pending_inputs input)
         (map_to_list contents)))).

Definition load_attachments (input : ModelCallExecutionReconstitutionInput)
    (contents : gmap AcceptedInputId UserContent) : loading (gmap BlobDigest positive) :=
  projection ← exec_map_err (fun _ => ExecutionFrontierEntryMismatch)
    (from_complete_entries (input_frontier_entries input));
  match try_fold insert_blob_fact (input_attachment_blob_facts input) ∅ with
  | Err _ => Rejected AttachmentBlobFactMismatch
  | Ok facts =>
      if negb (bool_decide (dom facts
           = referenced_attachments input contents
               (list_to_set (projection_ordered_entries projection))))
      then Rejected AttachmentBlobFactMismatch else Returned facts
  end.

(** ** Consumed steering *)

Definition is_steering (entry : SemanticTranscriptEntry) : bool :=
  match semantic_payload entry with SteeringAcceptedInput _ _ => true | _ => false end.

Definition consumed_matches (turn : TurnId)
    (item : ConsumedSteeringInput * SemanticTranscriptEntry) : bool :=
  let '(consumed, entry) := item in
  is_consumed (consumed_lifecycle consumed)
  && match semantic_payload entry with
     | SteeringAcceptedInput accepted_input source =>
         bool_decide (accepted_input = consumed_accepted_input consumed)
         && bool_decide (source = consumed_source_turn consumed)
         && bool_decide (source = turn)
     | _ => false
     end.

(** The entries behind the start of the turn, [skip(entry_count())]. *)
Definition turn_entries (input : ModelCallExecutionReconstitutionInput) : list SemanticTranscriptEntry :=
  drop (entry_count_of (input_starting_snapshot input)) (input_frontier_entries input).

Definition check_consumed (input : ModelCallExecutionReconstitutionInput) : bool :=
  let consumed := active_consumed_steering (input_active_turn input) in
  let consumed_entries := List.filter is_steering (turn_entries input) in
  bool_decide (length consumed = length consumed_entries)
  && forallb (consumed_matches (active_turn_id (input_active_turn input)))
       (zip consumed consumed_entries).

(** ** The pinned target and the call *)

Definition is_relocation (entry : SemanticTranscriptEntry) : bool :=
  match semantic_payload entry with RunnerPlacementChanged _ => true | _ => false end.

Definition load_pinned_target (input : ModelCallExecutionReconstitutionInput) :
    loading (option PinnedProviderTarget) :=
  let relocated_only :=
    (entry_count_of (input_starting_snapshot input) <? length (input_frontier_entries input))%nat
    && forallb is_relocation (turn_entries input) in
  let resolve stored :=
    pinned ← exec_ok_or (reconstitute_for_turn stored (active_turn_id (input_active_turn input)))
      PinnedTargetTurnMismatch;
    Returned (Some pinned) in
  match input_pinned_target input, head (input_calls input), input_continuation_snapshot input,
        input_availability_successor input with
  | None, None, None, false => Returned None
  | None, None, Some _, successor =>
      if negb successor && relocated_only then Returned None else Rejected PinnedTargetMissing
  | None, Some _, _, _ => Rejected PinnedTargetMissing
  | Some _, None, None, false | None, None, None, true => Rejected PinnedTargetUnexpected
  | Some stored, Some _, None, _ | Some stored, None, Some _, _ | Some stored, None, None, true =>
      resolve stored
  | Some _, Some _, Some _, _ => Rejected ContinuationSnapshotUnexpected
  end.

(** The configured target of the frozen selection is another one. *)
Definition target_differs (targets : ModelTargetCatalog) (selection : FrozenModelSelection)
    (target : ResolvedProviderTarget) : bool :=
  match resolve_target targets selection with
  | Ok resolution => negb (bool_decide (target = resolved_target resolution))
  | Err _ => false
  end.

Definition load_current_call (input : ModelCallExecutionReconstitutionInput)
    (current_attempt : CurrentTurnAttempt) (current_snapshot : Snap)
    (pinned_target : option PinnedProviderTarget) : loading (option CurrentModelCall) :=
  let turn := active_turn_id (input_active_turn input) in
  let frozen :=
    effective_model (origin_effective (active_configuration (input_active_turn input))) in
  match head (input_calls input) with
  | None => Returned None
  | Some call =>
      if negb (bool_decide (stored_call_turn call = turn))
         || negb (bool_decide (stored_call_attempt call = attempt_id current_attempt))
         || negb (bool_decide (stored_call_frontier call
                               = frontier_snapshot (snapshot_frontier current_snapshot)))
      then Rejected CallOwnershipMismatch else
      if negb (bool_decide (stored_call_selection call = frozen)) then Rejected CallSelectionMismatch
      else
      match pinned_target with
      | None => Rejected PinnedTargetMissing
      | Some pinned =>
          if negb (bool_decide (stored_call_target call = ModelCall.pinned_target pinned))
             || target_differs (input_targets input) (stored_call_selection call)
                  (ModelCall.pinned_target pinned)
          then Rejected CallTargetMismatch else
          match call_reconstitute call current_snapshot pinned with
          | Ok (CurrentCall call) => Returned (Some call)
          | Ok (EndedCall _) | Err _ => Rejected InvalidCall
          end
      end
  end.

(** ** Correlations of the results in the frontier *)

Definition execution_result (entry : SemanticTranscriptEntry) : option ToolAttemptId :=
  match semantic_payload entry with ToolExecutionResult attempt => Some attempt | _ => None end.
Definition denied_request (entry : SemanticTranscriptEntry) : option ToolRequestId :=
  match semantic_payload entry with ToolDenied request => Some request | _ => None end.
Definition inadmissible_result (entry : SemanticTranscriptEntry) : option ToolRequestId :=
  match semantic_payload entry with ToolInadmissible request => Some request | _ => None end.

Definition insert_result_correlation (correlations : gmap ToolAttemptId ToolResultAttemptCorrelation)
    (correlation : ToolResultAttemptCorrelation) :
    result unit (gmap ToolAttemptId ToolResultAttemptCorrelation) :=
  if bool_decide (is_Some (correlations !! result_correlation_attempt correlation)) then Err tt
  else Ok (<[result_correlation_attempt correlation := correlation]> correlations).

Definition load_result_correlations (input : ModelCallExecutionReconstitutionInput) :
    loading (gmap ToolAttemptId ToolResultAttemptCorrelation) :=
  let referenced := omap execution_result (input_frontier_entries input) in
  match try_fold insert_result_correlation (input_tool_result_correlations input) ∅ with
  | Err _ => Rejected ToolResultCorrelationMismatch
  | Ok correlations =>
      if negb (bool_decide (length referenced = size correlations))
         || existsb (fun attempt => negb (bool_decide (is_Some (correlations !! attempt)))) referenced
      then Rejected ToolResultCorrelationMismatch else Returned correlations
  end.

Definition insert_denial (denials : gset ToolRequestId) (correlation : ToolDenialCorrelation) :
    result unit (gset ToolRequestId) :=
  if negb (denial_denied correlation) || bool_decide (denial_request correlation ∈ denials)
  then Err tt else Ok ({[denial_request correlation]} ∪ denials).

Definition load_denials (input : ModelCallExecutionReconstitutionInput) : loading (gset ToolRequestId) :=
  let referenced := omap denied_request (input_frontier_entries input) in
  match try_fold insert_denial (input_tool_denial_correlations input) ∅ with
  | Err _ => Rejected ToolDenialCorrelationMismatch
  | Ok denials =>
      if negb (bool_decide (length referenced = size denials))
         || existsb (fun request => negb (bool_decide (request ∈ denials))) referenced
      then Rejected ToolDenialCorrelationMismatch else Returned denials
  end.

(** The frontier holds the inadmissible result the correlation names. *)
Definition shows_inadmissible (entries : list SemanticTranscriptEntry)
    (correlation : ToolInadmissibleCorrelation) : bool :=
  existsb (fun entry =>
    bool_decide (semantic_source_session entry = inadmissible_session correlation)
    && bool_decide (semantic_payload entry = ToolInadmissible (inadmissible_request correlation)))
    entries.

Definition insert_inadmissible (entries : list SemanticTranscriptEntry)
    (inadmissible : gset ToolRequestId) (correlation : ToolInadmissibleCorrelation) :
    result unit (gset ToolRequestId) :=
  if negb (inadmissible_inadmissible correlation)
     || bool_decide (inadmissible_request correlation ∈ inadmissible)
     || negb (shows_inadmissible entries correlation)
  then Err tt else Ok ({[inadmissible_request correlation]} ∪ inadmissible).

Definition load_inadmissible (input : ModelCallExecutionReconstitutionInput) :
    loading (gset ToolRequestId) :=
  let entries := input_frontier_entries input in
  match try_fold (insert_inadmissible entries) (input_tool_inadmissible_correlations input) ∅ with
  | Err _ => Rejected ToolResultCorrelationMismatch
  | Ok inadmissible =>
      if existsb (fun request => negb (bool_decide (request ∈ inadmissible)))
           (omap inadmissible_result entries)
      then Rejected ToolResultCorrelationMismatch else Returned inadmissible
  end.

(** ** The latest tool round *)

Definition assistant_entry_call (entry : SemanticTranscriptEntry) : option ModelCallId :=
  match semantic_payload entry with
  | AssistantTextEntry producing_call _ | ProviderCompaction producing_call _
  | ProviderReasoning producing_call _ | AssistantToolUse producing_call _ => Some producing_call
  | _ => None
  end.

(** [Iterator::take_while] *)
Fixpoint take_while {A} (test : A -> bool) (l : list A) : list A :=
  match l with
  | x :: l => if test x then x :: take_while test l else []
  | [] => []
  end.

(** The last tool use and the call that produced it. *)
Definition find_last_tool_use (entries : list SemanticTranscriptEntry) : option (nat * ModelCallId) :=
  head (omap (fun '(index, entry) =>
    match semantic_payload entry with
    | AssistantToolUse producing_call _ => Some (index, producing_call)
    | _ => None
    end) (reverse (imap (fun index entry => (index, entry)) entries))).

(** The entry at this index is part of the response of this call. *)
Definition produced_at (entries : list SemanticTranscriptEntry) (call : ModelCallId) (index : nat) :
    bool := bool_decide ((entries !! index) ≫= assistant_entry_call = Some call).

Definition response_start (entries : list SemanticTranscriptEntry) (call : ModelCallId)
    (last_tool_use : nat) : nat :=
  default last_tool_use
    (last (take_while (produced_at entries call) (reverse (seq 0 (S last_tool_use))))).

Definition response_end (entries : list SemanticTranscriptEntry) (call : ModelCallId)
    (last_tool_use : nat) : nat :=
  match last (take_while (produced_at entries call)
                (seq last_tool_use (length entries - last_tool_use))) with
  | Some index => S index
  | None => S last_tool_use
  end.

(** The result entry settles the request; an error is a correlation that
    contradicts it. *)
Definition result_settles (correlations : gmap ToolAttemptId ToolResultAttemptCorrelation)
    (denials inadmissible : gset ToolRequestId) (call : ModelCallId)
    (item : SemanticTranscriptEntry * ToolRequestId) : result unit bool :=
  let '(entry, request) := item in
  match semantic_payload entry with
  | ToolExecutionResult attempt =>
      correlation ← ok_or (correlations !! attempt) tt;
      if negb (bool_decide (result_correlation_request correlation = request))
         || negb (bool_decide (result_correlation_producing_call correlation = call))
      then Err tt else Ok true
  | ToolDenied result_request =>
      Ok (bool_decide (result_request = request) && bool_decide (result_request ∈ denials))
  | DelegationResult awaiting_request _ _ ForegroundWait _ _ =>
      Ok (bool_decide (awaiting_request = request))
  | ToolInadmissible result_request =>
      Ok (bool_decide (result_request = request) && bool_decide (result_request ∈ inadmissible))
  | _ => Ok false
  end.

Fixpoint results_settle (correlations : gmap ToolAttemptId ToolResultAttemptCorrelation)
    (denials inadmissible : gset ToolRequestId) (call : ModelCallId)
    (items : list (SemanticTranscriptEntry * ToolRequestId)) : result unit bool :=
  match items with
  | [] => Ok true
  | item :: items =>
      match result_settles correlations denials inadmissible call item with
      | Ok true => results_settle correlations denials inadmissible call items
      | Ok false => Ok false
      | Err error => Err error
      end
  end.

(** A summary or a relocation, which may stand between the results and the
    steering of the continuation. *)
Definition is_boundary (entry : SemanticTranscriptEntry) : bool :=
  match semantic_payload entry with
  | RunnerPlacementChanged _ | ContextSummary _ _ _ => true
  | _ => false
  end.

Fixpoint skip_boundaries (entries : list SemanticTranscriptEntry) : list SemanticTranscriptEntry :=
  match entries with
  | entry :: rest => if is_boundary entry then skip_boundaries rest else entries
  | [] => []
  end.

(** [frontier_closes_latest_tool_round] behind the start of the turn *)
Definition closes_latest_tool_round (suffix : list SemanticTranscriptEntry)
    (correlations : gmap ToolAttemptId ToolResultAttemptCorrelation)
    (denials inadmissible : gset ToolRequestId) : result unit bool :=
  match find_last_tool_use suffix with
  | None => Ok false
  | Some (last_tool_use, call) =>
      let first := response_start suffix call last_tool_use in
      let past := response_end suffix call last_tool_use in
      let requests := omap tool_use_request (take (past - first) (drop first suffix)) in
      match u64_checked_add (N.of_nat past) (N.of_nat (length requests)) with
      | None => Ok false
      | Some results_end =>
          if bool_decide (requests = []) || (length suffix <? N.to_nat results_end)%nat
          then Ok false else
          match results_settle correlations denials inadmissible call
                  (zip (take (length requests) (drop past suffix)) requests) with
          | Ok true => Ok (forallb is_steering (skip_boundaries (drop (N.to_nat results_end) suffix)))
          | settled => settled
          end
      end
  end.

(** ** The lifecycle *)

(** The projection that this transaction has not committed yet is the tail of
    the current snapshot. *)
Definition uncommitted_projection_matches (turn : TurnId) (current_snapshot : Snap)
    (projection : PreparedToolResultProjection) : bool :=
  let entries := projected_result_entries projection in
  bool_decide (projected_turn projection = turn)
  && bool_decide (snapshot_frontier (projected_snapshot projection) = snapshot_frontier current_snapshot)
  && bool_decide (snapshot_entries (projected_snapshot projection) = snapshot_entries current_snapshot)
  && (length entries <=? entry_count_of current_snapshot)%nat
  && bool_decide (reference <$> entries
                  = drop (entry_count_of current_snapshot - length entries)
                      (snapshot_entries current_snapshot)).

(** The five [matches!] of the attempt and the call. *)
Definition execution_lifecycle_valid (attempt : CurrentTurnAttempt) (call : option CurrentModelCall)
    (tool_round continuation uncommitted availability_successor : bool) : bool :=
  match attempt_state attempt, call_state <$> call with
  | Prepared, None => negb tool_round || uncommitted || (continuation && availability_successor)
  | Prepared, Some CallPrepared => negb tool_round || continuation
  | AttemptRunning, Some CallInFlight => true
  | StopRequested (CancellationOnly _), Some CallCancellationRequested => true
  | AttemptRunning, None => (tool_round && negb continuation) || (continuation && uncommitted)
  | AttemptRunning, Some CallPrepared => continuation
  | _, _ => false
  end.

(** The frontier of the turn and its contents, before the call is considered. *)
Definition load_frontier (input : ModelCallExecutionReconstitutionInput) : loading Snap :=
  let active_turn := input_active_turn input in
  let starting := input_starting_snapshot input in
  if negb (bool_decide (owning_session (snapshot_frontier starting) = active_session active_turn))
  then Rejected StartingSnapshotSessionMismatch else
  if negb (bool_decide (start_frontier (active_start active_turn) = snapshot_frontier starting))
  then Rejected StartingSnapshotMismatch else
  if (1 <? length (input_calls input))%nat then Rejected MultipleCalls else
  current_snapshot ← load_current_snapshot input;
  if negb (bool_decide (reference <$> input_frontier_entries input = snapshot_entries current_snapshot))
  then Rejected ExecutionFrontierEntryMismatch else Returned current_snapshot.

(** The evidence that the latest tool round is closed, from the correlations. *)
Definition load_continuation (input : ModelCallExecutionReconstitutionInput) : loading bool :=
  correlations ← load_result_correlations input;
  denials ← load_denials input;
  inadmissible ← load_inadmissible input;
  suffix ← slice_or_panic (input_frontier_entries input)
    (entry_count_of (input_starting_snapshot input)) (length (input_frontier_entries input));
  match closes_latest_tool_round suffix correlations denials inadmissible with
  | Ok closed => Returned closed
  | Err _ => Rejected ToolResultCorrelationMismatch
  end.

Definition load_execution (input : ModelCallExecutionReconstitutionInput) :
    loading (ModelCallExecution Snap) :=
  let active_turn := input_active_turn input in
  let configuration := active_configuration active_turn in
  match active_phase active_turn with
  | Running current_attempt =>
      current_snapshot ← load_frontier input;
      origin_contents ← load_origin_contents input;
      attachment_blob_facts ← load_attachments input origin_contents;
      if negb (check_consumed input) then Rejected ConsumedSteeringMismatch else
      pinned_target ← load_pinned_target input;
      if match pinned_target with
         | Some pinned =>
             target_differs (input_targets input) (effective_model (origin_effective configuration))
               (ModelCall.pinned_target pinned)
         | None => false
         end
      then Rejected CallTargetMismatch else
      current_call ← load_current_call input current_attempt current_snapshot pinned_target;
      continuation ← load_continuation input;
      let uncommitted :=
        match input_uncommitted_projection input with
        | Some projection =>
            uncommitted_projection_matches (active_turn_id active_turn) current_snapshot projection
        | None => false
        end in
      if bool_decide (is_Some (input_uncommitted_projection input)) && negb uncommitted
      then Rejected ContinuationSnapshotMismatch else
      if negb (execution_lifecycle_valid current_attempt current_call
                 (frontier_contains_tool_round (input_starting_snapshot input)
                    (input_frontier_entries input))
                 continuation uncommitted (input_availability_successor input))
      then Rejected LifecycleMismatch else
      Returned
        (mkExecution active_turn (active_session active_turn) (active_turn_id active_turn)
           configuration (active_start active_turn) (input_targets input) current_attempt
           (input_starting_snapshot input) current_snapshot (input_frontier_entries input)
           origin_contents attachment_blob_facts pinned_target current_call continuation)
  | _ => Rejected TurnIsNotRunning
  end.

(** [reconstitute]; the rejection returns the input. *)
Definition execution_reconstitute (input : ModelCallExecutionReconstitutionInput) :
    exec (ModelCallExecutionReconstitutionInput * ModelCallExecutionReconstitutionFailure)%type
      (ModelCallExecution Snap) :=
  exec_map_err (fun failure => (input, failure)) (load_execution input).
End reconstitution.
