(* ===== verification/ToolRoundSpec.v ===== *)
(** * Pending steering and the parts of a tool round

    Reclassification and the loops over the parts of a response, item by item:
    which identities a part uses, which entry it adds and which request it
    records. A loop over the parts is the run over their items. *)

From stdpp Require Import sets.
From S2P Require Import Prelude QueueOrder ModelSettings Configuration Interrupt TurnAttempt Frontier FrontierSpec ModelCall Tool ToolAttempt TurnLifecycle ToolBatch ToolBatchSpec Delegation SemanticEntry ContextCompaction ContextCompactionSpec BatchProjection BatchProjectionSpec ModelExecution TurnClosure ExecutionSteps.

Local Open Scope list_scope.

(** ** Generic facts *)

Lemma mapM_result_Ok {E A B} (f : A -> result E B) l l' :
  mapM f l = Ok l' <-> Forall2 (fun a b => f a = Ok b) l l'.
Proof.
  revert l'. induction l as [|a l IH]; intros l'; simpl.
  - split; [intros [= <-]; constructor|by intros ->%Forall2_nil_inv_l].
  - rewrite bind_Ok. setoid_rewrite bind_Ok. split.
    + intros (b & Hb & k & Hk & [= <-]). constructor; [done|by apply IH].
    + intros (b & k & Hb & Hk & ->)%Forall2_cons_inv_l. exists b. split; [done|].
      exists k. split; [by apply IH|done].
Qed.

Lemma fmap_result_Ok {E A B} (f : A -> B) (m : result E A) b :
  f <$> m = Ok b <-> exists a, m = Ok a /\ b = f a.
Proof. destruct m; simpl; naive_solver. Qed.

Lemma if_then_Ok {E A} (b : bool) (e : E) (m : result E A) a :
  (if b then m else Err e) = Ok a <-> b = true /\ m = Ok a.
Proof. destruct b; naive_solver. Qed.

Lemma one_operation operation : exists operations, try_from_operations [operation] = Ok operations.
Proof.
  unfold try_from_operations, insert_operation. simpl. case_bool_decide as Hin; [set_solver|]. simpl.
  case_bool_decide as Hempty; [set_solver|by eexists].
Qed.

(** ** Pending steering *)

(** The pending input steers this turn and becomes the origin of a new one. *)
Definition reclassifies (source : TurnId) (pending : PendingSteeringInput)
    (identity : PendingSteeringReclassificationIdentity) : Prop :=
  steers source (pending_lifecycle pending) = true
  /\ reclassified_input identity = pending_accepted_input pending
  /\ reclassified_turn identity <> source.

Definition steering_admitted (source : TurnId) (pending : list PendingSteeringInput)
    (identities : reclassifications) : Prop :=
  Forall2 (reclassifies source) pending identities /\ NoDup (reclassified_turn <$> identities).

(** The successor turn of a pending input. *)
Definition successor_turn_of (session : SessionId) (source : TurnId)
    (effective_configuration : EffectiveConfiguration) (pending : PendingSteeringInput)
    (identity : PendingSteeringReclassificationIdentity) : ReclassifiedPendingSteeringTurn :=
  mkReclassified session source
    (mkLifecycle (pending_accepted_input pending)
       (ReclassifiedAsTurnOrigin (reclassified_turn identity) NoSafePointBeforeTerminal))
    (reclassified_turn identity) (ordinary (pending_position pending)) (mkBinding source)
    effective_configuration.

Lemma steers_Some turn lifecycle :
  steers turn lifecycle = true <-> lifecycle_disposition lifecycle = PendingSteering (mkBinding turn).
Proof.
  unfold steers. destruct (lifecycle_disposition lifecycle) as [|[t]| | |]; simpl; try done.
  rewrite bool_decide_eq_true. naive_solver.
Qed.

Lemma reclassify_step_Ok session source effective turns done_ pending identity state :
  reclassify_step session source effective (turns, done_) (pending, identity) = Ok state <->
  (reclassifies source pending identity /\ reclassified_turn identity ∉ turns)
  /\ state = ({[reclassified_turn identity]} ∪ turns,
              done_ ++ [successor_turn_of session source effective pending identity]).
Proof.
  unfold reclassify_step, reclassifies, successor_turn_of, pending_accepted_input.
  rewrite steers_Some. destruct pending as [[input disposition] position]; simpl.
  unfold reclassify_as_turn_origin. simpl.
  destruct disposition as [|[t]| | |]; simpl; try (split; [done|naive_solver]).
  repeat case_bool_decide; simpl; naive_solver.
Qed.

Lemma reclassify_fold_Ok session source effective pending identities turns done_ state :
  length pending = length identities ->
  try_fold (reclassify_step session source effective) (zip pending identities) (turns, done_) = Ok state <->
  (Forall2 (reclassifies source) pending identities /\ NoDup (reclassified_turn <$> identities)
   /\ (forall identity, identity ∈ identities -> reclassified_turn identity ∉ turns))
  /\ state = (list_to_set (reclassified_turn <$> identities) ∪ turns,
              done_ ++ zip_with (successor_turn_of session source effective) pending identities).
Proof.
  revert identities turns done_. induction pending as [|p pending IH]; intros [|i identities] turns done_ Hlen;
    simplify_eq/=.
  { rewrite app_nil_r, (left_id_L ∅ (∪)). split; [intros [= <-]|by intros [_ ->]].
    split; [|done]. split_and!; [constructor|constructor|by intros ? ?%not_elem_of_nil]. }
  rewrite bind_Ok. setoid_rewrite reclassify_step_Ok. rewrite Forall2_cons, NoDup_cons. split.
  - intros (? & ((Hp & Hfresh) & ->) & Hrest). apply (IH _ _ _ Hlen) in Hrest as ((Hall & Hnd & Hout) & ->).
    rewrite <- app_assoc. split; [|f_equal; set_solver].
    split_and!; [done..| |done|].
    + intros (identity & Heq & Hin)%list_elem_of_fmap. apply (Hout _ Hin). set_solver.
    + intros identity [->|Hin]%elem_of_cons; [done|]. specialize (Hout _ Hin). set_solver.
  - intros (((Hp & Hall) & (Hno & Hnd) & Hout) & ->). eexists. split; [split; [split; [done|]|done]|].
    { apply Hout. by left. }
    apply (IH _ _ _ Hlen). rewrite <- app_assoc. split; [|f_equal; set_solver].
    split_and!; [done..|]. intros identity Hin. apply not_elem_of_union. split; [|apply Hout; by right].
    rewrite elem_of_singleton. intros Heq. apply Hno. apply list_elem_of_fmap. by exists identity.
Qed.

(** Reclassification succeeds exactly when every pending input steers the turn
    and gets a turn of its own, and it keeps acceptance order and position. *)
Lemma reclassify_exact session source pending identities effective reclassified :
  reclassify_pending_steering_inputs session source pending identities effective = Ok reclassified <->
  steering_admitted source pending identities
  /\ reclassified = zip_with (successor_turn_of session source effective) pending identities.
Proof.
  unfold reclassify_pending_steering_inputs, steering_admitted.
  rewrite if_negb_Ok, fmap_result_Ok. split.
  - intros (Hlen & state & Hfold & ->). apply reclassify_fold_Ok in Hfold as ((? & ? & _) & ->); [|done].
    done.
  - intros ((Hall & Hnd) & ->). apply Forall2_length in Hall as Hlen. split; [done|].
    eexists. rewrite (reclassify_fold_Ok _ _ _ _ _ _ _ _ Hlen). split; [split; [|reflexivity]|done].
    split_and!; [done..|set_solver].
Qed.

(** ** The items of a tool round *)

(** A response part with the identities it uses: an entry with its payload, or
    a request with its entry, its approval and the entry that closes it. *)
Inductive round_item :=
| PlainItem (entry : SemanticTranscriptEntryId)
    (payload : ModelCallId -> SemanticTranscriptEntryPayload)
| CallItem (entry : SemanticTranscriptEntryId) (request : ToolRequestId)
    (closed : option SemanticTranscriptEntryId) (approval : InitialToolApproval)
    (proposal : ToolCallProposal).

Definition round_item_of (item : AssistantResponsePart * ToolResponsePartIdentity) :
    option round_item :=
  match item with
  | (ResponseText value, TextIdentity entry) =>
      Some (PlainItem entry (fun call => AssistantTextEntry call value))
  | (ResponseCompaction block, CompactionIdentity entry) =>
      Some (PlainItem entry (fun call => ProviderCompaction call block))
  | (ResponseReasoning reasoning, ReasoningIdentity entry) =>
      Some (PlainItem entry (fun call => ProviderReasoning call reasoning))
  | (ResponseToolCall proposal, ToolCallIdentity entry request approval) =>
      Some (CallItem entry request None approval proposal)
  | _ => None
  end.

Definition stopped_item_of (item : AssistantResponsePart * StoppedToolResponsePartIdentity) :
    option round_item :=
  match item with
  | (ResponseText value, StoppedTextIdentity entry) =>
      Some (PlainItem entry (fun call => AssistantTextEntry call value))
  | (ResponseCompaction block, StoppedCompactionIdentity entry) =>
      Some (PlainItem entry (fun call => ProviderCompaction call block))
  | (ResponseReasoning reasoning, StoppedReasoningIdentity entry) =>
      Some (PlainItem entry (fun call => ProviderReasoning call reasoning))
  | (ResponseToolCall proposal, StoppedToolCallIdentity entry request closed approval) =>
      Some (CallItem entry request (Some closed) approval proposal)
  | _ => None
  end.

Definition item_identities (item : round_item) : list SemanticTranscriptEntryId :=
  match item with
  | PlainItem entry _ => [entry]
  | CallItem entry _ closed _ _ => entry :: option_list closed
  end.
Definition item_request (item : round_item) : option ToolRequestId :=
  match item with PlainItem _ _ => None | CallItem _ request _ _ _ => Some request end.
Definition item_admitted (posture : DangerousToolAutoApproval) (item : round_item) : Prop :=
  match item with
  | PlainItem _ _ => True
  | CallItem _ _ _ approval proposal => initial_approval_admitted posture proposal approval = true
  end.
Definition item_entry (session : SessionId) (call : ModelCallId) (item : round_item) :
    SemanticTranscriptEntry :=
  match item with
  | PlainItem entry payload => from_validated_parts entry session (payload call)
  | CallItem entry request _ _ _ => from_validated_parts entry session (AssistantToolUse call request)
  end.
Definition item_closed (session : SessionId) (item : round_item) : option SemanticTranscriptEntry :=
  match item with
  | CallItem _ request (Some closed) _ proposal =>
      Some (from_validated_parts closed session
              (if bool_decide (is_Some (proposal_inadmissible_reason proposal))
               then ToolInadmissible request else ToolClosed request))
  | _ => None
  end.
Definition item_resolution (item : round_item) : option ToolApprovalResolution :=
  match item with
  | PlainItem _ _ | CallItem _ _ (Some _) _ _ => None
  | CallItem _ request None approval _ => initial_resolution approval request
  end.
(** The request waits for a decision. *)
Definition item_undecided (item : round_item) : option ToolRequestId :=
  match item with
  | CallItem _ request None approval proposal =>
      if bool_decide (initial_resolution approval request = None)
         && bool_decide (proposal_inadmissible_reason proposal = None) then Some request else None
  | _ => None
  end.

(** The requests in proposal order, numbered from the given ordinal. *)
Fixpoint item_requests (scope : ModelCallTurnScope) (call : ModelCallId) (ordinal : N)
    (items : list round_item) : list ToolRequest :=
  match items with
  | [] => []
  | PlainItem _ _ :: items => item_requests scope call ordinal items
  | CallItem _ request _ approval proposal :: items =>
      from_model_proposal request (scope_session scope) (scope_turn scope) call
        (mkToolOrdinal ordinal) proposal approval
      :: item_requests scope call (ordinal + 1) items
  end.

Abbreviation requests_of := (omap item_request).

(** What a run over the items needs. *)
Record items_fit (posture : DangerousToolAutoApproval) (items : list round_item)
    (entries : gset SemanticTranscriptEntryId) (requests : gset ToolRequestId) (ordinal : nat) : Prop := {
  fit_identities : NoDup (concat (item_identities <$> items));
  fit_identities_fresh : forall id, id ∈ concat (item_identities <$> items) -> id ∉ entries;
  fit_requests : NoDup (requests_of items);
  fit_requests_fresh : forall id, id ∈ requests_of items -> id ∉ requests;
  fit_admitted : Forall (item_admitted posture) items;
  fit_ordinals : length (requests_of items) = 0
    \/ (N.of_nat ordinal + N.of_nat (length (requests_of items)) <= u32_max + 1)%N;
}.

(** The state after the items. *)
Definition advance (scope : ModelCallTurnScope) (call : ModelCallId) (state : ToolRoundState)
    (items : list round_item) : ToolRoundState :=
  mkRoundState (list_to_set (concat (item_identities <$> items)) ∪ used_entries state)
    (list_to_set (requests_of items) ∪ used_requests state)
    (round_entries_so_far state ++ (item_entry (scope_session scope) call <$> items))
    (round_requests_so_far state
     ++ item_requests scope call (N.of_nat (round_tool_ordinal state)) items)
    (round_approvals_so_far state ++ omap item_resolution items)
    (round_closed_so_far state ++ omap (item_closed (scope_session scope)) items)
    (match round_earliest_undecided state with
     | Some request => Some request
     | None => head (omap item_undecided items)
     end)
    (round_tool_ordinal state + length (requests_of items)).

(** One item, as both loops process it. *)
Definition item_step (scope : ModelCallTurnScope) (call : ModelCallId)
    (posture : DangerousToolAutoApproval) (state : ToolRoundState) (item : round_item)
    (state' : ToolRoundState) : Prop :=
  items_fit posture [item] (used_entries state) (used_requests state) (round_tool_ordinal state)
  /\ state' = advance scope call state [item].

Lemma ordinal_fits n o :
  tool_ordinal_try_from_usize n = Some o <->
  (N.of_nat n + 1 <= u32_max + 1)%N /\ o = mkToolOrdinal (N.of_nat n).
Proof. unfold tool_ordinal_try_from_usize. destruct (N.leb_spec (N.of_nat n) u32_max); naive_solver lia. Qed.

Lemma push_plain_Ok scope call posture state entry payload state' :
  push_plain (scope_session scope) state entry (payload call) = Ok state' <->
  item_step scope call posture state (PlainItem entry payload) state'.
Proof.
  unfold push_plain, item_step, advance. simpl. rewrite !app_nil_r, !Nat.add_0_r.
  case_bool_decide as Hin.
  - split; [done|]. intros [[_ Hfresh] _]. destruct (Hfresh entry); [by left|done].
  - split.
    + intros [= <-]. split.
      { constructor; simpl; try done; [apply NoDup_singleton|set_solver|constructor|set_solver|by repeat constructor|by left]. }
      f_equal; [set_solver..|by destruct (round_earliest_undecided state)].
    + intros [_ ->]. f_equal. f_equal; [set_solver..|by destruct (round_earliest_undecided state)].
Qed.

Lemma call_fit posture state entry request closed approval proposal :
  items_fit posture [CallItem entry request closed approval proposal] (used_entries state)
    (used_requests state) (round_tool_ordinal state) <->
  (NoDup (entry :: option_list closed) /\ (forall id, id ∈ entry :: option_list closed -> id ∉ used_entries state)
   /\ request ∉ used_requests state)
  /\ initial_approval_admitted posture proposal approval = true
  /\ (N.of_nat (round_tool_ordinal state) + 1 <= u32_max + 1)%N.
Proof.
  split.
  - intros [Hids Hfresh _ Hreq Hadm Hord]. simpl in *. rewrite app_nil_r in *.
    apply Forall_cons in Hadm as [Hadm _]. split_and!; [done..| |exact Hadm|by destruct Hord]. apply Hreq. by left.
  - intros ((Hids & Hfresh & Hreq) & Hadm & Hord). constructor; simpl; rewrite ?app_nil_r; try done.
    + apply NoDup_singleton.
    + by intros id ->%list_elem_of_singleton.
    + by apply Forall_singleton.
    + by right.
Qed.

Lemma round_step_Ok scope call posture state item state' :
  round_step scope call posture state item = Ok state' <->
  exists i, round_item_of item = Some i /\ item_step scope call posture state i state'.
Proof.
  destruct item as [[value|block|reasoning|proposal] [entry|entry|entry|entry request approval]]; simpl;
    try (split; [done|by intros (? & ? & _)]);
    try (rewrite (push_plain_Ok scope call posture state entry (fun call => _)); split;
         [intros Hstep; by eexists|by intros (i & [= <-] & Hstep)]).
  rewrite if_false_Ok, if_false_Ok, bind_Ok, negb_false_iff, orb_false_iff, !bool_decide_eq_false.
  setoid_rewrite ok_or_Ok. setoid_rewrite ordinal_fits. unfold item_step.
  assert (forall (ordinal : ToolRequestOrdinal), mkRoundState ({[entry]} ∪ used_entries state)
      ({[request]} ∪ used_requests state)
      (round_entries_so_far state ++ [from_validated_parts entry (scope_session scope) (AssistantToolUse call request)])
      (round_requests_so_far state ++ [from_model_proposal request (scope_session scope) (scope_turn scope) call
          (mkToolOrdinal (N.of_nat (round_tool_ordinal state))) proposal approval])
      (round_approvals_so_far state ++ option_list (initial_resolution approval request))
      (round_closed_so_far state)
      (match initial_resolution approval request with
       | Some _ => round_earliest_undecided state
       | None => if bool_decide (proposal_inadmissible_reason proposal = None)
                 then Some (default request (round_earliest_undecided state))
                 else round_earliest_undecided state
       end) (S (round_tool_ordinal state))
    = advance scope call state [CallItem entry request None approval proposal]) as Hadvance.
  { intros _. unfold advance. simpl. rewrite !app_nil_r, Nat.add_1_r.
    destruct (initial_resolution approval request); simpl; rewrite ?app_nil_r;
      (f_equal; [set_solver|set_solver|]); repeat case_bool_decide; simplify_eq/=;
      by destruct (round_earliest_undecided state). }
  split.
  - intros ((Hentry & Hreq) & Hadm & ordinal & (Hord & ->) & Hstate). eexists. split; [done|].
    rewrite call_fit. split.
    { split_and!; [apply NoDup_singleton|by intros id ->%list_elem_of_singleton|done..]. }
    rewrite <- (Hadvance (mkToolOrdinal 0)). simpl in Hstate.
    destruct (initial_resolution approval request); simpl in *; rewrite ?app_nil_r; by simplify_eq/=.
  - intros (i & [= <-] & Hfit & ->). apply call_fit in Hfit as ((_ & Hfresh & Hreq) & Hadm & Hord).
    split_and!; [apply Hfresh; by left|done|done|]. eexists. split; [done|].
    rewrite <- (Hadvance (mkToolOrdinal 0)). simpl.
    destruct (initial_resolution approval request); simpl; by rewrite ?app_nil_r.
Qed.

Lemma stopped_round_step_Ok scope call posture state item state' :
  stopped_round_step scope call posture state item = Ok state' <->
  exists i, stopped_item_of item = Some i /\ item_step scope call posture state i state'.
Proof.
  destruct item as [[value|block|reasoning|proposal] [entry|entry|entry|entry request closed approval]]; simpl;
    try (split; [done|by intros (? & ? & _)]);
    try (rewrite (push_plain_Ok scope call posture state entry (fun call => _)); split;
         [intros Hstep; by eexists|by intros (i & [= <-] & Hstep)]).
  rewrite if_false_Ok, if_false_Ok, bind_Ok, negb_false_iff, !orb_false_iff, !bool_decide_eq_false.
  setoid_rewrite ok_or_Ok. setoid_rewrite ordinal_fits. unfold item_step.
  assert (mkRoundState ({[closed]} ∪ ({[entry]} ∪ used_entries state))
      ({[request]} ∪ used_requests state)
      (round_entries_so_far state ++ [from_validated_parts entry (scope_session scope) (AssistantToolUse call request)])
      (round_requests_so_far state ++ [from_model_proposal request (scope_session scope) (scope_turn scope) call
          (mkToolOrdinal (N.of_nat (round_tool_ordinal state))) proposal approval])
      (round_approvals_so_far state)
      (round_closed_so_far state ++ [from_validated_parts closed (scope_session scope)
         (if bool_decide (is_Some (proposal_inadmissible_reason proposal))
          then ToolInadmissible request else ToolClosed request)])
      (round_earliest_undecided state) (S (round_tool_ordinal state))
    = advance scope call state [CallItem entry request (Some closed) approval proposal]) as Hadvance.
  { unfold advance. simpl. rewrite !app_nil_r, Nat.add_1_r.
    f_equal; [set_solver|set_solver|by destruct (round_earliest_undecided state)]. }
  split.
  - intros (((Hentry & Hclosed) & Hreq) & Hadm & ordinal & (Hord & ->) & [= <-]). eexists. split; [done|].
    rewrite call_fit. split; [|done]. split_and!; [|intros id; simpl; set_solver|done..].
    simpl. apply NoDup_cons. split; [set_solver|apply NoDup_singleton].
  - intros (i & [= <-] & Hfit & ->). apply call_fit in Hfit as ((Hnd & Hfresh & Hreq) & Hadm & Hord).
    simpl in Hnd. apply NoDup_cons in Hnd as [Hne _].
    split_and!; [apply Hfresh; by left| |done|done|].
    { assert (closed ∉ used_entries state) by (apply Hfresh; set_solver). set_solver. }
    eexists. split; [done|]. by rewrite Hadvance.
Qed.

Lemma requests_of_cons item items :
  requests_of (item :: items) = option_list (item_request item) ++ requests_of items.
Proof. simpl. by destruct (item_request item). Qed.

Lemma items_fit_cons posture item items state scope call :
  items_fit posture (item :: items) (used_entries state) (used_requests state) (round_tool_ordinal state) <->
  items_fit posture [item] (used_entries state) (used_requests state) (round_tool_ordinal state)
  /\ items_fit posture items (used_entries (advance scope call state [item]))
       (used_requests (advance scope call state [item])) (round_tool_ordinal (advance scope call state [item])).
Proof.
  assert (requests_of [item] = option_list (item_request item)) as Hone
    by (simpl; by destruct (item_request item)).
  assert (length (requests_of (item :: items)) = length (requests_of [item]) + length (requests_of items)) as Hlen
    by (by rewrite requests_of_cons, Hone, length_app).
  split.
  - intros [Hids Hfresh Hreq Hrfresh Hadm Hord]. rewrite requests_of_cons in Hreq, Hrfresh.
    cbn [fmap list_fmap concat] in Hids, Hfresh.
    apply NoDup_app in Hids as (Hids1 & Hdis & Hids2). apply NoDup_app in Hreq as (Hreq1 & Hrdis & Hreq2).
    apply Forall_cons in Hadm as [Hadm1 Hadm2]. split.
    + constructor; rewrite ?Hone; cbn [fmap list_fmap concat]; rewrite ?app_nil_r; try done.
      * intros id Hid. apply Hfresh, elem_of_app. by left.
      * intros id Hid. apply Hrfresh, elem_of_app. by left.
      * by constructor.
      * rewrite Hlen, Hone in Hord. lia.
    + constructor; unfold advance; cbn [used_entries used_requests round_tool_ordinal]; try done.
      * intros id Hid. cbn [fmap list_fmap concat]. rewrite app_nil_r, not_elem_of_union, elem_of_list_to_set.
        split; [intros Hin; by apply (Hdis id)|apply Hfresh, elem_of_app; by right].
      * intros id Hid. rewrite Hone, not_elem_of_union, elem_of_list_to_set.
        split; [intros Hin; by apply (Hrdis id)|apply Hrfresh, elem_of_app; by right].
      * rewrite Hlen in Hord. lia.
  - intros [[Hids1 Hfresh1 Hreq1 Hrfresh1 Hadm1 Hord1] [Hids2 Hfresh2 Hreq2 Hrfresh2 Hadm2 Hord2]].
    unfold advance in *. cbn [used_entries used_requests round_tool_ordinal fmap list_fmap concat] in *.
    rewrite app_nil_r in *. setoid_rewrite not_elem_of_union in Hfresh2.
    setoid_rewrite not_elem_of_union in Hrfresh2. setoid_rewrite elem_of_list_to_set in Hfresh2.
    setoid_rewrite elem_of_list_to_set in Hrfresh2. rewrite Hone in *.
    constructor; rewrite ?requests_of_cons; cbn [fmap list_fmap concat].
    + apply NoDup_app. split_and!; [done| |done]. intros id Hid Hin. by destruct (Hfresh2 id Hin).
    + intros id [Hid|Hid]%elem_of_app; [by apply Hfresh1|by destruct (Hfresh2 id Hid)].
    + apply NoDup_app. split_and!; [done| |done]. intros id Hid Hin. by destruct (Hrfresh2 id Hin).
    + intros id [Hid|Hid]%elem_of_app; [by apply Hrfresh1|by destruct (Hrfresh2 id Hid)].
    + apply Forall_cons in Hadm1 as [? _]. by constructor.
    + rewrite length_app. lia.
Qed.

Lemma item_requests_app scope call ordinal items1 items2 :
  item_requests scope call ordinal (items1 ++ items2)
  = item_requests scope call ordinal items1
    ++ item_requests scope call (ordinal + N.of_nat (length (requests_of items1))) items2.
Proof.
  revert ordinal. induction items1 as [|[|] items1 IH]; intros ordinal; simpl.
  - by rewrite N.add_0_r.
  - apply IH.
  - rewrite IH. by replace (ordinal + 1 + N.of_nat (length (requests_of items1)))%N
      with (ordinal + N.of_nat (S (length (requests_of items1))))%N by lia.
Qed.

Lemma advance_app scope call state items1 items2 :
  advance scope call state (items1 ++ items2) = advance scope call (advance scope call state items1) items2.
Proof.
  unfold advance. cbn [used_entries used_requests round_entries_so_far round_requests_so_far
    round_approvals_so_far round_closed_so_far round_earliest_undecided round_tool_ordinal].
  rewrite !omap_app, !fmap_app, concat_app, item_requests_app, length_app, <- !app_assoc, !list_to_set_app_L.
  f_equal; [set_solver|set_solver| | |lia].
  - by rewrite Nat2N.inj_add.
  - destruct (round_earliest_undecided state); [done|]. by destruct (omap item_undecided items1).
Qed.

Lemma advance_nil scope call state : advance scope call state [] = state.
Proof.
  unfold advance. simpl. rewrite !app_nil_r, Nat.add_0_r, !(left_id_L ∅ (∪)).
  destruct state as [? ? ? ? ? ? undecided ?]; simpl. by destruct undecided.
Qed.

(** A loop whose iterations process one item each processes the list of items. *)
Lemma fold_items {I} (classify : I -> option round_item)
    (step : ToolRoundState -> I -> closing ToolRoundState) scope call posture items state state' :
  (forall state item state', step state item = Ok state' <->
     exists i, classify item = Some i /\ item_step scope call posture state i state') ->
  try_fold step items state = Ok state' <->
  exists its, mapM classify items = Some its
    /\ items_fit posture its (used_entries state) (used_requests state) (round_tool_ordinal state)
    /\ state' = advance scope call state its.
Proof.
  intros Hstep. revert state. induction items as [|item items IH]; intros state; simpl.
  - split.
    + intros [= <-]. exists []. rewrite advance_nil. split_and!; [done| |done].
      constructor; simpl; try constructor; try done; set_solver.
    + intros (its & [= <-] & _ & ->). by rewrite advance_nil.
  - rewrite bind_Ok. setoid_rewrite Hstep. setoid_rewrite IH. unfold item_step. split.
    + intros (? & (i & Hi & Hfit & ->) & its & His & Hfits & ->). exists (i :: its).
      rewrite Hi. simpl. rewrite His. split_and!; [done|by eapply items_fit_cons|].
      by rewrite <- advance_app.
    + intros (? & His & Hfit & ->). destruct (classify item) as [i|] eqn:Hi; [|done]. simpl in His.
      destruct (mapM classify items) as [its|]; [|done]. injection His as <-.
      apply (items_fit_cons _ _ _ _ scope call) in Hfit as [Hfit Hfits].
      eexists. split; [by exists i|]. exists its. split_and!; [done..|].
      by rewrite <- advance_app.
Qed.
