(* ===== verification/TurnClosureSpec.v ===== *)
(** * What closing a turn promises

    An observation of a provider, as a relation with one constructor per way a
    turn is closed or a call yields: when it is admitted, which entries extend
    the frontier of the call and what is recorded about the call, its attempt
    and the turn. *)

From stdpp Require Import sets strings.
From S2P Require Import Prelude QueueOrder ModelSettings Configuration SettingsSpec Interrupt TurnAttempt Frontier FrontierSpec ModelCall Tool ToolAttempt TurnLifecycle ToolBatch ToolBatchSpec Delegation SemanticEntry ContextCompaction ContextCompactionSpec BatchProjection BatchProjectionSpec ModelExecution TurnClosure ExecutionSteps ToolRoundSpec.

Local Open Scope list_scope.

(** ** Extending the frontier of a call *)

Definition fresh_in (frontier : list SemanticTranscriptEntry) (ids : list SemanticTranscriptEntryId) :
    Prop := NoDup ids /\ forall id, id ∈ ids -> id ∉ semantic_identity <$> frontier.

Lemma identities_reused_false frontier ids :
  any_identity_reused (frontier_identities frontier) ids = false <-> fresh_in frontier ids.
Proof.
  rewrite any_identity_reused_false. unfold frontier_identities, fresh_in.
  by setoid_rewrite elem_of_list_to_set.
Qed.

(** Fresh identities give fresh references. *)
Lemma fresh_references frontier new :
  NoDup (reference <$> frontier) -> fresh_in frontier (semantic_identity <$> new) ->
  NoDup (reference <$> frontier ++ new).
Proof.
  intros Hf [Hn Hfresh]. rewrite fmap_app. apply NoDup_app. split_and!; [done| |].
  - intros r (old & -> & Hold)%list_elem_of_fmap (entry & Heq & Hin)%list_elem_of_fmap.
    apply (Hfresh (semantic_identity entry)); [by apply list_elem_of_fmap_2|].
    apply list_elem_of_fmap. exists old. split; [|done]. unfold reference in Heq. by simplify_eq.
  - apply (NoDup_fmap_1 ref_entry). by rewrite <- list_fmap_compose.
Qed.

Section spec.
Context {Snap : Type} `{ContextSnapshotsLaws Snap, !SnapshotCandidates Snap, !SnapshotCandidatesLaws Snap}.
Context (source_token derived_token : ContentToken).
Implicit Types (scope : ModelCallTurnScope) (snapshot : Snap).

(** The snapshot appends these entries, under this identity. *)
Definition appends session (next : ContextFrontierId) (entries : list SemanticTranscriptEntryRef)
    (new : list SemanticTranscriptEntry) snapshot : Prop :=
  snapshot_wf snapshot /\ snapshot_frontier snapshot = mkFrontier session next
  /\ snapshot_entries snapshot = entries ++ (reference <$> new).

Lemma append_Ok source next new snapshot :
  snapshot_wf source -> append_entries derived_token source next new = Ok snapshot ->
  appends (owning_session (snapshot_frontier source)) next (snapshot_entries source) new snapshot.
Proof.
  unfold append_entries. intros Hwf Hd%map_err_Ok. by apply snapshot_derive_exact in Hd.
Qed.

Lemma append_total source next new :
  snapshot_wf source ->
  (exists snapshot, append_entries derived_token source next new = Ok snapshot) <->
  next <> frontier_snapshot (snapshot_frontier source)
  /\ NoDup (snapshot_entries source ++ (reference <$> new)).
Proof.
  intros Hwf. unfold append_entries. setoid_rewrite map_err_Ok. by apply snapshot_derive_total.
Qed.

Lemma source_Ok session frontier entries source :
  source_snapshot source_token session frontier entries = Ok source ->
  snapshot_wf source /\ snapshot_frontier source = mkFrontier session frontier
  /\ snapshot_entries source = reference <$> entries.
Proof. unfold source_snapshot. intros Hc%map_err_Ok. by apply snapshot_candidate_exact in Hc. Qed.

Lemma source_total session frontier entries :
  (exists source, source_snapshot source_token session frontier entries = Ok source) <->
  NoDup (reference <$> entries).
Proof. unfold source_snapshot. setoid_rewrite map_err_Ok. apply snapshot_candidate_total. Qed.

(** A rebuilt frontier, extended. *)
Definition rebuilt session (frontier next : ContextFrontierId)
    (entries new : list SemanticTranscriptEntry) snapshot : Prop :=
  exists source, source_snapshot source_token session frontier entries = Ok source
    /\ append_entries derived_token source next new = Ok snapshot.

Lemma rebuilt_appends session frontier next entries new snapshot :
  rebuilt session frontier next entries new snapshot ->
  appends session next (reference <$> entries) new snapshot.
Proof.
  intros (source & (Hwf & Hfrontier & Hentries)%source_Ok & Hs%append_Ok); [|done].
  by rewrite Hfrontier, Hentries in Hs.
Qed.

Lemma rebuilt_total session frontier next entries new :
  (exists snapshot, rebuilt session frontier next entries new snapshot) <->
  next <> frontier /\ NoDup (reference <$> entries ++ new).
Proof.
  rewrite fmap_app. split.
  - intros (snapshot & source & (Hwf & Hfrontier & Hentries)%source_Ok & Hs).
    destruct (proj1 (append_total source next new Hwf)) as [Hn Hnd]; [by eexists|].
    by rewrite Hfrontier in Hn; rewrite Hentries in Hnd.
  - intros [Hn Hnd]. destruct (proj2 (source_total session frontier entries)) as [source Hsource].
    { by apply NoDup_app in Hnd as [? _]. }
    apply source_Ok in Hsource as Hs. destruct Hs as (Hwf & Hfrontier & Hentries).
    destruct (proj2 (append_total source next new Hwf)) as [snapshot Hsnapshot].
    { by rewrite Hfrontier, Hentries. }
    by exists snapshot, source.
Qed.

Lemma rebuild_bind {A} session frontier next entries new (k : Snap -> closing A) a :
  (source ← source_snapshot source_token session frontier entries;
   snapshot ← append_entries derived_token source next new; k snapshot) = Ok a <->
  exists snapshot, rebuilt session frontier next entries new snapshot /\ k snapshot = Ok a.
Proof. rewrite bind_Ok. setoid_rewrite bind_Ok. unfold rebuilt. naive_solver. Qed.

(** ** Each closure *)

(** The entries of a response without tools. *)
Definition plain_entries session (call : ModelCallId) (ids : list SemanticTranscriptEntryId)
    (response : list AssistantResponsePart) (entries : list SemanticTranscriptEntry) : Prop :=
  Forall2 (fun item entry => exists payload, plain_payload call item.2 = Ok payload
    /\ entry = from_validated_parts item.1 session payload) (zip ids response) entries.

Definition completion_fits (frontier : list SemanticTranscriptEntry)
    (response : list AssistantResponsePart) (ids : CompletedModelCallIdentities) : Prop :=
  length response = length (completed_assistant_entries ids)
  /\ existsb is_tool_call response = false
  /\ fresh_in frontier (completed_assistant_entries ids ++ [completed_completion_entry ids]).

Lemma complete_turn_Ok scope call attempt frontier response ids reclassified turn :
  complete_turn source_token derived_token scope call attempt frontier response ids reclassified
    = Ok turn <->
  completion_fits frontier response ids
  /\ exists entries snapshot,
       let session := scope_session scope in
       let completion :=
         from_validated_parts (completed_completion_entry ids) session (TurnCompleted (scope_turn scope)) in
       plain_entries session (ended_call_id call) (completed_assistant_entries ids) response entries
       /\ rebuilt session (ended_frontier call) (completed_terminal_frontier ids) frontier
            (entries ++ [completion]) snapshot
       /\ turn = mkCompletedTurn session (scope_turn scope) call attempt TurnCompletedDisposition entries
                   completion snapshot reclassified.
Proof.
  unfold complete_turn, completion_fits.
  rewrite if_false_Ok, orb_false_iff, negb_false_iff, bool_decide_eq_true, if_false_Ok,
    identities_reused_false, bind_Ok.
  assert (forall entries, mapM (fun '(identity, part) =>
      from_validated_parts identity (scope_session scope) <$> plain_payload (ended_call_id call) part)
      (zip (completed_assistant_entries ids) response) = Ok entries <->
    plain_entries (scope_session scope) (ended_call_id call) (completed_assistant_entries ids) response
      entries) as Hentries.
  { intros entries. rewrite mapM_result_Ok.
    split; intros Hall; (eapply Forall2_impl; [done|]); intros [id part] entry; simpl; by rewrite fmap_result_Ok. }
  setoid_rewrite Hentries. setoid_rewrite rebuild_bind. naive_solver.
Qed.

Lemma plain_entries_total session call ids response :
  length response = length ids -> existsb is_tool_call response = false ->
  exists entries, plain_entries session call ids response entries.
Proof.
  revert ids. induction response as [|part response IH]; intros [|id ids] Hlen Htools; simplify_eq/=.
  { by exists []; constructor. }
  apply orb_false_iff in Htools as [Hpart Htools]. destruct (IH _ Hlen Htools) as [entries Hall].
  destruct part; try done; (eexists (_ :: entries); constructor; [by eexists|done]).
Qed.

Lemma plain_entries_identities session call ids response entries :
  length response = length ids -> plain_entries session call ids response entries ->
  semantic_identity <$> entries = ids.
Proof.
  intros Hlen. unfold plain_entries. revert response entries Hlen.
  induction ids as [|id ids IH]; intros [|part response] [|entry entries] Hlen Hall; simplify_eq/=;
    try (by inversion Hall); [].
  apply Forall2_cons in Hall as [(payload & _ & ->) Hall]. simpl. f_equal. by eapply IH.
Qed.

(** The marker that ends a failed or a cancelled turn is appended to a snapshot. *)
Lemma assemble_failed_Ok scope attempt call source ids reclassified turn :
  assemble_failed_turn derived_token scope attempt call source ids reclassified = Ok turn <->
  exists snapshot,
    let failure := from_validated_parts (failed_failure_entry ids) (scope_session scope)
                     (TurnFailed (scope_turn scope)) in
    append_entries derived_token source (failed_terminal_frontier ids) [failure] = Ok snapshot
    /\ turn = mkFailedTurn (scope_session scope) (scope_turn scope) call attempt TurnFailedDisposition
                failure snapshot reclassified.
Proof. unfold assemble_failed_turn. rewrite bind_Ok. naive_solver. Qed.

(** The items of a completed or a stopped tool round. *)
Definition round_items (response : ToolUsingAssistantResponse) (parts : list ToolResponsePartIdentity) :
    option (list round_item) :=
  if bool_decide (length (tool_response_parts response) = length parts)
  then mapM round_item_of (zip (tool_response_parts response) parts) else None.
Definition stopped_round_items (response : ToolUsingAssistantResponse)
    (parts : list StoppedToolResponsePartIdentity) : option (list round_item) :=
  if bool_decide (length (tool_response_parts response) = length parts)
  then mapM stopped_item_of (zip (tool_response_parts response) parts) else None.

Lemma if_decide_Some {A} (P : Prop) `{Decision P} (m : option A) a :
  (if bool_decide P then m else None) = Some a <-> P /\ m = Some a.
Proof. case_bool_decide; naive_solver. Qed.

Lemma assemble_round_Ok scope call attempt frontier response ids posture turn :
  assemble_tool_round source_token derived_token scope call attempt frontier response ids posture
    = Ok turn <->
  exists items phase snapshot,
    let session := scope_session scope in
    let entries := item_entry session (ended_call_id call) <$> items in
    round_items response (round_response_parts ids) = Some items
    /\ items_fit posture items (frontier_identities frontier) (frontier_requests frontier) 0
    /\ round_phase (head (omap item_undecided items)) (round_continuation_attempt ids)
         (ended_id attempt) = Ok phase
    /\ rebuilt session (ended_frontier call) (round_yielded_frontier ids) frontier entries snapshot
    /\ turn = mkToolRoundTurn session (scope_turn scope) call attempt entries
                (item_requests scope (ended_call_id call) 0 items) (omap item_resolution items)
                snapshot phase.
Proof.
  unfold assemble_tool_round, round_items.
  rewrite if_negb_Ok, bind_Ok. setoid_rewrite bind_Ok. setoid_rewrite rebuild_bind.
  setoid_rewrite (fold_items round_item_of _ scope (ended_call_id call) posture);
    [|intros; apply round_step_Ok]. setoid_rewrite if_decide_Some. cbn [used_entries used_requests
      round_tool_ordinal round_initial].
  split.
  - intros (Hlen & ? & (items & Hitems & Hfit & ->) & phase & Hphase & snapshot & Hsnap & [= <-]).
    by exists items, phase, snapshot.
  - intros (items & phase & snapshot & (Hlen & Hitems) & Hfit & Hphase & Hsnap & ->).
    split; [done|]. eexists. split; [by exists items|]. exists phase. split; [done|]. by exists snapshot.
Qed.

Lemma assemble_stopped_Ok scope call attempt frontier response proof ids posture reclassified turn :
  assemble_stopped_tool_round source_token derived_token scope call attempt frontier response proof ids
    posture reclassified = Ok turn <->
  proof_predecessor proof = scope_turn scope
  /\ (stopped_cancellation_entry ids ∉ frontier_identities frontier)
  /\ exists items snapshot,
    let session := scope_session scope in
    let entries := item_entry session (ended_call_id call) <$> items in
    let closed := omap (item_closed session) items in
    let cancellation :=
      from_validated_parts (stopped_cancellation_entry ids) session (TurnCancelled (scope_turn scope)) in
    stopped_round_items response (stopped_response_parts ids) = Some items
    /\ items_fit posture items ({[stopped_cancellation_entry ids]} ∪ frontier_identities frontier)
         (frontier_requests frontier) 0
    /\ rebuilt session (ended_frontier call) (stopped_terminal_frontier ids) frontier
         (entries ++ closed ++ [cancellation]) snapshot
    /\ turn = mkCancelledRound session (scope_turn scope) call attempt (TurnCancelledDisposition proof)
                entries (item_requests scope (ended_call_id call) 0 items) closed cancellation snapshot
                reclassified.
Proof.
  unfold assemble_stopped_tool_round, stopped_round_items.
  rewrite if_false_Ok, orb_false_iff, !negb_false_iff, !bool_decide_eq_true.
  rewrite if_false_Ok, bool_decide_eq_false, bind_Ok. setoid_rewrite rebuild_bind.
  setoid_rewrite (fold_items stopped_item_of _ scope (ended_call_id call) posture);
    [|intros; apply stopped_round_step_Ok]. setoid_rewrite if_decide_Some. cbn [used_entries used_requests
      round_tool_ordinal round_initial].
  split.
  - intros ((Hproof & Hlen) & Hfresh & ? & (items & Hitems & Hfit & ->) & snapshot & Hsnap & [= <-]).
    split; [done|]. split; [done|]. by exists items, snapshot.
  - intros (Hproof & Hfresh & items & snapshot & (Hlen & Hitems) & Hfit & Hsnap & ->).
    split; [done|]. split; [done|]. eexists. split; [by exists items|]. by exists snapshot.
Qed.

(** ** What an observation does *)

(** The response of a completion without tools. *)
Definition plain_response (observation : ModelCallTerminalObservation) :
    option (list AssistantResponsePart) :=
  match observation with
  | ObservedCompleted assistant_text => Some (ResponseText <$> assistant_text)
  | ObservedWithCompaction response _ _ => Some response
  | ObservedWithReasoning response =>
      if existsb is_compaction_part response then None else Some response
  | _ => None
  end.

(** The compaction blocks of a refusal. *)
Definition refused_blocks (observation : ModelCallTerminalObservation) :
    option (list ProviderCompactionBlock) :=
  match observation with
  | ObservedRefused => Some []
  | ObservedRefusedWithCompaction provider_compaction _ _ => Some provider_compaction
  | _ => None
  end.

(** The attempt, ended according to its cancellation. *)
Definition attempt_closed (attempt : CurrentTurnAttempt)
    (after_cancellation : CancellationStopDisposition) (without_stop : UnstoppedAttemptDisposition) :
    EndedTurnAttempt :=
  mkEnded (attempt_id attempt)
    match cancellation_proof attempt with
    | Some proof => AfterCancellation proof after_cancellation
    | None => WithoutStop without_stop
    end.

Definition compaction_entries session (call : ModelCallId) (ids : list SemanticTranscriptEntryId)
    (blocks : list ProviderCompactionBlock) : list SemanticTranscriptEntry :=
  (fun '(identity, block) => from_validated_parts identity session (ProviderCompaction call block))
    <$> zip ids blocks.

Section closes.
Context (scope : ModelCallTurnScope) (attempt : CurrentTurnAttempt) (call : EndedModelCall).
Context (frontier : list SemanticTranscriptEntry) (context : ModelCallTerminalContext).
Let session := scope_session scope.
Let turn := scope_turn scope.
Let steering := context_reclassified context.
Let marker id payload := from_validated_parts id session payload.
Let extended next new snapshot := rebuilt session (ended_frontier call) next frontier new snapshot.

(** One constructor per way a turn is closed or a call yields. *)
Inductive closes : ModelCallTerminalObservation -> ModelCallTerminalIdentities ->
    ModelCallTerminalOutcome Snap -> Prop :=
| closes_completed observation response ids entries snapshot :
    plain_response observation = Some response ->
    completion_fits frontier response ids ->
    plain_entries session (ended_call_id call) (completed_assistant_entries ids) response entries ->
    extended (completed_terminal_frontier ids)
      (entries ++ [marker (completed_completion_entry ids) (TurnCompleted turn)]) snapshot ->
    closes observation (IdentitiesCompleted ids)
      (OutcomeCompleted (mkCompletedTurn session turn call
         (attempt_closed attempt CancelTurnCompleted UnstoppedTurnCompleted) TurnCompletedDisposition
         entries (marker (completed_completion_entry ids) (TurnCompleted turn)) snapshot steering))
| closes_round response input output ids items phase snapshot :
    cancellation_proof attempt = None ->
    round_items response (round_response_parts ids) = Some items ->
    items_fit (context_auto_approval context) items (frontier_identities frontier)
      (frontier_requests frontier) 0 ->
    round_phase (head (omap item_undecided items)) (round_continuation_attempt ids)
      (attempt_id attempt) = Ok phase ->
    extended (round_yielded_frontier ids) (item_entry session (ended_call_id call) <$> items) snapshot ->
    closes (ObservedWithTools response input output) (IdentitiesToolRound ids)
      (OutcomeToolRound (mkToolRoundTurn session turn call
         (attempt_closed attempt CancelCancelled YieldedToDurableWait)
         (item_entry session (ended_call_id call) <$> items)
         (item_requests scope (ended_call_id call) 0 items) (omap item_resolution items) snapshot phase))
| closes_stopped response input output proof ids items snapshot :
    cancellation_proof attempt = Some proof -> proof_predecessor proof = turn ->
    stopped_round_items response (stopped_response_parts ids) = Some items ->
    stopped_cancellation_entry ids ∉ frontier_identities frontier ->
    items_fit (context_auto_approval context) items
      ({[stopped_cancellation_entry ids]} ∪ frontier_identities frontier)
      (frontier_requests frontier) 0 ->
    extended (stopped_terminal_frontier ids)
      ((item_entry session (ended_call_id call) <$> items) ++ omap (item_closed session) items
       ++ [marker (stopped_cancellation_entry ids) (TurnCancelled turn)]) snapshot ->
    closes (ObservedWithTools response input output) (IdentitiesStoppedToolRound ids)
      (OutcomeCancelledWithToolResponse (mkCancelledRound session turn call
         (attempt_closed attempt CancelCancelled YieldedToDurableWait) (TurnCancelledDisposition proof)
         (item_entry session (ended_call_id call) <$> items)
         (item_requests scope (ended_call_id call) 0 items) (omap (item_closed session) items)
         (marker (stopped_cancellation_entry ids) (TurnCancelled turn)) snapshot steering))
| closes_failed ids snapshot :
    extended (failed_terminal_frontier ids) [marker (failed_failure_entry ids) (TurnFailed turn)]
      snapshot ->
    closes ObservedKnownFailed (IdentitiesFailed ids)
      (OutcomeFailed (mkFailedTurn session turn (Some call)
         (attempt_closed attempt CancelKnownFailure UnstoppedKnownFailure) TurnFailedDisposition
         (marker (failed_failure_entry ids) (TurnFailed turn)) snapshot steering))
| closes_cancelled proof ids snapshot :
    cancellation_proof attempt = Some proof -> proof_predecessor proof = turn ->
    extended (physical_terminal_frontier ids) [marker (physical_terminal_entry ids) (TurnCancelled turn)]
      snapshot ->
    closes ObservedCancelled (IdentitiesPhysicalCancellation ids)
      (OutcomeCancelled (mkCancelledTurn session turn (Some call)
         (Some (attempt_closed attempt CancelCancelled UnstoppedKnownFailure))
         (TurnCancelledDisposition proof) [] (marker (physical_terminal_entry ids) (TurnCancelled turn))
         snapshot steering))
| closes_cancelled_unasked ids snapshot :
    cancellation_proof attempt = None ->
    extended (physical_terminal_frontier ids) [marker (physical_terminal_entry ids) (TurnFailed turn)]
      snapshot ->
    closes ObservedCancelled (IdentitiesPhysicalCancellation ids)
      (OutcomeFailed (mkFailedTurn session turn (Some call)
         (attempt_closed attempt CancelCancelled UnstoppedKnownFailure) TurnFailedDisposition
         (marker (physical_terminal_entry ids) (TurnFailed turn)) snapshot steering))
| closes_refused observation blocks ids snapshot :
    refused_blocks observation = Some blocks ->
    length blocks = length (refused_compaction_entries ids) ->
    fresh_in frontier (refused_compaction_entries ids) ->
    extended (refused_terminal_frontier ids)
      (compaction_entries session (ended_call_id call) (refused_compaction_entries ids) blocks) snapshot ->
    closes observation (IdentitiesRefused ids)
      (OutcomeRefused (mkRefusedTurn session turn call
         (attempt_closed attempt CancelTurnRefused UnstoppedTurnRefused) TurnRefused
         (compaction_entries session (ended_call_id call) (refused_compaction_entries ids) blocks)
         snapshot steering))
| closes_reconciling proof ids operations snapshot :
    cancellation_proof attempt = Some proof ->
    try_from_operations [OperationModelCall (ended_call_id call)] = Ok operations ->
    extended (ambiguous_terminal_frontier ids) [] snapshot ->
    closes ObservedAmbiguous (IdentitiesAmbiguous ids)
      (OutcomeReconciliationRequired (mkReconciliationTurn session turn call
         (attempt_closed attempt CancelAmbiguous UnstoppedAmbiguous)
         (ReconciliationRequired (from_interrupt_ambiguity operations proof)) snapshot steering))
| closes_awaiting ids operations :
    cancellation_proof attempt = None ->
    try_from_operations [OperationModelCall (ended_call_id call)] = Ok operations ->
    closes ObservedAmbiguous (IdentitiesAmbiguous ids)
      (OutcomeAwaitingRecovery (mkAmbiguousTurn session turn call
         (attempt_closed attempt CancelAmbiguous UnstoppedAmbiguous) operations)).
End closes.

(** The lifecycle of an observed call lets its attempt end either way. *)
Lemma end_observed_valid attempt current after_cancellation without_stop ended :
  observation_lifecycle_valid attempt current = true ->
  end_observed attempt (cancellation_proof attempt) after_cancellation without_stop = Ok ended <->
  ended = attempt_closed attempt after_cancellation without_stop.
Proof.
  unfold observation_lifecycle_valid, end_observed, attempt_closed, cancellation_proof,
    end_after_cancellation, end_without_stop, end_attempt.
  destruct (attempt_state attempt) as [| |[interrupt|]]; simpl; try done; intros _;
    rewrite ?bool_decide_eq_true_2 by done; simpl; naive_solver.
Qed.

Lemma end_without_stop_valid attempt current without_stop after_cancellation ended :
  observation_lifecycle_valid attempt current = true -> cancellation_proof attempt = None ->
  map_err (fun _ => AttemptStateMismatch) (end_without_stop attempt without_stop) = Ok ended <->
  ended = attempt_closed attempt after_cancellation without_stop.
Proof.
  intros Hvalid Hproof. rewrite <- (end_observed_valid _ _ _ _ _ Hvalid). unfold end_observed.
  by rewrite Hproof.
Qed.

Lemma end_after_cancellation_valid attempt current proof after_cancellation without_stop ended :
  observation_lifecycle_valid attempt current = true -> cancellation_proof attempt = Some proof ->
  map_err (fun _ => AttemptStateMismatch) (end_after_cancellation attempt proof after_cancellation)
    = Ok ended <->
  ended = attempt_closed attempt after_cancellation without_stop.
Proof.
  intros Hvalid Hproof. rewrite <- (end_observed_valid _ _ _ _ _ Hvalid). unfold end_observed.
  by rewrite Hproof.
Qed.

Section exact.
Context (scope : ModelCallTurnScope) (attempt : CurrentTurnAttempt) (current : CurrentModelCall).
Context (call : EndedModelCall) (frontier : list SemanticTranscriptEntry).
Context (context : ModelCallTerminalContext).
Context (Hvalid : observation_lifecycle_valid attempt current = true).
Let closing_of := closes scope attempt call frontier context.

Lemma close_completed_Ok observation response ids outcome :
  plain_response observation = Some response ->
  close_completed source_token derived_token scope attempt call frontier response ids
    (context_reclassified context) = Ok outcome <->
  closing_of observation ids outcome.
Proof.
  intros Hresponse. unfold close_completed. split.
  - destruct ids as [ids| | | | | |]; try done. rewrite bind_Ok.
    intros (ended & Hended%(end_observed_valid _ _ _ _ _ Hvalid) & Hturn). subst ended.
    apply fmap_result_Ok in Hturn as (turn & (Hfits & entries & snapshot & Hentries & Hs & ->)%complete_turn_Ok & ->).
    by apply (closes_completed _ _ _ _ _ observation response).
  - unfold closing_of. intros Hc. inversion Hc; simplify_eq/=; try (by destruct observation); [].
    rewrite bind_Ok.
    eexists. rewrite (end_observed_valid _ _ _ _ _ Hvalid). split; [done|].
    apply fmap_result_Ok. eexists. split; [|done]. apply complete_turn_Ok. split; [done|]. by eexists _, _.
Qed.

Lemma close_with_tools_Ok response input output ids outcome :
  close_with_tools source_token derived_token scope attempt call frontier response ids context
    = Ok outcome <->
  closing_of (ObservedWithTools response input output) ids outcome.
Proof.
  unfold close_with_tools. split.
  - destruct (cancellation_proof attempt) as [proof|] eqn:Hproof, ids as [|ids|ids| | | |]; try done; rewrite bind_Ok.
    + intros (ended & Hended%(end_after_cancellation_valid _ _ _ _ YieldedToDurableWait _ Hvalid Hproof) & Hturn).
      apply fmap_result_Ok in Hturn as (turn & (Hpred & Hfresh & items & snapshot & Hitems & Hfit & Hs & ->)%assemble_stopped_Ok & ->).
      subst ended. by eapply closes_stopped.
    + intros (ended & Hended%(end_without_stop_valid _ _ _ CancelCancelled _ Hvalid Hproof) & Hturn).
      apply fmap_result_Ok in Hturn as (turn & (items & phase & snapshot & Hitems & Hfit & Hphase & Hs & ->)%assemble_round_Ok & ->).
      subst ended. by eapply closes_round.
  - unfold closing_of. intros Hc. inversion Hc; simplify_eq/=.
    + match goal with H : cancellation_proof _ = _ |- _ => rename H into Hproof end.
      rewrite Hproof, bind_Ok. eexists. rewrite (end_without_stop_valid _ _ _ CancelCancelled _ Hvalid Hproof).
      split; [done|]. apply fmap_result_Ok. eexists. split; [|done]. apply assemble_round_Ok. by eexists _, _, _.
    + match goal with H : cancellation_proof _ = _ |- _ => rename H into Hproof end.
      rewrite Hproof, bind_Ok. eexists. rewrite (end_after_cancellation_valid _ _ _ _ YieldedToDurableWait _ Hvalid Hproof).
      split; [done|]. apply fmap_result_Ok. eexists. split; [|done]. apply assemble_stopped_Ok.
      split; [done|]. split; [done|]. by eexists _, _.
Qed.

Lemma source_bind {A} next new (k : Snap -> Snap -> closing A) a :
  (source ← source_snapshot source_token (scope_session scope) (ended_frontier call) frontier;
   snapshot ← append_entries derived_token source next new; k source snapshot) = Ok a <->
  exists source snapshot,
    source_snapshot source_token (scope_session scope) (ended_frontier call) frontier = Ok source
    /\ append_entries derived_token source next new = Ok snapshot /\ k source snapshot = Ok a.
Proof. rewrite bind_Ok. setoid_rewrite bind_Ok. naive_solver. Qed.

Lemma close_known_failed_Ok ids outcome :
  close_known_failed source_token derived_token scope attempt call frontier ids
    (context_reclassified context) = Ok outcome <->
  closing_of ObservedKnownFailed ids outcome.
Proof.
  unfold close_known_failed, close_failed_turn, close_failed_turn_after_cancellation. split.
  - destruct ids as [| | |ids| | |]; try done. rewrite bind_Ok. intros (source & Hsource & Hturn).
    apply fmap_result_Ok in Hturn as (turn & Hturn & ->).
    assert (assemble_failed_turn derived_token scope (attempt_closed attempt CancelKnownFailure UnstoppedKnownFailure)
              (Some call) source ids (context_reclassified context) = Ok turn) as (snapshot & Hs & ->)%assemble_failed_Ok.
    { destruct (cancellation_proof attempt) eqn:Hproof; apply bind_Ok in Hturn as (ended & Hended & Hturn).
      - apply (end_after_cancellation_valid _ _ _ _ UnstoppedKnownFailure _ Hvalid Hproof) in Hended. by subst.
      - apply (end_without_stop_valid _ _ _ CancelKnownFailure _ Hvalid Hproof) in Hended. by subst. }
    apply closes_failed. by exists source.
  - unfold closing_of. intros Hc. inversion Hc; simplify_eq/=.
    match goal with H : rebuilt _ _ _ _ _ _ |- _ => destruct H as (source & Hsource & Hs) end.
    rewrite Hsource. simpl. apply fmap_result_Ok. eexists. split; [|done].
    destruct (cancellation_proof attempt) eqn:Hproof; apply bind_Ok; eexists;
      [rewrite (end_after_cancellation_valid _ _ _ _ UnstoppedKnownFailure _ Hvalid Hproof)
      |rewrite (end_without_stop_valid _ _ _ CancelKnownFailure _ Hvalid Hproof)];
      (split; [done|]); apply assemble_failed_Ok; by eexists.
Qed.

Lemma close_cancelled_Ok ids outcome :
  close_physically_cancelled source_token derived_token scope attempt call frontier ids
    (context_reclassified context) = Ok outcome <->
  closing_of ObservedCancelled ids outcome.
Proof.
  unfold close_physically_cancelled, close_failed_turn, close_cancelled_turn, end_optional_cancelled. split.
  - destruct ids as [| | | |ids| |]; try done. rewrite bind_Ok. intros (source & Hsource & Hturn).
    destruct (cancellation_proof attempt) as [proof|] eqn:Hproof;
      apply fmap_result_Ok in Hturn as (turn & Hturn & ->).
    + apply if_negb_Ok in Hturn as [Hpred Hturn].
      apply bind_Ok in Hturn as (ended & Hended & (snapshot & Hs & [= <-])%bind_Ok).
      apply fmap_result_Ok in Hended as (ended' & Hended & ->).
      apply (end_after_cancellation_valid _ _ _ _ UnstoppedKnownFailure _ Hvalid Hproof) in Hended. subst ended'.
      apply closes_cancelled; [done..|]. by exists source.
    + apply bind_Ok in Hturn as (ended & Hended & (snapshot & Hs & ->)%assemble_failed_Ok).
      apply (end_without_stop_valid _ _ _ CancelCancelled _ Hvalid Hproof) in Hended. subst ended.
      apply closes_cancelled_unasked; [done|]. by exists source.
  - unfold closing_of. intros Hc. inversion Hc; simplify_eq/=;
      match goal with H : cancellation_proof _ = _ |- _ => rename H into Hproof end;
      match goal with H : rebuilt _ _ _ _ _ _ |- _ => destruct H as (source & Hsource & Hs) end;
      rewrite Hsource; simpl; rewrite Hproof; apply fmap_result_Ok; (eexists; split; [|done]).
    + apply if_negb_Ok. split; [done|]. apply bind_Ok. eexists. rewrite fmap_result_Ok. split.
      { eexists. rewrite (end_after_cancellation_valid _ _ _ _ UnstoppedKnownFailure _ Hvalid Hproof). done. }
      apply bind_Ok. eexists. by split.
    + apply bind_Ok. eexists. rewrite (end_without_stop_valid _ _ _ CancelCancelled _ Hvalid Hproof).
      split; [done|]. apply assemble_failed_Ok. by eexists.
Qed.

Lemma close_refused_Ok observation blocks ids outcome :
  refused_blocks observation = Some blocks ->
  close_refused source_token derived_token scope attempt call frontier blocks ids
    (context_reclassified context) = Ok outcome <->
  closing_of observation ids outcome.
Proof.
  intros Hblocks. unfold close_refused. split.
  - destruct ids as [| | | | |ids|]; try done. rewrite bind_Ok.
    intros (ended & Hended%(end_observed_valid _ _ _ _ _ Hvalid) & (source & Hsource & Hturn)%bind_Ok).
    apply if_negb_Ok in Hturn as [Hlen Hturn]. apply if_false_Ok in Hturn as [Hfresh%identities_reused_false Hturn].
    apply bind_Ok in Hturn as (snapshot & Hs & [= <-]). subst ended.
    apply closes_refused; [done..|]. by exists source.
  - unfold closing_of. intros Hc. inversion Hc; simplify_eq/=; try (by destruct observation); [].
    match goal with H : rebuilt _ _ _ _ _ _ |- _ => destruct H as (source & Hsource & Hs) end.
    rewrite bind_Ok. eexists. rewrite (end_observed_valid _ _ _ _ _ Hvalid). split; [done|].
    rewrite Hsource. simpl. rewrite if_negb_Ok, if_false_Ok, identities_reused_false, bind_Ok.
    split; [done|]. split; [done|]. by eexists.
Qed.

Lemma close_ambiguous_Ok ids outcome :
  close_ambiguous source_token derived_token scope attempt call frontier ids
    (context_reclassified context) = Ok outcome <->
  closing_of ObservedAmbiguous ids outcome.
Proof.
  unfold close_ambiguous. split.
  - destruct ids as [| | | | | |ids]; try done. rewrite bind_Ok.
    intros (ended & Hended%(end_observed_valid _ _ _ _ _ Hvalid) & (operations & Ho%map_err_Ok & Hturn)%bind_Ok).
    subst ended. destruct (cancellation_proof attempt) as [proof|] eqn:Hproof.
    + apply bind_Ok in Hturn as (source & Hsource & (snapshot & Hs & [= <-])%bind_Ok).
      eapply closes_reconciling; [done..|]. by exists source.
    + injection Hturn as <-. by apply closes_awaiting.
  - unfold closing_of. intros Hc. inversion Hc; simplify_eq/=;
      rewrite bind_Ok; eexists; rewrite (end_observed_valid _ _ _ _ _ Hvalid); (split; [done|]);
      rewrite bind_Ok; eexists; rewrite map_err_Ok; (split; [done|]);
      match goal with H : cancellation_proof _ = _ |- _ => rewrite H end; [|done].
    match goal with H : rebuilt _ _ _ _ _ _ |- _ => destruct H as (source & Hsource & Hs) end.
    rewrite Hsource. simpl. rewrite bind_Ok. by eexists.
Qed.
End exact.

Lemma close_observed_Ok scope attempt current frontier observation ids context outcome :
  observation_lifecycle_valid attempt current = true ->
  close_observed source_token derived_token scope attempt current frontier observation ids context
    = Ok outcome <->
  closes scope attempt (end_call_with current (observation_disposition observation)) frontier context
    observation ids outcome.
Proof.
  intros Hvalid. unfold close_observed.
  assert (forall disposition, map_err (fun _ => CallStateMismatch) (end_classified current disposition)
            = Ok (end_call_with current disposition)) as Hend.
  { intros disposition. unfold observation_lifecycle_valid in Hvalid. unfold end_classified.
    by destruct (attempt_state attempt) as [| |[]], (call_state current). }
  destruct observation as [text|response|response input output|response input output| | |blocks input output| |];
    rewrite ?Hend; cbn [result_bind mbind];
    [by eapply close_completed_Ok| |by eapply close_completed_Ok|by eapply close_with_tools_Ok
    |by eapply close_known_failed_Ok|by eapply close_refused_Ok|by eapply close_refused_Ok
    |by eapply close_cancelled_Ok|by eapply close_ambiguous_Ok].
  destruct (existsb is_compaction_part response) eqn:Hcompaction.
  - split; [done|]. intros Hc. inversion Hc; simplify_eq/=. by rewrite Hcompaction in *.
  - eapply close_completed_Ok; [done|]. simpl. by rewrite Hcompaction.
Qed.

(** The call waits for a decision or for recovery, so the turn stays active. *)
Definition turn_stays (attempt : CurrentTurnAttempt) (observation : ModelCallTerminalObservation) : bool :=
  bool_decide (cancellation_proof attempt = None)
  && (is_tool_round observation || bool_decide (observation_disposition observation = CallAmbiguous)).

(** What happens to the pending steering of the turn. *)
Definition steering_settled (active_turn : ActivatedTurn) (stays : bool) (identities : reclassifications)
    (steering : list ReclassifiedPendingSteeringTurn) : Prop :=
  if stays then steering = []
  else steering_admitted (active_turn_id active_turn) (active_pending_steering active_turn) identities
    /\ steering = zip_with (successor_turn_of (active_session active_turn) (active_turn_id active_turn)
                              (origin_effective (active_configuration active_turn)))
                    (active_pending_steering active_turn) identities.

Definition auto_approval (self : ModelCallExecution Snap) : DangerousToolAutoApproval :=
  effective_dangerous_tool_auto_approval (origin_effective (execution_configuration self)).

(** An observation of the current call, in a lifecycle that admits one. *)
Definition observes (self : ModelCallExecution Snap) (call : CurrentModelCall)
    (observation : CorrelatedModelCallTerminalObservation) : Prop :=
  execution_current_call self = Some call
  /\ observed_correlation observation = current_correlation self call
  /\ observation_lifecycle_valid (execution_current_attempt self) call = true.

Lemma apply_observation_Ok self observation ids outcome :
  execution_apply_terminal_observation source_token derived_token self observation ids = Ok outcome <->
  exists call steering, observes self call observation
    /\ steering_settled (execution_active_turn self)
         (turn_stays (execution_current_attempt self) (observed_observation observation))
         (pending_steering_reclassifications ids) steering
    /\ closes (execution_scope self) (execution_current_attempt self)
         (end_call_with call (observation_disposition (observed_observation observation)))
         (execution_frontier_entries self) (mkContext steering (auto_approval self))
         (observed_observation observation) ids outcome.
Proof.
  unfold execution_apply_terminal_observation, observes.
  destruct (execution_current_call self) as [call|]; [|split; [done|by intros (? & ? & (? & _) & _)]].
  set (attempt := execution_current_attempt self). set (seen := observed_observation observation).
  set (steered := (if (is_tool_round seen && _) || _ then _ else _)%bool).
  assert (forall steering, steered = Ok steering <->
            steering_settled (execution_active_turn self) (turn_stays attempt seen)
              (pending_steering_reclassifications ids) steering) as Hsteering.
  { intros steering. unfold steered, turn_stays, steering_settled, reclassify_pending_steering.
    destruct (cancellation_proof attempt) as [proof|]; simpl;
      [rewrite !andb_false_r; simpl; apply reclassify_exact|].
    rewrite !andb_true_r. destruct (is_tool_round seen || _)%bool; simpl; [split; congruence|].
    apply reclassify_exact. }
  rewrite if_negb_Ok, if_false_Ok, negb_false_iff. split.
  - intros (Hcorr & Hvalid & (steering & Hs%Hsteering & Hc)%bind_Ok).
    apply (close_observed_Ok _ _ _ _ _ _ _ _ Hvalid) in Hc. by exists call, steering.
  - intros (? & steering & ([= <-] & Hcorr & Hvalid) & Hs%Hsteering & Hc). split; [done|]. split; [done|].
    rewrite Hs. simpl. by apply close_observed_Ok.
Qed.

(** ** The frontier an observation leaves *)

Definition outcome_snapshot (outcome : ModelCallTerminalOutcome Snap) : option Snap :=
  match outcome with
  | OutcomeCompleted turn => Some (completed_terminal_snapshot turn)
  | OutcomeToolRound turn => Some (round_yielded_snapshot turn)
  | OutcomeCancelledWithToolResponse turn => Some (stopped_terminal_snapshot turn)
  | OutcomeFailed turn => Some (failed_terminal_snapshot turn)
  | OutcomeCancelled turn => Some (cancelled_terminal_snapshot turn)
  | OutcomeRefused turn => Some (refused_terminal_snapshot turn)
  | OutcomeReconciliationRequired turn => Some (reconciling_terminal_snapshot turn)
  | OutcomeAwaitingRecovery _ => None
  end.

(** The entries the turn gains, in the order they are appended. *)
Definition outcome_entries (outcome : ModelCallTerminalOutcome Snap) : list SemanticTranscriptEntry :=
  match outcome with
  | OutcomeCompleted turn =>
      completed_turn_assistant_entries turn ++ [completed_turn_completion_entry turn]
  | OutcomeToolRound turn => round_assistant_entries turn
  | OutcomeCancelledWithToolResponse turn =>
      stopped_assistant_entries turn ++ stopped_closed_result_entries turn
      ++ [stopped_turn_cancellation_entry turn]
  | OutcomeFailed turn => [failed_turn_failure_entry turn]
  | OutcomeCancelled turn =>
      cancelled_tool_result_entries turn ++ [cancelled_turn_cancellation_entry turn]
  | OutcomeRefused turn => refused_turn_compaction_entries turn
  | OutcomeReconciliationRequired _ | OutcomeAwaitingRecovery _ => []
  end.

(** The requests that stay open. *)
Definition outcome_open (outcome : ModelCallTerminalOutcome Snap) : list ToolRequest :=
  match outcome with OutcomeToolRound turn => round_requests turn | _ => [] end.

(** A part that is no call leaves the open requests as they are; a call of a
    stopped round is closed. *)
Definition well_paired (closes_calls : bool) (item : round_item) : Prop :=
  match item with
  | PlainItem entry payload => forall session call open_requests,
      exchange_step open_requests (from_validated_parts entry session (payload call)) = Some open_requests
  | CallItem _ _ closed _ _ => is_Some closed <-> closes_calls = true
  end.

Lemma round_item_paired item i : round_item_of item = Some i -> well_paired false i.
Proof.
  destruct item as [[] []]; simpl; try done; intros [= <-]; simpl; try done.
Qed.

Lemma stopped_item_paired item i : stopped_item_of item = Some i -> well_paired true i.
Proof. destruct item as [[] []]; simpl; try done; intros [= <-]; simpl; done. Qed.

Lemma mapM_zip_Some {A B} (f : A * B -> option round_item) (P : round_item -> Prop) {C}
    (of_item : round_item -> C) (of_part : B -> C) parts ids items :
  length parts = length ids -> mapM f (zip parts ids) = Some items ->
  (forall part id i, f (part, id) = Some i -> P i /\ of_item i = of_part id) ->
  Forall P items /\ of_item <$> items = of_part <$> ids.
Proof.
  intros Hlen Hitems%mapM_Some Hf. revert ids items Hlen Hitems.
  induction parts as [|part parts IH]; intros [|id ids] items Hlen Hitems; simplify_eq/=.
  { apply Forall2_nil_inv_l in Hitems as ->. by split; [constructor|]. }
  apply Forall2_cons_inv_l in Hitems as (i & items' & Hi & Hitems & ->).
  destruct (Hf _ _ _ Hi) as [HP Heq]. destruct (IH _ _ Hlen Hitems) as [HPs Heqs].
  split; [by constructor|]. simpl. by f_equal.
Qed.

Lemma round_items_exact response ids items :
  round_items response ids = Some items ->
  Forall (well_paired false) items /\ item_identities <$> items = (fun id => [tool_part_entry id]) <$> ids.
Proof.
  intros [Hlen Hitems]%if_decide_Some. eapply mapM_zip_Some; [exact Hlen|exact Hitems|].
  intros part id i Hi. split; [by eapply round_item_paired|].
  by destruct part, id; simplify_eq/=.
Qed.

Lemma stopped_items_exact response ids items :
  stopped_round_items response ids = Some items ->
  Forall (well_paired true) items /\ item_identities <$> items = stopped_part_entries <$> ids.
Proof.
  intros [Hlen Hitems]%if_decide_Some. eapply mapM_zip_Some; [exact Hlen|exact Hitems|].
  intros part id i Hi. split; [by eapply stopped_item_paired|].
  by destruct part, id; simplify_eq/=.
Qed.

(** The entries of the items open their requests. *)
Lemma items_open b session call items n :
  Forall (well_paired b) items -> (n + N.of_nat (length (requests_of items)) <= u64_max)%N ->
  exchange_loop n (item_entry session call <$> items)
  = Some (n + N.of_nat (length (requests_of items)))%N.
Proof.
  intros Hp. revert n. induction Hp as [|[entry payload|entry request closed approval proposal] items Hi Hp IH];
    intros n Hn; cbn [fmap list_fmap exchange_loop item_entry] in *.
  - simpl. by rewrite N.add_0_r.
  - rewrite Hi. apply IH. exact Hn.
  - rewrite requests_of_cons, length_app in *. cbn [item_request] in *.
    change (length (option_list (Some request))) with 1 in *. unfold exchange_step. cbn [semantic_payload mbind option_bind].
    rewrite N.min_l, IH by lia. f_equal. lia.
Qed.

(** The results of a stopped round close them. *)
Lemma items_closed session items n :
  Forall (well_paired true) items ->
  exchange_loop (n + N.of_nat (length (requests_of items))) (omap (item_closed session) items) = Some n.
Proof.
  induction 1 as [|[entry payload|entry request closed approval proposal] items Hi Hp IH];
    [simpl; by rewrite N.add_0_r|exact IH|].
  destruct closed as [closed|]; [|by destruct (proj2 Hi)].
  cbn [omap list_omap item_closed item_request exchange_loop requests_of length].
  assert (forall open_requests, exchange_step (open_requests + 1)
    (from_validated_parts closed session
       (if bool_decide (is_Some (proposal_inadmissible_reason proposal))
        then ToolInadmissible request else ToolClosed request)) = Some open_requests) as Hstep.
  { intros open_requests. unfold exchange_step. cbn [semantic_payload].
    assert (((open_requests + 1) =? 0)%N = false) as Hz by (apply N.eqb_neq; lia).
    case_bool_decide; simpl; rewrite Hz; f_equal; lia. }
  match goal with |- context [exchange_step ?m _] => replace m with ((n + N.of_nat (length (requests_of items))) + 1)%N by (simpl; lia) end.
  rewrite Hstep. exact IH.
Qed.

Lemma items_identities session call items :
  (semantic_identity <$> (item_entry session call <$> items))
    ++ (semantic_identity <$> omap (item_closed session) items)
  ≡ₚ concat (item_identities <$> items).
Proof.
  induction items as [|[entry payload|entry request [closed|] approval proposal] items IH]; simpl; [done|..].
  - by rewrite IH.
  - rewrite <- IH. by rewrite <- Permutation_middle.
  - by rewrite IH.
Qed.

Lemma items_unclosed session items :
  Forall (well_paired false) items -> omap (item_closed session) items = [].
Proof.
  induction 1 as [|[|? ? [closed|]] items Hi Hp IH]; simpl; [done|done| |done].
  destruct Hi as [Hi _]. discriminate Hi. by eexists.
Qed.

Lemma item_requests_length scope call ordinal items :
  length (item_requests scope call ordinal items) = length (requests_of items).
Proof.
  revert ordinal. induction items as [|[|] items IH]; intros ordinal; simpl; [done|by apply IH|].
  f_equal. apply IH.
Qed.

Lemma neutral_loop n entries :
  Forall (fun entry => forall m, exchange_step m entry = Some m) entries -> exchange_loop n entries = Some n.
Proof. induction 1 as [|entry entries He Hs IH]; simpl; [done|]. by rewrite He. Qed.

Lemma fit_bound posture items entries requests :
  items_fit posture items entries requests 0 -> (N.of_nat (length (requests_of items)) <= u64_max)%N.
Proof. intros [_ _ _ _ _ [->|Hord]]; unfold u64_max, u32_max in *; lia. Qed.

Lemma plain_entries_neutral session call ids response entries :
  plain_entries session call ids response entries ->
  Forall (fun entry => forall m, exchange_step m entry = Some m) entries.
Proof.
  unfold plain_entries. intros Hall. remember (zip ids response) as items eqn:Heq. clear Heq.
  induction Hall as [|[id part] entry items entries (payload & Hp & ->) Hall IH]; constructor; [|done].
  intros m. unfold exchange_step. simpl in *. by destruct part; simplify_eq/=.
Qed.

Lemma compaction_entries_identities session call ids blocks :
  length blocks = length ids -> semantic_identity <$> compaction_entries session call ids blocks = ids.
Proof.
  unfold compaction_entries. revert blocks. induction ids as [|id ids IH]; intros [|block blocks] Hlen;
    simplify_eq/=; [done|]. f_equal. by apply IH.
Qed.

Lemma compaction_entries_session session call ids blocks :
  Forall (fun entry => semantic_source_session entry = session) (compaction_entries session call ids blocks).
Proof. unfold compaction_entries. rewrite Forall_fmap. apply Forall_true. by intros []. Qed.

Lemma compaction_entries_neutral session call ids blocks :
  Forall (fun entry => forall m, exchange_step m entry = Some m) (compaction_entries session call ids blocks).
Proof. unfold compaction_entries. rewrite Forall_fmap. apply Forall_true. by intros [id block] m. Qed.

(** What every closure leaves: its entries are this session's, carry the given
    identities, open exactly the requests of a tool round, and extend the
    frontier of the call. *)
Definition leaves scope call frontier (ids : ModelCallTerminalIdentities)
    (outcome : ModelCallTerminalOutcome Snap) : Prop :=
  Forall (fun entry => semantic_source_session entry = scope_session scope) (outcome_entries outcome)
  /\ semantic_identity <$> outcome_entries outcome ≡ₚ
       match outcome_snapshot outcome with
       | Some _ => (frontier_identity_candidates ids).1
       | None => []
       end
  /\ exchange_loop 0 (outcome_entries outcome) = Some (N.of_nat (length (outcome_open outcome)))
  /\ forall snapshot, outcome_snapshot outcome = Some snapshot ->
       rebuilt (scope_session scope) (ended_frontier call) (frontier_identity_candidates ids).2 frontier
         (outcome_entries outcome) snapshot.

Lemma items_session session call items :
  Forall (fun entry => semantic_source_session entry = session) (item_entry session call <$> items).
Proof. rewrite Forall_fmap. apply Forall_true. by intros []. Qed.

Lemma items_closed_session session items :
  Forall (fun entry => semantic_source_session entry = session) (omap (item_closed session) items).
Proof.
  induction items as [|[|? ? [closed|]] items IH]; simpl; [done|done| |done].
  by constructor.
Qed.

Lemma round_identities session call response ids items :
  round_items response ids = Some items ->
  semantic_identity <$> (item_entry session call <$> items) ≡ₚ tool_part_entry <$> ids.
Proof.
  intros [Hp Hids]%round_items_exact. pose proof (items_identities session call items) as Hi.
  rewrite (items_unclosed _ _ Hp), Hids in Hi. simpl in Hi. rewrite app_nil_r in Hi. rewrite Hi.
  clear. induction ids; simpl; [done|by f_equiv].
Qed.

Lemma stopped_identities session call response ids items marker :
  stopped_round_items response ids = Some items ->
  semantic_identity <$> ((item_entry session call <$> items) ++ omap (item_closed session) items ++ [marker])
  ≡ₚ concat (stopped_part_entries <$> ids) ++ [semantic_identity marker].
Proof.
  intros [Hp Hids]%stopped_items_exact. rewrite !fmap_app, (assoc_L (++)).
  by rewrite items_identities, Hids.
Qed.

Lemma stopped_entries_session session call items payload entry :
  Forall (fun entry => semantic_source_session entry = session)
    ((item_entry session call <$> items) ++ omap (item_closed session) items
     ++ [from_validated_parts entry session payload]).
Proof.
  rewrite !Forall_app. split_and!; [apply items_session|apply items_closed_session|by repeat constructor].
Qed.

Lemma plain_entries_session session call ids response entries :
  plain_entries session call ids response entries ->
  Forall (fun entry => semantic_source_session entry = session) entries.
Proof.
  unfold plain_entries. intros Hall. remember (zip ids response) as items eqn:Heq. clear Heq.
  induction Hall as [|[id part] entry items entries (payload & _ & ->) Hall IH]; by constructor.
Qed.

Lemma closes_leaves scope attempt call frontier context observation ids outcome :
  closes scope attempt call frontier context observation ids outcome ->
  leaves scope call frontier ids outcome.
Proof.
  unfold leaves. intros Hc. destruct Hc as
    [observation response ids entries snapshot _ (Hlen & Htools & _) Hplain Hs
    |response input output ids items phase snapshot _ Hitems Hfit _ Hs
    |response input output proof ids items snapshot _ _ Hitems _ Hfit Hs
    |ids snapshot Hs|proof ids snapshot _ _ Hs|ids snapshot _ Hs
    |observation blocks ids snapshot _ Hlen _ Hs|proof ids operations snapshot _ _ Hs
    |ids operations _ _]; cbn [outcome_entries outcome_snapshot outcome_open frontier_identity_candidates
      completed_turn_assistant_entries completed_turn_completion_entry completed_terminal_snapshot
      round_assistant_entries round_yielded_snapshot round_requests stopped_assistant_entries
      stopped_closed_result_entries stopped_turn_cancellation_entry stopped_terminal_snapshot
      failed_turn_failure_entry failed_terminal_snapshot cancelled_tool_result_entries
      cancelled_turn_cancellation_entry cancelled_terminal_snapshot refused_turn_compaction_entries
      refused_terminal_snapshot reconciling_terminal_snapshot fst snd];
    (split; [|split; [|split; [|by intros ? [= <-]]]]); try done; try (by repeat constructor).
  - apply Forall_app. split; [by eapply plain_entries_session|by repeat constructor].
  - rewrite fmap_app, (plain_entries_identities _ _ _ _ _ Hlen Hplain). done.
  - rewrite exchange_loop_app, (neutral_loop 0) by (by eapply plain_entries_neutral). done.
  - apply items_session.
  - by eapply round_identities.
  - rewrite item_requests_length. rewrite (items_open false); [done| |].
    + eapply round_items_exact, Hitems.
    + rewrite N.add_0_l. by eapply fit_bound.
  - apply stopped_entries_session.
  - by rewrite (stopped_identities _ _ _ _ _ _ Hitems).
  - destruct (stopped_items_exact _ _ _ Hitems) as [Hp Hids].
    rewrite exchange_loop_app, (items_open true) by (done || rewrite N.add_0_l; by eapply fit_bound).
    cbn [mbind option_bind]. rewrite exchange_loop_app, items_closed by done. done.
  - apply compaction_entries_session.
  - by rewrite compaction_entries_identities.
  - apply neutral_loop, compaction_entries_neutral.
Qed.

(** ** What is recorded about the call, its attempt and the turn *)

Definition outcome_facts (outcome : ModelCallTerminalOutcome Snap) :
    option EndedModelCall * option EndedTurnAttempt * option TurnDisposition
    * list ReclassifiedPendingSteeringTurn :=
  match outcome with
  | OutcomeCompleted turn =>
      (Some (completed_call turn), Some (completed_attempt turn), Some (completed_disposition turn),
       completed_steering turn)
  | OutcomeToolRound turn => (Some (round_call turn), Some (round_attempt turn), None, [])
  | OutcomeCancelledWithToolResponse turn =>
      (Some (stopped_call turn), Some (stopped_attempt turn), Some (stopped_disposition turn),
       stopped_steering turn)
  | OutcomeFailed turn =>
      (failed_call turn, Some (failed_attempt turn), Some (failed_disposition turn), failed_steering turn)
  | OutcomeCancelled turn =>
      (cancelled_call turn, cancelled_attempt turn, Some (cancelled_disposition turn),
       cancelled_steering turn)
  | OutcomeRefused turn =>
      (Some (refused_call turn), Some (refused_attempt turn), Some (refused_disposition turn),
       refused_steering turn)
  | OutcomeReconciliationRequired turn =>
      (Some (reconciling_call turn), Some (reconciling_attempt turn),
       Some (reconciling_disposition turn), reconciling_steering turn)
  | OutcomeAwaitingRecovery turn => (Some (ambiguous_call turn), Some (ambiguous_attempt turn), None, [])
  end.

(** How the attempt ends: after a cancellation, and without one. *)
Definition attempt_ends (observation : ModelCallTerminalObservation) :
    CancellationStopDisposition * UnstoppedAttemptDisposition :=
  match observation with
  | ObservedCompleted _ | ObservedWithReasoning _ | ObservedWithCompaction _ _ _ =>
      (CancelTurnCompleted, UnstoppedTurnCompleted)
  | ObservedWithTools _ _ _ => (CancelCancelled, YieldedToDurableWait)
  | ObservedKnownFailed => (CancelKnownFailure, UnstoppedKnownFailure)
  | ObservedRefused | ObservedRefusedWithCompaction _ _ _ => (CancelTurnRefused, UnstoppedTurnRefused)
  | ObservedCancelled => (CancelCancelled, UnstoppedKnownFailure)
  | ObservedAmbiguous => (CancelAmbiguous, UnstoppedAmbiguous)
  end.

(** How the turn ends, [None] when it stays active. *)
Definition turn_ends (call : ModelCallId) (proof : option AppliedInterruptProof)
    (observation : ModelCallTerminalObservation) : option TurnDisposition :=
  match observation, proof with
  | (ObservedCompleted _ | ObservedWithReasoning _ | ObservedWithCompaction _ _ _), _ =>
      Some TurnCompletedDisposition
  | ObservedKnownFailed, _ => Some TurnFailedDisposition
  | (ObservedRefused | ObservedRefusedWithCompaction _ _ _), _ => Some TurnRefused
  | (ObservedWithTools _ _ _ | ObservedCancelled), Some proof => Some (TurnCancelledDisposition proof)
  | ObservedCancelled, None => Some TurnFailedDisposition
  | ObservedAmbiguous, Some proof =>
      match try_from_operations [OperationModelCall call] with
      | Ok operations => Some (ReconciliationRequired (from_interrupt_ambiguity operations proof))
      | Err _ => None
      end
  | (ObservedWithTools _ _ _ | ObservedAmbiguous), None => None
  end.

Lemma plain_response_ends observation response :
  plain_response observation = Some response ->
  attempt_ends observation = (CancelTurnCompleted, UnstoppedTurnCompleted)
  /\ (forall call proof, turn_ends call proof observation = Some TurnCompletedDisposition)
  /\ forall attempt, turn_stays attempt observation = false.
Proof.
  destruct observation; simpl; try done; intros _; (split; [done|]); (split; [done|]);
    intros attempt; unfold turn_stays; simpl; apply andb_false_r.
Qed.

Lemma refused_blocks_ends observation blocks :
  refused_blocks observation = Some blocks ->
  attempt_ends observation = (CancelTurnRefused, UnstoppedTurnRefused)
  /\ (forall call proof, turn_ends call proof observation = Some TurnRefused)
  /\ forall attempt, turn_stays attempt observation = false.
Proof.
  destruct observation; simpl; try done; intros _; (split; [done|]); (split; [done|]);
    intros attempt; unfold turn_stays; simpl; apply andb_false_r.
Qed.

(** A turn that stays active keeps its pending steering. *)
Definition kept_steering (stays : bool) (steering : list ReclassifiedPendingSteeringTurn) :
    list ReclassifiedPendingSteeringTurn := if stays then [] else steering.

Lemma closes_facts scope attempt call frontier context observation ids outcome :
  closes scope attempt call frontier context observation ids outcome ->
  outcome_facts outcome =
    (Some call,
     Some (attempt_closed attempt (attempt_ends observation).1 (attempt_ends observation).2),
     turn_ends (ended_call_id call) (cancellation_proof attempt) observation,
     kept_steering (turn_stays attempt observation) (context_reclassified context)).
Proof.
  intros Hc. destruct Hc; cbn [outcome_facts];
    repeat match goal with
    | H : plain_response _ = Some _ |- _ =>
        destruct (plain_response_ends _ _ H) as (-> & Hends & Hstays); rewrite Hends, Hstays; clear H
    | H : refused_blocks _ = Some _ |- _ =>
        destruct (refused_blocks_ends _ _ H) as (-> & Hends & Hstays); rewrite Hends, Hstays; clear H
    end; try done;
    cbn [turn_ends];
    repeat match goal with
    | H : cancellation_proof _ = _ |- _ => unfold turn_stays; rewrite H; clear H
    | H : try_from_operations _ = _ |- _ => rewrite H; clear H
    end; try done; unfold turn_stays; simpl; by rewrite ?andb_false_r.
Qed.

(** ** When an observation is admitted *)

(** A round continues only when nothing waits for a decision, in a new attempt. *)
Definition phase_fits (undecided : option ToolRequestId) (continuation : option TurnAttemptId)
    (yielded : TurnAttemptId) : Prop :=
  match undecided, continuation with
  | Some _, None => True
  | None, Some continuation => continuation <> yielded
  | _, _ => False
  end.

Lemma round_phase_total undecided continuation yielded :
  (exists phase, round_phase undecided continuation yielded = Ok phase) <->
  phase_fits undecided continuation yielded.
Proof.
  unfold round_phase, phase_fits. destruct undecided, continuation; simpl;
    try (by split; [intros [? ?]|]); try (split; [done|by eexists]).
  case_bool_decide; simpl; split; [by intros [? ?]|done|done|by eexists].
Qed.

(** The identities have the shape of the observation and name nothing twice. *)
Inductive fits scope (attempt : CurrentTurnAttempt) (frontier : list SemanticTranscriptEntry)
    (posture : DangerousToolAutoApproval) :
    ModelCallTerminalObservation -> ModelCallTerminalIdentities -> Prop :=
| fits_completed observation response ids :
    plain_response observation = Some response -> completion_fits frontier response ids ->
    fits scope attempt frontier posture observation (IdentitiesCompleted ids)
| fits_round response input output ids items :
    cancellation_proof attempt = None ->
    round_items response (round_response_parts ids) = Some items ->
    items_fit posture items (frontier_identities frontier) (frontier_requests frontier) 0 ->
    phase_fits (head (omap item_undecided items)) (round_continuation_attempt ids)
      (attempt_id attempt) ->
    fits scope attempt frontier posture (ObservedWithTools response input output) (IdentitiesToolRound ids)
| fits_stopped response input output proof ids items :
    cancellation_proof attempt = Some proof -> proof_predecessor proof = scope_turn scope ->
    stopped_round_items response (stopped_response_parts ids) = Some items ->
    stopped_cancellation_entry ids ∉ frontier_identities frontier ->
    items_fit posture items ({[stopped_cancellation_entry ids]} ∪ frontier_identities frontier)
      (frontier_requests frontier) 0 ->
    fits scope attempt frontier posture (ObservedWithTools response input output)
      (IdentitiesStoppedToolRound ids)
| fits_failed ids : fits scope attempt frontier posture ObservedKnownFailed (IdentitiesFailed ids)
| fits_cancelled ids :
    (forall proof, cancellation_proof attempt = Some proof -> proof_predecessor proof = scope_turn scope) ->
    fits scope attempt frontier posture ObservedCancelled (IdentitiesPhysicalCancellation ids)
| fits_refused observation blocks ids :
    refused_blocks observation = Some blocks ->
    length blocks = length (refused_compaction_entries ids) ->
    fresh_in frontier (refused_compaction_entries ids) ->
    fits scope attempt frontier posture observation (IdentitiesRefused ids)
| fits_ambiguous ids : fits scope attempt frontier posture ObservedAmbiguous (IdentitiesAmbiguous ids).

(** The turn waits for a recovery decision and nothing is appended. *)
Definition awaits_recovery (attempt : CurrentTurnAttempt) (observation : ModelCallTerminalObservation) : Prop :=
  observation = ObservedAmbiguous /\ cancellation_proof attempt = None.

(** The frontier of the call can be extended under the identities. *)
Definition extendable scope (call_frontier : ContextFrontierId) (frontier : list SemanticTranscriptEntry)
    (ids : ModelCallTerminalIdentities) : Prop :=
  (frontier_identity_candidates ids).2 <> call_frontier
  /\ NoDup ((reference <$> frontier)
            ++ (from_source (scope_session scope) <$> (frontier_identity_candidates ids).1)).

Lemma references_of session entries ids :
  Forall (fun entry => semantic_source_session entry = session) entries ->
  semantic_identity <$> entries ≡ₚ ids ->
  reference <$> entries ≡ₚ from_source session <$> ids.
Proof.
  intros Hsession <-. rewrite <- list_fmap_compose.
  induction Hsession as [|entry entries <- _ IH]; simpl; [done|]. by f_equiv.
Qed.

Lemma rebuilt_extendable scope call_frontier frontier ids new :
  Forall (fun entry => semantic_source_session entry = scope_session scope) new ->
  semantic_identity <$> new ≡ₚ (frontier_identity_candidates ids).1 ->
  (exists snapshot, rebuilt (scope_session scope) call_frontier (frontier_identity_candidates ids).2
     frontier new snapshot) <-> extendable scope call_frontier frontier ids.
Proof.
  intros Hsession Hids. rewrite rebuilt_total, fmap_app. unfold extendable.
  by rewrite (references_of _ _ _ Hsession Hids).
Qed.

(** A closure appends what fits. *)
Lemma closes_fits scope attempt call frontier context observation ids outcome :
  closes scope attempt call frontier context observation ids outcome ->
  fits scope attempt frontier (context_auto_approval context) observation ids
  /\ (awaits_recovery attempt observation \/ extendable scope (ended_frontier call) frontier ids).
Proof.
  intros Hc. split.
  - destruct Hc; try (econstructor; done).
    + econstructor; [done..|]. apply round_phase_total. by eexists.
    + constructor. intros other ?. by simplify_eq.
    + constructor. intros other ?. by simplify_eq.
  - destruct (closes_leaves _ _ _ _ _ _ _ _ Hc) as (Hsession & Hids & _ & Hrebuilt).
    destruct (outcome_snapshot outcome) as [snapshot|] eqn:Hsnapshot.
    + right. apply (rebuilt_extendable _ _ _ _ (outcome_entries outcome)); [done..|].
      exists snapshot. by apply Hrebuilt.
    + left. by destruct Hc.
Qed.

Lemma fits_closes scope attempt call frontier context observation ids :
  fits scope attempt frontier (context_auto_approval context) observation ids ->
  awaits_recovery attempt observation \/ extendable scope (ended_frontier call) frontier ids ->
  exists outcome, closes scope attempt call frontier context observation ids outcome.
Proof.
  destruct (one_operation (OperationModelCall (ended_call_id call))) as [operations Hoperations].
  intros Hfits [[-> Hproof]|Hext].
  { inversion Hfits; simplify_eq/=. eexists. by apply closes_awaiting. }
  assert (forall new, Forall (fun entry => semantic_source_session entry = scope_session scope) new ->
            semantic_identity <$> new ≡ₚ (frontier_identity_candidates ids).1 ->
            exists snapshot, rebuilt (scope_session scope) (ended_frontier call)
              (frontier_identity_candidates ids).2 frontier new snapshot) as Hsnap.
  { intros new Hsession Hids. by apply rebuilt_extendable. }
  destruct Hfits as [observation response ids Hresponse Hfits
    |response input output ids items Hproof Hitems Hfit Hphase
    |response input output proof ids items Hproof Hpred Hitems Hfresh Hfit|ids|ids Hpred
    |observation blocks ids Hblocks Hlen Hfresh|ids].
  - destruct Hfits as (Hlen & Htools & Hfresh).
    destruct (plain_entries_total (scope_session scope) (ended_call_id call) _ _ Hlen Htools) as [entries Hentries].
    edestruct Hsnap as [snapshot Hs]; [..|eexists; by eapply closes_completed].
    { apply Forall_app. split; [by eapply plain_entries_session|by apply Forall_singleton]. }
    by rewrite fmap_app, (plain_entries_identities _ _ _ _ _ Hlen Hentries).
  - apply round_phase_total in Hphase as [phase Hphase].
    edestruct Hsnap as [snapshot Hs]; [apply items_session|by eapply round_identities|].
    eexists. by eapply closes_round.
  - edestruct Hsnap as [snapshot Hs]; [apply stopped_entries_session| |eexists; by eapply closes_stopped].
    by rewrite (stopped_identities _ _ _ _ _ _ Hitems).
  - edestruct Hsnap as [snapshot Hs]; [..|eexists; by eapply closes_failed]; [by apply Forall_singleton|done].
  - destruct (cancellation_proof attempt) as [proof|] eqn:Hproof.
    + edestruct Hsnap as [snapshot Hs]; cycle 2.
      { eexists. eapply closes_cancelled; [done|by apply Hpred|done]. }
      all: [> by apply Forall_singleton|done].
    + edestruct Hsnap as [snapshot Hs]; [..|eexists; by eapply closes_cancelled_unasked];
        [by apply Forall_singleton|done].
  - edestruct Hsnap as [snapshot Hs]; [apply compaction_entries_session| |eexists; by eapply closes_refused].
    by rewrite compaction_entries_identities.
  - destruct (cancellation_proof attempt) as [proof|] eqn:Hproof; [|eexists; by apply closes_awaiting].
    destruct (Hsnap []) as [snapshot Hs]; [done..|]. eexists. by eapply closes_reconciling.
Qed.

(** ** The theorems *)

(** C3. An observation of the current call is applied exactly when it is correlated
    with the issued call in a lifecycle that admits it, when every pending input
    gets a turn of its own unless the turn stays active, when the identities
    have the shape of the observation, and when they can extend the frontier of
    the call, unless the turn waits for recovery without a new frontier. *)
Theorem observation_admitted_exact self observation ids :
  let attempt := execution_current_attempt self in
  let seen := observed_observation observation in
  let active_turn := execution_active_turn self in
  (exists outcome, execution_apply_terminal_observation source_token derived_token self observation ids = Ok outcome)
  <->
  exists call, observes self call observation
    /\ (turn_stays attempt seen = true
        \/ steering_admitted (active_turn_id active_turn) (active_pending_steering active_turn)
             (pending_steering_reclassifications ids))
    /\ fits (execution_scope self) attempt (execution_frontier_entries self) (auto_approval self) seen ids
    /\ (awaits_recovery attempt seen
        \/ extendable (execution_scope self) (frontier_snapshot (call_frontier call))
             (execution_frontier_entries self) ids).
Proof.
  intros attempt seen active_turn. setoid_rewrite apply_observation_Ok. split.
  - intros (outcome & call & steering & Hobserves & Hsteering & Hc).
    exists call. split; [done|]. split.
    { unfold steering_settled in Hsteering. fold attempt seen in Hsteering.
      destruct (turn_stays attempt seen); [by left|by right; destruct Hsteering]. }
    by apply closes_fits in Hc.
  - intros (call & Hobserves & Hsteering & Hfits & Hext).
    assert (exists steering, steering_settled active_turn (turn_stays attempt seen)
      (pending_steering_reclassifications ids) steering) as [steering Hsettled].
    { unfold steering_settled. destruct (turn_stays attempt seen); [by exists []|].
      destruct Hsteering; [done|]. by eexists. }
    destruct (fits_closes (execution_scope self) attempt
      (end_call_with call (observation_disposition seen)) (execution_frontier_entries self)
      (mkContext steering (auto_approval self)) seen ids Hfits Hext) as [outcome Hc].
    by exists outcome, call, steering.
Qed.


(** C4. The observation alone decides what is recorded: the call ends with the
    observed disposition, the attempt according to its requested cancellation,
    the turn as completed, failed, refused, cancelled or for reconciliation by a
    fixed table, and pending steering becomes turns in acceptance order exactly
    when the turn ends. *)
Theorem observation_recorded_honestly self observation ids outcome
    (Hok : execution_apply_terminal_observation source_token derived_token self observation ids = Ok outcome) :
  let attempt := execution_current_attempt self in
  let seen := observed_observation observation in
  exists call steering, observes self call observation
    /\ outcome_facts outcome =
         (Some (end_call_with call (observation_disposition seen)),
          Some (attempt_closed attempt (attempt_ends seen).1 (attempt_ends seen).2),
          turn_ends (call_id call) (cancellation_proof attempt) seen, steering)
    /\ steering_settled (execution_active_turn self) (turn_stays attempt seen)
         (pending_steering_reclassifications ids) steering
    /\ (turn_stays attempt seen = true <->
        turn_ends (call_id call) (cancellation_proof attempt) seen = None).
Proof.
  intros attempt seen. apply apply_observation_Ok in Hok as (call & steering & Hobserves & Hsteering & Hc).
  fold attempt seen in Hc, Hsteering. exists call, steering. split; [done|].
  pose proof (closes_facts _ _ _ _ _ _ _ _ Hc) as Hfacts. cbn [context_reclassified ended_call_id end_call_with] in Hfacts.
  split.
  { rewrite Hfacts. unfold kept_steering, steering_settled in *.
    destruct (turn_stays attempt seen); [by subst|done]. }
  split; [done|]. unfold turn_stays.
  destruct seen, (cancellation_proof attempt); simpl; try done.
  by destruct (one_operation (OperationModelCall (call_id call))) as [operations ->].
Qed.
End spec.

(** ** Witnesses *)

Definition sample_turn : TurnId := from_uuid 2.
Definition sample_frontier_entries : list SemanticTranscriptEntry :=
  [from_validated_parts (from_uuid 1) (from_uuid 1) (OriginAcceptedInput (from_uuid 20))].
Definition sample_pending : PendingSteeringInput :=
  mkPendingSteering (mkLifecycle (from_uuid 30) (PendingSteering (mkBinding sample_turn))) (mkPosition 2).
Definition sample_active_turn : ActivatedTurn :=
  ActivatedDelegated
    (mkDelegatedTurn (from_uuid 1) sample_turn (PendingDeliveries 1%positive 1%positive) sample_origin
       (mkTurnStart FirstInSession (mkFrontier (from_uuid 1) (from_uuid 6)))
       (Running (mkAttempt (from_uuid 3) AttemptRunning)) [sample_pending] []).
Definition sample_running_call : CurrentModelCall :=
  mkCall (from_uuid 4) (from_uuid 3) (FrozenDirect sample_selection)
    (mkPinned sample_turn (naming (from_uuid 5))) (mkFrontier (from_uuid 1) (from_uuid 6)) CallInFlight.
Definition sample_execution : ModelCallExecution ResolvedContextFrontierSnapshot :=
  mkExecution sample_active_turn (from_uuid 1) sample_turn sample_origin (active_start sample_active_turn)
    (mkTargetCatalog ∅) (mkAttempt (from_uuid 3) AttemptRunning) sample_snapshot sample_snapshot
    sample_frontier_entries ∅ ∅ (Some (call_pinned sample_running_call)) (Some sample_running_call) false.
Definition sample_seen (observation : ModelCallTerminalObservation) :
    CorrelatedModelCallTerminalObservation :=
  bind_terminal_observation (current_correlation sample_execution sample_running_call) observation.
Definition sample_completed_text : CorrelatedModelCallTerminalObservation :=
  sample_seen (ObservedCompleted [mkAssistantText (mkUnicodeText "done"%string)]).
Definition sample_completed_identities : ModelCallTerminalIdentities :=
  IdentitiesCompleted (mkCompletedIdentities [from_uuid 51] (from_uuid 52) (from_uuid 7)
    [mkReclassification (from_uuid 30) (from_uuid 32)]).
Definition sample_closure :=
  execution_apply_terminal_observation 1%positive 2%positive sample_execution sample_completed_text
    sample_completed_identities.

Lemma sample_closure_Ok : exists outcome, sample_closure = Ok outcome.
Proof.
  assert (is_ok sample_closure = true) as Hok by (vm_compute; reflexivity).
  destruct sample_closure as [outcome|] eqn:Hc; [by exists outcome|discriminate].
Qed.

Lemma observation_admitted_exact_witness :
  steering_admitted sample_turn [sample_pending] [mkReclassification (from_uuid 30) (from_uuid 32)].
Proof.
  destruct (proj1 (observation_admitted_exact 1%positive 2%positive sample_execution sample_completed_text
    sample_completed_identities) sample_closure_Ok) as (call & _ & [Hstays|Hsteering] & _).
  - discriminate Hstays.
  - exact Hsteering.
Defined.


Lemma observation_recorded_honestly_witness :
  exists outcome, sample_closure = Ok outcome
    /\ outcome_facts outcome =
         (Some (end_call_with sample_running_call CallCompleted),
          Some (mkEnded (from_uuid 3) (WithoutStop UnstoppedTurnCompleted)),
          Some TurnCompletedDisposition,
          [successor_turn_of (from_uuid 1) sample_turn (origin_effective sample_origin) sample_pending
             (mkReclassification (from_uuid 30) (from_uuid 32))]).
Proof.
  destruct sample_closure_Ok as [outcome Hok]. exists outcome. split; [exact Hok|].
  destruct (observation_recorded_honestly 1%positive 2%positive sample_execution sample_completed_text
    sample_completed_identities outcome Hok) as (call & steering & (Hcall & _) & Hfacts & Hsteering & _).
  injection Hcall as <-. destruct Hsteering as [_ ->]. exact Hfacts.
Defined.
