(* ===== verification/ToolRoundBatch.v ===== *)
(** * A yielded tool round is a tool batch

    The requests and the automatic approvals a tool round commits form a stored
    batch that reconstitutes in the phase the turn was given: the round and the
    batch agree about which requests wait for a decision. *)

From stdpp Require Import sets strings.
From S2P Require Import Prelude QueueOrder ModelSettings Configuration SettingsSpec Interrupt TurnAttempt Frontier FrontierSpec ModelCall Tool ToolAttempt TurnLifecycle ToolBatch ToolBatchSpec Delegation SemanticEntry ContextCompaction ContextCompactionSpec BatchProjection ModelExecution TurnClosure ExecutionSteps ToolRoundSpec TurnClosureSpec.

Local Open Scope list_scope.

(** The decision a request starts with. *)
Definition starts_decided (items : list round_item) (request : ToolRequestId) : option ToolApprovalResolution :=
  keyed resolution_request (omap item_resolution items) !! request.

(** A call of a round that continues: not closed, admitted by the posture. *)
Definition continues (posture : DangerousToolAutoApproval) (item : round_item) : Prop :=
  well_paired false item /\ item_admitted posture item.

Lemma initial_resolution_key approval request resolution :
  initial_resolution approval request = Some resolution -> resolution_request resolution = request.
Proof. destruct approval; simpl; intros; by simplify_eq/=. Qed.

Lemma item_resolution_key item resolution :
  item_resolution item = Some resolution -> item_request item = Some (resolution_request resolution).
Proof.
  destruct item as [|entry request [closed|] approval proposal]; simpl; try done.
  intros Hr%initial_resolution_key. by rewrite Hr.
Qed.

Lemma resolution_keys_sublist (items : list round_item) :
  (resolution_request <$> omap item_resolution items) `sublist_of` requests_of items.
Proof.
  induction items as [|item items IH]; simpl; [done|].
  destruct (item_resolution item) as [resolution|] eqn:Hr; simpl.
  - rewrite (item_resolution_key _ _ Hr). by constructor.
  - destruct (item_request item); simpl; [by constructor|done].
Qed.

(** The automatic decision of a request is the one its item starts with. *)
Lemma starts_decided_of items item :
  NoDup (requests_of items) -> item ∈ items -> forall request, item_request item = Some request ->
  starts_decided items request = item_resolution item.
Proof.
  intros Hnd Hin request Hrequest. unfold starts_decided.
  assert (NoDup (resolution_request <$> omap item_resolution items)) as Hkeys
    by (eapply sublist_NoDup; [done|apply resolution_keys_sublist]).
  assert (forall other, other ∈ items -> item_request other = Some request -> other = item) as Hunique.
  { intros other Hother Ho. clear Hkeys. induction items as [|x items IH]; [by apply elem_of_nil in Hin|].
    rewrite requests_of_cons in Hnd. apply NoDup_app in Hnd as (_ & Hdis & Hnd).
    apply elem_of_cons in Hin as [->|Hin], Hother as [->|Hother]; [done|..|by apply IH];
      exfalso; eapply (Hdis request); rewrite ?Hrequest, ?Ho; simpl; try set_solver;
      apply list_elem_of_omap; eauto. }
  destruct (item_resolution item) as [resolution|] eqn:Hr.
  - apply (keyed_lookup_Some resolution_request _ _ _ Hkeys). split; [apply list_elem_of_omap; by exists item|].
    apply item_resolution_key in Hr. congruence.
  - apply (keyed_lookup_None resolution_request). rewrite list_elem_of_fmap. intros (resolution & Heq & Hres).
    apply list_elem_of_omap in Hres as (other & Hother & Ho). pose proof (item_resolution_key _ _ Ho) as Hk.
    rewrite <- Heq in Hk. rewrite (Hunique _ Hother Hk) in Ho. congruence.
Qed.

Section requests.
Context (scope : ModelCallTurnScope) (call : ModelCallId) (posture : DangerousToolAutoApproval).

Lemma item_requests_ids ordinal items : request_id <$> item_requests scope call ordinal items = requests_of items.
Proof. revert ordinal. induction items as [|[|] items IH]; intros ordinal; simpl; [done|apply IH|]. f_equal. apply IH. Qed.

(** The request at a position is that of a call, numbered by the position. *)
Lemma item_requests_lookup ordinal items i request :
  item_requests scope call ordinal items !! i = Some request ->
  exists entry id closed approval proposal,
    CallItem entry id closed approval proposal ∈ items
    /\ request = from_model_proposal id (scope_session scope) (scope_turn scope) call
                   (mkToolOrdinal (ordinal + N.of_nat i)) proposal approval.
Proof.
  revert ordinal i. induction items as [|[entry payload|entry id closed approval proposal] items IH];
    intros ordinal i; simpl; [done|..].
  - intros (? & ? & ? & ? & ? & Hin & ->)%IH. do 5 eexists. split; [by right|done].
  - destruct i as [|i]; simpl.
    + intros [= <-]. do 5 eexists. split; [by left|]. by rewrite N.add_0_r.
    + intros (? & ? & ? & ? & ? & Hin & ->)%IH. do 5 eexists. split; [by right|].
      by replace (ordinal + 1 + N.of_nat i)%N with (ordinal + N.pos (Pos.of_succ_nat i))%N by lia.
Qed.

Lemma item_requests_above ordinal items :
  Forall (fun request => key_lt (mkToolOrdinal ordinal) (request_tool_ordinal request))
    (item_requests scope call (ordinal + 1) items).
Proof.
  apply Forall_lookup. intros i request (? & ? & ? & ? & ? & _ & ->)%item_requests_lookup.
  unfold key_lt, ord_key, tool_ordinal_key. cbn [request_tool_ordinal from_model_proposal tool_ordinal]. lia.
Qed.

Lemma item_requests_ascending ordinal items :
  ascending request_tool_ordinal (item_requests scope call ordinal items).
Proof.
  unfold ascending. revert ordinal. induction items as [|[|] items IH]; intros ordinal; simpl;
    [constructor|apply IH|]. constructor; [apply IH|apply item_requests_above].
Qed.

(** Sorting the requests of a round leaves them as they are. *)
Lemma item_requests_sorted ordinal items :
  sort_by_key request_tool_ordinal (item_requests scope call ordinal items)
  = item_requests scope call ordinal items.
Proof. apply sort_by_key_id, item_requests_ascending. Qed.

(** The round and the batch agree about the earliest request that waits. *)
Lemma earliest_undecided_items decisions ordinal items :
  Forall (continues posture) items ->
  (forall item request, item ∈ items -> item_request item = Some request ->
     decisions !! request = item_resolution item) ->
  earliest_undecided (item_requests scope call ordinal items) decisions = head (omap item_undecided items).
Proof.
  intros Hall. revert ordinal. induction Hall as [|[entry payload|entry id closed approval proposal] items [Hi _] _ IH];
    intros ordinal Hdecisions; simpl; [done|..].
  - apply IH. intros item request Hin. apply Hdecisions. by right.
  - destruct closed as [closed|].
    { destruct Hi as [Hi _]. discriminate Hi. by eexists. }
    unfold earliest_undecided. simpl. unfold is_undecided at 1. simpl.
    rewrite (Hdecisions (CallItem entry id None approval proposal) id) by (done || by left). simpl.
    rewrite andb_comm. destruct (_ && _); simpl; [done|].
    apply IH. intros item request Hin. apply Hdecisions. by right.
Qed.
End requests.

Section batch.
Context {Snap : Type} `{ContextSnapshotsLaws Snap, !SnapshotCandidates Snap, !SnapshotCandidatesLaws Snap}.
Context (source_token derived_token : ContentToken).

(** The stored batch with the requests and decisions of a round, before any
    attempt. *)
Definition fresh_batch session turn call (yielded : Snap) requests approvals phase :
    ToolBatchReconstitutionInput Snap :=
  mkBatchInput session turn call yielded requests approvals [] [] [] [] phase.

(** A phase a round may leave the batch in. *)
Definition waits_for (undecided : option ToolRequestId) (phase : ToolBatchPhaseReconstitutionInput) : Prop :=
  match phase with
  | StoredAwaitingApproval request => undecided = Some request
  | StoredExecuting _ => undecided = None
  | _ => False
  end.

Lemma inadmissible_starts_undecided posture entry request closed approval proposal :
  item_admitted posture (CallItem entry request closed approval proposal) ->
  is_Some (proposal_inadmissible_reason proposal) -> initial_resolution approval request = None.
Proof.
  unfold item_admitted, initial_approval_admitted. intros Hadmitted Hreason.
  rewrite (bool_decide_eq_true_2 _ Hreason) in Hadmitted.
  apply andb_true_iff in Hadmitted as [[_ Ha]%andb_true_iff _]. by destruct approval.
Qed.

Section legal.
Context (scope : ModelCallTurnScope) (call : ModelCallId) (posture : DangerousToolAutoApproval).
Context (items : list round_item) (entries : gset SemanticTranscriptEntryId) (used : gset ToolRequestId).
Context (yielded : Snap) (phase : ToolBatchPhaseReconstitutionInput).
Context (Hfit : items_fit posture items entries used 0) (Hpaired : Forall (well_paired false) items).
Let requests := item_requests scope call 0 items.
Let approvals := omap item_resolution items.
Let input := fresh_batch (scope_session scope) (scope_turn scope) call yielded requests approvals phase.

Lemma items_continue : Forall (continues posture) items.
Proof. destruct Hfit. by apply Forall_and. Qed.

Lemma round_decisions item request :
  item ∈ items -> item_request item = Some request ->
  keyed resolution_request approvals !! request = item_resolution item.
Proof. intros Hin Hrequest. apply (starts_decided_of items item); [by destruct Hfit|done..]. Qed.

Lemma round_requests_legal : requests_legal input requests.
Proof.
  destruct Hfit as [_ _ Hnd _ _ Hord]. split; [unfold requests; by rewrite item_requests_ids|].
  intros i request Hi. assert (i < length (requests_of items)) as Hlen.
  { rewrite <- (item_requests_length scope call 0). by eapply lookup_lt_Some. }
  apply item_requests_lookup in Hi as (? & id & ? & approval & proposal & _ & ->).
  split; [done|]. cbn [request_tool_ordinal from_model_proposal]. unfold tool_ordinal_try_from_usize.
  rewrite N.add_0_l. destruct (N.leb_spec (N.of_nat i) u32_max); [done|].
  destruct Hord; simpl in *; lia.
Qed.

(** The automatic decisions name admissible requests of the round. *)
Lemma round_approvals_legal :
  NoDup (resolution_request <$> approvals) /\ forall a, a ∈ approvals -> approvable requests a.
Proof.
  split; [eapply sublist_NoDup; [apply (fit_requests _ _ _ _ _ Hfit)|apply resolution_keys_sublist]|].
  intros a (item & Hin & Hitem)%list_elem_of_omap. pose proof (item_resolution_key _ _ Hitem) as Hkey.
  split.
  - assert (resolution_request a ∈ request_id <$> requests) as (request & Heq & Hr)%list_elem_of_fmap; [|by exists request].
    unfold requests. rewrite item_requests_ids. apply list_elem_of_omap. by exists item.
  - intros request (i & Hi)%list_elem_of_lookup Heq.
    apply item_requests_lookup in Hi as (entry & id & closed & approval & proposal & Hcall & ->). simpl in Heq.
    pose proof (round_decisions _ _ Hcall eq_refl) as H1. rewrite Heq in H1.
    rewrite (round_decisions _ _ Hin Hkey), Hitem in H1.
    cbn [request_inadmissible_reason from_model_proposal].
    destruct (proposal_inadmissible_reason proposal) eqn:Hreason; [|done].
    assert (initial_resolution approval id = None) as Hnone.
    { eapply inadmissible_starts_undecided; [|by eexists]. destruct Hfit as [_ _ _ _ Hadmitted _].
      rewrite Forall_forall in Hadmitted. apply (Hadmitted _ Hcall). }
    destruct closed; simpl in H1; congruence.
Qed.

Lemma automatic_sources request decision :
  keyed resolution_request approvals !! request = Some decision ->
  requires_ordered_prefix (resolution_source decision) = false.
Proof.
  intros [Hin _]%(keyed_lookup_Some resolution_request); [|apply round_approvals_legal].
  apply list_elem_of_omap in Hin as ([|entry id [closed|] approval proposal] & _ & Ha); simplify_eq/=.
  destruct approval; by simplify_eq/=.
Qed.

Lemma round_batch_legal :
  requests_of items <> [] -> owning_session (snapshot_frontier yielded) = scope_session scope ->
  waits_for (head (omap item_undecided items)) phase -> batch_legal input.
Proof.
  intros Hnonempty Hsession Hphase.
  assert (sort_by_key request_tool_ordinal (stored_requests input) = requests) as Hsorted
    by apply item_requests_sorted.
  assert (earliest_undecided requests (keyed resolution_request approvals) = head (omap item_undecided items))
    as Hearliest.
  { apply (earliest_undecided_items _ _ posture); [apply items_continue|apply round_decisions]. }
  constructor; rewrite ?Hsorted.
  - intros Hempty. apply Hnonempty. simpl in Hempty. unfold requests in Hempty.
    by rewrite <- (item_requests_ids scope call 0), Hempty.
  - done.
  - apply round_requests_legal.
  - apply round_approvals_legal.
  - intros request decision _ Ha%automatic_sources Hs. by rewrite Hs in Ha.
  - intros i j request later decision _ _ _ _ Ha. by eapply automatic_sources.
  - split_and!; [apply NoDup_nil_2|apply NoDup_nil_2|by intros a Ha%elem_of_nil].
  - split; [apply NoDup_nil_2|by intros a Ha%elem_of_nil].
  - split; [apply NoDup_nil_2|by intros a Ha%elem_of_nil].
  - intros j later attempt _ Ha. done.
  - unfold phase_legal, waits_for in *. simpl. rewrite Hearliest. destruct phase; try done.
    split; [done|]. split; [by intros a Ha%elem_of_nil|]. split; [done|].
    split; [apply NoDup_nil_2|by intros a Ha%elem_of_nil].
Qed.
End legal.

(** The stored form of the phase a turn is in. *)
Definition stored_as (phase : ActiveTurnPhase) (stored : ToolBatchPhaseReconstitutionInput) : Prop :=
  match phase, stored with
  | AwaitingApproval request, StoredAwaitingApproval waiting => request = waiting
  | Running attempt, StoredExecuting continuation => attempt = prepared continuation
  | _, _ => False
  end.

Lemma round_phase_stored undecided continuation yielded phase :
  round_phase undecided continuation yielded = Ok phase ->
  exists stored, stored_as phase stored /\ waits_for undecided stored.
Proof.
  unfold round_phase. destruct undecided as [request|], continuation as [continuation|]; try done.
  - intros [= <-]. by exists (StoredAwaitingApproval request).
  - case_bool_decide; [done|]. intros [= <-]. by exists (StoredExecuting continuation).
Qed.

(** A response with a tool call has a request. *)
Lemma round_items_requests response parts items :
  tool_response_try_from_parts (tool_response_parts response) = Ok response ->
  round_items response parts = Some items -> requests_of items <> [].
Proof.
  unfold tool_response_try_from_parts, round_items. rewrite if_decide_Some.
  destruct (length _ =? 0) eqn:Hcount; [done|]. intros _ [Hlen Hitems%mapM_Some]. apply Nat.eqb_neq in Hcount.
  intros Hempty. apply Hcount. clear Hcount. revert parts items Hlen Hitems Hempty.
  induction (tool_response_parts response) as [|part response_parts IH];
    intros [|id parts] items Hlen Hitems Hempty; try done. injection Hlen as Hlen.
  apply Forall2_cons_inv_l in Hitems as (item & items' & Hitem & Hitems & ->).
  destruct part, id; simplify_eq/=; by eapply IH.
Qed.

(** C6. The requests and automatic decisions of a yielded round, stored without an
    attempt in the phase the turn was given, are a legal batch: it is
    reconstituted with exactly these requests in proposal order, and it waits
    for the earliest request the round left undecided, or executes in the
    continuation attempt when there is none. *)
Theorem tool_round_reconstitutes self observation ids turn store
    (Hresponse : forall response input output,
       observed_observation observation = ObservedWithTools response input output ->
       tool_response_try_from_parts (tool_response_parts response) = Ok response)
    (Hok : execution_apply_terminal_observation source_token derived_token self observation ids
           = Ok (OutcomeToolRound turn)) :
  exists phase cells store',
    let input := fresh_batch (round_session turn) (round_turn turn) (ended_call_id (round_call turn))
                   (round_yielded_snapshot turn) (round_requests turn) (round_automatic_approvals turn)
                   phase in
    stored_as (round_next_phase turn) phase
    /\ reconstitute_batch store input = Ok (batch_of input cells, store')
    /\ sort_by_key request_tool_ordinal (stored_requests input) = round_requests turn.
Proof.
  apply apply_observation_Ok in Hok as (call & steering & _ & _ & Hc).
  inversion Hc as [|response input output ids' items phase snapshot Hproof Hitems Hfit Hphase Hrebuilt Hseen| | | | | | |];
    simplify_eq/=. cbn [round_next_phase round_session round_turn round_call round_yielded_snapshot
      round_requests round_automatic_approvals].
  apply round_phase_stored in Hphase as (stored & Hstored & Hwaits).
  destruct (rebuilt_appends _ _ _ _ _ _ _ _ Hrebuilt) as (_ & Hfrontier & _).
  pose proof (round_items_requests response _ _ (Hresponse _ _ _ (eq_sym Hseen)) Hitems) as Hnonempty.
  destruct (round_items_exact _ _ _ Hitems) as [Hpaired _].
  edestruct (reconstitute_batch_legal store) as (cells & store' & Hbatch & _).
  { eapply (round_batch_legal (execution_scope self)); [exact Hfit|exact Hpaired|exact Hnonempty| |exact Hwaits].
    by rewrite Hfrontier. }
  exists stored, cells, store'. split; [done|]. split; [exact Hbatch|]. apply item_requests_sorted.
Qed.
End batch.

(** ** Witness *)

Definition sample_proposal : ToolCallProposal :=
  mkProposal (mkToolName (lit "clock")) (mkArguments JsonArguments (lit "{}")) false None.
Definition sample_response : ToolUsingAssistantResponse := mkToolResponse [ResponseToolCall sample_proposal] 1.
Definition sample_round_identities : ModelCallTerminalIdentities :=
  IdentitiesToolRound (mkToolRoundIdentities
    [ToolCallIdentity (from_uuid 51) (from_uuid 61) InitialHuman] (from_uuid 7) None).
Definition sample_with_tools : CorrelatedModelCallTerminalObservation :=
  sample_seen (ObservedWithTools sample_response None None).
Definition sample_round :=
  execution_apply_terminal_observation 1%positive 2%positive sample_execution sample_with_tools
    sample_round_identities.

Lemma tool_round_reconstitutes_witness :
  exists turn phase batch store', sample_round = Ok (OutcomeToolRound turn)
    /\ stored_as (round_next_phase turn) phase
    /\ reconstitute_batch ∅
         (fresh_batch (round_session turn) (round_turn turn) (ended_call_id (round_call turn))
            (round_yielded_snapshot turn) (round_requests turn) (round_automatic_approvals turn) phase)
       = Ok (batch, store').
Proof.
  assert (match sample_round with Ok (OutcomeToolRound _) => true | _ => false end = true) as Hround
    by (vm_compute; reflexivity).
  destruct sample_round as [[|turn| | | | | |]|] eqn:Hok; try discriminate Hround.
  destruct (tool_round_reconstitutes 1%positive 2%positive sample_execution sample_with_tools
    sample_round_identities turn ∅) as (phase & cells & store' & Hphase & Hbatch & _).
  - intros response input output [= <- _ _]. reflexivity.
  - exact Hok.
  - exists turn, phase. do 2 eexists. split; [reflexivity|]. split; [exact Hphase|exact Hbatch].
Defined.
