(* ===== verification/RunnerNames.v ===== *)
(** * Runner names

    Model of [crates/domain/src/runner/names.rs]: the checked texts runners,
    placements and workspaces are named by, the selector of a runner, and the
    errors of the runner aggregates. Names are ordered as their texts: the
    bytes of UTF-8 compare as the scalars they encode. *)

From stdpp Require Import strings.
From S2P Require Import Prelude TurnLifecycle Tool ModelExecution.

Local Open Scope list_scope.

(** ** The order of texts *)

(** [Ord for str] *)
Fixpoint text_leb (a b : text) : bool :=
  match a, b with
  | [], _ => true
  | _ :: _, [] => false
  | c :: a, d :: b => (c <? d)%N || ((c =? d)%N && text_leb a b)
  end.

(** A newtype over a text, ordered by it. *)
Class TextKey (K : Type) := text_key : K -> text.
Class TextKeyInj (K : Type) `{TextKey K} := text_key_inj :: Inj (=) (=) (@text_key K _).

Definition text_key_le `{TextKey K} : relation K := fun a b => text_leb (text_key a) (text_key b) = true.

#[export] Instance text_key_le_dec `{TextKey K} : RelDecision (text_key_le (K := K)).
Proof. intros a b. unfold text_key_le. apply _. Defined.

(** Iteration over a [BTreeSet] of names. *)
Definition names_iter `{Countable K, TextKey K} (names : gset K) : list K :=
  merge_sort text_key_le (elements names).

(** Iteration over a [BTreeMap] by name. *)
Definition named_le {V} `{TextKey K} : relation (K * V) := fun a b => text_key_le a.1 b.1.
#[export] Instance named_le_dec {V} `{TextKey K} : RelDecision (named_le (V := V) (K := K)).
Proof. intros a b. unfold named_le. apply _. Defined.
Definition named_iter {V} `{Countable K, TextKey K} (m : gmap K V) : list (K * V) :=
  merge_sort named_le (map_to_list m).

(** ** Texts *)

(** [str::split(separator)]: the parts between the separators. *)
Fixpoint split_on (separator : N) (value : text) : list text :=
  match value with
  | [] => [[]]
  | c :: rest =>
      if (c =? separator)%N then [] :: split_on separator rest
      else match split_on separator rest with
           | part :: parts => (c :: part) :: parts
           | [] => [[c]]
           end
  end.

(** [str::starts_with(prefix)] *)
Fixpoint text_starts_with (prefix value : text) : bool :=
  match prefix, value with
  | [], _ => true
  | _ :: _, [] => false
  | c :: prefix, d :: value => (c =? d)%N && text_starts_with prefix value
  end.

(** [str::ends_with(suffix)] *)
Definition text_ends_with (suffix value : text) : bool :=
  text_starts_with (reverse suffix) (reverse value).

(** [str::contains(pattern)] *)
Fixpoint text_contains (pattern value : text) : bool :=
  text_starts_with pattern value
  || match value with [] => false | _ :: rest => text_contains pattern rest end.

(** [u8::is_ascii_digit] and [u8::is_ascii_alphanumeric]: the bytes of a
    scalar above the ASCII range are neither. *)
Definition is_digit_scalar (c : N) : bool := ((48 <=? c) && (c <=? 57))%N.
Definition is_alphanumeric_scalar (c : N) : bool :=
  is_digit_scalar c || ((65 <=? c) && (c <=? 90))%N || ((97 <=? c) && (c <=? 122))%N.

(** ** Checked names *)

Record RunnerCapabilityClass := mkCapabilityClass { capability_class_value : text }.
Record CredentialProfileName := mkProfileName { profile_name_value : text }.
Record RunnerWorkingDirectory := mkWorkingDirectory { working_directory_value : text }.
Record WorkspaceRepositoryKey := mkRepositoryKey { repository_key_value : text }.
Record CanonicalCloneUrlDigest := mkCloneUrlDigest { clone_url_digest_value : text }.
Record WorkspaceRevision := mkWorkspaceRevision { workspace_revision_value : text }.
Record WorkspaceBranchName := mkBranchName { branch_name_value : text }.
Record WorkspaceRelativePath := mkRelativePath { relative_path_value : text }.

Inductive WorkspaceRecovery :=
| RecoverCommit (revision : WorkspaceRevision)
| RecoverBranch (name : WorkspaceBranchName) (revision : WorkspaceRevision)
| RecoverUnbornBranch (name : WorkspaceBranchName).

Inductive RunnerSelector :=
| SelectIdentity (runner : RunnerId)
| SelectCapabilityClass (class : RunnerCapabilityClass).

(** Of runner/catalog.rs. *)
Inductive WorkspaceCapability := WorktreePerSession.

Inductive RunnerDomainError :=
| NameEmpty | NameContainsNull | NameTooLong | InvalidName | InvalidHex | InvalidBranchName
| InvalidRelativePath | InvalidToolInputSchema
| DuplicateCapabilityClass (class : RunnerCapabilityClass)
| DuplicateTool (tool : ToolName)
| DuplicateProfile (profile : CredentialProfileName)
| DuplicateWorkspaceCapability (capability : WorkspaceCapability)
| DuplicateSandboxProfile (sandbox : RunnerSandboxProfile)
| TooManyPermissionOverrides | TooManyAdvertisedRepositories
| UndeclaredProfileTool (tool : ToolName)
| UnsupportedDaemonIdempotency (tool : ToolName)
| EnrollmentRevoked
| CapabilityClassNotAllowed (class : RunnerCapabilityClass)
| ToolUndeclared (tool : ToolName)
| ToolLocusNotAllowed (tool : ToolName)
| CredentialProfileUndeclared (profile : CredentialProfileName)
| WorkspaceCapabilityNotAllowed (capability : WorkspaceCapability)
| SandboxProfileNotAllowed (sandbox : RunnerSandboxProfile)
| RepositoryProfileUnavailable (profile : CredentialProfileName)
| RunnerStateInvalid | RunnerFactsMismatch | RunnerGenerationExhausted | RunnerAttemptReuse
| SelectorMismatch | CredentialProfileUnavailable | WorkingDirectoryMismatch
| WorkspaceCapabilityUnavailable | SandboxProfileUnavailable | RepositoryUnavailable
| WorkspaceMismatch | RunnerToolUnavailable | GrantRevoked | RegistrationChanged
| RegistrationInProgress | CorruptRunnerFacts.

Abbreviation runner_result := (result RunnerDomainError).

#[export] Instance RunnerCapabilityClass_eq_dec : EqDecision RunnerCapabilityClass.
Proof. solve_decision. Defined.
#[export] Instance CredentialProfileName_eq_dec : EqDecision CredentialProfileName.
Proof. solve_decision. Defined.
#[export] Instance RunnerWorkingDirectory_eq_dec : EqDecision RunnerWorkingDirectory.
Proof. solve_decision. Defined.
#[export] Instance WorkspaceRepositoryKey_eq_dec : EqDecision WorkspaceRepositoryKey.
Proof. solve_decision. Defined.
#[export] Instance CanonicalCloneUrlDigest_eq_dec : EqDecision CanonicalCloneUrlDigest.
Proof. solve_decision. Defined.
#[export] Instance WorkspaceRevision_eq_dec : EqDecision WorkspaceRevision.
Proof. solve_decision. Defined.
#[export] Instance WorkspaceBranchName_eq_dec : EqDecision WorkspaceBranchName.
Proof. solve_decision. Defined.
#[export] Instance WorkspaceRelativePath_eq_dec : EqDecision WorkspaceRelativePath.
Proof. solve_decision. Defined.
#[export] Instance WorkspaceRecovery_eq_dec : EqDecision WorkspaceRecovery.
Proof. solve_decision. Defined.
#[export] Instance RunnerSelector_eq_dec : EqDecision RunnerSelector.
Proof. solve_decision. Defined.
#[export] Instance WorkspaceCapability_eq_dec : EqDecision WorkspaceCapability.
Proof. solve_decision. Defined.
#[export] Instance RunnerSandboxProfile_eq_dec' : EqDecision RunnerSandboxProfile.
Proof. solve_decision. Defined.

#[export] Instance RunnerCapabilityClass_countable : Countable RunnerCapabilityClass.
Proof. by apply (inj_countable' capability_class_value mkCapabilityClass); intros []. Defined.
#[export] Instance CredentialProfileName_countable : Countable CredentialProfileName.
Proof. by apply (inj_countable' profile_name_value mkProfileName); intros []. Defined.
#[export] Instance WorkspaceRepositoryKey_countable : Countable WorkspaceRepositoryKey.
Proof. by apply (inj_countable' repository_key_value mkRepositoryKey); intros []. Defined.
#[export] Instance ToolName_countable : Countable ToolName.
Proof. by apply (inj_countable' tool_name_value mkToolName); intros []. Defined.
#[export] Instance WorkspaceCapability_countable : Countable WorkspaceCapability.
Proof. by apply (inj_countable' (fun _ => tt) (fun _ => WorktreePerSession)); intros []. Defined.
#[export] Instance RunnerSandboxProfile_countable : Countable RunnerSandboxProfile.
Proof.
  by apply (inj_countable' (fun s => match s with SandboxAmbient => false | _ => true end)
    (fun b : bool => if b then SandboxWorkspaceRestricted else SandboxAmbient)); intros [].
Defined.

#[export] Instance RunnerCapabilityClass_key : TextKey RunnerCapabilityClass := capability_class_value.
#[export] Instance CredentialProfileName_key : TextKey CredentialProfileName := profile_name_value.
#[export] Instance WorkspaceRepositoryKey_key : TextKey WorkspaceRepositoryKey := repository_key_value.
#[export] Instance ToolName_key : TextKey ToolName := tool_name_value.
#[export] Instance RunnerCapabilityClass_key_inj : TextKeyInj RunnerCapabilityClass.
Proof. intros [x] [y]. cbv. congruence. Qed.
#[export] Instance CredentialProfileName_key_inj : TextKeyInj CredentialProfileName.
Proof. intros [x] [y]. cbv. congruence. Qed.
#[export] Instance WorkspaceRepositoryKey_key_inj : TextKeyInj WorkspaceRepositoryKey.
Proof. intros [x] [y]. cbv. congruence. Qed.
#[export] Instance ToolName_key_inj : TextKeyInj ToolName.
Proof. intros [x] [y]. cbv. congruence. Qed.

(** ** Validation *)

Definition NAME_MAX_BYTES : N := 64.
Definition EXACT_VALUE_MAX_BYTES : N := 4096.
Definition WORKSPACE_BRANCH_MAX_BYTES : N := 255.

Definition is_name_scalar (c : N) : bool :=
  is_alphanumeric_scalar c || (c =? 46)%N || (c =? 95)%N || (c =? 45)%N.

Definition validate_runner_name (value : text) : runner_result text :=
  if bool_decide (value = []) then Err NameEmpty else
  if text_contains_null value then Err NameContainsNull else
  if (NAME_MAX_BYTES <? text_len value)%N then Err NameTooLong else
  if negb match value with c :: _ => is_alphanumeric_scalar c | [] => false end
     || negb (forallb is_name_scalar value)
  then Err InvalidName else Ok value.

Definition validate_exact (value : text) : runner_result text :=
  if bool_decide (value = []) then Err NameEmpty else
  if text_contains_null value then Err NameContainsNull else
  if (EXACT_VALUE_MAX_BYTES <? text_len value)%N then Err NameTooLong else Ok value.

Definition is_lower_hex_scalar (c : N) : bool :=
  is_digit_scalar c || ((97 <=? c) && (c <=? 102))%N.

Definition validate_lower_hex (value : text) (lengths : list N) : runner_result text :=
  if negb (existsb (N.eqb (text_len value)) lengths) || negb (forallb is_lower_hex_scalar value)
  then Err InvalidHex else Ok value.

Definition capability_class_try_new (value : text) : runner_result RunnerCapabilityClass :=
  mkCapabilityClass <$> validate_runner_name value.
Definition profile_name_try_new (value : text) : runner_result CredentialProfileName :=
  mkProfileName <$> validate_runner_name value.
Definition working_directory_try_new (value : text) : runner_result RunnerWorkingDirectory :=
  mkWorkingDirectory <$> validate_exact value.
Definition repository_key_try_new (value : text) : runner_result WorkspaceRepositoryKey :=
  mkRepositoryKey <$> validate_runner_name value.
Definition clone_url_digest_try_new (value : text) : runner_result CanonicalCloneUrlDigest :=
  mkCloneUrlDigest <$> validate_lower_hex value [64%N].
Definition workspace_revision_try_new (value : text) : runner_result WorkspaceRevision :=
  mkWorkspaceRevision <$> validate_lower_hex value [40%N; 64%N].

(** A byte the branch name may not hold; every byte of a longer scalar is
    above 0x7f. *)
Definition is_forbidden_branch_scalar (c : N) : bool :=
  (c <=? 32)%N || (c =? 127)%N || existsb (N.eqb c) (lit "~^:?*[\").

Definition invalid_branch_component (component : text) : bool :=
  bool_decide (component = []) || text_starts_with (lit ".") component
  || text_ends_with (lit ".lock") component.

Definition branch_name_try_new (value : text) : runner_result WorkspaceBranchName :=
  if bool_decide (value = [])
     || (WORKSPACE_BRANCH_MAX_BYTES <? text_len value)%N
     || bool_decide (value = lit "@")
     || text_starts_with (lit "-") value
     || text_ends_with (lit ".") value
     || text_contains (lit "..") value
     || text_contains (lit "@{") value
     || existsb is_forbidden_branch_scalar value
     || existsb invalid_branch_component (split_on 47 value)
  then Err InvalidBranchName else Ok (mkBranchName value).

Definition is_traversal_component (component : text) : bool :=
  bool_decide (component = []) || bool_decide (component = lit ".")
  || bool_decide (component = lit "..").

Definition relative_path_try_new (value : text) : runner_result WorkspaceRelativePath :=
  exact ← validate_exact value;
  if text_starts_with (lit "/") exact || existsb is_traversal_component (split_on 47 exact)
  then Err InvalidRelativePath else Ok (mkRelativePath exact).

Example names_1 : relative_path_try_new (lit "sessions/a/1/repo")
  = Ok (mkRelativePath (lit "sessions/a/1/repo")).
Proof. reflexivity. Qed.
Example names_2 : relative_path_try_new (lit "a/../b") = Err InvalidRelativePath.
Proof. reflexivity. Qed.
Example names_3 : branch_name_try_new (lit "topic/a.lock") = Err InvalidBranchName.
Proof. reflexivity. Qed.
