(* ===== verification/RunnerCatalog.v ===== *)
(** * Runner catalog

    Model of [crates/domain/src/runner/catalog.rs]: the daemon's declarations of
    runner tools, profiles and capabilities, their checked catalog, and what a
    runner advertises. Maps and sets are ordered by name, so the first
    offending name is the one the code reports. The normalization of a tool's
    JSON schema belongs to [tool/arguments.rs]; a definition arrives checked. *)

From S2P Require Import Prelude TurnLifecycle Tool BatchProjection ModelExecution RunnerNames.

Local Open Scope list_scope.

(** ** Declarations *)

Inductive ToolAdmissibleLoci :=
| DaemonOnly
| RunnerOnly (selector : RunnerSelector)
| DaemonOrRunner (selector : RunnerSelector).

Definition allows_daemon (self : ToolAdmissibleLoci) : bool :=
  match self with DaemonOnly | DaemonOrRunner _ => true | RunnerOnly _ => false end.

Definition runner_selector (self : ToolAdmissibleLoci) : option RunnerSelector :=
  match self with
  | DaemonOnly => None
  | RunnerOnly selector | DaemonOrRunner selector => Some selector
  end.

Record RunnerToolModelDefinition := mkToolModel {
  model_description : text;
  model_input_schema : NormalizedToolArguments;
}.

Record RunnerToolDeclaration := mkDeclaration {
  declaration_name : ToolName;
  declaration_model : RunnerToolModelDefinition;
  declaration_permission : ToolPermissionDefault;
  declaration_effect : RunnerToolEffectClass;
  declaration_loci : ToolAdmissibleLoci;
}.

Inductive CredentialToolApproval := ApprovalAutomatic | ApprovalSessionPolicy.

Record CredentialProfilePolicy := mkProfilePolicy {
  policy_name : CredentialProfileName;
  policy_approvals : gmap ToolName CredentialToolApproval;
}.

Inductive RunnerToolPermissionOverride := OverrideAuto | OverrideConfirm.

(** [RunnerToolPermissionOverrides(BTreeMap<..>)] *)
Abbreviation RunnerToolPermissionOverrides := (gmap ToolName RunnerToolPermissionOverride).

Record RunnerRepositoryEntry := mkRepositoryEntry {
  repository_key : WorkspaceRepositoryKey;
  repository_profile : option CredentialProfileName;
}.

#[export] Instance ToolAdmissibleLoci_eq_dec : EqDecision ToolAdmissibleLoci.
Proof. solve_decision. Defined.
#[export] Instance ToolPermissionDefault_eq_dec' : EqDecision ToolPermissionDefault.
Proof. solve_decision. Defined.
#[export] Instance RunnerToolModelDefinition_eq_dec : EqDecision RunnerToolModelDefinition.
Proof. solve_decision. Defined.
#[export] Instance RunnerToolDeclaration_eq_dec : EqDecision RunnerToolDeclaration.
Proof. solve_decision. Defined.
#[export] Instance CredentialToolApproval_eq_dec : EqDecision CredentialToolApproval.
Proof. solve_decision. Defined.
#[export] Instance CredentialProfilePolicy_eq_dec : EqDecision CredentialProfilePolicy.
Proof. solve_decision. Defined.
#[export] Instance RunnerToolPermissionOverride_eq_dec : EqDecision RunnerToolPermissionOverride.
Proof. solve_decision. Defined.
#[export] Instance RunnerRepositoryEntry_eq_dec : EqDecision RunnerRepositoryEntry.
Proof. solve_decision. Defined.

Definition PERMISSION_OVERRIDE_MAX_ENTRIES : nat := 64.

(** [checked.insert(key, value).is_some()] *)
Definition insert_fresh {K V} `{Countable K} (e : K -> RunnerDomainError) (checked : gmap K V)
    (entry : K * V) : runner_result (gmap K V) :=
  let '(key, value) := entry in
  if bool_decide (is_Some (checked !! key)) then Err (e key) else Ok (<[key := value]> checked).

(** [!checked.insert(value)] *)
Definition insert_new {K} `{Countable K} (e : K -> RunnerDomainError) (checked : gset K) (value : K) :
    runner_result (gset K) :=
  if bool_decide (value ∈ checked) then Err (e value) else Ok ({[value]} ∪ checked).

(** [CredentialProfilePolicy::try_new] *)
Definition profile_policy_try_new (name : CredentialProfileName)
    (approvals : list (ToolName * CredentialToolApproval)) : runner_result CredentialProfilePolicy :=
  mkProfilePolicy name <$> try_fold (insert_fresh DuplicateTool) approvals ∅.

(** [CredentialProfilePolicy::approval_for] *)
Definition approval_for (self : CredentialProfilePolicy) (tool : ToolName) : CredentialToolApproval :=
  default ApprovalSessionPolicy (policy_approvals self !! tool).

(** [RunnerToolPermissionOverrides::try_new] *)
Definition permission_override_step (checked : RunnerToolPermissionOverrides)
    (entry : ToolName * RunnerToolPermissionOverride) : runner_result RunnerToolPermissionOverrides :=
  checked ← insert_fresh DuplicateTool checked entry;
  if PERMISSION_OVERRIDE_MAX_ENTRIES <? size checked then Err TooManyPermissionOverrides else Ok checked.

Definition permission_overrides_try_new (overrides : list (ToolName * RunnerToolPermissionOverride)) :
    runner_result RunnerToolPermissionOverrides :=
  try_fold permission_override_step overrides ∅.

Definition tool_effect_class (effect : RunnerToolEffectClass) : ToolEffectClass :=
  match effect with
  | EffectPure => EffectFree
  | EffectIdempotent | EffectSideEffecting => ExternalEffect
  end.

(** ** The catalog *)

Record RunnerCatalog := mkCatalog {
  catalog_classes : gset RunnerCapabilityClass;
  catalog_tools : gmap ToolName RunnerToolDeclaration;
  catalog_profiles : gmap CredentialProfileName CredentialProfilePolicy;
  catalog_workspaces : gset WorkspaceCapability;
  catalog_sandboxes : gset RunnerSandboxProfile;
}.

(** One iteration over the tools of [RunnerCatalog::try_new]. *)
Definition catalog_tool_step (classes : gset RunnerCapabilityClass)
    (checked : gmap ToolName RunnerToolDeclaration) (tool : RunnerToolDeclaration) :
    runner_result (gmap ToolName RunnerToolDeclaration) :=
  if bool_decide (declaration_effect tool = EffectIdempotent) && allows_daemon (declaration_loci tool)
  then Err (UnsupportedDaemonIdempotency (declaration_name tool)) else
  match runner_selector (declaration_loci tool) with
  | Some (SelectCapabilityClass class) =>
      if negb (bool_decide (class ∈ classes)) then Err (CapabilityClassNotAllowed class)
      else insert_fresh DuplicateTool checked (declaration_name tool, tool)
  | _ => insert_fresh DuplicateTool checked (declaration_name tool, tool)
  end.

(** The first approval of a profile that names no declared tool. *)
Definition undeclared_approval (tools : gmap ToolName RunnerToolDeclaration)
    (profile : CredentialProfilePolicy) : option ToolName :=
  find (fun tool => bool_decide (tools !! tool = None)) (named_iter (policy_approvals profile)).*1.

Definition check_profile (tools : gmap ToolName RunnerToolDeclaration)
    (_ : unit) (profile : CredentialProfilePolicy) : runner_result unit :=
  match undeclared_approval tools profile with
  | Some tool => Err (UndeclaredProfileTool tool)
  | None => Ok tt
  end.

(** [RunnerCatalog::try_new] *)
Definition runner_catalog_try_new (classes : list RunnerCapabilityClass)
    (tools : list RunnerToolDeclaration) (profiles : list CredentialProfilePolicy)
    (workspaces : list WorkspaceCapability) (sandboxes : list RunnerSandboxProfile) :
    runner_result RunnerCatalog :=
  checked_classes ← try_fold (insert_new DuplicateCapabilityClass) classes ∅;
  checked_tools ← try_fold (catalog_tool_step checked_classes) tools ∅;
  checked_profiles ← try_fold (fun checked profile =>
      insert_fresh DuplicateProfile checked (policy_name profile, profile)) profiles ∅;
  _ ← try_fold (check_profile checked_tools) (named_iter checked_profiles).*2 tt;
  checked_workspaces ← try_fold (insert_new DuplicateWorkspaceCapability) workspaces ∅;
  checked_sandboxes ← try_fold (insert_new DuplicateSandboxProfile) sandboxes ∅;
  Ok (mkCatalog checked_classes checked_tools checked_profiles checked_workspaces checked_sandboxes).

(** ** Advertisements *)

Record RunnerAdvertisement := mkAdvertisement {
  advertised_default_directory : option RunnerWorkingDirectory;
  advertised_classes : gset RunnerCapabilityClass;
  advertised_tools : gset ToolName;
  advertised_profiles : gset CredentialProfileName;
  advertised_workspaces : gset WorkspaceCapability;
  advertised_sandboxes : gset RunnerSandboxProfile;
  advertised_repositories : gmap WorkspaceRepositoryKey RunnerRepositoryEntry;
}.

Definition MAX_REPOSITORIES : nat := 64.

(** [RunnerAdvertisement::new] *)
Definition advertisement_new (classes : list RunnerCapabilityClass) (tools : list ToolName)
    (profiles : list CredentialProfileName) (workspaces : list WorkspaceCapability)
    (sandboxes : list RunnerSandboxProfile) (repositories : list RunnerRepositoryEntry) :
    RunnerAdvertisement :=
  mkAdvertisement None (list_to_set classes) (list_to_set tools) (list_to_set profiles)
    (list_to_set workspaces) (list_to_set sandboxes)
    (btree_collect ((fun entry => (repository_key entry, entry)) <$> repositories)).

Definition with_default_working_directory (self : RunnerAdvertisement)
    (directory : option RunnerWorkingDirectory) : RunnerAdvertisement :=
  mkAdvertisement directory (advertised_classes self) (advertised_tools self)
    (advertised_profiles self) (advertised_workspaces self) (advertised_sandboxes self)
    (advertised_repositories self).
