(* ===== verification/RunnerEnrollment.v ===== *)
(** * Runner enrollment and registration

    Model of [crates/domain/src/runner/enrollment.rs]: the logical enrollment
    of a runner, the validation of what it advertises, and the revisions of
    its registrations. An enrollment, its prepared registrations and its
    registrations share three atomics: the last issued revision, whether the
    enrollment is active, and whether a preparation is outstanding. An [Arc] is
    the address of a cell in a store every operation threads; a preparation
    and a commit are given as the atomic steps they take. *)

From S2P Require Import Prelude TurnLifecycle Tool BatchProjection ModelExecution RunnerNames RunnerCatalog.

Local Open Scope list_scope.

(** ** Shared cells *)

(** [AtomicU64] and [AtomicBool] cells; a flag is 0 or 1. *)
Abbreviation FenceStore := (gmap positive N).
Abbreviation FenceCell := positive (only parsing).

Definition load (store : FenceStore) (cell : FenceCell) : N := default 0%N (store !! cell).
Definition load_flag (store : FenceStore) (cell : FenceCell) : bool := (load store cell =? 1)%N.
Definition fence_compare_exchange (store : FenceStore) (cell : FenceCell) (expected new : N) :
    bool * FenceStore :=
  if (load store cell =? expected)%N then (true, <[cell := new]> store) else (false, store).
(** [Arc::new(Atomic..::new(value))] *)
Definition new_fence (store : FenceStore) (value : N) : FenceCell * FenceStore :=
  let cell := fresh (dom store) in (cell, <[cell := value]> store).

(** ** Data *)

Inductive RunnerEnrollmentState := EnrollmentPending | EnrollmentActive | EnrollmentRevokedState.

Record RunnerEnrollment := mkEnrollment {
  enrollment_id : RunnerEnrollmentId;
  enrollment_runner : RunnerId;
  enrollment_authentication : RunnerAuthenticationId;
  enrollment_allowed_classes : gset RunnerCapabilityClass;
  enrollment_state : RunnerEnrollmentState;
  enrollment_revision_cell : FenceCell;
  enrollment_active_cell : FenceCell;
  enrollment_preparation_cell : FenceCell;
}.

Record ValidatedRunnerRegistration := mkRegistration {
  registration_enrollment : RunnerEnrollmentId;
  registration_runner : RunnerId;
  registration_authentication : RunnerAuthenticationId;
  registration_catalog_tools : gset ToolName;
  registration_classes : gset RunnerCapabilityClass;
  registration_tools : gmap ToolName RunnerToolDeclaration;
  registration_profiles : gmap CredentialProfileName CredentialProfilePolicy;
  registration_workspaces : gset WorkspaceCapability;
  registration_sandboxes : gset RunnerSandboxProfile;
  registration_default_directory : option RunnerWorkingDirectory;
  registration_repositories : gmap WorkspaceRepositoryKey RunnerRepositoryEntry;
  registration_revision : RunnerGeneration;
  registration_revision_cell : FenceCell;
  registration_active_cell : FenceCell;
}.

Record PreparedRunnerRegistration := mkPreparedRegistration {
  prepared_expected_revision : N;
  prepared_preparation_cell : FenceCell;
  prepared_registration : ValidatedRunnerRegistration;
}.

#[export] Instance RunnerEnrollmentState_eq_dec : EqDecision RunnerEnrollmentState.
Proof. solve_decision. Defined.

Definition set_enrollment_state (self : RunnerEnrollment) (state : RunnerEnrollmentState) :
    RunnerEnrollment :=
  mkEnrollment (enrollment_id self) (enrollment_runner self) (enrollment_authentication self)
    (enrollment_allowed_classes self) state (enrollment_revision_cell self)
    (enrollment_active_cell self) (enrollment_preparation_cell self).

(** ** Enrollment *)

Definition enrollment_with_cells (store : FenceStore) (enrollment : RunnerEnrollmentId)
    (runner : RunnerId) (authentication : RunnerAuthenticationId)
    (allowed_classes : gset RunnerCapabilityClass) (state : RunnerEnrollmentState) (revision : N)
    (active : bool) : RunnerEnrollment * FenceStore :=
  let '(revision_cell, store) := new_fence store revision in
  let '(active_cell, store) := new_fence store (if active then 1%N else 0%N) in
  let '(preparation_cell, store) := new_fence store 0 in
  (mkEnrollment enrollment runner authentication allowed_classes state revision_cell active_cell
     preparation_cell, store).

Definition enrollment_new (store : FenceStore) (enrollment : RunnerEnrollmentId) (runner : RunnerId)
    (authentication : RunnerAuthenticationId) (allowed_classes : list RunnerCapabilityClass) :
    RunnerEnrollment * FenceStore :=
  enrollment_with_cells store enrollment runner authentication (list_to_set allowed_classes)
    EnrollmentActive 0 true.

Definition last_issued_registration_revision (store : FenceStore) (self : RunnerEnrollment) :
    option RunnerGeneration :=
  runner_generation_try_from_u64 (load store (enrollment_revision_cell self)).

Definition promote_pending_in_place (store : FenceStore) (self : RunnerEnrollment) :
    runner_result RunnerEnrollment * FenceStore :=
  if negb (bool_decide (enrollment_state self = EnrollmentPending)) then (Err RunnerStateInvalid, store)
  else (Ok (set_enrollment_state self EnrollmentActive), <[enrollment_active_cell self := 1%N]> store).

Definition revoke_in_place (store : FenceStore) (self : RunnerEnrollment) :
    runner_result RunnerEnrollment * FenceStore :=
  if negb (bool_decide (enrollment_state self = EnrollmentActive)) then (Err RunnerStateInvalid, store)
  else (Ok (set_enrollment_state self EnrollmentRevokedState),
        <[enrollment_active_cell self := 0%N]> store).

(** ** Registration *)

Definition first_outside {K} `{Countable K, TextKey K} (admitted : K -> bool) (names : gset K) :
    option K := find (fun name => negb (admitted name)) (names_iter names).

(** [BTreeSet<WorkspaceCapability>] has one element at most, and
    [RunnerSandboxProfile] is ordered as declared. *)
Definition sandboxes_iter (sandboxes : gset RunnerSandboxProfile) : list RunnerSandboxProfile :=
  filter (fun sandbox => sandbox ∈ sandboxes) [SandboxAmbient; SandboxWorkspaceRestricted].

Definition refuse {A} (e : A -> RunnerDomainError) (offending : option A) : runner_result unit :=
  match offending with Some name => Err (e name) | None => Ok tt end.

Definition locus_admits (self : RunnerEnrollment) (advertisement : RunnerAdvertisement)
    (catalog : RunnerCatalog) (tool : ToolName) : bool :=
  match catalog_tools catalog !! tool with
  | None => false
  | Some declaration =>
      match runner_selector (declaration_loci declaration) with
      | Some (SelectIdentity runner) => bool_decide (runner = enrollment_runner self)
      | Some (SelectCapabilityClass class) => bool_decide (class ∈ advertised_classes advertisement)
      | None => false
      end
  end.

(** [entry.credential_profile.filter(..)]: the profile an entry needs and the
    advertisement lacks. *)
Definition missing_profile (advertisement : RunnerAdvertisement) (entry : RunnerRepositoryEntry) :
    option CredentialProfileName :=
  profile ← repository_profile entry;
  if bool_decide (profile ∈ advertised_profiles advertisement) then None else Some profile.

(** The checks of [prepare_registration] under its preparation fence. *)
Definition check_advertisement (self : RunnerEnrollment) (advertisement : RunnerAdvertisement)
    (catalog : RunnerCatalog) : runner_result unit :=
  _ ← refuse CapabilityClassNotAllowed (first_outside (fun class =>
        bool_decide (class ∈ enrollment_allowed_classes self)
        && bool_decide (class ∈ catalog_classes catalog)) (advertised_classes advertisement));
  _ ← refuse ToolUndeclared (first_outside (fun tool =>
        bool_decide (is_Some (catalog_tools catalog !! tool))) (advertised_tools advertisement));
  _ ← refuse ToolLocusNotAllowed (first_outside (locus_admits self advertisement catalog)
        (advertised_tools advertisement));
  _ ← refuse CredentialProfileUndeclared (first_outside (fun profile =>
        bool_decide (is_Some (catalog_profiles catalog !! profile))) (advertised_profiles advertisement));
  _ ← refuse WorkspaceCapabilityNotAllowed (find (fun workspace =>
        negb (bool_decide (workspace ∈ catalog_workspaces catalog)))
        (elements (advertised_workspaces advertisement)));
  _ ← refuse SandboxProfileNotAllowed (find (fun sandbox =>
        negb (bool_decide (sandbox ∈ catalog_sandboxes catalog)))
        (sandboxes_iter (advertised_sandboxes advertisement)));
  refuse RepositoryProfileUnavailable
    (head (omap (missing_profile advertisement) (named_iter (advertised_repositories advertisement)).*2)).

(** The loops that pair the advertised names with their declarations. *)
Definition collect_declared {K V} `{Countable K} (e : K -> RunnerDomainError) (declared : gmap K V)
    (collected : gmap K V) (name : K) : runner_result (gmap K V) :=
  value ← ok_or (declared !! name) (e name); Ok (<[name := value]> collected).

(** [prepare_registration] up to the claim of the preparation fence. *)
Definition begin_preparation (store : FenceStore) (self : RunnerEnrollment)
    (advertisement : RunnerAdvertisement) : runner_result unit * FenceStore :=
  if negb (bool_decide (enrollment_state self = EnrollmentActive)) then (Err EnrollmentRevoked, store) else
  if MAX_REPOSITORIES <? size (advertised_repositories advertisement)
  then (Err TooManyAdvertisedRepositories, store) else
  let '(claimed, store) := fence_compare_exchange store (enrollment_preparation_cell self) 0 1 in
  if claimed then (Ok tt, store) else (Err RegistrationInProgress, store).

(** The rest of it: the one load of the revision, under the fence. *)
Definition validate_advertisement (store : FenceStore) (self : RunnerEnrollment)
    (advertisement : RunnerAdvertisement) (catalog : RunnerCatalog) :
    runner_result PreparedRunnerRegistration :=
  _ ← check_advertisement self advertisement catalog;
  tools ← try_fold (collect_declared ToolUndeclared (catalog_tools catalog))
    (names_iter (advertised_tools advertisement)) ∅;
  profiles ← try_fold (collect_declared CredentialProfileUndeclared (catalog_profiles catalog))
    (names_iter (advertised_profiles advertisement)) ∅;
  let prior_revision := load store (enrollment_revision_cell self) in
  revision ← ok_or (u64_checked_add prior_revision 1 ≫= runner_generation_try_from_u64)
    RunnerGenerationExhausted;
  Ok (mkPreparedRegistration prior_revision (enrollment_preparation_cell self)
        (mkRegistration (enrollment_id self) (enrollment_runner self) (enrollment_authentication self)
           (dom (catalog_tools catalog)) (advertised_classes advertisement) tools profiles
           (advertised_workspaces advertisement) (advertised_sandboxes advertisement)
           (advertised_default_directory advertisement) (advertised_repositories advertisement)
           revision (enrollment_revision_cell self) (enrollment_active_cell self))).

(** [RegistrationPreparationGuard::drop] *)
Definition release_preparation (store : FenceStore) (cell : FenceCell) : FenceStore :=
  <[cell := 0%N]> store.

(** The fence is dropped with the guard on every error behind its claim. *)
Definition prepare_registration (store : FenceStore) (self : RunnerEnrollment)
    (advertisement : RunnerAdvertisement) (catalog : RunnerCatalog) :
    runner_result PreparedRunnerRegistration * FenceStore :=
  match begin_preparation store self advertisement with
  | (Err e, store) => (Err e, store)
  | (Ok _, store) =>
      match validate_advertisement store self advertisement catalog with
      | Ok prepared => (Ok prepared, store)
      | Err e => (Err e, release_preparation store (enrollment_preparation_cell self))
      end
  end.

(** The atomic step of [PreparedRunnerRegistration::commit] between the load
    of the active flag and the release of the fence. *)
Definition advance_revision (store : FenceStore) (self : PreparedRunnerRegistration) :
    runner_result ValidatedRunnerRegistration * FenceStore :=
  let registration := prepared_registration self in
  let '(advanced, store) :=
    fence_compare_exchange store (registration_revision_cell registration)
      (prepared_expected_revision self) (Npos (runner_generation (registration_revision registration))) in
  if advanced then (Ok registration, store) else (Err RegistrationChanged, store).

Definition commit_registration (store : FenceStore) (self : PreparedRunnerRegistration) :
    runner_result ValidatedRunnerRegistration * FenceStore :=
  let '(r, store) :=
    if negb (load_flag store (registration_active_cell (prepared_registration self)))
    then (Err EnrollmentRevoked, store) else advance_revision store self in
  (r, release_preparation store (prepared_preparation_cell self)).

Definition register (store : FenceStore) (self : RunnerEnrollment)
    (advertisement : RunnerAdvertisement) (catalog : RunnerCatalog) :
    runner_result ValidatedRunnerRegistration * FenceStore :=
  match prepare_registration store self advertisement catalog with
  | (Err e, store) => (Err e, store)
  | (Ok prepared, store) => commit_registration store prepared
  end.

Definition new_pending (store : FenceStore) (enrollment : RunnerEnrollmentId) (runner : RunnerId)
    (authentication : RunnerAuthenticationId) (allowed_classes : list RunnerCapabilityClass)
    (advertisement : RunnerAdvertisement) (catalog : RunnerCatalog) :
    runner_result (RunnerEnrollment * ValidatedRunnerRegistration) * FenceStore :=
  let '(self, store) := enrollment_new store enrollment runner authentication allowed_classes in
  match register store self advertisement catalog with
  | (Err e, store) => (Err e, store)
  | (Ok registration, store) =>
      (Ok (set_enrollment_state self EnrollmentPending, registration),
       <[enrollment_active_cell self := 0%N]> store)
  end.

Definition registration_is_current (store : FenceStore) (self : ValidatedRunnerRegistration) : bool :=
  load_flag store (registration_active_cell self)
  && (load store (registration_revision_cell self)
      =? Npos (runner_generation (registration_revision self)))%N.

(** [RunnerEnrollment::authorizes] *)
Definition enrollment_authorizes (store : FenceStore) (self : RunnerEnrollment)
    (registration : ValidatedRunnerRegistration) : runner_result unit :=
  if negb (bool_decide (enrollment_state self = EnrollmentActive)) then Err EnrollmentRevoked else
  if negb (bool_decide (enrollment_id self = registration_enrollment registration))
     || negb (bool_decide (enrollment_runner self = registration_runner registration))
     || negb (bool_decide (enrollment_authentication self = registration_authentication registration))
     || negb (bool_decide (enrollment_revision_cell self = registration_revision_cell registration))
     || negb (bool_decide (enrollment_active_cell self = registration_active_cell registration))
  then Err RunnerFactsMismatch else
  if negb (registration_is_current store registration) then Err RegistrationChanged else Ok tt.

(** ** What a registration offers *)

Definition satisfies (self : ValidatedRunnerRegistration) (selector : RunnerSelector) : bool :=
  match selector with
  | SelectIdentity runner => bool_decide (registration_runner self = runner)
  | SelectCapabilityClass class => bool_decide (class ∈ registration_classes self)
  end.

Definition registration_tool (self : ValidatedRunnerRegistration) (tool : ToolName) :
    option RunnerToolDeclaration := registration_tools self !! tool.
Definition registration_profile (self : ValidatedRunnerRegistration) (profile : CredentialProfileName) :
    option CredentialProfilePolicy := registration_profiles self !! profile.
Definition supports_workspace (self : ValidatedRunnerRegistration) (capability : WorkspaceCapability) :
    bool := bool_decide (capability ∈ registration_workspaces self).
Definition supports_sandbox (self : ValidatedRunnerRegistration) (sandbox : RunnerSandboxProfile) :
    bool := bool_decide (sandbox ∈ registration_sandboxes self).
Definition registration_repository (self : ValidatedRunnerRegistration) (key : WorkspaceRepositoryKey) :
    option RunnerRepositoryEntry := registration_repositories self !! key.

(** [PartialEq for RunnerEnrollment] reads both revision cells. *)
Definition enrollment_eq (store : FenceStore) (self other : RunnerEnrollment) : bool :=
  bool_decide (enrollment_id self = enrollment_id other)
  && bool_decide (enrollment_runner self = enrollment_runner other)
  && bool_decide (enrollment_authentication self = enrollment_authentication other)
  && bool_decide (enrollment_allowed_classes self = enrollment_allowed_classes other)
  && bool_decide (enrollment_state self = enrollment_state other)
  && (load store (enrollment_revision_cell self) =? load store (enrollment_revision_cell other))%N.

(** [PartialEq for ValidatedRunnerRegistration] leaves the cells out. *)
Definition registration_eq (self other : ValidatedRunnerRegistration) : bool :=
  bool_decide (registration_enrollment self = registration_enrollment other)
  && bool_decide (registration_runner self = registration_runner other)
  && bool_decide (registration_authentication self = registration_authentication other)
  && bool_decide (registration_catalog_tools self = registration_catalog_tools other)
  && bool_decide (registration_classes self = registration_classes other)
  && bool_decide (registration_tools self = registration_tools other)
  && bool_decide (registration_profiles self = registration_profiles other)
  && bool_decide (registration_workspaces self = registration_workspaces other)
  && bool_decide (registration_sandboxes self = registration_sandboxes other)
  && bool_decide (registration_default_directory self = registration_default_directory other)
  && bool_decide (registration_repositories self = registration_repositories other)
  && bool_decide (runner_generation (registration_revision self)
                  = runner_generation (registration_revision other)).

(** ** Reconstitution *)

Record RunnerEnrollmentReconstitutionInput := mkEnrollmentInput {
  stored_enrollment : RunnerEnrollmentId;
  recorded_enrollment : RunnerEnrollmentId;
  stored_enrollment_runner : RunnerId;
  recorded_enrollment_runner : RunnerId;
  stored_authentication : RunnerAuthenticationId;
  recorded_authentication : RunnerAuthenticationId;
  stored_allowed_classes : gset RunnerCapabilityClass;
  recorded_allowed_classes : gset RunnerCapabilityClass;
  stored_registration_revision : option RunnerGeneration;
  recorded_registration_revision : option RunnerGeneration;
  stored_enrollment_state : RunnerEnrollmentState;
  recorded_enrollment_state : RunnerEnrollmentState;
}.

Definition enrollment_reconstitute (store : FenceStore) (input : RunnerEnrollmentReconstitutionInput) :
    runner_result RunnerEnrollment * FenceStore :=
  if negb (bool_decide (stored_enrollment input = recorded_enrollment input))
     || negb (bool_decide (stored_enrollment_runner input = recorded_enrollment_runner input))
     || negb (bool_decide (stored_authentication input = recorded_authentication input))
     || negb (bool_decide (stored_allowed_classes input = recorded_allowed_classes input))
     || negb (bool_decide (runner_generation <$> stored_registration_revision input
                           = runner_generation <$> recorded_registration_revision input))
     || negb (bool_decide (stored_enrollment_state input = recorded_enrollment_state input))
  then (Err CorruptRunnerFacts, store) else
  let revision :=
    match stored_registration_revision input with
    | Some revision => Npos (runner_generation revision)
    | None => 0%N
    end in
  let '(self, store) :=
    enrollment_with_cells store (stored_enrollment input) (stored_enrollment_runner input)
      (stored_authentication input) (stored_allowed_classes input) (stored_enrollment_state input)
      revision (bool_decide (stored_enrollment_state input = EnrollmentActive)) in
  (Ok self, store).

Record ValidatedRunnerRegistrationReconstitutionInput := mkRegistrationInput {
  input_enrollment : RunnerEnrollmentId;
  input_revision : RunnerGeneration;
  input_runner : RunnerId;
  input_authentication : RunnerAuthenticationId;
  input_classes : gset RunnerCapabilityClass;
  input_tools : list RunnerToolDeclaration;
  input_profiles : list CredentialProfilePolicy;
  input_workspaces : gset WorkspaceCapability;
  input_sandboxes : gset RunnerSandboxProfile;
  input_repositories : list RunnerRepositoryEntry;
  input_default_directory : option RunnerWorkingDirectory;
}.

Definition registration_advertisement (input : ValidatedRunnerRegistrationReconstitutionInput) :
    RunnerAdvertisement :=
  with_default_working_directory
    (advertisement_new (elements (input_classes input)) (declaration_name <$> input_tools input)
       (policy_name <$> input_profiles input) (elements (input_workspaces input))
       (elements (input_sandboxes input)) (input_repositories input))
    (input_default_directory input).

Definition set_registration_authority (self : ValidatedRunnerRegistration)
    (revision : RunnerGeneration) (enrollment : RunnerEnrollment) : ValidatedRunnerRegistration :=
  mkRegistration (registration_enrollment self) (registration_runner self)
    (registration_authentication self) (registration_catalog_tools self) (registration_classes self)
    (registration_tools self) (registration_profiles self) (registration_workspaces self)
    (registration_sandboxes self) (registration_default_directory self)
    (registration_repositories self) revision (enrollment_revision_cell enrollment)
    (enrollment_active_cell enrollment).

(** [ValidatedRunnerRegistration::reconstitute]: the advertisement is validated
    again under an authority of its own, whose cells nothing shares. *)
Definition registration_reconstitute (store : FenceStore) (enrollment : RunnerEnrollment)
    (catalog : RunnerCatalog) (input : ValidatedRunnerRegistrationReconstitutionInput) :
    runner_result ValidatedRunnerRegistration * FenceStore :=
  if negb (bool_decide (enrollment_id enrollment = input_enrollment input))
     || negb (bool_decide (enrollment_runner enrollment = input_runner input))
     || negb (bool_decide (enrollment_authentication enrollment = input_authentication input))
  then (Err CorruptRunnerFacts, store) else
  let stored_tools :=
    btree_collect ((fun tool => (declaration_name tool, tool)) <$> input_tools input) in
  let stored_profiles :=
    btree_collect ((fun profile => (policy_name profile, profile)) <$> input_profiles input) in
  let stored_repositories :=
    btree_collect ((fun entry => (repository_key entry, entry)) <$> input_repositories input) in
  let '(historical_authority, store) :=
    enrollment_with_cells store (enrollment_id enrollment) (enrollment_runner enrollment)
      (enrollment_authentication enrollment) (enrollment_allowed_classes enrollment)
      EnrollmentActive 0 true in
  match prepare_registration store historical_authority (registration_advertisement input) catalog with
  | (Err _, store) => (Err CorruptRunnerFacts, store)
  | (Ok prepared, store) =>
      let store := release_preparation store (prepared_preparation_cell prepared) in
      let registration := prepared_registration prepared in
      if negb (size stored_tools =? length (input_tools input))
         || negb (size stored_profiles =? length (input_profiles input))
         || negb (bool_decide (registration_classes registration = input_classes input))
         || negb (bool_decide (registration_tools registration = stored_tools))
         || negb (bool_decide (registration_profiles registration = stored_profiles))
         || negb (bool_decide (registration_workspaces registration = input_workspaces input))
         || negb (bool_decide (registration_sandboxes registration = input_sandboxes input))
         || negb (size stored_repositories =? length (input_repositories input))
         || negb (bool_decide (registration_repositories registration = stored_repositories))
      then (Err CorruptRunnerFacts, store)
      else (Ok (set_registration_authority registration (input_revision input) enrollment), store)
  end.
