(* ===== verification/RunnerGrant.v ===== *)
(** * Runner placements and credential grants: data and grants

    Model of the data of [crates/domain/src/runner/placement.rs] and of
    [crates/domain/src/runner/credential_grant.rs]: what a session asks of a
    runner, what it is pinned to, and the grants that name the runner-local
    profile its tools run under. Indexing a map could panic and is kept as
    such. *)

From S2P Require Import Prelude TurnLifecycle Tool SemanticEntry BatchProjection ModelExecution RunnerNames RunnerCatalog RunnerEnrollment.

Local Open Scope list_scope.

Abbreviation runner_exec := (exec RunnerDomainError).

Definition generation_le (a b : RunnerGeneration) : bool :=
  (runner_generation a <=? runner_generation b)%positive.

(** ** Placement data (placement.rs) *)

Inductive WorkingDirectorySelection :=
| RunnerDefaultDirectory
| ExactDirectory (directory : RunnerWorkingDirectory).

Inductive WorkspaceRequirement :=
| NoWorkspace
| RepositoryWorktree (repository : WorkspaceRepositoryKey).

Record ProvisionedWorkspace := mkWorkspace {
  workspace_session : SessionId;
  workspace_placement_revision : RunnerGeneration;
  workspace_runner : RunnerId;
  workspace_repository : option WorkspaceRepositoryKey;
  workspace_clone_url_digest : option CanonicalCloneUrlDigest;
  workspace_profile : option CredentialProfileName;
  workspace_sandbox : RunnerSandboxProfile;
  workspace_directory : RunnerWorkingDirectory;
  workspace_relative_path : WorkspaceRelativePath;
  workspace_manifest : WorkspaceManifestId;
  workspace_recovery : option WorkspaceRecovery;
}.

Record SessionRunnerPlacementRequest := mkPlacementRequest {
  request_selector : RunnerSelector;
  request_working_directory : WorkingDirectorySelection;
  request_profile : option CredentialProfileName;
  request_workspace : WorkspaceRequirement;
  request_sandbox : RunnerSandboxProfile;
  request_overrides : RunnerToolPermissionOverrides;
}.

Record RunnerCredentialGrantLineage := mkLineage {
  lineage_runner : RunnerId;
  lineage_revision : RunnerGeneration;
}.

Record PinnedRunnerPlacement := mkPinned {
  pinned_runner : RunnerId;
  pinned_directory : RunnerWorkingDirectory;
  pinned_profile : option CredentialProfileName;
  pinned_lineage : option RunnerCredentialGrantLineage;
  pinned_tools : gset ToolName;
  pinned_required_tools : gset ToolName;
  pinned_workspace : option ProvisionedWorkspace;
  pinned_sandbox : RunnerSandboxProfile;
  pinned_overrides : RunnerToolPermissionOverrides;
}.

#[export] Instance WorkingDirectorySelection_eq_dec : EqDecision WorkingDirectorySelection.
Proof. solve_decision. Defined.
#[export] Instance WorkspaceRequirement_eq_dec : EqDecision WorkspaceRequirement.
Proof. solve_decision. Defined.
#[export] Instance ProvisionedWorkspace_eq_dec : EqDecision ProvisionedWorkspace.
Proof. solve_decision. Defined.
#[export] Instance SessionRunnerPlacementRequest_eq_dec : EqDecision SessionRunnerPlacementRequest.
Proof. solve_decision. Defined.
#[export] Instance RunnerCredentialGrantLineage_eq_dec : EqDecision RunnerCredentialGrantLineage.
Proof. solve_decision. Defined.
#[export] Instance PinnedRunnerPlacement_eq_dec : EqDecision PinnedRunnerPlacement.
Proof. solve_decision. Defined.

(** ** Grants *)

Inductive CredentialProfileGrantState := GrantActive | GrantRevokedState.

#[export] Instance CredentialProfileGrantState_eq_dec : EqDecision CredentialProfileGrantState.
Proof. solve_decision. Defined.

(** [CredentialProfileGrant] and, with the same fields, its
    [CredentialProfileGrantReconstitutionInput] *)
Record CredentialProfileGrant := mkGrant {
  grant_session : SessionId;
  grant_runner : RunnerId;
  grant_revision : RunnerGeneration;
  grant_profile : CredentialProfileName;
  grant_tools : gset ToolName;
  grant_approvals : gmap ToolName CredentialToolApproval;
  grant_state : CredentialProfileGrantState;
}.

Record CredentialDispatchAuthorization := mkDispatchAuthorization {
  dispatch_session : SessionId;
  dispatch_runner : RunnerId;
  dispatch_grant_revision : RunnerGeneration;
  dispatch_profile : CredentialProfileName;
  dispatch_tool : ToolName;
  dispatch_approval : CredentialToolApproval;
}.

Record CredentialProfileChange := mkProfileChange {
  profile_change_session : SessionId;
  profile_prior_revision : RunnerGeneration;
  profile_replacement_revision : RunnerGeneration;
  before_profile : CredentialProfileName;
  after_profile : CredentialProfileName;
  before_tools : gset ToolName;
  after_tools : gset ToolName;
}.

Record CredentialProfileGrantReplacement := mkGrantReplacement {
  replacement_grant : CredentialProfileGrant;
  replacement_change : CredentialProfileChange;
}.

Record RunnerCredentialGrantChange := mkGrantChange {
  change_before : option CredentialProfileGrant;
  change_after : option CredentialProfileGrant;
}.

#[export] Instance CredentialProfileGrant_eq_dec : EqDecision CredentialProfileGrant.
Proof. solve_decision. Defined.
#[export] Instance CredentialDispatchAuthorization_eq_dec : EqDecision CredentialDispatchAuthorization.
Proof. solve_decision. Defined.

Definition grant_matches_binding (self : CredentialProfileGrant) (session : SessionId)
    (runner : RunnerId) (profile : CredentialProfileName) : bool :=
  bool_decide (grant_session self = session) && bool_decide (grant_runner self = runner)
  && bool_decide (grant_profile self = profile).

Definition grant_matches_selection (self : CredentialProfileGrant) (session : SessionId)
    (runner : RunnerId) (profile : CredentialProfileName) : bool :=
  bool_decide (grant_state self = GrantActive) && grant_matches_binding self session runner profile.

Definition grant_lineage (self : CredentialProfileGrant) : RunnerCredentialGrantLineage :=
  mkLineage (grant_runner self) (grant_revision self).

Definition authorization_for (self : CredentialProfileGrant) (session : SessionId)
    (runner : RunnerId) (profile : CredentialProfileName) (tool : ToolName) :
    runner_exec CredentialDispatchAuthorization :=
  if negb (bool_decide (grant_state self = GrantActive)) then Rejected GrantRevoked else
  if negb (bool_decide (grant_session self = session)) || negb (bool_decide (grant_runner self = runner))
     || negb (bool_decide (grant_profile self = profile)) || negb (bool_decide (tool ∈ grant_tools self))
  then Rejected RunnerToolUnavailable else
  approval ← or_panic (grant_approvals self !! tool);
  Returned (mkDispatchAuthorization (grant_session self) (grant_runner self) (grant_revision self)
              (grant_profile self) tool approval).

Definition resolve_runner_approval (effect : RunnerToolEffectClass) (sandbox : RunnerSandboxProfile)
    (permission_overrides : RunnerToolPermissionOverrides) (tool : ToolName) : CredentialToolApproval :=
  match permission_overrides !! tool with
  | Some OverrideAuto => ApprovalAutomatic
  | Some OverrideConfirm => ApprovalSessionPolicy
  | None =>
      if bool_decide (sandbox = SandboxWorkspaceRestricted) then ApprovalAutomatic
      else if bool_decide (effect = EffectPure) then ApprovalAutomatic else ApprovalSessionPolicy
  end.

(** The closure that resolves the approval of one granted tool. *)
Definition granted_approval (registration : ValidatedRunnerRegistration)
    (sandbox : RunnerSandboxProfile) (permission_overrides : RunnerToolPermissionOverrides)
    (tool : ToolName) : runner_exec (ToolName * CredentialToolApproval) :=
  declaration ← or_panic (registration_tools registration !! tool);
  Returned (tool, resolve_runner_approval (declaration_effect declaration) sandbox
                    permission_overrides tool).

Definition build_grant (session : SessionId) (revision : RunnerGeneration)
    (registration : ValidatedRunnerRegistration) (profile : CredentialProfileName)
    (tools : list ToolName) (sandbox : RunnerSandboxProfile)
    (permission_overrides : RunnerToolPermissionOverrides) (state : CredentialProfileGrantState) :
    runner_exec CredentialProfileGrant :=
  _ ← exec_ok_or (registration_profile registration profile) CredentialProfileUnavailable;
  let tools : gset ToolName := list_to_set tools in
  if existsb (fun tool => bool_decide (registration_tool registration tool = None)) (names_iter tools)
  then Rejected RunnerToolUnavailable else
  approvals ← mapM (granted_approval registration sandbox permission_overrides) (names_iter tools);
  Returned (mkGrant session (registration_runner registration) revision profile tools
              (btree_collect approvals) state).

Definition replace_for (self : CredentialProfileGrant) (registration : ValidatedRunnerRegistration)
    (profile : CredentialProfileName) (tools : list ToolName) (sandbox : RunnerSandboxProfile)
    (permission_overrides : RunnerToolPermissionOverrides) :
    runner_exec CredentialProfileGrantReplacement :=
  if negb (bool_decide (grant_state self = GrantActive)) then Rejected RunnerStateInvalid else
  if negb (bool_decide (grant_runner self = registration_runner registration))
  then Rejected RunnerFactsMismatch else
  revision ← exec_ok_or (runner_generation_checked_next (grant_revision self)) RunnerGenerationExhausted;
  replacement ← build_grant (grant_session self) revision registration profile tools sandbox
    permission_overrides GrantActive;
  Returned (mkGrantReplacement replacement
    (mkProfileChange (grant_session self) (grant_revision self) revision (grant_profile self)
       (grant_profile replacement) (grant_tools self) (grant_tools replacement))).

Definition set_grant_state (self : CredentialProfileGrant) (revision : RunnerGeneration)
    (state : CredentialProfileGrantState) : CredentialProfileGrant :=
  mkGrant (grant_session self) (grant_runner self) revision (grant_profile self) (grant_tools self)
    (grant_approvals self) state.

(** [CredentialProfileGrant::revoke] *)
Definition grant_revoke (self : CredentialProfileGrant) : runner_result CredentialProfileGrant :=
  if negb (bool_decide (grant_state self = GrantActive)) then Err RunnerStateInvalid
  else Ok (set_grant_state self (grant_revision self) GrantRevokedState).

(** [CredentialProfileGrant::reconstitute] *)
Definition grant_reconstitute (input : CredentialProfileGrant) (expected_session : SessionId)
    (registration : ValidatedRunnerRegistration) (sandbox : RunnerSandboxProfile)
    (permission_overrides : RunnerToolPermissionOverrides) : runner_exec CredentialProfileGrant :=
  if negb (bool_decide (grant_session input = expected_session)) then Rejected CorruptRunnerFacts else
  checked ← build_grant (grant_session input) (grant_revision input) registration (grant_profile input)
    (names_iter (grant_tools input)) sandbox permission_overrides (grant_state input);
  if bool_decide (grant_runner checked = grant_runner input)
     && bool_decide (grant_approvals checked = grant_approvals input)
  then Returned checked else Rejected CorruptRunnerFacts.

(** The grant a replaced placement had, when it is the one supplied. *)
Definition prior_grant (session : SessionId) (before : PinnedRunnerPlacement)
    (prior : option CredentialProfileGrant) : runner_exec (option CredentialProfileGrant) :=
  match pinned_profile before, pinned_lineage before, prior with
  | Some profile, Some lineage, Some prior =>
      if grant_matches_binding prior session (pinned_runner before) profile
         && bool_decide (grant_lineage prior = lineage)
      then Returned (Some prior) else Rejected RunnerFactsMismatch
  | None, Some lineage, Some prior =>
      if bool_decide (grant_session prior = session)
         && bool_decide (grant_state prior = GrantRevokedState)
         && bool_decide (grant_lineage prior = lineage)
      then Returned (Some prior) else Rejected RunnerFactsMismatch
  | None, None, None => Returned None
  | _, _, _ => Rejected RunnerFactsMismatch
  end.

(** The names of the registered tools, in order. *)
Definition registered_tool_names (registration : ValidatedRunnerRegistration) : list ToolName :=
  names_iter (dom (registration_tools registration)).

Definition successor_grant (session : SessionId) (before after : PinnedRunnerPlacement)
    (registration : ValidatedRunnerRegistration) (prior : option CredentialProfileGrant) :
    runner_exec (option CredentialProfileGrant * option RunnerCredentialGrantChange) :=
  prior ← prior_grant session before prior;
  grant ←
    match prior with
    | None =>
        match pinned_profile after with
        | None => Returned None
        | Some profile =>
            grant ← build_grant session runner_generation_one registration profile
              (registered_tool_names registration) (pinned_sandbox after) (pinned_overrides after)
              GrantActive;
            Returned (Some grant)
        end
    | Some prior =>
        revision ← exec_ok_or (runner_generation_checked_next (grant_revision prior))
          RunnerGenerationExhausted;
        match pinned_profile after with
        | Some profile =>
            grant ← build_grant session revision registration profile
              (registered_tool_names registration) (pinned_sandbox after) (pinned_overrides after)
              GrantActive;
            Returned (Some grant)
        | None => Returned (Some (set_grant_state prior revision GrantRevokedState))
        end
    end;
  Returned (grant,
    if bool_decide (is_Some prior) || bool_decide (is_Some grant)
    then Some (mkGrantChange prior grant) else None).
