(* ===== verification/RunnerLease.v ===== *)
(** * Runner leases

    Model of [crates/domain/src/runner/lease.rs]: the fenced lease under which
    a runner executes one physical tool attempt, what its loss permits, and the
    authority to retry it once. The guard of a retry is an atomic flag no one
    shares; the operations that claim it thread it. The operations of the tool
    batch are those of [ToolBatch], whose issuance cells they thread. *)

From S2P Require Import Prelude TurnLifecycle Frontier Tool ToolAttempt ToolBatch SemanticEntry BatchProjection ModelExecution RunnerNames RunnerCatalog RunnerEnrollment RunnerGrant.

Local Open Scope list_scope.

(** ** Data *)

Record RunnerLeaseCorrelation := mkLeaseCorrelation {
  correlation_lease : RunnerLeaseId;
  correlation_runner : RunnerId;
  correlation_registration_revision : RunnerGeneration;
  correlation_placement_revision : RunnerGeneration;
  correlation_directory : RunnerWorkingDirectory;
  correlation_sandbox : RunnerSandboxProfile;
  correlation_tool : ToolName;
  correlation_dispatch : ToolAttemptDispatchCorrelation;
  correlation_lease_generation : RunnerGeneration;
}.

Record RunnerLeaseOfferRequest := mkOfferRequest {
  offer_lease_id : RunnerLeaseId;
  offer_tool : ToolName;
}.

Inductive RunnerRetryAttemptEvidence :=
| EvidenceUnclaimed (dispatch : ToolAttemptDispatchCorrelation)
| EvidenceClaimed (source : RunnerLeaseCorrelation) (replacement : ToolAttemptDispatchCorrelation).

(** [RunnerToolAttemptAuthorization] with its third field, which
    [runner_authorization_try_new] leaves absent. *)
Record LeaseAuthorization := mkLeaseAuthorization {
  lease_authorization : RunnerToolAttemptAuthorization;
  retry_evidence : option RunnerRetryAttemptEvidence;
}.

Inductive RunnerLeaseState :=
| LeaseOffered | LeaseClaimed | LeaseCompleted | LeaseRefused
| LostUnclaimed | LostExecutionPossible | LostClaimed.

Record RunnerLease := mkLease {
  lease_id : RunnerLeaseId;
  lease_dispatch : ToolAttemptDispatchCorrelation;
  lease_runner : RunnerId;
  lease_registration_revision : RunnerGeneration;
  lease_placement_revision : RunnerGeneration;
  lease_directory : RunnerWorkingDirectory;
  lease_sandbox : RunnerSandboxProfile;
  lease_tool : ToolName;
  lease_arguments : NormalizedToolArguments;
  lease_effect : RunnerToolEffectClass;
  lease_credential : option CredentialDispatchAuthorization;
  lease_generation : RunnerGeneration;
  lease_state : RunnerLeaseState;
}.

Record RunnerLeaseNoExecutionProof := mkNoExecution { no_execution_correlation : RunnerLeaseCorrelation }.

Inductive RunnerLeaseRetryPreparation := RetryAvailable | RetryPrepared.

(** [RunnerLeaseRetrySource] *)
Record RunnerLeaseRetrySource := mkRetrySource {
  source_correlation : RunnerLeaseCorrelation;
  source_effect : RunnerToolEffectClass;
  source_credential : option CredentialDispatchAuthorization;
  source_state : RunnerLeaseState;
}.

(** [retry_claimed] is the flag of [RunnerRetryPreparationGuard]. *)
Record RunnerLeaseRetryAuthority := mkRetryAuthority {
  retry_source : RunnerLeaseRetrySource;
  retry_generation : RunnerGeneration;
  retry_claimed_attempt : option ToolAttemptId;
  retry_claimed : bool;
}.

Inductive RunnerLeaseLoss :=
| RetryPermitted (lost : RunnerLease) (retry : RunnerLeaseRetryAuthority)
    (no_execution : option RunnerLeaseNoExecutionProof)
| CrashClassificationRequired (lost : RunnerLease).

#[export] Instance RunnerLeaseCorrelation_eq_dec : EqDecision RunnerLeaseCorrelation.
Proof. solve_decision. Defined.
#[export] Instance RunnerLeaseState_eq_dec : EqDecision RunnerLeaseState.
Proof. solve_decision. Defined.
#[export] Instance RunnerRetryAttemptEvidence_eq_dec : EqDecision RunnerRetryAttemptEvidence.
Proof. solve_decision. Defined.

(** [RunnerLease::correlation] *)
Definition lease_correlation (self : RunnerLease) : RunnerLeaseCorrelation :=
  mkLeaseCorrelation (lease_id self) (lease_runner self) (lease_registration_revision self)
    (lease_placement_revision self) (lease_directory self) (lease_sandbox self) (lease_tool self)
    (lease_dispatch self) (lease_generation self).

Definition set_lease_state (self : RunnerLease) (state : RunnerLeaseState) : RunnerLease :=
  mkLease (lease_id self) (lease_dispatch self) (lease_runner self) (lease_registration_revision self)
    (lease_placement_revision self) (lease_directory self) (lease_sandbox self) (lease_tool self)
    (lease_arguments self) (lease_effect self) (lease_credential self) (lease_generation self) state.

(** ** Transitions of a lease *)

Definition claim_lease (self : RunnerLease) (correlation : RunnerLeaseCorrelation) :
    runner_result RunnerLease :=
  if negb (bool_decide (lease_state self = LeaseOffered)) then Err RunnerStateInvalid else
  if negb (bool_decide (lease_correlation self = correlation)) then Err RunnerFactsMismatch else
  Ok (set_lease_state self LeaseClaimed).

Definition refuse_lease (self : RunnerLease) (correlation : RunnerLeaseCorrelation) :
    runner_result RunnerLease :=
  if negb match lease_state self with LeaseOffered | LostUnclaimed => true | _ => false end
  then Err RunnerStateInvalid else
  if negb (bool_decide (lease_correlation self = correlation)) then Err RunnerFactsMismatch else
  Ok (set_lease_state self LeaseRefused).

Definition complete_lease (self : RunnerLease) (correlation : RunnerLeaseCorrelation) :
    runner_result RunnerLease :=
  if negb (bool_decide (lease_state self = LeaseClaimed)) then Err RunnerStateInvalid else
  if negb (bool_decide (lease_correlation self = correlation)) then Err RunnerFactsMismatch else
  Ok (set_lease_state self LeaseCompleted).

(** [RunnerLeaseRetrySource::from_lease] and [matches] *)
Definition retry_source_of (lease : RunnerLease) : RunnerLeaseRetrySource :=
  mkRetrySource (lease_correlation lease) (lease_effect lease) (lease_credential lease)
    (lease_state lease).

Definition source_matches (self : RunnerLeaseRetrySource) (lease : RunnerLease) : bool :=
  bool_decide (source_correlation self = lease_correlation lease)
  && bool_decide (source_effect self = lease_effect lease)
  && bool_decide (source_credential self = lease_credential lease)
  && bool_decide (source_state self = lease_state lease).

Definition into_loss_consequence (self : RunnerLease)
    (no_execution : option RunnerLeaseNoExecutionProof)
    (retry_preparation : RunnerLeaseRetryPreparation) : runner_result RunnerLeaseLoss :=
  claimed ←
    match lease_state self, no_execution with
    | LostUnclaimed, Some _ => Ok false
    | LostExecutionPossible, None | LostClaimed, None => Ok true
    | _, _ => Err RunnerStateInvalid
    end;
  if claimed && bool_decide (lease_effect self = EffectSideEffecting)
  then Ok (CrashClassificationRequired self) else
  generation ← ok_or (runner_generation_checked_next (lease_generation self)) RunnerGenerationExhausted;
  Ok (RetryPermitted self
        (mkRetryAuthority (retry_source_of self) generation
           (if claimed then Some (correlation_attempt (lease_dispatch self)) else None)
           match retry_preparation with RetryPrepared => true | RetryAvailable => false end)
        no_execution).

Definition lose_lease (self : RunnerLease) : runner_result RunnerLeaseLoss :=
  match lease_state self with
  | LeaseOffered =>
      into_loss_consequence (set_lease_state self LostExecutionPossible) None RetryAvailable
  | LeaseClaimed => into_loss_consequence (set_lease_state self LostClaimed) None RetryAvailable
  | _ => Err RunnerStateInvalid
  end.

Definition lose_unclaimed (self : RunnerLease) (proof : RunnerLeaseNoExecutionProof) :
    runner_result RunnerLeaseLoss :=
  if negb (bool_decide (lease_state self = LeaseOffered)) then Err RunnerStateInvalid else
  if negb (bool_decide (no_execution_correlation proof = lease_correlation self))
  then Err RunnerFactsMismatch else
  into_loss_consequence (set_lease_state self LostUnclaimed) (Some proof) RetryAvailable.

(** ** Reconstitution *)

(** The stored projection is a lease; the facts recorded beside it. *)
Record RunnerLeaseReconstitutionInput := mkLeaseInput {
  input_lease : RunnerLease;
  recorded_correlation : RunnerLeaseCorrelation;
  recorded_session : SessionId;
  recorded_effect : RunnerToolEffectClass;
  recorded_arguments : NormalizedToolArguments;
  recorded_credential : option CredentialDispatchAuthorization;
  recorded_state : RunnerLeaseState;
  input_retry_preparation : RunnerLeaseRetryPreparation;
}.

Definition lease_credential_matches (lease : RunnerLease) : bool :=
  match lease_credential lease with
  | None => true
  | Some authorization =>
      bool_decide (dispatch_session authorization = correlation_session (lease_dispatch lease))
      && bool_decide (dispatch_runner authorization = lease_runner lease)
      && bool_decide (dispatch_tool authorization = lease_tool lease)
  end.

Definition lease_declaration_matches (registration : ValidatedRunnerRegistration) (lease : RunnerLease) :
    bool :=
  bool_decide (registration_runner registration = lease_runner lease)
  && bool_decide (registration_revision registration = lease_registration_revision lease)
  && match registration_tool registration (lease_tool lease) with
     | Some declaration => bool_decide (declaration_effect declaration = lease_effect lease)
     | None => false
     end.

Definition lease_reconstitute (input : RunnerLeaseReconstitutionInput)
    (registration : ValidatedRunnerRegistration) : runner_result RunnerLease :=
  let lease := input_lease input in
  if negb (bool_decide (lease_correlation lease = recorded_correlation input))
     || negb (bool_decide (correlation_session (lease_dispatch lease) = recorded_session input))
     || negb (bool_decide (lease_effect lease = recorded_effect input))
     || negb (bool_decide (lease_arguments lease = recorded_arguments input))
     || negb (bool_decide (lease_credential lease = recorded_credential input))
     || negb (lease_credential_matches lease)
     || negb (lease_declaration_matches registration lease)
     || negb (bool_decide (lease_state lease = recorded_state input))
  then Err CorruptRunnerFacts else Ok lease.

Definition into_reconstituted_loss (self : RunnerLease) (no_execution : option RunnerLeaseCorrelation)
    (retry_preparation : RunnerLeaseRetryPreparation) : runner_result RunnerLeaseLoss :=
  let proof_matches :=
    match no_execution with
    | Some correlation => bool_decide (correlation = lease_correlation self)
    | None => false
    end in
  match lease_state self, proof_matches, bool_decide (is_Some no_execution) with
  | LostUnclaimed, true, true
  | LostExecutionPossible, false, false | LostClaimed, false, false =>
      into_loss_consequence self (mkNoExecution <$> no_execution) retry_preparation
  | _, _, _ => Err RunnerStateInvalid
  end.

Definition reconstitute_loss (input : RunnerLeaseReconstitutionInput)
    (registration : ValidatedRunnerRegistration) (no_execution : option RunnerLeaseCorrelation) :
    runner_result RunnerLeaseLoss :=
  lease ← lease_reconstitute input registration;
  into_reconstituted_loss lease no_execution (input_retry_preparation input).

(** ** Retry *)

(** [RunnerRetryPreparationGuard::claim] *)
Definition claim_retry (self : RunnerLeaseRetryAuthority) : bool * RunnerLeaseRetryAuthority :=
  (negb (retry_claimed self),
   mkRetryAuthority (retry_source self) (retry_generation self) (retry_claimed_attempt self) true).

(** What an operation on a retry authority returns, and the state of its guard
    and of the issuance cells behind it. *)
Abbreviation retrying A := (runner_result A * RunnerLeaseRetryAuthority * IssuanceStore)%type.

Section retry.
Context {Snap : Type} `{ContextSnapshots Snap}.

Record RunnerUnclaimedAttemptReauthorization := mkReauthorization {
  reauthorized_batch : ToolBatch Snap;
  reauthorization : LeaseAuthorization;
}.

Record RunnerClaimedAttemptReplacement := mkClaimedReplacement {
  claimed_batch : ToolBatch Snap;
  claimed_retired : EndedToolAttempt;
  claimed_authorization : LeaseAuthorization;
  claimed_source : RunnerLeaseCorrelation;
}.

(** The dispatch of the lost lease. *)
Definition source_dispatch (self : RunnerLeaseRetryAuthority) : ToolAttemptDispatchCorrelation :=
  correlation_dispatch (source_correlation (retry_source self)).

Definition prepare_unclaimed_attempt (store : IssuanceStore) (self : RunnerLeaseRetryAuthority)
    (batch : ToolBatch Snap) : retrying RunnerUnclaimedAttemptReauthorization :=
  if bool_decide (is_Some (retry_claimed_attempt self)) then (Err RunnerStateInvalid, self, store) else
  let '(claimed, self) := claim_retry self in
  if negb claimed then (Err RunnerStateInvalid, self, store) else
  match reauthorize_unclaimed_runner_attempt store batch (correlation_attempt (source_dispatch self)) with
  | (Err _, store) => (Err RunnerFactsMismatch, self, store)
  | (Ok (batch, authorization), store) =>
      if negb (bool_decide (request_name (approved_request (runner_approved authorization))
                            = correlation_tool (source_correlation (retry_source self))))
         || negb (bool_decide (authorized_correlation (runner_authorized authorization)
                               = source_dispatch self))
      then (Err RunnerFactsMismatch, self, store)
      else (Ok (mkReauthorization batch
                  (mkLeaseAuthorization authorization (Some (EvidenceUnclaimed (source_dispatch self))))),
            self, store)
  end.

(** The replacement retires the attempt of the lost lease. *)
Definition replaces_source (self : RunnerLeaseRetryAuthority)
    (replacement : PreparedClaimedToolAttemptReplacement (Snap := Snap)) : bool :=
  let request := approved_request (replacement_approved replacement) in
  let retired := replacement_retired replacement in
  let source := source_dispatch self in
  bool_decide (request_id request = correlation_request source)
  && bool_decide (request_session request = correlation_session source)
  && bool_decide (request_turn request = correlation_turn source)
  && bool_decide (request_name request = correlation_tool (source_correlation (retry_source self)))
  && bool_decide (ended_tool_session retired = correlation_session source)
  && bool_decide (ended_tool_turn retired = correlation_turn source)
  && bool_decide (ended_tool_issuing retired = correlation_issuing_attempt source)
  && bool_decide (ended_tool_request retired = correlation_request source)
  && bool_decide (ended_tool_id retired = correlation_attempt source)
  && bool_decide (ended_tool_generation retired = correlation_generation source)
  && bool_decide (ended_tool_effect_class retired = tool_effect_class (source_effect (retry_source self))).

(** [map_err] over the failures of the batch and of the authorization. *)
Definition replacement_failure (failure : ToolBatchExecutionFailure) : RunnerDomainError :=
  match failure with AttemptIdentityReuse => RunnerAttemptReuse | _ => RunnerFactsMismatch end.
Definition authorization_failure (failure : RunnerAuthorizationError) : RunnerDomainError :=
  match failure with
  | RunnerCorrelationMismatch => RunnerFactsMismatch
  | RunnerInvalidState => RunnerStateInvalid
  end.

Definition prepare_claimed_attempt (store : IssuanceStore) (self : RunnerLeaseRetryAuthority)
    (batch : ToolBatch Snap) (attempt : ToolAttemptId) : retrying RunnerClaimedAttemptReplacement :=
  match retry_claimed_attempt self with
  | None => (Err RunnerStateInvalid, self, store)
  | Some claimed =>
      if bool_decide (attempt = claimed) then (Err RunnerAttemptReuse, self, store) else
      let '(available, self) := claim_retry self in
      if negb available then (Err RunnerStateInvalid, self, store) else
      match replace_claimed_attempt store batch claimed attempt with
      | (Err failure, store) => (Err (replacement_failure failure), self, store)
      | (Ok replacement, store) =>
          if negb (replaces_source self replacement) then (Err RunnerFactsMismatch, self, store) else
          let '(authorization, store) :=
            runner_authorization_try_new store (replacement_approved replacement)
              (replacement_authorized replacement) in
          (match map_err authorization_failure authorization with
           | Err e => Err e
           | Ok authorization =>
               Ok (mkClaimedReplacement (replacement_batch replacement) (replacement_retired replacement)
                     (mkLeaseAuthorization authorization
                        (Some (EvidenceClaimed (source_correlation (retry_source self))
                                 (authorized_correlation (runner_authorized authorization)))))
                     (source_correlation (retry_source self)))
           end, self, store)
      end
  end.
End retry.
