(* ===== verification/RunnerPlacement.v ===== *)
(** * Runner placements

    Model of [crates/domain/src/runner/placement.rs]: the affinity of a session
    to a runner. A placement is pinned with its first lease, offers further
    leases and retries, is lost and replaced or abandoned, and is reconstituted
    from its stored revision. Currency of a registration is read from the
    shared cells of [RunnerEnrollment]. *)

From stdpp Require Import strings pretty.
From S2P Require Import Prelude TurnLifecycle SemanticEntry BatchProjection ModelExecution Tool ToolAttempt ToolBatch RunnerNames RunnerCatalog RunnerEnrollment RunnerGrant RunnerLease.

Local Open Scope list_scope.

(** ** Placements *)

Inductive RunnerPlacementLossSource := LostConnection | LostRegistration.

Record RunnerLostBeforePin := mkLostBeforePin { lost_runner : RunnerId }.

Record LostPinnedRunnerPlacement := mkLostPinned {
  lost_pinned : PinnedRunnerPlacement;
  lost_source : RunnerPlacementLossSource;
}.

Inductive AbandonedRunnerPlacement :=
| AbandonedBeforePin (lost : RunnerLostBeforePin)
| AbandonedPinned (lost : LostPinnedRunnerPlacement).

Inductive SessionRunnerPlacementState :=
| PlacementUnpinned
| PlacementLostBeforePin (lost : RunnerLostBeforePin)
| PlacementPinned (pinned : PinnedRunnerPlacement)
| PlacementLost (lost : LostPinnedRunnerPlacement)
| PlacementAbandoned (abandoned : AbandonedRunnerPlacement).

Record SessionRunnerPlacement := mkPlacement {
  placement_session : SessionId;
  placement_revision : RunnerGeneration;
  placement_request : SessionRunnerPlacementRequest;
  placement_state : SessionRunnerPlacementState;
}.

#[export] Instance RunnerPlacementLossSource_eq_dec : EqDecision RunnerPlacementLossSource.
Proof. solve_decision. Defined.
#[export] Instance RunnerLostBeforePin_eq_dec : EqDecision RunnerLostBeforePin.
Proof. solve_decision. Defined.

Definition set_placement_state (self : SessionRunnerPlacement) (state : SessionRunnerPlacementState) :
    SessionRunnerPlacement :=
  mkPlacement (placement_session self) (placement_revision self) (placement_request self) state.

Definition placement_new (session : SessionId) (request : SessionRunnerPlacementRequest) :
    SessionRunnerPlacement := mkPlacement session runner_generation_one request PlacementUnpinned.

(** ** Validation *)

(** [validate_placement_request_against] *)
Definition validate_request_against (request : SessionRunnerPlacementRequest)
    (registration : ValidatedRunnerRegistration) : runner_result unit :=
  if negb (satisfies registration (request_selector request)) then Err SelectorMismatch else
  if negb (supports_sandbox registration (request_sandbox request)) then Err SandboxProfileUnavailable else
  _ ← refuse ToolUndeclared (find (fun tool =>
        negb (bool_decide (tool ∈ registration_catalog_tools registration)))
        (named_iter (request_overrides request)).*1);
  if match request_profile request with
     | Some profile => bool_decide (registration_profile registration profile = None)
     | None => false
     end
  then Err CredentialProfileUnavailable else
  match request_workspace request with
  | NoWorkspace => Ok tt
  | RepositoryWorktree repository =>
      if negb (supports_workspace registration WorktreePerSession)
      then Err WorkspaceCapabilityUnavailable else
      entry ← ok_or (registration_repository registration repository) RepositoryUnavailable;
      if negb (bool_decide (repository_profile entry = request_profile request))
      then Err CredentialProfileUnavailable else Ok tt
  end.

(** [validate_placement_request] *)
Definition validate_request (store : FenceStore) (request : SessionRunnerPlacementRequest)
    (registration : ValidatedRunnerRegistration) : runner_result unit :=
  if negb (registration_is_current store registration) then Err RegistrationChanged
  else validate_request_against request registration.

Inductive WorkspaceRevisionMatch := RevisionExact | RevisionRetained.

Section placement.
(** [Uuid]'s [Display], of the uuid crate. *)
Context (uuid_text : N -> text).

(** [format!("sessions/{}/{}/{}", ..)] *)
Definition expected_relative_path (actual : ProvisionedWorkspace) : text :=
  lit "sessions/" ++ uuid_text (as_uuid (workspace_session actual)) ++ lit "/"
  ++ lit (pretty (Npos (runner_generation (workspace_placement_revision actual)))) ++ lit "/"
  ++ (if bool_decide (is_Some (workspace_repository actual)) then lit "repo" else lit "work").

Definition common_workspace_facts_match (session : SessionId) (revision : RunnerGeneration)
    (request : SessionRunnerPlacementRequest) (registration : ValidatedRunnerRegistration)
    (directory : RunnerWorkingDirectory) (revision_match : WorkspaceRevisionMatch)
    (actual : ProvisionedWorkspace) : bool :=
  bool_decide (workspace_session actual = session)
  && match revision_match with
     | RevisionExact => bool_decide (workspace_placement_revision actual = revision)
     | RevisionRetained => generation_le (workspace_placement_revision actual) revision
     end
  && bool_decide (workspace_runner actual = registration_runner registration)
  && bool_decide (workspace_sandbox actual = request_sandbox request)
  && bool_decide (workspace_directory actual = directory)
  && bool_decide (relative_path_value (workspace_relative_path actual) = expected_relative_path actual).

(** The match over the required and the actual workspace. *)
Definition workspace_admitted (session : SessionId) (revision : RunnerGeneration)
    (request : SessionRunnerPlacementRequest) (registration : ValidatedRunnerRegistration)
    (directory : RunnerWorkingDirectory) (workspace : option ProvisionedWorkspace)
    (revision_match : WorkspaceRevisionMatch) : runner_result unit :=
  let common :=
    common_workspace_facts_match session revision request registration directory revision_match in
  let exact_directory :=
    match request_working_directory request with ExactDirectory _ => true | RunnerDefaultDirectory => false end in
  match request_workspace request, workspace with
  | NoWorkspace, None =>
      if bool_decide (request_sandbox request = SandboxAmbient) || exact_directory
      then Ok tt else Err WorkspaceMismatch
  | NoWorkspace, Some actual =>
      if bool_decide (request_sandbox request = SandboxWorkspaceRestricted) && common actual
         && bool_decide (workspace_repository actual = None)
         && bool_decide (workspace_clone_url_digest actual = None)
         && bool_decide (workspace_profile actual = None)
         && bool_decide (workspace_recovery actual = None)
         && negb exact_directory
      then Ok tt else Err WorkspaceMismatch
  | RepositoryWorktree repository, actual =>
      if supports_workspace registration WorktreePerSession
         && match actual with
            | Some actual =>
                common actual && bool_decide (workspace_repository actual = Some repository)
                && bool_decide (is_Some (workspace_clone_url_digest actual))
                && bool_decide (workspace_profile actual = request_profile request)
                && bool_decide (is_Some (workspace_recovery actual))
            | None => false
            end
      then Ok tt
      else if negb (supports_workspace registration WorktreePerSession)
      then Err WorkspaceCapabilityUnavailable else Err WorkspaceMismatch
  end.

Definition is_runner_only (declaration : RunnerToolDeclaration) : bool :=
  match declaration_loci declaration with RunnerOnly _ => true | _ => false end.

(** The facts a valid placement is pinned to. *)
Definition pinned_facts (request : SessionRunnerPlacementRequest)
    (registration : ValidatedRunnerRegistration) (directory : RunnerWorkingDirectory)
    (workspace : option ProvisionedWorkspace) : PinnedRunnerPlacement :=
  mkPinned (registration_runner registration) directory (request_profile request)
    ((fun _ => mkLineage (registration_runner registration) runner_generation_one)
       <$> request_profile request)
    (dom (registration_tools registration))
    (dom (filter (fun '(_, declaration) => is_runner_only declaration = true)
            (registration_tools registration)))
    workspace (request_sandbox request) (request_overrides request).

Definition validate_placement (session : SessionId) (revision : RunnerGeneration)
    (request : SessionRunnerPlacementRequest) (registration : ValidatedRunnerRegistration)
    (directory : RunnerWorkingDirectory) (workspace : option ProvisionedWorkspace)
    (revision_match : WorkspaceRevisionMatch) : runner_result PinnedRunnerPlacement :=
  _ ← validate_request_against request registration;
  if match request_working_directory request with
     | ExactDirectory required => negb (bool_decide (required = directory))
     | RunnerDefaultDirectory => false
     end
  then Err WorkingDirectoryMismatch else
  _ ← workspace_admitted session revision request registration directory workspace revision_match;
  Ok (pinned_facts request registration directory workspace).

(** The registration still offers everything the pin needs. *)
Definition registration_preserves_snapshot (request : SessionRunnerPlacementRequest)
    (pinned : PinnedRunnerPlacement) (registration : ValidatedRunnerRegistration) : bool :=
  bool_decide (pinned_runner pinned = registration_runner registration)
  && bool_decide (pinned_sandbox pinned = request_sandbox request)
  && bool_decide (pinned_overrides pinned = request_overrides request)
  && satisfies registration (request_selector request)
  && supports_sandbox registration (request_sandbox request)
  && forallb (fun tool => bool_decide (is_Some (registration_tool registration tool)))
       (names_iter (pinned_required_tools pinned))
  && match pinned_profile pinned with
     | Some profile => bool_decide (is_Some (registration_profile registration profile))
     | None => true
     end
  && match request_workspace request with
     | NoWorkspace => true
     | RepositoryWorktree repository =>
         supports_workspace registration WorktreePerSession
         && match registration_repository registration repository with
            | Some entry => bool_decide (repository_profile entry = request_profile request)
            | None => false
            end
     end.

(** ** Leases *)

Record ValidatedRunnerDispatch := mkDispatch {
  validated_runner : RunnerId;
  validated_registration_revision : RunnerGeneration;
  validated_placement_revision : RunnerGeneration;
  validated_directory : RunnerWorkingDirectory;
  validated_sandbox : RunnerSandboxProfile;
  validated_approval : CredentialToolApproval;
  validated_effect : RunnerToolEffectClass;
  validated_credential : option CredentialDispatchAuthorization;
}.

Definition exec_of {E A} (m : result E A) : exec E A :=
  match m with Ok a => Returned a | Err e => Rejected e end.

Definition dispatch_credential (session : SessionId) (pinned : PinnedRunnerPlacement)
    (grant : option CredentialProfileGrant) (tool : ToolName) :
    runner_exec (option CredentialDispatchAuthorization) :=
  match pinned_profile pinned, grant with
  | None, None => Returned None
  | Some profile, Some grant =>
      if bool_decide (pinned_lineage pinned = Some (grant_lineage grant))
      then authorization ← authorization_for grant session (pinned_runner pinned) profile tool;
           Returned (Some authorization)
      else Rejected CredentialProfileUnavailable
  | _, _ => Rejected CredentialProfileUnavailable
  end.

Definition validate_dispatch (store : FenceStore) (placement : SessionRunnerPlacement)
    (enrollment : RunnerEnrollment) (registration : ValidatedRunnerRegistration)
    (grant : option CredentialProfileGrant) (tool : ToolName) : runner_exec ValidatedRunnerDispatch :=
  match placement_state placement with
  | PlacementPinned pinned =>
      _ ← exec_of (enrollment_authorizes store enrollment registration);
      if negb (registration_preserves_snapshot (placement_request placement) pinned registration)
      then Rejected RegistrationChanged else
      if negb (bool_decide (tool ∈ pinned_tools pinned)) then Rejected RunnerToolUnavailable else
      declaration ← exec_ok_or (registration_tool registration tool) RunnerToolUnavailable;
      credential_authorization ← dispatch_credential (placement_session placement) pinned grant tool;
      let approval :=
        resolve_runner_approval (declaration_effect declaration) (pinned_sandbox pinned)
          (pinned_overrides pinned) tool in
      if match credential_authorization with
         | Some authorization => negb (bool_decide (dispatch_approval authorization = approval))
         | None => false
         end
      then Rejected RunnerFactsMismatch else
      Returned (mkDispatch (pinned_runner pinned) (registration_revision registration)
                  (placement_revision placement) (pinned_directory pinned) (pinned_sandbox pinned)
                  approval (declaration_effect declaration) credential_authorization)
  | _ => Rejected RunnerStateInvalid
  end.

Definition confirmed_by_user (source : ToolDecisionSource) : bool :=
  match source with SourceUserCommand | SourceUserOverride => true | _ => false end.

Definition validate_authorized_attempt (session : SessionId) (tool : ToolName)
    (effect : RunnerToolEffectClass) (approval : CredentialToolApproval)
    (authorization : LeaseAuthorization) :
    runner_result (ToolAttemptDispatchCorrelation * NormalizedToolArguments
                   * option RunnerRetryAttemptEvidence) :=
  let approved := runner_approved (lease_authorization authorization) in
  let authorized := runner_authorized (lease_authorization authorization) in
  let request := approved_request approved in
  let attempt := authorized_attempt authorized in
  let correlation := authorized_correlation authorized in
  let source := resolution_source (approved_approval approved) in
  if negb (bool_decide (request_name request = tool))
     || negb (bool_decide (request_id request = correlation_request correlation))
     || negb (bool_decide (request_session request = session))
     || negb (bool_decide (request_turn request = correlation_turn correlation))
     || negb (bool_decide (tool_attempt_session attempt = session))
     || negb (bool_decide (tool_attempt_effect_class attempt = tool_effect_class effect))
     || negb (bool_decide (tool_attempt_id attempt = correlation_attempt correlation))
     || bool_decide (source = SourceSessionBlanket)
     || (bool_decide (approval = ApprovalSessionPolicy) && negb (confirmed_by_user source))
  then Err RunnerFactsMismatch
  else Ok (correlation, request_arguments request, retry_evidence authorization).

(** [RunnerLease::offer_validated] of a validated dispatch *)
Definition offer_validated (lease : RunnerLeaseId) (attempt : ToolAttemptDispatchCorrelation)
    (dispatch : ValidatedRunnerDispatch) (tool : ToolName) (arguments : NormalizedToolArguments)
    (effect : RunnerToolEffectClass) (generation : RunnerGeneration) : RunnerLease :=
  mkLease lease attempt (validated_runner dispatch) (validated_registration_revision dispatch)
    (validated_placement_revision dispatch) (validated_directory dispatch) (validated_sandbox dispatch)
    tool arguments effect (validated_credential dispatch) generation LeaseOffered.

Definition offer_lease (store : FenceStore) (self : SessionRunnerPlacement)
    (enrollment : RunnerEnrollment) (registration : ValidatedRunnerRegistration)
    (grant : option CredentialProfileGrant) (authorization : LeaseAuthorization)
    (offer : RunnerLeaseOfferRequest) : runner_exec RunnerLease :=
  dispatch ← validate_dispatch store self enrollment registration grant (offer_tool offer);
  '(attempt, arguments, retry_evidence) ← exec_of
    (validate_authorized_attempt (placement_session self) (offer_tool offer) (validated_effect dispatch)
       (validated_approval dispatch) authorization);
  if bool_decide (is_Some retry_evidence) then Rejected RunnerFactsMismatch else
  Returned (offer_validated (offer_lease_id offer) attempt dispatch (offer_tool offer) arguments
              (validated_effect dispatch) runner_generation_one).

(** The evidence of a retried attempt fits the lost lease. *)
Definition check_retry_evidence (lost : RunnerLease) (claimed : option ToolAttemptId)
    (evidence : option RunnerRetryAttemptEvidence) (attempt : ToolAttemptDispatchCorrelation) :
    runner_result unit :=
  match claimed, evidence with
  | Some claimed, evidence =>
      if bool_decide (correlation_attempt attempt = claimed) then Err RunnerAttemptReuse else
      match evidence with
      | Some (EvidenceClaimed source replacement) =>
          if bool_decide (source = lease_correlation lost)
             && bool_decide (correlation_attempt (correlation_dispatch source) = claimed)
             && bool_decide (replacement = attempt)
          then Ok tt else Err RunnerFactsMismatch
      | _ => Err RunnerFactsMismatch
      end
  | None, Some (EvidenceUnclaimed source) =>
      if bool_decide (attempt = lease_dispatch lost) && bool_decide (source = lease_dispatch lost)
      then Ok tt else Err RunnerFactsMismatch
  | None, _ => Err RunnerFactsMismatch
  end.

Definition same_placement (lost : RunnerLease) (dispatch : ValidatedRunnerDispatch) : bool :=
  bool_decide (lease_runner lost = validated_runner dispatch)
  && bool_decide (lease_registration_revision lost = validated_registration_revision dispatch)
  && bool_decide (lease_placement_revision lost = validated_placement_revision dispatch)
  && bool_decide (lease_directory lost = validated_directory dispatch)
  && bool_decide (lease_sandbox lost = validated_sandbox dispatch)
  && bool_decide (lease_credential lost = validated_credential dispatch).

(** [lost.placement_revision < dispatch.placement_revision] *)
Definition successor_placement (lost : RunnerLease) (dispatch : ValidatedRunnerDispatch) : bool :=
  (runner_generation (lease_placement_revision lost)
   <? runner_generation (validated_placement_revision dispatch))%positive.

Definition offer_retry (store : FenceStore) (self : SessionRunnerPlacement)
    (enrollment : RunnerEnrollment) (registration : ValidatedRunnerRegistration)
    (grant : option CredentialProfileGrant) (loss : RunnerLeaseLoss)
    (authorization : LeaseAuthorization) : runner_exec RunnerLease :=
  match loss with
  | CrashClassificationRequired _ => Rejected RunnerStateInvalid
  | RetryPermitted lost retry _ =>
      if negb (source_matches (retry_source retry) lost) then Rejected RunnerFactsMismatch else
      dispatch ← validate_dispatch store self enrollment registration grant (lease_tool lost);
      if negb (bool_decide (correlation_session (lease_dispatch lost) = placement_session self))
         || negb (bool_decide (lease_effect lost = validated_effect dispatch))
         || negb (same_placement lost dispatch || successor_placement lost dispatch)
      then Rejected RunnerFactsMismatch else
      '(attempt, arguments, evidence) ← exec_of
        (validate_authorized_attempt (placement_session self) (lease_tool lost)
           (validated_effect dispatch) (validated_approval dispatch) authorization);
      if negb (bool_decide (lease_arguments lost = arguments)) then Rejected RunnerFactsMismatch else
      _ ← exec_of (check_retry_evidence lost (retry_claimed_attempt retry) evidence attempt);
      Returned (offer_validated (lease_id lost) attempt dispatch (lease_tool lost) arguments
                  (lease_effect lost) (retry_generation retry))
  end.

Record SessionRunnerPin := mkPin {
  pin_placement : SessionRunnerPlacement;
  pin_grant : option CredentialProfileGrant;
  pin_lease : RunnerLease;
}.

Definition pin_and_offer_lease (store : FenceStore) (self : SessionRunnerPlacement)
    (enrollment : RunnerEnrollment) (registration : ValidatedRunnerRegistration)
    (directory : RunnerWorkingDirectory) (workspace : option ProvisionedWorkspace)
    (authorization : LeaseAuthorization) (offer : RunnerLeaseOfferRequest) :
    runner_exec SessionRunnerPin :=
  match placement_state self with
  | PlacementUnpinned =>
      pinned ← exec_of (validate_placement (placement_session self) (placement_revision self)
        (placement_request self) registration directory workspace RevisionExact);
      grant ←
        match pinned_profile pinned with
        | Some profile =>
            grant ← build_grant (placement_session self) runner_generation_one registration profile
              (registered_tool_names registration) (pinned_sandbox pinned) (pinned_overrides pinned)
              GrantActive;
            Returned (Some grant)
        | None => Returned None
        end;
      let self := set_placement_state self (PlacementPinned pinned) in
      lease ← offer_lease store self enrollment registration grant authorization offer;
      Returned (mkPin self grant lease)
  | _ => Rejected RunnerStateInvalid
  end.

(** ** Loss and replacement *)

Definition mark_runner_lost (self : SessionRunnerPlacement) : runner_result SessionRunnerPlacement :=
  match placement_state self with
  | PlacementPinned pinned =>
      Ok (set_placement_state self (PlacementLost (mkLostPinned pinned LostConnection)))
  | _ => Err RunnerStateInvalid
  end.

Definition mark_runner_lost_before_pin (self : SessionRunnerPlacement) (runner : RunnerId) :
    runner_result SessionRunnerPlacement :=
  match placement_state self, request_selector (placement_request self) with
  | PlacementUnpinned, SelectIdentity selected =>
      if bool_decide (selected = runner)
      then Ok (set_placement_state self (PlacementLostBeforePin (mkLostBeforePin runner)))
      else Err RunnerStateInvalid
  | _, _ => Err RunnerStateInvalid
  end.

Definition reconcile_registration (store : FenceStore) (self : SessionRunnerPlacement)
    (registration : ValidatedRunnerRegistration) : runner_result SessionRunnerPlacement :=
  match placement_state self with
  | PlacementPinned pinned =>
      if negb (registration_is_current store registration) then Err RegistrationChanged else
      if negb (bool_decide (registration_runner registration = pinned_runner pinned))
      then Err RunnerFactsMismatch else
      if registration_preserves_snapshot (placement_request self) pinned registration
      then Ok self
      else Ok (set_placement_state self (PlacementLost (mkLostPinned pinned LostRegistration)))
  | _ => Err RunnerStateInvalid
  end.

Record RunnerPrePinReplacement := mkPrePinReplacement {
  prepin_placement : SessionRunnerPlacement;
  prepin_before : RunnerLostBeforePin;
  prepin_prior_request : SessionRunnerPlacementRequest;
  prepin_replacement_request : SessionRunnerPlacementRequest;
}.

(** [selector_names_runner] *)
Definition selector_names_runner (selector : RunnerSelector) (runner : RunnerId) : bool :=
  match selector with
  | SelectIdentity selected => bool_decide (selected = runner)
  | SelectCapabilityClass _ => false
  end.

Definition replace_lost_runner_before_pin (store : FenceStore) (self : SessionRunnerPlacement)
    (request : SessionRunnerPlacementRequest) (registration : ValidatedRunnerRegistration) :
    runner_result RunnerPrePinReplacement :=
  match placement_state self with
  | PlacementLostBeforePin before =>
      if negb (selector_names_runner (request_selector request) (registration_runner registration))
      then Err RunnerFactsMismatch else
      _ ← validate_request store request registration;
      if bool_decide (registration_runner registration = lost_runner before)
      then Err RunnerFactsMismatch else
      revision ← ok_or (runner_generation_checked_next (placement_revision self))
        RunnerGenerationExhausted;
      Ok (mkPrePinReplacement
            (mkPlacement (placement_session self) revision request PlacementUnpinned)
            before (placement_request self) request)
  | _ => Err RunnerStateInvalid
  end.

Record RunnerPlacementChange := mkPlacementChange {
  placement_change_session : SessionId;
  placement_prior_revision : RunnerGeneration;
  placement_replacement_revision : RunnerGeneration;
  placement_before_request : SessionRunnerPlacementRequest;
  placement_after_request : SessionRunnerPlacementRequest;
  placement_before : PinnedRunnerPlacement;
  placement_after : PinnedRunnerPlacement;
}.

Record RunnerPlacementReplacement := mkPlacementReplacement {
  replaced_placement : SessionRunnerPlacement;
  replaced_change : RunnerPlacementChange;
  replaced_grant : option CredentialProfileGrant;
  replaced_grant_change : option RunnerCredentialGrantChange;
}.

Definition set_pinned_lineage (self : PinnedRunnerPlacement)
    (lineage : option RunnerCredentialGrantLineage) : PinnedRunnerPlacement :=
  mkPinned (pinned_runner self) (pinned_directory self) (pinned_profile self) lineage
    (pinned_tools self) (pinned_required_tools self) (pinned_workspace self) (pinned_sandbox self)
    (pinned_overrides self).

Definition replace_lost_runner (store : FenceStore) (self : SessionRunnerPlacement)
    (request : SessionRunnerPlacementRequest) (registration : ValidatedRunnerRegistration)
    (directory : RunnerWorkingDirectory) (workspace : option ProvisionedWorkspace)
    (prior : option CredentialProfileGrant) : runner_exec RunnerPlacementReplacement :=
  match placement_state self with
  | PlacementLost lost =>
      let before := lost_pinned lost in
      if negb (registration_is_current store registration) then Rejected RegistrationChanged else
      if bool_decide (registration_runner registration = pinned_runner before)
         && negb (bool_decide (lost_source lost = LostRegistration))
      then Rejected RunnerFactsMismatch else
      revision ← exec_ok_or (runner_generation_checked_next (placement_revision self))
        RunnerGenerationExhausted;
      after ← exec_of (validate_placement (placement_session self) revision request registration
        directory workspace RevisionExact);
      '(grant, grant_change) ←
        successor_grant (placement_session self) before after registration prior;
      let after := set_pinned_lineage after (grant_lineage <$> grant) in
      Returned (mkPlacementReplacement
        (mkPlacement (placement_session self) revision request (PlacementPinned after))
        (mkPlacementChange (placement_session self) (placement_revision self) revision
           (placement_request self) request before after)
        grant grant_change)
  | _ => Rejected RunnerStateInvalid
  end.

Definition abandon_lost_runner (self : SessionRunnerPlacement) : runner_result SessionRunnerPlacement :=
  match placement_state self with
  | PlacementLostBeforePin lost =>
      Ok (set_placement_state self (PlacementAbandoned (AbandonedBeforePin lost)))
  | PlacementLost lost => Ok (set_placement_state self (PlacementAbandoned (AbandonedPinned lost)))
  | _ => Err RunnerStateInvalid
  end.

Record CredentialProfilePlacementReplacement := mkProfileReplacement {
  profile_placement : SessionRunnerPlacement;
  profile_placement_change : RunnerPlacementChange;
  profile_grant : CredentialProfileGrantReplacement;
}.

(** [after.credential_profile = Some(profile); after.grant_lineage = ..] *)
Definition set_pinned_profile (self : PinnedRunnerPlacement) (profile : CredentialProfileName)
    (lineage : RunnerCredentialGrantLineage) : PinnedRunnerPlacement :=
  mkPinned (pinned_runner self) (pinned_directory self) (Some profile) (Some lineage)
    (pinned_tools self) (pinned_required_tools self) (pinned_workspace self) (pinned_sandbox self)
    (pinned_overrides self).

Definition set_request_profile (self : SessionRunnerPlacementRequest) (profile : CredentialProfileName) :
    SessionRunnerPlacementRequest :=
  mkPlacementRequest (request_selector self) (request_working_directory self) (Some profile)
    (request_workspace self) (request_sandbox self) (request_overrides self).

Definition workspace_needs_other_profile (before : PinnedRunnerPlacement)
    (profile : CredentialProfileName) : bool :=
  match pinned_workspace before with
  | Some workspace =>
      bool_decide (is_Some (workspace_repository workspace))
      && negb (bool_decide (workspace_profile workspace = Some profile))
  | None => false
  end.

Definition replace_credential_profile (store : FenceStore) (self : SessionRunnerPlacement)
    (grant : CredentialProfileGrant) (registration : ValidatedRunnerRegistration)
    (profile : CredentialProfileName) (tools : list ToolName) :
    runner_exec CredentialProfilePlacementReplacement :=
  match placement_state self with
  | PlacementPinned before =>
      if negb (registration_is_current store registration) then Rejected RegistrationChanged else
      current_profile ← exec_ok_or (pinned_profile before) CredentialProfileUnavailable;
      if negb (grant_matches_selection grant (placement_session self) (pinned_runner before) current_profile)
         || negb (bool_decide (pinned_lineage before = Some (grant_lineage grant)))
      then Rejected RunnerFactsMismatch else
      if negb (bool_decide (registration_runner registration = pinned_runner before))
      then Rejected RunnerFactsMismatch else
      if negb (registration_preserves_snapshot (placement_request self) before registration)
      then Rejected RegistrationChanged else
      if workspace_needs_other_profile before profile then Rejected CredentialProfileUnavailable else
      revision ← exec_ok_or (runner_generation_checked_next (placement_revision self))
        RunnerGenerationExhausted;
      grant ← replace_for grant registration profile tools (pinned_sandbox before)
        (pinned_overrides before);
      let after := set_pinned_profile before profile (grant_lineage (replacement_grant grant)) in
      let request := set_request_profile (placement_request self) profile in
      Returned (mkProfileReplacement
        (mkPlacement (placement_session self) revision request (PlacementPinned after))
        (mkPlacementChange (placement_session self) (placement_revision self) revision
           (placement_request self) request before after)
        grant)
  | _ => Rejected RunnerStateInvalid
  end.

(** ** Reconstitution *)

Record RunnerPrePinReplacementHistory := mkPrePinHistory {
  history_prior_revision : RunnerGeneration;
  history_lost_runner : RunnerId;
  history_prior_request : SessionRunnerPlacementRequest;
  history_replacement_request : SessionRunnerPlacementRequest;
}.

Inductive RunnerPlacementReconstitutionHistory :=
| InitialPlacement
| PrePinReplacements (replacements : list RunnerPrePinReplacementHistory).

Record SessionRunnerPlacementReconstitutionInput := mkPlacementInput {
  stored_placement : SessionRunnerPlacement;
  stored_history : RunnerPlacementReconstitutionHistory;
}.

(** The loop over the replacements, latest first: the revision and the request
    each of them must lead to. *)
Fixpoint history_matches (revision : RunnerGeneration) (request : SessionRunnerPlacementRequest)
    (replacements : list RunnerPrePinReplacementHistory) : bool :=
  match replacements with
  | [] => bool_decide (revision = runner_generation_one)
  | replacement :: earlier =>
      let successor_differs :=
        match request_selector request with
        | SelectIdentity successor => negb (bool_decide (successor = history_lost_runner replacement))
        | SelectCapabilityClass _ => false
        end in
      if negb (bool_decide (runner_generation_checked_next (history_prior_revision replacement)
                            = Some revision))
         || negb (selector_names_runner (request_selector (history_prior_request replacement))
                    (history_lost_runner replacement))
         || negb (bool_decide (history_replacement_request replacement = request))
         || negb successor_differs
      then false
      else history_matches (history_prior_revision replacement) (history_prior_request replacement) earlier
  end.

Definition placement_revision_history_matches (revision : RunnerGeneration)
    (request : SessionRunnerPlacementRequest) (history : RunnerPlacementReconstitutionHistory) : bool :=
  match history with
  | InitialPlacement => bool_decide (revision = runner_generation_one)
  | PrePinReplacements [] => false
  | PrePinReplacements replacements => history_matches revision request (reverse replacements)
  end.

Definition lineage_is_valid (placement : SessionRunnerPlacement) (stored : PinnedRunnerPlacement)
    (tombstone : option CredentialProfileGrant) : bool :=
  match pinned_profile stored, pinned_lineage stored, tombstone with
  | Some _, Some lineage, None =>
      bool_decide (lineage_runner lineage = pinned_runner stored)
      && generation_le (lineage_revision lineage) (placement_revision placement)
  | None, None, None => true
  | None, Some lineage, Some tombstone =>
      bool_decide (grant_session tombstone = placement_session placement)
      && bool_decide (grant_state tombstone = GrantRevokedState)
      && bool_decide (grant_lineage tombstone = lineage)
      && generation_le (lineage_revision lineage) (placement_revision placement)
  | _, _, _ => false
  end.

Definition reconstitute_pinned_placement (placement : SessionRunnerPlacement)
    (stored : PinnedRunnerPlacement) (registration : option ValidatedRunnerRegistration)
    (tombstone : option CredentialProfileGrant) : runner_result SessionRunnerPlacement :=
  pinned_registration ← ok_or registration CorruptRunnerFacts;
  checked ← validate_placement (placement_session placement) (placement_revision placement)
    (placement_request placement) pinned_registration (pinned_directory stored)
    (pinned_workspace stored) RevisionRetained;
  let checked := set_pinned_lineage checked (pinned_lineage stored) in
  if lineage_is_valid placement stored tombstone && bool_decide (checked = stored)
  then Ok placement else Err CorruptRunnerFacts.

Definition placement_reconstitute (input : SessionRunnerPlacementReconstitutionInput)
    (expected_session : SessionId) (registration : option ValidatedRunnerRegistration)
    (tombstone : option CredentialProfileGrant) : runner_result SessionRunnerPlacement :=
  let placement := stored_placement input in
  if negb (bool_decide (placement_session placement = expected_session)) then Err CorruptRunnerFacts else
  let history_matches :=
    placement_revision_history_matches (placement_revision placement) (placement_request placement)
      (stored_history input) in
  match placement_state placement with
  | PlacementUnpinned => if history_matches then Ok placement else Err CorruptRunnerFacts
  | PlacementLostBeforePin lost | PlacementAbandoned (AbandonedBeforePin lost) =>
      if selector_names_runner (request_selector (placement_request placement)) (lost_runner lost)
         && history_matches
      then Ok placement else Err CorruptRunnerFacts
  | PlacementPinned stored =>
      reconstitute_pinned_placement placement stored registration tombstone
  | PlacementLost lost | PlacementAbandoned (AbandonedPinned lost) =>
      reconstitute_pinned_placement placement (lost_pinned lost) registration tombstone
  end.
End placement.
