(* ===== verification/RunnerRecovery.v ===== *)
(** * Runner recovery

    Model of [crates/domain/src/runner/recovery.rs]: the commands that replace,
    abandon and promote runners with their terminal results, and the boundary
    a replacement leaves in the transcript, an entry of its own and the
    frontier that ends in it. *)

From S2P Require Import Prelude Configuration TurnLifecycle Frontier FrontierSpec SemanticEntry BatchProjection ModelExecution Tool RunnerNames RunnerCatalog RunnerEnrollment RunnerGrant RunnerLease RunnerPlacement.

Local Open Scope list_scope.

(** ** Commands *)

Inductive RunnerProvisioningFailureKind :=
| CredentialUnavailable | RepositoryNotAcquired | SandboxUnavailable | WorkspaceConflict.

Record RunnerReplacementProvisioning := mkProvisioning {
  provisioning_authorization : RunnerProvisioningAuthorizationId;
  provisioning_command : DurableCommandId;
  provisioning_enrollment : RunnerEnrollmentId;
  provisioning_registration_revision : RunnerGeneration;
  provisioning_session : SessionId;
  provisioning_placement_revision : RunnerGeneration;
  provisioning_runner : RunnerId;
  provisioning_repository : option WorkspaceRepositoryKey;
  provisioning_sandbox : RunnerSandboxProfile;
  provisioning_profile : option CredentialProfileName;
  provisioning_recovery : option WorkspaceRecovery;
}.

Record ReplaceLostRunner := mkReplaceLost {
  replace_command : DurableCommandId;
  replace_session : SessionId;
  replace_revision : option WorkspaceRevision;
}.

Record AbandonLostRunner := mkAbandonLost {
  abandon_command : DurableCommandId;
  abandon_session : SessionId;
}.

Record PromotePendingRunner := mkPromote {
  promote_command : DurableCommandId;
  promote_request : RunnerEnrollmentRequestId;
}.

(** [PartialEq] of the commands leaves their identity out. *)
Definition replace_lost_eq (self other : ReplaceLostRunner) : bool :=
  bool_decide (replace_session self = replace_session other)
  && bool_decide (replace_revision self = replace_revision other).
Definition abandon_lost_eq (self other : AbandonLostRunner) : bool :=
  bool_decide (abandon_session self = abandon_session other).
Definition promote_eq (self other : PromotePendingRunner) : bool :=
  bool_decide (promote_request self = promote_request other).

Inductive RunnerRecoveryRejection :=
| SessionNotFound | PlacementNotLost | ExistingControlRequired | TurnTerminalized
| PendingRunnerNotFound | RunnerUnavailable | ReplacementPending | PlacementUnavailable
| RevisionWithoutRepository | ProvisioningFailed.

Inductive ReplaceLostRunnerResult :=
| RunnerReplaced (runner : RunnerId) (placement_revision : RunnerGeneration)
| ReplaceRejected (rejection : RunnerRecoveryRejection).
Inductive AbandonLostRunnerResult :=
| RunnerAbandonedResult
| AbandonRejected (rejection : RunnerRecoveryRejection).
Inductive PromotePendingRunnerResult :=
| RunnerPromoted (runner : RunnerId)
| PromoteRejected (rejection : RunnerRecoveryRejection).

(** ** The placement boundary *)

Section boundary.
Context {Snap : Type} `{ContextSnapshots Snap, !SnapshotCandidates Snap}.
Context (token : ContentToken).

Record RunnerPlacementBoundary := mkBoundary {
  boundary_entry : SemanticTranscriptEntry;
  boundary_frontier : Snap;
}.

(** The prior frontier is another session's. *)
Definition foreign_frontier (session : SessionId) (prior : option Snap) : bool :=
  match prior with
  | Some prior => negb (bool_decide (owning_session (snapshot_frontier prior) = session))
  | None => false
  end.

Definition prepare_revision (session : SessionId) (prior_revision replacement_revision : RunnerGeneration)
    (entry : SemanticTranscriptEntryId) (frontier : ContextFrontierId) (prior : option Snap) :
    runner_result RunnerPlacementBoundary :=
  if negb (bool_decide (runner_generation_checked_next prior_revision = Some replacement_revision))
     || foreign_frontier session prior
  then Err RunnerFactsMismatch else
  let entry := from_validated_parts entry session (RunnerPlacementChanged replacement_revision) in
  let reference := reference entry in
  frontier ←
    match prior with
    | Some prior =>
        map_err (fun _ => RunnerStateInvalid) (snapshot_derive token prior frontier [reference])
    | None =>
        map_err (fun _ => RunnerStateInvalid) (snapshot_candidate token session frontier [reference])
    end;
  Ok (mkBoundary entry frontier).

Definition boundary_prepare (replacement : RunnerPlacementReplacement)
    (entry : SemanticTranscriptEntryId) (frontier : ContextFrontierId) (prior : option Snap) :
    runner_result RunnerPlacementBoundary :=
  let placement := replaced_placement replacement in
  let change := replaced_change replacement in
  if negb (bool_decide (placement_change_session change = placement_session placement))
     || negb (bool_decide (runner_generation_checked_next (placement_prior_revision change)
                           = Some (placement_revision placement)))
     || negb (bool_decide (placement_replacement_revision change = placement_revision placement))
     || foreign_frontier (placement_session placement) prior
  then Err RunnerFactsMismatch else
  prepare_revision (placement_session placement) (placement_prior_revision change)
    (placement_revision placement) entry frontier prior.
End boundary.

(** The boundary of a replaced runner follows any frontier of its session under
    fresh identities. *)
Lemma boundary_prepare_exact {Snap : Type} `{ContextSnapshotsLaws Snap, !SnapshotCandidates Snap}
    uuid_text token store placement request registration directory workspace prior_grant replacement entry
    frontier (prior : Snap) :
  replace_lost_runner uuid_text store placement request registration directory workspace prior_grant
    = Returned replacement ->
  snapshot_wf prior -> owning_session (snapshot_frontier prior) = placement_session placement ->
  (exists boundary, boundary_prepare token replacement entry frontier (Some prior) = Ok boundary) <->
  frontier <> frontier_snapshot (snapshot_frontier prior)
  /\ NoDup (snapshot_entries prior
       ++ [reference (from_validated_parts entry (placement_session placement)
             (RunnerPlacementChanged (placement_revision (replaced_placement replacement))))]).
Proof.
  intros Hreplace Hwf Howner. unfold replace_lost_runner in Hreplace.
  destruct (placement_state placement) as [| | |lost|]; try done.
  destruct (negb (registration_is_current _ _)); [done|]. destruct (_ && _) in Hreplace; [done|].
  apply exec_bind_Returned in Hreplace as (revision & Hnext%exec_ok_or_Returned & Hreplace).
  apply exec_bind_Returned in Hreplace as (after & _ & Hreplace).
  apply exec_bind_Returned in Hreplace as ([grant change] & _ & [= <-]).
  rewrite <- (snapshot_derive_total token) by done.
  unfold boundary_prepare, prepare_revision.
  cbn [replaced_placement replaced_change placement_change_session placement_session placement_prior_revision
    placement_revision placement_replacement_revision foreign_frontier].
  rewrite Hnext, Howner, !bool_decide_true by done. cbn [negb orb]. split.
  - intros [boundary (derived & Hderived & _)%bind_Ok]. apply map_err_Ok in Hderived. by eexists.
  - intros [derived Hderived]. eexists. apply bind_Ok. exists derived. split; [|done].
    by apply map_err_Ok.
Qed.
