(* ===== verification/RunnerEnrollmentSpec.v ===== *)
(** * Registrations: what is admitted, and the fence that orders them

    What an enrollment admits, declaratively; every interleaving of the atomic
    steps of preparations and commits with revocation and promotion, whichever
    way the enrollment came to be; and the reconstitution of stored
    registrations. *)

From stdpp Require Import strings sets.
From S2P Require Import Prelude TurnLifecycle Tool SemanticEntry BatchProjection ModelExecution RunnerNames RunnerCatalog RunnerEnrollment.

Local Open Scope list_scope.

(** ** Names in order *)

Section names.
Context {K : Type} `{Countable K, TextKey K}.
Implicit Types (names : gset K).

Lemma elem_of_names_iter names x : x ∈ names_iter names <-> x ∈ names.
Proof. unfold names_iter. by rewrite merge_sort_Permutation, elem_of_elements. Qed.

Lemma NoDup_names_iter names : NoDup (names_iter names).
Proof. unfold names_iter. rewrite merge_sort_Permutation. apply NoDup_elements. Qed.

Lemma elem_of_named_iter {V} (m : gmap K V) k v : (k, v) ∈ named_iter m <-> m !! k = Some v.
Proof. unfold named_iter. by rewrite merge_sort_Permutation, elem_of_map_to_list. Qed.

Lemma find_None_forall {A} (f : A -> bool) l : find f l = None <-> Forall (fun x => f x = false) l.
Proof.
  induction l as [|x l IH]; simpl; [by split|]. rewrite Forall_cons, <- IH.
  destruct (f x); naive_solver.
Qed.

Lemma refuse_Ok {A} (e : A -> RunnerDomainError) o u : refuse e o = Ok u <-> o = None.
Proof. destruct o, u; simpl; naive_solver. Qed.

Lemma unit_bind_Ok {E A} (m : result E unit) (k : result E A) r :
  (m ≫= fun _ => k) = Ok r <-> m = Ok tt /\ k = Ok r.
Proof. destruct m as [[]|]; simpl; naive_solver. Qed.

Lemma head_omap_None {A B} (f : A -> option B) l :
  head (omap f l) = None <-> forall x, x ∈ l -> f x = None.
Proof.
  induction l as [|x l IH]; simpl; [set_solver|]. setoid_rewrite elem_of_cons.
  destruct (f x) eqn:Hx; simpl; [|naive_solver]. split; [done|]. intros Hl.
  rewrite (Hl x) in Hx by by left. done.
Qed.

Lemma first_outside_None (admitted : K -> bool) names :
  first_outside admitted names = None <-> forall x, x ∈ names -> admitted x = true.
Proof.
  unfold first_outside. rewrite find_None_forall, Forall_forall. setoid_rewrite elem_of_names_iter.
  by setoid_rewrite negb_false_iff.
Qed.

(** The entries of a map under the given names. *)
Definition restrict {V} (names : gset K) (m : gmap K V) : gmap K V :=
  filter (fun '(k, _) => k ∈ names) m.

Lemma restrict_lookup {V} names (m : gmap K V) k :
  restrict names m !! k = if bool_decide (k ∈ names) then m !! k else None.
Proof.
  unfold restrict. rewrite map_lookup_filter. case_bool_decide as Hk.
  - destruct (m !! k); simpl; [|done]. by rewrite option_guard_True.
  - destruct (m !! k); simpl; [|done]. by rewrite option_guard_False.
Qed.

Lemma collect_declared_spec {V} (e : K -> RunnerDomainError) (declared names collected : gmap K V) l :
  try_fold (collect_declared e declared) l collected = Ok names <->
  (forall k, k ∈ l -> is_Some (declared !! k))
  /\ names = foldl (fun m k => partial_alter (fun _ => declared !! k) k m) collected l.
Proof.
  revert collected. induction l as [|k l IH]; intros collected; cbn [try_fold foldl].
  - split; [intros [= <-]; by split; [set_solver|]|by intros [_ ->]].
  - rewrite bind_Ok. unfold collect_declared at 1. setoid_rewrite bind_Ok. setoid_rewrite ok_or_Ok. split.
    + intros (m & (v & Hv & [= <-]) & (Hall & ->)%IH). split.
      * intros k' [->|Hk']%elem_of_cons; [by eexists|by apply Hall].
      * by rewrite Hv.
    + intros [Hall ->]. destruct (Hall k) as [v Hv]; [by left|]. eexists. split.
      * exists v. by split.
      * apply IH. split; [intros k' Hk'; apply Hall; by right|]. by rewrite Hv.
Qed.

Lemma collect_declared_restrict {V} (e : K -> RunnerDomainError) (declared : gmap K V) names collected :
  try_fold (collect_declared e declared) (names_iter names) ∅ = Ok collected <->
  (forall k, k ∈ names -> is_Some (declared !! k)) /\ collected = restrict names declared.
Proof.
  rewrite collect_declared_spec. setoid_rewrite elem_of_names_iter.
  enough (foldl (fun m k => partial_alter (fun _ => declared !! k) k m) ∅ (names_iter names)
    = restrict names declared) as -> by done.
  apply map_eq. intros k. rewrite restrict_lookup.
  rewrite (bool_decide_ext _ (k ∈ names_iter names)) by (symmetry; apply elem_of_names_iter).
  generalize (names_iter names) as l. intros l.
  enough (forall m : gmap K V, foldl (fun m k => partial_alter (fun _ => declared !! k) k m) m l !! k
    = if bool_decide (k ∈ l) then declared !! k else m !! k) as ->.
  { case_bool_decide; [done|]. by rewrite lookup_empty. }
  induction l as [|k' l IH]; intros m; cbn [foldl]; [by rewrite bool_decide_false by set_solver|].
  rewrite IH. destruct (decide (k ∈ l)); [by rewrite !bool_decide_true by set_solver|].
  rewrite (bool_decide_false (k ∈ l)) by done. destruct (decide (k = k')) as [->|Hne].
  - rewrite lookup_partial_alter_eq. by rewrite bool_decide_true by set_solver.
  - rewrite lookup_partial_alter_ne by done. by rewrite bool_decide_false by set_solver.
Qed.
End names.

(** ** What an enrollment admits *)

(** The tool may run on this runner, as advertised. *)
Definition runs_on (self : RunnerEnrollment) (classes : gset RunnerCapabilityClass)
    (declaration : RunnerToolDeclaration) : Prop :=
  match runner_selector (declaration_loci declaration) with
  | Some (SelectIdentity runner) => runner = enrollment_runner self
  | Some (SelectCapabilityClass class) => class ∈ classes
  | None => False
  end.

Record advertisement_admissible (self : RunnerEnrollment) (catalog : RunnerCatalog)
    (advertisement : RunnerAdvertisement) : Prop := mkAdmissible {
  admissible_classes :
    advertised_classes advertisement ⊆ enrollment_allowed_classes self ∩ catalog_classes catalog;
  admissible_tools : forall tool, tool ∈ advertised_tools advertisement ->
    exists declaration, catalog_tools catalog !! tool = Some declaration
      /\ runs_on self (advertised_classes advertisement) declaration;
  admissible_profiles : advertised_profiles advertisement ⊆ dom (catalog_profiles catalog);
  admissible_workspaces : advertised_workspaces advertisement ⊆ catalog_workspaces catalog;
  admissible_sandboxes : advertised_sandboxes advertisement ⊆ catalog_sandboxes catalog;
  admissible_repositories : forall key entry profile,
    advertised_repositories advertisement !! key = Some entry -> repository_profile entry = Some profile ->
    profile ∈ advertised_profiles advertisement;
}.

(** The registration an advertisement leads to at a revision. *)
Definition registration_of (self : RunnerEnrollment) (catalog : RunnerCatalog)
    (advertisement : RunnerAdvertisement) (revision : RunnerGeneration) : ValidatedRunnerRegistration :=
  mkRegistration (enrollment_id self) (enrollment_runner self) (enrollment_authentication self)
    (dom (catalog_tools catalog)) (advertised_classes advertisement)
    (restrict (advertised_tools advertisement) (catalog_tools catalog))
    (restrict (advertised_profiles advertisement) (catalog_profiles catalog))
    (advertised_workspaces advertisement) (advertised_sandboxes advertisement)
    (advertised_default_directory advertisement) (advertised_repositories advertisement) revision
    (enrollment_revision_cell self) (enrollment_active_cell self).

Lemma locus_admits_spec self advertisement catalog tool :
  locus_admits self advertisement catalog tool = true <->
  exists declaration, catalog_tools catalog !! tool = Some declaration
    /\ runs_on self (advertised_classes advertisement) declaration.
Proof.
  unfold locus_admits, runs_on. destruct (catalog_tools catalog !! tool) as [declaration|]; [|naive_solver].
  destruct (runner_selector (declaration_loci declaration)) as [[]|] eqn:Hsel;
    rewrite ?bool_decide_eq_true; split.
  all: first [intros Hx; eexists; split; [done|]; by rewrite Hsel
             |intros (? & [= <-] & Hx); by rewrite Hsel in Hx|done].
Qed.

Lemma elem_of_sandboxes_iter sandboxes x : x ∈ sandboxes_iter sandboxes <-> x ∈ sandboxes.
Proof.
  unfold sandboxes_iter. rewrite list_elem_of_filter. split; [naive_solver|]. intros Hx.
  split; [done|]. destruct x; set_solver.
Qed.

Lemma check_advertisement_Ok self advertisement catalog u :
  check_advertisement self advertisement catalog = Ok u <-> advertisement_admissible self catalog advertisement.
Proof.
  unfold check_advertisement. rewrite !unit_bind_Ok, !refuse_Ok, !first_outside_None, !find_None_forall,
    !Forall_forall, head_omap_None.
  setoid_rewrite elem_of_elements. setoid_rewrite elem_of_sandboxes_iter.
  setoid_rewrite locus_admits_spec. setoid_rewrite andb_true_iff. setoid_rewrite negb_false_iff.
  setoid_rewrite bool_decide_eq_true. setoid_rewrite list_elem_of_fmap.
  split.
  - intros (Hclasses & Htools & Hloci & Hprofiles & Hworkspaces & Hsandboxes & Hrepos).
    constructor; [| |intros x Hx; apply elem_of_dom; by apply Hprofiles|exact Hworkspaces
                 |exact Hsandboxes|].
    + intros x Hx. apply elem_of_intersection. by apply Hclasses.
    + exact Hloci.
    + intros key entry profile Hentry Hprofile.
      assert (missing_profile advertisement entry = None) as Hmissing.
      { apply Hrepos. exists (key, entry). split; [done|]. by apply elem_of_named_iter. }
      revert Hmissing. unfold missing_profile. rewrite Hprofile. simpl. by case_bool_decide.
  - intros [Hclasses Htools Hprofiles Hworkspaces Hsandboxes Hrepos].
    split_and!; [|  |exact Htools| |exact Hworkspaces|exact Hsandboxes|].
    + intros x Hx. by apply elem_of_intersection, Hclasses.
    + intros x Hx. destruct (Htools x Hx) as (d & Hd & _). by eexists.
    + intros x Hx. apply elem_of_dom. by apply Hprofiles.
    + intros entry ([key entry'] & -> & Hentry%elem_of_named_iter). simpl in *.
      unfold missing_profile. destruct (repository_profile entry') as [profile|] eqn:Hp; [|done]. simpl.
      rewrite bool_decide_true; [done|]. by eapply Hrepos.
Qed.

(** ** Preparation *)

Definition revision_after (issued : N) : option RunnerGeneration :=
  u64_checked_add issued 1 ≫= runner_generation_try_from_u64.

Lemma revision_after_Some issued revision :
  revision_after issued = Some revision <->
  (issued < u64_max)%N /\ Npos (runner_generation revision) = (issued + 1)%N.
Proof.
  unfold revision_after. destruct (u64_checked_add issued 1) as [n|] eqn:Hadd; simpl.
  - apply u64_checked_add_Some in Hadd as [-> Hle]. destruct revision as [p].
    unfold runner_generation_try_from_u64. revert Hle. generalize u64_max as M. intros M Hle.
    destruct (issued + 1)%N as [|q] eqn:Hq; [lia|]. simpl. split.
    + intros [= ->]. split; [lia|done].
    + intros [_ [= ->]]. done.
  - apply u64_checked_add_None in Hadd. split; [done|]. lia.
Qed.

Lemma validate_advertisement_Ok store self advertisement catalog prepared :
  validate_advertisement store self advertisement catalog = Ok prepared <->
  advertisement_admissible self catalog advertisement
  /\ exists revision, revision_after (load store (enrollment_revision_cell self)) = Some revision
    /\ prepared = mkPreparedRegistration (load store (enrollment_revision_cell self))
         (enrollment_preparation_cell self) (registration_of self catalog advertisement revision).
Proof.
  unfold validate_advertisement. rewrite bind_Ok. setoid_rewrite check_advertisement_Ok. split.
  - intros (_ & Hadm & Hok). apply bind_Ok in Hok as (tools & [_ ->]%collect_declared_restrict & Hok).
    apply bind_Ok in Hok as (profiles & [_ ->]%collect_declared_restrict & Hok).
    apply bind_Ok in Hok as (revision & Hrev%ok_or_Ok & [= <-]). split; [done|]. by exists revision.
  - intros (Hadm & revision & Hrev & ->). exists tt. split; [done|].
    apply bind_Ok. eexists. split.
    { apply collect_declared_restrict. split; [|done]. intros tool Htool.
      destruct (admissible_tools _ _ _ Hadm tool Htool) as (d & Hd & _). by eexists. }
    apply bind_Ok. eexists. split.
    { apply collect_declared_restrict. split; [|done]. intros profile Hprofile.
      apply elem_of_dom. by apply (admissible_profiles _ _ _ Hadm). }
    apply bind_Ok. exists revision. split; [by apply ok_or_Ok|done].
Qed.

Lemma fence_compare_exchange_true store cell expected new store' :
  fence_compare_exchange store cell expected new = (true, store') <->
  load store cell = expected /\ store' = <[cell := new]> store.
Proof. unfold fence_compare_exchange. destruct (N.eqb_spec (load store cell) expected); naive_solver. Qed.

Lemma begin_preparation_Ok store self advertisement u store' :
  begin_preparation store self advertisement = (Ok u, store') <->
  enrollment_state self = EnrollmentActive /\ size (advertised_repositories advertisement) <= MAX_REPOSITORIES
  /\ load store (enrollment_preparation_cell self) = 0%N
  /\ store' = <[enrollment_preparation_cell self := 1%N]> store.
Proof.
  unfold begin_preparation. case_bool_decide as Hstate; simpl; [|naive_solver].
  destruct (Nat.ltb_spec MAX_REPOSITORIES (size (advertised_repositories advertisement))) as [Hlt|Hle].
  { split; [done|]. intros (_ & Hle & _). lia. }
  destruct (fence_compare_exchange _ _ _ _) as [claimed store''] eqn:Hcas. destruct u. split.
  - destruct claimed; [|done]. intros [= <-]. apply fence_compare_exchange_true in Hcas as [-> ->]. done.
  - intros (_ & _ & Hload & ->). unfold fence_compare_exchange in Hcas. rewrite Hload in Hcas.
    simpl in Hcas. by simplify_eq.
Qed.

Lemma begin_preparation_Err store self advertisement e store' :
  begin_preparation store self advertisement = (Err e, store') -> store' = store.
Proof.
  unfold begin_preparation, fence_compare_exchange. repeat case_match; naive_solver.
Qed.

(** ** Every interleaving of preparations and commits

    The atomic steps the threads of one enrollment take on its shared cells. A
    preparation claims the fence, then reads the revision; what it returns is
    held until it is dropped or committed; a commit reads the active flag,
    advances the revision and releases the fence. The owner may revoke or
    promote the enrollment at any point. *)

Inductive Thread :=
| Validating (advertisement : RunnerAdvertisement)
| Holding (prepared : PreparedRunnerRegistration)
| Committing (prepared : PreparedRunnerRegistration)
| Committed (committed : runner_result ValidatedRunnerRegistration).

Record World := mkWorld {
  world_store : FenceStore;
  world_enrollment : RunnerEnrollment;
  world_threads : list Thread;
  world_registrations : list ValidatedRunnerRegistration;
}.

(** [base] counts the revisions issued before the execution starts. *)
Section interleaving.
Context (catalog : RunnerCatalog) (base : N).

(** The registrations committed after a commit returned [r]. *)
Definition recorded (registrations : list ValidatedRunnerRegistration)
    (r : runner_result ValidatedRunnerRegistration) : list ValidatedRunnerRegistration :=
  match r with Ok registration => registrations ++ [registration] | Err _ => registrations end.

Definition released (w : World) (threads : list Thread) : World :=
  mkWorld (release_preparation (world_store w) (enrollment_preparation_cell (world_enrollment w)))
    (world_enrollment w) threads (world_registrations w).

Inductive fence_step : World -> World -> Prop :=
| step_begin w advertisement store :
    begin_preparation (world_store w) (world_enrollment w) advertisement = (Ok tt, store) ->
    fence_step w (mkWorld store (world_enrollment w) (Validating advertisement :: world_threads w)
                    (world_registrations w))
| step_validate w advertisement before after prepared :
    world_threads w = before ++ Validating advertisement :: after ->
    validate_advertisement (world_store w) (world_enrollment w) advertisement catalog = Ok prepared ->
    fence_step w (mkWorld (world_store w) (world_enrollment w) (before ++ Holding prepared :: after)
                    (world_registrations w))
| step_refuse w advertisement before after e :
    world_threads w = before ++ Validating advertisement :: after ->
    validate_advertisement (world_store w) (world_enrollment w) advertisement catalog = Err e ->
    fence_step w (released w (before ++ after))
| step_abandon w prepared before after :
    world_threads w = before ++ Holding prepared :: after ->
    fence_step w (released w (before ++ after))
| step_inactive w prepared before after :
    world_threads w = before ++ Holding prepared :: after ->
    load_flag (world_store w) (registration_active_cell (prepared_registration prepared)) = false ->
    fence_step w (released w (before ++ after))
| step_commit w prepared before after :
    world_threads w = before ++ Holding prepared :: after ->
    load_flag (world_store w) (registration_active_cell (prepared_registration prepared)) = true ->
    fence_step w (mkWorld (world_store w) (world_enrollment w) (before ++ Committing prepared :: after)
                    (world_registrations w))
| step_advance w prepared before after r store :
    world_threads w = before ++ Committing prepared :: after ->
    advance_revision (world_store w) prepared = (r, store) ->
    fence_step w (mkWorld store (world_enrollment w) (before ++ Committed r :: after)
                    (recorded (world_registrations w) r))
| step_release w r before after :
    world_threads w = before ++ Committed r :: after ->
    fence_step w (released w (before ++ after))
| step_revoke w enrollment store :
    revoke_in_place (world_store w) (world_enrollment w) = (Ok enrollment, store) ->
    fence_step w (mkWorld store enrollment (world_threads w) (world_registrations w))
| step_promote w enrollment store :
    promote_pending_in_place (world_store w) (world_enrollment w) = (Ok enrollment, store) ->
    fence_step w (mkWorld store enrollment (world_threads w) (world_registrations w)).

Definition issued_revisions (w : World) : N := (base + N.of_nat (length (world_registrations w)))%N.

(** The registrations carry the revisions that follow the first ones. *)
Definition numbered_on (registrations : list ValidatedRunnerRegistration) : Prop :=
  forall i r, registrations !! i = Some r ->
    Npos (runner_generation (registration_revision r)) = (base + N.of_nat i + 1)%N.

(** What a thread holds of an enrollment that issued [last] revisions. *)
Definition thread_holds (self : RunnerEnrollment) (last : N) (thread : Thread) : Prop :=
  match thread with
  | Validating _ => True
  | Holding prepared | Committing prepared =>
      prepared_expected_revision prepared = last
      /\ registration_revision_cell (prepared_registration prepared) = enrollment_revision_cell self
      /\ registration_active_cell (prepared_registration prepared) = enrollment_active_cell self
      /\ Npos (runner_generation (registration_revision (prepared_registration prepared)))
         = (last + 1)%N
  | Committed r => exists registration, r = Ok registration
  end.

Record fenced (w : World) : Prop := mkFenced {
  fenced_cells : NoDup [enrollment_revision_cell (world_enrollment w);
                        enrollment_active_cell (world_enrollment w);
                        enrollment_preparation_cell (world_enrollment w)];
  fenced_threads : (length (world_threads w) <= 1)%nat;
  fenced_flag : load (world_store w) (enrollment_preparation_cell (world_enrollment w))
                = N.of_nat (length (world_threads w));
  fenced_issued : load (world_store w) (enrollment_revision_cell (world_enrollment w))
                  = issued_revisions w;
  fenced_active : load_flag (world_store w) (enrollment_active_cell (world_enrollment w))
                  = bool_decide (enrollment_state (world_enrollment w) = EnrollmentActive);
  fenced_holds : Forall (thread_holds (world_enrollment w) (issued_revisions w)) (world_threads w);
  fenced_numbered : numbered_on (world_registrations w);
  fenced_registrations : Forall (fun r =>
      registration_revision_cell r = enrollment_revision_cell (world_enrollment w)
      /\ registration_active_cell r = enrollment_active_cell (world_enrollment w)) (world_registrations w);
}.

Lemma load_insert store cell value : load (<[cell := value]> store) cell = value.
Proof. unfold load. by rewrite lookup_insert_eq. Qed.
Lemma load_insert_ne store cell cell' value :
  cell <> cell' -> load (<[cell := value]> store) cell' = load store cell'.
Proof. intros Hne. unfold load. by rewrite lookup_insert_ne. Qed.

Lemma fenced_distinct w : fenced w ->
  let self := world_enrollment w in
  enrollment_revision_cell self <> enrollment_active_cell self
  /\ enrollment_revision_cell self <> enrollment_preparation_cell self
  /\ enrollment_active_cell self <> enrollment_preparation_cell self.
Proof.
  intros Hw. pose proof (fenced_cells w Hw) as Hnd. apply NoDup_cons in Hnd as [H1 Hnd].
  apply NoDup_cons in Hnd as [H2 _]. set_solver.
Qed.

(** The only thread is the one found. *)
Lemma sole_thread w before thread after :
  fenced w -> world_threads w = before ++ thread :: after -> before = [] /\ after = [].
Proof.
  intros Hw Hthreads. pose proof (fenced_threads w Hw) as Hlen. rewrite Hthreads, length_app in Hlen.
  simpl in Hlen. destruct before, after; simpl in Hlen; [done|lia..].
Qed.

Lemma fenced_released w : fenced w -> fenced (released w []).
Proof.
  intros Hw. destruct (fenced_distinct w Hw) as (H1 & H2 & H3). destruct Hw.
  constructor; cbn [released world_store world_enrollment world_threads world_registrations length];
    unfold release_preparation, load_flag in *; try done.
  - lia.
  - by rewrite load_insert.
  - by rewrite load_insert_ne.
  - by rewrite load_insert_ne.
Qed.

(** A world that differs in its only thread. *)
Lemma fenced_thread w thread :
  fenced w -> length (world_threads w) = 1%nat ->
  thread_holds (world_enrollment w) (issued_revisions w) thread ->
  fenced (mkWorld (world_store w) (world_enrollment w) [thread] (world_registrations w)).
Proof.
  intros [] Hlen Hthread. constructor; simpl; try done; [by rewrite Hlen in *|by constructor].
Qed.

Lemma fenced_begin w advertisement store :
  fenced w -> begin_preparation (world_store w) (world_enrollment w) advertisement = (Ok tt, store) ->
  fenced (mkWorld store (world_enrollment w) (Validating advertisement :: world_threads w)
            (world_registrations w)).
Proof.
  intros Hw (_ & _ & Hfree & ->)%begin_preparation_Ok.
  destruct (fenced_distinct w Hw) as (H1 & H2 & H3). destruct Hw as [Hcells Hthreads Hflag].
  rewrite Hflag in Hfree. destruct (world_threads w) as [|thread threads]; [|simpl in Hfree; lia].
  constructor; simpl; unfold load_flag in *; try done; rewrite ?load_insert, ?load_insert_ne by done; try done.
  by constructor.
Qed.

Lemma fenced_advance w prepared r store :
  fenced w -> world_threads w = [Committing prepared] ->
  advance_revision (world_store w) prepared = (r, store) ->
  fenced (mkWorld store (world_enrollment w) [Committed r] (recorded (world_registrations w) r)).
Proof.
  intros Hw Hthreads Hadvance. destruct (fenced_distinct w Hw) as (H1 & H2 & H3).
  destruct Hw as [Hcells Hlen Hflag Hissued Hactive Hholds Hnum Hregs].
  rewrite Hthreads in Hholds. apply Forall_singleton in Hholds as (Hexp & Hrev & Hact & Hnext).
  unfold advance_revision, fence_compare_exchange in Hadvance.
  rewrite Hrev, Hissued, Hexp, N.eqb_refl in Hadvance. injection Hadvance as <- <-.
  rewrite Hthreads in Hflag. unfold load_flag in *.
  constructor; simpl in *; unfold load_flag; rewrite ?load_insert, ?load_insert_ne by done; try done.
  - rewrite Hnext. unfold issued_revisions. simpl. rewrite length_app. simpl. lia.
  - constructor; [by eexists|done].
  - intros i x [Hx|[Hi Hx]]%lookup_app_Some; [by apply Hnum|].
    destruct (i - length (world_registrations w))%nat eqn:Hd; [|done]. injection Hx as <-.
    rewrite Hnext. unfold issued_revisions. lia.
  - apply Forall_app. split; [done|]. by constructor.
Qed.

(** A state and its flag are set together. *)
Lemma fenced_set_state w state :
  fenced w ->
  fenced (mkWorld (<[enrollment_active_cell (world_enrollment w)
                     := (if bool_decide (state = EnrollmentActive) then 1 else 0)%N]> (world_store w))
            (set_enrollment_state (world_enrollment w) state) (world_threads w) (world_registrations w)).
Proof.
  intros Hw. destruct (fenced_distinct w Hw) as (H1 & H2 & H3). destruct Hw.
  constructor; simpl in *; unfold load_flag in *; rewrite ?load_insert, ?load_insert_ne by done; try done.
  by destruct (bool_decide (state = EnrollmentActive)).
Qed.

Lemma fence_step_fenced w w' : fence_step w w' -> fenced w -> fenced w'.
Proof.
  intros Hstep Hw. destruct Hstep as [w advertisement store Hbegin|w advertisement before after prepared Ht Hval
    |w advertisement before after e Ht _|w prepared before after Ht|w prepared before after Ht _
    |w prepared before after Ht _|w prepared before after r store Ht Hadv|w r before after Ht
    |w enrollment store Hrevoke|w enrollment store Hpromote].
  - by apply fenced_begin.
  - destruct (sole_thread _ _ _ _ Hw Ht) as [-> ->]. apply fenced_thread; [done|by rewrite Ht|].
    apply validate_advertisement_Ok in Hval as (_ & revision & [_ Hrev]%revision_after_Some & ->).
    rewrite (fenced_issued w Hw) in Hrev |- *. by split_and!.
  - destruct (sole_thread _ _ _ _ Hw Ht) as [-> ->]. by apply fenced_released.
  - destruct (sole_thread _ _ _ _ Hw Ht) as [-> ->]. by apply fenced_released.
  - destruct (sole_thread _ _ _ _ Hw Ht) as [-> ->]. by apply fenced_released.
  - destruct (sole_thread _ _ _ _ Hw Ht) as [-> ->]. apply fenced_thread; [done|by rewrite Ht|].
    pose proof (fenced_holds w Hw) as Hholds. rewrite Ht in Hholds.
    by apply Forall_cons in Hholds as [Hholds _].
  - destruct (sole_thread _ _ _ _ Hw Ht) as [-> ->]. by eapply fenced_advance.
  - destruct (sole_thread _ _ _ _ Hw Ht) as [-> ->]. by apply fenced_released.
  - unfold revoke_in_place in Hrevoke. destruct (negb _); [done|]. injection Hrevoke as <- <-.
    by apply (fenced_set_state w EnrollmentRevokedState).
  - unfold promote_pending_in_place in Hpromote. destruct (negb _); [done|]. injection Hpromote as <- <-.
    by apply (fenced_set_state w EnrollmentActive).
Qed.

Lemma new_fence_spec store value cell store' :
  new_fence store value = (cell, store') ->
  (cell ∉ dom store) /\ store' = (<[cell := value]> store).
Proof. unfold new_fence. intros [= <- <-]. split; [apply is_fresh|done]. Qed.

Lemma enrollment_with_cells_fenced store enrollment runner authentication classes state active self store' :
  enrollment_with_cells store enrollment runner authentication classes state base active = (self, store') ->
  active = bool_decide (state = EnrollmentActive) ->
  fenced (mkWorld store' self [] []).
Proof.
  unfold enrollment_with_cells. intros Hnew ->.
  destruct (new_fence store base) as [c1 s1] eqn:H1. apply new_fence_spec in H1 as [H1 ->].
  destruct (new_fence _ (if bool_decide (state = EnrollmentActive) then 1%N else 0%N)) as [c2 s2] eqn:H2.
  apply new_fence_spec in H2 as [H2 ->]. rewrite dom_insert in H2.
  destruct (new_fence _ 0) as [c3 s3] eqn:H3. apply new_fence_spec in H3 as [H3 ->].
  rewrite !dom_insert in H3. injection Hnew as <- <-.
  assert (c1 <> c2 /\ c1 <> c3 /\ c2 <> c3) as (H12 & H13 & H23) by set_solver.
  constructor; simpl; unfold load_flag.
  - clear -H12 H13 H23. rewrite !NoDup_cons, !elem_of_cons, !elem_of_nil. split_and!; [naive_solver..|constructor].
  - lia.
  - by rewrite load_insert.
  - rewrite !load_insert_ne, load_insert by congruence. unfold issued_revisions. simpl. lia.
  - rewrite load_insert_ne, load_insert by congruence. by case_bool_decide.
  - done.
  - by intros i x Hx.
  - done.
Qed.

(** A registration that shares the cells of the enrollment, committed here or
    loaded from its stored facts. *)
Definition shares_fence (self : RunnerEnrollment) (registration : ValidatedRunnerRegistration) : Prop :=
  registration_revision_cell registration = enrollment_revision_cell self
  /\ registration_active_cell registration = enrollment_active_cell self.

Lemma fenced_current w registration :
  fenced w -> shares_fence (world_enrollment w) registration ->
  registration_is_current (world_store w) registration = true <->
  enrollment_state (world_enrollment w) = EnrollmentActive
  /\ Npos (runner_generation (registration_revision registration)) = issued_revisions w.
Proof.
  intros [] [Hrev Hact]. unfold registration_is_current.
  rewrite Hrev, Hact, fenced_active0, fenced_issued0, andb_true_iff, bool_decide_eq_true, N.eqb_eq.
  by rewrite (eq_comm (issued_revisions w)).
Qed.

(** Of the registrations committed here the last one has the last revision. *)
Lemma fenced_last w registration :
  fenced w -> registration ∈ world_registrations w ->
  Npos (runner_generation (registration_revision registration)) = issued_revisions w <->
  last (world_registrations w) = Some registration.
Proof.
  intros Hw (i & Hi)%list_elem_of_lookup. pose proof (fenced_numbered w Hw) as Hnum.
  rewrite (Hnum i registration Hi), last_lookup. unfold issued_revisions. split.
  - intros Hlen. rewrite <- Hi. f_equal. lia.
  - intros Hlast. pose proof (Hnum _ _ Hlast) as Hn. rewrite (Hnum i registration Hi) in Hn.
    apply lookup_lt_Some in Hlast. lia.
Qed.

(** A step keeps the cells, and moves the state forward only. *)
Definition state_follows (state state' : RunnerEnrollmentState) : Prop :=
  match state with
  | EnrollmentPending => True
  | EnrollmentActive => state' <> EnrollmentPending
  | EnrollmentRevokedState => state' = EnrollmentRevokedState
  end.

Record same_enrollment (self other : RunnerEnrollment) : Prop := mkSame {
  same_revision_cell : enrollment_revision_cell other = enrollment_revision_cell self;
  same_active_cell : enrollment_active_cell other = enrollment_active_cell self;
  same_follows : state_follows (enrollment_state self) (enrollment_state other);
}.

#[export] Instance same_enrollment_preorder : PreOrder same_enrollment.
Proof.
  split.
  - intros self. constructor; [done..|]. by destruct (enrollment_state self).
  - intros x y z [] []. constructor; [congruence..|].
    destruct (enrollment_state x), (enrollment_state y), (enrollment_state z); naive_solver.
Qed.

Lemma fence_step_same w w' : fence_step w w' -> same_enrollment (world_enrollment w) (world_enrollment w').
Proof.
  intros Hstep. destruct Hstep as [| | | | | | | |w enrollment store Hrevoke|w enrollment store Hpromote];
    try reflexivity.
  - unfold revoke_in_place in Hrevoke. case_bool_decide as Hstate; [|done]. simpl in Hrevoke.
    injection Hrevoke as <- <-. constructor; [done..|]. by rewrite Hstate.
  - unfold promote_pending_in_place in Hpromote. case_bool_decide as Hstate; [|done]. simpl in Hpromote.
    injection Hpromote as <- <-. constructor; [done..|]. by rewrite Hstate.
Qed.

Lemma fence_run w w' :
  rtc fence_step w w' -> fenced w -> fenced w' /\ same_enrollment (world_enrollment w) (world_enrollment w').
Proof.
  induction 1 as [w|w1 w2 w3 Hstep _ IH]; [by split; [|reflexivity]|]. intros Hw.
  destruct (IH (fence_step_fenced _ _ Hstep Hw)) as [Hw3 Hsame]. split; [done|].
  etrans; [by apply fence_step_same|done].
Qed.

(** A whole registration with nothing in between. *)
Lemma fenced_register store self registrations advertisement registration store' :
  fenced (mkWorld store self [] registrations) ->
  register store self advertisement catalog = (Ok registration, store') ->
  fenced (mkWorld store' self [] (registrations ++ [registration])).
Proof.
  intros Hw. unfold register, prepare_registration.
  destruct (begin_preparation store self advertisement) as [[[]|] store1] eqn:Hbegin; [|done].
  pose proof (fenced_begin _ _ _ Hw Hbegin) as Hw1.
  destruct (validate_advertisement store1 self advertisement catalog) as [prepared|] eqn:Hval; [|done].
  pose proof (fence_step_fenced _ _ 
    (step_validate (mkWorld store1 self [Validating advertisement] registrations) advertisement [] [] prepared
      eq_refl Hval) Hw1) as Hw2.
  apply validate_advertisement_Ok in Hval as (_ & revision & _ & ->). simpl in *.
  unfold commit_registration. destruct (negb (load_flag _ _)) eqn:Hactive; [done|].
  apply negb_false_iff in Hactive.
  pose proof (fence_step_fenced _ _ (step_commit (mkWorld store1 self [Holding _] registrations) _ [] []
    eq_refl Hactive) Hw2) as Hw3. simpl in Hw3.
  destruct (advance_revision store1 _) as [r store2] eqn:Hadvance. simpl. intros [= -> <-].
  exact (fenced_released _ (fenced_advance _ _ _ _ Hw3 eq_refl Hadvance)).
Qed.
End interleaving.

(** How an enrollment comes to be: created active, created pending with the one
    registration that was validated for it, or loaded from its stored facts
    with the revisions it had issued. *)
Inductive opened (catalog : RunnerCatalog) : N -> World -> Prop :=
| opened_new store enrollment runner authentication allowed self store' :
    enrollment_new store enrollment runner authentication allowed = (self, store') ->
    opened catalog 0 (mkWorld store' self [] [])
| opened_pending store enrollment runner authentication allowed advertisement self registration store' :
    new_pending store enrollment runner authentication allowed advertisement catalog
      = (Ok (self, registration), store') ->
    opened catalog 0 (mkWorld store' self [] [registration])
| opened_stored store input self store' :
    enrollment_reconstitute store input = (Ok self, store') ->
    opened catalog (match stored_registration_revision input with
                    | Some revision => Npos (runner_generation revision) | None => 0 end)
      (mkWorld store' self [] []).

Lemma opened_fenced catalog base w : opened catalog base w -> fenced base w.
Proof.
  intros [store enrollment runner authentication allowed self store' Hnew
    |store enrollment runner authentication allowed advertisement self registration store' Hnew
    |store input self store' Hload].
  - by eapply enrollment_with_cells_fenced.
  - unfold new_pending in Hnew. destruct (enrollment_new _ _ _ _ _) as [self' store1] eqn:Hself.
    destruct (register store1 self' advertisement catalog) as [[registration'|] store2] eqn:Hregister; [|done].
    injection Hnew as <- <- <-.
    apply (fenced_set_state 0 (mkWorld store2 self' [] [registration']) EnrollmentPending).
    eapply (fenced_register catalog 0 _ _ [] advertisement); [|done]. by eapply enrollment_with_cells_fenced.
  - unfold enrollment_reconstitute in Hload. destruct (_ || _); [done|].
    destruct (enrollment_with_cells _ _ _ _ _ _ _ _) as [self' store1] eqn:Hself. injection Hload as <- <-.
    by eapply enrollment_with_cells_fenced.
Qed.

(** What is loaded for an enrollment shares its cells. *)
Lemma reconstituted_shares store enrollment catalog input registration :
  (registration_reconstitute store enrollment catalog input).1 = Ok registration ->
  shares_fence enrollment registration /\ registration_revision registration = input_revision input.
Proof.
  unfold registration_reconstitute. destruct (_ || _); [done|].
  destruct (enrollment_with_cells _ _ _ _ _ _ _ _) as [self store1].
  destruct (prepare_registration _ _ _ _) as [[prepared|] store2]; [|done].
  destruct (_ || _); [done|]. by intros [= <-].
Qed.

(** C31. However an enrollment came to be, active, pending or loaded, and
    however preparations, commits, revocations and promotions of it interleave:
    one preparation is outstanding at most, a commit that passed the check of the
    active flag always advances the revision, and committed registrations carry
    the revisions that follow those issued before. A registration of it,
    committed or loaded, is current exactly when the enrollment is active and it
    has the last revision issued; of the committed ones that is the last. The
    state goes from pending to active to revoked only, so a revoked enrollment
    has no current registration again and a promoted one has that of its last
    revision. *)
Theorem registration_fence_sound catalog base w w' :
  opened catalog base w -> rtc (fence_step catalog) w w' ->
  (length (world_threads w') <= 1)%nat
  /\ (forall prepared, Committing prepared ∈ world_threads w' ->
      exists registration, (advance_revision (world_store w') prepared).1 = Ok registration)
  /\ numbered_on base (world_registrations w')
  /\ (forall registration, registration ∈ world_registrations w' ->
      (registration_is_current (world_store w') registration = true <->
       enrollment_state (world_enrollment w') = EnrollmentActive
       /\ last (world_registrations w') = Some registration))
  /\ (forall store input registration,
      (registration_reconstitute store (world_enrollment w) catalog input).1 = Ok registration ->
      (registration_is_current (world_store w') registration = true <->
       enrollment_state (world_enrollment w') = EnrollmentActive
       /\ Npos (runner_generation (input_revision input))
          = (base + N.of_nat (length (world_registrations w')))%N))
  /\ state_follows (enrollment_state (world_enrollment w)) (enrollment_state (world_enrollment w')).
Proof.
  intros Hopened Hrun. destruct (fence_run _ _ _ _ Hrun (opened_fenced _ _ _ Hopened)) as [Hw [Hrev Hact Hstate]].
  pose proof (fenced_holds _ _ Hw) as Hholds. rewrite Forall_forall in Hholds.
  pose proof (fenced_registrations _ _ Hw) as Hshared. rewrite Forall_forall in Hshared.
  split_and!; [apply Hw| |apply Hw| | |done].
  - intros prepared Hin. destruct (Hholds _ Hin) as (Hexp & Hcell & _).
    unfold advance_revision, fence_compare_exchange.
    rewrite Hcell, (fenced_issued _ _ Hw), Hexp, N.eqb_refl. by eexists.
  - intros registration Hin. rewrite (fenced_current base) by (first [done|by apply Hshared]).
    by rewrite (fenced_last base).
  - intros store input registration [[Hr Ha] <-]%reconstituted_shares.
    apply (fenced_current base); [done|]. split; congruence.
Qed.

(** ** Stored registrations *)

(** Maps keyed_by by the names of their values, as [RunnerCatalog::try_new] and
    [RunnerAdvertisement::new] build them. *)
Definition keyed_by {K V} `{Countable K} (key : V -> K) (m : gmap K V) : Prop :=
  forall k v, m !! k = Some v -> key v = k.

Lemma keyed_restrict {K V} `{Countable K, TextKey K} (key : V -> K) names (m : gmap K V) :
  keyed_by key m -> keyed_by key (restrict names m).
Proof. intros Hm k v. rewrite restrict_lookup. case_bool_decide; [apply Hm|done]. Qed.

Lemma insert_fresh_keyed {K V} `{Countable K} (key : V -> K) e (l : list V) m m' :
  try_fold (fun checked v => insert_fresh e checked (key v, v)) l m = Ok m' -> keyed_by key m -> keyed_by key m'.
Proof.
  revert m. induction l as [|v l IH]; intros m; cbn [try_fold]; [by intros [= ->]|].
  intros (m1 & Hm1 & Hl)%bind_Ok Hm. eapply IH; [done|]. unfold insert_fresh in Hm1.
  case_bool_decide; [done|]. injection Hm1 as <-. intros k w [[<- <-]|[_ Hk]]%lookup_insert_Some; [done|].
  by apply Hm.
Qed.

Lemma catalog_tools_keyed classes l m m' :
  try_fold (catalog_tool_step classes) l m = Ok m' -> keyed_by declaration_name m -> keyed_by declaration_name m'.
Proof.
  revert m. induction l as [|tool l IH]; intros m; cbn [try_fold]; [by intros [= ->]|].
  intros (m1 & Hm1 & Hl)%bind_Ok Hm. eapply IH; [done|].
  assert (insert_fresh DuplicateTool m (declaration_name tool, tool) = Ok m1) as Hins.
  { unfold catalog_tool_step in Hm1. destruct (_ && _); [done|].
    destruct (runner_selector _) as [[]|]; try done. by destruct (negb _). }
  unfold insert_fresh in Hins. case_bool_decide; [done|]. injection Hins as <-.
  intros k w [[<- <-]|[_ Hk]]%lookup_insert_Some; [done|by apply Hm].
Qed.

(** A catalog and its names. *)
Lemma runner_catalog_keyed classes tools profiles workspaces sandboxes catalog :
  runner_catalog_try_new classes tools profiles workspaces sandboxes = Ok catalog ->
  keyed_by declaration_name (catalog_tools catalog) /\ keyed_by policy_name (catalog_profiles catalog).
Proof.
  unfold runner_catalog_try_new.
  intros (c & _ & (t & Ht & (p & Hp & (_ & _ & (w & _ & (s & _ & [= <-])%bind_Ok)%bind_Ok)%bind_Ok)%bind_Ok)%bind_Ok)%bind_Ok.
  split; simpl; [eapply catalog_tools_keyed|eapply insert_fresh_keyed]; eauto; by intros k v ?%lookup_empty_Some.
Qed.

Lemma btree_collect_keyed {K V} `{Countable K} (key : V -> K) (l : list V) :
  keyed_by key (btree_collect ((fun v => (key v, v)) <$> l)).
Proof.
  intros k v Hk. unfold btree_collect in Hk. apply elem_of_list_to_map_2 in Hk.
  rewrite elem_of_reverse, list_elem_of_fmap in Hk. by destruct Hk as (w & [= -> ->] & _).
Qed.

(** The facts stored of a registration. *)
Definition stored_registration (r : ValidatedRunnerRegistration) :
    ValidatedRunnerRegistrationReconstitutionInput :=
  mkRegistrationInput (registration_enrollment r) (registration_revision r) (registration_runner r)
    (registration_authentication r) (registration_classes r) (named_iter (registration_tools r)).*2
    (named_iter (registration_profiles r)).*2 (registration_workspaces r) (registration_sandboxes r)
    (named_iter (registration_repositories r)).*2 (registration_default_directory r).

Section stored.
Context {K V : Type} `{Countable K, TextKey K} (key : V -> K).
Implicit Types (m : gmap K V).

Lemma named_iter_keyed m : keyed_by key m -> (fun v => (key v, v)) <$> (named_iter m).*2 = named_iter m.
Proof.
  intros Hm. rewrite <- list_fmap_compose. rewrite <- (list_fmap_id (named_iter m)) at 2.
  apply list_fmap_ext. intros i [k v] Hi. simpl. f_equal. apply Hm, elem_of_named_iter.
  by eapply list_elem_of_lookup_2.
Qed.

Lemma collect_named_iter m : btree_collect (named_iter m) = m.
Proof.
  unfold btree_collect, named_iter. rewrite <- (list_to_map_to_list m) at 2.
  apply list_to_map_proper; [|by rewrite reverse_Permutation, merge_sort_Permutation].
  rewrite reverse_Permutation, merge_sort_Permutation. apply NoDup_fst_map_to_list.
Qed.

Lemma collect_stored m : keyed_by key m -> btree_collect ((fun v => (key v, v)) <$> (named_iter m).*2) = m.
Proof. intros Hm. by rewrite named_iter_keyed, collect_named_iter. Qed.

Lemma length_stored m : length (named_iter m).*2 = size m.
Proof. unfold named_iter. by rewrite length_fmap, merge_sort_Permutation, length_map_to_list. Qed.

Lemma names_stored m : keyed_by key m -> (list_to_set (key <$> (named_iter m).*2) : gset K) = dom m.
Proof.
  intros Hm. apply set_eq. intros k. rewrite elem_of_list_to_set, elem_of_dom. split.
  - intros (v & -> & ([k' v'] & -> & Hk%elem_of_named_iter)%list_elem_of_fmap)%list_elem_of_fmap.
    simpl. rewrite (Hm _ _ Hk). by eexists.
  - intros [v Hk]. apply list_elem_of_fmap. exists v. split; [by rewrite (Hm _ _ Hk)|].
    apply list_elem_of_fmap. exists (k, v). split; [done|by apply elem_of_named_iter].
Qed.

Lemma dom_restrict names m : names ⊆ dom m -> dom (restrict names m) = names.
Proof.
  intros Hsub. apply set_eq. intros k. rewrite elem_of_dom, restrict_lookup. case_bool_decide as Hk.
  - split; [done|]. intros _. by apply elem_of_dom, Hsub.
  - split; [by intros []|done].
Qed.
End stored.

Section collected.
Context {K V : Type} `{Countable K, TextKey K} (key : V -> K).
Implicit Types (l : list V) (m : gmap K V).

(** A collection loses no entry exactly when the keys are distinct. *)
Lemma size_list_to_map_le (l : list (K * V)) : (size (list_to_map l : gmap K V) <= length l)%nat.
Proof.
  induction l as [|[k v] l IH]; simpl; [by rewrite map_size_empty|].
  destruct ((list_to_map l : gmap K V) !! k) as [w|] eqn:Hk.
  - rewrite map_size_insert_Some by by eexists. lia.
  - rewrite map_size_insert_None by done. lia.
Qed.

Lemma size_collect (l : list (K * V)) : size (btree_collect l) = length l -> NoDup l.*1.
Proof.
  unfold btree_collect. rewrite <- (length_reverse l), <- (reverse_Permutation l.*1), <- fmap_reverse.
  generalize (reverse l). clear l. intros l. induction l as [|[k v] l IH]; [constructor|].
  simpl. intros Hsize. destruct ((list_to_map l : gmap K V) !! k) as [w|] eqn:Hk.
  - rewrite map_size_insert_Some in Hsize by by eexists. pose proof (size_list_to_map_le l). lia.
  - rewrite map_size_insert_None in Hsize by done. apply NoDup_cons. split; [|apply IH; lia].
    by apply not_elem_of_list_to_map.
Qed.

Lemma collect_perm l m :
  keyed_by key m -> l ≡ₚ (named_iter m).*2 <->
  btree_collect ((fun v => (key v, v)) <$> l) = m /\ size m = length l.
Proof.
  intros Hm. split.
  - intros Hl. split.
    + etrans; [|exact (collect_stored key m Hm)]. unfold btree_collect.
      apply list_to_map_proper; [|by rewrite !reverse_Permutation, Hl].
      rewrite fmap_reverse, reverse_Permutation, Hl, named_iter_keyed by done.
      unfold named_iter. rewrite merge_sort_Permutation. apply NoDup_fst_map_to_list.
    + by rewrite Hl, length_stored.
  - intros [Hcollect Hsize]. rewrite <- Hcollect in Hsize |- *.
    assert (NoDup ((fun v => (key v, v)) <$> l).*1) as Hnd.
    { apply size_collect. by rewrite Hsize, length_fmap. }
    unfold named_iter. rewrite merge_sort_Permutation. unfold btree_collect.
    rewrite map_to_list_to_map, reverse_Permutation.
    + by rewrite <- list_fmap_compose, list_fmap_id.
    + by rewrite fmap_reverse, reverse_Permutation.
Qed.
End collected.

(** The stored facts describe the registration; the order in which rows are
    loaded does not matter. *)
Definition describes (input : ValidatedRunnerRegistrationReconstitutionInput)
    (r : ValidatedRunnerRegistration) : Prop :=
  let stored := stored_registration r in
  input_enrollment input = input_enrollment stored /\ input_revision input = input_revision stored
  /\ input_runner input = input_runner stored /\ input_authentication input = input_authentication stored
  /\ input_classes input = input_classes stored /\ input_tools input ≡ₚ input_tools stored
  /\ input_profiles input ≡ₚ input_profiles stored /\ input_workspaces input = input_workspaces stored
  /\ input_sandboxes input = input_sandboxes stored
  /\ input_repositories input ≡ₚ input_repositories stored
  /\ input_default_directory input = input_default_directory stored.

(** A fresh authority over the same runner admits and registers the same. *)
Lemma admissible_authority self other catalog advertisement :
  enrollment_runner self = enrollment_runner other ->
  enrollment_allowed_classes self = enrollment_allowed_classes other ->
  advertisement_admissible self catalog advertisement -> advertisement_admissible other catalog advertisement.
Proof.
  intros Hrunner Hallowed [Hc Ht Hp Hw Hs Hr]. constructor; try done; [by rewrite <- Hallowed|].
  intros tool Htool. destruct (Ht tool Htool) as (d & Hd & Hruns). exists d. split; [done|].
  unfold runs_on in *. destruct (runner_selector _) as [[]|]; [by rewrite <- Hrunner|done..].
Qed.

(** A preparation under a fresh authority. *)
Lemma prepare_fresh store enrollment runner authentication classes self store' advertisement catalog :
  enrollment_with_cells store enrollment runner authentication classes EnrollmentActive 0 true = (self, store') ->
  match prepare_registration store' self advertisement catalog with
  | (Ok prepared, _) =>
      advertisement_admissible self catalog advertisement
      /\ size (advertised_repositories advertisement) <= MAX_REPOSITORIES
      /\ prepared_registration prepared = registration_of self catalog advertisement runner_generation_one
  | (Err _, _) =>
      ~ (advertisement_admissible self catalog advertisement
         /\ size (advertised_repositories advertisement) <= MAX_REPOSITORIES)
  end.
Proof.
  intros Hnew. pose proof (enrollment_with_cells_fenced 0 _ _ _ _ _ _ _ _ _ Hnew eq_refl) as Hw.
  assert (enrollment_state self = EnrollmentActive) as Hstate.
  { unfold enrollment_with_cells, new_fence in Hnew. by injection Hnew as <- _. }
  destruct (fenced_distinct 0 _ Hw) as (H1 & H2 & H3). destruct Hw. simpl in *. unfold issued_revisions in *. simpl in *.
  assert (forall prepared, validate_advertisement (<[enrollment_preparation_cell self := 1%N]> store') self
      advertisement catalog = Ok prepared <-> advertisement_admissible self catalog advertisement
      /\ prepared = mkPreparedRegistration 0 (enrollment_preparation_cell self)
           (registration_of self catalog advertisement runner_generation_one)) as Hvalid.
  { intros prepared. rewrite validate_advertisement_Ok, load_insert_ne, fenced_issued0 by done.
    apply and_iff_compat_l. split; [by intros (? & [= <-] & ->)|]. intros ->. by eexists. }
  unfold prepare_registration.
  destruct (begin_preparation store' self advertisement) as [[[]|e] store''] eqn:Hbegin.
  - apply begin_preparation_Ok in Hbegin as (_ & Hsize & _ & ->).
    destruct (validate_advertisement _ self advertisement catalog) as [prepared|e] eqn:Hval.
    + by destruct (proj1 (Hvalid prepared) eq_refl) as [Hadm ->].
    + intros [Hadm _]. discriminate (proj2 (Hvalid _) (conj Hadm eq_refl)).
  - intros [_ Hsize].
    assert (begin_preparation store' self advertisement
      = (Ok tt, <[enrollment_preparation_cell self := 1%N]> store')) as Hok; [|congruence].
    by apply begin_preparation_Ok.
Qed.

Lemma registration_advertisement_of input self catalog advertisement revision :
  keyed_by repository_key (advertised_repositories advertisement) ->
  keyed_by declaration_name (catalog_tools catalog) -> keyed_by policy_name (catalog_profiles catalog) ->
  advertisement_admissible self catalog advertisement ->
  describes input (registration_of self catalog advertisement revision) ->
  registration_advertisement input = advertisement.
Proof.
  intros Hrepos Htools Hprofiles Hadm (_ & _ & _ & _ & Hc & Ht & Hp & Hw & Hs & Hr & Hd). simpl in *.
  unfold registration_advertisement, with_default_working_directory, advertisement_new. simpl.
  rewrite Hc, Hw, Hs, Hd, !list_to_set_elements_L.
  assert (list_to_set (declaration_name <$> input_tools input) = advertised_tools advertisement) as ->.
  { rewrite (list_to_set_perm_L _ _ (fmap_Permutation declaration_name _ _ Ht)).
    rewrite (names_stored declaration_name) by by apply keyed_restrict. apply dom_restrict.
    intros tool Htool. destruct (admissible_tools _ _ _ Hadm tool Htool) as (d & Hx & _).
    apply elem_of_dom. by eexists. }
  assert (list_to_set (policy_name <$> input_profiles input) = advertised_profiles advertisement) as ->.
  { rewrite (list_to_set_perm_L _ _ (fmap_Permutation policy_name _ _ Hp)).
    rewrite (names_stored policy_name) by by apply keyed_restrict. apply dom_restrict.
    apply (admissible_profiles _ _ _ Hadm). }
  apply (collect_perm repository_key _ _ Hrepos) in Hr as [-> _]. by destruct advertisement.
Qed.

(** The checks behind the preparation hold exactly when the facts describe
    what the preparation found. *)
Lemma stored_checks input self catalog enrollment :
  keyed_by declaration_name (catalog_tools catalog) -> keyed_by policy_name (catalog_profiles catalog) ->
  enrollment_id self = input_enrollment input -> enrollment_runner self = input_runner input ->
  enrollment_authentication self = input_authentication input ->
  let advertisement := registration_advertisement input in
  let r := registration_of self catalog advertisement (input_revision input) in
  describes input (set_registration_authority r (input_revision input) enrollment) <->
  size (btree_collect ((fun tool => (declaration_name tool, tool)) <$> input_tools input))
    = length (input_tools input)
  /\ size (btree_collect ((fun p => (policy_name p, p)) <$> input_profiles input))
     = length (input_profiles input)
  /\ registration_tools r = btree_collect ((fun tool => (declaration_name tool, tool)) <$> input_tools input)
  /\ registration_profiles r = btree_collect ((fun p => (policy_name p, p)) <$> input_profiles input)
  /\ size (btree_collect ((fun entry => (repository_key entry, entry)) <$> input_repositories input))
     = length (input_repositories input).
Proof.
  intros Htools Hprofiles Hid Hrunner Hauth advertisement r. unfold describes. simpl.
  rewrite (collect_perm declaration_name) by by apply keyed_restrict.
  rewrite (collect_perm policy_name) by by apply keyed_restrict.
  rewrite (collect_perm repository_key) by apply btree_collect_keyed.
  rewrite !list_to_set_elements_L. split.
  - intros (_ & _ & _ & _ & _ & [<- Hs1] & [<- Hs2] & _ & _ & [_ Hs3] & _). by rewrite Hs1, Hs2.
  - intros (Hs1 & Hs2 & Ht & Hp & Hs3). rewrite Hid, Hrunner, Hauth, Ht, Hp. split_and!; done.
Qed.

(** What a fresh authority over the runner of an enrollment registers is what
    the enrollment would. *)
Lemma fresh_registration store enrollment self store' catalog advertisement revision :
  enrollment_with_cells store (enrollment_id enrollment) (enrollment_runner enrollment)
    (enrollment_authentication enrollment) (enrollment_allowed_classes enrollment)
    EnrollmentActive 0 true = (self, store') ->
  (advertisement_admissible self catalog advertisement <-> advertisement_admissible enrollment catalog advertisement)
  /\ (forall first, set_registration_authority (registration_of self catalog advertisement first) revision enrollment
      = registration_of enrollment catalog advertisement revision)
  /\ enrollment_id self = enrollment_id enrollment /\ enrollment_runner self = enrollment_runner enrollment
  /\ enrollment_authentication self = enrollment_authentication enrollment.
Proof.
  unfold enrollment_with_cells, new_fence. intros [= <- _]. split_and!; try done.
  split; by apply admissible_authority.
Qed.

(** Against a checked catalog, a stored registration is reconstituted
    exactly when it describes, whatever the order of its rows, the registration
    some advertisement the enrollment admits leads to at the stored revision,
    and then it is that registration, under the cells of the enrollment. *)
Theorem registration_reconstitution_exact store enrollment catalog input r
    classes tools profiles workspaces sandboxes
    (Hcatalog : runner_catalog_try_new classes tools profiles workspaces sandboxes = Ok catalog) :
  (registration_reconstitute store enrollment catalog input).1 = Ok r <->
  exists advertisement,
    keyed_by repository_key (advertised_repositories advertisement)
    /\ advertisement_admissible enrollment catalog advertisement
    /\ size (advertised_repositories advertisement) <= MAX_REPOSITORIES
    /\ r = registration_of enrollment catalog advertisement (input_revision input)
    /\ describes input r.
Proof.
  destruct (runner_catalog_keyed _ _ _ _ _ _ Hcatalog) as [Htools Hprofiles]. clear Hcatalog.
  unfold registration_reconstitute.
  destruct (negb (bool_decide (enrollment_id enrollment = input_enrollment input)) || _ || _) eqn:Hids.
  { split; [done|]. intros (advertisement & _ & _ & _ & -> & Hd).
    destruct Hd as (Hi & _ & Hr & Ha & _). simpl in *.
    rewrite Hi, Hr, Ha, !bool_decide_true in Hids by done. done. }
  rewrite !orb_false_iff, !negb_false_iff, !bool_decide_eq_true in Hids. destruct Hids as [[Hid Hrunner] Hauth].
  destruct (enrollment_with_cells _ _ _ _ _ _ _ _) as [self store'] eqn:Hself.
  pose proof (prepare_fresh _ _ _ _ _ _ _ (registration_advertisement input) catalog Hself) as Hprepare.
  destruct (fresh_registration _ _ _ _ catalog (registration_advertisement input) (input_revision input) Hself)
    as (Hadm & Hset & Hid' & Hrunner' & Hauth').
  assert (forall advertisement, keyed_by repository_key (advertised_repositories advertisement) ->
    advertisement_admissible enrollment catalog advertisement ->
    describes input (registration_of enrollment catalog advertisement (input_revision input)) ->
    registration_advertisement input = advertisement) as Hunique
    by (intros; by eapply registration_advertisement_of).
  pose proof (stored_checks input self catalog enrollment Htools Hprofiles) as Hchecks.
  cbv zeta in Hchecks. rewrite Hid', Hrunner', Hauth', Hset in Hchecks. specialize (Hchecks Hid Hrunner Hauth).
  destruct (prepare_registration store' self _ catalog) as [[prepared|e] store''].
  2: { split; [done|]. intros (advertisement & Hk & Ha & Hs & -> & Hd).
       pose proof (Hunique _ Hk Ha Hd) as <-. destruct Hprepare. split; [by apply Hadm|done]. }
  destruct Hprepare as (Ha & Hsize & Hprepared). rewrite Hprepared, Hset.
  destruct (_ || _) eqn:Hfacts; simpl.
  - split; [done|]. intros (advertisement & Hk & Ha' & Hs & -> & Hd).
    pose proof (Hunique _ Hk Ha' Hd) as <-.
    apply Hchecks in Hd as (H1 & H2 & H3 & H4 & H5). exfalso. revert Hfacts. simpl in *.
    rewrite H1, H2, H3, H4, H5, !Nat.eqb_refl, !list_to_set_elements_L, !bool_decide_true by done. done.
  - rewrite !orb_false_iff, !negb_false_iff, !bool_decide_eq_true, !Nat.eqb_eq in Hfacts.
    destruct Hfacts as [[[[[[[[H1 H2] H3] H4] H5] H6] H7] H8] H9]. split.
    + intros [= <-]. exists (registration_advertisement input). split_and!; try done.
      * apply btree_collect_keyed.
      * by apply Hadm.
      * by apply Hchecks.
    + by intros (advertisement & Hk & Ha' & Hs & -> & ->%Hunique).
Qed.

(** ** Witnesses *)

Definition sample_class : RunnerCapabilityClass := mkCapabilityClass (lit "linux").
Definition sample_declaration : RunnerToolDeclaration :=
  mkDeclaration (mkToolName (lit "read")) (mkToolModel (lit "Reads") (mkArguments JsonArguments (lit "{}")))
    PermissionAuto EffectPure (RunnerOnly (SelectCapabilityClass sample_class)).
Definition sample_runner_catalog : runner_result RunnerCatalog :=
  runner_catalog_try_new [sample_class] [sample_declaration] [] [] [SandboxAmbient].
Definition sample_advertisement : RunnerAdvertisement :=
  advertisement_new [sample_class] [mkToolName (lit "read")] [] [] [SandboxAmbient] [].
Definition sample_enrollment : RunnerEnrollment * FenceStore :=
  enrollment_new ∅ (from_uuid 1) (from_uuid 2) (from_uuid 3) [sample_class].

Definition sample_pending_enrollment (catalog : RunnerCatalog) :
    runner_result (RunnerEnrollment * ValidatedRunnerRegistration) * FenceStore :=
  new_pending ∅ (from_uuid 1) (from_uuid 2) (from_uuid 3) [sample_class] sample_advertisement catalog.

(** A pending enrollment is promoted, and its one registration becomes current. *)
Lemma registration_fence_sound_witness :
  exists catalog self registration store, sample_runner_catalog = Ok catalog
    /\ sample_pending_enrollment catalog = (Ok (self, registration), store)
    /\ registration_is_current store registration = false
    /\ exists promoted store', promote_pending_in_place store self = (Ok promoted, store')
    /\ registration_is_current store' registration = true.
Proof.
  destruct sample_runner_catalog as [catalog|e] eqn:Hcatalog; [|vm_compute in Hcatalog; discriminate].
  destruct (sample_pending_enrollment catalog) as [[[self registration]|e] store] eqn:Hpending.
  2: { exfalso. vm_compute in Hcatalog. injection Hcatalog as <-. vm_compute in Hpending. discriminate. }
  pose proof (opened_pending catalog _ _ _ _ _ _ _ _ _ Hpending) as Hopened.
  assert (enrollment_state self = EnrollmentPending) as Hstate.
  { clear Hopened. vm_compute in Hcatalog. injection Hcatalog as <-. vm_compute in Hpending.
    by injection Hpending as <- <- <-. }
  destruct (promote_pending_in_place store self) as [[promoted|e] store'] eqn:Hpromote.
  2: { unfold promote_pending_in_place in Hpromote. rewrite Hstate in Hpromote. discriminate. }
  exists catalog, self, registration, store. split; [done|]. split; [done|]. split.
  - destruct (registration_is_current store registration) eqn:Hcurrent; [|done]. exfalso.
    destruct (registration_fence_sound catalog 0 _ _ Hopened (rtc_refl _ _)) as (_ & _ & _ & Hexact & _).
    apply (Hexact registration) in Hcurrent as [Hactive _]; [|by left]. simpl in Hactive. congruence.
  - exists promoted, store'. split; [done|].
    destruct (registration_fence_sound catalog 0 _ (mkWorld store' promoted [] [registration]) Hopened)
      as (_ & _ & _ & Hexact & _).
    { apply rtc_once. exact (step_promote catalog (mkWorld store self [] [registration]) promoted store' Hpromote). }
    apply (Hexact registration); [by left|]. split; [|done]. simpl.
    unfold promote_pending_in_place in Hpromote. rewrite Hstate in Hpromote. by injection Hpromote as <- _.
Defined.

Definition sample_registration_input : ValidatedRunnerRegistrationReconstitutionInput :=
  mkRegistrationInput (from_uuid 1) (mkRunnerGeneration 4) (from_uuid 2) (from_uuid 3) {[sample_class]}
    [sample_declaration] [] ∅ {[SandboxAmbient]} [] None.

Lemma registration_reconstitution_exact_witness :
  exists catalog r, sample_runner_catalog = Ok catalog
    /\ (registration_reconstitute sample_enrollment.2 sample_enrollment.1 catalog sample_registration_input).1 = Ok r
    /\ describes sample_registration_input r.
Proof.
  destruct sample_runner_catalog as [catalog|e] eqn:Hcatalog; [|vm_compute in Hcatalog; discriminate].
  destruct (registration_reconstitute sample_enrollment.2 sample_enrollment.1 catalog
    sample_registration_input).1 as [r|] eqn:Hr.
  2: { exfalso. vm_compute in Hcatalog. injection Hcatalog as <-. vm_compute in Hr. discriminate. }
  exists catalog, r. split; [done|]. split; [exact Hr|].
  destruct (registration_reconstitution_exact sample_enrollment.2 sample_enrollment.1 catalog
    sample_registration_input r [sample_class] [sample_declaration] [] [] [SandboxAmbient] Hcatalog)
    as [Hexact _].
  destruct (Hexact Hr) as (advertisement & _ & _ & _ & _ & Hd). exact Hd.
Defined.
