(* ===== verification/RunnerPlacementSpec.v ===== *)
(** * Placements before the pin, and what a stored placement proves

    The histories of replacements a placement can have before its first pin,
    and the reconstitution of pinned placements through loss, replacement and
    change of profile. *)

From stdpp Require Import strings sets.
From S2P Require Import Prelude TurnLifecycle SemanticEntry BatchProjection ModelExecution Tool ToolAttempt ToolBatch RunnerNames RunnerCatalog RunnerEnrollment RunnerEnrollmentSpec RunnerGrant RunnerLease RunnerPlacement.

Local Open Scope list_scope.

(** ** Requests and registrations *)

Lemma selector_names_runner_true selector runner :
  selector_names_runner selector runner = true <-> selector = SelectIdentity runner.
Proof. destruct selector; simpl; [rewrite bool_decide_eq_true|]; naive_solver. Qed.

(** A registration that offers what a request asks of a runner, and cells that
    make it current. *)
Definition offering (runner : RunnerId) (request : SessionRunnerPlacementRequest) :
    ValidatedRunnerRegistration :=
  mkRegistration (from_uuid 0) runner (from_uuid 0) (dom (request_overrides request))
    match request_selector request with SelectCapabilityClass class => {[class]} | _ => ∅ end ∅
    match request_profile request with
    | Some profile => {[profile := mkProfilePolicy profile ∅]}
    | None => ∅
    end {[WorktreePerSession]} {[request_sandbox request]} None
    match request_workspace request with
    | RepositoryWorktree repository =>
        {[repository := mkRepositoryEntry repository (request_profile request)]}
    | NoWorkspace => ∅
    end runner_generation_one 1 2.
Definition offering_cells : FenceStore := {[1%positive := 1%N; 2%positive := 1%N]}.

Lemma offering_valid runner request :
  (forall identity, request_selector request = SelectIdentity identity -> identity = runner) ->
  validate_request offering_cells request (offering runner request) = Ok tt.
Proof.
  intros Hselector. unfold validate_request. 
  assert (registration_is_current offering_cells (offering runner request) = true) as -> by reflexivity. simpl.
  unfold validate_request_against.
  assert (satisfies (offering runner request) (request_selector request) = true) as ->.
  { destruct (request_selector request) as [identity|class] eqn:Hs; simpl; rewrite bool_decide_eq_true.
    - symmetry. by apply Hselector.
    - rewrite Hs. set_solver. }
  unfold supports_sandbox. simpl. rewrite bool_decide_true by set_solver. simpl.
  assert (find (fun tool => negb (bool_decide (tool ∈ dom (request_overrides request))))
    (named_iter (request_overrides request)).*1 = None) as ->.
  { apply find_None_forall, Forall_forall. intros tool ([tool' o] & -> & Hin%elem_of_named_iter)%list_elem_of_fmap.
    simpl. rewrite bool_decide_true; [done|]. apply elem_of_dom. by eexists. }
  simpl. unfold registration_profile, supports_workspace, registration_repository. simpl.
  destruct (request_profile request) as [profile|]; [rewrite lookup_singleton_eq, bool_decide_false by done|].
  all: destruct (request_workspace request) as [|repository]; [done|].
  all: rewrite bool_decide_true by set_solver; simpl; rewrite lookup_singleton_eq; simpl.
  all: by try rewrite bool_decide_true.
Qed.

(** ** Histories before the first pin *)

(** The placements of a session that were never pinned, with the replacements
    recorded on the way, in order. *)
Inductive unpinned_history (session : SessionId) :
    SessionRunnerPlacement -> list RunnerPrePinReplacementHistory -> Prop :=
| history_new request : unpinned_history session (placement_new session request) []
| history_replaced placement history runner lost store request registration replacement :
    unpinned_history session placement history ->
    mark_runner_lost_before_pin placement runner = Ok lost ->
    replace_lost_runner_before_pin store lost request registration = Ok replacement ->
    unpinned_history session (prepin_placement replacement)
      (history ++ [mkPrePinHistory (placement_revision placement) runner
                     (prepin_prior_request replacement) (prepin_replacement_request replacement)]).

(** What a history is stored as. *)
Definition stored_as_history (history : list RunnerPrePinReplacementHistory) :
    RunnerPlacementReconstitutionHistory :=
  match history with [] => InitialPlacement | _ => PrePinReplacements history end.

(** The states a never pinned placement is stored in. *)
Definition before_pin (placement : SessionRunnerPlacement) : bool :=
  match placement_state placement with
  | PlacementUnpinned | PlacementLostBeforePin _ | PlacementAbandoned (AbandonedBeforePin _) => true
  | _ => false
  end.

(** A placement before its pin: waiting, lost, or abandoned after its loss. *)
Definition prepin_reachable (session : SessionId) (placement : SessionRunnerPlacement)
    (history : list RunnerPrePinReplacementHistory) : Prop :=
  exists unpinned, unpinned_history session unpinned history
    /\ (placement = unpinned
        \/ exists runner lost, mark_runner_lost_before_pin unpinned runner = Ok lost
           /\ (placement = lost \/ abandon_lost_runner lost = Ok placement)).

Lemma mark_lost_before_pin_Ok placement runner lost :
  mark_runner_lost_before_pin placement runner = Ok lost <->
  placement_state placement = PlacementUnpinned
  /\ request_selector (placement_request placement) = SelectIdentity runner
  /\ lost = set_placement_state placement (PlacementLostBeforePin (mkLostBeforePin runner)).
Proof.
  unfold mark_runner_lost_before_pin.
  destruct (placement_state placement); try naive_solver.
  destruct (request_selector _) as [selected|]; [|naive_solver]. case_bool_decide; naive_solver.
Qed.

Lemma replace_before_pin_Ok store placement request registration replacement :
  replace_lost_runner_before_pin store placement request registration = Ok replacement <->
  exists before revision, placement_state placement = PlacementLostBeforePin before
    /\ request_selector request = SelectIdentity (registration_runner registration)
    /\ validate_request store request registration = Ok tt
    /\ registration_runner registration <> lost_runner before
    /\ runner_generation_checked_next (placement_revision placement) = Some revision
    /\ replacement = mkPrePinReplacement
         (mkPlacement (placement_session placement) revision request PlacementUnpinned)
         before (placement_request placement) request.
Proof.
  unfold replace_lost_runner_before_pin.
  destruct (placement_state placement) as [|before|?|?|?]; try naive_solver.
  destruct (selector_names_runner _ _) eqn:Hs; simpl.
  - apply selector_names_runner_true in Hs. rewrite unit_bind_Ok. case_bool_decide as Hr; [naive_solver|].
    rewrite bind_Ok. setoid_rewrite ok_or_Ok. split.
    + intros (Hv & revision & Hrev & [= <-]). by exists before, revision.
    + intros (before' & revision & [= <-] & _ & Hv & _ & Hrev & ->). eauto.
  - split; [done|]. intros (? & ? & _ & Hsel & _). apply selector_names_runner_true in Hsel. congruence.
Qed.

Lemma unpinned_history_facts session placement history :
  unpinned_history session placement history ->
  placement_session placement = session /\ placement_state placement = PlacementUnpinned.
Proof.
  induction 1 as [|placement history runner lost store request registration replacement _ [<- _] Hlost Hreplace];
    [done|].
  apply mark_lost_before_pin_Ok in Hlost as (_ & _ & ->).
  by apply replace_before_pin_Ok in Hreplace as (? & ? & _ & _ & _ & _ & _ & ->).
Qed.

(** One replacement, as history records it. *)
Lemma unpinned_history_snoc session placement history replacement :
  unpinned_history session placement (history ++ [replacement]) <->
  exists successor,
    unpinned_history session
      (mkPlacement session (history_prior_revision replacement) (history_prior_request replacement)
         PlacementUnpinned) history
    /\ request_selector (history_prior_request replacement)
       = SelectIdentity (history_lost_runner replacement)
    /\ request_selector (history_replacement_request replacement) = SelectIdentity successor
    /\ successor <> history_lost_runner replacement
    /\ exists revision, runner_generation_checked_next (history_prior_revision replacement) = Some revision
    /\ placement = mkPlacement session revision (history_replacement_request replacement) PlacementUnpinned.
Proof.
  split.
  - intros Hh. inversion Hh as [request Hp Hl|prior earlier runner lost store request registration result
      Hprior Hlost Hreplace Hp Hl]; [by destruct history|].
    apply app_inj_tail in Hl as [-> <-]. simpl.
    apply mark_lost_before_pin_Ok in Hlost as (Hstate & Hsel & ->).
    apply replace_before_pin_Ok in Hreplace as (before & revision & [= <-] & Hnew & _ & Hne & Hrev & ->). simpl in *.
    assert (placement_session prior = session) as Hsession.
    { by apply unpinned_history_facts in Hprior as []. }
    exists (registration_runner registration). rewrite Hsession. split_and!; try done; [|eauto].
    by destruct prior; simpl in *; subst.
  - intros (successor & Hprior & Hsel & Hnew & Hne & revision & Hrev & ->).
    destruct replacement as [prior_revision runner prior_request request]. simpl in *.
    eapply (history_replaced _ _ _ runner _ offering_cells request (offering successor request)
      (mkPrePinReplacement (mkPlacement session revision request PlacementUnpinned) (mkLostBeforePin runner)
         prior_request request)) in Hprior; [exact Hprior|by apply mark_lost_before_pin_Ok|].
    apply replace_before_pin_Ok. exists (mkLostBeforePin runner), revision. split_and!; try done.
    apply offering_valid. intros identity Hid. congruence.
Qed.

Lemma history_matches_spec session revision request earlier :
  history_matches revision request earlier = true <->
  unpinned_history session (mkPlacement session revision request PlacementUnpinned) (reverse earlier).
Proof.
  revert revision request. induction earlier as [|replacement earlier IH]; intros revision request;
    cbn [history_matches].
  - rewrite bool_decide_eq_true. split; [intros ->; constructor|].
    inversion 1 as [|? history]; [done|by destruct history].
  - rewrite reverse_cons, unpinned_history_snoc. destruct (_ || _) eqn:Hchecks.
    + split; [done|]. intros (successor & _ & Hsel & Hnew & Hne & r & Hrev & [= <- Hrequest]).
      rewrite Hrev, Hsel, Hrequest, Hnew in Hchecks. simpl in Hchecks.
      rewrite !(bool_decide_true), (bool_decide_false (successor = _)) in Hchecks by done. done.
    + rewrite !orb_false_iff, !negb_false_iff, !bool_decide_eq_true in Hchecks.
      destruct Hchecks as [[[Hrev Hsel%selector_names_runner_true] <-] Hdiffers]. rewrite IH.
      destruct (request_selector (history_replacement_request replacement)) as [successor|] eqn:Hnew; [|done].
      rewrite negb_true_iff, bool_decide_eq_false in Hdiffers. split.
      * intros Hh. exists successor. split_and!; try done. by exists revision.
      * by intros (? & Hh & _).
Qed.

Lemma placement_history_matches session revision request stored :
  placement_revision_history_matches revision request stored = true <->
  exists history, stored = stored_as_history history
    /\ unpinned_history session (mkPlacement session revision request PlacementUnpinned) history.
Proof.
  unfold placement_revision_history_matches. destruct stored as [|[|first rest]].
  - rewrite bool_decide_eq_true. split.
    + intros ->. exists []. split; [done|constructor].
    + intros ([|first rest] & Hs & Hh); [|done]. inversion Hh as [|? history]; [done|by destruct history].
  - split; [done|]. by intros ([|first rest] & Hs & _).
  - rewrite (history_matches_spec session), reverse_involutive. split.
    + intros Hh. by exists (first :: rest).
    + by intros ([|first' rest'] & [= <- <-] & Hh).
Qed.

(** The runner a never pinned placement lost. *)
Definition lost_before_pin (placement : SessionRunnerPlacement) : option RunnerId :=
  match placement_state placement with
  | PlacementLostBeforePin lost | PlacementAbandoned (AbandonedBeforePin lost) => Some (lost_runner lost)
  | _ => None
  end.

Lemma prepin_reachable_spec session placement history :
  before_pin placement = true ->
  prepin_reachable session placement history <->
  placement_session placement = session
  /\ (forall runner, lost_before_pin placement = Some runner ->
      request_selector (placement_request placement) = SelectIdentity runner)
  /\ unpinned_history session
       (mkPlacement session (placement_revision placement) (placement_request placement) PlacementUnpinned)
       history.
Proof.
  unfold before_pin, lost_before_pin, prepin_reachable. destruct placement as [owner revision request state].
  simpl. intros Hbefore. split.
  - intros (unpinned & Hh & Hreach). pose proof (unpinned_history_facts _ _ _ Hh) as [Hs Hu].
    destruct Hreach as [<-|(runner & lost & (_ & Hsel & ->)%mark_lost_before_pin_Ok & Hlost)].
    { simpl in *. by subst. }
    destruct unpinned as [s r q u]. simpl in *. subst.
    destruct Hlost as [[= -> -> -> ->]|[= <- <- <- <-]]; simpl; split_and!; try done; by intros ? [= <-].
  - intros (-> & Hsel & Hh). eexists. split; [exact Hh|].
    destruct state as [|[runner]|?|?|[[runner]|?]]; try done; [by left|right..];
      exists runner; eexists; (split; [apply mark_lost_before_pin_Ok; split_and!; [done|by apply Hsel|done]|]);
      [by left|by right].
Qed.

(** C36. A placement that was never pinned is reconstituted exactly when it is
    the unpinned placement, its loss, or its abandonment after a sequence of
    losses and replacements that leads from a new placement of the session to
    the stored revision and request, with exactly the recorded history. *)
Theorem prepin_history_exact uuid_text session placement stored registration tombstone
    (Hbefore : before_pin placement = true) :
  placement_reconstitute uuid_text (mkPlacementInput placement stored) session registration tombstone
    = Ok placement <->
  exists history, stored = stored_as_history history /\ prepin_reachable session placement history.
Proof.
  setoid_rewrite prepin_reachable_spec; [|done..].
  unfold placement_reconstitute. cbn [stored_placement stored_history].
  pose proof (placement_history_matches session (placement_revision placement) (placement_request placement)
    stored) as Hmatches.
  case_bool_decide as Hsession; simpl; [|split; [done|by intros (? & _ & ? & _)]].
  assert (forall b : bool, (if b then Ok placement else @Err RunnerDomainError _ CorruptRunnerFacts) = Ok placement
    <-> b = true) as Hif by by intros [].
  unfold before_pin, lost_before_pin in *.
  destruct (placement_state placement) as [|lost|?|?|[lost|?]]; try done; rewrite Hif, ?andb_true_iff, Hmatches,
    ?selector_names_runner_true.
  - split; [intros (history & -> & Hh)|intros (history & -> & _ & _ & Hh)]; by exists history.
  - split; [intros [Hsel (history & -> & Hh)]|intros (history & -> & _ & Hsel & Hh)].
    + exists history. split_and!; try done. by intros runner [= <-].
    + split; [by apply Hsel|by exists history].
  - split; [intros [Hsel (history & -> & Hh)]|intros (history & -> & _ & Hsel & Hh)].
    + exists history. split_and!; try done. by intros runner [= <-].
    + split; [by apply Hsel|by exists history].
Qed.

(** ** Pinned placements *)

Lemma generation_le_spec a b :
  generation_le a b = true <-> (runner_generation a <= runner_generation b)%positive.
Proof. unfold generation_le. apply Pos.leb_le. Qed.

Lemma runner_generation_checked_next_Some g g' :
  runner_generation_checked_next g = Some g' <->
  runner_generation g' = Pos.succ (runner_generation g)
  /\ (Npos (runner_generation g') <= u64_max)%N.
Proof.
  unfold runner_generation_checked_next. destruct g as [g], g' as [g'].
  destruct (nonzero_u64_checked_add (runner_generation (mkRunnerGeneration g)) 1) as [n|] eqn:Hn; simpl in *.
  - apply nonzero_u64_checked_add_1_Some in Hn as [-> Hle]. split; [by intros [= <-]|by intros [-> _]].
  - apply nonzero_u64_checked_add_1_None in Hn. split; [done|]. intros [-> Hle]. lia.
Qed.

Lemma exec_of_Returned {E A} (m : result E A) a : exec_of m = Returned a <-> m = Ok a.
Proof. destruct m; simpl; naive_solver. Qed.

Section pinned.
Context (uuid_text : N -> text).

(** The pinned directory is the one the request names. *)
Definition directory_admitted (request : SessionRunnerPlacementRequest) (directory : RunnerWorkingDirectory) :
    Prop :=
  forall required, request_working_directory request = ExactDirectory required -> required = directory.

(** The registration has the profile, if one is wanted. *)
Definition offers (registration : ValidatedRunnerRegistration) (profile : option CredentialProfileName) : Prop :=
  forall name, profile = Some name -> is_Some (registration_profile registration name).

(** The tools a request overrides are of the catalog the registration was
    validated against. *)
Definition overrides_declared (request : SessionRunnerPlacementRequest)
    (registration : ValidatedRunnerRegistration) : Prop :=
  refuse ToolUndeclared (find (fun tool => negb (bool_decide (tool ∈ registration_catalog_tools registration)))
    (named_iter (request_overrides request)).*1) = Ok tt.

(** What a request asks of a registration besides its profile. *)
Definition request_fits (request : SessionRunnerPlacementRequest) (registration : ValidatedRunnerRegistration) :
    Prop :=
  satisfies registration (request_selector request) = true
  /\ supports_sandbox registration (request_sandbox request) = true
  /\ overrides_declared request registration
  /\ forall repository, request_workspace request = RepositoryWorktree repository ->
      supports_workspace registration WorktreePerSession = true
      /\ exists entry, registration_repository registration repository = Some entry
        /\ repository_profile entry = request_profile request.

Lemma validate_request_Ok request registration :
  validate_request_against request registration = Ok tt <->
  request_fits request registration /\ offers registration (request_profile request).
Proof.
  unfold validate_request_against, request_fits, overrides_declared, offers.
  destruct (satisfies _ _); simpl; [|naive_solver]. destruct (supports_sandbox _ _); simpl; [|naive_solver].
  rewrite unit_bind_Ok.
  assert ((match request_profile request with
           | Some profile => bool_decide (registration_profile registration profile = None)
           | None => false end) = false <->
    (forall name, request_profile request = Some name -> is_Some (registration_profile registration name))) as Hoffers.
  { destruct (request_profile request) as [profile|]; [|by split]. rewrite bool_decide_eq_false, not_eq_None_Some.
    naive_solver. }
  destruct (match request_profile request with Some _ => _ | None => _ end).
  { split; [by intros []|]. intros [_ Hp]. by apply Hoffers in Hp. }
  destruct (request_workspace request) as [|repository]; [naive_solver|].
  assert ((if negb (supports_workspace registration WorktreePerSession) then Err WorkspaceCapabilityUnavailable else
           entry ← ok_or (registration_repository registration repository) RepositoryUnavailable;
           if negb (bool_decide (repository_profile entry = request_profile request))
           then Err CredentialProfileUnavailable else Ok tt) = Ok tt <->
    supports_workspace registration WorktreePerSession = true
    /\ exists entry, registration_repository registration repository = Some entry
      /\ repository_profile entry = request_profile request) as ->.
  { destruct (supports_workspace _ _); simpl; [|naive_solver].
    destruct (registration_repository registration repository) as [entry|]; simpl; [|naive_solver].
    destruct (bool_decide_reflect (repository_profile entry = request_profile request)) as [Heq|Hne]; simpl.
    - split; [intros _; split; [done|by exists entry]|done].
    - split; [done|]. intros [_ (? & [= <-] & ?)]. done. }
  split.
  - intros [Ho Hw]. split; [|by apply Hoffers]. split_and!; try done. by intros r [= <-].
  - intros [(_ & _ & Ho & Hw) _]. split; [done|]. by apply Hw.
Qed.

Lemma validate_placement_Ok session revision request registration directory workspace revision_match pinned :
  validate_placement uuid_text session revision request registration directory workspace revision_match
    = Ok pinned <->
  validate_request_against request registration = Ok tt /\ directory_admitted request directory
  /\ workspace_admitted uuid_text session revision request registration directory workspace revision_match = Ok tt
  /\ pinned = pinned_facts request registration directory workspace.
Proof.
  unfold validate_placement, directory_admitted. rewrite unit_bind_Ok.
  destruct (request_working_directory request) as [|required].
  - rewrite unit_bind_Ok. naive_solver.
  - case_bool_decide; simpl; [rewrite unit_bind_Ok|]; naive_solver.
Qed.

(** A workspace of an earlier revision is retained. *)
Lemma workspace_retained session revision revision' request registration directory workspace revision_match :
  workspace_admitted uuid_text session revision request registration directory workspace revision_match = Ok tt ->
  (runner_generation revision <= runner_generation revision')%positive ->
  workspace_admitted uuid_text session revision' request registration directory workspace RevisionRetained = Ok tt.
Proof.
  intros Hadmitted Hle. unfold workspace_admitted in *.
  assert (forall actual,
    common_workspace_facts_match uuid_text session revision request registration directory revision_match actual = true ->
    common_workspace_facts_match uuid_text session revision' request registration directory RevisionRetained actual
      = true) as Hcommon.
  { unfold common_workspace_facts_match. intros actual. rewrite !andb_true_iff, generation_le_spec.
    intros [[[[[H1 H2] H3] H4] H5] H6]. split_and!; try done. destruct revision_match.
    - apply bool_decide_eq_true in H2. by rewrite H2.
    - apply generation_le_spec in H2. lia. }
  destruct (request_workspace request) as [|repository], workspace as [actual|]; try done.
  - destruct (common_workspace_facts_match _ _ _ _ _ _ revision_match actual) eqn:Hc;
      [|by rewrite andb_false_r in Hadmitted]. by rewrite Hcommon.
  - destruct (supports_workspace registration WorktreePerSession); [|done]. simpl in *.
    destruct (common_workspace_facts_match _ _ _ _ _ _ revision_match actual) eqn:Hc; [|done]. by rewrite Hcommon.
Qed.

(** The grant a placement without a profile keeps is its tombstone. *)
Definition tombstone_of (pinned : PinnedRunnerPlacement) (grant : option CredentialProfileGrant) :
    option CredentialProfileGrant :=
  match pinned_profile pinned with None => grant | Some _ => None end.

(** The facts a placement was pinned to under a registration. *)
Record pinned_valid (registration : ValidatedRunnerRegistration) (placement : SessionRunnerPlacement)
    (pinned : PinnedRunnerPlacement) (grant : option CredentialProfileGrant) : Prop := mkPinnedValid {
  valid_request : request_fits (placement_request placement) registration;
  valid_directory : directory_admitted (placement_request placement) (pinned_directory pinned);
  valid_workspace : workspace_admitted uuid_text (placement_session placement) (placement_revision placement)
    (placement_request placement) registration (pinned_directory pinned) (pinned_workspace pinned)
    RevisionRetained = Ok tt;
  valid_facts : pinned = set_pinned_lineage
    (pinned_facts (placement_request placement) registration (pinned_directory pinned) (pinned_workspace pinned))
    (pinned_lineage pinned);
  valid_lineage : lineage_is_valid placement pinned (tombstone_of pinned grant) = true;
}.

Lemma reconstitute_pinned_Ok placement pinned registration tombstone :
  reconstitute_pinned_placement uuid_text placement pinned (Some registration) tombstone = Ok placement <->
  request_fits (placement_request placement) registration
  /\ offers registration (request_profile (placement_request placement))
  /\ directory_admitted (placement_request placement) (pinned_directory pinned)
  /\ workspace_admitted uuid_text (placement_session placement) (placement_revision placement)
       (placement_request placement) registration (pinned_directory pinned) (pinned_workspace pinned)
       RevisionRetained = Ok tt
  /\ pinned = set_pinned_lineage
       (pinned_facts (placement_request placement) registration (pinned_directory pinned) (pinned_workspace pinned))
       (pinned_lineage pinned)
  /\ lineage_is_valid placement pinned tombstone = true.
Proof.
  unfold reconstitute_pinned_placement. simpl. rewrite bind_Ok. setoid_rewrite validate_placement_Ok.
  setoid_rewrite validate_request_Ok. split.
  - intros (checked & ([Hfits Hoffers] & Hdirectory & Hworkspace & ->) & Hrest). split_and!; try done;
      destruct (lineage_is_valid _ _ _); simpl in Hrest; try done. by case_bool_decide.
  - intros (Hfits & Hoffers & Hdirectory & Hworkspace & Hfacts & Hlineage).
    eexists. split; [by split_and!|]. rewrite Hlineage, <- Hfacts, bool_decide_true by done. done.
Qed.

(** Under the registration of the pin only the profile may be missing. *)
Lemma pinned_valid_reconstitutes registration placement pinned grant :
  pinned_valid registration placement pinned grant ->
  reconstitute_pinned_placement uuid_text placement pinned (Some registration) (tombstone_of pinned grant)
    = Ok placement <-> offers registration (pinned_profile pinned).
Proof.
  intros [Hrequest Hdirectory Hworkspace Hfacts Hlineage]. rewrite reconstitute_pinned_Ok.
  assert (pinned_profile pinned = request_profile (placement_request placement)) as -> by by rewrite Hfacts.
  tauto.
Qed.

(** The tools another registration offers are those of the pin. *)
Definition same_tools (registration : ValidatedRunnerRegistration) (pinned : PinnedRunnerPlacement) : Prop :=
  pinned_tools pinned = dom (registration_tools registration)
  /\ pinned_required_tools pinned
     = dom (filter (fun '(_, declaration) => is_runner_only declaration = true) (registration_tools registration)).

(** A workspace is admitted by every registration of its runner that has worktrees. *)
Lemma workspace_admitted_by session revision request registration other directory workspace revision_match :
  registration_runner other = registration_runner registration ->
  (forall repository, request_workspace request = RepositoryWorktree repository ->
    supports_workspace other WorktreePerSession = true) ->
  workspace_admitted uuid_text session revision request registration directory workspace revision_match = Ok tt ->
  workspace_admitted uuid_text session revision request other directory workspace revision_match = Ok tt.
Proof.
  intros Hrunner Hworktree. unfold workspace_admitted, common_workspace_facts_match. rewrite Hrunner.
  destruct (request_workspace request) as [|repository], workspace as [actual|]; try done;
    rewrite (Hworktree repository eq_refl); by destruct (supports_workspace registration WorktreePerSession).
Qed.

(** Under a registration that preserves the snapshot of the pin, the tools and
    the overrides are left to check. *)
Lemma pinned_valid_preserved registration other placement pinned grant :
  pinned_valid registration placement pinned grant ->
  registration_preserves_snapshot (placement_request placement) pinned other = true ->
  reconstitute_pinned_placement uuid_text placement pinned (Some other) (tombstone_of pinned grant)
    = Ok placement <-> overrides_declared (placement_request placement) other /\ same_tools other pinned.
Proof.
  intros [Hrequest Hdirectory Hworkspace Hfacts Hlineage] Hpreserved. rewrite reconstitute_pinned_Ok.
  unfold registration_preserves_snapshot in Hpreserved. rewrite !andb_true_iff, !bool_decide_eq_true in Hpreserved.
  destruct Hpreserved as [[[[[[[Hrunner _] _] Hselected] Hsandbox] _] Hprofile] Hrepository].
  assert (pinned_runner pinned = registration_runner registration
    /\ pinned_profile pinned = request_profile (placement_request placement)) as [Hpinned Hsame] by by rewrite Hfacts.
  rewrite Hsame in Hprofile.
  assert (forall repository, request_workspace (placement_request placement) = RepositoryWorktree repository ->
    supports_workspace other WorktreePerSession = true
    /\ exists entry, registration_repository other repository = Some entry
      /\ repository_profile entry = request_profile (placement_request placement)) as Hworktree.
  { intros repository Hr. rewrite Hr in Hrepository. apply andb_true_iff in Hrepository as [? Hentry]. split; [done|].
    destruct (registration_repository other repository) as [entry|]; [|done]. exists entry.
    by apply bool_decide_eq_true in Hentry. }
  split.
  - intros ((_ & _ & Hoverrides & _) & _ & _ & _ & Hother & _). split; [done|].
    unfold same_tools. by rewrite Hother.
  - intros [Hoverrides [Htools Hrequired]]. split_and!; try done.
    + intros name Hname. rewrite Hname in Hprofile. by apply bool_decide_eq_true in Hprofile.
    + eapply workspace_admitted_by; [by rewrite <- Hrunner|by intros repository []%Hworktree|done].
    + rewrite Hfacts in Htools, Hrequired |- *. unfold pinned_facts, set_pinned_lineage in *. simpl in *.
      rewrite <- Htools, <- Hrequired, <- Hrunner, Hpinned. done.
Qed.

(** The lineage of a pinned placement is as old as its revision. *)
Lemma lineage_bounded placement pinned tombstone lineage :
  lineage_is_valid placement pinned tombstone = true -> pinned_lineage pinned = Some lineage ->
  (runner_generation (lineage_revision lineage) <= runner_generation (placement_revision placement))%positive.
Proof.
  unfold lineage_is_valid. intros Hvalid Hlineage. rewrite Hlineage in Hvalid.
  destruct (pinned_profile pinned), tombstone; try done;
    rewrite !andb_true_iff, generation_le_spec in Hvalid; tauto.
Qed.

(** ** Grants *)

Lemma build_grant_Returned session revision registration profile tools sandbox overrides state grant :
  build_grant session revision registration profile tools sandbox overrides state = Returned grant ->
  is_Some (registration_profile registration profile)
  /\ grant_session grant = session /\ grant_runner grant = registration_runner registration
  /\ grant_revision grant = revision /\ grant_profile grant = profile /\ grant_state grant = state.
Proof.
  unfold build_grant. intros (policy & Hpolicy & Hgrant)%exec_bind_Returned.
  apply exec_ok_or_Returned in Hpolicy. destruct (existsb _ _); [done|].
  apply exec_bind_Returned in Hgrant as (approvals & _ & [= <-]). by split_and!.
Qed.

(** The grant a replacement leaves. *)
Lemma successor_grant_Returned session before after registration prior grant change :
  successor_grant session before after registration prior = Returned (grant, change) ->
  match pinned_profile after, grant with
  | Some profile, Some grant =>
      grant_runner grant = registration_runner registration /\ grant_state grant = GrantActive
      /\ is_Some (registration_profile registration profile)
  | None, Some grant => grant_session grant = session /\ grant_state grant = GrantRevokedState
  | None, None => True
  | Some _, None => False
  end
  /\ (forall grant', grant = Some grant' ->
      grant_revision grant' = runner_generation_one
      \/ exists lineage, pinned_lineage before = Some lineage
         /\ runner_generation_checked_next (lineage_revision lineage) = Some (grant_revision grant')).
Proof.
  unfold successor_grant. intros (kept & Hkept & Hrest)%exec_bind_Returned.
  apply exec_bind_Returned in Hrest as (grant' & Hgrant & [= -> _]).
  assert (forall prior', kept = Some prior' -> grant_session prior' = session
    /\ pinned_lineage before = Some (grant_lineage prior')) as Hprior.
  { intros prior' ->. unfold prior_grant, grant_matches_binding in Hkept.
    destruct (pinned_profile before), (pinned_lineage before), prior; try done;
      destruct (_ && _) eqn:Hchecks; try done; injection Hkept as ->;
      rewrite !andb_true_iff, !bool_decide_eq_true in Hchecks;
      destruct_and!; split; congruence. }
  destruct kept as [prior'|].
  - destruct (Hprior prior' eq_refl) as [Hsession Hlineage].
    apply exec_bind_Returned in Hgrant as (revision & Hrev%exec_ok_or_Returned & Hgrant).
    destruct (pinned_profile after) as [profile|].
    + apply exec_bind_Returned in Hgrant as (built & Hbuilt & [= <-]).
      apply build_grant_Returned in Hbuilt as (Hp & Hs & Hr & Hv & _ & Ha).
      split; [done|]. intros ? [= <-]. right. exists (grant_lineage prior'). by rewrite Hv.
    + injection Hgrant as <-. split; [done|]. intros ? [= <-]. right. by exists (grant_lineage prior').
  - destruct (pinned_profile after) as [profile|].
    + apply exec_bind_Returned in Hgrant as (built & Hbuilt & [= <-]).
      apply build_grant_Returned in Hbuilt as (Hp & Hs & Hr & Hv & _ & Ha).
      split; [done|]. intros ? [= <-]. by left.
    + by injection Hgrant as <-.
Qed.

(** ** Placements that were pinned *)

(** The losses of a pinned placement. *)
Inductive placement_lost : SessionRunnerPlacement -> SessionRunnerPlacement -> Prop :=
| lost_marked placement lost : mark_runner_lost placement = Ok lost -> placement_lost placement lost
| lost_reconciled placement lost store registration :
    reconcile_registration store placement registration = Ok lost -> placement_lost placement lost.

(** A placement, the registration it was last pinned under, which the store
    keeps with it, and the grant it was left with: a first pin, a change of
    profile under whatever registration is current by then, or the replacement
    of a lost runner. *)
Inductive pinned_under (session : SessionId) :
    ValidatedRunnerRegistration -> SessionRunnerPlacement -> option CredentialProfileGrant -> Prop :=
| under_pin placement history store enrollment registration directory workspace authorization offer pin :
    unpinned_history session placement history ->
    pin_and_offer_lease uuid_text store placement enrollment registration directory workspace authorization
      offer = Returned pin ->
    pinned_under session registration (pin_placement pin) (pin_grant pin)
| under_profile store placement grant registration current profile tools replacement :
    pinned_under session registration placement (Some grant) ->
    replace_credential_profile store placement grant current profile tools = Returned replacement ->
    pinned_under session registration (profile_placement replacement)
      (Some (replacement_grant (profile_grant replacement)))
| under_replacement store placement grant old lost request registration directory workspace prior replacement :
    pinned_under session old placement grant -> placement_lost placement lost ->
    replace_lost_runner uuid_text store lost request registration directory workspace prior
      = Returned replacement ->
    pinned_under session registration (replaced_placement replacement) (replaced_grant replacement).

Lemma pin_and_offer_Returned store placement enrollment registration directory workspace authorization offer pin :
  pin_and_offer_lease uuid_text store placement enrollment registration directory workspace authorization
    offer = Returned pin ->
  exists pinned,
    validate_placement uuid_text (placement_session placement) (placement_revision placement)
      (placement_request placement) registration directory workspace RevisionExact = Ok pinned
    /\ pin_placement pin = set_placement_state placement (PlacementPinned pinned)
    /\ (pin_grant pin = None <-> pinned_profile pinned = None).
Proof.
  unfold pin_and_offer_lease. destruct (placement_state placement); try done.
  intros (pinned & Hpinned%exec_of_Returned & Hpin)%exec_bind_Returned.
  apply exec_bind_Returned in Hpin as (grant & Hgrant & Hpin).
  apply exec_bind_Returned in Hpin as (lease & _ & [= <-]). exists pinned. split_and!; try done. simpl.
  destruct (pinned_profile pinned); [|by injection Hgrant as <-].
  by apply exec_bind_Returned in Hgrant as (? & _ & [= <-]).
Qed.

Lemma pin_valid placement history store enrollment registration directory workspace authorization offer pin session :
  unpinned_history session placement history ->
  pin_and_offer_lease uuid_text store placement enrollment registration directory workspace authorization
    offer = Returned pin ->
  exists pinned, placement_session (pin_placement pin) = session
    /\ placement_state (pin_placement pin) = PlacementPinned pinned
    /\ pinned_valid registration (pin_placement pin) pinned (pin_grant pin).
Proof.
  intros [Hsession _]%unpinned_history_facts (pinned & Hvalid & -> & Hgrant)%pin_and_offer_Returned.
  apply validate_placement_Ok in Hvalid as ([Hrequest _]%validate_request_Ok & Hdirectory & Hworkspace & ->).
  eexists. split; [exact Hsession|]. split; [done|]. constructor; try done.
  - by eapply workspace_retained.
  - unfold lineage_is_valid, tombstone_of. simpl in *.
    destruct (request_profile (placement_request placement)); simpl.
    + rewrite bool_decide_true by done. apply generation_le_spec. simpl. lia.
    + by rewrite (proj2 Hgrant).
Qed.

(** The profile of a request that a worktree was cloned with does not change. *)
Lemma worktree_profile placement pinned registration grant repository profile :
  pinned_valid registration placement pinned grant ->
  request_workspace (placement_request placement) = RepositoryWorktree repository ->
  workspace_needs_other_profile pinned profile = false ->
  set_request_profile (placement_request placement) profile = placement_request placement.
Proof.
  intros Hvalid Hworktree Hneeds. pose proof (valid_workspace _ _ _ _ Hvalid) as Hworkspace.
  unfold workspace_admitted in Hworkspace. rewrite Hworktree in Hworkspace.
  destruct (supports_workspace registration WorktreePerSession); [|done].
  unfold workspace_needs_other_profile in Hneeds.
  destruct (pinned_workspace pinned) as [workspace|]; [|done].
  destruct (_ && _) eqn:Hfacts in Hworkspace; [|done].
  rewrite !andb_true_iff, !bool_decide_eq_true in Hfacts. destruct Hfacts as (_ & [[[_ Hrepo] _] Hp] & _).
  rewrite Hrepo, (bool_decide_true (is_Some _)) in Hneeds by by eexists. simpl in Hneeds.
  rewrite negb_false_iff, bool_decide_eq_true, Hp in Hneeds.
  unfold set_request_profile. destruct (placement_request placement). simpl in *. by subst.
Qed.

(** Changing the profile of a valid placement keeps what else it was pinned to. *)
Lemma profile_changed placement pinned registration grant profile revision :
  pinned_valid registration placement pinned grant ->
  workspace_needs_other_profile pinned profile = false ->
  (runner_generation (placement_revision placement) <= runner_generation revision)%positive ->
  let request := set_request_profile (placement_request placement) profile in
  request_fits request registration
  /\ workspace_admitted uuid_text (placement_session placement) revision request registration
       (pinned_directory pinned) (pinned_workspace pinned) RevisionRetained = Ok tt.
Proof.
  intros Hvalid Hneeds Hle request.
  assert (forall session request, workspace_admitted uuid_text session (placement_revision placement) request
      registration (pinned_directory pinned) (pinned_workspace pinned) RevisionRetained = Ok tt ->
    workspace_admitted uuid_text session revision request registration (pinned_directory pinned)
      (pinned_workspace pinned) RevisionRetained = Ok tt) as Hlater
    by (intros ?? Hw; by eapply workspace_retained).
  destruct (request_workspace (placement_request placement)) as [|repository] eqn:Hworktree.
  2: { unfold request. erewrite worktree_profile by eassumption. destruct Hvalid. split; [done|by apply Hlater]. }
  destruct Hvalid as [Hrequest _ Hworkspace _ _]. split.
  - destruct Hrequest as (Hs & Hb & Ho & _). unfold request. split_and!; try done.
    intros repository Hr. simpl in Hr. congruence.
  - apply Hlater. unfold workspace_admitted in *. simpl. rewrite Hworktree in *.
    by destruct (pinned_workspace pinned).
Qed.

Lemma profile_valid store placement grant registration current profile tools replacement pinned :
  placement_state placement = PlacementPinned pinned ->
  pinned_valid registration placement pinned (Some grant) ->
  replace_credential_profile store placement grant current profile tools = Returned replacement ->
  exists pinned', placement_session (profile_placement replacement) = placement_session placement
    /\ placement_state (profile_placement replacement) = PlacementPinned pinned'
    /\ pinned_valid registration (profile_placement replacement) pinned'
         (Some (replacement_grant (profile_grant replacement))).
Proof.
  intros Hstate Hvalid. unfold replace_credential_profile. rewrite Hstate.
  destruct (negb (registration_is_current _ _)); [done|]. intros (before & Hbefore%exec_ok_or_Returned & Hr)%exec_bind_Returned.
  destruct (_ || _) eqn:Hmatches in Hr; [done|].
  destruct (bool_decide_reflect (registration_runner current = pinned_runner pinned)) as [Hrunner|];
    simpl in Hr; [|done].
  destruct (negb (registration_preserves_snapshot _ _ _)) in Hr; [done|].
  destruct (workspace_needs_other_profile pinned profile) eqn:Hneeds; [done|].
  apply exec_bind_Returned in Hr as (revision & Hrevision%exec_ok_or_Returned & Hr).
  apply exec_bind_Returned in Hr as (built & Hbuilt & [= <-]).
  rewrite orb_false_iff, !negb_false_iff, bool_decide_eq_true in Hmatches. destruct Hmatches as [_ Hlineage].
  pose proof (lineage_bounded _ _ _ _ (valid_lineage _ _ _ _ Hvalid) Hlineage) as Hbound.
  unfold replace_for in Hbuilt. destruct (negb _) in Hbuilt; [done|]. destruct (negb _) in Hbuilt; [done|].
  apply exec_bind_Returned in Hbuilt as (grant_rev & Hgrant_rev%exec_ok_or_Returned & Hbuilt).
  apply exec_bind_Returned in Hbuilt as (new & Hnew & [= <-]).
  apply build_grant_Returned in Hnew as (_ & _ & Hnew_runner & Hnew_rev & _ & _).
  apply runner_generation_checked_next_Some in Hrevision as [Hrevision _].
  apply runner_generation_checked_next_Some in Hgrant_rev as [Hgrant_rev _].
  destruct (profile_changed _ _ _ _ _ revision Hvalid Hneeds) as [Hrequest' Hworkspace']; [lia|].
  eexists. split; [done|]. split; [done|]. simpl.
  destruct Hvalid as [Hrequest Hdirectory Hworkspace Hfacts Hvl].
  constructor; cbn [placement_session placement_revision placement_request pinned_directory pinned_workspace
    set_pinned_profile].
  - exact Hrequest'.
  - exact Hdirectory.
  - exact Hworkspace'.
  - rewrite Hfacts. reflexivity.
  - unfold lineage_is_valid, tombstone_of. simpl. rewrite Hnew_runner, Hrunner, bool_decide_true by done.
    apply generation_le_spec. rewrite Hnew_rev, Hrevision, Hgrant_rev. simpl in Hbound. lia.
Qed.

Lemma placement_lost_pinned placement lost pinned :
  placement_state placement = PlacementPinned pinned -> placement_lost placement lost ->
  lost = placement
  \/ exists source, lost = set_placement_state placement (PlacementLost (mkLostPinned pinned source)).
Proof.
  intros Hstate Hlost. destruct Hlost as [placement lost Hlost|placement lost store registration Hlost].
  - unfold mark_runner_lost in Hlost. rewrite Hstate in Hlost. injection Hlost as <-. right. by eexists.
  - unfold reconcile_registration in Hlost. rewrite Hstate in Hlost.
    destruct (negb (registration_is_current _ _)); [done|]. destruct (negb _) in Hlost; [done|].
    destruct (registration_preserves_snapshot _ _ _); injection Hlost as <-; [by left|right; by eexists].
Qed.

Lemma replacement_valid store placement lost request registration directory workspace prior replacement
    pinned old grant :
  placement_state placement = PlacementPinned pinned -> pinned_valid old placement pinned grant ->
  placement_lost placement lost ->
  replace_lost_runner uuid_text store lost request registration directory workspace prior
    = Returned replacement ->
  exists pinned', placement_session (replaced_placement replacement) = placement_session placement
    /\ placement_state (replaced_placement replacement) = PlacementPinned pinned'
    /\ pinned_valid registration (replaced_placement replacement) pinned' (replaced_grant replacement).
Proof.
  intros Hstate Hvalid Hlost Hreplace.
  assert (placement_session lost = placement_session placement
    /\ placement_revision lost = placement_revision placement
    /\ exists source, placement_state lost = PlacementLost (mkLostPinned pinned source))
    as (Hsession & Hrevision & source & Hsource).
  { destruct (placement_lost_pinned _ _ _ Hstate Hlost) as [->|[source ->]].
    - unfold replace_lost_runner in Hreplace. by rewrite Hstate in Hreplace.
    - split_and!; try done. by exists source. }
  unfold replace_lost_runner in Hreplace. rewrite Hsource in Hreplace. cbn [lost_pinned lost_source] in Hreplace.
  destruct (negb (registration_is_current _ _)); [done|]. destruct (_ && _) in Hreplace; [done|].
  apply exec_bind_Returned in Hreplace as (revision & Hnext%exec_ok_or_Returned & Hreplace).
  apply exec_bind_Returned in Hreplace as (after & Hafter%exec_of_Returned & Hreplace).
  apply exec_bind_Returned in Hreplace as ([grant' change] & Hgrant & [= <-]).
  apply validate_placement_Ok in Hafter as ([Hrequest _]%validate_request_Ok & Hdirectory & Hworkspace & ->).
  apply successor_grant_Returned in Hgrant as [Hprofile Hrev].
  apply runner_generation_checked_next_Some in Hnext as [Hnext _]. rewrite Hrevision in Hnext.
  assert (forall lineage, grant_lineage <$> grant' = Some lineage ->
    generation_le (lineage_revision lineage) revision = true) as Hle.
  { intros lineage. destruct grant' as [g|]; [|done]. intros [= <-]. apply generation_le_spec. simpl.
    destruct (Hrev g eq_refl) as [->|(before & Hbefore & Hg)]; [simpl; lia|].
    pose proof (lineage_bounded _ _ _ _ (valid_lineage _ _ _ _ Hvalid) Hbefore).
    apply runner_generation_checked_next_Some in Hg as [-> _]. lia. }
  eexists. split; [done|]. split; [done|]. constructor; simpl; try done.
  - by eapply workspace_retained.
  - unfold lineage_is_valid, tombstone_of. simpl in *.
    destruct (request_profile request) as [profile|], grant' as [g|]; simpl in *; try done.
    + destruct Hprofile as (-> & _). pose proof (Hle _ eq_refl) as Hg. simpl in Hg. by rewrite bool_decide_true, Hg.
    + destruct Hprofile as [-> ->]. pose proof (Hle _ eq_refl) as Hg. simpl in Hg.
      by rewrite Hsession, Hg, !bool_decide_true.
Qed.

Lemma pinned_under_valid session registration placement grant :
  pinned_under session registration placement grant ->
  exists pinned, placement_session placement = session /\ placement_state placement = PlacementPinned pinned
    /\ pinned_valid registration placement pinned grant.
Proof.
  induction 1 as [placement history store enrollment registration directory workspace authorization offer pin Hh Hp
    |store placement grant registration current profile tools replacement _ (pinned & <- & Hstate & Hvalid) Hr
    |store placement grant old lost request registration directory workspace prior replacement _
       (pinned & <- & Hstate & Hvalid) Hlost Hr].
  - by eapply pin_valid.
  - by eapply profile_valid.
  - by eapply replacement_valid.
Qed.

(** What a pinned placement may become while its runner is lost. *)
Definition lost_later (placement later : SessionRunnerPlacement) : Prop :=
  later = placement \/ placement_lost placement later
  \/ exists lost, placement_lost placement lost /\ abandon_lost_runner lost = Ok later.

Lemma lost_later_state placement pinned later :
  placement_state placement = PlacementPinned pinned -> lost_later placement later ->
  exists state, later = set_placement_state placement state
    /\ (state = PlacementPinned pinned
        \/ (exists source, state = PlacementLost (mkLostPinned pinned source))
        \/ exists source, state = PlacementAbandoned (AbandonedPinned (mkLostPinned pinned source))).
Proof.
  intros Hstate Hlater.
  assert (placement = set_placement_state placement (PlacementPinned pinned)) as Hself
    by (by destruct placement; simpl in *; subst).
  destruct Hlater as [->|[Hlost|(lost & Hlost & Habandon)]]; [eauto| |];
    destruct (placement_lost_pinned _ _ _ Hstate Hlost) as [->|[source ->]]; [by eauto|by eauto 6| |].
  - unfold abandon_lost_runner in Habandon. by rewrite Hstate in Habandon.
  - injection Habandon as <-. by eauto 6.
Qed.

(** Whatever has become of it, the pinned facts are what is reconstituted. *)
Lemma later_reconstitutes placement pinned later stored registration tombstone :
  placement_state placement = PlacementPinned pinned -> lost_later placement later ->
  placement_reconstitute uuid_text (mkPlacementInput later stored) (placement_session placement)
    (Some registration) tombstone = Ok later <->
  reconstitute_pinned_placement uuid_text placement pinned (Some registration) tombstone = Ok placement.
Proof.
  intros Hstate Hlater. rewrite reconstitute_pinned_Ok.
  destruct (lost_later_state _ _ _ Hstate Hlater) as (state & -> & Hcases).
  unfold placement_reconstitute. cbn [stored_placement stored_history set_placement_state placement_session
    placement_state]. rewrite bool_decide_true by done. cbn [negb].
  destruct Hcases as [->|[[source ->]|[source ->]]]; cbn [lost_pinned]; by rewrite reconstitute_pinned_Ok.
Qed.

(** C35. A placement that was pinned, through any sequence of pins, changes of
    profile under any registration current at the time, and replacements of a
    lost runner, is reconstituted from its stored revision under the
    registration it was last pinned under exactly when that one has its
    profile; under another one that preserves its snapshot, such as the one a
    profile was changed under, exactly when the tools are the same and the
    overridden ones are declared. So are its loss and its abandonment, and a
    placement that lost its profile, under the revoked grant it was left with. *)
Theorem pinned_placements_reconstitute session registration placement grant stored later
    (Hpinned : pinned_under session registration placement grant)
    (Hlater : lost_later placement later) :
  exists pinned, placement_state placement = PlacementPinned pinned
    /\ (placement_reconstitute uuid_text (mkPlacementInput later stored) session (Some registration)
          (tombstone_of pinned grant) = Ok later <-> offers registration (pinned_profile pinned))
    /\ (forall other, registration_preserves_snapshot (placement_request placement) pinned other = true ->
        (placement_reconstitute uuid_text (mkPlacementInput later stored) session (Some other)
          (tombstone_of pinned grant) = Ok later <->
         overrides_declared (placement_request placement) other /\ same_tools other pinned)).
Proof.
  destruct (pinned_under_valid _ _ _ _ Hpinned) as (pinned & <- & Hstate & Hvalid).
  exists pinned. split; [done|]. split.
  - rewrite (later_reconstitutes _ pinned) by done. by apply pinned_valid_reconstitutes.
  - intros other Hother. rewrite (later_reconstitutes _ pinned) by done.
    by apply (pinned_valid_preserved registration).
Qed.

End pinned.

(** ** Witnesses *)

Definition sample_selected (runner : N) : SessionRunnerPlacementRequest :=
  mkPlacementRequest (SelectIdentity (from_uuid runner)) RunnerDefaultDirectory None NoWorkspace
    SandboxAmbient ∅.
Definition sample_replaced : SessionRunnerPlacement :=
  mkPlacement (from_uuid 7) (mkRunnerGeneration 2) (sample_selected 6) PlacementUnpinned.

Lemma prepin_history_exact_witness :
  before_pin sample_replaced = true
  /\ exists history, prepin_reachable (from_uuid 7) sample_replaced history /\ length history = 1%nat.
Proof.
  split; [reflexivity|].
  destruct (prepin_history_exact (fun _ => []) (from_uuid 7) sample_replaced
    (PrePinReplacements [mkPrePinHistory (mkRunnerGeneration 1) (from_uuid 5) (sample_selected 5)
       (sample_selected 6)]) None None eq_refl) as [Hexact _].
  destruct Hexact as (history & Hstored & Hreachable); [vm_compute; reflexivity|].
  exists history. split; [exact Hreachable|].
  destruct history as [|first [|second rest]]; [discriminate Hstored|reflexivity|discriminate Hstored].
Defined.

Definition sample_runner_request : ToolRequest :=
  mkToolRequest (from_uuid 11) (from_uuid 7) (from_uuid 8) (from_uuid 9) (mkToolOrdinal 0)
    (mkToolName (lit "read")) (mkArguments JsonArguments (lit "{}")) PostureAuto None.
Definition sample_runner_attempt : CurrentToolAttempt :=
  mkToolAttempt (from_uuid 12) (from_uuid 11) (from_uuid 7) (from_uuid 8) (from_uuid 10) EffectFree
    dispatch_generation_first ToolInFlight.
Definition sample_lease_authorization : LeaseAuthorization :=
  mkLeaseAuthorization
    (mkRunnerAuthorization (mkApproved sample_runner_request (policy_auto (from_uuid 11)))
       (mkAuthorized sample_runner_attempt (attempt_correlation sample_runner_attempt) 1)) None.

(** A session pinned to the runner of [sample_enrollment]. *)
Definition sample_pin : option (ValidatedRunnerRegistration * SessionRunnerPin) :=
  match sample_runner_catalog with
  | Ok catalog =>
      let '(self, store) := sample_enrollment in
      match register store self sample_advertisement catalog with
      | (Ok registration, store) =>
          match pin_and_offer_lease (fun _ => []) store (placement_new (from_uuid 7) (sample_selected 2)) self
                  registration (mkWorkingDirectory (lit "/home/runner")) None sample_lease_authorization
                  (mkOfferRequest (from_uuid 13) (mkToolName (lit "read"))) with
          | Returned pin => Some (registration, pin)
          | _ => None
          end
      | _ => None
      end
  | Err _ => None
  end.

(** A session pinned with one profile, whose runner then registers a second one
    that is chosen under the new registration. *)
Definition sample_profile (name : string) : CredentialProfileName := mkProfileName (lit name).
Definition sample_profile_policy (name : string) : CredentialProfilePolicy :=
  mkProfilePolicy (sample_profile name) {[mkToolName (lit "read") := ApprovalAutomatic]}.
Definition sample_profile_request : SessionRunnerPlacementRequest :=
  mkPlacementRequest (SelectIdentity (from_uuid 2)) RunnerDefaultDirectory (Some (sample_profile "first"))
    NoWorkspace SandboxAmbient ∅.

Record Reprofiled := mkReprofiled {
  pinning_registration : ValidatedRunnerRegistration;
  current_registration : ValidatedRunnerRegistration;
  first_pin : SessionRunnerPin;
  chosen : CredentialProfilePlacementReplacement;
}.

Definition sample_reprofiled : option Reprofiled :=
  let read := mkToolName (lit "read") in
  match runner_catalog_try_new [sample_class] [sample_declaration]
          [sample_profile_policy "first"; sample_profile_policy "second"] [] [SandboxAmbient] with
  | Err _ => None
  | Ok catalog =>
      let '(self, store) := sample_enrollment in
      let advertised profiles :=
        advertisement_new [sample_class] [read] profiles [] [SandboxAmbient] [] in
      match register store self (advertised [sample_profile "first"]) catalog with
      | (Err _, _) => None
      | (Ok registration, store) =>
          match pin_and_offer_lease (fun _ => []) store (placement_new (from_uuid 7) sample_profile_request) self
                  registration (mkWorkingDirectory (lit "/home/runner")) None sample_lease_authorization
                  (mkOfferRequest (from_uuid 13) read) with
          | Returned pin =>
              match pin_grant pin, register store self
                      (advertised [sample_profile "first"; sample_profile "second"]) catalog with
              | Some grant, (Ok current, store) =>
                  match replace_credential_profile store (pin_placement pin) grant current
                          (sample_profile "second") [read] with
                  | Returned replacement => Some (mkReprofiled registration current pin replacement)
                  | _ => None
                  end
              | _, _ => None
              end
          | _ => None
          end
      end
  end.

Lemma sample_reprofiled_under r :
  sample_reprofiled = Some r ->
  pinned_under (fun _ => []) (from_uuid 7) (pinning_registration r) (profile_placement (chosen r))
    (Some (replacement_grant (profile_grant (chosen r)))).
Proof.
  unfold sample_reprofiled. destruct (runner_catalog_try_new _ _ _ _ _) as [catalog|]; [|done].
  destruct sample_enrollment as [self store]. destruct (register store self _ catalog) as [[registration|] store1]; [|done].
  destruct (pin_and_offer_lease _ _ _ _ _ _ _ _ _) as [pin| |] eqn:Hpin; try done.
  destruct (pin_grant pin) as [grant|] eqn:Hgrant; [|done].
  destruct (register store1 self _ catalog) as [[current|] store2]; [|done].
  destruct (replace_credential_profile _ _ _ _ _ _) as [replacement| |] eqn:Hreplace; try done.
  intros [= <-]. eapply under_profile; [|exact Hreplace]. rewrite <- Hgrant.
  eapply under_pin; [apply history_new|exact Hpin].
Qed.

Lemma sample_reprofiled_facts :
  match sample_reprofiled with
  | Some r =>
      match placement_state (profile_placement (chosen r)) with
      | PlacementPinned pinned =>
          pinned_profile pinned = Some (sample_profile "second")
          /\ registration_profile (pinning_registration r) (sample_profile "second") = None
          /\ registration_preserves_snapshot (placement_request (profile_placement (chosen r))) pinned
               (current_registration r) = true
          /\ overrides_declared (placement_request (profile_placement (chosen r))) (current_registration r)
          /\ same_tools (current_registration r) pinned
      | _ => False
      end
  | None => False
  end.
Proof. vm_compute. repeat split. Qed.

(** The placement is not reconstituted under the registration of its pin, which
    has no second profile, but is under the one it was chosen under. *)
Lemma pinned_placements_reconstitute_witness :
  exists r, sample_reprofiled = Some r
    /\ let stored := mkPlacementInput (profile_placement (chosen r)) InitialPlacement in
       placement_reconstitute (fun _ => []) stored (from_uuid 7) (Some (pinning_registration r)) None
         <> Ok (profile_placement (chosen r))
       /\ placement_reconstitute (fun _ => []) stored (from_uuid 7) (Some (current_registration r)) None
         = Ok (profile_placement (chosen r)).
Proof.
  pose proof sample_reprofiled_facts as Hfacts. destruct sample_reprofiled as [r|] eqn:Hsample; [|destruct Hfacts].
  exists r. split; [done|]. intros stored.
  destruct (pinned_placements_reconstitute (fun _ => []) (from_uuid 7) (pinning_registration r)
    (profile_placement (chosen r)) (Some (replacement_grant (profile_grant (chosen r)))) InitialPlacement
    (profile_placement (chosen r))) as (pinned & Hpinned & Hpin & Hother);
    [by apply sample_reprofiled_under|by left|].
  rewrite Hpinned in Hfacts. destruct Hfacts as (Hprofile & Hmissing & Hpreserved & Hoverrides & Htools).
  unfold tombstone_of in Hpin, Hother. rewrite Hprofile in Hpin, Hother. split.
  - intros Hok. apply Hpin in Hok. destruct (Hok (sample_profile "second") eq_refl) as [policy Hpolicy]. congruence.
  - exact (proj2 (Hother _ Hpreserved) (conj Hoverrides Htools)).
Defined.
