(* ===== verification/RunnerLeaseSpec.v ===== *)
(** * Leases: authority, loss and retry

    What an offered lease proves about the placement, the grant and the
    decision behind it; how each loss is classified and restored; and the
    retry of a lease that never ran, through its batch to the next offer. *)

From stdpp Require Import strings sets.
From S2P Require Import Prelude TurnLifecycle SemanticEntry BatchProjection ModelExecution Frontier Tool ToolAttempt ToolBatch ToolBatchSteps RunnerNames RunnerCatalog RunnerEnrollment RunnerEnrollmentSpec RunnerGrant RunnerLease RunnerPlacement RunnerPlacementSpec.

Local Open Scope list_scope.

(** ** Offers *)

Lemma validate_dispatch_Returned store placement enrollment registration grant tool dispatch :
  validate_dispatch store placement enrollment registration grant tool = Returned dispatch ->
  exists pinned declaration, placement_state placement = PlacementPinned pinned
    /\ enrollment_authorizes store enrollment registration = Ok tt
    /\ registration_preserves_snapshot (placement_request placement) pinned registration = true
    /\ tool ∈ pinned_tools pinned
    /\ registration_tool registration tool = Some declaration
    /\ dispatch_credential (placement_session placement) pinned grant tool
       = Returned (validated_credential dispatch)
    /\ (forall authorization, validated_credential dispatch = Some authorization ->
        dispatch_approval authorization = validated_approval dispatch)
    /\ dispatch = mkDispatch (pinned_runner pinned) (registration_revision registration)
         (placement_revision placement) (pinned_directory pinned) (pinned_sandbox pinned)
         (resolve_runner_approval (declaration_effect declaration) (pinned_sandbox pinned)
            (pinned_overrides pinned) tool)
         (declaration_effect declaration) (validated_credential dispatch).
Proof.
  unfold validate_dispatch. destruct (placement_state placement) as [| |pinned| |]; try done.
  intros ([] & Hauth%exec_of_Returned & Hd)%exec_bind_Returned.
  destruct (registration_preserves_snapshot _ _ _) eqn:Hsnapshot; simpl in Hd; [|done].
  destruct (bool_decide_reflect (tool ∈ pinned_tools pinned)) as [Htool|]; simpl in Hd; [|done].
  apply exec_bind_Returned in Hd as (declaration & Hdecl%exec_ok_or_Returned & Hd).
  apply exec_bind_Returned in Hd as (credential & Hcred & Hd).
  exists pinned, declaration.
  destruct credential as [authorization|]; [destruct (bool_decide_reflect (dispatch_approval authorization
    = resolve_runner_approval (declaration_effect declaration) (pinned_sandbox pinned)
        (pinned_overrides pinned) tool)) as [Happroval|]; simpl in Hd; [|done]|];
    injection Hd as <-; split_and!; try done. by intros ? [= <-].
Qed.

(** The authorization an attempt is dispatched under fits the tool. *)
Record attempt_authorized (session : SessionId) (tool : ToolName) (effect : RunnerToolEffectClass)
    (approval : CredentialToolApproval) (authorization : LeaseAuthorization) : Prop := mkAttemptAuthorized {
  authorized_name : request_name (approved_request (runner_approved (lease_authorization authorization))) = tool;
  authorized_session :
    request_session (approved_request (runner_approved (lease_authorization authorization))) = session;
  authorized_effect :
    tool_attempt_effect_class (authorized_attempt (runner_authorized (lease_authorization authorization)))
    = tool_effect_class effect;
  authorized_source : resolution_source (approved_approval (runner_approved (lease_authorization authorization)))
    <> SourceSessionBlanket;
  authorized_confirmed : approval = ApprovalSessionPolicy ->
    confirmed_by_user (resolution_source
      (approved_approval (runner_approved (lease_authorization authorization)))) = true;
}.

Lemma validate_authorized_attempt_Ok session tool effect approval authorization r :
  validate_authorized_attempt session tool effect approval authorization = Ok r ->
  attempt_authorized session tool effect approval authorization
  /\ r = (authorized_correlation (runner_authorized (lease_authorization authorization)),
          request_arguments (approved_request (runner_approved (lease_authorization authorization))),
          retry_evidence authorization).
Proof.
  unfold validate_authorized_attempt. destruct (_ || _) eqn:Hchecks; [done|]. intros [= <-].
  rewrite !orb_false_iff, !negb_false_iff, andb_false_iff, negb_false_iff, !bool_decide_eq_true,
    !bool_decide_eq_false in Hchecks.
  destruct Hchecks as [[[[[[[[H1 H2] H3] H4] H5] H6] H7] H8] H9]. split; [|done].
  constructor; try done. intros ->. by destruct H9.
Qed.

(** What is stored of a lease. *)
Definition stored_lease (lease : RunnerLease) (preparation : RunnerLeaseRetryPreparation) :
    RunnerLeaseReconstitutionInput :=
  mkLeaseInput lease (lease_correlation lease) (correlation_session (lease_dispatch lease))
    (lease_effect lease) (lease_arguments lease) (lease_credential lease) (lease_state lease) preparation.

Lemma stored_lease_reconstitutes lease preparation registration :
  lease_reconstitute (stored_lease lease preparation) registration = Ok lease <->
  lease_credential_matches lease = true /\ lease_declaration_matches registration lease = true.
Proof.
  unfold lease_reconstitute. simpl. rewrite !bool_decide_true by done. simpl.
  destruct (lease_credential_matches lease), (lease_declaration_matches registration lease); naive_solver.
Qed.

(** The authorization comes from its sealed constructor. *)
Definition issued (authorization : RunnerToolAttemptAuthorization) : Prop :=
  exists store approved authorized store',
    runner_authorization_try_new store approved authorized = (Ok authorization, store').

Lemma issued_correlated authorization :
  issued authorization ->
  request_session (approved_request (runner_approved authorization))
  = correlation_session (authorized_correlation (runner_authorized authorization)).
Proof.
  intros (store & approved & authorized & store' & Hnew). unfold runner_authorization_try_new in Hnew.
  destruct (_ || _) eqn:Hchecks; [done|]. destruct (claim_runner_issuance _ _) as [[] ?]; [|done].
  injection Hnew as <- _. simpl.
  rewrite !orb_false_iff, !negb_false_iff, !bool_decide_eq_true in Hchecks. by destruct Hchecks as [[]].
Qed.

Lemma authorization_for_Returned grant session runner profile tool authorization :
  authorization_for grant session runner profile tool = Returned authorization ->
  grant_state grant = GrantActive /\ tool ∈ grant_tools grant
  /\ dispatch_session authorization = session /\ dispatch_runner authorization = runner
  /\ dispatch_profile authorization = profile /\ dispatch_tool authorization = tool.
Proof.
  unfold authorization_for. case_bool_decide as Hstate; simpl; [|done]. destruct (_ || _) eqn:Hchecks; [done|].
  intros (approval & _ & [= <-])%exec_bind_Returned.
  rewrite !orb_false_iff, !negb_false_iff, !bool_decide_eq_true in Hchecks.
  destruct Hchecks as [[[<- <-] <-] Htool]. done.
Qed.

(** The credential of a dispatch is that of the grant of the placement. *)
Definition credential_granted (session : SessionId) (pinned : PinnedRunnerPlacement)
    (grant : option CredentialProfileGrant) (tool : ToolName)
    (credential : option CredentialDispatchAuthorization) : Prop :=
  match pinned_profile pinned, credential with
  | None, None => grant = None
  | Some profile, Some authorization => exists granted, grant = Some granted
      /\ pinned_lineage pinned = Some (grant_lineage granted) /\ grant_state granted = GrantActive
      /\ tool ∈ grant_tools granted /\ dispatch_session authorization = session
      /\ dispatch_runner authorization = pinned_runner pinned
      /\ dispatch_profile authorization = profile /\ dispatch_tool authorization = tool
  | _, _ => False
  end.

Lemma dispatch_credential_Returned session pinned grant tool credential :
  dispatch_credential session pinned grant tool = Returned credential ->
  credential_granted session pinned grant tool credential.
Proof.
  unfold dispatch_credential, credential_granted. destruct (pinned_profile pinned) as [profile|], grant as [granted|]; try done.
  - case_bool_decide as Hlineage; [|done]. intros (authorization & Hauth & [= <-])%exec_bind_Returned.
    apply authorization_for_Returned in Hauth. exists granted. naive_solver.
  - by intros [= <-].
Qed.

(** C33. A lease offered from an authorization of the batch is fenced by the
    current registration of an active enrollment, for a tool of the pin the
    registration declares with the same effect; its decision is not the
    session's blanket and is the user's wherever the policy of the placement
    asks for it; its credential is that of the placement's active grant; and
    its stored facts are reconstituted under that registration. *)
Theorem offered_lease_authorized store placement enrollment registration grant authorization offer lease
    (Hissued : issued (lease_authorization authorization))
    (Hoffer : offer_lease store placement enrollment registration grant authorization offer = Returned lease) :
  let tool := offer_tool offer in
  let decision := approved_approval (runner_approved (lease_authorization authorization)) in
  exists pinned declaration, placement_state placement = PlacementPinned pinned
    /\ enrollment_state enrollment = EnrollmentActive /\ registration_is_current store registration = true
    /\ tool ∈ pinned_tools pinned /\ registration_tool registration tool = Some declaration
    /\ resolution_source decision <> SourceSessionBlanket
    /\ (resolve_runner_approval (declaration_effect declaration) (pinned_sandbox pinned)
          (pinned_overrides pinned) tool = ApprovalSessionPolicy ->
        confirmed_by_user (resolution_source decision) = true)
    /\ credential_granted (placement_session placement) pinned grant tool (lease_credential lease)
    /\ lease_state lease = LeaseOffered /\ lease_generation lease = runner_generation_one
    /\ lease_reconstitute (stored_lease lease RetryAvailable) registration = Ok lease.
Proof.
  intros tool decision. unfold offer_lease in Hoffer.
  apply exec_bind_Returned in Hoffer as (dispatch & Hdispatch & Hoffer).
  apply exec_bind_Returned in Hoffer as ([[attempt arguments] evidence] & Hattempt%exec_of_Returned & Hoffer).
  destruct (bool_decide_reflect (is_Some evidence)) as [|Hevidence]; [done|]. injection Hoffer as <-.
  apply validate_dispatch_Returned in Hdispatch as
    (pinned & declaration & Hstate & Hauth & Hsnapshot & Htool & Hdecl & Hcred & _ & Hd).
  apply dispatch_credential_Returned in Hcred.
  apply validate_authorized_attempt_Ok in Hattempt as [[_ Hsession _ Hsource Hconfirmed] [= -> -> _]].
  apply issued_correlated in Hissued. rewrite Hsession in Hissued.
  unfold enrollment_authorizes in Hauth.
  destruct (bool_decide_reflect (enrollment_state enrollment = EnrollmentActive)) as [Hactive|]; simpl in Hauth; [|done].
  destruct (_ || _) in Hauth; [done|]. destruct (registration_is_current store registration) eqn:Hcurrent; simpl in Hauth; [|done].
  exists pinned, declaration. rewrite Hd in Hconfirmed. split_and!; try done.
  apply stored_lease_reconstitutes. rewrite Hd. simpl. split.
  - unfold lease_credential_matches, credential_granted in *. cbn [lease_credential offer_validated
      validated_credential lease_dispatch lease_runner lease_tool validated_runner].
    destruct (validated_credential dispatch) as [credential|]; [|done].
    destruct (pinned_profile pinned); [|done].
    destruct Hcred as (granted & _ & _ & _ & _ & Hcs & Hcr & _ & Hct).
    by rewrite Hcs, Hcr, Hct, <- Hissued, !bool_decide_true.
  - unfold lease_declaration_matches. simpl. rewrite Hdecl.
    unfold registration_preserves_snapshot in Hsnapshot. rewrite !andb_true_iff in Hsnapshot.
    destruct Hsnapshot as [[[[[[[Hrunner%bool_decide_eq_true _] _] _] _] _] _] _].
    by rewrite Hrunner, !bool_decide_true.
Qed.

(** ** Loss *)

(** Losing a lease, with or without proof that it never ran. *)
Definition lose (lease : RunnerLease) (proof : option RunnerLeaseNoExecutionProof) :
    runner_result RunnerLeaseLoss :=
  match proof with None => lose_lease lease | Some proof => lose_unclaimed lease proof end.

(** What may have run, and what its loss leads to. *)
Definition lost_as (lease : RunnerLease) (proof : option RunnerLeaseNoExecutionProof) (state : RunnerLeaseState) :
    Prop :=
  match proof, lease_state lease with
  | Some proof, LeaseOffered => no_execution_correlation proof = lease_correlation lease /\ state = LostUnclaimed
  | None, LeaseOffered => state = LostExecutionPossible
  | None, LeaseClaimed => state = LostClaimed
  | _, _ => False
  end.

Lemma lose_cases lease proof loss :
  lose lease proof = Ok loss <->
  exists state, lost_as lease proof state
    /\ into_loss_consequence (set_lease_state lease state) proof RetryAvailable = Ok loss.
Proof.
  unfold lose, lost_as, lose_lease, lose_unclaimed. destruct proof as [proof|].
  - case_bool_decide as Hstate; simpl.
    + rewrite Hstate. case_bool_decide; naive_solver.
    + split; [done|]. intros (state & Hlost & _). by destruct (lease_state lease).
  - destruct (lease_state lease); naive_solver.
Qed.

Lemma loss_consequence lease proof state preparation :
  lost_as lease proof state ->
  into_loss_consequence (set_lease_state lease state) proof preparation =
    let lost := set_lease_state lease state in
    if bool_decide (proof = None) && bool_decide (lease_effect lease = EffectSideEffecting)
    then Ok (CrashClassificationRequired lost)
    else match runner_generation_checked_next (lease_generation lease) with
         | Some generation => Ok (RetryPermitted lost
             (mkRetryAuthority (retry_source_of lost) generation
                match proof with None => Some (correlation_attempt (lease_dispatch lease)) | Some _ => None end
                match preparation with RetryPrepared => true | RetryAvailable => false end) proof)
         | None => Err RunnerGenerationExhausted
         end.
Proof.
  unfold lost_as, into_loss_consequence. cbv zeta.
  cbn [set_lease_state lease_state lease_effect lease_generation lease_dispatch].
  generalize (runner_generation_checked_next (lease_generation lease)) as next. intros next.
  destruct proof as [proof|], (lease_state lease); try done; [intros [_ ->]|intros ->|intros ->];
    destruct (bool_decide (lease_effect lease = EffectSideEffecting)), next; done.
Qed.

#[local] Instance RunnerLeaseNoExecutionProof_eq_dec : EqDecision RunnerLeaseNoExecutionProof.
Proof. solve_decision. Defined.

Lemma reconstituted_consequence lease proof state preparation :
  lost_as lease proof state ->
  into_reconstituted_loss (set_lease_state lease state) (no_execution_correlation <$> proof) preparation
  = into_loss_consequence (set_lease_state lease state) proof preparation.
Proof.
  unfold lost_as, into_reconstituted_loss.
  destruct proof as [[correlation]|], (lease_state lease); try done; [intros [Hc ->]|intros ->|intros ->]; simpl;
    [|done..]. simpl in Hc. by rewrite Hc, bool_decide_true.
Qed.

(** A loss whose crash has to be classified: side effects may have happened. *)
Definition crash_of (lease : RunnerLease) (proof : option RunnerLeaseNoExecutionProof) : Prop :=
  proof = None /\ lease_effect lease = EffectSideEffecting.

(** What losing a lease in a state leads to, and whether its retry was used. *)
Definition lost_with (lease : RunnerLease) (proof : option RunnerLeaseNoExecutionProof)
    (state : RunnerLeaseState) (used : bool) (loss : RunnerLeaseLoss) : Prop :=
  let lost := set_lease_state lease state in
  match loss with
  | CrashClassificationRequired of_lease => of_lease = lost /\ crash_of lease proof
  | RetryPermitted of_lease retry no_execution =>
      of_lease = lost /\ no_execution = proof /\ ~ crash_of lease proof
      /\ runner_generation (retry_generation retry) = Pos.succ (runner_generation (lease_generation lease))
      /\ (Npos (runner_generation (retry_generation retry)) <= u64_max)%N
      /\ retry_source retry = retry_source_of lost /\ retry_claimed retry = used
      /\ retry_claimed_attempt retry =
           match proof with None => Some (correlation_attempt (lease_dispatch lease)) | Some _ => None end
  end.

Lemma consequence_exact lease proof state preparation loss :
  lost_as lease proof state ->
  into_loss_consequence (set_lease_state lease state) proof preparation = Ok loss <->
  lost_with lease proof state match preparation with RetryPrepared => true | RetryAvailable => false end loss.
Proof.
  intros Hlost. rewrite loss_consequence by done. cbv zeta. unfold lost_with, crash_of. cbv zeta.
  destruct (bool_decide (proof = None) && bool_decide (lease_effect lease = EffectSideEffecting)) eqn:Hcrash.
  - rewrite andb_true_iff, !bool_decide_eq_true in Hcrash.
    destruct loss; naive_solver.
  - rewrite andb_false_iff, !bool_decide_eq_false in Hcrash.
    destruct (runner_generation_checked_next (lease_generation lease)) as [generation|] eqn:Hnext.
    + apply runner_generation_checked_next_Some in Hnext as [Hnext Hle]. split.
      * intros [= <-]. cbn [retry_generation retry_source retry_claimed retry_claimed_attempt].
        split_and!; try done; tauto.
      * destruct loss as [of_lease [source again attempt claimed] no_execution|of_lease]; [|tauto].
        cbn [retry_generation retry_source retry_claimed retry_claimed_attempt].
        intros (-> & -> & _ & Hagain & _ & -> & -> & ->). do 3 f_equal.
        destruct generation as [g], again as [g']. simpl in *. congruence.
    + split; [done|]. destruct loss as [of_lease retry no_execution|of_lease]; [|tauto].
      intros (_ & _ & _ & Hagain & Hle & _).
      assert (runner_generation_checked_next (lease_generation lease) = Some (retry_generation retry)) as Hsome
        by by apply runner_generation_checked_next_Some.
      congruence.
Qed.

Lemma loss_possible lease proof :
  (exists loss, lose lease proof = Ok loss) <->
  (exists state, lost_as lease proof state)
  /\ (crash_of lease proof \/ (Npos (runner_generation (lease_generation lease)) < u64_max)%N).
Proof.
  setoid_rewrite lose_cases. split.
  - intros (loss & state & Hlost & Hloss). split; [by exists state|].
    apply consequence_exact in Hloss; [|done]. destruct loss as [of_lease retry no_execution|of_lease].
    + destruct Hloss as (_ & _ & _ & Hnext & Hle & _). right. lia.
    + left. apply Hloss.
  - intros [[state Hlost] Hpossible].
    assert (exists loss, into_loss_consequence (set_lease_state lease state) proof RetryAvailable = Ok loss)
      as [loss Hloss]; [|by exists loss, state].
    rewrite loss_consequence by done. cbv zeta. case_match eqn:Hcrash; [by eexists|].
    destruct Hpossible as [[-> Heffect]|Hlt]; [by rewrite Heffect in Hcrash|].
    set (next := mkRunnerGeneration (Pos.succ (runner_generation (lease_generation lease)))).
    assert (runner_generation_checked_next (lease_generation lease) = Some next) as ->; [|by eexists].
    apply runner_generation_checked_next_Some. simpl. lia.
Qed.

(** C34. A lease is lost exactly while it is offered or claimed, an offered one
    also with proof that it never ran; only a retry that would exhaust the
    generations prevents it. Without that proof a side-effecting lease needs its
    crash classified and is not retried; any other loss permits one retry at the
    next generation, of the claimed attempt when it may have run. Stored, the
    loss is restored with the same consequence, and one whose retry was prepared
    is not retried again. *)
Theorem lease_loss_exact lease proof registration
    (Hstored : lease_reconstitute (stored_lease lease RetryAvailable) registration = Ok lease) :
  (forall loss, lose lease proof = Ok loss <->
     exists state, lost_as lease proof state /\ lost_with lease proof state false loss)
  /\ ((exists loss, lose lease proof = Ok loss) <->
      (exists state, lost_as lease proof state)
      /\ (crash_of lease proof \/ (Npos (runner_generation (lease_generation lease)) < u64_max)%N))
  /\ (forall state preparation loss, lost_as lease proof state ->
      reconstitute_loss (stored_lease (set_lease_state lease state) preparation) registration
        (no_execution_correlation <$> proof) = Ok loss <->
      lost_with lease proof state match preparation with RetryPrepared => true | RetryAvailable => false end loss)
  /\ (forall state lost retry no_execution, lost_with lease proof state true (RetryPermitted lost retry no_execution) ->
      forall (Snap : Type) (snapshots : ContextSnapshots Snap) store (batch : ToolBatch Snap) attempt,
        is_ok (prepare_unclaimed_attempt store retry batch).1.1 = false
        /\ is_ok (prepare_claimed_attempt store retry batch attempt).1.1 = false).
Proof.
  apply stored_lease_reconstitutes in Hstored as [Hcredential Hdeclaration].
  assert (forall loss, lose lease proof = Ok loss <->
    exists state, lost_as lease proof state /\ lost_with lease proof state false loss) as Hlose.
  { intros loss. rewrite lose_cases. split; intros (state & Hlost & Hloss); exists state; (split; [done|]);
      by apply (consequence_exact lease proof state RetryAvailable loss Hlost). }
  split_and!; [done|apply loss_possible| |].
  - intros state preparation loss Hlost. rewrite <- consequence_exact by done.
    rewrite <- reconstituted_consequence by done. unfold reconstitute_loss.
    by rewrite (proj2 (stored_lease_reconstitutes (set_lease_state lease state) preparation registration)).
  - intros state lost [source generation claimed used] no_execution (_ & _ & _ & _ & _ & _ & Hused & Hattempt)
      Snap ? store batch attempt.
    cbn [retry_claimed retry_claimed_attempt] in *. subst used claimed.
    unfold prepare_unclaimed_attempt, prepare_claimed_attempt. simpl.
    destruct proof; simpl; [done|]. split; [done|]. by case_bool_decide.
Qed.

Lemma lose_unclaimed_Ok lease proof loss :
  lose_unclaimed lease proof = Ok loss ->
  exists generation, runner_generation_checked_next (lease_generation lease) = Some generation
    /\ loss = RetryPermitted (set_lease_state lease LostUnclaimed)
         (mkRetryAuthority (retry_source_of (set_lease_state lease LostUnclaimed)) generation None false)
         (Some proof).
Proof.
  intros (state & Hlost & Hloss)%(lose_cases lease (Some proof)). rewrite loss_consequence in Hloss by done.
  assert (state = LostUnclaimed) as ->.
  { unfold lost_as in Hlost. destruct (lease_state lease); by destruct Hlost. }
  revert Hloss. cbv zeta. rewrite (bool_decide_false (Some proof = None)) by done.
  generalize (runner_generation_checked_next (lease_generation lease)) as next. intros [generation|]; [|done].
  intros [= <-]. by exists generation.
Qed.

(** ** Retry of a lease that never ran *)

Section retry.
Context {Snap : Type} `{ContextSnapshots Snap}.
Implicit Types (batch : ToolBatch Snap).

Lemma bind_runner_authorization_Ok store batch authorized authorization store' :
  bind_runner_authorization store batch authorized = (Ok authorization, store') ->
  runner_authorized authorization = authorized /\ issued authorization
  /\ store !! authorized_runner_issuance authorized = Some RUNNER_ISSUANCE_AVAILABLE
  /\ store' = <[authorized_runner_issuance authorized := RUNNER_ISSUANCE_ISSUED]> store
  /\ forall store2 authorized2,
       authorized_correlation authorized2 = authorized_correlation authorized ->
       store2 !! authorized_runner_issuance authorized2 = Some RUNNER_ISSUANCE_AVAILABLE ->
       exists store3, bind_runner_authorization store2 batch authorized2
         = (Ok (mkRunnerAuthorization (runner_approved authorization) authorized2), store3).
Proof.
  unfold bind_runner_authorization. 
  destruct (request ← ok_or (find_request (batch_requests batch)
      (correlation_request (authorized_correlation authorized))) AttemptMissing;
    approval ← ok_or (batch_approvals batch !! request_id request) ApprovalMismatch;
    map_err (fun _ => ApprovalMismatch) (try_from_resolution request approval)) as [approved|e] eqn:Happroved; [|done].
  intros Hbind. assert (issued authorization) as Hissued.
  { exists store, approved, authorized. destruct (runner_authorization_try_new _ _ _) as [[a|e] store'']; [|done].
    simpl in Hbind. injection Hbind as -> _. by eexists. }
  revert Hbind. unfold runner_authorization_try_new, claim_runner_issuance, compare_exchange.
  destruct (_ || _) eqn:Hchecks; [done|].
  destruct (bool_decide_reflect (store !! authorized_runner_issuance authorized
    = Some RUNNER_ISSUANCE_AVAILABLE)) as [Hcell|]; [|done]. simpl. intros [= <- <-]. simpl.
  split_and!; try done. intros store2 authorized2 Hcorrelation Hcell2.
  rewrite Hcorrelation, Happroved, Hchecks, (bool_decide_true (store2 !! _ = _)) by done. by eexists.
Qed.

Lemma find_in_flight_current batch attempt current :
  find_current batch attempt = Some current -> tool_attempt_state current = ToolInFlight ->
  exists request, find_in_flight batch attempt = Some (request, current).
Proof.
  unfold find_current, find_in_flight, attempt_values.
  induction (btree_iter (batch_attempts batch)) as [|[request candidate] l IH]; [done|]. simpl.
  destruct candidate as [c|c]; [|exact IH].
  case_bool_decide; simpl; [|exact IH]. intros [= ->] Hstate. rewrite bool_decide_true by done. simpl. by eexists.
Qed.

Lemma resume_runner_attempt_Ok store batch attempt authorization store' :
  resume_runner_attempt store batch attempt = (Ok authorization, store') ->
  exists current request cell, is_executing batch = true
    /\ find_in_flight batch attempt = Some (request, current) /\ tool_attempt_state current = ToolInFlight
    /\ batch_issuance batch !! attempt = Some cell
    /\ runner_authorized authorization = mkAuthorized current (attempt_correlation current) cell
    /\ bind_runner_authorization store batch (mkAuthorized current (attempt_correlation current) cell)
       = (Ok authorization, store').
Proof.
  unfold resume_runner_attempt, resume_in_flight_attempt. destruct (is_executing batch); [|done]. simpl.
  destruct (find_current batch attempt) as [current|] eqn:Hcurrent; [|done]. simpl.
  destruct (batch_issuance batch !! attempt) as [cell|]; [|done]. simpl.
  unfold resume_in_flight_with_runner_issuance. case_bool_decide as Hstate; simpl; [|done]. intros Hbind.
  destruct (find_in_flight_current _ _ _ Hcurrent Hstate) as [request Hfind].
  exists current, request, cell. split_and!; try done.
  by destruct (bind_runner_authorization_Ok _ _ _ _ _ Hbind).
Qed.

(** The batch reauthorizes the attempt it issued. *)
Lemma reauthorize_resumed store batch attempt authorization store' :
  resume_runner_attempt store batch attempt = (Ok authorization, store') ->
  exists batch' store2 cell,
    reauthorize_unclaimed_runner_attempt store' batch attempt
    = (Ok (batch', mkRunnerAuthorization (runner_approved authorization)
         (mkAuthorized (authorized_attempt (runner_authorized authorization))
            (authorized_correlation (runner_authorized authorization)) cell)), store2).
Proof.
  intros (current & request & cell & Hexecuting & Hfind & Hstate & Hcell & Hauthorized & Hbind)%resume_runner_attempt_Ok.
  apply bind_runner_authorization_Ok in Hbind as (_ & _ & _ & -> & Hagain). rewrite Hauthorized.
  unfold reauthorize_unclaimed_runner_attempt. rewrite Hexecuting, Hfind, Hcell. simpl.
  unfold compare_exchange. rewrite lookup_insert_eq, bool_decide_true by done. simpl.
  set (store2 := <[_ := _]> (<[_ := _]> store)). set (fresh_cell := fresh (dom store2)).
  unfold resume_in_flight_with_runner_issuance. rewrite bool_decide_true by done. simpl.
  edestruct (Hagain (<[fresh_cell := RUNNER_ISSUANCE_AVAILABLE]> store2)
    (mkAuthorized current (attempt_correlation current) fresh_cell)) as [store3 Hok]; [done| |].
  { by rewrite lookup_insert_eq. }
  change (bind_runner_authorization _ (set_issuance batch _) _) with
    (bind_runner_authorization (<[fresh_cell := RUNNER_ISSUANCE_AVAILABLE]> store2) batch
      (mkAuthorized current (attempt_correlation current) fresh_cell)).
  rewrite Hok. simpl. by do 3 eexists.
Qed.

(** The same offer at another generation. *)
Definition offered_again (lease : RunnerLease) (generation : RunnerGeneration) : RunnerLease :=
  mkLease (lease_id lease) (lease_dispatch lease) (lease_runner lease) (lease_registration_revision lease)
    (lease_placement_revision lease) (lease_directory lease) (lease_sandbox lease) (lease_tool lease)
    (lease_arguments lease) (lease_effect lease) (lease_credential lease) generation LeaseOffered.

Lemma offer_lease_Returned store placement enrollment registration grant authorization offer lease :
  offer_lease store placement enrollment registration grant authorization offer = Returned lease ->
  exists dispatch,
    validate_dispatch store placement enrollment registration grant (offer_tool offer) = Returned dispatch
    /\ validate_authorized_attempt (placement_session placement) (offer_tool offer)
         (validated_effect dispatch) (validated_approval dispatch) authorization
       = Ok (lease_dispatch lease, lease_arguments lease, None)
    /\ lease = offer_validated (offer_lease_id offer) (lease_dispatch lease) dispatch (offer_tool offer)
         (lease_arguments lease) (validated_effect dispatch) runner_generation_one.
Proof.
  unfold offer_lease. intros (dispatch & Hdispatch & Hoffer)%exec_bind_Returned.
  apply exec_bind_Returned in Hoffer as ([[attempt arguments] evidence] & Hattempt%exec_of_Returned & Hoffer).
  destruct evidence; [done|]. injection Hoffer as <-. exists dispatch. by split_and!.
Qed.

(** A dispatch that stands is offered again. *)
Lemma retried_offer fences placement enrollment registration grant offer lease dispatch retry proof
    authorization :
  validate_dispatch fences placement enrollment registration grant (offer_tool offer) = Returned dispatch ->
  lease = offer_validated (offer_lease_id offer) (lease_dispatch lease) dispatch (offer_tool offer)
    (lease_arguments lease) (validated_effect dispatch) runner_generation_one ->
  validate_authorized_attempt (placement_session placement) (offer_tool offer) (validated_effect dispatch)
    (validated_approval dispatch) authorization
  = Ok (lease_dispatch lease, lease_arguments lease, Some (EvidenceUnclaimed (lease_dispatch lease))) ->
  correlation_session (lease_dispatch lease) = placement_session placement ->
  retry_source retry = retry_source_of (set_lease_state lease LostUnclaimed) ->
  retry_claimed_attempt retry = None ->
  offer_retry fences placement enrollment registration grant
    (RetryPermitted (set_lease_state lease LostUnclaimed) retry (Some proof)) authorization
  = Returned (offered_again lease (retry_generation retry)).
Proof.
  intros Hdispatch Hlease Hattempt Hsession Hsource Hclaimed. unfold offer_retry.
  assert (source_matches (retry_source retry) (set_lease_state lease LostUnclaimed) = true) as ->.
  { rewrite Hsource. unfold source_matches. simpl. by rewrite !bool_decide_true. }
  simpl. assert (lease_tool lease = offer_tool offer) as Htool by by rewrite Hlease.
  assert (lease_effect lease = validated_effect dispatch) as Heffect by by rewrite Hlease.
  rewrite Htool, Hdispatch. simpl.
  assert (same_placement (set_lease_state lease LostUnclaimed) dispatch = true) as ->.
  { unfold same_placement. rewrite Hlease. simpl. by rewrite !bool_decide_true. }
  rewrite Hsession, Heffect, !bool_decide_true by done. simpl. rewrite Hattempt. simpl.
  rewrite bool_decide_true by done. simpl. unfold check_retry_evidence. rewrite Hclaimed. simpl.
  rewrite !bool_decide_true by done. simpl. f_equal. clear -Hlease. unfold offer_validated, offered_again in *.
  destruct lease. simpl in *. by injection Hlease as -> -> -> -> -> -> -> -> -> ->.
Qed.

(** C32. A lease of an in-flight attempt that is lost with proof that it never
    ran can be retried while its placement stands: the authority its loss
    carries reauthorizes the attempt through the batch, once, and the
    placement then offers the same lease again at the next generation. *)
Theorem unclaimed_lease_retries issuance batch attempt authorization issuance'
    fences placement enrollment registration grant offer lease proof loss
    (Hresume : resume_runner_attempt issuance batch attempt = (Ok authorization, issuance'))
    (Hoffer : offer_lease fences placement enrollment registration grant
       (mkLeaseAuthorization authorization None) offer = Returned lease)
    (Hloss : lose_unclaimed lease proof = Ok loss) :
  exists lost retry prepared retry' issuance'',
    loss = RetryPermitted lost retry (Some proof)
    /\ prepare_unclaimed_attempt issuance' retry batch = (Ok prepared, retry', issuance'')
    /\ offer_retry fences placement enrollment registration grant loss (reauthorization prepared)
       = Returned (offered_again lease (retry_generation retry))
    /\ runner_generation_checked_next (lease_generation lease) = Some (retry_generation retry)
    /\ forall cells (other : ToolBatch Snap),
         prepare_unclaimed_attempt cells retry' other = (Err RunnerStateInvalid, retry', cells).
Proof.
  destruct (lose_unclaimed_Ok _ _ _ Hloss) as (generation & Hnext & ->).
  destruct (resume_runner_attempt_Ok _ _ _ _ _ Hresume) as
    (current & request & cell & _ & Hfind & _ & _ & Hauthorized & Hbind).
  destruct (reauthorize_resumed _ _ _ _ _ Hresume) as (batch' & issuance'' & cell' & Hreauthorize).
  destruct (offer_lease_Returned _ _ _ _ _ _ _ _ Hoffer) as (dispatch & Hdispatch & Hattempt & Hlease).
  pose proof (validate_authorized_attempt_Ok _ _ _ _ _ _ Hattempt) as
    [[Hname Hsession _ _ _] [= Hlease_dispatch Hlease_arguments]].
  cbn [lease_authorization] in Hname, Hsession, Hlease_dispatch, Hlease_arguments.
  apply find_in_flight_Some in Hfind as (_ & Hid & _).
  assert (correlation_attempt (lease_dispatch lease) = attempt) as Hattempt_id.
  { by rewrite Hlease_dispatch, Hauthorized. }
  assert (lease_tool lease = offer_tool offer) as Htool by by rewrite Hlease.
  do 5 eexists. split; [done|]. split.
  { unfold prepare_unclaimed_attempt. simpl. unfold source_dispatch. simpl.
    rewrite Hattempt_id, Hreauthorize. simpl.
    rewrite Hname, Htool, Hlease_dispatch, !bool_decide_true by done. simpl. reflexivity. }
  split; [|split; [exact Hnext|reflexivity]].
  eapply retried_offer; [exact Hdispatch|exact Hlease| | |done|done].
  - revert Hattempt. unfold validate_authorized_attempt. simpl. destruct (_ || _); [done|].
    by intros [= <- <-].
  - apply bind_runner_authorization_Ok in Hbind as (_ & Hissued & _).
    apply issued_correlated in Hissued. by rewrite Hlease_dispatch, <- Hissued.
Qed.
End retry.

(** ** Witnesses *)

(** The placement of [sample_pin] with the authority behind it. *)
Record sample_authority := mkSampleAuthority {
  sample_fences : FenceStore;
  sample_self : RunnerEnrollment;
  sample_registered : ValidatedRunnerRegistration;
  sample_placement : SessionRunnerPlacement;
}.
Definition sample_pinned : option sample_authority :=
  match sample_runner_catalog, sample_pin with
  | Ok catalog, Some (registration, pin) =>
      let '(self, store) := sample_enrollment in
      let '(_, store) := register store self sample_advertisement catalog in
      Some (mkSampleAuthority store self registration (pin_placement pin))
  | _, _ => None
  end.
Definition sample_offer : RunnerLeaseOfferRequest :=
  mkOfferRequest (from_uuid 14) (mkToolName (lit "read")).

Definition sample_in_flight : ToolBatch ContextFrontier :=
  mkBatch (from_uuid 7) (from_uuid 8) (from_uuid 9) (mkFrontier (from_uuid 7) (from_uuid 15))
    [sample_runner_request] {[from_uuid 11 := policy_auto (from_uuid 11)]}
    {[from_uuid 11 := CurrentAttempt sample_runner_attempt]} ∅ {[from_uuid 12 := 1%positive]}
    (BatchExecuting (from_uuid 10)).
Definition sample_issuance : IssuanceStore := {[1%positive := RUNNER_ISSUANCE_AVAILABLE]}.
Definition sample_resumed := resume_runner_attempt sample_issuance sample_in_flight (from_uuid 12).

(** What the witnesses share, computed. *)
Lemma sample_offered :
  match sample_pinned, sample_resumed with
  | Some authority, (Ok authorization, _) =>
      match offer_lease (sample_fences authority) (sample_placement authority) (sample_self authority)
              (sample_registered authority) None (mkLeaseAuthorization authorization None) sample_offer with
      | Returned lease =>
          issued authorization
          /\ is_ok (lose_unclaimed lease (mkNoExecution (lease_correlation lease))) = true
          /\ is_ok (lose lease None) = true
          /\ lease_reconstitute (stored_lease lease RetryAvailable) (sample_registered authority) = Ok lease
      | _ => False
      end
  | _, _ => False
  end.
Proof.
  destruct sample_pinned as [authority|] eqn:Hauthority; [|vm_compute in Hauthority; discriminate].
  destruct sample_resumed as [[authorization|] issuance] eqn:Hresumed; [|vm_compute in Hresumed; discriminate].
  assert (issued authorization) as Hissued.
  { apply (resume_runner_attempt_Ok sample_issuance sample_in_flight) in Hresumed as (c & r & cell & _ & _ & _ & _ & _ & Hb).
    by apply bind_runner_authorization_Ok in Hb as (_ & Hissued & _). }
  vm_compute in Hauthority. injection Hauthority as <-. vm_compute in Hresumed. injection Hresumed as <- <-.
  destruct (offer_lease _ _ _ _ _ _ _) as [lease|e|] eqn:Hoffer; vm_compute in Hoffer; [|discriminate..].
  injection Hoffer as <-. split; [exact Hissued|]. split; [vm_compute; reflexivity|].
  split; vm_compute; reflexivity.
Qed.

Lemma offered_lease_authorized_witness :
  exists authority authorization lease, sample_pinned = Some authority
    /\ offer_lease (sample_fences authority) (sample_placement authority) (sample_self authority)
         (sample_registered authority) None (mkLeaseAuthorization authorization None) sample_offer
       = Returned lease
    /\ lease_reconstitute (stored_lease lease RetryAvailable) (sample_registered authority) = Ok lease.
Proof.
  pose proof sample_offered as Hsample.
  destruct sample_pinned as [authority|]; [|destruct Hsample].
  destruct sample_resumed as [[authorization|] issuance]; [|destruct Hsample].
  destruct (offer_lease _ _ _ _ _ _ _) as [lease|e|] eqn:Hoffer; [|destruct Hsample..].
  destruct Hsample as (Hissued & _). exists authority, authorization, lease. split; [reflexivity|].
  split; [exact Hoffer|].
  destruct (offered_lease_authorized _ _ _ _ _ (mkLeaseAuthorization authorization None) _ _ Hissued Hoffer)
    as (pinned & declaration & _ & _ & _ & _ & _ & _ & _ & _ & _ & _ & Hok). exact Hok.
Defined.

Lemma lease_loss_exact_witness :
  exists lease loss, lose lease None = Ok loss
    /\ exists state, lost_as lease None state /\ lost_with lease None state false loss.
Proof.
  pose proof sample_offered as Hsample.
  destruct sample_pinned as [authority|]; [|destruct Hsample].
  destruct sample_resumed as [[authorization|] issuance]; [|destruct Hsample].
  destruct (offer_lease _ _ _ _ _ _ _) as [lease|e|]; [|destruct Hsample..].
  destruct Hsample as (_ & _ & Hlose & Hstored).
  destruct (lose lease None) as [loss|] eqn:Hloss; [|discriminate Hlose].
  exists lease, loss. split; [exact Hloss|].
  destruct (lease_loss_exact lease None (sample_registered authority) Hstored) as [Hexact _].
  exact (proj1 (Hexact loss) Hloss).
Defined.

Lemma unclaimed_lease_retries_witness :
  exists authority authorization issuance lease loss prepared again,
    sample_resumed = (Ok authorization, issuance)
    /\ lose_unclaimed lease (mkNoExecution (lease_correlation lease)) = Ok loss
    /\ offer_retry (sample_fences authority) (sample_placement authority) (sample_self authority)
         (sample_registered authority) None loss (reauthorization (Snap := ContextFrontier) prepared)
       = Returned again.
Proof.
  pose proof sample_offered as Hsample.
  destruct sample_pinned as [authority|]; [|destruct Hsample].
  destruct sample_resumed as [[authorization|] issuance] eqn:Hresumed; [|destruct Hsample].
  destruct (offer_lease _ _ _ _ _ _ _) as [lease|e|] eqn:Hoffer; [|destruct Hsample..].
  destruct Hsample as (_ & Hlose & _).
  destruct (lose_unclaimed lease (mkNoExecution (lease_correlation lease))) as [loss|] eqn:Hloss;
    [|discriminate Hlose].
  destruct (unclaimed_lease_retries sample_issuance sample_in_flight (from_uuid 12) authorization issuance
    _ _ _ _ _ _ _ _ _ Hresumed Hoffer Hloss) as (lost & retry & prepared & retry' & issuance' & _ & _ & Hagain & _).
  exists authority, authorization, issuance, lease, loss, prepared. eexists.
  split; [reflexivity|]. split; [exact Hloss|exact Hagain].
Defined.
