(* ===== verification/ReviewValues.v ===== *)
(** * Review values and targets

    Model of the value files of [crates/domain/src/review_workflow/]:
    [reference.rs], [value.rs], [policy.rs], [judgment.rs] and [target.rs].
    References carry their complete ancestry and are ordered as they are
    declared, by target, run, pass and finding; a target is a frozen snapshot
    with the chain of targets it is stacked on. *)

From stdpp Require Import strings.
From S2P Require Import Prelude Tool RunnerNames.

Local Open Scope list_scope.

(** ** References *)

Record ReviewRunRef := mkRunRef { run_ref_target : ReviewTargetId; run_ref_run : ReviewRunId }.
Record ReviewPassRef := mkPassRef { pass_ref_run : ReviewRunRef; pass_ref_pass : ReviewPassId }.
Record ReviewFindingRef := mkFindingRef { finding_ref_pass : ReviewPassRef; finding_ref_finding : ReviewFindingId }.

Definition pass_ref_target (self : ReviewPassRef) : ReviewTargetId := run_ref_target (pass_ref_run self).
Definition finding_ref_run (self : ReviewFindingRef) : ReviewRunRef := pass_ref_run (finding_ref_pass self).
Definition finding_ref_target (self : ReviewFindingRef) : ReviewTargetId :=
  pass_ref_target (finding_ref_pass self).

#[export] Instance ReviewRunRef_eq_dec : EqDecision ReviewRunRef.
Proof. solve_decision. Defined.
#[export] Instance ReviewPassRef_eq_dec : EqDecision ReviewPassRef.
Proof. solve_decision. Defined.
#[export] Instance ReviewFindingRef_eq_dec : EqDecision ReviewFindingRef.
Proof. solve_decision. Defined.
#[export] Instance ReviewFindingRef_countable : Countable ReviewFindingRef.
Proof.
  by apply (inj_countable'
    (fun r => (finding_ref_target r, run_ref_run (finding_ref_run r),
               pass_ref_pass (finding_ref_pass r), finding_ref_finding r))
    (fun '(t, r, p, f) => mkFindingRef (mkPassRef (mkRunRef t r) p) f)); intros [[[??]?]?].
Defined.

(** The derived [Ord] compares the four identities one after the other. *)
#[export] Instance ReviewFindingRef_key : TextKey ReviewFindingRef := fun r =>
  [as_uuid (finding_ref_target r); as_uuid (run_ref_run (finding_ref_run r));
   as_uuid (pass_ref_pass (finding_ref_pass r)); as_uuid (finding_ref_finding r)].
#[export] Instance ReviewFindingRef_key_inj : TextKeyInj ReviewFindingRef.
Proof. intros [[[[x] [x']] [x'']] [x''']] [[[[y] [y']] [y'']] [y''']]. cbv. congruence. Qed.

(** ** Bounded values *)

Definition REVIEW_KEY_MAXIMUM_BYTES : N := 1024.
Definition REVIEW_TEXT_MAXIMUM_BYTES : N := 65536.
Definition REVIEW_CONFIDENCE_MAXIMUM_BASIS_POINTS : N := 10000.

Record ReviewKey := mkReviewKey { review_key_value : text }.
Record ReviewText := mkReviewText { review_text_value : text }.

Inductive ReviewValueFailure :=
| ReviewValueEmpty | ReviewValueContainsNull | ReviewValueTooLong (maximum_bytes : N).

(** The rejected value is returned with the failure. *)
Record ReviewValueError := mkReviewValueError {
  rejected_value : text;
  value_failure : ReviewValueFailure;
}.

Definition validate_review_value (value : text) (maximum_bytes : N) : result ReviewValueError text :=
  let failure :=
    if bool_decide (value = []) then Some ReviewValueEmpty else
    if text_contains_null value then Some ReviewValueContainsNull else
    if (maximum_bytes <? text_len value)%N then Some (ReviewValueTooLong maximum_bytes) else None in
  match failure with
  | Some failure => Err (mkReviewValueError value failure)
  | None => Ok value
  end.

Definition review_key_try_new (value : text) : result ReviewValueError ReviewKey :=
  mkReviewKey <$> validate_review_value value REVIEW_KEY_MAXIMUM_BYTES.
Definition review_text_try_new (value : text) : result ReviewValueError ReviewText :=
  mkReviewText <$> validate_review_value value REVIEW_TEXT_MAXIMUM_BYTES.

(** [ReviewChangeRequestNumber(NonZeroU64)] *)
Record ReviewChangeRequestNumber := mkChangeRequestNumber { change_request_number : positive }.
Definition change_request_number_try_new (value : N) : option ReviewChangeRequestNumber :=
  match value with N0 => None | Npos value => Some (mkChangeRequestNumber value) end.

(** [ReviewEventOrdinal(NonZeroU32)] *)
Record ReviewEventOrdinal := mkEventOrdinal { event_ordinal : positive }.
Definition event_ordinal_one : ReviewEventOrdinal := mkEventOrdinal 1.
Definition event_ordinal_try_new (value : N) : option ReviewEventOrdinal :=
  match value with N0 => None | Npos value => Some (mkEventOrdinal value) end.
Definition event_ordinal_checked_successor (self : ReviewEventOrdinal) : option ReviewEventOrdinal :=
  if (Npos (Pos.succ (event_ordinal self)) <=? u32_max)%N
  then Some (mkEventOrdinal (Pos.succ (event_ordinal self))) else None.

(** [ReviewConfidence(u16)], in basis points *)
Record ReviewConfidence := mkConfidence { basis_points : N }.
Definition confidence_try_from_basis_points (value : N) : option ReviewConfidence :=
  if (value <=? REVIEW_CONFIDENCE_MAXIMUM_BASIS_POINTS)%N then Some (mkConfidence value) else None.

Record ReviewFindingConfidenceAxes := mkConfidenceAxes {
  is_real_confidence : ReviewConfidence;
  severity_label_confidence : ReviewConfidence;
}.

#[export] Instance ReviewKey_eq_dec : EqDecision ReviewKey.
Proof. solve_decision. Defined.
#[export] Instance ReviewText_eq_dec : EqDecision ReviewText.
Proof. solve_decision. Defined.
#[export] Instance ReviewChangeRequestNumber_eq_dec : EqDecision ReviewChangeRequestNumber.
Proof. solve_decision. Defined.
#[export] Instance ReviewEventOrdinal_eq_dec : EqDecision ReviewEventOrdinal.
Proof. solve_decision. Defined.
#[export] Instance ReviewConfidence_eq_dec : EqDecision ReviewConfidence.
Proof. solve_decision. Defined.

(** ** Policy *)

Definition POLICY_VERSION_ONE_MINIMUM_JUDGE_BASIS_POINTS : N := 7000.
Definition POLICY_VERSION_ONE_MINIMUM_PUBLICATION_BASIS_POINTS : N := 8000.

(** [ReviewPolicyVersion(NonZeroU32)] *)
Record ReviewPolicyVersion := mkPolicyVersion { policy_version_value : positive }.
Definition policy_version_one : ReviewPolicyVersion := mkPolicyVersion 1.

Record ReviewPolicy := mkPolicy {
  policy_version : ReviewPolicyVersion;
  minimum_judge_confidence : ReviewConfidence;
  minimum_publication_confidence : ReviewConfidence;
}.

#[export] Instance ReviewPolicyVersion_eq_dec : EqDecision ReviewPolicyVersion.
Proof. solve_decision. Defined.
#[export] Instance ReviewPolicy_eq_dec : EqDecision ReviewPolicy.
Proof. solve_decision. Defined.

(** The error is the rejected tuple. *)
Definition review_policy_try_new (version : ReviewPolicyVersion)
    (minimum_judge minimum_publication : ReviewConfidence) :
    result (ReviewPolicyVersion * ReviewConfidence * ReviewConfidence) ReviewPolicy :=
  let is_unsupported_version :=
    negb (policy_version_value version =? policy_version_value policy_version_one)%positive in
  let is_noncanonical_version_one :=
    negb (basis_points minimum_judge =? POLICY_VERSION_ONE_MINIMUM_JUDGE_BASIS_POINTS)%N
    || negb (basis_points minimum_publication
             =? POLICY_VERSION_ONE_MINIMUM_PUBLICATION_BASIS_POINTS)%N in
  if is_unsupported_version || is_noncanonical_version_one
     || (basis_points minimum_publication <? basis_points minimum_judge)%N
  then Err (version, minimum_judge, minimum_publication)
  else Ok (mkPolicy version minimum_judge minimum_publication).

Definition policy_version_one_tuple : ReviewPolicy :=
  mkPolicy policy_version_one (mkConfidence POLICY_VERSION_ONE_MINIMUM_JUDGE_BASIS_POINTS)
    (mkConfidence POLICY_VERSION_ONE_MINIMUM_PUBLICATION_BASIS_POINTS).

(** ** Judgments *)

Inductive ReviewBarCategory :=
| FalseStatement | BrokenReference | Contradiction | UndecidedAsCommitted | FailingGate
| OwnBehaviorDefect.

Inductive ReviewDeclineClass :=
| HypotheticalHardening | InventoryRestoration | ScopeExpansion | PreExistingOutOfScope
| DesignDocumentDemand | StyleOrProse | SpecSentenceWrong | DuplicateCandidate | OtherDecline.

(** [ReviewJudgeConfidence(u8)] *)
Record ReviewJudgeConfidence := mkJudgeConfidence { judge_bucket : N }.
Definition judge_confidence_try_new (value : N) : option ReviewJudgeConfidence :=
  if ((1 <=? value) && (value <=? 5))%N then Some (mkJudgeConfidence value) else None.

(** [self.0 as u16 * 2_000]: the product is at most 10,000. *)
Definition policy_confidence (self : ReviewJudgeConfidence) : ReviewConfidence :=
  mkConfidence (judge_bucket self * 2000).

Inductive ReviewBarVerdict :=
| VerdictAccept (category : ReviewBarCategory)
| VerdictNone (class : ReviewDeclineClass).

Record ReviewJudgment := mkJudgment {
  judgment_verdict : ReviewBarVerdict;
  judgment_confidence : ReviewJudgeConfidence;
  judgment_reason : ReviewText;
}.

Definition bar_category_key (self : ReviewBarCategory) : text :=
  match self with
  | FalseStatement => lit "false-statement"
  | BrokenReference => lit "broken-reference"
  | Contradiction => lit "contradiction"
  | UndecidedAsCommitted => lit "undecided-as-committed"
  | FailingGate => lit "failing-gate"
  | OwnBehaviorDefect => lit "own-behavior-defect"
  end.

Definition bar_category_from_key (key : text) : option ReviewBarCategory :=
  if bool_decide (key = lit "false-statement") then Some FalseStatement else
  if bool_decide (key = lit "broken-reference") then Some BrokenReference else
  if bool_decide (key = lit "contradiction") then Some Contradiction else
  if bool_decide (key = lit "undecided-as-committed") then Some UndecidedAsCommitted else
  if bool_decide (key = lit "failing-gate") then Some FailingGate else
  if bool_decide (key = lit "own-behavior-defect") then Some OwnBehaviorDefect else None.

Definition decline_class_key (self : ReviewDeclineClass) : text :=
  match self with
  | HypotheticalHardening => lit "hypothetical-hardening"
  | InventoryRestoration => lit "inventory-restoration"
  | ScopeExpansion => lit "scope-expansion"
  | PreExistingOutOfScope => lit "pre-existing-out-of-scope"
  | DesignDocumentDemand => lit "design-document-demand"
  | StyleOrProse => lit "style-or-prose"
  | SpecSentenceWrong => lit "spec-sentence-wrong"
  | DuplicateCandidate => lit "duplicate"
  | OtherDecline => lit "other"
  end.

Definition decline_class_from_key (key : text) : option ReviewDeclineClass :=
  if bool_decide (key = lit "hypothetical-hardening") then Some HypotheticalHardening else
  if bool_decide (key = lit "inventory-restoration") then Some InventoryRestoration else
  if bool_decide (key = lit "scope-expansion") then Some ScopeExpansion else
  if bool_decide (key = lit "pre-existing-out-of-scope") then Some PreExistingOutOfScope else
  if bool_decide (key = lit "design-document-demand") then Some DesignDocumentDemand else
  if bool_decide (key = lit "style-or-prose") then Some StyleOrProse else
  if bool_decide (key = lit "spec-sentence-wrong") then Some SpecSentenceWrong else
  if bool_decide (key = lit "duplicate") then Some DuplicateCandidate else
  if bool_decide (key = lit "other") then Some OtherDecline else None.

(** Keys are read back as what they were written for, and nothing else is. *)
Lemma bar_category_key_exact key category :
  bar_category_from_key key = Some category <-> key = bar_category_key category.
Proof.
  split; [|intros ->; by destruct category]. unfold bar_category_from_key.
  repeat case_bool_decide; naive_solver.
Qed.

Lemma decline_class_key_exact key class :
  decline_class_from_key key = Some class <-> key = decline_class_key class.
Proof.
  split; [|intros ->; by destruct class]. unfold decline_class_from_key.
  repeat case_bool_decide; naive_solver.
Qed.

(** Only the version-one tuple is a policy. *)
Lemma review_policy_exact version judge publication policy :
  review_policy_try_new version judge publication = Ok policy <->
  policy = policy_version_one_tuple /\ version = policy_version policy
  /\ judge = minimum_judge_confidence policy /\ publication = minimum_publication_confidence policy.
Proof.
  unfold review_policy_try_new. destruct version as [v], judge as [j], publication as [p].
  cbn [basis_points policy_version_value policy_version_one].
  rewrite if_false_Ok, !orb_false_iff, !negb_false_iff, Pos.eqb_eq, !N.eqb_eq, N.ltb_ge. split.
  - intros [[(-> & -> & ->) _] [= <-]]. done.
  - intros (-> & [= ->] & [= ->] & [= ->]). done.
Qed.
