(* ===== verification/ReviewTarget.v ===== *)
(** * Review targets

    Model of [crates/domain/src/review_workflow/target.rs]: immutable snapshots
    of what is reviewed, stacked on one another, with the complete chain of
    parents each carries, and the invariant of every stack. *)

From stdpp Require Import strings.
From S2P Require Import Prelude Tool RunnerNames ReviewValues.

Local Open Scope list_scope.

Inductive ReviewTargetSubject :=
| SubjectChangeRequest (number : ReviewChangeRequestNumber)
| SubjectCommit.

Record ReviewChangeRequestIdentity := mkChangeRequestIdentity {
  change_request_provider : ReviewKey;
  change_request_repository : ReviewKey;
  change_request_identity_number : ReviewChangeRequestNumber;
}.

Record ReviewTargetParentRef := mkParentRef {
  parent_target : ReviewTargetId;
  parent_provider : ReviewKey;
  parent_repository : ReviewKey;
  parent_head_revision : ReviewKey;
}.

Record ReviewTarget := mkTarget {
  target_id : ReviewTargetId;
  target_provider : ReviewKey;
  target_repository : ReviewKey;
  target_subject : ReviewTargetSubject;
  target_head_revision : ReviewKey;
  target_base_revision : option ReviewKey;
  target_stack_parent : option ReviewTargetParentRef;
  target_ancestry : list ReviewTargetId;
  target_change_request_ancestry : list ReviewChangeRequestIdentity;
}.

#[export] Instance ReviewTargetSubject_eq_dec : EqDecision ReviewTargetSubject.
Proof. solve_decision. Defined.
#[export] Instance ReviewChangeRequestIdentity_eq_dec : EqDecision ReviewChangeRequestIdentity.
Proof. solve_decision. Defined.

Inductive ReviewTargetError :=
| MissingChangeRequestBase (target : ReviewTargetId)
| SelfParent (target : ReviewTargetId)
| CyclicParent (target : ReviewTargetId)
| ForeignParent (target : ReviewTargetId)
| MissingParentBase (target : ReviewTargetId)
| DisconnectedParent (target : ReviewTargetId)
| RepeatedChangeRequest (target : ReviewTargetId)
| ParentIdentityMismatch (target : ReviewTargetId).

(** [ReviewTargetParentRef::from_target] *)
Definition parent_ref_from_target (target : ReviewTarget) : ReviewTargetParentRef :=
  mkParentRef (target_id target) (target_provider target) (target_repository target)
    (target_head_revision target).

(** The change request a target is, when it is one. *)
Definition change_request_identity (provider repository : ReviewKey) (subject : ReviewTargetSubject) :
    option ReviewChangeRequestIdentity :=
  match subject with
  | SubjectChangeRequest number => Some (mkChangeRequestIdentity provider repository number)
  | SubjectCommit => None
  end.

(** The checks of a parent edge. *)
Definition check_stack_parent (id : ReviewTargetId) (provider repository : ReviewKey)
    (subject : ReviewTargetSubject) (base_revision : option ReviewKey) (parent : ReviewTarget) :
    result ReviewTargetError unit :=
  if bool_decide (target_id parent = id) then Err (SelfParent id) else
  if bool_decide (id ∈ target_ancestry parent) then Err (CyclicParent id) else
  if negb (bool_decide (target_provider parent = provider))
     || negb (bool_decide (target_repository parent = repository))
  then Err (ForeignParent id) else
  base_revision ← ok_or base_revision (MissingParentBase id);
  if negb (bool_decide (target_head_revision parent = base_revision))
  then Err (DisconnectedParent id) else
  match change_request_identity provider repository subject with
  | Some identity =>
      if bool_decide (identity ∈ target_change_request_ancestry parent)
      then Err (RepeatedChangeRequest id) else Ok tt
  | None => Ok tt
  end.

Definition target_try_new (id : ReviewTargetId) (provider repository : ReviewKey)
    (subject : ReviewTargetSubject) (head_revision : ReviewKey) (base_revision : option ReviewKey)
    (stack_parent : option ReviewTarget) : result ReviewTargetError ReviewTarget :=
  if match subject with SubjectChangeRequest _ => bool_decide (base_revision = None) | SubjectCommit => false end
  then Err (MissingChangeRequestBase id) else
  _ ← match stack_parent with
      | Some parent => check_stack_parent id provider repository subject base_revision parent
      | None => Ok tt
      end;
  Ok (mkTarget id provider repository subject head_revision base_revision
        (parent_ref_from_target <$> stack_parent)
        match stack_parent with
        | Some parent => target_id parent :: target_ancestry parent
        | None => []
        end
        (option_list (change_request_identity provider repository subject)
         ++ match stack_parent with
            | Some parent => target_change_request_ancestry parent
            | None => []
            end)).

Definition target_try_reconstitute (id : ReviewTargetId) (provider repository : ReviewKey)
    (subject : ReviewTargetSubject) (head_revision : ReviewKey) (base_revision : option ReviewKey)
    (stack_parent : option ReviewTargetId) (stack_parent_evidence : option ReviewTarget) :
    result ReviewTargetError ReviewTarget :=
  if negb (bool_decide (stack_parent = target_id <$> stack_parent_evidence))
  then Err (ParentIdentityMismatch id)
  else target_try_new id provider repository subject head_revision base_revision stack_parent_evidence.

(** ** Stacks *)

(** A stack, nearest first: every target was constructed on the rest of it. *)
Inductive stacked : list ReviewTarget -> Prop :=
| stacked_root id provider repository subject head base target :
    target_try_new id provider repository subject head base None = Ok target -> stacked [target]
| stacked_on id provider repository subject head base parent rest target :
    stacked (parent :: rest) ->
    target_try_new id provider repository subject head base (Some parent) = Ok target ->
    stacked (target :: parent :: rest).

(** The change request a constructed target is. *)
Definition own_change_request (target : ReviewTarget) : option ReviewChangeRequestIdentity :=
  change_request_identity (target_provider target) (target_repository target) (target_subject target).

Lemma check_stack_parent_Ok id provider repository subject base parent :
  check_stack_parent id provider repository subject base parent = Ok tt <->
  target_id parent <> id /\ (id ∉ target_ancestry parent) /\ target_provider parent = provider
  /\ target_repository parent = repository /\ base = Some (target_head_revision parent)
  /\ (forall identity, change_request_identity provider repository subject = Some identity ->
      identity ∉ target_change_request_ancestry parent).
Proof.
  unfold check_stack_parent. rewrite !if_Ok, if_false_Ok, orb_false_iff, !negb_false_iff, !bool_decide_eq_true.
  rewrite bind_Ok. setoid_rewrite ok_or_Ok. setoid_rewrite if_negb_Ok.
  destruct (change_request_identity _ _ _) as [identity|].
  - setoid_rewrite if_Ok. naive_solver.
  - naive_solver.
Qed.

Lemma target_try_new_Ok id provider repository subject head base parent target :
  target_try_new id provider repository subject head base parent = Ok target <->
  (base = None -> subject = SubjectCommit)
  /\ (forall p, parent = Some p -> check_stack_parent id provider repository subject base p = Ok tt)
  /\ target = mkTarget id provider repository subject head base (parent_ref_from_target <$> parent)
       match parent with Some p => target_id p :: target_ancestry p | None => [] end
       (option_list (change_request_identity provider repository subject)
        ++ match parent with Some p => target_change_request_ancestry p | None => [] end).
Proof.
  unfold target_try_new. rewrite if_false_Ok, bind_Ok.
  assert (match subject with SubjectChangeRequest _ => bool_decide (base = None) | SubjectCommit => false end = false
    <-> (base = None -> subject = SubjectCommit)) as ->.
  { destruct subject; [rewrite bool_decide_eq_false|]; naive_solver. }
  apply and_iff_compat_l. destruct parent as [p|]; [|naive_solver]. split.
  - intros ([] & Hcheck & [= <-]). naive_solver.
  - intros [Hcheck ->]. exists tt. naive_solver.
Qed.

(** The part of the invariant that is proved by induction on the stack. *)
Record stack_sound (target : ReviewTarget) (rest : list ReviewTarget) : Prop := mkStackSound {
  sound_ancestry : target_ancestry target = target_id <$> rest;
  sound_change_requests : target_change_request_ancestry target = omap own_change_request (target :: rest);
  sound_identities : NoDup (target_id <$> target :: rest);
  sound_subjects : NoDup (omap own_change_request (target :: rest));
  sound_repository : forall other, other ∈ rest ->
    target_provider other = target_provider target /\ target_repository other = target_repository target;
  sound_edges : linked (fun child parent => target_base_revision child = Some (target_head_revision parent)
    /\ target_stack_parent child = Some (parent_ref_from_target parent)) (target :: rest);
}.

Lemma linked_cons {A} (R : relation A) x y l : linked R (x :: y :: l) <-> R x y /\ linked R (y :: l).
Proof.
  unfold linked. split.
  - intros H. split; [by apply (H 0)|]. intros i. apply (H (S i)).
  - intros [Hxy H] [|i] a b; simpl; [by intros [= <-] [= <-]|apply H].
Qed.

Lemma omap_cons_option {A B} (f : A -> option B) x l : omap f (x :: l) = option_list (f x) ++ omap f l.
Proof. simpl. by destruct (f x). Qed.

Lemma stacked_sound stack : stacked stack ->
  match stack with target :: rest => stack_sound target rest | [] => True end.
Proof.
  induction 1 as [id provider repository subject head base target Hnew
    |id provider repository subject head base parent rest target _ IH Hnew];
    apply target_try_new_Ok in Hnew as (_ & Hcheck & ->).
  - split; cbn [target_ancestry target_change_request_ancestry target_id fmap list_fmap].
    + done.
    + rewrite omap_cons_option. done.
    + apply NoDup_singleton.
    + rewrite omap_cons_option, app_nil_r. destruct (own_change_request _); [apply NoDup_singleton|constructor].
    + set_solver.
    + by intros [|?] ? ? [=] [=].
  - specialize (Hcheck _ eq_refl). apply check_stack_parent_Ok in Hcheck as (Hself & Hcycle & Hp & Hr & Hbase & Hfresh).
    destruct IH as [Hancestry Hrequests Hids Hsubjects Hrepo Hedges].
    split; cbn [target_ancestry target_change_request_ancestry].
    + by rewrite Hancestry.
    + rewrite omap_cons_option, Hrequests. done.
    + rewrite fmap_cons. apply NoDup_cons. split; [|done]. cbn [target_id]. rewrite fmap_cons, <- Hancestry. set_solver.
    + rewrite omap_cons_option. unfold own_change_request at 1. cbn [target_provider target_repository target_subject].
      destruct (change_request_identity _ _ _) as [identity|]; [|done]. simpl option_list.
      apply NoDup_cons. split; [|done]. rewrite <- Hrequests. by apply Hfresh.
    + cbn [target_provider target_repository]. intros other [->|Hother]%elem_of_cons; [done|].
      destruct (Hrepo _ Hother) as [-> ->]. done.
    + apply linked_cons. split; [|done]. done.
Qed.

(** C30. A target carries its complete stack, nearest first: no target and no
    change request occurs twice in it, all of it is in one repository, and
    every target is based on the head of the next. Reconstitution from the
    stored parent identity and the canonical parent gives back the target. *)
Theorem stacks_sound target rest (Hstack : stacked (target :: rest)) :
  target_ancestry target = target_id <$> rest
  /\ target_change_request_ancestry target = omap own_change_request (target :: rest)
  /\ NoDup (target_id <$> target :: rest) /\ NoDup (omap own_change_request (target :: rest))
  /\ (forall other, other ∈ rest -> target_provider other = target_provider target
      /\ target_repository other = target_repository target)
  /\ linked (fun child parent => target_base_revision child = Some (target_head_revision parent)
       /\ target_stack_parent child = Some (parent_ref_from_target parent)) (target :: rest)
  /\ target_try_reconstitute (target_id target) (target_provider target) (target_repository target)
       (target_subject target) (target_head_revision target) (target_base_revision target)
       (parent_target <$> target_stack_parent target) (head rest) = Ok target.
Proof.
  pose proof (stacked_sound _ Hstack) as [Hancestry Hrequests Hids Hsubjects Hrepo Hedges].
  split_and!; try done. clear -Hstack. inversion Hstack; subst;
    (match goal with H : target_try_new _ _ _ _ _ _ _ = _ |- _ =>
       apply target_try_new_Ok in H as (Hbase & Hcheck & ->) end;
     unfold target_try_reconstitute; case_bool_decide as Hparent;
     [by apply target_try_new_Ok|by destruct Hparent]).
Qed.

Lemma stacks_sound_witness :
  let key value := mkReviewKey (lit value) in
  let one := mkTarget (from_uuid 1) (key "host") (key "repo") (SubjectChangeRequest (mkChangeRequestNumber 7))
    (key "b") (Some (key "a")) None [] [mkChangeRequestIdentity (key "host") (key "repo") (mkChangeRequestNumber 7)] in
  exists two, target_try_new (from_uuid 2) (key "host") (key "repo") (SubjectChangeRequest (mkChangeRequestNumber 8))
      (key "c") (Some (key "b")) (Some one) = Ok two
    /\ target_ancestry two = [target_id one].
Proof.
  intros key one. eexists. split; [reflexivity|].
  apply (stacks_sound _ [one]).
  eapply (stacked_on (from_uuid 2) (key "host") (key "repo") (SubjectChangeRequest (mkChangeRequestNumber 8))
    (key "c") (Some (key "b"))); [|reflexivity].
  by apply (stacked_root (from_uuid 1) (key "host") (key "repo") (SubjectChangeRequest (mkChangeRequestNumber 7))
    (key "b") (Some (key "a"))).
Defined.

