(* ===== verification/ReviewPass.v ===== *)
(** * Review passes and runs

    Model of [pass_result.rs], [pass.rs] and [run.rs] of
    [crates/domain/src/review_workflow/]: the typed results of passes, the
    passes of a run, backed by a turn of a session, and the run, which names
    the pass that decides it. The evidence a pass and its run give to the other
    aggregates is a value of its own. *)

From S2P Require Import Prelude Tool RunnerNames ReviewValues.

Local Open Scope list_scope.

(** ** Results (pass_result.rs) *)

Inductive ReviewFindingStatus :=
| StatusOpen | StatusAccepted | StatusRejected | StatusDuplicate | StatusSuperseded | StatusStale
| StatusPosted | StatusFixed | StatusBlocked.

Inductive ReviewFindingEventType :=
| TypeAccepted | TypeRejected | TypeDuplicate | TypeSuperseded | TypeStale | TypePosted | TypeFixed
| TypeBlocked.

Record ReviewReferencedFindingEvidence := mkReferenced {
  referenced_reference : ReviewFindingRef;
  referenced_status : ReviewFindingStatus;
  referenced_producer_policy : ReviewPolicy;
}.

Inductive ReviewFindingEventResultKind :=
| ResultAccepted (confidence : ReviewJudgeConfidence)
| ResultRejected (reason : ReviewText)
| ResultDuplicate (canonical : ReviewReferencedFindingEvidence)
| ResultSuperseded (successor : ReviewReferencedFindingEvidence)
| ResultStale
| ResultPosted (link : ReviewExternalLinkId)
| ResultFixed
| ResultBlocked (reason : ReviewText) (link : option ReviewExternalLinkId).

Definition result_event_type (self : ReviewFindingEventResultKind) : ReviewFindingEventType :=
  match self with
  | ResultAccepted _ => TypeAccepted
  | ResultRejected _ => TypeRejected
  | ResultDuplicate _ => TypeDuplicate
  | ResultSuperseded _ => TypeSuperseded
  | ResultStale => TypeStale
  | ResultPosted _ => TypePosted
  | ResultFixed => TypeFixed
  | ResultBlocked _ _ => TypeBlocked
  end.

Record ReviewFindingEventResult := mkEventResult {
  result_finding : ReviewFindingRef;
  result_ordinal : ReviewEventOrdinal;
  result_kind : ReviewFindingEventResultKind;
}.

(** Sorted and free of duplicates *)
Record ReviewProducedFindings := mkProducedFindings { produced_findings : list ReviewFindingRef }.

(** [ReviewExternalObjectState], of external_link.rs *)
Inductive ReviewExternalObjectState := ObjectCurrent | ObjectOutdated | ObjectResolved.

Record ReviewExternalLinkAttachmentResult := mkAttachmentResult {
  attachment_result_link : ReviewExternalLinkId;
  attachment_result_object : ReviewKey;
  attachment_result_event : option ReviewFindingEventResult;
}.

Record ReviewExternalLinkObservationResult := mkObservationResult {
  observation_result_link : ReviewExternalLinkId;
  observation_result_ordinal : ReviewEventOrdinal;
  observation_result_state : ReviewExternalObjectState;
}.

Record ReviewExternalLinkNoChangeResult := mkNoChangeResult {
  no_change_link : ReviewExternalLinkId;
  no_change_observed_through : ReviewEventOrdinal;
  no_change_state : ReviewExternalObjectState;
}.

Record ReviewExternalLinkPublicationBlockedResult := mkPublicationBlocked {
  publication_blocked_link : ReviewExternalLinkId;
  publication_blocked_reason : ReviewText;
}.

Inductive ReviewPassResult :=
| PassProducedFindings (findings : ReviewProducedFindings)
| PassFindingEvent (event : ReviewFindingEventResult)
| PassLinkAttachment (attachment : ReviewExternalLinkAttachmentResult)
| PassLinkObservation (observation : ReviewExternalLinkObservationResult)
| PassLinkNoChange (no_change : ReviewExternalLinkNoChangeResult)
| PassPublicationBlocked (blocked : ReviewExternalLinkPublicationBlockedResult).

#[export] Instance ReviewFindingStatus_eq_dec : EqDecision ReviewFindingStatus.
Proof. solve_decision. Defined.
#[export] Instance ReviewReferencedFindingEvidence_eq_dec : EqDecision ReviewReferencedFindingEvidence.
Proof. solve_decision. Defined.
#[export] Instance ReviewJudgeConfidence_eq_dec : EqDecision ReviewJudgeConfidence.
Proof. solve_decision. Defined.
#[export] Instance ReviewFindingEventResultKind_eq_dec : EqDecision ReviewFindingEventResultKind.
Proof. solve_decision. Defined.
#[export] Instance ReviewFindingEventResult_eq_dec : EqDecision ReviewFindingEventResult.
Proof. solve_decision. Defined.
#[export] Instance ReviewProducedFindings_eq_dec : EqDecision ReviewProducedFindings.
Proof. solve_decision. Defined.
#[export] Instance ReviewExternalObjectState_eq_dec : EqDecision ReviewExternalObjectState.
Proof. solve_decision. Defined.
#[export] Instance ReviewExternalLinkAttachmentResult_eq_dec : EqDecision ReviewExternalLinkAttachmentResult.
Proof. solve_decision. Defined.
#[export] Instance ReviewExternalLinkObservationResult_eq_dec : EqDecision ReviewExternalLinkObservationResult.
Proof. solve_decision. Defined.
#[export] Instance ReviewExternalLinkNoChangeResult_eq_dec : EqDecision ReviewExternalLinkNoChangeResult.
Proof. solve_decision. Defined.
#[export] Instance ReviewExternalLinkPublicationBlockedResult_eq_dec : EqDecision ReviewExternalLinkPublicationBlockedResult.
Proof. solve_decision. Defined.
#[export] Instance ReviewPassResult_eq_dec : EqDecision ReviewPassResult.
Proof. solve_decision. Defined.

Inductive ReviewProducedFindingsError :=
| TooManyFindings (actual maximum : nat)
| DuplicateProducedFinding (finding : ReviewFindingRef).

Definition REVIEW_PRODUCED_FINDINGS_MAXIMUM : nat := 32.

(** [windows(2).find_map(..)] over neighbours that are equal *)
Fixpoint first_repeated {A} `{EqDecision A} (l : list A) : option A :=
  match l with
  | x :: (y :: _) as rest => if bool_decide (x = y) then Some x else first_repeated rest
  | _ => None
  end.

Definition produced_findings_try_new (findings : list ReviewFindingRef) :
    result ReviewProducedFindingsError ReviewProducedFindings :=
  if REVIEW_PRODUCED_FINDINGS_MAXIMUM <? length findings
  then Err (TooManyFindings (length findings) REVIEW_PRODUCED_FINDINGS_MAXIMUM) else
  let findings := merge_sort text_key_le findings in
  match first_repeated findings with
  | Some duplicate => Err (DuplicateProducedFinding duplicate)
  | None => Ok (mkProducedFindings findings)
  end.

(** [binary_search], in a sorted vector *)
Definition produced_contains (self : ReviewProducedFindings) (finding : ReviewFindingRef) : bool :=
  bool_decide (finding ∈ produced_findings self).

Definition referenced_finding_status_is_eligible (status : ReviewFindingStatus) : bool :=
  match status with StatusOpen | StatusAccepted => true | _ => false end.

(** ** States of passes and runs *)

Inductive ReviewPassKind :=
| KindImport | KindReadOnly | KindJudge | KindDedupe | KindPublish | KindFix | KindPropagate.

Inductive ReviewWorkflowKind :=
| ImportExternalContext | ReadOnlyReview | JudgeFindings | DedupeFindings | PublishReview | FixFindings
| PropagateStack.

Inductive ReviewPassState :=
| PassQueued
| PassRunning (turn : TurnId)
| PassSucceeded (turn : TurnId) (output_frontier : ContextFrontierId) (result : option ReviewPassResult)
| PassFailed (turn : TurnId)
| PassBlocked (turn : TurnId) (result : option ReviewPassResult)
| PassCancelled (turn : option TurnId).

Inductive ReviewRunState :=
| RunQueued
| RunRunning (active_pass : ReviewPassRef)
| RunSucceeded (concluding_pass : ReviewPassRef)
| RunFailed (failed_pass : ReviewPassRef)
| RunBlocked (blocking_pass : ReviewPassRef)
| RunCancelled (last_pass : option ReviewPassRef).

#[export] Instance ReviewPassKind_eq_dec : EqDecision ReviewPassKind.
Proof. solve_decision. Defined.
#[export] Instance ReviewWorkflowKind_eq_dec : EqDecision ReviewWorkflowKind.
Proof. solve_decision. Defined.
#[export] Instance ReviewPassState_eq_dec : EqDecision ReviewPassState.
Proof. solve_decision. Defined.
#[export] Instance ReviewRunState_eq_dec : EqDecision ReviewRunState.
Proof. solve_decision. Defined.

Definition pass_state_turn (self : ReviewPassState) : option TurnId :=
  match self with
  | PassQueued | PassCancelled None => None
  | PassRunning turn | PassSucceeded turn _ _ | PassFailed turn | PassBlocked turn _
  | PassCancelled (Some turn) => Some turn
  end.

Definition pass_state_result (self : ReviewPassState) : option ReviewPassResult :=
  match self with PassSucceeded _ _ result | PassBlocked _ result => result | _ => None end.

Definition run_state_pass (self : ReviewRunState) : option ReviewPassRef :=
  match self with
  | RunQueued => None
  | RunRunning pass | RunSucceeded pass | RunFailed pass | RunBlocked pass => Some pass
  | RunCancelled last_pass => last_pass
  end.

Definition workflow_matches_pass_kind (workflow : ReviewWorkflowKind) (pass : ReviewPassKind) : bool :=
  match workflow, pass with
  | ImportExternalContext, KindImport | ReadOnlyReview, KindReadOnly | JudgeFindings, KindJudge
  | DedupeFindings, KindDedupe | PublishReview, KindPublish | FixFindings, KindFix
  | PropagateStack, KindPropagate => true
  | _, _ => false
  end.

Definition run_state_matches_pass (run : ReviewRunState) (pass : ReviewPassState) : bool :=
  match run, pass with
  | RunRunning _, PassRunning _ | RunSucceeded _, PassSucceeded _ _ _ | RunFailed _, PassFailed _
  | RunBlocked _, PassBlocked _ _ | RunCancelled (Some _), PassCancelled _ => true
  | _, _ => false
  end.

Record ReviewRunEvidence := mkRunEvidence {
  run_evidence_reference : ReviewRunRef;
  run_evidence_workflow : ReviewWorkflowKind;
  run_evidence_policy : ReviewPolicy;
  run_evidence_state : ReviewRunState;
}.

Record ReviewPassEvidence := mkPassEvidence {
  evidence_reference : ReviewPassRef;
  evidence_kind : ReviewPassKind;
  evidence_policy : ReviewPolicy;
  evidence_state : ReviewPassState;
}.

Record ReviewRun := mkRun {
  run_reference : ReviewRunRef;
  run_workflow : ReviewWorkflowKind;
  run_policy : ReviewPolicy;
  run_state : ReviewRunState;
  run_recorded_pass : option ReviewPassRef;
}.

Record ReviewPass := mkPass {
  pass_reference : ReviewPassRef;
  pass_kind : ReviewPassKind;
  pass_session : SessionId;
  pass_accepted_input : AcceptedInputId;
  pass_origin_turn : TurnId;
  pass_state : ReviewPassState;
}.

#[export] Instance ReviewRunEvidence_eq_dec : EqDecision ReviewRunEvidence.
Proof. solve_decision. Defined.
#[export] Instance ReviewPassEvidence_eq_dec : EqDecision ReviewPassEvidence.
Proof. solve_decision. Defined.

(** [ReviewRun::evidence] and [ReviewPassEvidence::from_pass] *)
Definition run_evidence (self : ReviewRun) : ReviewRunEvidence :=
  mkRunEvidence (run_reference self) (run_workflow self) (run_policy self) (run_state self).
Definition evidence_from_pass (pass : ReviewPass) (policy : ReviewPolicy) : ReviewPassEvidence :=
  mkPassEvidence (pass_reference pass) (pass_kind pass) policy (pass_state pass).

Definition run_evidence_matches_pass (run : ReviewRunEvidence) (pass : ReviewPassEvidence) : bool :=
  bool_decide (run_evidence_reference run = pass_ref_run (evidence_reference pass))
  && bool_decide (run_state_pass (run_evidence_state run) = Some (evidence_reference pass))
  && workflow_matches_pass_kind (run_evidence_workflow run) (evidence_kind pass)
  && bool_decide (run_evidence_policy run = evidence_policy pass)
  && run_state_matches_pass (run_evidence_state run) (evidence_state pass).

Definition referenced_finding_result (event : ReviewFindingEventResult) :
    option ReviewReferencedFindingEvidence :=
  match result_kind event with
  | ResultDuplicate canonical => Some canonical
  | ResultSuperseded successor => Some successor
  | _ => None
  end.

(** [ReviewPassEvidence::project_result] *)
Definition project_result (self : ReviewPassEvidence) (result : ReviewPassResult) :
    option ReviewPassEvidence :=
  if match result with
     | PassFindingEvent event =>
         match referenced_finding_result event with
         | Some referenced => negb (bool_decide (referenced_producer_policy referenced = evidence_policy self))
         | None => false
         end
     | _ => false
     end
  then None else
  let projected state :=
    Some (mkPassEvidence (evidence_reference self) (evidence_kind self) (evidence_policy self) state) in
  match evidence_state self with
  | PassSucceeded turn output_frontier None => projected (PassSucceeded turn output_frontier (Some result))
  | PassBlocked turn None => projected (PassBlocked turn (Some result))
  | PassSucceeded _ _ (Some current) | PassBlocked _ (Some current) =>
      if bool_decide (current = result) then Some self else None
  | PassQueued | PassRunning _ | PassFailed _ | PassCancelled _ => None
  end.

(** ** Runs (run.rs) *)

Inductive ReviewRunEvidenceFailure :=
| RunForeignPass | RunMissingPassEvidence | RunUnexpectedPassEvidence | RunPassMismatch
| RunPassKindMismatch | RunPassPolicyMismatch | RunPassStateMismatch.

Inductive ReviewRunTransitionFailure :=
| RunEvidenceFailure (failure : ReviewRunEvidenceFailure)
| RunInvalidTransition.

Record ReviewRunTransitionError := mkRunTransitionError {
  run_error_current : ReviewRun;
  run_error_next : ReviewRunState;
  run_error_pass_evidence : option ReviewPassEvidence;
  run_error_failure : ReviewRunTransitionFailure;
}.

Definition run_new (reference : ReviewRunRef) (workflow : ReviewWorkflowKind) (policy : ReviewPolicy) :
    ReviewRun := mkRun reference workflow policy RunQueued None.

Definition validate_run_state (reference : ReviewRunRef) (workflow : ReviewWorkflowKind)
    (policy : ReviewPolicy) (state : ReviewRunState) (pass_evidence : option ReviewPassEvidence) :
    result ReviewRunEvidenceFailure unit :=
  if match run_state_pass state with
     | Some pass => negb (bool_decide (pass_ref_run pass = reference))
     | None => false
     end
  then Err RunForeignPass else
  _ ← match pass_evidence with
      | Some evidence =>
          if negb (bool_decide (pass_ref_run (evidence_reference evidence) = reference))
          then Err RunForeignPass else
          if negb (workflow_matches_pass_kind workflow (evidence_kind evidence))
          then Err RunPassKindMismatch else
          if negb (bool_decide (evidence_policy evidence = policy)) then Err RunPassPolicyMismatch else Ok tt
      | None => Ok tt
      end;
  match state with
  | RunQueued =>
      match pass_evidence with
      | None => Ok tt
      | Some evidence =>
          if bool_decide (evidence_state evidence = PassQueued) then Ok tt else Err RunPassStateMismatch
      end
  | RunCancelled None =>
      if bool_decide (is_Some pass_evidence) then Err RunUnexpectedPassEvidence else Ok tt
  | _ =>
      pass ← ok_or (run_state_pass state) RunMissingPassEvidence;
      evidence ← ok_or pass_evidence RunMissingPassEvidence;
      if negb (bool_decide (evidence_reference evidence = pass)) then Err RunPassMismatch else
      if negb (run_state_matches_pass state (evidence_state evidence)) then Err RunPassStateMismatch else
      Ok tt
  end.

(** The edges of [ReviewRun::transition]. *)
Definition run_edge_permitted (current next : ReviewRunState) (pass_evidence : option ReviewPassEvidence) :
    bool :=
  match current, next with
  | RunQueued, RunRunning _ | RunQueued, RunCancelled None => true
  | RunQueued, RunCancelled (Some _) =>
      match evidence_state <$> pass_evidence with Some (PassCancelled None) => true | _ => false end
  | RunRunning current, RunSucceeded next | RunRunning current, RunFailed next
  | RunRunning current, RunBlocked next => bool_decide (current = next)
  | RunRunning current, RunCancelled (Some next) =>
      bool_decide (current = next)
      && match evidence_state <$> pass_evidence with Some (PassCancelled (Some _)) => true | _ => false end
  | _, _ => false
  end.

Definition run_transition (self : ReviewRun) (next : ReviewRunState)
    (pass_evidence : option ReviewPassEvidence) : result ReviewRunTransitionError ReviewRun :=
  let reject := mkRunTransitionError self next pass_evidence in
  _ ← map_err (fun failure => reject (RunEvidenceFailure failure))
    (validate_run_state (run_reference self) (run_workflow self) (run_policy self) next pass_evidence);
  let next_recorded_pass := evidence_reference <$> pass_evidence in
  if negb (bool_decide (run_recorded_pass self = next_recorded_pass))
  then Err (reject (RunEvidenceFailure RunPassMismatch)) else
  if negb (run_edge_permitted (run_state self) next pass_evidence)
  then Err (reject RunInvalidTransition) else
  Ok (mkRun (run_reference self) (run_workflow self) (run_policy self) next next_recorded_pass).

Record ReviewRunReconstitutionInput := mkRunInput {
  run_input_reference : ReviewRunRef;
  run_input_workflow : ReviewWorkflowKind;
  run_input_policy : ReviewPolicy;
  run_input_state : ReviewRunState;
  run_input_pass_evidence : option ReviewPassEvidence;
}.

(** The error retains the stored facts. *)
Definition run_try_reconstitute (input : ReviewRunReconstitutionInput) :
    result (ReviewRunReconstitutionInput * ReviewRunEvidenceFailure) ReviewRun :=
  _ ← map_err (fun failure => (input, failure))
    (validate_run_state (run_input_reference input) (run_input_workflow input) (run_input_policy input)
       (run_input_state input) (run_input_pass_evidence input));
  Ok (mkRun (run_input_reference input) (run_input_workflow input) (run_input_policy input)
        (run_input_state input) (evidence_reference <$> run_input_pass_evidence input)).

(** ** Passes (pass.rs) *)

Inductive ReviewPassTurnOutcome :=
| TurnActive | TurnCompleted | TurnRefused | TurnOutcomeFailed | TurnOutcomeCancelled
| TurnReconciliationRequired.

Record ReviewPassTurnEvidence := mkTurnEvidence {
  turn_evidence_turn : TurnId;
  turn_evidence_session : SessionId;
  turn_evidence_input : AcceptedInputId;
  turn_evidence_outcome : ReviewPassTurnOutcome;
  turn_evidence_frontier : option ContextFrontierId;
}.

Record ReviewPassAcceptedInputEvidence := mkInputEvidence {
  input_evidence_input : AcceptedInputId;
  input_evidence_session : SessionId;
  input_evidence_origin_turn : option TurnId;
}.

Inductive ReviewPassConstructionFailure :=
| ConstructionForeignRun | ConstructionWorkflowMismatch | RunNotQueued | RunAlreadyHasPass
| ConstructionSessionMismatch | ConstructionNoOriginTurn.

Record ReviewPassConstructionError := mkConstructionError {
  construction_reference : ReviewPassRef;
  construction_kind : ReviewPassKind;
  construction_run_evidence : ReviewRunEvidence;
  construction_session : SessionId;
  construction_input : ReviewPassAcceptedInputEvidence;
  construction_failure : ReviewPassConstructionFailure;
}.

Inductive ReviewPassReconstitutionFailure :=
| ForeignWorkflowRun | RunWorkflowMismatch | AcceptedInputEvidenceMismatch
| PassInputSessionMismatch | AcceptedInputHasNoOriginTurn | MissingTurnEvidence
| UnexpectedTurnEvidence | PassTurnMismatch | TurnOriginMismatch | TurnSessionMismatch
| TurnAcceptedInputMismatch | TurnOutcomeMismatch | TurnFrontierShapeMismatch
| OutputFrontierMismatch | IncompatiblePassResult | ForeignResultTarget.

Inductive ReviewPassTransitionFailure :=
| PassEvidenceFailure (failure : ReviewPassReconstitutionFailure)
| PassInvalidTransition | PassTurnChanged | PassIncompatibleResult | PassResultAlreadyBound.

Record ReviewPassTransitionError := mkPassTransitionError {
  pass_error_current : ReviewPass;
  pass_error_next : ReviewPassState;
  pass_error_turn_evidence : option ReviewPassTurnEvidence;
  pass_error_failure : ReviewPassTransitionFailure;
}.

(** [ReviewPass::try_new] records the pass in its run, which it borrows
    mutably. *)
Definition pass_try_new (reference : ReviewPassRef) (kind : ReviewPassKind) (run : ReviewRun)
    (session : SessionId) (accepted_input : ReviewPassAcceptedInputEvidence) :
    result ReviewPassConstructionError ReviewPass * ReviewRun :=
  let reject := mkConstructionError reference kind (run_evidence run) session accepted_input in
  let failure :=
    if negb (bool_decide (pass_ref_run reference = run_reference run)) then Some ConstructionForeignRun else
    if negb (workflow_matches_pass_kind (run_workflow run) kind) then Some ConstructionWorkflowMismatch else
    if negb (bool_decide (run_state run = RunQueued)) then Some RunNotQueued else
    if bool_decide (is_Some (run_recorded_pass run)) then Some RunAlreadyHasPass else
    if negb (bool_decide (session = input_evidence_session accepted_input))
    then Some ConstructionSessionMismatch else
    if bool_decide (input_evidence_origin_turn accepted_input = None)
    then Some ConstructionNoOriginTurn else None in
  match failure with
  | Some failure => (Err (reject failure), run)
  | None =>
      match input_evidence_origin_turn accepted_input with
      | None => (Err (reject ConstructionNoOriginTurn), run)
      | Some origin_turn =>
          (Ok (mkPass reference kind session (input_evidence_input accepted_input) origin_turn PassQueued),
           mkRun (run_reference run) (run_workflow run) (run_policy run) (run_state run) (Some reference))
      end
  end.

Definition pass_state_matches_turn_outcome (state : ReviewPassState) (outcome : ReviewPassTurnOutcome) :
    bool :=
  match state, outcome with
  | PassRunning _, _ => true
  | PassSucceeded _ _ _, TurnCompleted => true
  | PassFailed _, (TurnCompleted | TurnOutcomeFailed | TurnRefused) => true
  | PassBlocked _ _, TurnReconciliationRequired => true
  | PassCancelled (Some _), TurnOutcomeCancelled => true
  | _, _ => false
  end.

Definition validate_pass_turn_evidence (session : SessionId) (accepted_input : AcceptedInputId)
    (origin_turn : TurnId) (state : ReviewPassState) (turn_evidence : option ReviewPassTurnEvidence) :
    option ReviewPassReconstitutionFailure :=
  match pass_state_turn state with
  | None => if bool_decide (is_Some turn_evidence) then Some UnexpectedTurnEvidence else None
  | Some turn =>
      match turn_evidence with
      | None => Some MissingTurnEvidence
      | Some evidence =>
          if negb (bool_decide (turn_evidence_turn evidence = turn)) then Some PassTurnMismatch else
          if negb (bool_decide (turn_evidence_turn evidence = origin_turn)) then Some TurnOriginMismatch else
          if negb (bool_decide (turn_evidence_session evidence = session)) then Some TurnSessionMismatch else
          if negb (bool_decide (turn_evidence_input evidence = accepted_input))
          then Some TurnAcceptedInputMismatch else
          let frontier_matches_outcome :=
            match turn_evidence_outcome evidence with
            | TurnActive => bool_decide (turn_evidence_frontier evidence = None)
            | _ => bool_decide (is_Some (turn_evidence_frontier evidence))
            end in
          if negb frontier_matches_outcome then Some TurnFrontierShapeMismatch else
          if negb (pass_state_matches_turn_outcome state (turn_evidence_outcome evidence))
          then Some TurnOutcomeMismatch else
          match state with
          | PassSucceeded _ output_frontier _ =>
              if negb (bool_decide (turn_evidence_frontier evidence = Some output_frontier))
              then Some OutputFrontierMismatch else None
          | _ => None
          end
      end
  end.

Definition read_only_success_result_is_absent (kind : ReviewPassKind) (state : ReviewPassState) : bool :=
  bool_decide (kind = KindReadOnly) && match state with PassSucceeded _ _ None => true | _ => false end.

Definition finding_event_result_reference_is_compatible (event : ReviewFindingEventResult) : bool :=
  match referenced_finding_result event with
  | None => true
  | Some referenced =>
      negb (bool_decide (finding_ref_finding (referenced_reference referenced)
                         = finding_ref_finding (result_finding event)))
      && bool_decide (finding_ref_target (referenced_reference referenced)
                      = finding_ref_target (result_finding event))
      && referenced_finding_status_is_eligible (referenced_status referenced)
  end.

Definition finding_event_result_matches_pass (event : ReviewFindingEventResultKind) (pass : ReviewPassKind)
    (outcome : ReviewPassTurnOutcome) : bool :=
  match event, pass, outcome with
  | (ResultAccepted _ | ResultRejected _ | ResultStale), KindJudge, TurnCompleted => true
  | (ResultDuplicate _ | ResultSuperseded _), KindDedupe, TurnCompleted => true
  | ResultPosted _, (KindPublish | KindImport), TurnCompleted => true
  | ResultFixed, KindFix, TurnCompleted => true
  | ResultBlocked _ (Some _), KindPublish, TurnReconciliationRequired => true
  | ResultBlocked _ None, KindFix, TurnReconciliationRequired => true
  | _, _, _ => false
  end.

(** A result names a finding of another target. *)
Definition foreign_result_target (target : ReviewTargetId) (result : ReviewPassResult) : bool :=
  match result with
  | PassProducedFindings findings =>
      existsb (fun finding => negb (bool_decide (finding_ref_target finding = target)))
        (produced_findings findings)
  | PassFindingEvent event =>
      negb (bool_decide (finding_ref_target (result_finding event) = target))
      || match referenced_finding_result event with
         | Some referenced =>
             negb (bool_decide (finding_ref_target (referenced_reference referenced) = target))
         | None => false
         end
  | PassLinkAttachment result =>
      match attachment_result_event result with
      | Some event => negb (bool_decide (finding_ref_target (result_finding event) = target))
      | None => false
      end
  | PassLinkObservation _ | PassLinkNoChange _ | PassPublicationBlocked _ => false
  end.

(** A result fits the state and the kind of its pass. *)
Definition compatible_result (reference : ReviewPassRef) (kind : ReviewPassKind) (state : ReviewPassState)
    (result : ReviewPassResult) : bool :=
  match state, result with
  | PassSucceeded _ _ _, PassProducedFindings findings =>
      bool_decide (kind = KindReadOnly)
      && forallb (fun finding => bool_decide (finding_ref_pass finding = reference))
           (produced_findings findings)
  | PassSucceeded _ _ _, PassFindingEvent event =>
      negb match result_kind event with ResultPosted _ => true | _ => false end
      && bool_decide (finding_ref_target (result_finding event) = pass_ref_target reference)
      && finding_event_result_reference_is_compatible event
      && finding_event_result_matches_pass (result_kind event) kind TurnCompleted
  | PassBlocked _ _, PassFindingEvent event =>
      bool_decide (finding_ref_target (result_finding event) = pass_ref_target reference)
      && finding_event_result_reference_is_compatible event
      && finding_event_result_matches_pass (result_kind event) kind TurnReconciliationRequired
  | PassSucceeded _ _ _, PassLinkAttachment result =>
      match kind with KindPublish | KindImport => true | _ => false end
      && match attachment_result_event result with
         | None => true
         | Some event =>
             match result_kind event with
             | ResultPosted link => bool_decide (link = attachment_result_link result)
             | _ => false
             end
             && finding_event_result_matches_pass (result_kind event) kind TurnCompleted
         end
  | PassSucceeded _ _ _, PassLinkObservation _ | PassSucceeded _ _ _, PassLinkNoChange _ =>
      bool_decide (kind = KindImport)
  | PassBlocked _ _, PassPublicationBlocked _ => bool_decide (kind = KindPublish)
  | _, _ => false
  end.

Definition validate_pass_result (reference : ReviewPassRef) (kind : ReviewPassKind)
    (state : ReviewPassState) : option ReviewPassReconstitutionFailure :=
  match pass_state_result state with
  | None =>
      if bool_decide (kind = KindPublish) && match state with PassBlocked _ _ => true | _ => false end
      then Some IncompatiblePassResult else None
  | Some result =>
      if foreign_result_target (pass_ref_target reference) result then Some ForeignResultTarget else
      if negb (compatible_result reference kind state result) then Some IncompatiblePassResult else None
  end.

Record ReviewPassReconstitutionInput := mkPassInput {
  pass_input_reference : ReviewPassRef;
  pass_input_kind : ReviewPassKind;
  pass_input_workflow_run : ReviewRunRef;
  pass_input_workflow : ReviewWorkflowKind;
  pass_input_session : SessionId;
  pass_input_accepted_input : AcceptedInputId;
  pass_input_evidence : ReviewPassAcceptedInputEvidence;
  pass_input_state : ReviewPassState;
  pass_input_turn_evidence : option ReviewPassTurnEvidence;
}.

Definition validate_pass_reconstitution (input : ReviewPassReconstitutionInput) :
    option ReviewPassReconstitutionFailure :=
  if negb (bool_decide (pass_input_workflow_run input = pass_ref_run (pass_input_reference input)))
  then Some ForeignWorkflowRun else
  if negb (workflow_matches_pass_kind (pass_input_workflow input) (pass_input_kind input))
  then Some RunWorkflowMismatch else
  if negb (bool_decide (pass_input_accepted_input input = input_evidence_input (pass_input_evidence input)))
  then Some AcceptedInputEvidenceMismatch else
  if negb (bool_decide (pass_input_session input = input_evidence_session (pass_input_evidence input)))
  then Some PassInputSessionMismatch else
  match input_evidence_origin_turn (pass_input_evidence input) with
  | None => Some AcceptedInputHasNoOriginTurn
  | Some origin_turn =>
      match validate_pass_result (pass_input_reference input) (pass_input_kind input) (pass_input_state input) with
      | Some failure => Some failure
      | None =>
          match validate_pass_turn_evidence (pass_input_session input) (pass_input_accepted_input input)
                  origin_turn (pass_input_state input) (pass_input_turn_evidence input) with
          | Some failure => Some failure
          | None =>
              if read_only_success_result_is_absent (pass_input_kind input) (pass_input_state input)
              then Some IncompatiblePassResult else None
          end
      end
  end.

(** The error retains the stored facts. *)
Definition pass_try_reconstitute (input : ReviewPassReconstitutionInput) :
    result (ReviewPassReconstitutionInput * ReviewPassReconstitutionFailure) ReviewPass :=
  match validate_pass_reconstitution input with
  | Some failure => Err (input, failure)
  | None =>
      match input_evidence_origin_turn (pass_input_evidence input) with
      | None => Err (input, AcceptedInputHasNoOriginTurn)
      | Some origin_turn =>
          Ok (mkPass (pass_input_reference input) (pass_input_kind input) (pass_input_session input)
                (pass_input_accepted_input input) origin_turn (pass_input_state input))
      end
  end.

Definition set_pass_state (self : ReviewPass) (state : ReviewPassState) : ReviewPass :=
  mkPass (pass_reference self) (pass_kind self) (pass_session self) (pass_accepted_input self)
    (pass_origin_turn self) state.

(** The edges of [ReviewPass::transition]. *)
Definition pass_edge_permitted (current next : ReviewPassState) (same_turn : bool) : bool :=
  match current, next with
  | PassQueued, PassRunning _ | PassQueued, PassCancelled None => true
  | PassRunning _, (PassSucceeded _ _ _ | PassFailed _ | PassBlocked _ _ | PassCancelled (Some _)) =>
      same_turn
  | _, _ => false
  end.

Definition pass_transition (self : ReviewPass) (next : ReviewPassState)
    (turn_evidence : option ReviewPassTurnEvidence) : result ReviewPassTransitionError ReviewPass :=
  let reject := mkPassTransitionError self next turn_evidence in
  let same_turn :=
    match pass_state_turn (pass_state self), pass_state_turn next with
    | Some current, Some next => bool_decide (current = next)
    | _, _ => true
    end in
  if negb same_turn then Err (reject PassTurnChanged) else
  match validate_pass_turn_evidence (pass_session self) (pass_accepted_input self) (pass_origin_turn self)
          next turn_evidence with
  | Some failure => Err (reject (PassEvidenceFailure failure))
  | None =>
      if negb (pass_edge_permitted (pass_state self) next same_turn)
      then Err (reject PassInvalidTransition) else
      if read_only_success_result_is_absent (pass_kind self) next
         || bool_decide (is_Some (validate_pass_result (pass_reference self) (pass_kind self) next))
      then Err (reject PassIncompatibleResult)
      else Ok (set_pass_state self next)
  end.

Definition bind_result (self : ReviewPass) (bound : ReviewPassResult) :
    result ReviewPassTransitionError ReviewPass :=
  let reject next := mkPassTransitionError self next None in
  if bool_decide (pass_state_result (pass_state self) = Some bound) then Ok self else
  next ←
    match pass_state self with
    | PassSucceeded turn output_frontier None => Ok (PassSucceeded turn output_frontier (Some bound))
    | PassBlocked turn None => Ok (PassBlocked turn (Some bound))
    | state =>
        if bool_decide (is_Some (pass_state_result state))
        then Err (reject state PassResultAlreadyBound) else Err (reject state PassIncompatibleResult)
    end;
  if bool_decide (is_Some (validate_pass_result (pass_reference self) (pass_kind self) next))
  then Err (reject next PassIncompatibleResult)
  else Ok (set_pass_state self next).

(** ** Producers of findings (pass_result.rs) *)

(** The pass sealed the inventory the finding is in, and only findings of its
    own. *)
Definition produced_by (producing_pass : ReviewPassEvidence) (reference : ReviewFindingRef) : bool :=
  match evidence_state producing_pass with
  | PassSucceeded _ _ (Some (PassProducedFindings findings)) =>
      produced_contains findings reference
      && forallb (fun finding => bool_decide (finding_ref_pass finding = evidence_reference producing_pass))
           (produced_findings findings)
  | _ => false
  end.

Definition finding_producer_authenticates (reference : ReviewFindingRef)
    (producing_pass : ReviewPassEvidence) (producing_run : ReviewRunEvidence) : bool :=
  bool_decide (evidence_reference producing_pass = finding_ref_pass reference)
  && bool_decide (run_evidence_reference producing_run = finding_ref_run reference)
  && bool_decide (run_evidence_workflow producing_run = ReadOnlyReview)
  && bool_decide (evidence_kind producing_pass = KindReadOnly)
  && run_evidence_matches_pass producing_run producing_pass
  && produced_by producing_pass reference.

(** [ReviewReferencedFindingEvidence::try_reconstitute] *)
Definition referenced_try_reconstitute (reference : ReviewFindingRef) (status : ReviewFindingStatus)
    (producing_pass : ReviewPassEvidence) (producing_run : ReviewRunEvidence) :
    option ReviewReferencedFindingEvidence :=
  if negb (referenced_finding_status_is_eligible status)
     || negb (finding_producer_authenticates reference producing_pass producing_run)
  then None else Some (mkReferenced reference status (evidence_policy producing_pass)).
