(* ===== verification/ReviewPassSpec.v ===== *)
(** * Review passes and runs: histories

    The stored facts of passes and runs that reconstitution accepts are those
    some history of constructions and transitions leads to, and a run follows
    the one pass it records. *)

From stdpp Require Import strings.
From S2P Require Import Prelude Tool RunnerNames ReviewValues ReviewPass.

Local Open Scope list_scope.

(** ** Passes *)

(** The states a pass can have under the turn evidence it was given last. *)
Inductive pass_history (workflow : ReviewWorkflowKind) (accepted : ReviewPassAcceptedInputEvidence) :
    ReviewPass -> option ReviewPassTurnEvidence -> Prop :=
| pass_started reference kind run session pass run' :
    run_workflow run = workflow ->
    pass_try_new reference kind run session accepted = (Ok pass, run') ->
    pass_history workflow accepted pass None
| pass_moved pass before next evidence pass' :
    pass_history workflow accepted pass before ->
    pass_transition pass next evidence = Ok pass' ->
    pass_history workflow accepted pass' evidence
| pass_bound pass evidence bound pass' :
    pass_history workflow accepted pass evidence ->
    bind_result pass bound = Ok pass' ->
    pass_history workflow accepted pass' evidence.

Lemma pass_try_new_Ok reference kind run session accepted pass run' :
  pass_try_new reference kind run session accepted = (Ok pass, run') <->
  exists origin, pass_ref_run reference = run_reference run
    /\ workflow_matches_pass_kind (run_workflow run) kind = true /\ run_state run = RunQueued
    /\ run_recorded_pass run = None /\ session = input_evidence_session accepted
    /\ input_evidence_origin_turn accepted = Some origin
    /\ pass = mkPass reference kind session (input_evidence_input accepted) origin PassQueued
    /\ run' = mkRun (run_reference run) (run_workflow run) (run_policy run) RunQueued (Some reference).
Proof.
  unfold pass_try_new.
  destruct (bool_decide_reflect (pass_ref_run reference = run_reference run)); simpl; [|naive_solver].
  destruct (workflow_matches_pass_kind _ _) eqn:Hmatch; simpl; [|naive_solver].
  destruct (bool_decide_reflect (run_state run = RunQueued)) as [->|]; simpl; [|naive_solver].
  destruct (run_recorded_pass run) eqn:Hrecorded; simpl; [naive_solver|].
  destruct (bool_decide_reflect (session = input_evidence_session accepted)); simpl; [|naive_solver].
  destruct (input_evidence_origin_turn accepted) as [origin|] eqn:Horigin; simpl; [|naive_solver].
  split; [intros [= <- <-]; by exists origin|]. intros (? & _ & _ & _ & _ & _ & [= <-] & -> & ->). done.
Qed.

(** What a pass in a state needs: its result fits, a successful read-only
    review has one, and the turn evidence supports the state. *)
Definition pass_supported (pass : ReviewPass) (evidence : option ReviewPassTurnEvidence) : Prop :=
  validate_pass_result (pass_reference pass) (pass_kind pass) (pass_state pass) = None
  /\ read_only_success_result_is_absent (pass_kind pass) (pass_state pass) = false
  /\ validate_pass_turn_evidence (pass_session pass) (pass_accepted_input pass) (pass_origin_turn pass)
       (pass_state pass) evidence = None.

(** The turn of two states, when both name one. *)
Definition same_turn (current next : ReviewPassState) : bool :=
  match pass_state_turn current, pass_state_turn next with
  | Some current, Some next => bool_decide (current = next)
  | _, _ => true
  end.

Lemma pass_transition_Ok pass next evidence pass' :
  pass_transition pass next evidence = Ok pass' <->
  same_turn (pass_state pass) next = true /\ pass_edge_permitted (pass_state pass) next true = true
  /\ pass_supported (set_pass_state pass next) evidence /\ pass' = set_pass_state pass next.
Proof.
  unfold pass_transition, pass_supported. fold (same_turn (pass_state pass) next).
  cbn [set_pass_state pass_reference pass_kind pass_state pass_session pass_accepted_input pass_origin_turn].
  destruct (same_turn _ _); simpl; [|naive_solver].
  destruct (validate_pass_turn_evidence _ _ _ _ _); [naive_solver|].
  destruct (pass_edge_permitted _ _ _); simpl; [|naive_solver].
  destruct (read_only_success_result_is_absent _ _); simpl; [naive_solver|].
  destruct (validate_pass_result _ _ _); simpl; naive_solver.
Qed.

(** Binding a result keeps the turn evidence valid. *)
Definition with_result (state : ReviewPassState) (bound : ReviewPassResult) : option ReviewPassState :=
  match state with
  | PassSucceeded turn output_frontier None => Some (PassSucceeded turn output_frontier (Some bound))
  | PassBlocked turn None => Some (PassBlocked turn (Some bound))
  | _ => None
  end.

Lemma bind_result_Ok pass bound pass' :
  bind_result pass bound = Ok pass' <->
  (pass_state_result (pass_state pass) = Some bound /\ pass' = pass)
  \/ exists next, with_result (pass_state pass) bound = Some next
       /\ validate_pass_result (pass_reference pass) (pass_kind pass) next = None
       /\ pass' = set_pass_state pass next.
Proof.
  unfold bind_result, with_result.
  destruct (pass_state pass) as [|turn|turn frontier [current|]|turn|turn [current|]|turn];
    cbn [pass_state_result]; repeat case_bool_decide; cbn [mbind result_bind]; try naive_solver;
    (case_bool_decide as Hresult; [destruct Hresult as [? Hresult]|apply eq_None_not_Some in Hresult];
     naive_solver congruence).
Qed.

Lemma with_result_supported pass bound next evidence :
  with_result (pass_state pass) bound = Some next ->
  validate_pass_result (pass_reference pass) (pass_kind pass) next = None ->
  pass_supported pass evidence -> pass_supported (set_pass_state pass next) evidence.
Proof.
  unfold with_result, pass_supported.
  cbn [set_pass_state pass_reference pass_kind pass_state pass_session pass_accepted_input pass_origin_turn].
  intros Hnext Hresult (_ & _ & Hturn). split_and!; [done|..].
  - unfold read_only_success_result_is_absent. destruct (pass_state pass) as [| |? ? []| |? []|]; try done;
      injection Hnext as <-; by rewrite andb_false_r.
  - destruct (pass_state pass) as [| |? ? []| |? []|]; try done; by injection Hnext as <-.
Qed.

Lemma pass_history_supported workflow accepted pass evidence :
  pass_history workflow accepted pass evidence ->
  workflow_matches_pass_kind workflow (pass_kind pass) = true
  /\ pass_session pass = input_evidence_session accepted
  /\ pass_accepted_input pass = input_evidence_input accepted
  /\ input_evidence_origin_turn accepted = Some (pass_origin_turn pass)
  /\ pass_supported pass evidence.
Proof.
  induction 1 as [reference kind run session pass run' <- Hnew
    |pass before next evidence pass' _ IH Hmove|pass evidence bound pass' _ IH Hbind].
  - apply pass_try_new_Ok in Hnew as (origin & _ & Hmatch & _ & _ & -> & Horigin & -> & _). simpl.
    split_and!; try done. split_and!; [|..|done].
    + unfold validate_pass_result. simpl. by rewrite andb_false_r.
    + unfold read_only_success_result_is_absent. by rewrite andb_false_r.
  - apply pass_transition_Ok in Hmove as (_ & _ & Hsupported & ->). naive_solver.
  - apply bind_result_Ok in Hbind as [[_ ->]|(next & Hnext & Hresult & ->)]; [done|].
    destruct IH as (? & ? & ? & ? & Hsupported). split_and!; try done. by eapply with_result_supported.
Qed.

Section exact.
Context (input : ReviewPassReconstitutionInput) (pass : ReviewPass).

(** The stored facts describe the pass. *)
Definition pass_described : Prop :=
  pass_input_workflow_run input = pass_ref_run (pass_reference pass)
  /\ pass_input_reference input = pass_reference pass /\ pass_input_kind input = pass_kind pass
  /\ pass_input_session input = pass_session pass
  /\ pass_input_accepted_input input = pass_accepted_input pass
  /\ pass_input_state input = pass_state pass.

Lemma pass_try_reconstitute_Ok :
  pass_try_reconstitute input = Ok pass <->
  pass_described /\ workflow_matches_pass_kind (pass_input_workflow input) (pass_kind pass) = true
  /\ pass_accepted_input pass = input_evidence_input (pass_input_evidence input)
  /\ pass_session pass = input_evidence_session (pass_input_evidence input)
  /\ input_evidence_origin_turn (pass_input_evidence input) = Some (pass_origin_turn pass)
  /\ pass_supported pass (pass_input_turn_evidence input).
Proof.
  unfold pass_try_reconstitute, validate_pass_reconstitution, pass_described, pass_supported.
  destruct input as [reference kind run workflow session accepted [input' session' origin] state evidence].
  destruct pass as [reference' kind' session'' accepted' turn state'].
  cbn [pass_input_reference pass_input_kind pass_input_workflow_run pass_input_workflow pass_input_session
    pass_input_accepted_input pass_input_evidence pass_input_state pass_input_turn_evidence
    input_evidence_input input_evidence_session input_evidence_origin_turn pass_reference pass_kind pass_state
    pass_session pass_accepted_input pass_origin_turn].
  destruct (bool_decide_reflect (run = pass_ref_run reference)); simpl; [|naive_solver].
  destruct (workflow_matches_pass_kind workflow kind) eqn:Hmatch; simpl; [|naive_solver congruence].
  destruct (bool_decide_reflect (accepted = input')); simpl; [|naive_solver].
  destruct (bool_decide_reflect (session = session')); simpl; [|naive_solver].
  destruct origin as [origin|]; [|naive_solver].
  destruct (validate_pass_result reference kind state) eqn:Hresult; [naive_solver congruence|].
  destruct (validate_pass_turn_evidence session accepted origin state evidence) eqn:Hturn;
    [naive_solver congruence|].
  destruct (read_only_success_result_is_absent kind state) eqn:Hread; naive_solver congruence.
Qed.
End exact.

(** A pass with the given facts, before its turn. *)
Definition queued_pass (pass : ReviewPass) : ReviewPass := set_pass_state pass PassQueued.

Lemma queued_pass_history workflow accepted pass :
  workflow_matches_pass_kind workflow (pass_kind pass) = true ->
  pass_session pass = input_evidence_session accepted ->
  pass_accepted_input pass = input_evidence_input accepted ->
  input_evidence_origin_turn accepted = Some (pass_origin_turn pass) ->
  pass_history workflow accepted (queued_pass pass) None.
Proof.
  intros Hmatch Hsession Hinput Horigin.
  eapply (pass_started _ _ (pass_reference pass) (pass_kind pass)
    (run_new (pass_ref_run (pass_reference pass)) workflow policy_version_one_tuple) (pass_session pass)); [done|].
  apply pass_try_new_Ok. exists (pass_origin_turn pass). simpl. split_and!; try done.
  by rewrite <- Hinput.
Qed.

(** The states behind an active turn are reached through it. *)
Lemma pass_supported_running pass turn evidence :
  pass_state_turn (pass_state pass) = Some turn -> pass_supported pass evidence ->
  pass_supported (set_pass_state pass (PassRunning turn)) evidence.
Proof.
  unfold pass_supported. cbn [set_pass_state pass_reference pass_kind pass_state pass_session
    pass_accepted_input pass_origin_turn].
  intros Hturn (_ & _ & Hevidence). split_and!.
  - unfold validate_pass_result. simpl. by rewrite andb_false_r.
  - unfold read_only_success_result_is_absent. by rewrite andb_false_r.
  - unfold validate_pass_turn_evidence in *. simpl. rewrite Hturn in Hevidence.
    destruct evidence as [evidence|]; [|done].
    repeat case_match; try done; simplify_eq/=; destruct (turn_evidence_outcome evidence); done.
Qed.

(** C28. A stored pass is reconstituted exactly when some history leads to it:
    its construction from an accepted input under a run of the stored workflow,
    transitions supported by the evidence of its turn, and bound results, the
    last transition with the stored turn evidence. *)
Theorem pass_reconstitution_exact input pass :
  pass_try_reconstitute input = Ok pass <->
  pass_described input pass
  /\ pass_history (pass_input_workflow input) (pass_input_evidence input) pass (pass_input_turn_evidence input).
Proof.
  rewrite pass_try_reconstitute_Ok. apply and_iff_compat_l. split.
  2: { intros Hhistory. apply pass_history_supported in Hhistory as (? & ? & ? & ? & ?). done. }
  intros (Hmatch & Hinput & Hsession & Horigin & Hsupported).
  pose proof (queued_pass_history _ _ _ Hmatch Hsession Hinput Horigin) as Hqueued.
  assert (forall turn, pass_state_turn (pass_state pass) = Some turn ->
    pass_history (pass_input_workflow input) (pass_input_evidence input)
      (set_pass_state pass (PassRunning turn)) (pass_input_turn_evidence input)) as Hrunning.
  { intros turn Hturn. eapply (pass_moved _ _ _ _ (PassRunning turn)); [exact Hqueued|]. apply pass_transition_Ok.
    split; [done|split; [done|split; [|done]]]. by apply (pass_supported_running pass). }
  assert (set_pass_state pass (pass_state pass) = pass) as Hself by by destruct pass.
  assert (forall turn, pass_state_turn (pass_state pass) = Some turn ->
    pass_edge_permitted (PassRunning turn) (pass_state pass) true = true ->
    pass_history (pass_input_workflow input) (pass_input_evidence input) pass (pass_input_turn_evidence input))
    as Hended.
  { intros turn Hturn Hedge. eapply (pass_moved _ _ _ _ (pass_state pass)); [by apply Hrunning|].
    apply pass_transition_Ok. cbn [set_pass_state pass_state].
    split; [|split; [done|split]].
    - unfold same_turn. rewrite Hturn. simpl. by rewrite bool_decide_true.
    - change (set_pass_state (set_pass_state pass (PassRunning turn)) (pass_state pass))
        with (set_pass_state pass (pass_state pass)). by rewrite Hself.
    - by rewrite <- Hself at 1. }
  destruct (pass_state pass) as [|turn|turn frontier bound|turn|turn bound|[turn|]] eqn:Hstate.
  - rewrite <- Hself. unfold queued_pass in Hqueued.
    destruct Hsupported as (_ & _ & Hturn). unfold validate_pass_turn_evidence in Hturn. rewrite Hstate in Hturn.
    simpl in Hturn. by destruct (pass_input_turn_evidence input).
  - rewrite <- Hself. by apply Hrunning.
  - by apply (Hended turn).
  - by apply (Hended turn).
  - by apply (Hended turn).
  - by apply (Hended turn).
  - eapply (pass_moved _ _ _ _ (PassCancelled None)); [exact Hqueued|]. apply pass_transition_Ok.
    split; [done|split; [done|split; [|by rewrite <- Hself at 1]]].
    change (pass_supported (set_pass_state pass (PassCancelled None)) (pass_input_turn_evidence input)).
    by rewrite Hself.
Qed.

(** ** Runs *)

(** The states a run can have under the pass evidence it was given last. *)
Inductive run_history : ReviewRun -> option ReviewPassEvidence -> Prop :=
| run_started reference workflow policy : run_history (run_new reference workflow policy) None
| run_recorded run before reference kind session accepted pass run' :
    run_history run before ->
    pass_try_new reference kind run session accepted = (Ok pass, run') ->
    run_history run' (Some (evidence_from_pass pass (run_policy run)))
| run_moved run before next evidence run' :
    run_history run before ->
    run_transition run next evidence = Ok run' ->
    run_history run' evidence.

Definition run_supported (run : ReviewRun) (evidence : option ReviewPassEvidence) : Prop :=
  validate_run_state (run_reference run) (run_workflow run) (run_policy run) (run_state run) evidence = Ok tt
  /\ run_recorded_pass run = evidence_reference <$> evidence.

Lemma run_transition_Ok run next evidence run' :
  run_transition run next evidence = Ok run' <->
  run_recorded_pass run = evidence_reference <$> evidence
  /\ run_edge_permitted (run_state run) next evidence = true
  /\ run' = mkRun (run_reference run) (run_workflow run) (run_policy run) next (evidence_reference <$> evidence)
  /\ run_supported run' evidence.
Proof.
  unfold run_transition.
  destruct (validate_run_state _ _ _ _ _) as [[]|failure] eqn:Hvalid; cbn [map_err]; simpl.
  2: { split; [done|]. intros (_ & _ & -> & [Hv _]). simpl in Hv. congruence. }
  case_bool_decide as Hrecorded; simpl; [|split; [done|naive_solver]].
  destruct (run_edge_permitted _ _ _); simpl; [|split; [done|naive_solver]].
  split; [intros [= <-]; by repeat split|by intros (_ & _ & -> & _)].
Qed.

(** What the evidence of a supported run is evidence of. *)
Lemma validate_run_evidence reference workflow policy state evidence :
  validate_run_state reference workflow policy state (Some evidence) = Ok tt <->
  pass_ref_run (evidence_reference evidence) = reference
  /\ workflow_matches_pass_kind workflow (evidence_kind evidence) = true /\ evidence_policy evidence = policy
  /\ match run_state_pass state with
     | None => state = RunQueued /\ evidence_state evidence = PassQueued
     | Some pass => evidence_reference evidence = pass
         /\ run_state_matches_pass state (evidence_state evidence) = true
     end.
Proof.
  unfold validate_run_state. destruct evidence as [pass kind policy' pass_state].
  cbn [evidence_reference evidence_kind evidence_policy evidence_state].
  destruct (bool_decide_reflect (pass_ref_run pass = reference)) as [<-|];
    [|destruct (run_state_pass state); [destruct (bool_decide _)|]; by naive_solver].
  destruct (workflow_matches_pass_kind workflow kind); simpl;
    [|destruct (run_state_pass state); [destruct (bool_decide _)|]; by naive_solver].
  destruct (bool_decide_reflect (policy' = policy)) as [<-|]; simpl;
    [|destruct (run_state_pass state); [destruct (bool_decide _)|]; by naive_solver].
  destruct state as [|run_pass|run_pass|run_pass|run_pass|[run_pass|]]; cbn [run_state_pass];
    try (simpl; destruct (bool_decide_reflect (pass = run_pass)) as [<-|];
         [rewrite bool_decide_true by done; simpl; destruct pass_state; naive_solver
         |destruct (bool_decide _); naive_solver]).
  - simpl. case_bool_decide; naive_solver.
  - split; [done|by intros (_ & _ & _ & ? & _)].
Qed.

Lemma run_history_supported run evidence : run_history run evidence -> run_supported run evidence.
Proof.
  induction 1 as [|run before reference kind session accepted pass run' _ IH Hnew
    |run before next evidence run' _ _ Hmove].
  - done.
  - apply pass_try_new_Ok in Hnew as (origin & Href & Hmatch & _ & _ & _ & _ & -> & ->).
    split; [|done]. by apply validate_run_evidence.
  - by apply run_transition_Ok in Hmove as (_ & _ & _ & ?).
Qed.

Definition run_described (input : ReviewRunReconstitutionInput) (run : ReviewRun) : Prop :=
  run_input_reference input = run_reference run /\ run_input_workflow input = run_workflow run
  /\ run_input_policy input = run_policy run /\ run_input_state input = run_state run.

Lemma run_try_reconstitute_Ok input run :
  run_try_reconstitute input = Ok run <->
  run_described input run /\ run_supported run (run_input_pass_evidence input).
Proof.
  unfold run_try_reconstitute, run_described, run_supported.
  destruct input as [reference workflow policy state evidence], run as [reference' workflow' policy' state' recorded].
  cbn [run_input_reference run_input_workflow run_input_policy run_input_state run_input_pass_evidence
    run_reference run_workflow run_policy run_state run_recorded_pass].
  destruct (validate_run_state _ _ _ _ _) as [[]|failure] eqn:Hvalid; cbn [map_err]; simpl; split.
  - by intros [= <- <- <- <- <-].
  - by intros [(<- & <- & <- & <-) [_ ->]].
  - done.
  - intros [(<- & <- & <- & <-) [Hv _]]. congruence.
Qed.

(** The run of a reference, workflow and policy that records a pass. *)
Definition recorded_run (run : ReviewRun) (pass : ReviewPassRef) (state : ReviewRunState) : ReviewRun :=
  mkRun (run_reference run) (run_workflow run) (run_policy run) state (Some pass).

(** Evidence of the pass in another state. *)
Definition evidence_at (evidence : ReviewPassEvidence) (state : ReviewPassState) : ReviewPassEvidence :=
  mkPassEvidence (evidence_reference evidence) (evidence_kind evidence) (evidence_policy evidence) state.

Section recorded.
Context (run : ReviewRun) (evidence : ReviewPassEvidence).
Hypothesis Hrun : pass_ref_run (evidence_reference evidence) = run_reference run.
Hypothesis Hmatch : workflow_matches_pass_kind (run_workflow run) (evidence_kind evidence) = true.
Hypothesis Hpolicy : evidence_policy evidence = run_policy run.

Local Abbreviation pass := (evidence_reference evidence).

Lemma run_history_queued : run_history (recorded_run run pass RunQueued) (Some (evidence_at evidence PassQueued)).
Proof.
  set (fresh := run_new (run_reference run) (run_workflow run) (run_policy run)).
  set (accepted := mkInputEvidence (from_uuid 1) (from_uuid 1) (Some (from_uuid 1))).
  set (queued := mkPass pass (evidence_kind evidence) (from_uuid 1) (from_uuid 1) (from_uuid 1) PassQueued).
  unfold evidence_at. rewrite Hpolicy.
  change (run_history (recorded_run run pass RunQueued) (Some (evidence_from_pass queued (run_policy fresh)))).
  eapply (run_recorded fresh None pass (evidence_kind evidence) (from_uuid 1) accepted); [by constructor|].
  apply pass_try_new_Ok. by exists (from_uuid 1).
Qed.

(** One transition of the recorded run. *)
Lemma run_history_step current next before state :
  run_history (recorded_run run pass current) before ->
  run_state_pass next = Some pass -> run_state_matches_pass next state = true ->
  run_edge_permitted current next (Some (evidence_at evidence state)) = true ->
  run_history (recorded_run run pass next) (Some (evidence_at evidence state)).
Proof.
  intros Hhistory Hpass Hstate Hedge. eapply (run_moved _ _ next); [exact Hhistory|].
  apply run_transition_Ok. split_and!; [done..|]. split; [|done].
  apply validate_run_evidence. simpl. by rewrite Hpass.
Qed.

Lemma run_history_running turn :
  run_history (recorded_run run pass (RunRunning pass)) (Some (evidence_at evidence (PassRunning turn))).
Proof. by eapply run_history_step; [apply run_history_queued|..]. Qed.
End recorded.

(** A stored run is reconstituted exactly when some history leads to it:
    its creation, the recording of one pass by the pass's construction, and
    transitions supported by the evidence of that pass, the last of them with
    the stored evidence. *)
Theorem run_reconstitution_exact input run :
  run_try_reconstitute input = Ok run <->
  run_described input run /\ run_history run (run_input_pass_evidence input).
Proof.
  rewrite run_try_reconstitute_Ok. apply and_iff_compat_l. split; [|apply run_history_supported].
  generalize (run_input_pass_evidence input) as evidence. clear input. intros evidence [Hvalid Hrecorded].
  destruct evidence as [evidence|].
  2: { destruct run as [reference workflow policy state recorded]; simpl in *; subst recorded.
       destruct state as [| | | | |[]]; try (by unfold validate_run_state in Hvalid; simpl in Hvalid; case_match).
       - constructor.
       - eapply (run_moved _ _ (RunCancelled None)); [by constructor|]. by apply run_transition_Ok. }
  apply validate_run_evidence in Hvalid as (Hrun & Hmatch & Hpolicy & Hstate).
  pose proof (run_history_queued run evidence Hrun Hmatch Hpolicy) as Hqueued.
  pose proof (run_history_running run evidence Hrun Hmatch Hpolicy) as Hrunning.
  pose proof (run_history_step run evidence Hrun Hmatch Hpolicy) as Hstep.
  enough (run_history (recorded_run run (evidence_reference evidence) (run_state run))
    (Some (mkPassEvidence (evidence_reference evidence) (evidence_kind evidence) (evidence_policy evidence)
       (evidence_state evidence)))) by by destruct run, evidence; simpl in *; subst.
  destruct (run_state run) as [|pass|pass|pass|pass|[pass|]] eqn:Hrs; simpl in Hstate.
  - destruct Hstate as [_ ->]. exact Hqueued.
  - destruct Hstate as [<- Hs]. by eapply Hstep.
  - destruct Hstate as [<- Hs]. eapply Hstep; [|done|done|]; [apply (Hrunning (from_uuid 1))|].
    simpl. by rewrite bool_decide_true.
  - destruct Hstate as [<- Hs]. eapply Hstep; [|done|done|]; [apply (Hrunning (from_uuid 1))|].
    simpl. by rewrite bool_decide_true.
  - destruct Hstate as [<- Hs]. eapply Hstep; [|done|done|]; [apply (Hrunning (from_uuid 1))|].
    simpl. by rewrite bool_decide_true.
  - destruct Hstate as [<- Hs]. destruct (evidence_state evidence) as [| | | | |[turn|]]; try done.
    + eapply Hstep; [|done|done|]; [apply (Hrunning turn)|]. simpl. by rewrite bool_decide_true.
    + by eapply Hstep.
  - by destruct Hstate.
Qed.

(** ** A run and its pass *)

(** A run and the pass it records, advanced together: every transition of the
    pass is followed by one of the run that it is evidence for; binding a
    result moves the pass alone. *)
Inductive joint : ReviewRun -> ReviewPass -> Prop :=
| joint_started reference workflow policy pass_reference kind session accepted pass run' :
    pass_try_new pass_reference kind (run_new reference workflow policy) session accepted = (Ok pass, run') ->
    joint run' pass
| joint_moved run pass next evidence pass' next_run run' :
    joint run pass ->
    pass_transition pass next evidence = Ok pass' ->
    run_transition run next_run (Some (evidence_from_pass pass' (run_policy run))) = Ok run' ->
    joint run' pass'
| joint_bound run pass bound pass' :
    joint run pass -> bind_result pass bound = Ok pass' -> joint run pass'.

(** The state of a run that has one pass, by the state of the pass. *)
Definition run_state_of (pass : ReviewPass) : ReviewRunState :=
  let reference := pass_reference pass in
  match pass_state pass with
  | PassQueued => RunQueued
  | PassRunning _ => RunRunning reference
  | PassSucceeded _ _ _ => RunSucceeded reference
  | PassFailed _ => RunFailed reference
  | PassBlocked _ _ => RunBlocked reference
  | PassCancelled _ => RunCancelled (Some reference)
  end.

Record run_of_pass (run : ReviewRun) (pass : ReviewPass) : Prop := {
  follows_reference : pass_ref_run (pass_reference pass) = run_reference run;
  follows_workflow : workflow_matches_pass_kind (run_workflow run) (pass_kind pass) = true;
  follows_state : run_state run = run_state_of pass;
  follows_pass : run_recorded_pass run = Some (pass_reference pass);
}.

Lemma run_of_pass_supported run pass :
  run_of_pass run pass -> run_supported run (Some (evidence_from_pass pass (run_policy run))).
Proof.
  intros [Href Hmatch Hstate Hpass]. split; [|by rewrite Hpass].
  apply validate_run_evidence. simpl. rewrite Hstate. unfold run_state_of.
  by destruct (pass_state pass) as [| | | | |[]].
Qed.

(** The run has exactly one transition for each of its pass. *)
Lemma run_of_pass_moves run pass next evidence pass' next_run run' :
  run_of_pass run pass -> pass_transition pass next evidence = Ok pass' ->
  run_transition run next_run (Some (evidence_from_pass pass' (run_policy run))) = Ok run' <->
  next_run = run_state_of pass' /\ run' = recorded_run run (pass_reference pass') (run_state_of pass').
Proof.
  intros [Href Hmatch Hstate Hpass] Hmove.
  apply pass_transition_Ok in Hmove as (Hturn & Hedge & _ & ->). rewrite run_transition_Ok. unfold run_supported.
  cbn [run_reference run_workflow run_policy run_state run_recorded_pass fmap option_fmap option_map].
  rewrite validate_run_evidence, Hpass, Hstate. unfold run_state_of, recorded_run.
  cbn [evidence_from_pass evidence_reference evidence_kind evidence_policy evidence_state
    set_pass_state pass_reference pass_kind pass_state fmap option_fmap option_map].
  split.
  - intros (_ & Hrun & -> & (_ & _ & _ & Hnext) & _).
    destruct next_run as [| | | | |[]], next as [| | | | |[]]; simpl in Hnext; try (by destruct Hnext);
      destruct Hnext as [<- _]; try done; by destruct (pass_state pass).
  - intros [-> ->]. split_and!; try done.
    + destruct (pass_state pass) as [| | | | |[]], next as [| | | | |[]]; try done;
        simpl; by rewrite bool_decide_true.
    + destruct next as [| | | | |[]]; try done; by destruct (pass_state pass).
Qed.

Lemma bound_run_of_pass run pass bound pass' :
  run_of_pass run pass -> bind_result pass bound = Ok pass' -> run_of_pass run pass'.
Proof.
  intros [Href Hmatch Hstate Hpass] Hbind.
  apply bind_result_Ok in Hbind as [[_ ->]|(next & Hnext & _ & ->)]; [done|].
  constructor; try done. rewrite Hstate. unfold run_state_of. cbn [set_pass_state pass_state pass_reference].
  by destruct (pass_state pass) as [| |? ? []| |? []|]; try done; injection Hnext as <-.
Qed.

Lemma joint_run_of_pass run pass : joint run pass -> run_of_pass run pass.
Proof.
  induction 1 as [reference workflow policy pass_reference kind session accepted pass run' Hnew
    |run pass next evidence pass' next_run run' _ IH Hmove Hrun|run pass bound pass' _ IH Hbind].
  - apply pass_try_new_Ok in Hnew as (origin & Href & Hmatch & _ & _ & _ & _ & -> & ->). done.
  - apply (run_of_pass_moves _ _ _ _ _ _ _ IH Hmove) in Hrun as [-> ->].
    apply pass_transition_Ok in Hmove as (_ & _ & _ & ->). by destruct IH.
  - by eapply bound_run_of_pass.
Qed.

(** The policy a referenced finding was produced under. *)
Definition bound_policy (bound : ReviewPassResult) : option ReviewPolicy :=
  match bound with
  | PassFindingEvent event => referenced_producer_policy <$> referenced_finding_result event
  | _ => None
  end.

Lemma project_result_unfold evidence bound :
  project_result evidence bound =
  if match bound_policy bound with
     | Some policy => negb (bool_decide (policy = evidence_policy evidence))
     | None => false
     end then None else
  if bool_decide (pass_state_result (evidence_state evidence) = Some bound) then Some evidence
  else evidence_at evidence <$> with_result (evidence_state evidence) bound.
Proof.
  unfold project_result, bound_policy, evidence_at.
  replace (match bound with PassFindingEvent event => _ | _ => false end)
    with (match match bound with
                | PassFindingEvent event => referenced_producer_policy <$> referenced_finding_result event
                | _ => None
                end with
          | Some policy => negb (bool_decide (policy = evidence_policy evidence))
          | None => false
          end)
    by (destruct bound as [|event| | | |]; try done; simpl; by destruct (referenced_finding_result event)).
  case_match; [done|].
  destruct (evidence_state evidence) as [| |? ? [current|]| |? [current|]|]; try done; simpl;
    repeat case_bool_decide; try done; naive_solver.
Qed.

(** The result refers to no finding produced under another policy. *)
Definition of_policy (policy : ReviewPolicy) (bound : ReviewPassResult) : Prop :=
  forall referenced, bound_policy bound = Some referenced -> referenced = policy.

(** Evidence of a pass takes a result bound to the pass, unless the result refers
    to a finding produced under another policy. *)
Lemma bound_evidence pass bound pass' policy :
  bind_result pass bound = Ok pass' -> forall evidence,
  project_result (evidence_from_pass pass policy) bound = Some evidence <->
  of_policy policy bound /\ evidence = evidence_from_pass pass' policy.
Proof.
  intros Hbind evidence. rewrite project_result_unfold. cbn [evidence_from_pass evidence_policy evidence_state].
  assert (match bound_policy bound with
          | Some referenced => negb (bool_decide (referenced = policy))
          | None => false
          end = false <-> of_policy policy bound) as Hpolicy.
  { unfold of_policy. destruct (bound_policy bound) as [referenced|]; [|by split].
    rewrite negb_false_iff, bool_decide_eq_true. naive_solver. }
  destruct (match bound_policy bound with Some _ => _ | None => _ end).
  { split; [done|]. intros [Hsame _]. by apply Hpolicy in Hsame. }
  assert ((if bool_decide (pass_state_result (pass_state pass) = Some bound)
           then Some (evidence_from_pass pass policy)
           else evidence_at (evidence_from_pass pass policy) <$> with_result (pass_state pass) bound)
          = Some (evidence_from_pass pass' policy)) as Htaken.
  { apply bind_result_Ok in Hbind as [[Hresult ->]|(next & Hnext & _ & ->)].
    - by rewrite bool_decide_true.
    - rewrite bool_decide_false by (by destruct (pass_state pass) as [| |? ? []| |? []|]). by rewrite Hnext. }
  cbn [evidence_from_pass] in Htaken. rewrite Htaken. split.
  - intros [= <-]. split; [by apply Hpolicy|done].
  - by intros [_ ->].
Qed.

(** A pass that has another result, or awaits none, gives evidence for no other. *)
Lemma unbound_evidence pass bound policy evidence :
  project_result (evidence_from_pass pass policy) bound = Some evidence ->
  of_policy policy bound
  /\ (pass_state_result (pass_state pass) = Some bound \/ is_Some (with_result (pass_state pass) bound)).
Proof.
  rewrite project_result_unfold. cbn [evidence_from_pass evidence_policy evidence_state].
  destruct (match bound_policy bound with Some _ => _ | None => _ end) eqn:Hpolicy; [done|].
  intros Htaken. split.
  - intros referenced Hreferenced. rewrite Hreferenced in Hpolicy.
    by apply negb_false_iff, bool_decide_eq_true in Hpolicy.
  - case_bool_decide; [by left|right]. destruct (with_result (pass_state pass) bound); [by eexists|done].
Qed.

(** C27. A run and the pass it records agree: the run has the one state that
    the state of its pass calls for, it is reconstituted from the evidence of
    the pass, and every transition of the pass lets the run take exactly one
    transition. A result bound to the pass leaves the run where it is; the
    evidence of the pass takes it, and becomes that of the bound pass, exactly
    when the result refers to no finding produced under another policy than the
    run's. Evidence takes no result with such a reference, and none of a pass
    that has another result or awaits none. *)
Theorem run_follows_pass run pass (Hjoint : joint run pass) :
  run_state run = run_state_of pass
  /\ run_try_reconstitute (mkRunInput (run_reference run) (run_workflow run) (run_policy run) (run_state run)
       (Some (evidence_from_pass pass (run_policy run)))) = Ok run
  /\ (forall next evidence pass', pass_transition pass next evidence = Ok pass' ->
       forall next_run run', run_transition run next_run (Some (evidence_from_pass pass' (run_policy run))) = Ok run' <->
         next_run = run_state_of pass' /\ run' = recorded_run run (pass_reference pass') (run_state_of pass'))
  /\ (forall bound pass', bind_result pass bound = Ok pass' ->
       run_state_of pass' = run_state run
       /\ forall evidence, project_result (evidence_from_pass pass (run_policy run)) bound = Some evidence <->
            of_policy (run_policy run) bound /\ evidence = evidence_from_pass pass' (run_policy run))
  /\ (forall bound evidence, project_result (evidence_from_pass pass (run_policy run)) bound = Some evidence ->
       of_policy (run_policy run) bound
       /\ (pass_state_result (pass_state pass) = Some bound \/ is_Some (with_result (pass_state pass) bound))).
Proof.
  pose proof (joint_run_of_pass _ _ Hjoint) as Hrun. split_and!.
  - apply Hrun.
  - apply run_try_reconstitute_Ok. split; [done|]. by apply run_of_pass_supported.
  - intros next evidence pass' Hmove next_run run'. by eapply run_of_pass_moves.
  - intros bound pass' Hbind. split; [|by apply bound_evidence].
    symmetry. apply (bound_run_of_pass run pass bound pass' Hrun Hbind).
  - intros bound evidence. apply unbound_evidence.
Qed.

(** A pass that finds a duplicate of a finding produced under another policy is
    bound to it; its evidence is not. *)
Lemma run_follows_pass_witness :
  let reference := mkRunRef (from_uuid 1) (from_uuid 2) in
  let pass_reference := mkPassRef reference (from_uuid 3) in
  let accepted := mkInputEvidence (from_uuid 5) (from_uuid 4) (Some (from_uuid 6)) in
  let turn := mkTurnEvidence (from_uuid 6) (from_uuid 4) (from_uuid 5) in
  let policy := policy_version_one_tuple in
  let other := mkPolicy policy_version_one (mkConfidence 0) (mkConfidence 0) in
  let run := mkRun reference DedupeFindings policy in
  let pass state := mkPass pass_reference KindDedupe (from_uuid 4) (from_uuid 5) (from_uuid 6) state in
  let canonical := mkReferenced (mkFindingRef pass_reference (from_uuid 8)) StatusOpen other in
  let bound := PassFindingEvent (mkEventResult (mkFindingRef pass_reference (from_uuid 9))
    (mkEventOrdinal 1) (ResultDuplicate canonical)) in
  let succeeded := run (RunSucceeded pass_reference) (Some pass_reference) in
  let completed := pass (PassSucceeded (from_uuid 6) (from_uuid 7) None) in
  joint succeeded completed /\ run_state succeeded = run_state_of completed
  /\ (exists pass', bind_result completed bound = Ok pass')
  /\ project_result (evidence_from_pass completed policy) bound = None.
Proof.
  intros reference pass_reference accepted turn policy other run pass canonical bound succeeded completed.
  assert (joint succeeded completed) as Hjoint.
  { eapply (joint_moved (run (RunRunning pass_reference) (Some pass_reference)) (pass (PassRunning (from_uuid 6)))
      (PassSucceeded (from_uuid 6) (from_uuid 7) None) (Some (turn TurnCompleted (Some (from_uuid 7)))) _
      (RunSucceeded pass_reference)); [|reflexivity..].
    eapply (joint_moved (run RunQueued (Some pass_reference)) (pass PassQueued) (PassRunning (from_uuid 6))
      (Some (turn TurnActive None)) _ (RunRunning pass_reference)); [|reflexivity..].
    by apply (joint_started reference DedupeFindings policy pass_reference KindDedupe (from_uuid 4) accepted). }
  destruct (run_follows_pass succeeded completed Hjoint) as (Hstate & _ & _ & Hbound & _).
  destruct (bind_result completed bound) as [pass'|e] eqn:Hbind; [|vm_compute in Hbind; discriminate].
  destruct (Hbound bound pass' Hbind) as [_ Htaken].
  split; [exact Hjoint|]. split; [exact Hstate|]. split; [by exists pass'|].
  destruct (project_result (evidence_from_pass completed policy) bound) as [evidence|] eqn:Hproject; [|reflexivity].
  destruct (proj1 (Htaken evidence) Hproject) as [Hsame _]. specialize (Hsame other eq_refl). discriminate.
Defined.
