(* ===== verification/ReviewLink.v ===== *)
(** * Review external links

    Model of [crates/domain/src/review_workflow/external_link.rs]: durable
    reservations of objects at a provider, their attachment and observations,
    the passes that claim to have seen no change or to be blocked, and the
    claims of objects by targets. *)

From stdpp Require Import gmap.
From S2P Require Import Prelude Tool RunnerNames ReviewValues ReviewTarget ReviewPass.

Local Open Scope list_scope.

(** ** Data *)

Inductive ReviewExternalLinkAssociation :=
| AssociatedTarget (target : ReviewTargetId)
| AssociatedRun (run : ReviewRunRef)
| AssociatedFinding (finding : ReviewFindingRef).

Inductive ReviewExternalObjectKind :=
| ChangeRequestObject | CommitObject | ReviewObject | ReviewThreadObject | ReviewCommentObject
| ChangeRequestCommentObject.

Record ReviewExternalLinkAttachment := mkAttachment {
  attachment_link : ReviewExternalLinkId;
  attachment_pass : ReviewPassRef;
  attachment_pass_evidence : ReviewPassEvidence;
  attachment_run : ReviewRunEvidence;
  attachment_object : ReviewKey;
}.

Record ReviewExternalLinkObservation := mkObservation {
  observation_link : ReviewExternalLinkId;
  observation_ordinal : ReviewEventOrdinal;
  observation_pass : ReviewPassRef;
  observation_pass_evidence : ReviewPassEvidence;
  observation_run : ReviewRunEvidence;
  observation_state : ReviewExternalObjectState;
}.

Record ReviewExternalLinkClaim := mkLinkClaim {
  claim_pass : ReviewPassEvidence;
  claim_run : ReviewRunEvidence;
}.

Record ReviewExternalLink := mkLink {
  link_id : ReviewExternalLinkId;
  link_association : ReviewExternalLinkAssociation;
  link_provider : ReviewKey;
  link_object_kind : ReviewExternalObjectKind;
  link_attachment : option ReviewExternalLinkAttachment;
  link_observations : list ReviewExternalLinkObservation;
  link_claims : list ReviewExternalLinkClaim;
  link_pass_claims : gmap ReviewPassId (ReviewPassEvidence * ReviewRunEvidence);
  link_run_claims : gmap ReviewRunId (ReviewPassEvidence * ReviewRunEvidence);
}.

Inductive ReviewExternalLinkTransitionFailure :=
| ForeignAssociationTarget | LinkProviderMismatch | AlreadyAttached | ForeignAttachmentLink
| ForeignObservationLink | ForeignPass | IncompatibleAttachmentPass | AttachmentPassEvidenceMismatch
| IncompatibleAttachmentRunEvidence | IncompatibleObservationPass | ObservationPassEvidenceMismatch
| IncompatibleObservationRunEvidence | IncompatiblePublicationBlockPass
| IncompatiblePublicationBlockRunEvidence | UnchangedObservation | ConflictingPassEvidence
| ConflictingRunEvidence | NotAttached
| NoncontiguousOrdinal (expected : option ReviewEventOrdinal).

(** [ReviewExternalLinkTransitionError], which retains the unchanged link *)
Record ReviewExternalLinkTransitionError := mkLinkError {
  link_error_current : ReviewExternalLink;
  link_error_failure : ReviewExternalLinkTransitionFailure;
}.

#[export] Instance ReviewExternalLinkAssociation_eq_dec : EqDecision ReviewExternalLinkAssociation.
Proof. solve_decision. Defined.
#[export] Instance ReviewExternalObjectKind_eq_dec : EqDecision ReviewExternalObjectKind.
Proof. solve_decision. Defined.

Definition association_target (self : ReviewExternalLinkAssociation) : ReviewTargetId :=
  match self with
  | AssociatedTarget target => target
  | AssociatedRun run => run_ref_target run
  | AssociatedFinding finding => finding_ref_target finding
  end.

(** ** The claims of a link *)

Definition link_claim_failure (self : ReviewExternalLink) (pass : ReviewPassEvidence)
    (run : ReviewRunEvidence) : option ReviewExternalLinkTransitionFailure :=
  let contradicts (prior : option (ReviewPassEvidence * ReviewRunEvidence)) :=
    match prior with
    | Some (prior_pass, prior_run) => negb (bool_decide (prior_pass = pass)) || negb (bool_decide (prior_run = run))
    | None => false
    end in
  if contradicts (link_pass_claims self !! pass_ref_pass (evidence_reference pass))
  then Some ConflictingPassEvidence else
  if contradicts (link_run_claims self !! run_ref_run (run_evidence_reference run))
  then Some ConflictingRunEvidence else None.

(** [BTreeMap::entry(..).or_insert(..)] *)
Definition entry_or_insert `{Countable K} {V} (key : K) (value : V) (m : gmap K V) : gmap K V :=
  match m !! key with Some _ => m | None => <[key := value]> m end.

Definition record_claim (self : ReviewExternalLink) (pass : ReviewPassEvidence) (run : ReviewRunEvidence) :
    ReviewExternalLink :=
  mkLink (link_id self) (link_association self) (link_provider self) (link_object_kind self)
    (link_attachment self) (link_observations self) (link_claims self)
    (entry_or_insert (pass_ref_pass (evidence_reference pass)) (pass, run) (link_pass_claims self))
    (entry_or_insert (run_ref_run (run_evidence_reference run)) (pass, run) (link_run_claims self)).

(** [claim.pass().pass()] *)
Definition claim_key (claim : ReviewExternalLinkClaim) : ReviewPassId :=
  pass_ref_pass (evidence_reference (claim_pass claim)).

(** [binary_search_by_key] in the vector, which is sorted by pass: nothing when
    the pass is found, an insertion where it belongs otherwise. *)
Fixpoint claim_inserted (claim : ReviewExternalLinkClaim) (claims : list ReviewExternalLinkClaim) :
    list ReviewExternalLinkClaim :=
  match claims with
  | [] => [claim]
  | existing :: rest =>
      match (ord_key (claim_key existing) ?= ord_key (claim_key claim))%N with
      | Eq => claims
      | Lt => existing :: claim_inserted claim rest
      | Gt => claim :: claims
      end
  end.

Definition record_durable_claim (self : ReviewExternalLink) (claim : ReviewExternalLinkClaim) :
    ReviewExternalLink :=
  let self := record_claim self (claim_pass claim) (claim_run claim) in
  mkLink (link_id self) (link_association self) (link_provider self) (link_object_kind self)
    (link_attachment self) (link_observations self) (claim_inserted claim (link_claims self))
    (link_pass_claims self) (link_run_claims self).

(** ** Transitions *)

Definition try_reserve (id : ReviewExternalLinkId) (association : ReviewExternalLinkAssociation)
    (provider : ReviewKey) (object_kind : ReviewExternalObjectKind) (target : ReviewTarget) :
    result ReviewExternalLinkTransitionFailure ReviewExternalLink :=
  if negb (bool_decide (association_target association = target_id target))
  then Err ForeignAssociationTarget else
  if negb (bool_decide (provider = target_provider target)) then Err LinkProviderMismatch else
  Ok (mkLink id association provider object_kind None [] [] ∅ ∅).

Definition publication_block_matches_link (pass : ReviewPassEvidence)
    (association : ReviewExternalLinkAssociation) (link : ReviewExternalLinkId) : bool :=
  match evidence_state pass with
  | PassBlocked _ (Some (PassPublicationBlocked result)) =>
      bool_decide (evidence_kind pass = KindPublish) && bool_decide (publication_blocked_link result = link)
  | PassBlocked _ (Some (PassFindingEvent event)) =>
      bool_decide (evidence_kind pass = KindPublish)
      && bool_decide (association = AssociatedFinding (result_finding event))
      && match result_kind event with
         | ResultBlocked _ (Some result_link) => bool_decide (result_link = link)
         | _ => false
         end
  | _ => false
  end.

Definition replay_claim (self : ReviewExternalLink) (claim : ReviewExternalLinkClaim) :
    result ReviewExternalLinkTransitionFailure ReviewExternalLink :=
  let pass := claim_pass claim in
  if negb (bool_decide (pass_ref_target (evidence_reference pass) = association_target (link_association self)))
  then Err ForeignPass else
  let publication_block :=
    bool_decide (evidence_kind pass = KindPublish)
    && match evidence_state pass with PassBlocked _ _ => true | _ => false end in
  if negb (run_evidence_matches_pass (claim_run claim) pass)
  then Err (if publication_block then IncompatiblePublicationBlockRunEvidence
            else IncompatibleObservationRunEvidence) else
  let compatible :=
    match evidence_state pass with
    | PassSucceeded _ _ (Some (PassLinkNoChange result)) =>
        bool_decide (evidence_kind pass = KindImport) && bool_decide (no_change_link result = link_id self)
        && bool_decide (is_Some (link_attachment self))
        && existsb (fun observation =>
             bool_decide (observation_ordinal observation = no_change_observed_through result)
             && bool_decide (observation_state observation = no_change_state result))
             (link_observations self)
    | PassBlocked _ (Some _) => publication_block_matches_link pass (link_association self) (link_id self)
    | _ => false
    end in
  if negb compatible
  then Err (if publication_block then IncompatiblePublicationBlockPass else IncompatibleObservationPass) else
  match link_claim_failure self pass (claim_run claim) with
  | Some failure => Err failure
  | None => Ok (record_durable_claim self claim)
  end.

(** The finding event of an attaching pass, as the link expects it. *)
Definition attachment_event_incompatible (self : ReviewExternalLink) (kind : ReviewPassKind)
    (event : ReviewFindingEventResult) : bool :=
  negb (bool_decide (link_association self = AssociatedFinding (result_finding event)))
  || negb match result_kind event with
          | ResultPosted link => bool_decide (link = link_id self)
          | _ => false
          end
  || negb match link_object_kind self with
          | ReviewObject | ReviewThreadObject | ReviewCommentObject | ChangeRequestCommentObject => true
          | _ => false
          end
  || negb (finding_event_result_matches_pass (result_kind event) kind TurnCompleted).

Definition attach (self : ReviewExternalLink) (attachment : ReviewExternalLinkAttachment) :
    result ReviewExternalLinkTransitionError ReviewExternalLink :=
  let reject failure := Err (mkLinkError self failure) in
  let evidence := attachment_pass_evidence attachment in
  if bool_decide (is_Some (link_attachment self)) then reject AlreadyAttached else
  if negb (bool_decide (attachment_link attachment = link_id self)) then reject ForeignAttachmentLink else
  if negb (bool_decide (attachment_pass attachment = evidence_reference evidence))
  then reject AttachmentPassEvidenceMismatch else
  if negb (bool_decide (pass_ref_target (attachment_pass attachment)
                        = association_target (link_association self)))
  then reject ForeignPass else
  if negb (run_evidence_matches_pass (attachment_run attachment) evidence)
  then reject IncompatibleAttachmentRunEvidence else
  match link_claim_failure self evidence (attachment_run attachment) with
  | Some failure => reject failure
  | None =>
      match evidence_state evidence with
      | PassSucceeded _ _ (Some (PassLinkAttachment result)) =>
          if negb match evidence_kind evidence with KindPublish | KindImport => true | _ => false end
             || negb (bool_decide (attachment_result_link result = link_id self))
             || negb (bool_decide (attachment_result_object result = attachment_object attachment))
             || match attachment_result_event result with
                | Some event => attachment_event_incompatible self (evidence_kind evidence) event
                | None => false
                end
          then reject IncompatibleAttachmentPass else
          let self := record_claim self evidence (attachment_run attachment) in
          Ok (mkLink (link_id self) (link_association self) (link_provider self) (link_object_kind self)
                (Some attachment) (link_observations self) (link_claims self) (link_pass_claims self)
                (link_run_claims self))
      | _ => reject IncompatibleAttachmentPass
      end
  end.

Definition observe (self : ReviewExternalLink) (observation : ReviewExternalLinkObservation) :
    result ReviewExternalLinkTransitionError ReviewExternalLink :=
  let reject failure := Err (mkLinkError self failure) in
  let evidence := observation_pass_evidence observation in
  if bool_decide (link_attachment self = None) then reject NotAttached else
  if negb (bool_decide (observation_link observation = link_id self)) then reject ForeignObservationLink else
  if negb (bool_decide (observation_pass observation = evidence_reference evidence))
  then reject ObservationPassEvidenceMismatch else
  if negb (bool_decide (pass_ref_target (observation_pass observation)
                        = association_target (link_association self)))
  then reject ForeignPass else
  if negb (run_evidence_matches_pass (observation_run observation) evidence)
  then reject IncompatibleObservationRunEvidence else
  if negb (bool_decide (evidence_kind evidence = KindImport))
     || negb match evidence_state evidence with
             | PassSucceeded _ _ (Some (PassLinkObservation result)) =>
                 bool_decide (observation_result_link result = link_id self)
                 && bool_decide (observation_result_ordinal result = observation_ordinal observation)
                 && bool_decide (observation_result_state result = observation_state observation)
             | _ => false
             end
  then reject IncompatibleObservationPass else
  if match last (link_observations self) with
     | Some previous => bool_decide (observation_state previous = observation_state observation)
     | None => false
     end
  then reject UnchangedObservation else
  let expected :=
    match last (link_observations self) with
    | Some previous => event_ordinal_checked_successor (observation_ordinal previous)
    | None => Some event_ordinal_one
    end in
  if negb (bool_decide (expected = Some (observation_ordinal observation)))
  then reject (NoncontiguousOrdinal expected) else
  match link_claim_failure self evidence (observation_run observation) with
  | Some failure => reject failure
  | None =>
      let self := record_claim self evidence (observation_run observation) in
      Ok (mkLink (link_id self) (link_association self) (link_provider self) (link_object_kind self)
            (link_attachment self) (link_observations self ++ [observation]) (link_claims self)
            (link_pass_claims self) (link_run_claims self))
  end.

Definition confirm_unchanged (self : ReviewExternalLink) (pass : ReviewPassEvidence) (run : ReviewRunEvidence) :
    result ReviewExternalLinkTransitionError ReviewExternalLink :=
  let reject failure := Err (mkLinkError self failure) in
  if bool_decide (link_attachment self = None) then reject NotAttached else
  if negb (bool_decide (pass_ref_target (evidence_reference pass) = association_target (link_association self)))
  then reject ForeignPass else
  if negb (run_evidence_matches_pass run pass) then reject IncompatibleObservationRunEvidence else
  match evidence_state pass with
  | PassSucceeded _ _ (Some (PassLinkNoChange result)) =>
      if negb (bool_decide (evidence_kind pass = KindImport))
         || negb (bool_decide (no_change_link result = link_id self))
         || match last (link_observations self) with
            | None => true
            | Some previous =>
                negb (bool_decide (observation_ordinal previous = no_change_observed_through result))
                || negb (bool_decide (observation_state previous = no_change_state result))
            end
      then reject IncompatibleObservationPass else
      match link_claim_failure self pass run with
      | Some failure => reject failure
      | None => Ok (record_durable_claim self (mkLinkClaim pass run))
      end
  | _ => reject IncompatibleObservationPass
  end.

Definition block_publication (self : ReviewExternalLink) (pass : ReviewPassEvidence) (run : ReviewRunEvidence) :
    result ReviewExternalLinkTransitionError ReviewExternalLink :=
  let reject failure := Err (mkLinkError self failure) in
  if bool_decide (is_Some (link_attachment self)) then reject AlreadyAttached else
  if negb (bool_decide (pass_ref_target (evidence_reference pass) = association_target (link_association self)))
  then reject ForeignPass else
  if negb (run_evidence_matches_pass run pass) then reject IncompatiblePublicationBlockRunEvidence else
  if negb (publication_block_matches_link pass (link_association self) (link_id self))
  then reject IncompatiblePublicationBlockPass else
  match link_claim_failure self pass run with
  | Some failure => reject failure
  | None => Ok (record_durable_claim self (mkLinkClaim pass run))
  end.

(** [ReviewExternalLink::try_reconstitute] *)
Definition link_try_reconstitute (id : ReviewExternalLinkId) (association : ReviewExternalLinkAssociation)
    (provider : ReviewKey) (object_kind : ReviewExternalObjectKind)
    (attachment : option ReviewExternalLinkAttachment) (observations : list ReviewExternalLinkObservation)
    (claims : list ReviewExternalLinkClaim) (target : ReviewTarget) :
    result ReviewExternalLinkTransitionFailure ReviewExternalLink :=
  link ← try_reserve id association provider object_kind target;
  link ← match attachment with
         | Some attachment => map_err link_error_failure (attach link attachment)
         | None => Ok link
         end;
  link ← try_fold (fun link observation => map_err link_error_failure (observe link observation))
    observations link;
  try_fold replay_claim claims link.

(** ** Objects claimed by targets *)

Record ReviewExternalObjectClaim := mkObjectClaim {
  object_claim_target : ReviewTargetId;
  object_claim_provider : ReviewKey;
  object_claim_repository : ReviewKey;
  object_claim_subject : ReviewTargetSubject;
  object_claim_kind : ReviewExternalObjectKind;
  object_claim_object : ReviewKey;
}.

Inductive ReviewExternalObjectClaimError :=
| ObjectForeignTarget | ObjectProviderMismatch | ObjectNotAttached | DifferentObject | SameTarget
| UnrelatedTarget.

Definition object_claim_try_new (link : ReviewExternalLink) (target : ReviewTarget) :
    result ReviewExternalObjectClaimError ReviewExternalObjectClaim :=
  if negb (bool_decide (association_target (link_association link) = target_id target))
  then Err ObjectForeignTarget else
  if negb (bool_decide (link_provider link = target_provider target)) then Err ObjectProviderMismatch else
  match link_attachment link with
  | None => Err ObjectNotAttached
  | Some attachment =>
      Ok (mkObjectClaim (target_id target) (target_provider target) (target_repository target)
            (target_subject target) (link_object_kind link) (attachment_object attachment))
  end.

Definition validate_reassociation (self candidate : ReviewExternalObjectClaim) :
    result ReviewExternalObjectClaimError unit :=
  if negb (bool_decide (object_claim_provider self = object_claim_provider candidate))
     || negb (bool_decide (object_claim_kind self = object_claim_kind candidate))
     || negb (bool_decide (object_claim_object self = object_claim_object candidate))
  then Err DifferentObject else
  if bool_decide (object_claim_target self = object_claim_target candidate) then Err SameTarget else
  let same_change_request :=
    match object_claim_subject self, object_claim_subject candidate with
    | SubjectChangeRequest existing, SubjectChangeRequest candidate => bool_decide (existing = candidate)
    | _, _ => false
    end in
  if negb (bool_decide (object_claim_repository self = object_claim_repository candidate))
     || negb same_change_request
  then Err UnrelatedTarget else Ok tt.
