(* ===== verification/ReviewLinkSpec.v ===== *)
(** * Review external links: histories

    The stored attachment, observations and claims of a link that
    reconstitution accepts are those some history of its transitions leaves
    behind, and every pass and run is evidence in at most one of them. *)

From stdpp Require Import gmap strings.
From S2P Require Import Prelude Tool RunnerNames ReviewValues ReviewTarget ReviewPass ReviewLink.

Local Open Scope list_scope.

(** ** Evidence of a link *)

(** A pass and the run it concluded. *)
Abbreviation evidence_pair := (ReviewPassEvidence * ReviewRunEvidence)%type.

Definition pair_pass (e : evidence_pair) : ReviewPassId := pass_ref_pass (evidence_reference e.1).
Definition pair_run (e : evidence_pair) : ReviewRunId := run_ref_run (run_evidence_reference e.2).

Definition attachment_pair (a : ReviewExternalLinkAttachment) : evidence_pair :=
  (attachment_pass_evidence a, attachment_run a).
Definition observation_pair (o : ReviewExternalLinkObservation) : evidence_pair :=
  (observation_pass_evidence o, observation_run o).
Definition claim_pair (c : ReviewExternalLinkClaim) : evidence_pair := (claim_pass c, claim_run c).

Definition link_evidence (link : ReviewExternalLink) : list evidence_pair :=
  option_list (attachment_pair <$> link_attachment link)
  ++ (observation_pair <$> link_observations link) ++ (claim_pair <$> link_claims link).

(** The evidence shares a pass or a run with no other of the list. *)
Definition agrees (known : list evidence_pair) (e : evidence_pair) : Prop :=
  forall x, x ∈ known -> pair_pass x = pair_pass e \/ pair_run x = pair_run e -> x = e.

Definition consistent (known : list evidence_pair) : Prop := forall e, e ∈ known -> agrees known e.

(** A map indexes evidence by a key. *)
Definition evidence_indexes `{Countable K} (key : evidence_pair -> K) (m : gmap K evidence_pair)
    (known : list evidence_pair) : Prop :=
  forall k e, m !! k = Some e <-> e ∈ known /\ key e = k.

Lemma indexes_insert `{Countable K} (key : evidence_pair -> K) m known known' e :
  evidence_indexes key m known -> (forall x, x ∈ known' <-> x = e \/ x ∈ known) ->
  (forall x, x ∈ known -> key x = key e -> x = e) ->
  evidence_indexes key (entry_or_insert (key e) e m) known'.
Proof.
  intros Hm Hknown Hagrees k x. rewrite Hknown. unfold entry_or_insert.
  destruct (m !! key e) as [y|] eqn:Hy.
  - apply Hm in Hy as [Hy Hkey]. rewrite (Hm k x). rewrite (Hagrees _ Hy Hkey) in Hy. naive_solver.
  - destruct (decide (k = key e)) as [->|Hne].
    + rewrite lookup_insert_eq. split; [naive_solver|]. intros [[->|Hx] Hkey]; [done|].
      f_equal. symmetry. by apply Hagrees.
    + rewrite lookup_insert_ne by done. rewrite (Hm k x). naive_solver.
Qed.

Lemma indexes_unique `{Countable K} (key : evidence_pair -> K) m1 m2 known1 known2 :
  evidence_indexes key m1 known1 -> evidence_indexes key m2 known2 -> (forall x, x ∈ known1 <-> x ∈ known2) -> m1 = m2.
Proof.
  intros H1 H2 Hknown. apply map_eq. intros k. apply option_eq. intros x.
  rewrite (H1 k x), (H2 k x). by rewrite Hknown.
Qed.

(** What the maps and the sorted claims of a link keep. *)
Record link_ok (link : ReviewExternalLink) : Prop := {
  ok_consistent : consistent (link_evidence link);
  ok_passes : evidence_indexes pair_pass (link_pass_claims link) (link_evidence link);
  ok_runs : evidence_indexes pair_run (link_run_claims link) (link_evidence link);
  ok_claims : ascending claim_key (link_claims link);
}.

Lemma link_claim_failure_None link pass run :
  link_ok link -> link_claim_failure link pass run = None <-> agrees (link_evidence link) (pass, run).
Proof.
  intros [_ Hpasses Hruns _]. unfold link_claim_failure, agrees.
  assert (forall (prior : option evidence_pair),
    match prior with
    | Some (prior_pass, prior_run) => negb (bool_decide (prior_pass = pass)) || negb (bool_decide (prior_run = run))
    | None => false
    end = false <-> forall x, prior = Some x -> x = (pass, run)) as Hprior.
  { intros [[prior_pass prior_run]|]; [|done]. rewrite orb_false_iff, !negb_false_iff, !bool_decide_eq_true.
    split; [by intros [-> ->] x [= <-]|]. intros Hx. by injection (Hx _ eq_refl) as -> ->. }
  pose proof (Hprior (link_pass_claims link !! pair_pass (pass, run))) as Hp.
  pose proof (Hprior (link_run_claims link !! pair_run (pass, run))) as Hr.
  unfold pair_pass, pair_run in Hp, Hr. cbn [fst snd] in Hp, Hr.
  setoid_rewrite (Hpasses (pass_ref_pass (evidence_reference pass))) in Hp.
  setoid_rewrite (Hruns (run_ref_run (run_evidence_reference run))) in Hr.
  destruct (match link_pass_claims link !! _ with Some _ => _ | None => _ end).
  { split; [done|]. intros Hagrees. assert (true = false) by (apply Hp; intros x [Hx Hk]; apply Hagrees; [done|by left]).
    done. }
  destruct (match link_run_claims link !! _ with Some _ => _ | None => _ end).
  { split; [done|]. intros Hagrees. assert (true = false) by (apply Hr; intros x [Hx Hk]; apply Hagrees; [done|by right]).
    done. }
  split; [|done]. intros _ x Hx [Hk|Hk]; [by apply Hp|by apply Hr].
Qed.

Lemma consistent_insert known known' e :
  consistent known -> agrees known e -> (forall x, x ∈ known' <-> x = e \/ x ∈ known) -> consistent known'.
Proof.
  intros Hknown He Heq x Hx y Hy Hkey. apply Heq in Hx as [->|Hx], Hy as [->|Hy].
  - done.
  - by apply He.
  - symmetry. apply He; [done|]. naive_solver.
  - by apply (Hknown x).
Qed.

(** A claim that agrees with those recorded. *)
Definition claim_agrees (claims : list ReviewExternalLinkClaim) (claim : ReviewExternalLinkClaim) : Prop :=
  forall other, other ∈ claims -> claim_key other = claim_key claim -> other = claim.

Lemma elem_of_claim_inserted claim claims x :
  claim_agrees claims claim -> x ∈ claim_inserted claim claims <-> x = claim \/ x ∈ claims.
Proof.
  intros Hagrees. induction claims as [|existing rest IH]; simpl; [set_solver|].
  assert (claim_agrees rest claim) as Hrest by (intros ? ?; apply Hagrees; by right).
  destruct (N.compare_spec (ord_key (claim_key existing)) (ord_key (claim_key claim))) as [Heq| |].
  - apply (inj ord_key) in Heq. rewrite (Hagrees existing) by (done || left). set_solver.
  - rewrite elem_of_cons, IH, elem_of_cons by done. tauto.
  - set_solver.
Qed.

Lemma claim_inserted_ascending claim claims :
  claim_agrees claims claim -> ascending claim_key claims -> ascending claim_key (claim_inserted claim claims).
Proof.
  intros Hagrees Hsorted. unfold ascending in *.
  induction Hsorted as [|existing rest Hsorted IH Hall]; simpl; [by repeat constructor|].
  assert (claim_agrees rest claim) as Hrest by (intros ? ?; apply Hagrees; by right).
  destruct (N.compare_spec (ord_key (claim_key existing)) (ord_key (claim_key claim))) as [Heq|Hlt|Hlt].
  - by constructor.
  - constructor; [by apply IH|]. rewrite Forall_forall in Hall |- *.
    intros x [->|Hx]%elem_of_claim_inserted; [done|by apply Hall|done].
  - constructor; [by constructor|]. constructor; [done|].
    eapply Forall_impl; [exact Hall|]. intros x. unfold key_lt. lia.
Qed.

(** ** Transitions *)

(** What of a link never changes. *)
Definition reservation (link : ReviewExternalLink) : ReviewExternalLink :=
  mkLink (link_id link) (link_association link) (link_provider link) (link_object_kind link) None [] [] ∅ ∅.

Definition attachment_fits (link : ReviewExternalLink) (a : ReviewExternalLinkAttachment) : Prop :=
  let evidence := attachment_pass_evidence a in
  attachment_link a = link_id link /\ attachment_pass a = evidence_reference evidence
  /\ pass_ref_target (attachment_pass a) = association_target (link_association link)
  /\ run_evidence_matches_pass (attachment_run a) evidence = true
  /\ exists turn frontier outcome,
       evidence_state evidence = PassSucceeded turn frontier (Some (PassLinkAttachment outcome))
       /\ (evidence_kind evidence = KindPublish \/ evidence_kind evidence = KindImport)
       /\ attachment_result_link outcome = link_id link /\ attachment_result_object outcome = attachment_object a
       /\ forall event, attachment_result_event outcome = Some event ->
            attachment_event_incompatible link (evidence_kind evidence) event = false.

Definition observation_fits (link : ReviewExternalLink) (o : ReviewExternalLinkObservation) : Prop :=
  let evidence := observation_pass_evidence o in
  observation_link o = link_id link /\ observation_pass o = evidence_reference evidence
  /\ pass_ref_target (observation_pass o) = association_target (link_association link)
  /\ run_evidence_matches_pass (observation_run o) evidence = true
  /\ evidence_kind evidence = KindImport
  /\ exists turn frontier outcome,
       evidence_state evidence = PassSucceeded turn frontier (Some (PassLinkObservation outcome))
       /\ observation_result_link outcome = link_id link
       /\ observation_result_ordinal outcome = observation_ordinal o
       /\ observation_result_state outcome = observation_state o.

(** An observation follows the earlier ones. *)
Definition observation_follows (earlier : list ReviewExternalLinkObservation) (o : ReviewExternalLinkObservation) :
    Prop :=
  match last earlier with
  | Some previous => observation_state previous <> observation_state o
      /\ event_ordinal_checked_successor (observation_ordinal previous) = Some (observation_ordinal o)
  | None => observation_ordinal o = event_ordinal_one
  end.

Definition claim_on_target (link : ReviewExternalLink) (c : ReviewExternalLinkClaim) : Prop :=
  pass_ref_target (evidence_reference (claim_pass c)) = association_target (link_association link)
  /\ run_evidence_matches_pass (claim_run c) (claim_pass c) = true.

Definition block_fits (link : ReviewExternalLink) (c : ReviewExternalLinkClaim) : Prop :=
  claim_on_target link c
  /\ publication_block_matches_link (claim_pass c) (link_association link) (link_id link) = true.

(** The claim reports that nothing changed since an observation. *)
Definition no_change_fits (link : ReviewExternalLink) (c : ReviewExternalLinkClaim)
    (o : ReviewExternalLinkObservation) : Prop :=
  claim_on_target link c /\ evidence_kind (claim_pass c) = KindImport
  /\ exists turn frontier outcome,
       evidence_state (claim_pass c) = PassSucceeded turn frontier (Some (PassLinkNoChange outcome))
       /\ no_change_link outcome = link_id link
       /\ observation_ordinal o = no_change_observed_through outcome
       /\ observation_state o = no_change_state outcome.

Definition claim_fits (link : ReviewExternalLink) (c : ReviewExternalLinkClaim) : Prop :=
  block_fits link c
  \/ is_Some (link_attachment link) /\ exists o, o ∈ link_observations link /\ no_change_fits link c o.

Definition attached (link : ReviewExternalLink) (a : ReviewExternalLinkAttachment) : ReviewExternalLink :=
  let next := record_claim link (attachment_pass_evidence a) (attachment_run a) in
  mkLink (link_id next) (link_association next) (link_provider next) (link_object_kind next)
    (Some a) (link_observations next) (link_claims next) (link_pass_claims next) (link_run_claims next).

Definition observed (link : ReviewExternalLink) (o : ReviewExternalLinkObservation) : ReviewExternalLink :=
  let next := record_claim link (observation_pass_evidence o) (observation_run o) in
  mkLink (link_id next) (link_association next) (link_provider next) (link_object_kind next)
    (link_attachment next) (link_observations next ++ [o]) (link_claims next) (link_pass_claims next)
    (link_run_claims next).

Lemma attach_Ok link a link' :
  link_ok link ->
  attach link a = Ok link' <->
  link_attachment link = None /\ attachment_fits link a /\ agrees (link_evidence link) (attachment_pair a)
  /\ link' = attached link a.
Proof.
  intros Hok. unfold attach, attachment_fits, attached, attachment_pair.
  pose proof (link_claim_failure_None link (attachment_pass_evidence a) (attachment_run a) Hok) as Hagrees.
  destruct (link_attachment link); [by simpl; naive_solver|]. rewrite bool_decide_false by by intros [].
  destruct (bool_decide_reflect (attachment_link a = link_id link)); simpl; [|naive_solver].
  destruct (bool_decide_reflect (attachment_pass a = evidence_reference (attachment_pass_evidence a)));
    simpl; [|naive_solver].
  case_bool_decide; simpl; [|naive_solver].
  destruct (run_evidence_matches_pass _ _) eqn:Hmatch; simpl; [|naive_solver].
  destruct (link_claim_failure _ _ _) eqn:Hfailure.
  { split; [done|]. intros (_ & _ & Ha & _). apply Hagrees in Ha. congruence. }
  destruct (evidence_state (attachment_pass_evidence a)) as [| |turn frontier [[]|]| | |] eqn:Hstate;
    try (split; [done|naive_solver]).
  rename attachment into outcome. rewrite if_false_Ok, !orb_false_iff, !negb_false_iff, !bool_decide_eq_true.
  split.
  - intros ((((Hkind & Hlink) & Hobject) & Hevent) & [= <-]). split_and!; try done.
    + exists turn, frontier, outcome. split_and!; try done.
      * destruct (evidence_kind _); naive_solver.
      * intros event He. by rewrite He in Hevent.
    + by apply Hagrees.
  - intros (_ & (_ & _ & _ & _ & ? & ? & outcome' & [= <- <- <-] & Hkind & Hlink & Hobject & Hevent) & _ & ->).
    split; [|done]. split_and!; try done.
    + by destruct Hkind as [-> | ->].
    + destruct (attachment_result_event outcome); [by apply Hevent|done].
Qed.

Lemma observe_Ok link o link' :
  link_ok link ->
  observe link o = Ok link' <->
  is_Some (link_attachment link) /\ observation_fits link o /\ observation_follows (link_observations link) o
  /\ agrees (link_evidence link) (observation_pair o) /\ link' = observed link o.
Proof.
  intros Hok. unfold observe, observation_fits, observation_follows, observation_pair. cbv zeta.
  match goal with |- context [Ok (mkLink ?a ?b ?c ?d ?e ?f ?g ?h ?i)] =>
    change (mkLink a b c d e f g h i) with (observed link o) end.
  pose proof (link_claim_failure_None link (observation_pass_evidence o) (observation_run o) Hok) as Hagrees.
  destruct (link_attachment link); [|by simpl; split; [done|intros [[] _]]].
  rewrite bool_decide_false by done.
  destruct (bool_decide_reflect (observation_link o = link_id link)); simpl; [|naive_solver].
  destruct (bool_decide_reflect (observation_pass o = evidence_reference (observation_pass_evidence o)));
    simpl; [|naive_solver].
  case_bool_decide; simpl; [|naive_solver].
  destruct (run_evidence_matches_pass _ _) eqn:Hmatch; simpl; [|naive_solver].
  case_bool_decide as Hkind; cbn [negb orb]; [|naive_solver].
  destruct (evidence_state (observation_pass_evidence o)) as [| |turn frontier [[]|]| | |] eqn:Hstate;
    try (split; [done|naive_solver]).
  rename observation into outcome.
  destruct (bool_decide_reflect (observation_result_link outcome = link_id link)); simpl; [|naive_solver].
  destruct (bool_decide_reflect (observation_result_ordinal outcome = observation_ordinal o)); simpl; [|naive_solver].
  destruct (bool_decide_reflect (observation_result_state outcome = observation_state o)); simpl; [|naive_solver].
  rewrite if_false_Ok, if_negb_Ok.
  assert (match link_claim_failure link (observation_pass_evidence o) (observation_run o) with
          | Some failure => Err (mkLinkError link failure)
          | None => Ok (observed link o)
          end = Ok link' <-> agrees (link_evidence link) (observation_pair o) /\ link' = observed link o) as Hlast.
  { destruct (link_claim_failure _ _ _); [split; [done|]; intros [Ha _]; by apply Hagrees in Ha|].
    split; [intros [= <-]; split; [by apply Hagrees|done]|by intros [_ ->]]. }
  unfold observation_pair in Hlast. rewrite Hlast.
  destruct (last (link_observations link)) as [previous|]; rewrite ?bool_decide_eq_false.
  - split; [intros (? & ? & ? & ?); split_and!; try done; by exists turn, frontier, outcome|].
    by intros (_ & _ & [? ?] & ? & ?).
  - split; [|by intros (_ & _ & -> & ? & ?)]. intros (_ & [= Hone] & ? & ?).
    split_and!; try done. by exists turn, frontier, outcome.
Qed.

Lemma recorded_Ok {E} link c link' (reject : ReviewExternalLinkTransitionFailure -> E) :
  link_ok link ->
  match link_claim_failure link (claim_pass c) (claim_run c) with
  | Some failure => Err (reject failure)
  | None => Ok (record_durable_claim link c)
  end = Ok link' <->
  agrees (link_evidence link) (claim_pair c) /\ link' = record_durable_claim link c.
Proof.
  intros Hok. pose proof (link_claim_failure_None link (claim_pass c) (claim_run c) Hok) as Hagrees.
  unfold claim_pair. destruct (link_claim_failure _ _ _).
  - split; [done|]. intros [Ha _]. by apply Hagrees in Ha.
  - split; [|by intros [_ ->]]. intros [= <-]. split; [by apply Hagrees|done].
Qed.

Lemma block_publication_Ok link c link' :
  link_ok link ->
  block_publication link (claim_pass c) (claim_run c) = Ok link' <->
  link_attachment link = None /\ block_fits link c /\ agrees (link_evidence link) (claim_pair c)
  /\ link' = record_durable_claim link c.
Proof.
  intros Hok. unfold block_publication, block_fits, claim_on_target. destruct c as [pass run]; simpl in *.
  pose proof (recorded_Ok link (mkLinkClaim pass run) link' (mkLinkError link) Hok) as Hlast. simpl in Hlast.
  destruct (link_attachment link); [by simpl; naive_solver|]. rewrite bool_decide_false by by intros [].
  case_bool_decide; simpl; [|naive_solver].
  destruct (run_evidence_matches_pass _ _); simpl; [|naive_solver].
  destruct (publication_block_matches_link _ _ _); simpl; [|naive_solver]. rewrite Hlast. naive_solver.
Qed.

Lemma confirm_unchanged_Ok link c link' :
  link_ok link ->
  confirm_unchanged link (claim_pass c) (claim_run c) = Ok link' <->
  is_Some (link_attachment link)
  /\ (exists o, last (link_observations link) = Some o /\ no_change_fits link c o)
  /\ agrees (link_evidence link) (claim_pair c) /\ link' = record_durable_claim link c.
Proof.
  intros Hok. unfold confirm_unchanged, no_change_fits, claim_on_target. destruct c as [pass run]; simpl in *.
  pose proof (recorded_Ok link (mkLinkClaim pass run) link' (mkLinkError link) Hok) as Hlast. simpl in Hlast.
  destruct (link_attachment link); [|by simpl; split; [done|intros [[] _]]].
  rewrite bool_decide_false by done.
  case_bool_decide; simpl; [|naive_solver].
  destruct (run_evidence_matches_pass _ _); simpl; [|naive_solver].
  destruct (evidence_state pass) as [| |turn frontier [[]|]| | |] eqn:Hstate; try (split; [done|naive_solver]).
  rename no_change into outcome.
  case_bool_decide; simpl; [|naive_solver]. case_bool_decide; simpl; [|naive_solver].
  destruct (last (link_observations link)) as [previous|]; simpl; [|naive_solver].
  case_bool_decide; simpl; [|naive_solver]. case_bool_decide; simpl; [|naive_solver].
  rewrite Hlast. split; [|naive_solver]. intros [? ->]. split_and!; try done.
  exists previous. split_and!; try done. by exists turn, frontier, outcome.
Qed.

Lemma replay_claim_Ok link c link' :
  link_ok link ->
  replay_claim link c = Ok link' <->
  claim_fits link c /\ agrees (link_evidence link) (claim_pair c) /\ link' = record_durable_claim link c.
Proof.
  intros Hok. unfold replay_claim, claim_fits, block_fits, no_change_fits, claim_on_target. cbv zeta.
  pose proof (recorded_Ok link c link' id Hok) as Hlast. unfold id in Hlast.
  case_bool_decide as Htarget; cbn [negb]; [|split; [done|naive_solver]].
  destruct (run_evidence_matches_pass _ _) eqn:Hmatch; cbn [negb]; [|split; [done|naive_solver]].
  match goal with |- (if negb ?b then _ else _) = _ <-> ?P /\ _ => assert (b = true <-> P) as Hfit end.
  2: { destruct (match evidence_state (claim_pass c) with PassSucceeded _ _ _ => _ | _ => _ end); cbn [negb].
       - rewrite Hlast. naive_solver.
       - split; [done|]. intros [Hclaim _]. by apply Hfit in Hclaim. }
  unfold publication_block_matches_link.
  destruct (evidence_state (claim_pass c)) as [| |turn frontier [[]|]| |turn [result|]|] eqn:Hstate;
    try (split; [done|naive_solver]).
  - rename no_change into outcome. rewrite !andb_true_iff, !bool_decide_eq_true.
    assert (forall o, bool_decide (observation_ordinal o = no_change_observed_through outcome)
      && bool_decide (observation_state o = no_change_state outcome) = true <->
      observation_ordinal o = no_change_observed_through outcome /\ observation_state o = no_change_state outcome) as Ho.
    { intros o. by rewrite andb_true_iff, !bool_decide_eq_true. }
    rewrite existsb_exists. setoid_rewrite Ho. setoid_rewrite <- list_elem_of_In. split.
    + intros (((Hkind & Hlink) & Hattached) & o & Hin & Hord & Hobserved). right. split; [done|].
      exists o. split; [done|]. split; [done|]. split; [done|]. by exists turn, frontier, outcome.
    + intros [[_ ?]|(Hattached & o & Hin & _ & Hkind & ? & ? & ? & [= <- <- <-] & Hlink & Hord & Hobserved)]; [done|].
      split; [done|]. by exists o.
  - split; [by left|]. intros [[_ ?]|(_ & o & _ & _ & _ & ? & ? & ? & ? & _)]; done.
Qed.

(** ** What transitions keep *)

Lemma link_ok_step link link' e :
  link_ok link -> agrees (link_evidence link) e ->
  (forall x, x ∈ link_evidence link' <-> x = e \/ x ∈ link_evidence link) ->
  link_pass_claims link' = entry_or_insert (pair_pass e) e (link_pass_claims link) ->
  link_run_claims link' = entry_or_insert (pair_run e) e (link_run_claims link) ->
  ascending claim_key (link_claims link') -> link_ok link'.
Proof.
  intros [Hconsistent Hpasses Hruns _] Hagrees Heq Hpass Hrun Hsorted. constructor; [..|done].
  - by eapply consistent_insert.
  - rewrite Hpass. eapply indexes_insert; [done|done|]. intros x Hx Hk. apply Hagrees; [done|by left].
  - rewrite Hrun. eapply indexes_insert; [done|done|]. intros x Hx Hk. apply Hagrees; [done|by right].
Qed.

Lemma attached_ok link a :
  link_ok link -> link_attachment link = None -> agrees (link_evidence link) (attachment_pair a) ->
  link_ok (attached link a).
Proof.
  intros Hok Hnone Hagrees. apply (link_ok_step link _ (attachment_pair a)); try done; [|apply Hok].
  intros x. unfold link_evidence. simpl. rewrite Hnone. set_solver.
Qed.

Lemma observed_ok link o :
  link_ok link -> agrees (link_evidence link) (observation_pair o) -> link_ok (observed link o).
Proof.
  intros Hok Hagrees. apply (link_ok_step link _ (observation_pair o)); try done; [|apply Hok].
  intros x. unfold link_evidence. simpl. rewrite fmap_app. set_solver.
Qed.

Lemma agrees_claim link c :
  agrees (link_evidence link) (claim_pair c) -> claim_agrees (link_claims link) c.
Proof.
  intros Hagrees other Hother Hkey. assert (claim_pair other = claim_pair c) as [= ? ?].
  { apply Hagrees; [|by left]. unfold link_evidence. rewrite !elem_of_app, !list_elem_of_fmap. eauto. }
  destruct other, c; simpl in *; congruence.
Qed.

Lemma elem_of_link_claims link c x :
  agrees (link_evidence link) (claim_pair c) ->
  x ∈ link_claims (record_durable_claim link c) <-> x = c \/ x ∈ link_claims link.
Proof. intros Hagrees. simpl. by apply elem_of_claim_inserted, agrees_claim. Qed.

Lemma claimed_ok link c :
  link_ok link -> agrees (link_evidence link) (claim_pair c) -> link_ok (record_durable_claim link c).
Proof.
  intros Hok Hagrees. apply (link_ok_step link _ (claim_pair c)); try done.
  - intros x. unfold link_evidence. rewrite !elem_of_app, !list_elem_of_fmap. simpl.
    setoid_rewrite elem_of_claim_inserted; [|by apply agrees_claim]. naive_solver.
  - simpl. apply claim_inserted_ascending; [by apply agrees_claim|apply Hok].
Qed.

(** Links are determined by their reservation, attachment, observations and
    set of claims. *)
Lemma link_unique link1 link2 :
  link_ok link1 -> link_ok link2 -> reservation link1 = reservation link2 ->
  link_attachment link1 = link_attachment link2 -> link_observations link1 = link_observations link2 ->
  (forall c, c ∈ link_claims link1 <-> c ∈ link_claims link2) -> link1 = link2.
Proof.
  intros [_ Hp1 Hr1 Hc1] [_ Hp2 Hr2 Hc2] [= Hid Hassoc Hprovider Hkind] Hattachment Hobservations Hclaims.
  assert (link_claims link1 = link_claims link2) as Heq.
  { apply (ascending_unique claim_key); [done|done|]. apply NoDup_Permutation; [..|done].
    - by apply (NoDup_fmap_1 claim_key), ascending_NoDup.
    - by apply (NoDup_fmap_1 claim_key), ascending_NoDup. }
  assert (link_evidence link1 = link_evidence link2) as Hevidence
    by (unfold link_evidence; by rewrite Hattachment, Hobservations, Heq).
  assert (link_pass_claims link1 = link_pass_claims link2)
    by (eapply indexes_unique; [done|done|]; intros x; by rewrite Hevidence).
  assert (link_run_claims link1 = link_run_claims link2)
    by (eapply indexes_unique; [done|done|]; intros x; by rewrite Hevidence).
  destruct link1, link2; simpl in *; congruence.
Qed.

(** A valid link: its parts fit one another and the target. *)
Record link_valid (target : ReviewTarget) (link : ReviewExternalLink) : Prop := {
  valid_reserved : try_reserve (link_id link) (link_association link) (link_provider link) (link_object_kind link)
    target = Ok (reservation link);
  valid_attachment : forall a, link_attachment link = Some a -> attachment_fits link a;
  valid_attached : link_attachment link = None -> link_observations link = [];
  valid_observations : checked observation_follows (link_observations link);
  valid_observed : forall o, o ∈ link_observations link -> observation_fits link o;
  valid_claims : forall c, c ∈ link_claims link -> claim_fits link c;
  valid_ok : link_ok link;
}.

(** The links reached from a reservation for the target. *)
Inductive link_history (target : ReviewTarget) : ReviewExternalLink -> Prop :=
| link_reserved id association provider kind link :
    try_reserve id association provider kind target = Ok link -> link_history target link
| link_attached link a link' : link_history target link -> attach link a = Ok link' -> link_history target link'
| link_observed link o link' : link_history target link -> observe link o = Ok link' -> link_history target link'
| link_confirmed link pass run link' :
    link_history target link -> confirm_unchanged link pass run = Ok link' -> link_history target link'
| link_blocked link pass run link' :
    link_history target link -> block_publication link pass run = Ok link' -> link_history target link'.

Lemma reserved_valid target id association provider kind link :
  try_reserve id association provider kind target = Ok link ->
  link = reservation link /\ link_valid target link /\ link_id link = id /\ link_association link = association
  /\ link_provider link = provider /\ link_object_kind link = kind.
Proof.
  intros Hnew. pose proof Hnew as Hlink. unfold try_reserve in Hlink.
  apply if_negb_Ok in Hlink as [_ Hlink]. apply if_negb_Ok in Hlink as [_ [= <-]].
  split; [done|]. split; [|done]. constructor; try done.
  - by intros [|? ?] ? ? ?.
  - by intros ? ?%elem_of_nil.
  - by intros ? ?%elem_of_nil.
  - constructor; [by intros ? ?%elem_of_nil|..|by constructor].
    + intros k e. simpl. rewrite lookup_empty. split; [done|by intros [?%elem_of_nil _]].
    + intros k e. simpl. rewrite lookup_empty. split; [done|by intros [?%elem_of_nil _]].
Qed.

Lemma attached_valid target link a :
  link_valid target link -> link_attachment link = None -> attachment_fits link a ->
  agrees (link_evidence link) (attachment_pair a) -> link_valid target (attached link a).
Proof.
  intros [Hnew Ha Hnone Hobs Hfits Hclaims Hok] Hno Hfit Hagrees. constructor; try done.
  - by intros ? [= <-].
  - intros c Hc. destruct (Hclaims c Hc) as [?|[[] _]]; [by left|congruence].
  - by apply attached_ok.
Qed.

Lemma observed_valid target link o :
  link_valid target link -> is_Some (link_attachment link) -> observation_fits link o ->
  observation_follows (link_observations link) o ->
  agrees (link_evidence link) (observation_pair o) -> link_valid target (observed link o).
Proof.
  intros [Hnew Ha Hnone Hobs Hfits Hclaims Hok] [a Hsome] Hfit Hfollows Hagrees. constructor; try done.
  - simpl. congruence.
  - by apply checked_snoc.
  - intros x. simpl. rewrite elem_of_app, list_elem_of_singleton. intros [Hx| ->]; [by apply Hfits|done].
  - intros c Hc. destruct (Hclaims c Hc) as [?|(? & x & Hx & ?)]; [by left|right]. split; [done|].
    exists x. split; [|done]. simpl. apply elem_of_app. by left.
  - by apply observed_ok.
Qed.

Lemma claimed_valid target link c :
  link_valid target link -> claim_fits link c -> agrees (link_evidence link) (claim_pair c) ->
  link_valid target (record_durable_claim link c).
Proof.
  intros [Hnew Ha Hnone Hobs Hfits Hclaims Hok] Hfit Hagrees. constructor; try done.
  - intros x Hx. apply elem_of_link_claims in Hx as [->|Hx]; [done|by apply Hclaims|done].
  - by apply claimed_ok.
Qed.

Lemma link_history_valid target link : link_history target link -> link_valid target link.
Proof.
  induction 1 as [id association provider kind link Hnew|link a link' _ IH Hstep|link o link' _ IH Hstep
    |link pass run link' _ IH Hstep|link pass run link' _ IH Hstep].
  - by apply reserved_valid in Hnew as (_ & Hvalid & _).
  - apply attach_Ok in Hstep as (Hnone & Hfit & Hagrees & ->); [by apply attached_valid|apply IH].
  - apply observe_Ok in Hstep as (Hsome & Hfit & Hfollows & Hagrees & ->); [by apply observed_valid|apply IH].
  - apply (confirm_unchanged_Ok link (mkLinkClaim pass run)) in Hstep as (Hsome & (o & Hlast & Hfit) & Hagrees & ->);
      [|apply IH]. apply claimed_valid; [done| |done]. right. split; [done|]. exists o.
    split; [by eapply last_Some_elem_of|done].
  - apply (block_publication_Ok link (mkLinkClaim pass run)) in Hstep as (Hnone & Hfit & Hagrees & ->); [|apply IH].
    apply claimed_valid; [done|by left|done].
Qed.

(** ** Reconstitution *)

Lemma observe_all_Ok target observations link link' :
  link_valid target link ->
  try_fold (fun link o => map_err link_error_failure (observe link o)) observations link = Ok link' ->
  link_valid target link' /\ reservation link' = reservation link
  /\ link_attachment link' = link_attachment link /\ link_claims link' = link_claims link
  /\ link_observations link' = link_observations link ++ observations.
Proof.
  revert link. induction observations as [|o rest IH]; intros link Hvalid; simpl.
  - intros [= <-]. by rewrite app_nil_r.
  - intros (next & Hnext & Hrest)%bind_Ok. apply map_err_Ok, observe_Ok in Hnext as (? & ? & ? & ? & ->); [|apply Hvalid].
    apply IH in Hrest as (? & -> & -> & -> & ->); [|by apply observed_valid].
    simpl. by rewrite <- app_assoc.
Qed.

Lemma replay_all_Ok target claims link link' :
  link_valid target link -> try_fold replay_claim claims link = Ok link' ->
  link_valid target link' /\ reservation link' = reservation link
  /\ link_attachment link' = link_attachment link /\ link_observations link' = link_observations link
  /\ forall c, c ∈ link_claims link' <-> c ∈ claims \/ c ∈ link_claims link.
Proof.
  revert link. induction claims as [|c rest IH]; intros link Hvalid; simpl.
  - intros [= <-]. set_solver.
  - intros (next & Hnext & Hrest)%bind_Ok. apply replay_claim_Ok in Hnext as (? & Hagrees & ->); [|apply Hvalid].
    apply IH in Hrest as (? & -> & -> & -> & Hclaims); [|by apply claimed_valid].
    split_and!; try done. intros x. rewrite Hclaims, elem_of_link_claims by done. set_solver.
Qed.

Section partial.
Context (target : ReviewTarget) (full : ReviewExternalLink).
Hypothesis Hfull : link_valid target full.

(** A valid link on the way to the full one. *)
Record partial (link : ReviewExternalLink) : Prop := {
  partial_valid : link_valid target link;
  partial_reservation : reservation link = reservation full;
  partial_evidence : forall e, e ∈ link_evidence link -> e ∈ link_evidence full;
  partial_claims : forall c, c ∈ link_claims link -> c ∈ link_claims full;
}.

Lemma partial_agrees link e : partial link -> e ∈ link_evidence full -> agrees (link_evidence link) e.
Proof.
  intros Hpartial He x Hx Hkey. apply (ok_consistent full); [by apply Hfull|done|by apply Hpartial|done].
Qed.

(** What fits the full link fits the partial one. *)
Lemma partial_fits link : partial link ->
  (forall a, attachment_fits full a -> attachment_fits link a)
  /\ (forall o, observation_fits full o -> observation_fits link o)
  /\ (forall c, block_fits full c -> block_fits link c)
  /\ (forall c o, no_change_fits full c o -> no_change_fits link c o).
Proof.
  intros [_ Heq _ _]. unfold attachment_fits, observation_fits, block_fits, no_change_fits, claim_on_target,
    attachment_event_incompatible. by injection Heq as -> -> _ ->.
Qed.

Lemma partial_reserved : partial (reservation full).
Proof.
  destruct (reserved_valid _ _ _ _ _ _ (valid_reserved _ _ Hfull)) as (_ & Hvalid & _).
  constructor; [done|done|..]; by intros e ?%elem_of_nil.
Qed.

Lemma partial_attach link a :
  partial link -> link_attachment link = None -> link_attachment full = Some a ->
  attach link a = Ok (attached link a) /\ partial (attached link a).
Proof.
  intros Hpartial Hnone Ha.
  assert (attachment_pair a ∈ link_evidence full) as Hin by (unfold link_evidence; rewrite Ha; set_solver).
  pose proof (partial_agrees _ _ Hpartial Hin) as Hagrees.
  pose proof (partial_fits _ Hpartial) as (Hfits & _). specialize (Hfits a (valid_attachment _ _ Hfull a Ha)).
  split; [by apply attach_Ok; [apply Hpartial|]|]. constructor.
  - apply attached_valid; try done. apply Hpartial.
  - apply Hpartial.
  - intros e. unfold link_evidence at 1. simpl. rewrite elem_of_cons. intros [->|He]; [done|].
    apply Hpartial. unfold link_evidence. by rewrite Hnone.
  - apply Hpartial.
Qed.

Lemma partial_observe link o rest :
  partial link -> is_Some (link_attachment link) -> link_observations full = link_observations link ++ o :: rest ->
  observe link o = Ok (observed link o) /\ partial (observed link o).
Proof.
  intros Hpartial Hattached Hobs.
  assert (o ∈ link_observations full) as Ho by (rewrite Hobs; set_solver).
  assert (observation_pair o ∈ link_evidence full) as Hin
    by (unfold link_evidence; rewrite !elem_of_app, !list_elem_of_fmap; eauto).
  pose proof (partial_agrees _ _ Hpartial Hin) as Hagrees.
  pose proof (partial_fits _ Hpartial) as (_ & Hfits & _). specialize (Hfits o (valid_observed _ _ Hfull o Ho)).
  pose proof (valid_observations _ _ Hfull _ _ _ Hobs) as Hfollows.
  split; [by apply observe_Ok; [apply Hpartial|]|]. constructor.
  - apply observed_valid; try done. apply Hpartial.
  - apply Hpartial.
  - intros e. unfold link_evidence at 1. simpl. rewrite fmap_app. intros He.
    assert (e = observation_pair o \/ e ∈ link_evidence link) as [->|?] by (unfold link_evidence; set_solver);
      [done|by apply Hpartial].
  - apply Hpartial.
Qed.

Lemma partial_claim link c :
  partial link -> c ∈ link_claims full -> claim_fits link c ->
  agrees (link_evidence link) (claim_pair c) /\ partial (record_durable_claim link c).
Proof.
  intros Hpartial Hc Hfit.
  assert (claim_pair c ∈ link_evidence full) as Hin
    by (unfold link_evidence; rewrite !elem_of_app, !list_elem_of_fmap; eauto).
  pose proof (partial_agrees _ _ Hpartial Hin) as Hagrees. split; [done|]. constructor.
  - apply claimed_valid; try done. apply Hpartial.
  - apply Hpartial.
  - intros e. unfold link_evidence at 1. rewrite !elem_of_app, !list_elem_of_fmap. simpl.
    setoid_rewrite elem_of_claim_inserted; [|by apply agrees_claim].
    intros [He|[He|(x & -> & [->|Hx])]]; [..|done|]; apply Hpartial; unfold link_evidence;
      rewrite !elem_of_app, !list_elem_of_fmap; eauto.
  - intros x Hx. apply elem_of_link_claims in Hx as [->|Hx]; [done|by apply Hpartial|done].
Qed.

Lemma partial_observe_all rest link :
  partial link -> (rest <> [] -> is_Some (link_attachment link)) ->
  link_observations full = link_observations link ++ rest ->
  exists link', try_fold (fun link o => map_err link_error_failure (observe link o)) rest link = Ok link'
    /\ partial link' /\ link_attachment link' = link_attachment link /\ link_observations link' = link_observations full.
Proof.
  revert link. induction rest as [|o rest IH]; intros link Hpartial Hattached Hobs.
  - exists link. split_and!; try done. by rewrite Hobs, app_nil_r.
  - destruct (partial_observe link o rest) as [Hstep Hnext]; [done|by apply Hattached|done|].
    destruct (IH (observed link o) Hnext) as (link' & Hrest & Hpartial' & Hatt & Hobs').
    + intros _. by apply Hattached.
    + simpl. by rewrite <- app_assoc.
    + exists link'. simpl. by rewrite Hstep.
Qed.

Lemma partial_replay_all claims link :
  partial link -> link_attachment link = link_attachment full -> link_observations link = link_observations full ->
  (forall c, c ∈ claims -> c ∈ link_claims full) ->
  exists link', try_fold replay_claim claims link = Ok link'.
Proof.
  revert link. induction claims as [|c rest IH]; intros link Hpartial Hatt Hobs Hclaims; [by exists link|].
  assert (claim_fits link c) as Hfit.
  { pose proof (partial_fits _ Hpartial) as (_ & _ & Hblock & Hchange).
    destruct (valid_claims _ _ Hfull c) as [?|(Hsome & o & Ho & ?)]; [apply Hclaims; set_solver|left; auto|right].
    rewrite Hatt, Hobs. split; [done|]. exists o. auto. }
  destruct (partial_claim link c) as [Hagrees Hnext]; [done|apply Hclaims; set_solver|done|].
  destruct (IH _ Hnext) as [link' Hrest]; [done|done|set_solver|].
  exists link'. simpl. assert (replay_claim link c = Ok (record_durable_claim link c)) as ->; [|done].
  by apply replay_claim_Ok; [apply Hpartial|].
Qed.
End partial.

Lemma link_try_reconstitute_Ok id association provider kind attachment observations claims target link :
  link_try_reconstitute id association provider kind attachment observations claims target = Ok link <->
  link_valid target link /\ link_id link = id /\ link_association link = association
  /\ link_provider link = provider /\ link_object_kind link = kind /\ link_attachment link = attachment
  /\ link_observations link = observations /\ forall c, c ∈ link_claims link <-> c ∈ claims.
Proof.
  unfold link_try_reconstitute. rewrite bind_Ok. setoid_rewrite bind_Ok. setoid_rewrite bind_Ok. split.
  - intros (reserved & Hnew & next & Hattach & watched & Hobserve & Hclaims).
    apply reserved_valid in Hnew as (Heq & Hvalid & Hid & Hassociation & Hprovider & Hkind).
    assert (link_valid target next /\ reservation next = reservation reserved /\ link_attachment next = attachment
      /\ link_observations next = [] /\ link_claims next = []) as (Hnext & Hres & Hatt & Hnil & Hnone).
    { destruct attachment as [a|].
      - apply map_err_Ok, attach_Ok in Hattach as (? & ? & ? & ->); [|apply Hvalid].
        split; [by apply attached_valid|]. by rewrite Heq.
      - injection Hattach as <-. split; [done|]. by rewrite Heq. }
    apply (observe_all_Ok target) in Hobserve as (Hwatched & Hres' & Hatt' & Hnone' & Hobs); [|done].
    apply (replay_all_Ok target) in Hclaims as (Hlink & Hres'' & Hatt'' & Hobs' & Hclaims); [|done].
    rewrite Hres', Hres in Hres''. injection Hres'' as -> -> -> ->.
    split_and!; try done; [congruence|by rewrite Hobs', Hobs, Hnil|].
    intros c. rewrite Hclaims, Hnone', Hnone. set_solver.
  - intros (Hfull & <- & <- & <- & <- & <- & <- & Hclaims).
    pose proof (partial_reserved target link Hfull) as Hreserved.
    exists (reservation link). split; [apply Hfull|].
    assert (exists next, match link_attachment link with
      | Some attachment => map_err link_error_failure (attach (reservation link) attachment)
      | None => Ok (reservation link) end = Ok next
      /\ partial target link next /\ link_attachment next = link_attachment link /\ link_observations next = []
      /\ link_claims next = []) as (next & Hattach & Hpartial & Hatt & Hobs & Hnil).
    { destruct (link_attachment link) as [a|] eqn:Ha; [|by exists (reservation link)].
      destruct (partial_attach target link Hfull (reservation link) a) as [-> ?]; try done.
      by exists (attached (reservation link) a). }
    exists next. split; [done|].
    destruct (partial_observe_all target link Hfull (link_observations link) next) as
      (watched & Hobserve & Hpartial' & Hatt' & Hobs'); [done| |by rewrite Hobs|].
    { intros Hne. rewrite Hatt. destruct (link_attachment link) eqn:Ha; [done|].
      by destruct Hne; apply (valid_attached _ _ Hfull). }
    exists watched. split; [done|].
    destruct (partial_replay_all target link Hfull claims watched) as [link' Hreplay];
      [done|congruence|done|by intros c; apply Hclaims|].
    pose proof Hreplay as Hlink'.
    apply (replay_all_Ok target) in Hlink' as (Hvalid' & Hres & Hatt'' & Hobs'' & Hclaims'); [|apply Hpartial'].
    rewrite Hreplay. f_equal. apply link_unique.
    + apply Hvalid'.
    + apply Hfull.
    + rewrite Hres. apply Hpartial'.
    + congruence.
    + congruence.
    + apply observe_all_Ok with (target := target) in Hobserve as (_ & _ & _ & Hnone & _); [|apply Hpartial].
      intros c. rewrite Hclaims', Hclaims, Hnone, Hnil. set_solver.
Qed.

(** ** Live histories *)

Section live.
Context (target : ReviewTarget) (full : ReviewExternalLink).
Hypothesis Hfull : link_valid target full.

(** The claim can be recorded by a transition now. *)
Definition live_claim (link : ReviewExternalLink) (c : ReviewExternalLinkClaim) : Prop :=
  (link_attachment link = None /\ block_fits full c)
  \/ is_Some (link_attachment link) /\ exists o, last (link_observations link) = Some o /\ no_change_fits full c o.

(** A link on the way to the full one that a history reaches. *)
Record reached (link : ReviewExternalLink) : Prop := {
  reached_history : link_history target link;
  reached_partial : partial target full link;
}.

(** The later link has everything the earlier one has but for new claims. *)
Record claims_grow (link link' : ReviewExternalLink) : Prop := {
  grow_attachment : link_attachment link' = link_attachment link;
  grow_observations : link_observations link' = link_observations link;
  grow_claims : forall c, c ∈ link_claims link -> c ∈ link_claims link';
}.

Lemma live_claim_step link c :
  reached link -> c ∈ link_claims full ->
  (exists link', reached link' /\ claims_grow link link' /\ c ∈ link_claims link') \/ ~ live_claim link c.
Proof.
  intros [Hhistory Hpartial] Hc.
  pose proof (partial_valid _ _ _ Hpartial) as Hvalid. pose proof (valid_ok _ _ Hvalid) as Hok.
  pose proof (partial_fits _ _ _ Hpartial) as (_ & _ & Hblock & Hchange).
  assert (claim_fits link c -> agrees (link_evidence link) (claim_pair c) ->
    link_history target (record_durable_claim link c) ->
    exists link', reached link' /\ claims_grow link link' /\ c ∈ link_claims link') as Hdone.
  { intros Hfit Hagrees Hnext. exists (record_durable_claim link c). split_and!.
    - split; [done|]. by apply (partial_claim _ _ Hfull).
    - constructor; try done. intros x Hx. apply elem_of_link_claims; [done|by right].
    - apply elem_of_link_claims; [done|by left]. }
  assert (claim_pair c ∈ link_evidence full) as Hin
    by (unfold link_evidence; rewrite !elem_of_app, !list_elem_of_fmap; eauto).
  pose proof (partial_agrees _ _ Hfull _ _ Hpartial Hin) as Hagrees.
  destruct (confirm_unchanged link (claim_pass c) (claim_run c)) as [link'|e] eqn:Hconfirm.
  { left. pose proof Hconfirm as Hstep. apply confirm_unchanged_Ok in Hstep as (Hsome & (o & Hlast & Hfit) & _ & ->);
      [|done]. apply Hdone; [|done|by eapply link_confirmed]. right. split; [done|].
    exists o. split; [by apply last_Some_elem_of|done]. }
  destruct (block_publication link (claim_pass c) (claim_run c)) as [link'|e'] eqn:Hblocked.
  { left. pose proof Hblocked as Hstep. apply block_publication_Ok in Hstep as (Hnone & Hfit & _ & ->); [|done].
    apply Hdone; [by left|done|by eapply link_blocked]. }
  right. intros [[Hnone Hfit]|(Hsome & o & Hlast & Hfit)].
  - assert (block_publication link (claim_pass c) (claim_run c) = Ok (record_durable_claim link c))
      by (by apply block_publication_Ok; auto). congruence.
  - assert (confirm_unchanged link (claim_pass c) (claim_run c) = Ok (record_durable_claim link c)) by
      (apply confirm_unchanged_Ok; [done|]; split_and!; eauto). congruence.
Qed.

Lemma live_claims (claims : list ReviewExternalLinkClaim) link :
  reached link -> (forall c, c ∈ claims -> c ∈ link_claims full) ->
  exists link', reached link' /\ claims_grow link link' /\
    forall c, c ∈ claims -> live_claim link c -> c ∈ link_claims link'.
Proof.
  revert link. induction claims as [|c rest IH]; intros link Hreached Hclaims.
  { exists link. split_and!; [done|by constructor|]. by intros c ?%elem_of_nil. }
  destruct (live_claim_step link c Hreached) as [(next & Hnext & [Ha Ho Hgrow] & Hc)|Hno]; [apply Hclaims; set_solver|..].
  - destruct (IH next Hnext) as (link' & Hreached' & [Ha' Ho' Hgrow'] & Hlive); [set_solver|].
    exists link'. split_and!; [done|constructor; [congruence|congruence|auto]|].
    intros x Hx Hlivex. apply elem_of_cons in Hx as [->|Hx]; [auto|]. apply Hlive; [done|].
    unfold live_claim. by rewrite Ha, Ho.
  - destruct (IH link Hreached) as (link' & Hreached' & Hgrow & Hlive); [set_solver|].
    exists link'. split_and!; [done|done|]. intros x [->|Hx]%elem_of_cons Hlivex; [done|auto].
Qed.

Lemma live_observations (rest : list ReviewExternalLinkObservation) link :
  reached link -> (rest <> [] -> is_Some (link_attachment link)) ->
  link_observations full = link_observations link ++ rest ->
  exists link', reached link' /\ link_attachment link' = link_attachment link
    /\ link_observations link' = link_observations full
    /\ (forall c : ReviewExternalLinkClaim, c ∈ link_claims link -> c ∈ link_claims link')
    /\ forall (c : ReviewExternalLinkClaim) o, c ∈ link_claims full -> o ∈ rest -> no_change_fits full c o ->
         c ∈ link_claims link'.
Proof.
  revert link. induction rest as [|o rest IH]; intros link [Hhistory Hpartial] Hattached Hobs.
  { exists link. split_and!; try done; [by rewrite Hobs, app_nil_r|]. by intros c o _ ?%elem_of_nil. }
  destruct (partial_observe _ _ Hfull link o rest Hpartial) as [Hstep Hnext]; [by apply Hattached|done|].
  destruct (live_claims (link_claims full) (observed link o)) as (next & Hreached & [Ha Ho Hgrow] & Hlive);
    [split; [by eapply link_observed|done]|done|].
  destruct (IH next Hreached) as (link' & Hreached' & Ha' & Ho' & Hgrow' & Hrest).
  - intros _. rewrite Ha. by apply Hattached.
  - rewrite Ho. simpl. by rewrite <- app_assoc.
  - exists link'. split_and!; try done; [by rewrite Ha', Ha|auto|].
    intros c x Hc Hx Hfits. apply elem_of_cons in Hx as [->|Hx]; [|by eapply Hrest].
    apply Hgrow', Hlive; [done|]. right. split; [by apply Hattached|]. exists o. split; [|done].
    simpl. by rewrite last_snoc.
Qed.

(** Every valid link is what a history leaves: publications blocked before the
    attachment, then each observation with the reports that nothing changed
    since. *)
Lemma valid_link_history : link_history target full.
Proof.
  assert (reached (reservation full)) as Hreserved.
  { split; [|by apply partial_reserved]. by apply (link_reserved _ _ _ _ _ _ (valid_reserved _ _ Hfull)). }
  destruct (live_claims (link_claims full) _ Hreserved) as (blocked & [Hhistory Hpartial] & [Ha Ho _] & Hblocks);
    [done|].
  assert (exists next, reached next /\ link_attachment next = link_attachment full /\ link_observations next = []
    /\ forall c, c ∈ link_claims full -> block_fits full c -> c ∈ link_claims next)
    as (next & Hnext & Hatt & Hobs & Hclaims).
  { destruct (link_attachment full) as [a|] eqn:Hfa.
    - destruct (partial_attach _ _ Hfull blocked a Hpartial Ha Hfa) as [Hstep Hnext].
      exists (attached blocked a). split_and!; [split; [by eapply link_attached|done]|done|done|].
      intros c Hc Hfit. apply Hblocks; [done|by left].
    - exists blocked. split_and!; [done|by rewrite Ha|done|]. intros c Hc Hfit. apply Hblocks; [done|by left]. }
  destruct (live_observations (link_observations full) next Hnext) as
    (link & [Hlive Hlink] & Hatt' & Hobs' & Hgrow & Hchanges); [|by rewrite Hobs|].
  { intros Hne. rewrite Hatt. destruct (link_attachment full) eqn:Hfa; [done|].
    by destruct Hne; apply (valid_attached _ _ Hfull). }
  replace full with link; [done|]. apply link_unique; [apply Hlink|apply Hfull|apply Hlink|congruence|done|].
  intros c. split; [by apply Hlink|]. intros Hc.
  destruct (valid_claims _ _ Hfull c Hc) as [Hfit|(_ & o & Ho' & Hfit)]; [by apply Hgrow, Hclaims|by eapply Hchanges].
Qed.
End live.

(** C23. A stored link is reconstituted exactly when some history of
    reservation, attachment, observations, reports that nothing changed and
    blocked publications leaves the stored attachment and observations and, in
    whatever order they are stored, the stored claims. *)
Theorem link_reconstitution_exact id association provider kind attachment observations claims target link :
  link_try_reconstitute id association provider kind attachment observations claims target = Ok link <->
  link_history target link /\ link_id link = id /\ link_association link = association
  /\ link_provider link = provider /\ link_object_kind link = kind /\ link_attachment link = attachment
  /\ link_observations link = observations /\ forall c, c ∈ link_claims link <-> c ∈ claims.
Proof.
  rewrite link_try_reconstitute_Ok. split; intros [Hlink ?]; (split; [|done]).
  - by apply valid_link_history.
  - by apply link_history_valid.
Qed.

(** ** Safety *)

Lemma checked_successor_Some ordinal next :
  event_ordinal_checked_successor ordinal = Some next -> event_ordinal next = Pos.succ (event_ordinal ordinal).
Proof. unfold event_ordinal_checked_successor. case_match; [by intros [= <-]|done]. Qed.

Lemma observation_ordinals (observations : list ReviewExternalLinkObservation) i o :
  checked observation_follows observations -> observations !! i = Some o ->
  event_ordinal (observation_ordinal o) = Pos.of_succ_nat i.
Proof.
  revert i o. induction observations as [|next earlier IH] using rev_ind; intros i o; [done|].
  intros [Hchecked Hnext]%checked_snoc [Hi|[Hi Ho]]%lookup_app_Some; [by apply IH|].
  apply list_lookup_singleton_Some in Ho as [Hlen ->].
  unfold observation_follows in Hnext. destruct (last earlier) as [previous|] eqn:Hlast.
  - destruct Hnext as [_ Hsucc]. rewrite last_lookup in Hlast. pose proof (IH _ _ Hchecked Hlast) as Hprevious.
    apply lookup_lt_Some in Hlast. rewrite (checked_successor_Some _ _ Hsucc), Hprevious.
    by replace i with (S (pred (length earlier))) by lia.
  - rewrite Hnext. apply last_None in Hlast as ->. simpl in *. replace i with 0 by lia. done.
Qed.

Definition evidence_tag (e : evidence_pair) : nat :=
  match pass_state_result (evidence_state e.1) with
  | Some (PassLinkAttachment _) => 0
  | Some (PassLinkObservation _) => 1
  | _ => 2
  end.

Section tags.
Context (target : ReviewTarget) (link : ReviewExternalLink).
Hypothesis Hvalid : link_valid target link.

Lemma attachment_tag a : link_attachment link = Some a -> evidence_tag (attachment_pair a) = 0.
Proof.
  intros (_ & _ & _ & _ & turn & frontier & outcome & Hstate & _)%(valid_attachment _ _ Hvalid).
  unfold evidence_tag. simpl. by rewrite Hstate.
Qed.

Lemma observation_tag o :
  o ∈ link_observations link ->
  evidence_tag (observation_pair o) = 1
  /\ exists outcome, pass_state_result (evidence_state (observation_pass_evidence o)) = Some (PassLinkObservation outcome)
       /\ observation_result_ordinal outcome = observation_ordinal o.
Proof.
  intros (_ & _ & _ & _ & _ & turn & frontier & outcome & Hstate & _ & Hordinal & _)%(valid_observed _ _ Hvalid).
  unfold evidence_tag. simpl. rewrite Hstate. split; [done|]. by exists outcome.
Qed.

Lemma claim_tag c : c ∈ link_claims link -> evidence_tag (claim_pair c) = 2.
Proof.
  intros [[_ Hblock]|(_ & o & _ & _ & _ & turn & frontier & outcome & Hstate & _)]%(valid_claims _ _ Hvalid);
    unfold evidence_tag; simpl; [|by rewrite Hstate].
  unfold publication_block_matches_link in Hblock. by destruct (evidence_state _) as [| | | |? [[]|]|].
Qed.

Lemma link_evidence_NoDup : NoDup (link_evidence link).
Proof.
  unfold link_evidence. apply NoDup_app. split_and!.
  - destruct (link_attachment link); simpl; [apply NoDup_singleton|constructor].
  - intros e He Hin. assert (evidence_tag e = 0) as Htag.
    { destruct (link_attachment link) as [a|] eqn:Ha; simpl in He; [|by apply elem_of_nil in He].
      apply list_elem_of_singleton in He as ->. by apply attachment_tag. }
    apply elem_of_app in Hin as [(o & -> & Ho)%list_elem_of_fmap|(c & -> & Hc)%list_elem_of_fmap].
    + by rewrite (proj1 (observation_tag o Ho)) in Htag.
    + by rewrite (claim_tag c Hc) in Htag.
  - apply NoDup_app. split_and!.
    + apply NoDup_alt. intros i j e. rewrite !list_lookup_fmap_Some. intros (x & -> & Hx) (y & Heq & Hy).
      pose proof (observation_tag x (list_elem_of_lookup_2 _ _ _ Hx)) as (_ & ox & Hox & Hordx).
      pose proof (observation_tag y (list_elem_of_lookup_2 _ _ _ Hy)) as (_ & oy & Hoy & Hordy).
      injection Heq as Hpass _. rewrite Hpass, Hoy in Hox. injection Hox as <-. rewrite Hordx in Hordy.
      apply observation_ordinals in Hx, Hy; try apply Hvalid. rewrite Hordy in Hx. lia.
    + intros e (o & -> & Ho)%list_elem_of_fmap (c & Heq & Hc)%list_elem_of_fmap.
      pose proof (proj1 (observation_tag o Ho)) as Htag. rewrite Heq in Htag. by rewrite (claim_tag c Hc) in Htag.
    + apply (NoDup_fmap_1 pair_pass). rewrite <- list_fmap_compose.
      by apply (ascending_NoDup claim_key), (ok_claims link), (valid_ok target).
Qed.
End tags.

(** C29. Whatever happens to a link: it has observations only once it is
    attached, they are numbered from one without a gap and each reports a
    change, an attaching pass posts no finding but the link's own, and no pass
    and no run is evidence in two of the attachment, observations and claims. *)
Theorem link_evidence_unique target link (Hhistory : link_history target link) :
  (link_observations link <> [] -> is_Some (link_attachment link))
  /\ (forall i o, link_observations link !! i = Some o ->
       event_ordinal (observation_ordinal o) = Pos.of_succ_nat i)
  /\ (forall earlier previous o rest, link_observations link = earlier ++ previous :: o :: rest ->
       observation_state previous <> observation_state o)
  /\ (forall a turn frontier outcome event, link_attachment link = Some a ->
       evidence_state (attachment_pass_evidence a) = PassSucceeded turn frontier (Some (PassLinkAttachment outcome)) ->
       attachment_result_event outcome = Some event ->
       link_association link = AssociatedFinding (result_finding event)
       /\ result_kind event = ResultPosted (link_id link))
  /\ NoDup (pair_pass <$> link_evidence link) /\ NoDup (pair_run <$> link_evidence link).
Proof.
  pose proof (link_history_valid _ _ Hhistory) as Hvalid. pose proof (valid_ok _ _ Hvalid) as Hok.
  pose proof (link_evidence_NoDup _ _ Hvalid) as Hnodup. split_and!.
  - intros Hne. destruct (link_attachment link) eqn:Ha; [done|]. by destruct Hne; apply (valid_attached _ _ Hvalid).
  - intros i o. apply observation_ordinals, Hvalid.
  - intros earlier previous o rest Hobs.
    pose proof (valid_observations _ _ Hvalid (earlier ++ [previous]) o rest) as Hfollows.
    unfold observation_follows in Hfollows. rewrite last_snoc in Hfollows. apply Hfollows.
    by rewrite Hobs, <- app_assoc.
  - intros a turn frontier outcome event Ha Hstate Hevent.
    destruct (valid_attachment _ _ Hvalid a Ha) as (_ & _ & _ & _ & ? & ? & outcome' & Hstate' & _ & _ & _ & Hfits).
    rewrite Hstate in Hstate'. injection Hstate' as <- <- <-. specialize (Hfits event Hevent).
    unfold attachment_event_incompatible in Hfits. rewrite !orb_false_iff, !negb_false_iff in Hfits.
    destruct Hfits as [[[Hassociation%bool_decide_eq_true Hkind] _] _]. split; [done|].
    destruct (result_kind event); try done. apply bool_decide_eq_true in Hkind. by subst.
  - apply NoDup_fmap_2_strong; [|done]. intros x y Hx Hy Hkey. by apply (ok_consistent _ Hok y Hy); [|left].
  - apply NoDup_fmap_2_strong; [|done]. intros x y Hx Hy Hkey. by apply (ok_consistent _ Hok y Hy); [|right].
Qed.

Lemma link_evidence_unique_witness :
  let key := mkReviewKey (lit "object") in
  let target := mkTarget (from_uuid 1) key key SubjectCommit key None None [] [] in
  let id : ReviewExternalLinkId := from_uuid 9 in
  let pass run pass result :=
    mkPassEvidence (mkPassRef (mkRunRef (from_uuid 1) (from_uuid run)) (from_uuid pass)) KindImport
      policy_version_one_tuple (PassSucceeded (from_uuid 4) (from_uuid 5) (Some result)) in
  let run pass :=
    mkRunEvidence (pass_ref_run (evidence_reference pass)) ImportExternalContext policy_version_one_tuple
      (RunSucceeded (evidence_reference pass)) in
  let attaching := pass 11%N 12%N (PassLinkAttachment (mkAttachmentResult id key None)) in
  let observing := pass 21%N 22%N (PassLinkObservation (mkObservationResult id event_ordinal_one ObjectCurrent)) in
  let a := mkAttachment id (evidence_reference attaching) attaching (run attaching) key in
  let o := mkObservation id event_ordinal_one (evidence_reference observing) observing (run observing) ObjectCurrent in
  exists link, link_history target link /\ link_attachment link = Some a /\ link_observations link = [o]
    /\ NoDup (pair_pass <$> link_evidence link).
Proof.
  intros key target id pass run attaching observing a o.
  set (fresh := mkLink id (AssociatedTarget (from_uuid 1)) key ReviewObject None [] [] ∅ ∅).
  assert (link_history target (observed (attached fresh a) o)) as Hhistory.
  { apply (link_observed target (attached fresh a) o); [|reflexivity].
    apply (link_attached target fresh a); [|reflexivity].
    by apply (link_reserved target id (AssociatedTarget (from_uuid 1)) key ReviewObject). }
  exists (observed (attached fresh a) o). split; [exact Hhistory|]. split; [reflexivity|]. split; [reflexivity|].
  apply (link_evidence_unique target _ Hhistory).
Defined.
