(* ===== verification/ReviewFinding.v ===== *)
(** * Review findings

    Model of [crates/domain/src/review_workflow/finding.rs] and of the finding
    parts of [pass_result.rs]: proposals, the events of a finding with the
    evidence each carries, and the graph of references between findings. *)

From stdpp Require Import gmap.
From S2P Require Import Prelude Tool RunnerNames ReviewValues ReviewTarget ReviewPass ReviewLink.

Local Open Scope list_scope.

(** ** Proposals *)

Inductive ReviewFindingDiffSide := LeftSide | RightSide.

(** [NonZeroU32] endpoints *)
Record ReviewLineRange := mkLineRange { range_start : positive; range_end : positive }.

Inductive ReviewLineRangeError := ZeroEndpoint | EndBeforeStart.

Definition line_range_try_new (start finish : N) : result ReviewLineRangeError ReviewLineRange :=
  match start with
  | N0 => Err ZeroEndpoint
  | Npos start =>
      match finish with
      | N0 => Err ZeroEndpoint
      | Npos finish => if (finish <? start)%positive then Err EndBeforeStart else Ok (mkLineRange start finish)
      end
  end.

Record ReviewFindingLocation := mkLocation {
  file_path : ReviewKey;
  line_range : option ReviewLineRange;
  diff_side : option ReviewFindingDiffSide;
}.

Inductive ReviewFindingSeverity := SeverityInfo | SeverityLow | SeverityMedium | SeverityHigh | SeverityCritical.

Record ReviewFindingContent := mkFindingContent {
  content_location : ReviewFindingLocation;
  content_title : ReviewText;
  content_body : ReviewText;
  content_severity : ReviewFindingSeverity;
  content_confidence : ReviewFindingConfidenceAxes;
  content_category : ReviewKey;
  content_recommended_fix : option ReviewText;
}.

Record ReviewFindingProposal := mkProposal {
  proposal_reference : ReviewFindingRef;
  proposal_producing_pass : ReviewPassEvidence;
  proposal_content : ReviewFindingContent;
}.

(** ** References to external links *)

Record ReviewFindingExternalLinkRef := mkFindingLink {
  finding_link_finding : ReviewFindingRef;
  finding_link_link : ReviewExternalLinkId;
  finding_link_attachment_pass : ReviewPassEvidence;
}.

Record ReviewFindingPendingExternalLinkRef := mkPendingLink {
  pending_link_finding : ReviewFindingRef;
  pending_link_link : ReviewExternalLinkId;
}.

Inductive ReviewFindingExternalLinkFailure :=
| FindingForeignAssociation | IncompatibleObjectKind | FindingNotAttached | FindingAlreadyAttached.

Record ReviewFindingExternalLinkError := mkFindingLinkError {
  finding_link_error_finding : ReviewFindingRef;
  finding_link_error_link : ReviewExternalLinkId;
  finding_link_error_association : ReviewExternalLinkAssociation;
  finding_link_error_failure : ReviewFindingExternalLinkFailure;
}.

(** The external objects that carry review content. *)
Definition review_content_kind (kind : ReviewExternalObjectKind) : bool :=
  match kind with
  | ReviewObject | ReviewThreadObject | ReviewCommentObject | ChangeRequestCommentObject => true
  | _ => false
  end.

(** [ReviewFindingExternalLinkRef::try_new] *)
Definition finding_link_try_new (finding : ReviewFindingRef) (link : ReviewExternalLink) :
    result ReviewFindingExternalLinkError ReviewFindingExternalLinkRef :=
  let reject := mkFindingLinkError finding (link_id link) (link_association link) in
  if negb (bool_decide (link_association link = AssociatedFinding finding))
  then Err (reject FindingForeignAssociation) else
  if negb (review_content_kind (link_object_kind link)) then Err (reject IncompatibleObjectKind) else
  match link_attachment link with
  | None => Err (reject FindingNotAttached)
  | Some attachment => Ok (mkFindingLink finding (link_id link) (attachment_pass_evidence attachment))
  end.

(** [ReviewFindingPendingExternalLinkRef::try_new] *)
Definition pending_link_try_new (finding : ReviewFindingRef) (link : ReviewExternalLink) :
    result ReviewFindingExternalLinkError ReviewFindingPendingExternalLinkRef :=
  let reject := mkFindingLinkError finding (link_id link) (link_association link) in
  if negb (bool_decide (link_association link = AssociatedFinding finding))
  then Err (reject FindingForeignAssociation) else
  if negb (review_content_kind (link_object_kind link)) then Err (reject IncompatibleObjectKind) else
  if bool_decide (is_Some (link_attachment link)) then Err (reject FindingAlreadyAttached)
  else Ok (mkPendingLink finding (link_id link)).

(** ** Events *)

Inductive ReviewFindingEventKind :=
| FindingAccepted (confidence : ReviewJudgeConfidence)
| FindingRejected (reason : ReviewText)
| FindingDuplicate (canonical : ReviewReferencedFindingEvidence)
| FindingSuperseded (successor : ReviewReferencedFindingEvidence)
| FindingStale
| FindingPosted (link : ReviewFindingExternalLinkRef)
| FindingFixed
| FindingBlocked (reason : ReviewText) (link : option ReviewFindingPendingExternalLinkRef).

(** [ReviewFindingEventKind::event_type] *)
Definition event_kind_type (self : ReviewFindingEventKind) : ReviewFindingEventType :=
  match self with
  | FindingAccepted _ => TypeAccepted
  | FindingRejected _ => TypeRejected
  | FindingDuplicate _ => TypeDuplicate
  | FindingSuperseded _ => TypeSuperseded
  | FindingStale => TypeStale
  | FindingPosted _ => TypePosted
  | FindingFixed => TypeFixed
  | FindingBlocked _ _ => TypeBlocked
  end.

(** [ReviewFindingEventKind::result_kind] *)
Definition event_result_kind (self : ReviewFindingEventKind) : ReviewFindingEventResultKind :=
  match self with
  | FindingAccepted confidence => ResultAccepted confidence
  | FindingRejected reason => ResultRejected reason
  | FindingDuplicate canonical => ResultDuplicate canonical
  | FindingSuperseded successor => ResultSuperseded successor
  | FindingStale => ResultStale
  | FindingPosted link => ResultPosted (finding_link_link link)
  | FindingFixed => ResultFixed
  | FindingBlocked reason link => ResultBlocked reason (pending_link_link <$> link)
  end.

Record ReviewFindingEvent := mkFindingEvent {
  event_finding : ReviewFindingRef;
  event_finding_ordinal : ReviewEventOrdinal;
  event_pass : ReviewPassRef;
  event_pass_evidence : ReviewPassEvidence;
  event_run : ReviewRunEvidence;
  event_kind : ReviewFindingEventKind;
}.

Record ReviewFinding := mkFinding {
  finding_proposal : ReviewFindingProposal;
  finding_events : list ReviewFindingEvent;
  finding_status : ReviewFindingStatus;
  finding_pass_claims : gmap ReviewPassId (ReviewPassEvidence * ReviewRunEvidence);
  finding_run_claims : gmap ReviewRunId (ReviewPassEvidence * ReviewRunEvidence);
  finding_publication_links : gset ReviewExternalLinkId;
}.

Inductive ReviewFindingTransitionFailure :=
| FindingForeignTarget | MissingDiffBase | ForeignProducingPass | ForeignProducingRun
| IncompatibleProducingRunEvidence | IncompatibleProducingPassEvidence | ForeignEventFinding
| ForeignEventPass | EventPassEvidenceMismatch | IncompatibleEventRunEvidence | EventPolicyMismatch
| EventConflictingPass | EventConflictingRun | IncompatibleEventPassEvidence | BelowJudgmentThreshold
| BelowPublicationThreshold | ForeignReferencedFinding | ReferencedFindingPolicyMismatch
| IneligibleReferencedFinding | SelfReference | ForeignExternalLink | PublicationPassMismatch
| ReusedPublicationLink
| EventNoncontiguousOrdinal (expected : option ReviewEventOrdinal)
| FindingInvalidTransition (current : ReviewFindingStatus).

(** [ReviewFindingTransitionError], which retains the unchanged finding and the
    rejected event of an event application *)
Record ReviewFindingTransitionError := mkFindingError {
  finding_error_current : option ReviewFinding;
  finding_error_event : option ReviewFindingEvent;
  finding_error_failure : ReviewFindingTransitionFailure;
}.

(** [ReviewFindingProposal::try_new] *)
Definition proposal_try_new (reference : ReviewFindingRef) (producing_pass : ReviewPassEvidence)
    (producing_run : ReviewRunEvidence) (target : ReviewTarget) (content : ReviewFindingContent) :
    result ReviewFindingTransitionError ReviewFindingProposal :=
  let reject failure := Err (mkFindingError None None failure) in
  if negb (bool_decide (target_id target = finding_ref_target reference)) then reject FindingForeignTarget else
  if bool_decide (is_Some (diff_side (content_location content))) && bool_decide (target_base_revision target = None)
  then reject MissingDiffBase else
  if negb (bool_decide (evidence_reference producing_pass = finding_ref_pass reference))
  then reject ForeignProducingPass else
  if negb (bool_decide (run_evidence_reference producing_run = finding_ref_run reference))
  then reject ForeignProducingRun else
  if negb (bool_decide (run_evidence_workflow producing_run = ReadOnlyReview))
     || negb (run_evidence_matches_pass producing_run producing_pass)
  then reject IncompatibleProducingRunEvidence else
  if negb (bool_decide (evidence_kind producing_pass = KindReadOnly)) || negb (produced_by producing_pass reference)
  then reject IncompatibleProducingPassEvidence else
  Ok (mkProposal reference producing_pass content).

(** [ReviewFinding::new] *)
Definition finding_new (proposal : ReviewFindingProposal) : ReviewFinding :=
  mkFinding proposal [] StatusOpen ∅ ∅ ∅.

(** The first accepted event of a list, as [find_map] looks for it. *)
Definition event_judge_confidence (event : ReviewFindingEvent) : option ReviewJudgeConfidence :=
  match event_kind event with FindingAccepted confidence => Some confidence | _ => None end.
Definition judge_confidence (self : ReviewFinding) : option ReviewJudgeConfidence :=
  head (omap event_judge_confidence (finding_events self)).

Definition validate_finding_reference (finding : ReviewFinding) (event : ReviewFindingEvent) :
    option ReviewFindingTransitionFailure :=
  let proposal := finding_proposal finding in
  let referenced_failure referenced :=
    if bool_decide (finding_ref_finding (referenced_reference referenced)
                    = finding_ref_finding (proposal_reference proposal))
    then Some SelfReference else
    if negb (bool_decide (finding_ref_target (referenced_reference referenced)
                          = finding_ref_target (proposal_reference proposal)))
    then Some ForeignReferencedFinding else
    if negb (bool_decide (referenced_producer_policy referenced
                          = evidence_policy (proposal_producing_pass proposal)))
    then Some ReferencedFindingPolicyMismatch else
    if negb (referenced_finding_status_is_eligible (referenced_status referenced))
    then Some IneligibleReferencedFinding else None in
  match event_kind event with
  | FindingDuplicate canonical => referenced_failure canonical
  | FindingSuperseded successor => referenced_failure successor
  | FindingPosted link =>
      if negb (bool_decide (finding_link_finding link = proposal_reference proposal))
      then Some ForeignExternalLink else
      if negb (bool_decide (finding_link_attachment_pass link = event_pass_evidence event))
      then Some PublicationPassMismatch else None
  | FindingBlocked _ (Some link) =>
      if negb (bool_decide (pending_link_finding link = proposal_reference proposal))
      then Some ForeignExternalLink else None
  | _ => None
  end.

Definition finding_transition (current : ReviewFindingStatus) (event : ReviewFindingEventKind)
    (previous : option ReviewFindingEvent) : option ReviewFindingStatus :=
  match current, event with
  | StatusOpen, FindingAccepted _ => Some StatusAccepted
  | StatusOpen, FindingRejected _ => Some StatusRejected
  | (StatusOpen | StatusAccepted), FindingDuplicate _ => Some StatusDuplicate
  | (StatusOpen | StatusAccepted | StatusPosted | StatusBlocked), FindingSuperseded _ => Some StatusSuperseded
  | (StatusOpen | StatusAccepted | StatusPosted | StatusBlocked), FindingStale => Some StatusStale
  | StatusAccepted, FindingPosted _ => Some StatusPosted
  | StatusBlocked, FindingPosted link =>
      match event_kind <$> previous with
      | Some (FindingBlocked _ (Some blocked_link)) =>
          if bool_decide (pending_link_link blocked_link = finding_link_link link) then Some StatusPosted else None
      | _ => None
      end
  | (StatusAccepted | StatusPosted | StatusBlocked), FindingFixed => Some StatusFixed
  | (StatusAccepted | StatusPosted), FindingBlocked _ _ => Some StatusBlocked
  | _, _ => None
  end.

Definition finding_event_matches_pass_evidence (event : ReviewFindingEvent) (pass : ReviewPassEvidence) : bool :=
  let kind_matches :=
    match event_kind event, evidence_kind pass with
    | (FindingAccepted _ | FindingRejected _ | FindingStale), KindJudge
    | (FindingDuplicate _ | FindingSuperseded _), KindDedupe
    | FindingPosted _, (KindPublish | KindImport)
    | FindingFixed, KindFix
    | FindingBlocked _ (Some _), KindPublish
    | FindingBlocked _ None, KindFix => true
    | _, _ => false
    end in
  let expected :=
    mkEventResult (event_finding event) (event_finding_ordinal event) (event_result_kind (event_kind event)) in
  let outcome_matches :=
    match event_kind event with
    | FindingPosted link =>
        match evidence_state pass with
        | PassSucceeded _ _ (Some (PassLinkAttachment attachment)) =>
            bool_decide (attachment_result_link attachment = finding_link_link link)
            && bool_decide (attachment_result_event attachment = Some expected)
        | _ => false
        end
    | FindingBlocked _ _ =>
        match evidence_state pass with
        | PassBlocked _ (Some (PassFindingEvent actual)) => bool_decide (actual = expected)
        | _ => false
        end
    | _ =>
        match evidence_state pass with
        | PassSucceeded _ _ (Some (PassFindingEvent actual)) => bool_decide (actual = expected)
        | _ => false
        end
    end in
  kind_matches && outcome_matches.

(** What the producing pass of a finding claims. *)
Definition producing_claim (proposal : ReviewFindingProposal) : ReviewPassEvidence * ReviewRunEvidence :=
  (proposal_producing_pass proposal,
   mkRunEvidence (finding_ref_run (proposal_reference proposal)) ReadOnlyReview
     (evidence_policy (proposal_producing_pass proposal))
     (RunSucceeded (evidence_reference (proposal_producing_pass proposal)))).

Definition finding_apply (self : ReviewFinding) (event : ReviewFindingEvent) :
    result ReviewFindingTransitionError ReviewFinding :=
  let reject failure := Err (mkFindingError (Some self) (Some event) failure) in
  let proposal := finding_proposal self in
  let policy := run_evidence_policy (event_run event) in
  let claim := (event_pass_evidence event, event_run event) in
  let contradicts (prior : option (ReviewPassEvidence * ReviewRunEvidence)) :=
    match prior with Some prior => negb (bool_decide (prior = claim)) | None => false end in
  if negb (bool_decide (event_finding event = proposal_reference proposal)) then reject ForeignEventFinding else
  let expected :=
    match last (finding_events self) with
    | Some previous => event_ordinal_checked_successor (event_finding_ordinal previous)
    | None => Some event_ordinal_one
    end in
  if negb (bool_decide (expected = Some (event_finding_ordinal event)))
  then reject (EventNoncontiguousOrdinal expected) else
  if negb (bool_decide (pass_ref_target (event_pass event) = finding_ref_target (proposal_reference proposal)))
  then reject ForeignEventPass else
  if negb (bool_decide (event_pass event = evidence_reference (event_pass_evidence event)))
  then reject EventPassEvidenceMismatch else
  if negb (run_evidence_matches_pass (event_run event) (event_pass_evidence event))
  then reject IncompatibleEventRunEvidence else
  if negb (bool_decide (policy = evidence_policy (event_pass_evidence event)))
     || negb (bool_decide (policy = evidence_policy (proposal_producing_pass proposal)))
  then reject EventPolicyMismatch else
  if contradicts
       (if bool_decide (pass_ref_pass (evidence_reference (proposal_producing_pass proposal))
                        = pass_ref_pass (event_pass event))
        then Some (producing_claim proposal)
        else finding_pass_claims self !! pass_ref_pass (event_pass event))
  then reject EventConflictingPass else
  if contradicts
       (if bool_decide (run_ref_run (finding_ref_run (proposal_reference proposal))
                        = run_ref_run (run_evidence_reference (event_run event)))
        then Some (producing_claim proposal)
        else finding_run_claims self !! run_ref_run (run_evidence_reference (event_run event)))
  then reject EventConflictingRun else
  if negb (finding_event_matches_pass_evidence event (event_pass_evidence event))
  then reject IncompatibleEventPassEvidence else
  if match event_kind event with
     | FindingAccepted confidence =>
         (basis_points (policy_confidence confidence) <? basis_points (minimum_judge_confidence policy))%N
     | _ => false
     end
  then reject BelowJudgmentThreshold else
  if match event_kind event with
     | FindingPosted _ =>
         match judge_confidence self with
         | None => true
         | Some confidence =>
             (basis_points (policy_confidence confidence) <? basis_points (minimum_publication_confidence policy))%N
         end
     | _ => false
     end
  then reject BelowPublicationThreshold else
  match validate_finding_reference self event with
  | Some failure => reject failure
  | None =>
      if match event_kind event with
         | FindingPosted link => bool_decide (finding_link_link link ∈ finding_publication_links self)
         | _ => false
         end
      then reject ReusedPublicationLink else
      match finding_transition (finding_status self) (event_kind event) (last (finding_events self)) with
      | None => reject (FindingInvalidTransition (finding_status self))
      | Some next_status =>
          Ok (mkFinding proposal (finding_events self ++ [event]) next_status
                (entry_or_insert (pass_ref_pass (event_pass event)) claim (finding_pass_claims self))
                (entry_or_insert (run_ref_run (run_evidence_reference (event_run event))) claim
                   (finding_run_claims self))
                (match event_kind event with
                 | FindingPosted link => {[finding_link_link link]} ∪ finding_publication_links self
                 | _ => finding_publication_links self
                 end))
      end
  end.

(** [ReviewFinding::try_reconstitute] *)
Definition finding_try_reconstitute (proposal : ReviewFindingProposal) (events : list ReviewFindingEvent) :
    result ReviewFindingTransitionError ReviewFinding :=
  try_fold finding_apply events (finding_new proposal).

(** [ReviewReferencedFindingEvidence::try_from_finding], of pass_result.rs *)
Definition try_from_finding (finding : ReviewFinding) : option ReviewReferencedFindingEvidence :=
  if referenced_finding_status_is_eligible (finding_status finding)
  then Some (mkReferenced (proposal_reference (finding_proposal finding)) (finding_status finding)
         (evidence_policy (proposal_producing_pass (finding_proposal finding))))
  else None.

(** ** The reference graph of a target *)

Inductive ReviewFindingReferenceGraphError :=
| DuplicateFinding (reference : ReviewFindingRef)
| ForeignTargetRoot (expected actual : ReviewTargetId)
| MissingReferencedFinding (finding referenced : ReviewFindingRef)
| GraphPolicyMismatch (finding referenced : ReviewFindingRef)
| GraphCycle (finding referenced : ReviewFindingRef).

(** A producer's policy and the reference of a finding, by finding. *)
Abbreviation reference_map := (gmap ReviewFindingRef (ReviewPolicy * option ReviewReferencedFindingEvidence)).

Definition event_referenced (event : ReviewFindingEvent) : option ReviewReferencedFindingEvidence :=
  match event_kind event with
  | FindingDuplicate canonical => Some canonical
  | FindingSuperseded successor => Some successor
  | _ => None
  end.
Definition finding_referenced (finding : ReviewFinding) : option ReviewReferencedFindingEvidence :=
  head (omap event_referenced (finding_events finding)).

(** The first loop collects the roots. *)
Definition collect_root (expected_target : ReviewTargetId) (references : reference_map) (finding : ReviewFinding) :
    result ReviewFindingReferenceGraphError reference_map :=
  let reference := proposal_reference (finding_proposal finding) in
  if negb (bool_decide (expected_target = finding_ref_target reference))
  then Err (ForeignTargetRoot expected_target (finding_ref_target reference)) else
  let producer_policy := evidence_policy (proposal_producing_pass (finding_proposal finding)) in
  match references !! reference with
  | Some _ => Err (DuplicateFinding reference)
  | None => Ok (<[reference := (producer_policy, finding_referenced finding)]> references)
  end.

(** The second loop resolves every reference. *)
Definition resolve_reference (references : reference_map)
    (entry : ReviewFindingRef * (ReviewPolicy * option ReviewReferencedFindingEvidence)) :
    result ReviewFindingReferenceGraphError unit :=
  let '(finding, (_, referenced)) := entry in
  match referenced with
  | None => Ok tt
  | Some referenced =>
      let referenced_identity := referenced_reference referenced in
      match references !! referenced_identity with
      | None => Err (MissingReferencedFinding finding referenced_identity)
      | Some (referenced_root_policy, _) =>
          if negb (bool_decide (referenced_producer_policy referenced = referenced_root_policy))
          then Err (GraphPolicyMismatch finding referenced_identity) else Ok tt
      end
  end.

(** The inner loop of the third follows references from a root to a finding
    that is completed or has none, and gives the path. There is no result when
    the fuel does not reach the end. *)
Fixpoint walk_references (fuel : nat) (references : reference_map) (completed path : gset ReviewFindingRef)
    (current : ReviewFindingRef) : option (result ReviewFindingReferenceGraphError (gset ReviewFindingRef)) :=
  match fuel with
  | 0 => None
  | S fuel =>
      if bool_decide (current ∈ completed) then Some (Ok path) else
      let path := {[current]} ∪ path in
      match references !! current with
      | Some (_, Some referenced) =>
          let referenced := referenced_reference referenced in
          if bool_decide (referenced ∈ path) then Some (Err (GraphCycle current referenced))
          else walk_references fuel references completed path referenced
      | _ => Some (Ok path)
      end
  end.

Fixpoint walk_reference_roots (fuel : nat) (references : reference_map) (roots : list ReviewFindingRef)
    (completed : gset ReviewFindingRef) : option (result ReviewFindingReferenceGraphError unit) :=
  match roots with
  | [] => Some (Ok tt)
  | root :: roots =>
      match walk_references fuel references completed ∅ root with
      | None => None
      | Some (Err error) => Some (Err error)
      | Some (Ok path) => walk_reference_roots fuel references roots (completed ∪ path)
      end
  end.

(** [validate_complete_review_finding_reference_graph]; the walk enters every
    root at most once, so the number of roots and one more is fuel enough. *)
Definition validate_reference_graph (findings : list ReviewFinding) :
    option (result ReviewFindingReferenceGraphError unit) :=
  match findings with
  | [] => Some (Ok tt)
  | first :: _ =>
      let expected_target := finding_ref_target (proposal_reference (finding_proposal first)) in
      match try_fold (collect_root expected_target) findings ∅ with
      | Err error => Some (Err error)
      | Ok references =>
          match try_fold (fun _ entry => resolve_reference references entry) (named_iter references) tt with
          | Err error => Some (Err error)
          | Ok _ => walk_reference_roots (S (size references)) references (named_iter references).*1 ∅
          end
      end
  end.
