(* ===== verification/ReviewFindingSpec.v ===== *)
(** * Review findings: graphs and histories

    The reference graph of a target is accepted exactly when it is complete and
    has no cycle, the walk over it ends, and the histories of findings keep the
    thresholds, the links and the evidence apart. *)

From stdpp Require Import gmap strings relations.
From S2P Require Import Prelude Tool RunnerNames ReviewValues ReviewTarget ReviewPass ReviewLink ReviewLinkSpec ReviewFinding.

Local Open Scope list_scope.

(** ** Walks over a reference graph *)

Section walk.
Context (references : reference_map).

(** The one finding a finding refers to. *)
Definition successor (x : ReviewFindingRef) : option ReviewFindingRef :=
  match references !! x with
  | Some (_, Some referenced) => Some (referenced_reference referenced)
  | _ => None
  end.

Definition refers_to (x y : ReviewFindingRef) : Prop := successor x = Some y.

(** The references from a finding come to an end. *)
Definition ends (x : ReviewFindingRef) : Prop := exists y, rtc refers_to x y /\ successor y = None.

Lemma ends_step x y : refers_to x y -> ends x <-> ends y.
Proof.
  intros Hxy. split.
  - intros (z & Hz & Hend). inversion Hz as [|? y' ? Hxy' Hy']; subst.
    + unfold refers_to in Hxy. congruence.
    + unfold refers_to in Hxy, Hxy'. assert (y' = y) as -> by congruence. by exists z.
  - intros (z & Hz & Hend). exists z. split; [by eapply rtc_l|done].
Qed.

Lemma ends_rtc x y : rtc refers_to x y -> ends x <-> ends y.
Proof. induction 1 as [|x z y Hxz _ IH]; [done|]. by rewrite (ends_step x z). Qed.

(** References that come back never end. *)
Lemma ends_no_cycle x : ends x -> ~ tc refers_to x x.
Proof.
  intros (z & Hxz & Hend) Hcycle. assert (tc refers_to z z) as Hz.
  { induction Hxz as [x|x y z Hxy _ IH]; [done|]. apply IH; [done|].
    apply (tc_rtc_l _ x); [|by constructor]. inversion Hcycle as [? ? Hxx|? y' ? Hxy' Hy']; subst.
    - unfold refers_to in Hxy, Hxx. assert (x = y) as -> by congruence. constructor.
    - unfold refers_to in Hxy, Hxy'. assert (y' = y) as -> by congruence. by apply tc_rtc. }
  unfold refers_to in Hz. inversion Hz; congruence.
Qed.

Lemma successor_root x y : successor x = Some y -> x ∈ dom references.
Proof. unfold successor. intros Hx. apply elem_of_dom. by destruct (references !! x). Qed.

(** What a walk finds: a path that ends, or a cycle; and its fuel suffices. *)
Lemma walk_references_spec fuel (completed path : gset ReviewFindingRef) current :
  (forall z, z ∈ completed -> ends z) -> (forall z, z ∈ path -> tc refers_to z current) ->
  path ⊆ dom references -> current ∉ path -> size references < fuel + size path ->
  match walk_references fuel references completed path current with
  | None => False
  | Some (Ok path') => (forall z, z ∈ path' -> ends z) /\ path ⊆ path' /\ (current ∈ completed \/ current ∈ path')
  | Some (Err error) => exists x y, error = GraphCycle x y /\ refers_to x y /\ rtc refers_to y x
  end.
Proof.
  revert path current. induction fuel as [|fuel IH]; intros path current Hcompleted Hpath Hdom Hcurrent Hfuel.
  { apply subseteq_size in Hdom. rewrite size_dom in Hdom. simpl in *. lia. }
  simpl. case_bool_decide as Hdone.
  { split_and!; [|done|by left]. intros z Hz. apply (ends_rtc z current); [by apply tc_rtc, Hpath|by apply Hcompleted]. }
  assert (ends current -> forall z, z ∈ {[current]} ∪ path -> ends z) as Hends.
  { intros Hend z [->%elem_of_singleton|Hz]%elem_of_union; [done|].
    apply (ends_rtc z current); [by apply tc_rtc, Hpath|done]. }
  destruct (references !! current) as [[policy [referenced|]]|] eqn:Hlookup.
  - assert (refers_to current (referenced_reference referenced)) as Hstep
      by (unfold refers_to, successor; by rewrite Hlookup).
    case_bool_decide as Hin.
    { exists current, (referenced_reference referenced). split_and!; [done|done|].
      apply elem_of_union in Hin as [->%elem_of_singleton|Hin]; [constructor|by apply tc_rtc, Hpath]. }
    assert (size ({[current]} ∪ path) = S (size path)) as Hsize.
    { rewrite size_union by set_solver. by rewrite size_singleton. }
    assert (forall z, z ∈ {[current]} ∪ path -> tc refers_to z (referenced_reference referenced)) as Hpath'.
    { intros z [->%elem_of_singleton|Hz]%elem_of_union; [by constructor|]. by eapply tc_r; [apply Hpath|]. }
    assert ({[current]} ∪ path ⊆ dom references) as Hdom'.
    { apply union_subseteq. split; [|done]. apply singleton_subseteq_l. by eapply successor_root. }
    specialize (IH _ _ Hcompleted Hpath' Hdom' Hin ltac:(lia)).
    destruct (walk_references fuel references completed _ _) as [[path'|error]|]; [|done..].
    destruct IH as (Hends' & Hsub & _). split_and!; [done|set_solver|right; set_solver].
  - split_and!; [|set_solver|right; set_solver]. apply Hends. exists current.
    split; [constructor|]. unfold successor. by rewrite Hlookup.
  - split_and!; [|set_solver|right; set_solver]. apply Hends. exists current.
    split; [constructor|]. unfold successor. by rewrite Hlookup.
Qed.

Lemma walk_reference_roots_spec (roots : list ReviewFindingRef) completed :
  (forall z, z ∈ completed -> ends z) ->
  match walk_reference_roots (S (size references)) references roots completed with
  | None => False
  | Some (Ok _) => forall x, x ∈ roots -> ends x
  | Some (Err error) => exists x y, error = GraphCycle x y /\ refers_to x y /\ rtc refers_to y x
  end.
Proof.
  revert completed. induction roots as [|root roots IH]; intros completed Hcompleted; cbn [walk_reference_roots].
  { by intros x ?%elem_of_nil. }
  pose proof (walk_references_spec (S (size references)) completed ∅ root Hcompleted) as Hwalk.
  destruct (walk_references (S _) _ _ _ _) as [[path|error]|]; [|by apply Hwalk; (set_solver || lia)..].
  destruct Hwalk as (Hpath & _ & Hroot); [set_solver|set_solver|set_solver|lia|].
  specialize (IH (completed ∪ path)). destruct (walk_reference_roots _ _ _ _) as [[[]|error]|]; [|by apply IH; set_solver..].
  intros x [->|Hx]%elem_of_cons; [|by apply IH; set_solver]. set_solver.
Qed.
End walk.

(** ** The roots and their references *)

Definition finding_root (f : ReviewFinding) : ReviewFindingRef := proposal_reference (finding_proposal f).
Definition finding_policy (f : ReviewFinding) : ReviewPolicy :=
  evidence_policy (proposal_producing_pass (finding_proposal f)).

Definition collected (findings : list ReviewFinding) : reference_map :=
  list_to_map ((fun f => (finding_root f, (finding_policy f, finding_referenced f))) <$> reverse findings).

Lemma lookup_collected findings k v :
  NoDup (finding_root <$> findings) ->
  collected findings !! k = Some v <->
  exists f, f ∈ findings /\ k = finding_root f /\ v = (finding_policy f, finding_referenced f).
Proof.
  intros Hnodup. unfold collected. rewrite <- elem_of_list_to_map, list_elem_of_fmap.
  - setoid_rewrite elem_of_reverse. naive_solver.
  - rewrite <- list_fmap_compose. simpl. by rewrite fmap_reverse, reverse_Permutation.
Qed.

Lemma collect_roots_Ok target findings references :
  try_fold (collect_root target) findings ∅ = Ok references <->
  (forall f, f ∈ findings -> finding_ref_target (finding_root f) = target)
  /\ NoDup (finding_root <$> findings) /\ references = collected findings.
Proof.
  change ∅ with (collected []).
  rewrite (try_fold_checked (collect_root target) collected
    (fun earlier f => finding_ref_target (finding_root f) = target /\ finding_root f ∉ (finding_root <$> earlier))).
  - rewrite (checked_and (fun _ f => finding_ref_target (finding_root f) = target)), checked_all, checked_fresh. tauto.
  - intros earlier f references' [_ Hfresh%checked_fresh]%checked_and.
    unfold collect_root. fold (finding_root f) (finding_policy f). rewrite if_negb_Ok.
    assert (collected (earlier ++ [f])
      = <[finding_root f := (finding_policy f, finding_referenced f)]> (collected earlier)) as Hsnoc
      by (unfold collected; by rewrite reverse_snoc).
    rewrite Hsnoc. destruct (collected earlier !! finding_root f) as [v|] eqn:Hlookup.
    + split; [by intros [_ ?]|]. intros [[_ Hnew] _].
      apply lookup_collected in Hlookup as (g & Hg & Heq & _); [|done].
      destruct Hnew. rewrite Heq. by apply list_elem_of_fmap_2.
    + split; [intros [Htarget [= <-]]|by intros [[? _] ->]]. split; [|done]. split; [done|].
      intros (g & Heq & Hg)%list_elem_of_fmap. rewrite Heq in Hlookup.
      by rewrite (proj2 (lookup_collected earlier _ (finding_policy g, finding_referenced g) Hfresh)) in Hlookup
        by (by exists g).
Qed.

(** Every reference is to a finding of the list with the policy it names. *)
Definition resolved (findings : list ReviewFinding) : Prop :=
  forall f referenced, f ∈ findings -> finding_referenced f = Some referenced ->
    exists g, g ∈ findings /\ finding_root g = referenced_reference referenced
      /\ finding_policy g = referenced_producer_policy referenced.

Lemma resolve_references_Ok findings :
  NoDup (finding_root <$> findings) ->
  try_fold (fun _ entry => resolve_reference (collected findings) entry) (named_iter (collected findings)) tt = Ok tt <->
  resolved findings.
Proof.
  intros Hnodup. rewrite (try_fold_unit (fun _ entry => resolve_reference (collected findings) entry)).
  assert (forall entry, entry ∈ named_iter (collected findings) <->
    exists f, f ∈ findings /\ entry = (finding_root f, (finding_policy f, finding_referenced f))) as Hentry.
  { intros [k v]. unfold named_iter. rewrite merge_sort_Permutation, elem_of_map_to_list, lookup_collected by done.
    naive_solver. }
  assert (forall f, resolve_reference (collected findings) (finding_root f, (finding_policy f, finding_referenced f)) = Ok tt
    <-> forall referenced, finding_referenced f = Some referenced ->
      exists g, g ∈ findings /\ finding_root g = referenced_reference referenced
        /\ finding_policy g = referenced_producer_policy referenced) as Hresolve.
  { intros f. simpl. destruct (finding_referenced f) as [referenced|]; [|done].
    destruct (collected findings !! referenced_reference referenced) as [[policy next]|] eqn:Hlookup.
    - apply lookup_collected in Hlookup as (g & Hg & Hroot & [= -> ->]); [|done]. case_bool_decide as Hpolicy; simpl.
      + split; [|done]. intros _ ? [= <-]. by exists g.
      + split; [done|]. intros Hr. destruct (Hr _ eq_refl) as (g' & Hg' & Hroot' & Hpolicy'). destruct Hpolicy.
        rewrite <- Hpolicy'. f_equal. apply (NoDup_fmap_elem finding_root findings); [done..|congruence].
    - split; [done|]. intros Hr. destruct (Hr _ eq_refl) as (g & Hg & Hroot & _). rewrite <- Hroot in Hlookup.
      by rewrite (proj2 (lookup_collected findings _ (finding_policy g, finding_referenced g) Hnodup)) in Hlookup
        by (by exists g). }
  split.
  - intros Hall f referenced Hf. apply Hresolve, Hall, Hentry. by exists f.
  - intros Hall entry (f & Hf & ->)%Hentry. apply Hresolve. intros referenced. by apply Hall.
Qed.

(** The references between the findings of a list. *)
Definition finding_edge (findings : list ReviewFinding) (x y : ReviewFindingRef) : Prop :=
  exists f referenced, f ∈ findings /\ finding_root f = x /\ finding_referenced f = Some referenced
    /\ referenced_reference referenced = y.

Lemma refers_to_edge findings x y :
  NoDup (finding_root <$> findings) -> refers_to (collected findings) x y <-> finding_edge findings x y.
Proof.
  intros Hnodup. unfold refers_to, successor, finding_edge. split.
  - destruct (collected findings !! x) as [[policy [referenced|]]|] eqn:Hlookup; [|done..]. intros [= <-].
    apply lookup_collected in Hlookup as (f & Hf & -> & [= _ Href]); [|done]. by exists f, referenced.
  - intros (f & referenced & Hf & <- & Href & <-).
    rewrite (proj2 (lookup_collected findings _ (finding_policy f, finding_referenced f) Hnodup)) by (by exists f).
    by rewrite Href.
Qed.

Lemma tc_equiv {A} (R R' : relation A) : (forall x y, R x y <-> R' x y) -> forall x y, tc R x y <-> tc R' x y.
Proof.
  intros HR x y. split; induction 1 as [x y Hxy|x y z Hxy _ IH]; [constructor|eapply tc_l|constructor|eapply tc_l];
    try done; by apply HR.
Qed.

Lemma rtc_equiv {A} (R R' : relation A) : (forall x y, R x y <-> R' x y) -> forall x y, rtc R x y <-> rtc R' x y.
Proof.
  intros HR x y. split; induction 1 as [x|x y z Hxy _ IH]; [constructor|eapply rtc_l|constructor|eapply rtc_l];
    try done; by apply HR.
Qed.

(** Only the walk reports cycles. *)
Lemma collect_no_cycle target findings x y :
  try_fold (collect_root target) findings ∅ <> Err (GraphCycle x y).
Proof.
  intros (earlier & f & later & references & _ & _ & Hf)%try_fold_Err. unfold collect_root in Hf.
  by repeat case_match.
Qed.

Lemma resolve_no_cycle references entries x y :
  try_fold (fun _ entry => resolve_reference references entry) entries tt <> Err (GraphCycle x y).
Proof.
  intros (earlier & [f [policy referenced]] & later & [] & _ & _ & Hf)%try_fold_Err. unfold resolve_reference in Hf.
  by repeat case_match.
Qed.

Lemma roots_of_steps findings x y :
  refers_to (collected findings) x y -> x ∈ (named_iter (collected findings)).*1.
Proof.
  intros Hxy%successor_root. apply elem_of_dom in Hxy as [v Hv]. apply list_elem_of_fmap. exists (x, v). split; [done|].
  unfold named_iter. by rewrite merge_sort_Permutation, elem_of_map_to_list.
Qed.

(** C26. The check of the complete reference graph of a target always ends. It
    accepts a list of findings exactly when all are of one target, none occurs
    twice, every reference is to a finding of the list with the policy the
    reference names, and no finding is reached from itself by references; and a
    cycle it reports is one. *)
Theorem reference_graph_exact findings :
  (exists outcome, validate_reference_graph findings = Some outcome)
  /\ (validate_reference_graph findings = Some (Ok tt) <->
       (forall f g, f ∈ findings -> g ∈ findings ->
         finding_ref_target (finding_root f) = finding_ref_target (finding_root g))
       /\ NoDup (finding_root <$> findings) /\ resolved findings
       /\ forall x, ~ tc (finding_edge findings) x x)
  /\ (forall x y, validate_reference_graph findings = Some (Err (GraphCycle x y)) ->
       finding_edge findings x y /\ rtc (finding_edge findings) y x).
Proof.
  destruct findings as [|first rest].
  { split_and!; [by exists (Ok tt)|split; [intros _|done]|done].
    split_and!; [by intros ? ? ?%elem_of_nil|constructor|by intros ? ? ?%elem_of_nil|].
    intros x Hx. inversion Hx as [? ? (? & ? & ?%elem_of_nil & _)|? ? ? (? & ? & ?%elem_of_nil & _) _]; done. }
  unfold validate_reference_graph. set (target := finding_ref_target _). set (findings := first :: rest).
  assert ((forall f g, f ∈ findings -> g ∈ findings ->
      finding_ref_target (finding_root f) = finding_ref_target (finding_root g))
    <-> forall f, f ∈ findings -> finding_ref_target (finding_root f) = target) as Htarget.
  { split; [intros Hall f Hf; by apply (Hall f first); [|left]|]. intros Hall f g Hf Hg. by rewrite !Hall. }
  rewrite Htarget. pose proof (collect_roots_Ok target findings) as Hcollect.
  pose proof (collect_no_cycle target findings) as Hno.
  destruct (try_fold (collect_root target) findings ∅) as [references|error].
  2: { split_and!; [by exists (Err error)| |intros x y [= ->]; by destruct (Hno x y)].
       split; [done|]. intros (Hall & Hnodup & _). by specialize (proj2 (Hcollect _) (conj Hall (conj Hnodup eq_refl))). }
  destruct (proj1 (Hcollect references) eq_refl) as (Hall & Hnodup & ->). clear Hcollect Hno.
  pose proof (resolve_references_Ok findings Hnodup) as Hresolve.
  pose proof (resolve_no_cycle (collected findings) (named_iter (collected findings))) as Hno.
  destruct (try_fold _ (named_iter (collected findings)) tt) as [[]|error].
  2: { split_and!; [by exists (Err error)| |intros x y [= ->]; by destruct (Hno x y)].
       split; [done|]. intros (_ & _ & Hresolved & _). by apply Hresolve in Hresolved. }
  assert (forall x y, refers_to (collected findings) x y <-> finding_edge findings x y) as Hedge
    by (intros x y; by apply refers_to_edge).
  pose proof (walk_reference_roots_spec (collected findings) (named_iter (collected findings)).*1 ∅) as Hwalk.
  destruct (walk_reference_roots _ _ _ _) as [[[]|error]|]; [..|exfalso; apply Hwalk; set_solver].
  - split_and!; [by eexists|split; [intros _|done]|done]. split_and!; [done|done|by apply Hresolve|].
    intros x Hx%(tc_equiv _ _ Hedge). apply (ends_no_cycle (collected findings) x); [|done].
    apply Hwalk; [set_solver|]. inversion Hx; by eapply roots_of_steps.
  - destruct Hwalk as (x & y & -> & Hxy & Hyx); [set_solver|]. split_and!; [by eexists|split; [done|]|].
    + intros (_ & _ & _ & Hacyclic). destruct (Hacyclic x). apply (tc_equiv _ _ Hedge). by eapply tc_rtc_r; [constructor|].
    + intros x' y' [= <- <-]. split; [by apply Hedge|by apply (rtc_equiv _ _ Hedge)].
Qed.

(** ** Events *)

Definition event_pair (e : ReviewFindingEvent) : evidence_pair := (event_pass_evidence e, event_run e).

Definition finding_evidence (f : ReviewFinding) : list evidence_pair :=
  producing_claim (finding_proposal f) :: (event_pair <$> finding_events f).

(** The link a posted event publishes through. *)
Definition event_posted (e : ReviewFindingEvent) : option ReviewExternalLinkId :=
  match event_kind e with FindingPosted link => Some (finding_link_link link) | _ => None end.

(** The status an event leaves. *)
Definition status_of (kind : ReviewFindingEventKind) : ReviewFindingStatus :=
  match kind with
  | FindingAccepted _ => StatusAccepted
  | FindingRejected _ => StatusRejected
  | FindingDuplicate _ => StatusDuplicate
  | FindingSuperseded _ => StatusSuperseded
  | FindingStale => StatusStale
  | FindingPosted _ => StatusPosted
  | FindingFixed => StatusFixed
  | FindingBlocked _ _ => StatusBlocked
  end.

Definition event_follows (earlier : list ReviewFindingEvent) (e : ReviewFindingEvent) : Prop :=
  match last earlier with
  | Some previous => event_ordinal_checked_successor (event_finding_ordinal previous) = Some (event_finding_ordinal e)
  | None => event_finding_ordinal e = event_ordinal_one
  end.

(** What an event needs of the finding it is applied to. *)
Record event_fits (f : ReviewFinding) (e : ReviewFindingEvent) : Prop := {
  fits_finding : event_finding e = finding_root f;
  fits_ordinal : event_follows (finding_events f) e;
  fits_target : pass_ref_target (event_pass e) = finding_ref_target (finding_root f);
  fits_pass : event_pass e = evidence_reference (event_pass_evidence e);
  fits_run : run_evidence_matches_pass (event_run e) (event_pass_evidence e) = true;
  fits_pass_policy : run_evidence_policy (event_run e) = evidence_policy (event_pass_evidence e);
  fits_policy : run_evidence_policy (event_run e) = finding_policy f;
  fits_evidence : agrees (finding_evidence f) (event_pair e);
  fits_result : finding_event_matches_pass_evidence e (event_pass_evidence e) = true;
  fits_judgment : forall confidence, event_kind e = FindingAccepted confidence ->
    (basis_points (minimum_judge_confidence (finding_policy f)) <= basis_points (policy_confidence confidence))%N;
  fits_publication : forall link, event_kind e = FindingPosted link ->
    exists confidence, judge_confidence f = Some confidence
      /\ (basis_points (minimum_publication_confidence (finding_policy f)) <= basis_points (policy_confidence confidence))%N;
  fits_reference : validate_finding_reference f e = None;
  fits_link : forall link, event_posted e = Some link -> link ∉ finding_publication_links f;
  fits_transition : finding_transition (finding_status f) (event_kind e) (last (finding_events f))
    = Some (status_of (event_kind e));
}.

Definition after_event (f : ReviewFinding) (e : ReviewFindingEvent) : ReviewFinding :=
  mkFinding (finding_proposal f) (finding_events f ++ [e]) (status_of (event_kind e))
    (entry_or_insert (pair_pass (event_pair e)) (event_pair e) (finding_pass_claims f))
    (entry_or_insert (pair_run (event_pair e)) (event_pair e) (finding_run_claims f))
    (match event_posted e with
     | Some link => {[link]} ∪ finding_publication_links f
     | None => finding_publication_links f
     end).

Lemma finding_transition_status status kind previous next :
  finding_transition status kind previous = Some next -> next = status_of kind.
Proof.
  destruct status, kind as [| | | | | | |]; simpl; try done; try (by intros [= <-]); by repeat case_match; intros [= <-].
Qed.

(** What a finding keeps. *)
Record finding_ok (f : ReviewFinding) : Prop := {
  finding_ok_consistent : consistent (finding_evidence f);
  finding_ok_passes : evidence_indexes pair_pass (finding_pass_claims f) (event_pair <$> finding_events f);
  finding_ok_runs : evidence_indexes pair_run (finding_run_claims f) (event_pair <$> finding_events f);
  finding_ok_links : forall link, link ∈ finding_publication_links f <-> link ∈ omap event_posted (finding_events f);
  finding_ok_status : finding_status f
    = match last (finding_events f) with Some e => status_of (event_kind e) | None => StatusOpen end;
}.

(** The lookups of [finding_apply] find contradictions with what is known. *)
Lemma prior_agrees `{Countable K} (key : evidence_pair -> K) (m : gmap K evidence_pair) events producing e :
  consistent (producing :: events) -> (forall x y, key x = key y -> pair_pass x = pair_pass y \/ pair_run x = pair_run y) ->
  evidence_indexes key m events ->
  match (if bool_decide (key producing = key e) then Some producing else m !! key e) with
  | Some prior => negb (bool_decide (prior = e))
  | None => false
  end = false <-> forall x, x ∈ producing :: events -> key x = key e -> x = e.
Proof.
  intros Hconsistent Hkey Hm. case_bool_decide as Hproducing.
  - rewrite negb_false_iff, bool_decide_eq_true. split; [|intros Hall; by apply Hall; [left|]].
    intros <- x Hx Hx'. apply (Hconsistent producing); [by left|done|auto].
  - split.
    + intros Hprior x [->|Hx]%elem_of_cons Hx'; [done|].
      rewrite (proj2 (Hm (key e) x)) in Hprior by done. by apply negb_false_iff, bool_decide_eq_true in Hprior.
    + intros Hall. destruct (m !! key e) as [prior|] eqn:Hprior; [|done]. apply Hm in Hprior as [Hin Hk].
      rewrite negb_false_iff, bool_decide_eq_true. apply Hall; [by right|done].
Qed.

(** The threshold and link checks of [finding_apply]. *)
Lemma judgment_threshold kind minimum :
  match kind with
  | FindingAccepted confidence => (basis_points (policy_confidence confidence) <? basis_points minimum)%N
  | _ => false
  end = false <-> forall confidence, kind = FindingAccepted confidence ->
    (basis_points minimum <= basis_points (policy_confidence confidence))%N.
Proof. destruct kind; try done. rewrite N.ltb_ge. split; [by intros ? ? [= <-]|auto]. Qed.

Lemma publication_threshold kind (judged : option ReviewJudgeConfidence) minimum :
  match kind with
  | FindingPosted _ =>
      match judged with
      | None => true
      | Some confidence => (basis_points (policy_confidence confidence) <? basis_points minimum)%N
      end
  | _ => false
  end = false <-> forall link, kind = FindingPosted link -> exists confidence, judged = Some confidence
    /\ (basis_points minimum <= basis_points (policy_confidence confidence))%N.
Proof.
  destruct kind; try done. destruct judged as [confidence|].
  - rewrite N.ltb_ge. split; [intros ? ? _; by exists confidence|]. intros Hall.
    by destruct (Hall _ eq_refl) as (? & [= <-] & ?).
  - split; [done|]. intros Hall. by destruct (Hall _ eq_refl) as (? & ? & ?).
Qed.

Lemma reused_link e (links : gset ReviewExternalLinkId) :
  match event_kind e with FindingPosted link => bool_decide (finding_link_link link ∈ links) | _ => false end = false
  <-> forall link, event_posted e = Some link -> link ∉ links.
Proof.
  unfold event_posted. destruct (event_kind e); try done. rewrite bool_decide_eq_false.
  split; [by intros ? ? [= <-]|auto].
Qed.

Lemma finding_apply_Ok f e f' :
  finding_ok f -> finding_apply f e = Ok f' <-> event_fits f e /\ f' = after_event f e.
Proof.
  intros Hok. unfold finding_apply. cbv zeta. fold (finding_root f) (finding_policy f).
  case_bool_decide as Hfinding; cbn [negb]; [|split; [done|by intros [[] _]]].
  case_bool_decide as Hordinal; cbn [negb].
  2: { split; [done|]. intros [[_ Hfollows] _]. destruct Hordinal. unfold event_follows in Hfollows.
       destruct (last _); congruence. }
  case_bool_decide as Htarget; cbn [negb]; [|split; [done|by intros [[] _]]].
  case_bool_decide as Hpass; cbn [negb]; [|split; [done|by intros [[] _]]].
  destruct (run_evidence_matches_pass _ _) eqn:Hrun; cbn [negb]; [|split; [done|intros [[] _]; congruence]].
  case_bool_decide as Hpolicy; cbn [negb orb]; [|split; [done|by intros [[] _]]].
  case_bool_decide as Hproducer; cbn [negb]; [|split; [done|by intros [[] _]]].
  rewrite !Hpass. fold (event_pair e).
  pose proof (prior_agrees pair_pass (finding_pass_claims f) (event_pair <$> finding_events f)
    (producing_claim (finding_proposal f)) (event_pair e) (finding_ok_consistent f Hok)
    ltac:(by left) (finding_ok_passes f Hok)) as Hprior.
  pose proof (prior_agrees pair_run (finding_run_claims f) (event_pair <$> finding_events f)
    (producing_claim (finding_proposal f)) (event_pair e) (finding_ok_consistent f Hok)
    ltac:(by right) (finding_ok_runs f Hok)) as Hprior'.
  match goal with |- (if ?b then Err _ else _) = _ <-> _ => destruct b eqn:Hb end.
  { split; [done|]. intros [Hfits _]. enough (true = false) by done. rewrite <- Hb. apply Hprior.
    intros x Hx Hk. apply (fits_evidence _ _ Hfits); [done|by left]. }
  match goal with |- (if ?b then Err _ else _) = _ <-> _ => destruct b eqn:Hb' end.
  { split; [done|]. intros [Hfits _]. enough (true = false) by done. rewrite <- Hb'. apply Hprior'.
    intros x Hx Hk. apply (fits_evidence _ _ Hfits); [done|by right]. }
  assert (agrees (finding_evidence f) (event_pair e)) as Hagrees.
  { intros x Hx [Hk|Hk]; [by apply (proj1 Hprior Hb)|by apply (proj1 Hprior' Hb')]. }
  clear Hprior Hprior' Hb Hb'.
  destruct (finding_event_matches_pass_evidence _ _) eqn:Hresult; cbn [negb]; [|split; [done|intros [[] _]; congruence]].
  rewrite Hproducer.
  pose proof (judgment_threshold (event_kind e) (minimum_judge_confidence (finding_policy f))) as Hjudgment.
  match goal with |- (if ?b then Err _ else _) = _ <-> _ => destruct b end.
  { split; [done|]. intros [[] _]. by enough (true = false) by done; apply Hjudgment. }
  pose proof (publication_threshold (event_kind e) (judge_confidence f)
    (minimum_publication_confidence (finding_policy f))) as Hpublication.
  match goal with |- (if ?b then Err _ else _) = _ <-> _ => destruct b end.
  { split; [done|]. intros [[] _]. by enough (true = false) by done; apply Hpublication. }
  destruct (validate_finding_reference f e) eqn:Hreference; [split; [done|intros [[] _]; congruence]|].
  pose proof (reused_link e (finding_publication_links f)) as Hlink.
  match goal with |- (if ?b then Err _ else _) = _ <-> _ => destruct b end.
  { split; [done|]. intros [[] _]. by enough (true = false) by done; apply Hlink. }
  destruct (finding_transition _ _ _) as [next|] eqn:Htransition; [|split; [done|intros [[] _]; congruence]].
  pose proof (finding_transition_status _ _ _ _ Htransition) as ->. split.
  - intros [= <-]. split.
    + constructor; try done; [|by apply Hjudgment|by apply Hpublication|by apply Hlink].
      unfold event_follows. destruct (last _); [done|by injection Hordinal].
    + unfold after_event, event_posted. by destruct (event_kind e).
  - intros [_ ->]. unfold after_event, event_posted. by destruct (event_kind e).
Qed.

(** ** Histories *)

Lemma finding_new_ok proposal : finding_ok (finding_new proposal).
Proof.
  constructor; try done.
  - intros x Hx y Hy _. apply list_elem_of_singleton in Hx as ->. by apply list_elem_of_singleton in Hy as ->.
  - intros k x. simpl. rewrite lookup_empty. split; [done|by intros [?%elem_of_nil _]].
  - intros k x. simpl. rewrite lookup_empty. split; [done|by intros [?%elem_of_nil _]].
  - intros link. simpl. set_solver.
Qed.

Lemma after_event_ok f e : finding_ok f -> event_fits f e -> finding_ok (after_event f e).
Proof.
  intros [Hconsistent Hpasses Hruns Hlinks _] Hfits. pose proof (fits_evidence _ _ Hfits) as Hagrees.
  assert (forall x, x ∈ event_pair <$> (finding_events f ++ [e]) <->
    x = event_pair e \/ x ∈ event_pair <$> finding_events f)
    as Heq by (intros x; rewrite fmap_app; set_solver).
  constructor.
  - apply (consistent_insert (finding_evidence f) _ (event_pair e)); [done|done|].
    intros x. unfold finding_evidence. simpl. rewrite !elem_of_cons, Heq. tauto.
  - apply (indexes_insert _ _ (event_pair <$> finding_events f)); [done|done|].
    intros x Hx Hk. apply Hagrees; [by right|by left].
  - apply (indexes_insert _ _ (event_pair <$> finding_events f)); [done|done|].
    intros x Hx Hk. apply Hagrees; [by right|by right].
  - intros link. unfold after_event. cbn [finding_publication_links finding_events].
    rewrite omap_snoc, elem_of_app, <- Hlinks. destruct (event_posted e); set_solver.
  - simpl. by rewrite last_snoc.
Qed.

(** A finding of a proposal that has gone through events. *)
Record went_through (proposal : ReviewFindingProposal) (events : list ReviewFindingEvent) (f : ReviewFinding) : Prop := {
  went_proposal : finding_proposal f = proposal;
  went_events : finding_events f = events;
  went_ok : finding_ok f;
}.

Lemma finding_history_checked proposal events f :
  finding_try_reconstitute proposal events = Ok f ->
  went_through proposal events f
  /\ checked (fun earlier e => exists g, went_through proposal earlier g /\ event_fits g e) events.
Proof.
  intros Hf. refine (try_fold_ind finding_apply (fun events f => went_through proposal events f /\ _ events)
    events (finding_new proposal) f _ _ Hf).
  - split; [split; [done|done|apply finding_new_ok]|by intros [|? ?] ? ? ?].
  - intros earlier e later g g' _ [Hg Hchecked] Hstep. apply finding_apply_Ok in Hstep as [Hfits ->]; [|apply Hg]. split.
    + destruct Hg as [Hproposal Hevents Hok]. split; [done|simpl; by rewrite Hevents|by apply after_event_ok].
    + apply checked_snoc. split; [done|]. by exists g.
Qed.

(** What the pass of an event committed to. *)
Definition committed (pass : ReviewPassEvidence) : option ReviewFindingEventResult :=
  match pass_state_result (evidence_state pass) with
  | Some (PassFindingEvent event) => Some event
  | Some (PassLinkAttachment attachment) => attachment_result_event attachment
  | _ => None
  end.

Lemma matches_committed e pass :
  finding_event_matches_pass_evidence e pass = true ->
  committed pass
    = Some (mkEventResult (event_finding e) (event_finding_ordinal e) (event_result_kind (event_kind e)))
  /\ evidence_kind pass <> KindReadOnly.
Proof.
  unfold finding_event_matches_pass_evidence, committed. rewrite andb_true_iff. intros [Hkind Houtcome]. split.
  - destruct (event_kind e), (evidence_state pass) as [| |? ? [[]|]| |? [[]|]|]; try done; simpl;
      rewrite ?andb_true_iff, ?bool_decide_eq_true in Houtcome; naive_solver.
  - intros Hread. rewrite Hread in Hkind. by destruct (event_kind e) as [| | | | | | |? []].
Qed.

(** The kinds of event nothing follows. *)
Definition terminal_kind (kind : ReviewFindingEventKind) : bool :=
  match kind with
  | FindingRejected _ | FindingDuplicate _ | FindingSuperseded _ | FindingStale | FindingFixed => true
  | FindingAccepted _ | FindingPosted _ | FindingBlocked _ _ => false
  end.

Lemma terminal_transition kind next previous :
  terminal_kind kind = true -> finding_transition (status_of kind) next previous = None.
Proof. by destruct kind, next. Qed.

Section history.
Context (proposal : ReviewFindingProposal) (events : list ReviewFindingEvent) (f : ReviewFinding).
Hypothesis Hf : finding_try_reconstitute proposal events = Ok f.

(** The finding an event of the history was applied to. *)
Lemma history_event earlier e later :
  events = earlier ++ e :: later -> exists g, went_through proposal earlier g /\ event_fits g e.
Proof. intros Hevents. by apply (proj2 (finding_history_checked _ _ _ Hf) earlier e later). Qed.

Lemma history_ordinals i e : events !! i = Some e -> event_ordinal (event_finding_ordinal e) = Pos.of_succ_nat i.
Proof.
  revert e. induction i as [|i IH]; intros e Hi; pose proof (take_drop_middle _ _ _ Hi) as Hevents; symmetry in Hevents;
    apply history_event in Hevents as (g & [_ Hg _] & Hfits);
    pose proof (fits_ordinal _ _ Hfits) as Hfollows; rewrite Hg in Hfollows; unfold event_follows in Hfollows.
  - simpl in Hfollows. by rewrite Hfollows.
  - destruct (lookup_lt_is_Some_2 events i) as [previous Hprevious]; [apply lookup_lt_Some in Hi; lia|].
    rewrite (take_S_r _ _ _ Hprevious), last_snoc in Hfollows.
    by rewrite (checked_successor_Some _ _ Hfollows), (IH _ Hprevious).
Qed.

Lemma history_accepted earlier e later confidence :
  events = earlier ++ e :: later -> event_kind e = FindingAccepted confidence -> earlier = [].
Proof.
  intros (g & [_ <- Hok] & Hfits)%history_event Hkind.
  pose proof (fits_transition _ _ Hfits) as Hnext. rewrite Hkind, (finding_ok_status _ Hok) in Hnext.
  destruct (last (finding_events g)) as [previous|] eqn:Hlast; [by destruct (event_kind previous)|].
  by apply last_None.
Qed.

Lemma history_committed e :
  e ∈ events ->
  committed (event_pass_evidence e)
    = Some (mkEventResult (event_finding e) (event_finding_ordinal e) (event_result_kind (event_kind e)))
  /\ evidence_kind (event_pass_evidence e) <> KindReadOnly.
Proof.
  intros (earlier & later & Hevents)%list_elem_of_split. apply history_event in Hevents as (g & _ & Hfits).
  by apply matches_committed, Hfits.
Qed.

Lemma history_evidence_NoDup :
  evidence_kind (proposal_producing_pass proposal) = KindReadOnly ->
  NoDup (producing_claim proposal :: (event_pair <$> events)).
Proof.
  intros Hproducing. apply NoDup_cons. split.
  - intros (e & Heq & He)%list_elem_of_fmap. apply history_committed in He as [_ Hkind].
    destruct Hkind. injection Heq as Hpass _. by rewrite <- Hpass.
  - apply NoDup_alt. intros i j e. rewrite !list_lookup_fmap_Some. intros (x & -> & Hx) (y & Heq & Hy).
    pose proof (proj1 (history_committed x (list_elem_of_lookup_2 _ _ _ Hx))) as Hcx.
    pose proof (proj1 (history_committed y (list_elem_of_lookup_2 _ _ _ Hy))) as Hcy.
    injection Heq as Hpass _. rewrite Hpass, Hcy in Hcx. injection Hcx as _ Hordinal _.
    apply history_ordinals in Hx, Hy. rewrite Hordinal in Hy. rewrite Hx in Hy. lia.
Qed.
End history.

Lemma judged_event f confidence :
  judge_confidence f = Some confidence ->
  exists earlier e later, finding_events f = earlier ++ e :: later /\ event_kind e = FindingAccepted confidence.
Proof.
  unfold judge_confidence. intros Hhead. assert (confidence ∈ omap event_judge_confidence (finding_events f)) as Hin.
  { destruct (omap _ _); [done|]. injection Hhead as ->. by left. }
  apply list_elem_of_omap in Hin as (e & (earlier & later & Hevents)%list_elem_of_split & He).
  exists earlier, e, later. split; [done|]. unfold event_judge_confidence in He.
  destruct (event_kind e); try done. by injection He as ->.
Qed.

(** C25. A finding with any accepted history: its events are numbered from one
    without a gap and each is exactly what the result of its pass committed to;
    a judgment comes first and reaches the judgment threshold of the policy the
    finding was produced under; every publication follows a judgment that
    reaches the publication threshold, through a link no other used; nothing
    follows an event that ends the finding; and no pass and no run stands
    behind two events or behind an event and the finding itself. *)
Theorem finding_history_sound proposal events f
    (Hproducer : evidence_kind (proposal_producing_pass proposal) = KindReadOnly)
    (Hf : finding_try_reconstitute proposal events = Ok f) :
  let policy := evidence_policy (proposal_producing_pass proposal) in
  finding_events f = events
  /\ finding_status f = match last events with Some e => status_of (event_kind e) | None => StatusOpen end
  /\ (forall i e, events !! i = Some e -> event_ordinal (event_finding_ordinal e) = Pos.of_succ_nat i)
  /\ (forall e, e ∈ events -> committed (event_pass_evidence e)
       = Some (mkEventResult (event_finding e) (event_finding_ordinal e) (event_result_kind (event_kind e))))
  /\ (forall earlier e later confidence, events = earlier ++ e :: later -> event_kind e = FindingAccepted confidence ->
       earlier = [] /\ (basis_points (minimum_judge_confidence policy) <= basis_points (policy_confidence confidence))%N)
  /\ (forall earlier e later link, events = earlier ++ e :: later -> event_kind e = FindingPosted link ->
       exists judged rest confidence, earlier = judged :: rest /\ event_kind judged = FindingAccepted confidence
         /\ (basis_points (minimum_publication_confidence policy) <= basis_points (policy_confidence confidence))%N)
  /\ NoDup (omap event_posted events)
  /\ (forall earlier e later, events = earlier ++ e :: later -> terminal_kind (event_kind e) = true -> later = [])
  /\ NoDup (pair_pass <$> producing_claim proposal :: (event_pair <$> events))
  /\ NoDup (pair_run <$> producing_claim proposal :: (event_pair <$> events)).
Proof.
  destruct (finding_history_checked _ _ _ Hf) as [[Hproposal Hevents Hok] Hchecked].
  pose proof (history_evidence_NoDup _ _ _ Hf Hproducer) as Hnodup.
  pose proof (finding_ok_consistent _ Hok) as Hconsistent. unfold finding_evidence in Hconsistent.
  rewrite Hproposal, Hevents in Hconsistent. intros policy. split_and!.
  - done.
  - by rewrite (finding_ok_status _ Hok), Hevents.
  - intros i e. by eapply history_ordinals.
  - intros e He. by apply (history_committed _ _ _ Hf e He).
  - intros earlier e later confidence Hsplit Hkind. split; [by eapply history_accepted|].
    destruct (Hchecked _ _ _ Hsplit) as (g & [Hg _ _] & Hfits). unfold policy. rewrite <- Hg.
    by apply (fits_judgment _ _ Hfits).
  - intros earlier e later link Hsplit Hkind. destruct (Hchecked _ _ _ Hsplit) as (g & [Hg Hge _] & Hfits).
    destruct (fits_publication _ _ Hfits link Hkind) as (confidence & Hjudged & Hmin).
    apply judged_event in Hjudged as (before & judged & rest & Hearlier & Haccepted). rewrite Hge in Hearlier. subst earlier.
    assert (before = []) as ->.
    { apply (history_accepted _ _ _ Hf before judged (rest ++ e :: later) confidence); [|done].
      by rewrite Hsplit, Hearlier, <- app_assoc. }
    exists judged, rest, confidence. split; [done|]. split; [done|]. unfold policy. by rewrite <- Hg.
  - apply checked_fresh_omap. intros earlier e later Hsplit link Hlink.
    destruct (Hchecked _ _ _ Hsplit) as (g & [_ <- Hgok] & Hfits). rewrite <- (finding_ok_links _ Hgok).
    by apply (fits_link _ _ Hfits).
  - intros earlier e [|next later] Hsplit Hterminal; [done|].
    destruct (Hchecked (earlier ++ [e]) next later) as (g & [_ Hg Hgok] & Hfits); [by rewrite Hsplit, <- app_assoc|].
    pose proof (fits_transition _ _ Hfits) as Hnext. rewrite (finding_ok_status _ Hgok), Hg, last_snoc in Hnext.
    by rewrite terminal_transition in Hnext.
  - apply NoDup_fmap_2_strong; [|done]. intros x y Hx Hy Hkey. by apply (Hconsistent y Hy); [|left].
  - apply NoDup_fmap_2_strong; [|done]. intros x y Hx Hy Hkey. by apply (Hconsistent y Hy); [|right].
Qed.

Lemma finding_history_sound_witness :
  let key := mkReviewKey (lit "object") in
  let pass run pass kind result :=
    mkPassEvidence (mkPassRef (mkRunRef (from_uuid 1) (from_uuid run)) (from_uuid pass)) kind
      policy_version_one_tuple (PassSucceeded (from_uuid 4) (from_uuid 5) (Some result)) in
  let run pass workflow :=
    mkRunEvidence (pass_ref_run (evidence_reference pass)) workflow policy_version_one_tuple
      (RunSucceeded (evidence_reference pass)) in
  let reference := mkFindingRef (mkPassRef (mkRunRef (from_uuid 1) (from_uuid 2)) (from_uuid 3)) (from_uuid 7) in
  let producing := pass 2%N 3%N KindReadOnly (PassProducedFindings (mkProducedFindings [reference])) in
  let content := mkFindingContent (mkLocation key None None) (mkReviewText (lit "t")) (mkReviewText (lit "b"))
    SeverityHigh (mkConfidenceAxes (mkConfidence 9000) (mkConfidence 9000)) key None in
  let judged := mkEventResult reference event_ordinal_one (ResultAccepted (mkJudgeConfidence 5)) in
  let judging := pass 11%N 12%N KindJudge (PassFindingEvent judged) in
  let posted := mkEventResult reference (mkEventOrdinal 2) (ResultPosted (from_uuid 9)) in
  let attaching := pass 21%N 22%N KindPublish
    (PassLinkAttachment (mkAttachmentResult (from_uuid 9) key (Some posted))) in
  let proposal := mkProposal reference producing content in
  let events :=
    [mkFindingEvent reference event_ordinal_one (evidence_reference judging) judging (run judging JudgeFindings)
       (FindingAccepted (mkJudgeConfidence 5));
     mkFindingEvent reference (mkEventOrdinal 2) (evidence_reference attaching) attaching (run attaching PublishReview)
       (FindingPosted (mkFindingLink reference (from_uuid 9) attaching))] in
  exists f, finding_try_reconstitute proposal events = Ok f /\ finding_status f = StatusPosted
    /\ NoDup (omap event_posted events).
Proof.
  intros key pass run reference producing content judged judging posted attaching proposal events.
  set (f := match finding_try_reconstitute proposal events with Ok f => f | Err _ => finding_new proposal end).
  assert (finding_try_reconstitute proposal events = Ok f) as Hf by reflexivity.
  exists f. split; [exact Hf|].
  destruct (finding_history_sound proposal events f eq_refl Hf) as (_ & Hstatus & _ & _ & _ & _ & Hlinks & _).
  split; [exact Hstatus|exact Hlinks].
Defined.

(** ** Publication *)

(** C24. What an attached link publishes reaches its finding: when the pass that
    attached a link of any history reports a finding event, and the finding is
    accepted with a judgment above the publication threshold and awaits the
    ordinal of the event under the policy of the run, then the link gives a
    reference bound to the finding and the event that carries it is accepted. *)
Theorem attached_link_posts target link a turn frontier outcome event proposal events f confidence
    (Hlink : link_history target link) (Ha : link_attachment link = Some a)
    (Hstate : evidence_state (attachment_pass_evidence a)
       = PassSucceeded turn frontier (Some (PassLinkAttachment outcome)))
    (Hevent : attachment_result_event outcome = Some event)
    (Hf : finding_try_reconstitute proposal events = Ok f)
    (Hfinding : result_finding event = proposal_reference proposal)
    (Hstatus : finding_status f = StatusAccepted)
    (Hordinal : match last events with
                | Some previous => event_ordinal_checked_successor (event_finding_ordinal previous)
                | None => Some event_ordinal_one
                end = Some (result_ordinal event))
    (Hpolicy : run_evidence_policy (attachment_run a) = evidence_policy (proposal_producing_pass proposal))
    (Hjudged : judge_confidence f = Some confidence)
    (Hthreshold : (basis_points (minimum_publication_confidence (evidence_policy (proposal_producing_pass proposal)))
       <= basis_points (policy_confidence confidence))%N)
    (Hfresh : agrees (finding_evidence f) (attachment_pair a)) (Hnew : link_id link ∉ omap event_posted events) :
  exists reference f', finding_link_try_new (result_finding event) link = Ok reference
    /\ finding_apply f (mkFindingEvent (result_finding event) (result_ordinal event) (attachment_pass a)
         (attachment_pass_evidence a) (attachment_run a) (FindingPosted reference)) = Ok f'
    /\ finding_status f' = StatusPosted.
Proof.
  destruct (finding_history_checked _ _ _ Hf) as [[Hproposal Hevents Hok] _].
  destruct (valid_attachment _ _ (link_history_valid _ _ Hlink) a Ha) as
    (_ & Hpass & Htarget & Hrun & ? & ? & outcome' & Hstate' & Hkind & Hlinkid & _ & Hcompatible).
  rewrite Hstate in Hstate'. injection Hstate' as <- <- <-. specialize (Hcompatible event Hevent).
  unfold attachment_event_incompatible in Hcompatible. rewrite !orb_false_iff, !negb_false_iff in Hcompatible.
  destruct Hcompatible as [[[Hassociation%bool_decide_eq_true Hposted] Hobject] _].
  assert (result_kind event = ResultPosted (link_id link)) as Hresult.
  { destruct (result_kind event); try done. apply bool_decide_eq_true in Hposted. by subst. }
  set (reference := mkFindingLink (result_finding event) (link_id link) (attachment_pass_evidence a)).
  set (e := mkFindingEvent (result_finding event) (result_ordinal event) (attachment_pass a)
    (attachment_pass_evidence a) (attachment_run a) (FindingPosted reference)).
  exists reference, (after_event f e). split_and!; [|apply finding_apply_Ok; [done|]; split; [|done]|done].
  { unfold finding_link_try_new. rewrite Hassociation, bool_decide_true, Ha by done. simpl.
    by destruct (link_object_kind link). }
  assert (evidence_policy (attachment_pass_evidence a) = run_evidence_policy (attachment_run a)) as Hpass_policy.
  { unfold run_evidence_matches_pass in Hrun. rewrite !andb_true_iff, !bool_decide_eq_true in Hrun. naive_solver. }
  constructor; unfold e, finding_root, finding_policy; rewrite ?Hproposal, ?Hevents; simpl; try done.
  - unfold event_follows. destruct (last events); [done|by injection Hordinal].
  - rewrite Htarget, Hassociation. simpl. by rewrite Hfinding.
  - unfold finding_event_matches_pass_evidence. simpl. rewrite Hstate, Hevent. simpl.
    rewrite Hlinkid, !bool_decide_true; [|by destruct event; simpl in *; subst|done].
    by destruct Hkind as [-> | ->].
  - intros link' [= <-]. by exists confidence.
  - unfold validate_finding_reference. simpl. rewrite Hproposal, Hfinding, !bool_decide_true by done. done.
  - intros l [= <-]. by rewrite (finding_ok_links _ Hok), Hevents.
  - by rewrite Hstatus.
Qed.

Lemma attached_link_posts_witness :
  let key := mkReviewKey (lit "object") in
  let target := mkTarget (from_uuid 1) key key SubjectCommit key None None [] [] in
  let pass run pass kind result :=
    mkPassEvidence (mkPassRef (mkRunRef (from_uuid 1) (from_uuid run)) (from_uuid pass)) kind
      policy_version_one_tuple (PassSucceeded (from_uuid 4) (from_uuid 5) (Some result)) in
  let run pass workflow :=
    mkRunEvidence (pass_ref_run (evidence_reference pass)) workflow policy_version_one_tuple
      (RunSucceeded (evidence_reference pass)) in
  let reference := mkFindingRef (mkPassRef (mkRunRef (from_uuid 1) (from_uuid 2)) (from_uuid 3)) (from_uuid 7) in
  let producing := pass 2%N 3%N KindReadOnly (PassProducedFindings (mkProducedFindings [reference])) in
  let content := mkFindingContent (mkLocation key None None) (mkReviewText (lit "t")) (mkReviewText (lit "b"))
    SeverityHigh (mkConfidenceAxes (mkConfidence 9000) (mkConfidence 9000)) key None in
  let judged := mkEventResult reference event_ordinal_one (ResultAccepted (mkJudgeConfidence 5)) in
  let judging := pass 11%N 12%N KindJudge (PassFindingEvent judged) in
  let posted := mkEventResult reference (mkEventOrdinal 2) (ResultPosted (from_uuid 9)) in
  let attaching := pass 21%N 22%N KindPublish
    (PassLinkAttachment (mkAttachmentResult (from_uuid 9) key (Some posted))) in
  let a := mkAttachment (from_uuid 9) (evidence_reference attaching) attaching (run attaching PublishReview) key in
  let accepted := mkFindingEvent reference event_ordinal_one (evidence_reference judging) judging
    (run judging JudgeFindings) (FindingAccepted (mkJudgeConfidence 5)) in
  exists link f f' e, link_history target link
    /\ finding_try_reconstitute (mkProposal reference producing content) [accepted] = Ok f
    /\ finding_apply f e = Ok f' /\ finding_status f' = StatusPosted.
Proof.
  intros key target pass run reference producing content judged judging posted attaching a accepted.
  set (fresh := mkLink (from_uuid 9) (AssociatedFinding reference) key ReviewThreadObject None [] [] ∅ ∅).
  set (proposal := mkProposal reference producing content).
  set (f := after_event (finding_new proposal) accepted).
  assert (link_history target (attached fresh a)) as Hlink.
  { apply (link_attached target fresh a); [|reflexivity].
    by apply (link_reserved target (from_uuid 9) (AssociatedFinding reference) key ReviewThreadObject). }
  assert (finding_try_reconstitute proposal [accepted] = Ok f) as Hf by reflexivity.
  edestruct (attached_link_posts target (attached fresh a) a (from_uuid 4) (from_uuid 5)
    (mkAttachmentResult (from_uuid 9) key (Some posted)) posted proposal [accepted] f (mkJudgeConfidence 5))
    as (link & f' & _ & Happly & Hstatus); try reflexivity; [exact Hlink|by vm_compute|..].
  - intros x [->|[->|[]%elem_of_nil]%elem_of_cons]%elem_of_cons [Hk|Hk]; discriminate Hk.
  - by intros ?%elem_of_nil.
  - by exists (attached fresh a), f, f', (mkFindingEvent (result_finding posted) (result_ordinal posted)
      (attachment_pass a) (attachment_pass_evidence a) (attachment_run a) (FindingPosted link)).
Defined.

(** Evidence of a finding another event refers to is the same whether it is
    taken from the finding or reconstituted from its producers. *)
Lemma referenced_evidence_exact reference pass run target content proposal events f :
  proposal_try_new reference pass run target content = Ok proposal ->
  finding_try_reconstitute proposal events = Ok f ->
  referenced_try_reconstitute reference (finding_status f) pass run = try_from_finding f.
Proof.
  intros Hnew Hf. destruct (finding_history_checked _ _ _ Hf) as [[Hproposal _ _] _].
  unfold proposal_try_new in Hnew. rewrite !if_false_Ok, !negb_false_iff, !orb_false_iff, !negb_false_iff in Hnew.
  rewrite !bool_decide_eq_true in Hnew.
  destruct Hnew as (_ & _ & Hpass & Hrun & [Hworkflow Hmatch] & [Hkind Hproduced] & [= <-]).
  unfold referenced_try_reconstitute, try_from_finding, finding_producer_authenticates.
  rewrite Hproposal. simpl. rewrite Hmatch, Hproduced, !bool_decide_true by done. simpl. rewrite orb_false_r.
  by destruct (referenced_finding_status_is_eligible (finding_status f)).
Qed.
