(* ===== verification/SessionPlacement.v ===== *)
(** * Session placement

    Model of [crates/domain/src/session_placement.rs]: dotted placement paths,
    the placement of a session with the acknowledged root, the decision whether
    one session may read another, placements of delegated children, and the
    versioned events of placement updates. *)

From stdpp Require Import strings.
From S2P Require Import Prelude Tool RunnerNames.

Local Open Scope list_scope.

(** ** Paths *)

Definition MAX_SESSION_PLACEMENT_DEPTH : nat := 64.
Definition MAX_SESSION_PLACEMENT_SEGMENT_BYTES : N := 64.

Record SessionPlacementPath := mkPlacementPath { placement_path_value : text }.

Inductive SessionPlacementPathError :=
| PathEmpty | PathEmptySegment | PathMalformedSegment | PathSegmentTooLong | PathTooDeep.

(** [b'.'] *)
Definition path_dot : N := 46.

(** The bytes of a segment: those of a scalar above the ASCII range are not
    admitted. *)
Definition is_segment_character (c : N) : bool :=
  is_alphanumeric_scalar c || ((c =? 45) || (c =? 95))%N.

Definition check_path_segment (index : nat) (segment : text) : result SessionPlacementPathError nat :=
  if index =? MAX_SESSION_PLACEMENT_DEPTH then Err PathTooDeep else
  if bool_decide (segment = []) then Err PathEmptySegment else
  if (MAX_SESSION_PLACEMENT_SEGMENT_BYTES <? text_len segment)%N then Err PathSegmentTooLong else
  if negb (forallb is_segment_character segment) then Err PathMalformedSegment else Ok (S index).

Definition placement_path_try_new (value : text) : result SessionPlacementPathError SessionPlacementPath :=
  if bool_decide (value = []) then Err PathEmpty else
  _ ← try_fold check_path_segment (split_on path_dot value) 0;
  Ok (mkPlacementPath value).

Definition path_depth (self : SessionPlacementPath) : nat :=
  length (List.filter (N.eqb path_dot) (placement_path_value self)) + 1.

(** [str::rsplit_once(separator)]: the texts around the last separator. *)
Fixpoint rsplit_once (separator : N) (value : text) : option (text * text) :=
  match value with
  | [] => None
  | c :: rest =>
      match rsplit_once separator rest with
      | Some (before, after) => Some (c :: before, after)
      | None => if (c =? separator)%N then Some ([], rest) else None
      end
  end.

(** The empty prefix is the root. *)
Record SessionPlacementDirectory := mkPlacementDirectory { directory_prefix : text }.

(** Up to the last separator and with it *)
Definition parent_directory (self : SessionPlacementPath) : SessionPlacementDirectory :=
  match rsplit_once path_dot (placement_path_value self) with
  | Some (before, _) => mkPlacementDirectory (before ++ [path_dot])
  | None => mkPlacementDirectory []
  end.

Definition directory_is_root (self : SessionPlacementDirectory) : bool :=
  bool_decide (directory_prefix self = []).

(** ** Placements *)

Inductive RootPlacementGlobalReadIntent := Acknowledged.

Record SessionPlacement := mkPlacement {
  placement_path : option SessionPlacementPath;
  root_global_read_intent : bool;
}.

Inductive SessionPlacementError := RootRequiresGlobalReadIntent | GlobalReadIntentRequiresRoot.

#[export] Instance SessionPlacementPath_eq_dec : EqDecision SessionPlacementPath.
Proof. solve_decision. Defined.
#[export] Instance SessionPlacement_eq_dec : EqDecision SessionPlacement.
Proof. solve_decision. Defined.

Definition pathless : SessionPlacement := mkPlacement None false.

Definition scoped (path : SessionPlacementPath) : result SessionPlacementError SessionPlacement :=
  if path_depth path =? 1 then Err RootRequiresGlobalReadIntent else Ok (mkPlacement (Some path) false).

Definition root_global_read (path : SessionPlacementPath) (intent : RootPlacementGlobalReadIntent) :
    result SessionPlacementError SessionPlacement :=
  if path_depth path =? 1
  then match intent with Acknowledged => Ok (mkPlacement (Some path) true) end
  else Err GlobalReadIntentRequiresRoot.

(** [SessionPlacement::delegated_child]; [simple] is the rendering of a UUID by
    the uuid crate. *)
Definition delegated_child (simple : N -> text) (self : SessionPlacement) (child : SessionId) : SessionPlacement :=
  match placement_path self with
  | None => pathless
  | Some path =>
      match rsplit_once path_dot (placement_path_value path) with
      | None => self
      | Some (directory, _) =>
          mkPlacement (Some (mkPlacementPath (directory ++ [path_dot] ++ simple (as_uuid child)))) false
      end
  end.

(** ** Reads across sessions *)

Inductive SessionReadRefusalReason := OutsideRequestingDirectorySubtree.

Record SessionReadScopeRefusal := mkReadRefusal {
  requesting_directory : SessionPlacementDirectory;
  read_refusal_reason : SessionReadRefusalReason;
}.

Inductive SessionReadScopeDecision :=
| ReadAllowed
| ReadRefused (refusal : SessionReadScopeRefusal).

Definition decide_cross_session_read (self target : SessionPlacement) : SessionReadScopeDecision :=
  match placement_path self with
  | None => ReadAllowed
  | Some requester_path =>
      let directory := parent_directory requester_path in
      let target_path := match placement_path target with Some path => placement_path_value path | None => [] end in
      if text_starts_with (directory_prefix directory) target_path
      then ReadAllowed
      else ReadRefused (mkReadRefusal directory OutsideRequestingDirectorySubtree)
  end.

(** ** Versions and events *)

(** [SessionPlacementVersion(NonZeroU64)] *)
Record SessionPlacementVersion := mkPlacementVersion { placement_version_value : positive }.
Definition placement_version_initial : SessionPlacementVersion := mkPlacementVersion 1.
Definition placement_version_try_from_u64 (value : N) : option SessionPlacementVersion :=
  match value with N0 => None | Npos value => Some (mkPlacementVersion value) end.

(** [wrapping_add(1)], which is zero after the last version *)
Definition placement_version_next (self : SessionPlacementVersion) : option SessionPlacementVersion :=
  match ((Npos (placement_version_value self) + 1) mod (u64_max + 1))%N with
  | N0 => None
  | Npos value => Some (mkPlacementVersion value)
  end.

Record VersionedSessionPlacement := mkVersionedPlacement {
  versioned_version : SessionPlacementVersion;
  versioned_placement : SessionPlacement;
}.
Definition versioned_initial (placement : SessionPlacement) : VersionedSessionPlacement :=
  mkVersionedPlacement placement_version_initial placement.

Record UpdateSessionPlacement := mkUpdatePlacement {
  update_command : DurableCommandId;
  update_session : SessionId;
  update_expected_version : SessionPlacementVersion;
  update_replacement : SessionPlacement;
}.

Inductive SessionPlacementEventKind := PlacementCreated | PlacementUpdated.

Record SessionPlacementEvent := mkPlacementEvent {
  placement_event_session : SessionId;
  placement_event_kind : SessionPlacementEventKind;
  placement_event_placement : VersionedSessionPlacement;
  placement_event_prior : option SessionPlacementVersion;
  placement_event_command : DurableCommandId;
}.

#[export] Instance SessionPlacementVersion_eq_dec : EqDecision SessionPlacementVersion.
Proof. solve_decision. Defined.
#[export] Instance SessionPlacementEventKind_eq_dec : EqDecision SessionPlacementEventKind.
Proof. solve_decision. Defined.

(** Equality of commands leaves out their identifiers. *)
Definition update_placement_eq (self other : UpdateSessionPlacement) : bool :=
  bool_decide (update_session self = update_session other)
  && bool_decide (update_expected_version self = update_expected_version other)
  && bool_decide (update_replacement self = update_replacement other).

Definition placement_event_created (session : SessionId) (placement : SessionPlacement) (command : DurableCommandId) :
    SessionPlacementEvent :=
  mkPlacementEvent session PlacementCreated (versioned_initial placement) None command.

Definition placement_event_updated (session : SessionId) (prior : SessionPlacementVersion)
    (placement : SessionPlacement) (command : DurableCommandId) : option SessionPlacementEvent :=
  version ← placement_version_next prior;
  Some (mkPlacementEvent session PlacementUpdated (mkVersionedPlacement version placement) (Some prior) command).

(** ** Results of an update *)

Record UpdateSessionPlacementApplied := mkUpdateApplied { applied_placement_event : SessionPlacementEvent }.

Definition update_applied_try_new (command : UpdateSessionPlacement) (event : SessionPlacementEvent) :
    option UpdateSessionPlacementApplied :=
  if bool_decide (placement_event_kind event = PlacementUpdated)
     && bool_decide (placement_event_session event = update_session command)
     && bool_decide (placement_event_command event = update_command command)
     && bool_decide (placement_event_prior event = Some (update_expected_version command))
     && bool_decide (versioned_placement (placement_event_placement event) = update_replacement command)
  then
    next ← placement_version_next (update_expected_version command);
    if bool_decide (versioned_version (placement_event_placement event) = next)
    then Some (mkUpdateApplied event) else None
  else None.

Inductive UpdateSessionPlacementRejectionKind :=
| PlacementSessionNotFound | CurrentVersionMismatch | PlacementVersionExhausted.

Record UpdateSessionPlacementRejection := mkUpdateRejection {
  update_rejection_session : SessionId;
  update_rejection_expected : SessionPlacementVersion;
  update_rejection_current : option SessionPlacementVersion;
  update_rejection_kind : UpdateSessionPlacementRejectionKind;
}.

Inductive UpdateSessionPlacementResult :=
| UpdateApplied (applied : UpdateSessionPlacementApplied)
| UpdateRejected (rejection : UpdateSessionPlacementRejection).

Definition placement_session_not_found (command : UpdateSessionPlacement) : UpdateSessionPlacementRejection :=
  mkUpdateRejection (update_session command) (update_expected_version command) None PlacementSessionNotFound.

Definition current_version_mismatch (command : UpdateSessionPlacement) (current : SessionPlacementVersion) :
    option UpdateSessionPlacementRejection :=
  if (placement_version_value current =? placement_version_value (update_expected_version command))%positive
  then None
  else Some (mkUpdateRejection (update_session command) (update_expected_version command) (Some current)
               CurrentVersionMismatch).

Definition version_exhausted (command : UpdateSessionPlacement) (current : SessionPlacementVersion) :
    option UpdateSessionPlacementRejection :=
  if negb (placement_version_value current =? placement_version_value (update_expected_version command))%positive
     || bool_decide (is_Some (placement_version_next current))
  then None
  else Some (mkUpdateRejection (update_session command) (update_expected_version command) (Some current)
               PlacementVersionExhausted).
