(* ===== verification/SessionPlacementSpec.v ===== *)
(** * Session placement: paths and read scopes

    Comparing texts with the prefix of a directory is comparing segments, so a
    session reads exactly what lies in its directory, a delegated child reads
    and is read like its parent, and an update has one result. *)

From stdpp Require Import strings.
From S2P Require Import Prelude Tool RunnerNames SessionPlacement.

Local Open Scope list_scope.

(** ** Segments *)

(** The segments of a dotted text, and the text of segments. *)
Abbreviation segments := (split_on path_dot).

Fixpoint dotted (parts : list text) : text :=
  match parts with
  | [] => []
  | [part] => part
  | part :: rest => part ++ path_dot :: dotted rest
  end.

Definition undotted (part : text) : Prop := path_dot ∉ part.

Lemma segments_cons value : exists part parts, segments value = part :: parts.
Proof.
  induction value as [|c rest (part & parts & IH)]; simpl; [by eauto|].
  destruct (c =? path_dot)%N; [by eauto|]. rewrite IH. by eauto.
Qed.

Lemma dotted_cons part parts : parts <> [] -> dotted (part :: parts) = part ++ path_dot :: dotted parts.
Proof. by destruct parts. Qed.

Lemma dotted_segments value : dotted (segments value) = value.
Proof.
  induction value as [|c rest IH]; [done|]. cbn [split_on].
  destruct (N.eqb_spec c path_dot) as [->|Hc].
  - rewrite dotted_cons; [by rewrite IH|]. destruct (segments_cons rest) as (? & ? & ->). done.
  - destruct (segments_cons rest) as (part & parts & Hs). rewrite Hs in *. destruct parts as [|next parts].
    + simpl in *. by rewrite IH.
    + rewrite dotted_cons in * by done. simpl. by rewrite <- IH.
Qed.

Lemma segments_undotted value : Forall undotted (segments value).
Proof.
  induction value as [|c rest IH]; cbn [split_on]; [constructor; [apply not_elem_of_nil|constructor]|].
  destruct (N.eqb_spec c path_dot) as [->|Hc]; [constructor; [apply not_elem_of_nil|done]|].
  destruct (segments_cons rest) as (part & parts & Hs). rewrite Hs in *. apply Forall_cons in IH as [Hpart Hparts].
  constructor; [|done]. unfold undotted in *. set_solver.
Qed.

Lemma segments_part part rest :
  undotted part -> segments (part ++ path_dot :: rest) = part :: segments rest.
Proof.
  unfold undotted. induction part as [|c part IH]; intros Hpart; [by simpl|].
  cbn [app split_on]. rewrite not_elem_of_cons in Hpart. destruct Hpart as [Hc Hpart].
  rewrite (proj2 (N.eqb_neq c path_dot)) by congruence. by rewrite IH.
Qed.

Lemma segments_single part : undotted part -> segments part = [part].
Proof.
  unfold undotted. induction part as [|c part IH]; intros Hpart; [done|]. cbn [split_on].
  rewrite not_elem_of_cons in Hpart. destruct Hpart as [Hc Hpart].
  rewrite (proj2 (N.eqb_neq c path_dot)) by congruence. by rewrite IH.
Qed.

Lemma segments_dotted parts : parts <> [] -> Forall undotted parts -> segments (dotted parts) = parts.
Proof.
  induction parts as [|part parts IH]; [done|]. intros _ [Hpart Hparts]%Forall_cons.
  destruct parts as [|next parts]; [by apply segments_single|].
  rewrite dotted_cons, segments_part by done. by rewrite IH.
Qed.

Lemma dotted_app parts rest :
  parts <> [] -> rest <> [] -> dotted (parts ++ rest) = dotted parts ++ path_dot :: dotted rest.
Proof.
  intros Hparts Hrest. induction parts as [|part parts IH]; [done|].
  destruct parts as [|next parts]; [by apply dotted_cons|].
  change ((part :: next :: parts) ++ rest) with (part :: (next :: parts) ++ rest).
  rewrite !dotted_cons, IH by done. by rewrite <- app_assoc.
Qed.

(** Splitting at the last dot takes off the last segment. *)
Lemma rsplit_once_None value : rsplit_once path_dot value = None <-> undotted value.
Proof.
  unfold undotted. induction value as [|c rest IH]; simpl; [split; [set_solver|done]|].
  destruct (rsplit_once path_dot rest) as [[before after]|].
  - split; [done|]. intros Hno. rewrite not_elem_of_cons in Hno. by destruct IH as [_ IH]; specialize (IH (proj2 Hno)).
  - destruct (N.eqb_spec c path_dot) as [->|Hc]; [split; [done|set_solver]|].
    split; [|done]. intros _. apply not_elem_of_cons. split; [congruence|by apply IH].
Qed.

Lemma rsplit_once_part before after :
  undotted after -> rsplit_once path_dot (before ++ path_dot :: after) = Some (before, after).
Proof.
  intros Hafter. induction before as [|c before IH]; simpl.
  - by rewrite (proj2 (rsplit_once_None after) Hafter).
  - by rewrite IH.
Qed.

Lemma rsplit_segments value :
  rsplit_once path_dot value =
  match removelast (segments value) with
  | [] => None
  | parts => Some (dotted parts, List.last (segments value) [])
  end.
Proof.
  destruct (segments_cons value) as (first & others & Hs).
  pose proof (segments_undotted value) as Hall. pose proof (dotted_segments value) as Hvalue.
  destruct (exists_last (l := segments value)) as (parts & after & Hsplit); [by rewrite Hs|].
  rewrite Hsplit in *. rewrite removelast_last, last_last. apply Forall_app in Hall as [Hparts [Hafter _]%Forall_cons].
  rewrite <- Hvalue. destruct parts as [|part parts]; [by apply rsplit_once_None|].
  rewrite dotted_app by done. by apply rsplit_once_part.
Qed.

(** ** Admitted paths *)

Definition segment_ok (segment : text) : Prop :=
  segment <> [] /\ (text_len segment <= MAX_SESSION_PLACEMENT_SEGMENT_BYTES)%N
  /\ forallb is_segment_character segment = true.

Definition path_ok (path : SessionPlacementPath) : Prop :=
  let parts := segments (placement_path_value path) in
  length parts <= MAX_SESSION_PLACEMENT_DEPTH /\ (forall segment, segment ∈ parts -> segment_ok segment).

Lemma check_path_segment_Ok index segment next :
  check_path_segment index segment = Ok next <->
  (index <> MAX_SESSION_PLACEMENT_DEPTH /\ segment_ok segment) /\ next = S index.
Proof.
  unfold check_path_segment, segment_ok.
  rewrite !if_false_Ok, Nat.eqb_neq, bool_decide_eq_false, N.ltb_ge, negb_false_iff. naive_solver.
Qed.

Lemma placement_path_try_new_Ok value path :
  placement_path_try_new value = Ok path <-> path = mkPlacementPath value /\ path_ok path.
Proof.
  unfold placement_path_try_new, path_ok. rewrite if_false_Ok, bool_decide_eq_false, bind_Ok.
  assert (forall depth, try_fold check_path_segment (segments value) 0 = Ok depth <->
    (length (segments value) <= MAX_SESSION_PLACEMENT_DEPTH
     /\ forall segment, segment ∈ segments value -> segment_ok segment) /\ depth = length (segments value)) as Hfold.
  { intros depth. rewrite (try_fold_checked check_path_segment length
      (fun earlier segment => length earlier <> MAX_SESSION_PLACEMENT_DEPTH /\ segment_ok segment)).
    - rewrite (checked_and (fun earlier _ => length earlier <> MAX_SESSION_PLACEMENT_DEPTH)), checked_all.
      rewrite (checked_index (fun index _ => index <> MAX_SESSION_PLACEMENT_DEPTH)).
      assert ((forall i segment, segments value !! i = Some segment -> i <> MAX_SESSION_PLACEMENT_DEPTH)
        <-> length (segments value) <= MAX_SESSION_PLACEMENT_DEPTH) as ->; [|done]. split.
      + intros Hall. destruct (le_lt_dec (length (segments value)) MAX_SESSION_PLACEMENT_DEPTH) as [|Hlt]; [done|].
        apply lookup_lt_is_Some_2 in Hlt as [segment Hsegment]. by destruct (Hall _ _ Hsegment).
      + intros Hle i segment Hi%lookup_lt_Some. lia.
    - intros earlier segment next _. rewrite check_path_segment_Ok, length_app. simpl.
      by rewrite Nat.add_1_r. }
  setoid_rewrite Hfold. split.
  - intros (_ & depth & [Hok _] & [= <-]). done.
  - intros [-> Hok]. cbn [placement_path_value] in Hok. split; [|by exists (length (segments value))].
    intros ->. destruct (proj2 Hok []) as [? _]; [left|done].
Qed.

Lemma path_depth_segments path : path_depth path = length (segments (placement_path_value path)).
Proof.
  unfold path_depth. generalize (placement_path_value path) as value. induction value as [|c rest IH]; [done|].
  cbn [split_on List.filter]. rewrite (N.eqb_sym path_dot c). destruct (c =? path_dot)%N; simpl; [lia|].
  destruct (segments_cons rest) as (part & parts & Hs). rewrite Hs in *. simpl in *. lia.
Qed.

(** The placements the constructors give. *)
Inductive built_placement : SessionPlacement -> Prop :=
| built_placement_pathless : built_placement pathless
| built_placement_scoped value path placement :
    placement_path_try_new value = Ok path -> scoped path = Ok placement -> built_placement placement
| built_placement_root value path intent placement :
    placement_path_try_new value = Ok path -> root_global_read path intent = Ok placement -> built_placement placement.

Lemma built_placement_exact placement :
  built_placement placement <->
  match placement_path placement with
  | None => root_global_read_intent placement = false
  | Some path => path_ok path /\ root_global_read_intent placement = (path_depth path =? 1)
  end.
Proof.
  split.
  - intros [|value path placement' Hpath Hscoped|value path intent placement' Hpath Hroot]; [done|..];
      apply placement_path_try_new_Ok in Hpath as [_ Hok].
    + unfold scoped in Hscoped. destruct (path_depth path =? 1) eqn:Hdepth; [done|]. injection Hscoped as <-. done.
    + unfold root_global_read in Hroot. destruct (path_depth path =? 1) eqn:Hdepth; [|done].
      destruct intent. injection Hroot as <-. done.
  - destruct placement as [[path|] intent]; simpl; [|intros ->; constructor].
    intros [Hok ->]. assert (placement_path_try_new (placement_path_value path) = Ok path) as Hpath
      by (apply placement_path_try_new_Ok; split; [by destruct path|done]).
    destruct (path_depth path =? 1) eqn:Hdepth.
    + apply (built_placement_root (placement_path_value path) path Acknowledged); [done|].
      unfold root_global_read. by rewrite Hdepth.
    + apply (built_placement_scoped (placement_path_value path) path); [done|]. unfold scoped. by rewrite Hdepth.
Qed.

(** ** Read scopes *)

Lemma starts_with_app prefix value : text_starts_with prefix value = true <-> exists rest, value = prefix ++ rest.
Proof.
  revert value. induction prefix as [|c prefix IH]; intros value; simpl; [split; [by exists value|done]|].
  destruct value as [|d value]; [split; [done|by intros [? ?]]|].
  rewrite andb_true_iff, N.eqb_eq, IH. split; [intros [-> [rest ->]]; by exists rest|].
  intros [rest [= -> ->]]. split; [done|by exists rest].
Qed.

(** The segments of the directory a path is in. *)
Definition directory_of (path : SessionPlacementPath) : list text := removelast (segments (placement_path_value path)).

Lemma directory_prefix_segments path value :
  text_starts_with (directory_prefix (parent_directory path)) value = true <->
  exists rest, rest <> [] /\ segments value = directory_of path ++ rest.
Proof.
  unfold parent_directory, directory_of. rewrite rsplit_segments.
  assert (Forall undotted (removelast (segments (placement_path_value path)))) as Hundotted.
  { pose proof (segments_undotted (placement_path_value path)) as Hall.
    destruct (segments_cons (placement_path_value path)) as (first & others & Hs).
    rewrite (app_removelast_last [] (l := segments (placement_path_value path))) in Hall by by rewrite Hs.
    by apply Forall_app in Hall as [? _]. }
  destruct (removelast (segments (placement_path_value path))) as [|part parts]; cbn [directory_prefix].
  { split; [|done]. intros _. exists (segments value). split; [|done]. by destruct (segments_cons value) as (? & ? & ->). }
  rewrite starts_with_app. split.
  - intros [rest ->]. exists (segments rest). split; [by destruct (segments_cons rest) as (? & ? & ->)|].
    rewrite <- app_assoc. simpl app at 2. rewrite <- (dotted_segments rest) at 1.
    assert (segments rest <> []) as Hne by by destruct (segments_cons rest) as (? & ? & ->).
    rewrite <- dotted_app by done. apply segments_dotted; [by destruct parts|].
    apply Forall_app. split; [done|apply segments_undotted].
  - intros (rest & Hne & Hs). exists (dotted rest). rewrite <- (dotted_segments value), Hs, dotted_app by done.
    by rewrite <- app_assoc.
Qed.

(** What a session may read: everything when it has no path or is a root,
    otherwise what lies in its directory or below. *)
Definition in_read_scope (requester target : SessionPlacement) : Prop :=
  match placement_path requester with
  | None => True
  | Some path => directory_of path = [] \/
      exists target_path rest, placement_path target = Some target_path /\ rest <> []
        /\ segments (placement_path_value target_path) = directory_of path ++ rest
  end.

Lemma decide_read_exact requester target :
  decide_cross_session_read requester target = ReadAllowed <-> in_read_scope requester target.
Proof.
  unfold decide_cross_session_read, in_read_scope. destruct (placement_path requester) as [path|]; [|done].
  pose proof (directory_prefix_segments path) as Hprefix.
  destruct (placement_path target) as [target_path|].
  - specialize (Hprefix (placement_path_value target_path)).
    destruct (text_starts_with _ _); split; intros Hread; try done.
    + right. destruct Hprefix as [Hprefix _]. destruct (Hprefix eq_refl) as (rest & ? & ?). by exists target_path, rest.
    + assert (false = true) by (apply Hprefix; destruct Hread as [Hroot|(? & rest & [= <-] & Hne & Hs)];
        [rewrite Hroot; exists (segments (placement_path_value target_path)); split;
           [by destruct (segments_cons (placement_path_value target_path)) as (? & ? & ->)|done]
        |by exists rest]). done.
  - specialize (Hprefix []). destruct (text_starts_with _ _); split; intros Hread; try done.
    + left. destruct Hprefix as [Hprefix _]. destruct (Hprefix eq_refl) as (rest & Hne & Hs). simpl in Hs.
      destruct (directory_of path) as [|part parts]; [done|]. injection Hs as _ Hs. by destruct parts, rest.
    + assert (false = true) by (apply Hprefix; destruct Hread as [->|(? & ? & ? & _)]; [by exists [[]]|done]). done.
Qed.

(** A session reads another exactly when it has no path, is a root, or the
    other lies in its directory: the comparison of texts never takes a name
    that begins alike for the directory. A refusal names that directory. *)
Theorem read_scope_exact requester target (Hrequester : built_placement requester) (Htarget : built_placement target) :
  (decide_cross_session_read requester target = ReadAllowed <-> in_read_scope requester target)
  /\ (root_global_read_intent requester = true -> in_read_scope requester target)
  /\ (forall refusal, decide_cross_session_read requester target = ReadRefused refusal ->
       exists path, placement_path requester = Some path /\ requesting_directory refusal = parent_directory path
         /\ directory_of path <> []).
Proof.
  split; [apply decide_read_exact|]. split.
  - apply built_placement_exact in Hrequester. unfold in_read_scope.
    destruct (placement_path requester) as [path|]; [|done]. destruct Hrequester as [_ ->].
    rewrite Nat.eqb_eq, path_depth_segments. intros Hone. left. unfold directory_of.
    destruct (segments_cons (placement_path_value path)) as (part & parts & Hs). rewrite Hs in *. by destruct parts.
  - intros refusal Hrefused. assert (~ in_read_scope requester target) as Hout
      by (intros Hread%decide_read_exact; congruence).
    unfold decide_cross_session_read, in_read_scope in *.
    destruct (placement_path requester) as [path|]; [|done]. exists path. split; [done|].
    destruct (text_starts_with _ _); [done|]. injection Hrefused as <-. split; [done|]. intros Hroot. by destruct Hout; left.
Qed.

Lemma read_scope_exact_witness :
  let path value := mkPlacementPath (lit value) in
  let requester := mkPlacement (Some (path "projects.foo.session")) false in
  let target := mkPlacement (Some (path "projects.foobar.session")) false in
  built_placement requester /\ built_placement target /\ decide_cross_session_read requester target <> ReadAllowed.
Proof.
  intros path requester target.
  assert (built_placement requester) as Hrequester
    by (apply (built_placement_scoped (lit "projects.foo.session") (path "projects.foo.session")); reflexivity).
  assert (built_placement target) as Htarget
    by (apply (built_placement_scoped (lit "projects.foobar.session") (path "projects.foobar.session")); reflexivity).
  split; [exact Hrequester|]. split; [exact Htarget|]. intros Hread.
  apply (proj1 (read_scope_exact requester target Hrequester Htarget)) in Hread.
  destruct Hread as [Hroot|(? & rest & [= <-] & Hne & Hs)]; discriminate.
Defined.

(** ** Delegated children *)

(** A lowercase hexadecimal digit. *)
Definition is_hex_scalar (c : N) : bool := ((48 <=? c) && (c <=? 57) || (97 <=? c) && (c <=? 102))%N.

(** The simple form of a UUID: thirty-two lowercase hexadecimal digits. *)
Definition simple_form (simple : N -> text) : Prop :=
  forall id, length (simple id) = 32 /\ forallb is_hex_scalar (simple id) = true.

Lemma hex_segment value : value <> [] -> length value = 32 -> forallb is_hex_scalar value = true -> segment_ok value /\ undotted value.
Proof.
  intros Hne Hlen Hhex. assert (forall c, is_hex_scalar c = true ->
    is_segment_character c = true /\ (utf8_width c = 1)%N /\ c <> path_dot) as Hchar.
  { intros c. unfold is_hex_scalar, is_segment_character, is_alphanumeric_scalar, is_digit_scalar, utf8_width, path_dot.
    rewrite orb_true_iff, !andb_true_iff, !N.leb_le. intros Hc. split_and!; [|by destruct (N.ltb_spec c 128); [|lia]|lia].
    rewrite !orb_true_iff, !andb_true_iff, !N.leb_le. lia. }
  assert (forallb is_segment_character value = true /\ text_len value = N.of_nat (length value) /\ undotted value)
    as (Hlabel & Htext & Hdot).
  { unfold undotted. clear Hne Hlen. induction value as [|c value IH]; [split_and!; [done|done|apply not_elem_of_nil]|].
    simpl in Hhex. apply andb_true_iff in Hhex as [Hc Hhex]. apply Hchar in Hc as (Hc & Hwidth & Hdot).
    destruct (IH Hhex) as (? & Hlen & ?). split_and!.
    - simpl. by rewrite Hc.
    - cbn [text_len length]. rewrite Hwidth, Hlen. lia.
    - by apply not_elem_of_cons. }
  split; [|done]. split_and!; [done| |done]. rewrite Htext, Hlen. done.
Qed.

(** Whether a path is in a directory is decided by its own directory. *)
Lemma below_directory own directory path last_segment :
  segments (placement_path_value path) = own ++ [last_segment] ->
  (exists target_path rest, Some path = Some target_path /\ rest <> []
     /\ segments (placement_path_value target_path) = directory ++ rest)
  <-> exists rest, own = directory ++ rest.
Proof.
  intros Hpath. split.
  - intros (? & rest & [= <-] & Hrest & Heq). destruct (exists_last Hrest) as (rest' & x & ->).
    rewrite Hpath, app_assoc in Heq. apply app_inj_tail in Heq as [-> _]. by exists rest'.
  - intros [rest Heq]. exists path, (rest ++ [last_segment]). split; [done|]. split; [by destruct rest|].
    by rewrite Hpath, Heq, <- app_assoc.
Qed.

(** The placement of a delegated child is one the constructors give, and
    the child reads, and is read by, exactly what its parent reads and is read
    by. *)
Theorem delegated_child_scope simple placement child (Hsimple : simple_form simple) (Hplaced : built_placement placement) :
  built_placement (delegated_child simple placement child)
  /\ (forall target, decide_cross_session_read (delegated_child simple placement child) target
       = decide_cross_session_read placement target)
  /\ forall reader, decide_cross_session_read reader (delegated_child simple placement child) = ReadAllowed <->
       decide_cross_session_read reader placement = ReadAllowed.
Proof.
  destruct (Hsimple (as_uuid child)) as [Hlen Hhex].
  assert (simple (as_uuid child) <> []) as Hne by (intros Heq; by rewrite Heq in Hlen).
  destruct (hex_segment _ Hne Hlen Hhex) as [Hsegment Hundotted].
  unfold delegated_child. destruct placement as [[path|] intent]; cbn [placement_path].
  2: { apply built_placement_exact in Hplaced. simpl in Hplaced. subst intent.
       split_and!; [constructor|done|done]. }
  destruct (rsplit_once path_dot (placement_path_value path)) as [[directory after]|] eqn:Hsplit; [|done].
  set (child_path := mkPlacementPath (directory ++ [path_dot] ++ simple (as_uuid child))).
  assert (parent_directory child_path = parent_directory path) as Hparent.
  { unfold parent_directory. rewrite Hsplit. simpl. by rewrite rsplit_once_part. }
  pose proof (rsplit_segments (placement_path_value path)) as Hparts. rewrite Hsplit in Hparts.
  fold (directory_of path) in Hparts. destruct (directory_of path) as [|part parts] eqn:Hdir; [done|].
  injection Hparts as -> _.
  destruct (exists_last (l := segments (placement_path_value path))) as (before & last & Hs);
    [by destruct (segments_cons (placement_path_value path)) as (? & ? & ->)|].
  assert (before = part :: parts) as -> by (unfold directory_of in Hdir; by rewrite Hs, removelast_last in Hdir).
  assert (Forall undotted (part :: parts)) as Hall
    by (pose proof (segments_undotted (placement_path_value path)) as Hall; rewrite Hs in Hall; by apply Forall_app in Hall as [? _]).
  assert (segments (placement_path_value child_path) = (part :: parts) ++ [simple (as_uuid child)]) as Hchild.
  { assert (placement_path_value child_path = dotted ((part :: parts) ++ [simple (as_uuid child)])) as ->
      by by rewrite dotted_app.
    apply segments_dotted; [done|]. apply Forall_app. by rewrite Forall_singleton. }
  split_and!.
  - apply built_placement_exact. cbn [placement_path root_global_read_intent]. split.
    + apply built_placement_exact in Hplaced as [[Hdepth Hsegments] _]. unfold path_ok. rewrite Hchild. rewrite Hs in *.
      rewrite !length_app in *. split; [done|]. intros segment [Hin|Hin]%elem_of_app; [|by apply list_elem_of_singleton in Hin as ->].
      apply Hsegments, elem_of_app. by left.
    + rewrite path_depth_segments, Hchild, length_app. simpl. symmetry. apply Nat.eqb_neq. lia.
  - intros target. unfold decide_cross_session_read. cbn [placement_path]. by rewrite Hparent.
  - intros reader. rewrite !decide_read_exact. unfold in_read_scope. cbn [placement_path].
    destruct (placement_path reader) as [reader_path|]; [|done]. apply or_iff_compat_l.
    by rewrite (below_directory (part :: parts) _ child_path _ Hchild), (below_directory (part :: parts) _ path _ Hs).
Qed.

(** Thirty-two digits of the value. *)
Definition hex_digit (nibble : N) : N := if (nibble <? 10)%N then 48 + nibble else 87 + nibble.
Definition hex_simple (value : N) : text :=
  (fun i => hex_digit (N.land (N.shiftr value (4 * N.of_nat (31 - i))) 15)) <$> seq 0 32.

Lemma hex_simple_form : simple_form hex_simple.
Proof.
  intros value. split; [done|]. apply forallb_forall. intros c (i & <- & _)%in_map_iff.
  generalize (N.shiftr value (4 * N.of_nat (31 - i))) as v. intros v. change 15%N with (N.ones 4).
  rewrite N.land_ones. assert (v mod 2 ^ 4 < 16)%N as Hlt by by apply N.mod_lt.
  revert Hlt. generalize (v mod 2 ^ 4)%N as m. intros m Hlt.
  unfold hex_digit, is_hex_scalar. rewrite orb_true_iff, !andb_true_iff, !N.leb_le.
  destruct (N.ltb_spec m 10); lia.
Qed.

Lemma delegated_child_scope_witness :
  let path value := mkPlacementPath (lit value) in
  let parent := mkPlacement (Some (path "projects.review.parent")) false in
  let sibling := mkPlacement (Some (path "projects.review.other.deep")) false in
  let child := delegated_child hex_simple parent (from_uuid 255) in
  placement_path child = Some (path "projects.review.000000000000000000000000000000ff")
  /\ built_placement child /\ decide_cross_session_read child sibling = ReadAllowed.
Proof.
  intros path parent sibling child.
  assert (built_placement parent) as Hparent
    by (apply (built_placement_scoped (lit "projects.review.parent") (path "projects.review.parent")); reflexivity).
  destruct (delegated_child_scope hex_simple parent (from_uuid 255) hex_simple_form Hparent) as (Hchild & Hreads & _).
  split; [reflexivity|]. split; [exact Hchild|]. unfold child. rewrite Hreads. reflexivity.
Defined.

(** ** Updates *)

Lemma placement_version_next_Some version next :
  (Npos (placement_version_value version) <= u64_max)%N ->
  placement_version_next version = Some next <->
  Npos (placement_version_value next) = (Npos (placement_version_value version) + 1)%N
  /\ (Npos (placement_version_value next) <= u64_max)%N.
Proof.
  intros Hbound. unfold placement_version_next.
  destruct (N.eq_dec (Npos (placement_version_value version)) u64_max) as [Hmax|Hmax].
  - rewrite Hmax, N.Div0.mod_same. split; [done|]. intros [Hnext Hle]. lia.
  - rewrite N.mod_small by lia. destruct (Npos (placement_version_value version) + 1)%N as [|value] eqn:Hnext; [lia|].
    split; [intros [= <-]; simpl; split; [done|lia]|]. intros [[= <-] _]. by destruct next.
Qed.

(** An update of a session's placement has exactly one outcome: against the
    version it expects it is applied by the one event that continues the
    history, or there is no later version in sixty-four bits; against any other
    version it is a mismatch. *)
Theorem placement_update_exact command current
    (Hbound : (Npos (placement_version_value current) <= u64_max)%N) :
  let expected := update_expected_version command in
  (forall event applied, update_applied_try_new command event = Some applied <->
     placement_event_updated (update_session command) expected (update_replacement command) (update_command command)
       = Some event /\ applied = mkUpdateApplied event)
  /\ (is_Some (current_version_mismatch command current) <-> current <> expected)
  /\ (is_Some (version_exhausted command current) <->
       current = expected /\ Npos (placement_version_value current) = u64_max)
  /\ (current = expected -> (Npos (placement_version_value current) < u64_max)%N ->
       exists event applied, update_applied_try_new command event = Some applied
         /\ Npos (placement_version_value (versioned_version (placement_event_placement event)))
            = (Npos (placement_version_value current) + 1)%N).
Proof.
  intros expected.
  assert (forall event applied, update_applied_try_new command event = Some applied <->
     placement_event_updated (update_session command) expected (update_replacement command) (update_command command)
       = Some event /\ applied = mkUpdateApplied event) as Happlied.
  { intros event applied. unfold update_applied_try_new, placement_event_updated. fold expected.
    destruct event as [session kind [version placement] prior event_command]. simpl.
    destruct (placement_version_next expected) as [next|]; simpl.
    - repeat case_bool_decide; simpl; naive_solver.
    - split; [by destruct (_ && _)|naive_solver]. }
  assert (forall a b, (placement_version_value a =? placement_version_value b)%positive = bool_decide (a = b)) as Heq.
  { intros [a] [b]. simpl. destruct (Pos.eqb_spec a b) as [->|Hne]; [by rewrite bool_decide_true|].
    rewrite bool_decide_false; congruence. }
  split_and!; [done|..].
  - unfold current_version_mismatch. rewrite Heq. case_bool_decide; naive_solver.
  - unfold version_exhausted. rewrite Heq. fold expected. destruct (decide (current = expected)) as [He|He].
    + rewrite (bool_decide_true _ He). cbn [negb orb]. case_bool_decide as Hnext.
      * split; [by intros []|]. intros [_ Hmax]. destruct Hnext as [next Hnext].
        apply placement_version_next_Some in Hnext as [Hv Hle]; [|done]. lia.
      * split; [|by eauto]. intros _. split; [done|]. apply N.le_antisymm; [done|]. apply N.nlt_ge. intros Hlt.
        destruct Hnext. exists (mkPlacementVersion (Pos.succ (placement_version_value current))).
        apply placement_version_next_Some; [done|]. simpl. lia.
    + rewrite (bool_decide_false _ He). simpl. split; [by intros []|by intros [? _]].
  - intros He Hlt. set (next := mkPlacementVersion (Pos.succ (placement_version_value current))).
    exists (mkPlacementEvent (update_session command) PlacementUpdated
      (mkVersionedPlacement next (update_replacement command)) (Some expected) (update_command command)).
    eexists. split.
    + apply Happlied. split; [|done]. unfold placement_event_updated. rewrite <- He.
      rewrite (proj2 (placement_version_next_Some current next Hbound)); [done|]. simpl. lia.
    + simpl. lia.
Qed.

Lemma placement_update_exact_witness :
  let command := mkUpdatePlacement (from_uuid 1) (from_uuid 2) (mkPlacementVersion 7) pathless in
  exists event applied, update_applied_try_new command event = Some applied
    /\ versioned_version (placement_event_placement event) = mkPlacementVersion 8.
Proof.
  intros command.
  destruct (placement_update_exact command (mkPlacementVersion 7)) as (_ & _ & _ & Happly); [by vm_compute|].
  destruct (Happly eq_refl) as (event & applied & Hevent & Hversion); [reflexivity|].
  exists event, applied. split; [exact Hevent|].
  destruct (versioned_version (placement_event_placement event)) as [value]. injection Hversion as ->. reflexivity.
Defined.
